(* ===== verification/_CoqProject ===== *)
-Q . S2P
Prelude.v
GoStrings.v
Ref.v
Text.v
FileName.v
Errors.v
Types.v
Events.v
Entry.v
Store.v
MemoryStore.v
Record.v
Rebuild.v
Simulation.v
Recovery.v
Durable.v
Opening.v
CrashSafety.v
Writer.v
WriterSafety.v
Fencing.v
Feed.v
Streams.v
ControlQueue.v
SessionLocks.v
Request.v
Cut.v
SegmentBuild.v
Digest.v
Compactor.v
Compaction.v
AutoCompact.v
FileSystem.v
FileStore.v
FileLog.v
FileEquiv.v
FileCrash.v
FileSafety.v
Schema.v
ToolRegistry.v
ToolVisibility.v
Reply.v
Session.v
ToolBatch.v
RunLoop.v
RunSpec.v
RunMoves.v
RunCalls.v
RunSample.v
RunSafety.v
RunProgress.v
RunTools.v
FunctionNames.v
Sse.v
Classify.v
ModelClient.v
ModelStream.v
Deferred.v
ChatDecoder.v
AnthropicDecoder.v
ResponsesDecoder.v
Heartbeat.v
Warm.v
RunTable.v
Admission.v
SessionLife.v
ControlMessages.v
Profile.v
ProfileDoc.v
Originals.v
RecordFork.v
ReadBack.v
ProfileRegistry.v
RunHandle.v
FollowOn.v
Releases.v
WireRequest.v
AnthropicRequest.v
ChatRequest.v
ResponsesRequest.v
