(* ===== verification/Prelude.v ===== *)
(** * A verification development for Gotato

    Gotato is a runtime for agents written in Go: a Session talks to a Model, runs the Tools
    the Model calls, keeps everything that was said in a Record, and compacts the Record when
    it grows past the Model's window.  This library models the packages that carry that logic
    and proves what they promise each other.  Paths are relative to [src/].

    ** The program's parts and how they meet

    - [ref/], [internal/text/]: small pure packages: the refs of originals, and the cutting and
      escaping of text.
    - [gotato/]: the core.  A Run ([loop.go]) goes Turn by Turn: it takes what waits in the
      control queue ([controlqueue.go]), builds a request ([request.go]), reads the Model's
      reply ([reply.go]), runs the Tools it asks for ([toolbatch.go], [toolregistry.go]),
      commits every Message to the Transcript ([history.go]), and stages Events that the
      Journal stores before a publisher sees them ([eventwrite.go], [feed.go],
      [subscription.go]).
    - [record/]: a Record is the live state of a Session and the log of Entries it is rebuilt
      from; it is the Transcript and the Journal of the core.  A compaction replaces old
      Messages with a Segment.
    - [store/]: where logs are kept (in memory, or in files), and the Writer, which writes one
      Record as the Instance that holds its Claim.
    - [host/]: what a process does with many Sessions: the row that says it is alive, the
      Runs it admits, the copies of idle Sessions it keeps, and the locks that serialise the Runs of
      one Session.
    - [profile/]: what a host runs Sessions from: AgentProfiles, and TaskSpecs that narrow them, as
      values or as documents in a store.
    - [model/]: the clients of providers.  A client sends a request with retries, and hands back
      a stream; the one stream loop reads server-sent events, gives them to the decoder of the
      wire API, and opens a stream that was cut again.

    A Run calls a Model through a client of [model/], whose reports of retries make it drop what
    it has of a reply.  It calls the Record through its Transcript and the Writer through its Journal; the Writer
    takes pending Events from the Record, appends them to the store, confirms them, and hands
    them to the Feed; Subscriptions read the Feed, and the store again for what they missed.

    ** Which file models what

    Basics.  [Prelude]: results, machine integers, notations, generic lemmas.  [GoStrings]: Go's
    strings as bytes, with UTF-8 decoding.  [Ref]: [ref/ref.go].  [Text]: [internal/text].
    [FileName]: [store/file_name.go].

    Data.  [Errors]: [gotato/errors.go].  [Types]: [gotato/types.go], [segment.go].  [Events]:
    [gotato/events.go], [eventkinds.go].  [Entry]: [record/entry.go], [header.go].

    The log and its writer.  [Store]: the checks and the contract of [store/store.go], the class
    [Records].  [MemoryStore]: [store/memory.go], an instance of it.  [Record]: the operations of
    a live Record, one definition for each exported method (a method holds the Record's lock,
    so it is a function of the state).  [Rebuild]: the reading half.  [Simulation], [Recovery],
    [Durable], [CrashSafety]: the relation of a live Record to its log, and the refinement.
    [RecordFork]: [document.go] and [Fork] of [record.go].  [Originals]: [originals.go],
    [committed.go], [recordepoch.go], and the reads of [spilled.go].  [ReadBack]: [readback.go],
    [read_result.go], [read_segment.go], over any originals.
    [Writer]: [store/writer.go], over any instance of [Records]; [WriterSafety], [Fencing]: its
    theorems.

    The file store.  [FileSystem]: system calls, with what a power cut may take.  [FileStore]:
    the methods of [store/file.go] as programs of such calls.  [FileLog], [FileEquiv],
    [FileCrash], [FileSafety]: one handle at a time, and then any number of processes that
    interleave at every system call, with crashes and power cuts.

    Streams and queues.  [Feed]: the critical sections of [gotato/feed.go], [subscription.go];
    [Streams]: their interleavings.  [ControlQueue]: [gotato/controlqueue.go].  [ControlMessages]:
    [gotato/queue.go], its callers, Runs and hosts interleaved.  [SessionLife]: the goroutine of a
    Session, [sessionlifecycle.go] and part of [session.go].

    The Instance.  [SessionLocks]: [host/locks.go].  [Heartbeat]: [host/internal/heartbeat], over
    any store with the laws of the class [Liveness], with renewals that interleave.  [Warm]:
    [host/internal/warm].  [RunTable]: [host/internal/runs], with the Runs that go through it and
    the goroutine of a drain.  [Admission]: [host/admission.go], [codes.go], part of [errors.go].
    [RunHandle]: [host/runhandle.go], with the goroutine of a Run and the calls that stop it.
    [FollowOn]: the ends of Runs ([host/runend.go], [followon.go], parts of [serve.go]), over the live
    Sessions of [ControlMessages].  [Releases]: [host/release.go], with the calls that claim Sessions.

    Compaction.  [Cut]: [record/compact_cut.go], [compact_parts.go], [compact_policy.go].
    [SegmentBuild]: [segment_build.go], [segment_render.go].  [Digest]: [merge_digest.go].
    [Compactor]: [compactor.go], [compact.go], [merge.go], [parts.go], over the class of a
    Segment store, which [Compaction] discharges for the live Record.  [AutoCompact]:
    [auto_compact.go].

    The Run.  [Request]: [gotato/request.go], [tags.go], [context.go], [record/tokens.go].
    [Schema], [ToolRegistry], [ToolVisibility]: [toolschema.go], [toolregistry.go],
    [toolsearch.go], [toolset.go].  [Reply]: the pure part of [reply.go], [coalesce.go],
    [cutoff.go].  [Session]: the operations a Run asks of the world, and [eventwrite.go],
    [history.go], [extensions.go], [toolrefresh.go], [spill.go] as programs over them.
    [ToolBatch]: [toolbatch.go].  [RunLoop]: [loop.go], whole.  [RunSpec],
    [RunMoves], [RunCalls], [RunSafety], [RunProgress], [RunTools]: what every run of the Loop
    keeps.  [RunSample]: a world that answers it, for the examples and witnesses.

    Providers.  [FunctionNames]: [model/names.go].  [Sse]: [sse.go].  [Classify]: [classify.go],
    [errors.go].  [ModelClient]: [http.go], [retry.go].  [ModelStream]: [stream.go], [restart.go],
    [wire.go], over any decoder, with the class of what a decoder promises ([LawfulDecoder]).
    [ChatDecoder], [AnthropicDecoder], [ResponsesDecoder]: the decoders of [chat.go],
    [anthropic_stream.go], [responses_stream.go], instances of it.  [Deferred]: [deferred.go].
    [WireRequest]: [encode_common.go], [reasoning_replay.go], [cachekey.go].  [AnthropicRequest],
    [ChatRequest], [ResponsesRequest]: the encoders of [anthropic.go], [chat.go], [responses.go].

    Profiles.  [Profile]: [profile/agent_profile.go], [task_spec.go], [catalog.go].  [ProfileDoc]:
    [agent_profile_doc.go], [task_spec_doc.go], with what decoding JSON into a struct does.
    [ProfileRegistry]: [registry.go], [host/profiles.go], and what a request, a new Session, a
    tool switch and a fork do with the profile of a Session.

    ** How state and operations correspond to the code

    A Go struct is a Record with its fields under a prefix; a method that changes state is a
    function from the state to the state and its answer, with the code's guards in the code's
    order.  A method that runs under a mutex is one step; where the code takes a lock several
    times (Feeds, Subscriptions, Session locks, system calls) each critical section is a
    definition, and a step relation interleaves them.  A Run's goroutine is a program over
    operations ([op] of [Session]) that the world answers; what only that goroutine writes is
    its [local] state.  Tool workers are [Launch] and [Wait]: the world reports their signals in
    any order.

    A [string] is its bytes.  An [int] is a [Z] or a [nat], [uint64] an [N] whose additions
    wrap ([u64]), [uint32] likewise ([u32_add]), [float64] a bit pattern that is only copied.
    A time is a [Z] of nanoseconds, the zero time 0; a time zone is a record, UTC a parameter.
    An operation of a Record reads the clock once; a Run asks the world for it.  Random IDs, epochs and temporary names are
    arguments.  A nil slice or map and an empty one are one value (but in a TaskSpec and its document), and [Clone] is the identity.
    A pointer is an [option], but for the table of Session locks, whose objects live in a heap,
    and a ToolSet, which is its place in a fixed list.  The Data of an Entry is what it decodes
    to.  Error identity ([errors.Is], [errors.As]) is decided on values; texts are kept as
    format and arguments.  What [ctx.Err()], a guard, or a deadline answers is an argument or
    an operation.  A callback of a host is a function or an operation, and one that panics
    answers the error that the code makes of the panic.  A Model's stream is a finite list of
    what its [Next] answers, then [io.EOF].

    Parameters, which stand for code outside the repository or for texts that no modelled code
    reads: the classes [Encoding] (JSON of a Message and of a Tool, [json.Compact], SHA-256),
    [JsonText], [ChatJson], [AnthropicJson], [ResponsesJson], [ErrorBodies] (what
    [encoding/json] decodes), [HttpText] (durations and dates of headers), [WireText] (base64), [Marshal] (what
    [json.Marshal] makes of a payload), [DocText] (the text of
    JSON values, floats, durations, time zones), [NetErrors] (the
    failures in the chain of a transport error), [HexHash] (a hash in hexadecimal), [Texts] (wordings and sizes), and [EpochNames]
    (the hashed name of an epoch).  Theorems that need a law of one say so; their witnesses
    have a concrete one.

    ** What the theorems show

    - Records: what a load makes of a log is the Record that wrote it, from the first Entry or
      from the last Checkpoint; batches are numbered without gaps; an open reply and open
      calls are repaired; a view agrees with a load.
    - Writers: nothing acknowledged is lost, what is published is stored, a stopped Writer
      writes nothing, and one that opened a Record fences the one that held it.
    - Originals and forks: what is read back is what the ref names, in the Record it names and
      no other; a fork reads what its parent kept; no line that is shown speaks for another.
    - Profiles: a TaskSpec is let through exactly when it goes past no bound of its profile, and
      a Session opened for one runs narrowed for as long as it lives; definitions read back.
    - Stores: a position is written once; the file store answers as the store in memory does,
      its Records are whole at every point of every interleaving, and what was acknowledged
      survives power cuts.
    - Streams and queues: a Session's stream has every stored Event once and in order, and
      catches up; the queue loses nothing, and a message that was reported queued is reported
      settled once; a Session admits one Run at a time and its Close ends; the Session lock is
      exclusive and passes on.
    - Instances: while renewals do not overlap, a Writer that the guard lets through has a row
      that no other Instance sees as expired, and a row that was lost is made again; Runs never
      take more Sessions into memory than the limit, admission makes just the room it needs; a
      drain waits for every Run and is woken by the last; a held Session is never compacted; a stop
      reaches the Run it is for and no other; a message that a Run took is committed, dropped with a
      reason, or handed to the Run that follows; a Session that could not be released is released
      later.
    - Compaction: the Session reads the same after it, a Tool call is never split from its
      result, the tail is the longest in its budget, a Turn compacts at most once.
    - Tools: what the Model is shown resolves, what resolves is allowed, arguments are checked
      exactly as the schema says.
    - Requests and replies: the Model never reads a forged tag, the prefix is stable, a reply
      stays within its limit.
    - Runs: for whatever the Model, the Tools, the extensions and the Transcript answer, the
      Events of a Run are bracketed by RunStarted and RunEnded, and every Tool call that was
      committed is answered, in order, before the Model is asked again and when the Run ends;
      a Tool runs after it was admitted and its start is stored; and a Run comes to its end
      after at most as many Turns as it had reasons to go on (Tool calls, messages,
      Interrupts, continuations of cut replies).
    - Providers: the names of Tools are distinct and read back; a request is sent a bounded
      number of times; what a caller has of a stream is one reply, also when the stream was cut
      and read again, and it is told that the reply is over exactly when it has its Done; Tool
      calls and reasoning that arrive in pieces are put together; loading a Tool leaves the
      list of Tools as it was; a request answers every call in the form its API takes, the roles
      of its messages alternate, at most four of its blocks are cache markers, and it begins as
      the request before it did.

    ** Fuel

    [repair_loop] has one unit for each Message and one more, and each step moves past one.
    The decoders of strings have the length of the string.  [run_turns] has one unit for each
    Turn; a Run has no bound on its Turns of its own, so theorems about it hold of any fuel, and
    what is said of a Run that used its fuel is said of one that is between two Turns.  The
    reader of an event has the bytes of the body; [recv] has them and those of every response
    that a restart may open ([stream_cost], [cuts_cost]), and [send] one answer for each attempt
    that its retries allow: theorems prove that these are enough.

    ** Not modelled

    The JSON encodings of Events and Entries (generated by [encoding/json] from struct tags).
    Of the core: the construction of a Session, its options, and Abort.  Of the Record:
    the Recap writers that ask a Model, which are parameters of a compaction.  Of the file store: the sweep of old
    temporary files, and FileDefinitions.  Of a Feed: mirroring.  Of [host/]: what
    a Runner does around these parts (its configuration, the streams of a Session, the response of a
    Run, timers of warm copies).  Of [model/]: the JSON text of
    a payload, the configuration of a client, and the closing of bodies.  [adapter/] (HTTP and MCP glue), and the tools, test doubles, load
    generators and examples. *)

From Stdlib Require Export Ascii String.
From stdpp Require Export base gmap strings list fin_maps numbers sorting option tactics.

(** ** Scopes and notations *)

Declare Scope gotato_scope.
Delimit Scope gotato_scope with gotato.
#[global] Open Scope gotato_scope.
#[global] Open Scope string_scope.
#[global] Open Scope list_scope.

(** The last element of a list, if it has one (the Standard Library's needs a
    default). *)
Abbreviation last := list.last (only parsing).

(** ** Records updated by field

    [r <| f := v |>] is the record [r] with its field [f] replaced.  A record
    type opts in by an [Eta] instance that rebuilds a value from its fields;
    [solve_upd] derives the update of one field from it. *)

Class Eta (R : Type) := eta : R -> R.

Class Upd {R F : Type} (p : R -> F) := upd : (F -> F) -> R -> R.

Ltac solve_upd :=
  lazymatch goal with
  | |- @Upd ?R ?F ?p =>
    let e := eval hnf in (@eta R _) in
    let g := fresh "g" in
    let r := fresh "r" in
    unfold Upd; intros g r;
    let b := eval cbv beta in (e r) in
    let b' := eval pattern (p r) in b in
    lazymatch b' with
    | ?h _ => let t := eval cbv beta in (h (g (p r))) in exact t
    end
  end.

#[global] Hint Extern 1 (Upd _) => solve_upd : typeclass_instances.

Notation "r <| p := v |>" := (upd (p:=p) (fun _ => v) r)
  (at level 1, left associativity, p constr at level 0) : gotato_scope.

(** ** Results of fallible code

    A Go function that returns a value and an error returns [Ok] of the value
    when the error is nil, and [Err] of the error otherwise. *)

Inductive result (E A : Type) : Type :=
| Ok (a : A)
| Err (e : E).
Arguments Ok {E A} a.
Arguments Err {E A} e.

Definition rbind {E A B} (m : result E A) (k : A -> result E B) : result E B :=
  match m with
  | Ok a => k a
  | Err e => Err e
  end.

Notation "'let?' x := m 'in' k" := (rbind m (fun x => k))
  (at level 10, x pattern, m at level 100, k at level 200) : gotato_scope.

Definition is_ok {E A} (m : result E A) : bool :=
  match m with Ok _ => true | Err _ => false end.

(** ** Machine integers

    A Go [uint64] is an [N] below [2^64]; sums wrap around. *)

Definition two64 : N := (2 ^ 64)%N.

Definition u64 (n : N) : N := (n mod two64)%N.

Definition u64_add (a b : N) : N := u64 (a + b).

Definition u64_sub (a b : N) : N := u64 (a + two64 - u64 b).

(** The position after [n] Entries: [uint64(n)+1]. *)
Definition pos_after (n : nat) : N := u64 (N.of_nat n + 1).

(** ** Times

    A [time.Time] is the nanoseconds since the zero time, so the zero time is
    [0]; the location that [UTC] changes is not part of it.  A
    [time.Duration] is nanoseconds too. *)

Abbreviation gotime := Z (only parsing).
Abbreviation duration := Z (only parsing).

Definition second : duration := 1000000000%Z.

(** ** Tactics *)

(** Destructs the scrutinee of some [match] of the goal or of [H], keeping
    the equation. *)
Ltac split_match :=
  match goal with
  | |- context [match ?x with _ => _ end] => destruct x eqn:?
  end.

Ltac split_match_in H :=
  match type of H with
  | context [match ?x with _ => _ end] => destruct x eqn:?
  end.

(** Inverts equations between results, options and pairs. *)
Ltac invert H := inversion H; subst; clear H.

Ltac go_inv :=
  repeat match goal with
  | H : Ok _ = Ok _ |- _ => injection H; clear H; intros; subst
  | H : Err _ = Err _ |- _ => injection H; clear H; intros; subst
  | H : Ok _ = Err _ |- _ => discriminate H
  | H : Err _ = Ok _ |- _ => discriminate H
  | H : Some _ = Some _ |- _ => injection H; clear H; intros; subst
  | H : Some _ = None |- _ => discriminate H
  | H : None = Some _ |- _ => discriminate H
  | H : (_, _) = (_, _) |- _ => injection H; clear H; intros; subst
  end.

(** ** Lemmas on machine integers *)

Lemma two64_pos : (0 < two64)%N.
Proof. reflexivity. Qed.

Lemma u64_lt n : (u64 n < two64)%N.
Proof. apply N.mod_lt. discriminate. Qed.

Lemma u64_small n : (n < two64)%N -> u64 n = n.
Proof. apply N.mod_small. Qed.

Lemma u64_idem n : u64 (u64 n) = u64 n.
Proof. apply N.Div0.mod_mod. Qed.

Lemma u64_add_l a b : u64 (u64 a + b) = u64 (a + b).
Proof. apply N.Div0.add_mod_idemp_l. Qed.

Lemma u64_add_r a b : u64 (a + u64 b) = u64 (a + b).
Proof. apply N.Div0.add_mod_idemp_r. Qed.

Lemma pos_after_small n : (N.of_nat n + 1 < two64)%N -> pos_after n = (N.of_nat n + 1)%N.
Proof. apply u64_small. Qed.

(** Below the wrap-around a position names one place of a log. *)
Lemma pos_after_inj m n :
  (N.of_nat m + 1 < two64)%N -> (N.of_nat n + 1 < two64)%N ->
  pos_after m = pos_after n -> m = n.
Proof. intros Hm Hn. rewrite !pos_after_small by done. lia. Qed.

Create HintDb gotato.
#[export] Hint Resolve u64_lt u64_small : gotato.

(** ** Lemmas on strings *)

Lemma append_nil_r_string (s : string) : (s ++ "")%string = s.
Proof. induction s as [|c s IH]; [done|]. change (String c (String.append s "") = String c s). by rewrite IH. Qed.

Lemma append_assoc_string (r s t : string) : (r ++ (s ++ t))%string = ((r ++ s) ++ t)%string.
Proof.
  induction r as [|c r IH]; [done|].
  change (String c (String.append r (String.append s t)) = String c (String.append (String.append r s) t)). by rewrite IH.
Qed.

(** ** Lemmas on lists *)

Lemma take_app_exact {A} (l k : list A) : take (length l) (l ++ k) = l.
Proof. by rewrite take_app_length. Qed.

Lemma drop_app_exact {A} (l k : list A) : drop (length l) (l ++ k) = k.
Proof. by rewrite drop_app_length. Qed.

Lemma filter_all {A} (P : A -> Prop) `{!forall x, Decision (P x)} (l : list A) :
  Forall P l -> filter P l = l.
Proof. induction 1; [done|]. by rewrite filter_cons_True, IHForall. Qed.

Lemma filter_none {A} (P : A -> Prop) `{!forall x, Decision (P x)} (l : list A) :
  Forall (fun x => ~ P x) l -> filter P l = [].
Proof. induction 1; [done|]. by rewrite filter_cons_False. Qed.
