(* ===== verification/GoStrings.v ===== *)
(** * Go strings

    What the modelled code uses of Go's [strings], [unicode] and
    [unicode/utf8].  A Go string is a sequence of bytes: a [string] here, or
    the [list ascii] of its bytes where the code indexes or slices it. *)

From S2P Require Import Prelude.

Abbreviation bytes := (list ascii) (only parsing).

(** ** Bytes *)

Definition bytes_of (s : string) : bytes := list_ascii_of_string s.
Definition string_of (b : bytes) : string := string_of_list_ascii b.

(** The number of a byte, in 0..255. *)
Definition byte (c : ascii) : N := N_of_ascii c.

Definition byte_in (lo hi : N) (c : ascii) : bool := (lo <=? byte c)%N && (byte c <=? hi)%N.

(** [len(s)]. *)
Definition slen (s : string) : nat := String.length s.

(** [strings.HasPrefix]. *)
Fixpoint has_prefix (s p : bytes) {struct p} : bool :=
  match p, s with
  | [], _ => true
  | c :: p', d :: s' => (if ascii_dec c d then true else false) && has_prefix s' p'
  | _ :: _, [] => false
  end.

(** [strings.CutPrefix]: the rest of [s] after [p], when [s] starts with it. *)
Definition cut_prefix (s p : bytes) : option bytes :=
  if has_prefix s p then Some (drop (length p) s) else None.

(** [strings.Contains] of a non-empty [p]. *)
Fixpoint contains (s p : bytes) : bool :=
  has_prefix s p ||
  match s with
  | [] => false
  | _ :: s' => contains s' p
  end.

(** [strings.ContainsAny] for ASCII [chars]. *)
Definition contains_any (s chars : bytes) : bool :=
  existsb (fun c => existsb (fun d => if ascii_dec c d then true else false) chars) s.

(** ** UTF-8 *)

Definition rune_error : N := 0xFFFD.

(** [utf8.RuneStart]: not a continuation byte. *)
Definition rune_start (c : ascii) : bool := negb (N.land (byte c) 0xC0 =? 0x80)%N.

(** The first byte of an encoding: how many bytes it has and the range of its
    second byte, or [None] for a byte that starts none ([utf8.first] and
    [utf8.acceptRanges]). *)
Definition lead (c : ascii) : option (nat * N * N) :=
  let x := byte c in
  if byte_in 0xC2 0xDF c then Some (2, 0x80%N, 0xBF%N)
  else if (x =? 0xE0)%N then Some (3, 0xA0%N, 0xBF%N)
  else if byte_in 0xE1 0xEC c then Some (3, 0x80%N, 0xBF%N)
  else if (x =? 0xED)%N then Some (3, 0x80%N, 0x9F%N)
  else if byte_in 0xEE 0xEF c then Some (3, 0x80%N, 0xBF%N)
  else if (x =? 0xF0)%N then Some (4, 0x90%N, 0xBF%N)
  else if byte_in 0xF1 0xF3 c then Some (4, 0x80%N, 0xBF%N)
  else if (x =? 0xF4)%N then Some (4, 0x80%N, 0x8F%N)
  else None.

Definition cont (c : ascii) : bool := byte_in 0x80 0xBF c.

(** The low [6] bits of a continuation byte. *)
Definition low6 (c : ascii) : N := N.land (byte c) 0x3F.

(** [utf8.DecodeRuneInString]: the first rune and how many bytes it takes.  An
    invalid encoding is the error rune, of one byte; the empty string is the
    error rune, of none. *)
Definition decode_rune (s : bytes) : N * nat :=
  match s with
  | [] => (rune_error, 0)
  | c0 :: rest =>
    if (byte c0 <? 0x80)%N then (byte c0, 1)
    else
      match lead c0 with
      | None => (rune_error, 1)
      | Some (size, lo, hi) =>
        match size, rest with
        | 2, c1 :: _ =>
          if byte_in lo hi c1
          then (N.lor (N.shiftl (N.land (byte c0) 0x1F) 6) (low6 c1), 2)
          else (rune_error, 1)
        | 3, c1 :: c2 :: _ =>
          if byte_in lo hi c1 && cont c2
          then (N.lor (N.shiftl (N.land (byte c0) 0x0F) 12)
                  (N.lor (N.shiftl (low6 c1) 6) (low6 c2)), 3)
          else (rune_error, 1)
        | 4, c1 :: c2 :: c3 :: _ =>
          if byte_in lo hi c1 && cont c2 && cont c3
          then (N.lor (N.shiftl (N.land (byte c0) 0x07) 18)
                  (N.lor (N.shiftl (low6 c1) 12)
                     (N.lor (N.shiftl (low6 c2) 6) (low6 c3))), 4)
          else (rune_error, 1)
        | _, _ => (rune_error, 1)
        end
      end
  end.

#[global] Arguments decode_rune : simpl never.

(** The runes of a [range] loop, with their sizes.  A rune of a non-empty
    string takes a byte at least, so the length is enough fuel. *)
Fixpoint runes_fuel (fuel : nat) (s : bytes) : list (N * nat) :=
  match fuel, s with
  | S fuel', _ :: _ => let r := decode_rune s in r :: runes_fuel fuel' (drop (snd r) s)
  | _, _ => []
  end.

Definition runes (s : bytes) : list (N * nat) := runes_fuel (length s) s.

(** [utf8.ValidString]: no rune is the error of an invalid byte, which has size
    one; U+FFFD itself has three bytes. *)
Definition valid_string (s : bytes) : bool :=
  forallb (fun r => negb ((fst r =? rune_error)%N && (snd r =? 1)%nat)) (runes s).

(** [unicode.IsControl]. *)
Definition is_control (r : N) : bool :=
  (r <=? 0x1F)%N || ((0x7F <=? r)%N && (r <=? 0x9F)%N).

(** [unicode.IsSpace]. *)
Definition is_space (r : N) : bool :=
  ((9 <=? r)%N && (r <=? 13)%N) || (r =? 0x20)%N || (r =? 0x85)%N || (r =? 0xA0)%N
  || (r =? 0x1680)%N || ((0x2000 <=? r)%N && (r <=? 0x200A)%N)
  || (r =? 0x2028)%N || (r =? 0x2029)%N || (r =? 0x202F)%N || (r =? 0x205F)%N || (r =? 0x3000)%N.

(** [strings.TrimLeftFunc] with [unicode.IsSpace]. *)
Fixpoint trim_left_fuel (fuel : nat) (s : bytes) : bytes :=
  match fuel, s with
  | S fuel', _ :: _ =>
    let r := decode_rune s in
    if is_space (fst r) then trim_left_fuel fuel' (drop (snd r) s) else s
  | _, _ => s
  end.

Definition trim_left (s : bytes) : bytes := trim_left_fuel (length s) s.

(** The backward loop of [utf8.DecodeLastRuneInString]: [i] is one more than
    the index it looks at, and [n] how many it may still look at. *)
Fixpoint find_start (s : bytes) (n i : nat) : nat :=
  match n, i with
  | S n', S start =>
    match s !! start with
    | Some c => if rune_start c then start else find_start s n' start
    | None => start
    end
  | _, _ => pred i
  end.

(** [utf8.DecodeLastRuneInString]. *)
Definition decode_last_rune (s : bytes) : N * nat :=
  match last s with
  | None => (rune_error, 0)
  | Some c =>
    if (byte c <? 0x80)%N then (byte c, 1)
    else
      let start := find_start s 3 (length s - 1) in
      let r := decode_rune (drop start s) in
      if (start + snd r =? length s)%nat then r else (rune_error, 1)
  end.

#[global] Arguments decode_last_rune : simpl never.

(** [strings.TrimRightFunc] with [unicode.IsSpace]. *)
Fixpoint trim_right_fuel (fuel : nat) (s : bytes) : bytes :=
  match fuel, s with
  | S fuel', _ :: _ =>
    let r := decode_last_rune s in
    if is_space (fst r) then trim_right_fuel fuel' (take (length s - snd r) s) else s
  | _, _ => s
  end.

Definition trim_right (s : bytes) : bytes := trim_right_fuel (length s) s.

(** [strings.TrimSpace]. *)
Definition trim_space (s : bytes) : bytes := trim_right (trim_left s).

(** ** Lemmas *)

Lemma byte_lt c : (byte c < 256)%N.
Proof. apply N_ascii_bounded. Qed.

Lemma string_of_bytes_of s : string_of (bytes_of s) = s.
Proof. apply string_of_list_ascii_of_string. Qed.

Lemma bytes_of_string_of b : bytes_of (string_of b) = b.
Proof. apply list_ascii_of_string_of_list_ascii. Qed.

Lemma bytes_of_inj s t : bytes_of s = bytes_of t -> s = t.
Proof. intros H. by rewrite <- (string_of_bytes_of s), H, string_of_bytes_of. Qed.

Lemma length_bytes_of s : length (bytes_of s) = slen s.
Proof. induction s; simpl; congruence. Qed.

Lemma bytes_of_app s t : bytes_of (s ++ t)%string = bytes_of s ++ bytes_of t.
Proof. induction s; simpl; [done|]. by f_equal. Qed.

Lemma has_prefix_app p s : has_prefix (p ++ s) p = true.
Proof. induction p as [|c p IH]; simpl; [by destruct s|]. by destruct (ascii_dec c c). Qed.

Lemma has_prefix_spec s p : has_prefix s p = true <-> exists t, s = p ++ t.
Proof.
  revert s; induction p as [|c p IH]; intros s; simpl.
  - split; [intros _; by exists s | by destruct s].
  - destruct s as [|d s]; [split; [done|by intros [? ?]]|].
    destruct (ascii_dec c d) as [->|Hne]; simpl.
    + split.
      * intros [t ->]%IH. by exists t.
      * intros [t Ht]. apply IH. exists t. by simplify_eq.
    + split; [done|]. intros [t Ht]. simplify_eq.
Qed.

Lemma cut_prefix_app p s : cut_prefix (p ++ s) p = Some s.
Proof. unfold cut_prefix. by rewrite has_prefix_app, drop_app_exact. Qed.

Lemma cut_prefix_Some s p t : cut_prefix s p = Some t <-> s = p ++ t.
Proof.
  unfold cut_prefix. split.
  - destruct (has_prefix s p) eqn:E; [|done]. apply has_prefix_spec in E as [u ->].
    rewrite drop_app_exact. intros; by simplify_eq.
  - intros ->. by rewrite has_prefix_app, drop_app_exact.
Qed.

(** A rune of a non-empty string takes between one and four bytes of it. *)
Lemma decode_rune_size c s :
  1 <= snd (decode_rune (c :: s)) <= length (c :: s) /\ snd (decode_rune (c :: s)) <= 4.
Proof.
  unfold decode_rune. destruct (byte c <? 0x80)%N; simpl; [lia|].
  destruct (lead c) as [[[size lo] hi]|]; simpl; [|lia].
  repeat (split_match; simpl; try lia).
Qed.

Lemma decode_rune_ascii c s :
  (byte c < 0x80)%N -> decode_rune (c :: s) = (byte c, 1).
Proof. intros H. unfold decode_rune. by apply N.ltb_lt in H as ->. Qed.

Lemma decode_last_rune_ascii s c :
  (byte c < 0x80)%N -> decode_last_rune (s ++ [c]) = (byte c, 1).
Proof.
  intros H. unfold decode_last_rune. rewrite last_snoc.
  by apply N.ltb_lt in H as ->.
Qed.

Lemma runes_fuel_sizes fuel s :
  length s <= fuel -> sum_list (snd <$> runes_fuel fuel s) = length s.
Proof.
  revert s; induction fuel as [|fuel IH]; intros s Hle; destruct s as [|c s]; simpl in *; try lia.
  destruct (decode_rune_size c s) as [[H1 H2] _].
  rewrite IH; rewrite length_drop; simpl in *; lia.
Qed.

(** A [range] loop visits every byte once. *)
Lemma runes_sizes s : sum_list (snd <$> runes s) = length s.
Proof. by apply runes_fuel_sizes. Qed.

Definition ascii_only (s : bytes) : Prop := Forall (fun c => (byte c < 0x80)%N) s.

Lemma runes_fuel_ascii fuel s :
  ascii_only s -> length s <= fuel -> runes_fuel fuel s = (fun c => (byte c, 1)) <$> s.
Proof.
  intros Ha; revert s Ha; induction fuel as [|fuel IH]; intros s Ha Hle;
    destruct Ha as [|c s Hc Hs]; simpl in *; try done; try lia.
  rewrite decode_rune_ascii by done. simpl. rewrite drop_0, IH by (done || lia). done.
Qed.

(** The runes of an ASCII string are its bytes. *)
Lemma runes_ascii s : ascii_only s -> runes s = (fun c => (byte c, 1)) <$> s.
Proof. intros. by apply runes_fuel_ascii. Qed.

Lemma trim_left_first c s :
  (byte c < 0x80)%N -> is_space (byte c) = false -> trim_left (c :: s) = c :: s.
Proof. intros Hc Hs. unfold trim_left. simpl. rewrite decode_rune_ascii by done. simpl. by rewrite Hs. Qed.

Lemma trim_right_last s c :
  (byte c < 0x80)%N -> is_space (byte c) = false -> trim_right (s ++ [c]) = s ++ [c].
Proof.
  intros Hc Hs. unfold trim_right. rewrite length_app, Nat.add_1_r. simpl.
  destruct (s ++ [c]) as [|d l] eqn:E; [done|]. rewrite <- E.
  rewrite decode_last_rune_ascii by done. simpl. by rewrite Hs.
Qed.
