(* ===== verification/Ref.v ===== *)
(** * Package [ref]: the form of a ref

    [ref/ref.go]: the short text that names one original of the Record.
    [Parse] and [String] are the two directions, and [Safe] is the test of an
    ID that a Segment's text may hold. *)

From S2P Require Import Prelude GoStrings.
Local Open Scope string_scope.
Local Open Scope list_scope.

(** ** Data *)

Definition ReadResult : string := "read_result".
Definition ReadSegment : string := "read_segment".

Definition ResultPrefix : string := "result:".
Definition MessagePrefix : string := "msg:".

(** [type Kind int]; the two kinds are [iota + 1]. *)
Abbreviation Kind := Z (only parsing).
Definition KindResult : Kind := 1%Z.
Definition KindMessage : Kind := 2%Z.

Record Ref := MkRef { ref_kind : Kind; ref_id : string }.

(** ** Operations *)

Definition Result (call : string) : Ref := MkRef KindResult call.
Definition Message (id : string) : Ref := MkRef KindMessage id.

(** [Ref.String]. *)
Definition String (r : Ref) : string :=
  if (ref_kind r =? KindResult)%Z then (ResultPrefix ++ ref_id r)%string
  else if (ref_kind r =? KindMessage)%Z then (MessagePrefix ++ ref_id r)%string
  else "".

(** The body of [Parse], on the bytes. *)
Definition parse_bytes (b : list ascii) : option Ref :=
  let s := trim_space b in
  match cut_prefix s (bytes_of ResultPrefix) with
  | Some (c :: id) => Some (Result (string_of (c :: id)))
  | _ =>
    match cut_prefix s (bytes_of MessagePrefix) with
    | Some (c :: id) => Some (Message (string_of (c :: id)))
    | _ => None
    end
  end.

(** [Parse]: [None] stands for [Ref{}, false]. *)
Definition Parse (s : string) : option Ref := parse_bytes (bytes_of s).

(** The characters besides the low ones that [Safe] refuses. *)
Definition unsafe_chars : list N := [0x5C; 0x22; 0x5B; 0x5D; 0x3C; 0x3E]%N.

Definition unsafe_rune (r : N) : bool :=
  (r <=? 0x20)%N || (r =? 0x7F)%N || existsb (N.eqb r) unsafe_chars.

Definition Safe (id : string) : bool :=
  match bytes_of id with
  | [] => false
  | b => forallb (fun r => negb (unsafe_rune (fst r))) (runes b)
  end.

(** ** Lemmas *)

Lemma unsafe_not_space r : (r < 0x80)%N -> unsafe_rune r = false -> is_space r = false.
Proof.
  unfold unsafe_rune, is_space. intros Hr H.
  apply orb_false_iff in H as [H _]. apply orb_false_iff in H as [H _]. apply N.leb_gt in H.
  repeat (apply orb_false_iff; split); try apply andb_false_iff; rewrite ?N.leb_gt, ?N.eqb_neq; lia.
Qed.

(** The bytes of a safe ASCII ID are no white space. *)
Lemma safe_bytes id :
  ascii_only (bytes_of id) -> Safe id = true ->
  bytes_of id <> [] /\ Forall (fun c => is_space (byte c) = false) (bytes_of id).
Proof.
  unfold Safe. destruct (bytes_of id) as [|d b] eqn:E; [done|]. rewrite <- E.
  intros Ha Hs. split; [congruence|]. rewrite runes_ascii in Hs by done.
  rewrite forallb_forall in Hs. apply Forall_forall. intros c Hc.
  apply unsafe_not_space; [by eapply Forall_forall in Ha|].
  specialize (Hs (byte c, 1)). apply negb_true_iff. apply Hs.
  apply list_elem_of_In, list_elem_of_fmap. exists c. split; [done|].
  by apply list_elem_of_In.
Qed.

(** A ref whose last byte is a safe ASCII one is trimmed to itself. *)
Lemma trim_space_ref c p id :
  (byte c < 0x80)%N -> is_space (byte c) = false ->
  ascii_only (bytes_of id) -> Safe id = true ->
  trim_space (c :: p ++ bytes_of id) = c :: p ++ bytes_of id.
Proof.
  intros Hc Hsp Ha Hs. destruct (safe_bytes id Ha Hs) as [Hne Hall].
  unfold trim_space. rewrite trim_left_first by done.
  destruct (exists_last Hne) as [l [d E]]. rewrite E in *. unfold ascii_only in Ha.
  apply Forall_app in Ha as [_ Hd%Forall_inv].
  apply Forall_app in Hall as [_ Hsd%Forall_inv].
  rewrite (app_assoc p l). change (c :: (p ++ l) ++ [d]) with ((c :: p ++ l) ++ [d]).
  by apply trim_right_last.
Qed.

Lemma parse_bytes_result b c id :
  trim_space b = bytes_of ResultPrefix ++ c :: id -> parse_bytes b = Some (Result (string_of (c :: id))).
Proof. intros E. unfold parse_bytes. by rewrite E, cut_prefix_app. Qed.

Lemma parse_bytes_message b c id :
  trim_space b = bytes_of MessagePrefix ++ c :: id -> parse_bytes b = Some (Message (string_of (c :: id))).
Proof. intros E. unfold parse_bytes. by rewrite E, cut_prefix_app. Qed.

Lemma bytes_of_result id : bytes_of (String (Result id)) = bytes_of ResultPrefix ++ bytes_of id.
Proof. apply (bytes_of_app ResultPrefix). Qed.

Lemma bytes_of_message id : bytes_of (String (Message id)) = bytes_of MessagePrefix ++ bytes_of id.
Proof. apply (bytes_of_app MessagePrefix). Qed.

(** ** Properties *)

(** a ref written with a safe ASCII ID reads back as itself: [Parse] is the
    inverse of [String] on such refs, of both kinds. *)
Theorem parse_string (r : Ref) :
  ref_kind r = KindResult \/ ref_kind r = KindMessage ->
  ascii_only (bytes_of (ref_id r)) -> Safe (ref_id r) = true ->
  Parse (String r) = Some r.
Proof.
  destruct r as [k id]. cbn [ref_kind ref_id]. intros Hk Ha Hs.
  destruct (safe_bytes id Ha Hs) as [Hne _].
  destruct (bytes_of id) as [|c b] eqn:E; [done|]. rewrite <- E in *.
  destruct Hk as [-> | ->]; unfold Parse;
    [rewrite (parse_bytes_result _ c b)|rewrite (parse_bytes_message _ c b)];
    try (unfold Result, Message; by rewrite <- E, string_of_bytes_of);
    rewrite <- E.
  - by apply (trim_space_ref "r"%char (bytes_of "esult:") id).
  - by apply (trim_space_ref "m"%char (bytes_of "sg:") id).
Qed.

Lemma parse_string_witness :
  let r := MkRef KindMessage "message-1a" in
  Safe (ref_id r) = true /\ Parse (String r) = Some r.
Proof.
  split; [reflexivity|]. apply (parse_string (MkRef KindMessage "message-1a")).
  - right. reflexivity.
  - repeat constructor.
  - reflexivity.
Defined.

(** what [Parse] accepts is exactly the written form of the ref it returns,
    once the space around it is gone, and the ID is never empty. *)
Theorem parse_sound (s : string) (r : Ref) :
  Parse s = Some r ->
  bytes_of (String r) = trim_space (bytes_of s) /\ ref_id r <> "" /\
  (ref_kind r = KindResult \/ ref_kind r = KindMessage).
Proof.
  unfold Parse, parse_bytes. intros H.
  assert (Hs : forall c id, String.String c id <> "") by discriminate.
  destruct (cut_prefix _ (bytes_of ResultPrefix)) as [[|c id]|] eqn:E1;
    try (destruct (cut_prefix _ (bytes_of MessagePrefix)) as [[|c' id']|] eqn:E2); try done;
    match goal with
    | E : cut_prefix _ _ = Some (?c :: ?id) |- _ =>
      apply cut_prefix_Some in E as ->;
      first [ assert (r = Result (string_of (c :: id))) as -> by congruence; rewrite bytes_of_result
            | assert (r = Message (string_of (c :: id))) as -> by congruence; rewrite bytes_of_message ];
      (split; [by rewrite bytes_of_string_of|]); (split; [apply Hs|]); auto
    end.
Qed.

Lemma parse_sound_witness :
  Parse " result:call-7 " = Some (Result "call-7") /\
  bytes_of (String (Result "call-7")) = trim_space (bytes_of " result:call-7 ").
Proof.
  assert (H : Parse " result:call-7 " = Some (Result "call-7")) by reflexivity.
  split; [exact H|]. exact (proj1 (parse_sound _ _ H)).
Defined.

(** The bytes of "a" and U+00A0, the no-break space. *)
Definition nbsp_id : string := string_of ["a"; ascii_of_N 0xC2; ascii_of_N 0xA0]%char.

(** [Safe] lets the no-break space through, which [Parse] trims: a ref with
    such an ID is safe and reads back as the ref of another ID. *)
Theorem safe_not_parsed :
  Safe nbsp_id = true /\ Parse (String (Result nbsp_id)) = Some (Result "a").
Proof. split; vm_compute; reflexivity. Qed.
