(* ===== verification/Text.v ===== *)
(** * Package [internal/text]: pages of text and the four tags

    [internal/text/page.go], [tags.go] and [recapask.go].  [Cut], [SplitLines]
    and [Paginate] cut a large tool result into the pages that [read_result]
    and [read_segment] return; [EscapeTags] keeps text of the conversation from
    being read as one of the tags Gotato writes into it. *)

From S2P Require Import Prelude GoStrings.

(** ** Pages *)

(** The loop of [Cut]: back from [n] to the start of a rune. *)
Fixpoint back_to_start (s : bytes) (n : nat) : nat :=
  match n with
  | 0 => 0
  | S n' =>
    match s !! n with
    | Some c => if rune_start c then n else back_to_start s n'
    | None => n
    end
  end.

Definition Cut (s : bytes) (limit : Z) : nat :=
  if (Z.of_nat (length s) <=? limit)%Z then length s
  else if (limit <=? 0)%Z then 0
  else back_to_start s (Z.to_nat limit).

Definition newline : ascii := "010"%char.

(** [strings.TrimRight(text, "\n")]. *)
Fixpoint trim_newlines (text : bytes) : bytes :=
  match text with
  | [] => []
  | c :: rest =>
    match trim_newlines rest with
    | [] => if ascii_dec c newline then [] else [c]
    | kept => c :: kept
    end
  end.

(** [strings.SplitSeq(text, "\n")]. *)
Fixpoint split_newline (text : bytes) : list bytes :=
  match text with
  | [] => [[]]
  | c :: rest =>
    if ascii_dec c newline then [] :: split_newline rest
    else match split_newline rest with
      | line :: lines => (c :: line) :: lines
      | [] => [[c]]
      end
  end.

(** Where the inner loop of [SplitLines] cuts a line longer than [limit]: a
    first rune longer than [limit] is taken whole. *)
Definition cut_of (line : bytes) (limit : Z) : nat :=
  match Cut line limit with
  | 0 => snd (decode_rune line)
  | n => n
  end.

(** The inner loop: the pieces cut off [line], and what is left of it.  Every
    turn takes a byte at least, so the length of the line is enough fuel. *)
Fixpoint cut_line (fuel : nat) (limit : Z) (line : bytes) : list bytes * bytes :=
  match fuel with
  | 0 => ([], line)
  | S fuel' =>
    if (limit <? Z.of_nat (length line))%Z then
      let cut := cut_of line limit in
      let (out, rest) := cut_line fuel' limit (drop cut line) in
      (take cut line :: out, rest)
    else ([], line)
  end.

(** One turn of the outer loop. *)
Definition split_line (limit : Z) (line : bytes) : list bytes :=
  let whole := bool_decide (line = []) in
  let (out, rest) := cut_line (length line) limit line in
  if negb (bool_decide (rest = [])) || whole then out ++ [rest] else out.

Definition SplitLines (text : bytes) (limit : Z) : list bytes :=
  match text with
  | [] => []
  | _ => mjoin (split_line (Z.max limit 1) <$> split_newline (trim_newlines text))
  end.

(** The loop of [Paginate]: [current] is the open page and [size] its bytes. *)
Fixpoint paginate (limit : Z) (pages : list (list bytes)) (current : list bytes) (size : Z)
    (lines : list bytes) : list (list bytes) :=
  match lines with
  | [] =>
    if negb (bool_decide (current = [])) || bool_decide (pages = [])
    then pages ++ [current] else pages
  | line :: rest =>
    let cost := (Z.of_nat (length line) + 1)%Z in
    if negb (bool_decide (current = [])) && (limit <? size + cost)%Z
    then paginate limit (pages ++ [current]) [line] cost rest
    else paginate limit pages (current ++ [line]) (size + cost) rest
  end.

Definition Paginate (lines : list bytes) (limit : Z) : list (list bytes) :=
  paginate limit [] [] 0 lines.

(** ** Tags *)

Definition TagNotice : string := "notice".
Definition TagSegment : string := "segment".
Definition TagToolCalls : string := "tool_calls".
Definition TagRecap : string := "recap".

Definition tagNames : list bytes :=
  bytes_of <$> [TagNotice; TagSegment; TagToolCalls; TagRecap].

(** [strings.EqualFold] of two characters of equal-length text, one of them
    ASCII: a character of several bytes makes the other text too long. *)
Definition lower (c : ascii) : N :=
  if byte_in 0x41 0x5A c then (byte c + 0x20)%N else byte c.

Definition fold_eq (c d : ascii) : bool := (lower c =? lower d)%N.

(** A character that may go on a tag's name. *)
Definition is_name (c : ascii) : bool :=
  byte_in 0x61 0x7A c || byte_in 0x41 0x5A c || byte_in 0x30 0x39 c
  || (byte c =? 0x5F)%N || (byte c =? 0x2D)%N.

(** [rest] starts with [name], and the name ends there. *)
Fixpoint tag_at (name rest : bytes) : bool :=
  match name, rest with
  | [], [] => true
  | [], c :: _ => negb (is_name c)
  | n :: name', c :: rest' => fold_eq c n && tag_at name' rest'
  | _ :: _, [] => false
  end.

Definition slash : ascii := "/"%char.
Definition less : ascii := "<"%char.

(** [strings.TrimPrefix(rest, "/")]. *)
Definition trim_slash (rest : bytes) : bytes :=
  match rest with
  | c :: rest' => if ascii_dec c slash then rest' else rest
  | [] => []
  end.

Definition startsTag (rest : bytes) : bool :=
  existsb (fun name => tag_at name (trim_slash rest)) tagNames.

(** The loop of [EscapeTagsAs]: what it writes of [s]. *)
Fixpoint escape (lt : bytes) (s : bytes) : bytes :=
  match s with
  | [] => []
  | c :: rest =>
    if ascii_dec c less
    then (if startsTag rest then lt else [c]) ++ escape lt rest
    else c :: escape lt rest
  end.

Definition EscapeTagsAs (s lt : bytes) : bytes :=
  if contains s [less] then escape lt s else s.

Definition amp_lt : bytes := bytes_of "&lt;".

Definition EscapeTags (s : bytes) : bytes := EscapeTagsAs s amp_lt.

(** ** The asks for a Recap *)

Definition RecapAskPrefix : string := "Write a recap of".
Definition MergeRecapAskPrefix : string := "Write one recap of".

Definition IsRecapAsk (message : bytes) : bool :=
  has_prefix message (bytes_of RecapAskPrefix) || has_prefix message (bytes_of MergeRecapAskPrefix).

(** ** Lemmas on [Cut] and [SplitLines] *)

Lemma back_to_start_le s n : back_to_start s n <= n.
Proof. induction n as [|n IH]; simpl; [lia|]. repeat split_match; lia. Qed.

Lemma back_to_start_boundary s n :
  n < length s -> back_to_start s n = 0 \/ exists c, s !! back_to_start s n = Some c /\ rune_start c = true.
Proof.
  induction n as [|n IH]; intros Hn; simpl; [by left|].
  destruct (lookup_lt_is_Some_2 s (S n) Hn) as [c Hc]. rewrite Hc.
  destruct (rune_start c) eqn:E; [right; by exists c|]. apply IH. lia.
Qed.

Lemma back_to_start_largest s n m c :
  m <= n -> s !! m = Some c -> rune_start c = true -> n < length s -> m <= back_to_start s n.
Proof.
  induction n as [|n IH]; intros Hm Hs Hc Hn; simpl; [done|].
  destruct (lookup_lt_is_Some_2 s (S n) Hn) as [d Hd]. rewrite Hd.
  destruct (rune_start d) eqn:E; [done|].
  destruct (decide (m = S n)) as [->|]; [congruence|]. apply IH; lia || done.
Qed.

Lemma Cut_le s limit : Cut s limit <= length s.
Proof.
  unfold Cut. destruct (Z.leb_spec (Z.of_nat (length s)) limit); [lia|].
  destruct (Z.leb_spec limit 0); [lia|]. pose proof (back_to_start_le s (Z.to_nat limit)). lia.
Qed.

Lemma cut_of_bounds line limit :
  (1 <= limit)%Z -> (limit < Z.of_nat (length line))%Z ->
  1 <= cut_of line limit <= length line.
Proof.
  intros H1 H2. unfold cut_of. pose proof (Cut_le line limit).
  destruct line as [|c line]; [simpl in H2; lia|].
  destruct (Cut (c :: line) limit); [|lia]. apply decode_rune_size.
Qed.

Lemma cut_line_concat fuel limit line :
  mjoin (fst (cut_line fuel limit line)) ++ snd (cut_line fuel limit line) = line.
Proof.
  revert line; induction fuel as [|fuel IH]; intros line; simpl; [done|].
  destruct (limit <? _)%Z; [|done].
  specialize (IH (drop (cut_of line limit) line)).
  destruct (cut_line fuel limit _) as [out rest]. simpl in *.
  by rewrite <- app_assoc, IH, take_drop.
Qed.

(** The fuel is enough: what is left of the line fits. *)
Lemma cut_line_rest fuel limit line :
  (1 <= limit)%Z -> length line <= fuel ->
  (Z.of_nat (length (snd (cut_line fuel limit line))) <= limit)%Z.
Proof.
  intros H1. revert line; induction fuel as [|fuel IH]; intros line Hf; simpl; [lia|].
  destruct (Z.ltb_spec limit (Z.of_nat (length line))); [|simpl; lia].
  pose proof (cut_of_bounds line limit H1 H).
  specialize (IH (drop (cut_of line limit) line)). rewrite length_drop in IH.
  destruct (cut_line fuel limit _) as [out rest]. simpl in *. lia.
Qed.

(** A piece that is longer than [limit] is one rune. *)
Definition piece_fits (limit : Z) (piece : bytes) : Prop :=
  (Z.of_nat (length piece) <= limit)%Z \/ length piece <= 4.

Lemma cut_of_fits line limit :
  (1 <= limit)%Z -> (limit < Z.of_nat (length line))%Z ->
  piece_fits limit (take (cut_of line limit) line).
Proof.
  intros H1 H2. unfold piece_fits. rewrite length_take. unfold cut_of, Cut.
  destruct (Z.leb_spec (Z.of_nat (length line)) limit); [lia|].
  destruct (Z.leb_spec limit 0); [lia|].
  pose proof (back_to_start_le line (Z.to_nat limit)).
  destruct (back_to_start line (Z.to_nat limit)); [|left; lia].
  destruct line as [|c line]; [simpl in H2; lia|].
  pose proof (decode_rune_size c line). right. lia.
Qed.

Lemma cut_line_fits fuel limit line :
  (1 <= limit)%Z -> length line <= fuel -> Forall (piece_fits limit) (fst (cut_line fuel limit line)).
Proof.
  intros H1. revert line; induction fuel as [|fuel IH]; intros line Hf; simpl; [constructor|].
  destruct (Z.ltb_spec limit (Z.of_nat (length line))); [|constructor].
  pose proof (cut_of_bounds line limit H1 H).
  specialize (IH (drop (cut_of line limit) line)). rewrite length_drop in IH.
  destruct (cut_line fuel limit _) as [out rest]. simpl in *.
  constructor; [by apply cut_of_fits|apply IH; lia].
Qed.

Lemma split_line_concat limit line : mjoin (split_line limit line) = line.
Proof.
  unfold split_line. pose proof (cut_line_concat (length line) limit line) as H.
  destruct (cut_line (length line) limit line) as [out rest]. simpl in H.
  destruct (decide (rest = [])) as [->|Hr].
  - rewrite app_nil_r in H. rewrite bool_decide_true by done. simpl.
    destruct (bool_decide (line = [])); [by rewrite join_app; simpl; rewrite app_nil_r|done].
  - rewrite bool_decide_false by done. simpl. rewrite join_app. simpl. by rewrite app_nil_r.
Qed.

Lemma split_line_fits limit line :
  (1 <= limit)%Z -> Forall (piece_fits limit) (split_line limit line).
Proof.
  intros H1. unfold split_line.
  pose proof (cut_line_fits (length line) limit line H1 (le_n _)) as Hf.
  pose proof (cut_line_rest (length line) limit line H1 (le_n _)) as Hr.
  destruct (cut_line (length line) limit line) as [out rest]. simpl in *.
  destruct (_ || _); [|done]. apply Forall_app; split; [done|]. apply Forall_singleton. by left.
Qed.

Definition no_newline (c : ascii) : Prop := c <> newline.

Lemma split_newline_concat text : mjoin (split_newline text) = filter no_newline text.
Proof.
  induction text as [|c text IH]; simpl; [done|]. unfold no_newline in *.
  destruct (ascii_dec c newline) as [->|Hc].
  - rewrite filter_cons_False by auto. done.
  - rewrite filter_cons_True by done. rewrite <- IH. by destruct (split_newline text).
Qed.

Lemma trim_newlines_filter text : filter no_newline (trim_newlines text) = filter no_newline text.
Proof.
  induction text as [|c text IH]; [done|]. simpl trim_newlines.
  assert (Hc : filter no_newline (c :: trim_newlines text) = filter no_newline (c :: text))
    by (rewrite !filter_cons, IH; done).
  rewrite <- Hc. destruct (trim_newlines text); [|done].
  destruct (ascii_dec c newline) as [->|]; [|done].
  rewrite filter_cons_False; [done|]. unfold no_newline. auto.
Qed.

Lemma mjoin_fmap_concat (f : bytes -> list bytes) ls :
  (forall l, mjoin (f l) = l) -> mjoin (mjoin (f <$> ls)) = mjoin ls.
Proof.
  intros Hf. induction ls as [|l ls IH]; [done|].
  change (mjoin (f l ++ mjoin (f <$> ls)) = l ++ mjoin ls). by rewrite join_app, Hf, IH.
Qed.

(** ** Properties of the pages *)

(** [SplitLines] loses no text: its pieces hold every byte of the text but
    the line breaks, in order, and every piece fits the limit or is one rune. *)
Theorem split_lines_lossless (text : bytes) (limit : Z) :
  mjoin (SplitLines text limit) = filter no_newline text /\
  Forall (piece_fits (Z.max limit 1)) (SplitLines text limit).
Proof.
  unfold SplitLines. destruct text as [|c text]; [done|]. split.
  - rewrite mjoin_fmap_concat by (intros; apply split_line_concat).
    by rewrite split_newline_concat, trim_newlines_filter.
  - apply Forall_join, Forall_fmap, Forall_true. intros line. apply split_line_fits. lia.
Qed.

Definition page_size (page : list bytes) : Z :=
  foldr (fun line size => Z.of_nat (length line) + 1 + size)%Z 0%Z page.

Definition page_ok (limit : Z) (page : list bytes) : Prop :=
  (page_size page <= limit)%Z \/ length page <= 1.

Lemma page_size_snoc page line :
  page_size (page ++ [line]) = (page_size page + (Z.of_nat (length line) + 1))%Z.
Proof. unfold page_size. induction page; simpl; lia. Qed.

(** The pages written so far and the open one, as [paginate] keeps them: only
    the first page may be open with no line. *)
Definition pages_wf (limit : Z) (pages : list (list bytes)) (current : list bytes) : Prop :=
  Forall (page_ok limit) pages /\ Forall (fun p => p <> []) pages /\ page_ok limit current /\
  (current = [] -> pages = []).

Lemma paginate_spec limit lines pages current :
  pages_wf limit pages current ->
  let out := paginate limit pages current (page_size current) lines in
  mjoin out = mjoin pages ++ current ++ lines /\ Forall (page_ok limit) out /\
  (pages ++ [current] <> [[]] \/ lines <> [] -> Forall (fun p => p <> []) out).
Proof.
  revert pages current; induction lines as [|line lines IH]; intros pages current (Hp & Hn & Hc & He).
  - simpl. rewrite app_nil_r. destruct (decide (current = [])) as [->|Hne].
    + rewrite (He eq_refl). simpl. repeat split; [|by intros [?|?]].
      apply Forall_singleton. right. simpl. lia.
    + rewrite bool_decide_false by done. simpl. rewrite join_app. simpl. rewrite app_nil_r.
      split; [done|]. split; [by apply Forall_app; split; [|apply Forall_singleton]|].
      intros _. apply Forall_app; split; [done|]. by apply Forall_singleton.
  - cbn [paginate]. destruct (decide (current = [])) as [->|Hne].
    + rewrite bool_decide_true by done. cbn [negb andb]. rewrite (He eq_refl).
      change ([] ++ [line]) with [line].
      replace (page_size [] + _)%Z with (page_size [line]) by (simpl; lia).
      destruct (IH [] [line]) as (H1 & H2 & H3); [split_and!; try done; right; simpl; lia|].
      split_and!; [done|done|]. intros _. apply H3. by left.
    + rewrite bool_decide_false by done. cbn [negb andb].
      destruct (Z.ltb_spec limit (page_size current + (Z.of_nat (length line) + 1))) as [Hlt|Hge].
      * replace (Z.of_nat (length line) + 1)%Z with (page_size [line]) by (simpl; lia).
        destruct (IH (pages ++ [current]) [line]) as (H1 & H2 & H3).
        { split_and!; [|..|done]; try (apply Forall_app; split; [done|]; by apply Forall_singleton).
          right; simpl; lia. }
        split_and!; [|done|].
        -- rewrite H1, join_app. simpl. by rewrite app_nil_r, <- app_assoc.
        -- intros _. apply H3. left. by destruct pages as [|? [|? ?]].
      * rewrite <- page_size_snoc. destruct (IH pages (current ++ [line])) as (H1 & H2 & H3).
        { split_and!; [done|done| |by destruct current]. left. rewrite page_size_snoc. lia. }
        split_and!; [|done|].
        -- by rewrite H1, <- app_assoc.
        -- intros _. apply H3. left. by destruct pages as [|? [|? ?]], current.
Qed.

(** [Paginate] is a partition of the lines: the pages are the lines in
    order, each page fits the limit or holds one line alone, and no page is
    empty unless there is no line at all. *)
Theorem paginate_partition (lines : list bytes) (limit : Z) :
  mjoin (Paginate lines limit) = lines /\
  Forall (page_ok limit) (Paginate lines limit) /\
  (if bool_decide (lines = []) then Paginate lines limit = [[]]
   else Forall (fun p => p <> []) (Paginate lines limit)).
Proof.
  destruct (paginate_spec limit lines [] []) as (H1 & H2 & H3).
  { split_and!; try done. right; simpl; lia. }
  split_and!; [done|done|]. case_bool_decide as E; [by subst|]. apply H3. by right.
Qed.

(** ** Properties of the tags *)

Definition name_char (n : ascii) : Prop := byte_in 0x61 0x7A n || (byte n =? 0x5F)%N = true.

(** What may stand for a "<": text without one whose first character is no part of a tag. *)
Record stands_in (lt : bytes) : Prop := {
  si_first c : head lt = Some c -> is_name c = false /\ c <> slash /\ forall n, name_char n -> fold_eq c n = false;
  si_some : lt <> [];
  si_clean : less ∉ lt;
}.

Lemma fold_eq_symbol c n :
  byte c = 0x3C%N \/ byte c = 0x26%N \/ byte c = 0x5C%N -> name_char n -> fold_eq c n = false.
Proof.
  intros Hc H. assert (Hn : (byte n = 0x5F \/ 0x61 <= byte n <= 0x7A)%N).
  { unfold name_char, byte_in in H. rewrite orb_true_iff, andb_true_iff, !N.leb_le, N.eqb_eq in H. lia. }
  unfold fold_eq, lower, byte_in. apply N.eqb_neq. repeat split_match;
    repeat match goal with H : _ && _ = true |- _ => apply andb_true_iff in H as [?%N.leb_le ?%N.leb_le] end; lia.
Qed.

Lemma amp_lt_stands_in : stands_in amp_lt.
Proof.
  split; [|done|repeat (apply not_elem_of_cons; split; [done|]); apply not_elem_of_nil].
  intros c [= <-]. split_and!; [done|done|]. intros n. apply fold_eq_symbol. by right; left.
Qed.

Section escaped.
Context (lt : bytes) (Hlt : stands_in lt).

(** Escaping the text after a "<" does not change whether it starts a tag. *)
Lemma tag_at_escape name rest :
  Forall name_char name -> tag_at name (escape lt rest) = tag_at name rest.
Proof using Hlt.
  intros Hn; revert rest; induction Hn as [|n name Hc Hn IH]; intros rest.
  - destruct rest as [|c rest]; [done|]. cbn [escape].
    destruct (ascii_dec c less) as [->|]; [|done]. destruct (startsTag rest); [|done].
    destruct lt as [|c0 lt'] eqn:E; [by destruct (si_some _ Hlt)|]. destruct (si_first _ Hlt c0) as (H1 & _); [done|].
    cbn. by rewrite H1.
  - destruct rest as [|c rest]; [done|]. cbn [escape].
    destruct (ascii_dec c less) as [->|].
    + pose proof (fold_eq_symbol less n (or_introl eq_refl) Hc) as H1. cbn [tag_at]. rewrite H1.
      destruct (startsTag rest); [|cbn; by rewrite H1].
      destruct lt as [|c0 lt'] eqn:E; [by destruct (si_some _ Hlt)|]. destruct (si_first _ Hlt c0) as (_ & _ & H2); [done|].
      cbn. by rewrite H2.
    + cbn [tag_at]. by rewrite IH.
Qed.

Lemma trim_slash_escape rest :
  trim_slash (escape lt rest) = escape lt (trim_slash rest).
Proof using Hlt.
  destruct rest as [|c rest]; [done|]. cbn [escape trim_slash].
  destruct (ascii_dec c less) as [->|Hne].
  - destruct (startsTag rest) eqn:E; [|simpl; by rewrite E]. simpl. rewrite E.
    destruct lt as [|c0 lt'] eqn:El; [by destruct (si_some _ Hlt)|]. destruct (si_first _ Hlt c0) as (_ & H2 & _); [done|].
    cbn. by destruct (ascii_dec c0 slash).
  - simpl. destruct (ascii_dec c slash); [done|]. cbn [escape]. by destruct (ascii_dec c less).
Qed.

Lemma startsTag_escape rest : startsTag (escape lt rest) = startsTag rest.
Proof using Hlt.
  unfold startsTag. rewrite trim_slash_escape. assert (H : Forall (Forall name_char) tagNames) by by repeat constructor.
  induction H as [|name names Hn _ IH]; [done|]. cbn [existsb]. by rewrite IH, tag_at_escape.
Qed.
End escaped.

Lemma contains_less_none s lt : contains s [less] = false -> escape lt s = s.
Proof.
  induction s as [|c s IH]; [done|]. cbn [contains has_prefix]. intros [H1 H2]%orb_false_iff.
  cbn [escape]. destruct (ascii_dec c less) as [->|]; [discriminate H1|]. by rewrite IH.
Qed.

Lemma EscapeTagsAs_escape s lt : EscapeTagsAs s lt = escape lt s.
Proof.
  unfold EscapeTagsAs. destruct (contains s [less]) eqn:E; [done|].
  by rewrite contains_less_none.
Qed.

(** A "<" of [s] that starts a tag. *)
Fixpoint has_tag (s : bytes) : bool :=
  match s with
  | [] => false
  | c :: rest => ((if ascii_dec c less then true else false) && startsTag rest) || has_tag rest
  end.

Lemma has_tag_after s k : less ∉ s -> has_tag (s ++ k) = has_tag k.
Proof.
  induction s as [|c s IH]; [done|]. intros [Hc Hs]%not_elem_of_cons. cbn [app has_tag].
  destruct (ascii_dec c less) as [->|]; [done|]. by apply IH.
Qed.

Lemma has_tag_escape lt s : stands_in lt -> has_tag (escape lt s) = false.
Proof.
  intros Hlt. induction s as [|c s IH]; [done|]. cbn [escape].
  destruct (ascii_dec c less) as [->|Hne].
  - destruct (startsTag s) eqn:E; [rewrite has_tag_after; [done|apply Hlt]|]. cbn [app has_tag].
    rewrite startsTag_escape, E by done. done.
  - cbn [has_tag]. by destruct (ascii_dec c less).
Qed.

Lemma escape_no_tag s lt : has_tag s = false -> escape lt s = s.
Proof.
  induction s as [|c s IH]; [done|]. cbn [has_tag escape]. rewrite orb_false_iff.
  intros [H1 H2]. destruct (ascii_dec c less) as [->|]; simpl in *; [rewrite H1|]; by rewrite IH.
Qed.

Lemma has_tag_EscapeTags s : has_tag (EscapeTags s) = false.
Proof. unfold EscapeTags. rewrite EscapeTagsAs_escape. apply has_tag_escape, amp_lt_stands_in. Qed.

(** no "<" of escaped text starts one of the four tags, so text of the
    conversation cannot open or close one; text without such a "<" is kept as
    it is, and escaping again changes nothing. *)
Theorem escape_tags_clean (s : bytes) :
  has_tag (EscapeTags s) = false /\
  (has_tag s = false -> EscapeTags s = s) /\
  EscapeTags (EscapeTags s) = EscapeTags s.
Proof.
  split; [apply has_tag_EscapeTags|]. unfold EscapeTags. rewrite !EscapeTagsAs_escape.
  split; [apply escape_no_tag|]. apply escape_no_tag, has_tag_escape, amp_lt_stands_in.
Qed.
