(* ===== verification/FileName.v ===== *)
(** * File names of the file store

    [store/file_name.go]: [nameOf] spells an ID as a file name, and [idOf]
    reads it back. *)

From S2P Require Import Prelude GoStrings.
Local Open Scope N_scope.

(** ** Operations *)

(** The bytes that stand for themselves. *)
Definition plain (c : ascii) : bool :=
  byte_in 0x61 0x7A c || byte_in 0x30 0x39 c || (byte c =? 0x2E) || (byte c =? 0x5F) || (byte c =? 0x2D).

Definition upper (c : ascii) : bool := byte_in 0x41 0x5A c.

(** One upper-case hex digit, as [%02X] writes it. *)
Definition hex_digit (n : N) : ascii :=
  if n <? 10 then ascii_of_N (0x30 + n) else ascii_of_N (0x41 + (n - 10)).

Definition bang : ascii := "!"%char.
Definition percent : ascii := "%"%char.

(** What one byte of an ID is spelled as. *)
Definition name_byte (c : ascii) : bytes :=
  if plain c then [c]
  else if upper c then [bang; ascii_of_N (byte c + 0x61 - 0x41)]
  else [percent; hex_digit (byte c / 16); hex_digit (byte c mod 16)].

Definition nameOf (id : bytes) : bytes := mjoin (name_byte <$> id).

(** A hex digit of [strconv.ParseUint] that [strings.ToUpper] leaves alone. *)
Definition upper_hex (c : ascii) : option N :=
  if byte_in 0x30 0x39 c then Some (byte c - 0x30)
  else if byte_in 0x41 0x46 c then Some (byte c - 0x41 + 10)
  else None.

Fixpoint idOf (name : bytes) : option bytes :=
  match name with
  | [] => Some []
  | c :: rest =>
    if plain c then (c ::.) <$> idOf rest
    else if ascii_dec c bang then
      match rest with
      | d :: rest' =>
        if byte_in 0x61 0x7A d
        then (ascii_of_N (byte d - 0x61 + 0x41) ::.) <$> idOf rest'
        else None
      | [] => None
      end
    else if ascii_dec c percent then
      match rest with
      | h :: l :: rest' =>
        match upper_hex h, upper_hex l with
        | Some hi, Some lo => (ascii_of_N (hi * 16 + lo) ::.) <$> idOf rest'
        | _, _ => None
        end
      | _ => None
      end
    else None
  end.

Definition maxNameBytes : nat := 200%nat.

(** ** Lemmas *)

Lemma byte_of_N n : n < 256 -> byte (ascii_of_N n) = n.
Proof. apply N_ascii_embedding. Qed.

Lemma ascii_of_byte c : ascii_of_N (byte c) = c.
Proof. apply ascii_N_embedding. Qed.

Lemma byte_inj c d : byte c = byte d -> c = d.
Proof. intros H. by rewrite <- (ascii_of_byte c), H, ascii_of_byte. Qed.

Lemma byte_in_spec lo hi c : byte_in lo hi c = true <-> lo <= byte c <= hi.
Proof. unfold byte_in. by rewrite andb_true_iff, !N.leb_le. Qed.

Lemma hex_digit_byte n :
  n < 16 -> byte (hex_digit n) = if n <? 10 then 0x30 + n else 0x41 + (n - 10).
Proof. intros. unfold hex_digit. destruct (N.ltb_spec n 10); apply byte_of_N; lia. Qed.

Lemma upper_hex_digit n : n < 16 -> upper_hex (hex_digit n) = Some n.
Proof.
  intros Hn. pose proof (hex_digit_byte n Hn) as Hb. unfold upper_hex.
  destruct (N.ltb_spec n 10).
  - rewrite (proj2 (byte_in_spec 0x30 0x39 _)) by lia. f_equal. lia.
  - destruct (byte_in 0x30 0x39 _) eqn:E; [apply byte_in_spec in E; lia|].
    rewrite (proj2 (byte_in_spec 0x41 0x46 _)) by lia. f_equal. lia.
Qed.

Lemma hex_bounds c : byte c / 16 < 16 /\ byte c mod 16 < 16.
Proof.
  pose proof (byte_lt c). split; [apply N.Div0.div_lt_upper_bound; lia|apply N.mod_lt; lia].
Qed.

Lemma hex_value c : byte c / 16 * 16 + byte c mod 16 = byte c.
Proof. pose proof (N.div_mod (byte c) 16). lia. Qed.

Lemma idOf_name_byte c rest : idOf (name_byte c ++ rest) = (c ::.) <$> idOf rest.
Proof.
  unfold name_byte. destruct (plain c) eqn:Hp; [cbn [app idOf]; by rewrite Hp|].
  destruct (upper c) eqn:Hu; cbn [app idOf].
  - change (plain bang) with false. destruct (ascii_dec bang bang); [|done]. cbv iota.
    apply byte_in_spec in Hu. rewrite (proj2 (byte_in_spec 0x61 0x7A _)); rewrite byte_of_N by lia; [|lia].
    replace (byte c + 0x61 - 0x41 - 0x61 + 0x41) with (byte c) by lia. by rewrite ascii_of_byte.
  - change (plain percent) with false. destruct (ascii_dec percent bang); [done|].
    destruct (ascii_dec percent percent); [|done]. cbv iota.
    destruct (hex_bounds c) as [H1 H2]. rewrite !upper_hex_digit by done.
    by rewrite hex_value, ascii_of_byte.
Qed.

Lemma nameOf_cons c id : nameOf (c :: id) = name_byte c ++ nameOf id.
Proof. done. Qed.

Lemma name_roundtrip id : idOf (nameOf id) = Some id.
Proof. induction id as [|c id IH]; [done|]. by rewrite nameOf_cons, idOf_name_byte, IH. Qed.

(** ** Properties *)

(** [idOf] reads back every name [nameOf] writes, so a listing finds the ID
    of every Record's directory and two IDs never share a name. *)
Theorem idOf_nameOf (id : bytes) : idOf (nameOf id) = Some id.
Proof. apply name_roundtrip. Qed.

(** What a file system that ignores case compares. *)
Definition fold_byte (c : ascii) : N := if upper c then byte c + 0x20 else byte c.

Lemma fold_plain c : plain c = true -> fold_byte c = byte c.
Proof.
  unfold plain, fold_byte, upper. rewrite !orb_true_iff, !byte_in_spec, !N.eqb_eq. intros H.
  destruct (byte_in 0x41 0x5A c) eqn:E; [|done]. apply byte_in_spec in E. lia.
Qed.

Lemma plain_marks c : plain c = true -> byte c <> 0x21 /\ byte c <> 0x25.
Proof. unfold plain. rewrite !orb_true_iff, !byte_in_spec, !N.eqb_eq. lia. Qed.

Lemma fold_hex m n : m < 16 -> n < 16 -> fold_byte (hex_digit m) = fold_byte (hex_digit n) -> m = n.
Proof.
  intros Hm Hn. unfold fold_byte, upper.
  pose proof (hex_digit_byte m Hm). pose proof (hex_digit_byte n Hn).
  destruct (byte_in 0x41 0x5A (hex_digit m)) eqn:E1; destruct (byte_in 0x41 0x5A (hex_digit n)) eqn:E2;
    rewrite <- ?not_true_iff_false, ?byte_in_spec in *;
    destruct (N.ltb_spec m 10), (N.ltb_spec n 10); lia.
Qed.

Lemma fold_lowered c :
  upper c = true -> fold_byte (ascii_of_N (byte c + 0x61 - 0x41)) = byte c + 0x20.
Proof.
  unfold fold_byte, upper. rewrite byte_in_spec. intros Hc.
  destruct (byte_in 0x41 0x5A (ascii_of_N _)) eqn:E; [apply byte_in_spec in E|]; rewrite byte_of_N in * by lia; lia.
Qed.

(** What starts the spelling of a byte tells its class. *)
Lemma fold_name_head c r :
  fold_byte <$> (name_byte c ++ r) =
    if plain c then byte c :: (fold_byte <$> r)
    else if upper c then 0x21 :: (byte c + 0x20) :: (fold_byte <$> r)
    else 0x25 :: fold_byte (hex_digit (byte c / 16)) :: fold_byte (hex_digit (byte c mod 16)) :: (fold_byte <$> r).
Proof.
  unfold name_byte. destruct (plain c) eqn:Hp; [|destruct (upper c) eqn:Hu]; cbn [app fmap list_fmap].
  - by rewrite fold_plain.
  - by rewrite fold_lowered.
  - done.
Qed.

(** The spelling of a byte is told apart from any other by its folded bytes. *)
Lemma fold_name_byte c d r s :
  fold_byte <$> (name_byte c ++ r) = fold_byte <$> (name_byte d ++ s) ->
  c = d /\ fold_byte <$> r = fold_byte <$> s.
Proof.
  rewrite !fold_name_head.
  destruct (plain c) eqn:Pc; destruct (plain d) eqn:Pd;
    [|destruct (upper d) eqn:Ud|destruct (upper c) eqn:Uc|destruct (upper c) eqn:Uc; destruct (upper d) eqn:Ud];
    intros H; simplify_eq;
    repeat match goal with P : plain _ = true |- _ => pose proof (plain_marks _ P); clear P end;
    try (exfalso; lia).
  - split; [by apply byte_inj|done].
  - split; [apply byte_inj; lia|done].
  - destruct (hex_bounds c), (hex_bounds d).
    split; [|done]. apply byte_inj. rewrite <- (hex_value c), <- (hex_value d).
    by rewrite (fold_hex (byte c / 16) (byte d / 16)), (fold_hex (byte c mod 16) (byte d mod 16)).
Qed.

Lemma name_byte_nonempty c r : fold_byte <$> (name_byte c ++ r) <> [].
Proof. rewrite fold_name_head. by repeat split_match. Qed.

(** two IDs never share a file name, on a file system that ignores case
    too. *)
Theorem nameOf_fold_injective (id1 id2 : bytes) :
  fold_byte <$> nameOf id1 = fold_byte <$> nameOf id2 -> id1 = id2.
Proof.
  revert id2; induction id1 as [|c id1 IH]; intros [|d id2]; [done|..]; rewrite ?nameOf_cons.
  - intros H. by symmetry in H; apply name_byte_nonempty in H.
  - intros H. by apply name_byte_nonempty in H.
  - intros [-> H]%fold_name_byte. f_equal. by apply IH.
Qed.

Lemma nameOf_fold_injective_witness :
  fold_byte <$> nameOf (bytes_of "Ab/1") = fold_byte <$> bytes_of "!ab%2F1" /\
  bytes_of "Ab/1" = bytes_of "Ab/1".
Proof. split; [reflexivity|]. apply nameOf_fold_injective. reflexivity. Defined.

(** [idOf] also reads names that [nameOf] never makes: a byte that stands
    for itself may be spelled in hex, so one ID may be listed under two names. *)
Theorem idOf_accepts_foreign_names :
  idOf (bytes_of "%61") = Some (bytes_of "a") /\ nameOf (bytes_of "a") <> bytes_of "%61" /\
  forall id, nameOf id <> bytes_of "%61".
Proof.
  split; [reflexivity|]. split; [discriminate|]. intros id H.
  assert (E : Some id = Some (bytes_of "a")) by (rewrite <- name_roundtrip, H; reflexivity).
  injection E as ->. discriminate H.
Qed.
