(* ===== verification/Errors.v ===== *)
(** * The error vocabulary

    [gotato/errors.go]: the codes, the [RuntimeError] every layer returns, and
    the questions a caller asks of an error.  An error is a value of [error];
    the text of a message is kept as its format and its arguments, since no
    code reads it but to tell an empty message from a written one. *)

From S2P Require Import Prelude.
Local Open Scope string_scope.
Local Open Scope list_scope.

(** ** Data *)

(** [type ErrorCode string]. *)
Abbreviation ErrorCode := string (only parsing).

Definition CodeInvalidArgument : ErrorCode := "invalid_argument".
Definition CodeInvalidState : ErrorCode := "invalid_state".
Definition CodeBusy : ErrorCode := "busy".
Definition CodeSessionClosed : ErrorCode := "session_closed".
Definition CodeSessionClosing : ErrorCode := "session_closing".
Definition CodeModelFailure : ErrorCode := "model_failure".
Definition CodeContextOverflow : ErrorCode := "context_overflow".
Definition CodeModelProtocolFailure : ErrorCode := "model_protocol_failure".
Definition CodeToolResolutionFailure : ErrorCode := "tool_resolution_failure".
Definition CodeToolArgumentFailure : ErrorCode := "tool_argument_failure".
Definition CodeToolExecutionFailure : ErrorCode := "tool_execution_failure".
Definition CodeToolNotLoaded : ErrorCode := "tool_not_loaded".
Definition CodeExtensionFailure : ErrorCode := "extension_failure".
Definition CodeLimitExceeded : ErrorCode := "limit_exceeded".
Definition CodeCanceled : ErrorCode := "canceled".
Definition CodeDeadlineExceeded : ErrorCode := "deadline_exceeded".
Definition CodeInternalInvariant : ErrorCode := "internal_invariant".
Definition CodeNotSupported : ErrorCode := "not_supported".
Definition CodeConflict : ErrorCode := "conflict".
Definition CodeStoreFailure : ErrorCode := "store_failure".
Definition CodeNotFound : ErrorCode := "not_found".

Definition ErrorCodes : list ErrorCode :=
  [ CodeInvalidArgument; CodeInvalidState; CodeBusy; CodeSessionClosed; CodeSessionClosing;
    CodeModelFailure; CodeContextOverflow; CodeModelProtocolFailure;
    CodeToolResolutionFailure; CodeToolArgumentFailure; CodeToolExecutionFailure; CodeToolNotLoaded;
    CodeExtensionFailure; CodeLimitExceeded; CodeCanceled; CodeDeadlineExceeded;
    CodeInternalInvariant; CodeNotSupported; CodeConflict; CodeStoreFailure;
    CodeNotFound ].

(** The arguments of a formatted message. *)
Inductive farg (E : Type) : Type :=
| FStr (s : string)
| FNum (z : Z)
| FErr (e : E).
Arguments FStr {E} s.
Arguments FNum {E} z.
Arguments FErr {E} e.

Record text (E : Type) := Text { format : string; args : list (farg E) }.
Arguments Text {E} format args.
Arguments format {E} t.
Arguments args {E} t.

Definition plain_text {E} (s : string) : text E := Text s [].

(** A value of [RuntimeError.Details]: a string, or a duration that
    [Duration.String] prints. *)
Inductive detail : Type :=
| DStr (s : string)
| DDuration (d : duration).

(** A [*RuntimeError].  [Sentinel] names the package variable it is the value
    of, and is [None] for one made by a call: two pointers are the same only
    when they are of one variable. *)
Record RuntimeErrorOf (E : Type) := MkRuntimeError {
  Code : ErrorCode;
  Operation : string;
  Message : text E;
  re_Retryable : bool;
  re_NotRun : bool;
  Details : gmap string detail;
  Cause : option E;
  Sentinel : option string;
}.
Arguments MkRuntimeError {E}.
Arguments Code {E} r.
Arguments Operation {E} r.
Arguments Message {E} r.
Arguments re_Retryable {E} r.
Arguments re_NotRun {E} r.
Arguments Details {E} r.
Arguments Cause {E} r.
Arguments Sentinel {E} r.

(** An error of another package: whether it has the methods the core looks
    for ([Public], [Retryable], [ContextOverflow]), what they answer, and what
    it wraps. *)
Record ForeignErrorOf (E : Type) := MkForeign {
  fe_text : string;
  fe_public : option string;
  fe_retryable : option bool;
  fe_overflow : option bool;
  fe_wraps : option E;
}.
Arguments MkForeign {E}.
Arguments fe_text {E} f.
Arguments fe_public {E} f.
Arguments fe_retryable {E} f.
Arguments fe_overflow {E} f.
Arguments fe_wraps {E} f.

(** A non-nil [error].  [Wrapf] is [fmt.Errorf] with a [%w]. *)
#[warnings="-register-all"]
Inductive error : Type :=
| RuntimeErr (e : RuntimeErrorOf error)
| Wrapf (t : text error) (wrapped : error)
| ForeignErr (f : ForeignErrorOf error)
| ContextCanceled
| ContextDeadlineExceeded
| IoEOF.

Abbreviation RuntimeError := (RuntimeErrorOf error) (only parsing).

#[export] Instance eta_RuntimeError E : Eta (RuntimeErrorOf E) := fun r =>
  MkRuntimeError (Code r) (Operation r) (Message r) (re_Retryable r) (re_NotRun r) (Details r)
    (Cause r) (Sentinel r).

(** What a fallible call returns. *)
Abbreviation outcome := (result error) (only parsing).

(** ** The errors package *)

Definition Unwrap (err : error) : option error :=
  match err with
  | RuntimeErr e => Cause e
  | Wrapf _ w => Some w
  | ForeignErr f => fe_wraps f
  | ContextCanceled | ContextDeadlineExceeded | IoEOF => None
  end.

(** [errors.As(err, &re)] for a [*RuntimeError]: the first of the chain. *)
Fixpoint as_runtime (err : error) : option RuntimeError :=
  match err with
  | RuntimeErr e => Some e
  | Wrapf _ w => as_runtime w
  | ForeignErr (MkForeign _ _ _ _ w) => match w with Some e => as_runtime e | None => None end
  | ContextCanceled | ContextDeadlineExceeded | IoEOF => None
  end.

(** Two errors are one value: equal context errors, or one package variable. *)
Definition same_error (err target : error) : bool :=
  match err, target with
  | RuntimeErr e, RuntimeErr t =>
    match Sentinel e, Sentinel t with
    | Some m, Some n => bool_decide (m = n)
    | _, _ => false
    end
  | ContextCanceled, ContextCanceled => true
  | ContextDeadlineExceeded, ContextDeadlineExceeded => true
  | IoEOF, IoEOF => true
  | _, _ => false
  end.

(** The method [RuntimeError.Is]. *)
Definition RuntimeError_Is (e : RuntimeError) (target : error) : bool :=
  match as_runtime target with
  | Some other => String.eqb (format (Message other)) "" && String.eqb (Code e) (Code other)
  | None => false
  end.

(** [errors.Is(err, target)]: along the chain of [err]. *)
Fixpoint errors_Is (err target : error) : bool :=
  same_error err target ||
  match err with
  | RuntimeErr e =>
    RuntimeError_Is e target ||
    match e with
    | MkRuntimeError _ _ _ _ _ _ c _ => match c with Some w => errors_Is w target | None => false end
    end
  | Wrapf _ w => errors_Is w target
  | ForeignErr (MkForeign _ _ _ _ c) => match c with Some w => errors_Is w target | None => false end
  | ContextCanceled | ContextDeadlineExceeded | IoEOF => false
  end.

(** ** Operations *)

Definition applyDefaults (e : RuntimeError) : RuntimeError :=
  if String.eqb (Code e) CodeBusy then e <| re_NotRun := true |> <| re_Retryable := true |>
  else if String.eqb (Code e) CodeNotFound || String.eqb (Code e) CodeSessionClosing
       || String.eqb (Code e) CodeSessionClosed then e <| re_NotRun := true |>
  else if String.eqb (Code e) CodeStoreFailure then e <| re_Retryable := true |>
  else e.

Definition runtimeError (code : ErrorCode) (operation : string) (message : text error)
    (cause : option error) : RuntimeError :=
  applyDefaults (MkRuntimeError code operation message false false ∅ cause None).

Definition ErrorOf (code : ErrorCode) (message : text error) : RuntimeError :=
  applyDefaults (MkRuntimeError code "" message false false ∅ None None).

(** A package variable [name = ErrorOf(code, message)]. *)
Definition SentinelOf (name : string) (code : ErrorCode) (message : string) : error :=
  RuntimeErr ((ErrorOf code (plain_text message)) <| Sentinel := Some name |>).

Definition NotRun (err : option error) : bool :=
  match err ≫= as_runtime with Some re => re_NotRun re | None => false end.

Definition Retryable (err : option error) : bool :=
  match err ≫= as_runtime with Some re => re_Retryable re | None => false end.

Definition IsCode (err : option error) (code : ErrorCode) : bool :=
  match err ≫= as_runtime with Some re => String.eqb (Code re) code | None => false end.

Definition codeForContext (err : error) : ErrorCode :=
  if errors_Is err ContextDeadlineExceeded then CodeDeadlineExceeded else CodeCanceled.

(** [contextFailure], of the context's error. *)
Definition contextFailure (ctx_err : option error) (operation : string) : option RuntimeError :=
  match ctx_err with
  | Some err => Some (runtimeError (codeForContext err) operation (Text "%s" [FErr err]) (Some err))
  | None => None
  end.

(** The first error of the chain that is a [PublicError] ([errors.As]); a
    [RuntimeError] is none. *)
Fixpoint as_public (err : error) : option string :=
  match err with
  | RuntimeErr (MkRuntimeError _ _ _ _ _ _ c _) => match c with Some e => as_public e | None => None end
  | Wrapf _ w => as_public w
  | ForeignErr (MkForeign _ (Some p) _ _ _) => Some p
  | ForeignErr (MkForeign _ None _ _ w) => match w with Some e => as_public e | None => None end
  | ContextCanceled | ContextDeadlineExceeded | IoEOF => None
  end.

(** [PublicText] of [gotato/tool.go]; a [Public] method that panics is one the
    error does not have. *)
Definition PublicText (err : error) (fallback : string) : string := default fallback (as_public err).

Definition asRuntimeError (err : option error) : option RuntimeError :=
  match err with
  | None => None
  | Some e =>
    match as_runtime e with
    | Some re => Some re
    | None => Some (runtimeError CodeInternalInvariant "Core" (plain_text (PublicText e "internal error")) (Some e))
    end
  end.

(** The first error of the chain with a [ContextOverflow] method, and with a
    [Retryable] one; the [RuntimeError]'s [Retryable] is a field. *)
Fixpoint as_overflow (err : error) : option bool :=
  match err with
  | RuntimeErr (MkRuntimeError _ _ _ _ _ _ c _) => match c with Some e => as_overflow e | None => None end
  | Wrapf _ w => as_overflow w
  | ForeignErr (MkForeign _ _ _ (Some b) _) => Some b
  | ForeignErr (MkForeign _ _ _ None w) => match w with Some e => as_overflow e | None => None end
  | ContextCanceled | ContextDeadlineExceeded | IoEOF => None
  end.

Fixpoint as_retryable (err : error) : option bool :=
  match err with
  | RuntimeErr (MkRuntimeError _ _ _ _ _ _ c _) => match c with Some e => as_retryable e | None => None end
  | Wrapf _ w => as_retryable w
  | ForeignErr (MkForeign _ _ (Some b) _ _) => Some b
  | ForeignErr (MkForeign _ _ None _ w) => match w with Some e => as_retryable e | None => None end
  | ContextCanceled | ContextDeadlineExceeded | IoEOF => None
  end.

(** [classifyModelError]: [run_err] and [model_err] are what the Run's and the
    call's contexts report, and [limit] is the call's deadline. *)
Definition classifyModelError (err : option error) (run_err model_err : option error)
    (limit : duration) : RuntimeError :=
  match err with
  | None => runtimeError CodeModelFailure "Model" (plain_text "unknown Model failure") None
  | Some err =>
    if errors_Is err ContextCanceled || errors_Is err ContextDeadlineExceeded then
      match run_err, model_err with
      | Some cause, _ => runtimeError (codeForContext cause) "Model" (Text "%s" [FErr cause]) (Some err)
      | None, Some cause =>
        let failure := runtimeError (codeForContext cause) "Model" (Text "%s" [FErr cause]) (Some err) in
        if (0 <? limit)%Z && errors_Is cause ContextDeadlineExceeded then
          failure <| Message := plain_text "model call exceeded ModelCallDeadline" |>
                  <| Details := {["limit" := DDuration limit]} |>
        else failure
      | None, None =>
        (runtimeError CodeModelFailure "Model" (plain_text (PublicText err "model call failed")) (Some err))
          <| re_Retryable := errors_Is err ContextDeadlineExceeded |>
      end
    else
      let rest :=
        if default false (as_overflow err) then
          runtimeError CodeContextOverflow "Model"
            (plain_text (PublicText err "the request is longer than the model accepts")) (Some err)
        else
          let failure :=
            runtimeError CodeModelFailure "Model" (plain_text (PublicText err "model call failed")) (Some err) in
          if default false (as_retryable err) then failure <| re_Retryable := true |> else failure in
      match as_runtime err with
      | Some coded =>
        if String.eqb (Code coded) CodeModelProtocolFailure || String.eqb (Code coded) CodeNotSupported
        then coded else rest
      | None => rest
      end
  end.

Definition ErrEventsLost : error :=
  SentinelOf "gotato.ErrEventsLost" "cannot_resume"
    "gotato: the Events this subscriber missed are no longer available".

(** [journalError] of [gotato/journal.go]: a failed write as the Run's error. *)
Definition journalError (err : error) : RuntimeError :=
  let failure := runtimeError CodeStoreFailure "Journal"
    (plain_text (PublicText err "cannot write the Run's Events")) (Some err) in
  match as_runtime err with
  | Some re =>
    if String.eqb (Code re) CodeConflict || String.eqb (Code re) CodeStoreFailure then re
    else if String.eqb (Code re) CodeNotFound then
      (runtimeError CodeNotFound "Journal"
        (plain_text "the Session was deleted while the Run was going on") (Some err))
        <| re_NotRun := false |> <| re_Retryable := false |>
    else failure
  | None => failure
  end.

(** ** Lemmas *)

Lemma as_runtime_sentinel name code message :
  as_runtime (SentinelOf name code message) =
    Some ((ErrorOf code (plain_text message)) <| Sentinel := Some name |>).
Proof. done. Qed.

Lemma errors_Is_refl name code message :
  errors_Is (SentinelOf name code message) (SentinelOf name code message) = true.
Proof. simpl. unfold same_error. simpl. by rewrite bool_decide_true. Qed.

(** ** Properties *)

(** a model call that failed because a context of the call ended is never
    reported as the Model's own failure and is never retryable, and a failure of the Model is
    retryable only when the Model said so or its own timeout ended it. *)
Theorem model_failure_class (err : error) (run_err model_err : option error) (limit : duration) :
  let failure := classifyModelError (Some err) run_err model_err limit in
  (errors_Is err ContextCanceled || errors_Is err ContextDeadlineExceeded = true ->
   (run_err <> None \/ model_err <> None ->
    (Code failure = CodeCanceled \/ Code failure = CodeDeadlineExceeded) /\ re_Retryable failure = false) /\
   (run_err = None -> model_err = None ->
    Code failure = CodeModelFailure /\ re_Retryable failure = errors_Is err ContextDeadlineExceeded)) /\
  (errors_Is err ContextCanceled || errors_Is err ContextDeadlineExceeded = false ->
   as_runtime err = None ->
   (Code failure = CodeContextOverflow <-> as_overflow err = Some true) /\
   (re_Retryable failure = true <-> as_overflow err <> Some true /\ as_retryable err = Some true)).
Proof.
  cbv zeta. unfold classifyModelError. split.
  - intros ->. split.
    + assert (Hc : forall c, Code (runtimeError (codeForContext c) "Model" (Text "%s" [FErr c]) (Some err)) = codeForContext c
        /\ re_Retryable (runtimeError (codeForContext c) "Model" (Text "%s" [FErr c]) (Some err)) = false).
      { intros c. unfold codeForContext. by destruct (errors_Is c _). }
      assert (Hd : forall c, codeForContext c = CodeCanceled \/ codeForContext c = CodeDeadlineExceeded).
      { intros c. unfold codeForContext. destruct (errors_Is c _); auto. }
      intros [Hr|Hm]; destruct run_err as [c|]; try done.
      * by rewrite (proj1 (Hc c)), (proj2 (Hc c)).
      * by rewrite (proj1 (Hc c)), (proj2 (Hc c)).
      * destruct model_err as [c|]; [|done].
        destruct (_ && _); simpl; by rewrite (proj1 (Hc c)), (proj2 (Hc c)).
    + intros -> ->. done.
  - intros -> ->. destruct (as_overflow err) as [[]|]; destruct (as_retryable err) as [[]|]; cbn;
      repeat split; intuition (discriminate || congruence).
Qed.
