(* ===== verification/Types.v ===== *)
(** * Messages, tool results and Segments

    The data of [gotato/types.go] and [gotato/segment.go], with every field.
    A nil slice or map and an empty one are the same value here, a pointer is an
    [option], and [Clone], which copies, is the identity on values. *)

From S2P Require Import Prelude GoStrings Errors.
Local Open Scope string_scope.
Local Open Scope list_scope.

Abbreviation SessionID := string (only parsing).
Abbreviation RunID := string (only parsing).
Abbreviation MessageID := string (only parsing).
Abbreviation ToolCallID := string (only parsing).
Abbreviation TurnNumber := N (only parsing).
Abbreviation Metadata := (gmap string string) (only parsing).

(** ** Messages *)

Abbreviation Role := string (only parsing).
Definition RoleUser : Role := "user".
Definition RoleAssistant : Role := "assistant".
Definition RoleToolResult : Role := "tool_result".
Definition RoleNotice : Role := "notice".

Abbreviation ContentKind := string (only parsing).
Definition ContentKindText : ContentKind := "text".
Definition ContentKindReasoning : ContentKind := "reasoning".
Definition ContentKindImage : ContentKind := "image".
Definition ContentKindJSON : ContentKind := "json".

Record ContentPart := MkPart {
  cp_Kind : ContentKind;
  cp_Text : string;
  cp_Data : bytes;
  cp_MIMEType : string;
  cp_Signature : bytes;
  cp_Metadata : Metadata;
}.
#[export] Instance eta_ContentPart : Eta ContentPart := fun r =>
  MkPart (cp_Kind r) (cp_Text r) (cp_Data r) (cp_MIMEType r) (cp_Signature r) (cp_Metadata r).

(** [ContentPart{Kind: kind, Text: text}]. *)
Definition part_of (kind : ContentKind) (text : string) : ContentPart := MkPart kind text [] "" [] ∅.

Record ToolCall := MkToolCall {
  tc_ID : ToolCallID;
  tc_ToolID : string;
  tc_Arguments : bytes;
  tc_Signature : bytes;
}.

Abbreviation ToolResultStatus := string (only parsing).
Definition ToolResultStatusOK : ToolResultStatus := "ok".
Definition ToolResultStatusBlocked : ToolResultStatus := "blocked".
Definition ToolResultStatusFailed : ToolResultStatus := "failed".
Definition ToolResultStatusCanceled : ToolResultStatus := "canceled".

(** [RecordRef] is embedded in [SpilledResult] and [SegmentSource]. *)
Record RecordRef := MkRecordRef { rr_SessionID : SessionID; rr_RecordEpoch : string }.

Record SpilledResult := MkSpilled { sp_Seq : N; sp_Bytes : Z; sp_Ref : RecordRef }.
#[export] Instance eta_SpilledResult : Eta SpilledResult := fun r => MkSpilled (sp_Seq r) (sp_Bytes r) (sp_Ref r).

Record ToolResult := MkToolResult {
  tr_CallID : ToolCallID;
  tr_Status : ToolResultStatus;
  tr_Content : list ContentPart;
  tr_Metadata : Metadata;
  tr_SafeError : string;
  tr_Code : ErrorCode;
  tr_Executed : bool;
  tr_Spilled : option SpilledResult;
  tr_LoadedTools : list string;
}.
#[export] Instance eta_ToolResult : Eta ToolResult := fun r =>
  MkToolResult (tr_CallID r) (tr_Status r) (tr_Content r) (tr_Metadata r) (tr_SafeError r)
    (tr_Code r) (tr_Executed r) (tr_Spilled r) (tr_LoadedTools r).

(** The counters are [uint64]. *)
Record Usage := MkUsage {
  us_InputTokens : N;
  us_OutputTokens : N;
  us_TotalTokens : N;
  us_CacheReadTokens : N;
  us_CacheWriteTokens : N;
}.
Definition usage_zero : Usage := MkUsage 0 0 0 0 0.

Abbreviation StopReason := string (only parsing).
Definition StopReasonEndTurn : StopReason := "end_turn".
Definition StopReasonToolCalls : StopReason := "tool_calls".
Definition StopReasonMaxTokens : StopReason := "max_tokens".
Definition StopReasonCanceled : StopReason := "canceled".
Definition StopReasonError : StopReason := "error".
Definition StopReasonCutOff : StopReason := "cut_off".

Abbreviation NoticeSource := string (only parsing).
Definition NoticeSourceGotato : NoticeSource := "gotato".
Definition NoticeSourceService : NoticeSource := "service".

Record NoticeInfo := MkNotice { ni_Kind : string; ni_Source : NoticeSource; ni_CausedBy : N }.

Record Message := MkMessage {
  m_ID : MessageID;
  m_RunID : RunID;
  m_Role : Role;
  m_Parts : list ContentPart;
  m_ToolCalls : list ToolCall;
  m_ToolResult : option ToolResult;
  m_Usage : Usage;
  m_StopReason : StopReason;
  m_Model : string;
  m_Notice : option NoticeInfo;
}.
#[export] Instance eta_Message : Eta Message := fun r =>
  MkMessage (m_ID r) (m_RunID r) (m_Role r) (m_Parts r) (m_ToolCalls r) (m_ToolResult r)
    (m_Usage r) (m_StopReason r) (m_Model r) (m_Notice r).

(** [Message{}]. *)
Definition message_zero : Message := MkMessage "" "" "" [] [] None usage_zero "" "" None.

Definition UserMessage (text : string) : Message :=
  message_zero <| m_Role := RoleUser |> <| m_Parts := [part_of ContentKindText text] |>.

Definition AssistantMessage (text : string) : Message :=
  message_zero <| m_Role := RoleAssistant |> <| m_Parts := [part_of ContentKindText text] |>.

Definition partsText (m : Message) (kind : ContentKind) : string :=
  foldr (fun p s => if String.eqb (cp_Kind p) kind then (cp_Text p ++ s)%string else s) "" (m_Parts m).

Definition TextOf (m : Message) : string := partsText m ContentKindText.
Definition ReasoningOf (m : Message) : string := partsText m ContentKindReasoning.

Definition addUsage (total current : Usage) : Usage :=
  MkUsage (u64_add (us_InputTokens total) (us_InputTokens current))
    (u64_add (us_OutputTokens total) (us_OutputTokens current))
    (u64_add (us_TotalTokens total) (us_TotalTokens current))
    (u64_add (us_CacheReadTokens total) (us_CacheReadTokens current))
    (u64_add (us_CacheWriteTokens total) (us_CacheWriteTokens current)).

(** ** Runs *)

Abbreviation RunStatus := string (only parsing).
Definition RunStatusRunning : RunStatus := "running".
Definition RunStatusCompleted : RunStatus := "completed".
Definition RunStatusCanceled : RunStatus := "canceled".
Definition RunStatusDeadlineExceeded : RunStatus := "deadline_exceeded".
Definition RunStatusFailed : RunStatus := "failed".

(** ** Segments *)

Record SegmentSource := MkSource { so_Ref : RecordRef; so_FromNumber : N; so_ToNumber : N }.
#[export] Instance eta_SegmentSource : Eta SegmentSource := fun r => MkSource (so_Ref r) (so_FromNumber r) (so_ToNumber r).

Record ToolCallLine := MkLine {
  tl_At : gotime;
  tl_ToolID : string;
  tl_Args : string;
  tl_Status : ToolResultStatus;
  tl_Code : string;
  tl_Count : Z;
}.

Record MergedSegment := MkMerged {
  mg_Number : Z;
  mg_From : gotime;
  mg_To : gotime;
  mg_Source : SegmentSource;
}.
#[export] Instance eta_MergedSegment : Eta MergedSegment := fun r =>
  MkMerged (mg_Number r) (mg_From r) (mg_To r) (mg_Source r).

Record Segment := MkSegment {
  sg_Number : Z;
  sg_From : gotime;
  sg_To : gotime;
  sg_Source : SegmentSource;
  sg_Messages : list Message;
  sg_Rendered : Z;
  sg_ToolCalls : list ToolCallLine;
  sg_Recap : string;
  sg_LoadedTools : list string;
  sg_Merged : list MergedSegment;
}.
#[export] Instance eta_Segment : Eta Segment := fun r =>
  MkSegment (sg_Number r) (sg_From r) (sg_To r) (sg_Source r) (sg_Messages r) (sg_Rendered r)
    (sg_ToolCalls r) (sg_Recap r) (sg_LoadedTools r) (sg_Merged r).

(** [Segment{}], which a Go map returns for a number it does not hold. *)
Definition segment_zero : Segment :=
  MkSegment 0 0 0 (MkSource (MkRecordRef "" "") 0 0) [] 0 [] "" [] [].

(** [Segment.Numbers]. *)
Definition Numbers (s : Segment) : list Z :=
  match sg_Merged s with
  | [] => [sg_Number s]
  | merged => mg_Number <$> merged
  end.

Record MessagePosition := MkPosition { mp_ID : MessageID; mp_Number : N; mp_Time : gotime }.
#[export] Instance eta_MessagePosition : Eta MessagePosition := fun r =>
  MkPosition (mp_ID r) (mp_Number r) (mp_Time r).

(** ** Decidable equality *)

#[export] Instance NoticeInfo_eq_dec : EqDecision NoticeInfo.
Proof. solve_decision. Defined.
#[export] Instance Usage_eq_dec : EqDecision Usage.
Proof. solve_decision. Defined.
#[export] Instance RecordRef_eq_dec : EqDecision RecordRef.
Proof. solve_decision. Defined.
#[export] Instance SpilledResult_eq_dec : EqDecision SpilledResult.
Proof. solve_decision. Defined.
#[export] Instance ascii_eq_dec' : EqDecision ascii.
Proof. exact ascii_dec. Defined.
#[export] Instance ContentPart_eq_dec : EqDecision ContentPart.
Proof. solve_decision. Defined.
#[export] Instance ToolCall_eq_dec : EqDecision ToolCall.
Proof. solve_decision. Defined.
#[export] Instance ToolResult_eq_dec : EqDecision ToolResult.
Proof. solve_decision. Defined.
#[export] Instance Message_eq_dec : EqDecision Message.
Proof. solve_decision. Defined.
#[export] Instance MessagePosition_eq_dec : EqDecision MessagePosition.
Proof. solve_decision. Defined.
