(* ===== verification/Events.v ===== *)
(** * Events

    [gotato/events.go], [eventkinds.go] and [eventheader.go]: every Event type
    with its fields, and the kind, the class and the Header of an Event.  A
    [float64] is its bit pattern, since the modelled code only copies it. *)

From S2P Require Import Prelude Errors Types.
Local Open Scope string_scope.
Local Open Scope list_scope.

Abbreviation float64 := Z (only parsing).

(** ** Reasons and parts of Events *)

Abbreviation ClaimWhy := string (only parsing).
Definition ClaimWhyNewSession : ClaimWhy := "new_session".
Definition ClaimWhyIdle : ClaimWhy := "idle".
Definition ClaimWhyWriterGone : ClaimWhy := "writer_gone".
Definition ClaimWhyWaited : ClaimWhy := "waited".

Abbreviation CompactionWhy := string (only parsing).
Definition CompactionWhyOnDemand : CompactionWhy := "on_demand".
Definition CompactionWhyPastCeiling : CompactionWhy := "past_ceiling".
Definition CompactionWhyBeforeUnload : CompactionWhy := "before_unload".
Definition CompactionWhyBeforeCacheExpires : CompactionWhy := "before_cache_expires".
Definition CompactionWhyOverflow : CompactionWhy := "overflow".
Definition CompactionWhyPastBudget : CompactionWhy := "past_budget".

Abbreviation MessageSource := string (only parsing).
Definition MessageSourcePrompt : MessageSource := "prompt".
Definition MessageSourceSteer : MessageSource := "steer".
Definition MessageSourceFollowUp : MessageSource := "follow_up".
Definition MessageSourceInterrupt : MessageSource := "interrupt".
Definition MessageSourceNotice : MessageSource := "notice".

Abbreviation ToolLoadedWhy := string (only parsing).
Abbreviation ToolUnloadedWhy := string (only parsing).

Record Compaction := MkCompaction {
  cn_At : gotime;
  cn_ReplacedMessages : Z;
  cn_FromMessageID : MessageID;
  cn_ToMessageID : MessageID;
  cn_Recap : string;
  cn_RecapError : string;
  cn_BytesBefore : Z;
  cn_BytesAfter : Z;
  cn_Segment : Z;
  cn_Merged : list Z;
  cn_TokensBefore : Z;
  cn_TokensAfter : Z;
  cn_CeilingTokens : Z;
  cn_RecapUsage : option Usage;
  cn_LoadedTools : list string;
}.

Record ForkedFrom := MkForkedFrom { ff_SessionID : SessionID; ff_Number : N }.

Record ToolOutcome := MkToolOutcome {
  ou_ToolID : string;
  ou_CallID : ToolCallID;
  ou_Status : ToolResultStatus;
  ou_Executed : bool;
}.

Record PendingNotice := MkPendingNotice {
  pn_MessageID : MessageID;
  pn_Kind : string;
  pn_Source : NoticeSource;
  pn_Text : string;
  pn_Number : N;
}.

(** ** The Header *)

Record Header := MkHeader {
  h_Time : gotime;
  h_SessionID : SessionID;
  h_Number : N;
  h_RunID : RunID;
  h_Turn : TurnNumber;
}.
#[export] Instance eta_Header : Eta Header := fun r =>
  MkHeader (h_Time r) (h_SessionID r) (h_Number r) (h_RunID r) (h_Turn r).

(** [NewHeader], at the time [now]. *)
Definition NewHeader (now : gotime) (session : SessionID) (run : RunID) (turn : TurnNumber) : Header :=
  MkHeader now session 0 run turn.

(** ** The Event types *)

Record RunStarted := MkRunStarted { rs_Header : Header; rs_RequestID : string }.
#[export] Instance eta_RunStarted : Eta RunStarted := fun r =>
  MkRunStarted (rs_Header r) (rs_RequestID r).

Record RunEnded := MkRunEnded {
  re_Header : Header;
  re_Status : RunStatus;
  re_Cause : ErrorCode;
  re_StoppedByExtension : bool;
  re_StopReason : string;
  re_Turns : N;
  re_ToolCalls : N;
  re_Usage : Usage;
  re_ElapsedMS : float64;
  re_TextBytes : N;
  re_ReasoningBytes : N;
}.
#[export] Instance eta_RunEnded : Eta RunEnded := fun r =>
  MkRunEnded (re_Header r) (re_Status r) (re_Cause r) (re_StoppedByExtension r) (re_StopReason
    r) (re_Turns r) (re_ToolCalls r) (re_Usage r) (re_ElapsedMS r) (re_TextBytes r)
    (re_ReasoningBytes r).

Record TurnStarted := MkTurnStarted { ts_Header : Header }.
#[export] Instance eta_TurnStarted : Eta TurnStarted := fun r =>
  MkTurnStarted (ts_Header r).

Record TurnEnded := MkTurnEnded {
  te_Header : Header;
  te_StopReason : StopReason;
  te_Usage : Usage;
  te_ElapsedMS : float64;
  te_TextBytes : N;
  te_ReasoningBytes : N;
  te_ToolCalls : Z;
  te_Tools : list ToolOutcome;
}.
#[export] Instance eta_TurnEnded : Eta TurnEnded := fun r =>
  MkTurnEnded (te_Header r) (te_StopReason r) (te_Usage r) (te_ElapsedMS r) (te_TextBytes r)
    (te_ReasoningBytes r) (te_ToolCalls r) (te_Tools r).

Record ContextBuilt := MkContextBuilt {
  cb_Header : Header;
  cb_Strategy : string;
  cb_Messages : Z;
  cb_SourceMessages : Z;
  cb_SelectedMessages : Z;
  cb_PrefixHash : string;
  cb_PrefixMessages : Z;
  cb_SystemBytes : Z;
  cb_Tools : Z;
  cb_EstimateSystemTokens : Z;
  cb_EstimateToolDefsTokens : Z;
  cb_EstimateSegmentsTokens : Z;
  cb_EstimateHistoryTokens : Z;
  cb_EstimateToolResultsTokens : Z;
  cb_Metadata : Metadata;
}.
#[export] Instance eta_ContextBuilt : Eta ContextBuilt := fun r =>
  MkContextBuilt (cb_Header r) (cb_Strategy r) (cb_Messages r) (cb_SourceMessages r)
    (cb_SelectedMessages r) (cb_PrefixHash r) (cb_PrefixMessages r) (cb_SystemBytes r) (cb_Tools
    r) (cb_EstimateSystemTokens r) (cb_EstimateToolDefsTokens r) (cb_EstimateSegmentsTokens r)
    (cb_EstimateHistoryTokens r) (cb_EstimateToolResultsTokens r) (cb_Metadata r).

Record ReplyStarted := MkReplyStarted { ps_Header : Header; ps_MessageID : MessageID }.
#[export] Instance eta_ReplyStarted : Eta ReplyStarted := fun r =>
  MkReplyStarted (ps_Header r) (ps_MessageID r).

Record ReplyEnded := MkReplyEnded {
  pe_Header : Header;
  pe_Message : Message;
  pe_Model : string;
  pe_StopReason : StopReason;
  pe_ToolCalls : Z;
}.
#[export] Instance eta_ReplyEnded : Eta ReplyEnded := fun r =>
  MkReplyEnded (pe_Header r) (pe_Message r) (pe_Model r) (pe_StopReason r) (pe_ToolCalls r).

Record TextDelta := MkTextDelta { td_Header : Header; td_MessageID : MessageID; td_Text : string }.
#[export] Instance eta_TextDelta : Eta TextDelta := fun r =>
  MkTextDelta (td_Header r) (td_MessageID r) (td_Text r).

Record ReasoningDelta := MkReasoningDelta {
  rd_Header : Header;
  rd_MessageID : MessageID;
  rd_Text : string;
}.
#[export] Instance eta_ReasoningDelta : Eta ReasoningDelta := fun r =>
  MkReasoningDelta (rd_Header r) (rd_MessageID r) (rd_Text r).

Record ReplyCutOff := MkReplyCutOff {
  pc_Header : Header;
  pc_Message : Message;
  pc_Cause : ErrorCode;
}.
#[export] Instance eta_ReplyCutOff : Eta ReplyCutOff := fun r =>
  MkReplyCutOff (pc_Header r) (pc_Message r) (pc_Cause r).

Record ReplyPartKept := MkReplyPartKept {
  pk_Header : Header;
  pk_MessageID : MessageID;
  pk_Text : string;
  pk_Reasoning : string;
}.
#[export] Instance eta_ReplyPartKept : Eta ReplyPartKept := fun r =>
  MkReplyPartKept (pk_Header r) (pk_MessageID r) (pk_Text r) (pk_Reasoning r).

Record ModelRetried := MkModelRetried {
  mr_Header : Header;
  mr_Attempt : Z;
  mr_WaitMS : float64;
  mr_Error : string;
}.
#[export] Instance eta_ModelRetried : Eta ModelRetried := fun r =>
  MkModelRetried (mr_Header r) (mr_Attempt r) (mr_WaitMS r) (mr_Error r).

Record ToolStarted := MkToolStarted {
  to_Header : Header;
  to_MessageID : MessageID;
  to_CallID : ToolCallID;
  to_ToolID : string;
}.
#[export] Instance eta_ToolStarted : Eta ToolStarted := fun r =>
  MkToolStarted (to_Header r) (to_MessageID r) (to_CallID r) (to_ToolID r).

Record ToolEnded := MkToolEnded {
  tn_Header : Header;
  tn_CallID : ToolCallID;
  tn_ToolID : string;
  tn_Status : ToolResultStatus;
  tn_Code : ErrorCode;
  tn_Executed : bool;
  tn_ElapsedMS : float64;
}.
#[export] Instance eta_ToolEnded : Eta ToolEnded := fun r =>
  MkToolEnded (tn_Header r) (tn_CallID r) (tn_ToolID r) (tn_Status r) (tn_Code r) (tn_Executed
    r) (tn_ElapsedMS r).

Record ToolProgress := MkToolProgress {
  tp_Header : Header;
  tp_CallID : ToolCallID;
  tp_Text : string;
}.
#[export] Instance eta_ToolProgress : Eta ToolProgress := fun r =>
  MkToolProgress (tp_Header r) (tp_CallID r) (tp_Text r).

Record ToolResultCommitted := MkToolResultCommitted {
  tr2_Header : Header;
  tr2_Message : Message;
  tr2_CallID : ToolCallID;
  tr2_Status : ToolResultStatus;
}.
#[export] Instance eta_ToolResultCommitted : Eta ToolResultCommitted := fun r =>
  MkToolResultCommitted (tr2_Header r) (tr2_Message r) (tr2_CallID r) (tr2_Status r).

Record ToolResultSpilled := MkToolResultSpilled {
  tsp_Header : Header;
  tsp_CallID : ToolCallID;
  tsp_ToolID : string;
  tsp_Bytes : Z;
  tsp_Body : string;
}.
#[export] Instance eta_ToolResultSpilled : Eta ToolResultSpilled := fun r =>
  MkToolResultSpilled (tsp_Header r) (tsp_CallID r) (tsp_ToolID r) (tsp_Bytes r) (tsp_Body r).

Record ToolLoaded := MkToolLoaded {
  tl2_Header : Header;
  tl2_ToolID : string;
  tl2_Why : ToolLoadedWhy;
}.
#[export] Instance eta_ToolLoaded : Eta ToolLoaded := fun r =>
  MkToolLoaded (tl2_Header r) (tl2_ToolID r) (tl2_Why r).

Record ToolUnloaded := MkToolUnloaded {
  tu_Header : Header;
  tu_ToolID : string;
  tu_Why : ToolUnloadedWhy;
}.
#[export] Instance eta_ToolUnloaded : Eta ToolUnloaded := fun r =>
  MkToolUnloaded (tu_Header r) (tu_ToolID r) (tu_Why r).

Record MessageQueued := MkMessageQueued {
  mq_Header : Header;
  mq_MessageID : MessageID;
  mq_Source : MessageSource;
}.
#[export] Instance eta_MessageQueued : Eta MessageQueued := fun r =>
  MkMessageQueued (mq_Header r) (mq_MessageID r) (mq_Source r).

Record MessageCommitted := MkMessageCommitted {
  mc_Header : Header;
  mc_Message : Message;
  mc_Source : MessageSource;
}.
#[export] Instance eta_MessageCommitted : Eta MessageCommitted := fun r =>
  MkMessageCommitted (mc_Header r) (mc_Message r) (mc_Source r).

Record MessageDropped := MkMessageDropped {
  md_Header : Header;
  md_MessageID : MessageID;
  md_Source : MessageSource;
  md_Why : string;
}.
#[export] Instance eta_MessageDropped : Eta MessageDropped := fun r =>
  MkMessageDropped (md_Header r) (md_MessageID r) (md_Source r) (md_Why r).

Record NoticeQueued := MkNoticeQueued {
  nq_Header : Header;
  nq_MessageID : MessageID;
  nq_NoticeKind : string;
  nq_Source : NoticeSource;
  nq_Text : string;
}.
#[export] Instance eta_NoticeQueued : Eta NoticeQueued := fun r =>
  MkNoticeQueued (nq_Header r) (nq_MessageID r) (nq_NoticeKind r) (nq_Source r) (nq_Text r).

Record NoticeCommitted := MkNoticeCommitted {
  nc_Header : Header;
  nc_Message : Message;
  nc_Queued : N;
}.
#[export] Instance eta_NoticeCommitted : Eta NoticeCommitted := fun r =>
  MkNoticeCommitted (nc_Header r) (nc_Message r) (nc_Queued r).

Record MessageRejected := MkMessageRejected {
  mj_Header : Header;
  mj_MessageID : MessageID;
  mj_Source : MessageSource;
  mj_Why : string;
}.
#[export] Instance eta_MessageRejected : Eta MessageRejected := fun r =>
  MkMessageRejected (mj_Header r) (mj_MessageID r) (mj_Source r) (mj_Why r).

Record AbortRequested := MkAbortRequested { ab_Header : Header }.
#[export] Instance eta_AbortRequested : Eta AbortRequested := fun r =>
  MkAbortRequested (ab_Header r).

Record SessionClaimed := MkSessionClaimed {
  sc_Header : Header;
  sc_Instance : string;
  sc_Epoch : N;
  sc_Why : ClaimWhy;
  sc_From : string;
}.
#[export] Instance eta_SessionClaimed : Eta SessionClaimed := fun r =>
  MkSessionClaimed (sc_Header r) (sc_Instance r) (sc_Epoch r) (sc_Why r) (sc_From r).

Record SessionReleased := MkSessionReleased {
  sr_Header : Header;
  sr_Instance : string;
  sr_Epoch : N;
}.
#[export] Instance eta_SessionReleased : Eta SessionReleased := fun r =>
  MkSessionReleased (sr_Header r) (sr_Instance r) (sr_Epoch r).

Record SessionCreated := MkSessionCreated {
  cr_Header : Header;
  cr_CreatedAt : gotime;
  cr_RecordEpoch : string;
  cr_ForkedFrom : option ForkedFrom;
  cr_Messages : list Message;
  cr_Metadata : Metadata;
  cr_Compactions : list Compaction;
  cr_LoadedTools : list string;
  cr_Segments : list Z;
  cr_Tail : list MessagePosition;
  cr_Runs : Z;
  cr_Usage : Usage;
  cr_LastRunEnd : gotime;
}.
#[export] Instance eta_SessionCreated : Eta SessionCreated := fun r =>
  MkSessionCreated (cr_Header r) (cr_CreatedAt r) (cr_RecordEpoch r) (cr_ForkedFrom r)
    (cr_Messages r) (cr_Metadata r) (cr_Compactions r) (cr_LoadedTools r) (cr_Segments r)
    (cr_Tail r) (cr_Runs r) (cr_Usage r) (cr_LastRunEnd r).

Record MetadataChanged := MkMetadataChanged {
  mx_Header : Header;
  mx_Key : string;
  mx_Value : string;
}.
#[export] Instance eta_MetadataChanged : Eta MetadataChanged := fun r =>
  MkMetadataChanged (mx_Header r) (mx_Key r) (mx_Value r).

Record CompactionStarted := MkCompactionStarted { cs_Header : Header; cs_Why : CompactionWhy }.
#[export] Instance eta_CompactionStarted : Eta CompactionStarted := fun r =>
  MkCompactionStarted (cs_Header r) (cs_Why r).

Record CompactionEnded := MkCompactionEnded {
  ce_Header : Header;
  ce_Instance : string;
  ce_Epoch : N;
  ce_Why : CompactionWhy;
  ce_Compaction : option Compaction;
  ce_History : list Compaction;
  ce_Messages : list Message;
  ce_Metadata : Metadata;
  ce_LoadedTools : list string;
  ce_Segments : list Z;
  ce_Tail : list MessagePosition;
  ce_Runs : Z;
  ce_Usage : Usage;
  ce_LastRunEnd : gotime;
  ce_Running : RunID;
  ce_Notices : list PendingNotice;
}.
#[export] Instance eta_CompactionEnded : Eta CompactionEnded := fun r =>
  MkCompactionEnded (ce_Header r) (ce_Instance r) (ce_Epoch r) (ce_Why r) (ce_Compaction r)
    (ce_History r) (ce_Messages r) (ce_Metadata r) (ce_LoadedTools r) (ce_Segments r) (ce_Tail
    r) (ce_Runs r) (ce_Usage r) (ce_LastRunEnd r) (ce_Running r) (ce_Notices r).

Record CompactionFailed := MkCompactionFailed {
  cf_Header : Header;
  cf_Why : CompactionWhy;
  cf_Cause : ErrorCode;
}.
#[export] Instance eta_CompactionFailed : Eta CompactionFailed := fun r =>
  MkCompactionFailed (cf_Header r) (cf_Why r) (cf_Cause r).

Record SegmentClosed := MkSegmentClosed { sgc_Header : Header; sgc_Segment : Segment }.
#[export] Instance eta_SegmentClosed : Eta SegmentClosed := fun r =>
  MkSegmentClosed (sgc_Header r) (sgc_Segment r).

Record SessionUnloaded := MkSessionUnloaded { su_Header : Header; su_Why : string }.
#[export] Instance eta_SessionUnloaded : Eta SessionUnloaded := fun r =>
  MkSessionUnloaded (su_Header r) (su_Why r).

Record ExtensionFailed := MkExtensionFailed {
  xf_Header : Header;
  xf_Stage : string;
  xf_Code : ErrorCode;
}.
#[export] Instance eta_ExtensionFailed : Eta ExtensionFailed := fun r =>
  MkExtensionFailed (xf_Header r) (xf_Stage r) (xf_Code r).

Record EventsSkipped := MkEventsSkipped { es_Header : Header; es_Skipped : N }.
#[export] Instance eta_EventsSkipped : Eta EventsSkipped := fun r =>
  MkEventsSkipped (es_Header r) (es_Skipped r).

(** An Event of a kind the package does not know, as [UnmarshalEvent] returns
    it; [uk_Raw] is the JSON it was read from. *)
Record UnknownEvent := MkUnknownEvent { uk_Header : Header; uk_EventKind : string; uk_Raw : string }.
#[export] Instance eta_UnknownEvent : Eta UnknownEvent := fun r =>
  MkUnknownEvent (uk_Header r) (uk_EventKind r) (uk_Raw r).

(** A non-nil [Event]. *)
Inductive Event : Type :=
| ERunStarted (e : RunStarted)
| ERunEnded (e : RunEnded)
| ETurnStarted (e : TurnStarted)
| ETurnEnded (e : TurnEnded)
| EContextBuilt (e : ContextBuilt)
| EReplyStarted (e : ReplyStarted)
| EReplyEnded (e : ReplyEnded)
| ETextDelta (e : TextDelta)
| EReasoningDelta (e : ReasoningDelta)
| EReplyCutOff (e : ReplyCutOff)
| EReplyPartKept (e : ReplyPartKept)
| EModelRetried (e : ModelRetried)
| EToolStarted (e : ToolStarted)
| EToolEnded (e : ToolEnded)
| EToolProgress (e : ToolProgress)
| EToolResultCommitted (e : ToolResultCommitted)
| EToolResultSpilled (e : ToolResultSpilled)
| EToolLoaded (e : ToolLoaded)
| EToolUnloaded (e : ToolUnloaded)
| EMessageQueued (e : MessageQueued)
| EMessageCommitted (e : MessageCommitted)
| EMessageDropped (e : MessageDropped)
| ENoticeQueued (e : NoticeQueued)
| ENoticeCommitted (e : NoticeCommitted)
| EMessageRejected (e : MessageRejected)
| EAbortRequested (e : AbortRequested)
| ESessionClaimed (e : SessionClaimed)
| ESessionReleased (e : SessionReleased)
| ESessionCreated (e : SessionCreated)
| EMetadataChanged (e : MetadataChanged)
| ECompactionStarted (e : CompactionStarted)
| ECompactionEnded (e : CompactionEnded)
| ECompactionFailed (e : CompactionFailed)
| ESegmentClosed (e : SegmentClosed)
| ESessionUnloaded (e : SessionUnloaded)
| EExtensionFailed (e : ExtensionFailed)
| EEventsSkipped (e : EventsSkipped)
| EUnknown (e : UnknownEvent).

(** ** Kind, class and Header *)

Abbreviation EventKind := string (only parsing).

Definition EventKindRunStarted : EventKind := "run_started".
Definition EventKindRunEnded : EventKind := "run_ended".
Definition EventKindTurnStarted : EventKind := "turn_started".
Definition EventKindTurnEnded : EventKind := "turn_ended".
Definition EventKindContextBuilt : EventKind := "context_built".
Definition EventKindReplyStarted : EventKind := "reply_started".
Definition EventKindReplyEnded : EventKind := "reply_ended".
Definition EventKindTextDelta : EventKind := "text_delta".
Definition EventKindReasoningDelta : EventKind := "reasoning_delta".
Definition EventKindReplyCutOff : EventKind := "reply_cut_off".
Definition EventKindReplyPartKept : EventKind := "reply_part_kept".
Definition EventKindModelRetried : EventKind := "model_retried".
Definition EventKindToolStarted : EventKind := "tool_started".
Definition EventKindToolEnded : EventKind := "tool_ended".
Definition EventKindToolProgress : EventKind := "tool_progress".
Definition EventKindToolResultCommitted : EventKind := "tool_result_committed".
Definition EventKindToolResultSpilled : EventKind := "tool_result_spilled".
Definition EventKindToolLoaded : EventKind := "tool_loaded".
Definition EventKindToolUnloaded : EventKind := "tool_unloaded".
Definition EventKindMessageQueued : EventKind := "message_queued".
Definition EventKindMessageCommitted : EventKind := "message_committed".
Definition EventKindMessageDropped : EventKind := "message_dropped".
Definition EventKindNoticeQueued : EventKind := "notice_queued".
Definition EventKindNoticeCommitted : EventKind := "notice_committed".
Definition EventKindMessageRejected : EventKind := "message_rejected".
Definition EventKindAbortRequested : EventKind := "abort_requested".
Definition EventKindSessionClaimed : EventKind := "session_claimed".
Definition EventKindSessionReleased : EventKind := "session_released".
Definition EventKindSessionCreated : EventKind := "session_created".
Definition EventKindMetadataChanged : EventKind := "metadata_changed".
Definition EventKindCompactionStarted : EventKind := "compaction_started".
Definition EventKindCompactionEnded : EventKind := "compaction_ended".
Definition EventKindCompactionFailed : EventKind := "compaction_failed".
Definition EventKindSegmentClosed : EventKind := "segment_closed".
Definition EventKindSessionUnloaded : EventKind := "session_unloaded".
Definition EventKindExtensionFailed : EventKind := "extension_failed".
Definition EventKindEventsSkipped : EventKind := "events_skipped".

(** The method [Kind] of each type. *)
Definition Kind (event : Event) : EventKind :=
  match event with
  | ERunStarted _ => EventKindRunStarted
  | ERunEnded _ => EventKindRunEnded
  | ETurnStarted _ => EventKindTurnStarted
  | ETurnEnded _ => EventKindTurnEnded
  | EContextBuilt _ => EventKindContextBuilt
  | EReplyStarted _ => EventKindReplyStarted
  | EReplyEnded _ => EventKindReplyEnded
  | ETextDelta _ => EventKindTextDelta
  | EReasoningDelta _ => EventKindReasoningDelta
  | EReplyCutOff _ => EventKindReplyCutOff
  | EReplyPartKept _ => EventKindReplyPartKept
  | EModelRetried _ => EventKindModelRetried
  | EToolStarted _ => EventKindToolStarted
  | EToolEnded _ => EventKindToolEnded
  | EToolProgress _ => EventKindToolProgress
  | EToolResultCommitted _ => EventKindToolResultCommitted
  | EToolResultSpilled _ => EventKindToolResultSpilled
  | EToolLoaded _ => EventKindToolLoaded
  | EToolUnloaded _ => EventKindToolUnloaded
  | EMessageQueued _ => EventKindMessageQueued
  | EMessageCommitted _ => EventKindMessageCommitted
  | EMessageDropped _ => EventKindMessageDropped
  | ENoticeQueued _ => EventKindNoticeQueued
  | ENoticeCommitted _ => EventKindNoticeCommitted
  | EMessageRejected _ => EventKindMessageRejected
  | EAbortRequested _ => EventKindAbortRequested
  | ESessionClaimed _ => EventKindSessionClaimed
  | ESessionReleased _ => EventKindSessionReleased
  | ESessionCreated _ => EventKindSessionCreated
  | EMetadataChanged _ => EventKindMetadataChanged
  | ECompactionStarted _ => EventKindCompactionStarted
  | ECompactionEnded _ => EventKindCompactionEnded
  | ECompactionFailed _ => EventKindCompactionFailed
  | ESegmentClosed _ => EventKindSegmentClosed
  | ESessionUnloaded _ => EventKindSessionUnloaded
  | EExtensionFailed _ => EventKindExtensionFailed
  | EEventsSkipped _ => EventKindEventsSkipped
  | EUnknown e => uk_EventKind e
  end.

Abbreviation EventClass := string (only parsing).
Definition EventClassStored : EventClass := "stored".
Definition EventClassDelta : EventClass := "delta".
Definition EventClassInstance : EventClass := "instance".

(** The method [Class] of each type. *)
Definition Class_ (event : Event) : EventClass :=
  match event with
  | ERunStarted _ => EventClassStored
  | ERunEnded _ => EventClassStored
  | ETurnStarted _ => EventClassStored
  | ETurnEnded _ => EventClassStored
  | EContextBuilt _ => EventClassStored
  | EReplyStarted _ => EventClassStored
  | EReplyEnded _ => EventClassStored
  | ETextDelta _ => EventClassDelta
  | EReasoningDelta _ => EventClassDelta
  | EReplyCutOff _ => EventClassStored
  | EReplyPartKept _ => EventClassStored
  | EModelRetried _ => EventClassStored
  | EToolStarted _ => EventClassStored
  | EToolEnded _ => EventClassStored
  | EToolProgress _ => EventClassDelta
  | EToolResultCommitted _ => EventClassStored
  | EToolResultSpilled _ => EventClassStored
  | EToolLoaded _ => EventClassStored
  | EToolUnloaded _ => EventClassStored
  | EMessageQueued _ => EventClassStored
  | EMessageCommitted _ => EventClassStored
  | EMessageDropped _ => EventClassStored
  | ENoticeQueued _ => EventClassStored
  | ENoticeCommitted _ => EventClassStored
  | EMessageRejected _ => EventClassStored
  | EAbortRequested _ => EventClassStored
  | ESessionClaimed _ => EventClassStored
  | ESessionReleased _ => EventClassStored
  | ESessionCreated _ => EventClassStored
  | EMetadataChanged _ => EventClassStored
  | ECompactionStarted _ => EventClassStored
  | ECompactionEnded _ => EventClassStored
  | ECompactionFailed _ => EventClassStored
  | ESegmentClosed _ => EventClassStored
  | ESessionUnloaded _ => EventClassInstance
  | EExtensionFailed _ => EventClassStored
  | EEventsSkipped _ => EventClassInstance
  | EUnknown _ => ""
  end.

(** The method [Head], of the embedded Header. *)
Definition Head (event : Event) : Header :=
  match event with
  | ERunStarted e => rs_Header e
  | ERunEnded e => re_Header e
  | ETurnStarted e => ts_Header e
  | ETurnEnded e => te_Header e
  | EContextBuilt e => cb_Header e
  | EReplyStarted e => ps_Header e
  | EReplyEnded e => pe_Header e
  | ETextDelta e => td_Header e
  | EReasoningDelta e => rd_Header e
  | EReplyCutOff e => pc_Header e
  | EReplyPartKept e => pk_Header e
  | EModelRetried e => mr_Header e
  | EToolStarted e => to_Header e
  | EToolEnded e => tn_Header e
  | EToolProgress e => tp_Header e
  | EToolResultCommitted e => tr2_Header e
  | EToolResultSpilled e => tsp_Header e
  | EToolLoaded e => tl2_Header e
  | EToolUnloaded e => tu_Header e
  | EMessageQueued e => mq_Header e
  | EMessageCommitted e => mc_Header e
  | EMessageDropped e => md_Header e
  | ENoticeQueued e => nq_Header e
  | ENoticeCommitted e => nc_Header e
  | EMessageRejected e => mj_Header e
  | EAbortRequested e => ab_Header e
  | ESessionClaimed e => sc_Header e
  | ESessionReleased e => sr_Header e
  | ESessionCreated e => cr_Header e
  | EMetadataChanged e => mx_Header e
  | ECompactionStarted e => cs_Header e
  | ECompactionEnded e => ce_Header e
  | ECompactionFailed e => cf_Header e
  | ESegmentClosed e => sgc_Header e
  | ESessionUnloaded e => su_Header e
  | EExtensionFailed e => xf_Header e
  | EEventsSkipped e => es_Header e
  | EUnknown e => uk_Header e
  end.

(** [withHeader]: every Event type embeds Header, so the copy always has it. *)
Definition withHeader (event : Event) (edit : Header -> Header) : Event :=
  match event with
  | ERunStarted e => ERunStarted (e <| rs_Header := edit (rs_Header e) |>)
  | ERunEnded e => ERunEnded (e <| re_Header := edit (re_Header e) |>)
  | ETurnStarted e => ETurnStarted (e <| ts_Header := edit (ts_Header e) |>)
  | ETurnEnded e => ETurnEnded (e <| te_Header := edit (te_Header e) |>)
  | EContextBuilt e => EContextBuilt (e <| cb_Header := edit (cb_Header e) |>)
  | EReplyStarted e => EReplyStarted (e <| ps_Header := edit (ps_Header e) |>)
  | EReplyEnded e => EReplyEnded (e <| pe_Header := edit (pe_Header e) |>)
  | ETextDelta e => ETextDelta (e <| td_Header := edit (td_Header e) |>)
  | EReasoningDelta e => EReasoningDelta (e <| rd_Header := edit (rd_Header e) |>)
  | EReplyCutOff e => EReplyCutOff (e <| pc_Header := edit (pc_Header e) |>)
  | EReplyPartKept e => EReplyPartKept (e <| pk_Header := edit (pk_Header e) |>)
  | EModelRetried e => EModelRetried (e <| mr_Header := edit (mr_Header e) |>)
  | EToolStarted e => EToolStarted (e <| to_Header := edit (to_Header e) |>)
  | EToolEnded e => EToolEnded (e <| tn_Header := edit (tn_Header e) |>)
  | EToolProgress e => EToolProgress (e <| tp_Header := edit (tp_Header e) |>)
  | EToolResultCommitted e => EToolResultCommitted (e <| tr2_Header := edit (tr2_Header e) |>)
  | EToolResultSpilled e => EToolResultSpilled (e <| tsp_Header := edit (tsp_Header e) |>)
  | EToolLoaded e => EToolLoaded (e <| tl2_Header := edit (tl2_Header e) |>)
  | EToolUnloaded e => EToolUnloaded (e <| tu_Header := edit (tu_Header e) |>)
  | EMessageQueued e => EMessageQueued (e <| mq_Header := edit (mq_Header e) |>)
  | EMessageCommitted e => EMessageCommitted (e <| mc_Header := edit (mc_Header e) |>)
  | EMessageDropped e => EMessageDropped (e <| md_Header := edit (md_Header e) |>)
  | ENoticeQueued e => ENoticeQueued (e <| nq_Header := edit (nq_Header e) |>)
  | ENoticeCommitted e => ENoticeCommitted (e <| nc_Header := edit (nc_Header e) |>)
  | EMessageRejected e => EMessageRejected (e <| mj_Header := edit (mj_Header e) |>)
  | EAbortRequested e => EAbortRequested (e <| ab_Header := edit (ab_Header e) |>)
  | ESessionClaimed e => ESessionClaimed (e <| sc_Header := edit (sc_Header e) |>)
  | ESessionReleased e => ESessionReleased (e <| sr_Header := edit (sr_Header e) |>)
  | ESessionCreated e => ESessionCreated (e <| cr_Header := edit (cr_Header e) |>)
  | EMetadataChanged e => EMetadataChanged (e <| mx_Header := edit (mx_Header e) |>)
  | ECompactionStarted e => ECompactionStarted (e <| cs_Header := edit (cs_Header e) |>)
  | ECompactionEnded e => ECompactionEnded (e <| ce_Header := edit (ce_Header e) |>)
  | ECompactionFailed e => ECompactionFailed (e <| cf_Header := edit (cf_Header e) |>)
  | ESegmentClosed e => ESegmentClosed (e <| sgc_Header := edit (sgc_Header e) |>)
  | ESessionUnloaded e => ESessionUnloaded (e <| su_Header := edit (su_Header e) |>)
  | EExtensionFailed e => EExtensionFailed (e <| xf_Header := edit (xf_Header e) |>)
  | EEventsSkipped e => EEventsSkipped (e <| es_Header := edit (es_Header e) |>)
  | EUnknown e => EUnknown (e <| uk_Header := edit (uk_Header e) |>)
  end.

Definition WithNumber (event : Event) (number : N) : Event :=
  withHeader event (fun h => h <| h_Number := number |>).

Definition WithSession (event : Event) (id : SessionID) : Event :=
  if negb (String.eqb (h_SessionID (Head event)) "") || String.eqb id "" then event
  else withHeader event (fun h => h <| h_SessionID := id |>).

Definition WithoutBody (event : Event) : Event :=
  match event with
  | EToolResultSpilled e => EToolResultSpilled (e <| tsp_Body := "" |>)
  | _ => event
  end.

(** ** Kinds and decoding *)

(** The keys of [eventDecoders]: the kinds [UnmarshalEvent] reads back as a
    type of this package. *)
Definition eventDecoders : list EventKind :=
  [ EventKindRunStarted; EventKindRunEnded; EventKindTurnStarted;
    EventKindTurnEnded; EventKindContextBuilt; EventKindReplyStarted;
    EventKindReplyEnded; EventKindTextDelta; EventKindReasoningDelta;
    EventKindReplyCutOff; EventKindReplyPartKept; EventKindModelRetried;
    EventKindToolStarted; EventKindToolEnded; EventKindToolProgress;
    EventKindToolResultCommitted; EventKindToolResultSpilled; EventKindToolLoaded;
    EventKindToolUnloaded; EventKindMessageQueued; EventKindMessageCommitted;
    EventKindMessageDropped; EventKindNoticeQueued; EventKindNoticeCommitted;
    EventKindMessageRejected; EventKindAbortRequested; EventKindSessionClaimed;
    EventKindSessionReleased; EventKindSessionCreated; EventKindMetadataChanged;
    EventKindCompactionStarted; EventKindCompactionEnded; EventKindCompactionFailed;
    EventKindSegmentClosed; EventKindSessionUnloaded; EventKindExtensionFailed;
    EventKindEventsSkipped ].

(** ** Lemmas *)

Lemma Head_withHeader event edit : Head (withHeader event edit) = edit (Head event).
Proof. by destruct event. Qed.

Lemma Kind_withHeader event edit : Kind (withHeader event edit) = Kind event.
Proof. by destruct event. Qed.

Lemma Kind_WithNumber event n : Kind (WithNumber event n) = Kind event.
Proof. apply Kind_withHeader. Qed.

Lemma Number_WithNumber event n : h_Number (Head (WithNumber event n)) = n.
Proof. unfold WithNumber. by rewrite Head_withHeader. Qed.

Lemma Kind_WithSession event id : Kind (WithSession event id) = Kind event.
Proof. unfold WithSession. destruct (_ || _); [done|]. apply Kind_withHeader. Qed.

Lemma Kind_WithoutBody event : Kind (WithoutBody event) = Kind event.
Proof. by destruct event. Qed.

Lemma Head_WithoutBody event : Head (WithoutBody event) = Head event.
Proof. by destruct event. Qed.

Lemma WithNumber_WithNumber event m n : WithNumber (WithNumber event m) n = WithNumber event n.
Proof. by destruct event. Qed.

(** An Event numbered as it is stays as it is. *)
Lemma WithNumber_self event : WithNumber event (h_Number (Head event)) = event.
Proof. destruct event as [e|e|e|e|e|e|e|e|e|e|e|e|e|e|e|e|e|e|e|e|e|e|e|e|e|e|e|e|e|e|e|e|e|e|e|e|e|e]; by destruct e as [[]]. Qed.
