(* ===== verification/Entry.v ===== *)
(** * Entries of a Record's log

    [record/entry.go], [record/header.go] and [record/committed.go]: the layer
    of each stored kind, the Entry a store keeps, and what a store returns.

    The [Data] of an Entry is JSON.  It is kept as what it decodes to: an
    Event, or bytes that do not decode; [MarshalEvent] and [UnmarshalEvent]
    then are the two directions of one constructor. *)

From S2P Require Import Prelude Errors Types Events.
Local Open Scope string_scope.
Local Open Scope list_scope.

(** ** Layers *)

Abbreviation Layer := string (only parsing).
Definition LayerFact : Layer := "fact".
Definition LayerLog : Layer := "log".

Definition storedLayers : gmap EventKind Layer := list_to_map [
  (EventKindSessionCreated, LayerFact);
  (EventKindCompactionEnded, LayerFact);
  (EventKindSegmentClosed, LayerFact);
  (EventKindMessageCommitted, LayerFact);
  (EventKindNoticeCommitted, LayerFact);
  (EventKindReplyEnded, LayerFact);
  (EventKindReplyCutOff, LayerFact);
  (EventKindReplyPartKept, LayerFact);
  (EventKindToolResultCommitted, LayerFact);
  (EventKindToolStarted, LayerFact);
  (EventKindMetadataChanged, LayerFact);
  (EventKindToolLoaded, LayerFact);
  (EventKindToolUnloaded, LayerFact);
  (EventKindRunStarted, LayerFact);
  (EventKindRunEnded, LayerFact);
  (EventKindMessageQueued, LayerFact);
  (EventKindMessageDropped, LayerFact);
  (EventKindNoticeQueued, LayerFact);
  (EventKindSessionClaimed, LayerFact);
  (EventKindSessionReleased, LayerFact);
  (EventKindTurnStarted, LayerLog);
  (EventKindTurnEnded, LayerLog);
  (EventKindContextBuilt, LayerLog);
  (EventKindReplyStarted, LayerLog);
  (EventKindModelRetried, LayerLog);
  (EventKindToolEnded, LayerLog);
  (EventKindToolResultSpilled, LayerLog);
  (EventKindMessageRejected, LayerLog);
  (EventKindAbortRequested, LayerLog);
  (EventKindCompactionStarted, LayerLog);
  (EventKindCompactionFailed, LayerLog);
  (EventKindExtensionFailed, LayerLog) ].

Definition layerOf (kind : EventKind) : outcome Layer :=
  match storedLayers !! kind with
  | Some layer => Ok layer
  | None =>
    Err (RuntimeErr (ErrorOf CodeInternalInvariant
      (Text "record: the Event kind %q has no Layer; list it in storedLayers" [FStr kind])))
  end.

(** ** Entries *)

(** The [Data] of an Entry: the Event it decodes to, or bytes that decode to
    none. *)
Inductive raw : Type :=
| RawEvent (event : Event)
| RawBad (data : string).

Record Entry := MkEntry {
  en_Seq : N;
  en_Kind : EventKind;
  en_Layer : Layer;
  en_At : gotime;
  en_Instance : string;
  en_Data : raw;
}.
#[export] Instance eta_Entry : Eta Entry := fun r =>
  MkEntry (en_Seq r) (en_Kind r) (en_Layer r) (en_At r) (en_Instance r) (en_Data r).

Definition MarshalEvent (event : Event) : raw := RawEvent event.

Definition UnmarshalEvent (data : raw) : outcome Event :=
  match data with
  | RawEvent event => Ok event
  | RawBad _ => Err (Wrapf (plain_text "gotato: decode Event: %w") (ForeignErr (MkForeign "json" None None None None)))
  end.

Definition IsCheckpoint (e : Entry) : bool :=
  String.eqb (en_Kind e) EventKindSessionCreated || String.eqb (en_Kind e) EventKindCompactionEnded.

Definition entryOf (event : Event) (instance : string) : outcome Entry :=
  let data := MarshalEvent event in
  let? layer := layerOf (Kind event) in
  let head := Head event in
  Ok (MkEntry (h_Number head) (Kind event) layer (h_Time head) instance data).

(** [Entry.Event]. *)
Definition Entry_Event (e : Entry) (sessionID : SessionID) : outcome Event :=
  match UnmarshalEvent (en_Data e) with
  | Err err => Err (Wrapf (Text "record: entry %d (%s): %w" [FNum (Z.of_N (en_Seq e)); FStr (en_Kind e)]) err)
  | Ok event => Ok (WithSession (WithNumber event (en_Seq e)) sessionID)
  end.

(** [messageOf]: the Message a commit Event carries. *)
Definition messageOf (event : Event) : option Message :=
  match event with
  | EMessageCommitted e => Some (mc_Message e)
  | ENoticeCommitted e => Some (nc_Message e)
  | EReplyEnded e => Some (pe_Message e)
  | EReplyCutOff e => Some (pc_Message e)
  | EToolResultCommitted e => Some (tr2_Message e)
  | _ => None
  end.

(** ** What a store returns *)

Record Info := MkInfo {
  in_ID : string;
  in_ParentID : string;
  in_CreatedAt : gotime;
  in_UpdatedAt : gotime;
  in_Messages : Z;
  in_Runs : Z;
  in_Usage : Usage;
  in_Metadata : Metadata;
}.

(** [record.Header]; [Header] here is the Event's. *)
Record RecordHeader := MkRecordHeader { rh_Epoch : string; rh_Info : Info }.

Record Loaded := MkLoaded {
  ld_Entries : list Entry;
  ld_Segments : list Entry;
  ld_Seq : N;
  ld_Header : RecordHeader;
}.

(** ** Sentinel errors of package record *)

Definition ErrNotFound : error := SentinelOf "record.ErrNotFound" CodeNotFound "record: not found".

(** ** Lemmas *)

Lemma entryOf_spec event instance e :
  entryOf event instance = Ok e ->
  en_Seq e = h_Number (Head event) /\ en_Kind e = Kind event /\ en_Data e = RawEvent event /\
  layerOf (Kind event) = Ok (en_Layer e) /\ en_Instance e = instance /\ en_At e = h_Time (Head event).
Proof.
  unfold entryOf. destruct (layerOf (Kind event)) as [layer|] eqn:E; [|done].
  simpl. intros H. injection H as <-. done.
Qed.

Lemma IsCheckpoint_kind e f : en_Kind e = en_Kind f -> IsCheckpoint e = IsCheckpoint f.
Proof. unfold IsCheckpoint. by intros ->. Qed.

Definition known (event : Event) : bool :=
  match event with EUnknown _ => false | _ => true end.

(** What [entryOf] encodes, [Entry.Event] decodes back, at the Event's own
    number. *)
Lemma entry_roundtrip (event : Event) (instance : string) (e : Entry) (id : SessionID) :
  entryOf event instance = Ok e -> Entry_Event e id = Ok (WithSession event id).
Proof.
  intros H. destruct (entryOf_spec _ _ _ H) as (Hs & _ & Hd & _). unfold Entry_Event.
  by rewrite Hd, Hs; cbn [UnmarshalEvent]; rewrite WithNumber_self.
Qed.

(** ** Properties *)

(** every Event a Session stores has a Layer, and an Event that is only
    sent, or of the Instance, has none: no stored kind can be left out of a load by
    being forgotten in the table. *)
Theorem stored_kinds_have_layers (event : Event) :
  known event = true ->
  (Class_ event = EventClassStored <-> is_ok (layerOf (Kind event)) = true).
Proof. destruct event; intros H; try discriminate H; vm_compute; split; congruence. Qed.

Lemma stored_kinds_have_layers_witness :
  let e := ETurnStarted (MkTurnStarted (NewHeader 5 "s" "r" 1)) in
  Class_ e = EventClassStored <-> is_ok (layerOf (Kind e)) = true.
Proof. intros e. apply stored_kinds_have_layers. reflexivity. Defined.
