(* ===== verification/Store.v ===== *)
(** * The store contract

    [store/store.go], [store/store_check.go] and [store/errors.go]: what every
    store checks, what a load reads of a log, the paging of a listing, and the
    contract of [Records] as a class over an abstract log. *)

From S2P Require Import Prelude GoStrings Errors Types Events Entry.
Local Open Scope string_scope.
Local Open Scope list_scope.

(** ** Errors *)

Definition ErrInvalidID : error := SentinelOf "store.ErrInvalidID" CodeInvalidArgument "store: invalid id".
Definition ErrExists : error := SentinelOf "store.ErrExists" CodeInvalidState "store: already exists".
Definition ErrConflict : error :=
  SentinelOf "store.ErrConflict" CodeConflict "store: another writer wrote to this Record first".
Definition ErrExpired : error := SentinelOf "store.ErrExpired" CodeInvalidState "store: liveness row expired".

(** ** Checks *)

Definition MaxIDBytes : nat := 100.

(** [s] between quotation marks. *)
Definition quoted (s : string) : string := (String "034" s ++ String "034" "")%string.

(** The reason of the switch that [CheckID] and [CheckDefinitionKey] share, or
    the empty string for text they accept. *)
Definition bad_id (limit : nat) (too_long : string) (id : string) : string :=
  let b := bytes_of id in
  if String.eqb id "" then "it is empty"
  else if (limit <? slen id)%nat then too_long
  else if negb (valid_string b) then "it is not valid UTF-8"
  else if existsb (fun r => is_control (fst r)) (runes b) then "it has a control character"
  else if contains_any b ["/"; "\"]%char then "it has a path separator"
  else if contains b [".";"."]%char then ("it has " ++ quoted "..")%string
  else if has_prefix b ["."%char] then ("it starts with " ++ quoted ".")%string
  else "".

Definition CheckID (id : string) : option error :=
  let reason := bad_id MaxIDBytes "it is longer than 100 bytes" id in
  if String.eqb reason "" then None
  else Some (Wrapf (Text "%w %q: %s" [FStr id; FStr reason]) ErrInvalidID).

Definition invalid_argument (message : text error) : error :=
  RuntimeErr (ErrorOf CodeInvalidArgument message).

(** The loop of [CheckBatch]: the index and the Seq of the first Entry that
    does not follow. *)
Fixpoint first_gap (after : N) (i : nat) (entries : list Entry) : option (nat * N) :=
  match entries with
  | [] => None
  | entry :: rest =>
    if N.eqb (en_Seq entry) (u64_add (u64_add after (N.of_nat i)) 1)
    then first_gap after (S i) rest
    else Some (i, en_Seq entry)
  end.

Definition CheckBatch (after : N) (entries : list Entry) (h : RecordHeader) : option error :=
  if String.eqb (rh_Epoch h) ""
  then Some (invalid_argument (plain_text "store: a write names the Record's epoch (Header.Epoch)"))
  else match entries with
  | [] => Some (invalid_argument (plain_text "store: a write has no entries"))
  | first :: _ =>
    match first_gap after 0 entries with
    | Some (i, seq) =>
      Some (invalid_argument (Text "store: entry %d of a write after %d has Seq %d"
        [FNum (Z.of_nat i); FNum (Z.of_N after); FNum (Z.of_N seq)]))
    | None =>
      if N.eqb after 0 && (negb (IsCheckpoint first) || negb (String.eqb (en_Layer first) LayerFact))
      then Some (invalid_argument (plain_text "store: a Record must start with a checkpoint"))
      else None
    end
  end.

(** ** What a load reads *)

(** The backward loop of [loadedFrom]: the index of the last Checkpoint, and 0
    when there is none. *)
Fixpoint last_checkpoint (entries : list Entry) (i start : nat) : nat :=
  match entries with
  | [] => start
  | entry :: rest => last_checkpoint rest (S i) (if IsCheckpoint entry then i else start)
  end.

Definition is_segment_closed (e : Entry) : Prop := en_Kind e = EventKindSegmentClosed.
Definition is_fact (e : Entry) : Prop := en_Layer e = LayerFact.
#[export] Instance is_segment_closed_dec e : Decision (is_segment_closed e).
Proof. unfold is_segment_closed. apply _. Defined.
#[export] Instance is_fact_dec e : Decision (is_fact e).
Proof. unfold is_fact. apply _. Defined.

(** [loadedFrom]: the facts from the last Checkpoint on, and the
    segment_closed Entries before it. *)
Definition loadedFrom (entries : list Entry) : list Entry * list Entry :=
  let start := last_checkpoint entries 0 0 in
  (filter is_fact (drop start entries), filter is_segment_closed (take start entries)).

(** ** Paging *)

(** What a Cursor holds; the text of a Cursor is opaque to the caller, so the
    JSON in base64 that a store makes of it is not modelled, and a Cursor no store
    made is [CursorForeign]. *)
Inductive Cursor : Type :=
| CursorNone
| CursorOf (at_ : gotime) (id : string)
| CursorForeign (text : string).

Record ListQuery := MkListQuery { lq_Limit : Z; lq_Cursor : Cursor }.
Record ListPage := MkListPage { lp_Infos : list Info; lp_Next : Cursor }.

(** The order of a listing: the most recently updated first, then by ID. *)
Definition info_le (a b : Info) : Prop :=
  (in_UpdatedAt b < in_UpdatedAt a)%Z \/
  (in_UpdatedAt a = in_UpdatedAt b /\ String.le (in_ID a) (in_ID b)).
#[export] Instance info_le_dec a b : Decision (info_le a b).
Proof. unfold info_le. apply _. Defined.

(** [sortInfos].  [sort.Slice] leaves the order of equal elements open; two
    Infos are equal in it when they have one time and one ID. *)
Definition sortInfos (infos : list Info) : list Info := merge_sort info_le infos.

(** The predicate that [pageOf] gives to [sort.Search]: [info] comes after the
    Cursor. *)
Definition after_cursor (at_ : gotime) (id : string) (info : Info) : bool :=
  if (in_UpdatedAt info =? at_)%Z then String.ltb id (in_ID info) else (in_UpdatedAt info <? at_)%Z.

(** [sort.Search] between [i] and [j], at most [fuel] steps of it. *)
Fixpoint search_from {A} (f : A -> bool) (l : list A) (fuel i j : nat) : nat :=
  match fuel with
  | O => i
  | S fuel =>
    if (i <? j)%nat then
      let h := Nat.div2 (i + j) in
      match l !! h with
      | Some x => if f x then search_from f l fuel i h else search_from f l fuel (S h) j
      | None => i
      end
    else i
  end.

Definition search {A} (f : A -> bool) (l : list A) : nat := search_from f l (length l) 0 (length l).

Definition defaultListLimit : Z := 100.

Definition pageOf (infos : list Info) (q : ListQuery) : outcome ListPage :=
  let infos := sortInfos infos in
  let? infos :=
    match lq_Cursor q with
    | CursorNone => Ok infos
    | CursorForeign _ =>
      Err (invalid_argument (plain_text "store: the list cursor is not one this store made"))
    | CursorOf at_ id => Ok (drop (search (after_cursor at_ id) infos) infos)
    end in
  let limit := if (lq_Limit q <=? 0)%Z then defaultListLimit else lq_Limit q in
  if (limit <? Z.of_nat (length infos))%Z then
    let page := take (Z.to_nat limit) infos in
    Ok (MkListPage page
      match last page with
      | Some info => CursorOf (in_UpdatedAt info) (in_ID info)
      | None => CursorNone
      end)
  else Ok (MkListPage infos CursorNone).

(** ** Liveness *)

Record InstanceRow := MkInstanceRow { ir_ID : string; ir_Draining : bool; ir_Address : string }.

Record InstanceState := MkInstanceState {
  is_ID : string;
  is_Alive : bool;
  is_Draining : bool;
  is_Address : string;
}.

(** ** The contract of Records

    What a store keeps of a Record: its whole log and the Header of its last
    write. *)
Record stored := MkStored { st_entries : list Entry; st_header : RecordHeader }.
#[export] Instance eta_stored : Eta stored := fun r => MkStored (st_entries r) (st_header r).

Abbreviation logs := (gmap string stored) (only parsing).

(** The position of a Record: the Seq of its last Entry. *)
Definition head (s : stored) : N := u64 (N.of_nat (length (st_entries s))).

(** What an accepted Append leaves. *)
Definition extended (s : stored) (entries : list Entry) (h : RecordHeader) : stored :=
  MkStored (st_entries s ++ entries) h.

(** An Append may only be accepted for a Record of the Header's epoch whose
    position is [after]. *)
Definition appendable (L : logs) (id : string) (after : N) (entries : list Entry)
    (h : RecordHeader) (s : stored) : Prop :=
  L !! id = Some s /\ rh_Epoch (st_header s) = rh_Epoch h /\ head s = after /\
  CheckBatch after entries h = None.

(** What a call to Append may answer, and what it leaves.  An error that is
    none of the contract's leaves the outcome unknown: the write may have landed. *)
Inductive append_result (L : logs) (id : string) (after : N) (entries : list Entry)
    (h : RecordHeader) : logs -> option error -> Prop :=
| append_accepted s :
    appendable L id after entries h s ->
    append_result L id after entries h (<[id := extended s entries h]> L) None
| append_unknown s err :
    appendable L id after entries h s ->
    errors_Is err ErrConflict = false -> errors_Is err ErrNotFound = false ->
    append_result L id after entries h (<[id := extended s entries h]> L) (Some err)
| append_refused err :
    (errors_Is err ErrConflict = true -> exists s, L !! id = Some s /\
       rh_Epoch (st_header s) = rh_Epoch h /\ head s <> after) ->
    (errors_Is err ErrNotFound = true -> forall s, L !! id = Some s ->
       rh_Epoch (st_header s) <> rh_Epoch h) ->
    append_result L id after entries h L (Some err).

Inductive create_result (L : logs) (id : string) (entries : list Entry) (h : RecordHeader) :
    logs -> option error -> Prop :=
| create_accepted :
    L !! id = None -> CheckID id = None -> CheckBatch 0 entries h = None ->
    create_result L id entries h (<[id := MkStored entries h]> L) None
| create_unknown err :
    L !! id = None -> CheckBatch 0 entries h = None -> errors_Is err ErrExists = false ->
    create_result L id entries h (<[id := MkStored entries h]> L) (Some err)
| create_refused err :
    (errors_Is err ErrExists = true -> is_Some (L !! id)) ->
    create_result L id entries h L (Some err).

(** What a Load and a Log read of a Record. *)
Definition load_of (s : stored) : Loaded :=
  MkLoaded (fst (loadedFrom (st_entries s))) (snd (loadedFrom (st_entries s))) (head s) (st_header s).

Definition log_of (s : stored) (after : N) (limit : Z) : list Entry :=
  let rest := drop (N.to_nat after) (st_entries s) in
  if (0 <? limit)%Z then take (Z.to_nat limit) rest else rest.

(** Positions are below the wrap-around. *)
Definition small (s : stored) : Prop := (N.of_nat (length (st_entries s)) < two64)%N.
#[export] Instance small_dec s : Decision (small s).
Proof. unfold small. apply _. Defined.

(** What [ctx.Err()] answers: nil, or one of the two errors of a context. *)
Definition ctx_err (ctx : option error) : Prop :=
  match ctx with
  | None => True
  | Some err => err = ContextCanceled \/ err = ContextDeadlineExceeded
  end.

(** The interface [Records], over the log [view] that a store's state stands
    for.  [ctx] is what [ctx.Err()] answers during the call. *)
Class Records (S : Type) := {
  view : S -> logs;
  Records_Create : option error -> string -> list Entry -> RecordHeader -> S -> S * option error;
  Records_Append : option error -> string -> N -> list Entry -> RecordHeader -> S -> S * option error;
  Records_Load : option error -> string -> S -> S * outcome Loaded;
  Records_Log : option error -> string -> N -> Z -> S -> S * outcome (list Entry);
  Records_Delete : option error -> string -> S -> S * option error;
}.

Class RecordsLaws (S : Type) `{!Records S} := {
  Create_law ctx id entries h (s : S) :
    ctx_err ctx ->
    create_result (view s) id entries h (view (fst (Records_Create ctx id entries h s)))
      (snd (Records_Create ctx id entries h s));
  Append_law ctx id after entries h (s : S) :
    ctx_err ctx ->
    append_result (view s) id after entries h (view (fst (Records_Append ctx id after entries h s)))
      (snd (Records_Append ctx id after entries h s));
  Load_view ctx id (s : S) : view (fst (Records_Load ctx id s)) = view s;
  Load_law ctx id (s : S) loaded :
    snd (Records_Load ctx id s) = Ok loaded ->
    exists r, view s !! id = Some r /\ loaded = load_of r;
  Log_view ctx id after limit (s : S) : view (fst (Records_Log ctx id after limit s)) = view s;
  Log_law ctx id after limit (s : S) entries :
    snd (Records_Log ctx id after limit s) = Ok entries ->
    exists r, view s !! id = Some r /\ (small r -> entries = log_of r after limit);
  Delete_law ctx id (s : S) :
    match snd (Records_Delete ctx id s) with
    | None => is_Some (view s !! id) /\ view (fst (Records_Delete ctx id s)) = delete id (view s)
    | Some err => view (fst (Records_Delete ctx id s)) = view s \/
                  view (fst (Records_Delete ctx id s)) = delete id (view s)
    end;
}.

(** What a caller that follows [Next] from the first page gets, at most [fuel]
    pages; [None] if a page fails or there are more. *)
Fixpoint pages (List : ListQuery -> outcome ListPage) (limit : Z) (fuel : nat) (cursor : Cursor)
    : option (list (list Info)) :=
  match fuel with
  | O => None
  | S fuel =>
    match List (MkListQuery limit cursor) with
    | Err _ => None
    | Ok page =>
      match lp_Next page with
      | CursorNone => Some [lp_Infos page]
      | next => cons (lp_Infos page) <$> pages List limit fuel next
      end
    end
  end.

(** ** Lemmas on paging *)

#[export] Instance info_le_total : Total info_le.
Proof.
  intros a b. unfold info_le.
  destruct (Z.lt_trichotomy (in_UpdatedAt a) (in_UpdatedAt b)) as [Hab|[E|Hab]]; [auto| |auto].
  destruct (total String.le (in_ID a) (in_ID b)); auto.
Qed.

#[export] Instance info_le_trans : Transitive info_le.
Proof.
  intros a b c. unfold info_le. intros [H1|[H1 H2]] [H3|[H3 H4]]; try (left; lia).
  right. split; [lia|]. by transitivity (in_ID b).
Qed.

Definition info_key (info : Info) : gotime * string := (in_UpdatedAt info, in_ID info).

Lemma string_ltb_le s t : String.ltb s t = true <-> String.le s t /\ s <> t.
Proof.
  unfold String.ltb, String.le, String.leb. destruct (String.compare s t) eqn:E.
  - apply String.compare_eq_iff in E. naive_solver.
  - split; [|done]. intros _. split; [done|]. intros ->.
    pose proof (String.compare_antisym t t) as Ht. rewrite E in Ht. discriminate Ht.
  - naive_solver.
Qed.

Lemma after_cursor_spec a b :
  after_cursor (in_UpdatedAt a) (in_ID a) b = true <-> info_le a b /\ info_key a <> info_key b.
Proof.
  unfold after_cursor, info_le, info_key. destruct (Z.eqb_spec (in_UpdatedAt b) (in_UpdatedAt a)) as [E|E].
  - rewrite string_ltb_le, E. split; [intros [? ?]; split; [auto|congruence]|].
    intros [[?|[_ ?]] Hne]; [lia|]. split; [done|congruence].
  - rewrite Z.ltb_lt. split; [intros; split; [by left|congruence]|]. intros [[?|[? _]] _]; [done|lia].
Qed.

(** [sort.Search] finds the place where a predicate turns from false to
    true. *)
Lemma search_from_spec {A} (f : A -> bool) (l : list A) (k fuel i j : nat) :
  (forall n x, l !! n = Some x -> f x = (k <=? n)%nat) ->
  (i <= k <= j)%nat -> (j <= length l)%nat -> (j - i <= fuel)%nat -> search_from f l fuel i j = k.
Proof.
  intros Hf. revert i j. induction fuel as [|fuel IH]; intros i j Hk Hj Hfuel; simpl; [lia|].
  destruct (Nat.ltb_spec i j) as [Hlt|]; [|lia].
  pose proof (Nat.div2_odd (i + j)) as Hd.
  assert (Nat.b2n (Nat.odd (i + j)) <= 1)%nat by (destruct (Nat.odd (i + j)); simpl; lia).
  destruct (lookup_lt_is_Some_2 l (Nat.div2 (i + j))) as [x Hx]; [lia|].
  rewrite Hx, (Hf _ _ Hx). destruct (Nat.leb_spec k (Nat.div2 (i + j))); apply IH; lia.
Qed.

Lemma search_spec {A} (f : A -> bool) (l : list A) (k : nat) :
  (forall n x, l !! n = Some x -> f x = (k <=? n)%nat) -> (k <= length l)%nat -> search f l = k.
Proof. intros. apply search_from_spec; auto with lia. Qed.

(** The Infos of a page and those after it, in the order of the listing. *)
Lemma sorted_after (l : list Info) (n m : nat) (a b : Info) :
  StronglySorted info_le l -> NoDup (info_key <$> l) -> l !! n = Some a -> l !! m = Some b ->
  after_cursor (in_UpdatedAt a) (in_ID a) b = (n <? m)%nat.
Proof.
  intros Hs Hn Ha Hb. apply eq_bool_prop_intro. rewrite !Is_true_true, after_cursor_spec, Nat.ltb_lt.
  assert (Hle : forall i j x y, l !! i = Some x -> l !! j = Some y -> (i < j)%nat -> info_le x y).
  { clear -Hs. intros i j x y Hx Hy Hij. rewrite <-(take_drop_middle l i x Hx) in Hs, Hy.
    apply StronglySorted_app_1_r in Hs. apply StronglySorted_inv in Hs as [_ Hall].
    rewrite lookup_app_r in Hy by (rewrite length_take; lia).
    rewrite length_take, Nat.min_l in Hy by (apply lookup_lt_Some in Hx; lia).
    destruct (j - i)%nat as [|d] eqn:E; [lia|]. simpl in Hy. by eapply Forall_lookup_1 in Hall. }
  assert (Hkey : info_key a = info_key b -> n = m).
  { intros E. eapply NoDup_lookup; [done|by rewrite list_lookup_fmap, Ha|by rewrite list_lookup_fmap, Hb, E]. }
  split.
  - intros [Hab Hne]. destruct (Nat.lt_trichotomy n m) as [|[->|Hmn]]; [done|congruence|].
    pose proof (Hle _ _ _ _ Hb Ha Hmn) as Hba. exfalso. apply Hne.
    unfold info_le in *. unfold info_key. destruct Hab as [?|[E1 H1]], Hba as [?|[E2 H2]]; try lia.
    rewrite E1. f_equal. by apply (anti_symm String.le).
  - intros Hnm. split; [by eapply Hle|]. intros E. apply Hkey in E. lia.
Qed.

(** The cut of one page: [limit] Infos from [k] on. *)
Definition cut_page (sorted : list Info) (limit : Z) (k : nat) : ListPage :=
  let rest := drop k sorted in
  if (limit <? Z.of_nat (length rest))%Z then
    MkListPage (take (Z.to_nat limit) rest)
      match sorted !! (k + Z.to_nat limit - 1)%nat with
      | Some info => CursorOf (in_UpdatedAt info) (in_ID info)
      | None => CursorNone
      end
  else MkListPage rest CursorNone.

Section paging.
Context (infos : list Info) (limit : Z).
Hypothesis Hkeys : NoDup (info_key <$> infos).
Hypothesis Hlimit : (0 < limit)%Z.

Lemma sortInfos_sorted : StronglySorted info_le (sortInfos infos).
Proof. apply StronglySorted_merge_sort; apply _. Qed.

Lemma sortInfos_perm : sortInfos infos ≡ₚ infos.
Proof. apply merge_sort_Permutation. Qed.

Lemma sortInfos_keys : NoDup (info_key <$> sortInfos infos).
Proof. by rewrite sortInfos_perm. Qed.

(** A page is the first [limit] of the Infos after its Cursor. *)
Lemma pageOf_cut (cursor : Cursor) (k : nat) :
  match cursor with
  | CursorNone => k = 0%nat
  | CursorOf at_ id => exists info, (0 < k)%nat /\ sortInfos infos !! (k - 1)%nat = Some info /\
      at_ = in_UpdatedAt info /\ id = in_ID info
  | CursorForeign _ => False
  end ->
  pageOf infos (MkListQuery limit cursor) = Ok (cut_page (sortInfos infos) limit k).
Proof.
  intros Hk. unfold pageOf, lq_Cursor, lq_Limit.
  assert (match cursor with
    | CursorNone => Ok (sortInfos infos)
    | CursorOf at_ id => Ok (drop (search (after_cursor at_ id) (sortInfos infos)) (sortInfos infos))
    | CursorForeign _ =>
      Err (invalid_argument (plain_text "store: the list cursor is not one this store made"))
    end = Ok (drop k (sortInfos infos)) :> outcome (list Info)) as ->.
  { destruct cursor as [|at_ id|]; [by subst|..|done].
    destruct Hk as (info & Hpos & Hinfo & -> & ->). do 2 f_equal. apply search_spec.
    - intros n x Hx. rewrite (sorted_after _ _ _ _ _ sortInfos_sorted sortInfos_keys Hinfo Hx).
      apply eq_bool_prop_intro. rewrite !Is_true_true, Nat.ltb_lt, Nat.leb_le. lia.
    - apply lookup_lt_Some in Hinfo. lia. }
  unfold rbind, cut_page. rewrite (proj2 (Z.leb_gt limit 0)) by done.
  destruct (Z.ltb_spec limit (Z.of_nat (length (drop k (sortInfos infos))))) as [Hlt|]; [|done].
  do 2 f_equal. rewrite last_lookup, length_take, Nat.min_l by lia.
  rewrite lookup_take_lt, lookup_drop by lia.
  by replace (k + pred (Z.to_nat limit))%nat with (k + Z.to_nat limit - 1)%nat by lia.
Qed.

(** Following [Next] from place [k] gives everything from [k] on, at most [limit]
    Infos a page. *)
Lemma pages_from (fuel k : nat) (cursor : Cursor) :
  match cursor with
  | CursorNone => k = 0%nat
  | CursorOf at_ id => exists info, (0 < k)%nat /\ sortInfos infos !! (k - 1)%nat = Some info /\
      at_ = in_UpdatedAt info /\ id = in_ID info
  | CursorForeign _ => False
  end ->
  (length (sortInfos infos) - k < fuel)%nat ->
  exists pgs, pages (pageOf infos) limit fuel cursor = Some pgs /\ concat pgs = drop k (sortInfos infos) /\
    Forall (fun page => (Z.of_nat (length page) <= limit)%Z) pgs.
Proof.
  revert k cursor. induction fuel as [|fuel IH]; intros k cursor Hk Hfuel; [lia|].
  cbn [pages]. rewrite (pageOf_cut _ _ Hk). unfold cut_page.
  destruct (Z.ltb_spec limit (Z.of_nat (length (drop k (sortInfos infos))))) as [Hlt|Hge].
  - cbn [lp_Next lp_Infos]. rewrite length_drop in Hlt.
    destruct (lookup_lt_is_Some_2 (sortInfos infos) (k + Z.to_nat limit - 1)%nat) as [info Hinfo]; [lia|].
    rewrite Hinfo.
    destruct (IH (k + Z.to_nat limit)%nat (CursorOf (in_UpdatedAt info) (in_ID info)))
      as (pgs & -> & Hcat & Hall).
    { exists info. split; [lia|]. done. }
    { lia. }
    eexists. split; [reflexivity|]. cbn [concat]. split.
    + rewrite Hcat, <-drop_drop. apply take_drop.
    + constructor; [|done]. rewrite length_take. lia.
  - cbn [lp_Next lp_Infos]. eexists. split; [reflexivity|]. cbn [concat]. rewrite app_nil_r.
    split; [done|]. by constructor.
Qed.

End paging.

(** ** Lemmas on logs *)

Lemma CheckBatch_None after entries h :
  CheckBatch after entries h = None ->
  rh_Epoch h <> "" /\ entries <> [] /\ first_gap after 0 entries = None /\
  (after = 0%N -> exists first rest, entries = first :: rest /\ IsCheckpoint first = true /\
     en_Layer first = LayerFact).
Proof.
  unfold CheckBatch. destruct (String.eqb_spec (rh_Epoch h) "") as [|He]; [done|].
  destruct entries as [|first rest]; [done|].
  destruct (first_gap after 0 (first :: rest)) as [[i seq]|]; [done|].
  destruct (N.eqb_spec after 0) as [->|Ha]; simpl.
  - destruct (IsCheckpoint first) eqn:Ec; simpl; [|done].
    destruct (String.eqb_spec (en_Layer first) LayerFact); simpl; [|done]. naive_solver.
  - naive_solver.
Qed.

Lemma CheckBatch_ok after first rest h :
  rh_Epoch h <> "" -> first_gap after 0 (first :: rest) = None ->
  (after = 0%N -> IsCheckpoint first = true /\ en_Layer first = LayerFact) ->
  CheckBatch after (first :: rest) h = None.
Proof.
  intros He Hg Hf. unfold CheckBatch. rewrite (proj2 (String.eqb_neq _ _) He), Hg.
  destruct (N.eqb_spec after 0) as [->|]; [|done]. destruct (Hf eq_refl) as [-> ->]. done.
Qed.

(** Entries that continue position [after]: [after+1], [after+2] and so on. *)
Definition continues (after : N) (entries : list Entry) : Prop :=
  forall i e, entries !! i = Some e -> en_Seq e = u64 (after + N.of_nat i + 1).

Lemma first_gap_None after i entries :
  first_gap after i entries = None <->
  forall j e, entries !! j = Some e -> en_Seq e = u64 (after + N.of_nat (i + j) + 1).
Proof.
  revert i. induction entries as [|e rest IH]; intros i; cbn [first_gap].
  - split; [intros _ j e; by rewrite lookup_nil|done].
  - unfold u64_add. rewrite u64_add_l. split.
    + destruct (N.eqb_spec (en_Seq e) (u64 (after + N.of_nat i + 1))) as [E|]; [|done].
      rewrite IH. intros Hrest [|j] f Hf; simpl in Hf.
      * injection Hf as <-. by rewrite Nat.add_0_r.
      * rewrite (Hrest _ _ Hf). f_equal. lia.
    + intros Hall. rewrite (proj2 (N.eqb_eq _ _)).
      * apply IH. intros j f Hf. rewrite (Hall (S j) f Hf). f_equal. lia.
      * specialize (Hall 0%nat e eq_refl). by rewrite Nat.add_0_r in Hall.
Qed.

Lemma CheckBatch_continues after entries h : CheckBatch after entries h = None -> continues after entries.
Proof. intros (_ & _ & Hgap & _)%CheckBatch_None. rewrite first_gap_None in Hgap. exact Hgap. Qed.

(** A log is numbered from 1 without a gap, starts with a Checkpoint, and its
    Header names the epoch. *)
Definition wf_stored (s : stored) : Prop :=
  continues 0 (st_entries s) /\ rh_Epoch (st_header s) <> "" /\
  exists first rest, st_entries s = first :: rest /\ IsCheckpoint first = true /\
    en_Layer first = LayerFact.

Definition wf_logs (L : logs) : Prop := map_Forall (fun _ s => wf_stored s) L.

Lemma wf_created entries h : CheckBatch 0 entries h = None -> wf_stored (MkStored entries h).
Proof.
  intros Hb. destruct (CheckBatch_None _ _ _ Hb) as (He & _ & _ & Hfirst).
  split; [by eapply CheckBatch_continues|]. split; [done|]. by apply Hfirst.
Qed.

Lemma continues_app n l k :
  continues n l -> continues (u64 (n + N.of_nat (length l))) k -> continues n (l ++ k).
Proof.
  intros Hl Hk i e Hi. apply lookup_app_Some in Hi as [Hi|[Hge Hi]]; [by apply Hl|].
  rewrite (Hk _ _ Hi), <-N.add_assoc, u64_add_l. f_equal. lia.
Qed.

Lemma wf_extended s after entries h :
  wf_stored s -> head s = after -> CheckBatch after entries h = None -> wf_stored (extended s entries h).
Proof.
  intros (Hc & _ & first & rest & Hs & Hfirst) <- Hb.
  pose proof (CheckBatch_continues _ _ _ Hb) as Hk.
  destruct (CheckBatch_None _ _ _ Hb) as (He & _).
  split; [by apply continues_app|]. split; [done|].
  exists first, (rest ++ entries). cbn. by rewrite Hs.
Qed.

Lemma head_small s : (N.of_nat (length (st_entries s)) < two64)%N -> head s = N.of_nat (length (st_entries s)).
Proof. apply u64_small. Qed.

Lemma CheckID_not id err e :
  CheckID id = Some err -> e = ErrExists \/ e = ErrConflict \/ e = ErrNotFound -> errors_Is err e = false.
Proof.
  unfold CheckID. destruct (String.eqb _ ""); [done|]. intros [= <-] [->|[->| ->]]; vm_compute; reflexivity.
Qed.

Lemma CheckBatch_not after entries h err e :
  CheckBatch after entries h = Some err -> e = ErrExists \/ e = ErrConflict \/ e = ErrNotFound ->
  errors_Is err e = false.
Proof.
  unfold CheckBatch, invalid_argument.
  repeat (case_match; simplify_eq); intros Herr Hs; simplify_eq; destruct Hs as [->|[->| ->]]; vm_compute; reflexivity.
Qed.

Lemma ctx_not ctx err e :
  ctx_err ctx -> ctx = Some err -> e = ErrExists \/ e = ErrConflict \/ e = ErrNotFound -> errors_Is err e = false.
Proof. intros Hc -> Hs. destruct Hc as [->| ->], Hs as [->|[->| ->]]; vm_compute; reflexivity. Qed.

(** The last Checkpoint of a log that has one. *)
Lemma last_checkpoint_app before cp rest i start :
  IsCheckpoint cp = true -> Forall (fun e => IsCheckpoint e = false) rest ->
  last_checkpoint (before ++ cp :: rest) i start = (i + length before)%nat.
Proof.
  intros Hcp Hrest. revert i start. induction before as [|e before IH]; intros i start; simpl.
  - rewrite Hcp. enough (H : forall j n, last_checkpoint rest j n = n) by (rewrite H; lia).
    clear Hcp. induction Hrest as [|e rest He _ IH]; intros j n; simpl; [done|]. by rewrite He, IH.
  - rewrite IH. lia.
Qed.

Lemma loadedFrom_app before cp rest :
  IsCheckpoint cp = true -> Forall (fun e => IsCheckpoint e = false) rest ->
  loadedFrom (before ++ cp :: rest) = (filter is_fact (cp :: rest), filter is_segment_closed before).
Proof.
  intros Hcp Hrest. unfold loadedFrom. rewrite last_checkpoint_app by done. simpl.
  by rewrite drop_app_exact, take_app_exact.
Qed.

Lemma split_checkpoint entries first rest :
  entries = first :: rest -> IsCheckpoint first = true ->
  exists before cp after, entries = before ++ cp :: after /\ IsCheckpoint cp = true /\
    Forall (fun e => IsCheckpoint e = false) after.
Proof.
  intros -> Hf. induction rest as [|e rest IH] using rev_ind.
  - by exists [], first, [].
  - destruct (IsCheckpoint e) eqn:He.
    + exists (first :: rest), e, []. by split_and!.
    + destruct IH as (before & cp & after & E & Hcp & Hafter).
      exists before, cp, (after ++ [e]). rewrite app_comm_cons, E, <-app_assoc. split_and!; [done..|].
      apply Forall_app. split; [done|]. by constructor.
Qed.
