(* ===== verification/MemoryStore.v ===== *)
(** * The store in memory

    [store/memory.go] and [store/definitions_memory.go], whole.  A method holds
    the store's mutex from its first read of the state to its last write, so it
    is one step; what runs before the lock does not read the state.  [ctx] is what
    [ctx.Err()] answers when the method asks, and [now] what the store's clock says.
    [cloneEntries], [cloneHeader] and [cloneInfo] copy, and are the identity on
    values. *)

From S2P Require Import Prelude GoStrings Errors Types Events Entry Store.
Local Open Scope string_scope.
Local Open Scope list_scope.

(** ** State *)

Record memoryInstance := MkMemoryInstance { mi_row : InstanceRow; mi_expires : gotime }.

(** [memoryRecord] is [stored]. *)
Record MemoryStore := MkMemoryStore {
  ms_records : gmap string stored;
  ms_instances : gmap string memoryInstance;
}.
#[export] Instance eta_MemoryStore : Eta MemoryStore := fun r =>
  MkMemoryStore (ms_records r) (ms_instances r).

Definition NewMemoryStore : MemoryStore := MkMemoryStore ∅ ∅.

(** ** Records *)

Definition Create (ctx : option error) (id : string) (entries : list Entry) (h : RecordHeader)
    (m : MemoryStore) : MemoryStore * option error :=
  match ctx with Some err => (m, Some err) | None =>
  match CheckID id with Some err => (m, Some err) | None =>
  match CheckBatch 0 entries h with Some err => (m, Some err) | None =>
  match ms_records m !! id with
  | Some _ => (m, Some ErrExists)
  | None => (m <| ms_records := <[id := MkStored entries h]> (ms_records m) |>, None)
  end end end end.

Definition Append (ctx : option error) (id : string) (after : N) (entries : list Entry)
    (h : RecordHeader) (m : MemoryStore) : MemoryStore * option error :=
  match ctx with Some err => (m, Some err) | None =>
  match CheckID id with Some err => (m, Some err) | None =>
  match CheckBatch after entries h with Some err => (m, Some err) | None =>
  match ms_records m !! id with
  | None => (m, Some ErrNotFound)
  | Some rec =>
    if negb (String.eqb (rh_Epoch (st_header rec)) (rh_Epoch h)) then (m, Some ErrNotFound)
    else if negb (N.eqb (u64 (N.of_nat (length (st_entries rec)))) after) then (m, Some ErrConflict)
    else
      let rec := MkStored (st_entries rec ++ entries) h in
      (m <| ms_records := <[id := rec]> (ms_records m) |>, None)
  end end end end.

Definition Load (ctx : option error) (id : string) (m : MemoryStore) : outcome Loaded :=
  match ctx with Some err => Err err | None =>
  match CheckID id with Some err => Err err | None =>
  match ms_records m !! id with
  | None => Err ErrNotFound
  | Some rec =>
    let (entries, segments) := loadedFrom (st_entries rec) in
    Ok (MkLoaded entries segments (u64 (N.of_nat (length (st_entries rec)))) (st_header rec))
  end end end.

Definition Log (ctx : option error) (id : string) (after : N) (limit : Z) (m : MemoryStore)
    : outcome (list Entry) :=
  match ctx with Some err => Err err | None =>
  match CheckID id with Some err => Err err | None =>
  match ms_records m !! id with
  | None => Err ErrNotFound
  | Some rec =>
    if (u64 (N.of_nat (length (st_entries rec))) <=? after)%N then Ok []
    else
      let rest := drop (N.to_nat after) (st_entries rec) in
      if (0 <? limit)%Z && (limit <? Z.of_nat (length rest))%Z
      then Ok (take (Z.to_nat limit) rest) else Ok rest
  end end end.

(** The map's order is left open by the code, and [pageOf] sorts. *)
Definition List_ (ctx : option error) (q : ListQuery) (m : MemoryStore) : outcome ListPage :=
  match ctx with Some err => Err err | None =>
    pageOf ((fun r => rh_Info (st_header r.2)) <$> map_to_list (ms_records m)) q
  end.

Definition Delete (ctx : option error) (id : string) (m : MemoryStore) : MemoryStore * option error :=
  match ctx with Some err => (m, Some err) | None =>
  match CheckID id with Some err => (m, Some err) | None =>
  match ms_records m !! id with
  | None => (m, Some ErrNotFound)
  | Some _ => (m <| ms_records := delete id (ms_records m) |>, None)
  end end end.

(** ** Liveness *)

Definition Beat (ctx : option error) (now : gotime) (row : InstanceRow) (ttl : duration)
    (m : MemoryStore) : MemoryStore * option error :=
  match ctx with Some err => (m, Some err) | None =>
  match CheckID (ir_ID row) with Some err => (m, Some err) | None =>
  if (ttl <=? 0)%Z then (m <| ms_instances := delete (ir_ID row) (ms_instances m) |>, None)
  else
    let renewed :=
      (m <| ms_instances := <[ir_ID row := MkMemoryInstance row (now + ttl)]> (ms_instances m) |>, None) in
    match ms_instances m !! ir_ID row with
    | Some current => if negb (now <? mi_expires current)%Z then (m, Some ErrExpired) else renewed
    | None => renewed
    end
  end end.

Definition Instance_ (ctx : option error) (now : gotime) (id : string) (m : MemoryStore)
    : outcome InstanceState :=
  match ctx with Some err => Err err | None =>
  match ms_instances m !! id with
  | None => Ok (MkInstanceState id false false "")
  | Some current =>
    Ok (MkInstanceState id (now <? mi_expires current)%Z (ir_Draining (mi_row current))
      (ir_Address (mi_row current)))
  end end.

(** ** Definitions *)

Definition MaxDefinitionKeyBytes : nat := 128.

(** One turn of the loop of [CheckDefinitionKey]. *)
Definition check_key_part (what s : string) : option error :=
  let reason := bad_id MaxDefinitionKeyBytes "it is longer than 128 bytes" s in
  if String.eqb reason "" then None
  else Some (Wrapf (Text "%w: definition %s %q: %s" [FStr what; FStr s; FStr reason]) ErrInvalidID).

Definition CheckDefinitionKey (kind name : string) : option error :=
  match check_key_part "kind" kind with
  | Some err => Some err
  | None => check_key_part "name" name
  end.

Abbreviation MemoryDefinitions := (gmap (string * string) bytes) (only parsing).

Definition SaveDefinition (kind name : string) (doc : bytes) (m : MemoryDefinitions)
    : MemoryDefinitions * option error :=
  match CheckDefinitionKey kind name with
  | Some err => (m, Some err)
  | None => (<[(kind, name) := doc]> m, None)
  end.

Definition LoadDefinition (kind name : string) (m : MemoryDefinitions) : outcome bytes :=
  match CheckDefinitionKey kind name with
  | Some err => Err err
  | None => match m !! (kind, name) with Some doc => Ok doc | None => Err ErrNotFound end
  end.

(** ** Calls in any order

    The methods that change the store, as the requests of any number of
    Instances; each is answered whole before the next. *)
Inductive request : Type :=
| ReqCreate (id : string) (entries : list Entry) (h : RecordHeader)
| ReqAppend (id : string) (after : N) (entries : list Entry) (h : RecordHeader)
| ReqDelete (id : string)
| ReqBeat (row : InstanceRow) (ttl : duration).

Record call := MkCall { call_ctx : option error; call_now : gotime; call_request : request }.

Definition serve (c : call) (m : MemoryStore) : MemoryStore * option error :=
  match call_request c with
  | ReqCreate id entries h => Create (call_ctx c) id entries h m
  | ReqAppend id after entries h => Append (call_ctx c) id after entries h m
  | ReqDelete id => Delete (call_ctx c) id m
  | ReqBeat row ttl => Beat (call_ctx c) (call_now c) row ttl m
  end.

Definition serve_all (calls : list call) (m : MemoryStore) : MemoryStore :=
  fold_left (fun m c => fst (serve c m)) calls m.

(** ** It is a Records *)

#[export] Instance memory_Records : Records MemoryStore := {|
  view := ms_records;
  Records_Create := Create;
  Records_Append := Append;
  Records_Load ctx id m := (m, Load ctx id m);
  Records_Log ctx id after limit m := (m, Log ctx id after limit m);
  Records_Delete := Delete;
|}.

(** ** Lemmas *)

#[export] Hint Resolve CheckID_not CheckBatch_not ctx_not : gotato.

(** A refusal that is none of the contract's errors. *)
Lemma refused_append L id after entries h err :
  (forall e, e = ErrExists \/ e = ErrConflict \/ e = ErrNotFound -> errors_Is err e = false) ->
  append_result L id after entries h L (Some err).
Proof. intros Hno. apply append_refused; rewrite Hno by auto; done. Qed.

Lemma refused_create L id entries h err :
  (forall e, e = ErrExists \/ e = ErrConflict \/ e = ErrNotFound -> errors_Is err e = false) ->
  create_result L id entries h L (Some err).
Proof. intros Hno. apply create_refused. rewrite Hno by auto; done. Qed.

Lemma Create_result ctx id entries h m :
  ctx_err ctx ->
  create_result (ms_records m) id entries h (ms_records (fst (Create ctx id entries h m)))
    (snd (Create ctx id entries h m)).
Proof.
  intros Hctx. unfold Create. destruct ctx as [err|] eqn:Ec; [apply refused_create; eauto with gotato|].
  destruct (CheckID id) as [err|] eqn:Ei; [apply refused_create; eauto with gotato|].
  destruct (CheckBatch 0 entries h) as [err|] eqn:Eb; [apply refused_create; eauto with gotato|].
  destruct (ms_records m !! id) as [rec|] eqn:El; simpl.
  - apply create_refused. by eexists.
  - by apply create_accepted.
Qed.

Lemma Append_result ctx id after entries h m :
  ctx_err ctx ->
  append_result (ms_records m) id after entries h (ms_records (fst (Append ctx id after entries h m)))
    (snd (Append ctx id after entries h m)).
Proof.
  intros Hctx. unfold Append. destruct ctx as [err|] eqn:Ec; [apply refused_append; eauto with gotato|].
  destruct (CheckID id) as [err|] eqn:Ei; [apply refused_append; eauto with gotato|].
  destruct (CheckBatch after entries h) as [err|] eqn:Eb; [apply refused_append; eauto with gotato|].
  destruct (ms_records m !! id) as [rec|] eqn:El; simpl.
  2:{ apply append_refused; [vm_compute; done|]. intros _ s Hs. by simplify_eq. }
  destruct (String.eqb_spec (rh_Epoch (st_header rec)) (rh_Epoch h)) as [Ee|Ee]; simpl.
  2:{ apply append_refused; [vm_compute; done|]. intros _ s Hs. by simplify_eq. }
  destruct (N.eqb_spec (u64 (N.of_nat (length (st_entries rec)))) after) as [Ea|Ea]; simpl.
  - by apply (append_accepted _ _ _ _ _ rec).
  - apply append_refused; [|vm_compute; done]. intros _. by exists rec.
Qed.

Lemma Load_load_of ctx id m loaded :
  Load ctx id m = Ok loaded -> exists r, ms_records m !! id = Some r /\ loaded = load_of r.
Proof.
  unfold Load, load_of. destruct ctx; [done|]. destruct (CheckID id); [done|].
  destruct (ms_records m !! id) as [rec|]; [|done]. destruct (loadedFrom (st_entries rec)) as [es ss] eqn:E.
  intros [= <-]. exists rec. by rewrite E.
Qed.

Lemma Log_log_of ctx id after limit m entries :
  Log ctx id after limit m = Ok entries ->
  exists r, ms_records m !! id = Some r /\ (small r -> entries = log_of r after limit).
Proof.
  unfold Log, log_of. destruct ctx; [done|]. destruct (CheckID id); [done|].
  destruct (ms_records m !! id) as [rec|]; [|done]. intros Hl. exists rec. split; [done|].
  intros Hsmall. rewrite u64_small in Hl by done.
  destruct (N.leb_spec (N.of_nat (length (st_entries rec))) after) as [Hle|Hgt].
  - rewrite drop_ge by lia. injection Hl as <-. by destruct (0 <? limit)%Z; rewrite ?take_nil.
  - destruct (Z.ltb_spec 0 limit) as [Hp|Hp]; simpl in Hl; [|injection Hl as <-; done].
    destruct (Z.ltb_spec limit (Z.of_nat (length (drop (N.to_nat after) (st_entries rec))))); [injection Hl as <-; done|].
    injection Hl as <-. rewrite take_ge; [done|]. lia.
Qed.

#[export] Instance memory_RecordsLaws : RecordsLaws MemoryStore.
Proof.
  split.
  - intros. by apply Create_result.
  - intros. by apply Append_result.
  - done.
  - intros ctx id m loaded. apply Load_load_of.
  - done.
  - intros ctx id after limit m entries. apply Log_log_of.
  - intros ctx id m. simpl. unfold Delete. destruct ctx; [by left|]. destruct (CheckID id); [by left|].
    destruct (ms_records m !! id) eqn:E; simpl; [|by left]. split; [by eexists|done].
Qed.

(** Every record stays well-formed whatever is asked, in whatever order. *)
Lemma serve_wf c m : wf_logs (ms_records m) -> wf_logs (ms_records (fst (serve c m))).
Proof.
  intros Hwf. unfold serve. destruct (call_request c) as [id entries h|id after entries h|id|row ttl].
  - unfold Create. repeat (case_match; simplify_eq/=; try done).
    apply map_Forall_insert_2; [by apply wf_created|done].
  - unfold Append. destruct (call_ctx c); [done|]. destruct (CheckID id); [done|].
    destruct (CheckBatch after entries h) eqn:Eb; [done|].
    destruct (ms_records m !! id) as [rec|] eqn:El; [|done].
    destruct (String.eqb _ _); [|done]. simpl.
    destruct (N.eqb_spec (u64 (N.of_nat (length (st_entries rec)))) after) as [Ea|]; [|done]. simpl.
    apply map_Forall_insert_2; [|done]. eapply (wf_extended rec after); [by eapply Hwf|done..].
  - unfold Delete. repeat (case_match; simplify_eq/=; try done). by apply map_Forall_delete.
  - unfold Beat. repeat (case_match; simplify_eq/=; try done).
Qed.

Lemma serve_all_app calls calls' m : serve_all (calls ++ calls') m = serve_all calls' (serve_all calls m).
Proof. apply fold_left_app. Qed.

(** What is said of the store before and after each call is said of a
    sequence of calls. *)
Lemma serve_all_ind (P : MemoryStore -> Prop) (Q : call -> Prop) :
  (forall c m, Q c -> P m -> P (fst (serve c m))) ->
  forall calls m, Forall Q calls -> P m -> P (serve_all calls m).
Proof. intros Hstep calls. induction calls; intros m HQ HP; [done|]. invert HQ. simpl. eauto. Qed.

(** The Record that another writer's batch made at an epoch: its log still
    starts with [prefix]. *)
Definition keeps_prefix (id epoch : string) (prefix : list Entry) (m : MemoryStore) : Prop :=
  forall s, ms_records m !! id = Some s -> rh_Epoch (st_header s) = epoch ->
    exists rest, st_entries s = prefix ++ rest.

(** A call that does not create a Record of the epoch again, which is what a
    random epoch is for. *)
Definition other_epoch (id epoch : string) (c : call) : Prop :=
  match call_request c with
  | ReqCreate id' _ h => id' = id -> rh_Epoch h <> epoch
  | _ => True
  end.

Lemma serve_keeps_prefix id epoch prefix c m :
  other_epoch id epoch c -> keeps_prefix id epoch prefix m -> keeps_prefix id epoch prefix (fst (serve c m)).
Proof.
  unfold keeps_prefix, other_epoch, serve. intros Hc Hm.
  destruct (call_request c) as [id' entries h|id' after entries h|id'|row ttl].
  - unfold Create. repeat (case_match; simplify_eq/=; try done).
    intros s [[<- <-]|[? Hs]]%lookup_insert_Some; [|by eauto]. intros He. by destruct (Hc eq_refl).
  - unfold Append. destruct (call_ctx c); [done|]. destruct (CheckID id'); [done|].
    destruct (CheckBatch after entries h) eqn:Eb; [done|].
    destruct (ms_records m !! id') as [rec|] eqn:El; [|done].
    destruct (String.eqb_spec (rh_Epoch (st_header rec)) (rh_Epoch h)) as [Ee|]; [|done]. simpl.
    destruct (N.eqb _ after); [|done]. simpl.
    intros s [[<- <-]|[? Hs]]%lookup_insert_Some; [|by eauto]. simpl. intros He.
    destruct (Hm rec El) as [rest ->]; [congruence|]. exists (rest ++ entries). by rewrite app_assoc.
  - unfold Delete. repeat (case_match; simplify_eq/=; try done).
    intros r [? Hs]%lookup_delete_Some. by eauto.
  - unfold Beat. repeat (case_match; simplify_eq/=; try done).
Qed.

Lemma Append_accepted ctx id after entries h m m' :
  Append ctx id after entries h m = (m', None) ->
  CheckID id = None /\ exists s, appendable (ms_records m) id after entries h s /\
    ms_records m' = <[id := extended s entries h]> (ms_records m).
Proof.
  unfold Append. destruct ctx; [done|]. destruct (CheckID id); [done|].
  destruct (CheckBatch after entries h) eqn:Eb; [done|].
  destruct (ms_records m !! id) as [rec|] eqn:El; [|done].
  destruct (String.eqb_spec (rh_Epoch (st_header rec)) (rh_Epoch h)) as [Ee|]; [|done]. simpl.
  destruct (N.eqb_spec (u64 (N.of_nat (length (st_entries rec)))) after) as [Ea|]; [|done].
  intros [= <-]. split; [done|]. by exists rec.
Qed.

Lemma Append_failed ctx id after entries h m m' err :
  Append ctx id after entries h m = (m', Some err) -> m' = m.
Proof. unfold Append. intros Ha. repeat (case_match; simplify_eq/=); done. Qed.

(** A row that has expired: no call brings it back, but one that removes it
    lets its ID be used anew. *)
Definition expired (id : string) (now : gotime) (m : MemoryStore) : Prop :=
  exists current, ms_instances m !! id = Some current /\ (mi_expires current <= now)%Z.

Definition not_removed (id : string) (c : call) : Prop :=
  match call_request c with
  | ReqBeat row ttl => ir_ID row = id -> (0 < ttl)%Z
  | _ => True
  end.

Lemma serve_expired id now c m :
  (now <= call_now c)%Z -> not_removed id c -> expired id now m -> expired id now (fst (serve c m)).
Proof.
  unfold expired, not_removed, serve. intros Hnow Hc (cur & Hcur & Hexp).
  destruct (call_request c) as [id' entries h|id' after entries h|id'|row ttl].
  - unfold Create. repeat (case_match; simplify_eq/=; try done); eauto.
  - unfold Append. repeat (case_match; simplify_eq/=; try done); eauto.
  - unfold Delete. repeat (case_match; simplify_eq/=; try done); eauto.
  - unfold Beat. destruct (call_ctx c); [by eauto|]. destruct (CheckID (ir_ID row)); [by eauto|].
    destruct (Z.leb_spec ttl 0) as [Hle|Hgt]; simpl.
    + destruct (decide (ir_ID row = id)) as [E|]; [specialize (Hc E); lia|].
      exists cur. by rewrite lookup_delete_ne.
    + destruct (decide (ir_ID row = id)) as [->|Hne].
      * rewrite Hcur. destruct (Z.ltb_spec (call_now c) (mi_expires cur)); [lia|]. simpl. by eauto.
      * repeat (case_match; simplify_eq/=); exists cur; rewrite ?lookup_insert_ne by done; done.
Qed.

(** ** Properties *)

(** whatever calls reach the store, in whatever order, every Record it
    keeps is numbered 1, 2, 3, ... without a gap, starts with a Checkpoint of Layer
    fact, and has a Header that names its epoch. *)
Theorem memory_logs_gapless (calls : list call) :
  wf_logs (ms_records (serve_all calls NewMemoryStore)).
Proof.
  apply (serve_all_ind (fun m => wf_logs (ms_records m)) (fun _ => True)).
  - intros c m _. apply serve_wf.
  - by apply Forall_true.
  - apply map_Forall_empty.
Qed.

(** A Load gives, of a Record that a sequence of calls made, the facts from
    its last Checkpoint on, that Checkpoint first when it is a fact, and the Segments closed
    before it: what a Log of the whole Record gives, cut there. *)
Theorem memory_load_since_checkpoint (calls : list call) (id : string) (loaded : Loaded)
    (entries : list Entry) :
  let m := serve_all calls NewMemoryStore in
  map_Forall (fun _ s => small s) (ms_records m) ->
  Load None id m = Ok loaded -> Log None id 0 0 m = Ok entries ->
  exists before cp after, entries = before ++ cp :: after /\ IsCheckpoint cp = true /\
    Forall (fun e => IsCheckpoint e = false) after /\
    ld_Entries loaded = filter is_fact (cp :: after) /\
    ld_Segments loaded = filter is_segment_closed before /\
    ld_Seq loaded = N.of_nat (length entries).
Proof.
  intros m Hsmall Hload Hlog.
  apply Load_load_of in Hload as (r & Hr & ->). apply Log_log_of in Hlog as (r' & Hr' & Hlog).
  simplify_eq. specialize (Hlog (Hsmall _ _ Hr)). unfold log_of in Hlog. simpl in Hlog.
  rewrite drop_0 in Hlog. subst entries.
  assert (Hwf : wf_logs (ms_records m)).
  { apply (serve_all_ind (fun m => wf_logs (ms_records m)) (fun _ => True));
      [intros; by apply serve_wf|by apply Forall_true|apply map_Forall_empty]. }
  destruct (Hwf _ _ Hr) as (_ & _ & first & rest & E & Hf & _).
  destruct (split_checkpoint _ _ _ E Hf) as (before & cp & after & Es & Hcp & Hafter).
  exists before, cp, after. unfold load_of. cbn [ld_Entries ld_Segments ld_Seq].
  rewrite head_small by (by apply (Hsmall id)). rewrite Es, loadedFrom_app by done. done.
Qed.

(** a position is written once.  After an Append was accepted at [after],
    and whatever calls follow that do not make the epoch again, another Append at
    [after] by a writer of the same epoch fails with ErrConflict, or
    ErrNotFound when the Record is gone, and changes nothing. *)
Theorem memory_position_written_once (m m' : MemoryStore) (id : string) (after : N)
    (entries entries' : list Entry) (h h' : RecordHeader) (calls : list call) :
  snd (Append None id after entries h m) = None ->
  m' = serve_all calls (fst (Append None id after entries h m)) ->
  Forall (other_epoch id (rh_Epoch h)) calls ->
  rh_Epoch h' = rh_Epoch h ->
  map_Forall (fun _ s => small s) (ms_records m) -> map_Forall (fun _ s => small s) (ms_records m') ->
  CheckBatch after entries' h' = None ->
  Append None id after entries' h' m' = (m', Some ErrConflict) \/
  Append None id after entries' h' m' = (m', Some ErrNotFound).
Proof.
  intros Hacc -> Hcalls Hepoch Hsmall Hsmall' Hbatch.
  destruct (Append None id after entries h m) as [m1 o] eqn:Ha. cbn [fst snd] in *. subst o.
  apply Append_accepted in Ha as (Hid & s & (Hs & He & Hhead & Hb) & Hm1).
  assert (Hpre : keeps_prefix id (rh_Epoch h) (st_entries s ++ entries) (serve_all calls m1)).
  { apply (serve_all_ind _ (other_epoch id (rh_Epoch h))); [|done|].
    - intros c k Hc. by apply serve_keeps_prefix.
    - intros r. rewrite Hm1, lookup_insert_eq. intros [= <-] _. exists []. by rewrite app_nil_r. }
  unfold Append. rewrite Hid, Hbatch.
  destruct (ms_records (serve_all calls m1) !! id) as [r|] eqn:Er; [|by right].
  destruct (String.eqb_spec (rh_Epoch (st_header r)) (rh_Epoch h')) as [Ee|]; [|by right]. cbn [negb].
  destruct (Hpre r Er) as [rest Hrest]; [congruence|].
  rewrite u64_small by (by apply (Hsmall' id)).
  destruct (N.eqb_spec (N.of_nat (length (st_entries r))) after) as [Ea|]; [|by left]. exfalso.
  unfold head in Hhead. rewrite u64_small in Hhead by (by apply (Hsmall id)).
  destruct (CheckBatch_None _ _ _ Hb) as (_ & Hne & _). destruct entries; [done|].
  rewrite Hrest, !length_app in Ea. simpl in Ea. lia.
Qed.

(** a Liveness row that has expired is dead for good: while no call removes
    it, and the clock does not go back, every later Beat of it is ErrExpired and
    every later Instance says it is not alive. *)
Theorem memory_expired_for_good (m : MemoryStore) (id : string) (now : gotime) (calls : list call)
    (row : InstanceRow) (ttl : duration) (later : gotime) :
  expired id now m ->
  Forall (fun c => (now <= call_now c)%Z /\ not_removed id c) calls ->
  (now <= later)%Z -> ir_ID row = id -> (0 < ttl)%Z -> CheckID id = None ->
  snd (Beat None later row ttl (serve_all calls m)) = Some ErrExpired /\
  is_Alive <$> (match Instance_ None later id (serve_all calls m) with Ok s => Some s | Err _ => None end)
    = Some false.
Proof.
  intros Hexp Hcalls Hlater <- Httl Hid.
  assert (Hafter : expired (ir_ID row) now (serve_all calls m)).
  { eapply serve_all_ind; [|done|done]. intros c k [Hc1 Hc2]. by apply serve_expired. }
  destruct Hafter as (cur & Hcur & Hle). unfold Beat, Instance_. rewrite Hid, Hcur.
  rewrite (proj2 (Z.leb_gt ttl 0)) by done.
  rewrite (proj2 (Z.ltb_ge later (mi_expires cur))) by lia. done.
Qed.

(** a caller that follows a listing's Next from the first page gets every
    Record's Info once, the most recently updated first, and at most [limit] a
    page. *)
Theorem memory_list_complete (m : MemoryStore) (limit : Z) :
  let infos := (fun r => rh_Info (st_header r.2)) <$> map_to_list (ms_records m) in
  (0 < limit)%Z -> NoDup (info_key <$> infos) ->
  exists pgs, pages (fun q => List_ None q m) limit (S (length infos)) CursorNone = Some pgs /\
    concat pgs = sortInfos infos /\ concat pgs ≡ₚ infos /\ StronglySorted info_le (concat pgs) /\
    Forall (fun page => (Z.of_nat (length page) <= limit)%Z) pgs.
Proof.
  intros infos Hlimit Hkeys.
  destruct (pages_from infos limit Hkeys Hlimit (S (length infos)) 0 CursorNone eq_refl)
    as (pgs & Hp & Hcat & Hall).
  { unfold sortInfos. rewrite merge_sort_Permutation. lia. }
  rewrite drop_0 in Hcat. exists pgs. rewrite Hcat.
  repeat split; [done|apply sortInfos_perm|apply sortInfos_sorted|done].
Qed.

(** ** Witnesses *)

Definition sample_info (id : string) (at_ : gotime) : Info := MkInfo id "" at_ at_ 0 0 (MkUsage 0 0 0 0 0) ∅.

Definition sample_header (id epoch : string) (at_ : gotime) : RecordHeader :=
  MkRecordHeader epoch (sample_info id at_).

(** A Checkpoint, and an Entry that is no Checkpoint. *)
Definition sample_checkpoint (seq : N) : Entry :=
  MkEntry seq EventKindSessionCreated LayerFact 5 "pod-a" (RawBad "").

Definition sample_entry (seq : N) : Entry :=
  MkEntry seq EventKindSegmentClosed LayerFact 6 "pod-a" (RawBad "").

Definition sample_calls : list call :=
  [MkCall None 10 (ReqCreate "s1" [sample_checkpoint 1; sample_entry 2] (sample_header "s1" "e1" 5));
   MkCall None 11 (ReqCreate "s2" [sample_checkpoint 1] (sample_header "s2" "e2" 7));
   MkCall None 12 (ReqAppend "s1" 2 [sample_checkpoint 3] (sample_header "s1" "e1" 6));
   MkCall None 12 (ReqBeat (MkInstanceRow "pod-a" false "") 3)].

Lemma memory_load_since_checkpoint_witness :
  exists before cp after, [sample_checkpoint 1; sample_entry 2; sample_checkpoint 3] = before ++ cp :: after /\
    IsCheckpoint cp = true /\ Forall (fun e => IsCheckpoint e = false) after /\
    [sample_checkpoint 3] = filter is_fact (cp :: after) /\
    [sample_entry 2] = filter is_segment_closed before /\ 3%N = 3%N.
Proof.
  apply (memory_load_since_checkpoint sample_calls "s1"
    (MkLoaded [sample_checkpoint 3] [sample_entry 2] 3 (sample_header "s1" "e1" 6))).
  - refine (bool_decide_unpack (map_Forall (fun _ s => small s) _) _). vm_compute. exact I.
  - vm_compute. reflexivity.
  - vm_compute. reflexivity.
Defined.

Lemma memory_position_written_once_witness :
  let m := serve_all sample_calls NewMemoryStore in
  let m' := serve_all [MkCall None 13 (ReqDelete "s2")]
    (fst (Append None "s1" 3 [sample_entry 4] (sample_header "s1" "e1" 8) m)) in
  Append None "s1" 3 [sample_entry 4] (sample_header "s1" "e1" 9) m' = (m', Some ErrConflict) \/
  Append None "s1" 3 [sample_entry 4] (sample_header "s1" "e1" 9) m' = (m', Some ErrNotFound).
Proof.
  intros m m'.
  apply (memory_position_written_once m m' "s1" 3 [sample_entry 4] [sample_entry 4]
    (sample_header "s1" "e1" 8) (sample_header "s1" "e1" 9) [MkCall None 13 (ReqDelete "s2")]).
  - vm_compute. reflexivity.
  - reflexivity.
  - repeat constructor.
  - reflexivity.
  - refine (bool_decide_unpack (map_Forall (fun _ s => small s) _) _). vm_compute. exact I.
  - refine (bool_decide_unpack (map_Forall (fun _ s => small s) _) _). vm_compute. exact I.
  - vm_compute. reflexivity.
Defined.

Lemma memory_expired_for_good_witness :
  let row := MkInstanceRow "pod-a" false "" in
  let m := serve_all (sample_calls ++ [MkCall None 20 (ReqBeat row 3)]) NewMemoryStore in
  snd (Beat None 20 row 3 m) = Some ErrExpired.
Proof.
  intros row m.
  apply (memory_expired_for_good (serve_all sample_calls NewMemoryStore) "pod-a" 15
    [MkCall None 20 (ReqBeat row 3)] row 3 20).
  - exists (MkMemoryInstance row 15). split; vm_compute; [reflexivity|congruence].
  - repeat constructor; vm_compute; congruence.
  - lia.
  - reflexivity.
  - lia.
  - vm_compute. reflexivity.
Defined.

Lemma memory_list_complete_witness :
  let m := serve_all sample_calls NewMemoryStore in
  let infos := (fun r => rh_Info (st_header r.2)) <$> map_to_list (ms_records m) in
  exists pgs, pages (fun q => List_ None q m) 1 (S (length infos)) CursorNone = Some pgs /\
    concat pgs = sortInfos infos.
Proof.
  intros m infos.
  destruct (memory_list_complete m 1) as (pgs & Hp & Hcat & _).
  - lia.
  - refine (bool_decide_unpack _ _). vm_compute. exact I.
  - exists pgs. exact (conj Hp Hcat).
Defined.
