(* ===== verification/Record.v ===== *)
(** * The live Record

    [record/record.go], [record_log.go] (the writing half), [events.go],
    [run.go], [holder.go], [writing.go], [segments.go], [spilled.go] (the
    cache) and [record_info.go]: the state a Record keeps of a Session, and every
    operation that changes it.  Each exported method takes the Record's lock, so it is
    one step; a function of the state and of what it reads from outside: [now],
    the clock, read once for a whole operation, and the random identifiers
    that [NewID] and [newEpoch] make. *)

From S2P Require Import Prelude GoStrings Errors Types Events Entry Store.
Local Open Scope string_scope.
Local Open Scope list_scope.

(** ** State *)

Record Claim := MkClaim { cl_Instance : string; cl_Epoch : N }.

Record replyPart := MkReplyPart {
  rp_RunID : RunID;
  rp_MessageID : MessageID;
  rp_Text : string;
  rp_Reasoning : string;
}.

Record RunInfo := MkRunInfo {
  ri_RunID : RunID;
  ri_Status : RunStatus;
  ri_Error : string;
  ri_StartedAt : gotime;
  ri_EndedAt : gotime;
  ri_Turns : N;
  ri_ToolCalls : N;
  ri_Usage : Usage;
  ri_StopReason : string;
  ri_RequestID : string;
}.
#[export] Instance eta_RunInfo : Eta RunInfo := fun r =>
  MkRunInfo (ri_RunID r) (ri_Status r) (ri_Error r) (ri_StartedAt r) (ri_EndedAt r) (ri_Turns r)
    (ri_ToolCalls r) (ri_Usage r) (ri_StopReason r) (ri_RequestID r).

Record spillCache := MkSpillCache { sc_bodies : gmap N string; sc_order : list N; sc_bytes : Z }.
#[export] Instance eta_spillCache : Eta spillCache := fun r =>
  MkSpillCache (sc_bodies r) (sc_order r) (sc_bytes r).

(** [record.Record].  [r_started] holds the calls that [started] maps to
    true; the clock is not a field. *)
Record SessionRecord := MkRecord {
  r_id : string;
  r_parentID : string;
  r_epoch : string;
  r_createdAt : gotime;
  r_updatedAt : gotime;
  r_messages : list Message;
  r_runs : list RunInfo;
  r_events : list Event;
  r_eventHead : nat;
  r_usage : Usage;
  r_compactions : list Compaction;
  r_metadata : Metadata;
  r_loaded : list string;
  r_eventLimit : Z;
  r_closed : gmap Z Segment;
  r_used : list Z;
  r_maxSegment : Z;
  r_positions : gmap MessageID MessagePosition;
  r_parentSeq : N;
  r_head : N;
  r_last : N;
  r_logging : bool;
  r_pending : list Event;
  r_instance : string;
  r_claim : Claim;
  r_running : RunID;
  r_busy : bool;
  r_notices : list PendingNotice;
  r_queued : list MessageQueued;
  r_lastRunEnd : gotime;
  r_baseRuns : Z;
  r_started : gset ToolCallID;
  r_openParts : list replyPart;
  r_retainRead : bool;
  r_spilled : spillCache;
  r_cutOff : list Message;
}.
#[export] Instance eta_SessionRecord : Eta SessionRecord := fun r =>
  MkRecord (r_id r) (r_parentID r) (r_epoch r) (r_createdAt r) (r_updatedAt r) (r_messages r)
    (r_runs r) (r_events r) (r_eventHead r) (r_usage r) (r_compactions r) (r_metadata r)
    (r_loaded r) (r_eventLimit r) (r_closed r) (r_used r) (r_maxSegment r) (r_positions r)
    (r_parentSeq r) (r_head r) (r_last r) (r_logging r) (r_pending r) (r_instance r) (r_claim r)
    (r_running r) (r_busy r) (r_notices r) (r_queued r) (r_lastRunEnd r) (r_baseRuns r)
    (r_started r) (r_openParts r) (r_retainRead r) (r_spilled r) (r_cutOff r).

Definition defaultEventLimit : Z := 1000.
Definition defaultSpillCacheBytes : Z := 16 * 2 ^ 20.

(** [&Record{}], with the fields that both [New] and [rebuildRecord] set. *)
Definition record_zero : SessionRecord :=
  MkRecord "" "" "" 0 0 [] [] [] 0 usage_zero [] ∅ [] defaultEventLimit ∅ [] 0 ∅ 0 0 0 false []
    "" (MkClaim "" 0) "" false [] [] 0 0 ∅ [] true (MkSpillCache ∅ [] 0) [].

(** ** New *)

Definition WithID (id : string) (r : SessionRecord) : SessionRecord := r <| r_id := id |>.
Definition WithMetadata (metadata : Metadata) (r : SessionRecord) : SessionRecord :=
  r <| r_metadata := metadata |>.
Definition WithMessages (messages : list Message) (r : SessionRecord) : SessionRecord :=
  r <| r_messages := messages |>.

(** [New]; [id] and [epoch] are what [NewID] and [newEpoch] return. *)
Definition New (now : gotime) (id epoch : string) (options : list (SessionRecord -> SessionRecord))
    : SessionRecord :=
  let r := fold_left (fun r option => option r) options record_zero in
  let r := if String.eqb (r_id r) "" then r <| r_id := id |> else r in
  r <| r_epoch := epoch |> <| r_createdAt := now |> <| r_updatedAt := now |>.

(** ** The window of Events *)

(** [retainedEvents]: from the oldest on. *)
Definition retainedEvents (r : SessionRecord) : list Event :=
  if Nat.eqb (r_eventHead r) 0 || (length (r_events r) <=? r_eventHead r)%nat then r_events r
  else drop (r_eventHead r) (r_events r) ++ take (r_eventHead r) (r_events r).

Definition retain (event : Event) (r : SessionRecord) : SessionRecord :=
  let limit := r_eventLimit r in
  if (limit <? 0)%Z then r
  else if (Z.of_nat (length (r_events r)) <? limit)%Z then r <| r_events := r_events r ++ [event] |>
  else
    let r :=
      if (limit <? Z.of_nat (length (r_events r)))%Z
      then r <| r_events := drop (length (r_events r) - Z.to_nat limit) (r_events r) |>
             <| r_eventHead := 0%nat |>
      else r in
    r <| r_events := <[r_eventHead r := event]> (r_events r) |>
      <| r_eventHead := (S (r_eventHead r) mod Z.to_nat limit)%nat |>.

(** ** Numbering *)

Definition touch (now : gotime) (r : SessionRecord) : SessionRecord := r <| r_updatedAt := now |>.

(** [header]. *)
Definition header (now : gotime) (r : SessionRecord) : Header := NewHeader now (r_id r) "" 0.

Definition number (now : gotime) (event : Event) (r : SessionRecord) : SessionRecord * Event :=
  let r := r <| r_last := u64_add (r_last r) 1 |> in
  let event := WithNumber event (r_last r) in
  let r := retain (WithoutBody event) r in
  let r := if r_logging r then r <| r_pending := r_pending r ++ [event] |> else r in
  (touch now r, event).

Definition emit (now : gotime) (event : Event) (r : SessionRecord) : SessionRecord :=
  if r_logging r then fst (number now event r) else r.

Definition Emit (now : gotime) (event : Event) (r : SessionRecord) : SessionRecord :=
  emit now (WithSession event (r_id r)) r.

(** ** What Events say *)

Definition load (id : string) (r : SessionRecord) : SessionRecord :=
  if bool_decide (id ∈ r_loaded r) then r else r <| r_loaded := r_loaded r ++ [id] |>.

Definition unload (id : string) (r : SessionRecord) : SessionRecord :=
  r <| r_loaded := filter (fun have => have <> id) (r_loaded r) |>.

Definition SetLoadedTools (ids : list string) (r : SessionRecord) : SessionRecord :=
  r <| r_loaded := ids |>.

Definition foldQueued (event : Event) (r : SessionRecord) : SessionRecord :=
  match event with
  | EMessageQueued e => r <| r_queued := r_queued r ++ [e] |>
  | EMessageCommitted e =>
    r <| r_queued := filter (fun q => mq_MessageID q <> m_ID (mc_Message e)) (r_queued r) |>
  | EMessageDropped e =>
    r <| r_queued := filter (fun q => mq_MessageID q <> md_MessageID e) (r_queued r) |>
  | _ => r
  end.

Definition foldNotice (event : Event) (r : SessionRecord) : SessionRecord :=
  match event with
  | ENoticeQueued e =>
    if negb (String.eqb (nq_Source e) NoticeSourceService) then r
    else r <| r_notices := r_notices r ++
           [MkPendingNotice (nq_MessageID e) (nq_NoticeKind e) (nq_Source e) (nq_Text e)
              (h_Number (nq_Header e))] |>
  | ENoticeCommitted e =>
    r <| r_notices := filter (fun p => ~ (pn_Number p = nc_Queued e /\ nc_Queued e <> 0%N)) (r_notices r) |>
  | EMessageDropped e =>
    if String.eqb (md_Source e) MessageSourceNotice
    then r <| r_notices := filter (fun p => pn_MessageID p <> md_MessageID e) (r_notices r) |>
    else r
  | _ => r
  end.

Definition runStarted (e : RunStarted) : RunInfo :=
  MkRunInfo (h_RunID (rs_Header e)) RunStatusRunning "" (h_Time (rs_Header e)) 0 0 0 usage_zero ""
    (rs_RequestID e).

Definition runEnded (e : RunEnded) : RunInfo :=
  MkRunInfo (h_RunID (re_Header e)) (re_Status e) (re_Cause e) 0 (h_Time (re_Header e)) (re_Turns e)
    (re_ToolCalls e) (re_Usage e) (re_StopReason e) "".

(** The backward loop of [endRun]: the last Run record of [id]. *)
Fixpoint last_run (id : RunID) (i : nat) (runs : list RunInfo) : option (nat * RunInfo) :=
  match runs with
  | [] => None
  | run :: rest =>
    match last_run id (S i) rest with
    | Some found => Some found
    | None => if String.eqb (ri_RunID run) id then Some (i, run) else None
    end
  end.

Definition endRun (run : RunInfo) (r : SessionRecord) : SessionRecord :=
  let r :=
    match last_run (ri_RunID run) 0 (r_runs r) with
    | Some (i, old) =>
      let run := run <| ri_StartedAt := ri_StartedAt old |> <| ri_RequestID := ri_RequestID old |> in
      r <| r_runs := <[i := run]> (r_runs r) |>
    | None => r <| r_baseRuns := (r_baseRuns r - 1)%Z |> <| r_runs := r_runs r ++ [run] |>
    end in
  let r := if String.eqb (r_running r) (ri_RunID run) then r <| r_running := "" |> else r in
  let r :=
    if (r_lastRunEnd r <? ri_EndedAt run)%Z then r <| r_lastRunEnd := ri_EndedAt run |> else r in
  r <| r_usage := addUsage (r_usage r) (ri_Usage run) |>.

Definition foldLive (event : Event) (r : SessionRecord) : SessionRecord :=
  match event with
  | ERunStarted e =>
    r <| r_runs := r_runs r ++ [runStarted e] |> <| r_running := h_RunID (rs_Header e) |>
  | ERunEnded e => endRun (runEnded e) r
  | EToolLoaded e => load (tl2_ToolID e) r
  | EToolUnloaded e => unload (tu_ToolID e) r
  | ENoticeQueued _ | ENoticeCommitted _ | EMessageDropped _ => foldNotice event r
  | _ => r
  end.

Definition indexMessage (event : Event) (at_ : gotime) (r : SessionRecord) : SessionRecord :=
  match messageOf event with
  | Some message =>
    if String.eqb (m_ID message) "" then r
    else r <| r_positions :=
           <[m_ID message := MkPosition (m_ID message) (h_Number (Head event)) at_]> (r_positions r) |>
  | None => r
  end.

(** ** The bodies of spilled results *)

Definition put (seq : N) (body : string) (c : spillCache) : spillCache :=
  match sc_bodies c !! seq with
  | Some _ => c
  | None =>
    MkSpillCache (<[seq := body]> (sc_bodies c)) (sc_order c ++ [seq])
      (sc_bytes c + Z.of_nat (slen body))
  end.

(** One turn of the loop of [trim]. *)
Definition trim_one (stored_ : N) (limit : Z) (acc : spillCache) (seq : N) : spillCache :=
  if (limit <? sc_bytes acc)%Z && (seq <=? stored_)%N
  then MkSpillCache (delete seq (sc_bodies acc)) (sc_order acc)
         (sc_bytes acc - Z.of_nat (slen (default "" (sc_bodies acc !! seq))))
  else acc <| sc_order := sc_order acc ++ [seq] |>.

Definition trim (stored_ : N) (limit : Z) (c : spillCache) : spillCache :=
  fold_left (trim_one stored_ limit) (sc_order c) (c <| sc_order := [] |>).

Definition keepSpilled (event : Event) (r : SessionRecord) : SessionRecord :=
  match event with
  | EToolResultSpilled e => r <| r_spilled := put (h_Number (Head event)) (tsp_Body e) (r_spilled r) |>
  | _ => r
  end.

(** ** The Transcript and the Journal *)

(** [Append]. *)
Definition AppendMessage (now : gotime) (message : Message) (r : SessionRecord) : SessionRecord :=
  touch now (r <| r_messages := r_messages r ++ [message] |>).

(** One turn of the loop of [Write]. *)
Definition write_one (now : gotime) (r : SessionRecord) (event : Event) : SessionRecord * Event :=
  let event := WithSession event (r_id r) in
  let (r, out) := number now event r in
  let r := keepSpilled out r in
  let r := foldLive out r in
  (indexMessage out (h_Time (Head out)) r, out).

Fixpoint Write (now : gotime) (events : list Event) (r : SessionRecord) : SessionRecord * list Event :=
  match events with
  | [] => (r, [])
  | event :: rest =>
    let (r, out) := write_one now r event in
    let (r, outs) := Write now rest r in
    (r, out :: outs)
  end.

(** The first part of [EventsAfter]: whether the window lost what follows
    [after]. *)
Definition window_lost (after : N) (window : list Event) (last_ : N) : bool :=
  match window with
  | [] => (after <? last_)%N
  | event :: _ => (u64_add after 1 <? h_Number (Head event))%N
  end.

Definition EventsAfter (after : N) (r : SessionRecord) : outcome (list Event) :=
  let window := retainedEvents r in
  if window_lost after window (r_last r) then Err ErrEventsLost
  else Ok (filter (fun event => (after < h_Number (Head event))%N) window).

(** ** Metadata *)

(** [Set]. *)
Definition SetMetadata (now : gotime) (key value : string) (r : SessionRecord) : SessionRecord :=
  let current := r_metadata r !! key in
  if String.eqb (default "" current) value && (bool_decide (is_Some current) || String.eqb value "")
  then r
  else
    let r :=
      if String.eqb value "" then r <| r_metadata := delete key (r_metadata r) |>
      else r <| r_metadata := <[key := value]> (r_metadata r) |> in
    let r := touch now r in
    emit now (EMetadataChanged (MkMetadataChanged (header now r) key value)) r.

(** ** The Claim *)

Definition claimFor (now : gotime) (instance : string) (why : ClaimWhy) (r : SessionRecord)
    : SessionRecord :=
  let from := cl_Instance (r_claim r) in
  let r :=
    if negb (String.eqb from instance) || N.eqb (cl_Epoch (r_claim r)) 0
    then r <| r_claim := MkClaim instance (u64_add (cl_Epoch (r_claim r)) 1) |> else r in
  let r := r <| r_instance := instance |> in
  let r := touch now r in
  emit now (ESessionClaimed (MkSessionClaimed (header now r) instance (cl_Epoch (r_claim r)) why from)) r.

Definition Holder (r : SessionRecord) : Claim * bool :=
  (r_claim r, r_busy r || negb (String.eqb (r_running r) "")).

Definition released (now : gotime) (r : SessionRecord) : Event :=
  ESessionReleased (MkSessionReleased (header now r) (cl_Instance (r_claim r)) (cl_Epoch (r_claim r))).

Definition Attach (instance : string) (r : SessionRecord) : SessionRecord * (Claim * bool * RunID) :=
  let r := r <| r_instance := instance |> <| r_logging := true |> in
  (r, (r_claim r, r_busy r || negb (String.eqb (r_running r) ""), r_running r)).

Definition dropQueued (now : gotime) (why : string) (r : SessionRecord) : SessionRecord :=
  let r := fold_left (fun r queued =>
      let h := (header now r) <| h_RunID := h_RunID (mq_Header queued) |> in
      emit now (EMessageDropped (MkMessageDropped h (mq_MessageID queued) (mq_Source queued) why)) r)
    (r_queued r) r in
  r <| r_queued := [] |>.

Definition interruptRun (now : gotime) (runID : RunID) (r : SessionRecord) : SessionRecord :=
  let h := (header now r) <| h_RunID := runID |> in
  let ended := MkRunEnded h RunStatusFailed "interrupted" false "" 0 0 usage_zero 0 0 0 in
  let r := endRun (runEnded ended) r in
  let r := touch now r in
  emit now (ERunEnded ended) r.

Definition TakeOver (now : gotime) (instance : string) (why : ClaimWhy) (running : RunID)
    (r : SessionRecord) : SessionRecord :=
  let r := r <| r_busy := true |> in
  let r := claimFor now instance why r in
  let r := fold_left (fun r message =>
      emit now (EReplyCutOff (MkReplyCutOff (header now r) message "interrupted")) r)
    (r_cutOff r) r in
  let r := r <| r_cutOff := [] |> in
  if String.eqb running "" then r
  else interruptRun now running (dropQueued now "writer_gone" r).

Definition Reclaim (now : gotime) (r : SessionRecord) : SessionRecord :=
  let r := r <| r_busy := true |> in
  claimFor now (r_instance r) ClaimWhyIdle r.

Definition Release (now : gotime) (r : SessionRecord) : SessionRecord :=
  if r_busy r then
    let r := r <| r_busy := false |> in
    emit now (released now r) r
  else r.

(** ** Segments *)

(** [s.closed[number]], which is the zero Segment for a number it does not
    hold. *)
Definition closed_segment (r : SessionRecord) (number : Z) : Segment :=
  default segment_zero (r_closed r !! number).

Definition segmentsLocked (r : SessionRecord) : list Segment := closed_segment r <$> r_used r.

Definition NextSegment (r : SessionRecord) : Z := (r_maxSegment r + 1)%Z.

Definition prefixLen (r : SessionRecord) : nat :=
  foldr (fun number n => (length (sg_Messages (closed_segment r number)) + n)%nat) 0%nat (r_used r).

Definition Tail (r : SessionRecord) : list Message := drop (prefixLen r) (r_messages r).

Definition positionTimes (r : SessionRecord) : gmap MessageID MessagePosition :=
  (fun position => position <| mp_Number := 0%N |>) <$> r_positions r.

Definition tailPositions (messages : list Message) (known : gmap MessageID MessagePosition)
    : list MessagePosition :=
  omap (fun message =>
    match known !! m_ID message with
    | Some position => if negb (String.eqb (m_ID message) "") then Some position else None
    | None => None
    end) messages.

(** The map of a list of positions, each by its Message. *)
Definition positions_of (positions : list MessagePosition) : gmap MessageID MessagePosition :=
  fold_left (fun m position => <[mp_ID position := position]> m) positions ∅.

(** [source] names [parentID] unless it names a Session already. *)
Definition inherit_source (parentID parentEpoch : string) (source : SegmentSource) : SegmentSource :=
  if String.eqb (rr_SessionID (so_Ref source)) ""
  then source <| so_Ref := MkRecordRef parentID parentEpoch |> else source.

Definition inheritSegments (parentID parentEpoch : string) (segments : list Segment) (maxNumber : Z)
    (positions : gmap MessageID MessagePosition) (r : SessionRecord) : SessionRecord :=
  let r := r <| r_closed := ∅ |> <| r_used := [] |> in
  let r := fold_left (fun r segment =>
      let segment := segment <| sg_Source := inherit_source parentID parentEpoch (sg_Source segment) |> in
      let segment := segment <| sg_Merged := (fun merged =>
        merged <| mg_Source := inherit_source parentID parentEpoch (mg_Source merged) |>) <$> sg_Merged segment |> in
      r <| r_closed := <[sg_Number segment := segment]> (r_closed r) |>
        <| r_used := r_used r ++ [sg_Number segment] |>)
    segments r in
  r <| r_maxSegment := maxNumber |> <| r_positions := positions |>.

Definition closeLocked (segment : Segment) (r : SessionRecord) : SessionRecord :=
  r <| r_closed := <[sg_Number segment := segment]> (r_closed r) |>
    <| r_maxSegment := Z.max (r_maxSegment r) (sg_Number segment) |>.

Definition already_closed (number : Z) : error :=
  invalid_argument (Text "record: segment %d is already closed" [FNum number]).

Definition closeSegmentLocked (now : gotime) (segment : Segment) (r : SessionRecord)
    : SessionRecord * outcome Segment :=
  let segment :=
    if (sg_Number segment =? 0)%Z then segment <| sg_Number := (r_maxSegment r + 1)%Z |> else segment in
  if bool_decide (is_Some (r_closed r !! sg_Number segment)) || (sg_Number segment <? 0)%Z
  then (r, Err (already_closed (sg_Number segment)))
  else
    let segment := segment <| sg_Rendered := Z.of_nat (length (sg_Messages segment)) |> in
    let r := closeLocked segment r in
    let r := touch now r in
    let r := emit now (ESegmentClosed (MkSegmentClosed (header now r) segment)) r in
    (r, Ok segment).

(** The loop of [checkNumbersLocked], at index [i]; [first] is the Segment of
    [numbers[0]], and [previous] the number before. *)
Fixpoint check_numbers (lookup : Z -> option Segment) (first : Segment) (i : nat) (previous : Z)
    (numbers : list Z) : option error :=
  match numbers with
  | [] => None
  | number :: rest =>
    match lookup number with
    | None => Some (invalid_argument (Text "record: segment %d is not closed" [FNum number]))
    | Some segment =>
      if bool_decide (sg_Merged segment <> []) && (0 <? i)%nat
      then Some (invalid_argument
        (Text "record: segment %d is merged; a merged segment comes first" [FNum number]))
      else if Nat.eqb i 0 then check_numbers lookup first (S i) number rest
      else if Nat.eqb i 1 && bool_decide (sg_Merged first <> [])
      then check_numbers lookup first (S i) number rest
      else if (number =? previous)%Z
      then Some (invalid_argument (Text "record: segment %d is listed twice" [FNum number]))
      else if (number <? previous)%Z
      then Some (invalid_argument
        (Text "record: segment %d is listed after segment %d; list them in ascending order"
          [FNum number; FNum previous]))
      else check_numbers lookup first (S i) number rest
    end
  end.

Definition pending_or_closed (pending : option Segment) (r : SessionRecord) (number : Z) : option Segment :=
  match pending with
  | Some segment => if (sg_Number segment =? number)%Z then Some segment else r_closed r !! number
  | None => r_closed r !! number
  end.

Definition checkNumbersLocked (numbers : list Z) (pending : option Segment) (r : SessionRecord)
    : option error :=
  let lookup := pending_or_closed pending r in
  let first := match numbers with number :: _ => default segment_zero (lookup number) | [] => segment_zero end in
  check_numbers lookup first 0 0 numbers.

Definition checkpointLocked (now : gotime) (why : CompactionWhy) (tail : list Message)
    (compaction : option Compaction) (r : SessionRecord) : SessionRecord :=
  let kept := tailPositions tail (r_positions r) in
  let r := r <| r_positions := positions_of kept |> in
  let r := match compaction with
    | Some c => r <| r_compactions := r_compactions r ++ [c] |>
    | None => r
    end in
  let r := touch now r in
  emit now (ECompactionEnded (MkCompactionEnded (header now r) (cl_Instance (r_claim r))
    (cl_Epoch (r_claim r)) why compaction (r_compactions r) tail (r_metadata r) (r_loaded r) (r_used r)
    kept (r_baseRuns r + Z.of_nat (length (r_runs r)))%Z (r_usage r) (r_lastRunEnd r) (r_running r)
    (r_notices r))) r.

(** [checkpoint]. *)
Definition checkpoint (now : gotime) (why : CompactionWhy) (messages : list Message)
    (compaction : option Compaction) (r : SessionRecord) : SessionRecord :=
  checkpointLocked now why messages compaction (r <| r_messages := messages |> <| r_used := [] |>).

Definition checkpointSegmentsLocked (now : gotime) (why : CompactionWhy) (numbers : list Z)
    (tail : list Message) (compaction : option Compaction) (r : SessionRecord)
    : SessionRecord * option error :=
  match checkNumbersLocked numbers None r with
  | Some err => (r, Some err)
  | None =>
    let prefix := mjoin ((fun number => sg_Messages (closed_segment r number)) <$> numbers) in
    (checkpointLocked now why tail compaction
       (r <| r_used := numbers |> <| r_messages := prefix ++ tail |>), None)
  end.

(** The two last steps of [CloseSegment] and [MergeSegments]: [closed] is what
    [closeSegmentLocked] returned, and [loaded] what happens between them. *)
Definition close_then_checkpoint (now : gotime) (why : CompactionWhy) (numbers : list Z)
    (tail : list Message) (compaction : option Compaction) (loaded : SessionRecord -> SessionRecord)
    (closed : SessionRecord * outcome Segment) : SessionRecord * outcome Segment :=
  match closed with
  | (r, Err err) => (r, Err err)
  | (r, Ok segment) =>
    match checkpointSegmentsLocked now why numbers tail compaction (loaded r) with
    | (r, Some err) => (r, Err err)
    | (r, None) => (r, Ok segment)
    end
  end.

Definition CloseSegment (now : gotime) (why : CompactionWhy) (segment : Segment) (tail : list Message)
    (compaction : option Compaction) (r : SessionRecord) : SessionRecord * outcome Segment :=
  let number := if (sg_Number segment =? 0)%Z then (r_maxSegment r + 1)%Z else sg_Number segment in
  if bool_decide (is_Some (r_closed r !! number)) || (number <? 0)%Z then (r, Err (already_closed number))
  else if bool_decide (sg_Merged segment <> [])
  then (r, Err (invalid_argument (plain_text "record: a merged Segment is closed with MergeSegments")))
  else
    let numbers := r_used r ++ [number] in
    match checkNumbersLocked numbers (Some (segment_zero <| sg_Number := number |>)) r with
    | Some err => (r, Err err)
    | None =>
      close_then_checkpoint now why numbers tail compaction
        (fun r => match compaction with
          | Some c => r <| r_loaded := cn_LoadedTools c |>
          | None => r
          end)
        (closeSegmentLocked now segment r)
    end.

(** The arguments of the second message are the numbers of its two lists, one
    after the other. *)
Definition MergeSegments (now : gotime) (why : CompactionWhy) (merged : Segment) (replaces : list Z)
    (tail : list Message) (compaction : option Compaction) (r : SessionRecord)
    : SessionRecord * outcome Segment :=
  if bool_decide (sg_Merged merged = []) || bool_decide (replaces = [])
  then (r, Err (invalid_argument
    (plain_text "record: a merge names the Segments it stands for and the ones it replaces")))
  else if (length (r_used r) <? length replaces)%nat
       || negb (bool_decide (replaces = take (length replaces) (r_used r)))
  then (r, Err (invalid_argument
    (Text "record: a merge replaces the first Segments of the Context %v, not %v"
      ((FNum <$> r_used r) ++ (FNum <$> replaces)))))
  else
    let merged :=
      if (sg_Number merged =? 0)%Z then merged <| sg_Number := (r_maxSegment r + 1)%Z |> else merged in
    if bool_decide (is_Some (r_closed r !! sg_Number merged)) || (sg_Number merged <? 0)%Z
    then (r, Err (already_closed (sg_Number merged)))
    else
      let numbers := sg_Number merged :: drop (length replaces) (r_used r) in
      match checkNumbersLocked numbers (Some merged) r with
      | Some err => (r, Err err)
      | None =>
        close_then_checkpoint now why numbers tail compaction (fun r => r)
          (closeSegmentLocked now merged r)
      end.

(** ** The log *)

Definition startLog (now : gotime) (epoch : string) (r : SessionRecord) : SessionRecord :=
  let r := r <| r_logging := true |> <| r_pending := [] |> <| r_events := [] |>
             <| r_eventHead := 0%nat |> <| r_last := 0%N |> in
  let r := if String.eqb (r_epoch r) "" then r <| r_epoch := epoch |> else r in
  let tail := drop (min (prefixLen r) (length (r_messages r))) (r_messages r) in
  let forked :=
    if negb (String.eqb (r_parentID r) "") then Some (MkForkedFrom (r_parentID r) (r_parentSeq r))
    else None in
  let created := MkSessionCreated ((header now r) <| h_Time := r_createdAt r |>) (r_createdAt r)
    (r_epoch r) forked tail (r_metadata r) (r_compactions r) (r_loaded r) (r_used r)
    (tailPositions tail (r_positions r)) (r_baseRuns r + Z.of_nat (length (r_runs r)))%Z (r_usage r)
    (r_lastRunEnd r) in
  let r := fst (number now (ESessionCreated created) r) in
  fold_left (fun r n =>
    fst (number now (ESegmentClosed (MkSegmentClosed (header now r) (closed_segment r n))) r))
    (r_used r) r.

Definition infoLocked (r : SessionRecord) : Info :=
  MkInfo (r_id r) (r_parentID r) (r_createdAt r) (r_updatedAt r) (Z.of_nat (length (r_messages r)))
    (r_baseRuns r + Z.of_nat (length (r_runs r)))%Z (r_usage r) (r_metadata r).

(** The loop of [TakePending]: the Entries of [events], of positions from
    [at_] on. *)
Fixpoint entries_of (instance : string) (at_ : N) (events : list Event) : outcome (list Entry) :=
  match events with
  | [] => Ok []
  | event :: rest =>
    let? entry := entryOf event instance in
    if negb (N.eqb (en_Seq entry) at_)
    then Err (RuntimeErr (ErrorOf CodeInternalInvariant
      (Text "record: Event %d queued at position %d" [FNum (Z.of_N (en_Seq entry)); FNum (Z.of_N at_)])))
    else
      let? entries := entries_of instance (u64_add at_ 1) rest in
      Ok (entry :: entries)
  end.

(** What [TakePending] returns; [None] when nothing is pending. *)
Record taken := MkTaken { tk_entries : list Entry; tk_events : list Event; tk_header : RecordHeader }.

Definition TakePending (r : SessionRecord) : outcome (SessionRecord * option taken) :=
  match r_pending r with
  | [] => Ok (r, None)
  | events =>
    let? entries := entries_of (r_instance r) (u64_add (r_head r) 1) events in
    let r := r <| r_pending := [] |> in
    Ok (r, Some (MkTaken entries events (MkRecordHeader (r_epoch r) (infoLocked r))))
  end.

Definition Stored (seq : N) (r : SessionRecord) : SessionRecord :=
  let r := r <| r_head := N.max (r_head r) seq |> in
  r <| r_spilled := trim (r_head r) defaultSpillCacheBytes (r_spilled r) |>.

Definition StartWriting (now : gotime) (epoch instance : string) (idle : bool) (r : SessionRecord)
    : SessionRecord :=
  let r := r <| r_instance := instance |> <| r_claim := MkClaim "" 0 |> in
  let r := startLog now epoch r in
  let r := claimFor now instance ClaimWhyNewSession r in
  let r := r <| r_busy := true |> in
  if idle then
    let r := r <| r_busy := false |> in
    emit now (released now r) r
  else r.
