(* ===== verification/Rebuild.v ===== *)
(** * A Record rebuilt from its log

    [record/record_log.go] (the reading half), and [View] and [FromLoaded] of
    [writing.go]: how the Entries of a store become a Record again, and the repair of
    what a writer that stopped left open. *)

From S2P Require Import Prelude GoStrings Errors Types Events Entry Store Record.
Local Open Scope string_scope.
Local Open Scope list_scope.

(** ** Streaming replies *)

(** [addPart]: appended to the first part of the same Message. *)
Fixpoint add_part (part : replyPart) (parts : list replyPart) : list replyPart :=
  match parts with
  | [] => [part]
  | p :: rest =>
    if String.eqb (rp_MessageID p) (rp_MessageID part)
    then MkReplyPart (rp_RunID p) (rp_MessageID p) (rp_Text p ++ rp_Text part)%string
           (rp_Reasoning p ++ rp_Reasoning part)%string :: rest
    else p :: add_part part rest
  end.

Definition addPart (part : replyPart) (r : SessionRecord) : SessionRecord :=
  r <| r_openParts := add_part part (r_openParts r) |>.

Definition dropParts (runID : RunID) (r : SessionRecord) : SessionRecord :=
  r <| r_openParts := filter (fun part => rp_RunID part <> runID) (r_openParts r) |>.

(** The Message that [closeParts] makes of a part. *)
Definition cut_off_message (part : replyPart) : Message :=
  message_zero <| m_ID := rp_MessageID part |> <| m_RunID := rp_RunID part |>
    <| m_Role := RoleAssistant |> <| m_StopReason := StopReasonCutOff |>
    <| m_Parts := [part_of ContentKindText (rp_Text part)] |>.

Definition cut_off_messages (committed : MessageID) (parts : list replyPart) : list Message :=
  cut_off_message <$>
    filter (fun part => ~ (rp_MessageID part = committed \/ rp_Text part = "")) parts.

Definition closeParts (committed : MessageID) (r : SessionRecord) : SessionRecord :=
  r <| r_messages := r_messages r ++ cut_off_messages committed (r_openParts r) |>
    <| r_openParts := [] |>.

Definition addMessage (message : Message) (r : SessionRecord) : SessionRecord :=
  let r := closeParts (m_ID message) r in
  r <| r_messages := r_messages r ++ [message] |>.

(** ** Checkpoints *)

Definition startContext (segments : list Z) (tail : list MessagePosition) (r : SessionRecord)
    : SessionRecord :=
  r <| r_used := segments |> <| r_positions := positions_of tail |>.

Definition restore (messages : list Message) (metadata : Metadata) (compactions : list Compaction)
    (loaded : list string) (segments : list Z) (tail : list MessagePosition) (r : SessionRecord)
    : SessionRecord :=
  let r := r <| r_messages := messages |> <| r_metadata := metadata |>
             <| r_compactions := compactions |> <| r_loaded := loaded |> in
  startContext segments tail r <| r_started := ∅ |> <| r_openParts := [] |>.

Definition restoreTotals (runs : Z) (usage : Usage) (lastRunEnd : gotime) (r : SessionRecord)
    : SessionRecord :=
  r <| r_baseRuns := (runs - Z.of_nat (length (r_runs r)))%Z |> <| r_usage := usage |>
    <| r_lastRunEnd := lastRunEnd |>.

(** ** One Entry *)

(** The switch of [apply]. *)
Definition apply_event (event : Event) (r : SessionRecord) : SessionRecord :=
  match event with
  | ESessionCreated e =>
    let r := r <| r_id := h_SessionID (cr_Header e) |> <| r_createdAt := cr_CreatedAt e |>
               <| r_epoch := cr_RecordEpoch e |> <| r_parentID := "" |> <| r_parentSeq := 0%N |> in
    let r := match cr_ForkedFrom e with
      | Some f => r <| r_parentID := ff_SessionID f |> <| r_parentSeq := ff_Number f |>
      | None => r
      end in
    let r := restore (cr_Messages e) (cr_Metadata e) (cr_Compactions e) (cr_LoadedTools e)
      (cr_Segments e) (cr_Tail e) r in
    restoreTotals (cr_Runs e) (cr_Usage e) (cr_LastRunEnd e) r
  | ECompactionEnded e =>
    let r := if String.eqb (r_id r) "" then r <| r_id := h_SessionID (ce_Header e) |> else r in
    let r := restore (ce_Messages e) (ce_Metadata e) (ce_History e) (ce_LoadedTools e)
      (ce_Segments e) (ce_Tail e) r in
    let r := restoreTotals (ce_Runs e) (ce_Usage e) (ce_LastRunEnd e) r in
    let r := r <| r_notices := ce_Notices e |> <| r_running := ce_Running e |> in
    if negb (String.eqb (ce_Instance e) "")
    then r <| r_claim := MkClaim (ce_Instance e) (ce_Epoch e) |> <| r_busy := true |> else r
  | ESegmentClosed e => closeLocked (sgc_Segment e) r
  | EMessageQueued _ => foldQueued event r
  | EMessageCommitted e => foldQueued event (addMessage (mc_Message e) r)
  | ENoticeCommitted e => foldNotice event (addMessage (nc_Message e) r)
  | ENoticeQueued _ | EMessageDropped _ => foldQueued event (foldNotice event r)
  | EReplyEnded e => addMessage (pe_Message e) r
  | EReplyCutOff e => addMessage (pc_Message e) r
  | EToolResultCommitted e => addMessage (tr2_Message e) r
  | EToolStarted e => r <| r_started := {[ to_CallID e ]} ∪ r_started r |>
  | EReplyPartKept e =>
    addPart (MkReplyPart (h_RunID (pk_Header e)) (pk_MessageID e) (pk_Text e) (pk_Reasoning e)) r
  | EMetadataChanged e =>
    if String.eqb (mx_Value e) "" then r <| r_metadata := delete (mx_Key e) (r_metadata r) |>
    else r <| r_metadata := <[mx_Key e := mx_Value e]> (r_metadata r) |>
  | EToolLoaded e => load (tl2_ToolID e) r
  | EToolUnloaded e => unload (tu_ToolID e) r
  | ESessionClaimed e => r <| r_claim := MkClaim (sc_Instance e) (sc_Epoch e) |> <| r_busy := true |>
  | ESessionReleased _ => r <| r_busy := false |>
  | ERunStarted e =>
    r <| r_runs := r_runs r ++ [runStarted e] |> <| r_running := h_RunID (rs_Header e) |>
  | ERunEnded e => dropParts (h_RunID (re_Header e)) (endRun (runEnded e) r)
  | _ => r
  end.

(** [apply], on an Event that was read. *)
Definition apply_numbered (event : Event) (entry_at : gotime) (r : SessionRecord) : SessionRecord :=
  let r := apply_event event r in
  let at_ := if (h_Time (Head event) =? 0)%Z then entry_at else h_Time (Head event) in
  let r := indexMessage event at_ r in
  if r_retainRead r then retain (WithoutBody event) r else r.

Definition apply (entry : Entry) (r : SessionRecord) : outcome SessionRecord :=
  match UnmarshalEvent (en_Data entry) with
  | Err err => Err (invalid_argument (Text "record: entry %d (%s): %v"
      [FNum (Z.of_N (en_Seq entry)); FStr (en_Kind entry); FErr err]))
  | Ok (EUnknown _) => Err (RuntimeErr (ErrorOf CodeNotSupported
      (Text "record: entry %d has unknown kind %q" [FNum (Z.of_N (en_Seq entry)); FStr (en_Kind entry)])))
  | Ok event => Ok (apply_numbered (WithNumber event (en_Seq entry)) (en_At entry) r)
  end.

(** ** Repair *)

Definition StoppedToolResult : string :=
  "The instance running this tool stopped before the tool finished. Whether the tool took effect is unknown.".
Definition notRunToolResult : string :=
  "This tool call was not run: the instance stopped before it started.".

Definition repairResultWith (call : ToolCallID) (started : bool) (text : string) : Message :=
  message_zero <| m_ID := ("repair-" ++ call)%string |> <| m_Role := RoleToolResult |>
    <| m_Parts := [part_of ContentKindText text] |>
    <| m_ToolResult := Some (MkToolResult call ToolResultStatusFailed [part_of ContentKindText text]
         ∅ text "" started None []) |>.

Definition repairResult (call : ToolCall) (started : bool) : Message :=
  repairResultWith (tc_ID call) started (if started then StoppedToolResult else notRunToolResult).

Definition unanswered (calls : list ToolCall) (answered : gset ToolCallID) : list ToolCall :=
  filter (fun call => tc_ID call ∉ answered) calls.

(** The Tool results that follow a Message: the inner loop of [repair]. *)
Fixpoint results_run (messages : list Message) : list Message :=
  match messages with
  | message :: rest =>
    if String.eqb (m_Role message) RoleToolResult then message :: results_run rest else []
  | [] => []
  end.

(** The calls those results answer. *)
Definition answered_by (results : list Message) : gset ToolCallID :=
  list_to_set (omap (fun message => tr_CallID <$> m_ToolResult message) results).

Definition calls_tools (message : Message) : bool :=
  String.eqb (m_Role message) RoleAssistant && negb (Nat.eqb (length (m_ToolCalls message)) 0).

(** The loop of [repair]: [before] is [messages[:i]] and [rest] is
    [messages[i:]].  Each turn takes at least one Message, so [fuel] of one
    more than their number is enough. *)
Fixpoint repair_loop (started : gset ToolCallID) (fuel : nat) (before rest : list Message)
    (out : option (list Message)) : option (list Message) :=
  match fuel, rest with
  | S fuel, message :: tail =>
    if negb (calls_tools message) then
      repair_loop started fuel (before ++ [message]) tail ((fun out => out ++ [message]) <$> out)
    else
      let results := results_run tail in
      let missing := unanswered (m_ToolCalls message) (answered_by results) in
      if Nat.eqb (length missing) 0 && bool_decide (out = None)
      then repair_loop started fuel (before ++ [message]) tail out
      else
        let out := default before out ++ (message :: results) ++
          ((fun call => repairResult call (bool_decide (tc_ID call ∈ started))) <$> missing) in
        repair_loop started fuel (before ++ message :: results) (drop (length results) tail) (Some out)
  | _, _ => out
  end.

Definition repair (messages : list Message) (started : gset ToolCallID) : list Message :=
  default messages (repair_loop started (S (length messages)) [] messages None).

(** ** A whole log *)

(** The rendered Messages of the Segments [numbers], one after the other. *)
Fixpoint rendered (closed : gmap Z Segment) (numbers : list Z) : outcome (list Message) :=
  match numbers with
  | [] => Ok []
  | number :: rest =>
    match closed !! number with
    | None => Err (invalid_argument
        (Text "record: the checkpoint uses segment %d, which the log does not hold" [FNum number]))
    | Some segment => let? prefix := rendered closed rest in Ok (sg_Messages segment ++ prefix)
    end
  end.

Definition resolveSegments (r : SessionRecord) : outcome SessionRecord :=
  let? prefix := rendered (r_closed r) (r_used r) in
  Ok (r <| r_messages := prefix ++ r_messages r |>).

(** The loop over [segments] of [rebuildRecord]. *)
Fixpoint apply_segments (segments : list Entry) (r : SessionRecord) : outcome SessionRecord :=
  match segments with
  | [] => Ok r
  | entry :: rest =>
    if negb (String.eqb (en_Kind entry) EventKindSegmentClosed)
    then Err (invalid_argument (Text "record: entry %d (%s) is not a segment_closed Entry"
      [FNum (Z.of_N (en_Seq entry)); FStr (en_Kind entry)]))
    else let? r := apply entry r in apply_segments rest r
  end.

(** The loop over [entries]; [previous] is the Seq of the Entry before. *)
Fixpoint apply_entries (previous : option N) (entries : list Entry) (r : SessionRecord)
    : outcome SessionRecord :=
  match entries with
  | [] => Ok r
  | entry :: rest =>
    let out_of_order := match previous with Some p => (en_Seq entry <=? p)%N | None => false end in
    if out_of_order
    then Err (invalid_argument (Text "record: entry %d follows entry %d"
      [FNum (Z.of_N (en_Seq entry)); FNum (Z.of_N (default 0%N previous))]))
    else
      let? r := apply entry r in
      apply_entries (Some (en_Seq entry)) rest (r <| r_updatedAt := en_At entry |>)
  end.

(** What [rebuildRecord] does once every Entry is read. *)
Definition finish_rebuild (seq : N) (r : SessionRecord) : outcome SessionRecord :=
  if String.eqb (r_id r) "" then Err (invalid_argument (plain_text "record: checkpoint has no id"))
  else
    let? r := resolveSegments r in
    let before := length (r_messages r) in
    let r := closeParts "" r in
    let r := r <| r_cutOff := drop before (r_messages r) |> in
    let r := r <| r_messages := repair (r_messages r) (r_started r) |> <| r_started := ∅ |> in
    Ok (r <| r_head := seq |> <| r_last := seq |> <| r_logging := true |>).

Definition rebuildRecord (entries : list Entry) (retain_ : bool) (segments : list Entry)
    : outcome SessionRecord :=
  match entries with
  | first :: _ =>
    if negb (IsCheckpoint first)
    then Err (invalid_argument (plain_text "record: a log must start at a checkpoint"))
    else
      let? r := apply_segments segments (record_zero <| r_retainRead := retain_ |>) in
      let? r := apply_entries None entries r in
      finish_rebuild (default 0%N (en_Seq <$> last entries)) r
  | [] => Err (invalid_argument (plain_text "record: a log must start at a checkpoint"))
  end.

Definition fromEntries (entries : list Entry) : outcome SessionRecord := rebuildRecord entries true [].

Definition View (entries : list Entry) : outcome SessionRecord :=
  let? r := fromEntries entries in
  Ok (r <| r_logging := false |>).

Definition FromLoaded (loaded : Loaded) : outcome SessionRecord :=
  let? r := rebuildRecord (ld_Entries loaded) false (ld_Segments loaded) in
  let info := rh_Info (ld_Header loaded) in
  let r := r <| r_head := ld_Seq loaded |> <| r_last := ld_Seq loaded |> in
  let r := if (r_createdAt r =? 0)%Z then r <| r_createdAt := in_CreatedAt info |> else r in
  let r := if String.eqb (r_parentID r) "" then r <| r_parentID := in_ParentID info |> else r in
  let r := if String.eqb (r_epoch r) "" then r <| r_epoch := rh_Epoch (ld_Header loaded) |> else r in
  Ok (r <| r_logging := false |> <| r_retainRead := true |>).

(** ** What repair does, by reading once

    [repair_go] is the reference for [repair]: [calls] are the calls of the last Message that
    called Tools, and [answered] those that the results read since answer. *)
Definition missing_results (started : gset ToolCallID) (calls : list ToolCall)
    (answered : gset ToolCallID) : list Message :=
  (fun call => repairResult call (bool_decide (tc_ID call ∈ started))) <$> unanswered calls answered.

Definition answer_of (message : Message) : gset ToolCallID :=
  match m_ToolResult message with Some result => {[ tr_CallID result ]} | None => ∅ end.

(** The calls a Message leaves for the results after it: those of a reply. *)
Definition open_calls (message : Message) : list ToolCall :=
  if String.eqb (m_Role message) RoleAssistant then m_ToolCalls message else [].

Fixpoint repair_go (started : gset ToolCallID) (calls : list ToolCall) (answered : gset ToolCallID)
    (messages : list Message) : list Message :=
  match messages with
  | [] => missing_results started calls answered
  | message :: rest =>
    if String.eqb (m_Role message) RoleToolResult
    then message :: repair_go started calls (answered ∪ answer_of message) rest
    else missing_results started calls answered ++
         message :: repair_go started (open_calls message) ∅ rest
  end.

(** Every call of [calls], and of the Messages, is answered by a result right
    after it. *)
Fixpoint all_answered (calls : list ToolCall) (answered : gset ToolCallID) (messages : list Message) : Prop :=
  match messages with
  | [] => Forall (fun call => tc_ID call ∈ answered) calls
  | message :: rest =>
    if String.eqb (m_Role message) RoleToolResult
    then all_answered calls (answered ∪ answer_of message) rest
    else Forall (fun call => tc_ID call ∈ answered) calls /\
         all_answered (open_calls message) ∅ rest
  end.

(** ** Lemmas on repair *)

Lemma answered_by_cons message results :
  answered_by (message :: results) = answer_of message ∪ answered_by results.
Proof. unfold answered_by, answer_of. simpl. destruct (m_ToolResult message); simpl; set_solver. Qed.

Lemma calls_tools_role message : calls_tools message = true -> String.eqb (m_Role message) RoleToolResult = false.
Proof.
  unfold calls_tools. intros [H _]%andb_prop. apply String.eqb_eq in H. rewrite H. reflexivity.
Qed.

Lemma open_calls_tools message : open_calls message = if calls_tools message then m_ToolCalls message else [].
Proof. unfold open_calls, calls_tools. by destruct (String.eqb _ _), (m_ToolCalls message). Qed.

(** The results after a Message are copied, and the calls they leave are
    answered where they end. *)
Lemma repair_go_results started calls answered messages :
  repair_go started calls answered messages =
    results_run messages ++ missing_results started calls (answered ∪ answered_by (results_run messages)) ++
    repair_go started [] ∅ (drop (length (results_run messages)) messages).
Proof.
  revert answered. induction messages as [|message rest IH]; intros answered; simpl.
  - unfold answered_by. simpl. rewrite union_empty_r_L. by rewrite app_nil_r.
  - destruct (String.eqb (m_Role message) RoleToolResult) eqn:E; simpl.
    + rewrite IH, answered_by_cons. by rewrite union_assoc_L.
    + rewrite E. unfold answered_by. simpl. by rewrite union_empty_r_L.
Qed.

Lemma missing_results_nil started answered : missing_results started [] answered = [].
Proof. done. Qed.

Lemma results_run_app messages :
  results_run messages ++ drop (length (results_run messages)) messages = messages.
Proof.
  induction messages as [|message rest IH]; simpl; [done|].
  destruct (String.eqb _ _); simpl; [by rewrite IH|done].
Qed.

(** The loop with its lazy copy computes the reference. *)
Lemma repair_loop_go started fuel before rest out :
  (length rest < fuel)%nat ->
  default (before ++ rest) (repair_loop started fuel before rest out) =
    default before out ++ repair_go started [] ∅ rest.
Proof.
  revert before rest out. induction fuel as [|fuel IH]; intros before rest out Hf; [lia|].
  destruct rest as [|message tail]; simpl in *.
  { rewrite !app_nil_r. by destruct out. }
  destruct (calls_tools message) eqn:Ec; simpl.
  - rewrite open_calls_tools, Ec, (calls_tools_role _ Ec), repair_go_results, union_empty_l_L. simpl.
    set (results := results_run tail). set (missing := missing_results _ _ _).
    assert (Htail : (before ++ message :: results) ++ drop (length results) tail = before ++ message :: tail).
    { rewrite <-app_assoc. simpl. do 2 f_equal. apply results_run_app. }
    destruct (Nat.eqb (length _) 0 && bool_decide (out = None)) eqn:E.
    + apply andb_prop in E as [E1 ->%bool_decide_eq_true].
      assert (missing = []) as ->.
      { unfold missing, missing_results. apply Nat.eqb_eq, length_zero_iff_nil in E1. by rewrite E1. }
      change (before ++ message :: tail) with (before ++ [message] ++ tail). rewrite app_assoc, IH by lia. simpl.
      rewrite (repair_go_results _ [] ∅ tail), missing_results_nil, <-app_assoc. done.
    + rewrite <-Htail, IH by (rewrite length_drop; lia). simpl. unfold missing, missing_results.
      rewrite <-!app_assoc. simpl. by rewrite <-app_assoc.
  - rewrite open_calls_tools, Ec.
    change (before ++ message :: tail) with (before ++ [message] ++ tail). rewrite app_assoc, IH by lia.
    destruct (String.eqb (m_Role message) RoleToolResult), out; simpl; rewrite <-?app_assoc; simpl; try done.
    all: rewrite (repair_go_results _ [] (∅ ∪ answer_of message)), (repair_go_results _ [] ∅ tail); done.
Qed.

Lemma repair_reference messages started : repair messages started = repair_go started [] ∅ messages.
Proof. unfold repair. apply (repair_loop_go started _ [] messages None). lia. Qed.

(** The Messages are kept, in order. *)
Lemma repair_go_sublist started calls answered messages :
  messages `sublist_of` repair_go started calls answered messages.
Proof.
  revert calls answered. induction messages as [|message rest IH]; intros calls answered; simpl.
  - apply sublist_nil_l.
  - destruct (String.eqb _ _); [by apply sublist_skip|]. apply sublist_inserts_l. by apply sublist_skip.
Qed.

(** Results added for calls leave none of them open. *)
Lemma all_answered_missing started calls answered rest :
  all_answered calls (answered ∪ answered_by (missing_results started calls answered)) rest ->
  all_answered calls answered (missing_results started calls answered ++ rest).
Proof.
  enough (Hgen : forall missing a, all_answered calls (a ∪ answered_by
      ((fun call => repairResult call (bool_decide (tc_ID call ∈ started))) <$> missing)) rest ->
    all_answered calls a (((fun call => repairResult call (bool_decide (tc_ID call ∈ started))) <$> missing) ++ rest)) by exact (Hgen _ _).
  intros missing. induction missing as [|call missing IH]; intros a; simpl.
  - unfold answered_by. simpl. by rewrite union_empty_r_L.
  - rewrite answered_by_cons. unfold answer_of at 1. simpl. intros H. apply IH. by rewrite <-union_assoc_L.
Qed.

Lemma answered_by_missing started calls answered call :
  call ∈ calls -> tc_ID call ∈ answered ∪ answered_by (missing_results started calls answered).
Proof.
  intros Hc. destruct (decide (tc_ID call ∈ answered)) as [|Hn]; [set_solver|].
  apply elem_of_union_r. unfold answered_by, missing_results.
  apply elem_of_list_to_set, list_elem_of_omap.
  exists (repairResult call (bool_decide (tc_ID call ∈ started))). split; [|done].
  apply list_elem_of_fmap. exists call. split; [done|]. unfold unanswered. by apply list_elem_of_filter.
Qed.

Lemma repair_go_all_answered started calls answered messages :
  all_answered calls answered (repair_go started calls answered messages).
Proof.
  revert calls answered. induction messages as [|message rest IH]; intros calls answered; simpl.
  - rewrite <-(app_nil_r (missing_results _ _ _)). apply all_answered_missing. simpl.
    apply Forall_forall. intros call Hc%list_elem_of_In. by apply answered_by_missing.
  - destruct (String.eqb (m_Role message) RoleToolResult) eqn:E; simpl; [by rewrite E|].
    apply all_answered_missing. simpl. rewrite E. split; [|done].
    apply Forall_forall. intros call Hc%list_elem_of_In. by apply answered_by_missing.
Qed.

(** Nothing is added where every call is answered. *)
Lemma repair_go_complete started calls answered messages :
  all_answered calls answered messages -> repair_go started calls answered messages = messages.
Proof.
  assert (Hm : forall calls answered, Forall (fun call => tc_ID call ∈ answered) calls ->
    missing_results started calls answered = []).
  { intros cs a Hall. unfold missing_results, unanswered. rewrite filter_none; [done|].
    revert Hall. apply Forall_impl. auto. }
  revert calls answered. induction messages as [|message rest IH]; intros calls answered; simpl; [by apply Hm|].
  destruct (String.eqb _ _); [intros; by rewrite IH|]. intros [Hc Hr]. by rewrite Hm, IH.
Qed.

(** ** Properties of repair *)

(** after a repair every Tool call of every reply is answered by a result
    that follows the reply directly; the Messages of the log are all kept, in
    their order; and a history with no open call is not changed, so a repair of a
    repaired history adds nothing. *)
Theorem repair_answers_every_call (messages : list Message) (started : gset ToolCallID) :
  all_answered [] ∅ (repair messages started) /\
  messages `sublist_of` repair messages started /\
  (all_answered [] ∅ messages <-> repair messages started = messages) /\
  repair (repair messages started) started = repair messages started.
Proof.
  assert (Hall : all_answered [] ∅ (repair messages started)).
  { rewrite repair_reference. apply repair_go_all_answered. }
  split_and!.
  - done.
  - rewrite repair_reference. apply repair_go_sublist.
  - split; [|intros E; by rewrite <-E]. intros. rewrite repair_reference. by apply repair_go_complete.
  - rewrite (repair_reference (repair _ _)). by apply repair_go_complete.
Qed.
