(* ===== verification/Simulation.v ===== *)
(** * A Record and its log: the simulation

    [sim] relates a live Record to what reading its log so far gives; [tracks]
    says of an operation which Events it queues, and that reading them is as good as
    the operation.  One lemma for each operation that does not end in a
    Checkpoint. *)

From S2P Require Import Prelude GoStrings Errors Types Events Entry Store Record Rebuild.
Local Open Scope string_scope.
Local Open Scope list_scope.

(** ** Reading Events *)

(** One turn of the loop of [rebuildRecord], on the Entry of [event]. *)
Definition replay1 (r : SessionRecord) (event : Event) : SessionRecord :=
  (apply_numbered event (h_Time (Head event)) r) <| r_updatedAt := h_Time (Head event) |>.

Definition replay (events : list Event) (r : SessionRecord) : SessionRecord := fold_left replay1 events r.

(** An Event a store can hold. *)
Definition storable (event : Event) : bool := known event && is_ok (layerOf (Kind event)).

Lemma storable_eq event : storable event =
  match event with
  | ETextDelta _ | EReasoningDelta _ | EToolProgress _ | ESessionUnloaded _ | EEventsSkipped _
  | EUnknown _ => false
  | _ => true
  end.
Proof. destruct event; vm_compute; reflexivity. Qed.

Definition is_checkpoint (event : Event) : bool :=
  match event with ESessionCreated _ | ECompactionEnded _ => true | _ => false end.

(** The replies whose parts an Event leaves streaming. *)
Definition parts_after (parts : list replyPart) (event : Event) : list replyPart :=
  match event with
  | ESessionCreated _ | ECompactionEnded _ => []
  | EMessageCommitted _ | ENoticeCommitted _ | EReplyEnded _ | EReplyCutOff _ | EToolResultCommitted _ => []
  | EReplyPartKept e =>
    add_part (MkReplyPart (h_RunID (pk_Header e)) (pk_MessageID e) (pk_Text e) (pk_Reasoning e)) parts
  | ERunEnded e => filter (fun part => rp_RunID part <> h_RunID (re_Header e)) parts
  | _ => parts
  end.

(** A Message is committed only while no other reply is streaming text, and the result of a call
    only while a call has none. *)
Definition commit_allowed (parts : list replyPart) (messages : list Message) (event : Event) : Prop :=
  match messageOf event with
  | Some message =>
    cut_off_messages (m_ID message) parts = [] /\
    (m_Role message = RoleToolResult -> ~ all_answered [] ∅ messages)
  | None => True
  end.

(** ** A history that was opened

    A load answers the open calls, and nothing is written of the answers: what it loads is the log
    repaired, and what is committed from then on follows both. *)
Definition plain_start (l : list Message) : Prop :=
  match l with m :: _ => m_Role m <> RoleToolResult | [] => True end.

Definition mended (live log : list Message) : Prop :=
  exists old new started, live = repair old started ++ new /\ log = old ++ new /\ (plain_start new \/ old = []).

Lemma mended_refl l : mended l l.
Proof. exists [], l, ∅. split_and!; [done|done|by right]. Qed.

Lemma mended_repair log started : mended (repair log started) log.
Proof. exists log, [], started. rewrite !app_nil_r. split_and!; [done|done|by left]. Qed.

Lemma repair_all_answered l started : all_answered [] ∅ (repair l started).
Proof. rewrite repair_reference. apply repair_go_all_answered. Qed.

Lemma mended_snoc live log m :
  mended live log -> (m_Role m = RoleToolResult -> ~ all_answered [] ∅ live) -> mended (live ++ [m]) (log ++ [m]).
Proof.
  intros (old & new & started & -> & -> & Hs) Hm. exists old, (new ++ [m]), started. rewrite <- !app_assoc. split_and!; [done|done|].
  destruct Hs as [Hs|Hs]; [|by right]. left. destruct new as [|x new]; [|exact Hs]. cbn. intros Er. apply (Hm Er).
  rewrite app_nil_r. apply repair_all_answered.
Qed.

(** ** The simulation *)

(** The rendered Messages of the Segments the Context uses. *)
Definition prefix (r : SessionRecord) : list Message :=
  mjoin ((fun number => sg_Messages (closed_segment r number)) <$> r_used r).

Definition total_runs (r : SessionRecord) : Z := (r_baseRuns r + Z.of_nat (length (r_runs r)))%Z.

(** [r'] is what reading the log of [r] gives, before the Segments are
    resolved. *)
Record sim0 (parts : list replyPart) (r r' : SessionRecord) : Prop := {
  sim_id : r_id r' = r_id r;
  sim_messages : mended (r_messages r) (prefix r ++ r_messages r');
  sim_used : r_used r' = r_used r;
  sim_closed : r_closed r' = r_closed r;
  sim_metadata : r_metadata r' = r_metadata r;
  sim_compactions : r_compactions r' = r_compactions r;
  sim_loaded : r_loaded r' = r_loaded r;
  sim_claim : r_claim r' = r_claim r;
  sim_running : r_running r' = r_running r;
  sim_busy : r_busy r' = r_busy r;
  sim_notices : r_notices r' = r_notices r;
  sim_usage : r_usage r' = r_usage r;
  sim_lastRunEnd : r_lastRunEnd r' = r_lastRunEnd r;
  sim_runs : total_runs r' = total_runs r;
  sim_parts : r_openParts r' = parts;
}.

(** The Segments the Context uses are closed. *)
Definition holds_used (r : SessionRecord) : Prop :=
  Forall (fun number => is_Some (r_closed r !! number)) (r_used r).

Definition sim (parts : list replyPart) (r r' : SessionRecord) : Prop :=
  sim0 parts r r' /\ holds_used r.

(** What an operation that took [r] to [r2] queued. *)
Record queues (r r2 : SessionRecord) (events : list Event) : Prop := {
  t_pending : r_pending r2 = r_pending r ++ events;
  t_last : u64 (r_last r2) = u64 (r_last r + N.of_nat (length events));
  t_numbers : forall i event, events !! i = Some event ->
    h_Number (Head event) = u64 (r_last r + N.of_nat i + 1);
  t_storable : Forall (fun event => storable event = true) events;
  t_logging : r_logging r = true -> r_logging r2 = true;
  t_head : r_head r2 = r_head r;
  t_id : r_id r2 = r_id r;
  t_epoch : r_epoch r2 = r_epoch r;
}.

(** Reading what an operation queued is as good as the operation. *)
Definition tracks (parts : list replyPart) (r r2 : SessionRecord) (events : list Event) : Prop :=
  queues r r2 events /\
  forall r', sim parts r r' -> sim (fold_left parts_after events parts) r2 (replay events r').

(** What [sim] does not read: the window, the numbering and the log. *)
Definition erase (r : SessionRecord) : SessionRecord :=
  MkRecord (r_id r) (r_parentID r) (r_epoch r) (r_createdAt r) 0 (r_messages r)
    (r_runs r) [] 0 (r_usage r) (r_compactions r) (r_metadata r)
    (r_loaded r) (r_eventLimit r) (r_closed r) (r_used r) (r_maxSegment r) ∅
    (r_parentSeq r) 0 0 false [] "" (r_claim r)
    (r_running r) (r_busy r) (r_notices r) (r_queued r) (r_lastRunEnd r) (r_baseRuns r)
    (r_started r) (r_openParts r) false (MkSpillCache ∅ [] 0) (r_cutOff r).

(** ** Lemmas: what is not read *)

Lemma sim_erased parts r r' : sim parts r r' <-> sim parts (erase r) (erase r').
Proof. split; intros [[] ?]; (split; [split|]); assumption. Qed.

Lemma sim_erase parts r1 r2 r1' r2' :
  erase r1 = erase r2 -> erase r1' = erase r2' -> sim parts r1 r1' -> sim parts r2 r2'.
Proof. intros H H'. by rewrite (sim_erased _ r1), (sim_erased _ r2), H, H'. Qed.

Lemma retain_erase event r : erase (retain event r) = erase r.
Proof. unfold retain. by repeat case_match. Qed.

Lemma index_erase event at_ r : erase (indexMessage event at_ r) = erase r.
Proof. unfold indexMessage. by repeat case_match. Qed.

Lemma number_erase now event r : erase (fst (number now event r)) = erase r.
Proof.
  unfold number. cbv zeta. cbn [fst]. transitivity (erase (retain (WithoutBody
    (WithNumber event (u64_add (r_last r) 1))) (r <| r_last := u64_add (r_last r) 1 |>))).
  - by destruct (r_logging _).
  - by rewrite retain_erase.
Qed.

Lemma emit_erase now event r : erase (emit now event r) = erase r.
Proof. unfold emit. destruct (r_logging r); [apply number_erase|done]. Qed.

Lemma replay1_erase r event : erase (replay1 r event) = erase (apply_event event r).
Proof.
  unfold replay1, apply_numbered.
  change (erase (?x <| r_updatedAt := _ |>)) with (erase x).
  destruct (r_retainRead _); rewrite ?retain_erase; apply index_erase.
Qed.

(** ** Lemmas: the fields of the log *)

Lemma retain_log event r :
  r_pending (retain event r) = r_pending r /\ r_last (retain event r) = r_last r /\
  r_logging (retain event r) = r_logging r /\ r_head (retain event r) = r_head r /\
  r_id (retain event r) = r_id r /\ r_epoch (retain event r) = r_epoch r.
Proof. unfold retain. by repeat case_match. Qed.

Definition same_log (r r2 : SessionRecord) : Prop :=
  r_pending r2 = r_pending r /\ r_last r2 = r_last r /\ r_logging r2 = r_logging r /\
  r_head r2 = r_head r /\ r_id r2 = r_id r /\ r_epoch r2 = r_epoch r.

Lemma number_log now event r :
  r_logging r = true ->
  let r2 := fst (number now event r) in
  r_pending r2 = r_pending r ++ [WithNumber event (u64_add (r_last r) 1)] /\
  r_last r2 = u64_add (r_last r) 1 /\ r_logging r2 = true /\ r_head r2 = r_head r /\
  r_id r2 = r_id r /\ r_epoch r2 = r_epoch r.
Proof.
  intros Hl. unfold number. cbv zeta. cbn [fst].
  destruct (retain_log (WithoutBody (WithNumber event (u64_add (r_last r) 1)))
    (r <| r_last := u64_add (r_last r) 1 |>)) as (Hp & Hn & Hlog & Hh & Hi & He).
  set (r1 := retain _ _) in *. cbn in Hp, Hn, Hlog, Hh, Hi, He.
  rewrite Hlog, Hl. cbn. rewrite Hp. split_and!; congruence.
Qed.

Lemma storable_number event n : storable (WithNumber event n) = storable event.
Proof. unfold storable. rewrite Kind_WithNumber. by destruct event. Qed.

(** ** Lemmas: composing *)

Lemma queues_refl r : queues r r [].
Proof.
  split; simpl; try done.
  - by rewrite app_nil_r.
  - by rewrite N.add_0_r.
Qed.

Lemma queues_trans r r2 r3 events events' :
  queues r r2 events -> queues r2 r3 events' -> queues r r3 (events ++ events').
Proof.
  intros [p1 l1 n1 s1 g1 h1 i1 e1] [p2 l2 n2 s2 g2 h2 i2 e2]. split.
  - by rewrite p2, p1, app_assoc.
  - rewrite l2, <-u64_add_l, l1, u64_add_l, length_app. f_equal. lia.
  - intros i event Hi. apply lookup_app_Some in Hi as [Hi|[Hge Hi]]; [by apply n1|].
    rewrite (n2 _ _ Hi), <-N.add_assoc, <-u64_add_l, l1, u64_add_l. f_equal. lia.
  - by apply Forall_app.
  - auto.
  - congruence.
  - congruence.
  - congruence.
Qed.

Lemma tracks_refl parts r : tracks parts r r [].
Proof. split; [apply queues_refl|done]. Qed.

Lemma tracks_trans parts r r2 r3 events events' :
  tracks parts r r2 events -> tracks (fold_left parts_after events parts) r2 r3 events' ->
  tracks parts r r3 (events ++ events').
Proof.
  intros [Q1 m1] [Q2 m2]. split; [by eapply queues_trans|].
  intros r' Hr'. unfold replay. rewrite !fold_left_app. by apply m2, m1.
Qed.

(** Numbering one Event. *)
Lemma queues_number r r1 r2 now event :
  r_logging r = true -> same_log r r1 -> storable event = true ->
  same_log (fst (number now event r1)) r2 ->
  queues r r2 [WithNumber event (u64_add (r_last r) 1)].
Proof.
  intros Hl (Hp & Hn & Hlog & Hh & Hi & He) Hs (Hp2 & Hn2 & Hlog2 & Hh2 & Hi2 & He2).
  destruct (number_log now event r1) as (p & n & g & h & i & e); [congruence|].
  split.
  - by rewrite Hp2, p, Hp, Hn.
  - rewrite Hn2, n, Hn. simpl. unfold u64_add. apply u64_idem.
  - intros [|j] ev; [|done]. intros [= <-]. rewrite Number_WithNumber, N.add_0_r. done.
  - constructor; [by rewrite storable_number|done].
  - congruence.
  - congruence.
  - congruence.
  - congruence.
Qed.

(** An operation that numbers one Event. *)
Lemma tracks_queued parts r r1 r2 now event :
  r_logging r = true -> same_log r r1 -> storable event = true ->
  same_log (fst (number now event r1)) r2 ->
  (forall r', sim parts r r' ->
    sim (parts_after parts event) r2 (apply_event (WithNumber event (u64_add (r_last r) 1)) r')) ->
  tracks parts r r2 [WithNumber event (u64_add (r_last r) 1)].
Proof.
  intros Hl Hr Hs Hr2 Hsim. split; [by eapply queues_number|].
  intros r' Hr'. simpl. eapply sim_erase; [reflexivity|symmetry; apply replay1_erase|].
  replace (parts_after parts (WithNumber event (u64_add (r_last r) 1))) with (parts_after parts event)
    by (by destruct event).
  by apply Hsim.
Qed.

(** A change of the state, and the one Event that says it. *)
Lemma tracks_emit parts r r1 now event :
  r_logging r = true -> same_log r r1 -> storable event = true ->
  (forall n r', sim parts r r' ->
    sim (parts_after parts event) r1 (apply_event (WithNumber event n) r')) ->
  exists event', tracks parts r (emit now event r1) [event'] /\ exists n, event' = WithNumber event n.
Proof.
  intros Hl Hr Hs Hsim. eexists. split; [|by eexists].
  assert (emit now event r1 = fst (number now event r1)) as ->.
  { unfold emit. destruct Hr as (_ & _ & Hlog & _). by rewrite Hlog, Hl. }
  apply (tracks_queued _ _ r1 _ now); [done..|]. intros r' Hr'.
  eapply sim_erase; [symmetry; apply number_erase|reflexivity|]. by apply Hsim.
Qed.

(** ** Lemmas: each operation *)

Ltac solve_sim :=
  intros n r' [[] Hused]; (split; [split|]); cbn; try assumption; try congruence.

Lemma tracks_SetMetadata parts now key value r :
  r_logging r = true ->
  exists events, tracks parts r (SetMetadata now key value r) events /\
    Forall (fun event => is_checkpoint event = false) events /\ fold_left parts_after events parts = parts.
Proof.
  intros Hl. unfold SetMetadata. destruct (_ && _); [by exists []; split_and!; [apply tracks_refl|..]|].
  edestruct (tracks_emit parts r) as (event & Ht & n & ->); [exact Hl| | | |eexists; split_and!; [exact Ht|..]].
  - by destruct (String.eqb value "").
  - done.
  - destruct (String.eqb value "") eqn:E; solve_sim; rewrite E; cbn; try assumption; by f_equal.
  - by repeat constructor.
  - done.
Qed.

Lemma tracks_Release parts now r :
  r_logging r = true ->
  exists events, tracks parts r (Release now r) events /\
    Forall (fun event => is_checkpoint event = false) events /\ fold_left parts_after events parts = parts.
Proof.
  intros Hl. unfold Release. destruct (r_busy r); [|by exists []; split_and!; [apply tracks_refl|..]].
  edestruct (tracks_emit parts r) as (event & Ht & n & ->); [exact Hl| | | |eexists; split_and!; [exact Ht|..]].
  - done.
  - done.
  - solve_sim.
  - by repeat constructor.
  - done.
Qed.

(** [claimFor], of a Record that is busy from it on. *)
Lemma tracks_claimFor parts now instance why r :
  r_logging r = true ->
  exists events, tracks parts r (claimFor now instance why (r <| r_busy := true |>)) events /\
    Forall (fun event => is_checkpoint event = false) events /\ fold_left parts_after events parts = parts.
Proof.
  intros Hl. unfold claimFor.
  edestruct (tracks_emit parts r) as (event & Ht & n & ->); [exact Hl| | | |eexists; split_and!; [exact Ht|..]].
  - cbn. by destruct (_ || _).
  - done.
  - cbn. destruct (negb _ || _) eqn:E; solve_sim.
    apply orb_false_iff in E as [E _]. apply negb_false_iff, String.eqb_eq in E. rewrite <-E.
    by destruct (r_claim r).
  - by repeat constructor.
  - done.
Qed.

(** ** Lemmas: what a Session writes *)

(** The Events that a live Session writes, and no others. *)
Definition session_event (event : Event) : bool :=
  storable event &&
  match event with
  | ESessionCreated _ | ECompactionEnded _ | ESegmentClosed _ | EMetadataChanged _
  | ESessionClaimed _ | ESessionReleased _ => false
  | _ => true
  end.

Definition append_message (now : gotime) (r : SessionRecord) (event : Event) : SessionRecord :=
  match messageOf event with Some message => AppendMessage now message r | None => r end.

Lemma total_runs_endRun run r : total_runs (endRun run r) = total_runs r.
Proof.
  unfold endRun, total_runs. cbv zeta.
  destruct (last_run (ri_RunID run) 0 (r_runs r)) as [[i old]|]; cbn;
    repeat case_match; cbn; rewrite ?length_insert, ?length_app; cbn; lia.
Qed.

(** What [endRun] leaves in each field [sim] reads. *)
Lemma endRun_fields run r :
  let r2 := endRun run r in
  r_running r2 = (if String.eqb (r_running r) (ri_RunID run) then "" else r_running r) /\
  r_lastRunEnd r2 =
    (if (r_lastRunEnd r <? ri_EndedAt run)%Z then ri_EndedAt run else r_lastRunEnd r) /\
  r_usage r2 = addUsage (r_usage r) (ri_Usage run) /\
  r_id r2 = r_id r /\ r_messages r2 = r_messages r /\ r_used r2 = r_used r /\
  r_closed r2 = r_closed r /\ r_metadata r2 = r_metadata r /\ r_compactions r2 = r_compactions r /\
  r_loaded r2 = r_loaded r /\ r_claim r2 = r_claim r /\ r_busy r2 = r_busy r /\
  r_notices r2 = r_notices r /\ r_openParts r2 = r_openParts r.
Proof.
  unfold endRun. cbv zeta. destruct (last_run _ _ _) as [[i old]|]; cbn;
    destruct (String.eqb (r_running r) (ri_RunID run)); cbn;
    destruct (r_lastRunEnd r <? ri_EndedAt run)%Z; done.
Qed.

(** Rewrites with what is known of the fields of [r]. *)
Ltac rewrite_fields r :=
  repeat match goal with H : _ r = _ |- context [_ r] => rewrite H end.

Lemma endRun_sim parts run r r' : sim parts r r' -> sim parts (endRun run r) (endRun run r').
Proof.
  intros [[] Hused]. pose proof (total_runs_endRun run r) as T. pose proof (total_runs_endRun run r') as T'.
  pose proof (endRun_fields run r) as F. pose proof (endRun_fields run r') as F'. cbv zeta in F, F'.
  set (r2 := endRun run r) in *. set (r2' := endRun run r') in *. clearbody r2 r2'. destruct_and!.
  split; [split|]; unfold prefix, closed_segment, holds_used in *.
  all: rewrite_fields r2'; rewrite_fields r2; rewrite_fields r'; done.
Qed.

Lemma addMessage_sim parts now message r r' :
  cut_off_messages (m_ID message) parts = [] -> (m_Role message = RoleToolResult -> ~ all_answered [] ∅ (r_messages r)) ->
  sim parts r r' -> sim [] (AppendMessage now message r) (addMessage message r').
Proof.
  intros Hp Hm [[] Hused]. split; [split|]; try assumption; [|done].
  cbn. rewrite sim_parts0, Hp, app_nil_r. change (prefix (AppendMessage now message r)) with (prefix r).
  rewrite app_assoc. by apply mended_snoc.
Qed.

Lemma foldQueued_sim parts event r r' : sim parts r r' -> sim parts r (foldQueued event r').
Proof. intros [[] Hused]. destruct event; (split; [split|]); assumption. Qed.

Lemma foldNotice_sim parts event r r' :
  sim parts r r' -> sim parts (foldNotice event r) (foldNotice event r').
Proof.
  intros [[] Hused]. destruct event; try ((split; [split|]); assumption); cbn.
  - destruct (String.eqb _ _); (split; [split|]); cbn; try assumption. by f_equal.
  - destruct (negb _); (split; [split|]); cbn; try assumption. by f_equal.
  - (split; [split|]); cbn; try assumption. by f_equal.
Qed.

Lemma load_sim parts id r r' : sim parts r r' -> sim parts (load id r) (load id r').
Proof.
  intros [[] Hused]. unfold load. rewrite sim_loaded0.
  destruct (bool_decide _); (split; [split|]); cbn; try assumption. by f_equal.
Qed.

Lemma unload_sim parts id r r' : sim parts r r' -> sim parts (unload id r) (unload id r').
Proof. intros [[] Hused]. (split; [split|]); cbn; try assumption. by f_equal. Qed.

Lemma dropParts_sim parts id r r' :
  sim parts r r' -> sim (filter (fun part => rp_RunID part <> id) parts) r (dropParts id r').
Proof. intros [[] Hused]. (split; [split|]); cbn; try assumption. by f_equal. Qed.

(** What the live Record makes of an Event and the Message it appended for it,
    and what reading the Event makes of it. *)
Lemma session_sim parts now event r r' :
  session_event event = true -> commit_allowed parts (r_messages r) event -> sim parts r r' ->
  sim (parts_after parts event) (foldLive event (append_message now r event)) (apply_event event r').
Proof.
  unfold session_event. rewrite storable_eq. intros Hs Hp Hsim. destruct event; try discriminate Hs; clear Hs;
    unfold append_message; cbn [parts_after foldLive messageOf apply_event]; try exact Hsim.
  - destruct Hsim as [[] Hused]. (split; [split|]); cbn; try assumption; try done.
    unfold total_runs in *. cbn. rewrite !length_app. cbn. lia.
  - apply dropParts_sim, endRun_sim, Hsim.
  - destruct Hp; by apply (addMessage_sim parts).
  - destruct Hp; by apply (addMessage_sim parts).
  - destruct Hsim as [[] Hused]. (split; [split|]); cbn; try assumption. by f_equal.
  - destruct Hsim as [[] Hused]. (split; [split|]); cbn; assumption.
  - destruct Hp; by apply (addMessage_sim parts).
  - by apply load_sim.
  - by apply unload_sim.
  - by apply (foldQueued_sim _ (EMessageQueued e)).
  - apply (foldQueued_sim _ (EMessageCommitted e)). destruct Hp; by apply (addMessage_sim parts).
  - apply (foldQueued_sim _ (EMessageDropped e)). by apply (foldNotice_sim _ (EMessageDropped e)).
  - apply (foldQueued_sim _ (ENoticeQueued e)). by apply (foldNotice_sim _ (ENoticeQueued e)).
  - apply (foldNotice_sim _ (ENoticeCommitted e)). destruct Hp; by apply (addMessage_sim parts).
Qed.
