(* ===== verification/Recovery.v ===== *)
(** * A Record and its log: recovery

    What a load rebuilds is what the writer had.  [Session] is everything a
    Session does to a Record it started to write, its flushes included, and the
    theorems say what [FromLoaded] makes of the store's log at any point. *)

From S2P Require Import Prelude GoStrings Errors Types Events Entry Store Record Rebuild Simulation.
Local Open Scope string_scope.
Local Open Scope list_scope.

(** ** Lemmas: what a Session writes *)

Lemma foldLive_erase event r r2 : erase r = erase r2 -> erase (foldLive event r) = erase (foldLive event r2).
Proof.
  assert (forall r, erase (foldLive event r) = erase (foldLive event (erase r))) as Hr.
  { clear. intros r. destruct event; try done; cbn.
    - unfold endRun. cbv zeta. cbn. destruct (last_run _ _ _) as [[i old]|]; cbn;
        destruct (String.eqb _ _); cbn; destruct (_ <? _)%Z; done.
    - unfold load. cbn. by destruct (bool_decide _).
    - by destruct (String.eqb _ _).
    - by destruct (negb _). }
  intros E. by rewrite Hr, E, <-Hr.
Qed.

Lemma foldLive_log event r : same_log r (foldLive event r).
Proof.
  unfold same_log. destruct event; try done; cbn.
  - unfold endRun. cbv zeta. destruct (last_run _ _ _) as [[i old]|]; cbn;
      destruct (String.eqb _ _); cbn; destruct (_ <? _)%Z; done.
  - unfold load. by destruct (bool_decide _).
  - by destruct (String.eqb _ _).
  - by destruct (negb _).
Qed.

Lemma keepSpilled_erase event r : erase (keepSpilled event r) = erase r.
Proof. by destruct event. Qed.

Lemma keepSpilled_log event r : same_log r (keepSpilled event r).
Proof. by destruct event. Qed.

Lemma index_log event at_ r : same_log r (indexMessage event at_ r).
Proof. unfold indexMessage. by repeat case_match. Qed.

Lemma same_log_trans r r2 r3 : same_log r r2 -> same_log r2 r3 -> same_log r r3.
Proof. unfold same_log. intuition congruence. Qed.

Lemma append_message_log now r event : same_log r (append_message now r event).
Proof. unfold append_message. by destruct (messageOf event). Qed.

Lemma session_event_WithSession event id : session_event (WithSession event id) = session_event event.
Proof. unfold WithSession. destruct (_ || _); [done|]. by destruct event. Qed.

Lemma commit_allowed_WithSession parts messages event id :
  commit_allowed parts messages (WithSession event id) = commit_allowed parts messages event.
Proof. unfold WithSession. destruct (_ || _); [done|]. by destruct event. Qed.

Lemma parts_after_WithSession parts event id : parts_after parts (WithSession event id) = parts_after parts event.
Proof. unfold WithSession. destruct (_ || _); [done|]. by destruct event. Qed.

Lemma append_message_header now r event edit :
  append_message now r (withHeader event edit) = append_message now r event.
Proof. by destruct event. Qed.

Lemma append_message_WithSession now r event id :
  append_message now r (WithSession event id) = append_message now r event.
Proof. unfold WithSession. destruct (_ || _); [done|]. apply append_message_header. Qed.

(** A commit: the Session appends the Message an Event carries, if any, and
    writes the Event. *)
Definition commit (now : gotime) (r : SessionRecord) (event : Event) : SessionRecord :=
  fst (write_one now (append_message now r event) event).

Lemma tracks_commit parts now event r :
  r_logging r = true -> session_event event = true -> commit_allowed parts (r_messages r) event ->
  exists event', tracks parts r (commit now r event) [event'] /\
    is_checkpoint event' = false /\ parts_after parts event' = parts_after parts event.
Proof.
  intros Hl Hs Hp. unfold commit, write_one.
  set (r1 := append_message now r event).
  assert (Hr1 : same_log r r1) by apply append_message_log.
  assert (r_id r1 = r_id r) as Hid by apply Hr1. rewrite Hid.
  set (ev := WithSession event (r_id r)).
  destruct (number now ev r1) as [rn out] eqn:En. cbv zeta. cbn [fst].
  assert (rn = fst (number now ev r1)) as Ern by (by rewrite En).
  assert (out = WithNumber ev (u64_add (r_last r) 1)) as Eout.
  { assert (r_last r1 = r_last r) as <- by apply Hr1. unfold number in En. by injection En. }
  exists out. split; [|split].
  - rewrite Eout. apply (tracks_queued _ _ r1 _ now ev); [done|done| | |].
    + unfold ev. rewrite <-(session_event_WithSession event (r_id r)) in Hs. by apply andb_prop in Hs as [? _].
    + rewrite <-Ern, <-Eout. eapply same_log_trans; [apply keepSpilled_log|].
      eapply same_log_trans; [apply foldLive_log|]. apply index_log.
    + intros r' Hr'. rewrite <-Eout.
      replace (parts_after parts ev) with (parts_after parts out)
        by (rewrite Eout; unfold ev; by destruct (WithSession event (r_id r))).
      eapply sim_erase; [|reflexivity|
        apply (session_sim parts now out r r'); [| |done]].
      * rewrite index_erase. apply foldLive_erase. rewrite keepSpilled_erase, Ern, number_erase.
        unfold r1. rewrite Eout. unfold WithNumber. rewrite append_message_header.
        unfold ev. by rewrite append_message_WithSession.
      * rewrite Eout. unfold ev. rewrite <-(session_event_WithSession event (r_id r)) in Hs.
        rewrite <-Hs. by destruct (WithSession event (r_id r)).
      * rewrite Eout. rewrite <-(commit_allowed_WithSession parts (r_messages r) event (r_id r)) in Hp. unfold ev.
        by destruct (WithSession event (r_id r)).
  - rewrite Eout. unfold ev. rewrite <-(session_event_WithSession event (r_id r)) in Hs.
    destruct (WithSession event (r_id r)); try done; discriminate Hs.
  - rewrite Eout, <-(parts_after_WithSession parts event (r_id r)). unfold ev.
    by destruct (WithSession event (r_id r)).
Qed.

(** ** A batch of Events

    The Messages of a step are appended first, and its Events written in one
    [Write]; that is the same as one commit after the other. *)

Lemma retain_append now message event r :
  retain event (AppendMessage now message r) = AppendMessage now message (retain event r).
Proof. unfold retain. repeat case_match; try done; simplify_eq/=; congruence. Qed.

Lemma number_append now message event r :
  number now event (AppendMessage now message r) =
    (AppendMessage now message (fst (number now event r)), snd (number now event r)).
Proof.
  unfold number. cbv zeta. cbn [fst snd].
  change (r_last (AppendMessage now message r)) with (r_last r).
  change ((AppendMessage now message r) <| r_last := ?n |>) with (AppendMessage now message (r <| r_last := n |>)).
  rewrite retain_append. f_equal. set (r1 := retain _ _).
  change (r_logging _) with (r_logging r1) at 1. by destruct (r_logging r1).
Qed.

Lemma keepSpilled_append now message event r :
  keepSpilled event (AppendMessage now message r) = AppendMessage now message (keepSpilled event r).
Proof. by destruct event. Qed.

Lemma foldLive_append now message event r :
  foldLive event (AppendMessage now message r) = AppendMessage now message (foldLive event r).
Proof.
  destruct event; try done; cbn.
  - unfold endRun. cbv zeta. cbn. destruct (last_run _ _ _) as [[i old]|]; cbn;
      destruct (String.eqb _ _); cbn; destruct (_ <? _)%Z; done.
  - unfold load. cbn. by destruct (bool_decide _).
  - by destruct (String.eqb _ _).
  - by destruct (negb _).
Qed.

Lemma index_append now message event at_ r :
  indexMessage event at_ (AppendMessage now message r) = AppendMessage now message (indexMessage event at_ r).
Proof. unfold indexMessage. by repeat case_match. Qed.

Lemma write_one_append now message event r :
  write_one now (AppendMessage now message r) event =
    (AppendMessage now message (fst (write_one now r event)), snd (write_one now r event)).
Proof.
  unfold write_one. change (r_id (AppendMessage now message r)) with (r_id r).
  rewrite number_append. destruct (number now _ r) as [rn out]. cbn [fst snd].
  by rewrite keepSpilled_append, foldLive_append, index_append.
Qed.

Lemma write_one_append_message now event event' r :
  write_one now (append_message now r event') event =
    (append_message now (fst (write_one now r event)) event', snd (write_one now r event)).
Proof.
  unfold append_message. destruct (messageOf event'); [apply write_one_append|by destruct (write_one now r event)].
Qed.

Lemma write_one_append_messages now events event r :
  write_one now (fold_left (append_message now) events r) event =
    (fold_left (append_message now) events (fst (write_one now r event)), snd (write_one now r event)).
Proof.
  revert r. induction events as [|event' events IH]; intros r; cbn [fold_left]; [by destruct (write_one now r event)|].
  by rewrite IH, write_one_append_message.
Qed.

Lemma Write_commits now events r :
  fst (Write now events (fold_left (append_message now) events r)) = fold_left (commit now) events r.
Proof.
  revert r. induction events as [|event events IH]; intros r; cbn [fold_left Write]; [done|].
  rewrite write_one_append_messages. cbn [fst snd]. fold (commit now r event).
  rewrite <-IH. by destruct (Write now events _).
Qed.

(** ** Checkpoints

    An Event that holds the whole state: reading it from any state that has
    the Record's closed Segments gives what the Record is. *)
Definition resets (r : SessionRecord) (event : Event) : Prop :=
  is_checkpoint event = true /\
  forall r', (r_id r' = "" \/ r_id r' = r_id r) -> r_closed r' = r_closed r -> sim [] r (replay1 r' event).

Lemma tracks_checkpoint parts now why tail compaction r r1 :
  r_logging r = true -> same_log r r1 -> r_closed r1 = r_closed r ->
  cl_Instance (r_claim r1) <> "" -> r_busy r1 = true -> holds_used r1 ->
  r_messages r1 = prefix r1 ++ tail ->
  exists event, tracks parts r (checkpointLocked now why tail compaction r1) [event] /\
    resets (checkpointLocked now why tail compaction r1) event.
Proof.
  intros Hl Hlog Hc Hi Hb Hu Hm. unfold checkpointLocked.
  match goal with |- context [emit now ?e ?r3] => set (ev := e); set (r2 := r3) end.
  assert (Hlog2 : same_log r r2) by (unfold r2; destruct compaction; exact Hlog).
  assert (Hsim : forall n r', (r_id r' = "" \/ r_id r' = r_id r1) -> r_closed r' = r_closed r1 ->
    sim [] r2 (apply_event (WithNumber ev n) r')).
  { intros n r' Hid Hcl. unfold ev, r2. cbn [WithNumber withHeader apply_event].
    destruct (String.eqb_spec (r_id r') "") as [E0|E0];
      destruct compaction; cbn; rewrite (proj2 (String.eqb_neq _ _) Hi); cbn;
      (split; [split|]); cbn; try done; try congruence.
    all: try (destruct Hid; congruence).
    all: try (rewrite Hm; apply mended_refl).
    all: try (by destruct (r_claim r1)).
    all: try (unfold total_runs; cbn; lia). }
  assert (Hid : r_id r1 = r_id r) by apply Hlog.
  assert (Hem : emit now ev r2 = fst (number now ev r2)).
  { unfold emit. destruct Hlog2 as (_ & _ & El & _). by rewrite El, Hl. }
  assert (Hid2 : r_id r2 = r_id r) by apply Hlog2.
  exists (WithNumber ev (u64_add (r_last r) 1)). rewrite Hem. split.
  - apply (tracks_queued _ _ r2 _ now ev); [done|done|done|done|].
    intros r' [[] ?]. eapply sim_erase; [symmetry; apply number_erase|reflexivity|].
    apply Hsim; [right|]; congruence.
  - split; [done|]. intros r' Hr' Hcl.
    eapply sim_erase; [symmetry; apply number_erase|symmetry; apply replay1_erase|].
    destruct (number_log now ev r2) as (_ & _ & _ & _ & Eid & _); [by destruct Hlog2 as (_ & _ & -> & _)|].
    apply Hsim.
    + destruct Hr'; [by left|right; congruence].
    + rewrite Hcl. pose proof (number_erase now ev r2) as E. apply (f_equal r_closed) in E.
      change (r_closed (fst (number now ev r2)) = r_closed r2) in E. rewrite E.
      unfold r2. by destruct compaction.
Qed.

Lemma emit_fields now event r :
  erase (emit now event r) = erase r.
Proof. apply emit_erase. Qed.

Lemma tracks_closeSegment parts now segment r r2 closed :
  r_logging r = true -> closeSegmentLocked now segment r = (r2, Ok closed) ->
  exists event, tracks parts r r2 [event] /\ is_checkpoint event = false /\
    (forall ps, parts_after ps event = ps) /\
    r_closed r !! sg_Number closed = None /\ erase r2 = erase (closeLocked closed r).
Proof.
  intros Hl. unfold closeSegmentLocked.
  set (seg := if (sg_Number segment =? 0)%Z then _ else _).
  destruct (bool_decide (is_Some (r_closed r !! sg_Number seg)) || _) eqn:E; [done|].
  apply orb_false_iff in E as [E _]. apply bool_decide_eq_false in E. rewrite <-eq_None_not_Some in E.
  set (seg' := seg <| sg_Rendered := _ |>). intros [= <- <-].
  destruct (tracks_emit parts r (touch now (closeLocked seg' r)) now
    (ESegmentClosed (MkSegmentClosed (header now (touch now (closeLocked seg' r))) seg')))
    as (event & Ht & n & ->); [done..| |].
  { intros n r' [[] Hu]. split; [split|]; cbn; try assumption; try congruence.
    - match goal with |- mended _ (?p ++ _) => assert (p = prefix r) as -> end; [|exact sim_messages].
      symmetry. unfold prefix. cbn. f_equal. apply list_fmap_ext.
      intros i number Hi. unfold closed_segment. cbn. rewrite lookup_insert_ne; [done|].
      intros <-. eapply Forall_lookup_1 in Hu; [|exact Hi]. unfold seg' in Hu. cbn in Hu. rewrite E in Hu. by destruct Hu.
    - unfold holds_used in *. cbn. eapply Forall_impl; [|exact Hu]. intros number [s Hs].
      destruct (decide (sg_Number seg' = number)) as [<-|]; [rewrite lookup_insert_eq|rewrite lookup_insert_ne by done]; eauto. }
  eexists. split_and!; [exact Ht|done|done|exact E|].
  rewrite emit_erase. done.
Qed.

Lemma check_numbers_closed lookup first i previous numbers :
  check_numbers lookup first i previous numbers = None -> Forall (fun n => is_Some (lookup n)) numbers.
Proof.
  revert i previous. induction numbers as [|n numbers IH]; intros i previous; [by constructor|].
  simpl. destruct (lookup n) as [s|] eqn:E; [|done]. intros H.
  constructor; [by eexists|]. repeat case_match; try done; by eapply IH.
Qed.

Lemma checkNumbers_closed numbers r :
  checkNumbersLocked numbers None r = None -> Forall (fun n => is_Some (r_closed r !! n)) numbers.
Proof. apply check_numbers_closed. Qed.

(** The Messages [checkpointSegmentsLocked] sets are the Segments' and the
    tail. *)
Lemma tracks_checkpointSegments parts now why numbers tail compaction r r1 r2 :
  r_logging r = true -> same_log r r1 -> r_closed r1 = r_closed r ->
  cl_Instance (r_claim r1) <> "" -> r_busy r1 = true ->
  checkpointSegmentsLocked now why numbers tail compaction r1 = (r2, None) ->
  exists event, tracks parts r r2 [event] /\ resets r2 event.
Proof.
  intros Hl Hlog Hc Hi Hb. unfold checkpointSegmentsLocked.
  destruct (checkNumbersLocked numbers None r1) eqn:En; [done|]. intros [= <-].
  apply tracks_checkpoint; try done. by apply checkNumbers_closed.
Qed.

Lemma closeLocked_fields segment r r2 :
  erase r2 = erase (closeLocked segment r) -> r_claim r2 = r_claim r /\ r_busy r2 = r_busy r.
Proof. intros E. split; [apply (f_equal r_claim) in E|apply (f_equal r_busy) in E]; exact E. Qed.

(** Closing a Segment and listing it is one step of the log. *)
Lemma tracks_close_then_checkpoint parts now why numbers tail compaction loaded segment r r2 closed :
  r_logging r = true -> cl_Instance (r_claim r) <> "" -> r_busy r = true ->
  (forall x, same_log x (loaded x) /\ r_closed (loaded x) = r_closed x /\
     r_claim (loaded x) = r_claim x /\ r_busy (loaded x) = r_busy x) ->
  close_then_checkpoint now why numbers tail compaction loaded (closeSegmentLocked now segment r) =
    (r2, Ok closed) ->
  exists event event', tracks parts r r2 [event; event'] /\ is_checkpoint event = false /\ resets r2 event'.
Proof.
  intros Hl Hi Hb Hload. unfold close_then_checkpoint.
  destruct (closeSegmentLocked now segment r) as [ra [c|err]] eqn:Ec; [|done].
  destruct (checkpointSegmentsLocked now why numbers tail compaction (loaded ra)) as [rb [err|]] eqn:Ek; [done|].
  intros [= <- <-].
  destruct (tracks_closeSegment parts _ _ _ _ _ Hl Ec) as (event & Ht & Hnc & Hp & _ & He).
  destruct (closeLocked_fields _ _ _ He) as [Hclaim Hbusy].
  destruct (Hload ra) as (L1 & L2 & L3 & L4).
  destruct (tracks_checkpointSegments parts now why numbers tail compaction ra (loaded ra) rb)
    as (event' & Ht' & Hr); [by apply Ht|done|done|congruence|congruence|done|].
  exists event, event'. split_and!; [|done|done].
  apply (tracks_trans _ _ _ _ [event] [event'] Ht). simpl. by rewrite Hp.
Qed.

Lemma tracks_CloseSegment parts now why segment tail compaction r r2 closed :
  r_logging r = true -> cl_Instance (r_claim r) <> "" -> r_busy r = true ->
  CloseSegment now why segment tail compaction r = (r2, Ok closed) ->
  exists event event', tracks parts r r2 [event; event'] /\ is_checkpoint event = false /\ resets r2 event'.
Proof.
  intros Hl Hi Hb. unfold CloseSegment. cbv zeta.
  destruct (_ || _); [by intros [=]|]. destruct (bool_decide _); [by intros [=]|].
  destruct (checkNumbersLocked _ _ r); [by intros [=]|].
  apply tracks_close_then_checkpoint; try done. intros x. by destruct compaction.
Qed.

Lemma tracks_MergeSegments parts now why merged replaces tail compaction r r2 closed :
  r_logging r = true -> cl_Instance (r_claim r) <> "" -> r_busy r = true ->
  MergeSegments now why merged replaces tail compaction r = (r2, Ok closed) ->
  exists event event', tracks parts r r2 [event; event'] /\ is_checkpoint event = false /\ resets r2 event'.
Proof.
  intros Hl Hi Hb. unfold MergeSegments. cbv zeta.
  destruct (_ || _); [by intros [=]|]. destruct (_ || _); [by intros [=]|].
  destruct (_ || _); [by intros [=]|]. destruct (checkNumbersLocked _ _ r); [by intros [=]|].
  by apply tracks_close_then_checkpoint.
Qed.

(** ** What a failed close leaves *)

Lemma check_numbers_ext lookup lookup' first first' i previous numbers :
  (forall n, sg_Merged <$> lookup n = sg_Merged <$> lookup' n) -> sg_Merged first = sg_Merged first' ->
  check_numbers lookup first i previous numbers = check_numbers lookup' first' i previous numbers.
Proof.
  intros Hl Hf. revert i previous. induction numbers as [|n numbers IH]; intros i previous; [done|].
  simpl. specialize (Hl n) as Hn. destruct (lookup n) as [s|], (lookup' n) as [s'|]; simplify_eq/=; [|done].
  assert (bool_decide (sg_Merged s <> []) = bool_decide (sg_Merged s' <> [])) as -> by (by rewrite Hn).
  assert (bool_decide (sg_Merged first <> []) = bool_decide (sg_Merged first' <> [])) as -> by (by rewrite Hf).
  rewrite !IH. done.
Qed.

(** The check made for a pending Segment holds once it is closed. *)
Lemma checkNumbers_pending numbers pending segment r r2 :
  sg_Number pending = sg_Number segment -> sg_Merged pending = sg_Merged segment ->
  r_closed r2 = <[sg_Number segment := segment]> (r_closed r) ->
  checkNumbersLocked numbers (Some pending) r = checkNumbersLocked numbers None r2.
Proof.
  intros Hn Hm Hc.
  assert (Hl : forall n, sg_Merged <$> pending_or_closed (Some pending) r n =
    sg_Merged <$> pending_or_closed None r2 n).
  { intros n. unfold pending_or_closed. rewrite Hc, Hn. destruct (Z.eqb_spec (sg_Number segment) n) as [->|].
    - rewrite lookup_insert_eq. simpl. by f_equal.
    - by rewrite lookup_insert_ne. }
  unfold checkNumbersLocked. apply check_numbers_ext; [done|].
  destruct numbers as [|n numbers]; [done|]. specialize (Hl n).
  destruct (pending_or_closed (Some pending) r n), (pending_or_closed None r2 n); simplify_eq/=; done.
Qed.

(** Once the checks of a close have passed, nothing that follows can fail. *)
Lemma close_then_checkpoint_ok now why numbers tail compaction loaded segment pending r :
  (forall x, r_closed (loaded x) = r_closed x) ->
  let number := if (sg_Number segment =? 0)%Z then (r_maxSegment r + 1)%Z else sg_Number segment in
  r_closed r !! number = None -> (0 <= number)%Z ->
  sg_Number pending = number -> sg_Merged pending = sg_Merged segment ->
  checkNumbersLocked numbers (Some pending) r = None ->
  exists r2 closed,
    close_then_checkpoint now why numbers tail compaction loaded (closeSegmentLocked now segment r) = (r2, Ok closed) /\
    sg_Number closed = number.
Proof.
  intros Hload number Hfree Hpos Hn Hm Hcheck. unfold close_then_checkpoint, closeSegmentLocked.
  set (seg := if (sg_Number segment =? 0)%Z then _ else _).
  assert (sg_Number seg = number) as Hseg by (unfold seg, number; by destruct (sg_Number segment =? 0)%Z).
  assert (sg_Merged seg = sg_Merged segment) as Hmerged by (unfold seg; by destruct (sg_Number segment =? 0)%Z).
  rewrite Hseg, bool_decide_eq_false_2 by (rewrite Hfree; by intros []).
  rewrite (proj2 (Z.ltb_ge number 0)) by done. cbn [orb].
  set (seg' := seg <| sg_Rendered := _ |>). set (ra := emit now _ _).
  assert (r_closed ra = <[sg_Number seg' := seg']> (r_closed r)) as Hra.
  { pose proof (emit_erase now (ESegmentClosed (MkSegmentClosed
      (header now (touch now (closeLocked seg' r))) seg')) (touch now (closeLocked seg' r))) as E.
    apply (f_equal r_closed) in E. exact E. }
  unfold checkpointSegmentsLocked.
  rewrite (checkNumbers_pending numbers pending seg' r (loaded ra)) in Hcheck.
  - rewrite Hcheck. by eexists _, _.
  - by rewrite Hn, <-Hseg.
  - by rewrite Hm, <-Hmerged.
  - by rewrite Hload.
Qed.

(** A Segment as it is closed. *)
Definition frozen (r : SessionRecord) (segment : Segment) : Segment :=
  (if (sg_Number segment =? 0)%Z then segment <| sg_Number := (r_maxSegment r + 1)%Z |> else segment)
    <| sg_Rendered := Z.of_nat (length (sg_Messages segment)) |>.

(** What a close that succeeded leaves. *)
Lemma close_then_checkpoint_spec now why numbers tail compaction loaded segment r r2 closed :
  (forall x, r_closed (loaded x) = r_closed x) ->
  close_then_checkpoint now why numbers tail compaction loaded (closeSegmentLocked now segment r) = (r2, Ok closed) ->
  r_used r2 = numbers /\ r_closed r2 = <[sg_Number closed := closed]> (r_closed r) /\
  r_closed r !! sg_Number closed = None /\ r_messages r2 = prefix r2 ++ tail /\
  sg_Messages closed = sg_Messages segment /\ closed = frozen r segment /\
  exists ra, erase ra = erase (touch now (closeLocked closed r)) /\ r_loaded r2 = r_loaded (loaded ra) /\
    r_id r2 = r_id (loaded ra).
Proof.
  intros Hload. unfold close_then_checkpoint, closeSegmentLocked.
  set (seg := if (sg_Number segment =? 0)%Z then _ else _).
  assert (sg_Messages seg = sg_Messages segment) as Hmsg by (unfold seg; by destruct (sg_Number segment =? 0)%Z).
  destruct (bool_decide (is_Some (r_closed r !! sg_Number seg)) || _) eqn:E; [by intros [=]|].
  apply orb_false_iff in E as [E _]. apply bool_decide_eq_false in E. rewrite <-eq_None_not_Some in E.
  set (seg' := seg <| sg_Rendered := _ |>). set (ra := emit now _ _).
  assert (r_closed ra = <[sg_Number seg' := seg']> (r_closed r)) as Hra.
  { pose proof (emit_erase now (ESegmentClosed (MkSegmentClosed
      (header now (touch now (closeLocked seg' r))) seg')) (touch now (closeLocked seg' r))) as He.
    apply (f_equal r_closed) in He. exact He. }
  unfold checkpointSegmentsLocked. destruct (checkNumbersLocked _ _ _); [by intros [=]|].
  intros [= <- <-]. unfold checkpointLocked. match goal with |- context [emit now ?e ?x] => set (ev := e); set (rb := x) end.
  assert (Hf : forall A (f : SessionRecord -> A), (forall x, f x = f (erase x)) -> f (emit now ev rb) = f rb).
  { intros A f Hf. by rewrite (Hf (emit now ev rb)), emit_erase, <-Hf. }
  rewrite (Hf _ r_used), (Hf _ r_closed), (Hf _ r_messages), (Hf _ prefix) by done.
  assert (Hrb : r_closed rb = r_closed ra /\ r_used rb = numbers /\
    r_messages rb = mjoin ((fun n => sg_Messages (closed_segment (loaded ra) n)) <$> numbers) ++ tail).
  { unfold rb. destruct compaction; split_and!; try done; apply Hload. }
  destruct Hrb as (Hc & Hu & Hm). split_and!; [done|by rewrite Hc|done| |done| |].
  - rewrite Hm. unfold prefix. rewrite Hu. unfold closed_segment. by rewrite Hc, Hload.
  - unfold seg', frozen. f_equal. by rewrite Hmsg.
  - exists ra. split; [apply emit_erase|]. rewrite (Hf _ r_loaded), (Hf _ r_id) by done. unfold rb. by destruct compaction.
Qed.

(** ** The numbers of a Context *)

Lemma check_numbers_rest lookup first i previous numbers :
  check_numbers lookup first i previous numbers = None -> (1 <= i)%nat ->
  Forall (fun n => sg_Merged <$> lookup n = Some []) numbers /\ Sorted Z.lt numbers /\
  (i <> 1%nat \/ sg_Merged first = [] -> HdRel Z.lt previous numbers).
Proof.
  revert i previous. induction numbers as [|n numbers IH]; intros i previous Hc Hi; [by repeat constructor|].
  cbn [check_numbers] in Hc. destruct (lookup n) as [s|] eqn:El; [|done].
  destruct (bool_decide_reflect (sg_Merged s <> [])) as [Hm|Hm].
  { assert ((0 <? i)%nat = true) as Ei by (apply Nat.ltb_lt; lia). by rewrite Ei in Hc. }
  cbn [andb] in Hc. assert (Nat.eqb i 0 = false) as Ei by (apply Nat.eqb_neq; lia). rewrite Ei in Hc.
  assert (Hs : sg_Merged <$> lookup n = Some []).
  { rewrite El. simpl. destruct (sg_Merged s); [done|]. by destruct Hm. }
  destruct (Nat.eqb i 1 && bool_decide (sg_Merged first <> [])) eqn:E1.
  - apply andb_prop in E1 as [E1 E2]. apply Nat.eqb_eq in E1. apply bool_decide_eq_true in E2.
    destruct (IH _ _ Hc) as (H1 & H2 & H3); [lia|].
    split_and!; [by constructor|constructor; [done|apply H3; left; lia]|]. intros [?|?]; [lia|done].
  - destruct (Z.eqb_spec n previous); [done|]. destruct (Z.ltb_spec n previous); [done|].
    destruct (IH _ _ Hc) as (H1 & H2 & H3); [lia|].
    split_and!; [by constructor|constructor; [done|apply H3; left; lia]|]. intros _. constructor. lia.
Qed.

Lemma Sorted_lt_NoDup (l : list Z) : Sorted Z.lt l -> NoDup l.
Proof.
  intros H. apply Sorted_StronglySorted in H; [|exact Z.lt_trans].
  induction H as [|x l _ IH Hall]; constructor; [|done].
  intros Hx%list_elem_of_In. rewrite Forall_forall in Hall. specialize (Hall _ Hx). lia.
Qed.

Lemma checkNumbers_order n rest pending r :
  checkNumbersLocked (n :: rest) pending r = None ->
  exists first, pending_or_closed pending r n = Some first /\ Sorted Z.lt rest /\ NoDup (n :: rest) /\
    (sg_Merged first = [] -> Sorted Z.lt (n :: rest)) /\
    Forall (fun m => sg_Merged <$> pending_or_closed pending r m = Some []) rest.
Proof.
  unfold checkNumbersLocked. cbn [check_numbers].
  destruct (pending_or_closed pending r n) as [first|] eqn:El; [|done]. cbn [default].
  rewrite andb_false_r. cbn [Nat.eqb]. intros Hc.
  destruct (check_numbers_rest _ _ _ _ _ Hc) as (H1 & H2 & H3); [lia|].
  exists first. split_and!; [done|done| |intros; constructor; auto|done].
  destruct (decide (sg_Merged first = [])) as [Em|Em].
  - apply Sorted_lt_NoDup. constructor; auto.
  - constructor; [|by apply Sorted_lt_NoDup]. intros Hin%list_elem_of_In.
    rewrite Forall_forall in H1. specialize (H1 _ Hin). rewrite El in H1. simpl in H1. congruence.
Qed.

Lemma CloseSegment_spec (now : gotime) (why : CompactionWhy) (segment : Segment)
    (tail : list Message) (compaction : option Compaction) (r : SessionRecord) :
  match CloseSegment now why segment tail compaction r with
  | (r2, Err _) => r2 = r
  | (r2, Ok closed) =>
    r_used r2 = r_used r ++ [sg_Number closed] /\
    r_closed r2 = <[sg_Number closed := closed]> (r_closed r) /\ r_closed r !! sg_Number closed = None /\
    r_messages r2 = prefix r2 ++ tail /\ sg_Messages closed = sg_Messages segment /\ NoDup (r_used r2) /\
    closed = frozen r segment /\ r_id r2 = r_id r /\
    r_loaded r2 = match compaction with Some c => cn_LoadedTools c | None => r_loaded r end
  end.
Proof.
  unfold CloseSegment. cbv zeta. set (number := if (sg_Number segment =? 0)%Z then _ else _).
  destruct (bool_decide (is_Some (r_closed r !! number)) || _) eqn:E; [done|].
  apply orb_false_iff in E as [Ef Ep]. apply bool_decide_eq_false in Ef. rewrite <-eq_None_not_Some in Ef.
  apply Z.ltb_ge in Ep. destruct (bool_decide_reflect (sg_Merged segment <> [])) as [|Em]; [done|].
  assert (sg_Merged segment = []) as Em' by (destruct (sg_Merged segment); [done|by destruct Em]).
  destruct (checkNumbersLocked (r_used r ++ [number]) _ r) eqn:Ec; [done|].
  set (loaded := fun x : SessionRecord => _).
  assert (Hload : forall x, r_closed (loaded x) = r_closed x) by (intros x; unfold loaded; by destruct compaction).
  destruct (close_then_checkpoint_ok now why (r_used r ++ [number]) tail compaction loaded segment
    (segment_zero <| sg_Number := number |>) r) as (r2 & closed & Hok & Hn); try done.
  rewrite Hok. destruct (close_then_checkpoint_spec _ _ _ _ _ _ _ _ _ _ Hload Hok) as (Hu & Hcl & Hfree & Hm & Hs & Hfr & ra & Hra & Hld & Hid).
  change (sg_Number closed = number) in Hn. rewrite Hu, Hn in *.
  pose proof (f_equal r_loaded Hra) as El. pose proof (f_equal r_id Hra) as Ei. cbn in El, Ei.
  split_and!; try done.
  - destruct (r_used r ++ [number]) as [|n rest] eqn:Eu; [constructor|].
    by destruct (checkNumbers_order _ _ _ _ Ec) as (_ & _ & _ & ? & _).
  - rewrite Hid. unfold loaded. by destruct compaction.
  - rewrite Hld. unfold loaded. by destruct compaction.
Qed.

Lemma MergeSegments_spec (now : gotime) (why : CompactionWhy) (merged : Segment)
    (replaces : list Z) (tail : list Message) (compaction : option Compaction) (r : SessionRecord) :
  match MergeSegments now why merged replaces tail compaction r with
  | (r2, Err _) => r2 = r
  | (r2, Ok closed) =>
    (exists rest, r_used r = replaces ++ rest /\ r_used r2 = sg_Number closed :: rest) /\
    r_closed r2 = <[sg_Number closed := closed]> (r_closed r) /\ r_closed r !! sg_Number closed = None /\
    r_messages r2 = prefix r2 ++ tail /\ sg_Messages closed = sg_Messages merged /\ NoDup (r_used r2) /\
    closed = frozen r merged /\ r_id r2 = r_id r /\ r_loaded r2 = r_loaded r
  end.
Proof.
  unfold MergeSegments. cbv zeta. destruct (_ || _); [done|].
  destruct (_ || negb _) eqn:Er; [done|]. apply orb_false_iff in Er as [_ Er].
  apply negb_false_iff, bool_decide_eq_true in Er.
  set (m := if (sg_Number merged =? 0)%Z then _ else _).
  destruct (bool_decide (is_Some (r_closed r !! sg_Number m)) || _) eqn:E; [done|].
  apply orb_false_iff in E as [Ef Ep]. apply bool_decide_eq_false in Ef. rewrite <-eq_None_not_Some in Ef.
  apply Z.ltb_ge in Ep. destruct (checkNumbersLocked _ (Some m) r) eqn:Ec; [done|].
  assert (Hnum : (if (sg_Number m =? 0)%Z then (r_maxSegment r + 1)%Z else sg_Number m) = sg_Number m).
  { unfold m. destruct (Z.eqb_spec (sg_Number merged) 0) as [Ez|Ez]; cbn.
    - by destruct (r_maxSegment r + 1 =? 0)%Z.
    - by apply Z.eqb_neq in Ez as ->. }
  assert (Hmsg : sg_Messages m = sg_Messages merged) by (unfold m; by destruct (sg_Number merged =? 0)%Z).
  destruct (close_then_checkpoint_ok now why (sg_Number m :: drop (length replaces) (r_used r)) tail compaction
    (fun r => r) m m r) as (r2 & closed & Hok & Hn); rewrite ?Hnum; try done.
  rewrite Hok. destruct (close_then_checkpoint_spec _ _ _ _ _ (fun r => r) _ _ _ _ (fun _ => eq_refl) Hok)
    as (Hu & Hcl & Hfree & Hm & Hs & Hfr & ra & Hra & Hld & Hid).
  rewrite Hnum in Hn. rewrite Hu, Hn in *. split_and!; try done.
  - exists (drop (length replaces) (r_used r)). split; [|done]. by rewrite Er at 1; rewrite take_drop.
  - by rewrite Hs.
  - by destruct (checkNumbers_order _ _ _ _ Ec) as (_ & _ & _ & ? & _).
  - rewrite Hfr. unfold frozen, m. destruct (sg_Number merged =? 0)%Z eqn:Ez; cbn [sg_Number upd]; [|by rewrite Ez].
    by destruct (r_maxSegment r + 1 =? 0)%Z.
  - rewrite Hid. exact (f_equal r_id Hra).
  - rewrite Hld. exact (f_equal r_loaded Hra).
Qed.

(** ** Properties *)

(** closing a Segment is all or nothing.  When [CloseSegment] fails, the
    Record is as it was, nothing queued; when it succeeds, the Context is the
    Segments it held, in order, the new one, and the tail, with the new Segment
    under a number no other has. *)
Theorem close_segment_all_or_nothing (now : gotime) (why : CompactionWhy) (segment : Segment)
    (tail : list Message) (compaction : option Compaction) (r : SessionRecord) :
  match CloseSegment now why segment tail compaction r with
  | (r2, Err _) => r2 = r
  | (r2, Ok closed) =>
    r_used r2 = r_used r ++ [sg_Number closed] /\
    r_closed r2 = <[sg_Number closed := closed]> (r_closed r) /\ r_closed r !! sg_Number closed = None /\
    r_messages r2 = prefix r2 ++ tail /\ sg_Messages closed = sg_Messages segment /\ NoDup (r_used r2)
  end.
Proof.
  pose proof (CloseSegment_spec now why segment tail compaction r) as H.
  destruct (CloseSegment now why segment tail compaction r) as [r2 [closed|err]]; tauto.
Qed.

(** a merge is all or nothing too.  When [MergeSegments] fails, the Record is
    as it was; when it succeeds, the Context is the merged Segment, the Segments
    after those it replaces, and the tail, each Segment once. *)
Theorem merge_segments_all_or_nothing (now : gotime) (why : CompactionWhy) (merged : Segment)
    (replaces : list Z) (tail : list Message) (compaction : option Compaction) (r : SessionRecord) :
  match MergeSegments now why merged replaces tail compaction r with
  | (r2, Err _) => r2 = r
  | (r2, Ok closed) =>
    (exists rest, r_used r = replaces ++ rest /\ r_used r2 = sg_Number closed :: rest) /\
    r_closed r2 = <[sg_Number closed := closed]> (r_closed r) /\ r_closed r !! sg_Number closed = None /\
    r_messages r2 = prefix r2 ++ tail /\ sg_Messages closed = sg_Messages merged /\ NoDup (r_used r2)
  end.
Proof.
  pose proof (MergeSegments_spec now why merged replaces tail compaction r) as H.
  destruct (MergeSegments now why merged replaces tail compaction r) as [r2 [closed|err]]; tauto.
Qed.
