(* ===== verification/Durable.v ===== *)
(** * A Record and its log: what survives a crash

    [step] is everything a Session does to a Record it started to write: the
    Events of its Runs, metadata, Claims, releases, Segments, Checkpoints, and the
    flushes that move what is queued to the store.  The theorems say what
    [FromLoaded] and [View] make of the store's log in any state a Session reaches. *)

From S2P Require Import Prelude GoStrings Errors Types Events Entry Store Record Rebuild Simulation Recovery.
Local Open Scope string_scope.
Local Open Scope list_scope.

(** ** A Session and its store *)

(** The Record, what the store holds of it, and the replies that are
    streaming, which the Record does not keep. *)
Record live := MkLive {
  lv_record : SessionRecord;
  lv_store : stored;
  lv_parts : list replyPart;
}.
#[export] Instance eta_live : Eta live := fun l => MkLive (lv_record l) (lv_store l) (lv_parts l).

(** No Message is committed while another reply is streaming text, and no result but for an open call. *)
Fixpoint commits_allowed (parts : list replyPart) (messages : list Message) (events : list Event) : Prop :=
  match events with
  | [] => True
  | event :: rest =>
    commit_allowed parts messages event /\
    commits_allowed (parts_after parts event)
      (messages ++ match messageOf event with Some message => [message] | None => [] end) rest
  end.

(** The Writer's flush, once the store has accepted the write. *)
Definition flushed (r : SessionRecord) (tk : taken) (s : stored) : SessionRecord * stored :=
  (Stored (default 0%N (en_Seq <$> last (tk_entries tk))) r,
   MkStored (st_entries s ++ tk_entries tk) (tk_header tk)).

(** The writer holds the Record, as a compaction's does. *)
Definition held (r : SessionRecord) : Prop := r_busy r = true /\ cl_Instance (r_claim r) <> "".

Inductive step : live -> live -> Prop :=
| step_write l now events :
    Forall (fun event => session_event event = true) events -> commits_allowed (lv_parts l) (r_messages (lv_record l)) events ->
    step l (l <| lv_record :=
              fst (Write now events (fold_left (append_message now) events (lv_record l))) |>
              <| lv_parts := fold_left parts_after events (lv_parts l) |>)
| step_set l now key value :
    step l (l <| lv_record := SetMetadata now key value (lv_record l) |>)
| step_release l now : step l (l <| lv_record := Release now (lv_record l) |>)
| step_reclaim l now : step l (l <| lv_record := Reclaim now (lv_record l) |>)
| step_close l now why segment tail compaction r2 closed :
    held (lv_record l) ->
    CloseSegment now why segment tail compaction (lv_record l) = (r2, Ok closed) ->
    step l (l <| lv_record := r2 |> <| lv_parts := [] |>)
| step_merge l now why merged replaces tail compaction r2 closed :
    held (lv_record l) ->
    MergeSegments now why merged replaces tail compaction (lv_record l) = (r2, Ok closed) ->
    step l (l <| lv_record := r2 |> <| lv_parts := [] |>)
| step_checkpoint l now why messages compaction :
    held (lv_record l) ->
    step l (l <| lv_record := checkpoint now why messages compaction (lv_record l) |> <| lv_parts := [] |>)
| step_flush l r tk :
    TakePending (lv_record l) = Ok (r, Some tk) ->
    step l (l <| lv_record := fst (flushed r tk (lv_store l)) |>
              <| lv_store := snd (flushed r tk (lv_store l)) |>).

(** The Segments of a list, each under its number. *)
Definition closed_of (segments : list Segment) : gmap Z Segment :=
  fold_left (fun m segment => <[sg_Number segment := segment]> m) segments ∅.

(** A Record that was never stored: its Segments are those its Context starts
    with, as a fork's are, and nothing runs against it. *)
Record fresh (r : SessionRecord) : Prop := {
  fresh_id : r_id r <> "";
  fresh_epoch : r_epoch r <> "";
  fresh_head : r_head r = 0%N;
  fresh_closed : r_closed r = closed_of (segmentsLocked r);
  fresh_used : holds_used r;
  fresh_messages : take (prefixLen r) (r_messages r) = prefix r;
  fresh_notices : r_notices r = [];
  fresh_running : r_running r = "";
  fresh_busy : r_busy r = false;
}.

(** A Record that was loaded, as the Writer that is opened on it takes it over. *)
Definition opened (now : gotime) (instance : string) (why : ClaimWhy) (r : SessionRecord) : SessionRecord :=
  let '(attached, (_, _, running)) := Attach instance r in TakeOver now instance why running attached.

(** The replies that are still open then: what was streaming was cut off, and the Run in flight ended. *)
Definition opened_parts (r : SessionRecord) (parts : list replyPart) : list replyPart :=
  let parts := match r_cutOff r with [] => parts | _ => [] end in
  if String.eqb (r_running r) "" then parts else filter (fun part => rp_RunID part <> r_running r) parts.

(** At most one reply was streaming, and the Messages left queued are of no notice, which is queued by an
    Event of its own. *)
Definition may_open (r : SessionRecord) (parts : list replyPart) : Prop :=
  (length (filter (fun part => rp_Text part <> "") parts) <= 1)%nat /\
  Forall (fun queued => mq_Source queued <> MessageSourceNotice) (r_queued r).

(** The states a Session reaches: from a fresh Record that [instance] starts to
    write, and from what is stored at any point where all was, loaded and taken over. *)
Inductive reaches (r0 : SessionRecord) : live -> Prop :=
| reaches_start now epoch instance idle h :
    fresh r0 -> instance <> "" ->
    reaches r0 (MkLive (StartWriting now epoch instance idle r0) (MkStored [] h) [])
| reaches_step l l' : reaches r0 l -> step l l' -> reaches r0 l'
| reaches_open l r now instance why :
    reaches r0 l -> r_pending (lv_record l) = [] -> small (lv_store l) ->
    FromLoaded (load_of (lv_store l)) = Ok r -> may_open r (lv_parts l) ->
    reaches r0 (MkLive (opened now instance why r) (lv_store l) (opened_parts r (lv_parts l))).

(** ** Lemmas: starting the log *)

Definition close_event (h : Header) (segment : Segment) : Event := ESegmentClosed (MkSegmentClosed h segment).

(** Erases the closed Segments too. *)
Definition erase_closed (r : SessionRecord) : SessionRecord :=
  (erase r) <| r_closed := ∅ |> <| r_maxSegment := 0%Z |>.

Lemma replay_app events events' r : replay (events ++ events') r = replay events' (replay events r).
Proof. apply fold_left_app. Qed.

(** The fields that [sim] reads, but the closed Segments. *)
Definition read_fields (r : SessionRecord) :=
  (r_id r, r_messages r, r_used r, r_metadata r, r_compactions r, r_loaded r, r_claim r, r_running r,
   (r_busy r, r_notices r, r_usage r, r_lastRunEnd r, total_runs r, r_openParts r)).

Lemma erase_closed_fields r r2 : erase_closed r = erase_closed r2 -> read_fields r = read_fields r2.
Proof. intros E. apply (f_equal read_fields) in E. exact E. Qed.

Lemma erase_fields r r2 : erase r = erase r2 -> read_fields r = read_fields r2 /\ r_closed r = r_closed r2.
Proof.
  intros E. split; [apply (f_equal read_fields) in E|apply (f_equal r_closed) in E]; exact E.
Qed.

Lemma replay_cons event events r : replay (event :: events) r = replay events (replay1 r event).
Proof. done. Qed.

Lemma replay_closes (h : Header) (segments : list Segment) (events : list Event) (r : SessionRecord) :
  Forall2 (fun segment event => exists n, event = WithNumber (close_event h segment) n) segments events ->
  erase_closed (replay events r) = erase_closed r /\
  r_closed (replay events r) = fold_left (fun m segment => <[sg_Number segment := segment]> m) segments (r_closed r).
Proof.
  intros H. revert r. induction H as [|segment event segments events [n ->] _ IH]; intros r; [done|].
  rewrite replay_cons. cbn [fold_left].
  destruct (IH (replay1 r (WithNumber (close_event h segment) n))) as [-> ->].
  pose proof (replay1_erase r (WithNumber (close_event h segment) n)) as E.
  split.
  - unfold erase_closed. by rewrite E.
  - f_equal. apply (f_equal r_closed) in E. exact E.
Qed.

Lemma number_segments now l r :
  r_logging r = true ->
  let f := fun r n => fst (number now (ESegmentClosed (MkSegmentClosed (header now r) (closed_segment r n))) r) in
  exists events, queues r (fold_left f l r) events /\ erase (fold_left f l r) = erase r /\
    Forall2 (fun segment event => exists n, event = WithNumber (close_event (header now r) segment) n)
      (closed_segment r <$> l) events.
Proof.
  intros Hl f. revert r Hl. induction l as [|n l IH]; intros r Hl.
  { exists []. split_and!; [apply queues_refl|done|by constructor]. }
  cbn [fold_left]. destruct (number_log now (close_event (header now r) (closed_segment r n)) r Hl)
    as (_ & _ & Hlog & _).
  assert (He : erase (f r n) = erase r) by apply number_erase.
  destruct (IH (f r n) Hlog) as (events & Hq & Hf & H2).
  eexists (_ :: events). split_and!.
  - eapply (queues_trans _ _ _ [_]); [|exact Hq].
    by apply (queues_number r r _ now (close_event (header now r) (closed_segment r n))).
  - by rewrite Hf.
  - rewrite fmap_cons. constructor; [by eexists|].
    assert (header now (f r n) = header now r) as <-.
    { unfold header. apply (f_equal r_id) in He. change (r_id (f r n) = r_id r) in He. by rewrite He. }
    assert (closed_segment (f r n) <$> l = closed_segment r <$> l) as <-; [|done].
    apply (f_equal r_closed) in He. change (r_closed (f r n) = r_closed r) in He.
    unfold closed_segment. by rewrite He.
Qed.

(** ** Lemmas: the first write *)

Lemma take_prefix r : fresh r -> r_messages r = prefix r ++ drop (prefixLen r) (r_messages r).
Proof. intros Hf. rewrite <-(fresh_messages r Hf). by rewrite take_drop. Qed.

Lemma drop_min {A} n (l : list A) : drop (min n (length l)) l = drop n l.
Proof. destruct (Nat.min_spec n (length l)) as [[? ->]|[? ->]]; [done|]. by rewrite !drop_ge. Qed.

(** What [startLog] numbers from. *)
Definition started_log (r : SessionRecord) : SessionRecord :=
  r <| r_logging := true |> <| r_pending := [] |> <| r_events := [] |> <| r_eventHead := 0%nat |>
    <| r_last := 0%N |>.

Lemma tracks_startLog now epoch instance r0 retain_ :
  fresh r0 ->
  let r := r0 <| r_instance := instance |> <| r_claim := MkClaim "" 0 |> in
  exists created events,
    queues (started_log r) (startLog now epoch r) (created :: events) /\
    is_checkpoint created = true /\ Forall (fun event => is_checkpoint event = false) events /\
    fold_left parts_after (created :: events) [] = [] /\
    erase (startLog now epoch r) = erase r /\
    sim [] (startLog now epoch r) (replay (created :: events) (record_zero <| r_retainRead := retain_ |>)).
Proof.
  intros Hf r. unfold startLog. cbv zeta.
  change (r_epoch (_ <| r_last := _ |>)) with (r_epoch r0).
  rewrite (proj2 (String.eqb_neq _ _) (fresh_epoch _ Hf)). fold (started_log r).
  set (rs := started_log r).
  change (prefixLen rs) with (prefixLen r0). change (r_messages rs) with (r_messages r0). rewrite drop_min.
  match goal with |- context [number now (ESessionCreated ?c) rs] => set (created := ESessionCreated c) end.
  assert (Hnl := number_log now created rs eq_refl). cbv zeta in Hnl.
  set (rn := fst (number now created rs)) in *. destruct Hnl as (_ & _ & Hlog & _).
  assert (Hen : erase rn = erase rs) by apply number_erase.
  assert (Hern : erase rn = erase r) by (rewrite Hen; reflexivity).
  destruct (number_segments now (r_used rn) rn Hlog) as (events & Hq & He & H2).
  assert (Hcl : closed_segment rn = closed_segment r0 /\ r_used rn = r_used r0).
  { split; [apply (f_equal closed_segment) in Hern|apply (f_equal r_used) in Hern]; exact Hern. }
  exists (WithNumber created (u64_add (r_last rs) 1)), events. split_and!.
  - eapply (queues_trans _ _ _ [_]); [|exact Hq]. by apply (queues_number rs rs _ now created).
  - done.
  - clear -H2. induction H2 as [|? ? ? ? [n ->]]; constructor; done.
  - clear -H2. cbn [fold_left]. change (parts_after [] _) with (@nil replyPart).
    induction H2 as [|? ? ? ? [n ->]]; done.
  - by rewrite He.
  - destruct Hcl as [Hcl Hus]. rewrite Hcl, Hus in H2.
    rewrite replay_cons.
    set (z := replay1 _ _). destruct (replay_closes _ _ _ z H2) as [Hz Hzc].
    assert (Hze : erase z = erase (apply_event (WithNumber created (u64_add (r_last rs) 1))
      (record_zero <| r_retainRead := retain_ |>))) by apply replay1_erase.
    apply erase_closed_fields in Hz. apply erase_fields in Hze as [Hze Hzec].
    rewrite Hern in He. apply erase_fields in He as [Her Herc].
    set (r2 := fold_left _ _ rn) in *. set (r' := replay events z) in *.
    assert (Hs : sim [] r2 r').
    { clearbody r2 r' z. pose proof (take_prefix _ Hf) as Htp. rewrite Hze in Hz. rewrite Hzec in Hzc.
      destruct Hf. cbn in Hz, Her, Hzc, Herc.
      assert (prefix r2 = prefix r0) as Hp.
      { injection Her as ? ? Hu2 ? ? ? ? ? ? ? ? ? ? ?. unfold prefix, closed_segment. by rewrite Hu2, Herc. }
      assert (r_closed r' = r_closed r0) as Hzcl.
      { destruct (negb _); cbn in Hzc; by rewrite Hzc, fresh_closed. }
      clear Hze Hzec Hzc. destruct (negb (String.eqb (r_parentID r0) "")); cbn in Hz.
      all: injection Her as ? ? ? ? ? ? ? ? ? ? ? ? ? ?; injection Hz as ? ? ? ? ? ? ? ? ? ? ? ? ? ?.
      all: split; [split|]; unfold holds_used in *; rewrite_fields r'; rewrite_fields r2; try done; try congruence.
      all: try (rewrite <- Htp; apply mended_refl).
      all: unfold total_runs; cbn; lia. }
    exact Hs.
Qed.


(** ** Lemmas: Entries and the Events they hold *)

Definition made (event : Event) (entry : Entry) : Prop := exists instance, entryOf event instance = Ok entry.

Lemma apply_made event entry r :
  made event entry -> storable event = true ->
  apply entry r = Ok (apply_numbered event (h_Time (Head event)) r) /\ en_At entry = h_Time (Head event).
Proof.
  intros [instance Hm] Hs. destruct (entryOf_spec _ _ _ Hm) as (Hseq & _ & Hd & _ & _ & Hat).
  split; [|done]. unfold apply. rewrite Hd, Hseq, Hat. cbn [UnmarshalEvent]. rewrite WithNumber_self.
  by destruct event.
Qed.

Lemma apply_entries_made events entries previous r :
  Forall2 made events entries -> Forall (fun event => storable event = true) events ->
  StronglySorted N.lt (en_Seq <$> entries) ->
  Forall (fun entry => match previous with Some p => (p < en_Seq entry)%N | None => True end) entries ->
  apply_entries previous entries r = Ok (replay events r).
Proof.
  intros H. revert previous r. induction H as [|event entry events entries Hm _ IH];
    intros previous r Hs Hsort Hprev; [done|].
  invert Hs. invert Hprev. cbn [fmap list_fmap] in Hsort. apply StronglySorted_inv in Hsort as [Hsort Hall].
  destruct (apply_made _ _ r Hm) as [Ha Hat]; [done|]. cbn [apply_entries].
  assert (match previous with Some p => (en_Seq entry <=? p)%N | None => false end = false) as ->.
  { destruct previous; [|done]. by apply N.leb_gt. }
  rewrite Ha, Hat. cbn [rbind]. rewrite replay_cons. apply IH; [done|done|].
  rewrite Forall_fmap in Hall. exact Hall.
Qed.

(** Reading does not depend on what is erased. *)
Lemma apply_event_erase event r r2 : erase r = erase r2 -> erase (apply_event event r) = erase (apply_event event r2).
Proof.
  assert (forall r, erase (apply_event event r) = erase (apply_event event (erase r))) as Hr.
  { clear. intros r. destruct event; try done; cbn.
    - unfold endRun. cbv zeta. cbn. destruct (last_run _ _ _) as [[i old]|]; cbn;
        destruct (String.eqb _ _); cbn; destruct (_ <? _)%Z; done.
    - unfold load. cbn. by destruct (bool_decide _).
    - destruct (String.eqb _ _); done.
    - destruct (negb _); done.
    - by destruct (cr_ForkedFrom e).
    - by destruct (String.eqb _ _).
    - destruct (String.eqb (r_id r) ""); cbn; destruct (negb _); done. }
  intros E. by rewrite Hr, E, <-Hr.
Qed.

Lemma replay_erase events r r2 : erase r = erase r2 -> erase (replay events r) = erase (replay events r2).
Proof.
  revert r r2. induction events as [|event events IH]; intros r r2 E; [done|].
  rewrite !replay_cons. apply IH. rewrite !replay1_erase. by apply apply_event_erase.
Qed.

(** Reading queues nothing. *)
Lemma apply_event_pending event r : r_pending (apply_event event r) = r_pending r.
Proof.
  destruct event; try done; cbn.
  - unfold endRun. cbv zeta. cbn. destruct (last_run _ _ _) as [[i old]|]; cbn;
      destruct (String.eqb _ _); cbn; destruct (_ <? _)%Z; done.
  - unfold load. cbn. by destruct (bool_decide _).
  - by destruct (String.eqb _ _).
  - by destruct (negb _).
  - by destruct (cr_ForkedFrom e).
  - by destruct (String.eqb _ _).
  - destruct (String.eqb (r_id r) ""); cbn; destruct (negb _); done.
Qed.

Lemma apply_numbered_pending event at_ r : r_pending (apply_numbered event at_ r) = r_pending r.
Proof.
  unfold apply_numbered. rewrite <- (apply_event_pending event r).
  destruct (r_retainRead _); [rewrite (proj1 (retain_log _ _))|]; apply index_log.
Qed.

Lemma replay_pending events r : r_pending (replay events r) = r_pending r.
Proof.
  revert r. induction events as [|event events IH]; intros r; [done|]. rewrite replay_cons, IH. apply apply_numbered_pending.
Qed.

Lemma apply_segments_made events entries r :
  Forall2 made events entries -> Forall (fun event => storable event = true) events ->
  Forall is_segment_closed entries ->
  exists r', apply_segments entries r = Ok r' /\ erase r' = erase (replay events r) /\ r_pending r' = r_pending r.
Proof.
  intros H. revert r. induction H as [|event entry events entries Hm _ IH]; intros r Hs Hk.
  { by exists r. }
  invert Hs. invert Hk. destruct (apply_made _ _ r Hm) as [Ha _]; [done|].
  cbn [apply_segments]. rewrite (proj2 (String.eqb_eq _ _)) by done. cbn [negb]. rewrite Ha. cbn [rbind].
  destruct (IH (apply_numbered event (h_Time (Head event)) r)) as (r' & Hr' & He & Hp); [done..|].
  exists r'. split; [done|]. split; [rewrite He, replay_cons; by apply replay_erase|]. rewrite Hp. apply apply_numbered_pending.
Qed.

(** The closed Segments that Events leave. *)
Definition closed_after (m : gmap Z Segment) (event : Event) : gmap Z Segment :=
  match event with
  | ESegmentClosed e => <[sg_Number (sgc_Segment e) := sgc_Segment e]> m
  | _ => m
  end.

Lemma endRun_closed run r : r_closed (endRun run r) = r_closed r.
Proof. apply (endRun_fields run r). Qed.

Lemma replay_closed events r : r_closed (replay events r) = fold_left closed_after events (r_closed r).
Proof.
  revert r. induction events as [|event events IH]; intros r; [done|].
  rewrite replay_cons, IH. cbn [fold_left]. f_equal.
  pose proof (replay1_erase r event) as E. apply (f_equal r_closed) in E.
  change (r_closed (replay1 r event) = r_closed (apply_event event r)) in E. rewrite E.
  destruct event; try done; [exact (endRun_closed (runEnded e) r)|cbn..].
  - unfold load. by destruct (bool_decide _).
  - by destruct (String.eqb _ _).
  - by destruct (negb _).
  - by destruct (cr_ForkedFrom e).
  - by destruct (String.eqb _ _).
  - by destruct (String.eqb (r_id r) ""), (negb _).
Qed.

(** Entries of Layer log say nothing that a rebuild reads. *)
Definition is_fact_event (event : Event) : bool :=
  match layerOf (Kind event) with Ok layer => String.eqb layer LayerFact | Err _ => false end.

Lemma is_fact_eq event : is_fact_event event =
  match event with
  | ETurnStarted _ | ETurnEnded _ | EContextBuilt _ | EReplyStarted _ | EModelRetried _ | EToolEnded _
  | EToolResultSpilled _ | EMessageRejected _ | EAbortRequested _ | ECompactionStarted _
  | ECompactionFailed _ | EExtensionFailed _
  | ETextDelta _ | EReasoningDelta _ | EToolProgress _ | ESessionUnloaded _ | EEventsSkipped _ => false
  | EUnknown e => is_fact_event (EUnknown e)
  | _ => true
  end.
Proof. destruct event; try reflexivity; vm_compute; reflexivity. Qed.

Lemma log_event_inert event r :
  storable event = true -> is_fact_event event = false -> erase (replay1 r event) = erase r.
Proof.
  rewrite storable_eq, is_fact_eq, replay1_erase. intros Hs Hf.
  destruct event; try discriminate Hs; try discriminate Hf; reflexivity.
Qed.

Lemma replay_facts events r :
  Forall (fun event => storable event = true) events ->
  erase (replay (filter (fun event => is_fact_event event = true) events) r) = erase (replay events r).
Proof.
  intros H. revert r. induction H as [|event events Hs _ IH]; intros r; [done|].
  rewrite replay_cons. destruct (is_fact_event event) eqn:E.
  - rewrite filter_cons_True by done. by rewrite replay_cons, IH.
  - rewrite filter_cons_False by congruence. rewrite IH. apply replay_erase. symmetry. by apply log_event_inert.
Qed.

Lemma made_layer event entry : made event entry -> bool_decide (is_fact entry) = is_fact_event event.
Proof.
  intros [instance Hm]. destruct (entryOf_spec _ _ _ Hm) as (_ & _ & _ & Hl & _).
  unfold is_fact_event. rewrite Hl. unfold is_fact. destruct (String.eqb_spec (en_Layer entry) LayerFact) as [E|E].
  - by apply bool_decide_eq_true.
  - by apply bool_decide_eq_false.
Qed.

Lemma made_kind event entry : made event entry -> en_Kind entry = Kind event.
Proof. intros [instance Hm]. by destruct (entryOf_spec _ _ _ Hm) as (_ & ? & _). Qed.

Lemma made_facts events entries :
  Forall2 made events entries ->
  Forall2 made (filter (fun event => is_fact_event event = true) events) (filter is_fact entries).
Proof.
  induction 1 as [|event entry events entries Hm _ IH]; [done|].
  pose proof (made_layer _ _ Hm) as Hl. destruct (is_fact_event event) eqn:E.
  - apply bool_decide_eq_true in Hl. rewrite !filter_cons_True by done. by constructor.
  - apply bool_decide_eq_false in Hl. by rewrite !filter_cons_False by congruence.
Qed.

Definition is_close_event (event : Event) : bool := match event with ESegmentClosed _ => true | _ => false end.

Lemma is_close_kind event :
  storable event = true -> String.eqb (Kind event) EventKindSegmentClosed = is_close_event event.
Proof. rewrite storable_eq. destruct event; intros H; try discriminate H; vm_compute; reflexivity. Qed.

Lemma made_segments events entries :
  Forall2 made events entries -> Forall (fun event => storable event = true) events ->
  Forall2 made (filter (fun event => is_close_event event = true) events) (filter is_segment_closed entries).
Proof.
  induction 1 as [|event entry events entries Hm _ IH]; intros Hs; [done|]. invert Hs.
  assert (bool_decide (is_segment_closed entry) = is_close_event event) as Hl.
  { unfold is_segment_closed. apply made_kind in Hm. apply eq_bool_prop_intro.
    rewrite bool_decide_spec, Hm, <-is_close_kind by done. by rewrite Is_true_true, String.eqb_eq. }
  destruct (is_close_event event) eqn:E.
  - apply bool_decide_eq_true in Hl. rewrite !filter_cons_True by done. constructor; auto.
  - apply bool_decide_eq_false in Hl. rewrite !filter_cons_False by congruence. auto.
Qed.

Lemma closed_segments events m :
  fold_left closed_after (filter (fun event => is_close_event event = true) events) m = fold_left closed_after events m.
Proof.
  revert m. induction events as [|event events IH]; intros m; [done|].
  destruct (is_close_event event) eqn:E.
  - rewrite filter_cons_True by done. simpl. apply IH.
  - rewrite filter_cons_False by congruence. rewrite IH. by destruct event.
Qed.

(** ** Lemmas: the end of a rebuild *)

(** What a Record is, but for its Messages and what only the live one has. *)
Definition durable (r : SessionRecord) :=
  (r_id r, r_used r, r_closed r, r_metadata r, r_compactions r, r_loaded r, r_claim r, r_running r,
   (r_busy r, r_notices r, r_usage r, r_lastRunEnd r, total_runs r)).

(** Two answers to the same open call, which may say that it was started or not. *)
Definition is_repaired (m : Message) : Prop := exists call started, m = repairResult call started.
Definition alike (a b : Message) : Prop :=
  a = b \/ exists call started started', a = repairResult call started /\ b = repairResult call started'.

(** [r'] is [r] rebuilt: the replies that were streaming are cut off, and the
    open calls answered.  An answer that [r] holds from the load it came of may be of the other kind. *)
Definition rebuilt (parts : list replyPart) (r r' : SessionRecord) : Prop :=
  durable r' = durable r /\
  exists started,
    Forall2 alike (r_messages r') (repair (r_messages r ++ cut_off_messages "" parts) started) /\
    (Forall (fun m => ~ is_repaired m) (r_messages r) ->
      r_messages r' = repair (r_messages r ++ cut_off_messages "" parts) started).

Lemma alike_refl l : Forall2 alike l l.
Proof. induction l; constructor; [by left|done]. Qed.

Lemma repair_go_app started calls answered old new :
  plain_start new ->
  repair_go started calls answered (old ++ new) = repair_go started calls answered old ++ repair_go started [] ∅ new.
Proof.
  intros Hn. revert calls answered. induction old as [|m old IH]; intros calls answered; cbn [app repair_go].
  - destruct new as [|m new]; cbn [repair_go]; [by rewrite app_nil_r|]. cbn in Hn. by rewrite (proj2 (String.eqb_neq _ _) Hn).
  - destruct (String.eqb _ _); rewrite IH; [done|]. by rewrite <- app_assoc.
Qed.

Lemma repair_app started old new : plain_start new -> repair (old ++ new) started = repair old started ++ repair new started.
Proof. intros Hn. rewrite !repair_reference. by apply repair_go_app. Qed.

Lemma repair_twice l started started' : repair (repair l started) started' = repair l started.
Proof. rewrite (repair_reference (repair _ _)). apply repair_go_complete, repair_all_answered. Qed.

Lemma repair_go_alike started started' calls answered l :
  Forall2 alike (repair_go started calls answered l) (repair_go started' calls answered l).
Proof.
  assert (Hm : forall calls answered, Forall2 alike (missing_results started calls answered) (missing_results started' calls answered)).
  { intros cs a. unfold missing_results. induction (unanswered cs a) as [|call rest IH]; [constructor|]. cbn. constructor; [right; eauto|done]. }
  revert calls answered. induction l as [|m l IH]; intros calls answered; cbn [repair_go]; [done|].
  destruct (String.eqb _ _); [constructor; [by left|done]|]. apply Forall2_app; [done|]. constructor; [by left|done].
Qed.

Lemma repair_alike l started started' : Forall2 alike (repair l started) (repair l started').
Proof. rewrite !repair_reference. apply repair_go_alike. Qed.

Lemma repair_go_kept started calls answered l :
  Forall (fun m => ~ is_repaired m) (repair_go started calls answered l) -> repair_go started calls answered l = l.
Proof.
  assert (Hm : forall calls answered, Forall (fun m => ~ is_repaired m) (missing_results started calls answered) ->
    missing_results started calls answered = []).
  { intros cs a. unfold missing_results. destruct (unanswered cs a) as [|call rest]; [done|]. cbn.
    intros [Hn _]%Forall_cons_1. destruct Hn. unfold is_repaired. eauto. }
  revert calls answered. induction l as [|m l IH]; intros calls answered; cbn [repair_go]; [apply Hm|].
  destruct (String.eqb _ _).
  - intros [_ Hr]%Forall_cons_1. by rewrite IH.
  - intros [Hc [_ Hr]%Forall_cons_1]%Forall_app. by rewrite Hm, IH.
Qed.

(** What a load makes of a log is what repairing the live history would. *)
Lemma mended_rebuilt live log cut started :
  mended live log -> plain_start cut ->
  Forall2 alike (repair (log ++ cut) started) (repair (live ++ cut) started) /\
  (Forall (fun m => ~ is_repaired m) live -> live = log).
Proof.
  intros (old & new & st & -> & -> & Hs) Hc. split.
  - destruct Hs as [Hs| ->]; [|apply alike_refl]. rewrite <- !app_assoc.
    assert (plain_start (new ++ cut)) as Hn by by destruct new.
    rewrite !repair_app by done. rewrite repair_twice. apply Forall2_app; [apply repair_alike|apply alike_refl].
  - intros [Ho _]%Forall_app. f_equal. rewrite repair_reference in Ho |- *. by apply repair_go_kept.
Qed.

Lemma cut_off_plain id parts : plain_start (cut_off_messages id parts).
Proof. unfold cut_off_messages. by destruct (filter _ parts). Qed.

Lemma rendered_prefix closed numbers :
  Forall (fun n => is_Some (closed !! n)) numbers ->
  rendered closed numbers = Ok (mjoin ((fun n => sg_Messages (default segment_zero (closed !! n))) <$> numbers)).
Proof.
  induction 1 as [|n numbers [s Hs] _ IH]; [done|]. simpl. rewrite Hs, IH. done.
Qed.

(** [r'] is what a load makes of a log whose Messages are [log]. *)
Record restored (parts : list replyPart) (log : list Message) (r r' : SessionRecord) : Prop := {
  rs_durable : durable r' = durable r;
  rs_messages : exists started, r_messages r' = repair (log ++ cut_off_messages "" parts) started;
  rs_cutOff : r_cutOff r' = cut_off_messages "" parts;
  rs_pending : r_pending r' = [];
}.

Lemma restored_rebuilt parts log r r' : mended (r_messages r) log -> restored parts log r r' -> rebuilt parts r r'.
Proof.
  intros Hm [Hd [started Hs] _ _]. split; [done|]. exists started. rewrite Hs.
  destruct (mended_rebuilt _ _ (cut_off_messages "" parts) started Hm) as [Ha He]; [apply cut_off_plain|].
  split; [exact Ha|]. intros Hn. by rewrite (He Hn).
Qed.

Lemma finish_restored parts r rx seq :
  sim parts r rx -> r_id r <> "" -> r_pending rx = [] ->
  exists r', finish_rebuild seq rx = Ok r' /\ restored parts (prefix r ++ r_messages rx) r r' /\ r_last r' = seq /\ r_head r' = seq.
Proof.
  intros [[] Hused] Hid Hp. unfold finish_rebuild. rewrite sim_id, (proj2 (String.eqb_neq _ _) Hid).
  unfold resolveSegments. rewrite sim_closed, sim_used, rendered_prefix by done. cbn [rbind].
  eexists. split; [reflexivity|]. split; [|done]. split.
  - unfold durable. cbn. unfold total_runs in *. cbn. rewrite_fields rx. do 2 f_equal. exact sim_runs.
  - exists (r_started rx). cbn. by rewrite sim_parts.
  - cbn. rewrite sim_parts. by rewrite drop_app_length.
  - exact Hp.
Qed.

Lemma made_checkpoint event entry :
  made event entry -> is_checkpoint event = true -> IsCheckpoint entry = true /\ is_fact_event event = true.
Proof.
  intros Hm Hc. split.
  - unfold IsCheckpoint. rewrite (made_kind _ _ Hm). destruct event; try discriminate Hc; reflexivity.
  - rewrite is_fact_eq. by destruct event.
Qed.

Lemma made_seq event entry : made event entry -> en_Seq entry = h_Number (Head event).
Proof. intros [instance Hm]. by destruct (entryOf_spec _ _ _ Hm). Qed.

Lemma Forall_sublist {A} (P : A -> Prop) (l k : list A) : l `sublist_of` k -> Forall P k -> Forall P l.
Proof.
  intros Hs Hall. apply Forall_forall. intros x Hx%list_elem_of_In. rewrite Forall_forall in Hall.
  apply Hall, list_elem_of_In. by eapply sublist_subseteq.
Qed.

Lemma StronglySorted_sublist {A} (R : A -> A -> Prop) (l k : list A) :
  l `sublist_of` k -> StronglySorted R k -> StronglySorted R l.
Proof.
  induction 1 as [|x l k Hs IH|x l k Hs IH]; [done| |].
  - intros [H1 H2]%StronglySorted_inv. constructor; [by apply IH|]. by eapply Forall_sublist.
  - intros [H1 _]%StronglySorted_inv. by apply IH.
Qed.

Lemma sublist_fmap_l {A B} (f : A -> B) (l k : list A) : l `sublist_of` k -> f <$> l `sublist_of` f <$> k.
Proof. induction 1; simpl; by constructor. Qed.

Lemma replay_close_events_id events r :
  Forall (fun event => is_close_event event = true) events -> r_id (replay events r) = r_id r.
Proof.
  intros H. revert r. induction H as [|event events Hc _ IH]; intros r; [done|].
  rewrite replay_cons, IH. pose proof (replay1_erase r event) as E. apply (f_equal r_id) in E.
  change (r_id (replay1 r event) = r_id (apply_event event r)) in E. rewrite E. by destruct event.
Qed.

(** The Segments closed before a Checkpoint, as a load reads them. *)
Definition load_segments (before : list Event) : SessionRecord :=
  replay (filter (fun event => is_close_event event = true) before) record_zero.

Lemma load_segments_id before : r_id (load_segments before) = "".
Proof.
  apply replay_close_events_id, Forall_forall. intros e He%list_elem_of_In.
  by apply list_elem_of_filter in He as [? _].
Qed.

Lemma load_segments_closed before : r_closed (load_segments before) = fold_left closed_after before ∅.
Proof. unfold load_segments. by rewrite replay_closed, closed_segments. Qed.

(** A load that starts at a Checkpoint. *)
Lemma rebuild_from before cp after eb ec ea parts r :
  Forall2 made before eb -> made cp ec -> Forall2 made after ea ->
  Forall (fun event => storable event = true) (before ++ cp :: after) ->
  is_checkpoint cp = true -> StronglySorted N.lt (en_Seq <$> ec :: ea) -> r_id r <> "" ->
  sim parts r (replay (cp :: after) (load_segments before)) ->
  exists r', rebuildRecord (filter is_fact (ec :: ea)) false (filter is_segment_closed eb) = Ok r' /\
    restored parts (prefix r ++ r_messages (replay (cp :: after) (load_segments before))) r r'.
Proof.
  intros Hb Hc Ha Hs Hcp Hsort Hid Hsim.
  apply Forall_app in Hs as [Hsb Hsc]. apply Forall_cons_1 in Hsc as [Hsc Hsa].
  destruct (made_checkpoint _ _ Hc Hcp) as [Hchk Hfact].
  assert (Hcf : is_fact ec).
  { pose proof (made_layer _ _ Hc) as Hly. rewrite Hfact in Hly. by apply bool_decide_eq_true in Hly. }
  assert (Hall : Forall2 made (cp :: after) (ec :: ea)) by by constructor.
  pose proof (made_facts _ _ Hall) as Hf.
  assert (Hstor : Forall (fun event => storable event = true) (cp :: after)) by by constructor.
  destruct (apply_segments_made _ _ (record_zero <| r_retainRead := false |>) (made_segments _ _ Hb Hsb))
    as (r1 & Hr1 & He1 & Hp1).
  { eapply Forall_sublist; [apply sublist_filter|done]. }
  { apply Forall_forall. intros e He%list_elem_of_In. by apply list_elem_of_filter in He as [? _]. }
  set (facts := filter (fun event => is_fact_event event = true) (cp :: after)).
  assert (He : erase (replay facts r1) = erase (replay (cp :: after) (load_segments before))).
  { unfold facts. rewrite replay_facts by done. apply replay_erase. rewrite He1. by apply replay_erase. }
  assert (Hsim1 : sim parts r (replay facts r1)).
  { eapply sim_erase; [reflexivity|symmetry; exact He|exact Hsim]. }
  assert (Hm : r_messages (replay facts r1) = r_messages (replay (cp :: after) (load_segments before))) by (by apply (f_equal r_messages) in He).
  destruct (finish_restored parts r _ (default 0%N (en_Seq <$> last (filter is_fact (ec :: ea)))) Hsim1 Hid)
    as (r' & Hr' & Hreb & _); [by rewrite replay_pending, Hp1|]. rewrite Hm in Hreb.
  exists r'. split; [|done]. unfold rebuildRecord. 
  pose proof (filter_cons_True is_fact ec ea Hcf) as Hfc. rewrite Hfc, Hchk. cbn [negb]. rewrite <-Hfc, Hr1. cbn [rbind].
  rewrite (apply_entries_made _ _ None r1 Hf); [exact Hr'| | |by apply Forall_true].
  - eapply Forall_sublist; [apply sublist_filter|done].
  - eapply StronglySorted_sublist; [|exact Hsort]. apply sublist_fmap_l, sublist_filter.
Qed.
