(* ===== verification/Opening.v ===== *)
(** * A Record and its log: taking over

    What [TakeOver] writes on a Record that was loaded: the Claim, the replies it
    cut off, the Messages that were left queued and the end of the Run in flight, and
    that reading them is as good as having been there. *)

From S2P Require Import Prelude GoStrings Errors Types Events Entry Store Record Rebuild Simulation Recovery Durable.
Local Open Scope string_scope.
Local Open Scope list_scope.

(** ** Lemmas: what reading makes of the Messages *)

Lemma apply_event_messages event r r2 :
  r_messages r = r_messages r2 -> r_openParts r = r_openParts r2 ->
  r_messages (apply_event event r) = r_messages (apply_event event r2) /\
  r_openParts (apply_event event r) = r_openParts (apply_event event r2).
Proof.
  intros Em Ep. destruct event; try exact (conj Em Ep); try (cbn; by rewrite ?Em, ?Ep); cbn [apply_event].
  - unfold dropParts. pose proof (endRun_fields (runEnded e) r) as F. pose proof (endRun_fields (runEnded e) r2) as F2.
    cbv zeta in F, F2. destruct_and!. cbn [r_messages r_openParts upd]. split; [|f_equal]; congruence.
  - unfold load. by repeat case_match.
  - unfold foldNotice, foldQueued. by destruct (String.eqb (md_Source e) MessageSourceNotice).
  - unfold foldNotice, foldQueued. by destruct (negb (String.eqb (nq_Source e) NoticeSourceService)).
  - by destruct (String.eqb (mx_Value e) "").
  - by destruct (negb (String.eqb (ce_Instance e) "")).
Qed.

Lemma replay1_fields event r :
  r_messages (replay1 r event) = r_messages (apply_event event r) /\ r_openParts (replay1 r event) = r_openParts (apply_event event r).
Proof.
  pose proof (replay1_erase r event) as E.
  split; [exact (f_equal r_messages E)|exact (f_equal r_openParts E)].
Qed.

Lemma replay1_messages event r r2 :
  r_messages r = r_messages r2 -> r_openParts r = r_openParts r2 ->
  r_messages (replay1 r event) = r_messages (replay1 r2 event) /\ r_openParts (replay1 r event) = r_openParts (replay1 r2 event).
Proof.
  intros Em Ep. destruct (replay1_fields event r) as [-> ->], (replay1_fields event r2) as [-> ->]. by apply apply_event_messages.
Qed.

Lemma replay_messages events r r2 :
  r_messages r = r_messages r2 -> r_openParts r = r_openParts r2 ->
  r_messages (replay events r) = r_messages (replay events r2).
Proof.
  revert r r2. induction events as [|event events IH]; intros r r2 Em Ep; [done|]. rewrite !replay_cons.
  destruct (replay1_messages event r r2 Em Ep). by apply IH.
Qed.

(** A Checkpoint says what the Messages are. *)
Lemma checkpoint_messages event r r2 :
  is_checkpoint event = true -> r_messages (replay1 r event) = r_messages (replay1 r2 event).
Proof.
  intros Hc. destruct (replay1_fields event r) as [-> _], (replay1_fields event r2) as [-> _].
  destruct event; try discriminate Hc; cbn [apply_event]; [done|]. by destruct (negb (String.eqb (ce_Instance e) "")).
Qed.

(** ** The replies that a log leaves streaming *)

Definition log_parts (entries : list Entry) : list replyPart :=
  fold_left (fun parts entry => match UnmarshalEvent (en_Data entry) with Ok event => parts_after parts event | Err _ => parts end)
    entries [].

Lemma log_parts_made events entries :
  Forall2 made events entries -> Forall (fun event => storable event = true) events ->
  log_parts entries = fold_left parts_after events [].
Proof.
  unfold log_parts. intros H. generalize (@nil replyPart). induction H as [|event entry events entries Hm _ IH]; intros parts Hs; [done|].
  apply Forall_cons_1 in Hs as [Hs Hss]. cbn [fold_left]. destruct Hm as [instance Hm].
  destruct (entryOf_spec _ _ _ Hm) as (_ & _ & -> & _). cbn [UnmarshalEvent].
  rewrite IH by done. f_equal; by destruct event.
Qed.

Lemma apply_event_parts event r : storable event = true -> r_openParts (apply_event event r) = parts_after (r_openParts r) event.
Proof.
  rewrite storable_eq. intros Hs. destruct event; try discriminate Hs; try reflexivity; cbn [apply_event].
  - unfold dropParts. cbn [r_openParts upd parts_after]. pose proof (endRun_fields (runEnded e) r) as F. cbv zeta in F.
    destruct_and!. cbn. f_equal. done.
  - unfold load. by repeat case_match.
  - unfold foldNotice, foldQueued. by destruct (String.eqb (md_Source e) MessageSourceNotice).
  - unfold foldNotice, foldQueued. by destruct (negb (String.eqb (nq_Source e) NoticeSourceService)).
  - by destruct (String.eqb (mx_Value e) "").
  - by destruct (negb (String.eqb (ce_Instance e) "")).
Qed.

Lemma replay_parts events r :
  Forall (fun event => storable event = true) events -> r_openParts (replay events r) = fold_left parts_after events (r_openParts r).
Proof.
  intros H. revert r. induction H as [|event events Hs _ IH]; intros r; [done|]. rewrite replay_cons, IH. cbn [fold_left].
  destruct (replay1_fields event r) as [_ ->]. by rewrite apply_event_parts.
Qed.

(** ** Lemmas: the replies that were cut off *)

Lemma cut_off_answered id parts : all_answered [] ∅ (cut_off_messages id parts).
Proof.
  unfold cut_off_messages. induction (filter _ parts) as [|part rest IH]; [by constructor|].
  cbn. split; [constructor|exact IH].
Qed.

Lemma repair_cut_off id parts started : repair (cut_off_messages id parts) started = cut_off_messages id parts.
Proof. rewrite repair_reference. apply repair_go_complete, cut_off_answered. Qed.

(** At most one reply was streaming: what it kept is one Message, and nothing else is left to cut off. *)
Lemma one_cut_off parts :
  (length (filter (fun part => rp_Text part <> "") parts) <= 1)%nat ->
  cut_off_messages "" parts = [] \/
  exists m, cut_off_messages "" parts = [m] /\ m_Role m = RoleAssistant /\ cut_off_messages (m_ID m) parts = [].
Proof.
  intros Hlen. unfold cut_off_messages. induction parts as [|part parts IH]; [by left|].
  destruct (decide (rp_Text part = "")) as [Et|Et].
  - rewrite filter_cons_False in Hlen by congruence. destruct (IH Hlen) as [E|(m & E & Hr & Em)].
    + left. rewrite filter_cons_False by (intros H; apply H; by right). exact E.
    + right. exists m. split_and!; [|done|].
      * rewrite filter_cons_False by (intros H; apply H; by right). exact E.
      * rewrite filter_cons_False by (intros H; apply H; by right). exact Em.
  - rewrite filter_cons_True in Hlen by done. cbn in Hlen.
    assert (Hno : filter (fun part => rp_Text part <> "") parts = []) by (apply nil_length_inv; lia).
    assert (Hnone : forall id, filter (fun part => ~ (rp_MessageID part = id \/ rp_Text part = "")) parts = []).
    { intros id. clear -Hno. induction parts as [|q parts IH]; [done|].
      destruct (decide (rp_Text q = "")) as [Eq|Eq]; [|by rewrite filter_cons_True in Hno by done].
      rewrite filter_cons_False in Hno by congruence. rewrite filter_cons_False by (intros H; apply H; by right). by apply IH. }
    destruct (decide (rp_MessageID part = "")) as [Ei|Ei].
    + left. rewrite filter_cons_False by (intros H; apply H; by left). by rewrite Hnone.
    + right. exists (cut_off_message part). split_and!.
      * rewrite filter_cons_True by (by intros [|]). by rewrite Hnone.
      * done.
      * rewrite filter_cons_False by (intros H; apply H; by left). by rewrite Hnone.
Qed.

(** ** Lemmas: what [TakeOver] writes *)

Lemma emit_append now event m r : emit now event (AppendMessage now m r) = AppendMessage now m (emit now event r).
Proof.
  unfold emit. change (r_logging (AppendMessage now m r)) with (r_logging r). destruct (r_logging r); [|done].
  by rewrite number_append.
Qed.

Lemma claimFor_append now instance why m r :
  claimFor now instance why (r <| r_messages := r_messages r ++ [m] |>) = AppendMessage now m (claimFor now instance why r).
Proof.
  unfold claimFor. cbv zeta. rewrite <- emit_append.
  change (r_claim (r <| r_messages := r_messages r ++ [m] |>)) with (r_claim r).
  by destruct (negb (String.eqb (cl_Instance (r_claim r)) instance) || N.eqb (cl_Epoch (r_claim r)) 0).
Qed.

Lemma emit_kept now event r : r_cutOff (emit now event r) = r_cutOff r /\ r_queued (emit now event r) = r_queued r.
Proof. pose proof (emit_erase now event r) as E. split; [exact (f_equal r_cutOff E)|exact (f_equal r_queued E)]. Qed.

Lemma claimFor_kept now instance why r :
  r_cutOff (claimFor now instance why r) = r_cutOff r /\ r_queued (claimFor now instance why r) = r_queued r.
Proof.
  unfold claimFor. cbv zeta. match goal with |- context [emit now ?e ?x] => destruct (emit_kept now e x) as [-> ->] end.
  by destruct (_ || _).
Qed.

Lemma tracks_cutOff_cleared parts r r2 events :
  tracks parts r r2 events -> tracks parts r (r2 <| r_cutOff := [] |>) events.
Proof.
  intros [[] Hs]. split; [by split|]. intros r' Hr'. destruct (Hs r' Hr') as [[] Hused]. by split; [split|].
Qed.

Lemma tracks_queued_cleared parts r r2 events :
  tracks parts r r2 events -> tracks parts r (r2 <| r_queued := [] |>) events.
Proof.
  intros [[] Hs]. split; [by split|]. intros r' Hr'. destruct (Hs r' Hr') as [[] Hused]. by split; [split|].
Qed.

(** A write with no Checkpoint in it. *)
Definition writes_on (parts : list replyPart) (r r2 : SessionRecord) (parts2 : list replyPart) : Prop :=
  exists events, tracks parts r r2 events /\ Forall (fun event => is_checkpoint event = false) events /\
    fold_left parts_after events parts = parts2.

Lemma writes_on_refl parts r : writes_on parts r r parts.
Proof. exists []. split_and!; [apply tracks_refl|done|done]. Qed.

Lemma writes_on_trans parts r r2 parts2 r3 parts3 :
  writes_on parts r r2 parts2 -> writes_on parts2 r2 r3 parts3 -> writes_on parts r r3 parts3.
Proof.
  intros (events & Ht & Hc & <-) (events' & Ht' & Hc' & Hp'). exists (events ++ events'). split_and!.
  - by eapply tracks_trans.
  - by apply Forall_app.
  - by rewrite fold_left_app.
Qed.

Lemma writes_on_logging parts r r2 parts2 : writes_on parts r r2 parts2 -> r_logging r = true -> r_logging r2 = true.
Proof. intros (events & [[] _] & _) Hl. auto. Qed.

(** One Event. *)
Lemma writes_on_emit parts r r1 now event :
  r_logging r = true -> same_log r r1 -> storable event = true -> is_checkpoint event = false ->
  (forall n r', sim parts r r' -> sim (parts_after parts event) r1 (apply_event (WithNumber event n) r')) ->
  writes_on parts r (emit now event r1) (parts_after parts event).
Proof.
  intros Hl Hlog Hs Hc Hsim. destruct (tracks_emit parts r r1 now event Hl Hlog Hs Hsim) as (event' & Ht & n & ->).
  exists [WithNumber event n]. split_and!; [exact Ht| |by destruct event]. constructor; [by destruct event|constructor].
Qed.

Lemma writes_on_dropQueued parts now why r :
  r_logging r = true -> Forall (fun queued => mq_Source queued <> MessageSourceNotice) (r_queued r) ->
  writes_on parts r (dropQueued now why r) parts.
Proof.
  intros Hl Hq. unfold dropQueued.
  enough (forall queue r, r_logging r = true -> Forall (fun queued => mq_Source queued <> MessageSourceNotice) queue ->
    writes_on parts r (fold_left (fun r queued =>
      emit now (EMessageDropped (MkMessageDropped ((header now r) <| h_RunID := h_RunID (mq_Header queued) |>)
        (mq_MessageID queued) (mq_Source queued) why)) r) queue r) parts) as Hgo.
  { destruct (Hgo _ _ Hl Hq) as (events & Ht & Hc & Hp). exists events. by split_and!; [apply tracks_queued_cleared|..]. }
  clear r Hl Hq. induction queue as [|queued queue IH]; intros r Hl Hq; [apply writes_on_refl|].
  apply Forall_cons_1 in Hq as [Hn Hq]. cbn [fold_left].
  match goal with |- context [emit now ?e r] => set (event := e) end.
  assert (Hw : writes_on parts r (emit now event r) parts).
  { apply (writes_on_emit parts r r now event); [done..|]. intros n r' Hr'. unfold event. cbn.
    rewrite (proj2 (String.eqb_neq _ _) Hn).
    apply (foldQueued_sim parts (EMessageDropped (MkMessageDropped (header now r) (mq_MessageID queued) (mq_Source queued) why))), Hr'. }
  eapply writes_on_trans; [exact Hw|]. apply IH; [|done]. by eapply writes_on_logging.
Qed.

Lemma endRun_log run r : same_log r (endRun run r).
Proof.
  unfold same_log, endRun. cbv zeta. destruct (last_run _ _ _) as [[i old]|]; cbn;
    destruct (String.eqb _ _); cbn; destruct (_ <? _)%Z; done.
Qed.

Lemma writes_on_interruptRun parts now run r :
  r_logging r = true -> writes_on parts r (interruptRun now run r) (filter (fun part => rp_RunID part <> run) parts).
Proof.
  intros Hl. unfold interruptRun. cbv zeta. set (ended := MkRunEnded _ _ _ _ _ _ _ _ _ _ _).
  apply (writes_on_emit parts r (touch now (endRun (runEnded ended) r)) now (ERunEnded ended)); [done|apply endRun_log|done|done|].
  intros n r' Hr'. cbn.
  replace (runEnded _) with (runEnded ended) by done. apply (dropParts_sim parts run) .
  pose proof (endRun_sim parts (runEnded ended) r r' Hr') as [[] Hused]. by split; [split|].
Qed.

(** What the Writer that is opened writes, from the Record without what was cut off. *)
Lemma opened_writes now instance why parts r r0 :
  r_logging r0 = true -> r_cutOff r = cut_off_messages "" parts -> may_open r parts ->
  r0 = r <| r_instance := instance |> <| r_logging := true |> <| r_messages := r_messages r0 |> ->
  r_messages r = r_messages r0 ++ cut_off_messages "" parts ->
  writes_on parts r0 (opened now instance why r) (opened_parts r parts).
Proof.
  intros Hl Hcut [Hone Hq] Er0 Em. unfold opened. cbn [Attach]. unfold TakeOver. cbv zeta.
  set (r1 := r <| r_instance := instance |> <| r_logging := true |>).
  set (claimed := claimFor now instance why (r0 <| r_busy := true |>)).
  assert (Hclaim : writes_on parts r0 claimed parts) by (by apply tracks_claimFor).
  pose proof (writes_on_logging _ _ _ _ Hclaim Hl) as Hlc.
  set (cut := fun r message => emit now (EReplyCutOff (MkReplyCutOff (header now r) message "interrupted")) r).
  destruct (claimFor_kept now instance why (r1 <| r_busy := true |>)) as [-> _].
  change (r_cutOff (r1 <| r_busy := true |>)) with (r_cutOff r).
  set (after_cut := fold_left cut (r_cutOff r) (claimFor now instance why (r1 <| r_busy := true |>))).
  assert (Hcuts : writes_on parts r0 after_cut (match r_cutOff r with [] => parts | _ => [] end) /\ r_queued after_cut = r_queued r).
  { unfold after_cut. rewrite Hcut. destruct (one_cut_off parts Hone) as [E|(m & E & Hrole & Hm)]; rewrite E in Em |- *.
    - cbn [fold_left]. rewrite app_nil_r in Em. destruct (claimFor_kept now instance why (r1 <| r_busy := true |>)) as [_ Hk].
      rewrite Hk. split; [|done].
      assert (r1 = r0) as -> by (by rewrite Er0, <- Em; destruct r). exact Hclaim.
    - cbn [fold_left].
      assert (claimFor now instance why (r1 <| r_busy := true |>) = AppendMessage now m claimed) as ->.
      { unfold claimed. rewrite <- claimFor_append. f_equal.
        transitivity (r1 <| r_messages := r_messages r |> <| r_busy := true |>); [by destruct r|]. rewrite Em.
        change (r_messages (r0 <| r_busy := true |>)) with (r_messages r0).
        generalize dependent (r_messages r0). intros ms -> _. done. }
      split.
      + eapply writes_on_trans; [exact Hclaim|]. unfold cut.
        match goal with |- context [emit now ?e _] => apply (writes_on_emit parts claimed (AppendMessage now m claimed) now e) end; [done..|].
        intros n r' Hr'. apply (addMessage_sim parts); [done| |done]. cbn. by rewrite Hrole.
      + unfold cut. match goal with |- context [emit now ?e ?x] => destruct (emit_kept now e x) as [_ ->] end.
        change (r_queued claimed = r_queued r). unfold claimed.
        destruct (claimFor_kept now instance why (r0 <| r_busy := true |>)) as [_ Hk]. rewrite Hk, Er0. done. }
  destruct Hcuts as [Hcuts Hqueued]. set (rc := after_cut <| r_cutOff := [] |>).
  assert (Hrc : writes_on parts r0 rc (match r_cutOff r with [] => parts | _ => [] end)).
  { destruct Hcuts as (events & Ht & Hc & Hp). exists events. by split_and!; [apply tracks_cutOff_cleared|..]. }
  unfold opened_parts. cbv zeta. change (r_running r1) with (r_running r). destruct (String.eqb (r_running r) "") eqn:Er; [exact Hrc|].
  eapply writes_on_trans; [exact Hrc|].
  assert (Hd : writes_on (match r_cutOff r with [] => parts | _ => [] end) rc (dropQueued now "writer_gone" rc)
    (match r_cutOff r with [] => parts | _ => [] end)).
  { apply writes_on_dropQueued; [by eapply writes_on_logging|]. change (r_queued rc) with (r_queued after_cut). by rewrite Hqueued. }
  eapply writes_on_trans; [exact Hd|]. apply writes_on_interruptRun.
  eapply writes_on_logging; [exact Hd|]. by eapply writes_on_logging.
Qed.
