(* ===== verification/CrashSafety.v ===== *)
(** * A Record and its log: nothing acknowledged is lost

    The invariant of every state a Session reaches, and its theorems: what
    [FromLoaded] rebuilds from the store is the Record that wrote it, whether the load
    starts at the first Entry or at the last Checkpoint. *)

From S2P Require Import Prelude GoStrings Errors Types Events Entry Store Record Rebuild Simulation Recovery Durable Opening.
Local Open Scope string_scope.
Local Open Scope list_scope.

(** ** The invariant

    [written] are the Events of the Entries in the store; the log is them and
    what the Record has queued. *)
Definition head_of {A} (l : list A) : option A := l !! 0%nat.

Record inv (l : live) (written before after : list Event) (cp : Event) : Prop := {
  inv_log : written ++ r_pending (lv_record l) = before ++ cp :: after;
  inv_cp : is_checkpoint cp = true;
  inv_after : Forall (fun event => is_checkpoint event = false) after;
  inv_made : Forall2 made written (st_entries (lv_store l));
  inv_storable : Forall (fun event => storable event = true) (before ++ cp :: after);
  inv_numbers : forall i event, (before ++ cp :: after) !! i = Some event ->
    h_Number (Head event) = u64 (N.of_nat i + 1);
  inv_last : u64 (r_last (lv_record l)) = u64 (N.of_nat (length (before ++ cp :: after)));
  inv_logging : r_logging (lv_record l) = true;
  inv_id : r_id (lv_record l) <> "";
  inv_epoch : r_epoch (lv_record l) <> "";
  inv_head : (N.of_nat (length (before ++ cp :: after)) < two64)%N ->
    r_head (lv_record l) = N.of_nat (length written);
  inv_first : is_checkpoint <$> head_of (before ++ cp :: after) = Some true;
  inv_whole : sim (lv_parts l) (lv_record l) (replay (before ++ cp :: after) record_zero);
  inv_sim : sim (lv_parts l) (lv_record l) (replay (cp :: after) (load_segments before));
  inv_same : r_messages (replay (before ++ cp :: after) record_zero) = r_messages (replay (cp :: after) (load_segments before));
  inv_header : written <> [] -> rh_Epoch (st_header (lv_store l)) <> "";
}.

(** An operation that queues Events with no Checkpoint among them. *)
Lemma inv_tracks l r2 events written before after cp :
  inv l written before after cp -> tracks (lv_parts l) (lv_record l) r2 events ->
  Forall (fun event => is_checkpoint event = false) events ->
  inv (MkLive r2 (lv_store l) (fold_left parts_after events (lv_parts l))) written before (after ++ events) cp.
Proof.
  intros [] [Hq Hsim] Hnc. destruct Hq. split; cbn [lv_record lv_store lv_parts]; try done.
  - rewrite t_pending, app_assoc, inv_log0. by rewrite <-app_assoc.
  - by apply Forall_app.
  - rewrite app_comm_cons, app_assoc. by apply Forall_app.
  - intros i event. rewrite app_comm_cons, app_assoc. intros [Hi|[Hge Hi]]%lookup_app_Some; [by apply inv_numbers0|].
    rewrite (t_numbers _ _ Hi), <-N.add_assoc, <-u64_add_l, inv_last0, u64_add_l. f_equal. lia.
  - rewrite t_last, <-u64_add_l, inv_last0, u64_add_l, app_comm_cons, app_assoc, (length_app _ events). f_equal. lia.
  - auto.
  - congruence.
  - congruence.
  - intros Hlen. rewrite t_head. apply inv_head0. rewrite app_comm_cons, app_assoc, length_app in Hlen. lia.
  - rewrite app_comm_cons, app_assoc. unfold head_of in *. by rewrite lookup_app_l
      by (rewrite length_app; simpl; lia).
  - rewrite app_comm_cons, app_assoc, replay_app. by apply Hsim.
  - rewrite app_comm_cons, replay_app. by apply Hsim.
  - rewrite app_comm_cons, app_assoc, (replay_app (before ++ cp :: after)), (replay_app (cp :: after)).
    apply replay_messages; [exact inv_same0|].
    destruct inv_whole0 as [[] _], inv_sim0 as [[] _]. congruence.
Qed.

(** The closed Segments of the log are the Record's. *)
Lemma inv_closed l written before after cp :
  inv l written before after cp -> fold_left closed_after (before ++ cp :: after) ∅ = r_closed (lv_record l).
Proof.
  intros []. destruct inv_sim0 as [[] _].
  by rewrite <-sim_closed, replay_closed, load_segments_closed, <-fold_left_app.
Qed.

(** An operation whose last Event is a Checkpoint. *)
Lemma inv_resets l r2 events cp' written before after cp :
  inv l written before after cp -> tracks (lv_parts l) (lv_record l) r2 (events ++ [cp']) ->
  resets r2 cp' ->
  inv (MkLive r2 (lv_store l) []) written (before ++ cp :: after ++ events) [] cp'.
Proof.
  intros Hinv [Hq Hsim] [Hcp' Hreset]. pose proof Hinv as []. destruct Hq.
  assert (Hlog : forall (k : list Event), (before ++ cp :: after ++ events) ++ cp' :: k =
    (before ++ cp :: after) ++ (events ++ [cp']) ++ k).
  { intros k. by rewrite <-!app_assoc, <-app_comm_cons, <-app_assoc. }
  split; cbn [lv_record lv_store lv_parts]; rewrite ?Hlog, ?app_nil_r; try done.
  - by rewrite t_pending, app_assoc, inv_log0.
  - by apply Forall_app.
  - intros i event. intros [Hi|[Hge Hi]]%lookup_app_Some; [by apply inv_numbers0|].
    rewrite (t_numbers _ _ Hi), <-N.add_assoc, <-u64_add_l, inv_last0, u64_add_l. f_equal. lia.
  - rewrite t_last, <-u64_add_l, inv_last0, u64_add_l, (length_app _ (events ++ [cp'])). f_equal. lia.
  - auto.
  - congruence.
  - congruence.
  - intros Hlen. rewrite t_head. apply inv_head0. rewrite length_app in Hlen. lia.
  - unfold head_of in *. by rewrite lookup_app_l by (rewrite length_app; simpl; lia).
  - rewrite replay_app. apply Hsim in inv_whole0. rewrite fold_left_app in inv_whole0. 
    by destruct cp'.
  - apply Hreset; [left; apply load_segments_id|]. rewrite load_segments_closed.
    destruct (Hsim _ inv_sim0) as [[] _].
    rewrite <-sim_closed, <-replay_app, replay_closed, load_segments_closed, <-(fold_left_app closed_after).
    replace (before ++ (cp :: after) ++ events ++ [cp']) with ((before ++ cp :: after ++ events) ++ [cp'])
      by (by rewrite <-!app_assoc, <-!app_comm_cons, <-!app_assoc).
    rewrite (fold_left_app _ _ [cp']). cbn [fold_left]. by destruct cp'.
  - rewrite replay_app, (replay_app events). by apply checkpoint_messages.
Qed.

(** ** Every step keeps it *)

Lemma entries_of_made instance at_ events entries :
  entries_of instance at_ events = Ok entries -> Forall2 made events entries.
Proof.
  revert at_ entries. induction events as [|event events IH]; intros at_ entries; cbn [entries_of].
  - intros [= <-]. constructor.
  - destruct (entryOf event instance) as [entry|] eqn:E; [|done]. simpl.
    destruct (negb _); [done|]. destruct (entries_of instance _ events) as [rest|] eqn:Er; [|done].
    intros [= <-]. constructor; [by exists instance|by eapply IH].
Qed.

Lemma foldLive_messages event r : r_messages (foldLive event r) = r_messages r.
Proof.
  destruct event; try done; cbn [foldLive].
  - apply (endRun_fields (runEnded e) r).
  - unfold load. by repeat case_match.
  - unfold foldNotice. by repeat case_match.
  - unfold foldNotice. by repeat case_match.
Qed.

Lemma commit_messages now event r :
  r_messages (commit now r event) = r_messages r ++ match messageOf event with Some message => [message] | None => [] end.
Proof.
  unfold commit, write_one. destruct (number now _ (append_message now r event)) as [rn out] eqn:En. cbn [fst].
  pose proof (f_equal r_messages (index_erase out (h_Time (Head out)) (foldLive out (keepSpilled out rn)))) as Ei.
  pose proof (f_equal r_messages (keepSpilled_erase out rn)) as Ek.
  pose proof (number_erase now (WithSession event (r_id (append_message now r event))) (append_message now r event)) as Ee.
  rewrite En in Ee. cbn [fst] in Ee. apply (f_equal r_messages) in Ee.
  change (r_messages (indexMessage out (h_Time (Head out)) (foldLive out (keepSpilled out rn))) =
    r_messages (foldLive out (keepSpilled out rn))) in Ei.
  change (r_messages (keepSpilled out rn) = r_messages rn) in Ek.
  change (r_messages rn = r_messages (append_message now r event)) in Ee.
  rewrite Ei, foldLive_messages, Ek, Ee. unfold append_message.
  by destruct (messageOf event); [|rewrite app_nil_r].
Qed.

Lemma inv_write l now events written before after cp :
  inv l written before after cp ->
  Forall (fun event => session_event event = true) events ->
  commits_allowed (lv_parts l) (r_messages (lv_record l)) events ->
  exists after',
    inv (MkLive (fold_left (commit now) events (lv_record l)) (lv_store l)
      (fold_left parts_after events (lv_parts l))) written before after' cp.
Proof.
  intros Hinv Hs Hp. revert l after Hinv Hp. induction Hs as [|event events Hs _ IH]; intros l after Hinv Hp.
  { exists after. by destruct l. }
  destruct Hp as [Hp Hps]. pose proof Hinv as Hinv'. destruct Hinv'. rewrite <- (commit_messages now) in Hps.
  destruct (tracks_commit (lv_parts l) now event (lv_record l)) as (event' & Ht & Hnc & Hpa); [done..|].
  pose proof (inv_tracks _ _ _ _ _ _ _ Hinv Ht ltac:(by repeat constructor)) as Hinv2.
  cbn [fold_left] in Hinv2 |- *. rewrite Hpa in Hinv2.
  by apply (IH _ _ Hinv2).
Qed.

Lemma inv_simple l r2 events written before after cp :
  inv l written before after cp ->
  tracks (lv_parts l) (lv_record l) r2 events ->
  Forall (fun event => is_checkpoint event = false) events ->
  fold_left parts_after events (lv_parts l) = lv_parts l ->
  exists after', inv (l <| lv_record := r2 |>) written before after' cp.
Proof.
  intros Hinv Ht Hnc Hp. eexists. pose proof (inv_tracks _ _ _ _ _ _ _ Hinv Ht Hnc) as H.
  rewrite Hp in H. exact H.
Qed.

(** What a successful [TakePending] returns, and leaves. *)
Lemma TakePending_ok r r2 tk :
  TakePending r = Ok (r2, Some tk) ->
  r2 = r <| r_pending := [] |> /\ Forall2 made (r_pending r) (tk_entries tk) /\
  tk_events tk = r_pending r /\ tk_header tk = MkRecordHeader (r_epoch r) (infoLocked r) /\ r_pending r <> [].
Proof.
  unfold TakePending. destruct (r_pending r) as [|event events] eqn:E; [done|].
  destruct (entries_of _ _ _) as [entries|] eqn:Ee; [|done]. cbn [rbind]. intros [= <- <-].
  split_and!; try done. by eapply entries_of_made.
Qed.

(** The Seq of the last Entry of a write. *)
Lemma last_made_seq written pending entries :
  (forall i event, (written ++ pending) !! i = Some event -> h_Number (Head event) = u64 (N.of_nat i + 1)) ->
  Forall2 made pending entries -> pending <> [] -> (N.of_nat (length (written ++ pending)) < two64)%N ->
  default 0%N (en_Seq <$> last entries) = N.of_nat (length (written ++ pending)).
Proof.
  intros Hn Hm Hne Hlen. pose proof (Forall2_length Hm) as Hl. rewrite length_app in *.
  assert (0 < length pending)%nat by (destruct pending; simpl; [done|lia]).
  destruct (lookup_lt_is_Some_2 entries (length entries - 1)%nat) as [e He]; [lia|].
  rewrite last_lookup. replace (pred (length entries)) with (length entries - 1)%nat by lia. rewrite He. cbn.
  destruct (Forall2_lookup_r _ _ _ _ _ Hm He) as (event & Hev & Hmade).
  rewrite (made_seq _ _ Hmade), (Hn (length written + (length entries - 1))%nat event).
  - rewrite u64_small; lia.
  - rewrite lookup_app_r by lia. by replace (length written + (length entries - 1) - length written)%nat
      with (length entries - 1)%nat by lia.
Qed.

Lemma inv_flush l r tk written before after cp :
  inv l written before after cp -> TakePending (lv_record l) = Ok (r, Some tk) ->
  exists written', inv (l <| lv_record := fst (flushed r tk (lv_store l)) |>
    <| lv_store := snd (flushed r tk (lv_store l)) |>) written' before after cp.
Proof.
  intros [] Htk. apply TakePending_ok in Htk as (-> & Hm & _ & Hh & Hne).
  exists (written ++ r_pending (lv_record l)).
  split; cbn; try done.
  - by rewrite app_nil_r.
  - by apply Forall2_app.
  - intros Hlen. rewrite (inv_head0 Hlen). rewrite <-inv_log0 in inv_numbers0, Hlen.
    rewrite (last_made_seq written (r_pending (lv_record l)) _ inv_numbers0 Hm Hne Hlen), length_app. lia.
  - eapply sim_erase; [|reflexivity|exact inv_whole0]. done.
  - eapply sim_erase; [|reflexivity|exact inv_sim0]. done.
  - intros _. by rewrite Hh.
Qed.

Lemma inv_step l l' written before after cp :
  inv l written before after cp -> step l l' ->
  exists written' before' after' cp', inv l' written' before' after' cp'.
Proof.
  intros Hinv Hstep. pose proof (inv_logging _ _ _ _ _ Hinv) as Hl.
  destruct Hstep as [l now events Hs Hp|l now key value|l now|l now|l now why segment tail compaction r2 closed [Hb Hi] Hc
    |l now why merged replaces tail compaction r2 closed [Hb Hi] Hc|l now why messages compaction [Hb Hi]|l r tk Htk].
  - destruct (inv_write _ now events _ _ _ _ Hinv Hs Hp) as [after' H].
    exists written, before, after', cp. rewrite Write_commits. exact H.
  - destruct (tracks_SetMetadata (lv_parts l) now key value _ Hl) as (events & Ht & Hnc & Hp).
    destruct (inv_simple _ _ _ _ _ _ _ Hinv Ht Hnc Hp) as [after' H]. by exists written, before, after', cp.
  - destruct (tracks_Release (lv_parts l) now _ Hl) as (events & Ht & Hnc & Hp).
    destruct (inv_simple _ _ _ _ _ _ _ Hinv Ht Hnc Hp) as [after' H]. by exists written, before, after', cp.
  - destruct (tracks_claimFor (lv_parts l) now (r_instance (lv_record l)) ClaimWhyIdle _ Hl) as (events & Ht & Hnc & Hp).
    destruct (inv_simple _ _ _ _ _ _ _ Hinv Ht Hnc Hp) as [after' H]. by exists written, before, after', cp.
  - destruct (tracks_CloseSegment (lv_parts l) _ _ _ _ _ _ _ _ Hl Hi Hb Hc) as (event & event' & Ht & _ & Hr).
    eexists _, _, _, _. exact (inv_resets _ _ [event] _ _ _ _ _ Hinv Ht Hr).
  - destruct (tracks_MergeSegments (lv_parts l) _ _ _ _ _ _ _ _ _ Hl Hi Hb Hc) as (event & event' & Ht & _ & Hr).
    eexists _, _, _, _. exact (inv_resets _ _ [event] _ _ _ _ _ Hinv Ht Hr).
  - destruct (tracks_checkpoint (lv_parts l) now why messages compaction (lv_record l)
      ((lv_record l) <| r_messages := messages |> <| r_used := [] |>)) as (event & Ht & Hr); [done..|by constructor|done|].
    eexists _, _, _, _. exact (inv_resets _ _ [] _ _ _ _ _ Hinv Ht Hr).
  - destruct (inv_flush _ _ _ _ _ _ _ Hinv Htk) as [written' H]. by exists written', before, after, cp.
Qed.

(** ** The first state *)

Lemma retain_busy event b r : (retain event r) <| r_busy := b |> = retain event (r <| r_busy := b |>).
Proof. unfold retain. repeat case_match; try done; simplify_eq/=; congruence. Qed.

Lemma emit_busy now event b r : (emit now event r) <| r_busy := b |> = emit now event (r <| r_busy := b |>).
Proof.
  unfold emit. change (r_logging (r <| r_busy := b |>)) with (r_logging r). destruct (r_logging r) eqn:El; [|done].
  unfold number. cbv zeta. cbn [fst].
  change (r_last (r <| r_busy := b |>)) with (r_last r).
  change ((r <| r_busy := b |>) <| r_last := ?n |>) with ((r <| r_last := n |>) <| r_busy := b |>).
  rewrite <-retain_busy. set (r1 := retain _ _).
  change (r_logging (r1 <| r_busy := b |>)) with (r_logging r1). by destruct (r_logging r1).
Qed.

Lemma claimFor_busy now instance why r :
  (claimFor now instance why r) <| r_busy := true |> = claimFor now instance why (r <| r_busy := true |>).
Proof. unfold claimFor. cbv zeta. rewrite emit_busy. cbn. by destruct (_ || _). Qed.

Lemma tracks_StartWriting now epoch instance idle r0 retain_ :
  fresh r0 ->
  exists created events,
    queues (started_log (r0 <| r_instance := instance |> <| r_claim := MkClaim "" 0 |>))
      (StartWriting now epoch instance idle r0) (created :: events) /\
    is_checkpoint created = true /\ Forall (fun event => is_checkpoint event = false) events /\
    sim [] (StartWriting now epoch instance idle r0)
      (replay (created :: events) (record_zero <| r_retainRead := retain_ |>)) /\
    r_logging (StartWriting now epoch instance idle r0) = true.
Proof.
  intros Hf. destruct (tracks_startLog now epoch instance r0 retain_ Hf)
    as (created & events & Hq & Hc & Hnc & Hp & _ & Hsim).
  set (r := r0 <| r_instance := instance |> <| r_claim := MkClaim "" 0 |>) in *.
  assert (Hl : r_logging (startLog now epoch r) = true) by (by apply Hq).
  destruct (tracks_claimFor [] now instance ClaimWhyNewSession _ Hl) as (claims & [Hq2 Hs2] & Hnc2 & Hp2).
  assert (Hl2 := t_logging _ _ _ Hq2 Hl).
  unfold StartWriting. fold r. rewrite claimFor_busy.
  set (r2 := claimFor _ _ _ _) in *. destruct idle.
  - destruct (tracks_Release [] now r2 Hl2) as (rel & [Hq3 Hs3] & Hnc3 & Hp3).
    assert (Hrel : Release now r2 = emit now (released now (r2 <| r_busy := false |>)) (r2 <| r_busy := false |>)).
    { unfold Release. assert (r_busy r2 = true) as ->; [|done]. unfold r2. rewrite <-claimFor_busy. done. }
    rewrite Hrel in Hq3, Hs3. cbv zeta.
    exists created, (events ++ claims ++ rel). split_and!; [| |by repeat apply Forall_app_2| |].
    + rewrite app_comm_cons. eapply queues_trans; [done|]. by eapply queues_trans.
    + done.
    + rewrite app_comm_cons, !replay_app. rewrite Hp2 in Hs2. rewrite Hp3 in Hs3. by apply Hs3, Hs2.
    + by apply Hq3.
  - cbv zeta. exists created, (events ++ claims). split_and!; [| |by apply Forall_app_2| |done].
    + rewrite app_comm_cons. by eapply queues_trans.
    + done.
    + rewrite app_comm_cons, replay_app. rewrite Hp2 in Hs2. by apply Hs2.
Qed.

Lemma inv_start now epoch instance idle r0 h :
  fresh r0 ->
  exists created events,
    inv (MkLive (StartWriting now epoch instance idle r0) (MkStored [] h) []) [] [] events created.
Proof.
  intros Hf. destruct (tracks_StartWriting now epoch instance idle r0 true Hf)
    as (created & events & Hq & Hc & Hnc & Hsim & Hl).
  exists created, events. destruct Hq. split; cbn [lv_record lv_store lv_parts app]; try done.
  - rewrite t_id. apply (fresh_id _ Hf).
  - rewrite t_epoch. apply (fresh_epoch _ Hf).
  - intros _. rewrite t_head. apply (fresh_head _ Hf).
  - cbn. by rewrite Hc.
Qed.

(** ** What a load rebuilds *)

Lemma sorted_by_index {A} (f : A -> N) (l : list A) (base : N) :
  (forall i x, l !! i = Some x -> f x = (base + N.of_nat i)%N) -> StronglySorted N.lt (f <$> l).
Proof.
  revert base. induction l as [|x l IH]; intros base H; [constructor|].
  assert (Hx : f x = base) by (specialize (H 0%nat x eq_refl); lia).
  assert (Hl : forall i y, l !! i = Some y -> f y = (base + 1 + N.of_nat i)%N).
  { intros i y Hi. specialize (H (S i) y Hi). lia. }
  cbn. constructor; [by apply (IH (base + 1)%N)|].
  apply Forall_fmap, Forall_lookup_2. intros i y Hi. cbn. rewrite Hx, (Hl i y Hi). lia.
Qed.

Lemma stored_sorted l written before after cp :
  inv l written before after cp -> r_pending (lv_record l) = [] -> small (lv_store l) ->
  StronglySorted N.lt (en_Seq <$> st_entries (lv_store l)) /\
  (forall i e, st_entries (lv_store l) !! i = Some e -> en_Seq e = (N.of_nat i + 1)%N).
Proof.
  intros [] Hp Hsmall. rewrite Hp, app_nil_r in inv_log0. rewrite <-inv_log0 in inv_numbers0.
  assert (Hseq : forall i e, st_entries (lv_store l) !! i = Some e -> en_Seq e = (N.of_nat i + 1)%N).
  { intros i e Hi. destruct (Forall2_lookup_r _ _ _ _ _ inv_made0 Hi) as (event & Hev & Hm).
    rewrite (made_seq _ _ Hm), (inv_numbers0 _ _ Hev). apply u64_small.
    apply lookup_lt_Some in Hi. unfold small in Hsmall. lia. }
  split; [|done]. apply (sorted_by_index en_Seq _ 1). intros i e Hi. rewrite (Hseq i e Hi). lia.
Qed.

Lemma made_not_checkpoint event entry :
  made event entry -> storable event = true -> is_checkpoint event = false -> IsCheckpoint entry = false.
Proof.
  intros Hm. rewrite storable_eq. intros Hs Hc. unfold IsCheckpoint. rewrite (made_kind _ _ Hm).
  destruct event; try discriminate Hs; try discriminate Hc; reflexivity.
Qed.

Lemma made_all_not_checkpoint events entries :
  Forall2 made events entries -> Forall (fun event => storable event = true) events ->
  Forall (fun event => is_checkpoint event = false) events ->
  Forall (fun entry => IsCheckpoint entry = false) entries.
Proof.
  induction 1 as [|event entry events entries Hm _ IH]; intros Hs Hc; [constructor|].
  invert Hs. invert Hc. constructor; [by eapply made_not_checkpoint|auto].
Qed.

(** What [FromLoaded] sets after the rebuild. *)
Lemma FromLoaded_restored loaded r parts log live_ :
  rebuildRecord (ld_Entries loaded) false (ld_Segments loaded) = Ok r -> restored parts log live_ r ->
  rh_Epoch (ld_Header loaded) <> "" ->
  exists r', FromLoaded loaded = Ok r' /\ restored parts log live_ r' /\
    r_head r' = ld_Seq loaded /\ r_last r' = ld_Seq loaded /\ r_epoch r' <> "".
Proof.
  intros Hr [] Hepoch. unfold FromLoaded. rewrite Hr. cbn [rbind]. cbv zeta.
  eexists. split; [reflexivity|]. split; [|split_and!].
  - destruct (_ =? 0)%Z, (String.eqb _ ""), (String.eqb _ ""); by split.
  - destruct (_ =? 0)%Z, (String.eqb _ ""), (String.eqb _ ""); done.
  - destruct (_ =? 0)%Z, (String.eqb _ ""), (String.eqb _ ""); done.
  - set (r2 := if String.eqb (r_parentID _) "" then _ else _). clearbody r2.
    destruct (String.eqb_spec (r_epoch r2) "") as [E|E]; done.
Qed.

(** The load of a store's whole Record, cut at its last Checkpoint. *)
Lemma load_rebuilds l written before after cp :
  inv l written before after cp -> r_pending (lv_record l) = [] -> small (lv_store l) ->
  exists r', FromLoaded (load_of (lv_store l)) = Ok r' /\
    restored (lv_parts l) (prefix (lv_record l) ++ r_messages (replay (cp :: after) (load_segments before))) (lv_record l) r' /\
    r_head r' = head (lv_store l) /\ r_last r' = head (lv_store l) /\ r_epoch r' <> "".
Proof.
  intros Hinv Hp Hsmall. destruct (stored_sorted _ _ _ _ _ Hinv Hp Hsmall) as [Hsort _]. destruct Hinv.
  rewrite Hp, app_nil_r in inv_log0. subst written.
  apply Forall2_app_inv_l in inv_made0 as (eb & eca & Hb & Hca & He).
  apply Forall2_cons_inv_l in Hca as (ec & ea & Hc & Ha & ->).
  pose proof inv_storable0 as Hs. apply Forall_app in Hs as [_ Hs]. apply Forall_cons_1 in Hs as [_ Hs].
  destruct (made_checkpoint _ _ Hc inv_cp0) as [Hchk _].
  assert (Hload : loadedFrom (st_entries (lv_store l)) = (filter is_fact (ec :: ea), filter is_segment_closed eb)).
  { rewrite He. apply loadedFrom_app; [done|by eapply made_all_not_checkpoint]. }
  destruct (rebuild_from before cp after eb ec ea (lv_parts l) (lv_record l)) as (r & Hr & Hres); try done.
  { rewrite He, fmap_app in Hsort. by apply StronglySorted_app_1_r in Hsort. }
  apply (FromLoaded_restored (load_of (lv_store l)) r); [|done|].
  - unfold load_of. rewrite Hload. exact Hr.
  - apply inv_header0. by destruct before.
Qed.

(** ** A Record that is opened *)

(** The Record as it was loaded, but without the replies that were cut off. *)
Definition loaded_of (instance : string) (messages : list Message) (r : SessionRecord) : SessionRecord :=
  r <| r_instance := instance |> <| r_logging := true |> <| r_messages := messages |>.

Lemma sim_loaded parts instance log started r r0 rx :
  sim parts r0 rx -> restored parts log r0 r -> log = prefix r0 ++ r_messages rx ->
  sim parts (loaded_of instance (repair log started) r) rx.
Proof.
  intros [[] Hused] [Hd _ _ _] ->. injection Hd as ? ? ? ? ? ? ? ? ? ? ? ? ?. 
  assert (Hp : prefix (loaded_of instance (repair (prefix r0 ++ r_messages rx) started) r) = prefix r0).
  { unfold prefix, closed_segment, loaded_of. cbn. by rewrite_fields r. }
  split; [split|]; try (cbn; congruence).
  - rewrite Hp. apply mended_repair.
  - unfold total_runs, loaded_of in *. cbn. congruence.
  - unfold holds_used, loaded_of in *. cbn. by rewrite_fields r.
Qed.

Lemma inv_opened l r now instance why written before after cp :
  inv l written before after cp -> r_pending (lv_record l) = [] -> small (lv_store l) ->
  FromLoaded (load_of (lv_store l)) = Ok r -> may_open r (lv_parts l) ->
  exists after', inv (MkLive (opened now instance why r) (lv_store l) (opened_parts r (lv_parts l))) written before after' cp /\
    r_id (opened now instance why r) = r_id (lv_record l).
Proof.
  intros Hinv Hp Hsmall Hload Hmay.
  destruct (load_rebuilds _ _ _ _ _ Hinv Hp Hsmall) as (r' & Hload' & Hres & Hhead & Hlast & Hepoch).
  rewrite Hload in Hload'. injection Hload' as <-. destruct (rs_messages _ _ _ _ Hres) as [started Hm].
  set (log := prefix (lv_record l) ++ _) in *.
  rewrite repair_app, repair_cut_off in Hm by apply cut_off_plain.
  set (r0 := loaded_of instance (repair log started) r).
  destruct (opened_writes now instance why (lv_parts l) r r0) as (events & Ht & Hc & Hparts); [done|apply Hres|done|done|exact Hm|].
  assert (Hinv0 : inv (MkLive r0 (lv_store l) (lv_parts l)) written before after cp).
  { assert (Hh : head (lv_store l) = N.of_nat (length (before ++ cp :: after))).
    { rewrite head_small by done. rewrite <- (Forall2_length (inv_made _ _ _ _ _ Hinv)).
      pose proof (inv_log _ _ _ _ _ Hinv) as Hlog. rewrite Hp, app_nil_r in Hlog. by rewrite Hlog. }
    assert (Hid : r_id r = r_id (lv_record l)) by (pose proof (rs_durable _ _ _ _ Hres) as Hd; by injection Hd).
    destruct Hinv. rewrite Hp in inv_log0.
    split; cbn [lv_record lv_store lv_parts]; try done.
    - change (r_pending r0) with (r_pending r). by rewrite (rs_pending _ _ _ _ Hres).
    - change (r_last r0) with (r_last r). by rewrite Hlast, Hh.
    - change (r_id r <> ""). by rewrite Hid.
    - intros _. change (r_head r0) with (r_head r). rewrite Hhead, Hh, <- inv_log0, app_nil_r. done.
    - apply (sim_loaded _ _ _ _ _ (lv_record l)); [done|exact Hres|]. unfold log. by rewrite <- inv_same0.
    - by apply (sim_loaded _ _ _ _ _ (lv_record l)). }
  exists (after ++ events). split; [rewrite <- Hparts; by apply (inv_tracks _ _ _ _ _ _ _ Hinv0)|].
  destruct Ht as [Hq _]. rewrite (t_id _ _ _ Hq). pose proof (rs_durable _ _ _ _ Hres) as Hd. by injection Hd.
Qed.

(** Every state a Session reaches. *)
Lemma reaches_inv r0 l :
  reaches r0 l -> exists written before after cp, inv l written before after cp.
Proof.
  induction 1 as [now epoch instance idle h Hf Hi|l l' _ (written & before & after & cp & Hinv) Hstep
    |l r now instance why _ (written & before & after & cp & Hinv) Hp Hsmall Hload Hmay].
  - destruct (inv_start now epoch instance idle r0 h Hf) as (created & events & H). by exists [], [], events, created.
  - by eapply inv_step.
  - destruct (inv_opened _ _ now instance why _ _ _ _ Hinv Hp Hsmall Hload Hmay) as (after' & H & _). by exists written, before, after', cp.
Qed.

(** The replies that stream are those the log says. *)
Lemma reaches_log_parts r0 l :
  reaches r0 l -> r_pending (lv_record l) = [] -> lv_parts l = log_parts (st_entries (lv_store l)).
Proof.
  intros Hr Hp. destruct (reaches_inv _ _ Hr) as (written & before & after & cp & []).
  rewrite Hp, app_nil_r in inv_log0. subst written. rewrite (log_parts_made _ _ inv_made0 inv_storable0).
  destruct inv_whole0 as [[] _]. by rewrite <- sim_parts, replay_parts.
Qed.

(** ** What a view rebuilds *)

(** A rebuild of the whole log, as [View] makes it. *)
Lemma whole_rebuilds l written before after cp :
  inv l written before after cp -> r_pending (lv_record l) = [] -> small (lv_store l) ->
  exists r, rebuildRecord (st_entries (lv_store l)) true [] = Ok r /\
    restored (lv_parts l) (prefix (lv_record l) ++ r_messages (replay (cp :: after) (load_segments before))) (lv_record l) r.
Proof.
  intros Hinv Hp Hsmall. destruct (stored_sorted _ _ _ _ _ Hinv Hp Hsmall) as [Hsort _]. destruct Hinv.
  rewrite Hp, app_nil_r in inv_log0. subst written. rewrite <- inv_same0.
  unfold rebuildRecord. destruct (before ++ cp :: after) as [|first rest] eqn:El; [done|].
  cbn in inv_first0. injection inv_first0 as Hfirst.
  apply Forall2_cons_inv_l in inv_made0 as (e & es & He & Hes & Hst). rewrite Hst in *.
  destruct (made_checkpoint _ _ He Hfirst) as [-> _]. cbn [negb apply_segments rbind].
  rewrite (apply_entries_made (first :: rest) (e :: es)); [|by constructor|done|done|by apply Forall_true].
  cbn [rbind].
  assert (Hsim : sim (lv_parts l) (lv_record l) (replay (first :: rest) (record_zero <| r_retainRead := true |>))).
  { exact inv_whole0. }
  destruct (finish_restored _ _ _ (default 0%N (en_Seq <$> last (e :: es))) Hsim inv_id0) as (r & Hr & Hreb & _).
  { by rewrite replay_pending. }
  by exists r.
Qed.

(** A load of what a Session stored. *)
Lemma load_rebuilt r0 l :
  reaches r0 l -> r_pending (lv_record l) = [] -> small (lv_store l) ->
  exists r', FromLoaded (load_of (lv_store l)) = Ok r' /\ rebuilt (lv_parts l) (lv_record l) r' /\
    r_head r' = head (lv_store l) /\ r_last r' = head (lv_store l).
Proof.
  intros Hr Hp Hsmall. destruct (reaches_inv _ _ Hr) as (written & before & after & cp & Hinv).
  destruct (load_rebuilds _ _ _ _ _ Hinv Hp Hsmall) as (r' & Hload & Hres & Hhead & Hlast & _).
  exists r'. split_and!; [done| |done|done]. eapply restored_rebuilt; [|exact Hres].
  apply (inv_sim _ _ _ _ _ Hinv).
Qed.

(** ** Properties *)

(** C1: what a crash leaves is what the writer had.  A Session starts a new Record, commits Messages and writes
    Events, closes and merges Segments, writes Checkpoints, releases and claims and flushes; at any point where
    everything was flushed it may be gone, and what is stored loaded and taken over, any number of times
    ([reaches]).  In every such state, once everything queued has been flushed, loading the Record from its last
    Checkpoint succeeds and gives the same identity, Segments, metadata, compactions,
    loaded Tools, Claim, running Run, notices, usage and totals as the live
    Record, at the store's head; its Messages are the live ones, with the replies that were
    streaming cut off and the open Tool calls answered, but that an answer an earlier load made may now say that
    the Tool was started, or that it was not.  It is assumed of what is written that no Message is committed
    while another reply's kept text is still open and no result unless a call is (the code keeps to this but where
    the commit of a cut off reply was refused, reply.go:243, whose text [refused_text_comes_back] shows coming
    back), and at a take-over that at most one reply was streaming text and no notice is among the queued
    Messages. *)
Theorem load_recovers_the_record (r0 : SessionRecord) (l : live) :
  reaches r0 l -> r_pending (lv_record l) = [] -> small (lv_store l) ->
  exists r', FromLoaded (load_of (lv_store l)) = Ok r' /\ rebuilt (lv_parts l) (lv_record l) r' /\
    r_head r' = head (lv_store l) /\ r_last r' = head (lv_store l).
Proof.
  apply load_rebuilt.
Qed.

(** a load from the last Checkpoint and a view of the whole log, log
    Entries included, agree: on everything but the Run records and Events that
    only the whole log holds, and on whether an answer of an earlier load says its Tool was started. *)
Theorem load_agrees_with_view (r0 : SessionRecord) (l : live) :
  reaches r0 l -> r_pending (lv_record l) = [] -> small (lv_store l) ->
  lv_parts l = [] -> all_answered [] ∅ (r_messages (lv_record l)) ->
  exists loaded viewed, FromLoaded (load_of (lv_store l)) = Ok loaded /\ View (st_entries (lv_store l)) = Ok viewed /\
    durable loaded = durable (lv_record l) /\ durable viewed = durable (lv_record l) /\
    Forall2 alike (r_messages loaded) (r_messages (lv_record l)) /\ Forall2 alike (r_messages viewed) (r_messages (lv_record l)).
Proof.
  intros Hr Hp Hsmall Hparts Hans. destruct (reaches_inv _ _ Hr) as (written & before & after & cp & Hinv).
  destruct (load_rebuilds _ _ _ _ _ Hinv Hp Hsmall) as (loaded & Hload & [Hd [st Hm] _ _] & _).
  destruct (whole_rebuilds _ _ _ _ _ Hinv Hp Hsmall) as (v & Hv & [Hd' [st' Hm'] _ _]).
  exists loaded, (v <| r_logging := false |>).
  assert (Hcut : cut_off_messages "" (lv_parts l) = []) by (by rewrite Hparts).
  rewrite Hcut, app_nil_r in Hm, Hm'. set (log := prefix (lv_record l) ++ _) in *.
  assert (Hmended : mended (r_messages (lv_record l)) log) by apply (inv_sim _ _ _ _ _ Hinv).
  assert (Halike : forall started, Forall2 alike (repair log started) (r_messages (lv_record l))).
  { intros started. destruct (mended_rebuilt _ _ [] started Hmended I) as [Ha _]. rewrite !app_nil_r in Ha.
    by rewrite (repair_reference (r_messages _)), repair_go_complete in Ha. }
  split_and!; try done.
  - unfold View, fromEntries. by rewrite Hv.
  - rewrite Hm. apply Halike.
  - change (r_messages (v <| r_logging := false |>)) with (r_messages v). rewrite Hm'. apply Halike.
Qed.

(** The Entries of consecutive storable Events can be made. *)
Lemma entries_of_ok instance at_ events :
  Forall (fun event => storable event = true) events -> (at_ < two64)%N ->
  (forall i event, events !! i = Some event -> h_Number (Head event) = u64 (at_ + N.of_nat i)) ->
  exists entries, entries_of instance at_ events = Ok entries /\
    forall i e, entries !! i = Some e -> en_Seq e = u64 (at_ + N.of_nat i).
Proof.
  intros Hs. revert at_. induction Hs as [|event events Hs _ IH]; intros at_ Hat Hn; [by exists []|].
  cbn [entries_of]. apply andb_prop in Hs as [_ Hs]. unfold entryOf.
  destruct (layerOf (Kind event)) as [layer|]; [|done]. cbn [rbind en_Seq].
  rewrite (Hn 0%nat event eq_refl), N.add_0_r, (u64_small at_) by done. rewrite N.eqb_refl. cbn [negb].
  destruct (IH (u64_add at_ 1)) as (entries & -> & Hseq).
  - apply u64_lt.
  - intros i ev Hi. rewrite (Hn (S i) ev Hi). unfold u64_add. rewrite u64_add_l. f_equal. lia.
  - eexists. split; [reflexivity|]. intros [|i] e.
    + intros [= <-]. cbn. by rewrite N.add_0_r, u64_small.
    + intros Hi. rewrite (Hseq i e Hi). unfold u64_add. rewrite u64_add_l. f_equal. lia.
Qed.

(** what a Record hands its Writer is always a write the store can accept:
    in every state a Session reaches, [TakePending] succeeds, and the Entries it
    returns, the first of a new Record's included, pass [CheckBatch] at the
    Record's head, with the Record's epoch in the Header. *)
Theorem take_pending_is_a_batch (r0 : SessionRecord) (l : live) :
  reaches r0 l ->
  (N.of_nat (length (st_entries (lv_store l)) + length (r_pending (lv_record l))) < two64)%N ->
  r_pending (lv_record l) <> [] ->
  exists r tk, TakePending (lv_record l) = Ok (r, Some tk) /\
    CheckBatch (r_head (lv_record l)) (tk_entries tk) (tk_header tk) = None /\
    tk_events tk = r_pending (lv_record l) /\ r_head (lv_record l) = N.of_nat (length (st_entries (lv_store l))).
Proof.
  intros Hr Hlen Hne. destruct (reaches_inv _ _ Hr) as (written & before & after & cp & Hinv). destruct Hinv.
  rewrite <-inv_log0 in *. rewrite <-(Forall2_length inv_made0), <-length_app in *.
  specialize (inv_head0 Hlen). unfold TakePending.
  destruct (r_pending (lv_record l)) as [|event events] eqn:Ep; [done|]. rewrite <-Ep in *.
  apply Forall_app in inv_storable0 as [_ Hs].
  destruct (entries_of_ok (r_instance (lv_record l)) (u64_add (r_head (lv_record l)) 1) _ Hs)
    as (entries & He & Hseq).
  { apply u64_lt. }
  { intros i ev Hi. unfold u64_add. rewrite u64_add_l, inv_head0.
    rewrite (inv_numbers0 (length written + i)%nat).
    - f_equal. lia.
    - rewrite lookup_app_r by lia. by replace (length written + i - length written)%nat with i by lia. }
  rewrite He. cbn [rbind]. eexists _, _. split; [reflexivity|]. cbn [tk_entries tk_events tk_header].
  split_and!; [|done|done]. pose proof (entries_of_made _ _ _ _ He) as Hm.
  destruct entries as [|e es]; [apply Forall2_length in Hm; by rewrite Ep in Hm|].
  apply CheckBatch_ok; [done| |].
  - apply first_gap_None. intros j en Hj. rewrite (Hseq j en Hj), inv_head0. unfold u64_add.
    rewrite u64_add_l. f_equal. lia.
  - intros Hz. assert (written = []) as -> by (destruct written; [done|simpl in inv_head0; lia]).
    rewrite Ep in inv_first0, Hm. cbn in inv_first0. injection inv_first0 as Hcp.
    inversion Hm as [|? ? ? ? Hm1 _]; subst. clear Hm. rename Hm1 into Hm. destruct (made_checkpoint _ _ Hm Hcp) as [Hc Hf].
    split; [done|]. rewrite <-(made_layer _ _ Hm) in Hf. by apply bool_decide_eq_true in Hf.
Qed.

(** ** Witnesses

    A Session that commits a Message, closes it into a Segment, commits a
    reply, and flushes. *)

Definition flush_of (l : live) : live :=
  match TakePending (lv_record l) with
  | Ok (r, Some tk) =>
    l <| lv_record := fst (flushed r tk (lv_store l)) |> <| lv_store := snd (flushed r tk (lv_store l)) |>
  | _ => l
  end.

Lemma reaches_flush r0 l :
  reaches r0 l -> (if TakePending (lv_record l) is Ok (_, Some _) then true else false) = true ->
  reaches r0 (flush_of l).
Proof.
  intros Hr H. unfold flush_of. destruct (TakePending (lv_record l)) as [[r [tk|]]|] eqn:E; try discriminate H.
  eapply reaches_step; [exact Hr|]. by apply step_flush.
Qed.

Definition close_of (now : gotime) (segment : Segment) (l : live) : live :=
  l <| lv_record := fst (CloseSegment now CompactionWhyOnDemand segment [] None (lv_record l)) |>
    <| lv_parts := [] |>.

Lemma reaches_close r0 l now segment :
  reaches r0 l -> r_busy (lv_record l) = true -> cl_Instance (r_claim (lv_record l)) <> "" ->
  is_ok (snd (CloseSegment now CompactionWhyOnDemand segment [] None (lv_record l))) = true ->
  reaches r0 (close_of now segment l).
Proof.
  intros Hr Hb Hi Hok. eapply reaches_step; [exact Hr|]. unfold close_of.
  destruct (CloseSegment now CompactionWhyOnDemand segment [] None (lv_record l)) as [r2 [closed|err]] eqn:E; [|done].
  by eapply step_close.
Qed.

Definition write_of (now : gotime) (events : list Event) (l : live) : live :=
  l <| lv_record := fst (Write now events (fold_left (append_message now) events (lv_record l))) |>
    <| lv_parts := fold_left parts_after events (lv_parts l) |>.

Definition sample_record : SessionRecord := New 5 "s1" "e1" [WithMetadata {[ "team" := "a" ]}].

Definition sample_question : Message := (UserMessage "question") <| m_ID := "m1" |>.
Definition sample_answer : Message := (AssistantMessage "answer") <| m_ID := "m2" |>.

Definition sample_start : live :=
  MkLive (StartWriting 6 "" "pod-a" false sample_record) (MkStored [] (MkRecordHeader "e1" (infoLocked sample_record))) [].

Definition sample_live : live :=
  flush_of (write_of 9 [EReplyEnded (MkReplyEnded (NewHeader 9 "s1" "r1" 1) sample_answer "m" "end_turn" 0)]
    (close_of 8 (segment_zero <| sg_Messages := [sample_question] |>)
      (write_of 7 [EMessageCommitted (MkMessageCommitted (NewHeader 7 "s1" "r1" 1) sample_question "prompt")]
        sample_start))).

Lemma sample_fresh : fresh sample_record.
Proof. split; try done. by constructor. Qed.

Lemma sample_reached : reaches sample_record sample_live.
Proof.
  apply reaches_flush; [|vm_compute; reflexivity].
  eapply reaches_step; [|apply step_write; [repeat constructor|vm_compute; split_and!; [reflexivity|discriminate|exact I]]].
  apply reaches_close; [|vm_compute; reflexivity|vm_compute; discriminate|vm_compute; reflexivity].
  eapply reaches_step; [|apply step_write; [repeat constructor|vm_compute; split_and!; [reflexivity|discriminate|exact I]]].
  apply reaches_start; [apply sample_fresh|discriminate].
Qed.

(** A Run streams a reply when its process dies; [pod-b] takes the Record over, and what it wrote is flushed. *)
Definition sample_started : Event := ERunStarted (MkRunStarted (NewHeader 10 "s1" "r2" 0) "").
Definition sample_kept (text : string) : Event := EReplyPartKept (MkReplyPartKept (NewHeader 11 "s1" "r2" 1) "m3" text "").

Definition sample_streaming : live := flush_of (write_of 11 [sample_started; sample_kept "half an "; sample_kept "answer"] sample_live).

Definition loaded_from (l : live) : SessionRecord :=
  match FromLoaded (load_of (lv_store l)) with Ok r => r | Err _ => record_zero end.

Definition open_of (now : gotime) (instance : string) (why : ClaimWhy) (l : live) : live :=
  MkLive (opened now instance why (loaded_from l)) (lv_store l) (opened_parts (loaded_from l) (lv_parts l)).

Definition sample_taken_over : live := flush_of (open_of 20 "pod-b" ClaimWhyWriterGone sample_streaming).

Lemma sample_taken_over_reached : reaches sample_record sample_taken_over.
Proof.
  apply reaches_flush; [|vm_compute; reflexivity].
  apply reaches_open.
  - apply reaches_flush; [|vm_compute; reflexivity].
    eapply reaches_step; [|apply step_write; [repeat constructor|vm_compute; split_and!; exact I]]. apply sample_reached.
  - vm_compute. reflexivity.
  - vm_compute. reflexivity.
  - vm_compute. reflexivity.
  - split; vm_compute; [lia|constructor].
Qed.

(** The reply that was streaming is in the Transcript, cut off; its Run ended; and [pod-b] has the Claim. *)
Example taken_over_keeps_the_text :
  let r := lv_record sample_taken_over in
  (m_ID <$> r_messages r, (r_running r, cl_Instance (r_claim r)), lv_parts sample_taken_over) =
  (["m1"; "m2"; "m3"], ("", "pod-b"), []).
Proof. vm_compute. reflexivity. Qed.

(** The commit of the cut off reply was refused and another reply is committed: the refused text comes back. *)
Example refused_text_comes_back :
  let l := flush_of (write_of 12 [EReplyEnded (MkReplyEnded (NewHeader 12 "s1" "r2" 1) (sample_answer <| m_ID := "m4" |>) "m" "end_turn" 0)]
    sample_streaming) in
  m_ID <$> r_messages (lv_record l) = ["m1"; "m2"; "m4"] /\ m_ID <$> r_messages (loaded_from l) = ["m1"; "m2"; "m3"; "m4"].
Proof. vm_compute. done. Qed.

Lemma load_recovers_the_record_witness :
  exists r', FromLoaded (load_of (lv_store sample_taken_over)) = Ok r' /\ rebuilt [] (lv_record sample_taken_over) r' /\
    r_head r' = 12%N /\ r_last r' = 12%N.
Proof.
  apply (load_recovers_the_record sample_record sample_taken_over).
  - apply sample_taken_over_reached.
  - vm_compute. reflexivity.
  - vm_compute. reflexivity.
Defined.

Lemma load_agrees_with_view_witness :
  exists loaded viewed, FromLoaded (load_of (lv_store sample_live)) = Ok loaded /\
    View (st_entries (lv_store sample_live)) = Ok viewed /\
    durable loaded = durable (lv_record sample_live) /\ durable viewed = durable (lv_record sample_live) /\
    Forall2 alike (r_messages loaded) (r_messages (lv_record sample_live)) /\
    Forall2 alike (r_messages viewed) (r_messages (lv_record sample_live)).
Proof.
  apply (load_agrees_with_view sample_record sample_live).
  - apply sample_reached.
  - vm_compute. reflexivity.
  - vm_compute. reflexivity.
  - vm_compute. reflexivity.
  - vm_compute. repeat constructor.
Defined.

Definition sample_unflushed : live :=
  write_of 9 [EReplyEnded (MkReplyEnded (NewHeader 9 "s1" "r1" 1) sample_answer "m" "end_turn" 0)] sample_start.

Lemma take_pending_is_a_batch_witness :
  exists r tk, TakePending (lv_record sample_unflushed) = Ok (r, Some tk) /\
    CheckBatch 0 (tk_entries tk) (tk_header tk) = None /\
    tk_events tk = r_pending (lv_record sample_unflushed) /\ 0%N = 0%N.
Proof.
  apply (take_pending_is_a_batch sample_record sample_unflushed).
  - eapply reaches_step; [|apply step_write; [repeat constructor|vm_compute; split_and!; [reflexivity|discriminate|exact I]]].
    apply reaches_start; [apply sample_fresh|discriminate].
  - vm_compute. reflexivity.
  - vm_compute. discriminate.
Defined.
