(* ===== verification/Writer.v ===== *)
(** * The Writer

    [store/writer.go]: what writes one Record to a store, as the Instance that
    holds its Claim.  Everything is stated over the interface [Records], so the
    theorems hold of any store that keeps its laws.  A method holds the Writer's
    mutex from its first read to its last write, so it is one step.

    What the outside answers is an argument: [ctx] and [deadline] are what the
    context of the store call says (the Writer's own writes run under
    [WriteTimeout] and not under the caller's context), [guard] is the answer of the
    guard ([None] without one), and [elapsed] the time of the call.  A publisher is
    the list of Events it has been handed. *)

From S2P Require Import Prelude GoStrings Errors Types Events Entry Store Record Rebuild.
Local Open Scope string_scope.
Local Open Scope list_scope.

(** ** State *)

Record WriteStats := MkWriteStats {
  ws_Load : duration;
  ws_Writes : Z;
  ws_Entries : Z;
  ws_Elapsed : duration;
  ws_Failed : bool;
}.
#[export] Instance eta_WriteStats : Eta WriteStats := fun r =>
  MkWriteStats (ws_Load r) (ws_Writes r) (ws_Entries r) (ws_Elapsed r) (ws_Failed r).

Definition stats_zero : WriteStats := MkWriteStats 0 0 0 0 false.

(** The store is an argument of the methods; the guard's answer too. *)
Record Writer := MkWriter {
  w_rec : SessionRecord;
  w_publish : option (list Event);
  w_failed : option error;
  w_stats : WriteStats;
}.
#[export] Instance eta_Writer : Eta Writer := fun r =>
  MkWriter (w_rec r) (w_publish r) (w_failed r) (w_stats r).

(** ** Helpers *)

(** [WriteStats.Since]. *)
Definition Since (s before : WriteStats) : WriteStats :=
  MkWriteStats 0 (ws_Writes s - ws_Writes before) (ws_Entries s - ws_Entries before)
    (ws_Elapsed s - ws_Elapsed before) (ws_Failed s && negb (ws_Failed before)).

Definition count (entries : list Entry) (elapsed : duration) (err : option error) (w : Writer) : Writer :=
  let s := w_stats w in
  w <| w_stats := MkWriteStats (ws_Load s) (ws_Writes s + 1) (ws_Entries s + Z.of_nat (length entries))
         (ws_Elapsed s + elapsed) (ws_Failed s || bool_decide (is_Some err)) |>.

Definition storeFailure (err : error) : error :=
  RuntimeErr ((ErrorOf CodeStoreFailure (plain_text "the store could not write the Session's Record"))
    <| Operation := "store.Writer" |> <| Cause := Some err |>).

Definition classifyStore (err : error) (notRun : bool) : error :=
  if bool_decide (is_Some (as_runtime err)) || errors_Is err ContextCanceled
     || errors_Is err ContextDeadlineExceeded
  then err
  else
    RuntimeErr ((ErrorOf CodeStoreFailure
        (plain_text "the store could not read or create the Session's Record"))
      <| Operation := "store.Writer" |> <| Cause := Some err |> <| re_NotRun := notRun |>).

(** [send], and the publishing at the end of [flushLocked]. *)
Definition send (events : list Event) (w : Writer) : Writer :=
  match w_publish w with
  | None => w
  | Some handed => w <| w_publish := Some (handed ++ (WithoutBody <$> events)) |>
  end.

Definition SetPublisher (publish : option (list Event)) (w : Writer) : Writer :=
  w <| w_publish := publish |>.

Definition Failed (w : Writer) : option error := w_failed w.

(** The Seq of the last Entry of a write. *)
Definition last_seq (entries : list Entry) : N := default 0%N (en_Seq <$> last entries).
Definition first_seq (entries : list Entry) : N := default 0%N (en_Seq <$> (entries !! 0%nat)).

Definition no_pending : taken :=
  MkTaken [] [] (MkRecordHeader "" (MkInfo "" "" 0 0 0 0 usage_zero ∅)).

Section over_a_store.
Context {S : Type} `{!Records S}.

(** ** Writing *)

(** The rest of [flushLocked], once the guard let it pass. *)
Definition append_taken (deadline : option error) (elapsed : duration) (tk : taken) (w : Writer) (s : S)
    : Writer * S * outcome (list Event) :=
  let entries := tk_entries tk in
  let (s, result) := Records_Append deadline (r_id (w_rec w)) (u64_sub (first_seq entries) 1) entries
    (tk_header tk) s in
  let w := count entries elapsed result w in
  match result with
  | Some err =>
    let err := if negb (errors_Is err ErrConflict) && negb (errors_Is err ErrNotFound)
      then storeFailure err else err in
    (w <| w_failed := Some err |>, s, Err err)
  | None =>
    let w := w <| w_rec := Stored (last_seq entries) (w_rec w) |> in
    (send (tk_events tk) w, s, Ok (tk_events tk))
  end.

Definition flushLocked (deadline guard : option error) (elapsed : duration) (w : Writer) (s : S)
    : Writer * S * outcome (list Event) :=
  match w_failed w with
  | Some err => (w, s, Err err)
  | None =>
    match TakePending (w_rec w) with
    | Err err => (w <| w_failed := Some (storeFailure err) |>, s, Err (storeFailure err))
    | Ok (r, tk) =>
      let w := w <| w_rec := r |> in
      match tk with
      | None => (w, s, Ok [])
      | Some tk =>
        match guard with
        | Some err => (w <| w_failed := Some err |>, s, Err err)
        | None => append_taken deadline elapsed tk w s
        end
      end
    end
  end.

Definition Flush := flushLocked.

(** The method [Write]. *)
Definition Writer_Write (deadline guard : option error) (elapsed : duration) (now : gotime)
    (events : list Event) (w : Writer) (s : S) : Writer * S * outcome (list Event) :=
  let w := w <| w_rec := fst (Write now events (w_rec w)) |> in
  flushLocked deadline guard elapsed w s.

Definition Writer_Release (deadline guard : option error) (elapsed : duration) (now : gotime)
    (w : Writer) (s : S) : Writer * S * outcome (list Event) :=
  flushLocked deadline guard elapsed (w <| w_rec := Release now (w_rec w) |>) s.

Definition Resume (deadline guard : option error) (elapsed : duration) (now : gotime)
    (w : Writer) (s : S) : Writer * S * outcome (list Event) :=
  match Failed w with
  | Some err => (w, s, Err err)
  | None => flushLocked deadline guard elapsed (w <| w_rec := Reclaim now (w_rec w) |>) s
  end.

(** ** Opening *)

Definition CreateWriter (ctx guard : option error) (elapsed : duration) (now : gotime) (epoch : string)
    (publish : option (list Event)) (idle : bool) (instance : string) (r : SessionRecord) (s : S)
    : SessionRecord * S * outcome Writer :=
  if (0 <? r_head r)%N
  then (r, s, Err (RuntimeErr (ErrorOf CodeInvalidState (plain_text "store: the Record is stored already"))))
  else
    let r := StartWriting now epoch instance idle r in
    match TakePending r with
    | Err err => (r, s, Err (storeFailure err))
    | Ok (r, tk) =>
      let tk := default no_pending tk in
      let w := MkWriter r publish None stats_zero in
      match guard with
      | Some err => (r, s, Err err)
      | None =>
        let (s, result) := Records_Create ctx (r_id r) (tk_entries tk) (tk_header tk) s in
        let w := count (tk_entries tk) elapsed result w in
        match result with
        | Some err => (r, s, Err (classifyStore err false))
        | None =>
          let r := Stored (last_seq (tk_entries tk)) r in
          (r, s, Ok (send (tk_events tk) (w <| w_rec := r |>)))
        end
      end
    end.

Definition OpenWriter (ctx deadline guard : option error) (loadTime elapsed : duration) (now : gotime)
    (holder : option (Claim -> bool -> option error)) (waited : bool) (publish : option (list Event))
    (id instance : string) (s : S) : S * outcome Writer :=
  let (s, loaded) := Records_Load ctx id s in
  match loaded with
  | Err err => (s, Err (classifyStore err true))
  | Ok loaded =>
    match FromLoaded loaded with
    | Err err => (s, Err err)
    | Ok r =>
      match Attach instance r with
      | (r, (current, busy, running)) =>
        let refused :=
          if String.eqb (cl_Instance current) instance then None
          else match holder with Some check => check current busy | None => None end in
        match refused with
        | Some err => (s, Err err)
        | None =>
          let why := if waited then ClaimWhyWaited else if busy then ClaimWhyWriterGone else ClaimWhyIdle in
          let r := TakeOver now instance why running r in
          let w := MkWriter r publish None (stats_zero <| ws_Load := loadTime |>) in
          match flushLocked deadline guard elapsed w s with
          | (_, s, Err err) => (s, Err err)
          | (w, s, Ok _) => (s, Ok w)
          end
        end
      end
    end
  end.

(** ** Reading *)

Definition Stale (ctx : option error) (w : Writer) (s : S) : S * outcome bool :=
  let (s, entries) := Records_Log ctx (r_id (w_rec w)) (r_head (w_rec w)) 1 s in
  (s, rbind entries (fun entries => Ok (0 <? length entries)%nat)).

(** [Open] and [View]. *)
Definition OpenRecord (ctx : option error) (id : string) (s : S) : S * outcome SessionRecord :=
  let (s, loaded) := Records_Load ctx id s in
  (s, rbind loaded FromLoaded).

Definition ViewRecord (ctx : option error) (id : string) (s : S) : S * outcome SessionRecord :=
  let (s, entries) := Records_Log ctx id 0 0 s in
  (s, rbind entries View).

(** The loop of [StoredEvents]. *)
Fixpoint events_of (id : SessionID) (entries : list Entry) : outcome (list Event) :=
  match entries with
  | [] => Ok []
  | entry :: rest =>
    let? event := Entry_Event entry id in
    let? events := events_of id rest in
    Ok (WithoutBody event :: events)
  end.

Definition StoredEvents (ctx : option error) (id : string) (after : N) (limit : Z) (s : S)
    : S * outcome (list Event) :=
  let (s, entries) := Records_Log ctx id after limit s in
  (s, rbind entries (events_of id)).

Definition Writer_EventsAfter (ctx : option error) (after : N) (limit : Z) (w : Writer) (s : S)
    : S * outcome (list Event) :=
  StoredEvents ctx (r_id (w_rec w)) after limit s.

End over_a_store.
