(* ===== verification/WriterSafety.v ===== *)
(** * What a Writer guarantees

    A Session over a Writer, step by step, with the store and the other users of
    the store: after any failure, refusal or stop, what the store holds is the Record as
    it was at the last write the store took, and what was published is what is
    stored.  Everything holds of any store that keeps the laws of [Records]. *)

From S2P Require Import Prelude GoStrings Errors Types Events Entry Store Record Rebuild Simulation Recovery Durable Opening CrashSafety Writer MemoryStore.
Local Open Scope string_scope.
Local Open Scope list_scope.

(** ** A Record keeps its ID *)

Lemma step_id l l' written before after cp :
  inv l written before after cp -> step l l' -> r_id (lv_record l') = r_id (lv_record l).
Proof.
  intros Hinv Hstep. pose proof (inv_logging _ _ _ _ _ Hinv) as Hl.
  destruct Hstep as [l now events Hs Hp|l now key value|l now|l now|l now why segment tail compaction r2 closed [Hb Hi] Hc
    |l now why merged replaces tail compaction r2 closed [Hb Hi] Hc|l now why messages compaction [Hb Hi]|l r tk Htk]; cbn [lv_record].
  - rewrite Write_commits. cbn. clear Hinv. revert Hl Hp. generalize (lv_record l), (lv_parts l).
    induction Hs as [|event events Hs _ IH]; intros r parts Hl Hp; [done|]. destruct Hp as [Hp Hps].
    cbn [fold_left]. destruct (tracks_commit parts now event r) as (event' & [Hq _] & _ & _); [done..|].
    rewrite <- (commit_messages now) in Hps. rewrite (IH _ (parts_after parts event)) by (try done; by apply Hq). by apply Hq.
  - destruct (tracks_SetMetadata (lv_parts l) now key value _ Hl) as (events & [Hq _] & _). by apply Hq.
  - destruct (tracks_Release (lv_parts l) now _ Hl) as (events & [Hq _] & _). by apply Hq.
  - destruct (tracks_claimFor (lv_parts l) now (r_instance (lv_record l)) ClaimWhyIdle _ Hl) as (events & [Hq _] & _).
    by apply Hq.
  - destruct (tracks_CloseSegment (lv_parts l) _ _ _ _ _ _ _ _ Hl Hi Hb Hc) as (event & event' & [Hq _] & _). by apply Hq.
  - destruct (tracks_MergeSegments (lv_parts l) _ _ _ _ _ _ _ _ _ Hl Hi Hb Hc) as (event & event' & [Hq _] & _). by apply Hq.
  - destruct (tracks_checkpoint (lv_parts l) now why messages compaction (lv_record l)
      ((lv_record l) <| r_messages := messages |> <| r_used := [] |>)) as (event & [Hq _] & _); [done..|by constructor|done|].
    by apply Hq.
  - by apply TakePending_ok in Htk as (-> & _).
Qed.

Lemma reaches_id r0 l : reaches r0 l -> r_id (lv_record l) = r_id r0.
Proof.
  induction 1 as [now epoch instance idle h Hf Hi|l l' Hr IH Hstep|l r now instance why Hr IH Hp Hsmall Hload Hmay]; cbn [lv_record].
  - destruct (tracks_StartWriting now epoch instance idle r0 true Hf) as (created & events & Hq & _). by apply Hq.
  - destruct (reaches_inv _ _ Hr) as (written & before & after & cp & Hinv).
    rewrite <-IH. by eapply step_id.
  - destruct (reaches_inv _ _ Hr) as (written & before & after & cp & Hinv). rewrite <- IH.
    by destruct (inv_opened _ _ now instance why _ _ _ _ Hinv Hp Hsmall Hload Hmay) as (_ & _ & ?).
Qed.

(** A write the store took is a step, and leaves nothing queued. *)
Lemma reaches_flushed r0 l r tk :
  reaches r0 l -> TakePending (lv_record l) = Ok (r, Some tk) ->
  exists l', reaches r0 l' /\ lv_record l' = Stored (last_seq (tk_entries tk)) r /\
    lv_store l' = extended (lv_store l) (tk_entries tk) (tk_header tk) /\ lv_parts l' = lv_parts l /\
    r_pending (lv_record l') = [].
Proof.
  intros Hr Htk. eexists. split; [by eapply reaches_step, step_flush|]. split_and!; try done.
  by apply TakePending_ok in Htk as (-> & _).
Qed.

(** ** One flush *)

Lemma send_rec events w : w_rec (send events w) = w_rec w.
Proof. unfold send. by destruct (w_publish w). Qed.

Lemma send_failed events w : w_failed (send events w) = w_failed w.
Proof. unfold send. by destruct (w_publish w). Qed.

Lemma send_publish events w :
  w_publish (send events w) = (fun handed => handed ++ (WithoutBody <$> events)) <$> w_publish w.
Proof. unfold send. by destruct (w_publish w) eqn:E. Qed.

Section over_a_store.
Context {S : Type} `{!Records S} `{!RecordsLaws S}.
Implicit Types (s : S) (w : Writer) (id : string).

(** What a flush of a Writer that has not failed does. *)
Inductive flush_result (id : string) (w : Writer) (s : S) : Writer * S * outcome (list Event) -> Prop :=
| flush_empty :
    r_pending (w_rec w) = [] -> flush_result id w s (w, s, Ok [])
| flush_taken r tk w' s' st :
    TakePending (w_rec w) = Ok (r, Some tk) -> view s !! id = Some st -> head st = u64_sub (first_seq (tk_entries tk)) 1 ->
    view s' = <[id := extended st (tk_entries tk) (tk_header tk)]> (view s) ->
    w_rec w' = Stored (last_seq (tk_entries tk)) r -> w_failed w' = None ->
    w_publish w' = ((fun handed => handed ++ (WithoutBody <$> r_pending (w_rec w))) <$> w_publish w) ->
    flush_result id w s (w', s', Ok (r_pending (w_rec w)))
| flush_unknown r tk w' s' st err :
    TakePending (w_rec w) = Ok (r, Some tk) -> view s !! id = Some st -> head st = u64_sub (first_seq (tk_entries tk)) 1 ->
    view s' = <[id := extended st (tk_entries tk) (tk_header tk)]> (view s) ->
    w_failed w' = Some err -> w_publish w' = w_publish w ->
    flush_result id w s (w', s', Err err)
| flush_refused w' s' err :
    view s' = view s -> w_failed w' = Some err -> w_publish w' = w_publish w -> flush_result id w s (w', s', Err err).

Lemma flush_spec deadline guard elapsed w s id :
  ctx_err deadline -> w_failed w = None -> r_id (w_rec w) = id ->
  flush_result id w s (flushLocked deadline guard elapsed w s).
Proof.
  intros Hctx Hf Hid. unfold flushLocked. rewrite Hf.
  destruct (TakePending (w_rec w)) as [[r [tk|]]|err] eqn:Etk.
  - pose proof (TakePending_ok _ _ _ Etk) as (-> & Hm & Hev & Hh & Hne).
    destruct guard as [err|]; [by apply flush_refused|].
    unfold append_taken. cbv zeta.
    match goal with |- context [Records_Append _ ?i] => change i with (r_id (w_rec w)) end. rewrite Hid.
    pose proof (Append_law deadline id (u64_sub (first_seq (tk_entries tk)) 1) (tk_entries tk) (tk_header tk) s Hctx) as Hlaw.
    destruct (Records_Append _ _ _ _ _ _) as [s' result]. cbn [fst snd] in Hlaw.
    inversion Hlaw as [st (Hst & He & Hhd & Hb) Hs' Hr'|st err (Hst & He & Hhd & Hb) H1 H2 Hs' Hr'|err H1 H2 Hs' Hr']; subst result.
    + rewrite Hev. eapply flush_taken; [done|exact Hst|done|by rewrite Hs'|..].
      * by rewrite send_rec.
      * rewrite send_failed. exact Hf.
      * rewrite send_publish. reflexivity.
    + rewrite H1, H2. cbn. by eapply flush_unknown.
    + cbv zeta. apply flush_refused; done.
  - assert (r = w_rec w /\ r_pending (w_rec w) = []) as [-> Hp].
    { unfold TakePending in Etk. destruct (r_pending (w_rec w)) eqn:Ep; [by injection Etk as <-|].
      destruct (entries_of _ _ _); [done|discriminate]. }
    assert (w <| w_rec := w_rec w |> = w) as -> by by destruct w. by apply flush_empty.
  - by apply flush_refused.
Qed.

Lemma flush_failed deadline guard elapsed w s err :
  w_failed w = Some err -> flushLocked deadline guard elapsed w s = (w, s, Err err).
Proof. unfold flushLocked. by intros ->. Qed.

(** ** A Session over a Writer

    [acked] are the Events whose writes returned without an error, and [parts]
    the replies that stream. *)
Record system := MkSystem {
  sy_writer : Writer;
  sy_store : S;
  sy_parts : list replyPart;
  sy_acked : list Event;
}.

Definition acked_of (out : outcome (list Event)) : list Event :=
  match out with Ok events => events | Err _ => [] end.

(** The state a call leaves. *)
Definition after_call (y : system) (parts : list replyPart) (call : Writer * S * outcome (list Event)) : system :=
  match call with
  | (w, s, out) => MkSystem w s parts (sy_acked y ++ acked_of out)
  end.

Definition on_record (f : SessionRecord -> SessionRecord) (parts : list replyPart) (y : system) : system :=
  MkSystem ((sy_writer y) <| w_rec := f (w_rec (sy_writer y)) |>) (sy_store y) parts (sy_acked y).

(** What a Session and its host do with a Writer of the Record [id], whatever
    the store answers; and what others do to the store's other Records. *)
Inductive moves (id : string) (y : system) : system -> Prop :=
| moves_write deadline guard elapsed now events :
    ctx_err deadline ->
    Forall (fun event => session_event event = true) events ->
    commits_allowed (sy_parts y) (r_messages (w_rec (sy_writer y))) events ->
    let w := (sy_writer y) <| w_rec := fold_left (append_message now) events (w_rec (sy_writer y)) |> in
    moves id y (after_call y (fold_left parts_after events (sy_parts y))
      (Writer_Write deadline guard elapsed now events w (sy_store y)))
| moves_flush deadline guard elapsed :
    ctx_err deadline -> moves id y (after_call y (sy_parts y) (Flush deadline guard elapsed (sy_writer y) (sy_store y)))
| moves_release deadline guard elapsed now :
    ctx_err deadline ->
    moves id y (after_call y (sy_parts y) (Writer_Release deadline guard elapsed now (sy_writer y) (sy_store y)))
| moves_resume deadline guard elapsed now :
    ctx_err deadline ->
    moves id y (after_call y (sy_parts y) (Resume deadline guard elapsed now (sy_writer y) (sy_store y)))
| moves_set now key value : moves id y (on_record (SetMetadata now key value) (sy_parts y) y)
| moves_close now why segment tail compaction r2 closed :
    held (w_rec (sy_writer y)) ->
    CloseSegment now why segment tail compaction (w_rec (sy_writer y)) = (r2, Ok closed) ->
    moves id y (on_record (fun _ => r2) [] y)
| moves_merge now why merged replaces tail compaction r2 closed :
    held (w_rec (sy_writer y)) ->
    MergeSegments now why merged replaces tail compaction (w_rec (sy_writer y)) = (r2, Ok closed) ->
    moves id y (on_record (fun _ => r2) [] y)
| moves_checkpoint now why messages compaction :
    held (w_rec (sy_writer y)) -> moves id y (on_record (checkpoint now why messages compaction) [] y)
| moves_publisher publish :
    publish = None \/ publish = Some [] ->
    moves id y (MkSystem (SetPublisher publish (sy_writer y)) (sy_store y) (sy_parts y) (sy_acked y))
| moves_others s' :
    view s' !! id = view (sy_store y) !! id -> moves id y (MkSystem (sy_writer y) s' (sy_parts y) (sy_acked y)).

(** ** A Record and its Writers, one after the other

    The Writer that holds the Record, which took it over when [base] Entries were stored, or nobody; and what
    the Writers before it acknowledged. *)
Inductive holding := Nobody (s : S) | Held (y : system) (base : nat).

Record history := MkHistory {
  hs_now : holding;
  hs_earlier : list (nat * list Event);
}.

Definition hs_store (h : history) : S := match hs_now h with Nobody s => s | Held y _ => sy_store y end.

(** Why [OpenWriter] claims the Record it loaded. *)
Definition claims_why (waited : bool) (r : SessionRecord) : ClaimWhy :=
  if waited then ClaimWhyWaited
  else if r_busy r || negb (String.eqb (r_running r) "") then ClaimWhyWriterGone else ClaimWhyIdle.

(** What is stored can be read back and taken over. *)
Definition can_open (id : string) (s : S) : Prop :=
  forall st r, view s !! id = Some st -> FromLoaded (load_of st) = Ok r -> small st /\ may_open r (log_parts (st_entries st)).

(** What happens to the Record [id]: its Session's moves; its process dies, or unloads the Session; and some
    process opens it, with the Writer or the error that [OpenWriter] answers. *)
Inductive happens (id : string) : history -> history -> Prop :=
| happens_move y y' base earlier :
    moves id y y' -> happens id (MkHistory (Held y base) earlier) (MkHistory (Held y' base) earlier)
| happens_gone y base earlier :
    happens id (MkHistory (Held y base) earlier) (MkHistory (Nobody (sy_store y)) ((base, sy_acked y) :: earlier))
| happens_others s s' earlier :
    view s' !! id = view s !! id -> happens id (MkHistory (Nobody s) earlier) (MkHistory (Nobody s') earlier)
| happens_open s earlier ctx deadline guard loadTime elapsed now holder waited publish instance s' w st r :
    ctx_err deadline -> publish = None \/ publish = Some [] -> can_open id s ->
    OpenWriter ctx deadline guard loadTime elapsed now holder waited publish id instance s = (s', Ok w) ->
    view s !! id = Some st -> FromLoaded (load_of st) = Ok r ->
    happens id (MkHistory (Nobody s) earlier)
      (MkHistory (Held (MkSystem w s' (opened_parts r (log_parts (st_entries st)))
        (r_pending (opened now instance (claims_why waited r) r))) (length (st_entries st))) earlier)
| happens_refused s earlier ctx deadline guard loadTime elapsed now holder waited publish instance s' err :
    ctx_err deadline -> publish = None \/ publish = Some [] -> can_open id s ->
    OpenWriter ctx deadline guard loadTime elapsed now holder waited publish id instance s = (s', Err err) ->
    happens id (MkHistory (Nobody s) earlier) (MkHistory (Nobody s') earlier).

(** The histories of a new Record that [CreateWriter] wrote. *)
Inductive writes (r0 : SessionRecord) : history -> Prop :=
| writes_start ctx guard elapsed now epoch publish idle instance s0 r s w :
    fresh r0 -> instance <> "" -> ctx_err ctx -> publish = None \/ publish = Some [] ->
    CreateWriter ctx guard elapsed now epoch publish idle instance r0 s0 = (r, s, Ok w) ->
    writes r0 (MkHistory (Held (MkSystem w s [] (r_pending (StartWriting now epoch instance idle r0))) 0) [])
| writes_happens h h' : writes r0 h -> happens (r_id r0) h h' -> writes r0 h'.

(** ** Its invariant *)

(** The Record at the last write the store took. *)
Definition stored_point (r0 : SessionRecord) (s : S) (l : live) : Prop :=
  reaches r0 l /\ r_pending (lv_record l) = [] /\ view s !! r_id r0 = Some (lv_store l).

(** [acked] are stored, each at its place from [base] on. *)
Definition placed (base : nat) (acked : list Event) (entries : list Entry) : Prop :=
  Forall2 made acked (take (length acked) (drop base entries)).

Definition all_placed (earlier : list (nat * list Event)) (entries : list Entry) : Prop :=
  Forall (fun writer => placed (fst writer) (snd writer) entries) earlier.

Record safe (r0 : SessionRecord) (base : nat) (earlier : list (nat * list Event)) (y : system) : Prop := {
  safe_stored : exists l, stored_point r0 (sy_store y) l;
  safe_acked : forall st, view (sy_store y) !! r_id r0 = Some st ->
    placed base (sy_acked y) (st_entries st) /\ all_placed earlier (st_entries st);
  safe_published : forall handed, w_publish (sy_writer y) = Some handed ->
    exists n, (n <= length (sy_acked y))%nat /\ handed = WithoutBody <$> drop n (sy_acked y);
  safe_alive : w_failed (sy_writer y) = None ->
    exists l, reaches r0 l /\ lv_record l = w_rec (sy_writer y) /\ lv_parts l = sy_parts y /\
      view (sy_store y) !! r_id r0 = Some (lv_store l) /\ (base + length (sy_acked y))%nat = length (st_entries (lv_store l));
}.

Lemma placed_more base acked entries more : placed base acked entries -> placed base acked (entries ++ more).
Proof.
  unfold placed. intros H. pose proof (Forall2_length H) as Hlen. rewrite length_take, length_drop in Hlen.
  destruct (decide (base <= length entries)%nat) as [Hb|Hb].
  - rewrite drop_app_le by done. rewrite take_app_le; [done|]. rewrite length_drop. lia.
  - assert (acked = []) as -> by (apply nil_length_inv; lia). constructor.
Qed.

Lemma all_placed_more earlier entries more : all_placed earlier entries -> all_placed earlier (entries ++ more).
Proof. intros H. eapply Forall_impl; [|exact H]. intros w Hw. by apply placed_more. Qed.

Lemma placed_all base acked entries more :
  placed base acked entries -> (base + length acked)%nat = length entries ->
  forall events, Forall2 made events more -> placed base (acked ++ events) (entries ++ more).
Proof.
  unfold placed. intros H Hlen events Hm. rewrite drop_app_le by lia.
  rewrite take_ge in H by (rewrite length_drop; lia). rewrite take_ge; [by apply Forall2_app|].
  rewrite !length_app, length_drop, (Forall2_length Hm). lia.
Qed.

(** A Writer that failed, whatever its Record does: the store keeps the Record. *)
Lemma safe_stopped r0 base earlier y y' err :
  safe r0 base earlier y -> view (sy_store y') !! r_id r0 = view (sy_store y) !! r_id r0 ->
  w_failed (sy_writer y') = Some err -> w_publish (sy_writer y') = w_publish (sy_writer y) ->
  sy_acked y' = sy_acked y -> safe r0 base earlier y'.
Proof.
  intros [(l & Hr & Hp & Hv) Hack Hpub _] Hview Hfail Hpub' Hack'. split.
  - exists l. split_and!; [done..|]. by rewrite Hview.
  - rewrite Hack', Hview. exact Hack.
  - rewrite Hack', Hpub'. exact Hpub.
  - by rewrite Hfail.
Qed.

(** A step of the Record alone. *)
Lemma safe_step r0 base earlier y f parts :
  safe r0 base earlier y ->
  (forall l, lv_record l = w_rec (sy_writer y) -> lv_parts l = sy_parts y ->
     step l (l <| lv_record := f (w_rec (sy_writer y)) |> <| lv_parts := parts |>)) ->
  safe r0 base earlier (on_record f parts y).
Proof.
  intros [Hst Hack Hpub Halive] Hstep. split; [exact Hst|exact Hack|exact Hpub|].
  intros Hf. destruct (Halive Hf) as (l & Hr & Hrec & Hparts & Hview & Hlen).
  eexists. split; [eapply reaches_step; [exact Hr|by apply Hstep]|]. done.
Qed.

(** A step that does not touch the streaming replies. *)
Lemma safe_step_parts r0 base earlier y f :
  safe r0 base earlier y ->
  (forall l, lv_record l = w_rec (sy_writer y) -> step l (l <| lv_record := f (w_rec (sy_writer y)) |>)) ->
  safe r0 base earlier (on_record f (sy_parts y) y).
Proof.
  intros Hsafe Hstep. apply safe_step; [done|]. intros l Hrec Hparts. specialize (Hstep l Hrec). rewrite <-Hparts. exact Hstep.
Qed.

(** A write the store took, of the Record the Writer has: the Record as it is now is stored, and what was queued
    is at its place. *)
Lemma safe_stored_on r0 base earlier y l r tk :
  safe r0 base earlier y -> reaches r0 l -> lv_record l = w_rec (sy_writer y) -> lv_parts l = sy_parts y ->
  view (sy_store y) !! r_id r0 = Some (lv_store l) -> TakePending (w_rec (sy_writer y)) = Ok (r, Some tk) ->
  Forall2 made (r_pending (w_rec (sy_writer y))) (tk_entries tk) /\
  exists l', reaches r0 l' /\ lv_record l' = Stored (last_seq (tk_entries tk)) r /\ lv_parts l' = sy_parts y /\
    lv_store l' = extended (lv_store l) (tk_entries tk) (tk_header tk) /\ r_pending (lv_record l') = [] /\
    all_placed earlier (st_entries (lv_store l')).
Proof.
  intros [_ Hack _ _] Hr Hrec Hparts Hview Htk. pose proof (TakePending_ok _ _ _ Htk) as (_ & Hm & _). split; [done|].
  rewrite <-Hrec in Htk. destruct (reaches_flushed _ _ _ _ Hr Htk) as (l' & Hr2 & Hrec2 & Hst2 & Hparts2 & Hp2).
  exists l'. split_and!; [done|done|congruence|done|done|]. rewrite Hst2. apply all_placed_more. by apply Hack.
Qed.

(** A flush. *)
Lemma safe_flush r0 base earlier y deadline guard elapsed :
  ctx_err deadline -> safe r0 base earlier y ->
  safe r0 base earlier (after_call y (sy_parts y) (flushLocked deadline guard elapsed (sy_writer y) (sy_store y))).
Proof.
  intros Hctx Hsafe. destruct (w_failed (sy_writer y)) as [err|] eqn:Hf.
  { rewrite (flush_failed _ _ _ _ _ _ Hf). unfold after_call. cbn [acked_of].
    eapply safe_stopped; [done..|]. cbn. by rewrite app_nil_r. }
  pose proof Hsafe as [Hst Hack Hpub Halive]. destruct (Halive Hf) as (l & Hr & Hrec & Hparts & Hview & Hlen).
  assert (Hid : r_id (w_rec (sy_writer y)) = r_id r0) by (by rewrite <-Hrec, (reaches_id r0 l)).
  destruct (flush_spec deadline guard elapsed _ (sy_store y) _ Hctx Hf Hid) as
    [Hp|r tk w' s' st Htk Hst1 Hhd Hv Hrec' Hf' Hpub'|r tk w' s' st err Htk Hst1 Hhd Hv Hf' Hpub'|w' s' err Hv Hf' Hpub'];
    unfold after_call; cbn [acked_of]; rewrite ?app_nil_r.
  - by destruct y.
  - rewrite Hview in Hst1. injection Hst1 as <-.
    destruct (safe_stored_on _ _ _ _ _ _ _ Hsafe Hr Hrec Hparts Hview Htk) as (Hm & l' & Hr2 & Hrec2 & Hparts2 & Hst2 & Hp2 & Hplaced).
    assert (Hview' : view s' !! r_id r0 = Some (lv_store l')) by (by rewrite Hv, Hst2, lookup_insert_eq).
    destruct (Hack _ Hview) as [Hack1 _].
    assert (Hall : placed base (sy_acked y ++ r_pending (w_rec (sy_writer y))) (st_entries (lv_store l'))).
    { rewrite Hst2. by apply placed_all. }
    split; cbn [sy_writer sy_store sy_parts sy_acked].
    + exists l'. done.
    + intros st Hst'. rewrite Hview' in Hst'. injection Hst' as <-. done.
    + rewrite Hpub'. destruct (w_publish (sy_writer y)) as [handed|] eqn:Ew; [|done]. intros h [= <-].
      destruct (Hpub _ eq_refl) as (n & Hn & ->). exists n. rewrite length_app. split; [lia|].
      by rewrite drop_app_le, fmap_app.
    + intros _. exists l'. split_and!; [done|by rewrite Hrec2|done|done|].
      rewrite Hst2. cbn. rewrite !length_app, <- Hlen, <- (Forall2_length Hm). lia.
  - rewrite Hview in Hst1. injection Hst1 as <-.
    destruct (safe_stored_on _ _ _ _ _ _ _ Hsafe Hr Hrec Hparts Hview Htk) as (Hm & l' & Hr2 & Hrec2 & Hparts2 & Hst2 & Hp2 & Hplaced).
    assert (Hview' : view s' !! r_id r0 = Some (lv_store l')) by (by rewrite Hv, Hst2, lookup_insert_eq).
    split; cbn [sy_writer sy_store sy_parts sy_acked].
    + exists l'. done.
    + intros st Hst'. rewrite Hview' in Hst'. injection Hst' as <-. split; [|done]. rewrite Hst2. apply placed_more. by apply Hack.
    + rewrite Hpub'. exact Hpub.
    + by rewrite Hf'.
  - eapply safe_stopped; [done|..]; [by cbn; rewrite Hv|exact Hf'|exact Hpub'|done].
Qed.

Lemma safe_moves r0 base earlier y y' : safe r0 base earlier y -> moves (r_id r0) y y' -> safe r0 base earlier y'.
Proof.
  intros Hsafe Hm. destruct Hm as [deadline guard elapsed now events Hctx Hev Hpa w|deadline guard elapsed Hctx
    |deadline guard elapsed now Hctx|deadline guard elapsed now Hctx|now key value|now why segment tail compaction r2 closed Hh Hc
    |now why merged replaces tail compaction r2 closed Hh Hc|now why messages compaction Hh|publish Hpub|s' Hv].
  - set (f := fun r => fst (Write now events (fold_left (append_message now) events r))).
    refine (safe_flush r0 base earlier (on_record f (fold_left parts_after events (sy_parts y)) y) deadline guard elapsed Hctx _).
    apply safe_step; [done|]. intros l Hrec Hparts. unfold f. rewrite <-Hrec, <-Hparts.
    apply step_write; [done|by rewrite Hparts, Hrec].
  - by apply safe_flush.
  - refine (safe_flush r0 base earlier (on_record (Release now) (sy_parts y) y) deadline guard elapsed Hctx _).
    apply safe_step_parts; [done|]. intros l <-. apply step_release.
  - unfold Resume. destruct (Failed (sy_writer y)) as [err|] eqn:Hf.
    + eapply safe_stopped; [done..|]. cbn. by rewrite app_nil_r.
    + refine (safe_flush r0 base earlier (on_record (Reclaim now) (sy_parts y) y) deadline guard elapsed Hctx _).
      apply safe_step_parts; [done|]. intros l <-. apply step_reclaim.
  - apply safe_step_parts; [done|]. intros l <-. apply step_set.
  - apply safe_step; [done|]. intros l Hrec _. rewrite <-Hrec in Hh, Hc. by eapply step_close.
  - apply safe_step; [done|]. intros l Hrec _. rewrite <-Hrec in Hh, Hc. by eapply step_merge.
  - apply safe_step; [done|]. intros l Hrec _. rewrite <-Hrec in Hh |- *. by apply step_checkpoint.
  - destruct Hsafe as [Hst Hack Hold Halive]. split; [exact Hst|exact Hack| |exact Halive].
    intros handed E. cbn in E. destruct Hpub as [->| ->]; [done|]. injection E as <-.
    exists (length (sy_acked y)). split; [done|]. by rewrite drop_all.
  - destruct Hsafe as [(l & Hr & Hp & Hst) Hack Hold Halive]. split; cbn.
    + exists l. unfold stored_point. by rewrite Hv.
    + by rewrite Hv.
    + exact Hold.
    + by rewrite Hv.
Qed.

Lemma safe_start r0 ctx guard elapsed now epoch publish idle instance s0 r s w :
  fresh r0 -> instance <> "" -> ctx_err ctx -> publish = None \/ publish = Some [] ->
  CreateWriter ctx guard elapsed now epoch publish idle instance r0 s0 = (r, s, Ok w) ->
  safe r0 0 [] (MkSystem w s [] (r_pending (StartWriting now epoch instance idle r0))).
Proof.
  intros Hf Hi Hctx Hpub. unfold CreateWriter. rewrite (fresh_head r0 Hf). cbn [N.ltb N.compare].
  set (r1 := StartWriting now epoch instance idle r0).
  set (start := MkLive r1 (MkStored [] (MkRecordHeader "" (infoLocked r0))) []).
  assert (Hr1 : reaches r0 start) by by apply reaches_start.
  assert (Hid : r_id r1 = r_id r0) by by apply (reaches_id _ _ Hr1).
  destruct (tracks_StartWriting now epoch instance idle r0 true Hf) as (created & events & Hq & _).
  pose proof (t_pending _ _ _ Hq) as Hpend. fold r1 in Hpend. cbn in Hpend.
  destruct (TakePending r1) as [[r' [tk|]]|err] eqn:Etk; [| |done].
  2:{ unfold TakePending in Etk. rewrite Hpend in Etk. destruct (entries_of _ _ _); discriminate. }
  pose proof (TakePending_ok _ _ _ Etk) as (Hr' & Hm & Hev & _). cbn [default].
  destruct guard as [err|]; [done|].
  assert (r_id r' = r_id r0) as Hid' by by rewrite Hr'. rewrite Hid'.
  pose proof (Create_law ctx (r_id r0) (tk_entries tk) (tk_header tk) s0 Hctx) as Hlaw.
  destruct (Records_Create _ _ _ _ _) as [s' result]. cbn [fst snd] in Hlaw.
  destruct result as [err|]; [done|]. intros [= <- <- <-].
  inversion Hlaw as [Hnone Hcheck Hbatch Hv| |]. symmetry in Hv.
  destruct (reaches_flushed _ start _ _ Hr1 Etk) as (l' & Hr2 & Hrec2 & Hst2 & Hparts2 & Hp2).
  assert (Hview : view s' !! r_id r0 = Some (lv_store l')) by by rewrite Hv, Hst2, lookup_insert_eq.
  assert (Hall : Forall2 made (r_pending r1) (st_entries (lv_store l'))) by by rewrite Hst2.
  split; cbn [sy_writer sy_store sy_parts sy_acked].
  - by exists l'.
  - intros st Hst. rewrite Hview in Hst. injection Hst as <-. split; [|constructor].
    unfold placed. by rewrite drop_0, (Forall2_length Hall), firstn_all.
  - rewrite send_publish, Hev. destruct Hpub as [->| ->]; [done|]. cbn. intros handed [= <-]. by exists 0%nat; split; [lia|].
  - intros _. exists l'. split_and!; [done|by rewrite send_rec|done|done|by apply (Forall2_length Hall)].
Qed.

(** ** A Record that nobody holds *)

Definition kept (r0 : SessionRecord) (s : S) (earlier : list (nat * list Event)) : Prop :=
  exists l, stored_point r0 s l /\ all_placed earlier (st_entries (lv_store l)).

Lemma safe_kept r0 base earlier y : safe r0 base earlier y -> kept r0 (sy_store y) ((base, sy_acked y) :: earlier).
Proof.
  intros [(l & Hst) Hack _ _]. exists l. split; [done|]. destruct Hst as (_ & _ & Hv). destruct (Hack _ Hv). by constructor.
Qed.

(** What [OpenWriter] does: it answers an error and leaves the Record, or takes it over. *)
Lemma opens_safe r0 s earlier ctx deadline guard loadTime elapsed now holder waited publish instance s' out :
  kept r0 s earlier -> ctx_err deadline -> publish = None \/ publish = Some [] -> can_open (r_id r0) s ->
  OpenWriter ctx deadline guard loadTime elapsed now holder waited publish (r_id r0) instance s = (s', out) ->
  match out with
  | Err _ => kept r0 s' earlier
  | Ok w => forall st r, view s !! r_id r0 = Some st -> FromLoaded (load_of st) = Ok r ->
      safe r0 (length (st_entries st)) earlier (MkSystem w s' (opened_parts r (log_parts (st_entries st)))
        (r_pending (opened now instance (claims_why waited r) r)))
  end.
Proof.
  intros (l & (Hr & Hp & Hv) & Hplaced) Hctx Hpub Hcan. unfold OpenWriter.
  pose proof (Load_view ctx (r_id r0) s) as Hsame. pose proof (Load_law ctx (r_id r0) s) as Hlaw.
  destruct (Records_Load ctx (r_id r0) s) as [s1 loaded]. cbn [fst snd] in Hsame, Hlaw.
  assert (Hkept : kept r0 s1 earlier) by (exists l; split; [|done]; unfold stored_point; by rewrite Hsame).
  destruct loaded as [loaded|err]; [|by intros [= <- <-]].
  destruct (Hlaw _ eq_refl) as (st & Hst & ->). rewrite Hv in Hst. injection Hst as <-.
  destruct (FromLoaded (load_of (lv_store l))) as [r|err] eqn:Hload; [|by intros [= <- <-]].
  destruct (Hcan _ _ Hv Hload) as [Hsmall Hmay]. cbn [Attach].
  destruct (if String.eqb _ _ then None else _) as [err|]; [by intros [= <- <-]|].
  fold (claims_why waited r).
  set (why := claims_why waited r).
  match goal with |- context [flushLocked _ _ _ (MkWriter ?x _ _ _) _] => change x with (opened now instance why r) end.
  set (w0 := MkWriter (opened now instance why r) publish None _).
  rewrite <- (reaches_log_parts r0 l Hr Hp) in Hmay.
  pose proof (reaches_open r0 l r now instance why Hr Hp Hsmall Hload Hmay) as Hopen.
  set (y0 := MkSystem w0 s1 (opened_parts r (lv_parts l)) []).
  assert (Hsafe : safe r0 (length (st_entries (lv_store l))) earlier y0).
  { split; cbn [sy_writer sy_store sy_parts sy_acked y0].
    - exists l. unfold stored_point. by rewrite Hsame.
    - intros st. rewrite Hsame, Hv. intros [= <-]. split; [constructor|done].
    - intros handed E. cbn in E. destruct Hpub as [->| ->]; [done|]. injection E as <-. by exists 0%nat.
    - intros _. eexists. split; [exact Hopen|]. cbn. rewrite Hsame. split_and!; try done; lia. }
  pose proof (safe_flush _ _ _ y0 deadline guard elapsed Hctx Hsafe) as Hflush. cbn [sy_writer sy_store sy_parts y0] in Hflush.
  pose proof (flush_spec deadline guard elapsed w0 s1 (r_id (opened now instance why r)) Hctx eq_refl eq_refl) as Hspec.
  destruct (flushLocked deadline guard elapsed w0 s1) as [[w2 s2] [events|err]] eqn:Efl.
  - intros [= <- <-]. intros st r2 Hst Hr2. rewrite Hv in Hst. injection Hst as <-. rewrite Hload in Hr2. injection Hr2 as <-.
    assert (events = r_pending (opened now instance why r)) as ->.
    { inversion Hspec; subst; [|done]. symmetry. assumption. }
    rewrite <- (reaches_log_parts r0 l Hr Hp). exact Hflush.
  - intros [= <- <-]. cbn in Hflush. destruct (safe_kept _ _ _ _ Hflush) as (l2 & H2 & [_ H3]%Forall_cons_1). by exists l2.
Qed.

Definition sound (r0 : SessionRecord) (h : history) : Prop :=
  match hs_now h with
  | Nobody s => kept r0 s (hs_earlier h)
  | Held y base => safe r0 base (hs_earlier h) y
  end.

Lemma sound_happens r0 h h' : sound r0 h -> happens (r_id r0) h h' -> sound r0 h'.
Proof.
  intros Hs Hh. destruct Hh; unfold sound in *; cbn [hs_now hs_earlier] in *.
  - by eapply safe_moves.
  - by apply safe_kept.
  - destruct Hs as (l & (Hr & Hp & Hv) & Hpl). exists l. split; [|done]. unfold stored_point. by rewrite H.
  - pose proof (opens_safe _ _ _ _ _ _ _ _ _ _ _ _ _ _ _ Hs H H0 H1 H2) as Ho. by apply Ho.
  - by apply (opens_safe _ _ _ _ _ _ _ _ _ _ _ _ _ _ _ Hs H H0 H1 H2).
Qed.

Lemma writes_sound r0 h : writes r0 h -> sound r0 h.
Proof. induction 1; [by eapply safe_start|by eapply sound_happens]. Qed.

(** ** Properties *)



End over_a_store.

(** ** Witnesses

    A Record that [pod-a] creates in a store in memory and writes one Event to. *)

Definition sample_created : SessionRecord * MemoryStore * outcome Writer :=
  CreateWriter None None 1 6 "" (Some []) false "pod-a" sample_record NewMemoryStore.

Definition writer_zero : Writer := MkWriter record_zero None None stats_zero.

Definition writer_of (out : outcome Writer) : Writer := match out with Ok w => w | Err _ => writer_zero end.

Definition sample_begun : system (S := MemoryStore) :=
  MkSystem (writer_of (snd sample_created)) (snd (fst sample_created)) []
    (r_pending (StartWriting 6 "" "pod-a" false sample_record)).

Definition sample_event : Event :=
  EMessageCommitted (MkMessageCommitted (NewHeader 7 "s1" "r1" 1) sample_question "prompt").

Definition sample_written : system (S := MemoryStore) :=
  let w := (sy_writer sample_begun) <| w_rec :=
    fold_left (append_message 7) [sample_event] (w_rec (sy_writer sample_begun)) |> in
  after_call sample_begun (fold_left parts_after [sample_event] (sy_parts sample_begun)) (Writer_Write None None 1 7 [sample_event] w (sy_store sample_begun)).

Definition sample_history : history (S := MemoryStore) := MkHistory (Held sample_written 0) [].

Lemma sample_writes : writes sample_record sample_history.
Proof.
  eapply writes_happens.
  - apply (writes_start sample_record None None 1 6 "" (Some []) false "pod-a" NewMemoryStore
      (fst (fst sample_created)) (snd (fst sample_created)) (writer_of (snd sample_created)));
      [apply sample_fresh|discriminate|done|by right|vm_compute; reflexivity].
  - unfold sample_history, sample_written. apply happens_move, (moves_write "s1" sample_begun None None 1 7 [sample_event]);
      [exact I|repeat constructor|vm_compute; split_and!; [reflexivity|discriminate|exact I]].
Qed.

(** Its process dies, and [pod-b] takes the Record over. *)
Definition sample_entries : stored :=
  default (MkStored [] (MkRecordHeader "" (infoLocked record_zero))) (view (sy_store sample_written) !! "s1").

Definition sample_found : SessionRecord :=
  match FromLoaded (load_of sample_entries) with Ok r => r | Err _ => record_zero end.

Definition sample_taken : MemoryStore * outcome Writer :=
  OpenWriter None None None 1 1 9 None false (Some []) "s1" "pod-b" (sy_store sample_written).

Definition sample_after : history (S := MemoryStore) :=
  MkHistory (Held (MkSystem (writer_of (snd sample_taken)) (fst sample_taken)
      (opened_parts sample_found (log_parts (st_entries sample_entries)))
      (r_pending (opened 9 "pod-b" (claims_why false sample_found) sample_found))) (length (st_entries sample_entries)))
    [(0%nat, sy_acked sample_written)].

Lemma sample_can_open : can_open "s1" (sy_store sample_written).
Proof.
  intros st r Hst. assert (st = sample_entries) as ->.
  { unfold sample_entries. by rewrite Hst. }
  intros Hr. assert (r = sample_found) as -> by (unfold sample_found; by rewrite Hr).
  split; [by vm_compute|]. split; [vm_compute; lia|vm_compute; constructor].
Qed.

Lemma sample_writes_after : writes sample_record sample_after.
Proof.
  eapply writes_happens; [eapply writes_happens; [apply sample_writes|apply happens_gone]|].
  apply (happens_open "s1" (sy_store sample_written) [(0%nat, sy_acked sample_written)] None None None 1 1 9 None false (Some []) "pod-b").
  - exact I.
  - by right.
  - apply sample_can_open.
  - vm_compute. reflexivity.
  - vm_compute. reflexivity.
  - vm_compute. reflexivity.
Qed.


