(* ===== verification/Fencing.v ===== *)
(** * Taking a Record over

    What [OpenWriter] writes when it claims a Record, and what that does to the
    Writer that held it: its next write is refused, it never writes again, and it
    hands nothing more to its publisher. *)

From S2P Require Import Prelude GoStrings Errors Types Events Entry Store Record Rebuild Simulation Recovery Durable Opening CrashSafety Writer WriterSafety MemoryStore.
Local Open Scope string_scope.
Local Open Scope list_scope.

(** ** What TakeOver queues *)

(** The kinds of the Events, in their order: the Claim, the replies that were
    streaming, and of a Run that never ended its queued messages and its end. *)
Definition takeover_kinds (running : RunID) (r : SessionRecord) : list EventKind :=
  EventKindSessionClaimed :: replicate (length (r_cutOff r)) EventKindReplyCutOff ++
  (if String.eqb running "" then []
   else replicate (length (r_queued r)) EventKindMessageDropped ++ [EventKindRunEnded]).

(** The Claim that [claimFor] leaves. *)
Definition next_claim (instance : string) (claim : Claim) : Claim :=
  if negb (String.eqb (cl_Instance claim) instance) || N.eqb (cl_Epoch claim) 0
  then MkClaim instance (u64_add (cl_Epoch claim) 1) else claim.

Definition queues_kinds (r r2 : SessionRecord) (kinds : list EventKind) : Prop :=
  exists events, queues r r2 events /\ Kind <$> events = kinds.

Lemma queues_kinds_trans r r2 r3 kinds kinds' :
  queues_kinds r r2 kinds -> queues_kinds r2 r3 kinds' -> queues_kinds r r3 (kinds ++ kinds').
Proof.
  intros (e1 & H1 & <-) (e2 & H2 & <-). exists (e1 ++ e2). split; [by eapply queues_trans|]. by rewrite fmap_app.
Qed.

Lemma queues_kinds_emit now event r r1 :
  r_logging r = true -> same_log r r1 -> storable event = true ->
  queues_kinds r (emit now event r1) [Kind event].
Proof.
  intros Hl Hs Hst. eexists. split; [eapply (queues_number r r1 _ now event)|]; try done.
  - unfold emit. destruct Hs as (_ & _ & Hlog & _). by rewrite Hlog, Hl.
  - cbn. by rewrite Kind_WithNumber.
Qed.

(** Two Records with one log queue the same. *)
Lemma queues_kinds_same r r1 r2 kinds : same_log r r1 -> queues_kinds r1 r2 kinds -> queues_kinds r r2 kinds.
Proof.
  intros (Hp & Hn & Hlog & Hh & Hi & He) (events & [] & Hk). exists events. split; [split|done]; try congruence.
  - intros i event Hi'. rewrite <-Hn. by apply t_numbers.
  - intros Hl. apply t_logging. congruence.
Qed.

Lemma queues_kinds_same_r r r1 r2 kinds : queues_kinds r r1 kinds -> same_log r1 r2 -> queues_kinds r r2 kinds.
Proof.
  intros (events & [] & Hk) (Hp & Hn & Hlog & Hh & Hi & He). exists events. split; [split|done]; try done; try congruence.
  intros Hl. rewrite Hlog. auto.
Qed.

Lemma queues_kinds_logging r r2 kinds : queues_kinds r r2 kinds -> r_logging r = true -> r_logging r2 = true.
Proof. intros (events & Hq & _). apply Hq. Qed.

(** One Event of one kind for each element of a list. *)
Lemma queues_kinds_fold {A} now (event : SessionRecord -> A -> Event) (kind : EventKind) (l : list A) (r : SessionRecord) :
  (forall r x, storable (event r x) = true /\ Kind (event r x) = kind) -> r_logging r = true ->
  queues_kinds r (fold_left (fun r x => emit now (event r x) r) l r) (replicate (length l) kind).
Proof.
  intros Hev. revert r. induction l as [|x l IH]; intros r Hl.
  { exists []. split; [apply queues_refl|done]. }
  destruct (Hev r x) as [Hst Hk]. cbn [fold_left length replicate].
  assert (H1 : queues_kinds r (emit now (event r x) r) [Kind (event r x)]) by by apply queues_kinds_emit.
  rewrite Hk in H1. apply (queues_kinds_trans _ _ _ [kind] _ H1), IH. by eapply queues_kinds_logging.
Qed.

Lemma touch_log now r : same_log r (touch now r).
Proof. done. Qed.

Lemma claim_kinds now instance why r :
  r_logging r = true -> queues_kinds r (claimFor now instance why r) [EventKindSessionClaimed].
Proof.
  intros Hl. unfold claimFor. cbv zeta.
  match goal with |- queues_kinds r (emit now ?e ?r1) _ => apply (queues_kinds_emit now e r r1 Hl) end; [|done].
  cbn. by destruct (_ || _).
Qed.

Lemma claimFor_fields now instance why r :
  let r2 := claimFor now instance why r in
  r_claim r2 = next_claim instance (r_claim r) /\ r_cutOff r2 = r_cutOff r /\ r_queued r2 = r_queued r /\
  r_running r2 = r_running r /\ r_busy r2 = r_busy r.
Proof.
  cbv zeta. unfold claimFor. cbv zeta.
  match goal with |- context [emit now ?e ?r1] => pose proof (emit_erase now e r1) as E; set (r2 := emit now e r1) in * end.
  split_and!;
    [apply (f_equal r_claim) in E|apply (f_equal r_cutOff) in E|apply (f_equal r_queued) in E
    |apply (f_equal r_running) in E|apply (f_equal r_busy) in E];
    (etransitivity; [exact E|]); cbn; unfold next_claim; by destruct (_ || _).
Qed.

Lemma emits_fields {A} now (event : SessionRecord -> A -> Event) (l : list A) (r : SessionRecord) :
  erase (fold_left (fun r x => emit now (event r x) r) l r) = erase r.
Proof. revert r. induction l as [|x l IH]; intros r; [done|]. cbn. by rewrite IH, emit_erase. Qed.

Lemma TakeOver_kinds now instance why running r :
  r_logging r = true -> queues_kinds r (TakeOver now instance why running r) (takeover_kinds running r).
Proof.
  intros Hl. unfold TakeOver, takeover_kinds. cbv zeta.
  set (r1 := claimFor _ _ _ _).
  assert (H1 : queues_kinds r r1 [EventKindSessionClaimed]).
  { eapply queues_kinds_same; [|by apply claim_kinds]. done. }
  destruct (claimFor_fields now instance why (r <| r_busy := true |>)) as (_ & Hcut & Hqueued & _).
  fold r1 in Hcut, Hqueued. cbn in Hcut, Hqueued.
  set (r2 := (fold_left _ (r_cutOff r1) r1)).
  assert (H2 : queues_kinds r1 r2 (replicate (length (r_cutOff r)) EventKindReplyCutOff)).
  { rewrite <-Hcut. apply queues_kinds_fold; [done|]. by eapply queues_kinds_logging. }
  assert (H12 := queues_kinds_trans _ _ _ _ _ H1 H2).
  assert (H12' : queues_kinds r (r2 <| r_cutOff := [] |>) ([EventKindSessionClaimed] ++ replicate (length (r_cutOff r)) EventKindReplyCutOff)).
  { by eapply queues_kinds_same_r. }
  destruct (String.eqb running ""); [by rewrite app_nil_r|].
  rewrite app_comm_cons. eapply queues_kinds_trans; [exact H12'|].
  set (r3 := r2 <| r_cutOff := [] |>).
  assert (Hl3 : r_logging r3 = true) by by eapply queues_kinds_logging.
  assert (Hq3 : r_queued r3 = r_queued r).
  { change (r_queued r2 = r_queued r). rewrite <-Hqueued. unfold r2.
    pose proof (emits_fields now (fun r m => EReplyCutOff (MkReplyCutOff (header now r) m "interrupted")) (r_cutOff r1) r1) as E.
    by apply (f_equal r_queued) in E. }
  assert (H3 : queues_kinds r3 (dropQueued now "writer_gone" r3) (replicate (length (r_queued r)) EventKindMessageDropped)).
  { unfold dropQueued. cbv zeta. rewrite <-Hq3.
    eapply queues_kinds_same_r; [by apply (queues_kinds_fold now
      (fun r queued => EMessageDropped (MkMessageDropped ((header now r) <| h_RunID := h_RunID (mq_Header queued) |>)
        (mq_MessageID queued) (mq_Source queued) "writer_gone")))|]. done. }
  eapply queues_kinds_trans; [exact H3|].
  assert (Hl4 := queues_kinds_logging _ _ _ H3 Hl3). set (r4 := dropQueued _ _ _) in *.
  unfold interruptRun. cbv zeta.
  match goal with |- queues_kinds r4 (emit now ?e ?r1) _ => apply (queues_kinds_emit now e r4 r1 Hl4) end; [|done].
  match goal with |- same_log _ (touch _ ?x) => apply (same_log_trans _ x); [apply endRun_log|apply touch_log] end.
Qed.

Lemma endRun_taken run r :
  r_claim (endRun run r) = r_claim r /\ r_busy (endRun run r) = r_busy r /\
  r_running (endRun run r) = if String.eqb (r_running r) (ri_RunID run) then "" else r_running r.
Proof.
  unfold endRun. cbv zeta. destruct (last_run _ _ _) as [[i old]|]; cbn; case_match; cbn; case_match; done.
Qed.

Definition taken_fields (r : SessionRecord) := (r_claim r, r_busy r, r_running r).

Lemma emit_taken now event r : taken_fields (emit now event r) = taken_fields r.
Proof. pose proof (emit_erase now event r) as E. apply (f_equal taken_fields) in E. exact E. Qed.

Lemma touch_taken now r : taken_fields (touch now r) = taken_fields r.
Proof. done. Qed.

(** What [TakeOver] leaves, when [running] is what the Record says. *)
Lemma TakeOver_fields now instance why r :
  let r2 := TakeOver now instance why (r_running r) r in
  r_claim r2 = next_claim instance (r_claim r) /\ r_busy r2 = true /\ r_running r2 = "".
Proof.
  cbv zeta. unfold TakeOver. cbv zeta.
  destruct (claimFor_fields now instance why (r <| r_busy := true |>)) as (Hc & _ & _ & Hr & Hb).
  set (r1 := claimFor _ _ _ _) in *. cbn in Hc, Hr, Hb.
  pose proof (emits_fields now (fun r m => EReplyCutOff (MkReplyCutOff (header now r) m "interrupted")) (r_cutOff r1) r1) as E.
  set (r2 := fold_left _ (r_cutOff r1) r1) in *.
  assert (Hc2 : r_claim r2 = next_claim instance (r_claim r)) by (apply (f_equal r_claim) in E; rewrite <-Hc; exact E).
  assert (Hb2 : r_busy r2 = true) by (apply (f_equal r_busy) in E; rewrite <-Hb; exact E).
  assert (Hr2 : r_running r2 = r_running r) by (apply (f_equal r_running) in E; rewrite <-Hr; exact E).
  clear E. destruct (String.eqb_spec (r_running r) "") as [Hnone|Hsome]; [by rewrite <-Hnone|].
  set (r3 := r2 <| r_cutOff := [] |>).
  pose proof (emits_fields now (fun r queued => EMessageDropped (MkMessageDropped
    ((header now r) <| h_RunID := h_RunID (mq_Header queued) |>) (mq_MessageID queued) (mq_Source queued) "writer_gone"))
    (r_queued r3) r3) as E.
  unfold dropQueued. cbv zeta. set (r4 := fold_left _ (r_queued r3) r3) in *.
  unfold interruptRun. cbv zeta.
  assert (Hc4 : r_claim r4 = r_claim r2) by (apply (f_equal r_claim) in E; exact E).
  assert (Hb4 : r_busy r4 = r_busy r2) by (apply (f_equal r_busy) in E; exact E).
  assert (Hr4 : r_running r4 = r_running r2) by (apply (f_equal r_running) in E; exact E).
  set (r5 := r4 <| r_queued := [] |>).
  assert (H5 : taken_fields r5 = (r_claim r2, r_busy r2, r_running r)).
  { change (taken_fields r5) with (r_claim r4, r_busy r4, r_running r4). congruence. }
  rewrite <-Hb2, <-Hc2. clear E Hc Hb Hr Hc4 Hb4 Hr4. clearbody r5.
  unfold taken_fields in H5. injection H5 as Hc5 Hb5 Hr5.
  match goal with |- context [emit now ?e (touch now (endRun ?run r5))] =>
    pose proof (emit_taken now e (touch now (endRun run r5))) as H6; destruct (endRun_taken run r5) as (Hc6 & Hb6 & Hr6) end.
  rewrite touch_taken in H6. unfold taken_fields in H6. rewrite Hc6, Hb6, Hr6, Hr5 in H6.
  injection H6 as -> -> ->. cbn. by rewrite String.eqb_refl.
Qed.

(** ** A Record just loaded queues nothing *)

Lemma indexMessage_pending event at_ r : r_pending (indexMessage event at_ r) = r_pending r.
Proof. unfold indexMessage. repeat case_match; done. Qed.

Lemma retain_pending event r : r_pending (retain event r) = r_pending r.
Proof. unfold retain. repeat case_match; done. Qed.

Lemma endRun_pending run r : r_pending (endRun run r) = r_pending r.
Proof. apply endRun_log. Qed.

Lemma foldNotice_pending event r : r_pending (foldNotice event r) = r_pending r.
Proof. unfold foldNotice. repeat case_match; done. Qed.

Lemma apply_pending entry r r2 : apply entry r = Ok r2 -> r_pending r2 = r_pending r.
Proof.
  unfold apply. destruct (UnmarshalEvent _) as [event|]; [|done].
  assert (H : r_pending (apply_numbered (WithNumber event (en_Seq entry)) (en_At entry) r) = r_pending r).
  { unfold apply_numbered. cbv zeta. destruct (r_retainRead _); by rewrite ?retain_pending, indexMessage_pending, apply_event_pending. }
  destruct event; try done; intros [= <-]; exact H.
Qed.

Lemma apply_entries_pending previous entries r r2 : apply_entries previous entries r = Ok r2 -> r_pending r2 = r_pending r.
Proof.
  revert previous r. induction entries as [|entry entries IH]; intros previous r; cbn; [by intros [= <-]|].
  destruct (match previous with Some _ => _ | None => _ end); [done|].
  destruct (apply entry r) as [r1|] eqn:E; [|done]. cbn. intros H. apply IH in H. rewrite H. by apply apply_pending in E.
Qed.

Lemma apply_segments_pending segments r r2 : apply_segments segments r = Ok r2 -> r_pending r2 = r_pending r.
Proof.
  revert r. induction segments as [|entry segments IH]; intros r; cbn; [by intros [= <-]|].
  destruct (negb _); [done|]. destruct (apply entry r) as [r1|] eqn:E; [|done]. cbn. intros H. apply IH in H.
  rewrite H. by apply apply_pending in E.
Qed.

Lemma rebuild_pending entries retain_ segments r : rebuildRecord entries retain_ segments = Ok r -> r_pending r = [].
Proof.
  unfold rebuildRecord. destruct entries as [|first rest]; [done|]. destruct (negb _); [done|].
  destruct (apply_segments _ _) as [r1|] eqn:E1; [|done]. cbn [rbind].
  destruct (apply_entries _ _ _) as [r2|] eqn:E2; [|done]. cbn [rbind].
  apply apply_segments_pending in E1. apply apply_entries_pending in E2. unfold finish_rebuild.
  destruct (String.eqb _ _); [done|]. destruct (resolveSegments r2) as [r3|] eqn:E3; [|done]. cbn [rbind]. cbv zeta.
  intros [= <-]. cbn. unfold resolveSegments in E3. destruct (rendered _ _); [|done]. injection E3 as <-. cbn. by rewrite E2, E1.
Qed.

Lemma FromLoaded_start loaded r :
  FromLoaded loaded = Ok r -> r_pending r = [] /\ r_head r = ld_Seq loaded.
Proof.
  unfold FromLoaded. destruct (rebuildRecord _ _ _) as [r1|] eqn:E; [|done]. apply rebuild_pending in E. cbn [rbind]. cbv zeta.
  intros [= <-]. cbn. destruct (_ =? 0)%Z, (String.eqb _ ""), (String.eqb _ ""); done.
Qed.

(** ** Opening *)

Lemma first_taken r r2 tk : TakePending r = Ok (r2, Some tk) -> first_seq (tk_entries tk) = u64_add (r_head r) 1.
Proof.
  unfold TakePending. destruct (r_pending r) as [|event events]; [done|].
  destruct (entries_of _ _ _) as [entries|] eqn:E; [|done]. cbn [rbind]. intros [= <- <-]. cbn [tk_entries].
  cbn [entries_of] in E. destruct (entryOf event (r_instance r)) as [entry|]; [|done]. cbn [rbind] in E.
  destruct (N.eqb_spec (en_Seq entry) (u64_add (r_head r) 1)) as [Heq|]; [|done]. cbn [negb] in E.
  destruct (entries_of _ _ events); [|done]. injection E as <-. exact Heq.
Qed.

Lemma u64_sub_add n : (n < two64)%N -> u64_sub (u64_add n 1) 1 = n.
Proof.
  intros Hn. unfold u64_sub, u64_add. rewrite (u64_small 1) by done.
  unfold u64, two64 in *. destruct (N.eq_dec n (2 ^ 64 - 1)%N) as [->|]; [done|].
  rewrite (N.mod_small (n + 1)) by lia. replace (n + 1 + 2 ^ 64 - 1)%N with (n + 1 * 2 ^ 64)%N by lia.
  rewrite N.Div0.mod_add, N.mod_small; lia.
Qed.

Lemma made_kinds events entries : Forall2 made events entries -> en_Kind <$> entries = Kind <$> events.
Proof. induction 1 as [|event entry events entries Hm _ IH]; [done|]. cbn. by rewrite IH, (made_kind _ _ Hm). Qed.

(** The log of [id] is that of a Record of that ID, as [CreateWriter] writes it. *)
Definition names (id : string) (st : stored) : Prop :=
  forall r, FromLoaded (load_of st) = Ok r -> r_id r = id.

Section over_a_store.
Context {S : Type} `{!Records S} `{!RecordsLaws S}.
Implicit Types (s : S) (w : Writer) (id : string).

(** What an [OpenWriter] that succeeded did. *)
Lemma open_ok ctx deadline guard loadTime elapsed now holder waited publish id instance s s' w st :
  ctx_err deadline -> view s !! id = Some st -> names id st ->
  OpenWriter ctx deadline guard loadTime elapsed now holder waited publish id instance s = (s', Ok w) ->
  exists r entries h, FromLoaded (load_of st) = Ok r /\
    view s' = <[id := extended st entries h]> (view s) /\ en_Kind <$> entries = takeover_kinds (r_running r) r /\
    taken_fields (w_rec w) = (next_claim instance (r_claim r), true, "") /\ r_pending (w_rec w) = [] /\ w_failed w = None.
Proof.
  intros Hctx Hst Hnames. unfold OpenWriter.
  destruct (Records_Load ctx id s) as [s1 loaded] eqn:Eload.
  assert (Hv1 : view s1 = view s) by (rewrite <-(Load_view ctx id s), Eload; done).
  destruct loaded as [loaded|err]; [|done].
  destruct (Load_law ctx id s loaded) as (st' & Hst' & ->); [by rewrite Eload|].
  rewrite Hst in Hst'. injection Hst' as <-.
  destruct (FromLoaded (load_of st)) as [r|err] eqn:Er; [|done]. specialize (Hnames r Er).
  destruct (FromLoaded_start _ _ Er) as [Hp0 Hh0].
  unfold Attach. cbv zeta. set (ra := r <| r_instance := instance |> <| r_logging := true |>).
  destruct (if String.eqb _ instance then None else _) as [err|]; [done|].
  match goal with |- context [TakeOver now instance ?y _ ra] => set (why := y) end.
  change (r_running ra) with (r_running r).
  assert (Hla : r_logging ra = true) by done.
  destruct (TakeOver_kinds now instance why (r_running r) ra Hla) as (events & Hq & Hk).
  pose proof (TakeOver_fields now instance why ra) as Hfields. cbv zeta in Hfields. change (r_running ra) with (r_running r) in Hfields.
  set (r2 := TakeOver now instance why (r_running r) ra) in *. destruct Hfields as (Hc & Hb & Hr).
  pose proof (t_pending _ _ _ Hq) as Hp. change (r_pending ra) with (r_pending r) in Hp. rewrite Hp0 in Hp. cbn in Hp.
  set (w0 := MkWriter r2 publish None _).
  assert (Hid : r_id (w_rec w0) = id) by (rewrite <-Hnames; apply (t_id _ _ _ Hq)).
  destruct (flush_spec deadline guard elapsed w0 s1 id Hctx eq_refl Hid) as
    [Hnone|r3 tk w' s2 st1 Htk Hst1 Hhd Hv Hrec Hf Hpub| |]; [|..]; intros Hopen; try discriminate Hopen.
  { cbn in Hnone. rewrite Hp in Hnone. by rewrite Hnone in Hk. }
  injection Hopen as <- <-. cbn [w_rec w0] in Htk. rewrite Hv1, Hst in Hst1. injection Hst1 as <-.
  destruct (TakePending_ok _ _ _ Htk) as (-> & Hm & _ & _ & _).
  exists r, (tk_entries tk), (tk_header tk). split_and!; [done|by rewrite Hv, Hv1| | |by rewrite Hrec|done].
  - rewrite (made_kinds _ _ Hm), Hp. exact Hk.
  - rewrite Hrec. unfold taken_fields. cbn. by rewrite Hc, Hb, Hr.
Qed.

(** A Writer that is not at the end of the log writes nothing. *)
Lemma behind_refused deadline guard elapsed w s st :
  ctx_err deadline -> view s !! r_id (w_rec w) = Some st -> small st ->
  (r_head (w_rec w) < head st)%N -> r_pending (w_rec w) <> [] ->
  exists w' s' err, flushLocked deadline guard elapsed w s = (w', s', Err err) /\
    view s' = view s /\ w_failed w' = Some err /\ w_publish w' = w_publish w.
Proof.
  intros Hctx Hst Hsmall Hlt Hne. destruct (w_failed w) as [err|] eqn:Hf.
  { exists w, s, err. by rewrite (flush_failed _ _ _ _ _ _ Hf). }
  assert (Hno : forall r tk st1, TakePending (w_rec w) = Ok (r, Some tk) -> view s !! r_id (w_rec w) = Some st1 ->
    head st1 = u64_sub (first_seq (tk_entries tk)) 1 -> False).
  { intros r tk st1 Htk Hst1 Hhd. rewrite Hst in Hst1. injection Hst1 as <-.
    rewrite (first_taken _ _ _ Htk), u64_sub_add in Hhd; [lia|].
    unfold head, small in *. rewrite u64_small in Hlt by done. lia. }
  destruct (flush_spec deadline guard elapsed w s _ Hctx Hf eq_refl) as [Hp| | |w' s' err Hv Hf' Hpub];
    [done|exfalso; by eapply Hno|exfalso; by eapply Hno|]. by exists w', s', err.
Qed.

(** ** Properties *)

(** opening a Record claims it: [OpenWriter] writes, as one write at the
    end of the log, the Claim, a cut-off reply for each that was streaming, and for
    a Run that never ended its dropped messages and its end, in that order; the
    Record it returns is busy, has no Run, and holds a Claim of the Instance whose Epoch is one more
    than the last unless the Instance held it already. *)
Theorem open_writer_claims ctx deadline guard loadTime elapsed now holder waited publish id instance s s' w st :
  ctx_err deadline -> view s !! id = Some st -> names id st ->
  OpenWriter ctx deadline guard loadTime elapsed now holder waited publish id instance s = (s', Ok w) ->
  exists r entries h, FromLoaded (load_of st) = Ok r /\
    view s' = <[id := extended st entries h]> (view s) /\
    en_Kind <$> entries =
      EventKindSessionClaimed :: replicate (length (r_cutOff r)) EventKindReplyCutOff ++
      (if String.eqb (r_running r) "" then []
       else replicate (length (r_queued r)) EventKindMessageDropped ++ [EventKindRunEnded]) /\
    r_busy (w_rec w) = true /\ r_running (w_rec w) = "" /\ r_pending (w_rec w) = [] /\
    cl_Instance (r_claim (w_rec w)) = instance /\
    (cl_Epoch (r_claim (w_rec w)) = cl_Epoch (r_claim r) /\ cl_Instance (r_claim r) = instance \/
     cl_Epoch (r_claim (w_rec w)) = u64_add (cl_Epoch (r_claim r)) 1).
Proof.
  intros Hctx Hst Hnames Hopen.
  destruct (open_ok _ _ _ _ _ _ _ _ _ _ _ _ _ _ _ Hctx Hst Hnames Hopen) as (r & entries & h & Hr & Hv & Hk & Hf & Hp & _).
  injection Hf as Hc Hb Hrun. exists r, entries, h. split_and!; try done; rewrite Hc; unfold next_claim.
  - destruct (String.eqb_spec (cl_Instance (r_claim r)) instance); cbn; [by destruct (N.eqb _ 0)|done].
  - destruct (String.eqb_spec (cl_Instance (r_claim r)) instance); cbn; [|by right].
    destruct (N.eqb _ 0); [by right|by left].
Qed.

(** C3: a Record has one writer: once another Instance opened it, a Writer that
    was opened before can never write it again, however far the log grew since;
    the first write it tries fails, changes nothing and publishes nothing. *)
Theorem open_writer_fences ctx deadline guard loadTime elapsed now holder waited publish id instance s s' w st
    (old : Writer) :
  ctx_err deadline -> view s !! id = Some st -> names id st ->
  OpenWriter ctx deadline guard loadTime elapsed now holder waited publish id instance s = (s', Ok w) ->
  r_id (w_rec old) = id -> (r_head (w_rec old) <= head st)%N -> r_pending (w_rec old) <> [] ->
  exists st', view s' !! id = Some st' /\ st_entries st `prefix_of` st_entries st' /\
    forall s2 st2, view s2 !! id = Some st2 -> st_entries st' `prefix_of` st_entries st2 -> small st2 ->
    forall deadline guard elapsed, ctx_err deadline ->
    exists old' s3 err, flushLocked deadline guard elapsed old s2 = (old', s3, Err err) /\
      view s3 = view s2 /\ w_failed old' = Some err /\ w_publish old' = w_publish old.
Proof.
  intros Hctx Hst Hnames Hopen Hid Hhead Hne.
  destruct (open_ok _ _ _ _ _ _ _ _ _ _ _ _ _ _ _ Hctx Hst Hnames Hopen) as (r & entries & h & Hr & Hv & Hk & _).
  exists (extended st entries h). split_and!; [by rewrite Hv, lookup_insert_eq|by apply prefix_app_r|].
  intros s2 st2 Hst2 Hpre Hsmall deadline2 guard2 elapsed2 Hctx2. apply behind_refused with st2; try done; [by rewrite Hid|].
  apply prefix_length in Hpre. cbn in Hpre. rewrite length_app in Hpre.
  assert (0 < length entries)%nat by (destruct entries; cbn; [done|lia]).
  unfold head, small in *. rewrite u64_small in * by lia. lia.
Qed.

(** C5: a Writer that failed has stopped for good: whatever is asked of it
    afterwards, it keeps its first failure, acknowledges nothing more, hands nothing to its
    publisher, and leaves the Record in the store as it was. *)
Theorem stopped_writer_writes_nothing (id : string) (y y' : system) (err : error) :
  w_failed (sy_writer y) = Some err -> rtc (moves id) y y' ->
  w_failed (sy_writer y') = Some err /\ sy_acked y' = sy_acked y /\
  view (sy_store y') !! id = view (sy_store y) !! id /\
  (w_publish (sy_writer y') = w_publish (sy_writer y) \/ w_publish (sy_writer y') = None \/
   w_publish (sy_writer y') = Some []).
Proof.
  intros Hf Hm. revert Hf. induction Hm as [y|y y1 y2 Hm _ IH]; intros Hf; [split_and!; auto|].
  enough (w_failed (sy_writer y1) = Some err /\ sy_acked y1 = sy_acked y /\
    view (sy_store y1) !! id = view (sy_store y) !! id /\
    (w_publish (sy_writer y1) = w_publish (sy_writer y) \/ w_publish (sy_writer y1) = None \/
     w_publish (sy_writer y1) = Some [])) as (H1 & H2 & H3 & H4).
  { destruct (IH H1) as (G1 & G2 & G3 & G4). split_and!; [done|congruence|congruence|].
    destruct G4 as [->|]; auto. }
  destruct Hm; unfold Writer_Write, Flush, Writer_Release, Resume, Failed; cbv zeta; rewrite ?Hf;
    try (erewrite flush_failed by exact Hf); cbn; rewrite ?app_nil_r; split_and!; intuition.
Qed.

End over_a_store.

(** ** Witnesses *)

(** What [pod-b] opens. *)
Definition sample_open : MemoryStore * outcome Writer :=
  OpenWriter None None None 1 1 9 None false None "s1" "pod-b" (sy_store sample_written).

Definition sample_stored : stored :=
  default (MkStored [] (MkRecordHeader "" (infoLocked record_zero))) (ms_records (sy_store sample_written) !! "s1").

Lemma sample_names : names "s1" sample_stored.
Proof. intros r. vm_compute. intros [= <-]. reflexivity. Qed.

Lemma open_writer_claims_witness :
  exists r entries h, FromLoaded (load_of sample_stored) = Ok r /\
    view (fst sample_open) = <["s1" := extended sample_stored entries h]> (view (sy_store sample_written)) /\
    en_Kind <$> entries =
      EventKindSessionClaimed :: replicate (length (r_cutOff r)) EventKindReplyCutOff ++
      (if String.eqb (r_running r) "" then []
       else replicate (length (r_queued r)) EventKindMessageDropped ++ [EventKindRunEnded]) /\
    r_busy (w_rec (writer_of (snd sample_open))) = true /\ r_running (w_rec (writer_of (snd sample_open))) = "" /\
    r_pending (w_rec (writer_of (snd sample_open))) = [] /\
    cl_Instance (r_claim (w_rec (writer_of (snd sample_open)))) = "pod-b" /\
    (cl_Epoch (r_claim (w_rec (writer_of (snd sample_open)))) = cl_Epoch (r_claim r) /\ cl_Instance (r_claim r) = "pod-b" \/
     cl_Epoch (r_claim (w_rec (writer_of (snd sample_open)))) = u64_add (cl_Epoch (r_claim r)) 1).
Proof.
  apply (open_writer_claims None None None 1 1 9 None false None "s1" "pod-b" (sy_store sample_written) (fst sample_open)
    (writer_of (snd sample_open)) sample_stored);
    [exact I|vm_compute; reflexivity|apply sample_names|vm_compute; reflexivity].
Defined.

(** [pod-a]'s Writer, with a release queued. *)
Definition sample_old : Writer :=
  (sy_writer sample_written) <| w_rec := Release 10 (w_rec (sy_writer sample_written)) |>.

Lemma open_writer_fences_witness :
  exists st', view (fst sample_open) !! "s1" = Some st' /\ st_entries sample_stored `prefix_of` st_entries st' /\
    forall (s2 : MemoryStore) st2, view s2 !! "s1" = Some st2 -> st_entries st' `prefix_of` st_entries st2 -> small st2 ->
    forall deadline guard elapsed, ctx_err deadline ->
    exists old' s3 err, flushLocked deadline guard elapsed sample_old s2 = (old', s3, Err err) /\
      view s3 = view s2 /\ w_failed old' = Some err /\ w_publish old' = w_publish sample_old.
Proof.
  apply (open_writer_fences None None None 1 1 9 None false None "s1" "pod-b" (sy_store sample_written) (fst sample_open)
    (writer_of (snd sample_open)) sample_stored sample_old);
    [exact I|vm_compute; reflexivity|apply sample_names|vm_compute; reflexivity|vm_compute; reflexivity
    |vm_compute; discriminate|vm_compute; discriminate].
Defined.

(** [pod-a] tries the release after [pod-b] opened the Record, and then flushes again. *)
Definition sample_stopped : system (S := MemoryStore) :=
  after_call (MkSystem (sy_writer sample_written) (fst sample_open) [] (sy_acked sample_written)) []
    (Writer_Release None None 1 10 (sy_writer sample_written) (fst sample_open)).

Lemma stopped_writer_writes_nothing_witness :
  let y' := after_call sample_stopped (sy_parts sample_stopped) (Flush None None 1 (sy_writer sample_stopped) (sy_store sample_stopped)) in
  w_failed (sy_writer y') = Some ErrConflict /\ sy_acked y' = sy_acked sample_stopped /\
  view (sy_store y') !! "s1" = view (sy_store sample_stopped) !! "s1" /\
  (w_publish (sy_writer y') = w_publish (sy_writer sample_stopped) \/ w_publish (sy_writer y') = None \/
   w_publish (sy_writer y') = Some []).
Proof.
  intros y'. apply (stopped_writer_writes_nothing "s1" sample_stopped y' ErrConflict).
  - vm_compute. reflexivity.
  - apply rtc_once. subst y'. apply (moves_flush "s1" sample_stopped None None 1). exact I.
Defined.
