(* ===== verification/Feed.v ===== *)
(** * Feeds and Subscriptions

    [gotato/feed.go] and [gotato/subscription.go].  A publisher, the subscriber's
    own goroutine and its reader share a Feed and a Subscription; what each does
    under a lock is one definition here, and [Streams] interleaves them.  A
    callback of the host is a function; one that panics answers the error
    [recoverPanic] makes of the panic.  The wiring of one Feed to another
    ([mirrorTo], [setLabel]) is not modelled: a label is an argument. *)

From S2P Require Import Prelude GoStrings Errors Types Events.
Local Open Scope string_scope.
Local Open Scope list_scope.

Definition defaultSubscriptionBuffer : Z := 256.
Definition catchUpBatch : Z := 128.
Definition catchUpRetries : nat := 100.
Definition defaultRetainedEvents : nat := 4096.

Definition is_stored (event : Event) : bool := String.eqb (Class_ event) EventClassStored.
Definition is_delta (event : Event) : bool := String.eqb (Class_ event) EventClassDelta.
Definition number_of (event : Event) : N := h_Number (Head event).

(** ** Feeds *)

(** [fd_source] says whether there is a source; the subscribers are in
    [Streams]. *)
Record Feed := MkFeed {
  fd_source : bool;
  fd_mixed : bool;
  fd_last : N;
  fd_count : N;
  fd_closed : bool;
  fd_ring : list Event;
  fd_ringCap : nat;
  fd_dropped : bool;
}.
#[export] Instance eta_Feed : Eta Feed := fun r =>
  MkFeed (fd_source r) (fd_mixed r) (fd_last r) (fd_count r) (fd_closed r) (fd_ring r) (fd_ringCap r) (fd_dropped r).

Definition newFeed (source : bool) : Feed := MkFeed source false 0 0 false [] defaultRetainedEvents false.
Definition newInstanceFeed : Feed := MkFeed false true 0 0 false [] 0 false.

Definition setSource (f : Feed) : Feed := f <| fd_source := true |> <| fd_ring := [] |> <| fd_dropped := false |>.

(** [Feed.retain]. *)
Definition retain_event (event : Event) (f : Feed) : Feed :=
  if fd_source f then f
  else
    let f := if (fd_ringCap f <=? length (fd_ring f))%nat
      then f <| fd_ring := drop (length (fd_ring f) - Nat.div2 (fd_ringCap f)) (fd_ring f) |>
             <| fd_dropped := true |>
      else f in
    f <| fd_ring := fd_ring f ++ [event] |>.

(** What [publishLabeled] does under the lock. *)
Definition publish_locked (event : Event) (f : Feed) : Feed :=
  if fd_closed f then f
  else
    let f := if negb (fd_mixed f) && is_stored event then
        let f := if (fd_last f <? number_of event)%N then f <| fd_last := number_of event |> else f in
        retain_event event f
      else f in
    f <| fd_count := u64_add (fd_count f) 1 |>.

(** [eventsAfter], of a Feed without a source. *)
Definition ring_after (after : N) (limit : nat) (f : Feed) : outcome (list Event) :=
  let lost := match fd_ring f with
    | first :: _ => fd_dropped f && (u64_add after 1 <? number_of first)%N
    | [] => false
    end in
  if lost then Err ErrEventsLost
  else Ok (take limit (filter (fun event => (after < number_of event)%N) (fd_ring f))).

(** ** Subscriptions *)

(** [verify]: whether a [SubscribeVerify] check was given; what it answers is an
    argument of [read]. *)
Record subscribeConfig := MkSubscribeConfig {
  co_after : option N;
  co_buffer : Z;
  co_filter : option (Event -> outcome bool);
  co_labeled : option (Event -> string -> outcome bool);
  co_until : option (Event -> outcome bool);
  co_tail : bool;
  co_verify : bool;
}.

Record subscription := MkSubscription {
  sb_max : nat;
  sb_config : subscribeConfig;
  sb_queue : list Event;
  sb_cursor : N;
  sb_cursorSet : bool;
  sb_behind : bool;
  sb_resume : N;
  sb_skipped : N;
  sb_ending : bool;
  sb_err : option error;
  sb_wake : bool;
  sb_done : bool;
}.
#[export] Instance eta_subscription : Eta subscription := fun r =>
  MkSubscription (sb_max r) (sb_config r) (sb_queue r) (sb_cursor r) (sb_cursorSet r) (sb_behind r)
    (sb_resume r) (sb_skipped r) (sb_ending r) (sb_err r) (sb_wake r) (sb_done r).

(** [Subscribe]. *)
Definition Subscribe (config : subscribeConfig) (f : Feed) : outcome subscription :=
  if fd_closed f then Err IoEOF
  else
    let max := if (co_buffer config <=? 0)%Z then defaultSubscriptionBuffer else co_buffer config in
    let s := MkSubscription (Z.to_nat max) config [] 0 false false 0 0 false None false false in
    match co_after config with
    | Some n =>
      if fd_mixed f then Ok s
      else Ok (s <| sb_behind := true |> <| sb_cursor := n |> <| sb_resume := n |> <| sb_cursorSet := true |>)
    | None => Ok s
    end.

Definition signal (s : subscription) : subscription := s <| sb_wake := true |>.

Definition extensionFailure (stage : string) (err : error) : error :=
  RuntimeErr (runtimeError CodeExtensionFailure stage
    (plain_text (PublicText err "subscription callback failed")) (Some err)).

Definition guarded {A} (out : outcome A) : outcome A :=
  match out with Ok a => Ok a | Err err => Err (extensionFailure "Subscription" err) end.

Definition passes (event : Event) (s : subscription) : outcome bool :=
  match co_filter (sb_config s) with None => Ok true | Some keep => guarded (keep event) end.

Definition finish (err : option error) (s : subscription) : subscription :=
  if sb_done s then s
  else
    let s := match err with Some _ => s <| sb_err := err |> | None => s end in
    s <| sb_done := true |>.

Definition end_ (s : subscription) : subscription := signal (s <| sb_ending := true |>).

(** [offer], up to the lock: the filters. *)
Definition wanted (event : Event) (label : string) (s : subscription) : outcome bool :=
  let? keep := passes event s in
  match co_labeled (sb_config s) with
  | Some labeled => if keep then guarded (labeled event label) else Ok keep
  | None => Ok keep
  end.

(** The queue without its oldest delta. *)
Fixpoint drop_delta (queue : list Event) : option (list Event) :=
  match queue with
  | [] => None
  | event :: rest => if is_delta event then Some rest else cons event <$> drop_delta rest
  end.

Definition skip (mixed : bool) (s : subscription) : subscription :=
  if mixed then s <| sb_skipped := u64_add (sb_skipped s) 1 |> else s.

Definition fall_behind (s : subscription) : subscription :=
  s <| sb_behind := true |> <| sb_resume := sb_cursor s |>.

(** The end of [offer]. *)
Definition push (stored : bool) (event : Event) (s : subscription) : subscription :=
  let s := s <| sb_queue := sb_queue s ++ [event] |> in
  let s := if stored then s <| sb_cursor := number_of event |> <| sb_cursorSet := true |> else s in
  signal s.

Definition enqueue (mixed stored : bool) (event : Event) (s : subscription) : subscription :=
  if (sb_max s <=? length (sb_queue s))%nat then
    match drop_delta (sb_queue s) with
    | Some queue => push stored event (skip mixed (s <| sb_queue := queue |>))
    | None =>
      if is_delta event then skip mixed s
      else if mixed then skip mixed s
      else signal (fall_behind s)
    end
  else push stored event s.

Definition offer_locked (mixed keep : bool) (event : Event) (s : subscription) : subscription :=
  if sb_ending s && negb (sb_behind s) then s
  else if sb_behind s then s
  else
    let stored := is_stored event && negb mixed in
    let number := number_of event in
    if stored && sb_cursorSet s && (number <=? sb_cursor s)%N then s
    else if stored && sb_cursorSet s && (u64_add (sb_cursor s) 1 <? number)%N then signal (fall_behind s)
    else if negb keep then
      if stored then s <| sb_cursor := number |> <| sb_cursorSet := true |> else s
    else enqueue mixed stored event s.

Definition offer (mixed : bool) (event : Event) (label : string) (s : subscription) : subscription :=
  if sb_done s then s
  else match wanted event label s with
  | Err err => finish (Some err) s
  | Ok keep => offer_locked mixed keep event s
  end.

(** ** The subscriber's goroutine *)

Record queueState := MkQueueState { qs_behind : bool; qs_resume : N; qs_ending : bool }.

(** What [popQueued] returns: an Event, or what to do next. *)
Definition popQueued (now : gotime) (s : subscription) : subscription * (Event + queueState) :=
  if (0 <? sb_skipped s)%N
  then (s <| sb_skipped := 0%N |>, inl (EEventsSkipped (MkEventsSkipped (NewHeader now "" "" 0) (sb_skipped s))))
  else match sb_queue s with
  | event :: rest => (s <| sb_queue := rest |>, inl event)
  | [] => (s, inr (MkQueueState (sb_behind s) (sb_resume s) (sb_ending s)))
  end.

(** [read], of what the source answered and what the check says. *)
Definition read (batch : outcome (list Event)) (verified : option error) (s : subscription)
    : outcome (list (Event * bool)) :=
  let? batch := batch in
  match batch, (if co_verify (sb_config s) then verified else None) with
  | [], _ => Ok []
  | _, Some err => Err err
  | _, None =>
    foldr (fun event out =>
      let? keep := passes event s in
      let? rest := out in
      Ok ((event, keep) :: rest)) (Ok []) batch
  end.

(** The Events of a batch that pass the filter. *)
Definition kept_events (batch : list (Event * bool)) : list Event :=
  omap (fun p => if snd p : bool then Some (fst p) else None) batch.

(** The first lock of [catchUp]: a batch that was read. *)
Definition catch_batch (batch : list (Event * bool)) (s : subscription) : subscription :=
  let resume := default (sb_resume s) (number_of ∘ fst <$> last batch) in
  s <| sb_resume := resume |> <| sb_cursor := N.max (sb_cursor s) resume |>.

(** The second: nothing was read, and [last_] is the last number the Feed
    published. *)
Definition rejoin (last_ : N) (s : subscription) : subscription :=
  if (last_ <=? sb_resume s)%N then s <| sb_behind := false |> <| sb_cursorSet := true |> else s.

(** The loop of [look]. *)
Fixpoint look_batch (batch : list (Event * bool)) (s : subscription) : subscription :=
  match batch with
  | [] => s
  | (event, keep) :: rest =>
    let number := number_of event in
    if (number <=? sb_cursor s)%N then look_batch rest s
    else if negb (N.eqb number (u64_add (sb_cursor s) 1)) then fall_behind s
    else
      let s := s <| sb_cursor := number |> in
      look_batch rest (if keep then s <| sb_queue := sb_queue s ++ [event] |> else s)
  end.
