(* ===== verification/Streams.v ===== *)
(** * One Subscription and everything around it

    The publisher, the subscriber's goroutine, the Record that grows, and the
    closing of the stream, interleaved at every lock.  A Session's stream gives each
    stored Event that passes its filter once, in order, with none left out, however the steps
    interleave; and it never sleeps on something it has to do. *)

From S2P Require Import Prelude GoStrings Errors Types Events Feed.
Local Open Scope string_scope.
Local Open Scope list_scope.

(** ** The state *)

(** Where the subscriber's goroutine is: before [popQueued], about to read after
    a number, holding a batch that was read, waiting, about to look, holding what the
    look read, handing an Event to [Next], or gone.  [empty] is the local of
    [take]. *)
Inductive place : Type :=
| AtTake (empty : nat)
| AtRead (resume : N) (empty : nat)
| AtCaught (batch : list (Event * bool)) (empty : nat)
| AtAwait (empty : nat)
| AtLook (after : N) (empty : nat)
| AtLooked (batch : list (Event * bool)) (empty : nat)
| AtSend (event : Event)
| AtEnd.

(** [st_log] is what the Record holds, without the bodies of spilled results;
    [st_offers] what was published and not yet offered to this subscriber; and
    [st_delivered] what [Next] returned. *)
Record stream := MkStream {
  st_log : list Event;
  st_feed : Feed;
  st_sub : subscription;
  st_place : place;
  st_pending : list Event;
  st_offers : list (Event * string);
  st_delivered : list Event;
}.
#[export] Instance eta_stream : Eta stream := fun r =>
  MkStream (st_log r) (st_feed r) (st_sub r) (st_place r) (st_pending r) (st_offers r) (st_delivered r).

(** The Entries of a log are numbered from 1. *)
Definition numbered (log : list Event) : Prop :=
  forall i event, log !! i = Some event -> number_of event = (N.of_nat i + 1)%N /\ is_stored event = true.

(** What the sender of a Session's Feed publishes: a delta, or a stored Event
    that the Record holds; and the sender of an Instance's, anything.  A Feed
    without a source is given every stored Event, in order. *)
Definition publishable (y : stream) (event : Event) : Prop :=
  fd_mixed (st_feed y) = true \/ (is_delta event = true /\ is_stored event = false) \/
  (exists i, st_log y !! i = Some event) /\
  (fd_source (st_feed y) = false -> number_of event = (fd_last (st_feed y) + 1)%N).

(** What a source answers: a stretch of the log after a number. *)
Definition source_batch (log : list Event) (after : N) (batch : list Event) : Prop :=
  exists k, batch = take k (drop (N.to_nat after) log).

Definition batch_of (y : stream) (after : N) (out : outcome (list Event)) : Prop :=
  if fd_source (st_feed y)
  then match out with Ok batch => source_batch (st_log y) after batch | Err _ => True end
  else out = ring_after after (Z.to_nat catchUpBatch) (st_feed y).

(** What the goroutine does after [popQueued] found nothing. *)
Definition next_place (empty : nat) (state : queueState) : place :=
  if qs_behind state then AtRead (qs_resume state) empty
  else if qs_ending state then AtEnd else AtAwait empty.

Definition stopped (err : option error) (y : stream) : stream :=
  y <| st_sub := finish err (st_sub y) |> <| st_place := AtEnd |>.

Inductive interleaves (y : stream) : stream -> Prop :=
(* the Record grows *)
| does_write event :
    number_of event = (N.of_nat (length (st_log y)) + 1)%N -> is_stored event = true ->
    (N.of_nat (length (st_log y)) + 1 < two64)%N ->
    interleaves y (y <| st_log := st_log y ++ [event] |>)
(* the publisher *)
| does_publish event label :
    fd_closed (st_feed y) = false -> publishable y event ->
    interleaves y (y <| st_feed := publish_locked event (st_feed y) |>
                     <| st_offers := st_offers y ++ [(event, label)] |>)
| does_offer event label rest :
    st_offers y = (event, label) :: rest ->
    interleaves y (y <| st_offers := rest |> <| st_sub := offer (fd_mixed (st_feed y)) event label (st_sub y) |>)
(* the end of the stream, by the Feed, the subscriber or its context *)
| does_end : interleaves y (y <| st_sub := end_ (st_sub y) |>)
| does_finish err : interleaves y (y <| st_sub := finish err (st_sub y) |>)
| does_close : interleaves y (y <| st_feed := (st_feed y) <| fd_closed := true |> |> <| st_sub := end_ (st_sub y) |>)
| does_source :
    fd_mixed (st_feed y) = false -> interleaves y (y <| st_feed := setSource (st_feed y) |>)
(* the subscriber's goroutine *)
| does_pending empty event rest :
    st_place y = AtTake empty -> st_pending y = event :: rest ->
    interleaves y (y <| st_pending := rest |> <| st_place := AtSend event |>)
| does_pop empty now s event :
    st_place y = AtTake empty -> st_pending y = [] -> popQueued now (st_sub y) = (s, inl event) ->
    interleaves y (y <| st_sub := s |> <| st_place := AtSend event |>)
| does_turn empty now s state :
    st_place y = AtTake empty -> st_pending y = [] -> popQueued now (st_sub y) = (s, inr state) ->
    interleaves y (y <| st_sub := s |> <| st_place := next_place empty state |>)
| does_read resume empty out verified :
    st_place y = AtRead resume empty -> batch_of y resume out ->
    interleaves y (match read out verified (st_sub y) with
      | Ok batch => y <| st_place := AtCaught batch empty |>
      | Err err => stopped (Some err) y
      end)
| does_catch batch empty :
    st_place y = AtCaught batch empty -> batch <> [] ->
    interleaves y (y <| st_sub := catch_batch batch (st_sub y) |>
                     <| st_pending := st_pending y ++ kept_events batch |> <| st_place := AtTake empty |>)
| does_rejoin empty :
    st_place y = AtCaught [] empty -> sb_behind (rejoin (fd_last (st_feed y)) (st_sub y)) = false ->
    interleaves y (y <| st_sub := rejoin (fd_last (st_feed y)) (st_sub y) |> <| st_place := AtTake 0 |>)
| does_retry empty :
    st_place y = AtCaught [] empty -> sb_behind (rejoin (fd_last (st_feed y)) (st_sub y)) = true ->
    interleaves y (let y := y <| st_sub := rejoin (fd_last (st_feed y)) (st_sub y) |> in
      if (catchUpRetries <? S empty)%nat then stopped (Some ErrEventsLost) y
      else y <| st_place := AtTake (S empty) |>)
| does_wake empty :
    st_place y = AtAwait empty -> sb_wake (st_sub y) = true ->
    interleaves y (y <| st_sub := (st_sub y) <| sb_wake := false |> |> <| st_place := AtTake empty |>)
| does_tick empty :
    st_place y = AtAwait empty -> co_tail (sb_config (st_sub y)) = true ->
    fd_mixed (st_feed y) = false -> fd_source (st_feed y) = true ->
    interleaves y (y <| st_place := if negb (sb_cursorSet (st_sub y)) || sb_behind (st_sub y) then AtTake empty
                                    else AtLook (sb_cursor (st_sub y)) empty |>)
| does_look after empty out verified :
    st_place y = AtLook after empty -> batch_of y after out ->
    interleaves y (match read out verified (st_sub y) with
      | Ok batch => y <| st_place := AtLooked batch empty |>
      | Err err => stopped (Some err) y
      end)
| does_looked batch empty :
    st_place y = AtLooked batch empty ->
    interleaves y (y <| st_sub := if sb_behind (st_sub y) then st_sub y else look_batch batch (st_sub y) |>
                     <| st_place := AtTake empty |>)
| does_deliver event :
    st_place y = AtSend event ->
    interleaves y (let y := y <| st_delivered := st_delivered y ++ [event] |> in
      match co_until (sb_config (st_sub y)) with
      | None => y <| st_place := AtTake 0 |>
      | Some until =>
        match guarded (until event) with
        | Err err => stopped (Some err) y
        | Ok true => stopped None y
        | Ok false => y <| st_place := AtTake 0 |>
        end
      end)
| does_stop : sb_done (st_sub y) = true -> interleaves y (y <| st_place := AtEnd |>).

(** A Session's Feed and its Record: it published nothing the Record does not
    hold, and its own memory is the end of what it published. *)
Definition feed_wf (log : list Event) (f : Feed) : Prop :=
  fd_mixed f = false ->
  (fd_last f <= N.of_nat (length log))%N /\
  (fd_source f = false -> exists d, (d <= N.to_nat (fd_last f))%nat /\
     fd_ring f = drop d (take (N.to_nat (fd_last f)) log) /\ (fd_dropped f = false -> d = 0%nat)).

(** A stream from its Subscribe on. *)
Inductive streams (config : subscribeConfig) (feed : Feed) : stream -> Prop :=
| streams_start log s :
    numbered log -> (N.of_nat (length log) < two64)%N -> feed_wf log feed -> Subscribe config feed = Ok s ->
    streams config feed (MkStream log feed s (AtTake 0) [] [] [])
| streams_step y y' : streams config feed y -> interleaves y y' -> streams config feed y'.

(** ** What a Session's stream is to give *)

Definition keeps (config : subscribeConfig) (event : Event) : bool :=
  match co_filter config with
  | None => true
  | Some keep => match keep event with Ok b => b | Err _ => false end
  end.

Definition stored_of (events : list Event) : list Event := filter (fun event => is_stored event = true) events.

(** The Events of the log after number [n], up to number [m], that pass. *)
Definition between (config : subscribeConfig) (log : list Event) (n m : N) : list Event :=
  filter (fun event => keeps config event = true) (drop (N.to_nat n) (take (N.to_nat m) log)).

Arguments stored_of : simpl never.
Arguments between : simpl never.

Lemma passes_keeps event s keep : passes event s = Ok keep -> keeps (sb_config s) event = keep.
Proof.
  unfold passes, keeps, guarded. destruct (co_filter (sb_config s)) as [f|]; [|by intros [= <-]].
  destruct (f event); [by intros [= <-]|done].
Qed.

Lemma stored_of_app l k : stored_of (l ++ k) = stored_of l ++ stored_of k.
Proof. apply list.filter_app. Qed.

Lemma stored_of_one event : is_stored event = true -> stored_of [event] = [event].
Proof. intros H. unfold stored_of. by rewrite filter_cons_True. Qed.

Lemma stored_of_not event : is_stored event = false -> stored_of [event] = [].
Proof. intros H. unfold stored_of. rewrite filter_cons_False; [done|congruence]. Qed.

Lemma delta_not_stored event : is_delta event = true -> is_stored event = false.
Proof.
  unfold is_delta, is_stored. intros H%String.eqb_eq. rewrite H. reflexivity.
Qed.

Lemma drop_delta_stored queue queue' : drop_delta queue = Some queue' -> stored_of queue' = stored_of queue.
Proof.
  revert queue'. induction queue as [|event rest IH]; intros queue'; cbn [drop_delta]; [done|].
  destruct (is_delta event) eqn:E.
  - intros [= <-]. unfold stored_of. rewrite filter_cons_False; [done|]. apply delta_not_stored in E. congruence.
  - destruct (drop_delta rest) as [rest'|]; [|done]. intros [= <-]. unfold stored_of in *.
    rewrite !filter_cons. destruct (decide _); by rewrite (IH rest' eq_refl).
Qed.

Lemma drop_delta_deltas queue : Forall (fun event => is_delta event = true) queue -> queue <> [] ->
  exists queue', drop_delta queue = Some queue' /\ Forall (fun event => is_delta event = true) queue'.
Proof. intros H. destruct H as [|event rest He Hr]; [done|]. intros _. cbn. rewrite He. by exists rest. Qed.

Lemma between_empty config log n : between config log n n = [].
Proof. unfold between. rewrite drop_ge; [done|]. rewrite length_take. lia. Qed.

Lemma between_grow config log event n m :
  (n = m \/ (m <= N.of_nat (length log))%N) -> between config (log ++ [event]) n m = between config log n m.
Proof.
  unfold between. intros [->|Hm]; [by rewrite !drop_ge by (rewrite length_take; lia)|].
  by rewrite take_app_le by lia.
Qed.

(** One more Event of the log. *)
Lemma between_snoc config log n i event :
  log !! i = Some event -> (n <= N.of_nat i)%N ->
  between config log n (N.of_nat i + 1) = between config log n (N.of_nat i) ++ (if keeps config event then [event] else []).
Proof.
  intros Hi Hn. unfold between. replace (N.to_nat (N.of_nat i + 1)) with (S i) by lia. rewrite Nat2N.id.
  rewrite (take_S_r log i event Hi), drop_app_le, list.filter_app.
  - f_equal. rewrite filter_cons. by destruct (keeps config event), (decide _).
  - apply lookup_lt_Some in Hi. rewrite length_take. lia.
Qed.

Lemma between_prefix config log n m : between config log n m `prefix_of` filter (fun event => keeps config event = true) (drop (N.to_nat n) log).
Proof.
  unfold between. rewrite <-(take_drop (N.to_nat m) log) at 2.
  destruct (decide (N.to_nat n <= length (take (N.to_nat m) log))%nat) as [Hle|Hgt].
  - rewrite drop_app_le, list.filter_app by done. by apply prefix_app_r.
  - rewrite (drop_ge (take _ _)) by lia. apply prefix_nil.
Qed.

(** ** The queue of a Session's stream

    [pre] are the stored Events that left the queue already. *)
Record sub_inv (config : subscribeConfig) (log pre : list Event) (s : subscription) : Prop := {
  si_config : sb_config s = config;
  si_max : (0 < sb_max s)%nat;
  si_unset : sb_cursorSet s = false ->
    sb_behind s = false /\ pre = [] /\ Forall (fun event => is_delta event = true) (sb_queue s) /\ co_after config = None;
  si_set : sb_cursorSet s = true -> exists n, (forall a, co_after config = Some a -> n = a) /\ (n <= sb_cursor s)%N /\
    (n = sb_cursor s \/ (sb_cursor s <= N.of_nat (length log))%N) /\
    pre ++ stored_of (sb_queue s) = between config log n (sb_cursor s);
  si_behind : sb_behind s = true -> sb_cursorSet s = true /\ sb_resume s = sb_cursor s;
}.

(** Changes that [sub_inv] does not look at. *)
Lemma sub_inv_same config log pre s s' :
  sub_inv config log pre s ->
  sb_config s' = sb_config s -> sb_max s' = sb_max s -> sb_cursorSet s' = sb_cursorSet s -> sb_behind s' = sb_behind s ->
  sb_queue s' = sb_queue s -> sb_cursor s' = sb_cursor s -> sb_resume s' = sb_resume s ->
  sub_inv config log pre s'.
Proof. intros [] E1 E2 E3 E4 E5 E6 E7. split; rewrite ?E1, ?E2, ?E3, ?E4, ?E5, ?E6, ?E7; done. Qed.

Lemma sub_inv_signal config log pre s : sub_inv config log pre s -> sub_inv config log pre (signal s).
Proof. intros H. by apply (sub_inv_same _ _ _ _ _ H). Qed.

Lemma sub_inv_finish config log pre err s : sub_inv config log pre s -> sub_inv config log pre (finish err s).
Proof.
  intros H. apply (sub_inv_same _ _ _ _ _ H); unfold finish; destruct (sb_done s), err; done.
Qed.

Lemma sub_inv_behind config log pre s :
  sub_inv config log pre s -> sb_cursorSet s = true -> sub_inv config log pre (fall_behind s).
Proof. intros [] Hset. split; cbn; try done. congruence. Qed.

Lemma sub_inv_grow config log pre event s : sub_inv config log pre s -> sub_inv config (log ++ [event]) pre s.
Proof.
  intros []. split; try done. intros Hset. destruct (si_set0 Hset) as (n & Ha & Hn & Hor & Heq). exists n.
  rewrite between_grow by done. split_and!; try done. destruct Hor; [by left|right]. rewrite length_app. cbn. lia.
Qed.

(** A delta that is dropped, and one that is queued. *)
Lemma sub_inv_queue config log pre queue s :
  sub_inv config log pre s -> stored_of queue = stored_of (sb_queue s) ->
  (sb_cursorSet s = false -> Forall (fun event => is_delta event = true) queue) ->
  sub_inv config log pre (s <| sb_queue := queue |>).
Proof.
  intros [] Hst Hd. split; cbn; try done.
  - intros Hu. destruct (si_unset0 Hu) as (? & ? & _ & ?). split_and!; try done. by apply Hd.
  - rewrite Hst. done.
Qed.

(** The next stored Event of the log, queued when it passes. *)
Lemma sub_inv_next config log pre i event (queue : list Event) s :
  sub_inv config log pre s -> log !! i = Some event -> is_stored event = true ->
  (sb_cursorSet s = true -> sb_cursor s = N.of_nat i) ->
  sub_inv config log pre (s <| sb_queue := sb_queue s ++ (if keeps config event then [event] else []) |>
    <| sb_cursor := (N.of_nat i + 1)%N |> <| sb_cursorSet := true |>) \/ sb_behind s = true.
Proof.
  intros [] Hi Hst Hcur. destruct (sb_behind s) eqn:Hb; [by right|left].
  assert (Hone : stored_of (if keeps config event then [event] else []) = if keeps config event then [event] else []).
  { destruct (keeps config event); [by apply stored_of_one|done]. }
  pose proof (lookup_lt_Some _ _ _ Hi) as Hlt.
  split; cbn; try done; rewrite ?Hb; try done.
  intros _. rewrite stored_of_app, app_assoc, Hone. destruct (sb_cursorSet s) eqn:Hset.
  - destruct (si_set0 eq_refl) as (n & Ha & Hn & Hor & Heq). rewrite (Hcur eq_refl) in *. exists n. split_and!; [done|lia|right; lia|].
    by rewrite (between_snoc config log n i event Hi), Heq by lia.
  - destruct (si_unset0 eq_refl) as (_ & -> & Hq & Hnone). exists (N.of_nat i). split_and!; [by rewrite Hnone|lia|right; lia|].
    rewrite (between_snoc config log _ i event Hi) by lia. rewrite between_empty.
    assert (stored_of (sb_queue s) = []) as ->; [|done]. clear -Hq. induction Hq as [|e l He _ IH]; [done|].
    unfold stored_of in *. rewrite filter_cons_False; [done|]. apply delta_not_stored in He. congruence.
Qed.

(** What may be offered to a Session's stream. *)
Definition offered (log : list Event) (event : Event) : Prop :=
  (is_delta event = true /\ is_stored event = false) \/ exists i, log !! i = Some event.

Lemma push_inv config log pre event s :
  sub_inv config log pre s -> sb_behind s = false ->
  (is_delta event = true /\ is_stored event = false \/
   exists i, log !! i = Some event /\ number_of event = (N.of_nat i + 1)%N /\ is_stored event = true /\
     keeps config event = true /\ (sb_cursorSet s = true -> sb_cursor s = N.of_nat i)) ->
  sub_inv config log pre (push (is_stored event) event s).
Proof.
  intros Hinv Hb [[Hd Hns]|(i & Hi & Hn & Hst & Hk & Hcur)]; unfold push; apply sub_inv_signal.
  - rewrite Hns. cbn. apply sub_inv_queue; [done|by rewrite stored_of_app, (stored_of_not _ Hns), app_nil_r|].
    intros Hu. apply Forall_app. split; [by apply (si_unset _ _ _ _ Hinv Hu)|by constructor].
  - rewrite Hst, Hn. cbn. destruct (sub_inv_next _ _ _ i event [] _ Hinv Hi Hst Hcur) as [H|H]; [|congruence].
    rewrite Hk in H. exact H.
Qed.

Lemma offer_inv config log pre event label s :
  sub_inv config log pre s -> co_labeled config = None -> numbered log -> (N.of_nat (length log) < two64)%N ->
  offered log event -> sub_inv config log pre (offer false event label s).
Proof.
  intros Hinv Hlab Hnum Hsmall Hoff. unfold offer. destruct (sb_done s); [done|].
  unfold wanted. rewrite (si_config _ _ _ _ Hinv), Hlab.
  destruct (passes event s) as [keep|err] eqn:Hp; [|by apply sub_inv_finish]. cbn [rbind].
  apply passes_keeps in Hp. rewrite (si_config _ _ _ _ Hinv) in Hp.
  unfold offer_locked. destruct (sb_ending s && negb (sb_behind s)); [done|].
  destruct (sb_behind s) eqn:Hb; [done|]. cbn [negb]. rewrite andb_true_r.
  destruct (is_stored event && sb_cursorSet s && (number_of event <=? sb_cursor s)%N) eqn:E1; [done|].
  destruct (is_stored event && sb_cursorSet s && (u64_add (sb_cursor s) 1 <? number_of event)%N) eqn:E2.
  { apply sub_inv_signal, sub_inv_behind; [done|]. by destruct (sb_cursorSet s), (is_stored event). }
  assert (Hnext : (is_delta event = true /\ is_stored event = false) \/
    exists i, log !! i = Some event /\ number_of event = (N.of_nat i + 1)%N /\ is_stored event = true /\
      (sb_cursorSet s = true -> sb_cursor s = N.of_nat i)).
  { destruct Hoff as [H|[i Hi]]; [by left|right]. exists i. destruct (Hnum _ _ Hi) as [Hn Hst].
    split_and!; try done. intros Hset. rewrite Hst, Hset in E1, E2. cbn in E1, E2.
    apply N.leb_gt in E1. apply N.ltb_ge in E2. apply lookup_lt_Some in Hi. unfold u64_add in E2.
    rewrite u64_small in E2 by lia. lia. }
  destruct keep; cbn [negb].
  - unfold enqueue. destruct (sb_max s <=? length (sb_queue s))%nat eqn:Efull.
    + destruct (drop_delta (sb_queue s)) as [queue|] eqn:Ed.
      * cbn [skip]. apply push_inv; [|done|].
        { apply sub_inv_queue; [done|by apply drop_delta_stored|]. intros Hu.
          destruct (si_unset _ _ _ _ Hinv Hu) as (_ & _ & Hq & _).
          destruct (decide (sb_queue s = [])) as [E|Hne]; [by rewrite E in Ed|].
          destruct (drop_delta_deltas _ Hq Hne) as (q & Eq & Hq'). congruence. }
        destruct Hnext as [H|(i & H1 & H2 & H3 & H4)]; [by left|right]. by exists i.
      * destruct (is_delta event); [done|]. apply sub_inv_signal, sub_inv_behind; [done|].
        destruct (sb_cursorSet s) eqn:Hset; [done|]. destruct (si_unset _ _ _ _ Hinv Hset) as (_ & _ & Hq & _).
        apply Nat.leb_le in Efull. pose proof (si_max _ _ _ _ Hinv).
        destruct (drop_delta_deltas _ Hq) as (q & Eq & _); [intros E; rewrite E in Efull; cbn in Efull; lia|congruence].
    + apply push_inv; [done|done|].
      destruct Hnext as [H|(i & H1 & H2 & H3 & H4)]; [by left|right]. by exists i.
  - destruct (is_stored event) eqn:Est; [|done].
    destruct Hnext as [[_ H]|(i & H1 & H2 & H3 & H4)]; [done|].
    destruct (sub_inv_next _ _ _ i event [] _ Hinv H1 Est H4) as [H|H]; [|congruence].
    rewrite Hp, app_nil_r in H. rewrite H2. apply (sub_inv_same _ _ _ _ _ H); done.
Qed.

(** What one offer leaves of the place the goroutine is at. *)
Lemma offer_behind event label s :
  let s' := offer false event label s in
  (sb_behind s = true -> sb_behind s' = true /\ sb_queue s' = sb_queue s /\ sb_resume s' = sb_resume s) /\
  (sb_cursorSet s = true -> sb_cursorSet s' = true /\ (sb_cursor s <= sb_cursor s')%N).
Proof.
  cbv zeta. unfold offer, finish. destruct (sb_done s) eqn:Hd; [by split_and!|].
  destruct (wanted event label s) as [keep|err].
  2:{ by split. }
  unfold offer_locked. destruct (sb_ending s && negb (sb_behind s)); [by split_and!|].
  destruct (sb_behind s) eqn:Hb; [by split_and!|]. split; [done|]. intros Hset. rewrite Hset.
  destruct (is_stored event && negb false && true && (number_of event <=? sb_cursor s)%N) eqn:E1; [done|].
  destruct (is_stored event && negb false && true && (u64_add (sb_cursor s) 1 <? number_of event)%N) eqn:E2; [done|].
  assert (Hle : is_stored event = true -> (sb_cursor s <= number_of event)%N).
  { intros Hs. rewrite Hs in E1. cbn in E1. apply N.leb_gt in E1. lia. }
  assert (Hpush : forall s, sb_cursorSet s = true -> (is_stored event = true -> (sb_cursor s <= number_of event)%N) ->
    sb_cursorSet (push (is_stored event && negb false) event s) = true /\
    (sb_cursor s <= sb_cursor (push (is_stored event && negb false) event s))%N).
  { intros s0 H0 H1. unfold push. rewrite andb_true_r. destruct (is_stored event); cbn; [by split; auto|by split]. }
  destruct keep; cbn [negb].
  - unfold enqueue. destruct (_ <=? _)%nat; [|by apply Hpush].
    destruct (drop_delta _) as [queue|]; [pose (s2 := s <| sb_queue := queue |>); exact (Hpush s2 Hset Hle)|]. destruct (is_delta event); done.
  - cbn [negb]. rewrite andb_true_r. destruct (is_stored event) eqn:Es; [|done]. cbn. split; [done|by apply Hle].
Qed.

(** A stored Event that was offered is covered by the cursor, unless the stream
    fell behind or ends. *)
Lemma offer_covers event label s :
  let s' := offer false event label s in
  is_stored event = true -> sb_cursorSet s = true -> sb_ending s = false ->
  sb_done s' = false -> sb_behind s' = false -> (number_of event <= sb_cursor s')%N.
Proof.
  cbv zeta. intros Hst Hset Hend. unfold offer. destruct (sb_done s) eqn:Hd; [by rewrite Hd|].
  destruct (wanted event label s) as [keep|err]; [|unfold finish; rewrite Hd; done].
  unfold offer_locked. rewrite Hend. cbn [andb]. destruct (sb_behind s) eqn:Hb; [by rewrite Hb|].
  rewrite Hst, Hset. cbn [andb negb]. destruct (N.leb_spec (number_of event) (sb_cursor s)); [done|].
  destruct (_ <? _)%N; [done|]. destruct keep; cbn [negb].
  - unfold enqueue. destruct (_ <=? _)%nat; [|done]. destruct (drop_delta _); [done|].
    destruct (is_delta event) eqn:Ed; [apply delta_not_stored in Ed; congruence|done].
  - done.
Qed.

Lemma offer_ending event label s : sb_ending (offer false event label s) = sb_ending s.
Proof.
  unfold offer, finish. destruct (sb_done s) eqn:Hd; [done|]. destruct (wanted event label s) as [keep|err]; [|done].
  unfold offer_locked. destruct (sb_ending s && negb (sb_behind s)); [done|]. destruct (sb_behind s); [done|].
  repeat case_match; try done; unfold enqueue, push, skip; repeat case_match; done.
Qed.

(** ** What is read again *)

Definition batch_ok (config : subscribeConfig) (log : list Event) (after : N) (batch : list (Event * bool)) : Prop :=
  (fst <$> batch) `prefix_of` drop (N.to_nat after) log /\ Forall (fun p => snd p = keeps config (fst p)) batch.

Lemma batch_ok_grow config log after event batch :
  batch_ok config log after batch -> batch_ok config (log ++ [event]) after batch.
Proof.
  intros [Hp Hk]. split; [|done].
  destruct (decide (N.to_nat after <= length log)%nat).
  - rewrite drop_app_le by done. by apply prefix_app_r.
  - rewrite drop_ge in Hp by lia. apply prefix_nil_inv in Hp. rewrite Hp. apply prefix_nil.
Qed.

Lemma read_ok out verified s batch :
  read out verified s = Ok batch ->
  exists events, out = Ok events /\ fst <$> batch = events /\ Forall (fun p => snd p = keeps (sb_config s) (fst p)) batch.
Proof.
  unfold read. destruct out as [events|err]; [|done]. cbn [rbind]. intros H. exists events. split; [done|].
  assert (Hgen : forall events batch, foldr (fun event out => let? keep := passes event s in let? rest := out in
      Ok ((event, keep) :: rest)) (Ok []) events = Ok batch ->
      fst <$> batch = events /\ Forall (fun p => snd p = keeps (sb_config s) (fst p)) batch).
  { clear. induction events as [|event events IH]; intros batch; cbn [foldr]; [by intros [= <-]|].
    destruct (passes event s) as [keep|] eqn:Hp; [|done]. cbn [rbind].
    destruct (foldr _ _ events) as [rest|] eqn:Er; [|done]. cbn [rbind]. intros [= <-].
    destruct (IH rest eq_refl) as [H1 H2]. cbn. rewrite H1. split; [done|]. constructor; [|done].
    symmetry. by apply passes_keeps. }
  destruct events as [|event events]; [by injection H as <-|].
  destruct (if co_verify _ then verified else None); [done|]. by apply Hgen.
Qed.

(** What the Feed's own memory answers. *)
Lemma numbered_filter log after :
  numbered log -> filter (fun event => (after < number_of event)%N) log = drop (N.to_nat after) log.
Proof.
  intros Hn. rewrite <-(take_drop (N.to_nat after) log) at 1. rewrite list.filter_app.
  assert (filter (fun event => (after < number_of event)%N) (take (N.to_nat after) log) = []) as ->.
  { apply filter_none, Forall_lookup_2. intros i event Hi.
    apply lookup_take_Some in Hi as [Hi Hlt']. destruct (Hn _ _ Hi) as [Hnum _]. lia. }
  cbn. apply filter_all, Forall_lookup_2. intros i event Hi.
  rewrite lookup_drop in Hi. destruct (Hn _ _ Hi) as [Hnum _]. lia.
Qed.

Lemma numbered_take log k : numbered log -> numbered (take k log).
Proof. intros Hn i event Hi. apply lookup_take_Some in Hi as [Hi _]. by apply Hn. Qed.

Lemma ring_prefix log f after limit batch :
  feed_wf log f -> fd_mixed f = false -> fd_source f = false -> numbered log -> (N.of_nat (length log) < two64)%N ->
  ring_after after limit f = Ok batch -> batch `prefix_of` drop (N.to_nat after) log.
Proof.
  intros Hwf Hm Hs Hnum Hsmall. destruct (Hwf Hm) as [Hlast Hring]. destruct (Hring Hs) as (d & Hd & Hr & Hdrop).
  unfold ring_after. destruct (match fd_ring f with [] => false | _ => _ end) eqn:Elost; [done|]. intros [= <-].
  assert (Hbase : filter (fun event => (after < number_of event)%N) (fd_ring f) `prefix_of` drop (N.to_nat after) log).
  2:{ etrans; [|exact Hbase]. exists (drop limit (filter (fun event => (after < number_of event)%N) (fd_ring f))).
      by rewrite take_drop. }
  pose proof (numbered_take log (N.to_nat (fd_last f)) Hnum) as Hnum'.
  destruct (decide (d <= N.to_nat after)%nat) as [Hle|Hgt].
  - assert (filter (fun event => (after < number_of event)%N) (fd_ring f) = drop (N.to_nat after) (take (N.to_nat (fd_last f)) log)) as ->.
    { rewrite <-(numbered_filter _ after Hnum'), Hr. rewrite <-(take_drop d (take _ log)) at 2. rewrite list.filter_app.
      rewrite (filter_none _ (take d _)); [done|]. apply Forall_lookup_2. intros i event Hi.
      apply lookup_take_Some in Hi as [Hi Hlt]. destruct (Hnum' _ _ Hi) as [Hn _]. lia. }
    assert (Hsplit : log = take (N.to_nat (fd_last f)) log ++ drop (N.to_nat (fd_last f)) log) by by rewrite take_drop.
    rewrite Hsplit at 2.
    destruct (decide (N.to_nat after <= length (take (N.to_nat (fd_last f)) log))%nat).
    + rewrite drop_app_le by done. by apply prefix_app_r.
    + rewrite drop_ge by lia. apply prefix_nil.
  - destruct (fd_ring f) as [|first rest] eqn:Ering; [apply prefix_nil|].
    assert (Hfirst : take (N.to_nat (fd_last f)) log !! d = Some first).
    { pose proof (lookup_drop (take (N.to_nat (fd_last f)) log) d 0) as Hl. rewrite <-Hr, Nat.add_0_r in Hl. by rewrite <-Hl. }
    destruct (Hnum' _ _ Hfirst) as [Hn _]. exfalso.
    destruct (fd_dropped f); [|specialize (Hdrop eq_refl); lia]. cbn in Elost.
    apply N.ltb_ge in Elost. unfold u64_add in Elost. rewrite u64_small in Elost by lia. lia.
Qed.

Lemma batch_of_ok config y after out verified batch :
  batch_of y after out -> feed_wf (st_log y) (st_feed y) -> fd_mixed (st_feed y) = false -> numbered (st_log y) ->
  (N.of_nat (length (st_log y)) < two64)%N -> sb_config (st_sub y) = config ->
  read out verified (st_sub y) = Ok batch -> batch_ok config (st_log y) after batch.
Proof.
  intros Hb Hwf Hm Hnum Hsmall <- Hread. apply read_ok in Hread as (events & -> & Hf & Hk). split; [|done]. rewrite Hf.
  unfold batch_of in Hb. destruct (fd_source (st_feed y)) eqn:Hs.
  - destruct Hb as [k ->]. exists (drop k (drop (N.to_nat after) (st_log y))). by rewrite take_drop.
  - symmetry in Hb. by eapply ring_prefix.
Qed.

(** ** Catching up *)

Lemma kept_events_filter config batch :
  Forall (fun p => snd p = keeps config (fst p)) batch ->
  kept_events batch = filter (fun event => keeps config event = true) (fst <$> batch).
Proof.
  induction 1 as [|[event keep] batch Hk _ IH]; [done|]. cbn in Hk. subst keep.
  rewrite fmap_cons, filter_cons, <-IH. cbn. by destruct (keeps config event), (decide _).
Qed.

Lemma stored_of_all events : Forall (fun event => is_stored event = true) events -> stored_of events = events.
Proof. apply filter_all. Qed.

Lemma prefix_stored log after events :
  numbered log -> events `prefix_of` drop after log -> Forall (fun event => is_stored event = true) events.
Proof.
  intros Hn [k Hk]. apply Forall_lookup_2. intros i event Hi.
  assert (Hl : drop after log !! i = Some event) by (rewrite Hk; by apply lookup_app_l_Some).
  rewrite lookup_drop in Hl. by apply (Hn _ _ Hl).
Qed.

Lemma between_chunk config log n c events :
  events `prefix_of` drop (N.to_nat c) log -> (n <= c)%N -> (c <= N.of_nat (length log))%N ->
  between config log n (c + N.of_nat (length events)) =
    between config log n c ++ filter (fun event => keeps config event = true) events.
Proof.
  intros [k Hk] Hn Hc. unfold between. replace (N.to_nat (c + N.of_nat (length events))) with (N.to_nat c + length events)%nat by lia.
  assert (take (N.to_nat c + length events) log = take (N.to_nat c) log ++ events) as ->.
  { rewrite <-(take_drop (N.to_nat c) log) at 1. rewrite take_app_ge by (rewrite length_take; lia).
    f_equal. rewrite length_take, Hk. rewrite take_app_le by lia. apply take_ge. lia. }
  by rewrite drop_app_le, list.filter_app by (rewrite length_take; lia).
Qed.

Lemma last_fst_number log after (batch : list (Event * bool)) :
  numbered log -> (fst <$> batch) `prefix_of` drop (N.to_nat after) log -> batch <> [] ->
  (number_of ∘ fst <$> last batch) = Some (after + N.of_nat (length batch))%N /\
  (after + N.of_nat (length batch) <= N.of_nat (length log))%N.
Proof.
  intros Hn [k Hk] Hne. assert (0 < length batch)%nat by (destruct batch; cbn; [done|lia]).
  destruct (lookup_lt_is_Some_2 batch (pred (length batch))) as [[event keep] Hl]; [lia|].
  assert (Hlog : log !! (N.to_nat after + pred (length batch))%nat = Some event).
  { rewrite <-lookup_drop, Hk. apply lookup_app_l_Some. by rewrite list_lookup_fmap, Hl. }
  destruct (Hn _ _ Hlog) as [Hnum _]. apply lookup_lt_Some in Hlog. rewrite last_lookup, Hl. cbn. rewrite Hnum.
  split; [f_equal|]; lia.
Qed.

Lemma catch_inv config log pre batch s :
  sub_inv config log pre s -> numbered log -> sb_behind s = true -> sb_queue s = [] ->
  batch_ok config log (sb_resume s) batch -> batch <> [] ->
  sub_inv config log (pre ++ stored_of (kept_events batch)) (catch_batch batch s) /\
  sb_behind (catch_batch batch s) = true.
Proof.
  intros [] Hnum Hb Hq [Hp Hk] Hne. destruct (si_behind0 Hb) as [Hset Hres].
  destruct (last_fst_number _ _ _ Hnum Hp Hne) as [Hlast Hlen].
  unfold catch_batch. rewrite Hlast. cbn [from_option id]. split; [|done].
  destruct (si_set0 Hset) as (n & Ha & Hn & Hor & Heq). rewrite <-Hres in *.
  rewrite N.max_r by lia. split; cbn; try done; try congruence.
  intros _. exists n. split_and!; [done|lia|right; lia|].
  rewrite Hq, app_nil_r in Heq. rewrite Hq, app_nil_r, (kept_events_filter _ _ Hk), Heq.
  rewrite <-(length_fmap fst batch), between_chunk by (done || lia). f_equal.
  apply stored_of_all, list.Forall_forall. intros event [_ Hin]%list_elem_of_filter.
  pose proof (prefix_stored _ _ _ Hnum Hp) as Hall. rewrite list.Forall_forall in Hall. by apply Hall.
Qed.

Lemma rejoin_inv config log pre last_ s : sub_inv config log pre s -> sub_inv config log pre (rejoin last_ s) \/ sb_behind s = false.
Proof.
  intros []. destruct (sb_behind s) eqn:Hb; [left|by right]. destruct (si_behind0 eq_refl) as [Hset Hres].
  unfold rejoin. destruct (_ <=? _)%N; split; cbn; try done; try congruence; intros _; apply si_set0; done.
Qed.

Lemma look_inv config log pre batch after s :
  sub_inv config log pre s -> numbered log -> (N.of_nat (length log) < two64)%N ->
  sb_cursorSet s = true -> sb_behind s = false ->
  batch_ok config log after batch -> (after <= sb_cursor s)%N ->
  sub_inv config log pre (look_batch batch s).
Proof.
  intros Hinv Hnum Hsmall. revert after s Hinv. induction batch as [|[event keep] batch IH]; intros after s Hinv Hset Hb [Hp Hk] Ha; [done|].
  cbn in Hp. apply list.Forall_cons in Hk as [Hkeep Hk]. cbn in Hkeep. destruct Hp as [k Hp].
  assert (Hi : log !! N.to_nat after = Some event).
  { rewrite <-(Nat.add_0_r (N.to_nat after)), <-lookup_drop, Hp. done. }
  destruct (Hnum _ _ Hi) as [Hn Hst]. pose proof (lookup_lt_Some _ _ _ Hi) as Hlt.
  assert (Hrest : batch_ok config log (after + 1) batch).
  { split; [|done]. exists k. replace (N.to_nat (after + 1)) with (1 + N.to_nat after)%nat by lia.
    rewrite Nat.add_comm, <-drop_drop, Hp. done. }
  cbn [look_batch]. rewrite Hn, N2Nat.id. destruct (N.leb_spec (after + 1) (sb_cursor s)) as [Hle|Hgt].
  - apply (IH (after + 1)%N); done || lia.
  - assert (after = sb_cursor s) as -> by lia. unfold u64_add. rewrite u64_small, N.eqb_refl by lia. cbn [negb].
    apply (IH (sb_cursor s + 1)%N); [|by destruct keep|by destruct keep|done|by destruct keep].
    destruct (sub_inv_next _ _ _ (N.to_nat (sb_cursor s)) event [] _ Hinv Hi Hst) as [H|H]; [intros _; lia| |congruence].
    rewrite Hkeep. apply (sub_inv_same _ _ _ _ _ H); destruct (keeps config event); cbn; try done; try (by rewrite app_nil_r); lia.
Qed.

(** ** The invariant of a Session's stream *)

Definition sending (p : place) : list Event := match p with AtSend event => [event] | _ => [] end.

(** The stored Events that left the queue. *)
Definition out_of_queue (y : stream) : list Event :=
  stored_of (st_delivered y ++ sending (st_place y) ++ st_pending y).

Definition place_inv (config : subscribeConfig) (log pending : list Event) (s : subscription) (p : place) : Prop :=
  match p with
  | AtRead r _ => sb_behind s = true /\ r = sb_resume s /\ sb_queue s = [] /\ pending = []
  | AtCaught batch _ => sb_behind s = true /\ sb_queue s = [] /\ pending = [] /\ batch_ok config log (sb_resume s) batch
  | AtAwait _ => pending = []
  | AtLook after _ => pending = [] /\ sb_cursorSet s = true /\ (after <= sb_cursor s)%N
  | AtLooked batch _ => pending = [] /\ sb_cursorSet s = true /\
      exists after, (after <= sb_cursor s)%N /\ batch_ok config log after batch
  | _ => True
  end.

(** What was published last has reached the stream, or is on its way. *)
Definition covered (config : subscribeConfig) (y : stream) : Prop :=
  co_after config <> None -> sb_behind (st_sub y) = false -> sb_ending (st_sub y) = false -> sb_done (st_sub y) = false ->
  (fd_last (st_feed y) <= sb_cursor (st_sub y))%N \/
  Exists (fun p => is_stored (fst p) = true /\ number_of (fst p) = fd_last (st_feed y)) (st_offers y).

Record sinv (config : subscribeConfig) (y : stream) : Prop := {
  v_mixed : fd_mixed (st_feed y) = false;
  v_numbered : numbered (st_log y);
  v_small : (N.of_nat (length (st_log y)) < two64)%N;
  v_feed : feed_wf (st_log y) (st_feed y);
  v_offers : Forall (fun p => offered (st_log y) (fst p)) (st_offers y);
  v_sub : sub_inv config (st_log y) (out_of_queue y) (st_sub y);
  v_place : place_inv config (st_log y) (st_pending y) (st_sub y) (st_place y);
  v_covered : covered config y;
}.

Lemma feed_wf_grow log event f : feed_wf log f -> feed_wf (log ++ [event]) f.
Proof.
  intros Hwf Hm. destruct (Hwf Hm) as [Hl Hr]. split; [rewrite length_app; cbn; lia|].
  intros Hs. destruct (Hr Hs) as (d & H1 & H2 & H3). exists d. by rewrite take_app_le by lia.
Qed.

Lemma feed_wf_source log f : feed_wf log f -> feed_wf log (setSource f).
Proof. intros Hwf Hm. destruct (Hwf Hm) as [Hl _]. by split. Qed.

Lemma publish_mixed event f : fd_mixed (publish_locked event f) = fd_mixed f.
Proof. unfold publish_locked, retain_event. repeat case_match; done. Qed.

(** What publishing leaves of a Session's Feed. *)
Lemma publish_wf y event :
  feed_wf (st_log y) (st_feed y) -> fd_mixed (st_feed y) = false -> fd_closed (st_feed y) = false ->
  numbered (st_log y) -> publishable y event ->
  feed_wf (st_log y) (publish_locked event (st_feed y)) /\
  (fd_last (publish_locked event (st_feed y)) = fd_last (st_feed y) \/
   is_stored event = true /\ number_of event = fd_last (publish_locked event (st_feed y))).
Proof.
  intros Hwf Hm Hc Hnum Hpub. destruct (Hwf Hm) as [Hlast Hring]. unfold publish_locked. rewrite Hc, Hm. cbn [negb andb].
  destruct Hpub as [H|[[_ H]|[[i Hi] Hord]]]; [congruence|rewrite H; by split; [|left]|].
  destruct (Hnum _ _ Hi) as [Hn ->]. pose proof (lookup_lt_Some _ _ _ Hi) as Hlt.
  set (f := if (fd_last (st_feed y) <? number_of event)%N then _ else _).
  assert (Hf : fd_source f = fd_source (st_feed y) /\ fd_ring f = fd_ring (st_feed y) /\ fd_dropped f = fd_dropped (st_feed y) /\
    fd_mixed f = false /\ fd_last f = N.max (fd_last (st_feed y)) (number_of event)).
  { unfold f. destruct (N.ltb_spec (fd_last (st_feed y)) (number_of event)); split_and!; try done; cbn; lia. }
  destruct Hf as (Hfs & Hfr & Hfd & Hfm & Hfl). clearbody f.
  assert (Hsame : fd_last (retain_event event f) = fd_last f /\ fd_mixed (retain_event event f) = false /\
    fd_source (retain_event event f) = fd_source f).
  { unfold retain_event. destruct (fd_source f) eqn:E; [done|]. by destruct (_ <=? _)%nat. }
  destruct Hsame as (Hl2 & Hm2 & Hs2). cbn. rewrite Hl2, Hfl. split; [|destruct (N.max_spec (fd_last (st_feed y)) (number_of event)) as [[? ->]|[? ->]]; auto].
  intros _. cbn. rewrite Hl2, Hfl, Hs2, Hfs, Hn. split; [lia|]. intros Hs.
  destruct (Hring Hs) as (d & Hd & Hr & Hdr). specialize (Hord Hs). rewrite Hn in Hord.
  assert (Hil : fd_last (st_feed y) = N.of_nat i) by lia. rewrite Hil in *. rewrite Nat2N.id in *.
  replace (N.to_nat (N.of_nat i `max` (N.of_nat i + 1))) with (S i) by lia.
  unfold retain_event. rewrite Hfs, Hs, Hfr. rewrite (take_S_r _ _ _ Hi).
  assert (Hlen : length (fd_ring (st_feed y)) = (i - d)%nat) by (rewrite Hr, length_drop, length_take; lia).
  destruct (_ <=? _)%nat; cbn.
  - rewrite Hlen. generalize (Nat.div2 (fd_ringCap f)). intros half. exists (d + (i - d - half))%nat. split_and!; [lia| |done].
    rewrite drop_app_le by (rewrite length_take; lia). by rewrite Hr, drop_drop.
  - exists d. split_and!; [lia| |by rewrite Hfd]. rewrite Hfr, Hr, drop_app_le by (rewrite length_take; lia). done.
Qed.

Lemma look_mono batch s :
  sb_ending (look_batch batch s) = sb_ending s /\ sb_done (look_batch batch s) = sb_done s /\
  (sb_cursor s <= sb_cursor (look_batch batch s))%N.
Proof.
  revert s. induction batch as [|[event keep] batch IH]; intros s; cbn [look_batch]; [done|].
  destruct (N.leb_spec (number_of event) (sb_cursor s)); [apply IH|].
  destruct (negb _); [done|].
  match goal with |- context [look_batch batch ?s0] => destruct (IH s0) as (H1 & H2 & H3); rewrite H1, H2 end.
  destruct keep; cbn in *; split_and!; done || lia.
Qed.

(** *** Each step keeps it *)

(** A step that leaves the queue and what left it. *)
Lemma out_same y y' :
  st_delivered y' = st_delivered y -> sending (st_place y') = sending (st_place y) -> st_pending y' = st_pending y ->
  out_of_queue y' = out_of_queue y.
Proof. unfold out_of_queue. by intros -> -> ->. Qed.

Lemma stopped_inv config y err : sinv config y -> sending (st_place y) = [] -> sinv config (stopped err y).
Proof.
  intros [] Hs. split; cbn; try done.
  - rewrite (out_same y) by (cbn; done). by apply sub_inv_finish.
  - unfold covered. cbn. intros _ _ _ Hd. unfold finish in Hd. destruct (sb_done (st_sub y)) eqn:E; [congruence|]. by destruct err.
Qed.

Lemma sinv_write config y event :
  sinv config y -> number_of event = (N.of_nat (length (st_log y)) + 1)%N -> is_stored event = true ->
  (N.of_nat (length (st_log y)) + 1 < two64)%N -> sinv config (y <| st_log := st_log y ++ [event] |>).
Proof.
  intros [] Hn Hst Hsmall. split; cbn; try done.
  - intros i e [Hi|[Hge Hi]]%lookup_app_Some; [by apply v_numbered0|].
    destruct (i - length (st_log y))%nat as [|k] eqn:E; [|by destruct k]. injection Hi as <-. split; [rewrite Hn; lia|done].
  - rewrite length_app. cbn. lia.
  - by apply feed_wf_grow.
  - revert v_offers0. apply Forall_impl. intros p [H|[i Hi]]; [by left|right]. exists i. by apply lookup_app_l_Some.
  - by apply sub_inv_grow.
  - destruct (st_place y); cbn in *; try done.
    + destruct v_place0 as (H1 & H2 & H3 & H4). split_and!; try done. by apply batch_ok_grow.
    + destruct v_place0 as (H1 & H2 & a & H3 & H4). split_and!; try done. exists a. split; [done|by apply batch_ok_grow].
Qed.

Lemma sinv_publish config y event label :
  sinv config y -> fd_closed (st_feed y) = false -> publishable y event ->
  sinv config (y <| st_feed := publish_locked event (st_feed y) |> <| st_offers := st_offers y ++ [(event, label)] |>).
Proof.
  intros [] Hc Hp. destruct (publish_wf y event v_feed0 v_mixed0 Hc v_numbered0 Hp) as [Hwf Hl]. split; cbn; try done.
  - by rewrite publish_mixed.
  - apply list.Forall_app. split; [done|]. constructor; [|done]. cbn.
    destruct Hp as [H|[H|[[i Hi] _]]]; [congruence|by left|right; by exists i].
  - intros Ha Hb He Hd. cbn in *. destruct Hl as [->|[Hst Hn]].
    + destruct (v_covered0 Ha Hb He Hd) as [H|H]; [by left|right]. apply Exists_app. by left.
    + right. apply Exists_app. right. by constructor.
Qed.

Lemma sinv_offer config y event label rest :
  sinv config y -> co_labeled config = None -> st_offers y = (event, label) :: rest ->
  sinv config (y <| st_offers := rest |> <| st_sub := offer (fd_mixed (st_feed y)) event label (st_sub y) |>).
Proof.
  intros [] Hlab Ho. rewrite Ho in *. apply list.Forall_cons in v_offers0 as [Hoff Hrest]. rewrite v_mixed0. cbn in Hoff.
  destruct (offer_behind event label (st_sub y)) as [Hbeh Hcur]. cbv zeta in Hbeh, Hcur.
  split; cbn; try done.
  - by apply offer_inv.
  - destruct (st_place y); cbn in *; try done.
    + destruct v_place0 as (H1 & -> & H3 & H4). destruct (Hbeh H1) as (-> & -> & ->). done.
    + destruct v_place0 as (H1 & H2 & H3 & H4). destruct (Hbeh H1) as (-> & -> & ->). done.
    + destruct v_place0 as (H1 & H2 & H3). destruct (Hcur H2) as [-> Hle]. split_and!; [done|done|lia].
    + destruct v_place0 as (H1 & H2 & a & H3 & H4). destruct (Hcur H2) as [-> Hle]. split_and!; [done|done|].
      exists a. split; [lia|done].
  - unfold covered. cbn. intros Ha Hb He Hd. rewrite offer_ending in He.
    assert (Hset : sb_cursorSet (st_sub y) = true).
    { destruct (sb_cursorSet (st_sub y)) eqn:E; [done|]. by destruct (si_unset _ _ _ _ v_sub0 E) as (_ & _ & _ & ?). }
    assert (Hb0 : sb_behind (st_sub y) = false).
    { destruct (sb_behind (st_sub y)) eqn:E; [|done]. destruct (Hbeh eq_refl) as (H & _). congruence. }
    assert (Hd0 : sb_done (st_sub y) = false).
    { destruct (sb_done (st_sub y)) eqn:E; [|done]. unfold offer in Hd. rewrite E in Hd. congruence. }
    destruct (Hcur Hset) as [_ Hle]. destruct (v_covered0 Ha Hb0 He Hd0) as [H|H]; [left; lia|].
    rewrite Ho in H. apply Exists_cons in H as [[Hst Hn]|H]; [left|by right]. cbn in Hst, Hn. rewrite <-Hn.
    by apply offer_covers.
Qed.

(** The goroutine takes an Event: from what it read, or from the queue. *)
Lemma sinv_pop config y s event empty now :
  sinv config y -> st_place y = AtTake empty -> st_pending y = [] -> popQueued now (st_sub y) = (s, inl event) ->
  sinv config (y <| st_sub := s |> <| st_place := AtSend event |>).
Proof.
  intros [] Hpl Hpe Hpop. unfold popQueued in Hpop.
  assert (Hpre : out_of_queue y = stored_of (st_delivered y)).
  { unfold out_of_queue. by rewrite Hpl, Hpe, !app_nil_r. }
  destruct (0 <? sb_skipped (st_sub y))%N.
  - injection Hpop as <- <-. split; cbn; try done.
    unfold out_of_queue. cbn. rewrite Hpe, stored_of_app, (stored_of_not (EEventsSkipped _)), app_nil_r, <-Hpre by done.
    by apply (sub_inv_same _ _ _ _ _ v_sub0).
  - destruct (sb_queue (st_sub y)) as [|e rest] eqn:Eq; [done|]. injection Hpop as <- <-. split; cbn; try done.
    unfold out_of_queue. cbn. rewrite Hpe, stored_of_app, <-Hpre. destruct v_sub0. rewrite Eq in *. split; cbn; try done.
    + intros Hu. destruct (si_unset0 Hu) as (H1 & -> & H3 & H4). apply list.Forall_cons in H3 as [H3 H5].
      rewrite stored_of_not by by apply delta_not_stored. done.
    + intros Hset. destruct (si_set0 Hset) as (n & H1 & H2 & H3 & H4). exists n. split_and!; try done.
      rewrite <-H4, <-app_assoc, <-stored_of_app. done.
Qed.

Lemma sinv_turn config y s state empty now :
  sinv config y -> st_place y = AtTake empty -> st_pending y = [] -> popQueued now (st_sub y) = (s, inr state) ->
  sinv config (y <| st_sub := s |> <| st_place := next_place empty state |>).
Proof.
  intros [] Hpl Hpe Hpop. unfold popQueued in Hpop. destruct (0 <? sb_skipped (st_sub y))%N; [done|].
  destruct (sb_queue (st_sub y)) as [|e rest] eqn:Eq; [|done]. injection Hpop as <- <-.
  assert (Hs : sending (next_place empty (MkQueueState (sb_behind (st_sub y)) (sb_resume (st_sub y)) (sb_ending (st_sub y)))) = []).
  { unfold next_place. cbn. by destruct (sb_behind (st_sub y)), (sb_ending (st_sub y)). }
  split; cbn; try done.
  - rewrite (out_same y); [done|done| |done]. cbn. by rewrite Hs, Hpl.
  - unfold next_place. cbn. destruct (sb_behind (st_sub y)) eqn:Eb; [by split_and!|]. by destruct (sb_ending (st_sub y)).
Qed.

Lemma sinv_caught config y batch empty :
  sinv config y -> st_place y = AtCaught batch empty -> batch <> [] ->
  sinv config (y <| st_sub := catch_batch batch (st_sub y) |>
    <| st_pending := st_pending y ++ kept_events batch |> <| st_place := AtTake empty |>).
Proof.
  intros [] Hpl Hne. rewrite Hpl in v_place0. destruct v_place0 as (Hb & Hq & Hpe & Hok).
  destruct (catch_inv _ _ _ _ _ v_sub0 v_numbered0 Hb Hq Hok Hne) as [Hinv Hb'].
  split; cbn; try done.
  - assert (out_of_queue (y <| st_sub := catch_batch batch (st_sub y) |> <| st_pending := st_pending y ++ kept_events batch |>
      <| st_place := AtTake empty |>) = out_of_queue y ++ stored_of (kept_events batch)) as ->; [|done].
    unfold out_of_queue. cbn. by rewrite Hpl, Hpe, !app_nil_r, stored_of_app.
  - unfold covered. cbn. intros _ H. change (sb_behind (st_sub y) = false) in H. congruence.
Qed.

Lemma sinv_rejoin config y empty empty' :
  sinv config y -> st_place y = AtCaught [] empty ->
  sinv config (y <| st_sub := rejoin (fd_last (st_feed y)) (st_sub y) |> <| st_place := AtTake empty' |>).
Proof.
  intros [] Hpl. rewrite Hpl in v_place0. destruct v_place0 as (Hb & Hq & Hpe & _).
  destruct (rejoin_inv _ _ _ (fd_last (st_feed y)) _ v_sub0) as [Hinv|]; [|congruence].
  split; cbn; try done.
  - rewrite (out_same y); [done|done| |done]. cbn. by rewrite Hpl.
  - destruct (si_behind _ _ _ _ v_sub0 Hb) as [_ Hres]. unfold covered. cbn. unfold rejoin.
    destruct (N.leb_spec (fd_last (st_feed y)) (sb_resume (st_sub y))); [|congruence]. intros _ _ _ _. left. cbn. lia.
Qed.

Lemma sinv_looked config y batch empty :
  sinv config y -> st_place y = AtLooked batch empty ->
  sinv config (y <| st_sub := if sb_behind (st_sub y) then st_sub y else look_batch batch (st_sub y) |>
    <| st_place := AtTake empty |>).
Proof.
  intros [] Hpl. rewrite Hpl in v_place0. destruct v_place0 as (Hpe & Hset & a & Ha & Hok).
  assert (Hout : forall y', st_delivered y' = st_delivered y -> st_place y' = AtTake empty -> st_pending y' = st_pending y ->
    out_of_queue y' = out_of_queue y).
  { intros y' H1 H2 H3. apply out_same; [done| |done]. by rewrite H2, Hpl. }
  destruct (sb_behind (st_sub y)) eqn:Hb; split; cbn; try done.
  - by rewrite Hout.
  - rewrite Hout by done. by eapply look_inv.
  - destruct (look_mono batch (st_sub y)) as (He & Hd & Hle). unfold covered. cbn. intros H1 _ H3 H4. rewrite He in H3. rewrite Hd in H4.
    destruct (v_covered0 H1 Hb H3 H4); [left; lia|by right].
Qed.

Lemma sinv_place config y p :
  sinv config y -> sending p = sending (st_place y) -> place_inv config (st_log y) (st_pending y) (st_sub y) p ->
  sinv config (y <| st_place := p |>).
Proof. intros [] Hs Hp. split; cbn; try done. by rewrite (out_same y). Qed.

(** A change of the flags alone. *)
Lemma sinv_flags config y s :
  sinv config y -> sub_inv config (st_log y) (out_of_queue y) s ->
  sb_cursorSet s = sb_cursorSet (st_sub y) -> sb_behind s = sb_behind (st_sub y) -> sb_queue s = sb_queue (st_sub y) ->
  sb_cursor s = sb_cursor (st_sub y) -> sb_resume s = sb_resume (st_sub y) ->
  (sb_ending s = false -> sb_ending (st_sub y) = false) -> (sb_done s = false -> sb_done (st_sub y) = false) ->
  sinv config (y <| st_sub := s |>).
Proof.
  intros [] Hinv E1 E2 E3 E4 E5 E6 E7. split; cbn; try done.
  - destruct (st_place y); cbn in *; rewrite ?E1, ?E2, ?E3, ?E4, ?E5; done.
  - unfold covered. cbn. rewrite E2, E4. intros H1 H2 H3 H4. apply v_covered0; auto.
Qed.

(** What has been delivered is a beginning of what is to be. *)
Definition delivered_ok (config : subscribeConfig) (y : stream) : Prop :=
  exists n, (forall a, co_after config = Some a -> n = a) /\
    stored_of (st_delivered y) `prefix_of` filter (fun event => keeps config event = true) (drop (N.to_nat n) (st_log y)).

Lemma sinv_delivered config y : sinv config y -> delivered_ok config y.
Proof.
  intros []. destruct (sb_cursorSet (st_sub y)) eqn:Hset.
  - destruct (si_set _ _ _ _ v_sub0 Hset) as (n & Ha & _ & _ & Heq). exists n. split; [done|].
    etrans; [|apply (between_prefix config _ n (sb_cursor (st_sub y)))]. rewrite <-Heq. unfold out_of_queue.
    rewrite stored_of_app, <-app_assoc. by apply prefix_app_r.
  - destruct (si_unset _ _ _ _ v_sub0 Hset) as (_ & Hnil & _ & Hnone). exists 0%N. split; [by rewrite Hnone|].
    unfold out_of_queue in Hnil. rewrite stored_of_app in Hnil. apply app_eq_nil in Hnil as [-> _]. apply prefix_nil.
Qed.

Lemma delivered_ok_grow config y event :
  delivered_ok config y -> delivered_ok config (y <| st_log := st_log y ++ [event] |>).
Proof.
  intros (n & Ha & Hp). exists n. split; [done|]. cbn. etrans; [exact Hp|].
  destruct (decide (N.to_nat n <= length (st_log y))%nat).
  - rewrite drop_app_le, list.filter_app by done. by apply prefix_app_r.
  - rewrite (drop_ge (st_log y)) by lia. apply prefix_nil.
Qed.

Lemma finish_fields err s :
  sb_cursorSet (finish err s) = sb_cursorSet s /\ sb_behind (finish err s) = sb_behind s /\
  sb_queue (finish err s) = sb_queue s /\ sb_cursor (finish err s) = sb_cursor s /\
  sb_resume (finish err s) = sb_resume s /\ sb_ending (finish err s) = sb_ending s /\ sb_done (finish err s) = true.
Proof. unfold finish. destruct (sb_done s) eqn:E, err; done. Qed.

Lemma sinv_step config y y' : co_labeled config = None -> sinv config y -> interleaves y y' ->
  sinv config y' \/ st_place y' = AtEnd /\ delivered_ok config y'.
Proof.
  intros Hlab Hinv Hstep. destruct Hstep as
    [event Hn Hst Hsmall|event label Hc Hp|event label rest Ho| |err| |Hm|empty event rest Hpl Hpe|empty now s event Hpl Hpe Hpop
    |empty now s state Hpl Hpe Hpop|resume empty out verified Hpl Hb|batch empty Hpl Hne|empty Hpl Hr|empty Hpl Hr|empty Hpl Hw
    |empty Hpl Ht Hm Hs|after empty out verified Hpl Hb|batch empty Hpl|event Hpl|Hd].
  20: by right; split; [|apply sinv_delivered in Hinv].
  all: left.
  - by apply sinv_write.
  - by apply sinv_publish.
  - by apply sinv_offer.
  - apply sinv_flags; try done. by apply sub_inv_signal, (sub_inv_same _ _ _ _ _ (v_sub _ _ Hinv)).
  - destruct (finish_fields err (st_sub y)) as (? & ? & ? & ? & ? & ? & Hdone).
    apply sinv_flags; try done; [by apply sub_inv_finish, v_sub|congruence|congruence].
  - apply (sinv_flags config (y <| st_feed := (st_feed y) <| fd_closed := true |> |>)); try done.
    + destruct Hinv. by split.
    + by apply sub_inv_signal, (sub_inv_same _ _ _ _ _ (v_sub _ _ Hinv)).
  - destruct Hinv. split; try done. by apply feed_wf_source.
  - destruct Hinv. split; cbn; try done. unfold out_of_queue in *. cbn. by rewrite Hpl, Hpe in v_sub0.
  - by eapply sinv_pop.
  - by eapply sinv_turn.
  - destruct (read out verified (st_sub y)) as [batch|err] eqn:E; [|apply stopped_inv; [done|by rewrite Hpl]].
    apply sinv_place; [done|by rewrite Hpl|]. destruct Hinv. rewrite Hpl in v_place0. destruct v_place0 as (H1 & -> & H3 & H4).
    split_and!; try done. eapply batch_of_ok; try done. apply (si_config _ _ _ _ v_sub0).
  - by apply sinv_caught.
  - by eapply sinv_rejoin.
  - pose proof (sinv_rejoin config y empty (S empty) Hinv Hpl) as H. cbv zeta. destruct (catchUpRetries <? S empty)%nat; [|exact H].
    apply (stopped_inv _ _ (Some ErrEventsLost)) in H; [exact H|done].
  - apply (sinv_place config (y <| st_sub := (st_sub y) <| sb_wake := false |> |>)); [|by cbn; rewrite Hpl|done].
    apply sinv_flags; try done. by apply (sub_inv_same _ _ _ _ _ (v_sub _ _ Hinv)).
  - apply sinv_place; [done|rewrite Hpl; by destruct (_ || _)|]. destruct Hinv. rewrite Hpl in v_place0. cbn in v_place0.
    destruct (sb_cursorSet (st_sub y)) eqn:E1; [|done]. destruct (sb_behind (st_sub y)) eqn:E2; [done|]. by split_and!.
  - destruct (read out verified (st_sub y)) as [batch|err] eqn:E; [|apply stopped_inv; [done|by rewrite Hpl]].
    apply sinv_place; [done|by rewrite Hpl|]. destruct Hinv. rewrite Hpl in v_place0. destruct v_place0 as (H1 & H2 & H3).
    split_and!; try done. exists after. split; [done|]. eapply batch_of_ok; try done. apply (si_config _ _ _ _ v_sub0).
  - by apply sinv_looked.
  - assert (Hmid : sinv config (y <| st_delivered := st_delivered y ++ [event] |> <| st_place := AtTake 0 |>)).
    { destruct Hinv. split; cbn; try done. unfold out_of_queue in *. cbn. rewrite Hpl in v_sub0. by rewrite <-app_assoc. }
    cbv zeta. match goal with |- context [co_until ?c] => destruct (co_until c) as [until|] end; [|exact Hmid].
    destruct (guarded (until event)) as [[]|err]; [| exact Hmid|];
      [apply (stopped_inv _ _ None) in Hmid|apply (stopped_inv _ _ (Some err)) in Hmid]; try done; exact Hmid.
Qed.

Lemma after_end config y y' :
  st_place y = AtEnd -> delivered_ok config y -> interleaves y y' -> st_place y' = AtEnd /\ delivered_ok config y'.
Proof.
  intros Hpl Hok Hstep. destruct Hstep; try congruence; try done. by split; [|apply delivered_ok_grow].
Qed.

Lemma max_positive config feed s : Subscribe config feed = Ok s -> (0 < sb_max s)%nat.
Proof.
  unfold Subscribe. destruct (fd_closed feed); [done|]. cbv zeta.
  assert (0 < Z.to_nat (if (co_buffer config <=? 0)%Z then defaultSubscriptionBuffer else co_buffer config))%nat.
  { destruct (Z.leb_spec (co_buffer config) 0); [by vm_compute; lia|lia]. }
  destruct (co_after config); [destruct (fd_mixed feed)|]; intros [= <-]; done.
Qed.

Lemma sinv_start config feed log s :
  fd_mixed feed = false -> numbered log -> (N.of_nat (length log) < two64)%N -> feed_wf log feed ->
  Subscribe config feed = Ok s -> sinv config (MkStream log feed s (AtTake 0) [] [] []).
Proof.
  intros Hm Hnum Hsmall Hwf Hsub. pose proof (max_positive _ _ _ Hsub) as Hmax. unfold Subscribe in Hsub.
  destruct (fd_closed feed); [done|]. cbv zeta in Hsub. rewrite Hm in Hsub.
  split; cbn; try done.
  - destruct (co_after config) as [a|] eqn:Ha; injection Hsub as <-; split; cbn; try done.
    intros _. exists a. split_and!; [intros a0 Ha0; congruence|lia|by left|]. by rewrite between_empty.
  - unfold covered. cbn. destruct (co_after config); [|done]. injection Hsub as <-. cbn. done.
Qed.

Lemma streams_sinv config feed y :
  streams config feed y -> fd_mixed feed = false -> co_labeled config = None ->
  sinv config y \/ st_place y = AtEnd /\ delivered_ok config y.
Proof.
  intros Hs Hm Hl. induction Hs as [log s Hnum Hsmall Hwf Hsub|y y' _ [IH|[Hpl Hok]] Hstep].
  - left. by eapply sinv_start.
  - by eapply sinv_step.
  - right. by eapply after_end.
Qed.

(** ** The wake-up *)

(** Nothing for the goroutine to do. *)
Definition idle (s : subscription) : Prop :=
  sb_queue s = [] /\ sb_behind s = false /\ sb_ending s = false /\ sb_skipped s = 0%N.

Definition watched (y : stream) : Prop :=
  (0 < sb_max (st_sub y))%nat /\
  forall empty, st_place y = AtAwait empty -> sb_done (st_sub y) = false -> sb_wake (st_sub y) = false -> idle (st_sub y).

Lemma offer_max mixed event label s : sb_max (offer mixed event label s) = sb_max s.
Proof.
  unfold offer, finish. destruct (sb_done s); [done|]. destruct (wanted event label s); [|done].
  unfold offer_locked, enqueue, push, skip. repeat case_match; done.
Qed.

Lemma offer_wakes mixed event label s :
  (0 < sb_max s)%nat -> (sb_done s = false -> sb_wake s = false -> idle s) ->
  let s' := offer mixed event label s in sb_done s' = false -> sb_wake s' = false -> idle s'.
Proof.
  cbv zeta. intros Hmax Hidle. unfold offer. destruct (sb_done s) eqn:Hd; [by intros; congruence|].
  destruct (wanted event label s) as [keep|err]; [|unfold finish; rewrite Hd; done].
  specialize (Hidle eq_refl). unfold offer_locked.
  destruct (sb_ending s && negb (sb_behind s)); [auto|]. destruct (sb_behind s); [auto|]. cbv zeta.
  destruct (is_stored event && negb mixed && sb_cursorSet s && _); [auto|].
  destruct (is_stored event && negb mixed && sb_cursorSet s && _); [done|].
  destruct keep; cbn [negb].
  - unfold enqueue. destruct (Nat.leb_spec (sb_max s) (length (sb_queue s))) as [Hfull|]; [|done].
    destruct (drop_delta (sb_queue s)); [done|].
    assert (Hawake : sb_wake s = false -> False).
    { intros H. destruct (Hidle H) as [E _]. rewrite E in Hfull. cbn in Hfull. lia. }
    destruct (is_delta event); [|destruct mixed; [|done]]; unfold skip; try destruct mixed; cbn; intros _ H; exfalso; auto.
  - destruct (is_stored event && negb mixed); [|auto]. cbn. intros _ H. destruct (Hidle H) as (? & ? & ? & ?). by split_and!.
Qed.

Lemma look_max batch s : sb_max (look_batch batch s) = sb_max s.
Proof.
  revert s. induction batch as [|[event keep] batch IH]; intros s; cbn [look_batch]; [done|].
  destruct (_ <=? _)%N; [done|]. destruct (negb _); [done|]. rewrite IH. by destruct keep.
Qed.

Lemma watched_step y y' : watched y -> interleaves y y' -> watched y'.
Proof.
  intros [Hmax Hw] Hstep. destruct Hstep as
    [event Hn Hst Hsmall|event label Hc Hp|event label rest Ho| |err| |Hm|empty event rest Hpl Hpe|empty now s event Hpl Hpe Hpop
    |empty now s state Hpl Hpe Hpop|resume empty out verified Hpl Hb|batch empty Hpl Hne|empty Hpl Hr|empty Hpl Hr|empty Hpl Hwk
    |empty Hpl Ht Hm Hs|after empty out verified Hpl Hb|batch empty Hpl|event Hpl|Hd]; try (by split).
  - split; cbn; [by rewrite offer_max|]. intros empty Hpl. apply offer_wakes; [done|]. by apply (Hw empty).
  - split; cbn; [unfold finish; by destruct (sb_done (st_sub y)), err|]. intros empty Hpl Hd.
    destruct (finish_fields err (st_sub y)) as (_ & _ & _ & _ & _ & _ & H). congruence.
  - unfold popQueued in Hpop. split; cbn; [|done]. destruct (_ <? _)%N; [by injection Hpop as <- <-|].
    destruct (sb_queue (st_sub y)); [done|]. by injection Hpop as <- <-.
  - unfold popQueued in Hpop. destruct (N.ltb_spec 0 (sb_skipped (st_sub y))); [done|].
    destruct (sb_queue (st_sub y)) eqn:Eq; [|done]. injection Hpop as <- <-. split; cbn; [done|].
    unfold next_place. cbn. intros e Hpl' _ _. destruct (sb_behind (st_sub y)) eqn:Eb; [done|].
    destruct (sb_ending (st_sub y)) eqn:Ee; [done|]. split_and!; try done. lia.
  - destruct (read out verified (st_sub y)); [by split|]. split; cbn; [|done]. unfold finish. by destruct (sb_done (st_sub y)).
  - split; cbn; [|done]. unfold rejoin. by destruct (_ <=? _)%N.
  - cbv zeta. destruct (catchUpRetries <? S empty)%nat; split; cbn; try done; unfold rejoin, finish.
    + destruct (_ <=? _)%N; cbn; by destruct (sb_done (st_sub y)).
    + by destruct (_ <=? _)%N.
  - split; cbn; [done|]. by destruct (_ || _).
  - destruct (read out verified (st_sub y)); [by split|]. split; cbn; [|done]. unfold finish. by destruct (sb_done (st_sub y)).
  - split; cbn; [|done]. destruct (sb_behind (st_sub y)); [done|by rewrite look_max].
  - cbv zeta. match goal with |- context [co_until ?c] => destruct (co_until c) as [until|] end; [|by split].
    destruct (guarded (until event)) as [[]|err]; split; cbn; try done; unfold finish; by destruct (sb_done (st_sub y)).
Qed.

Lemma streams_watched config feed y : streams config feed y -> watched y.
Proof.
  induction 1 as [log s Hnum Hsmall Hwf Hsub|y y' _ IH Hstep]; [|by eapply watched_step].
  split; [by eapply max_positive|done].
Qed.

(** ** Properties *)

(** C14: a Session's stream has no gap, no repeat and no reordering: however the
    publisher, the reader, the growing Record and the catch-up interleave, and
    whatever the queue dropped, the stored Events delivered are a beginning of the
    Record's Events after one number that pass the filter; with [SubscribeAfter] that
    number is the one given. *)
Theorem session_stream_in_order (config : subscribeConfig) (feed : Feed) (y : stream) :
  streams config feed y -> fd_mixed feed = false -> co_labeled config = None ->
  exists n, (forall a, co_after config = Some a -> n = a) /\
    stored_of (st_delivered y) `prefix_of`
      filter (fun event => keeps config event = true) (drop (N.to_nat n) (st_log y)).
Proof.
  intros Hs Hm Hl. destruct (streams_sinv _ _ _ Hs Hm Hl) as [Hinv|[_ Hok]]; [by apply sinv_delivered|done].
Qed.

(** C15: a stream that rests has everything: when the goroutine waits, nobody
    has woken it, and no publish is on its way, a subscription after a number has been
    delivered every stored Event after it that the Feed published and the
    filter keeps, the ones another Instance wrote in between included. *)
Theorem session_stream_catches_up (config : subscribeConfig) (feed : Feed) (y : stream) (after : N) (empty : nat) :
  streams config feed y -> fd_mixed feed = false -> co_labeled config = None -> co_after config = Some after ->
  st_place y = AtAwait empty -> sb_wake (st_sub y) = false -> sb_done (st_sub y) = false -> st_offers y = [] ->
  (fd_last (st_feed y) <= sb_cursor (st_sub y))%N /\
  stored_of (st_delivered y) = between config (st_log y) after (sb_cursor (st_sub y)).
Proof.
  intros Hs Hm Hl Ha Hpl Hw Hd Ho. destruct (streams_sinv _ _ _ Hs Hm Hl) as [[]|[H _]]; [|congruence].
  destruct (streams_watched _ _ _ Hs) as [_ Hidle]. destruct (Hidle _ Hpl Hd Hw) as (Hq & Hb & He & _).
  rewrite Hpl in v_place0. cbn in v_place0.
  destruct (v_covered0 ltac:(by rewrite Ha) Hb He Hd) as [H|H]; [|rewrite Ho in H; by apply Exists_nil in H].
  split; [done|]. destruct (sb_cursorSet (st_sub y)) eqn:Hset.
  - destruct (si_set _ _ _ _ v_sub0 Hset) as (n & Hn & _ & _ & Heq). rewrite (Hn _ Ha) in Heq.
    rewrite <-Heq, Hq, app_nil_r. unfold out_of_queue. by rewrite Hpl, v_place0, !app_nil_r.
  - destruct (si_unset _ _ _ _ v_sub0 Hset) as (_ & _ & _ & ?). congruence.
Qed.

(** no wake-up is lost: whenever the goroutine waits and has something to
    do, an Event queued, Events to catch up on, a count of skipped ones to report, or
    the end of the stream, it has been woken.  This holds of a Session's Feed and of
    an Instance's. *)
Theorem stream_never_sleeps_on_work (config : subscribeConfig) (feed : Feed) (y : stream) (empty : nat) :
  streams config feed y -> st_place y = AtAwait empty -> sb_done (st_sub y) = false ->
  sb_queue (st_sub y) <> [] \/ sb_behind (st_sub y) = true \/ sb_ending (st_sub y) = true \/ (0 < sb_skipped (st_sub y))%N ->
  sb_wake (st_sub y) = true.
Proof.
  intros Hs Hpl Hd Hwork. destruct (streams_watched _ _ _ Hs) as [_ Hidle].
  destruct (sb_wake (st_sub y)) eqn:Hw; [done|]. destruct (Hidle _ Hpl Hd eq_refl) as (H1 & H2 & H3 & H4).
  destruct Hwork as [H|[H|[H|H]]]; congruence || lia.
Qed.

(** ** Witnesses

    A subscription after number 0 to a Record with one Event: it reads it, delivers
    it, rejoins, and waits; then a second Event is written, published and offered. *)

Definition sample_stored_event (n : N) : Event :=
  ETurnStarted (MkTurnStarted ((NewHeader 5 "s" "r" 1) <| h_Number := n |>)).

Definition sample_config : subscribeConfig := MkSubscribeConfig (Some 0%N) 0 None None None false false.

Definition sample_subscription : subscription :=
  match Subscribe sample_config (newFeed true) with Ok s => s | Err _ => MkSubscription 0 sample_config [] 0 false false 0 0 false None false false end.

Definition sample_batch : list (Event * bool) := [(sample_stored_event 1, true)].

(** After the read, the delivery, the second read that finds nothing, and the
    turn that finds nothing to do. *)
Definition sample_resting : stream :=
  MkStream [sample_stored_event 1] (newFeed true)
    (MkSubscription 256 sample_config [] 1 true false 1 0 false None false false)
    (AtAwait 0) [] [] [sample_stored_event 1].

Lemma sample_numbered : numbered [sample_stored_event 1].
Proof. intros [|i] event; [intros [= <-]; done|by destruct i]. Qed.

Definition sample_at (s : subscription) (p : place) (pending delivered : list Event) : stream :=
  MkStream [sample_stored_event 1] (newFeed true) s p pending [] delivered.

Definition sample_read : subscription :=
  MkSubscription 256 sample_config [] 1 true true 1 0 false None false false.
Definition sample_live_sub : subscription :=
  MkSubscription 256 sample_config [] 1 true false 1 0 false None false false.

Lemma sample_delivers : streams sample_config (newFeed true) (sample_at sample_read (AtTake 0) [] [sample_stored_event 1]).
Proof.
  assert (H0 : streams sample_config (newFeed true) (sample_at sample_subscription (AtTake 0) [] [])).
  { apply streams_start; [apply sample_numbered|vm_compute; done| |done]. intros _. split; [vm_compute; done|done]. }
  assert (H1 : streams sample_config (newFeed true) (sample_at sample_subscription (AtRead 0 0) [] [])).
  { eapply streams_step; [exact H0|]. refine (does_turn (sample_at sample_subscription (AtTake 0) [] []) 0 5 sample_subscription (MkQueueState true 0 false) eq_refl eq_refl eq_refl). }
  assert (H2 : streams sample_config (newFeed true) (sample_at sample_subscription (AtCaught sample_batch 0) [] [])).
  { eapply streams_step; [exact H1|]. refine (does_read (sample_at sample_subscription (AtRead 0 0) [] []) 0 0 (Ok [sample_stored_event 1]) None eq_refl _). by exists 1%nat. }
  assert (H3 : streams sample_config (newFeed true) (sample_at sample_read (AtTake 0) [sample_stored_event 1] [])).
  { eapply streams_step; [exact H2|]. refine (does_catch (sample_at sample_subscription (AtCaught sample_batch 0) [] []) sample_batch 0 eq_refl _). done. }
  assert (H4 : streams sample_config (newFeed true) (sample_at sample_read (AtSend (sample_stored_event 1)) [] [])).
  { eapply streams_step; [exact H3|]. refine (does_pending (sample_at sample_read (AtTake 0) [sample_stored_event 1] []) 0 _ [] eq_refl eq_refl). }
  eapply streams_step; [exact H4|]. refine (does_deliver (sample_at sample_read (AtSend (sample_stored_event 1)) [] []) _ eq_refl).
Qed.

Lemma sample_rests : streams sample_config (newFeed true) sample_resting.
Proof.
  assert (H1 : streams sample_config (newFeed true) (sample_at sample_read (AtRead 1 0) [] [sample_stored_event 1])).
  { eapply streams_step; [exact sample_delivers|]. refine (does_turn (sample_at sample_read (AtTake 0) [] [sample_stored_event 1]) 0 5 sample_read (MkQueueState true 1 false) eq_refl eq_refl eq_refl). }
  assert (H2 : streams sample_config (newFeed true) (sample_at sample_read (AtCaught [] 0) [] [sample_stored_event 1])).
  { eapply streams_step; [exact H1|]. refine (does_read (sample_at sample_read (AtRead 1 0) [] [sample_stored_event 1]) 1 0 (Ok []) None eq_refl _). by exists 1%nat. }
  assert (H3 : streams sample_config (newFeed true) (sample_at sample_live_sub (AtTake 0) [] [sample_stored_event 1])).
  { eapply streams_step; [exact H2|]. refine (does_rejoin (sample_at sample_read (AtCaught [] 0) [] [sample_stored_event 1]) 0 eq_refl eq_refl). }
  eapply streams_step; [exact H3|]. refine (does_turn (sample_at sample_live_sub (AtTake 0) [] [sample_stored_event 1]) 0 5 sample_live_sub (MkQueueState false 1 false) eq_refl eq_refl eq_refl).
Qed.

Lemma session_stream_in_order_witness :
  exists n, (forall a, Some 0%N = Some a -> n = a) /\
    [sample_stored_event 1] `prefix_of`
      filter (fun event => keeps sample_config event = true) (drop (N.to_nat n) [sample_stored_event 1]).
Proof. apply (session_stream_in_order sample_config (newFeed true) sample_resting); [apply sample_rests|done|done]. Defined.

Lemma session_stream_catches_up_witness :
  (fd_last (newFeed true) <= 1)%N /\
  [sample_stored_event 1] = between sample_config [sample_stored_event 1] 0 1.
Proof.
  apply (session_stream_catches_up sample_config (newFeed true) sample_resting 0 0); try reflexivity. apply sample_rests.
Defined.

Definition sample_published : Feed := publish_locked (sample_stored_event 2) (newFeed true).

Definition sample_woken : stream :=
  MkStream [sample_stored_event 1; sample_stored_event 2] sample_published
    (offer false (sample_stored_event 2) "" sample_live_sub) (AtAwait 0) [] [] [sample_stored_event 1].

Lemma sample_wakes : streams sample_config (newFeed true) sample_woken.
Proof.
  assert (H1 : streams sample_config (newFeed true)
    (sample_resting <| st_log := [sample_stored_event 1; sample_stored_event 2] |>)).
  { eapply streams_step; [exact sample_rests|]. exact (does_write sample_resting (sample_stored_event 2) eq_refl eq_refl eq_refl). }
  assert (H2 : streams sample_config (newFeed true)
    (MkStream [sample_stored_event 1; sample_stored_event 2] sample_published sample_live_sub (AtAwait 0) []
      [(sample_stored_event 2, "")] [sample_stored_event 1])).
  { eapply streams_step; [exact H1|]. refine (does_publish (sample_resting <| st_log := [sample_stored_event 1; sample_stored_event 2] |>) (sample_stored_event 2) "" eq_refl _).
    right. right. split; [by exists 1%nat|done]. }
  eapply streams_step; [exact H2|]. exact (does_offer (MkStream [sample_stored_event 1; sample_stored_event 2] sample_published sample_live_sub (AtAwait 0) []
    [(sample_stored_event 2, "")] [sample_stored_event 1]) _ _ [] eq_refl).
Qed.

Lemma stream_never_sleeps_on_work_witness : sb_wake (st_sub sample_woken) = true.
Proof.
  apply (stream_never_sleeps_on_work sample_config (newFeed true) sample_woken 0); [apply sample_wakes|reflexivity|reflexivity|].
  left. vm_compute. discriminate.
Defined.
