(* ===== verification/ControlQueue.v ===== *)
(** * Messages that wait for a Run

    [gotato/controlqueue.go]: the queue of Steers, Interrupts, FollowUps and
    notices, the places reserved in it, and the lease under which a Run takes
    messages.  A method holds the queue's mutex for the whole of its work.  Sequence
    numbers are 64-bit; the theorems are of a queue whose numbers do not wrap. *)

From S2P Require Import Prelude Types Events.
Local Open Scope string_scope.
Local Open Scope list_scope.

(** ** Data *)

Inductive controlKind : Type := kindSteer | kindFollowUp | kindNotice.
#[export] Instance controlKind_eq_dec : EqDecision controlKind.
Proof. solve_decision. Defined.

Definition kindOf (source : MessageSource) : controlKind :=
  if String.eqb source MessageSourceFollowUp then kindFollowUp
  else if String.eqb source MessageSourceNotice then kindNotice
  else kindSteer.

Record control := MkControl {
  ct_seq : N;
  ct_message : Message;
  ct_source : MessageSource;
  ct_kind : controlKind;
  ct_number : N;
}.
#[export] Instance eta_control : Eta control := fun r =>
  MkControl (ct_seq r) (ct_message r) (ct_source r) (ct_kind r) (ct_number r).

(** An array indexed by [controlKind]. *)
Record per_kind := MkPerKind { pk_steer : Z; pk_followUp : Z; pk_notice : Z }.

Definition at_kind (kind : controlKind) (a : per_kind) : Z :=
  match kind with kindSteer => pk_steer a | kindFollowUp => pk_followUp a | kindNotice => pk_notice a end.

Definition add_kind (kind : controlKind) (n : Z) (a : per_kind) : per_kind :=
  match kind with
  | kindSteer => MkPerKind (pk_steer a + n) (pk_followUp a) (pk_notice a)
  | kindFollowUp => MkPerKind (pk_steer a) (pk_followUp a + n) (pk_notice a)
  | kindNotice => MkPerKind (pk_steer a) (pk_followUp a) (pk_notice a + n)
  end.

Record controlQueue := MkControlQueue {
  cq_items : list control;
  cq_held : per_kind;
  cq_limit : per_kind;
  cq_sealed : bool;
  cq_seq : N;
}.
#[export] Instance eta_controlQueue : Eta controlQueue := fun r =>
  MkControlQueue (cq_items r) (cq_held r) (cq_limit r) (cq_sealed r) (cq_seq r).

Definition newControlQueue (steer followUp notice : Z) : controlQueue :=
  MkControlQueue [] (MkPerKind 0 0 0) (MkPerKind steer followUp notice) false 0.

(** The queue that a lease belongs to is the one it is put back to. *)
Record lease := MkLease { ls_items : list control; ls_settled : nat }.
#[export] Instance eta_lease : Eta lease := fun r => MkLease (ls_items r) (ls_settled r).

(** ** Operations *)

Definition of_kind (kind : controlKind) (c : control) : bool := bool_decide (ct_kind c = kind).

Definition count (kind : controlKind) (q : controlQueue) : Z :=
  Z.of_nat (length (filter (fun c => of_kind kind c = true) (cq_items q))).

Definition full (kind : controlKind) (q : controlQueue) : bool :=
  (at_kind kind (cq_limit q) <=? count kind q + at_kind kind (cq_held q))%Z.

Definition reserve (kind : controlKind) (q : controlQueue) : controlQueue * bool :=
  if full kind q then (q, false) else (q <| cq_held := add_kind kind 1 (cq_held q) |>, true).

Definition release (kind : controlKind) (q : controlQueue) : controlQueue :=
  q <| cq_held := add_kind kind (-1) (cq_held q) |>.

(** The end of [fill] and of [add]. *)
Definition stamp (c : control) (q : controlQueue) : controlQueue :=
  let q := q <| cq_seq := u64_add (cq_seq q) 1 |> in
  q <| cq_items := cq_items q ++ [c <| ct_seq := cq_seq q |>] |>.

Definition fill (c : control) (q : controlQueue) : controlQueue * bool :=
  let q := q <| cq_held := add_kind (ct_kind c) (-1) (cq_held q) |> in
  if cq_sealed q then (q, false) else (stamp c q, true).

Definition add (c : control) (q : controlQueue) : controlQueue * bool :=
  if cq_sealed q || full (ct_kind c) q then (q, false) else (stamp c q, true).

Definition interrupting (q : controlQueue) : bool :=
  existsb (fun c => String.eqb (ct_source c) MessageSourceInterrupt) (cq_items q).

Definition split (pick : control -> bool) (q : controlQueue) : controlQueue * list control :=
  (q <| cq_items := filter (fun c => pick c = false) (cq_items q) |>,
   filter (fun c => pick c = true) (cq_items q)).

(** [controlQueue.lease]. *)
Definition take_lease (pick : control -> bool) (q : controlQueue) : controlQueue * lease :=
  let (q, out) := split pick q in (q, MkLease out 0).

(** What [take] picks, and whether the notices go along. *)
Definition picks (settling : bool) (c : control) : bool :=
  of_kind kindSteer c || (settling && of_kind kindFollowUp c).

Definition with_notices (settling : bool) (q : controlQueue) : bool :=
  negb settling || existsb (picks settling) (cq_items q).

Definition take_messages (settling : bool) (q : controlQueue) : controlQueue * lease :=
  let withNotices := with_notices settling q in
  take_lease (fun c => picks settling c || (withNotices && of_kind kindNotice c)) q.

Definition takeNotices (q : controlQueue) : controlQueue * lease := take_lease (of_kind kindNotice) q.

Definition settle (l : lease) : lease := l <| ls_settled := S (ls_settled l) |>.

Definition unsettled (l : lease) : list control := drop (ls_settled l) (ls_items l).

Definition by_seq (a b : control) : Prop := (ct_seq a <= ct_seq b)%N.
#[export] Instance by_seq_dec a b : Decision (by_seq a b).
Proof. unfold by_seq. apply _. Defined.
#[export] Instance by_seq_total : Total by_seq.
Proof. intros a b. unfold by_seq. lia. Qed.

Definition putBack (l : lease) (q : controlQueue) : controlQueue * lease :=
  match unsettled l with
  | [] => (q, l)
  | rest => (q <| cq_items := merge_sort by_seq (rest ++ cq_items q) |>, l <| ls_settled := length (ls_items l) |>)
  end.

Definition drain (withNotices : bool) (q : controlQueue) : controlQueue * list control :=
  split (fun c => withNotices || negb (of_kind kindNotice c)) q.

Definition seal (q : controlQueue) : controlQueue * list control :=
  split (fun _ => true) (q <| cq_sealed := true |>).

(** ** Calls in any order

    [accepted] are the messages [fill] and [add] took, and [gone] those that a Run settled,
    or that [drain] and [seal] handed out. *)
Record queueSystem := MkQueueSystem {
  qy_queue : controlQueue;
  qy_leases : list lease;
  qy_accepted : list control;
  qy_gone : list control;
}.
#[export] Instance eta_queueSystem : Eta queueSystem := fun r =>
  MkQueueSystem (qy_queue r) (qy_leases r) (qy_accepted r) (qy_gone r).

(** What a message looks like once it is in. *)
Definition stamped (c : control) (q : controlQueue) : control := c <| ct_seq := u64_add (cq_seq q) 1 |>.

Inductive queue_step (y : queueSystem) : queueSystem -> Prop :=
| does_reserve kind : queue_step y (y <| qy_queue := fst (reserve kind (qy_queue y)) |>)
| does_release kind : queue_step y (y <| qy_queue := release kind (qy_queue y) |>)
| does_fill c q :
    (cq_seq (qy_queue y) + 1 < two64)%N -> fill c (qy_queue y) = (q, true) ->
    queue_step y (y <| qy_queue := q |> <| qy_accepted := qy_accepted y ++ [stamped c (qy_queue y)] |>)
| does_fill_sealed c q : fill c (qy_queue y) = (q, false) -> queue_step y (y <| qy_queue := q |>)
| does_add c q :
    (cq_seq (qy_queue y) + 1 < two64)%N -> add c (qy_queue y) = (q, true) ->
    queue_step y (y <| qy_queue := q |> <| qy_accepted := qy_accepted y ++ [stamped c (qy_queue y)] |>)
| does_take settling :
    queue_step y (y <| qy_queue := fst (take_messages settling (qy_queue y)) |>
                    <| qy_leases := qy_leases y ++ [snd (take_messages settling (qy_queue y))] |>)
| does_take_notices :
    queue_step y (y <| qy_queue := fst (takeNotices (qy_queue y)) |>
                    <| qy_leases := qy_leases y ++ [snd (takeNotices (qy_queue y))] |>)
| does_settle i l c :
    qy_leases y !! i = Some l -> ls_items l !! ls_settled l = Some c ->
    queue_step y (y <| qy_leases := <[i := settle l]> (qy_leases y) |> <| qy_gone := qy_gone y ++ [c] |>)
| does_put_back i l :
    qy_leases y !! i = Some l ->
    queue_step y (y <| qy_queue := fst (putBack l (qy_queue y)) |>
                    <| qy_leases := <[i := snd (putBack l (qy_queue y))]> (qy_leases y) |>)
| does_drain withNotices :
    queue_step y (y <| qy_queue := fst (drain withNotices (qy_queue y)) |>
                    <| qy_gone := qy_gone y ++ snd (drain withNotices (qy_queue y)) |>)
| does_seal :
    queue_step y (y <| qy_queue := fst (seal (qy_queue y)) |> <| qy_gone := qy_gone y ++ snd (seal (qy_queue y)) |>).

Inductive queue_runs (steer followUp notice : Z) : queueSystem -> Prop :=
| queue_starts : queue_runs steer followUp notice (MkQueueSystem (newControlQueue steer followUp notice) [] [] [])
| queue_moves y y' : queue_runs steer followUp notice y -> queue_step y y' -> queue_runs steer followUp notice y'.

(** Where the messages are. *)
Definition leased (y : queueSystem) : list control := mjoin (unsettled <$> qy_leases y).
Definition everywhere (y : queueSystem) : list control := cq_items (qy_queue y) ++ leased y ++ qy_gone y.

Definition before (a b : control) : Prop := (ct_seq a < ct_seq b)%N.

(** ** Lemmas on order *)

#[export] Instance before_trans : Transitive before.
Proof. intros a b c. unfold before. lia. Qed.

#[export] Instance before_antisymm : AntiSymm (=) before.
Proof. intros a b. unfold before. lia. Qed.

Lemma sorted_filter (P : control -> Prop) `{!forall c, Decision (P c)} l :
  StronglySorted before l -> StronglySorted before (filter P l).
Proof.
  induction 1 as [|c l _ IH Hc]; [constructor|]. rewrite filter_cons. destruct (decide (P c)); [|done].
  constructor; [done|]. rewrite list.Forall_forall in Hc |- *. intros x [_ Hx]%list_elem_of_filter. by apply Hc.
Qed.

Lemma sorted_snoc l c :
  StronglySorted before l -> Forall (fun x => before x c) l -> StronglySorted before (l ++ [c]).
Proof.
  induction 1 as [|x l _ IH Hx]; intros Hc; cbn; [by repeat constructor|].
  apply list.Forall_cons in Hc as [Hxc Hc]. constructor; [by apply IH|]. apply list.Forall_app. split; [done|by constructor].
Qed.

(** The order of the numbers, from [by_seq] and distinct numbers. *)
Lemma sorted_strict l : StronglySorted by_seq l -> NoDup (ct_seq <$> l) -> StronglySorted before l.
Proof.
  induction 1 as [|c l _ IH Hc]; [constructor|]. rewrite fmap_cons. intros [Hn Hd]%list.NoDup_cons.
  constructor; [by apply IH|]. rewrite list.Forall_forall in Hc |- *. intros x Hx. specialize (Hc x Hx).
  unfold before, by_seq in *. assert (ct_seq c <> ct_seq x); [|lia]. intros E. apply Hn. rewrite E. by apply list_elem_of_fmap_2.
Qed.

Lemma sorted_nodup l : StronglySorted before l -> NoDup (ct_seq <$> l).
Proof.
  induction 1 as [|c l _ IH Hc]; [constructor|]. rewrite fmap_cons. apply list.NoDup_cons. split; [|done].
  intros (x & E & Hx)%list_elem_of_fmap. rewrite list.Forall_forall in Hc. specialize (Hc x Hx). unfold before in Hc. lia.
Qed.

(** A list in this order is given by its elements. *)
Lemma sorted_unique l k : StronglySorted before l -> StronglySorted before k -> l ≡ₚ k -> l = k.
Proof. intros Hl Hk E. exact (StronglySorted_unique before l k Hl Hk E). Qed.

Lemma merge_sorted (l : list control) : NoDup (ct_seq <$> l) -> StronglySorted before (merge_sort by_seq l).
Proof.
  intros Hn. apply sorted_strict.
  - apply StronglySorted_merge_sort; [|apply _]. intros a b c. unfold by_seq. lia.
  - by rewrite merge_sort_Permutation.
Qed.

Lemma split_perm pick q :
  cq_items q ≡ₚ filter (fun c => pick c = false) (cq_items q) ++ filter (fun c => pick c = true) (cq_items q).
Proof.
  induction (cq_items q) as [|c l IH]; [done|]. rewrite !filter_cons.
  destruct (pick c); cbn.
  - etrans; [by apply Permutation_cons, IH|]. apply Permutation_middle.
  - by apply Permutation_cons.
Qed.

(** ** The invariant *)

Record queue_inv (y : queueSystem) : Prop := {
  qi_items : StronglySorted before (cq_items (qy_queue y));
  qi_leases : Forall (fun l => StronglySorted before (ls_items l) /\ (ls_settled l <= length (ls_items l))%nat) (qy_leases y);
  qi_everywhere : qy_accepted y ≡ₚ everywhere y;
  qi_accepted : StronglySorted before (qy_accepted y);
  qi_seq : Forall (fun c => (ct_seq c <= cq_seq (qy_queue y))%N) (qy_accepted y);
}.

Lemma queue_inv_same y q :
  queue_inv y -> cq_items q = cq_items (qy_queue y) -> cq_seq q = cq_seq (qy_queue y) -> queue_inv (y <| qy_queue := q |>).
Proof. intros [] E1 E2. split; unfold everywhere in *; cbn; by rewrite ?E1, ?E2. Qed.

Lemma stamp_inv y c q :
  queue_inv y -> (cq_seq (qy_queue y) + 1 < two64)%N -> cq_items q = cq_items (stamp c (qy_queue y)) ->
  cq_seq q = cq_seq (stamp c (qy_queue y)) ->
  queue_inv (y <| qy_queue := q |> <| qy_accepted := qy_accepted y ++ [stamped c (qy_queue y)] |>).
Proof.
  intros [] Hs Ei Eq. assert (Hn : ct_seq (stamped c (qy_queue y)) = (cq_seq (qy_queue y) + 1)%N).
  { cbn. unfold u64_add. by apply u64_small. }
  assert (Hlt : forall l, Forall (fun c => (ct_seq c <= cq_seq (qy_queue y))%N) l ->
    Forall (fun x => before x (stamped c (qy_queue y))) l).
  { intros l. apply Forall_impl. intros x Hx. unfold before. rewrite Hn. lia. }
  assert (Hitems : Forall (fun c => (ct_seq c <= cq_seq (qy_queue y))%N) (cq_items (qy_queue y))).
  { rewrite list.Forall_forall in qi_seq0 |- *. intros x Hx. apply qi_seq0. rewrite qi_everywhere0. unfold everywhere.
    by apply elem_of_app; left. }
  split; unfold everywhere in *; cbn; rewrite ?Ei, ?Eq; cbn.
  - apply sorted_snoc; [done|by apply Hlt].
  - done.
  - change (c <| ct_seq := _ |>) with (stamped c (qy_queue y)). rewrite qi_everywhere0. unfold leased. cbn.
    rewrite <-!app_assoc. apply Permutation_app_head. rewrite app_assoc. apply Permutation_app_comm.
  - apply sorted_snoc; [done|by apply Hlt].
  - apply list.Forall_app. split; [|by constructor; [cbn; reflexivity|]].
    revert qi_seq0. apply Forall_impl. intros x Hx. unfold u64_add. rewrite u64_small; lia.
Qed.

Lemma leased_app y l : mjoin (unsettled <$> (qy_leases y ++ [l])) = leased y ++ unsettled l.
Proof. unfold leased. rewrite fmap_app, join_app. cbn. by rewrite app_nil_r. Qed.

Lemma leased_insert y i l l' :
  qy_leases y !! i = Some l ->
  exists others, leased y ≡ₚ unsettled l ++ others /\
    mjoin (unsettled <$> <[i := l']> (qy_leases y)) ≡ₚ unsettled l' ++ others.
Proof.
  intros Hi. pose proof (take_drop_middle _ _ _ Hi) as E.
  exists (mjoin (unsettled <$> take i (qy_leases y)) ++ mjoin (unsettled <$> drop (S i) (qy_leases y))). unfold leased. split.
  - rewrite <-E at 1. rewrite fmap_app, join_app. cbn. rewrite !app_assoc. by rewrite (Permutation_app_comm (unsettled l)).
  - rewrite insert_take_drop by by eapply lookup_lt_Some. rewrite fmap_app, join_app. cbn.
    rewrite !app_assoc. by rewrite (Permutation_app_comm (unsettled l')).
Qed.

Lemma take_inv y pick :
  queue_inv y ->
  queue_inv (y <| qy_queue := fst (take_lease pick (qy_queue y)) |> <| qy_leases := qy_leases y ++ [snd (take_lease pick (qy_queue y))] |>).
Proof.
  intros []. split; unfold everywhere in *; cbn; try done.
  - by apply sorted_filter.
  - apply list.Forall_app. split; [done|]. constructor; [|done]. cbn. split; [by apply sorted_filter|lia].
  - unfold leased in *. cbn in *. rewrite leased_app. unfold leased. cbn. rewrite qi_everywhere0.
    etrans; [apply Permutation_app_tail, (split_perm pick)|]. rewrite <-!app_assoc. apply Permutation_app_head.
    rewrite !app_assoc. apply Permutation_app_tail, Permutation_app_comm.
Qed.

Lemma split_inv y pick q :
  queue_inv y -> cq_items q = cq_items (qy_queue y) -> cq_seq q = cq_seq (qy_queue y) ->
  queue_inv (y <| qy_queue := fst (split pick q) |> <| qy_gone := qy_gone y ++ snd (split pick q) |>).
Proof.
  intros [] Ei Eq. split; unfold everywhere in *; cbn; rewrite ?Ei, ?Eq; try done.
  - by apply sorted_filter.
  - rewrite qi_everywhere0. etrans; [apply Permutation_app_tail, (split_perm pick)|]. unfold leased. cbn.
    rewrite <-!app_assoc. apply Permutation_app_head. rewrite Permutation_app_comm. by rewrite <-app_assoc.
Qed.

Lemma nodup_seqs l k : l ≡ₚ k -> StronglySorted before l -> NoDup (ct_seq <$> k).
Proof. intros E Hs. rewrite <-E. by apply sorted_nodup. Qed.

Lemma step_inv y y' : queue_inv y -> queue_step y y' -> queue_inv y'.
Proof.
  intros Hinv Hstep. destruct Hstep as [kind|kind|c q Hs Hf|c q Hf|c q Hs Ha|settling| |i l c Hi Hc|i l Hi|withNotices|].
  - apply queue_inv_same; [done|..]; unfold reserve; by destruct (full kind (qy_queue y)).
  - by apply queue_inv_same.
  - unfold fill in Hf. cbv zeta in Hf. change (cq_sealed (_ <| cq_held := _ |>)) with (cq_sealed (qy_queue y)) in Hf.
    destruct (cq_sealed (qy_queue y)); [done|]. injection Hf as <-. by apply stamp_inv.
  - unfold fill in Hf. cbv zeta in Hf. change (cq_sealed (_ <| cq_held := _ |>)) with (cq_sealed (qy_queue y)) in Hf.
    destruct (cq_sealed (qy_queue y)); [|done]. injection Hf as <-. by apply queue_inv_same.
  - unfold add in Ha. destruct (_ || _); [done|]. injection Ha as <-. by apply stamp_inv.
  - by apply take_inv.
  - by apply take_inv.
  - destruct (leased_insert y i l (settle l) Hi) as (others & H1 & H2). destruct Hinv. pose proof (lookup_lt_Some _ _ _ Hc) as Hlt.
    assert (Hu : unsettled l = c :: unsettled (settle l)).
    { unfold unsettled. cbn. by apply drop_S. }
    split; unfold everywhere in *; cbn; try done.
    + apply Forall_insert; [done|]. rewrite list.Forall_lookup in qi_leases0. destruct (qi_leases0 _ _ Hi). split; [done|]. cbn. lia.
    + unfold leased in *. cbn. rewrite qi_everywhere0, H1, H2, Hu. cbn. apply Permutation_app_head.
      rewrite Permutation_middle. rewrite <-!app_assoc. apply Permutation_app_head, Permutation_app_head. by rewrite Permutation_cons_append.
  - destruct (leased_insert y i l (snd (putBack l (qy_queue y))) Hi) as (others & H1 & H2). destruct Hinv.
    assert (Hl : StronglySorted before (ls_items l) /\ (ls_settled l <= length (ls_items l))%nat).
    { rewrite list.Forall_lookup in qi_leases0. by apply (qi_leases0 _ _ Hi). }
    unfold putBack in *. destruct (unsettled l) as [|c rest] eqn:Eu; cbn [fst snd] in *.
    { rewrite list_insert_id by done. by destruct y. }
    assert (Hu : unsettled (l <| ls_settled := length (ls_items l) |>) = []) by (unfold unsettled; cbn; by rewrite drop_all).
    rewrite Hu in H2. cbn in H2.
    assert (Hperm : qy_accepted y ≡ₚ (merge_sort by_seq ((c :: rest) ++ cq_items (qy_queue y))) ++ others ++ qy_gone y).
    { rewrite qi_everywhere0. unfold everywhere. rewrite H1, merge_sort_Permutation. rewrite !app_assoc. do 2 apply Permutation_app_tail.
      by rewrite Permutation_app_comm. }
    split; unfold everywhere in *; cbn -[merge_sort]; try done.
    + apply merge_sorted. pose proof (nodup_seqs _ _ Hperm qi_accepted0) as Hn. rewrite fmap_app in Hn.
      apply list.NoDup_app in Hn as [Hn _]. by rewrite merge_sort_Permutation in Hn.
    + apply Forall_insert; [done|]. cbn. split; [apply Hl|done].
    + rewrite Hperm. unfold leased in *. cbn. by rewrite H2.
  - by apply split_inv.
  - by apply split_inv.
Qed.

Lemma runs_inv steer followUp notice y : queue_runs steer followUp notice y -> queue_inv y.
Proof. induction 1; [by repeat constructor|by eapply step_inv]. Qed.

(** What is left of [l] once the messages of [a] are out. *)
Definition without (a l : list control) : list control :=
  filter (fun c => ct_seq c ∉ (ct_seq <$> a)) l.

Lemma without_perm a b l : l ≡ₚ a ++ b -> NoDup (ct_seq <$> l) -> without a l ≡ₚ b.
Proof.
  intros E Hn. assert (Hab : NoDup (ct_seq <$> (a ++ b))) by by rewrite <-E.
  rewrite fmap_app in Hab. apply list.NoDup_app in Hab as (_ & Hd & _). unfold without. rewrite E, list.filter_app.
  rewrite filter_none, filter_all; [done|..]; apply list.Forall_forall; intros c Hc.
  - intros Hin. by apply (Hd _ Hin), list_elem_of_fmap_2.
  - intros Hn'. by apply Hn', list_elem_of_fmap_2.
Qed.

Lemma settle_n n l : Nat.iter n settle l = MkLease (ls_items l) (n + ls_settled l).
Proof.
  induction n as [|n IH]; [by destruct l|]. change (Nat.iter (S n) settle l) with (settle (Nat.iter n settle l)). by rewrite IH.
Qed.

Lemma put_back_lease pick q0 n :
  StronglySorted before (cq_items q0) ->
  let (q, l) := take_lease pick q0 in
  let (q', l') := putBack (Nat.iter n settle l) q in
  cq_items q' = without (take n (ls_items l)) (cq_items q0) /\ unsettled l' = [].
Proof.
  intros Hs. pose proof (sorted_nodup _ Hs) as Hn. pose proof (split_perm pick q0) as Hp.
  unfold take_lease, split. cbv zeta. rewrite settle_n. cbn [ls_items ls_settled]. rewrite Nat.add_0_r.
  set (kept := filter (fun c => pick c = false) (cq_items q0)) in *.
  set (out := filter (fun c => pick c = true) (cq_items q0)) in *.
  assert (Hperm : cq_items q0 ≡ₚ take n out ++ (drop n out ++ kept)).
  { rewrite app_assoc, take_drop. etrans; [exact Hp|apply Permutation_app_comm]. }
  pose proof (without_perm _ _ _ Hperm Hn) as Hw.
  assert (Hsw : StronglySorted before (without (take n out) (cq_items q0))) by by apply sorted_filter.
  unfold putBack, unsettled. cbn [ls_items ls_settled]. destruct (drop n out) as [|c rest] eqn:Er.
  - split; [|done]. cbn [cq_items upd]. apply sorted_unique; [by apply sorted_filter|done|by rewrite Hw].
  - split; [|by cbn; rewrite drop_all]. cbn -[merge_sort]. apply sorted_unique; [|done|by rewrite Hw, merge_sort_Permutation].
    apply merge_sorted. rewrite Hperm, fmap_app in Hn. by apply list.NoDup_app in Hn as (_ & _ & Hn).
Qed.

(** ** Properties *)

(** Whatever calls reach the queue, in any order, no message that it accepted is lost or
    doubled: the accepted messages are the ones that wait, the ones that a Run holds under a
    lease, and the ones that a Run settled or that were drained.  The ones that wait, and
    those of each lease, stand in the order of acceptance. *)
Theorem queue_loses_nothing steer followUp notice y :
  queue_runs steer followUp notice y ->
  qy_accepted y ≡ₚ cq_items (qy_queue y) ++ leased y ++ qy_gone y /\
  NoDup (ct_seq <$> qy_accepted y) /\
  StronglySorted before (cq_items (qy_queue y)) /\
  Forall (fun l => StronglySorted before (ls_items l)) (qy_leases y).
Proof.
  intros [Hi Hl He Ha _]%runs_inv. split_and!; [done|by apply sorted_nodup|done|].
  revert Hl. apply Forall_impl. by intros l [].
Qed.

(** A Run that takes messages, settles the first [n] of them and puts the rest back
    leaves in the queue exactly the messages that it did not settle, each in the place that
    its acceptance gave it, also when messages of another kind waited between them; and
    nothing is left under the lease. *)
Theorem put_back_in_place steer followUp notice y settling n :
  queue_runs steer followUp notice y ->
  let (q, l) := take_messages settling (qy_queue y) in
  let (q', l') := putBack (Nat.iter n settle l) q in
  cq_items q' = without (take n (ls_items l)) (cq_items (qy_queue y)) /\ unsettled l' = [].
Proof. intros Hr%runs_inv. apply put_back_lease, Hr. Qed.

(** ** Witnesses *)

Definition steer_of (text : string) : control :=
  MkControl 0 (UserMessage text) MessageSourceSteer kindSteer 0.
Definition notice_of (text : string) : control :=
  MkControl 0 (UserMessage text) MessageSourceNotice kindNotice 0.
Definition followUp_of (text : string) : control :=
  MkControl 0 (UserMessage text) MessageSourceFollowUp kindFollowUp 0.

(** A Steer, a FollowUp and a second Steer wait; the boundary of a turn takes the Steers. *)
Definition three_waiting : controlQueue :=
  fst (add (steer_of "b") (fst (add (followUp_of "f") (fst (add (steer_of "a") (newControlQueue 4 4 4)))))).

Definition three_accepted : list control :=
  [(steer_of "a") <| ct_seq := 1%N |>; (followUp_of "f") <| ct_seq := 2%N |>; (steer_of "b") <| ct_seq := 3%N |>].

Lemma runs_add steer followUp notice q leases accepted gone c q' :
  queue_runs steer followUp notice (MkQueueSystem q leases accepted gone) ->
  (cq_seq q + 1 < two64)%N -> add c q = (q', true) ->
  queue_runs steer followUp notice (MkQueueSystem q' leases (accepted ++ [stamped c q]) gone).
Proof. intros Hr Hs Ha. eapply queue_moves; [exact Hr|]. exact (does_add (MkQueueSystem q leases accepted gone) c q' Hs Ha). Qed.

Lemma three_waiting_runs : queue_runs 4 4 4 (MkQueueSystem three_waiting [] three_accepted []).
Proof.
  apply (runs_add _ _ _ (fst (add (followUp_of "f") (fst (add (steer_of "a") (newControlQueue 4 4 4)))))
    [] [(steer_of "a") <| ct_seq := 1%N |>; (followUp_of "f") <| ct_seq := 2%N |>] [] (steer_of "b")); [|done..].
  apply (runs_add _ _ _ (fst (add (steer_of "a") (newControlQueue 4 4 4)))
    [] [(steer_of "a") <| ct_seq := 1%N |>] [] (followUp_of "f")); [|done..].
  by apply (runs_add _ _ _ (newControlQueue 4 4 4) [] [] [] (steer_of "a")); [apply queue_starts|..].
Qed.

Lemma queue_loses_nothing_witness :
  three_accepted ≡ₚ cq_items three_waiting ++ leased (MkQueueSystem three_waiting [] three_accepted []) ++ [].
Proof. apply (queue_loses_nothing 4 4 4 _ three_waiting_runs). Defined.

(** The first Steer is settled and the second put back: it waits behind the FollowUp again. *)
Lemma put_back_in_place_witness :
  let (q, l) := take_messages false three_waiting in
  ls_items l = [(steer_of "a") <| ct_seq := 1%N |>; (steer_of "b") <| ct_seq := 3%N |>] /\
  let (q', l') := putBack (Nat.iter 1 settle l) q in
  cq_items q' = [(followUp_of "f") <| ct_seq := 2%N |>; (steer_of "b") <| ct_seq := 3%N |>].
Proof.
  split; [reflexivity|]. pose proof (put_back_in_place 4 4 4 _ false 1 three_waiting_runs) as H.
  revert H. cbn -[without putBack take_messages]. destruct (take_messages false three_waiting) as [q l] eqn:E.
  injection E as <- <-. cbn -[without]. intros [H _]. exact H.
Defined.
