(* ===== verification/SessionLocks.v ===== *)
(** * The lock of each Session

    [host/locks.go]: the Runs of one Session in a process go one at a time.  The table
    holds a pointer to a lock object per busy Session, a waiter keeps its own pointer to
    the object across critical sections, and a released lock passes to the first waiter
    by closing its channel; objects and channels are therefore kept in a heap of their own.
    A step is one critical section of [sessionLocks.mu]. *)

From S2P Require Import Prelude.
Local Open Scope string_scope.
Local Open Scope list_scope.

(** ** Data *)

Record sessionLock := MkSessionLock { lk_held : bool; lk_waiters : list nat }.
#[export] Instance eta_sessionLock : Eta sessionLock := fun r => MkSessionLock (lk_held r) (lk_waiters r).

(** The table, the objects that pointers name, the channels that are closed, and the next
    pointer or channel that is free. *)
Record sessionLocks := MkSessionLocks {
  sl_locks : gmap string nat;
  sl_heap : gmap nat sessionLock;
  sl_closed : gset nat;
  sl_next : nat;
}.
#[export] Instance eta_sessionLocks : Eta sessionLocks := fun r =>
  MkSessionLocks (sl_locks r) (sl_heap r) (sl_closed r) (sl_next r).

Definition newSessionLocks : sessionLocks := MkSessionLocks ∅ ∅ ∅ 0.

(** How the first critical section of [acquire] ends: with the lock, with [ErrBusy], or
    with a channel to wait on and the object it stands in. *)
Inductive acquired : Type :=
| Acquired
| Busy
| Queued (lock ready : nat).

(** ** Operations *)

(** [lock := l.locks[id]], made when it is nil. *)
Definition lock_of (id : string) (l : sessionLocks) : sessionLocks * nat * sessionLock :=
  match sl_locks l !! id with
  | Some p => (l, p, default (MkSessionLock false []) (sl_heap l !! p))
  | None =>
    let p := sl_next l in
    let lock := MkSessionLock false [] in
    (l <| sl_locks := <[id := p]> (sl_locks l) |> <| sl_heap := <[p := lock]> (sl_heap l) |> <| sl_next := S p |>, p, lock)
  end.

Definition set_lock (p : nat) (lock : sessionLock) (l : sessionLocks) : sessionLocks :=
  l <| sl_heap := <[p := lock]> (sl_heap l) |>.

Definition free_now (lock : sessionLock) : bool :=
  negb (lk_held lock) && match lk_waiters lock with [] => true | _ => false end.

(** [acquire], up to its [select]. *)
Definition acquire (id : string) (wait : bool) (l : sessionLocks) : sessionLocks * acquired :=
  let '(l, p, lock) := lock_of id l in
  if free_now lock then (set_lock p (lock <| lk_held := true |>) l, Acquired)
  else if negb wait then (l, Busy)
  else
    let ready := sl_next l in
    (set_lock p (lock <| lk_waiters := lk_waiters lock ++ [ready] |>) (l <| sl_next := S ready |>), Queued p ready).

Definition release (id : string) (l : sessionLocks) : sessionLocks :=
  match sl_locks l !! id with
  | None => l
  | Some p =>
    match sl_heap l !! p with
    | None => l
    | Some lock =>
      if negb (lk_held lock) then l
      else match lk_waiters lock with
           | next :: rest =>
             set_lock p (lock <| lk_waiters := rest |>) l <| sl_closed := {[next]} ∪ sl_closed l |>
           | [] => set_lock p (lock <| lk_held := false |>) l <| sl_locks := delete id (sl_locks l) |>
           end
    end
  end.

(** The loop of a cancelled waiter: its channel out of the queue, when it is there. *)
Fixpoint remove_waiter (ready : nat) (waiters : list nat) : option (list nat) :=
  match waiters with
  | [] => None
  | candidate :: rest =>
    if Nat.eqb candidate ready then Some rest
    else match remove_waiter ready rest with
         | Some rest' => Some (candidate :: rest')
         | None => None
         end
  end.

(** The critical section after [ctx.Done()]; the flag is [removed]. *)
Definition withdraw (lock ready : nat) (l : sessionLocks) : sessionLocks * bool :=
  match sl_heap l !! lock with
  | None => (l, false)
  | Some k =>
    match remove_waiter ready (lk_waiters k) with
    | Some rest => (set_lock lock (k <| lk_waiters := rest |>) l, true)
    | None => (l, false)
    end
  end.

(** ** Callers *)

(** Where a call of [withSessionLock] stands: it runs its function, it is at the [select],
    it was cancelled after the lock was handed to it, or it has returned. *)
Inductive place : Type :=
| Holds
| Waits (lock ready : nat)
| HandsOn
| Left.

(** The callers are numbered in the order they reached the lock. *)
Record lockSystem := MkLockSystem { ly_locks : sessionLocks; ly_callers : list (string * place) }.
#[export] Instance eta_lockSystem : Eta lockSystem := fun r => MkLockSystem (ly_locks r) (ly_callers r).

Definition arrival (a : acquired) : place :=
  match a with
  | Acquired => Holds
  | Busy => Left
  | Queued lock ready => Waits lock ready
  end.

Inductive lock_step (s : lockSystem) : lockSystem -> Prop :=
| step_arrives id wait :
    lock_step s (MkLockSystem (fst (acquire id wait (ly_locks s)))
                              (ly_callers s ++ [(id, arrival (snd (acquire id wait (ly_locks s))))]))
| step_granted i id lock ready :
    ly_callers s !! i = Some (id, Waits lock ready) -> ready ∈ sl_closed (ly_locks s) ->
    lock_step s (s <| ly_callers := <[i := (id, Holds)]> (ly_callers s) |>)
| step_granted_cancelled i id lock ready :
    ly_callers s !! i = Some (id, Waits lock ready) -> ready ∈ sl_closed (ly_locks s) ->
    lock_step s (MkLockSystem (release id (ly_locks s)) (<[i := (id, Left)]> (ly_callers s)))
| step_cancelled i id lock ready :
    ly_callers s !! i = Some (id, Waits lock ready) ->
    lock_step s (MkLockSystem (fst (withdraw lock ready (ly_locks s)))
                   (<[i := (id, if snd (withdraw lock ready (ly_locks s)) then Left else HandsOn)]> (ly_callers s)))
| step_hands_on i id :
    ly_callers s !! i = Some (id, HandsOn) ->
    lock_step s (MkLockSystem (release id (ly_locks s)) (<[i := (id, Left)]> (ly_callers s)))
| step_done i id :
    ly_callers s !! i = Some (id, Holds) ->
    lock_step s (MkLockSystem (release id (ly_locks s)) (<[i := (id, Left)]> (ly_callers s))).

Inductive lock_reach : lockSystem -> Prop :=
| lock_starts : lock_reach (MkLockSystem newSessionLocks [])
| lock_moves s s' : lock_reach s -> lock_step s s' -> lock_reach s'.

(** Caller [i] has the lock of [id], whether it knows it yet or not. *)
Definition owns (s : lockSystem) (id : string) (i : nat) : Prop :=
  exists pl, ly_callers s !! i = Some (id, pl) /\
    match pl with
    | Holds | HandsOn => True
    | Waits _ ready => ready ∈ sl_closed (ly_locks s)
    | Left => False
    end.

(** Caller [i] waits for the lock of [id]. *)
Definition queues_for (s : lockSystem) (id : string) (i : nat) : Prop :=
  exists lock ready, ly_callers s !! i = Some (id, Waits lock ready) /\ ready ∉ sl_closed (ly_locks s).

(** ** The invariant *)

Record lock_inv (s : lockSystem) : Prop := {
  li_lock id p : sl_locks (ly_locks s) !! id = Some p ->
    (p < sl_next (ly_locks s))%nat /\
    exists ws, sl_heap (ly_locks s) !! p = Some (MkSessionLock true ws) /\ StronglySorted lt ws /\
      forall c, c ∈ ws <-> (exists i, ly_callers s !! i = Some (id, Waits p c)) /\ c ∉ sl_closed (ly_locks s);
  li_inj id id' p : sl_locks (ly_locks s) !! id = Some p -> sl_locks (ly_locks s) !! id' = Some p -> id = id';
  li_owner id : is_Some (sl_locks (ly_locks s) !! id) ->
    exists k, owns s id k /\ (forall k', owns s id k' -> k' = k) /\ (forall i, queues_for s id i -> (k < i)%nat);
  li_busy i id pl : ly_callers s !! i = Some (id, pl) -> pl = Left \/ is_Some (sl_locks (ly_locks s) !! id);
  li_waits i id p c : ly_callers s !! i = Some (id, Waits p c) ->
    sl_locks (ly_locks s) !! id = Some p /\ (c < sl_next (ly_locks s))%nat;
  li_mono i j id id' p p' c c' : (i < j)%nat -> ly_callers s !! i = Some (id, Waits p c) ->
    ly_callers s !! j = Some (id', Waits p' c') -> (c < c')%nat;
  li_closed c : c ∈ sl_closed (ly_locks s) -> (c < sl_next (ly_locks s))%nat;
}.

(** ** Lemmas *)

Lemma remove_waiter_in ready ws : ready ∈ ws -> exists rest, remove_waiter ready ws = Some rest.
Proof.
  induction ws as [|c ws IH]; cbn; [by intros ?%not_elem_of_nil|].
  destruct (Nat.eqb_spec c ready) as [->|Hne]; [by eexists|]. intros [->|Hin]%elem_of_cons; [done|].
  destruct (IH Hin) as [rest ->]. by eexists.
Qed.

Lemma remove_waiter_sorted ready ws rest :
  remove_waiter ready ws = Some rest -> StronglySorted lt ws ->
  StronglySorted lt rest /\ (forall c, c ∈ rest <-> c ∈ ws /\ c <> ready) /\ ready ∈ ws.
Proof.
  revert rest. induction ws as [|d ws IH]; intros rest; cbn; [done|].
  intros Hr Hs. inversion Hs as [|? ? Hs' Hd]; subst. rewrite list.Forall_forall in Hd.
  destruct (Nat.eqb_spec d ready) as [->|Hne].
  - injection Hr as <-. split_and!; [done| |by left]. intros c. rewrite elem_of_cons. split.
    + intros Hc. split; [by right|]. specialize (Hd c Hc). lia.
    + by intros [[->|?] ?].
  - destruct (remove_waiter ready ws) as [rest'|]; [|done]. injection Hr as <-.
    destruct (IH _ eq_refl Hs') as (Hs2 & Hin & Hready). split_and!.
    + constructor; [done|]. apply list.Forall_forall. intros c [Hc _]%Hin. by apply Hd.
    + intros c. rewrite !elem_of_cons, Hin. split; [intros [->|[? ?]]; by auto|intros [[->|?] ?]; by auto].
    + by right.
Qed.

Section invariant.
Context (s : lockSystem) (Hinv : lock_inv s).

Lemma waiting_not_owner id i lock ready k :
ly_callers s !! i = Some (id, Waits lock ready) -> ready ∉ sl_closed (ly_locks s) -> owns s id k -> k <> i.
Proof. intros Hi Hn (pl & Hk & Hpl) ->. rewrite Hi in Hk. injection Hk as <-. done. Qed.

(** A caller that the lock was handed to moves on without touching the table. *)
Lemma granted_inv i id lock ready pl' :
ly_callers s !! i = Some (id, Waits lock ready) -> ready ∈ sl_closed (ly_locks s) -> pl' = Holds \/ pl' = HandsOn ->
lock_inv (s <| ly_callers := <[i := (id, pl')]> (ly_callers s) |>).
Proof.
intros Hi Hc Hpl. destruct Hinv. pose proof (lookup_lt_Some _ _ _ Hi) as Hlt.
assert (Hold : forall j id' p c, <[i := (id, pl')]> (ly_callers s) !! j = Some (id', Waits p c) ->
  ly_callers s !! j = Some (id', Waits p c) /\ i <> j).
{ intros j id' p c [(_ & [= _ ->] & _)|[? ?]]%list_lookup_insert_Some; [by destruct Hpl|done]. }
assert (Hown : forall id' k, owns (s <| ly_callers := <[i := (id, pl')]> (ly_callers s) |>) id' k <-> owns s id' k).
{ intros id' k. unfold owns. cbn. destruct (decide (i = k)) as [<-|Hne].
  - rewrite list_lookup_insert by done. rewrite decide_True by done. split.
    + intros (pl & [= <- <-] & _). by exists (Waits lock ready).
    + intros (pl & Hk & _). rewrite Hi in Hk. injection Hk as <- <-. exists pl'. by destruct Hpl as [->| ->].
  - by rewrite list_lookup_insert_ne. }
split; cbn; try done.
- intros id' p Hp. destruct (li_lock0 _ _ Hp) as (? & ws & ? & ? & Hws). split; [done|]. exists ws. split_and!; [done..|].
  intros c. rewrite Hws. split; intros [[j Hj] Hn]; (split; [|done]); exists j; [|by apply Hold].
  rewrite list_lookup_insert_ne; [done|]. intros ->. rewrite Hi in Hj. injection Hj as _ _ <-. done.
- intros id' H. destruct (li_owner0 _ H) as (k & Hk & Hu & Hf). exists k. setoid_rewrite Hown. split_and!; [done..|].
  intros j (p & c & Hj & Hn). apply Hf. exists p, c. split; [|done]. by apply Hold in Hj as [? _].
- intros j id' pl [(_ & [= <- <-] & _)|[_ Hj]]%list_lookup_insert_Some; [|by eapply li_busy0].
  right. destruct (li_waits0 _ _ _ _ Hi). by eexists.
- intros j id' p c [Hj _]%Hold. by eapply li_waits0.
- intros a b id1 id2 p p' c c' Hab [Ha _]%Hold [Hb _]%Hold. by eapply li_mono0.
Qed.

(** A caller leaves the queue. *)
Lemma withdraw_inv i id lock ready :
ly_callers s !! i = Some (id, Waits lock ready) ->
lock_inv (MkLockSystem (fst (withdraw lock ready (ly_locks s)))
  (<[i := (id, if snd (withdraw lock ready (ly_locks s)) then Left else HandsOn)]> (ly_callers s))).
Proof.
intros Hi. pose proof (lookup_lt_Some _ _ _ Hi) as Hlt. destruct (li_waits _ Hinv _ _ _ _ Hi) as [Hp _].
destruct (li_lock _ Hinv _ _ Hp) as (_ & ws & Hheap & Hs & Hws). unfold withdraw. rewrite Hheap. cbn [lk_waiters].
destruct (remove_waiter ready ws) as [rest|] eqn:Er; cbn [fst snd]; cycle 1.
{ apply (granted_inv i id lock ready HandsOn); [done| |by right].
  destruct (decide (ready ∈ sl_closed (ly_locks s))) as [|Hn]; [done|].
  destruct (remove_waiter_in ready ws) as [? ?]; [|congruence]. apply Hws. split; [by eexists|done]. }
destruct (remove_waiter_sorted _ _ _ Er Hs) as (Hs' & Hrest & Hin).
apply Hws in Hin as [_ Hopen]. destruct Hinv.
assert (Hold : forall j id' p c, <[i := (id, Left)]> (ly_callers s) !! j = Some (id', Waits p c) <->
  ly_callers s !! j = Some (id', Waits p c) /\ i <> j).
{ intros j id' p c. rewrite list_lookup_insert_Some. split; [intros [(_ & [=] & _)|[? ?]]; done|intros [? ?]; by right]. }
assert (Hown : forall id' k, owns (MkLockSystem (set_lock lock (MkSessionLock true rest) (ly_locks s))
  (<[i := (id, Left)]> (ly_callers s))) id' k <-> owns s id' k).
{ intros id' k. unfold owns. cbn. destruct (decide (i = k)) as [<-|Hne].
  - rewrite list_lookup_insert by done. rewrite decide_True by done. split.
    + by intros (pl & [= <- <-] & ?).
    + intros (pl & Hk & ?). rewrite Hi in Hk. by injection Hk as <- <-.
  - by rewrite list_lookup_insert_ne. }
split; cbn; try done.
- intros id' p Hp'. destruct (li_lock0 _ _ Hp') as (? & ws' & Hh' & ? & Hws'). split; [done|].
  setoid_rewrite Hold. destruct (decide (lock = p)) as [<-|Hne].
  + rewrite (li_inj0 _ _ _ Hp' Hp) in *. exists rest. rewrite lookup_insert, decide_True by done. split_and!; [done..|].
    intros c. rewrite Hrest, Hws. split.
    * intros [[[j Hj] Hn] Hne]. split; [|done]. exists j. split; [done|]. intros ->. rewrite Hi in Hj. congruence.
    * intros [[j [Hj Hij]] Hn]. split; [split; [by eexists|done]|]. intros ->.
      destruct (decide (i < j)%nat); [pose proof (li_mono0 _ _ _ _ _ _ _ _ l Hi Hj); lia|].
      assert (j < i)%nat as Hji by lia. pose proof (li_mono0 _ _ _ _ _ _ _ _ Hji Hj Hi). lia.
  + exists ws'. rewrite lookup_insert_ne by done. split_and!; [done..|]. intros c. rewrite Hws'.
    split; intros [[j Hj] Hn]; (split; [|done]); exists j; [|apply Hj]. split; [done|]. intros ->. rewrite Hi in Hj. congruence.
- intros id' H. destruct (li_owner0 _ H) as (k & Hk & Hu & Hf). exists k. setoid_rewrite Hown. split_and!; [done..|].
  intros j (p & c & Hj & Hn). apply Hf. exists p, c. split; [|done]. by apply Hold in Hj as [? _].
- intros j id' pl [(_ & [= <- <-] & _)|[_ Hj]]%list_lookup_insert_Some; [by left|by eapply li_busy0].
- intros j id' p c [Hj _]%Hold. by eapply li_waits0.
- intros a b id1 id2 p p' c c' Hab [Ha _]%Hold [Hb _]%Hold. by eapply li_mono0.
Qed.

Lemma channel_unique i j id id' p p' c :
ly_callers s !! i = Some (id, Waits p c) -> ly_callers s !! j = Some (id', Waits p' c) -> i = j.
Proof.
intros Hi Hj. destruct (lt_eq_lt_dec i j) as [[Hij|?]|Hij]; [|done|].
- pose proof (li_mono _ Hinv _ _ _ _ _ _ _ _ Hij Hi Hj). lia.
- pose proof (li_mono _ Hinv _ _ _ _ _ _ _ _ Hij Hj Hi). lia.
Qed.

Section owner.
Context (k : nat) (id : string) (Hk : owns s id k).

Lemma owner_alone :
  exists p ws, sl_locks (ly_locks s) !! id = Some p /\ sl_heap (ly_locks s) !! p = Some (MkSessionLock true ws) /\
    StronglySorted lt ws /\
    (forall c, c ∈ ws <-> (exists i, ly_callers s !! i = Some (id, Waits p c)) /\ c ∉ sl_closed (ly_locks s)) /\
    (forall k', owns s id k' -> k' = k) /\ (forall i, queues_for s id i -> (k < i)%nat).
Proof.
  assert (Hbusy : is_Some (sl_locks (ly_locks s) !! id)).
  { destruct Hk as (pl & Hk' & Hpl). destruct (li_busy _ Hinv _ _ _ Hk') as [->|?]; done. }
  destruct (li_owner _ Hinv _ Hbusy) as (k' & _ & Hu & Hf). assert (k' = k) as -> by (symmetry; by apply Hu).
  destruct Hbusy as [p Hp]. destruct (li_lock _ Hinv _ _ Hp) as (_ & ws & Hheap & Hs & Hws). by exists p, ws.
Qed.

Lemma left_waits j id' p c :
  <[k := (id, Left)]> (ly_callers s) !! j = Some (id', Waits p c) <-> ly_callers s !! j = Some (id', Waits p c) /\ k <> j.
Proof. rewrite list_lookup_insert_Some. split; [intros [(_ & [=] & _)|[? ?]]; done|intros [? ?]; by right]. Qed.

Lemma left_busy j id' pl :
  <[k := (id, Left)]> (ly_callers s) !! j = Some (id', pl) ->
  pl = Left \/ ly_callers s !! j = Some (id', pl) /\ k <> j.
Proof. intros [(_ & [= _ <-] & _)|[? ?]]%list_lookup_insert_Some; [by left|by right]. Qed.

(** Other Sessions do not notice. *)
Lemma other_owner l id' k' :
  sl_closed l = sl_closed (ly_locks s) -> id' <> id ->
  owns (MkLockSystem l (<[k := (id, Left)]> (ly_callers s))) id' k' <-> owns s id' k'.
Proof.
  intros Hc Hne. destruct Hk as (pl & Hk' & _). pose proof (lookup_lt_Some _ _ _ Hk') as Hlt.
  unfold owns. cbn. rewrite Hc. destruct (decide (k = k')) as [<-|Hne'].
  - rewrite list_lookup_insert by done. rewrite decide_True by done. rewrite Hk'. split; by intros (? & [= ? ?] & ?).
  - by rewrite list_lookup_insert_ne.
Qed.

(** No one waits: the lock is freed. *)
Lemma free_inv p :
  sl_locks (ly_locks s) !! id = Some p -> sl_heap (ly_locks s) !! p = Some (MkSessionLock true []) ->
  lock_inv (MkLockSystem (release id (ly_locks s)) (<[k := (id, Left)]> (ly_callers s))).
Proof.
  intros Hp Hheap. destruct owner_alone as (p' & ws & Hp' & Hheap' & _ & Hws & Hu & _). rewrite Hp in Hp'. injection Hp' as <-.
  rewrite Hheap in Hheap'. injection Hheap' as <-.
  assert (Hno : forall j p c, ly_callers s !! j = Some (id, Waits p c) -> j = k).
  { intros j p' c Hj. destruct (decide (c ∈ sl_closed (ly_locks s))) as [Hc|Hc]; [by apply Hu; exists (Waits p' c)|].
    destruct (li_waits _ Hinv _ _ _ _ Hj) as [Hj' _]. rewrite Hp in Hj'. injection Hj' as <-.
    assert (c ∈ []) as []%elem_of_nil. apply Hws. split; [by eexists|done]. }
  pose proof (fun id' k' => other_owner (release id (ly_locks s)) id' k') as Hother.
  unfold release in *. rewrite Hp, Hheap in *. cbn [lk_held lk_waiters negb] in *. specialize (fun id' k' => Hother id' k' eq_refl).
  destruct Hinv. split; cbn.
  - intros id' p' [Hne Hp']%lookup_delete_Some. destruct (li_lock0 _ _ Hp') as (? & ws & ? & ? & Hws').
    split; [done|]. exists ws. rewrite lookup_insert_ne by (intros ->; by apply Hne, (li_inj0 _ _ _ Hp)).
    split_and!; [done..|]. intros c. setoid_rewrite left_waits. rewrite Hws'. split.
    + intros [[j Hj] Hn]. split; [|done]. exists j. split; [done|]. intros ->. destruct Hk as (? & Hk' & _). rewrite Hk' in Hj. by injection Hj.
    + intros [[j [Hj _]] Hn]. split; [by exists j|done].
  - intros id1 id2 p' [_ H1]%lookup_delete_Some [_ H2]%lookup_delete_Some. by eapply li_inj0.
  - intros id' [p' [Hne Hp']%lookup_delete_Some]. destruct (li_owner0 id') as (k' & Hk' & Hu' & Hf'); [by eexists|].
    exists k'. setoid_rewrite Hother; [|done..]. split_and!; [done..|].
    intros j (p2 & c & Hj & Hn). apply Hf'. exists p2, c. split; [|done]. by apply left_waits in Hj as [? _].
  - intros j id' pl [->|[Hj Hne]]%left_busy; [by left|]. destruct (li_busy0 _ _ _ Hj) as [->|[p' Hp']]; [by left|].
    destruct (decide (id' = id)) as [->|Hne']; [|right; exists p'; by apply lookup_delete_Some].
    destruct pl as [|p2 c| |]; [| | |by left]; destruct Hne; symmetry; [|by eapply Hno|]; apply Hu; by eexists.
  - intros j id' p' c [Hj Hne]%left_waits. destruct (li_waits0 _ _ _ _ Hj). split; [|done]. apply lookup_delete_Some.
    split; [|done]. intros <-. by destruct Hne; symmetry; eapply Hno.
  - intros a b id1 id2 p1 p2 c c' Hab [Ha _]%left_waits [Hb _]%left_waits. by eapply li_mono0.
  - done.
Qed.

(** The first waiter gets it. *)
Lemma pass_inv p next rest :
  sl_locks (ly_locks s) !! id = Some p -> sl_heap (ly_locks s) !! p = Some (MkSessionLock true (next :: rest)) ->
  lock_inv (MkLockSystem (release id (ly_locks s)) (<[k := (id, Left)]> (ly_callers s))).
Proof.
  intros Hp Hheap. destruct owner_alone as (p' & ws & Hp' & Hheap' & Hs & Hws & Hu & Hf). rewrite Hp in Hp'. injection Hp' as <-.
  rewrite Hheap in Hheap'. injection Hheap' as <-. inversion Hs as [|? ? Hs' Hnext]; subst. rewrite list.Forall_forall in Hnext.
  assert (Hin : next ∈ next :: rest) by by left. apply Hws in Hin as [[i Hi] Hopen].
  assert (Hki : (k < i)%nat) by (apply Hf; by exists p, next).
  pose proof (fun j id' p' => channel_unique i j id id' p p' next Hi) as Hwho.
  unfold release. rewrite Hp, Hheap. cbn [lk_held lk_waiters negb].
  set (l' := set_lock p _ _ <| sl_closed := _ |>). set (callers' := <[k := _]> _).
  assert (Hown : forall id' k', owns (MkLockSystem l' callers') id' k' <-> k <> k' /\ (owns s id' k' \/ id' = id /\ k' = i)).
  { intros id' k'. unfold owns. cbn. unfold callers'. setoid_rewrite list_lookup_insert_Some. split.
    - intros (pl & [(_ & [= <- <-] & _)|[Hne Hk']] & Hpl); [done|]. split; [done|].
      destruct pl as [|p' c| |]; [left; by eexists| |left; by eexists|done].
      apply elem_of_union in Hpl as [->%elem_of_singleton|Hc]; [right|left; by eexists].
      pose proof (Hwho _ _ _ Hk') as <-. rewrite Hi in Hk'. by injection Hk'.
    - intros [Hne [(pl & Hk' & Hpl)|[-> ->]]].
      + exists pl. split; [by right|]. destruct pl; [done| |done..]. by apply elem_of_union_r.
      + exists (Waits p next). split; [by right|]. by apply elem_of_union_l, elem_of_singleton. }
  destruct Hinv. split; cbn.
  - intros id' p' Hp'. destruct (li_lock0 _ _ Hp') as (? & ws & Hh & Hs2 & Hws'). split; [done|].
    unfold callers'. setoid_rewrite left_waits. destruct (decide (p = p')) as [<-|Hne].
    + exists rest. rewrite lookup_insert, decide_True by done. split_and!; [done..|]. rewrite (li_inj0 _ _ _ Hp' Hp). intros c. split.
      * intros Hc. pose proof (Hnext c Hc) as Hlt. assert (Hc' : c ∈ next :: rest) by by right.
        apply Hws in Hc' as [[j Hj] Hn]. split; [|intros [->%elem_of_singleton|?]%elem_of_union; [lia|done]].
        exists j. split; [done|]. apply Nat.lt_neq, Hf. by exists p, c.
      * intros [[j [Hj Hne]] Hn]. assert (Hc : c ∈ next :: rest).
        { apply Hws. split; [by eexists|]. intros ?. by apply Hn, elem_of_union_r. }
        apply elem_of_cons in Hc as [->|?]; [|done]. destruct Hn. by apply elem_of_union_l, elem_of_singleton.
    + exists ws. rewrite lookup_insert_ne by done. split_and!; [done..|]. intros c. rewrite Hws'.
      assert (Hsess : id' <> id) by (intros ->; congruence). split.
      * intros [[j Hj] Hn]. split.
        -- exists j. split; [done|]. intros <-. destruct Hk as (? & Hk' & _). congruence.
        -- intros [->%elem_of_singleton|?]%elem_of_union; [|done]. pose proof (Hwho _ _ _ Hj) as <-. congruence.
      * intros [[j [Hj _]] Hn]. split; [by exists j|]. intros ?. by apply Hn, elem_of_union_r.
  - done.
  - intros id' Hb. destruct (decide (id' = id)) as [->|Hne].
    + exists i. rewrite Hown. split_and!; [lia|by right| |].
      * intros k' [Hne [?%Hu|[_ ?]]]%Hown; [by subst|done].
      * intros j (p' & c & [Hj Hne]%left_waits & Hn). cbn in Hn. assert (Hc : c ∈ next :: rest).
        { apply Hws. destruct (li_waits0 _ _ _ _ Hj) as [Hj' _]. rewrite Hp in Hj'. injection Hj' as <-.
          split; [by eexists|]. intros ?. by apply Hn, elem_of_union_r. }
        apply elem_of_cons in Hc as [->|Hc]; [by destruct Hn; apply elem_of_union_l, elem_of_singleton|].
        specialize (Hnext _ Hc). destruct (decide (i < j)%nat); [done|]. destruct (decide (i = j)) as [<-|]; [rewrite Hi in Hj; injection Hj as <-; lia|].
        assert (Hji : (j < i)%nat) by lia. pose proof (li_mono0 _ _ _ _ _ _ _ _ Hji Hj Hi). lia.
    + destruct (li_owner0 _ Hb) as (k' & Hk' & Hu' & Hf'). exists k'. rewrite Hown. split_and!.
      * intros <-. destruct Hk as (? & H1 & _), Hk' as (? & H2 & _). congruence.
      * by left.
      * intros k2 [_ [?|[? _]]]%Hown; [by apply Hu'|done].
      * intros j (p' & c & [Hj _]%left_waits & Hn). apply Hf'. exists p', c. split; [done|]. intros ?. by apply Hn, elem_of_union_r.
  - intros j id' pl [->|[Hj _]]%left_busy; [by left|by eapply li_busy0].
  - intros j id' p' c [Hj _]%left_waits. by eapply li_waits0.
  - intros a b id1 id2 p1 p2 c c' Hab [Ha _]%left_waits [Hb _]%left_waits. by eapply li_mono0.
  - intros c [->%elem_of_singleton|Hc]%elem_of_union; [by eapply li_waits0|by apply li_closed0].
Qed.
End owner.

Lemma release_inv k id :
owns s id k -> lock_inv (MkLockSystem (release id (ly_locks s)) (<[k := (id, Left)]> (ly_callers s))).
Proof.
intros Hk. destruct (owner_alone k id Hk) as (p & [|next rest] & Hp & Hheap & _); [by eapply free_inv|by eapply pass_inv].
Qed.

(** A caller arrives while the lock is held: it is refused, or it queues. *)
Lemma refused_inv id : lock_inv (MkLockSystem (ly_locks s) (ly_callers s ++ [(id, Left)])).
Proof.
assert (Hold : forall j id' pl, (ly_callers s ++ [(id, Left)]) !! j = Some (id', pl) -> pl = Left \/ ly_callers s !! j = Some (id', pl)).
{ intros j id' pl [[_ ?]|[_ [= _ <-]]]%lookup_snoc_Some; [by right|by left]. }
assert (Hkeep : forall j x, ly_callers s !! j = Some x -> (ly_callers s ++ [(id, Left)]) !! j = Some x).
{ intros j x Hj. by apply lookup_app_l_Some. }
assert (Hown : forall id' k, owns (MkLockSystem (ly_locks s) (ly_callers s ++ [(id, Left)])) id' k <-> owns s id' k).
{ intros id' k. split; intros (pl & Hk & Hpl); exists pl; (split; [|done]); [|by apply Hkeep].
  by destruct (Hold _ _ _ Hk) as [->|?]. }
destruct Hinv. split; cbn; try done.
- intros id' p Hp. destruct (li_lock0 _ _ Hp) as (? & ws & ? & ? & Hws). split; [done|]. exists ws. split_and!; [done..|].
  intros c. rewrite Hws. split; intros [[j Hj] Hn]; (split; [|done]); exists j; [by apply Hkeep|]. by destruct (Hold _ _ _ Hj).
- intros id' H. destruct (li_owner0 _ H) as (k & Hk & Hu & Hf). exists k. setoid_rewrite Hown. split_and!; [done..|].
  intros j (p & c & Hj & Hn). apply Hf. exists p, c. split; [|done]. by destruct (Hold _ _ _ Hj).
- intros j id' pl [->|?]%Hold; [by left|by eapply li_busy0].
- intros j id' p c [[=]|?]%Hold. by eapply li_waits0.
- intros a b id1 id2 p p' c c' Hab [[=]|?]%Hold [[=]|?]%Hold. by eapply li_mono0.
Qed.

Lemma queued_inv id p ws :
let c := sl_next (ly_locks s) in
sl_locks (ly_locks s) !! id = Some p -> sl_heap (ly_locks s) !! p = Some (MkSessionLock true ws) ->
lock_inv (MkLockSystem (set_lock p (MkSessionLock true (ws ++ [c])) ((ly_locks s) <| sl_next := S c |>))
  (ly_callers s ++ [(id, Waits p c)])).
Proof.
intros c Hp Hheap. set (s' := MkLockSystem _ _).
assert (Hold : forall j id' pl, ly_callers s' !! j = Some (id', pl) ->
  ly_callers s !! j = Some (id', pl) \/ j = length (ly_callers s) /\ id' = id /\ pl = Waits p c).
{ intros j id' pl [[_ ?]|[? [= <- <-]]]%lookup_snoc_Some; [by left|by right]. }
assert (Hkeep : forall j x, ly_callers s !! j = Some x -> ly_callers s' !! j = Some x).
{ intros j x Hj. by apply lookup_app_l_Some. }
assert (Hnew : ly_callers s' !! length (ly_callers s) = Some (id, Waits p c)) by by apply list_lookup_middle.
destruct Hinv. assert (Hopen : c ∉ sl_closed (ly_locks s)) by (intros ?%li_closed0; lia).
assert (Hown : forall id' k, owns s' id' k <-> owns s id' k).
{ intros id' k. split; intros (pl & Hk & Hpl); exists pl; (split; [|done]); [|by apply Hkeep].
  by destruct (Hold _ _ _ Hk) as [?|(_ & -> & ->)]. }
split; cbn.
- intros id' p' Hp'. destruct (li_lock0 _ _ Hp') as (Hlt & ws' & Hh & Hs & Hws). split; [lia|]. destruct (decide (p = p')) as [<-|Hne].
  + rewrite Hheap in Hh. injection Hh as <-. rewrite (li_inj0 _ _ _ Hp' Hp) in *. exists (ws ++ [c]).
    rewrite lookup_insert, decide_True by done. split_and!; [done| |].
    * apply StronglySorted_app_2; [|done|by repeat constructor].
      intros a b [[j Hj] _]%Hws ->%list_elem_of_singleton. by eapply li_waits0.
    * intros d. rewrite elem_of_app, list_elem_of_singleton, Hws. split.
      -- intros [[[j Hj] Hn]| ->]; (split; [|done]); [exists j; by apply Hkeep|by eexists].
      -- intros [[j Hj] Hn]. destruct (Hold _ _ _ Hj) as [?|(_ & _ & [= ->])]; [left|by right]. split; [by eexists|done].
  + exists ws'. rewrite lookup_insert_ne by done. split_and!; [done..|]. intros d. rewrite Hws.
    split; intros [[j Hj] Hn]; (split; [|done]); exists j; [by apply Hkeep|]. destruct (Hold _ _ _ Hj) as [?|(_ & -> & [=])]; done.
- done.
- intros id' H. destruct (li_owner0 _ H) as (k & Hk & Hu & Hf). exists k. setoid_rewrite Hown. split_and!; [done..|].
  intros j (p' & d & Hj & Hn). destruct (Hold _ _ _ Hj) as [?|(-> & _ & _)]; [apply Hf; by exists p', d|].
  destruct Hk as (pl & Hk & _). by eapply lookup_lt_Some.
- intros j id' pl [?|(_ & -> & _)]%Hold; [by eapply li_busy0|right; by eexists].
- intros j id' p' d [?|(_ & -> & [= -> ->])]%Hold; [|split; [done|subst c; lia]].
  destruct (li_waits0 _ _ _ _ H). split; [done|]. subst c. lia.
- intros a b id1 id2 p1 p2 d d' Hab [Ha|(-> & _ & [= -> ->])]%Hold [Hb|(-> & _ & [= -> ->])]%Hold; [by eapply li_mono0| | |lia].
  + by eapply li_waits0.
  + apply lookup_lt_Some in Hb. lia.
- intros d Hd. specialize (li_closed0 _ Hd). subst c. lia.
Qed.

(** A caller finds the lock free. *)
Lemma fresh_inv id :
let p := sl_next (ly_locks s) in
sl_locks (ly_locks s) !! id = None ->
lock_inv (MkLockSystem (MkSessionLocks (<[id := p]> (sl_locks (ly_locks s)))
  (<[p := MkSessionLock true []]> (sl_heap (ly_locks s))) (sl_closed (ly_locks s)) (S p)) (ly_callers s ++ [(id, Holds)])).
Proof.
intros p Hnone. set (s' := MkLockSystem _ _).
assert (Hold : forall j id' pl, ly_callers s' !! j = Some (id', pl) ->
  ly_callers s !! j = Some (id', pl) \/ j = length (ly_callers s) /\ id' = id /\ pl = Holds).
{ intros j id' pl [[_ ?]|[? [= <- <-]]]%lookup_snoc_Some; [by left|by right]. }
assert (Hkeep : forall j x, ly_callers s !! j = Some x -> ly_callers s' !! j = Some x).
{ intros j x Hj. by apply lookup_app_l_Some. }
assert (Hnew : ly_callers s' !! length (ly_callers s) = Some (id, Holds)) by by apply list_lookup_middle.
destruct Hinv. assert (Hgone : forall i pl, ly_callers s !! i = Some (id, pl) -> pl = Left).
{ intros i pl Hi. destruct (li_busy0 _ _ _ Hi) as [?|[? ?]]; [done|congruence]. }
assert (Hown : forall id' k, id' <> id -> owns s' id' k <-> owns s id' k).
{ intros id' k Hne. split; intros (pl & Hk & Hpl); exists pl; (split; [|done]); [|by apply Hkeep].
  by destruct (Hold _ _ _ Hk) as [?|(_ & -> & ->)]. }
split; cbn.
- intros id' p' [(<- & <-)|(Hne & Hp')]%lookup_insert_Some.
  + split; [subst p; lia|]. exists []. rewrite lookup_insert, decide_True by done. split_and!; [done|constructor|].
    intros c. split; [by intros ?%not_elem_of_nil|]. intros [[j Hj] _]. destruct (Hold _ _ _ Hj) as [?%Hgone|(_ & _ & [=])]. done.
  + destruct (li_lock0 _ _ Hp') as (Hlt & ws & Hh & Hs & Hws). split; [subst p; lia|]. exists ws.
    rewrite lookup_insert_ne by (subst p; lia). split_and!; [done..|]. intros c. rewrite Hws.
    split; intros [[j Hj] Hn]; (split; [|done]); exists j; [by apply Hkeep|]. by destruct (Hold _ _ _ Hj) as [?|(_ & _ & [=])].
- intros id1 id2 p' [(<- & <-)|(Hne & H1)]%lookup_insert_Some [(E & E')|(Hne' & H2)]%lookup_insert_Some.
  + done.
  + apply li_lock0 in H2 as [? _]. subst p. lia.
  + apply li_lock0 in H1 as [? _]. subst p p'. lia.
  + by eapply li_inj0.
- intros id' H. destruct (decide (id' = id)) as [->|Hne].
  + exists (length (ly_callers s)). split_and!; [by exists Holds| |].
    * intros k (pl & Hk & Hpl). by destruct (Hold _ _ _ Hk) as [->%Hgone|(-> & _)].
    * intros j (p' & c & Hj & _). destruct (Hold _ _ _ Hj) as [?%Hgone|(_ & _ & [=])]. done.
  + rewrite lookup_insert_ne in H by done. destruct (li_owner0 _ H) as (k & Hk & Hu & Hf). exists k.
    rewrite Hown by done. split_and!; [done|intros k'; rewrite Hown by done; apply Hu|].
    intros j (p' & c & Hj & Hn). apply Hf. exists p', c. split; [|done]. by destruct (Hold _ _ _ Hj) as [?|(_ & _ & [=])].
- intros j id' pl [Hj|(_ & -> & _)]%Hold; [|right; rewrite lookup_insert, decide_True by done; by eexists].
  destruct (li_busy0 _ _ _ Hj) as [?|[p' Hp']]; [by left|]. right. destruct (decide (id = id')) as [<-|Hne]; [by rewrite Hnone in Hp'|].
  rewrite lookup_insert_ne by done. by eexists.
- intros j id' p' c [Hj|(_ & _ & [=])]%Hold. destruct (li_waits0 _ _ _ _ Hj) as [Hp' ?]. split; [|subst p; lia].
  rewrite lookup_insert_ne; [done|]. intros <-. congruence.
- intros a b id1 id2 p1 p2 d d' Hab [Ha|(_ & _ & [=])]%Hold [Hb|(_ & _ & [=])]%Hold. by eapply li_mono0.
- intros c Hc. specialize (li_closed0 _ Hc). subst p. lia.
Qed.
End invariant.

Lemma arrives_inv s id wait :
lock_inv s ->
lock_inv (MkLockSystem (fst (acquire id wait (ly_locks s)))
                       (ly_callers s ++ [(id, arrival (snd (acquire id wait (ly_locks s))))])).
Proof.
intros Hinv. unfold acquire, lock_of. destruct (sl_locks (ly_locks s) !! id) as [p|] eqn:Hp.
- destruct (li_lock _ Hinv _ _ Hp) as (_ & ws & Hheap & _). rewrite Hheap. cbn [default from_option free_now lk_held negb andb].
  destruct wait; cbn [negb fst snd arrival]; [by apply queued_inv|by apply refused_inv].
- cbn -[lookup]. unfold set_lock. cbn. rewrite insert_insert, decide_True by done. by apply fresh_inv.
Qed.

Lemma lock_step_inv s s' : lock_inv s -> lock_step s s' -> lock_inv s'.
Proof.
intros Hinv Hstep.
destruct Hstep as [id wait|i id lock ready Hi Hc|i id lock ready Hi Hc|i id lock ready Hi|i id Hi|i id Hi].
- by apply arrives_inv.
- by eapply granted_inv; [..|left].
- apply release_inv; [done|]. by exists (Waits lock ready).
- by apply withdraw_inv.
- apply release_inv; [done|]. by exists HandsOn.
- apply release_inv; [done|]. by exists Holds.
Qed.

Lemma lock_start_inv : lock_inv (MkLockSystem newSessionLocks []).
Proof.
split; cbn; try done.
- intros id [p Hp]. by rewrite lookup_empty in Hp.
Qed.

Lemma lock_reach_inv s : lock_reach s -> lock_inv s.
Proof. induction 1; [apply lock_start_inv|by eapply lock_step_inv]. Qed.

(** ** The owner can always let go *)

(** Caller [k] returns and gives the lock up. *)
Definition after_return (id : string) (k : nat) (s : lockSystem) : lockSystem :=
MkLockSystem (release id (ly_locks s)) (<[k := (id, Left)]> (ly_callers s)).

Inductive owners_return (id : string) (s : lockSystem) : lockSystem -> Prop :=
| returned_none : owners_return id s s
| returned_one k s' :
  owns s id k -> lock_step s (after_return id k s) -> owners_return id (after_return id k s) s' -> owners_return id s s'.

Lemma owner_leaves s id k :
owns s id k -> lock_step s (after_return id k s).
Proof.
intros ([|lock ready| |] & Hk & Hpl); [by apply step_done|by eapply step_granted_cancelled|by apply step_hands_on|done].
Qed.

(** Who queued stays in the queue, or has the lock, when the owner leaves. *)
Lemma still_queued s id k i :
lock_inv s -> owns s id k -> queues_for s id i ->
queues_for (after_return id k s) id i \/ owns (after_return id k s) id i.
Proof.
intros Hinv Hk (p & c & Hi & Hn). set (s' := after_return id k s). pose proof (waiting_not_owner _ _ _ _ _ _ Hi Hn Hk) as Hne.
assert (Hi' : ly_callers s' !! i = Some (id, Waits p c)) by (by apply left_waits).
destruct (decide (c ∈ sl_closed (ly_locks s'))); [right; by exists (Waits p c)|left; by exists p, c].
Qed.

(** A waiter stands behind a caller that has the lock. *)
Lemma waits_behind s id i : lock_inv s -> queues_for s id i -> exists k, owns s id k /\ (k < i)%nat.
Proof.
intros Hinv (p & c & Hi & Hn). destruct (li_waits _ Hinv _ _ _ _ Hi) as [Hp _].
destruct (li_owner _ Hinv id) as (k & Hk & _ & Hf); [by eexists|]. exists k. split; [done|]. apply Hf. by exists p, c.
Qed.

(** The lock passes to a later caller. *)
Lemma next_owner s id k k' :
lock_inv s -> owns s id k ->
owns (after_return id k s) id k' -> (k < k')%nat.
Proof.
intros Hinv Hk (pl & Hk' & Hpl). destruct (owner_alone _ Hinv _ _ Hk) as (_ & _ & _ & _ & _ & _ & Hu & Hf).
destruct (left_busy _ _ _ _ _ _ Hk') as [->|[Hold Hne]]; [done|].
destruct pl as [|p c| |]; [by destruct Hne; symmetry; apply Hu; exists Holds| |by destruct Hne; symmetry; apply Hu; exists HandsOn|done].
destruct (decide (c ∈ sl_closed (ly_locks s))); [by destruct Hne; symmetry; apply Hu; exists (Waits p c)|].
apply Hf. by exists p, c.
Qed.

Lemma lock_arrives_in_turn s id i :
lock_inv s -> queues_for s id i -> exists s', owners_return id s s' /\ owns s' id i /\ ly_callers s' !! i = ly_callers s !! i.
Proof.
intros Hinv Hq. destruct (waits_behind _ _ _ Hinv Hq) as (k & Hk & Hlt). remember (i - k)%nat as d eqn:Hd.
revert s k Hinv Hq Hk Hlt Hd. induction (lt_wf d) as [d _ IH]. intros s k Hinv Hq Hk Hlt ->.
pose proof (owner_leaves s id k Hk) as Hstep. pose proof (lock_step_inv _ _ Hinv Hstep) as Hinv'.
destruct (still_queued s id k i Hinv Hk Hq) as [Hq'|Ho]; set (s1 := after_return id k s) in *.
all: assert (Hsame : ly_callers s1 !! i = ly_callers s !! i) by (apply list_lookup_insert_ne; lia).
- destruct (waits_behind _ _ _ Hinv' Hq') as (k' & Hk' & Hlt'). pose proof (next_owner _ _ _ _ Hinv Hk Hk').
  destruct (IH (i - k')%nat ltac:(lia) s1 k' Hinv' Hq' Hk' Hlt' eq_refl) as (s' & Hs & Ho & Hi).
  exists s'. split_and!; [by eapply returned_one|done|congruence].
- exists s1. split_and!; [by eapply returned_one, returned_none|done|done].
Qed.

(** ** Properties *)

(** C34: However calls arrive, are cancelled and return, at most one caller at a time has the
  lock of a Session, the lock that was handed over to a waiter that has not looked yet
  included; whoever waits, waits behind a caller that has the lock and that arrived
  before; and the table holds an entry only for a Session that some caller has locked. *)
Theorem session_lock_exclusive s id :
lock_reach s ->
(forall i j, owns s id i -> owns s id j -> i = j) /\
(forall i, queues_for s id i -> exists k, owns s id k /\ (k < i)%nat) /\
(is_Some (sl_locks (ly_locks s) !! id) <-> exists k, owns s id k).
Proof.
intros Hinv%lock_reach_inv. split_and!.
- intros i j Hi Hj. destruct (owner_alone _ Hinv _ _ Hi) as (_ & _ & _ & _ & _ & _ & Hu & _). by rewrite (Hu _ Hj).
- intros i. by apply waits_behind.
- split.
  + intros H. destruct (li_owner _ Hinv _ H) as (k & Hk & _). by exists k.
  + intros [k Hk]. destruct (owner_alone _ Hinv _ _ Hk) as (p & _ & Hp & _). by exists p.
Qed.

(** A caller that waits for a Session gets its lock: from every state that calls can lead
  to, whatever was cancelled on the way, the callers in front of it need only return for
  its channel to be closed, and it has to do nothing for that. *)
Theorem session_lock_passes_on s id i :
lock_reach s -> queues_for s id i ->
exists s', owners_return id s s' /\ owns s' id i /\ ly_callers s' !! i = ly_callers s !! i.
Proof. intros Hinv%lock_reach_inv. by apply lock_arrives_in_turn. Qed.

(** ** Witnesses *)

(** Three calls of one Session: the first has the lock, two wait. *)
Definition three_calls : lockSystem :=
MkLockSystem (fst (acquire "s" true (fst (acquire "s" true (fst (acquire "s" true newSessionLocks))))))
  [("s", Holds); ("s", Waits 0 1); ("s", Waits 0 2)].

Lemma three_calls_reach : lock_reach three_calls.
Proof.
apply (lock_moves (MkLockSystem (fst (acquire "s" true (fst (acquire "s" true newSessionLocks)))) [("s", Holds); ("s", Waits 0 1)])).
- apply (lock_moves (MkLockSystem (fst (acquire "s" true newSessionLocks)) [("s", Holds)])).
  + apply (lock_moves (MkLockSystem newSessionLocks [])); [apply lock_starts|]. exact (step_arrives (MkLockSystem newSessionLocks []) "s" true).
  + exact (step_arrives (MkLockSystem (fst (acquire "s" true newSessionLocks)) [("s", Holds)]) "s" true).
- exact (step_arrives (MkLockSystem (fst (acquire "s" true (fst (acquire "s" true newSessionLocks)))) [("s", Holds); ("s", Waits 0 1)]) "s" true).
Qed.

Lemma session_lock_exclusive_witness :
owns three_calls "s" 0 /\ forall j, owns three_calls "s" j -> 0 = j.
Proof.
assert (H0 : owns three_calls "s" 0) by (exists Holds; split; reflexivity).
split; [exact H0|]. intros j. apply (session_lock_exclusive three_calls "s" three_calls_reach), H0.
Defined.

Lemma session_lock_passes_on_witness : exists s', owners_return "s" three_calls s' /\ owns s' "s" 2.
Proof.
destruct (session_lock_passes_on three_calls "s" 2 three_calls_reach) as (s' & H1 & H2 & _).
- exists 0, 2. split; [reflexivity|]. vm_compute. intros H. inversion H.
- exists s'. split; assumption.
Defined.
