(* ===== verification/Cut.v ===== *)
(** * Where a compaction cuts

    [record/compact_cut.go], [record/compact_policy.go] and [record/compact_parts.go]: the
    boundaries of Turns and Runs in a stretch of Messages, the numbers of a CompactPolicy,
    and the default Trigger, Cutter and Picker. *)

From S2P Require Import Prelude GoStrings Errors Types Events Request.
Local Open Scope string_scope.
Local Open Scope list_scope.

(** ** Data *)

(** A [*time.Location], as the layouts that the program prints times in: [time.RFC3339],
    ["15:04"] and ["2006-01-02 15:04"]. *)
Record Location := MkLocation {
  in_rfc3339 : gotime -> string;
  in_clock : gotime -> string;
  in_minutes : gotime -> string;
}.

Record CompactPolicy := MkPolicy {
  po_CeilingTokens : Z;
  po_WindowTokens : Z;
  po_DropReasoning : bool;
  po_SegmentBudgetTokens : Z;
  po_Location : option Location;
}.
#[export] Instance eta_CompactPolicy : Eta CompactPolicy := fun r =>
  MkPolicy (po_CeilingTokens r) (po_WindowTokens r) (po_DropReasoning r) (po_SegmentBudgetTokens r) (po_Location r).

Record TurnState := MkTurnState {
  ts_Run : RunID;
  ts_Turn : TurnNumber;
  ts_Overflow : bool;
  ts_Tokens : Z;
  ts_CeilingTokens : Z;
  ts_SegmentTokens : Z;
  ts_BudgetTokens : Z;
}.
#[export] Instance eta_TurnState : Eta TurnState := fun r =>
  MkTurnState (ts_Run r) (ts_Turn r) (ts_Overflow r) (ts_Tokens r) (ts_CeilingTokens r) (ts_SegmentTokens r) (ts_BudgetTokens r).

Record CutInfo := MkCutInfo { ci_WindowTokens : Z; ci_CeilingTokens : Z; ci_CurrentRun : RunID }.

Record TailBudget := MkTailBudget { tb_KeepMessages : Z; tb_TailTokens : Z }.

(** ** The numbers *)

Definition defaultReserveTokens : Z := 16000.
Definition defaultSegmentsBudgetTokens : Z := 32000.
Definition defaultTailTokens : Z := 20000.

Definition orDefault (value fallback : Z) : Z := if (value <=? 0)%Z then fallback else value.

Definition defaultCeiling (window : Z) : Z :=
  if (window <=? 0)%Z then 0 else Z.max (window - Z.max (window `quot` 10) defaultReserveTokens) 0.

Definition EffectiveCeilingTokens (p : CompactPolicy) : Z :=
  if (0 <? po_CeilingTokens p)%Z then po_CeilingTokens p
  else if (po_CeilingTokens p <? 0)%Z then 0%Z
  else defaultCeiling (po_WindowTokens p).

Definition segmentsBudget (ceiling : Z) : Z :=
  if (0 <? ceiling)%Z then Z.max (ceiling `quot` 2) 1 else defaultSegmentsBudgetTokens.

Definition effectiveBudget (p : CompactPolicy) : Z :=
  if (0 <? po_SegmentBudgetTokens p)%Z then po_SegmentBudgetTokens p
  else segmentsBudget (EffectiveCeilingTokens p).

Definition overriddenBy (p o : CompactPolicy) : CompactPolicy :=
  MkPolicy
    (if (po_CeilingTokens o =? 0)%Z then po_CeilingTokens p else po_CeilingTokens o)
    (if (0 <? po_WindowTokens o)%Z then po_WindowTokens o else po_WindowTokens p)
    (po_DropReasoning p || po_DropReasoning o)
    (if (0 <? po_SegmentBudgetTokens o)%Z then po_SegmentBudgetTokens o else po_SegmentBudgetTokens p)
    (match po_Location o with Some l => Some l | None => po_Location p end).

(** ** Boundaries *)

Definition is_result (m : Message) : bool := String.eqb (m_Role m) RoleToolResult.
Definition is_reply (m : Message) : bool := String.eqb (m_Role m) RoleAssistant.
Definition is_user (m : Message) : bool := String.eqb (m_Role m) RoleUser.

(** A loop over [slices.Backward(messages)] looks at the index below [i] next. *)

(** The first loop of [lastTurnStart]; [first] is [None] for -1. *)
Fixpoint run_turn (messages : list Message) (run : RunID) (i : nat) (first : option nat) : option nat :=
  match i with
  | O => first
  | S i' =>
    match messages !! i' with
    | None => first
    | Some m =>
      if negb (String.eqb (m_RunID m) run) then run_turn messages run i' first
      else if is_reply m then Some i'
      else run_turn messages run i' (Some i')
    end
  end.

(** [for i > 0 && messages[i].Role == RoleToolResult { i-- }]. *)
Fixpoint before_results (messages : list Message) (i : nat) : nat :=
  match i with
  | O => O
  | S i' =>
    match messages !! i with
    | Some m => if is_result m then before_results messages i' else i
    | None => i
    end
  end.

Definition lastTurnStart (messages : list Message) (run : RunID) : nat :=
  let found := if String.eqb run "" then None else run_turn messages run (length messages) None in
  match found with
  | Some i => i
  | None => before_results messages (length messages - 1)
  end.

Definition latest_run (messages : list Message) (skip : RunID) : RunID :=
  match list_find (fun m => m_RunID m <> "" /\ m_RunID m <> skip) (rev messages) with
  | Some (_, m) => m_RunID m
  | None => ""
  end.

Fixpoint last_user (messages : list Message) (i : nat) : nat :=
  match i with
  | O => O
  | S i' => match messages !! i' with
            | Some m => if is_user m then i' else last_user messages i'
            | None => last_user messages i'
            end
  end.

(** The last loop of [runStart]. *)
Fixpoint first_of_run (messages : list Message) (latest : RunID) (i start : nat) : nat :=
  match i with
  | O => start
  | S i' =>
    match messages !! i' with
    | None => start
    | Some m =>
      if String.eqb (m_RunID m) latest then first_of_run messages latest i' i'
      else if (start <? length messages)%nat then start
      else first_of_run messages latest i' start
    end
  end.

Definition runStart (messages : list Message) (skip : RunID) : nat :=
  let latest := latest_run messages skip in
  if String.eqb latest "" then last_user messages (length messages)
  else first_of_run messages latest (length messages) (length messages).

(** The loop of [turnCut] over what is left of the stretch. *)
Fixpoint next_turn (rest : list Message) (i : nat) : nat :=
  match rest with
  | [] => i
  | m :: rest' => if is_result m then next_turn rest' (S i) else i
  end.

Definition turnCut (messages : list Message) (want : Z) : nat :=
  if (want <=? 0)%Z then O
  else if (Z.of_nat (length messages) <? want)%Z then length messages
  else next_turn (drop (Z.to_nat want) messages) (Z.to_nat want).

(** [stretchStart]; a position is [None] for one the store does not know. *)
Definition stretchStart (messages : list Message) (position : MessageID -> option MessagePosition) : gotime :=
  foldl (fun from m =>
    match position (m_ID m) with
    | Some p => if negb (mp_Time p =? 0)%Z && ((from =? 0)%Z || (mp_Time p <? from)%Z) then mp_Time p else from
    | None => from
    end) 0%Z messages.

(** ** The default parts *)

Definition CeilingTrigger_Due (state : TurnState) : option CompactionWhy :=
  if ts_Overflow state then Some CompactionWhyOverflow
  else if (0 <? ts_CeilingTokens state)%Z && (ts_CeilingTokens state <? ts_Tokens state)%Z then Some CompactionWhyPastCeiling
  else if (ts_Turn state =? 1)%N && (ts_BudgetTokens state <? ts_SegmentTokens state)%Z then Some CompactionWhyPastBudget
  else None.

Section sizes.
Context `{Encoding}.

(** The loop of [withinBudget]. *)
Fixpoint fits_from (messages : list Message) (budget : Z) (floor i : nat) (total : Z) (start : nat) : nat :=
  match i with
  | O => start
  | S i' =>
    if (i' <? floor)%nat then start
    else match messages !! i' with
         | None => start
         | Some m =>
           let total := (total + EstimateTokens [m])%Z in
           if (budget <? total)%Z then start else fits_from messages budget floor i' total i'
         end
  end.

Definition withinBudget (messages : list Message) (budget : Z) (floor : nat) : nat :=
  fits_from messages budget floor (length messages) 0 (length messages).

(** The budget of [TailBudget.Cut]. *)
Definition tail_budget (t : TailBudget) (info : CutInfo) : Z :=
  let budget := orDefault (tb_TailTokens t) defaultTailTokens in
  let base := if (ci_WindowTokens info <=? 0)%Z then ci_CeilingTokens info else ci_WindowTokens info in
  if (0 <? base)%Z then Z.min budget (base `quot` 4) else budget.

Definition TailBudget_Cut (t : TailBudget) (stretch : list Message) (info : CutInfo) : nat :=
  if (0 <? tb_KeepMessages t)%Z then turnCut stretch (Z.of_nat (length stretch) - tb_KeepMessages t)
  else turnCut stretch (Z.of_nat (withinBudget stretch (tail_budget t info) (runStart stretch (ci_CurrentRun info)))).

Definition segment_size (s : Segment) : Z := EstimateTokens (sg_Messages s).

(** The loop of [OldestToHalf.Pick]. *)
Fixpoint pick_down (sizes : list Z) (half : Z) (count : nat) (left_ : Z) : nat :=
  match count with
  | O => O
  | S c =>
    if (2 <? count)%nat && (left_ + nth c sizes 0%Z <=? half)%Z then pick_down sizes half c (left_ + nth c sizes 0%Z)
    else count
  end.

Definition sum_sizes (sizes : list Z) : Z := foldr Z.add 0%Z sizes.

Definition OldestToHalf_Pick (segments : list Segment) (budgetTokens : Z) : Z :=
  if (length segments <? 2)%nat then 0%Z
  else
    let sizes := segment_size <$> segments in
    if (sum_sizes sizes <=? budgetTokens)%Z then 0%Z
    else Z.of_nat (pick_down sizes (budgetTokens `quot` 2) (length segments) 0).
End sizes.

(** ** Lemmas on boundaries *)

(** Index [k] of [l] starts a Turn, or is the end. *)
Definition turn_boundary (l : list Message) (k : nat) : Prop :=
  match l !! k with Some m => is_result m = false | None => k = length l end.

Lemma next_turn_spec before rest :
  let k := next_turn rest (length before) in
  (length before <= k <= length before + length rest)%nat /\
  turn_boundary (before ++ rest) k /\
  Forall (fun m => is_result m = true) (take (k - length before) rest).
Proof.
  revert before. induction rest as [|m rest IH]; intros before; cbn.
  - split_and!; [lia|lia| |by rewrite Nat.sub_diag].
    unfold turn_boundary. rewrite app_nil_r, lookup_ge_None_2 by lia. done.
  - destruct (is_result m) eqn:E.
    + specialize (IH (before ++ [m])). rewrite length_app in IH. cbn in IH. rewrite Nat.add_1_r in IH.
      destruct IH as (Hk & Hb & Hf). rewrite <-app_assoc in Hb. split_and!; [lia|lia|exact Hb|].
      replace (next_turn rest (S (length before)) - length before)%nat with (S (next_turn rest (S (length before)) - S (length before))) by lia.
      cbn. by constructor.
    + split_and!; [lia|lia| |by rewrite Nat.sub_diag]. unfold turn_boundary. by rewrite list_lookup_middle.
Qed.

Lemma turnCut_spec l want :
  (turnCut l want <= length l)%nat /\
  (turnCut l want = O \/ turn_boundary l (turnCut l want)) /\
  ((0 < want <= Z.of_nat (length l))%Z -> (want <= Z.of_nat (turnCut l want))%Z /\
    Forall (fun m => is_result m = true) (take (turnCut l want - Z.to_nat want) (drop (Z.to_nat want) l))) /\
  ((want <= 0)%Z -> turnCut l want = O).
Proof.
  unfold turnCut. destruct (Z.leb_spec want 0); [split_and!; [lia|by left|lia|done]|].
  destruct (Z.ltb_spec (Z.of_nat (length l)) want).
  - split_and!; [done|right; unfold turn_boundary; by rewrite lookup_ge_None_2|lia|lia].
  - assert (Hlen : length (take (Z.to_nat want) l) = Z.to_nat want) by (rewrite length_take; lia).
    pose proof (next_turn_spec (take (Z.to_nat want) l) (drop (Z.to_nat want) l)) as (Hk & Hb & Hf).
    rewrite take_drop, Hlen, length_drop in *. split_and!; [lia|by right| |lia]. intros _. split; [lia|exact Hf].
Qed.

Lemma first_of_run_le l latest i start :
  (i <= length l)%nat -> (start <= length l)%nat -> (first_of_run l latest i start <= length l)%nat.
Proof.
  revert start. induction i as [|i IH]; intros start Hi Hs; cbn; [done|].
  destruct (l !! i); [|done]. destruct (String.eqb _ _); [apply IH; lia|]. repeat case_match; try done; apply IH; lia.
Qed.

Lemma last_user_le l i : (last_user l i <= i)%nat.
Proof. induction i as [|i IH]; cbn; [done|]. destruct (l !! i) as [m|]; [destruct (is_user m)|]; lia. Qed.

Lemma runStart_le l skip : (runStart l skip <= length l)%nat.
Proof.
  unfold runStart. destruct (String.eqb _ _); [apply last_user_le|by apply first_of_run_le].
Qed.

Lemma run_turn_lt l run i first k :
  (i <= length l)%nat -> (forall k, first = Some k -> (k < length l)%nat) -> run_turn l run i first = Some k -> (k < length l)%nat.
Proof.
  revert first. induction i as [|i IH]; intros first Hi Hf; cbn; [by apply Hf|].
  destruct (l !! i); [|by apply Hf]. destruct (negb _); [apply IH; [lia|done]|]. destruct (is_reply m).
  - intros [= <-]. lia.
  - apply IH; [lia|]. intros k' [= <-]. lia.
Qed.

Lemma before_results_le l i : (before_results l i <= i)%nat.
Proof. induction i as [|i IH]; cbn; [done|]. destruct (l !! S i) as [m|]; [|lia]. destruct (is_result m); lia. Qed.

Lemma lastTurnStart_le l run : (lastTurnStart l run <= length l)%nat.
Proof.
  unfold lastTurnStart. pose proof (before_results_le l (length l - 1)).
  destruct (String.eqb run ""); [lia|]. destruct (run_turn l run (length l) None) as [k|] eqn:E; [|lia].
  pose proof (run_turn_lt l run (length l) None k ltac:(lia) ltac:(done) E). lia.
Qed.

(** ** Lemmas on budgets *)

Section sizes_lemmas.
Context `{Encoding}.

Definition message_size (m : Message) : Z := EstimateTokens [m].
Definition messages_size (l : list Message) : Z := sum_sizes (message_size <$> l).

Lemma EstimateTokens_pos l : (0 <= EstimateTokens l)%Z.
Proof. unfold EstimateTokens. pose proof (tokens_of_bounds (length (json_array (json_message <$> ForModel l)))). lia. Qed.

Lemma drop_size l i m : l !! i = Some m -> messages_size (drop i l) = (message_size m + messages_size (drop (S i) l))%Z.
Proof. intros Hi. by rewrite (drop_S _ _ _ Hi). Qed.

Lemma fits_from_spec l budget floor i :
  (i <= length l)%nat -> (messages_size (drop i l) <= Z.max budget 0)%Z ->
  let k := fits_from l budget floor i (messages_size (drop i l)) i in
  (Nat.min floor i <= k <= i)%nat /\
  (messages_size (drop k l) <= Z.max budget 0)%Z /\
  ((floor < k)%nat -> (budget < messages_size (drop (k - 1) l))%Z).
Proof.
  induction i as [|i IH]; intros Hi Hs; cbn [fits_from]; [split_and!; [lia|lia|done|lia]|].
  destruct (Nat.ltb_spec i floor); [split_and!; [lia|lia|done|lia]|].
  destruct (lookup_lt_is_Some_2 l i) as [m Hm]; [lia|]. rewrite Hm.
  pose proof (drop_size l i m Hm) as Hd. fold (message_size m). replace (messages_size (drop (S i) l) + message_size m)%Z with (messages_size (drop i l)) by lia.
  destruct (Z.ltb_spec budget (messages_size (drop i l))).
  - split_and!; [lia|lia|done|]. intros _. by rewrite Nat.sub_1_r.
  - destruct (IH ltac:(lia) ltac:(lia)) as (? & ? & ?). split_and!; [lia|lia|done|done].
Qed.

Lemma withinBudget_spec l budget floor :
  (floor <= length l)%nat ->
  let k := withinBudget l budget floor in
  (floor <= k <= length l)%nat /\ (messages_size (drop k l) <= Z.max budget 0)%Z /\
  ((floor < k)%nat -> (budget < messages_size (drop (k - 1) l))%Z).
Proof.
  intros Hf. unfold withinBudget. pose proof (fits_from_spec l budget floor (length l) ltac:(lia)) as Hs.
  rewrite drop_all in Hs. change (messages_size []) with 0%Z in Hs. destruct Hs as (? & ? & ?); [lia|]. split_and!; [lia|lia|done|done].
Qed.

Lemma messages_size_suffix l i k : (i <= k)%nat -> (messages_size (drop k l) <= messages_size (drop i l))%Z.
Proof.
  intros Hik. replace k with (i + (k - i))%nat by lia. rewrite <-drop_drop. generalize (drop i l) (k - i)%nat. clear.
  intros l n. revert n. induction l as [|m l IH]; intros [|n]; try done. specialize (IH n). cbn [drop].
  change (messages_size (m :: l)) with (message_size m + messages_size l)%Z. pose proof (EstimateTokens_pos [m]) as Hp.
  fold (message_size m) in Hp. lia.
Qed.

Lemma pick_down_spec sizes half count left_ :
  (2 <= count <= length sizes)%nat -> left_ = sum_sizes (drop count sizes) -> (left_ <= half \/ count = length sizes)%Z ->
  let k := pick_down sizes half count left_ in
  (2 <= k <= count)%nat /\ (sum_sizes (drop k sizes) <= half \/ k = length sizes)%Z /\
  ((2 < k)%nat -> (half < sum_sizes (drop (k - 1) sizes))%Z).
Proof.
  revert left_. induction count as [|c IH]; intros left_ Hc Hl Hh; [lia|]. cbn [pick_down].
  assert (Hd : sum_sizes (drop c sizes) = (nth c sizes 0 + left_)%Z).
  { destruct (lookup_lt_is_Some_2 sizes c) as [x Hx]; [lia|]. rewrite (drop_S _ _ _ Hx), Hl. cbn. f_equal. symmetry. by apply nth_lookup_Some. }
  destruct (Nat.ltb_spec 2 (S c)); cbn [andb].
  - destruct (Z.leb_spec (left_ + nth c sizes 0)%Z half).
    + destruct (IH (left_ + nth c sizes 0)%Z) as (? & ? & ?); [lia|lia|lia|]. split_and!; [lia|lia|done|done].
    + split_and!; [lia|lia|subst; tauto|]. intros _. rewrite Nat.sub_1_r. cbn [Nat.pred]. lia.
  - split_and!; [lia|lia|subst; tauto|lia].
Qed.
End sizes_lemmas.

(** ** Properties *)

Section properties.
Context `{Encoding}.

Lemma tail_budget_nonneg t info : (0 <= tail_budget t info)%Z.
Proof.
  unfold tail_budget, orDefault, defaultTailTokens. cbv zeta.
  destruct (Z.leb_spec (tb_TailTokens t) 0); destruct (Z.leb_spec (ci_WindowTokens info) 0); cbn [negb];
    match goal with |- context [(0 <? ?b)%Z] => destruct (Z.ltb_spec 0 b); [pose proof (Z.quot_pos b 4)|] end; lia.
Qed.

(** The default Cutter keeps the longest tail that its numbers allow: the cut starts a
    Turn; with a number of Messages to keep, no more are kept; without one, the tail holds
    Messages of the latest Run only, fits the budget, and no Turn of that Run before the
    cut would start a tail that fits. *)
Theorem tail_is_longest_in_budget t stretch info :
  let k := TailBudget_Cut t stretch info in
  let floor := runStart stretch (ci_CurrentRun info) in
  let budget := tail_budget t info in
  (k <= length stretch)%nat /\
  (k = O \/ turn_boundary stretch k) /\
  if (0 <? tb_KeepMessages t)%Z
  then (Z.of_nat (length stretch - k) <= tb_KeepMessages t)%Z \/ k = O
  else (floor <= k)%nat /\
    (messages_size (drop k stretch) <= budget)%Z /\
    forall k', (floor <= k' < k)%nat -> turn_boundary stretch k' -> (budget < messages_size (drop k' stretch))%Z.
Proof.
  intros k floor budget. pose proof (tail_budget_nonneg t info) as Hb. subst k. unfold TailBudget_Cut.
  destruct (Z.ltb_spec 0 (tb_KeepMessages t)).
  - destruct (turnCut_spec stretch (Z.of_nat (length stretch) - tb_KeepMessages t)) as (Hle & Hbd & Hin & Hz).
    split_and!; [done|done|]. destruct (Z.leb_spec (Z.of_nat (length stretch) - tb_KeepMessages t) 0); [right; by apply Hz|].
    left. destruct Hin; lia.
  - fold floor budget. pose proof (withinBudget_spec stretch budget floor (runStart_le _ _)) as (Hw & Hs & Hm). cbv zeta in *.
    set (w := withinBudget stretch budget floor) in *.
    destruct (turnCut_spec stretch (Z.of_nat w)) as (Hle & Hbd & Hin & Hz). set (k := turnCut stretch (Z.of_nat w)) in *.
    assert (Hwk : (w <= k)%nat) by (destruct (decide (w = O)); [lia|destruct Hin; lia]).
    split_and!; [done|done|lia| |].
    + pose proof (messages_size_suffix stretch w k Hwk). lia.
    + intros k' Hk' Hbk'. destruct (decide (k' < w)%nat).
      * pose proof (messages_size_suffix stretch k' (w - 1) ltac:(lia)). specialize (Hm ltac:(lia)). lia.
      * exfalso. destruct (decide (w = O)) as [E|]; [rewrite (Hz ltac:(lia)) in Hk'; lia|].
        destruct Hin as [_ Hres]; [lia|]. rewrite Nat2Z.id in Hres. rewrite list.Forall_lookup in Hres.
        unfold turn_boundary in Hbk'. destruct (stretch !! k') as [m|] eqn:E; [|lia].
        specialize (Hres (k' - w)%nat m). rewrite lookup_take_lt, lookup_drop in Hres by lia.
        replace (w + (k' - w))%nat with k' in Hres by lia. by rewrite Hres in Hbk'.
Qed.

(** The default Picker merges as few of the oldest Segments as it must: none when there
    is one Segment or they fit the budget; otherwise two or more, such that the Segments
    left fit half the budget, unless none is left, and would not with one more of them. *)
Theorem pick_is_least segments budget :
  let k := OldestToHalf_Pick segments budget in
  let size n := sum_sizes (drop n (segment_size <$> segments)) in
  if (length segments <? 2)%nat || (size 0%nat <=? budget)%Z then k = 0%Z
  else exists n, k = Z.of_nat n /\ (2 <= n <= length segments)%nat /\
    (n = length segments \/ (size n <= budget `quot` 2)%Z) /\
    ((2 < n)%nat -> (budget `quot` 2 < size (n - 1)%nat)%Z).
Proof.
  intros k size. subst k size. unfold OldestToHalf_Pick. cbv zeta. destruct (Nat.ltb_spec (length segments) 2); [done|]. cbn [orb]. rewrite drop_0.
  destruct (sum_sizes _ <=? budget)%Z; [done|]. eexists. split; [done|].
  pose proof (pick_down_spec (segment_size <$> segments) (budget `quot` 2) (length segments) 0) as Hp.
  rewrite length_fmap in Hp. destruct Hp as (H1 & H2 & H3); [lia|rewrite drop_ge by (by rewrite length_fmap); done|by right|].
  split_and!; [lia|lia|tauto|done].
Qed.
End properties.
