(* ===== verification/SegmentBuild.v ===== *)
(** * A Segment built by code

    [record/segment_build.go] and [record/segment_render.go]: what the default Builder,
    CodeSegments, keeps of the closed Messages, and how it writes it. *)

From stdpp Require Import pretty.
From S2P Require Import Prelude GoStrings Text Ref Errors Types Events Request Cut.
Local Open Scope string_scope.
Local Open Scope list_scope.

(** ** Text *)

(** The loop of [strings.Fields]: [word] is the field it is in. *)
Fixpoint fields_fuel (fuel : nat) (s word : bytes) : list bytes :=
  let flushed rest := match word with [] => rest | _ => word :: rest end in
  match fuel, s with
  | S fuel', _ :: _ =>
    let r := decode_rune s in
    if is_space (fst r) then flushed (fields_fuel fuel' (drop (snd r) s) [])
    else fields_fuel fuel' (drop (snd r) s) (word ++ take (snd r) s)
  | _, _ => flushed []
  end.

(** A rune takes a byte at least. *)
Definition Fields (s : string) : list string := string_of <$> fields_fuel (length (bytes_of s)) (bytes_of s) [].

Definition oneLine (s : string) : string := join " " (Fields s).

(** [string([]rune(s)[:n])], with whether [s] has more than [n] runes; a byte that is no rune
    is the error rune in it. *)
Fixpoint first_runes (n : nat) (s : bytes) (rs : list (N * nat)) : bytes * bool :=
  match n, rs with
  | _, [] => ([], false)
  | O, _ :: _ => ([], true)
  | S n', (r, size) :: rs' =>
    let here := if (r =? rune_error)%N && (size =? 1)%nat
                then [ascii_of_N 0xEF; ascii_of_N 0xBF; ascii_of_N 0xBD] else take size s in
    let (rest, more) := first_runes n' (drop size s) rs' in (here ++ rest, more)
  end.

(** [clip], and the end of [cutArgs]. *)
Definition clip (s : string) (limit : Z) : string :=
  let (kept, more) := first_runes (Z.to_nat limit) (bytes_of s) (runes (bytes_of s)) in
  if more then (string_of kept ++ "…")%string else s.

(** [cutRunes]. *)
Definition cutRunes (s : string) (n : Z) : string :=
  if (Z.of_nat (String.length s) <=? n)%Z then s
  else string_of (take (back_to_start (bytes_of s) (Z.to_nat (Z.max n 0))) (bytes_of s)).

Definition show (z : Z) : string := pretty z.

(** ** Data *)

Record SegmentSettings := MkSettings { st_MessageTokens : Z; st_ToolLines : Z; st_ArgChars : Z }.

Definition defaultMessageTokens : Z := 2000.
Definition defaultToolLines : Z := 100.
Definition defaultArgChars : Z := 200.

Definition statusUnanswered : ToolResultStatus := "unanswered".

Record callLine := MkCallLine { cll_line : ToolCallLine; cll_refs : list string }.
#[export] Instance eta_callLine : Eta callLine := fun r => MkCallLine (cll_line r) (cll_refs r).
#[export] Instance eta_ToolCallLine : Eta ToolCallLine := fun r =>
  MkLine (tl_At r) (tl_ToolID r) (tl_Args r) (tl_Status r) (tl_Code r) (tl_Count r).

Record item := MkItem {
  it_isCalls : bool;
  it_role : Role;
  it_parts : list ContentPart;
  it_lines : list callLine;
  it_overflow : string;
}.
#[export] Instance eta_item : Eta item := fun r =>
  MkItem (it_isCalls r) (it_role r) (it_parts r) (it_lines r) (it_overflow r).

Definition calls_item (lines : list callLine) : item := MkItem true "" [] lines "".
Definition parts_item (role : Role) (parts : list ContentPart) : item := MkItem false role parts [] "".

(** [SegmentInfo], with the time zone its Builder uses: [loc] when it is nil is UTC. *)
Record SegmentInfo := MkSegmentInfo {
  si_Number : Z;
  si_From : gotime;
  si_To : gotime;
  si_Location : option Location;
  si_Recap : string;
  si_Position : MessageID -> option MessagePosition;
}.

(** ** Tagged text *)

Definition attr_text (attr : string * string) : string :=
  (" " ++ fst attr ++ "=" ++ dquote ++ replace_bytes quote_replacer (snd attr) ++ dquote)%string.

Definition tag_text (tag : string) (attrs : list (string * string)) (text : string) : string :=
  ("<" ++ tag ++ join "" (attr_text <$> attrs) ++ ">" ++ nl ++ text ++ nl ++ "</" ++ tag ++ ">")%string.

Definition taggedPart (tag : string) (attrs : list (string * string)) (text : string) : ContentPart :=
  MkPart ContentKindText (tag_text tag attrs text) [] "" [] {[MetaTag := tag]}.

Definition numberAttr (number : Z) : list (string * string) := [("n", show number)].

Definition isText (part : ContentPart) : bool :=
  String.eqb (cp_Kind part) ContentKindText || String.eqb (cp_Kind part) ContentKindJSON.

Definition image_prefix : bytes := bytes_of "image/".

Definition placeholder (part : ContentPart) : ContentPart :=
  let kind :=
    if String.eqb (cp_Kind part) ContentKindImage
       && (String.eqb (cp_MIMEType part) "" || has_prefix (bytes_of (cp_MIMEType part)) image_prefix)
    then "image" else "file" in
  let name := default "" (cp_Metadata part !! "name") in
  let name := if String.eqb name "" then default "" (cp_Metadata part !! "filename") else name in
  let size := show (Z.of_nat (length (cp_Data part))) in
  part_of ContentKindText
    (if String.eqb name "" then "[" ++ kind ++ ": " ++ size ++ " bytes]"
     else "[" ++ kind ++ ": " ++ oneLine name ++ ", " ++ size ++ " bytes]")%string.

(** The ref at the end of a kept Message, if its ID can stand in one. *)
Definition refPartOf (number : Z) (id : MessageID) : list ContentPart :=
  if Safe id then [taggedPart TagSegment (numberAttr number) ("ref " ++ Ref.String (Ref.Message id))%string] else [].

(** The total that [keptParts] counts first. *)
Definition text_bytes (parts : list ContentPart) : Z :=
  foldr (fun p n => if isText p then (Z.of_nat (String.length (cp_Text p)) + n)%Z else n) 0%Z parts.

(** The loop of [keptParts]: the Parts kept, and whether a text was cut. *)
Fixpoint kept_parts (budget used : Z) (parts : list ContentPart) : list ContentPart * bool :=
  match parts with
  | [] => ([], false)
  | part :: rest =>
    if String.eqb (cp_Kind part) ContentKindReasoning then kept_parts budget used rest
    else if isText part then
      if String.eqb (cp_Text part) "" then kept_parts budget used rest
      else
        let size := Z.of_nat (String.length (cp_Text part)) in
        if (budget <? used + size)%Z
        then ([part_of (cp_Kind part) (cutRunes (cp_Text part) (budget - used))], true)
        else
          let (out, cut) := kept_parts budget (used + size)%Z rest in
          (part_of (cp_Kind part) (cp_Text part) :: out, cut)
    else
      let (out, cut) := kept_parts budget used rest in (placeholder part :: out, cut)
  end.

Definition keptParts (parts : list ContentPart) (limit number : Z) : list ContentPart :=
  let budget := (limit * 4)%Z in
  let (out, cut) := kept_parts budget 0 parts in
  if cut then
    out ++ [taggedPart TagSegment (numberAttr number)
      ("This message was cut after " ++ show budget ++ " of " ++ show (text_bytes parts) ++ " bytes (" ++ show limit
       ++ " tokens). read_segment(" ++ show number ++ ") returns the rest.")%string]
  else out.

Definition noticePart (kind : string) (parts : list ContentPart) : ContentPart :=
  let body := foldr (fun p s => if isText p then (cp_Text p ++ s)%string else s) "" parts in
  taggedPart TagNotice [("kind", escaped kind)] (escaped body).

(** ** What a Segment keeps *)

(** The group of each Message; [anon] counts the user Messages without a Run. *)
Fixpoint groups (anon : Z) (messages : list Message) : list string :=
  match messages with
  | [] => []
  | m :: rest =>
    let anon := if is_user m && String.eqb (m_RunID m) "" then (anon + 1)%Z else anon in
    (if String.eqb (m_RunID m) "" then ("anon:" ++ show anon)%string else ("run:" ++ m_RunID m)%string) :: groups anon rest
  end.

Definition has_no_reply (m : Message) : bool :=
  negb (is_reply m) || negb (bool_decide (m_ToolCalls m = [])) || String.eqb (m_StopReason m) StopReasonCutOff
  || match trim_space (bytes_of (TextOf m)) with [] => true | _ => false end.

(** The backward loop of [finalReplies] on the reversed Messages; what it marks, reversed. *)
Fixpoint final_marks (seen : list string) (reversed : list (Message * string)) : list bool :=
  match reversed with
  | [] => []
  | (m, group) :: rest =>
    if has_no_reply m then false :: final_marks seen rest
    else if bool_decide (group ∈ seen) then false :: final_marks seen rest
    else true :: final_marks (group :: seen) rest
  end.

Definition finalReplies (messages : list Message) : list bool :=
  rev (final_marks [] (rev (zip messages (groups 0 messages)))).

Definition sameCall (a b : ToolCallLine) : bool :=
  String.eqb (tl_ToolID a) (tl_ToolID b) && String.eqb (tl_Args a) (tl_Args b)
  && String.eqb (tl_Status a) (tl_Status b) && String.eqb (tl_Code a) (tl_Code b).

(** [results]: a later result of a call takes the place of an earlier one. *)
Definition results_of (closed : list Message) : gmap ToolCallID ToolResult :=
  foldl (fun m message => match m_ToolResult message with Some r => <[tr_CallID r := r]> m | None => m end) ∅ closed.

Definition toolsCalled (messages : list Message) (loaded : list string) : list string :=
  filter (fun id => existsb (fun m => existsb (fun c => String.eqb (tc_ToolID c) id) (m_ToolCalls m)) messages = true) loaded.

Section encoded.
Context `{Encoding}.

Definition cutArgs (arguments : bytes) (limit : Z) : string :=
  let text := match json_compact arguments with Some b => string_of b | None => string_of arguments end in
  clip (oneLine text) limit.

Definition call_line (at_ : gotime) (results : gmap ToolCallID ToolResult) (argChars : Z) (call : ToolCall) : callLine :=
  let line := MkLine at_ (tc_ToolID call) (cutArgs (tc_Arguments call) argChars) statusUnanswered "" 0 in
  let line := match results !! tc_ID call with
    | Some r => MkLine at_ (tc_ToolID call) (cutArgs (tc_Arguments call) argChars) (tr_Status r)
                  (if String.eqb (tr_Status r) ToolResultStatusOK then "" else tr_Status r) 0
    | None => line
    end in
  MkCallLine line (if Safe (tc_ID call) then [Ref.String (Ref.Result (tc_ID call))] else []).

(** A call joins the line before it when they are the same call. *)
Definition add_call (pending : list callLine) (line : callLine) : list callLine :=
  match last pending with
  | Some l =>
    if sameCall (cll_line l) (cll_line line)
    then removelast pending ++
      [MkCallLine ((cll_line l) <| tl_Count := (Z.max (tl_Count (cll_line l)) 1 + 1)%Z |>) (cll_refs l ++ cll_refs line)]
    else pending ++ [line]
  | None => pending ++ [line]
  end.

Definition flush_calls (items : list item) (pending : list callLine) : list item :=
  match pending with [] => items | _ => items ++ [calls_item pending] end.

(** The body of the loop of [collect]. *)
Definition collect_one (limit argChars number : Z) (results : gmap ToolCallID ToolResult)
    (position : MessageID -> option MessagePosition) (state : list item * list callLine) (m : Message * bool)
    : list item * list callLine :=
  let (items, pending) := state in
  let (message, final) := m in
  let ref := refPartOf number (m_ID message) in
  if is_user message then
    let items := flush_calls items pending in
    match keptParts (m_Parts message) limit number with
    | [] => (items, [])
    | parts => (items ++ [parts_item RoleUser (parts ++ ref)], [])
    end
  else if String.eqb (m_Role message) RoleNotice then
    match m_Notice message with
    | None => (items, pending)
    | Some notice =>
      if negb (String.eqb (ni_Source notice) NoticeSourceService) then (items, pending)
      else
        let items := flush_calls items pending in
        match keptParts (m_Parts message) limit number with
        | [] => (items, [])
        | parts => (items ++ [parts_item RoleUser [noticePart (ni_Kind notice) parts]], [])
        end
    end
  else if is_reply message then
    let at_ := match position (m_ID message) with Some p => mp_Time p | None => 0%Z end in
    let pending := foldl add_call pending (call_line at_ results argChars <$> m_ToolCalls message) in
    if final then
      let items := flush_calls items pending in
      match keptParts (m_Parts message) limit number with
      | [] => (items, [])
      | parts => (items ++ [parts_item RoleAssistant (parts ++ ref)], [])
      end
    else (items, pending)
  else (items, pending).

Definition collect (closed : list Message) (settings : SegmentSettings) (number : Z)
    (position : MessageID -> option MessagePosition) : list item :=
  let argChars := orDefault (st_ArgChars settings) defaultArgChars in
  let limit := orDefault (st_MessageTokens settings) defaultMessageTokens in
  let (items, pending) := foldl (collect_one limit argChars number (results_of closed) position) ([], [])
                            (zip closed (finalReplies closed)) in
  flush_calls items pending.

(** *** The limit on lines *)

(** The loop of [limitLines]: the items, the calls left out by Tool, and the last block that
    shows a call. *)
Fixpoint limit_loop (limit shown : Z) (i : nat) (over : gmap string Z) (last_ : option nat) (items : list item)
    : list item * gmap string Z * option nat :=
  match items with
  | [] => ([], over, last_)
  | it :: rest =>
    if negb (it_isCalls it) then
      let '(out, over, last_) := limit_loop limit shown (S i) over last_ rest in (it :: out, over, last_)
    else
      let n := Z.of_nat (length (it_lines it)) in
      let kept := if (limit <? shown + n)%Z then take (Z.to_nat (Z.max (limit - shown) 0)) (it_lines it) else it_lines it in
      let over := foldl (fun m line => <[tl_ToolID (cll_line line) := (default 0 (m !! tl_ToolID (cll_line line)) + Z.max (tl_Count (cll_line line)) 1)%Z]> m)
                    over (drop (length kept) (it_lines it)) in
      let last_ := match kept with [] => last_ | _ => Some i end in
      let '(out, over, last_) := limit_loop limit (shown + Z.of_nat (length kept))%Z (S i) over last_ rest in
      (it <| it_lines := kept |> :: out, over, last_)
  end.

Definition overflow_text (over : gmap string Z) : string :=
  let names := merge_sort String.le (elements (dom over)) in
  let counts := (fun name => (escaped (oneLine name) ++ " ×" ++ show (default 0%Z (over !! name)))%string) <$> names in
  let total := foldr (fun name n => (default 0 (over !! name) + n)%Z) 0%Z names in
  ("… " ++ show total ++ " more calls: " ++ join ", " counts)%string.

Definition limitLines (items : list item) (limit : Z) : list item :=
  let '(out, over, last_) := limit_loop limit 0 0 ∅ None items in
  match last_ with
  | Some i => if bool_decide (over = ∅) then out
              else alter (fun it => it <| it_overflow := overflow_text over |>) i out
  | None => out
  end.
End encoded.

(** *** Rendering *)

Definition renderLine (line : callLine) (loc : Location) : string :=
  let l := cll_line line in
  let clock := if (tl_At l =? 0)%Z then "--:--" else in_clock loc (tl_At l) in
  let outcome :=
    if String.eqb (tl_Status l) statusUnanswered then statusUnanswered
    else if negb (String.eqb (tl_Code l) "") then ("error " ++ escaped (oneLine (tl_Code l)))%string
    else "ok" in
  (clock ++ " " ++ escaped (oneLine (tl_ToolID l))
    ++ (if String.eqb (tl_Args l) "" then "" else " " ++ escaped (tl_Args l))
    ++ " → " ++ outcome
    ++ (if (1 <? tl_Count l)%Z then " ×" ++ show (tl_Count l) else "")
    ++ match cll_refs line with [] => "" | refs => " [" ++ join " " refs ++ "]" end)%string.

(** [messageList.add]. *)
Definition add_parts (messages : list Message) (role : Role) (parts : list ContentPart) : list Message :=
  match last messages with
  | Some m =>
    if String.eqb (m_Role m) role
    then removelast messages ++ [m <| m_Parts := m_Parts m ++ parts |>]
    else messages ++ [message_zero <| m_Role := role |> <| m_Parts := parts |>]
  | None => messages ++ [message_zero <| m_Role := role |> <| m_Parts := parts |>]
  end.

Definition time_attrs (loc : Location) (from to : gotime) : list (string * string) :=
  (if (from =? 0)%Z then [] else [("from", in_rfc3339 loc from)])
  ++ (if (to =? 0)%Z then [] else [("to", in_rfc3339 loc to)]).

Definition headerAttrs (number : Z) (from to : gotime) (loc : Location) : list (string * string) :=
  numberAttr number ++ time_attrs loc from to.

Definition headerText (number : Z) (hasRecap : bool) : string :=
  let upTo := if hasRecap then ("The messages up to recap " ++ show number ++ " are word for word")%string
              else "The messages are word for word" in
  ("Segment " ++ show number ++ ". " ++ upTo ++ "; reasoning," ++ nl
   ++ "intermediate steps and tool results were left out. read_segment(" ++ show number ++ ") returns" ++ nl
   ++ "the segment in full; read_result(ref) returns one tool result or message by its ref.")%string.

(** The second loop of [Build]. *)
Definition render_item (loc : Location) (messages : list Message) (it : item) : list Message :=
  if negb (it_isCalls it) then add_parts messages (it_role it) (it_parts it)
  else if bool_decide (it_lines it = []) && String.eqb (it_overflow it) "" then messages
  else
    let text := ((fun line => renderLine line loc) <$> it_lines it)
                ++ (if String.eqb (it_overflow it) "" then [] else [it_overflow it]) in
    add_parts messages RoleAssistant [taggedPart TagToolCalls [] (join nl text)].

Section build.
Context `{Encoding} (UTC : Location).

Definition location_of (loc : option Location) : Location := default UTC loc.

(** [CodeSegments.Build]; it returns no error. *)
Definition CodeSegments_Build (settings : SegmentSettings) (closed : list Message) (info : SegmentInfo) : Segment :=
  let loc := location_of (si_Location info) in
  let number := si_Number info in
  let items := limitLines (collect closed settings number (si_Position info))
                 (orDefault (st_ToolLines settings) defaultToolLines) in
  let header := taggedPart TagSegment (headerAttrs number (si_From info) (si_To info) loc)
                  (headerText number (negb (String.eqb (si_Recap info) ""))) in
  segment_zero <| sg_Number := number |> <| sg_From := si_From info |> <| sg_To := si_To info |>
    <| sg_Messages := foldl (render_item loc) (add_parts [] RoleUser [header]) items |>
    <| sg_ToolCalls := items ≫= (fun it => cll_line <$> it_lines it) |>.
End build.

(** ** Stamps *)

Definition earlier (from t : gotime) : gotime :=
  if negb (t =? 0)%Z && ((from =? 0)%Z || (t <? from)%Z) then t else from.

(** [stamps]: when the stretch began and ended, and the Entries it covers. *)
Definition stamp_one (position : MessageID -> option MessagePosition) (acc : gotime * gotime * N * N) (m : Message)
    : gotime * gotime * N * N :=
  let '(from, to, first, last_) := acc in
  match position (m_ID m) with
  | None => acc
  | Some p =>
    let n := mp_Number p in
    (earlier from (mp_Time p),
     (if negb (mp_Time p =? 0)%Z && (to <? mp_Time p)%Z then mp_Time p else to),
     (if (0 <? n)%N && ((first =? 0)%N || (n <? first)%N) then n else first),
     (if (last_ <? n)%N then n else last_))
  end.

Definition stamps (closed : list Message) (position : MessageID -> option MessagePosition)
    : gotime * gotime * SegmentSource :=
  let '(from, to, first, last_) := foldl (stamp_one position) (0%Z, 0%Z, 0%N, 0%N) closed in
  (from, to, MkSource (MkRecordRef "" "") first last_).

(** [numbersOf] and [rangeLabel]. *)
Definition numbersOf (segments : list Segment) : list Z := segments ≫= Numbers.

Definition range_text (first last_ : Z) : string :=
  if (first <? last_)%Z then (show first ++ "-" ++ show last_)%string else show first.

(** The ranges of [rangeLabel]; the run it is in goes from [first] to [last_]. *)
Fixpoint ranges (first last_ : Z) (numbers : list Z) : list string :=
  match numbers with
  | [] => [range_text first last_]
  | n :: rest => if (n =? last_ + 1)%Z then ranges first n rest else range_text first last_ :: ranges n n rest
  end.

Definition rangeLabel (numbers : list Z) : string :=
  match numbers with
  | [] => ""
  | n :: rest => join "," (ranges n n rest)
  end.
