(* ===== verification/Digest.v ===== *)
(** * The refs of a Segment and the digest of a merge

    [record/merge_digest.go]: the refs that a Segment's own Messages carry, and the Recap
    that code writes for a merge when no model does.  The three regular expressions are
    functions that decide them. *)

From S2P Require Import Prelude GoStrings Text Ref Errors Types Events Request Cut SegmentBuild.
Local Open Scope string_scope.
Local Open Scope list_scope.

(** ** Text *)

(** [strings.Split] at a newline. *)
Fixpoint split_lines (s : bytes) : list bytes :=
  match s with
  | [] => [[]]
  | c :: rest =>
    if ascii_dec c newline then [] :: split_lines rest
    else match split_lines rest with
         | line :: lines => (c :: line) :: lines
         | [] => [[c]]
         end
  end.

(** [\s] of a regular expression: tab, newline, form feed, carriage return and space. *)
Definition re_space (c : ascii) : bool :=
  (byte c =? 9)%N || (byte c =? 10)%N || (byte c =? 12)%N || (byte c =? 13)%N || (byte c =? 32)%N.

Definition bracket_open : ascii := "["%char.
Definition bracket_close : ascii := "]"%char.
Definition space : ascii := " "%char.

(** [^ref (msg:\S+)$]: its first group. *)
Definition msgRefLine (line : bytes) : option bytes :=
  match cut_prefix line (bytes_of "ref msg:") with
  | Some (c :: id) => if forallb (fun c => negb (re_space c)) (c :: id) then Some (bytes_of "msg:" ++ c :: id) else None
  | _ => None
  end.

(** A character of [[^\s\[\]]]. *)
Definition ref_char (c : ascii) : bool :=
  negb (re_space c) && (if ascii_dec c bracket_open then false else true)
  && (if ascii_dec c bracket_close then false else true).

Fixpoint skip_ref (s : bytes) : bytes :=
  match s with
  | c :: rest => if ref_char c then skip_ref rest else s
  | [] => []
  end.

(** The whole of [s] is [(?:result:[^\s\[\]]+ ?)+]: a piece ends where its characters do, and
    another one may only follow after a space. *)
Fixpoint result_list (fuel : nat) (s : bytes) : bool :=
  match fuel, cut_prefix s (bytes_of ResultPrefix) with
  | S fuel', Some (c :: rest) =>
    if ref_char c then
      match skip_ref rest with
      | [] => true
      | d :: rest' =>
        if ascii_dec d space then match rest' with [] => true | _ => result_list fuel' rest' end else false
      end
    else false
  | _, _ => false
  end.

(** What follows the last opening bracket; no character of a piece is one. *)
Fixpoint after_bracket (s : bytes) : option bytes :=
  match s with
  | [] => None
  | c :: rest =>
    match after_bracket rest with
    | Some r => Some r
    | None => if ascii_dec c bracket_open then Some rest else None
    end
  end.

(** [\[((?:result:[^\s\[\]]+ ?)+)\]$]: its group. *)
Definition resultRefsInLine (line : bytes) : option bytes :=
  match rev line with
  | c :: before =>
    if ascii_dec c bracket_close then
      match after_bracket (rev before) with
      | Some group => if result_list (length group) group then Some group else None
      | None => None
      end
    else None
  | [] => None
  end.

(** ** The refs a Segment carries *)

Definition text_lines (part : ContentPart) : list bytes := split_lines (bytes_of (cp_Text part)).

Definition part_msg_refs (part : ContentPart) : list string :=
  match cp_Metadata part !! MetaTag with
  | Some tag => if String.eqb tag TagSegment then string_of <$> omap msgRefLine (text_lines part) else []
  | None => []
  end.

Definition part_result_refs (part : ContentPart) : list string :=
  match cp_Metadata part !! MetaTag with
  | Some tag =>
    if String.eqb tag TagToolCalls
    then omap resultRefsInLine (text_lines part) ≫= (fun group => Fields (string_of group)) else []
  | None => []
  end.

Definition parts_of (segment : Segment) : list ContentPart := sg_Messages segment ≫= m_Parts.

Definition segmentRefs (segment : Segment) : list string * list string :=
  (parts_of segment ≫= part_msg_refs, parts_of segment ≫= part_result_refs).

(** ** The digest *)

Definition digestMaxBytes : Z := 4000.
Definition digestUserChars : Z := 160.
Definition digestUsersPerSeg : nat := 3.
Definition digestRecapChars : Z := 300.
Definition digestMergedChars : Z := 1200.
Definition digestToolsPerLine : nat := 5.
Definition digestMsgRefs : nat := 4.
Definition digestResultRefs : nat := 4.
Definition digestMergedRefs : nat := 8.

Definition is_word (c : ascii) : bool :=
  byte_in 0x61 0x7A c || byte_in 0x41 0x5A c || byte_in 0x30 0x39 c || (byte c =? 0x5F)%N.

(** A character of the end of [anyRef]. *)
Definition any_ref_char (c : ascii) : bool :=
  negb (re_space c) && negb (existsb (fun d => if ascii_dec c d then true else false)
    ["["; "]"; "("; ")"; quote; "'"; ","; ";"; "<"; ">"]%char).

Fixpoint take_while (f : ascii -> bool) (s : bytes) : bytes :=
  match s with
  | c :: rest => if f c then c :: take_while f rest else []
  | [] => []
  end.

(** The match of [anyRef] that starts at [s], after a character that is a word's or not. *)
Definition any_ref_at (after_word : bool) (s : bytes) : option bytes :=
  let found prefix :=
    match cut_prefix s (bytes_of prefix) with
    | Some rest => match take_while any_ref_char rest with [] => None | id => Some (bytes_of prefix ++ id) end
    | None => None
    end in
  if after_word then None
  else match found ResultPrefix with Some r => Some r | None => found MessagePrefix end.

(** [FindAllString]: a search goes on after the match. *)
Fixpoint any_refs (fuel : nat) (after_word : bool) (s : bytes) : list bytes :=
  match fuel, s with
  | S fuel', c :: rest =>
    match any_ref_at after_word s with
    | Some r => r :: any_refs fuel' (match last r with Some d => is_word d | None => false end) (drop (length r) s)
    | None => any_refs fuel' (is_word c) rest
    end
  | _, _ => []
  end.

Definition trim_dash (s : bytes) : bytes := default s (cut_prefix s (bytes_of "- ")).

Definition withoutHeading (recap : string) : string :=
  let kept := omap (fun line =>
    if has_prefix line (bytes_of "## ") then None else Some (string_of (trim_dash (trim_space line))))
    (split_lines (bytes_of recap)) in
  oneLine (join " " kept).

Definition user_text (message : Message) : option string :=
  if negb (is_user message) then None
  else
    let parts := omap (fun part =>
      if negb (tagged part) && String.eqb (cp_Kind part) ContentKindText
         && match trim_space (bytes_of (cp_Text part)) with [] => false | _ => true end
      then Some (cp_Text part) else None) (m_Parts message) in
    let text := oneLine (join " " parts) in
    if String.eqb text "" then None else Some text.

Definition userTexts (segment : Segment) : list string := omap user_text (sg_Messages segment).

(** The order of [toolCounts]: more calls first, then by name. *)
Definition count_le (counts : gmap string Z) (a b : string) : Prop :=
  (default 0 (counts !! b) < default 0 (counts !! a))%Z
  \/ (default 0 (counts !! a) = default 0 (counts !! b))%Z /\ String.le a b.
#[export] Instance count_le_dec counts a b : Decision (count_le counts a b).
Proof. unfold count_le. apply _. Defined.

Definition toolCounts (lines : list ToolCallLine) : string :=
  let counts := foldl (fun m l => <[tl_ToolID l := (default 0 (m !! tl_ToolID l) + Z.max (tl_Count l) 1)%Z]> m) (∅ : gmap string Z) lines in
  let total := foldr (fun l n => (Z.max (tl_Count l) 1 + n)%Z) 0%Z lines in
  if (total =? 0)%Z then ""
  else
    let names := merge_sort (count_le counts) (elements (dom counts)) in
    let shown := take digestToolsPerLine names in
    let parts := ((fun name => (name ++ " ×" ++ show (default 0%Z (counts !! name)))%string) <$> shown)
                 ++ (if (length shown <? length names)%nat then ["…"] else []) in
    (show total ++ " tool calls: " ++ join ", " parts)%string.

(** The refs of a merged Segment's Recap that the line does not show, each once. *)
Definition hidden_refs (recap shown : string) : list string :=
  let text := bytes_of (withoutHeading recap) in
  foldl (fun refs r =>
    if contains (bytes_of shown) r || bool_decide (string_of r ∈ refs) then refs else refs ++ [string_of r])
    [] (any_refs (length text) false text).

Definition digestRefs (segment : Segment) (shown : string) : string :=
  let refs :=
    match sg_Merged segment with
    | _ :: _ =>
      let refs := hidden_refs (sg_Recap segment) shown in
      if (digestMergedRefs <? length refs)%nat then take digestMergedRefs refs ++ ["…"] else refs
    | [] =>
      let (msgs, results) := segmentRefs segment in
      let refs := take digestMsgRefs msgs ++ take digestResultRefs results in
      if negb (bool_decide (refs = [])) && ((digestMsgRefs <? length msgs)%nat || (digestResultRefs <? length results)%nat)
      then refs ++ ["…"] else refs
    end in
  match refs with
  | [] => ""
  | _ => (" Refs: " ++ join " " refs ++ ".")%string
  end.

Definition digestLine (segment : Segment) (loc : Location) : string :=
  let label := rangeLabel (Numbers segment) in
  let label := if (1 <? length (Numbers segment))%nat then ("Segments " ++ label ++ " (merged earlier)")%string
               else ("Segment " ++ label)%string in
  let span :=
    if (sg_From segment =? 0)%Z then ""
    else (", " ++ in_minutes loc (sg_From segment)
          ++ (if (sg_To segment =? 0)%Z then "" else " to " ++ in_minutes loc (sg_To segment)))%string in
  let line := ("- " ++ label ++ span ++ ":")%string in
  match sg_Merged segment with
  | _ :: _ =>
    let shown := clip (withoutHeading (sg_Recap segment)) digestMergedChars in
    (line ++ " " ++ shown ++ digestRefs segment shown)%string
  | [] =>
    let users := userTexts segment in
    let shown := take digestUsersPerSeg users in
    let line :=
      match users with
      | [] => line
      | _ =>
        let more := (length users - length shown)%nat in
        (line ++ " the user wrote " ++ join " / " ((fun u => dquote ++ clip u digestUserChars ++ dquote)%string <$> shown)
         ++ (if (0 <? more)%nat then " / and " ++ show (Z.of_nat more) ++ " more." else "."))%string
      end in
    let tools := toolCounts (sg_ToolCalls segment) in
    let line := if String.eqb tools "" then line else (line ++ " " ++ tools ++ ".")%string in
    let recap := withoutHeading (sg_Recap segment) in
    let line := if String.eqb recap "" then line else (line ++ " Its recap: " ++ clip recap digestRecapChars)%string in
    (line ++ digestRefs segment "")%string
  end.

Definition digest_heading : string := ("## What happened" ++ nl)%string.

(** The loop that drops the oldest lines: the lines left, and how many are gone. *)
Fixpoint drop_lines (lines : list string) (dropped : nat) : list string * nat :=
  match lines with
  | line :: (_ :: _) as rest =>
    if (digestMaxBytes <? Z.of_nat (String.length digest_heading + String.length (join nl lines)))%Z
    then drop_lines rest (S dropped) else (lines, dropped)
  | _ => (lines, dropped)
  end.

Definition mergeDigest (segments : list Segment) (loc : Location) : string :=
  let (lines, dropped) := drop_lines ((fun segment => digestLine segment loc) <$> segments) 0 in
  let note := if (0 <? dropped)%nat
    then ("- … " ++ show (Z.of_nat dropped) ++ " earlier lines left out; read_segment returns the Segments." ++ nl)%string
    else "" in
  cutRunes (digest_heading ++ note ++ join nl lines)%string (digestMaxBytes + 120).
