(* ===== verification/Compactor.v ===== *)
(** * The frame of a compaction

    [record/parts.go], [record/compactor.go], [record/compact.go] and [record/merge.go]: a
    compaction asks its parts for values, checks what they return, and writes through the
    [SegmentStore] interface, a class here.  A part is a function of what it is given, which
    may also fail or panic.  A context that ended is what [ctx.Err()] answers at the two
    places that ask it. *)

From S2P Require Import Prelude GoStrings Text Ref Errors Types Events Request Cut SegmentBuild Digest.
Local Open Scope string_scope.
Local Open Scope list_scope.

(** ** Errors *)

Definition ErrNoRecapContext : error := SentinelOf "record.ErrNoRecapContext" CodeInvalidArgument
  "record: ModelRecap needs the Context the next call would send (record.WithRecapContext)".
Definition ErrBadPart : error := SentinelOf "record.ErrBadPart" CodeExtensionFailure
  "record: a compaction part failed or broke the rules of the frame".
Definition ErrBadRecap : error := SentinelOf "record.ErrBadRecap" CodeModelProtocolFailure
  "record: the reply is not a valid Recap".

Definition causeOf (err : error) : ErrorCode :=
  match as_runtime err with
  | Some e => Code e
  | None =>
    if errors_Is err ContextDeadlineExceeded then CodeDeadlineExceeded
    else if errors_Is err ContextCanceled then CodeCanceled
    else CodeStoreFailure
  end.

(** ** Parts *)

(** What a call of a part comes to. *)
Inductive answer (A : Type) : Type :=
| Returned (a : A)
| Failed (err : error)
| Panicked (what : string).
Arguments Returned {A} a.
Arguments Failed {A} err.
Arguments Panicked {A} what.

Definition callPart {A} (name : string) (a : answer A) : outcome A :=
  match a with
  | Returned x => Ok x
  | Failed err => Err (Wrapf (Text "%w: %s failed: %w" [FStr name; FErr err]) ErrBadPart)
  | Panicked what => Err (Wrapf (Text "%w: %s panicked: %v" [FStr name; FStr what]) ErrBadPart)
  end.

Record RecapRequest := MkRecapRequest {
  rq_Segment : Z;
  rq_Closed : list Message;
  rq_From : gotime;
  rq_Location : option Location;
  rq_Context : option ModelRequest;
}.

Record MergeRequest := MkMergeRequest { mq_Segments : list Segment; mq_Location : option Location }.

(** A [RecapWriter]; a panic in [WriteRecap] is the error that [recoverPanic] makes of it.
    [rw_WriteMergeRecap] is there for a [MergeRecapWriter]. *)
Record RecapWriter := MkRecapWriter {
  rw_Name : string;
  rw_WriteRecap : RecapRequest -> Message * option error;
  rw_WriteMergeRecap : option (MergeRequest -> Message * option error);
  rw_Validate : answer unit;
}.

Record Compactor := MkCompactor {
  co_Policy : CompactPolicy;
  co_Trigger : option (TurnState -> answer (option CompactionWhy));
  co_Cut : option (list Message -> CutInfo -> answer Z);
  co_Builder : option (list Message -> SegmentInfo -> answer Segment);
  co_Recap : option RecapWriter;
  co_Merge : option (list Segment -> Z -> answer Z);
}.
#[export] Instance eta_Compactor : Eta Compactor := fun r =>
  MkCompactor (co_Policy r) (co_Trigger r) (co_Cut r) (co_Builder r) (co_Recap r) (co_Merge r).

(** [Compactor.Validate]. *)
Definition Validate (c : Compactor) : option error :=
  match co_Recap c with
  | None => None
  | Some writer =>
    match rw_Validate writer with
    | Returned _ => None
    | Failed err => Some err
    | Panicked what => Some (Wrapf (Text "%w: %s panicked: %v" [FStr "RecapWriter.Validate"; FStr what]) ErrBadPart)
    end
  end.

(** ** The store *)

(** [SegmentStore]; a panic in a write is the error that [callStore] makes of it. *)
Class SegmentStore (S : Type) := {
  ss_ID : S -> string;
  ss_Tail : S -> list Message;
  ss_Segments : S -> list Segment;
  ss_NextSegment : S -> Z;
  ss_Position : S -> MessageID -> option MessagePosition;
  ss_LoadedTools : S -> list string;
  ss_Emit : gotime -> Event -> S -> S;
  ss_CloseSegment : gotime -> CompactionWhy -> Segment -> list Message -> option Compaction -> S -> S * outcome Segment;
  ss_MergeSegments : gotime -> CompactionWhy -> Segment -> list Z -> list Message -> option Compaction -> S -> S * outcome Segment;
}.

(** ** What the frame requires of a Segment *)

Definition isTag (tag : string) : bool :=
  String.eqb tag TagNotice || String.eqb tag TagSegment || String.eqb tag TagToolCalls || String.eqb tag TagRecap.

(** [strings.HasSuffix] and [strings.TrimSuffix]. *)
Definition cut_suffix (s p : bytes) : option bytes :=
  match cut_prefix (rev s) (rev p) with Some rest => Some (rev rest) | None => None end.

(** The reason that [checkTagged] refuses a Part with, if any. *)
Definition checkTagged (tag : string) (part : ContentPart) : option (text error) :=
  if negb (isTag tag) then Some (Text "a tagged Part names the tag %q, which is none of the four" [FStr tag])
  else
    let closing := bytes_of ("</" ++ tag ++ ">") in
    let s := bytes_of (cp_Text part) in
    let form := Text "a tagged Part is not text of the form <%s ...>...%s" [FStr tag; FStr (string_of closing)] in
    if negb (String.eqb (cp_Kind part) ContentKindText) || negb (has_prefix s (bytes_of ("<" ++ tag)))
    then Some form
    else
      match cut_suffix s closing with
      | None => Some form
      | Some _ =>
        let trimmed := default s (cut_prefix s (bytes_of "<")) in
        let inner := default trimmed (cut_suffix trimmed closing) in
        if bool_decide (EscapeTags inner = inner) then None
        else Some (Text "the text of a <%s> Part holds a tag" [FStr tag])
      end.

(** The first refusal in a list. *)
Fixpoint first_error {A E} (f : A -> option E) (l : list A) : option E :=
  match l with
  | [] => None
  | x :: rest => match f x with Some e => Some e | None => first_error f rest end
  end.

Definition tagged_error (i : nat) (part : ContentPart) : option error :=
  match cp_Metadata part !! MetaTag with
  | None => None
  | Some tag =>
    match checkTagged tag part with
    | None => None
    | Some t => Some (Wrapf (Text ("%w: Message %d: " ++ format t)%string (FNum (Z.of_nat i + 1) :: args t)) ErrBadPart)
    end
  end.

Definition message_error (im : nat * Message) : option error :=
  let (i, m) := im in
  if negb (is_user m) && negb (is_reply m) then
    Some (Wrapf (Text "%w: Message %d of the Segment has role %q, not user or assistant" [FNum (Z.of_nat i + 1); FStr (m_Role m)]) ErrBadPart)
  else if negb (bool_decide (m_ToolCalls m = [])) || bool_decide (is_Some (m_ToolResult m)) || bool_decide (is_Some (m_Notice m)) then
    Some (Wrapf (Text "%w: Message %d of the Segment holds a tool call, a tool result or a notice" [FNum (Z.of_nat i + 1)]) ErrBadPart)
  else first_error (tagged_error i) (m_Parts m).

(** What [checkRefs] reads of the closed Messages: the IDs of Messages, and those of calls. *)
Definition closed_names (closed : list Message) : list string * list string :=
  foldr (fun m names =>
    match m_ToolResult m with
    | Some r => (fst names, tr_CallID r :: snd names)
    | None => (m_ID m :: fst names, (tc_ID <$> m_ToolCalls m) ++ snd names)
    end) ([], []) closed.

Definition known_ref (messages calls : list string) (name : string) : bool :=
  match Ref.Parse name with
  | Some r => (ref_kind r =? KindMessage)%Z && bool_decide (ref_id r ∈ messages)
              || (ref_kind r =? KindResult)%Z && bool_decide (ref_id r ∈ calls)
  | None => false
  end.

Definition checkRefs (built : Segment) (closed : list Message) : option error :=
  let (messages, calls) := closed_names closed in
  let (msgRefs, resultRefs) := segmentRefs built in
  first_error (fun name =>
    if known_ref messages calls name then None
    else Some (Wrapf (Text "%w: the Segment carries the ref %s, which names nothing it closed" [FStr name]) ErrBadPart))
    (msgRefs ++ resultRefs).

Definition checkSegment (built : Segment) (closed : list Message) : option error :=
  match sg_Messages built with
  | [] => Some (Wrapf (Text "%w: the Segment has no Messages" []) ErrBadPart)
  | messages =>
    match first_error message_error (imap pair messages) with
    | Some err => Some err
    | None => checkRefs built closed
    end
  end.

(** ** Helpers of the frame *)

(** [flatten]. *)
Definition flatten (segments : list Segment) : list Message := segments ≫= sg_Messages.

Definition withoutReasoning (message : Message) : Message :=
  message <| m_Parts := filter (fun p => String.eqb (cp_Kind p) ContentKindReasoning = false) (m_Parts message) |>.

Definition keptTail (messages : list Message) (dropReasoning : bool) : list Message :=
  (fun m => (if dropReasoning then withoutReasoning m else m) <| m_Usage := usage_zero |>) <$> messages.

Definition keptTools (loaded used : list string) (tail : list Message) : list string :=
  filter (fun id => bool_decide (id ∈ used) || negb (bool_decide (toolsCalled tail [id] = [])) = true) loaded.

Definition segment_id (number : Z) (i : nat) : string :=
  ("segment-" ++ show number ++ "-" ++ show (Z.of_nat i + 1))%string.

Definition stamp_ids (number : Z) (messages : list Message) : list Message :=
  imap (fun i m => m <| m_ID := segment_id number i |>) messages.

(** The Recap at the end of a Segment: in its last Message, when that is the user's. *)
Definition append_recap (number : Z) (recap : string) (messages : list Message) : list Message :=
  if String.eqb recap "" then messages
  else add_parts messages RoleUser [taggedPart TagRecap (numberAttr number) (escaped recap)].

(** ** Results *)

Definition CompactReasonBelowMinTokens : string := "below_min_tokens".
Definition CompactReasonNothingToClose : string := "nothing_to_close".

Definition MergeReasonUnderBudget : string := "under_budget".
Definition MergeReasonNothingToMerge : string := "nothing_to_merge".
Definition MergeReasonRecapFailed : string := "recap_failed".
Definition MergeReasonWriteFailed : string := "write_failed".
Definition MergeReasonPickFailed : string := "pick_failed".

(** The text of [MergeResult.Error]: a fixed or public text, or what [RuntimeError.Error]
    writes, which is never empty. *)
Inductive public_text : Type :=
| PublicSays (s : string)
| RuntimeSays (e : RuntimeError).

Record MergeResult := MkMergeResult {
  ml_Merged : bool;
  ml_Reason : string;
  ml_Error : option public_text;
  ml_BudgetTokens : Z;
  ml_SegmentTokens : Z;
  ml_Segment : Z;
  ml_Replaced : list Z;
  ml_Recap : string;
  ml_RecapUsage : option Usage;
  ml_TokensBefore : Z;
  ml_TokensAfter : Z;
}.
#[export] Instance eta_MergeResult : Eta MergeResult := fun r =>
  MkMergeResult (ml_Merged r) (ml_Reason r) (ml_Error r) (ml_BudgetTokens r) (ml_SegmentTokens r) (ml_Segment r)
    (ml_Replaced r) (ml_Recap r) (ml_RecapUsage r) (ml_TokensBefore r) (ml_TokensAfter r).

(** [MergeResult.Error] is not empty. *)
Definition has_error (r : MergeResult) : bool :=
  match ml_Error r with
  | None => false
  | Some (PublicSays s) => negb (String.eqb s "")
  | Some (RuntimeSays _) => true
  end.

Record Result := MkResult {
  rt_SessionID : string;
  rt_Replaced : bool;
  rt_Reason : string;
  rt_MessagesBefore : Z;
  rt_MessagesAfter : Z;
  rt_TokensBefore : Z;
  rt_TokensAfter : Z;
  rt_Compaction : option Compaction;
  rt_Merge : option MergeResult;
}.
#[export] Instance eta_Result : Eta Result := fun r =>
  MkResult (rt_SessionID r) (rt_Replaced r) (rt_Reason r) (rt_MessagesBefore r) (rt_MessagesAfter r) (rt_TokensBefore r)
    (rt_TokensAfter r) (rt_Compaction r) (rt_Merge r).

Definition result_zero : Result := MkResult "" false "" 0 0 0 0 None None.

(** [publicMergeError]. *)
Definition publicMergeError (reason : string) (err : error) : public_text :=
  match as_public err with
  | Some s => PublicSays s
  | None =>
    match as_runtime err with
    | Some e => RuntimeSays e
    | None =>
      PublicSays (if String.eqb reason MergeReasonRecapFailed then "the Recap failed"
                  else if String.eqb reason MergeReasonPickFailed then "the Picker failed"
                  else "the merge could not be written")
    end
  end.

(** What [writeRecap] found. *)
Record recapOutcome := MkRecapOutcome {
  ro_name : string;
  ro_text : string;
  ro_failure : string;
  ro_usage : option Usage;
}.

Definition recapSkippedOverflow : string := "skipped_overflow".
Definition recapEmpty : string := "empty_recap".

Definition recapCause (err : error) : string :=
  match as_runtime err with
  | Some e => Code e
  | None =>
    if errors_Is err ContextDeadlineExceeded then CodeDeadlineExceeded
    else if errors_Is err ContextCanceled then CodeCanceled
    else CodeModelFailure
  end.

(** [ValidateRecap]. *)
Definition recapHeadings : list string :=
  ["What happened"; "Key facts"; "Decisions"; "Open items"; "Where it stands"].

Definition heading_of (line : bytes) : option string :=
  match cut_prefix line (bytes_of "## ") with
  | Some rest => Some (string_of (trim_space rest))
  | None => None
  end.

Definition known_heading (name : string) : bool := bool_decide (name ∈ recapHeadings).

Definition ValidateRecap (s : string) : outcome string :=
  let text := trim_space (bytes_of s) in
  let lines := split_lines text in
  let headings := omap heading_of lines in
  match head lines ≫= heading_of with
  | Some name =>
    if negb (known_heading name)
    then Err (Wrapf (Text "%w: it does not start with one of the five headings" []) ErrBadRecap)
    else
      match first_error (fun name => if known_heading name then None else Some name) headings with
      | Some name => Err (Wrapf (Text "%w: unknown heading %q" [FStr name]) ErrBadRecap)
      | None =>
        if bool_decide ("What happened" ∈ headings) then Ok (string_of text)
        else Err (Wrapf (Text "%w: no ## What happened" []) ErrBadRecap)
      end
  | None => Err (Wrapf (Text "%w: it does not start with one of the five headings" []) ErrBadRecap)
  end.

(** [compactCall]; [cc_context] builds the request a Recap reads, and may fail. *)
Record compactCall := MkCompactCall {
  cc_Compactor : Compactor;
  cc_minTokens : Z;
  cc_context : option (outcome ModelRequest);
  cc_keepLastTurn : bool;
  cc_run : RunID;
  cc_currentRun : RunID;
  cc_why : CompactionWhy;
}.

(** What [ctx.Err()] answers after the Recap of the Segment, and after that of the merge. *)
Record Ctx := MkCtx { cx_recap : option error; cx_merge : option error }.

Definition ToolUnloadedWhyCompaction : ToolUnloadedWhy := "compaction".
Definition mergeDigestName : string := "digest".

(** ** The frame *)

Section frame.
Context `{Encoding} (UTC : Location) {S : Type} `{SegmentStore S} (now : gotime).

Definition sessionHeader (s : S) : Header := NewHeader now (ss_ID s) "" 0.

Definition emit_started (why : CompactionWhy) (s : S) : S :=
  ss_Emit now (ECompactionStarted (MkCompactionStarted (sessionHeader s) why)) s.

Definition emit_failed (why : CompactionWhy) (cause : ErrorCode) (s : S) : S :=
  ss_Emit now (ECompactionFailed (MkCompactionFailed (sessionHeader s) why cause)) s.

(** [failCompaction]. *)
Definition failCompaction (why : CompactionWhy) (err : error) (s : S) : S * outcome Result :=
  (emit_failed why (causeOf err) s, Err err).

(** [contextOf]. *)
Definition contextOf (s : S) : list Message := flatten (ss_Segments s) ++ ss_Tail s.

(** *** The parts, each its default when it is nil *)

Definition ask_cutter (c : Compactor) (stretch : list Message) (info : CutInfo) : answer Z :=
  match co_Cut c with
  | Some cut => cut stretch info
  | None => Returned (Z.of_nat (TailBudget_Cut (MkTailBudget 0 0) stretch info))
  end.

Definition ask_builder (c : Compactor) (closed : list Message) (info : SegmentInfo) : answer Segment :=
  match co_Builder c with
  | Some build => build closed info
  | None => Returned (CodeSegments_Build UTC (MkSettings 0 0 0) closed info)
  end.

Definition ask_picker (c : Compactor) (segments : list Segment) (budget : Z) : answer Z :=
  match co_Merge c with
  | Some pick => pick segments budget
  | None => Returned (OldestToHalf_Pick segments budget)
  end.

Definition ask_trigger (c : Compactor) (state : TurnState) : answer (option CompactionWhy) :=
  match co_Trigger c with
  | Some due => due state
  | None => Returned (CeilingTrigger_Due state)
  end.

(** *** Closing a Segment *)

Definition cutOf (call : compactCall) (stretch : list Message) : outcome nat :=
  let policy := co_Policy (cc_Compactor call) in
  let info := MkCutInfo (po_WindowTokens policy) (EffectiveCeilingTokens policy) (cc_currentRun call) in
  let? raw := callPart "Cutter" (ask_cutter (cc_Compactor call) stretch info) in
  if (raw <? 0)%Z || (Z.of_nat (length stretch) <? raw)%Z
  then Err (Wrapf (Text "%w: the Cutter returned %d for a stretch of %d Messages" [FNum raw; FNum (Z.of_nat (length stretch))]) ErrBadPart)
  else
    let cut := turnCut stretch raw in
    Ok (if cc_keepLastTurn call then min cut (lastTurnStart stretch (cc_run call)) else cut).

Definition segmentOf (call : compactCall) (closed : list Message) (info : SegmentInfo) (loaded : list string)
    : outcome Segment :=
  let? built := callPart "Builder" (ask_builder (cc_Compactor call) closed info) in
  match checkSegment built closed with
  | Some err => Err err
  | None =>
    let number := si_Number info in
    let messages := stamp_ids number (append_recap number (si_Recap info) (sg_Messages built)) in
    let '(_, _, source) := stamps closed (si_Position info) in
    Ok (MkSegment number (si_From info) (si_To info) source messages 0 (sg_ToolCalls built) (si_Recap info)
      (toolsCalled closed loaded) [])
  end.

(** [writeRecap]; the error is that of a context that ended. *)
Definition writeRecap (ctx_err : option error) (call : compactCall) (closed : list Message) (why : CompactionWhy) (s : S)
    : S * outcome recapOutcome :=
  match co_Recap (cc_Compactor call) with
  | None => (s, Ok (MkRecapOutcome "none" "" "" None))
  | Some writer =>
    let request context := MkRecapRequest (ss_NextSegment s) closed (stretchStart closed (ss_Position s))
                             (po_Location (co_Policy (cc_Compactor call))) context in
    let '(contextErr, (message, writeErr)) :=
      match cc_context call with
      | Some (Err err) => (Some err, (message_zero, None))
      | Some (Ok built) => (None, rw_WriteRecap writer (request (Some built)))
      | None => (None, rw_WriteRecap writer (request None))
      end in
    match ctx_err with
    | Some err => (emit_failed why (causeOf err) s, Err err)
    | None =>
      let usage := if bool_decide (m_Usage message = usage_zero) then None else Some (m_Usage message) in
      let text := string_of (trim_space (bytes_of (TextOf message))) in
      (s, Ok (match contextErr, writeErr with
              | Some err, _ => MkRecapOutcome "none" "" (recapCause err) usage
              | None, Some err =>
                if errors_Is err ErrNoRecapContext && String.eqb why CompactionWhyOverflow
                then MkRecapOutcome "none" "" recapSkippedOverflow usage
                else MkRecapOutcome "none" "" (recapCause err) usage
              | None, None =>
                if String.eqb text "" then MkRecapOutcome "none" "" recapEmpty usage
                else MkRecapOutcome (rw_Name writer) text "" usage
              end))
    end
  end.

(** *** Merging *)

Definition merged_part (segment : Segment) : list MergedSegment :=
  match sg_Merged segment with
  | [] => [MkMerged (sg_Number segment) (sg_From segment) (sg_To segment) (sg_Source segment)]
  | merged => merged
  end.

(** The end of the loop of [buildMerged]: a later [To]. *)
Definition later (to t : gotime) : gotime := if (to <? t)%Z then t else to.

Definition merged_source (merged : list MergedSegment) : SegmentSource :=
  match head merged, last merged with
  | Some first, Some last_ =>
    if bool_decide (so_Ref (mg_Source first) = so_Ref (mg_Source last_))
    then MkSource (so_Ref (mg_Source first)) (so_FromNumber (mg_Source first)) (so_ToNumber (mg_Source last_))
    else MkSource (MkRecordRef "" "") 0 0
  | _, _ => MkSource (MkRecordRef "" "") 0 0
  end.

Definition merged_text (label : string) : string :=
  ("Segments " ++ label ++ ", merged. Only their recap is kept here; the conversation, reasoning, intermediate" ++ nl
   ++ "steps and tool results were left out. read_segment(n) returns each of them in full, for n in " ++ label ++ ".")%string.

Definition buildMerged (number : Z) (segments : list Segment) (recap : string) (loc : option Location) : Segment :=
  let loc := default UTC loc in
  let merged := segments ≫= merged_part in
  let from := foldl earlier 0%Z (sg_From <$> segments) in
  let to := foldl later 0%Z (sg_To <$> segments) in
  let label := rangeLabel (mg_Number <$> merged) in
  let messages := add_parts (add_parts [] RoleUser
      [taggedPart TagSegment ([("n", label)] ++ time_attrs loc from to) (merged_text label)])
      RoleUser [taggedPart TagRecap [("n", label)] (escaped recap)] in
  MkSegment number from to (merged_source merged) (stamp_ids number messages) 0 [] recap
    (foldl (fun tools id => if bool_decide (id ∈ tools) then tools else tools ++ [id]) [] (segments ≫= sg_LoadedTools))
    merged.

(** [failMerge]. *)
Definition failMerge (why : CompactionWhy) (result : MergeResult) (reason : string) (cause : ErrorCode) (err : error) (s : S)
    : S * MergeResult :=
  (emit_failed why cause s, result <| ml_Reason := reason |> <| ml_Error := Some (publicMergeError reason err) |>).

(** What [mergeRecap] comes to: the Recap and its writer, an error that leaves the Segments
    unmerged, or the end of the context. *)
Inductive mergeRecapped : Type :=
| MergeRecap (name recap : string) (usage : option Usage)
| MergeRecapErr (err : error) (usage : option Usage)
| MergeStopped (err : error).

Definition mergeRecap (ctx_err : option error) (c : Compactor) (replaced : list Segment) : mergeRecapped :=
  let loc := po_Location (co_Policy c) in
  match (match co_Recap c with Some w => match rw_WriteMergeRecap w with Some f => Some (w, f) | None => None end | None => None end) with
  | None => MergeRecap mergeDigestName (mergeDigest replaced (default UTC loc)) None
  | Some (writer, write) =>
    let (message, writeErr) := write (MkMergeRequest replaced loc) in
    match ctx_err with
    | Some err => MergeStopped err
    | None =>
      let usage := if bool_decide (m_Usage message = usage_zero) then None else Some (m_Usage message) in
      match writeErr with
      | Some err => MergeRecapErr err usage
      | None =>
        match ValidateRecap (TextOf message) with
        | Ok recap => MergeRecap (rw_Name writer) recap usage
        | Err err => MergeRecapErr err usage
        end
      end
    end
  end.

Definition without_usage (messages : list Message) : list Message := (fun m => m <| m_Usage := usage_zero |>) <$> messages.

Definition commitMerge (c : Compactor) (why : CompactionWhy) (result : MergeResult) (segments : list Segment) (count : nat)
    (recapName recap : string) (s : S) : S * MergeResult :=
  let replaced := take count segments in
  let before := flatten segments ++ ss_Tail s in
  let merged := buildMerged (ss_NextSegment s) replaced recap (po_Location (co_Policy c)) in
  let tail := without_usage (ss_Tail s) in
  let after := sg_Messages merged ++ flatten (drop count segments) ++ tail in
  let rec := MkCompaction now (Z.of_nat (length (flatten replaced))) "" "" recapName ""
    (Z.of_nat (length (json_array (json_message <$> before)))) (Z.of_nat (length (json_array (json_message <$> after))))
    (sg_Number merged) (Numbers merged) (EstimateTokens before) (EstimateTokens after)
    (EffectiveCeilingTokens (co_Policy c)) (ml_RecapUsage result) (ss_LoadedTools s) in
  match ss_MergeSegments now why merged (sg_Number <$> replaced) tail (Some rec) s with
  | (s, Err err) => failMerge why result MergeReasonWriteFailed (causeOf err) err s
  | (s, Ok _) =>
    (s, result <| ml_Merged := true |> <| ml_Reason := "" |> <| ml_Segment := sg_Number merged |>
        <| ml_Replaced := Numbers merged |> <| ml_Recap := recapName |>
        <| ml_TokensBefore := cn_TokensBefore rec |> <| ml_TokensAfter := cn_TokensAfter rec |>)
  end.

(** What the frame accepts of a Picker. *)
Definition picked (c : Compactor) (segments : list Segment) (budget : Z) : outcome nat :=
  let? count := callPart "Picker" (ask_picker c segments budget) in
  if (count <? 0)%Z || (count =? 1)%Z || (Z.of_nat (length segments) <? count)%Z
  then Err (Wrapf (Text "%w: the Picker returned %d for %d Segments; a merge replaces two or more of the first"
              [FNum count; FNum (Z.of_nat (length segments))]) ErrBadPart)
  else Ok (Z.to_nat count).

Definition segments_size (segments : list Segment) : Z := sum_sizes (segment_size <$> segments).

Definition mergeOldest (ctx_err : option error) (c : Compactor) (budget : Z) (why : CompactionWhy) (s : S)
    : S * (MergeResult * option error) :=
  let budget := if (budget <=? 0)%Z then segmentsBudget (EffectiveCeilingTokens (co_Policy c)) else budget in
  let why := if String.eqb why "" then CompactionWhyPastBudget else why in
  let segments := ss_Segments s in
  let result := MkMergeResult false "" None budget (segments_size segments) 0 [] "" None 0 0 in
  if (ml_SegmentTokens result <=? budget)%Z then (s, (result <| ml_Reason := MergeReasonUnderBudget |>, None))
  else if (length segments <? 2)%nat then (s, (result <| ml_Reason := MergeReasonNothingToMerge |>, None))
  else
    match picked c segments budget with
    | Err err =>
      let (s, result) := failMerge why result MergeReasonPickFailed (causeOf err) err (emit_started why s) in
      (s, (result, None))
    | Ok O => (s, (result <| ml_Reason := MergeReasonNothingToMerge |>, None))
    | Ok count =>
      let s := emit_started why s in
      match mergeRecap ctx_err c (take count segments) with
      | MergeStopped err => (emit_failed why (causeOf err) s, (result, Some err))
      | MergeRecapErr err usage =>
        let cause := if errors_Is err ErrBadRecap then CodeModelProtocolFailure else CodeModelFailure in
        let (s, result) := failMerge why (result <| ml_RecapUsage := usage |>) MergeReasonRecapFailed cause err s in
        (s, (result, None))
      | MergeRecap name recap usage =>
        let (s, result) := commitMerge c why (result <| ml_RecapUsage := usage |>) segments count name recap s in
        (s, (result, None))
      end
    end.

(** [mergeAfterClose]. *)
Definition mergeAfterClose (ctx_err : option error) (c : Compactor) (why : CompactionWhy) (result : Result) (s : S)
    : S * (Result * option error) :=
  match mergeOldest ctx_err c (effectiveBudget (co_Policy c)) why s with
  | (s, (_, Some err)) => (s, (result, Some err))
  | (s, (merge, None)) =>
    if ml_Merged merge || has_error merge then
      let merged := contextOf s in
      (s, (result <| rt_Merge := Some merge |> <| rt_MessagesAfter := Z.of_nat (length merged) |>
                  <| rt_TokensAfter := EstimateTokens merged |>, None))
    else (s, (result, None))
  end.

(** [skippedResult]. *)
Definition skippedResult (reason : string) (all : list Message) (s : S) : Result :=
  let n := Z.of_nat (length all) in
  MkResult (ss_ID s) false reason n n (EstimateTokens all) (EstimateTokens all) None None.

Definition emit_unloaded (s : S) (id : string) : S :=
  ss_Emit now (EToolUnloaded (MkToolUnloaded (sessionHeader s) id ToolUnloadedWhyCompaction)) s.

(** The [Compaction] that [runCompact] records. *)
Definition compaction_of (call : compactCall) (stretch : list Message) (cut : nat) (recap : recapOutcome) (segment : Segment)
    (all after : list Message) (kept : list string) : Compaction :=
  MkCompaction now (Z.of_nat cut)
    (match head stretch with Some m => m_ID m | None => "" end)
    (match last (take cut stretch) with Some m => m_ID m | None => "" end)
    (ro_name recap) (ro_failure recap)
    (Z.of_nat (length (json_array (json_message <$> all)))) (Z.of_nat (length (json_array (json_message <$> after))))
    (sg_Number segment) [] (EstimateTokens all) (EstimateTokens after)
    (EffectiveCeilingTokens (co_Policy (cc_Compactor call))) (ro_usage recap) kept.

(** [runCompact], from the Segment on: the write and what follows it. *)
Definition closeCompact (ctx : Ctx) (call : compactCall) (why : CompactionWhy) (segments : list Segment)
    (stretch : list Message) (cut : nat) (recap : recapOutcome) (s : S) : S * (Result * option error) :=
  let policy := co_Policy (cc_Compactor call) in
  let all := flatten segments ++ stretch in
  let closed := take cut stretch in
  let tail := keptTail (drop cut stretch) (po_DropReasoning policy) in
  let loaded := ss_LoadedTools s in
  let '(from, to, _) := stamps closed (ss_Position s) in
  let info := MkSegmentInfo (ss_NextSegment s) from to (Some (default UTC (po_Location policy))) (ro_text recap) (ss_Position s) in
  match segmentOf call closed info loaded with
  | Err err => (emit_failed why (causeOf err) s, (result_zero, Some err))
  | Ok segment =>
    let kept := keptTools loaded (sg_LoadedTools segment) tail in
    let after := flatten segments ++ sg_Messages segment ++ tail in
    let rec := compaction_of call stretch cut recap segment all after kept in
    match ss_CloseSegment now why segment tail (Some rec) s with
    | (s, Err err) => (emit_failed why (causeOf err) s, (result_zero, Some err))
    | (s, Ok _) =>
      let s := foldl emit_unloaded s (filter (fun id => id ∉ kept) loaded) in
      let result := MkResult (ss_ID s) true "" (Z.of_nat (length all)) (Z.of_nat (length after))
        (cn_TokensBefore rec) (cn_TokensAfter rec) (Some rec) None in
      mergeAfterClose (cx_merge ctx) (cc_Compactor call) why result s
    end
  end.

(** [runCompact]: the new state, the Result, and the error if there is one. *)
Definition runCompact (ctx : Ctx) (call : compactCall) (s : S) : S * (Result * option error) :=
  match Validate (cc_Compactor call) with
  | Some err => (s, (result_zero, Some err))
  | None =>
    let segments := ss_Segments s in
    let stretch := ss_Tail s in
    let all := flatten segments ++ stretch in
    if (0 <? cc_minTokens call)%Z && (EstimateTokens stretch <? cc_minTokens call)%Z
    then (s, (skippedResult CompactReasonBelowMinTokens all s, None))
    else
      let why := if String.eqb (cc_why call) "" then CompactionWhyOnDemand else cc_why call in
      match cutOf call stretch with
      | Err err => (emit_failed why (causeOf err) (emit_started why s), (result_zero, Some err))
      | Ok O => (s, (skippedResult CompactReasonNothingToClose all s, None))
      | Ok cut =>
        match writeRecap (cx_recap ctx) call (take cut stretch) why (emit_started why s) with
        | (s, Err err) => (s, (result_zero, Some err))
        | (s, Ok recap) => closeCompact ctx call why segments stretch cut recap s
        end
      end
  end.

(** *** On demand *)

Record CompactConfig := MkCompactConfig {
  cfg_Policy : CompactPolicy;
  cfg_KeepMessages : Z;
  cfg_MinTokens : Z;
  cfg_Recap : option RecapWriter;
}.

(** [Compact], with the options [WithRecapContext] and [WithCompactionWhy] given. *)
Definition Compact (ctx : Ctx) (c : Compactor) (cfg : CompactConfig) (context : option (outcome ModelRequest))
    (why : CompactionWhy) (s : S) : S * (Result * option error) :=
  let c := c <| co_Policy := overriddenBy (co_Policy c) (cfg_Policy cfg) |> in
  let c := match cfg_Recap cfg with Some r => c <| co_Recap := Some r |> | None => c end in
  let c := if (0 <? cfg_KeepMessages cfg)%Z
    then c <| co_Cut := Some (fun stretch info => Returned (Z.of_nat (TailBudget_Cut (MkTailBudget (cfg_KeepMessages cfg) 0) stretch info))) |>
    else c in
  runCompact ctx (MkCompactCall c (cfg_MinTokens cfg) context false "" "" why) s.
End frame.
