(* ===== verification/Compaction.v ===== *)
(** * What a compaction can do to a Session

    The laws that the frame relies on of a [SegmentStore], the live Record as one that keeps
    them, and what holds of a compaction whatever its parts answer. *)

From S2P Require Import Prelude GoStrings Text Ref Errors Types Events Entry Record Simulation Durable Rebuild Recovery.
From S2P Require Import Request Cut SegmentBuild Digest Compactor.
Local Open Scope string_scope.
Local Open Scope list_scope.

(** ** The contract of a store *)

(** Two states that a compaction cannot tell apart. *)
Record same_reads {S} `{SegmentStore S} (s s' : S) : Prop := {
  sr_ID : ss_ID s' = ss_ID s;
  sr_Tail : ss_Tail s' = ss_Tail s;
  sr_Segments : ss_Segments s' = ss_Segments s;
  sr_NextSegment : ss_NextSegment s' = ss_NextSegment s;
  sr_LoadedTools : ss_LoadedTools s' = ss_LoadedTools s;
}.

#[export] Instance same_reads_preorder {S} `{SegmentStore S} : PreOrder (@same_reads S _).
Proof. split; [by intros s|]. intros s1 s2 s3 [] []. split; congruence. Qed.

(** A Segment as the store keeps it. *)
Definition kept_segment (segment : Segment) : Segment :=
  segment <| sg_Rendered := Z.of_nat (length (sg_Messages segment)) |>.

(** A write is one batch: when it fails, nothing that a read can see changed.  The laws are of
    the states that [ss_ok] holds of, which every operation keeps. *)
Class SegmentStoreLaws (S : Type) `{SegmentStore S} := {
  ss_ok : S -> Prop;
  ss_emit_ok now event s : ss_ok s -> ss_ok (ss_Emit now event s) /\ same_reads s (ss_Emit now event s);
  ss_close_spec now why segment tail compaction s :
    ss_ok s -> sg_Number segment = ss_NextSegment s ->
    match ss_CloseSegment now why segment tail (Some compaction) s with
    | (s', Err _) => ss_ok s' /\ same_reads s s'
    | (s', Ok _) =>
      ss_ok s' /\ ss_ID s' = ss_ID s /\ ss_Segments s' = ss_Segments s ++ [kept_segment segment] /\
      ss_Tail s' = tail /\ ss_LoadedTools s' = cn_LoadedTools compaction
    end;
  ss_merge_spec now why merged replaces tail compaction s :
    ss_ok s -> sg_Number merged = ss_NextSegment s ->
    match ss_MergeSegments now why merged replaces tail (Some compaction) s with
    | (s', Err _) => ss_ok s' /\ same_reads s s'
    | (s', Ok _) =>
      ss_ok s' /\ ss_ID s' = ss_ID s /\
      ss_Segments s' = kept_segment merged :: drop (length replaces) (ss_Segments s) /\
      ss_Tail s' = tail /\ ss_LoadedTools s' = ss_LoadedTools s
    end;
}.

(** ** The live Record *)

#[export] Instance record_store : SegmentStore SessionRecord := {|
  ss_ID := r_id;
  ss_Tail := Tail;
  ss_Segments := segmentsLocked;
  ss_NextSegment := NextSegment;
  ss_Position r id := r_positions r !! id;
  ss_LoadedTools := r_loaded;
  ss_Emit := Emit;
  ss_CloseSegment := CloseSegment;
  ss_MergeSegments := MergeSegments;
|}.

Lemma emit_reads now event r : holds_used r -> holds_used (Emit now event r) /\ same_reads r (Emit now event r).
Proof.
  intros Hu. pose proof (emit_erase now (WithSession event (r_id r)) r) as He. fold (Emit now event r) in He.
  assert (Hf : forall A (f : SessionRecord -> A), (forall x, f x = f (erase x)) -> f (Emit now event r) = f r).
  { intros A f Hf. by rewrite (Hf (Emit now event r)), He, <-Hf. }
  split.
  - unfold holds_used. by rewrite (Hf _ r_used), (Hf _ r_closed).
  - split; cbn; [by apply (Hf _ r_id)|by apply (Hf _ Tail)|by apply (Hf _ segmentsLocked)|by apply (Hf _ NextSegment)|by apply (Hf _ r_loaded)].
Qed.

Lemma prefix_length r : length (prefix r) = prefixLen r.
Proof.
  unfold prefix, prefixLen. induction (r_used r) as [|n l IH]; [done|]. rewrite fmap_cons. cbn [foldr].
  rewrite <-IH. apply length_app.
Qed.

Lemma tail_after r tail : r_messages r = prefix r ++ tail -> Tail r = tail.
Proof. intros E. unfold Tail. by rewrite E, <-prefix_length, drop_app_length. Qed.

Lemma frozen_kept r segment : sg_Number segment = NextSegment r -> frozen r segment = kept_segment segment.
Proof.
  intros E. unfold frozen, kept_segment. destruct (Z.eqb_spec (sg_Number segment) 0) as [Ez|]; [|done]. f_equal.
  unfold NextSegment in E. rewrite <-E. by destruct segment.
Qed.

Lemma other_segments r r2 closed numbers :
  r_closed r2 = <[sg_Number closed := closed]> (r_closed r) -> r_closed r !! sg_Number closed = None ->
  Forall (fun n => is_Some (r_closed r !! n)) numbers ->
  closed_segment r2 <$> numbers = closed_segment r <$> numbers /\ Forall (fun n => is_Some (r_closed r2 !! n)) numbers.
Proof.
  intros Hc Hf. induction 1 as [|n l [x Hn] _ [IH1 IH2]]; [done|].
  assert (Hlook : r_closed r2 !! n = r_closed r !! n) by (rewrite Hc; apply lookup_insert_ne; congruence).
  rewrite !fmap_cons, IH1. unfold closed_segment at 1 3. rewrite Hlook. split; [done|].
  constructor; [|done]. rewrite Hlook. by eexists.
Qed.

Lemma record_close now why segment tail compaction r :
  holds_used r -> sg_Number segment = ss_NextSegment r ->
  match ss_CloseSegment now why segment tail (Some compaction) r with
  | (s', Err _) => holds_used s' /\ same_reads r s'
  | (s', Ok _) =>
    holds_used s' /\ ss_ID s' = ss_ID r /\ ss_Segments s' = ss_Segments r ++ [kept_segment segment] /\
    ss_Tail s' = tail /\ ss_LoadedTools s' = cn_LoadedTools compaction
  end.
Proof.
  intros Hu Hn. cbn in *.
  pose proof (CloseSegment_spec now why segment tail (Some compaction) r) as Hs.
  destruct (CloseSegment now why segment tail (Some compaction) r) as [r2 [closed|err]]; [|by subst].
  destruct Hs as (Hused & Hcl & Hfree & Hm & _ & _ & Hfr & Hid & Hld). rewrite (frozen_kept _ _ Hn) in Hfr.
  destruct (other_segments _ _ _ _ Hcl Hfree Hu) as [H1 H2].
  assert (Hnew : closed_segment r2 (sg_Number closed) = closed).
  { unfold closed_segment. by rewrite Hcl, lookup_insert, decide_True. }
  split_and!; [|done| |by apply tail_after|done].
  - unfold holds_used. rewrite Hused. apply list.Forall_app. split; [done|]. constructor; [|done].
    rewrite Hcl, lookup_insert, decide_True by done. by eexists.
  - unfold segmentsLocked. rewrite Hused, fmap_app, H1. cbn. by rewrite Hnew, Hfr.
Qed.

Lemma record_merge now why merged replaces tail compaction r :
  holds_used r -> sg_Number merged = ss_NextSegment r ->
  match ss_MergeSegments now why merged replaces tail (Some compaction) r with
  | (s', Err _) => holds_used s' /\ same_reads r s'
  | (s', Ok _) =>
    holds_used s' /\ ss_ID s' = ss_ID r /\
    ss_Segments s' = kept_segment merged :: drop (length replaces) (ss_Segments r) /\
    ss_Tail s' = tail /\ ss_LoadedTools s' = ss_LoadedTools r
  end.
Proof.
  intros Hu Hn. cbn in *.
  pose proof (MergeSegments_spec now why merged replaces tail (Some compaction) r) as Hs.
  destruct (MergeSegments now why merged replaces tail (Some compaction) r) as [r2 [closed|err]]; [|by subst].
  destruct Hs as ((rest & Hr & Hused) & Hcl & Hfree & Hm & _ & _ & Hfr & Hid & Hld). rewrite (frozen_kept _ _ Hn) in Hfr.
  unfold holds_used in Hu. rewrite Hr in Hu. apply list.Forall_app in Hu as [_ Hu].
  destruct (other_segments _ _ _ _ Hcl Hfree Hu) as [H1 H2].
  assert (Hnew : closed_segment r2 (sg_Number closed) = closed).
  { unfold closed_segment. by rewrite Hcl, lookup_insert, decide_True. }
  split_and!; [|done| |by apply tail_after|done].
  - unfold holds_used. rewrite Hused. constructor; [|done]. rewrite Hcl, lookup_insert, decide_True by done. by eexists.
  - unfold segmentsLocked. rewrite Hused, Hr, fmap_app. cbn. rewrite Hnew, Hfr, H1. f_equal.
    by rewrite <-(length_fmap (closed_segment r) replaces), drop_app_length.
Qed.

#[export] Instance record_store_laws : SegmentStoreLaws SessionRecord := {|
  ss_ok := holds_used;
  ss_emit_ok := emit_reads;
  ss_close_spec := record_close;
  ss_merge_spec := record_merge;
|}.

(** ** Lemmas on the frame *)

Lemma numbers_of_parts segments : mg_Number <$> (segments ≫= merged_part) = numbersOf segments.
Proof.
  unfold numbersOf. induction segments as [|x l IH]; [done|]. cbn [mbind list_bind]. rewrite fmap_app. f_equal; [|exact IH].
  unfold merged_part, Numbers. by destruct (sg_Merged x).
Qed.

Lemma merged_parts_some segments : segments <> [] -> segments ≫= merged_part <> [].
Proof. destruct segments as [|x l]; [done|]. intros _. cbn. unfold merged_part. by destruct (sg_Merged x). Qed.

Lemma merged_numbers UTC number segments recap loc :
  segments <> [] -> Numbers (buildMerged UTC number segments recap loc) = numbersOf segments.
Proof.
  intros Hne. unfold Numbers, buildMerged. cbn [sg_Merged]. pose proof (merged_parts_some _ Hne) as H.
  rewrite <-numbers_of_parts. by destruct (segments ≫= merged_part).
Qed.

Lemma numbersOf_app a b : numbersOf (a ++ b) = numbersOf a ++ numbersOf b.
Proof. apply bind_app. Qed.

Lemma without_usage_kept l b : without_usage (keptTail l b) = keptTail l b.
Proof. unfold without_usage, keptTail. rewrite <-list_fmap_compose. apply list_fmap_ext. by intros i m _; cbn; destruct b. Qed.

Section frame.
Context `{Encoding} (UTC : Location) {St : Type} `{SegmentStoreLaws St} (now : gotime).

(** A state that the operation may leave: the same to a reader. *)
Definition unchanged (s s' : St) : Prop := ss_ok s' /\ same_reads s s'.

Lemma unchanged_refl s : ss_ok s -> unchanged s s.
Proof. by split. Qed.

Lemma unchanged_emit s s' event : unchanged s s' -> unchanged s (ss_Emit now event s').
Proof. intros [Hok Hr]. destruct (ss_emit_ok now event s' Hok). split; [done|by etrans]. Qed.

Lemma unchanged_trans s1 s2 s3 : unchanged s1 s2 -> unchanged s2 s3 -> unchanged s1 s3.
Proof. intros [_ H12] [Hok H23]. split; [done|by etrans]. Qed.

(** What a merge leaves. *)
Definition was_merged (s s' : St) : Prop :=
  ss_ok s' /\ ss_ID s' = ss_ID s /\ ss_LoadedTools s' = ss_LoadedTools s /\ ss_Tail s' = without_usage (ss_Tail s) /\
  exists n merged, (2 <= n <= length (ss_Segments s))%nat /\ Numbers merged = numbersOf (take n (ss_Segments s)) /\
    ss_Segments s' = merged :: drop n (ss_Segments s).

Lemma picked_range c segments budget n :
  picked c segments budget = Ok n -> n = O \/ (2 <= n <= length segments)%nat.
Proof.
  unfold picked. destruct (callPart "Picker" (ask_picker c segments budget)) as [count|]; cbn [rbind]; [|done].
  destruct ((count <? 0)%Z || (count =? 1)%Z || (Z.of_nat (length segments) <? count)%Z) eqn:E; [done|].
  apply orb_false_iff in E as [[?%Z.ltb_ge ?%Z.eqb_neq]%orb_false_iff ?%Z.ltb_ge]. intros [= <-]. lia.
Qed.

Lemma kept_numbers segment : Numbers (kept_segment segment) = Numbers segment.
Proof. done. Qed.

Lemma commitMerge_spec c why result count name recap s :
  ss_ok s -> (2 <= count <= length (ss_Segments s))%nat -> ml_Merged result = false ->
  let '(s', r) := commitMerge UTC now c why result (ss_Segments s) count name recap s in
  if ml_Merged r then was_merged s s' else unchanged s s'.
Proof.
  intros Hok Hc Hr. unfold commitMerge. cbv zeta.
  set (merged := buildMerged UTC (ss_NextSegment s) (take count (ss_Segments s)) recap (po_Location (co_Policy c))).
  set (rec := MkCompaction _ _ _ _ _ _ _ _ _ _ _ _ _ _ _).
  pose proof (ss_merge_spec now why merged (sg_Number <$> take count (ss_Segments s)) (without_usage (ss_Tail s)) rec s Hok eq_refl) as Hs.
  destruct (ss_MergeSegments now why merged _ _ (Some rec) s) as [s' [closed|err]]; cbn.
  - destruct Hs as (Hok' & Hid & Hseg & Ht & Hl). split_and!; [done|done|done|done|].
    exists count, (kept_segment merged). rewrite kept_numbers. split_and!; [lia|lia| |].
    + apply merged_numbers. destruct (ss_Segments s); [cbn in Hc; lia|]. destruct count; [lia|done].
    + rewrite Hseg, length_fmap, length_take. by rewrite Nat.min_l by lia.
  - rewrite Hr. apply unchanged_emit. exact Hs.
Qed.

Lemma mergeOldest_spec ctx_err c budget why s :
  ss_ok s ->
  let '(s', (r, err)) := mergeOldest UTC now ctx_err c budget why s in
  if ml_Merged r then was_merged s s' else unchanged s s'.
Proof.
  intros Hok. unfold mergeOldest. cbv zeta. destruct (_ <=? _)%Z eqn:?; [by apply unchanged_refl|].
  destruct (length (ss_Segments s) <? 2)%nat; [by apply unchanged_refl|].
  destruct (picked c (ss_Segments s) _) as [count|err] eqn:Ep; [|by do 2 apply unchanged_emit; apply unchanged_refl].
  apply picked_range in Ep. destruct count as [|count']; [by apply unchanged_refl|]. destruct Ep as [|Hc]; [done|].
  set (count := S count') in *. set (s1 := emit_started now _ s).
  assert (Hs1 : unchanged s s1) by by apply unchanged_emit, unchanged_refl. destruct Hs1 as [Hok1 Hr1].
  destruct (mergeRecap UTC ctx_err c (take count (ss_Segments s))) as [name recap usage|err usage|err].
  - set (result := _ <| ml_RecapUsage := usage |>).
    pose proof (commitMerge_spec c (if String.eqb why "" then CompactionWhyPastBudget else why) result count name recap s1 Hok1) as Hm.
    rewrite (sr_Segments _ _ Hr1) in Hm. specialize (Hm Hc eq_refl).
    destruct (commitMerge _ _ _ _ _ _ _ _ _ s1) as [s' r]. destruct (ml_Merged r).
    + destruct Hm as (? & Hid & Hl & Ht & n & merged & ? & ? & ?). destruct Hr1.
      split_and!; [done|congruence|congruence|congruence|]. exists n, merged.
      rewrite sr_Segments0 in *. split_and!; [lia|lia|done|done].
    + by eapply unchanged_trans; [split|].
  - cbn. by apply unchanged_emit.
  - cbn. by apply unchanged_emit.
Qed.

(** What a compaction that closed a Segment leaves, merged after it or not. *)
Definition was_compacted (call : compactCall) (s s' : St) : Prop :=
  exists cut built recap segment,
    (0 < cut <= length (ss_Tail s))%nat /\
    (turn_boundary (ss_Tail s) cut \/ cc_keepLastTurn call = true /\ cut = lastTurnStart (ss_Tail s) (cc_run call)) /\
    (cc_keepLastTurn call = true -> (cut <= lastTurnStart (ss_Tail s) (cc_run call))%nat) /\
    checkSegment built (take cut (ss_Tail s)) = None /\
    sg_Number segment = ss_NextSegment s /\ sg_Merged segment = [] /\
    sg_Messages segment = stamp_ids (ss_NextSegment s) (append_recap (ss_NextSegment s) recap (sg_Messages built)) /\
    ss_Tail s' = keptTail (drop cut (ss_Tail s)) (po_DropReasoning (co_Policy (cc_Compactor call))) /\
    (ss_Segments s' = ss_Segments s ++ [segment] \/
     exists n merged, (2 <= n <= S (length (ss_Segments s)))%nat /\
       Numbers merged = numbersOf (take n (ss_Segments s ++ [segment])) /\
       ss_Segments s' = merged :: drop n (ss_Segments s ++ [segment])).

Lemma cutOf_spec call stretch cut :
  cutOf call stretch = Ok cut ->
  (cut <= length stretch)%nat /\
  (cut = O \/ turn_boundary stretch cut \/ cc_keepLastTurn call = true /\ cut = lastTurnStart stretch (cc_run call)) /\
  (cc_keepLastTurn call = true -> (cut <= lastTurnStart stretch (cc_run call))%nat).
Proof.
  unfold cutOf. destruct (callPart _ _) as [raw|]; cbn [rbind]; [|done]. destruct (_ || _); [done|].
  destruct (turnCut_spec stretch raw) as (Hle & Hb & _). intros [= <-]. destruct (cc_keepLastTurn call); [|by split_and!; [|destruct Hb; [left|right; left]|]].
  split_and!; [lia| |lia]. destruct (Nat.min_spec (turnCut stretch raw) (lastTurnStart stretch (cc_run call))) as [[_ ->]|[_ ->]]; [|by right; right].
  destruct Hb; [by left|by right; left].
Qed.

Lemma segmentOf_spec call closed info loaded segment :
  segmentOf UTC call closed info loaded = Ok segment ->
  exists built, checkSegment built closed = None /\ sg_Number segment = si_Number info /\ sg_Merged segment = [] /\
    sg_Messages segment = stamp_ids (si_Number info) (append_recap (si_Number info) (si_Recap info) (sg_Messages built)).
Proof.
  unfold segmentOf. destruct (callPart _ _) as [built|]; cbn [rbind]; [|done].
  destruct (checkSegment built closed) eqn:E; [done|]. destruct (stamps closed (si_Position info)) as [[? ?] ?].
  intros [= <-]. by exists built.
Qed.

Lemma unchanged_unloads ids s s' : unchanged s s' -> unchanged s (foldl (emit_unloaded now) s' ids).
Proof. revert s'. induction ids as [|id ids IH]; intros s' Hu; [done|]. apply IH. by apply unchanged_emit. Qed.

Lemma writeRecap_unchanged ctx_err call closed why s :
  ss_ok s -> unchanged s (fst (writeRecap now ctx_err call closed why s)).
Proof.
  intros Hok. unfold writeRecap. destruct (co_Recap (cc_Compactor call)) as [writer|]; [|by apply unchanged_refl].
  destruct (match cc_context call with Some (Ok _) => _ | Some (Err _) => _ | None => _ end) as [? [? ?]].
  destruct ctx_err; [by apply unchanged_emit, unchanged_refl|by apply unchanged_refl].
Qed.

Lemma mergeAfterClose_spec ctx_err c why result s :
  ss_ok s ->
  let '(s', (r, err)) := mergeAfterClose UTC now ctx_err c why result s in
  rt_Replaced r = rt_Replaced result /\ (was_merged s s' \/ unchanged s s').
Proof.
  intros Hok. unfold mergeAfterClose. pose proof (mergeOldest_spec ctx_err c (effectiveBudget (co_Policy c)) why s Hok) as Hm.
  destruct (mergeOldest _ _ _ _ _ _ s) as [s' [merge [err|]]].
  - split; [done|]. destruct (ml_Merged merge); [by left|by right].
  - destruct (ml_Merged merge) eqn:E; cbn [orb]; [by split; [|left]|]. by destruct (has_error merge); split; [|right| |right].
Qed.

Lemma closeCompact_spec ctx call why cut recap s0 s :
  ss_ok s0 -> unchanged s0 s -> cutOf call (ss_Tail s0) = Ok cut -> (0 < cut)%nat ->
  let '(s', (r, err)) := closeCompact UTC now ctx call why (ss_Segments s0) (ss_Tail s0) cut recap s in
  ss_ok s' /\ ss_ID s' = ss_ID s0 /\ if rt_Replaced r then was_compacted call s0 s' else same_reads s0 s'.
Proof.
  intros Hok0 [Hok Hr] Hcut Hpos. destruct (cutOf_spec _ _ _ Hcut) as (Hle & Hb & Hk). destruct Hb as [?|Hb]; [lia|].
  unfold closeCompact. cbv zeta. destruct (stamps _ _) as [[from to] source].
  match goal with |- context [segmentOf UTC call _ ?i _] => set (info := i) end.
  destruct (segmentOf UTC call _ info _) as [segment|err] eqn:Es; cycle 1.
  { cbn. destruct (unchanged_emit s0 s (ECompactionFailed (MkCompactionFailed (sessionHeader now s) why (causeOf err)))) as [? Hr']; [by split|].
    split_and!; [done|apply Hr'|done]. }
  destruct (segmentOf_spec _ _ _ _ _ Es) as (built & Hchk & Hn & Hm & Hmsg). cbn in Hn, Hmsg.
  match goal with |- context [ss_CloseSegment now why segment ?t _ s] => set (tail := t) end.
  match goal with |- context [ss_CloseSegment now why segment tail (Some ?c) s] => set (rec := c) end.
  pose proof (ss_close_spec now why segment tail rec s Hok Hn) as Hs.
  destruct (ss_CloseSegment now why segment tail (Some rec) s) as [s1 [closed|err]]; cycle 1.
  { cbn. destruct (unchanged_emit s s1 (ECompactionFailed (MkCompactionFailed (sessionHeader now s1) why (causeOf err))) Hs) as [? Hr'].
    assert (same_reads s0 (emit_failed now why (causeOf err) s1)) as Hr2 by by etrans. split_and!; [done|apply Hr2|done]. }
  destruct Hs as (Hok1 & Hid1 & Hseg1 & Htail1 & _).
  match goal with |- context [mergeAfterClose _ _ _ _ _ _ ?x] => set (s2 := x) end.
  match goal with |- context [mergeAfterClose _ _ _ _ _ ?res s2] => set (result := res) end.
  destruct (unchanged_unloads (filter (fun id => id ∉ keptTools (ss_LoadedTools s) (sg_LoadedTools segment) tail) (ss_LoadedTools s)) s1 s1
    (unchanged_refl s1 Hok1)) as [Hok2 Hr2]. fold s2 in Hok2, Hr2.
  pose proof (mergeAfterClose_spec (cx_merge ctx) (cc_Compactor call) why result s2 Hok2) as Ha.
  destruct (mergeAfterClose _ _ _ _ _ result s2) as [s3 [r err]]. destruct Ha as [-> Ha]. cbn [rt_Replaced result].
  destruct Hr, Hr2. assert (Hseg2 : ss_Segments s2 = ss_Segments s0 ++ [kept_segment segment]) by congruence.
  assert (Hfin : forall s3, ss_ok s3 -> ss_ID s3 = ss_ID s2 -> ss_Tail s3 = keptTail (drop cut (ss_Tail s0)) (po_DropReasoning (co_Policy (cc_Compactor call))) ->
    (ss_Segments s3 = ss_Segments s2 \/ exists n merged, (2 <= n <= length (ss_Segments s2))%nat /\
       Numbers merged = numbersOf (take n (ss_Segments s2)) /\ ss_Segments s3 = merged :: drop n (ss_Segments s2)) ->
    ss_ok s3 /\ ss_ID s3 = ss_ID s0 /\ was_compacted call s0 s3).
  { intros s4 Hok4 Hid4 Ht4 Hs4. split_and!; [done|congruence|]. exists cut, built, (ro_text recap), (kept_segment segment).
    rewrite <-sr_NextSegment0. cbn [kept_segment sg_Number sg_Merged sg_Messages upd]. split_and!; [lia|done|done|done|done|done|done|done|done|].
    rewrite Hseg2, length_app in Hs4. cbn in Hs4. rewrite Nat.add_1_r in Hs4. exact Hs4. }
  destruct Ha as [(Hok3 & Hid3 & _ & Ht3 & Hex)|[Hok3 []]].
  - apply Hfin; [done|done| |by right]. rewrite Ht3, sr_Tail1, Htail1. apply without_usage_kept.
  - apply Hfin; [done|done|by rewrite sr_Tail2, sr_Tail1, Htail1|by left].
Qed.

Lemma runCompact_spec ctx call s :
  ss_ok s ->
  let '(s', (r, err)) := runCompact UTC now ctx call s in
  ss_ok s' /\ ss_ID s' = ss_ID s /\ if rt_Replaced r then was_compacted call s s' else same_reads s s'.
Proof.
  intros Hok. unfold runCompact. destruct (Validate _); [by split_and!|]. cbv zeta. destruct (_ && _); [by split_and!|].
  assert (Hdone : forall s' r err, unchanged s s' -> rt_Replaced r = false ->
    let '(s', (r, err)) := (s', (r, err : option error)) in ss_ok s' /\ ss_ID s' = ss_ID s /\ if rt_Replaced r then was_compacted call s s' else same_reads s s').
  { intros s' r err [Hok' Hr] Hrep. rewrite Hrep. split_and!; [done|apply Hr|done]. }
  destruct (cutOf call (ss_Tail s)) as [[|cut]|err] eqn:Ec.
  - by split_and!.
  - set (why := if String.eqb _ "" then _ else _).
    pose proof (unchanged_emit s s (ECompactionStarted (MkCompactionStarted (sessionHeader now s) why)) (unchanged_refl s Hok)) as H1'.
    fold (emit_started now why s) in H1'.
    pose proof (writeRecap_unchanged (cx_recap ctx) call (take (S cut) (ss_Tail s)) why _ (proj1 H1')) as H2'.
    destruct (writeRecap now (cx_recap ctx) call _ why _) as [s1 [recap|err]]; cbn in H2'.
    + apply closeCompact_spec; [done|by eapply unchanged_trans|done|lia].
    + apply (Hdone s1 result_zero (Some err)); [by eapply unchanged_trans|done].
  - apply (Hdone _ result_zero (Some err)); [by do 2 apply unchanged_emit; apply unchanged_refl|done].
Qed.

Lemma compacted_numbers call s s' :
  was_compacted call s s' -> numbersOf (ss_Segments s') = numbersOf (ss_Segments s) ++ [ss_NextSegment s].
Proof.
  intros (cut & built & recap & segment & _ & _ & _ & _ & Hn & Hm & _ & _ & Hs).
  assert (Hseg : numbersOf (ss_Segments s ++ [segment]) = numbersOf (ss_Segments s) ++ [ss_NextSegment s]).
  { rewrite numbersOf_app. unfold numbersOf at 2. cbn. unfold Numbers. by rewrite Hm, Hn. }
  destruct Hs as [->|(n & merged & _ & Hnum & ->)]; [done|].
  change (numbersOf (merged :: ?l)) with (Numbers merged ++ numbersOf l). by rewrite Hnum, <-numbersOf_app, take_drop.
Qed.

End frame.

(** ** Calls and their results *)

(** A result answers a call of the reply, and is of the reply's Run, or of none: the results that
    [repair] adds for the calls of a Run that a crash ended have no RunID. *)
Definition answers (reply : option Message) (m : Message) : Prop :=
  exists c, reply = Some c /\ (m_RunID m = "" \/ m_RunID c = m_RunID m) /\
    exists r call, m_ToolResult m = Some r /\ call ∈ m_ToolCalls c /\ tc_ID call = tr_CallID r.

(** The results after a reply answer calls of it. *)
Fixpoint follows (reply : option Message) (l : list Message) : Prop :=
  match l with
  | [] => True
  | m :: rest =>
    if is_result m then answers reply m /\ follows reply rest
    else follows (if is_reply m then Some m else None) rest
  end.

(** Every tool result answers a call of a reply, and nothing but results
    stands between the two. *)
Definition paired (l : list Message) : Prop := follows None l.

Lemma follows_lookup reply l i m : follows reply l -> l !! i = Some m -> is_result m = true ->
  (answers reply m /\ forall k x, (k < i)%nat -> l !! k = Some x -> is_result x = true) \/
  exists j c, (j < i)%nat /\ l !! j = Some c /\ is_reply c = true /\ answers (Some c) m /\
    forall k x, (j < k < i)%nat -> l !! k = Some x -> is_result x = true.
Proof.
  revert reply i. induction l as [|y l IH]; intros reply i Hf Hi Hr; [done|]. destruct i as [|i].
  - injection Hi as ->. cbn [follows] in Hf. rewrite Hr in Hf. left. split; [apply Hf|lia].
  - cbn in Hi. cbn [follows] in Hf. destruct (is_result y) eqn:Ey.
    + destruct Hf as [_ Hf]. destruct (IH _ _ Hf Hi Hr) as [[Ha Hb]|(j & c & Hj & Hc & Hrep & Ha & Hb)].
      * left. split; [done|]. intros [|k] x Hk Hx; [by injection Hx as <-|]. apply (Hb k x); [lia|done].
      * right. exists (S j), c. split_and!; [lia|done..|]. intros [|k] x Hk Hx; [lia|]. apply (Hb k x); [lia|done].
    + destruct (IH _ _ Hf Hi Hr) as [[(c & Hs & Ha) Hb]|(j & c & Hj & Hc & Hrep & Ha & Hb)].
      * destruct (is_reply y) eqn:Eq; [|done]. injection Hs as <-. right. exists 0%nat, y. split_and!; [lia|done|done|by exists y|].
        intros [|k] x Hk Hx; [lia|]. apply (Hb k x); [lia|done].
      * right. exists (S j), c. split_and!; [lia|done..|]. intros [|k] x Hk Hx; [lia|]. apply (Hb k x); [lia|done].
Qed.

Lemma paired_lookup l i m : paired l -> l !! i = Some m -> is_result m = true ->
  exists j c, (j < i)%nat /\ l !! j = Some c /\ is_reply c = true /\ answers (Some c) m /\
    forall k x, (j < k < i)%nat -> l !! k = Some x -> is_result x = true.
Proof. intros Hp Hi Hr. by destruct (follows_lookup _ _ _ _ Hp Hi Hr) as [[(c & [=] & _) _]|H]. Qed.

(** What [repair] adds keeps a history so: it answers calls of the reply before it. *)
Lemma follows_missing started reply c answered rest :
  reply = Some c -> follows reply rest ->
  follows reply (missing_results started (m_ToolCalls c) answered ++ rest).
Proof.
  intros -> Hf. unfold missing_results.
  assert (forall call, call ∈ unanswered (m_ToolCalls c) answered -> call ∈ m_ToolCalls c) as Hin
    by (intros call; unfold unanswered; by intros [_ ?]%list_elem_of_filter).
  induction (unanswered (m_ToolCalls c) answered) as [|call calls IH]; [done|]. cbn. split; [|apply IH; intros x Hx; apply Hin; by right].
  exists c. split; [done|]. split; [by left|]. eexists _, call. split; [done|]. split; [apply Hin; by left|done].
Qed.

Lemma repair_go_paired started reply calls answered l :
  calls = match reply with Some c => m_ToolCalls c | None => [] end ->
  follows reply l -> follows reply (repair_go started calls answered l).
Proof.
  revert reply calls answered. induction l as [|m l IH]; intros reply calls answered -> Hf; cbn [repair_go].
  - rewrite <- (app_nil_r (missing_results _ _ _)). destruct reply as [c|]; [by apply (follows_missing _ _ c)|done].
  - cbn [follows] in Hf. unfold is_result in Hf. destruct (String.eqb (m_Role m) RoleToolResult) eqn:E.
    + destruct Hf as [Ha Hf]. cbn [follows]. unfold is_result. rewrite E. split; [done|]. by apply IH.
    + assert (follows reply (m :: repair_go started (open_calls m) ∅ l)) as Hm.
      { cbn [follows]. unfold is_result. rewrite E. apply IH; [|done]. unfold open_calls, is_reply. by destruct (String.eqb (m_Role m) RoleAssistant). }
      destruct reply as [c|]; [by apply (follows_missing _ _ c)|done].
Qed.

Lemma paired_repair messages started : paired messages -> paired (repair messages started).
Proof. intros Hp. rewrite repair_reference. by apply repair_go_paired. Qed.

Lemma reply_not_result m : is_reply m = true -> is_result m = false.
Proof. unfold is_reply, is_result. intros ->%String.eqb_eq. reflexivity. Qed.

Lemma run_turn_spec l run i first k :
  (i <= length l)%nat -> run_turn l run i first = Some k ->
  (exists m, l !! k = Some m /\ is_reply m = true) \/
  (forall j m, (j < i)%nat -> l !! j = Some m -> m_RunID m = run -> is_reply m = false) /\
  (first = Some k \/ (k < i)%nat /\ exists m, l !! k = Some m /\ m_RunID m = run).
Proof.
  revert first. induction i as [|i IH]; intros first Hi; cbn [run_turn]; [by right; split; [lia|left]|].
  destruct (lookup_lt_is_Some_2 l i) as [m Hm]; [lia|]. rewrite Hm.
  destruct (String.eqb_spec (m_RunID m) run) as [Er|Er]; cbn [negb].
  - destruct (is_reply m) eqn:Ep; [intros [= <-]; left; by exists m|]. intros Hr.
    destruct (IH _ ltac:(lia) Hr) as [?|[H1 H2]]; [by left|]. right. split.
    + intros j x Hj Hx. destruct (decide (j = i)) as [->|]; [congruence|]. apply (H1 j x); [lia|done].
    + right. destruct H2 as [[= <-]|[? ?]]; [split; [lia|by exists m]|split; [lia|done]].
  - intros Hr. destruct (IH _ ltac:(lia) Hr) as [?|[H1 H2]]; [by left|]. right. split.
    + intros j x Hj Hx. destruct (decide (j = i)) as [->|]; [congruence|]. apply (H1 j x); [lia|done].
    + destruct H2 as [?|[? ?]]; [by left|right; split; [lia|done]].
Qed.

Lemma before_results_spec l i :
  (i < length l)%nat -> before_results l i = O \/ turn_boundary l (before_results l i).
Proof.
  induction i as [|i IH]; intros Hi; cbn [before_results]; [by left|].
  destruct (lookup_lt_is_Some_2 l (S i)) as [m Hm]; [lia|]. rewrite Hm. destruct (is_result m) eqn:E; [apply IH; lia|].
  right. unfold turn_boundary. by rewrite Hm.
Qed.

Lemma lastTurnStart_boundary l run : paired l -> lastTurnStart l run = O \/ turn_boundary l (lastTurnStart l run).
Proof.
  intros Hp. unfold lastTurnStart. assert (Hb : before_results l (length l - 1) = O \/ turn_boundary l (before_results l (length l - 1))).
  { destruct l as [|x l]; [by left|]. apply before_results_spec. cbn. lia. }
  destruct (String.eqb_spec run "") as [|Hne]; [done|]. destruct (run_turn l run (length l) None) as [k|] eqn:E; [|done].
  right. unfold turn_boundary. destruct (run_turn_spec l run (length l) None k (le_n _) E) as [(m & Hm & Hr)|[Hno Hk]].
  - rewrite Hm. by apply reply_not_result.
  - destruct Hk as [?|(Hlt & m & Hm & Hrun)]; [done|]. rewrite Hm. destruct (is_result m) eqn:Er; [|done].
    destruct (paired_lookup _ _ _ Hp Hm Er) as (j & c & Hj & Hc & Hrep & (? & [= <-] & Hrc & _) & _).
    destruct Hrc as [Hrc|Hrc]; [congruence|]. pose proof (Hno j c ltac:(lia) Hc ltac:(congruence)). congruence.
Qed.

Section calls.
Context `{Encoding}.

(** C40: A compaction never separates a tool call from its result, wherever the Cutter asks to
    cut and also in the middle of a Run: the call of a result that is kept is kept too, and a result that answers a closed call
    is closed.  The results of the stretch stand right after the reply that called for them, with nothing but
    results between, and are of its Run, or of none as those that a load adds for the calls
    of a Run that a crash ended: [repair] keeps a history so ([paired_repair]). *)
Theorem cut_never_splits_a_call call stretch cut i m :
  paired stretch -> cutOf call stretch = Ok cut ->
  stretch !! i = Some m -> is_result m = true ->
  exists j c, stretch !! j = Some c /\
    (exists r x, m_ToolResult m = Some r /\ x ∈ m_ToolCalls c /\ tc_ID x = tr_CallID r) /\
    ((cut <= i)%nat <-> (cut <= j)%nat).
Proof.
  intros Hp Hcut Hi Hr. destruct (paired_lookup _ _ _ Hp Hi Hr) as (j & c & Hj & Hc & Hrep & (? & [= <-] & _ & Hans) & Hbetween).
  exists j, c. split_and!; [done|done|]. split; [|lia]. intros Hle. destruct (decide (cut <= j)%nat); [done|exfalso].
  destruct (cutOf_spec _ _ _ Hcut) as (_ & Hb & _). assert (Hbd : turn_boundary stretch cut).
  { destruct Hb as [?|[?|[_ E]]]; [lia|done|]. destruct (lastTurnStart_boundary stretch (cc_run call) Hp) as [?|?]; [lia|by rewrite E]. }
  unfold turn_boundary in Hbd. destruct (stretch !! cut) as [x|] eqn:Ex.
  - destruct (decide (cut = i)) as [->|]; [congruence|]. by rewrite (Hbetween cut x ltac:(lia) Ex) in Hbd.
  - apply lookup_lt_Some in Hi. lia.
Qed.
End calls.

(** ** Witnesses *)

#[local] Instance sample_encoding : Encoding := {|
  json_compact b := Some b;
  json_message m := bytes_of (TextOf m);
  json_tool t := bytes_of (ts_ID t);
  json_string s := bytes_of s;
  sha256_hex b := string_of b;
|}.

Definition sample_location : Location := MkLocation show show show.

Definition sample_compactor : Compactor :=
  MkCompactor (MkPolicy 0 0 false 0 None) None (Some (fun stretch _ => Returned (Z.of_nat (length stretch) - 1)%Z)) None None None.

Definition sample_call : compactCall := MkCompactCall sample_compactor 0 None false "" "" "".

(** A question, a call, its result, and the reply. *)
Definition sample_messages : list Message :=
  [ (UserMessage "what is 1+1?") <| m_ID := "m1" |> <| m_RunID := "r1" |>;
    (AssistantMessage "") <| m_ID := "m2" |> <| m_RunID := "r1" |> <| m_ToolCalls := [MkToolCall "c1" "calc" [] []] |>;
    message_zero <| m_ID := "m3" |> <| m_RunID := "r1" |> <| m_Role := RoleToolResult |>
      <| m_ToolResult := Some (MkToolResult "c1" "ok" [] ∅ "" "" true None []) |>;
    (AssistantMessage "2") <| m_ID := "m4" |> <| m_RunID := "r1" |> ].

Definition sample_session : SessionRecord := WithMessages sample_messages (WithID "s" record_zero).


Lemma sample_paired : paired sample_messages.
Proof.
  cbn. split; [|done]. eexists. split; [reflexivity|]. split; [by right|]. eexists _, _. split; [reflexivity|]. split; [left|reflexivity].
Qed.

(** The same history, when a crash came before the result was stored. *)
Definition crashed_messages : list Message := repair (take 2 sample_messages) {[ "c1" ]} ++ [UserMessage "are you there?"].

Example crashed_paired : paired crashed_messages /\ m_RunID (nth 2 crashed_messages message_zero) = "".
Proof.
  split; [|reflexivity]. vm_compute. split; [|done]. eexists. split; [reflexivity|]. split; [by left|].
  eexists _, _. split; [reflexivity|]. split; [left|reflexivity].
Qed.

Lemma cut_never_splits_a_call_witness :
  exists j c, sample_messages !! j = Some c /\ ((3 <= 2)%nat <-> (3 <= j)%nat).
Proof.
  destruct (cut_never_splits_a_call sample_call sample_messages 3 2 (nth 2 sample_messages message_zero) sample_paired)
    as (j & c & Hc & _ & Hj); [vm_compute; reflexivity|reflexivity|reflexivity|]. exists j, c. split; assumption.
Defined.
