(* ===== verification/AutoCompact.v ===== *)
(** * Compaction before a model call

    [record/auto_compact.go]: the AutoCompactor asks its Trigger before every model call,
    compacts at most once per Turn, and ends a Run whose Context stays past the ceiling.
    What [ctx.Err()] answers after a compaction is an argument, like the limit that the
    error of a refused request names. *)

From S2P Require Import Prelude GoStrings Errors Types Events Request Cut SegmentBuild Digest Compactor.
From S2P Require Import Entry Record Simulation Durable Recovery Compaction.
Local Open Scope string_scope.
Local Open Scope list_scope.

(** ** Data *)

Record autoCompactor := MkAutoCompactor {
  ac_compactor : Compactor;
  ac_last : Result;
  ac_runs : Z;
  ac_turn : RunID * TurnNumber;
  ac_started : bool;
}.
#[export] Instance eta_autoCompactor : Eta autoCompactor := fun r =>
  MkAutoCompactor (ac_compactor r) (ac_last r) (ac_runs r) (ac_turn r) (ac_started r).

(** [AutoCompact]. *)
Definition AutoCompact (c : Compactor) : autoCompactor := MkAutoCompactor c result_zero 0 ("", 0%N) false.

(** [PendingTurn]; [pt_Flush] writes what the Run staged, and [pt_limit] is [refusalLimit] of
    the refusal. *)
Record PendingTurn (St : Type) := MkPendingTurn {
  pt_RunID : RunID;
  pt_Turn : TurnNumber;
  pt_Overflow : bool;
  pt_limit : Z;
  pt_Request : ModelRequest;
  pt_Flush : option (St -> St * option error);
}.
Arguments MkPendingTurn {St}.
Arguments pt_RunID {St} p.
Arguments pt_Turn {St} p.
Arguments pt_Overflow {St} p.
Arguments pt_limit {St} p.
Arguments pt_Request {St} p.
Arguments pt_Flush {St} p.

(** [int(n)] of a [uint64]. *)
Definition int_of_u64 (n : N) : Z := if (n <? 2 ^ 63)%N then Z.of_N n else (Z.of_N n - 2 ^ 64)%Z.

Section auto.
Context `{Encoding} (UTC : Location) {St : Type} `{SegmentStore St} (now : gotime).

(** The size in tokens that the last reply reported with the estimate of what follows it;
    [reversed] is what is left of the backward loop, and [after] what it passed. *)
Fixpoint reported_size (reversed after : list Message) : option Z :=
  match reversed with
  | [] => None
  | m :: rest =>
    let used := u64_add (us_InputTokens (m_Usage m)) (us_OutputTokens (m_Usage m)) in
    if is_reply m && (0 <? used)%N then Some (int_of_u64 used + EstimateTokens after)%Z
    else reported_size rest (m :: after)
  end.

(** [AutoCompactor.size]. *)
Definition size (messages : list Message) (overhead : Z) : Z :=
  match reported_size (rev messages) [] with
  | Some n => n
  | None => (EstimateTokens messages + overhead)%Z
  end.

Definition CeilingTokens (a : autoCompactor) : Z := EffectiveCeilingTokens (co_Policy (ac_compactor a)).

(** [due]; a Trigger that panics, or is due and does not say why, drops the compaction. *)
Definition due (a : autoCompactor) (state : TurnState) (s : St) : autoCompactor * St * option CompactionWhy :=
  let failed err :=
    (a <| ac_started := true |>,
     ss_Emit now (EExtensionFailed (MkExtensionFailed (sessionHeader now s) "compaction_trigger" (causeOf err))) s, None) in
  match ask_trigger (ac_compactor a) state with
  | Returned (Some why) =>
    if String.eqb why ""
    then failed (Wrapf (Text "%w: the Trigger says a compaction is due and not why" []) ErrBadPart)
    else (a, s, Some why)
  | Returned None => (a, s, None)
  | Failed err => failed err
  | Panicked what => failed (Wrapf (Text "%w: %s panicked: %v" [FStr "Trigger"; FStr what]) ErrBadPart)
  end.

Definition flushed (pending : PendingTurn St) (s : St) : St * option error :=
  match pt_Flush pending with Some flush => flush s | None => (s, None) end.

(** The text of a merge that failed stands at the end of the message. *)
Definition overflow_error (merge : MergeResult) : error :=
  RuntimeErr (ErrorOf CodeContextOverflow (Text
    "the provider refused the request as too long, the Segments alone pass their limit (about %d tokens, limit %d), and merging the oldest failed, so nothing was merged: %s"
    [FNum (ml_SegmentTokens merge); FNum (ml_BudgetTokens merge)])).

(** The last step of [compact]. *)
Definition refused_still (pending : PendingTurn St) (merge : option MergeResult) : option error :=
  match merge with
  | Some m => if pt_Overflow pending && has_error m then Some (overflow_error m) else None
  | None => None
  end.

(** [compact]: whether the Context changed, whether a compaction was dropped, and the error. *)
Definition compact (ctx : Ctx) (ctx_err : option error) (a : autoCompactor) (pending : PendingTurn St) (why : CompactionWhy) (s : St)
    : autoCompactor * St * (bool * bool * option error) :=
  match flushed pending s with
  | (s, Some err) => (a, s, (false, false, Some err))
  | (s, None) =>
    let c := ac_compactor a in
    let context := if negb (pt_Overflow pending) && negb (String.eqb why CompactionWhyOverflow)
                   then Some (Ok (pt_Request pending)) else None in
    let budget := effectiveBudget (co_Policy c) in
    let budget := if pt_Overflow pending && (0 <? pt_limit pending)%Z then Z.min budget (pt_limit pending) else budget in
    let c := c <| co_Policy := (co_Policy c) <| po_SegmentBudgetTokens := budget |> |> in
    let call := MkCompactCall c 0 context true (pt_RunID pending)
                  (if (pt_Turn pending =? 1)%N then pt_RunID pending else "") why in
    match runCompact UTC now ctx call s with
    | (s, (result, err)) =>
      let a := a <| ac_started := bool_decide (is_Some err) || rt_Replaced result |> in
      match err with
      | Some err =>
        match ctx_err with
        | Some _ => (a, s, (false, false, Some err))
        | None => (a, s, (false, true, None))
        end
      | None =>
        if rt_Replaced result then
          (a <| ac_last := result |> <| ac_runs := (ac_runs a + 1)%Z |>, s,
           (match refused_still pending (rt_Merge result) with Some e => (true, false, Some e) | None => (true, false, None) end))
        else
          match mergeOldest UTC now (cx_merge ctx) c budget why s with
          | (s, (merged, merr)) =>
            let a := a <| ac_started := ac_started a || ml_Merged merged || has_error merged |> in
            match merr with
            | Some e => (a, s, (false, false, Some e))
            | None => (a, s, (ml_Merged merged, false, refused_still pending (Some merged)))
            end
          end
      end
    end
  end.

(** [mergeOnly]. *)
Definition mergeOnly (ctx : Ctx) (a : autoCompactor) (pending : PendingTurn St) (why : CompactionWhy) (s : St)
    : autoCompactor * St * (bool * option error) :=
  match flushed pending s with
  | (s, Some err) => (a, s, (false, Some err))
  | (s, None) =>
    let '(s, (merge, err)) := mergeOldest UTC now (cx_merge ctx) (ac_compactor a) (effectiveBudget (co_Policy (ac_compactor a))) why s in
    (a <| ac_started := ml_Merged merge || has_error merge |>, s, (ml_Merged merge, err))
  end.

Definition limit_error (dropped changed : bool) (fresh ceiling : Z) : error :=
  let why :=
    if dropped then "the Context is past the ceiling and its compaction failed"
    else if negb changed then "the Context is past the ceiling and there is nothing to compact"
    else "the Context is still past the ceiling after its compaction" in
  RuntimeErr (ErrorOf CodeLimitExceeded (Text "%s (about %d tokens, ceiling %d)" [FStr why; FNum fresh; FNum ceiling])).

Definition turn_state (a : autoCompactor) (pending : PendingTurn St) (s : St) : TurnState :=
  MkTurnState (pt_RunID pending) (pt_Turn pending) (pt_Overflow pending)
    (size (contextOf s) (requestOverhead (pt_Request pending))) (CeilingTokens a)
    (if (pt_Turn pending =? 1)%N then segments_size (ss_Segments s) else 0%Z)
    (effectiveBudget (co_Policy (ac_compactor a))).

(** What [PrepareTurn] does with the key of the Turn first. *)
Definition at_turn (pending : PendingTurn St) (a : autoCompactor) : autoCompactor :=
  let key := (pt_RunID pending, pt_Turn pending) in
  if bool_decide (key = ac_turn a) then a else a <| ac_turn := key |> <| ac_started := false |>.

(** [PrepareTurn]: whether the Context changed, and the error that ends the Run. *)
Definition PrepareTurn (ctx : Ctx) (ctx_err : option error) (a : autoCompactor) (pending : PendingTurn St) (s : St)
    : autoCompactor * St * (bool * option error) :=
  match Validate (ac_compactor a) with
  | Some err => (a, s, (false, Some err))
  | None =>
    let a := at_turn pending a in
    if ac_started a then (a, s, (false, None))
    else
      let ceiling := CeilingTokens a in
      match due a (turn_state a pending s) s with
      | (a, s, None) => (a, s, (false, None))
      | (a, s, Some why) =>
        if String.eqb why CompactionWhyPastBudget then mergeOnly ctx a pending why s
        else
          match compact ctx ctx_err a pending why s with
          | (a, s, (changed, dropped, err)) =>
            if bool_decide (is_Some err) || pt_Overflow pending || (ceiling <=? 0)%Z then (a, s, (changed, err))
            else
              let fresh := (EstimateTokens (contextOf s) + requestOverhead (pt_Request pending))%Z in
              if (ceiling <? fresh)%Z then (a, s, (changed, Some (limit_error dropped changed fresh ceiling)))
              else (a, s, (changed, None))
          end
      end
  end.

(** [PendingFor]. *)
Definition PendingFor (a : autoCompactor) (request : ModelRequest) (s : St) : bool :=
  let ceiling := CeilingTokens a in
  if (ceiling <=? 0)%Z then false
  else
    let state := MkTurnState "" 2 false (size (contextOf s) (requestOverhead request)) ceiling 0
                   (effectiveBudget (co_Policy (ac_compactor a))) in
    match ask_trigger (ac_compactor a) state with
    | Returned (Some why) => negb (String.eqb why CompactionWhyPastBudget)
    | _ => false
    end.
End auto.

(** ** Lemmas *)

Section lemmas.
Context `{Encoding} (UTC : Location) {St : Type} `{SegmentStore St} (now : gotime).

Lemma due_compactor a state s : ac_compactor (due now a state s).1.1 = ac_compactor a /\ ac_turn (due now a state s).1.1 = ac_turn a.
Proof. unfold due. cbv zeta. destruct (ask_trigger _ _) as [[why|]|err|what]; try done. by destruct (String.eqb why ""). Qed.

Lemma due_started a state s why : (due now a state s).2 = Some why -> ac_started (due now a state s).1.1 = ac_started a.
Proof. unfold due. cbv zeta. destruct (ask_trigger _ _) as [[w|]|err|what]; try done. by destruct (String.eqb w ""). Qed.

Lemma compact_keeps ctx ctx_err a (pending : PendingTurn St) why s :
  let '(a', s', (changed, dropped, err)) := compact UTC now ctx ctx_err a pending why s in
  ac_compactor a' = ac_compactor a /\ ac_turn a' = ac_turn a /\
  (changed || dropped = true -> ac_started a' = true).
Proof.
  unfold compact. destruct (flushed pending s) as [s1 [err|]]; [done|]. cbv zeta.
  destruct (runCompact _ _ _ _ s1) as [s2 [result [err|]]].
  - destruct ctx_err; by cbn.
  - destruct (rt_Replaced result) eqn:E.
    + destruct (refused_still _ _); split_and!; cbn; try done; by rewrite E, orb_true_r.
    + destruct (mergeOldest _ _ _ _ _ _ s2) as [s3 [merged [err|]]]; split_and!; cbn; try done.
      rewrite orb_false_r. by intros ->.
Qed.

Lemma at_turn_keeps (pending : PendingTurn St) a :
  ac_compactor (at_turn pending a) = ac_compactor a /\ ac_turn (at_turn pending a) = (pt_RunID pending, pt_Turn pending).
Proof. unfold at_turn. cbv zeta. destruct (bool_decide_reflect ((pt_RunID pending, pt_Turn pending) = ac_turn a)); done. Qed.

Lemma PrepareTurn_keeps ctx ctx_err a (pending : PendingTurn St) s :
  Validate (ac_compactor a) = None ->
  let '(a', s', (changed, err)) := PrepareTurn UTC now ctx ctx_err a pending s in
  ac_compactor a' = ac_compactor a /\ ac_turn a' = (pt_RunID pending, pt_Turn pending) /\
  (changed = true -> ac_started a' = true).
Proof.
  intros Hv. unfold PrepareTurn. rewrite Hv. destruct (at_turn_keeps pending a) as [Hc Ht]. set (a0 := at_turn pending a) in *.
  cbv zeta. destruct (ac_started a0); [done|].
  destruct (due_compactor a0 (turn_state a0 pending s) s) as [Hc1 Ht1].
  destruct (due now a0 (turn_state a0 pending s) s) as [[a1 s1] [why|]]; cbn in Hc1, Ht1; [|split_and!; [congruence|congruence|done]].
  destruct (String.eqb why CompactionWhyPastBudget).
  - unfold mergeOnly. destruct (flushed pending s1) as [s2 [err|]]; [split_and!; [congruence|congruence|done]|].
    destruct (mergeOldest _ _ _ _ _ _ s2) as [s3 [merge err]]. cbn. split_and!; [congruence|congruence|by intros ->].
  - pose proof (compact_keeps ctx ctx_err a1 pending why s1) as Hk.
    destruct (compact _ _ _ _ a1 pending why s1) as [[a2 s2] [[changed dropped] err]]. destruct Hk as (Hc2 & Ht2 & Hs2).
    assert (changed = true -> ac_started a2 = true) by (intros ->; by apply Hs2).
    destruct (bool_decide _ || _ || _); [split_and!; [congruence|congruence|done]|]. destruct (_ <? _)%Z; split_and!; try congruence; done.
Qed.

Lemma PrepareTurn_started ctx ctx_err a (pending : PendingTurn St) s :
  Validate (ac_compactor a) = None -> ac_started a = true -> ac_turn a = (pt_RunID pending, pt_Turn pending) ->
  PrepareTurn UTC now ctx ctx_err a pending s = (a, s, (false, None)).
Proof.
  intros Hv Hs Ht. unfold PrepareTurn. rewrite Hv. unfold at_turn. cbv zeta. rewrite Ht, bool_decide_true by done. by rewrite Hs.
Qed.
End lemmas.

(** ** Properties *)

Section properties.
Context `{Encoding} (UTC : Location) {St : Type} `{SegmentStore St}.

(** A Turn compacts at most once: when [PrepareTurn] changed the Context, another call for
    the same Turn, whatever the request, the refusal and the parts are by then, touches
    nothing and answers that nothing changed, so a request that is still refused ends the
    Run and the loop of compaction and refusal is not entered. *)
Theorem turn_compacts_once now now' ctx ctx' ctx_err ctx_err' a (pending pending' : PendingTurn St) (s s2 : St) a1 s1 err :
  PrepareTurn UTC now ctx ctx_err a pending s = (a1, s1, (true, err)) ->
  pt_RunID pending' = pt_RunID pending -> pt_Turn pending' = pt_Turn pending ->
  PrepareTurn UTC now' ctx' ctx_err' a1 pending' s2 = (a1, s2, (false, None)).
Proof.
  intros Hp Hr Ht. destruct (Validate (ac_compactor a)) eqn:Hv; [by unfold PrepareTurn in Hp; rewrite Hv in Hp|].
  pose proof (PrepareTurn_keeps UTC now ctx ctx_err a pending s Hv) as Hk. rewrite Hp in Hk. destruct Hk as (Hc & Hk & Hs).
  apply PrepareTurn_started; [by rewrite Hc|by apply Hs|by rewrite Hr, Ht].
Qed.

(** With the default Trigger, a model call that was past the ceiling is made only below
    it: when a Turn starts past the ceiling and [PrepareTurn] lets it go on, what the call
    sends is estimated afresh and fits. *)
Theorem turn_goes_on_below_ceiling now ctx ctx_err a (pending : PendingTurn St) (s : St) a' s' changed :
  co_Trigger (ac_compactor a) = None -> (0 < CeilingTokens a)%Z -> pt_Overflow pending = false ->
  ac_started (at_turn pending a) = false ->
  (CeilingTokens a < size (contextOf s) (requestOverhead (pt_Request pending)))%Z ->
  PrepareTurn UTC now ctx ctx_err a pending s = (a', s', (changed, None)) ->
  (EstimateTokens (contextOf s') + requestOverhead (pt_Request pending) <= CeilingTokens a)%Z.
Proof.
  intros Htr Hpos Ho Hs Hsize. unfold PrepareTurn. destruct (Validate _); [done|]. cbv zeta. rewrite Hs.
  destruct (at_turn_keeps pending a) as [Hc _]. set (a0 := at_turn pending a) in *.
  assert (Hceil : CeilingTokens a0 = CeilingTokens a) by (unfold CeilingTokens; by rewrite Hc).
  assert (Hdue : due now a0 (turn_state a0 pending s) s = (a0, s, Some CompactionWhyPastCeiling)).
  { unfold due, ask_trigger. rewrite Hc, Htr. unfold CeilingTrigger_Due, turn_state. cbn [ts_Overflow ts_CeilingTokens ts_Tokens].
    rewrite Ho, Hceil, (proj2 (Z.ltb_lt _ _) Hpos), (proj2 (Z.ltb_lt _ _) Hsize). done. }
  rewrite Hdue. cbn [String.eqb]. change (String.eqb CompactionWhyPastCeiling CompactionWhyPastBudget) with false. cbn iota.
  destruct (compact _ _ _ _ a0 pending _ s) as [[a2 s2] [[ch dropped] err]]. rewrite Ho, Hceil, (proj2 (Z.leb_gt _ _) Hpos).
  destruct err as [err|]; cbn [orb]; [rewrite bool_decide_true by (by eexists); cbn; intros [=]|].
  rewrite bool_decide_false by (by intros []). cbn [orb].
  destruct (Z.ltb_spec (CeilingTokens a) (EstimateTokens (contextOf s2) + requestOverhead (pt_Request pending))%Z); [done|].
  by intros [= <- <- <-].
Qed.
End properties.

(** ** Witnesses *)

#[local] Existing Instance sample_encoding.

Definition sample_pending : PendingTurn SessionRecord :=
  MkPendingTurn "r1" 2 false 0 (MkRequest "" [] [] [] [] [] "") None.

(** The Message that calls the Tool says much, and the Session passes the ceiling. *)
Definition long_messages : list Message :=
  (fun m => if negb (bool_decide (m_ToolCalls m = [])) then m <| m_Parts := m_Parts (AssistantMessage (String.concat "" (replicate 100 "padding "))) |> else m)
    <$> sample_messages.

Definition long_session : SessionRecord := WithMessages long_messages (WithID "s" record_zero).

Definition sample_auto : autoCompactor :=
  AutoCompact (sample_compactor <| co_Policy := (co_Policy sample_compactor) <| po_CeilingTokens := 180%Z |> |>).

Definition sample_prepared := PrepareTurn sample_location 7 (MkCtx None None) None sample_auto sample_pending long_session.

Lemma sample_prepared_eq : sample_prepared = (sample_prepared.1.1, sample_prepared.1.2, (true, None)).
Proof.
  assert (E : sample_prepared.2 = (true, None)) by (vm_compute; reflexivity).
  rewrite <-E. generalize sample_prepared. intros [[a s] [c e]]. reflexivity.
Qed.

Lemma turn_compacts_once_witness :
  PrepareTurn sample_location 9 (MkCtx None None) None sample_prepared.1.1 (MkPendingTurn "r1" 2 true 0 (pt_Request sample_pending) None) long_session
  = (sample_prepared.1.1, long_session, (false, None)).
Proof.
  apply (turn_compacts_once sample_location 7 9 (MkCtx None None) (MkCtx None None) None None sample_auto sample_pending
    _ long_session long_session _ _ None sample_prepared_eq); reflexivity.
Defined.

Lemma turn_goes_on_below_ceiling_witness :
  (EstimateTokens (contextOf (sample_prepared.1.2 : SessionRecord)) + requestOverhead (pt_Request sample_pending) <= 180)%Z.
Proof.
  apply (turn_goes_on_below_ceiling sample_location 7 (MkCtx None None) None sample_auto sample_pending long_session
    sample_prepared.1.1 sample_prepared.1.2 true);
    [reflexivity|reflexivity|reflexivity|vm_compute; reflexivity|vm_compute; reflexivity|exact sample_prepared_eq].
Defined.
