(* ===== verification/FileSystem.v ===== *)
(** * The file system under the file store

    What [store/file.go] and its neighbours ask of the operating system, as one
    [call] per system call, and programs of such calls, so that the methods of several
    handles and processes can be interleaved between any two of them.  A file under a
    temporary name, and a directory that is being built or was renamed away, is named by
    the number of the call that made it, as its random name does; the store's directory
    then holds the directories of Records alone.  A directory remembers what of it
    would be left after a power cut: the first [ed_synced] links of an epoch directory, the
    [rd_durable] epochs of a Record's directory, and every state of the store's directory
    since it was last synced.  The journal of a directory is in order.  The epoch of a
    directory is read where it is hashed: [epoch_name] is a parameter. *)

From S2P Require Import Prelude GoStrings Errors Types Events Entry Store FileName.
Local Open Scope string_scope.
Local Open Scope list_scope.

(** ** Data *)

(** The errors of the [os] package the store tells apart. *)
Inductive osError : Type :=
| OsNotExist
| OsExist
| OsInvalid
| OsOther (text : string).

(** The error as it reaches a caller that does not look for it. *)
Definition os_error (e : osError) : error :=
  let text := match e with
              | OsNotExist => "file does not exist"
              | OsExist => "file already exists"
              | OsInvalid => "invalid argument"
              | OsOther text => text
              end in
  ForeignErr (MkForeign text None None None None).

(** [fileBatch]. *)
Record fileBatch := MkFileBatch { fb_Entries : list Entry; fb_Header : RecordHeader }.

(** A file: the batch its JSON decodes to, or [None] when it does not decode, and whether
    its content was synced. *)
Record file := MkFile { fl_batch : option fileBatch; fl_synced : bool }.

(** An epoch directory: its batches by first position, in the order they were linked. *)
Record epochDir := MkEpochDir { ed_links : list (N * file); ed_synced : nat }.
#[export] Instance eta_epochDir : Eta epochDir := fun r => MkEpochDir (ed_links r) (ed_synced r).

Record recordDir := MkRecordDir { rd_epochs : gmap string epochDir; rd_durable : gset string }.
#[export] Instance eta_recordDir : Eta recordDir := fun r => MkRecordDir (rd_epochs r) (rd_durable r).

(** The path of an epoch directory: under the name of an ID, or under the temporary name of
    call [t]. *)
Inductive dirRef : Type :=
| InRecord (name epoch : string)
| InBuilding (t : nat) (epoch : string).
#[export] Instance dirRef_eq_dec : EqDecision dirRef.
Proof. solve_decision. Defined.

(** [fileHead]. *)
Record fileHead := MkFileHead { fh_head : N; fh_first : N; fh_dir : dirRef }.

(** [fileInstance]. *)
Record fileInstance := MkFileInstance { fi_Row : InstanceRow; fi_Expires : gotime }.

(** The disk, and the memory of the handles: [w_heads] is the field [heads] of each
    handle.  [w_published] and [w_deleted] are the directories that ever were a Record's, and
    those that were renamed away; no operation reads them but to know what a temporary
    name still names. *)
Record world := MkWorld {
  w_top : gmap string nat;
  w_past : list (gmap string nat);
  w_dirs : gmap nat recordDir;
  w_published : gset nat;
  w_deleted : gset nat;
  w_temps : gmap nat file;
  w_heads : gmap (nat * string) fileHead;
  w_instances : gmap string (option fileInstance);
}.
#[export] Instance eta_world : Eta world := fun r =>
  MkWorld (w_top r) (w_past r) (w_dirs r) (w_published r) (w_deleted r) (w_temps r) (w_heads r) (w_instances r).

Definition world_empty : world := MkWorld ∅ [] ∅ ∅ ∅ ∅ ∅ ∅.

(** ** Calls *)

Inductive openRef : Type :=
| OpenTop
| OpenBuilding (t : nat)
| OpenEpoch (dir : dirRef).

(** An open directory stays the same one when a path to it is renamed. *)
Inductive dirFd : Type :=
| FdTop
| FdRecord (i : nat)
| FdEpoch (i : nat) (epoch : string).

Inductive call : Type -> Type :=
| ReadRecords : call (list string)
| ReadRecord (name : string) : call (list string)
| ReadEpoch (dir : dirRef) : call (list N)
| ReadBatchFile (dir : dirRef) (first : N) : call (option fileBatch)
| StatBatch (dir : dirRef) (first : N) : call unit
| MkdirTemp (t : nat) : call unit
| MkdirEpoch (t : nat) (epoch : string) : call unit
| CreateTemp (t : nat) (dir : dirRef) : call unit
| WriteTemp (t : nat) (batch : fileBatch) : call unit
| SyncTemp (t : nat) : call unit
| CloseTemp (t : nat) : call unit
| RemoveTemp (t : nat) : call unit
| LinkTemp (t : nat) (dir : dirRef) (first : N) : call unit
| OpenDir (d : openRef) : call dirFd
| SyncFd (fd : dirFd) : call unit
| RenameBuilding (t : nat) (name : string) : call unit
| RemoveBuilding (t : nat) : call unit
| RenameRecord (name : string) : call nat
| RemoveTomb (i : nat) : call unit
| ReadInstance (name : string) : call (option fileInstance)
| RemoveInstance (name : string) : call unit
| PrepareInstance : call unit
| RenameInstance (name : string) (row : fileInstance) : call unit
| GetHead (me : nat) (id : string) : call (option fileHead)
| SetHead (me : nat) (id : string) (h : fileHead) : call unit
| DropHead (me : nat) (id : string) : call unit.

(** The directory that a path leads to. *)
Definition dir_at (w : world) (dir : dirRef) : option nat :=
  match dir with
  | InRecord name _ => w_top w !! name
  | InBuilding t _ => if bool_decide (t ∈ w_published w) then None else Some t
  end.

Definition ref_epoch (dir : dirRef) : string :=
  match dir with InRecord _ epoch | InBuilding _ epoch => epoch end.

Definition epoch_in (w : world) (i : nat) (epoch : string) : option epochDir :=
  rd ← w_dirs w !! i; rd_epochs rd !! epoch.

Definition epoch_at (w : world) (dir : dirRef) : option epochDir :=
  i ← dir_at w dir; epoch_in w i (ref_epoch dir).

Fixpoint linked (first : N) (links : list (N * file)) : option file :=
  match links with
  | [] => None
  | (n, f) :: rest => if N.eqb n first then Some f else linked first rest
  end.

Definition set_epoch (i : nat) (epoch : string) (ed : epochDir) (w : world) : world :=
  w <| w_dirs := alter (fun rd => rd <| rd_epochs := <[epoch := ed]> (rd_epochs rd) |>) i (w_dirs w) |>.

Definition rename_top (top : gmap string nat) (w : world) : world :=
  w <| w_top := top |> <| w_past := w_past w ++ [w_top w] |>.

(** A directory with something in it, which a rename does not replace. *)
Definition occupied (w : world) (name : string) : bool :=
  match i ← w_top w !! name; w_dirs w !! i with
  | Some rd => negb (bool_decide (rd_epochs rd = ∅))
  | None => false
  end.

Definition done {A} (w : world) (a : A) : world * result osError A := (w, Ok a).
Definition refuse {A} (w : world) (e : osError) : world * result osError A := (w, Err e).

Definition exec_open (d : openRef) (w : world) : result osError dirFd :=
  match d with
  | OpenTop => Ok FdTop
  | OpenBuilding t =>
    if bool_decide (t ∈ w_published w) then Err OsNotExist
    else match w_dirs w !! t with Some _ => Ok (FdRecord t) | None => Err OsNotExist end
  | OpenEpoch dir =>
    match dir_at w dir with
    | Some i => match epoch_in w i (ref_epoch dir) with Some _ => Ok (FdEpoch i (ref_epoch dir)) | None => Err OsNotExist end
    | None => Err OsNotExist
    end
  end.

Definition exec_sync (fd : dirFd) (w : world) : world :=
  match fd with
  | FdTop => w <| w_past := [] |>
  | FdRecord i => w <| w_dirs := alter (fun rd => rd <| rd_durable := dom (rd_epochs rd) |>) i (w_dirs w) |>
  | FdEpoch i epoch =>
    match epoch_in w i epoch with
    | Some ed => set_epoch i epoch (ed <| ed_synced := length (ed_links ed) |>) w
    | None => w
    end
  end.

Definition exec_link (t : nat) (dir : dirRef) (first : N) (w : world) : world * result osError unit :=
  match w_temps w !! t, dir_at w dir with
  | Some f, Some i =>
    match epoch_in w i (ref_epoch dir) with
    | Some ed =>
      match linked first (ed_links ed) with
      | Some _ => refuse w OsExist
      | None => done (set_epoch i (ref_epoch dir) (ed <| ed_links := ed_links ed ++ [(first, f)] |>) w) tt
      end
    | None => refuse w OsNotExist
    end
  | _, _ => refuse w OsNotExist
  end.

(** What a call does when nothing fails. *)
Definition exec {A} (c : call A) (w : world) : world * result osError A :=
  match c in call A return world * result osError A with
  | ReadRecords => done w (map_to_list (w_top w)).*1
  | ReadRecord name =>
    match i ← w_top w !! name; w_dirs w !! i with
    | Some rd => done w (map_to_list (rd_epochs rd)).*1
    | None => refuse w OsNotExist
    end
  | ReadEpoch dir =>
    match epoch_at w dir with Some ed => done w (ed_links ed).*1 | None => refuse w OsNotExist end
  | ReadBatchFile dir first =>
    match ed ← epoch_at w dir; linked first (ed_links ed) with
    | Some f => done w (fl_batch f)
    | None => refuse w OsNotExist
    end
  | StatBatch dir first =>
    match ed ← epoch_at w dir; linked first (ed_links ed) with Some _ => done w tt | None => refuse w OsNotExist end
  | MkdirTemp t =>
    match w_dirs w !! t with
    | Some _ => refuse w OsExist
    | None => done (w <| w_dirs := <[t := MkRecordDir ∅ ∅]> (w_dirs w) |>) tt
    end
  | MkdirEpoch t epoch =>
    match dir_at w (InBuilding t epoch) ≫= fun i => w_dirs w !! i with
    | Some rd =>
      match rd_epochs rd !! epoch with
      | Some _ => refuse w OsExist
      | None => done (set_epoch t epoch (MkEpochDir [] 0) w) tt
      end
    | None => refuse w OsNotExist
    end
  | CreateTemp t dir =>
    match epoch_at w dir with
    | Some _ => done (w <| w_temps := <[t := MkFile None false]> (w_temps w) |>) tt
    | None => refuse w OsNotExist
    end
  | WriteTemp t batch => done (w <| w_temps := alter (fun _ => MkFile (Some batch) false) t (w_temps w) |>) tt
  | SyncTemp t => done (w <| w_temps := alter (fun f => MkFile (fl_batch f) true) t (w_temps w) |>) tt
  | CloseTemp t => done w tt
  | RemoveTemp t => done (w <| w_temps := delete t (w_temps w) |>) tt
  | LinkTemp t dir first => exec_link t dir first w
  | OpenDir d => (w, exec_open d w)
  | SyncFd fd => done (exec_sync fd w) tt
  | RenameBuilding t name =>
    if bool_decide (t ∈ w_published w) || bool_decide (w_dirs w !! t = None) then refuse w OsNotExist
    else if occupied w name then refuse w OsExist
    else done ((rename_top (<[name := t]> (w_top w)) w) <| w_published := {[t]} ∪ w_published w |>) tt
  | RemoveBuilding t =>
    if bool_decide (t ∈ w_published w) then done w tt
    else done (w <| w_dirs := delete t (w_dirs w) |>) tt
  | RenameRecord name =>
    match w_top w !! name with
    | Some i => done ((rename_top (delete name (w_top w)) w) <| w_deleted := {[i]} ∪ w_deleted w |>) i
    | None => refuse w OsNotExist
    end
  | RemoveTomb i => done (w <| w_dirs := delete i (w_dirs w) |>) tt
  | ReadInstance name =>
    match w_instances w !! name with Some row => done w row | None => refuse w OsNotExist end
  | RemoveInstance name =>
    match w_instances w !! name with
    | Some _ => done (w <| w_instances := delete name (w_instances w) |>) tt
    | None => refuse w OsNotExist
    end
  | PrepareInstance => done w tt
  | RenameInstance name row => done (w <| w_instances := <[name := Some row]> (w_instances w) |>) tt
  | GetHead me id => done w (w_heads w !! (me, id))
  | SetHead me id h => done (w <| w_heads := <[(me, id) := h]> (w_heads w) |>) tt
  | DropHead me id => done (w <| w_heads := delete (me, id) (w_heads w) |>) tt
  end.

(** The calls on a handle's own memory do not fail. *)
Definition can_fail {A} (c : call A) : bool :=
  match c with GetHead _ _ | SetHead _ _ _ | DropHead _ _ => false | _ => true end.

(** ** Programs *)

Inductive prog (A : Type) : Type :=
| Ret (a : A)
| Do {B : Type} (c : call B) (k : result osError B -> prog A).
Arguments Ret {A} a.
Arguments Do {A B} c k.

Fixpoint pbind {A B} (p : prog A) (k : A -> prog B) : prog B :=
  match p with
  | Ret a => k a
  | Do c f => Do c (fun r => pbind (f r) k)
  end.

Notation "'let!' x := p 'in' k" := (pbind p (fun x => k))
  (at level 10, x pattern, p at level 100, k at level 200) : gotato_scope.
Notation "'call!' x := c 'in' k" := (Do c (fun x => k))
  (at level 10, x pattern, c at level 100, k at level 200) : gotato_scope.

(** One program alone, with the failures of its calls: a call that can fail does so, without
    an effect, when the next element says how. *)
Fixpoint run {A} (p : prog A) (faults : list (option osError)) (w : world) : world * list (option osError) * A :=
  match p with
  | Ret a => (w, faults, a)
  | Do c k =>
    if can_fail c then
      match faults with
      | Some e :: faults => run (k (Err e)) faults w
      | None :: faults => let (w, r) := exec c w in run (k r) faults w
      | [] => let (w, r) := exec c w in run (k r) [] w
      end
    else let (w, r) := exec c w in run (k r) faults w
  end.

(** A run in which no call fails. *)
Fixpoint runs {A} (p : prog A) (w : world) : world * A :=
  match p with
  | Ret a => (w, a)
  | Do c k => let (w, r) := exec c w in runs (k r) w
  end.

(** ** Lemmas *)

Lemma runs_bind {A B} (p : prog A) (k : A -> prog B) w :
  runs (pbind p k) w = (let (w, a) := runs p w in runs (k a) w).
Proof. revert w. induction p as [a|T c f IH]; intros w; cbn; [done|]. destruct (exec c w) as [w' r]. apply IH. Qed.

Lemma run_nil {A} (p : prog A) w : run p [] w = (let (w, a) := runs p w in (w, [], a)).
Proof.
  revert w. induction p as [a|T c f IH]; intros w; cbn; [done|].
  destruct (can_fail c), (exec c w) as [w' r]; apply IH.
Qed.

Lemma linked_app first l k :
  linked first (l ++ k) = match linked first l with Some f => Some f | None => linked first k end.
Proof. induction l as [|[n f] l IH]; cbn; [done|]. by destruct (N.eqb n first). Qed.

Lemma linked_In first l f : linked first l = Some f -> (first, f) ∈ l.
Proof.
  induction l as [|[n g] l IH]; cbn; [done|]. destruct (N.eqb_spec n first) as [->|]; [intros [= ->]; by left|].
  intros ?. right. by apply IH.
Qed.

Lemma linked_None first l : linked first l = None <-> first ∉ l.*1.
Proof.
  induction l as [|[n f] l IH]; cbn; [split; [intros _; apply not_elem_of_nil|done]|].
  rewrite not_elem_of_cons. destruct (N.eqb_spec n first) as [->|Hn]; [naive_solver|]. rewrite IH. naive_solver.
Qed.

Lemma linked_Some first f l : NoDup l.*1 -> (first, f) ∈ l -> linked first l = Some f.
Proof.
  intros Hn (i & Hi)%list_elem_of_lookup. destruct (linked first l) as [g|] eqn:E.
  - apply linked_In, list_elem_of_lookup in E as [j Hj]. assert (i = j) as <-; [|congruence].
    eapply NoDup_lookup; [done|by rewrite list_lookup_fmap, Hi|by rewrite list_lookup_fmap, Hj].
  - apply linked_None in E. exfalso. apply E, list_elem_of_lookup. exists i. by rewrite list_lookup_fmap, Hi.
Qed.
