(* ===== verification/FileStore.v ===== *)
(** * The file store

    [store/file.go], [store/file_batch.go], [store/file_instance.go] and the paths of
    [store/file_name.go]: every method of a FileStore as a program of system calls.  [me] is
    the number of the handle, [t] that of the call, and [epoch_name] what the code makes of an
    epoch for a path, the start of its SHA-256 in hex.  Marshalling a batch does not fail.  The
    sweep of what crashes left behind, which removes only temporary names, and the test
    seams are left out. *)

From S2P Require Import Prelude GoStrings Errors Types Events Entry Store FileName FileSystem.
Local Open Scope string_scope.
Local Open Scope list_scope.

(** ** Names *)

Definition file_name (id : string) : string := string_of (nameOf (bytes_of id)).

Definition checkFileID (id : string) : option error :=
  match CheckID id with
  | Some err => Some err
  | None =>
    if (maxNameBytes <? slen (file_name id))%nat
    then Some (Wrapf (Text "%w %q: its file name would be longer than %d bytes" [FStr id; FNum (Z.of_nat maxNameBytes)]) ErrInvalidID)
    else None
  end.

Section file_store.
Context (epoch_name : string -> string).

Definition epochDir_ (id epoch : string) : dirRef := InRecord (file_name id) (epoch_name epoch).

(** The loop of [currentDir]. *)
Fixpoint only_epoch (id current : string) (names : list string) : outcome string :=
  match names with
  | [] => Ok current
  | name :: rest =>
    if has_prefix (bytes_of name) ["."%char] then only_epoch id current rest
    else if negb (String.eqb current "")
    then Err (ForeignErr (MkForeign ("store: " ++ id ++ " holds more than one Record") None None None None))
    else only_epoch id name rest
  end.

(** [currentDir]: the epoch directory of the Record under [id]. *)
Definition currentDir (id : string) : prog (outcome dirRef) :=
  call! names := ReadRecord (file_name id) in
  match names with
  | Err OsNotExist => Ret (Err ErrNotFound)
  | Err e => Ret (Err (os_error e))
  | Ok names =>
    Ret (let? current := only_epoch id "" names in
         if String.eqb current "" then Err ErrNotFound else Ok (InRecord (file_name id) current))
  end.

(** ** Batches *)

(** [batchFirsts]. *)
Definition batchFirsts (dir : dirRef) : prog (outcome (list N)) :=
  call! names := ReadEpoch dir in
  Ret match names with
      | Err OsNotExist => Err ErrNotFound
      | Err e => Err (os_error e)
      | Ok firsts => Ok (merge_sort N.le firsts)
      end.

(** The error of [json.Unmarshal] for a file that does not decode. *)
Definition bad_file (first : N) : error :=
  Wrapf (Text "store: %s: %w" [FNum (Z.of_N first)]) (ForeignErr (MkForeign "json" None None None None)).

(** [readBatch], with what each caller makes of a file that is gone. *)
Definition readBatch (dir : dirRef) (first : N) : prog (outcome fileBatch) :=
  call! data := ReadBatchFile dir first in
  Ret match data with
      | Err OsNotExist => Err ErrNotFound
      | Err e => Err (os_error e)
      | Ok None => Err (bad_file first)
      | Ok (Some batch) => Ok batch
      end.

(** [syncDir]. *)
Definition syncDir (d : openRef) : prog (option error) :=
  call! fd := OpenDir d in
  match fd with
  | Err e => Ret (Some (os_error e))
  | Ok fd =>
    call! r := SyncFd fd in
    Ret match r with
        | Ok _ | Err OsInvalid => None
        | Err e => Some (os_error e)
        end
  end.

Definition first_of (entries : list Entry) : N := default 0%N (en_Seq <$> entries !! 0%nat).
Definition last_of (entries : list Entry) : N := default 0%N (en_Seq <$> last entries).

(** The body of [writeBatch], once the temporary file is there. *)
Definition write_temp (t : nat) (dir : dirRef) (batch : fileBatch) : prog (option error) :=
  call! r := WriteTemp t batch in
  match r with
  | Err e => call! _ := CloseTemp t in Ret (Some (os_error e))
  | Ok _ =>
    call! r := SyncTemp t in
    match r with
    | Err e => call! _ := CloseTemp t in Ret (Some (os_error e))
    | Ok _ =>
      call! r := CloseTemp t in
      match r with
      | Err e => Ret (Some (os_error e))
      | Ok _ =>
        call! r := LinkTemp t dir (first_of (fb_Entries batch)) in
        match r with
        | Err OsExist => Ret (Some ErrConflict)
        | Err OsNotExist => Ret (Some ErrNotFound)
        | Err e => Ret (Some (os_error e))
        | Ok _ => syncDir (OpenEpoch dir)
        end
      end
    end
  end.

(** [writeBatch]; the deferred call removes the temporary name. *)
Definition writeBatch (t : nat) (dir : dirRef) (batch : fileBatch) : prog (option error) :=
  call! r := CreateTemp t dir in
  match r with
  | Err OsNotExist => Ret (Some ErrNotFound)
  | Err e => Ret (Some (os_error e))
  | Ok _ =>
    let! result := write_temp t dir batch in
    call! _ := RemoveTemp t in
    Ret result
  end.

(** [batchList]. *)
Definition batchList (id : string) : prog (outcome (dirRef * list N)) :=
  match checkFileID id with
  | Some err => Ret (Err err)
  | None =>
    let! dir := currentDir id in
    match dir with
    | Err err => Ret (Err err)
    | Ok dir =>
      let! firsts := batchFirsts dir in
      Ret match firsts with
          | Err err => Err err
          | Ok [] => Err ErrNotFound
          | Ok firsts => Ok (dir, firsts)
          end
    end
  end.

(** [readSegments]. *)
Fixpoint readSegments (dir : dirRef) (firsts : list N) (out : list Entry) : prog (outcome (list Entry)) :=
  match firsts with
  | [] => Ret (Ok out)
  | first :: rest =>
    let! batch := readBatch dir first in
    match batch with
    | Err err => Ret (Err err)
    | Ok batch => readSegments dir rest (out ++ filter is_segment_closed (fb_Entries batch))
    end
  end.

(** ** Records *)

(** The method [head]: from the cache of the handle, or from the directory. *)
Definition head_ (me : nat) (id : string) (dir : dirRef) (want : N) : prog (outcome fileHead) :=
  let from_dir :=
    let! firsts := batchFirsts dir in
    match firsts with
    | Err err => Ret (Err err)
    | Ok firsts =>
      match last firsts with
      | None => Ret (Err ErrNotFound)
      | Some first =>
        let! batch := readBatch dir first in
        match batch with
        | Err err => Ret (Err err)
        | Ok batch =>
          let found := MkFileHead (last_of (fb_Entries batch)) first dir in
          call! _ := SetHead me id found in Ret (Ok found)
        end
      end
    end in
  call! cached := GetHead me id in
  match cached with
  | Ok (Some cached) =>
    if bool_decide (fh_dir cached = dir) && N.eqb (fh_head cached) want
    then
      call! r := StatBatch dir (fh_first cached) in
      match r with Ok _ => Ret (Ok cached) | Err _ => from_dir end
    else from_dir
  | _ => from_dir
  end.

(** The part of [publishRecord] that the deferred call surrounds. *)
Definition build_record (t : nat) (id : string) (entries : list Entry) (h : RecordHeader) : prog (option error) :=
  let dir := InBuilding t (epoch_name (rh_Epoch h)) in
  call! r := MkdirEpoch t (epoch_name (rh_Epoch h)) in
  match r with
  | Err e => Ret (Some (os_error e))
  | Ok _ =>
    let! err := writeBatch t dir (MkFileBatch entries h) in
    match err with
    | Some err => Ret (Some err)
    | None =>
      let! err := syncDir (OpenBuilding t) in
      match err with
      | Some err => Ret (Some err)
      | None =>
        call! r := RenameBuilding t (file_name id) in
        match r with
        | Err OsExist => Ret (Some ErrExists)
        | Err e => Ret (Some (os_error e))
        | Ok _ => syncDir OpenTop
        end
      end
    end
  end.

(** [publishRecord]. *)
Definition publishRecord (t : nat) (id : string) (entries : list Entry) (h : RecordHeader) : prog (option error) :=
  call! r := MkdirTemp t in
  match r with
  | Err e => Ret (Some (os_error e))
  | Ok _ =>
    let! result := build_record t id entries h in
    call! _ := RemoveBuilding t in
    Ret result
  end.

Definition head_after (entries : list Entry) (dir : dirRef) : fileHead :=
  MkFileHead (last_of entries) (first_of entries) dir.

Definition Create (ctx : option error) (me t : nat) (id : string) (entries : list Entry) (h : RecordHeader)
    : prog (option error) :=
  match ctx with Some err => Ret (Some err) | None =>
  match checkFileID id with Some err => Ret (Some err) | None =>
  match CheckBatch 0 entries h with Some err => Ret (Some err) | None =>
    let! current := currentDir id in
    match current with
    | Ok _ => Ret (Some ErrExists)
    | Err err =>
      if negb (errors_Is err ErrNotFound) then Ret (Some err)
      else
        let! err := publishRecord t id entries h in
        match err with
        | Some err => Ret (Some err)
        | None =>
          call! _ := SetHead me id (head_after entries (epochDir_ id (rh_Epoch h))) in
          Ret None
        end
    end
  end end end.

Definition Append (ctx : option error) (me t : nat) (id : string) (after : N) (entries : list Entry) (h : RecordHeader)
    : prog (option error) :=
  match ctx with Some err => Ret (Some err) | None =>
  match checkFileID id with Some err => Ret (Some err) | None =>
  match CheckBatch after entries h with Some err => Ret (Some err) | None =>
    let dir := epochDir_ id (rh_Epoch h) in
    let! found := head_ me id dir after in
    match found with
    | Err err => Ret (Some err)
    | Ok found =>
      if negb (N.eqb (fh_head found) after) then Ret (Some ErrConflict)
      else
        let! err := writeBatch t dir (MkFileBatch entries h) in
        match err with
        | Some err => Ret (Some err)
        | None => call! _ := SetHead me id (head_after entries dir) in Ret None
        end
    end
  end end end.

(** The backward loop of [Load]: the batches read, and the positions before them. *)
Fixpoint load_back (dir : dirRef) (backward : list N) (tail : list fileBatch)
    : prog (outcome (list fileBatch * list N)) :=
  match backward with
  | [] => Ret (Ok (tail, []))
  | first :: before =>
    let! batch := readBatch dir first in
    match batch with
    | Err err => Ret (Err err)
    | Ok batch =>
      if existsb IsCheckpoint (fb_Entries batch) then Ret (Ok (batch :: tail, rev before))
      else load_back dir before (batch :: tail)
    end
  end.

(** What [Load] makes of the batches it read; there is at least one. *)
Definition loaded_of (tail : list fileBatch) (segments : list Entry) : outcome Loaded :=
  let (entries, segments) := loadedFrom (segments ++ (tail ≫= fb_Entries)) in
  match last tail with
  | Some batch => Ok (MkLoaded entries segments (last_of (fb_Entries batch)) (fb_Header batch))
  | None => Err ErrNotFound
  end.

Definition Load (ctx : option error) (id : string) : prog (outcome Loaded) :=
  match ctx with Some err => Ret (Err err) | None =>
    let! list := batchList id in
    match list with
    | Err err => Ret (Err err)
    | Ok (dir, firsts) =>
      let! back := load_back dir (rev firsts) [] in
      match back with
      | Err err => Ret (Err err)
      | Ok (tail, before) =>
        let! segments := readSegments dir before [] in
        Ret (let? segments := segments in loaded_of tail segments)
      end
    end
  end.

(** The loop of [Log]. *)
Fixpoint log_from (dir : dirRef) (after : N) (limit : Z) (firsts : list N) (out : list Entry)
    : prog (outcome (list Entry)) :=
  match firsts with
  | [] => Ret (Ok out)
  | first :: rest =>
    if match rest with next :: _ => (next <=? u64_add after 1)%N | [] => false end
    then log_from dir after limit rest out
    else
      let! batch := readBatch dir first in
      match batch with
      | Err err => Ret (Err err)
      | Ok batch =>
        let out := out ++ filter (fun entry => (after < en_Seq entry)%N) (fb_Entries batch) in
        if (0 <? limit)%Z && (limit <=? Z.of_nat (length out))%Z then Ret (Ok (take (Z.to_nat limit) out))
        else log_from dir after limit rest out
      end
  end.

Definition Log (ctx : option error) (id : string) (after : N) (limit : Z) : prog (outcome (list Entry)) :=
  match ctx with Some err => Ret (Err err) | None =>
    let! list := batchList id in
    match list with
    | Err err => Ret (Err err)
    | Ok (dir, firsts) => log_from dir after limit firsts []
    end
  end.

(** ** Listing *)

(** The method [info]. *)
Definition info (id : string) : prog (outcome Info) :=
  let! list := batchList id in
  match list with
  | Err err => Ret (Err err)
  | Ok (dir, firsts) =>
    let! batch := readBatch dir (default 0%N (last firsts)) in
    Ret (let? batch := batch in Ok (rh_Info (fb_Header batch)))
  end.

(** The loop of [List]: the Infos, and the IDs it could not read. *)
Fixpoint list_infos (names : list string) (out : list Info) (unreadable : list (string * error))
    : prog (list Info * list (string * error)) :=
  match names with
  | [] => Ret (out, unreadable)
  | name :: rest =>
    match idOf (bytes_of name) with
    | None => list_infos rest out unreadable
    | Some id =>
      let id := string_of id in
      let! summary := info id in
      match summary with
      | Ok summary => list_infos rest (out ++ [summary]) unreadable
      | Err err =>
        if errors_Is err ErrNotFound then list_infos rest out unreadable
        else list_infos rest out (unreadable ++ [(id, err)])
      end
    end
  end.

Definition unreadable_error (unreadable : list (string * error)) : error :=
  ForeignErr (MkForeign "store: unreadable sessions" None None None None).

Definition List_ (ctx : option error) (q : ListQuery) : prog (outcome ListPage) :=
  match ctx with Some err => Ret (Err err) | None =>
    call! names := ReadRecords in
    match names with
    | Err e => Ret (Err (os_error e))
    | Ok names =>
      let! found := list_infos names [] [] in
      let (out, unreadable) := found in
      Ret (if bool_decide (unreadable = []) then pageOf out q else Err (unreadable_error unreadable))
    end
  end.

(** ** Deleting *)

Definition not_all_removed (id : string) (e : osError) : error :=
  Wrapf (Text "store: %s is deleted, but its files were not all removed: %w" [FStr id]) (os_error e).

(** The end of [Delete], once the directory is renamed away or was not there. *)
Definition forget (me : nat) (id : string) (result : option error) : prog (option error) :=
  call! _ := DropHead me id in Ret result.

Definition Delete (ctx : option error) (me : nat) (id : string) : prog (option error) :=
  match ctx with Some err => Ret (Some err) | None =>
  match checkFileID id with Some err => Ret (Some err) | None =>
    call! tomb := RenameRecord (file_name id) in
    match tomb with
    | Err OsNotExist => forget me id (Some ErrNotFound)
    | Err e => Ret (Some (os_error e))
    | Ok tomb =>
      let! err := syncDir OpenTop in
      match err with
      | Some err => forget me id (Some err)
      | None =>
        call! r := RemoveTomb tomb in
        forget me id match r with Ok _ => None | Err e => Some (not_all_removed id e) end
      end
    end
  end end.

(** ** Liveness *)

(** [errTornRow] is what a row that does not parse reads as: [Ok None]. *)
Definition readInstance (name : string) : prog (result osError (option fileInstance)) :=
  call! row := ReadInstance name in Ret row.

(** [writeInstance]: the directory, the temporary file, its content and its close, and the
    rename. *)
Definition writeInstance (name : string) (row : fileInstance) : prog (option error) :=
  call! r := PrepareInstance in
  match r with
  | Err e => Ret (Some (os_error e))
  | Ok _ =>
    call! r := RenameInstance name row in
    Ret match r with Ok _ => None | Err e => Some (os_error e) end
  end.

Definition Beat (ctx : option error) (now : gotime) (row : InstanceRow) (ttl : duration) : prog (option error) :=
  match ctx with Some err => Ret (Some err) | None =>
  match checkFileID (ir_ID row) with Some err => Ret (Some err) | None =>
    let name := file_name (ir_ID row) in
    if (ttl <=? 0)%Z then
      call! r := RemoveInstance name in
      Ret match r with Ok _ | Err OsNotExist => None | Err e => Some (os_error e) end
    else
      let! current := readInstance name in
      match current with
      | Ok (Some current) =>
        if negb (now <? fi_Expires current)%Z then Ret (Some ErrExpired)
        else writeInstance name (MkFileInstance row (now + ttl))
      | _ => writeInstance name (MkFileInstance row (now + ttl))
      end
  end end.

Definition Instance_ (ctx : option error) (now : gotime) (id : string) : prog (outcome InstanceState) :=
  match ctx with Some err => Ret (Err err) | None =>
  match checkFileID id with
  | Some _ => Ret (Ok (MkInstanceState id false false ""))
  | None =>
    let! current := readInstance (file_name id) in
    Ret match current with
        | Err OsNotExist | Ok None => Ok (MkInstanceState id false false "")
        | Err e => Err (os_error e)
        | Ok (Some current) =>
          Ok (MkInstanceState id (now <? fi_Expires current)%Z (ir_Draining (fi_Row current)) (ir_Address (fi_Row current)))
        end
  end end.
End file_store.
