(* ===== verification/FileLog.v ===== *)
(** * What the files of a Record hold

    The batches that an epoch directory may hold, and what reading them back makes of them:
    the log that the contract of Records speaks of. *)

From S2P Require Import Prelude GoStrings Errors Types Events Entry Store FileName FileSystem FileStore.
Local Open Scope string_scope.
Local Open Scope list_scope.

(** ** The batches of a log *)

(** Positions stay below the wrap-around. *)
Definition fits (n : nat) : Prop := (N.of_nat n < two64)%N.

(** The batches that made a log, written one after the other for one epoch. *)
Inductive written (epoch : string) : list fileBatch -> stored -> Prop :=
| written_first entries h :
    rh_Epoch h = epoch -> CheckBatch 0 entries h = None -> fits (length entries) ->
    written epoch [MkFileBatch entries h] (MkStored entries h)
| written_next bs s entries h :
    written epoch bs s -> rh_Epoch h = epoch ->
    CheckBatch (N.of_nat (length (st_entries s))) entries h = None -> fits (length (st_entries s) + length entries) ->
    written epoch (bs ++ [MkFileBatch entries h]) (extended s entries h).

(** The file of a batch. *)
Definition link_of (b : fileBatch) : N * file := (first_of (fb_Entries b), MkFile (Some b) true).

(** The batches are numbered from position [p] on. *)
Fixpoint numbered_from (p : nat) (bs : list fileBatch) : Prop :=
  match bs with
  | [] => True
  | b :: rest =>
    fb_Entries b <> [] /\
    (forall i e, fb_Entries b !! i = Some e -> en_Seq e = N.of_nat (p + i + 1)) /\
    numbered_from (p + length (fb_Entries b)) rest
  end.

Definition entries_in (bs : list fileBatch) : list Entry := bs ≫= fb_Entries.

(** ** Lemmas *)

Lemma entries_in_app bs cs : entries_in (bs ++ cs) = entries_in bs ++ entries_in cs.
Proof. apply bind_app. Qed.

Lemma written_log epoch bs s : written epoch bs s -> st_entries s = entries_in bs.
Proof.
  induction 1 as [|bs s entries h _ IH]; [by rewrite (app_nil_r _ : entries_in [_] = _)|].
  rewrite entries_in_app. cbn. by rewrite IH, app_nil_r.
Qed.

Lemma written_fits epoch bs s : written epoch bs s -> fits (length (st_entries s)).
Proof. induction 1; [done|]. cbn. by rewrite length_app. Qed.

Lemma written_wf epoch bs s : written epoch bs s -> wf_stored s.
Proof.
  induction 1 as [entries h _ Hb|bs s entries h Hw IH _ Hb]; [by apply wf_created|].
  eapply wf_extended; [done| |done]. apply head_small. by eapply written_fits.
Qed.

Lemma written_epoch epoch bs s : written epoch bs s -> rh_Epoch (st_header s) = epoch.
Proof. by destruct 1. Qed.

Lemma written_nonempty epoch bs s : written epoch bs s -> bs <> [].
Proof. destruct 1; [done|]. by destruct bs. Qed.

Lemma written_last epoch bs s : written epoch bs s -> exists b, last bs = Some b /\ fb_Header b = st_header s.
Proof. destruct 1; eexists; [done|]. by rewrite last_snoc. Qed.

Lemma numbered_app p bs cs :
  numbered_from p (bs ++ cs) <-> numbered_from p bs /\ numbered_from (p + length (entries_in bs)) cs.
Proof.
  revert p. induction bs as [|b bs IH]; intros p; cbn [app numbered_from].
  - cbn. rewrite Nat.add_0_r. naive_solver.
  - rewrite IH. change (entries_in (b :: bs)) with (fb_Entries b ++ entries_in bs). rewrite length_app, Nat.add_assoc. naive_solver.
Qed.

Lemma numbered_batch p entries h :
  CheckBatch (N.of_nat p) entries h = None -> fits (p + length entries) -> numbered_from p [MkFileBatch entries h].
Proof.
  intros Hb Hf. destruct (CheckBatch_None _ _ _ Hb) as (_ & Hne & _). cbn. split_and!; [done| |done].
  intros i e He. rewrite (CheckBatch_continues _ _ _ Hb _ _ He).
  apply lookup_lt_Some in He. unfold fits in Hf. rewrite u64_small; lia.
Qed.

Lemma written_numbered epoch bs s : written epoch bs s -> numbered_from 0 bs.
Proof.
  induction 1 as [entries h _ Hb Hf|bs s entries h Hw IH _ Hb Hf]; [by apply numbered_batch|].
  apply numbered_app. split; [done|]. rewrite <-(written_log _ _ _ Hw). by apply numbered_batch.
Qed.

Lemma first_of_numbered p b bs : numbered_from p (b :: bs) -> first_of (fb_Entries b) = N.of_nat (p + 1).
Proof.
  intros (Hne & Hs & _). unfold first_of. destruct (fb_Entries b) as [|e es]; [done|]. cbn.
  rewrite (Hs 0%nat e eq_refl). f_equal. lia.
Qed.

Lemma last_of_numbered p b bs :
  numbered_from p (b :: bs) -> last_of (fb_Entries b) = N.of_nat (p + length (fb_Entries b)).
Proof.
  intros (Hne & Hs & _). unfold last_of. destruct (exists_last Hne) as (es & e & E). rewrite E in *.
  rewrite last_snoc. cbn. rewrite length_app. cbn. rewrite (Hs (length es) e); [f_equal; lia|].
  by rewrite lookup_app_r, Nat.sub_diag by lia.
Qed.

Lemma written_last_of epoch bs s b :
  written epoch bs s -> last bs = Some b -> last_of (fb_Entries b) = N.of_nat (length (st_entries s)).
Proof.
  intros Hw (cs & ->)%last_Some. pose proof (written_numbered _ _ _ Hw) as Hn. apply numbered_app in Hn as [_ Hn].
  rewrite (last_of_numbered _ _ _ Hn), (written_log _ _ _ Hw), entries_in_app, length_app. cbn. by rewrite app_nil_r.
Qed.

(** *** The names of the files *)

Lemma firsts_sorted p bs : numbered_from p bs -> StronglySorted N.lt (first_of ∘ fb_Entries <$> bs) /\
  Forall (fun n => N.of_nat p < n)%N (first_of ∘ fb_Entries <$> bs).
Proof.
  revert p. induction bs as [|b bs IH]; intros p Hn; [split; constructor|].
  pose proof (first_of_numbered _ _ _ Hn) as Hf. destruct Hn as (Hne & _ & Hn). destruct (IH _ Hn) as [Hs Ha].
  assert (1 <= length (fb_Entries b))%nat by (destruct (fb_Entries b); [done|cbn; lia]).
  rewrite fmap_cons. cbn. rewrite Hf. split; constructor; [done| |lia|]; (eapply list.Forall_impl; [exact Ha|]; cbn; lia).
Qed.

Lemma links_names bs : (link_of <$> bs).*1 = first_of ∘ fb_Entries <$> bs.
Proof. by rewrite <-list_fmap_compose. Qed.

Lemma links_nodup p bs : numbered_from p bs -> NoDup (link_of <$> bs).*1.
Proof.
  rewrite links_names. intros [Hs _]%firsts_sorted. induction Hs as [|n l _ IH Hn]; [constructor|].
  constructor; [|done]. intros Hin. eapply list.Forall_forall in Hn; [|done]. lia.
Qed.

Lemma linked_batch p bs b :
  numbered_from p bs -> b ∈ bs -> linked (first_of (fb_Entries b)) (link_of <$> bs) = Some (MkFile (Some b) true).
Proof. intros Hn Hb. apply linked_Some; [by eapply links_nodup|]. apply (list_elem_of_fmap_2 link_of _ _ Hb). Qed.

Lemma linked_whole first bs f :
  linked first (link_of <$> bs) = Some f -> exists b, b ∈ bs /\ f = MkFile (Some b) true /\ first_of (fb_Entries b) = first.
Proof. intros (b & Hb & Hin)%linked_In%list_elem_of_fmap. exists b. by injection Hb as -> ->. Qed.

Lemma sort_firsts p bs : numbered_from p bs ->
  merge_sort N.le (link_of <$> bs).*1 = first_of ∘ fb_Entries <$> bs.
Proof.
  rewrite links_names. intros [Hs _]%firsts_sorted. apply (StronglySorted_unique N.le).
  - apply StronglySorted_merge_sort; apply _.
  - induction Hs as [|n l _ IH Hn]; constructor; [done|]. eapply list.Forall_impl; [exact Hn|]. cbn. lia.
  - apply merge_sort_Permutation.
Qed.

(** *** Reading the files *)

Section reading.
Context (w : world) (dir : dirRef) (bs : list fileBatch) (ed : epochDir).
Hypothesis Hdir : epoch_at w dir = Some ed.
Hypothesis Hlinks : ed_links ed = link_of <$> bs.
Hypothesis Hnum : numbered_from 0 bs.

Lemma runs_batchFirsts : runs (batchFirsts dir) w = (w, Ok (first_of ∘ fb_Entries <$> bs)).
Proof. cbn. rewrite Hdir. cbn. by rewrite Hlinks, (sort_firsts 0). Qed.

Lemma runs_readBatch b : b ∈ bs -> runs (readBatch dir (first_of (fb_Entries b))) w = (w, Ok b).
Proof. intros Hb. cbn. rewrite Hdir. cbn. by rewrite Hlinks, (linked_batch 0) by done. Qed.

Lemma runs_load_back cs tail :
  cs ⊆ bs ->
  exists before after,
    runs (load_back dir (rev (first_of ∘ fb_Entries <$> cs)) tail) w = (w, Ok (after ++ tail, first_of ∘ fb_Entries <$> before)) /\
    cs = before ++ after /\
    (before = [] \/ exists cp, cp ∈ entries_in after /\ IsCheckpoint cp = true).
Proof.
  revert tail. induction cs as [|b cs IH] using rev_ind; intros tail Hin; [by exists [], []; auto|].
  rewrite fmap_app, rev_app_distr. cbn [fmap list_fmap rev app load_back compose].
  rewrite runs_bind, runs_readBatch by (apply Hin; set_solver).
  destruct (existsb IsCheckpoint (fb_Entries b)) eqn:Ec.
  - exists cs, [b]. rewrite rev_involutive. split_and!; [done|done|right]. apply existsb_exists in Ec as (e & He & Hc).
    exists e. split; [|done]. cbn. rewrite app_nil_r. by apply list_elem_of_In.
  - destruct (IH (b :: tail)) as (before & after & Hr & -> & Hcp); [set_solver|].
    exists before, (after ++ [b]). rewrite <-!app_assoc. split_and!; [done|done|].
    destruct Hcp as [?|(cp & Hin' & Hcp)]; [by left|right]. exists cp. rewrite entries_in_app. set_solver.
Qed.

Lemma runs_readSegments cs out :
  cs ⊆ bs ->
  runs (readSegments dir (first_of ∘ fb_Entries <$> cs) out) w = (w, Ok (out ++ filter is_segment_closed (entries_in cs))).
Proof.
  revert out. induction cs as [|b cs IH]; intros out Hin; [cbn; by rewrite app_nil_r|].
  rewrite fmap_cons. cbn [readSegments compose].
  rewrite runs_bind, runs_readBatch by (apply Hin; set_solver). rewrite IH by set_solver.
  change (entries_in (b :: cs)) with (fb_Entries b ++ entries_in cs). by rewrite list.filter_app, <-app_assoc.
Qed.
End reading.

(** What a load reads needs no more of the early batches than their closed Segments. *)
Lemma loadedFrom_early (A B : list Entry) :
  A = [] \/ (exists cp, cp ∈ B /\ IsCheckpoint cp = true) ->
  loadedFrom (filter is_segment_closed A ++ B) = loadedFrom (A ++ B).
Proof.
  intros [->|(cp & Hin & Hcp)]; [done|].
  assert (exists before cp after, B = before ++ cp :: after /\ IsCheckpoint cp = true /\
    Forall (fun e => IsCheckpoint e = false) after) as (before & cp' & after & -> & Hcp' & Hafter).
  { clear A. induction B as [|e B IH] using rev_ind; [by apply elem_of_nil in Hin|].
    destruct (IsCheckpoint e) eqn:He; [by exists B, e, []|].
    apply elem_of_app in Hin as [Hin|Hin%list_elem_of_singleton]; [|congruence].
    destruct (IH Hin) as (before & c & after & -> & ? & ?). exists before, c, (after ++ [e]).
    rewrite <-app_assoc. split_and!; [done|done|]. apply list.Forall_app. auto. }
  rewrite !app_assoc, !loadedFrom_app by done. f_equal. rewrite !list.filter_app. f_equal.
  rewrite list_filter_filter. apply list_filter_iff. naive_solver.
Qed.

(** [Load] of what was written is what the contract says a load reads. *)
Lemma runs_Load_back w dir ed epoch bs s :
  epoch_at w dir = Some ed -> ed_links ed = link_of <$> bs -> written epoch bs s ->
  runs (let! back := load_back dir (rev (first_of ∘ fb_Entries <$> bs)) [] in
        match back with
        | Err err => Ret (Err err)
        | Ok (tail, before) =>
          let! segments := readSegments dir before [] in
          Ret (let? segments := segments in loaded_of tail segments)
        end) w = (w, Ok (load_of s)).
Proof.
  intros Hd Hl Hw. pose proof (written_numbered _ _ _ Hw) as Hn.
  destruct (runs_load_back w dir bs ed Hd Hl Hn bs []) as (before & after & Hr & E & Hcp); [done|].
  rewrite runs_bind, Hr, app_nil_r, runs_bind, (runs_readSegments w dir bs ed Hd Hl Hn) by set_solver. cbn [app rbind runs].
  unfold loaded_of, load_of. fold (entries_in after). rewrite loadedFrom_early.
  2:{ destruct Hcp as [->|?]; [by left|by right]. }
  rewrite <-entries_in_app, <-E, <-(written_log _ _ _ Hw).
  destruct (loadedFrom (st_entries s)) as [es ss]. destruct (written_last _ _ _ Hw) as (b & Hb & Hh).
  assert (last after = Some b) as ->.
  { rewrite E, last_app in Hb. destruct (last after) eqn:El; [done|]. apply last_None in El as ->. exfalso.
    destruct Hcp as [->|(cp & Hin & _)]; [by apply (written_nonempty _ _ _ Hw)|by apply elem_of_nil in Hin]. }
  cbn. rewrite (written_last_of _ _ _ _ Hw Hb), Hh, head_small; [done|]. by eapply written_fits.
Qed.

(** *** Reading a log *)

Definition up_to (limit : Z) (l : list Entry) : list Entry := if (0 <? limit)%Z then take (Z.to_nat limit) l else l.

Definition later_than (after : N) (e : Entry) : Prop := (after < en_Seq e)%N.
#[export] Instance later_than_dec after e : Decision (later_than after e).
Proof. unfold later_than. apply _. Defined.

Lemma numbered_seqs p bs i e : numbered_from p bs -> entries_in bs !! i = Some e -> en_Seq e = N.of_nat (p + i + 1).
Proof.
  revert p i. induction bs as [|b bs IH]; intros p i Hn Hi; [done|].
  change (entries_in (b :: bs)) with (fb_Entries b ++ entries_in bs) in Hi. destruct Hn as (_ & Hs & Hn).
  apply lookup_app_Some in Hi as [Hi|[Hle Hi]]; [by apply Hs|]. rewrite (IH _ _ Hn Hi). f_equal. lia.
Qed.

Lemma filter_later after p (l : list Entry) :
  (forall i e, l !! i = Some e -> en_Seq e = N.of_nat (p + i + 1)) ->
  filter (later_than after) l = drop (N.to_nat after - p) l.
Proof.
  revert p. induction l as [|e l IH]; intros p Hs; [by rewrite drop_nil|].
  assert (Hl : filter (later_than after) l = drop (N.to_nat after - S p) l).
  { apply IH. intros i e' Hi. rewrite (Hs (S i) e' Hi). f_equal. lia. }
  assert (Hseq : en_Seq e = N.of_nat (p + 0 + 1)) by exact (Hs 0%nat e eq_refl).
  rewrite filter_cons. destruct (decide (later_than after e)) as [Hlt|Hge]; unfold later_than in *.
  - rewrite Hl, !(proj2 (Nat.sub_0_le _ _)) by lia. done.
  - rewrite Hl. replace (N.to_nat after - p)%nat with (S (N.to_nat after - S p)) by lia. done.
Qed.

Section logs.
Context (w : world) (dir : dirRef) (bs : list fileBatch) (ed : epochDir).
Hypothesis Hdir : epoch_at w dir = Some ed.
Hypothesis Hlinks : ed_links ed = link_of <$> bs.
Hypothesis Hnum : numbered_from 0 bs.

Lemma runs_log_from after limit p cs out :
  cs ⊆ bs -> numbered_from p cs -> ((0 < limit)%Z -> (Z.of_nat (length out) < limit)%Z) ->
  runs (log_from dir after limit (first_of ∘ fb_Entries <$> cs) out) w
  = (w, Ok (up_to limit (out ++ filter (later_than after) (entries_in cs)))).
Proof.
  revert p out. induction cs as [|b cs IH]; intros p out Hin Hn Hlim.
  { cbn. rewrite app_nil_r. unfold up_to. destruct (Z.ltb_spec 0 limit); [|done]. rewrite take_ge; [done|lia]. }
  change (entries_in (b :: cs)) with (fb_Entries b ++ entries_in cs). rewrite list.filter_app.
  assert (Hb : b ∈ bs) by (apply Hin; left). assert (Hin' : cs ⊆ bs) by set_solver.
  pose proof Hn as (_ & Hs & Hn'). rewrite fmap_cons. cbn [log_from compose].
  set (skipped := match first_of ∘ fb_Entries <$> cs with next :: _ => (next <=? u64_add after 1)%N | [] => false end).
  assert (Hskip : skipped = true -> filter (later_than after) (fb_Entries b) = []).
  { subst skipped. destruct cs as [|c cs]; [done|]. rewrite fmap_cons. cbn [compose]. rewrite (first_of_numbered _ _ _ Hn').
    intros Hle%N.leb_le. rewrite (filter_later after p) by done. apply drop_ge.
    assert (u64_add after 1 <= after + 1)%N by (apply N.Div0.mod_le). lia. }
  destruct skipped.
  - rewrite Hskip by done. by eapply IH.
  - rewrite runs_bind, (runs_readBatch w dir bs ed Hdir Hlinks Hnum) by done.
    change (filter (fun entry => (after < en_Seq entry)%N) (fb_Entries b)) with (filter (later_than after) (fb_Entries b)).
    rewrite app_assoc. set (out' := out ++ filter (later_than after) (fb_Entries b)).
    destruct (Z.ltb_spec 0 limit) as [Hp|Hp]; cbn [andb].
    + destruct (Z.leb_spec limit (Z.of_nat (length out'))) as [Hle|Hgt]; [|by eapply IH; [..|intros _]].
      unfold up_to. rewrite (proj2 (Z.ltb_lt 0 limit)) by done. by rewrite take_app_le by lia.
    + eapply IH; [done|done|lia].
Qed.

Lemma runs_Log after limit :
  runs (log_from dir after limit (first_of ∘ fb_Entries <$> bs) []) w
  = (w, Ok (up_to limit (drop (N.to_nat after) (entries_in bs)))).
Proof.
  rewrite (runs_log_from after limit 0 bs []) by (done || (cbn; lia)). cbn [app]. rewrite (filter_later after 0).
  - by rewrite Nat.sub_0_r.
  - intros i e Hi. by rewrite (numbered_seqs 0 bs i e).
Qed.
End logs.
