(* ===== verification/FileEquiv.v ===== *)
(** * One handle at a time

    Calls to any number of handles of one directory, each answered before the next, with no
    failure of the file system: the file store answers what the store in memory answers. *)

From S2P Require Import Prelude GoStrings Errors Types Events Entry Store MemoryStore FileName FileSystem FileStore FileLog.
Local Open Scope string_scope.
Local Open Scope list_scope.

(** What the code relies on of a hash of an epoch, in hex. *)
Class EpochNames (epoch_name : string -> string) := {
  epoch_name_inj :: Inj (=) (=) epoch_name;
  epoch_name_plain e : epoch_name e <> "" /\ has_prefix (bytes_of (epoch_name e)) ["."%char] = false;
}.

Definition name_fits (id : string) : Prop := (slen (file_name id) <= maxNameBytes)%nat.

Lemma checkFileID_fits id : name_fits id -> checkFileID id = CheckID id.
Proof. unfold name_fits, checkFileID. intros Hf. destruct (CheckID id); [done|]. by rewrite (proj2 (Nat.ltb_ge _ _)) by done. Qed.

#[export] Instance file_name_inj : Inj (=) (=) file_name.
Proof.
  intros a b Hab. unfold file_name in Hab. apply (f_equal bytes_of) in Hab. rewrite !bytes_of_string_of in Hab.
  apply bytes_of_inj. apply (f_equal idOf) in Hab. rewrite !name_roundtrip in Hab. by injection Hab.
Qed.

Section equivalence.
Context (epoch_name : string -> string) `{!EpochNames epoch_name}.

(** ** A Record on the disk *)

(** The directory [i] is that of a Record whose batches are [bs]: its epoch and its first
    batch are there also after a power cut. *)
Definition record_dir (rd : recordDir) (e : string) (bs : list fileBatch) (s : stored) : Prop :=
  exists n, rd_epochs rd = {[epoch_name e := MkEpochDir (link_of <$> bs) n]} /\ epoch_name e ∈ rd_durable rd /\
    written e bs s /\ (0 < n <= length bs)%nat.

Definition record_at (w : world) (i : nat) (e : string) (bs : list fileBatch) (s : stored) : Prop :=
  exists rd, w_dirs w !! i = Some rd /\ record_dir rd e bs s.

Lemma record_epoch_in w i e bs s : record_at w i e bs s ->
  exists n, epoch_in w i (epoch_name e) = Some (MkEpochDir (link_of <$> bs) n) /\ written e bs s /\ (0 < n <= length bs)%nat.
Proof.
  intros (rd & Hrd & n & He & _ & Hw & Hn). exists n. split_and!; [|done|lia..]. unfold epoch_in. rewrite Hrd. cbn.
  by rewrite He, lookup_singleton_eq.
Qed.

Lemma record_other_epoch w i e bs s e' : record_at w i e bs s -> e' <> e -> epoch_in w i (epoch_name e') = None.
Proof.
  intros (rd & Hrd & n & He & _) Hne. unfold epoch_in. rewrite Hrd. cbn. rewrite He. apply lookup_singleton_ne.
  intros Heq. by apply Hne, (inj epoch_name).
Qed.

Lemma record_at_fun w i e bs s e' bs' s' :
  record_at w i e bs s -> record_at w i e' bs' s' -> e = e' /\ bs = bs'.
Proof.
  intros (rd & Hrd & n & He & _ & Hw & _) (rd' & Hrd' & n' & He' & _ & Hw' & _). simplify_eq.
  rewrite He in He'. apply (f_equal (fun m => m !! epoch_name e)) in He'. rewrite lookup_singleton_eq in He'.
  symmetry in He'. apply lookup_singleton_Some in He' as [Hn Heq]. apply (inj epoch_name) in Hn. injection Heq as Heq _.
  split; [done|]. revert Heq. clear. revert bs'. induction bs as [|b bs IH]; intros [|b' bs']; try done. cbn.
  intros [= -> ? ->%IH] || (intros Heq; injection Heq; intros; f_equal; [done|by apply IH]).
Qed.

(** ** Runs of the parts *)

Lemma only_epoch_one id e : only_epoch id "" [epoch_name e] = Ok (epoch_name e).
Proof. cbn [only_epoch]. by rewrite (proj2 (epoch_name_plain e)). Qed.

Lemma runs_currentDir w id i e bs s :
  w_top w !! file_name id = Some i -> record_at w i e bs s ->
  runs (currentDir id) w = (w, Ok (InRecord (file_name id) (epoch_name e))).
Proof.
  intros Ht (rd & Hrd & n & He & _). unfold currentDir. cbn [runs exec]. rewrite Ht. cbn [mbind option_bind]. rewrite Hrd.
  unfold done. rewrite He, map_to_list_singleton. cbn [fmap list_fmap fst runs]. rewrite only_epoch_one. cbn [rbind].
  destruct (String.eqb_spec (epoch_name e) "") as [E|]; [by destruct (proj1 (epoch_name_plain e))|done].
Qed.

Lemma runs_currentDir_none w id : w_top w !! file_name id = None -> runs (currentDir id) w = (w, Err ErrNotFound).
Proof. intros Ht. cbn. by rewrite Ht. Qed.

Lemma record_epoch_at w id i e bs s :
  w_top w !! file_name id = Some i -> record_at w i e bs s ->
  exists n, epoch_at w (InRecord (file_name id) (epoch_name e)) = Some (MkEpochDir (link_of <$> bs) n) /\
    written e bs s /\ (0 < n <= length bs)%nat.
Proof. intros Ht (n & He & Hw & Hn)%record_epoch_in. exists n. unfold epoch_at, dir_at. rewrite Ht. cbn. auto. Qed.

Lemma runs_batchList w id i e bs s :
  checkFileID id = None -> w_top w !! file_name id = Some i -> record_at w i e bs s ->
  runs (batchList id) w = (w, Ok (InRecord (file_name id) (epoch_name e), first_of ∘ fb_Entries <$> bs)).
Proof.
  intros Hid Ht Hr. unfold batchList. rewrite Hid, runs_bind, (runs_currentDir _ _ _ _ _ _ Ht Hr).
  destruct (record_epoch_at _ _ _ _ _ _ Ht Hr) as (n & He & Hw & _).
  rewrite runs_bind, (runs_batchFirsts w _ bs _ He eq_refl (written_numbered _ _ _ Hw)). cbn.
  destruct bs as [|b bs]; [by apply written_nonempty in Hw|done].
Qed.

Lemma runs_batchList_none w id :
  checkFileID id = None -> w_top w !! file_name id = None -> runs (batchList id) w = (w, Err ErrNotFound).
Proof. intros Hid Ht. unfold batchList. by rewrite Hid, runs_bind, runs_currentDir_none. Qed.

Lemma runs_Load w id i e bs s :
  checkFileID id = None -> w_top w !! file_name id = Some i -> record_at w i e bs s ->
  runs (Load None id) w = (w, Ok (load_of s)).
Proof.
  intros Hid Ht Hr. unfold Load. rewrite runs_bind, (runs_batchList _ _ _ _ _ _ Hid Ht Hr).
  destruct (record_epoch_at _ _ _ _ _ _ Ht Hr) as (n & He & Hw & _). by eapply runs_Load_back.
Qed.

Lemma runs_Log_record w id i e bs s after limit :
  checkFileID id = None -> w_top w !! file_name id = Some i -> record_at w i e bs s ->
  runs (Log None id after limit) w = (w, Ok (log_of s after limit)).
Proof.
  intros Hid Ht Hr. unfold Log. rewrite runs_bind, (runs_batchList _ _ _ _ _ _ Hid Ht Hr).
  destruct (record_epoch_at _ _ _ _ _ _ Ht Hr) as (n & He & Hw & _).
  rewrite (runs_Log w _ bs _ He eq_refl (written_numbered _ _ _ Hw)). by rewrite <-(written_log _ _ _ Hw).
Qed.

(** ** Writing a batch *)

Lemma set_epoch_insert i ep ed w rd :
  w_dirs w !! i = Some rd ->
  set_epoch i ep ed w = w <| w_dirs := <[i := rd <| rd_epochs := <[ep := ed]> (rd_epochs rd) |>]> (w_dirs w) |>.
Proof.
  intros Hrd. unfold set_epoch, upd. cbn. f_equal. apply map_eq. intros j. destruct (decide (i = j)) as [<-|Hne].
  - by rewrite lookup_alter_eq, lookup_insert_eq, Hrd.
  - by rewrite lookup_alter_ne, lookup_insert_ne.
Qed.

(** The world after a batch was linked and its directory synced. *)
Definition with_batch (t i : nat) (ep : string) (rd : recordDir) (ed : epochDir) (b : fileBatch) (w : world) : world :=
  let links := ed_links ed ++ [link_of b] in
  w <| w_dirs := <[i := rd <| rd_epochs := <[ep := MkEpochDir links (length links)]> (rd_epochs rd) |>]> (w_dirs w) |>
    <| w_temps := delete t (w_temps w) |>.

Lemma runs_syncDir_epoch w dir i rd ed :
  dir_at w dir = Some i -> w_dirs w !! i = Some rd -> rd_epochs rd !! ref_epoch dir = Some ed ->
  runs (syncDir (OpenEpoch dir)) w = (set_epoch i (ref_epoch dir) (ed <| ed_synced := length (ed_links ed) |>) w, None).
Proof.
  intros Hd Hrd He. assert (Hei : epoch_in w i (ref_epoch dir) = Some ed) by (unfold epoch_in; by rewrite Hrd).
  unfold syncDir. cbn. rewrite Hd, Hei. cbn. by rewrite Hei.
Qed.

(** The temporary file of call [t] holds the batch, synced. *)
Definition with_temp (t : nat) (b : fileBatch) (w : world) : world :=
  w <| w_temps := <[t := MkFile (Some b) true]> (w_temps w) |>.

Lemma runs_write_temp w t dir i rd ed b :
  dir_at w dir = Some i -> w_dirs w !! i = Some rd -> rd_epochs rd !! ref_epoch dir = Some ed ->
  linked (first_of (fb_Entries b)) (ed_links ed) = None -> is_Some (w_temps w !! t) ->
  runs (write_temp t dir b) w =
    (let links := ed_links ed ++ [link_of b] in
     set_epoch i (ref_epoch dir) (MkEpochDir links (length links)) (with_temp t b w), None).
Proof.
  intros Hd Hrd He Hl [f Hf].
  assert (E : runs (write_temp t dir b) w =
    runs (call! r := LinkTemp t dir (first_of (fb_Entries b)) in
          match r with
          | Err OsExist => Ret (Some ErrConflict)
          | Err OsNotExist => Ret (Some ErrNotFound)
          | Err e => Ret (Some (os_error e))
          | Ok _ => syncDir (OpenEpoch dir)
          end) (with_temp t b w)).
  { unfold write_temp. cbn [runs exec done]. symmetry.
    match goal with |- context [exec_link t dir _ (?w1 <| w_temps := ?m |>)] =>
      replace (w1 <| w_temps := m |>) with (with_temp t b w); [done|] end.
    unfold with_temp, upd. cbn. f_equal. apply map_eq. intros j. destruct (decide (t = j)) as [<-|Hne].
    - by rewrite !lookup_alter_eq, lookup_insert_eq, Hf.
    - by rewrite !lookup_alter_ne, lookup_insert_ne. }
  rewrite E. set (w1 := with_temp t b w). cbn [runs exec]. unfold exec_link.
  assert (Ht1 : w_temps w1 !! t = Some (MkFile (Some b) true)) by apply lookup_insert_eq.
  assert (Hei : epoch_in w1 i (ref_epoch dir) = Some ed) by (unfold epoch_in; cbn; by rewrite Hrd).
  rewrite Ht1. change (dir_at w1 dir) with (dir_at w dir). rewrite Hd, Hei, Hl. unfold done.
  set (ed' := ed <| ed_links := _ |>). set (w2 := set_epoch i (ref_epoch dir) ed' w1).
  assert (Hw2 : w_dirs w2 !! i = Some (rd <| rd_epochs := <[ref_epoch dir := ed']> (rd_epochs rd) |>)).
  { subst w2. rewrite (set_epoch_insert _ _ _ _ rd) by done. apply lookup_insert_eq. }
  erewrite runs_syncDir_epoch; [|done|exact Hw2|apply lookup_insert_eq].
  f_equal. subst w2. unfold set_epoch, upd. cbn. f_equal. rewrite alter_alter_eq. apply alter_ext. intros r Hr. cbn.
  f_equal. apply insert_insert_eq.
Qed.

Lemma runs_writeBatch w t dir i rd ed b :
  dir_at w dir = Some i -> w_dirs w !! i = Some rd -> rd_epochs rd !! ref_epoch dir = Some ed ->
  linked (first_of (fb_Entries b)) (ed_links ed) = None ->
  runs (writeBatch t dir b) w = (with_batch t i (ref_epoch dir) rd ed b w, None).
Proof.
  intros Hd Hrd He Hl. assert (Hei : epoch_in w i (ref_epoch dir) = Some ed) by (unfold epoch_in; by rewrite Hrd).
  unfold writeBatch. cbn [runs exec]. unfold epoch_at. rewrite Hd. cbn [mbind option_bind]. rewrite Hei. unfold done.
  set (w1 := w <| w_temps := _ |>).
  rewrite runs_bind, (runs_write_temp w1 t dir i rd ed b) by (done || (eexists; apply lookup_insert_eq)).
  cbn [runs exec]. unfold done, with_batch. rewrite (set_epoch_insert _ _ _ _ rd) by done. f_equal.
  subst w1. unfold with_temp, upd. cbn. f_equal. by rewrite insert_insert_eq, delete_insert_eq.
Qed.

Lemma runs_writeBatch_taken w t dir i rd ed b f :
  dir_at w dir = Some i -> w_dirs w !! i = Some rd -> rd_epochs rd !! ref_epoch dir = Some ed ->
  linked (first_of (fb_Entries b)) (ed_links ed) = Some f ->
  runs (writeBatch t dir b) w = (w <| w_temps := delete t (w_temps w) |>, Some ErrConflict).
Proof.
  intros Hd Hrd He Hl. assert (Hei : epoch_in w i (ref_epoch dir) = Some ed) by (unfold epoch_in; by rewrite Hrd).
  unfold writeBatch. cbn [runs exec]. unfold epoch_at. rewrite Hd. cbn [mbind option_bind]. rewrite Hei. unfold done.
  rewrite runs_bind. unfold write_temp. cbn [runs exec done]. unfold exec_link.
  match goal with |- context [w_temps ?w' !! t] => set (w1 := w') end.
  assert (Ht1 : is_Some (w_temps w1 !! t)).
  { subst w1. unfold upd. cbn. rewrite !lookup_alter_eq, lookup_insert_eq. by eexists. }
  destruct Ht1 as [g Ht1]. rewrite Ht1. change (dir_at w1 dir) with (dir_at w dir). rewrite Hd.
  change (epoch_in w1 i (ref_epoch dir)) with (epoch_in w i (ref_epoch dir)). rewrite Hei, Hl. cbn [refuse runs exec done].
  f_equal. subst w1. unfold upd. cbn. f_equal. apply map_eq. intros j. destruct (decide (t = j)) as [<-|Hne].
  - by rewrite !lookup_delete_eq.
  - by rewrite !lookup_delete_ne, !lookup_alter_ne, lookup_insert_ne.
Qed.

(** ** Creating, deleting *)

(** The world after call [t] created a Record. *)
Definition with_record (me t : nat) (id : string) (entries : list Entry) (h : RecordHeader) (w : world) : world :=
  let ep := epoch_name (rh_Epoch h) in
  MkWorld (<[file_name id := t]> (w_top w)) []
    (<[t := MkRecordDir {[ep := MkEpochDir [link_of (MkFileBatch entries h)] 1]} {[ep]}]> (w_dirs w))
    ({[t]} ∪ w_published w) (w_deleted w) (delete t (w_temps w))
    (<[(me, id) := head_after entries (epochDir_ epoch_name id (rh_Epoch h))]> (w_heads w)) (w_instances w).

Lemma runs_syncTop w : runs (syncDir OpenTop) w = (w <| w_past := [] |>, None).
Proof. done. Qed.

Lemma runs_build w t id entries h :
  w_top w !! file_name id = None -> w_dirs w !! t = Some (MkRecordDir ∅ ∅) -> t ∉ w_published w ->
  let ep := epoch_name (rh_Epoch h) in
  runs (build_record epoch_name t id entries h) w =
    (MkWorld (<[file_name id := t]> (w_top w)) []
      (<[t := MkRecordDir {[ep := MkEpochDir [link_of (MkFileBatch entries h)] 1]} {[ep]}]> (w_dirs w))
      ({[t]} ∪ w_published w) (w_deleted w) (delete t (w_temps w)) (w_heads w) (w_instances w), None).
Proof.
  intros Ht Hd Hp ep. unfold build_record. fold ep. cbn [runs exec]. unfold dir_at. rewrite bool_decide_false by done.
  cbn [mbind option_bind]. rewrite Hd. cbn [rd_epochs]. rewrite lookup_empty. cbn [done].
  rewrite (set_epoch_insert _ _ _ _ _ Hd). set (w1 := w <| w_dirs := _ |>).
  rewrite runs_bind, (runs_writeBatch w1 t (InBuilding t ep) t (MkRecordDir (<[ep := MkEpochDir [] 0]> ∅) ∅) (MkEpochDir [] 0));
    [|cbn; by rewrite bool_decide_false|apply lookup_insert_eq|apply lookup_insert_eq|done].
  unfold with_batch. cbn [ed_links app length rd_epochs ref_epoch].
  set (w2 := _ <| w_temps := delete t _ |>).
  assert (Hp2 : t ∉ w_published w2) by done.
  assert (Hd2 : w_dirs w2 !! t = Some (MkRecordDir {[ep := MkEpochDir [link_of (MkFileBatch entries h)] 1]} ∅)).
  { subst w2 w1. unfold upd. cbn. rewrite insert_insert_eq, lookup_insert_eq. do 2 f_equal. apply insert_insert_eq. }
  rewrite runs_bind. unfold syncDir at 1. cbn [runs exec exec_open]. rewrite bool_decide_false, Hd2 by done. cbn [runs exec exec_sync done].
  set (w3 := w2 <| w_dirs := _ |>).
  assert (Hd3 : w_dirs w3 = <[t := MkRecordDir {[ep := MkEpochDir [link_of (MkFileBatch entries h)] 1]} {[ep]}]> (w_dirs w)).
  { subst w3. unfold upd at 1. cbn [w_dirs]. apply map_eq. intros j. destruct (decide (t = j)) as [<-|Hne].
    - rewrite lookup_alter_eq, Hd2, lookup_insert_eq. unfold upd. cbn. do 2 f_equal. apply dom_singleton_L.
    - rewrite lookup_alter_ne, lookup_insert_ne by done. subst w2 w1. unfold upd. cbn.
      by rewrite !lookup_insert_ne. }
  rewrite !bool_decide_false by (done || (rewrite Hd3, lookup_insert_eq; done)). cbn [orb].
  unfold occupied. change (w_top w3) with (w_top w). rewrite Ht. cbn [mbind option_bind runs done].
  rewrite runs_syncTop. unfold rename_top, upd. cbn. f_equal. f_equal. exact Hd3.
Qed.

Lemma runs_Create_new w me t id entries h :
  checkFileID id = None -> CheckBatch 0 entries h = None ->
  w_top w !! file_name id = None -> w_dirs w !! t = None -> t ∉ w_published w ->
  runs (Create epoch_name None me t id entries h) w = (with_record me t id entries h w, None).
Proof.
  intros Hid Hb Ht Hd Hp. unfold Create. rewrite Hid, Hb, runs_bind, runs_currentDir_none by done.
  change (errors_Is ErrNotFound ErrNotFound) with true. cbn [negb]. rewrite runs_bind. unfold publishRecord. cbn [runs exec].
  rewrite Hd. cbn [done]. set (w1 := w <| w_dirs := _ |>).
  rewrite runs_bind, runs_build by (done || apply lookup_insert_eq). cbn [runs exec w_published].
  rewrite bool_decide_true by set_solver. cbn [done runs exec]. unfold with_record. subst w1. unfold upd. cbn. by rewrite insert_insert_eq.
Qed.

Lemma runs_Create_exists w me t id entries h i e bs s :
  checkFileID id = None -> CheckBatch 0 entries h = None ->
  w_top w !! file_name id = Some i -> record_at w i e bs s ->
  runs (Create epoch_name None me t id entries h) w = (w, Some ErrExists).
Proof. intros Hid Hb Ht Hr. unfold Create. by rewrite Hid, Hb, runs_bind, (runs_currentDir _ _ _ _ _ _ Ht Hr). Qed.

Definition without_record (me : nat) (id : string) (i : nat) (w : world) : world :=
  MkWorld (delete (file_name id) (w_top w)) [] (delete i (w_dirs w)) (w_published w) ({[i]} ∪ w_deleted w)
    (w_temps w) (delete (me, id) (w_heads w)) (w_instances w).

Lemma runs_Delete_record w me id i :
  checkFileID id = None -> w_top w !! file_name id = Some i ->
  runs (Delete None me id) w = (without_record me id i w, None).
Proof. intros Hid Ht. unfold Delete. rewrite Hid. cbn. by rewrite Ht. Qed.

Lemma runs_Delete_none w me id :
  checkFileID id = None -> w_top w !! file_name id = None ->
  runs (Delete None me id) w = (w <| w_heads := delete (me, id) (w_heads w) |>, Some ErrNotFound).
Proof. intros Hid Ht. unfold Delete. rewrite Hid. cbn. by rewrite Ht. Qed.

(** ** Appending *)

Lemma last_of_next p bs b :
  numbered_from p bs -> b ∈ bs ->
  last_of (fb_Entries b) = N.of_nat (p + length (entries_in bs)) \/
  exists b', b' ∈ bs /\ first_of (fb_Entries b') = (last_of (fb_Entries b) + 1)%N.
Proof.
  intros Hn (before & after & ->)%list_elem_of_split. apply numbered_app in Hn as [_ Hn].
  rewrite (last_of_numbered _ _ _ Hn). destruct Hn as (_ & _ & Hn). destruct after as [|c after].
  - left. rewrite entries_in_app, length_app. cbn. rewrite app_nil_r. f_equal. lia.
  - right. exists c. split; [set_solver|]. rewrite (first_of_numbered _ _ _ Hn). lia.
Qed.

Lemma last_of_le p bs b : numbered_from p bs -> b ∈ bs -> (last_of (fb_Entries b) <= N.of_nat (p + length (entries_in bs)))%N.
Proof.
  intros Hn (before & after & ->)%list_elem_of_split. apply numbered_app in Hn as [_ Hn].
  rewrite (last_of_numbered _ _ _ Hn), entries_in_app, length_app.
  change (entries_in (b :: after)) with (fb_Entries b ++ entries_in after). rewrite length_app. lia.
Qed.

(** What a handle's cache may say of the batches of a directory. *)
Definition cached_in (bs : list fileBatch) (h : fileHead) : Prop :=
  exists b, b ∈ bs /\ first_of (fb_Entries b) = fh_first h /\ last_of (fb_Entries b) = fh_head h.

Lemma runs_head w me id dir i e bs s want :
  dir = InRecord (file_name id) (epoch_name e) ->
  w_top w !! file_name id = Some i -> record_at w i e bs s ->
  (forall h, w_heads w !! (me, id) = Some h -> fh_dir h = dir -> cached_in bs h) ->
  exists heads h, runs (head_ me id dir want) w = (w <| w_heads := heads |>, Ok h) /\
    (heads = w_heads w \/ exists h', heads = <[(me, id) := h']> (w_heads w) /\ fh_dir h' = dir /\ cached_in bs h') /\
    cached_in bs h /\ (fh_head h = N.of_nat (length (st_entries s)) \/ fh_head h = want).
Proof.
  intros -> Ht Hr Hc. destruct (record_epoch_at _ _ _ _ _ _ Ht Hr) as (n & He & Hw & _).
  pose proof (written_numbered _ _ _ Hw) as Hn. set (dir := InRecord (file_name id) (epoch_name e)) in *.
  unfold head_. set (from_dir := let! firsts := batchFirsts dir in _).
  assert (Hfrom : exists heads h, runs from_dir w = (w <| w_heads := heads |>, Ok h) /\
    (heads = w_heads w \/ exists h', heads = <[(me, id) := h']> (w_heads w) /\ fh_dir h' = dir /\ cached_in bs h') /\
    cached_in bs h /\ (fh_head h = N.of_nat (length (st_entries s)) \/ fh_head h = want)).
  { destruct (written_last _ _ _ Hw) as (b & Hb & _). assert (Hin : b ∈ bs) by (apply last_Some_elem_of in Hb; done).
    set (found := MkFileHead (last_of (fb_Entries b)) (first_of (fb_Entries b)) dir).
    assert (Hf : cached_in bs found) by (by exists b).
    exists (<[(me, id) := found]> (w_heads w)), found. split_and!.
    - subst from_dir. rewrite runs_bind, (runs_batchFirsts w dir bs _ He eq_refl Hn), fmap_last, Hb. cbn [fmap option_fmap option_map compose].
      by rewrite runs_bind, (runs_readBatch w dir bs _ He eq_refl Hn b Hin).
    - right. by exists found.
    - done.
    - left. by eapply written_last_of. }
  clearbody from_dir. cbn [runs exec]. destruct (w_heads w !! (me, id)) as [h|] eqn:Eh; cbn [done]; [|done].
  destruct (bool_decide_reflect (fh_dir h = dir)) as [Ed|]; cbn [andb]; [|done].
  destruct (N.eqb_spec (fh_head h) want) as [Ew|]; [|done]. pose proof (Hc h eq_refl Ed) as (b & Hin & Hfirst & Hlast).
  cbn [runs exec]. rewrite He. cbn [mbind option_bind ed_links]. rewrite <-Hfirst, (linked_batch 0) by done. cbn [done runs].
  exists (w_heads w), h. split_and!; [by destruct w|by left|by exists b|by right].
Qed.

Lemma runs_head_none w me id dir want : epoch_at w dir = None -> runs (head_ me id dir want) w = (w, Err ErrNotFound).
Proof.
  intros He. unfold head_. set (from_dir := let! firsts := batchFirsts dir in _).
  assert (Hfrom : runs from_dir w = (w, Err ErrNotFound)) by (subst from_dir; cbn [pbind batchFirsts runs exec]; by rewrite He).
  clearbody from_dir. cbn [runs exec]. destruct (w_heads w !! (me, id)) as [h|]; cbn [done]; [|done].
  destruct (bool_decide _ && _); [|done]. cbn [runs exec]. by rewrite He.
Qed.

Lemma runs_Append_none w me t id after entries h :
  checkFileID id = None -> CheckBatch after entries h = None ->
  epoch_at w (epochDir_ epoch_name id (rh_Epoch h)) = None ->
  runs (Append epoch_name None me t id after entries h) w = (w, Some ErrNotFound).
Proof. intros Hid Hb He. unfold Append. by rewrite Hid, Hb, runs_bind, runs_head_none. Qed.

Lemma first_of_batch after entries h :
  CheckBatch after entries h = None -> (after + N.of_nat (length entries) < two64)%N -> first_of entries = (after + 1)%N.
Proof.
  intros Hb Hf. destruct (CheckBatch_None _ _ _ Hb) as (_ & Hne & _). destruct entries as [|e es]; [done|].
  unfold first_of. cbn. rewrite (CheckBatch_continues _ _ _ Hb 0%nat e eq_refl). cbn in Hf. rewrite u64_small; lia.
Qed.

Lemma cached_written bs s e h : written e bs s -> cached_in bs h -> (fh_head h <= N.of_nat (length (st_entries s)))%N.
Proof.
  intros Hw (b & Hin & _ & <-). rewrite (written_log _ _ _ Hw). apply (last_of_le 0); [by eapply written_numbered|done].
Qed.

(** A stale position: the next one was written. *)
Lemma stale_linked bs s e h after :
  written e bs s -> cached_in bs h -> fh_head h = after -> after <> N.of_nat (length (st_entries s)) ->
  exists f, linked (after + 1) (link_of <$> bs) = Some f.
Proof.
  intros Hw (b & Hin & _ & Hl) Eh Hne. pose proof (written_numbered _ _ _ Hw) as Hn.
  destruct (last_of_next 0 bs b Hn Hin) as [E|(b' & Hin' & E)].
  - rewrite (written_log _ _ _ Hw) in Hne. cbn in E. congruence.
  - replace (after + 1)%N with (first_of (fb_Entries b')) by congruence. eexists. by apply (linked_batch 0).
Qed.

Lemma new_unlinked bs s e : written e bs s -> linked (N.of_nat (length (st_entries s)) + 1) (link_of <$> bs) = None.
Proof.
  intros Hw. pose proof (written_numbered _ _ _ Hw) as Hn. apply linked_None. rewrite links_names. intros Hin.
  apply list_elem_of_fmap in Hin as (b & E & Hb). cbn in E. apply list_elem_of_split in Hb as (before & after & ->).
  rewrite (written_log _ _ _ Hw), entries_in_app, length_app in E. apply numbered_app in Hn as [_ Hn].
  rewrite (first_of_numbered _ _ _ Hn) in E. change (entries_in (b :: after)) with (fb_Entries b ++ entries_in after) in E.
  rewrite length_app in E. destruct Hn as (Hne & _). assert (0 < length (fb_Entries b))%nat by (destruct (fb_Entries b); [done|cbn; lia]). lia.
Qed.

(** The disk after a refused write, and after an accepted one. *)
Inductive appended (me t : nat) (id : string) (i : nat) (e : string) (bs : list fileBatch) (b : fileBatch) (w : world) :
    world -> option error -> Prop :=
| appended_stale heads :
    (forall k h, heads !! k = Some h -> w_heads w !! k = Some h \/
       k = (me, id) /\ fh_dir h = epochDir_ epoch_name id e /\ cached_in bs h) ->
    appended me t id i e bs b w (w <| w_heads := heads |>) (Some ErrConflict)
| appended_taken heads :
    (forall k h, heads !! k = Some h -> w_heads w !! k = Some h \/
       k = (me, id) /\ fh_dir h = epochDir_ epoch_name id e /\ cached_in bs h) ->
    appended me t id i e bs b w (w <| w_heads := heads |> <| w_temps := delete t (w_temps w) |>) (Some ErrConflict)
| appended_written rd n heads :
    w_dirs w !! i = Some rd -> rd_epochs rd = {[epoch_name e := MkEpochDir (link_of <$> bs) n]} ->
    (forall k h, heads !! k = Some h -> w_heads w !! k = Some h \/
       k = (me, id) /\ fh_dir h = epochDir_ epoch_name id e /\ cached_in (bs ++ [b]) h) ->
    appended me t id i e bs b w
      ((with_batch t i (epoch_name e) rd (MkEpochDir (link_of <$> bs) n) b w) <| w_heads := heads |>) None.

Lemma runs_Append_record w me t id after entries h i e bs s :
  checkFileID id = None -> CheckBatch after entries h = None -> (after + N.of_nat (length entries) < two64)%N ->
  e = rh_Epoch h -> w_top w !! file_name id = Some i -> record_at w i e bs s ->
  (forall h, w_heads w !! (me, id) = Some h -> fh_dir h = epochDir_ epoch_name id e -> cached_in bs h) ->
  let (w', answer) := runs (Append epoch_name None me t id after entries h) w in
  appended me t id i e bs (MkFileBatch entries h) w w' answer /\
  (answer = None <-> after = N.of_nat (length (st_entries s))).
Proof.
  intros Hid Hb Hf -> Ht Hr Hc. set (e := rh_Epoch h) in *. unfold Append. fold e. rewrite Hid, Hb.
  destruct (runs_head w me id _ i e bs s after eq_refl Ht Hr Hc) as (heads & found & Hrun & Hheads & Hfound & Hfh).
  assert (Hk : forall k x, heads !! k = Some x -> w_heads w !! k = Some x \/
       k = (me, id) /\ fh_dir x = epochDir_ epoch_name id e /\ cached_in bs x).
  { intros k x Hx. destruct Hheads as [->|(x' & -> & ?)]; [by left|].
    apply lookup_insert_Some in Hx as [[<- <-]|[_ Hx]]; [right; naive_solver|by left]. }
  rewrite runs_bind. unfold epochDir_ in *. rewrite Hrun. set (w1 := w <| w_heads := heads |>).
  pose proof Hr as (rd & Hrd & n & He & _ & Hw & _).
  assert (Hd : dir_at w1 (InRecord (file_name id) (epoch_name e)) = Some i) by done.
  assert (Hep : rd_epochs rd !! epoch_name e = Some (MkEpochDir (link_of <$> bs) n)) by (by rewrite He, lookup_singleton_eq).
  destruct (N.eqb_spec (fh_head found) after) as [Ea|Ea]; cbn [negb].
  2:{ cbn [runs]. split; [by constructor|]. split; [done|]. intros ->. destruct Hfh; congruence. }
  rewrite runs_bind. destruct (decide (after = N.of_nat (length (st_entries s)))) as [Es|Es].
  - rewrite (runs_writeBatch w1 t _ i rd (MkEpochDir (link_of <$> bs) n) (MkFileBatch entries h)); [|done|done|done|].
    2:{ cbn [fb_Entries ed_links]. rewrite (first_of_batch after entries h Hb Hf), Es. by eapply new_unlinked. }
    cbn [runs exec done]. split; [|done].
    set (w' := _ <| w_heads := _ |>).
    replace w' with ((with_batch t i (epoch_name e) rd (MkEpochDir (link_of <$> bs) n) (MkFileBatch entries h) w)
      <| w_heads := <[(me, id) := head_after entries (InRecord (file_name id) (epoch_name e))]> heads |>) by done.
    apply appended_written; [done|done|]. intros k x [[<- <-]|[_ Hx]]%lookup_insert_Some.
    + right. split_and!; [done|done|]. exists (MkFileBatch entries h). split_and!; [set_solver|done|done].
    + destruct (Hk _ _ Hx) as [?|(? & ? & b & ? & ?)]; [by left|right]. split_and!; [done|done|]. exists b. set_solver.
  - destruct (stale_linked bs s e found after Hw Hfound Ea Es) as [f Hl].
    rewrite (runs_writeBatch_taken w1 t _ i rd (MkEpochDir (link_of <$> bs) n) (MkFileBatch entries h) f); [|done|done|done|].
    2:{ cbn [fb_Entries ed_links]. by rewrite (first_of_batch after entries h Hb Hf). }
    cbn [runs]. split; [exact (appended_taken me t id i e bs _ w heads Hk)|done].
Qed.

(** ** Agreement with the store in memory *)

Definition row_of (mi : memoryInstance) : fileInstance := MkFileInstance (mi_row mi) (mi_expires mi).

(** [next] is the number of the next call, and [used] the epochs of the Records created. *)
Record agrees (next : nat) (used : gset string) (w : world) (m : MemoryStore) : Prop := {
  ag_top id : match ms_records m !! id with
              | Some s => exists i bs, w_top w !! file_name id = Some i /\ record_at w i (rh_Epoch (st_header s)) bs s
              | None => w_top w !! file_name id = None
              end;
  ag_inj n n' i : w_top w !! n = Some i -> w_top w !! n' = Some i -> n = n';
  ag_old n i : w_top w !! n = Some i -> (i < next)%nat;
  ag_fresh i : (next <= i)%nat -> w_dirs w !! i = None /\ i ∉ w_published w;
  ag_used id s : ms_records m !! id = Some s -> rh_Epoch (st_header s) ∈ used;
  ag_heads me id h : w_heads w !! (me, id) = Some h ->
    exists e, fh_dir h = epochDir_ epoch_name id e /\ e ∈ used /\
      forall s i bs, ms_records m !! id = Some s -> rh_Epoch (st_header s) = e ->
        w_top w !! file_name id = Some i -> record_at w i e bs s -> cached_in bs h;
  ag_row id : name_fits id -> w_instances w !! file_name id = (Some ∘ row_of) <$> ms_instances m !! id;
  ag_valid id mi : ms_instances m !! id = Some mi -> CheckID id = None;
}.

Lemma agrees_empty : agrees 0 ∅ world_empty NewMemoryStore.
Proof. by split. Qed.

Lemma ag_some next used w m id s : agrees next used w m -> ms_records m !! id = Some s ->
  exists i bs, w_top w !! file_name id = Some i /\ record_at w i (rh_Epoch (st_header s)) bs s.
Proof. intros Ha Hs. pose proof (ag_top _ _ _ _ Ha id) as Ht. by rewrite Hs in Ht. Qed.

Lemma ag_none next used w m id : agrees next used w m -> ms_records m !! id = None -> w_top w !! file_name id = None.
Proof. intros Ha Hs. pose proof (ag_top _ _ _ _ Ha id) as Ht. by rewrite Hs in Ht. Qed.

Lemma record_at_dirs w w' i e bs s : w_dirs w' !! i = w_dirs w !! i -> record_at w i e bs s -> record_at w' i e bs s.
Proof. intros E (rd & Hrd & H). exists rd. by rewrite E. Qed.

(** A call that leaves the disk as it was. *)
Lemma agrees_later next used used' w m w' :
  agrees next used w m -> used ⊆ used' ->
  w_top w' = w_top w -> w_dirs w' = w_dirs w -> w_published w' = w_published w -> w_instances w' = w_instances w ->
  (forall me id h, w_heads w' !! (me, id) = Some h -> w_heads w !! (me, id) = Some h \/
     exists s i bs, ms_records m !! id = Some s /\ fh_dir h = epochDir_ epoch_name id (rh_Epoch (st_header s)) /\
       w_top w !! file_name id = Some i /\ record_at w i (rh_Epoch (st_header s)) bs s /\ cached_in bs h) ->
  agrees (S next) used' w' m.
Proof.
  intros [Ht Hi Ho Hf Hu Hh Hr Hv] Hsub E1 E2 E3 E4 Hheads.
  assert (Hat : forall i e bs s, record_at w' i e bs s <-> record_at w i e bs s) by (intros; split; apply record_at_dirs; by rewrite E2).
  split; rewrite ?E1, ?E2, ?E3, ?E4; try done.
  - intros id. specialize (Ht id). destruct (ms_records m !! id) as [s|]; [|done]. destruct Ht as (i & bs & ? & ?). exists i, bs. by rewrite Hat.
  - intros n i Hn. apply Ho in Hn. lia.
  - intros i Hle. apply Hf. lia.
  - intros id s Hs. apply Hsub. by eapply Hu.
  - intros me id h Hh'. destruct (Hheads me id h Hh') as [Hold|(s & i & bs & Hs & Hdir & Hti & Hrec & Hc)].
    + destruct (Hh me id h Hold) as (e & He & Hin & Hall). exists e. split_and!; [done|by apply Hsub|].
      intros s i bs. rewrite Hat. apply Hall.
    + eexists. split_and!; [exact Hdir|apply Hsub; by eapply Hu|]. intros s' i' bs' Hs' _ Hti'. rewrite Hat. intros Hrec'.
      simplify_eq. by destruct (record_at_fun _ _ _ _ _ _ _ _ Hrec Hrec') as [_ <-].
Qed.

Lemma agrees_same next used used' w m : agrees next used w m -> used ⊆ used' -> agrees (S next) used' w m.
Proof. intros Ha Hsub. eapply agrees_later; [eassumption|try done; reflexivity|done..|]. auto. Qed.

Lemma agrees_created next used w m me id entries h :
  agrees next used w m -> CheckBatch 0 entries h = None -> fits (length entries) -> rh_Epoch h ∉ used ->
  ms_records m !! id = None ->
  agrees (S next) ({[rh_Epoch h]} ∪ used) (with_record me next id entries h w)
    (m <| ms_records := <[id := MkStored entries h]> (ms_records m) |>).
Proof.
  intros [Ht Hi Ho Hf Hu Hh Hr Hv] Hb Hfit He Hid.
  assert (Hnew : record_at (with_record me next id entries h w) next (rh_Epoch h) [MkFileBatch entries h] (MkStored entries h)).
  { eexists. split; [apply lookup_insert_eq|]. exists 1%nat. split_and!; [done|cbn; set_solver|by constructor|lia|cbn; lia]. }
  assert (Hold : forall i e bs s, (i < next)%nat -> record_at (with_record me next id entries h w) i e bs s <-> record_at w i e bs s).
  { intros i e bs s Hlt. split; apply record_at_dirs; cbn; rewrite lookup_insert_ne by lia; done. }
  split.
  - intros id'. unfold upd. cbn. destruct (decide (id = id')) as [<-|Hne].
    + rewrite !lookup_insert_eq. by exists next, [MkFileBatch entries h].
    + rewrite lookup_insert_ne by done. rewrite lookup_insert_ne by (intros E; by apply (inj file_name) in E).
      specialize (Ht id'). destruct (ms_records m !! id'); [|done]. destruct Ht as (i & bs & Hti & Hrec). exists i, bs.
      split; [done|]. rewrite Hold; [done|by eapply Ho].
  - intros n n' i. cbn. intros [[<- <-]|[Hn1 Hn2]]%lookup_insert_Some [[<- Ei]|[Hn3 Hn4]]%lookup_insert_Some; [done| | |by eapply Hi].
    + apply Ho in Hn4. lia.
    + subst i. apply Ho in Hn2. lia.
  - intros n i. cbn. intros [[<- <-]|[_ Hn]]%lookup_insert_Some; [lia|]. apply Ho in Hn. lia.
  - intros i Hle. cbn. rewrite lookup_insert_ne by lia. destruct (Hf i ltac:(lia)) as [? ?]. split; [done|]. set_solver by lia.
  - intros id' s. unfold upd. cbn. intros [[<- <-]|[_ Hs]]%lookup_insert_Some; [set_solver|]. apply Hu in Hs. set_solver.
  - intros me' id' h'. cbn. intros [[[= <- <-] <-]|[Hne Hh']]%lookup_insert_Some.
    + exists (rh_Epoch h). split_and!; [done|set_solver|]. unfold upd. cbn. intros s i bs. rewrite lookup_insert_eq. intros [= <-] _.
      rewrite lookup_insert_eq. intros [= <-] Hrec. destruct (record_at_fun _ _ _ _ _ _ _ _ Hnew Hrec) as [_ <-].
      exists (MkFileBatch entries h). split_and!; [set_solver|done|done].
    + destruct (Hh me' id' h' Hh') as (e & Hd & Hin & Hall). exists e. split_and!; [done|set_solver|]. unfold upd. cbn.
      intros s i bs [[<- <-]|[Hne' Hs]]%lookup_insert_Some; [cbn; intros <-; by destruct He|].
      intros Hee. rewrite lookup_insert_ne by (intros E; by apply (inj file_name) in E). intros Hti.
      rewrite Hold by (by eapply Ho). intros Hrec. by eapply Hall.
  - exact Hr.
  - exact Hv.
Qed.

Lemma agrees_deleted next used w m me id i s :
  agrees next used w m -> ms_records m !! id = Some s -> w_top w !! file_name id = Some i ->
  agrees (S next) used (without_record me id i w) (m <| ms_records := delete id (ms_records m) |>).
Proof.
  intros [Ht Hi Ho Hf Hu Hh Hr Hv] Hs Hid.
  assert (Hold : forall j e bs s, j <> i -> record_at (without_record me id i w) j e bs s <-> record_at w j e bs s).
  { intros j e bs s' Hne. split; apply record_at_dirs; cbn; by rewrite lookup_delete_ne. }
  assert (Hother : forall id' j, id' <> id -> w_top w !! file_name id' = Some j -> j <> i).
  { intros id' j Hne Hj ->. by apply Hne, (inj file_name), (Hi _ _ i). }
  split.
  - intros id'. unfold upd. cbn. destruct (decide (id = id')) as [<-|Hne]; [by rewrite !lookup_delete_eq|].
    rewrite lookup_delete_ne by done. rewrite lookup_delete_ne by (intros E; by apply (inj file_name) in E).
    specialize (Ht id'). destruct (ms_records m !! id'); [|done]. destruct Ht as (j & bs & Hti & Hrec). exists j, bs.
    split; [done|]. rewrite Hold; [done|by eapply Hother].
  - intros n n' j. cbn. intros [_ Hn]%lookup_delete_Some [_ Hn']%lookup_delete_Some. by eapply Hi.
  - intros n j. cbn. intros [_ Hn]%lookup_delete_Some. apply Ho in Hn. lia.
  - intros j Hle. cbn. destruct (Hf j ltac:(lia)) as [? ?]. split; [|done]. rewrite lookup_delete_ne; [done|]. apply Ho in Hid. lia.
  - intros id' s'. unfold upd. cbn. intros [_ Hs']%lookup_delete_Some. by eapply Hu.
  - intros me' id' h'. cbn. intros [Hne Hh']%lookup_delete_Some. destruct (Hh me' id' h' Hh') as (e & Hd & Hin & Hall).
    exists e. split_and!; [done|done|]. unfold upd. cbn. intros s' j bs [Hne' Hs']%lookup_delete_Some Hee [_ Hti]%lookup_delete_Some.
    rewrite Hold by (by eapply Hother). intros Hrec. by eapply Hall.
  - exact Hr.
  - exact Hv.
Qed.

Lemma agrees_written next used w m me t id i e bs s n rd entries h heads :
  agrees next used w m -> ms_records m !! id = Some s -> rh_Epoch (st_header s) = e ->
  w_top w !! file_name id = Some i -> record_at w i e bs s ->
  w_dirs w !! i = Some rd -> rd_epochs rd = {[epoch_name e := MkEpochDir (link_of <$> bs) n]} ->
  rh_Epoch h = e -> CheckBatch (N.of_nat (length (st_entries s))) entries h = None ->
  fits (length (st_entries s) + length entries) ->
  let b := MkFileBatch entries h in
  (forall k x, heads !! k = Some x -> w_heads w !! k = Some x \/
     k = (me, id) /\ fh_dir x = epochDir_ epoch_name id e /\ cached_in (bs ++ [b]) x) ->
  agrees (S next) used
    ((with_batch t i (epoch_name e) rd (MkEpochDir (link_of <$> bs) n) b w) <| w_heads := heads |>)
    (m <| ms_records := <[id := extended s entries h]> (ms_records m) |>).
Proof.
  intros [Ht Hi Ho Hf Hu Hh Hr Hv] Hs He Hti Hrec Hrd Hrde Hhe Hb Hfit b Hheads.
  set (w' := _ <| w_heads := heads |>).
  assert (Hdirs : w_dirs w' = <[i := rd <| rd_epochs := {[epoch_name e := MkEpochDir (link_of <$> bs ++ [b]) (length (bs ++ [b]))]} |>]> (w_dirs w)).
  { subst w'. unfold with_batch, upd. cbn. rewrite Hrde, insert_singleton_eq, fmap_app. do 5 f_equal. by rewrite !length_app, length_fmap. }
  assert (Hnew : record_at w' i e (bs ++ [b]) (extended s entries h)).
  { destruct Hrec as (rd' & Hrd' & n' & _ & Hdur & Hw & _). simplify_eq.
    eexists. rewrite Hdirs. split; [apply lookup_insert_eq|]. eexists. split_and!; [done|done|by constructor| |lia].
    rewrite length_app. cbn. lia. }
  assert (Hold : forall j e' bs' s', j <> i -> record_at w' j e' bs' s' <-> record_at w j e' bs' s').
  { intros j e' bs' s' Hne. split; apply record_at_dirs; rewrite Hdirs, lookup_insert_ne; done. }
  assert (Hother : forall id' j, id' <> id -> w_top w !! file_name id' = Some j -> j <> i).
  { intros id' j Hne Hj ->. by apply Hne, (inj file_name), (Hi _ _ i). }
  split.
  - intros id'. change (w_top w') with (w_top w). unfold upd at 1. cbn. destruct (decide (id = id')) as [<-|Hne].
    + rewrite lookup_insert_eq. exists i, (bs ++ [b]). cbn. by rewrite Hhe.
    + rewrite lookup_insert_ne by done. specialize (Ht id'). destruct (ms_records m !! id'); [|done].
      destruct Ht as (j & bs' & Htj & Hrj). exists j, bs'. split; [done|]. rewrite Hold; [done|by eapply Hother].
  - exact Hi.
  - intros n' j Hn. apply Ho in Hn. lia.
  - intros j Hle. rewrite Hdirs. destruct (Hf j ltac:(lia)) as [? ?]. split; [|done]. rewrite lookup_insert_ne; [done|]. apply Ho in Hti. lia.
  - intros id' s'. unfold upd. cbn. intros [[<- <-]|[_ Hs']]%lookup_insert_Some; [cbn; rewrite Hhe, <-He|]; by eapply Hu.
  - intros me' id' x Hx. destruct (Hheads _ _ Hx) as [Hold'|([= -> ->] & Hd & Hc)].
    + destruct (Hh me' id' x Hold') as (e' & Hd & Hin & Hall). exists e'. split_and!; [done|done|]. unfold upd at 1. cbn.
      intros s' j bs' [[<- <-]|[Hne' Hs']]%lookup_insert_Some.
      * intros Hee. cbn in Hee. change (w_top w') with (w_top w). intros Hj Hrj. simplify_eq.
        destruct (record_at_fun _ _ _ _ _ _ _ _ Hnew Hrj) as [_ <-].
        destruct (Hall s i bs Hs (eq_sym Hhe) Hti ltac:(by rewrite Hhe)) as (b' & Hb' & ? & ?). exists b'. set_solver.
      * intros Hee. change (w_top w') with (w_top w). intros Htj. rewrite Hold by (by eapply Hother). intros Hrj. by eapply Hall.
    + exists e. split_and!; [done|subst e; by eapply Hu|]. unfold upd at 1. cbn. intros s' j bs'. rewrite lookup_insert_eq. intros [= <-] _.
      change (w_top w') with (w_top w). rewrite Hti. intros [= <-] Hrj. by destruct (record_at_fun _ _ _ _ _ _ _ _ Hnew Hrj) as [_ <-].
  - exact Hr.
  - exact Hv.
Qed.

(** ** The calls *)

(** What a call of MemoryStore asks, asked of handle [me] in call [t]. *)
Definition file_serve (me t : nat) (c : MemoryStore.call) : prog (option error) :=
  match call_request c with
  | ReqCreate id entries h => Create epoch_name (call_ctx c) me t id entries h
  | ReqAppend id after entries h => Append epoch_name (call_ctx c) me t id after entries h
  | ReqDelete id => Delete (call_ctx c) me id
  | ReqBeat row ttl => Beat (call_ctx c) (call_now c) row ttl
  end.

(** The calls a file store can be asked: its IDs have names of at most 200 bytes, positions
    are below the wrap-around, and a new Record has a new epoch. *)
Definition proper (used : gset string) (c : MemoryStore.call) : Prop :=
  match call_request c with
  | ReqCreate id entries h => name_fits id /\ fits (length entries) /\ rh_Epoch h ∉ used
  | ReqAppend id after entries h => name_fits id /\ (after + N.of_nat (length entries) < two64)%N
  | ReqDelete id => name_fits id
  | ReqBeat row ttl => name_fits (ir_ID row)
  end.

Definition used_after (used : gset string) (c : MemoryStore.call) : gset string :=
  match call_request c with
  | ReqCreate _ _ h => {[rh_Epoch h]} ∪ used
  | _ => used
  end.

Lemma used_mono used c : used ⊆ used_after used c.
Proof. unfold used_after. destruct (call_request c); set_solver. Qed.

Definition served_alike (next : nat) (used : gset string) (c : MemoryStore.call) (file : world * option error)
    (memory : MemoryStore * option error) : Prop :=
  file.2 = memory.2 /\ agrees (S next) (used_after used c) file.1 memory.1.

Lemma served_same next used c w m err :
  agrees next used w m -> served_alike next used c (w, err) (m, err).
Proof. intros Ha. split; [done|]. eapply agrees_same; [done|apply used_mono]. Qed.

Lemma serve_create next used w m me ctx now id entries h :
  agrees next used w m -> name_fits id -> fits (length entries) -> rh_Epoch h ∉ used ->
  let c := MkCall ctx now (ReqCreate id entries h) in
  served_alike next used c (runs (file_serve me next c) w) (serve c m).
Proof.
  intros Ha Hf Hl He c. unfold file_serve, serve. cbn [call_request call_ctx c].
  destruct ctx as [err|]; [by apply served_same|]. unfold MemoryStore.Create.
  destruct (CheckID id) as [err|] eqn:Hid; [unfold Create; rewrite checkFileID_fits, Hid by done; by apply served_same|].
  assert (Hid' : checkFileID id = None) by (by rewrite checkFileID_fits).
  destruct (CheckBatch 0 entries h) as [err|] eqn:Hb; [unfold Create; rewrite Hid', Hb; by apply served_same|].
  destruct (ms_records m !! id) as [s|] eqn:Hs.
  - destruct (ag_some _ _ _ _ _ _ Ha Hs) as (i & bs & Ht & Hr). rewrite (runs_Create_exists _ _ _ _ _ _ _ _ _ _ Hid' Hb Ht Hr).
    by apply served_same.
  - destruct (ag_fresh _ _ _ _ Ha next (le_n _)) as [Hd Hp].
    rewrite (runs_Create_new _ _ _ _ _ _ Hid' Hb (ag_none _ _ _ _ _ Ha Hs) Hd Hp). split; [done|]. by apply agrees_created.
Qed.

Lemma serve_append next used w m me ctx now id after entries h :
  agrees next used w m -> name_fits id -> (after + N.of_nat (length entries) < two64)%N ->
  let c := MkCall ctx now (ReqAppend id after entries h) in
  served_alike next used c (runs (file_serve me next c) w) (serve c m).
Proof.
  intros Ha Hf Hl c. unfold file_serve, serve. cbn [call_request call_ctx c].
  destruct ctx as [err|]; [by apply served_same|]. unfold MemoryStore.Append.
  destruct (CheckID id) as [err|] eqn:Hid; [unfold Append; rewrite checkFileID_fits, Hid by done; by apply served_same|].
  assert (Hid' : checkFileID id = None) by (by rewrite checkFileID_fits).
  destruct (CheckBatch after entries h) as [err|] eqn:Hb; [unfold Append; rewrite Hid', Hb; by apply served_same|].
  destruct (ms_records m !! id) as [s|] eqn:Hs.
  2:{ rewrite runs_Append_none; [by apply served_same|done|done|]. unfold epoch_at, dir_at, epochDir_.
      by rewrite (ag_none _ _ _ _ _ Ha Hs). }
  destruct (ag_some _ _ _ _ _ _ Ha Hs) as (i & bs & Ht & Hr).
  destruct (String.eqb_spec (rh_Epoch (st_header s)) (rh_Epoch h)) as [Ee|Ee]; cbn [negb].
  2:{ rewrite runs_Append_none; [by apply served_same|done|done|]. unfold epoch_at, dir_at, epochDir_. rewrite Ht. cbn.
      eapply record_other_epoch; [done|]. by apply not_eq_sym. }
  assert (Hw : exists e', written e' bs s) by (destruct Hr as (? & _ & ? & _ & _ & ? & _); by eexists). destruct Hw as [e' Hw].
  rewrite (u64_small (N.of_nat (length (st_entries s)))) by (by eapply written_fits).
  assert (Hcache : forall x, w_heads w !! (me, id) = Some x -> fh_dir x = epochDir_ epoch_name id (rh_Epoch (st_header s)) -> cached_in bs x).
  { intros x Hx Hd. destruct (ag_heads _ _ _ _ Ha _ _ _ Hx) as (e & Hd' & _ & Hall). rewrite Hd in Hd'.
    injection Hd' as Hd'%(inj epoch_name). subst e. by apply (Hall s i bs). }
  pose proof (runs_Append_record w me next id after entries h i _ bs s Hid' Hb Hl Ee Ht Hr Hcache) as Hrun.
  destruct (runs (Append epoch_name None me next id after entries h) w) as [w' answer]. destruct Hrun as [Happ Hans].
  assert (Hsame : forall w'', w_top w'' = w_top w -> w_dirs w'' = w_dirs w -> w_published w'' = w_published w ->
    w_instances w'' = w_instances w ->
    (forall k x, w_heads w'' !! k = Some x -> w_heads w !! k = Some x \/
       k = (me, id) /\ fh_dir x = epochDir_ epoch_name id (rh_Epoch (st_header s)) /\ cached_in bs x) ->
    agrees (S next) used w'' m).
  { intros w'' E1 E2 E3 E4 Hk. eapply agrees_later; [eassumption|try done; reflexivity|done..|]. intros me' id' x Hx. destruct (Hk _ _ Hx) as [?|([= -> ->] & ? & ?)]; [by left|right].
    exists s, i, bs. auto. }
  destruct (N.eqb_spec (N.of_nat (length (st_entries s))) after) as [El|El]; cbn [negb].
  - assert (answer = None) as -> by (by apply Hans). split; [done|]. inversion Happ as [| |rd n heads Hrd Hrde Hheads]; subst.
    eapply agrees_written; try done. unfold fits. lia.
  - assert (answer <> None) by (intros E; apply Hans in E; congruence).
    inversion Happ as [heads Hheads|heads Hheads|]; subst; [|..|done]; (split; [done|]); by apply Hsame.
Qed.

Lemma serve_delete next used w m me ctx now id :
  agrees next used w m -> name_fits id ->
  let c := MkCall ctx now (ReqDelete id) in
  served_alike next used c (runs (file_serve me next c) w) (serve c m).
Proof.
  intros Ha Hf c. unfold file_serve, serve. cbn [call_request call_ctx c].
  destruct ctx as [err|]; [by apply served_same|]. unfold MemoryStore.Delete.
  destruct (CheckID id) as [err|] eqn:Hid; [unfold Delete; rewrite checkFileID_fits, Hid by done; by apply served_same|].
  assert (Hid' : checkFileID id = None) by (by rewrite checkFileID_fits).
  destruct (ms_records m !! id) as [s|] eqn:Hs.
  - destruct (ag_some _ _ _ _ _ _ Ha Hs) as (i & bs & Ht & Hr). rewrite (runs_Delete_record _ _ _ _ Hid' Ht).
    split; [done|]. by eapply agrees_deleted.
  - rewrite (runs_Delete_none _ _ _ Hid' (ag_none _ _ _ _ _ Ha Hs)). split; [done|]. eapply agrees_later; [eassumption|try done; reflexivity|done..|].
    intros me' id' x. cbn. intros [_ ?]%lookup_delete_Some. by left.
Qed.

Lemma agrees_rows next used w m rows rows' :
  agrees next used w m ->
  (forall id, name_fits id -> rows !! file_name id = (Some ∘ row_of) <$> rows' !! id) ->
  (forall id mi, rows' !! id = Some mi -> CheckID id = None) ->
  agrees (S next) used (w <| w_instances := rows |>) (m <| ms_instances := rows' |>).
Proof.
  intros [Ht Hi Ho Hf Hu Hh Hr Hv] Hrows Hvalid. split; try done.
  - intros n i Hn. apply Ho in Hn. lia.
  - intros i Hle. apply Hf. lia.
Qed.

Lemma serve_beat next used w m me ctx now row ttl :
  agrees next used w m -> name_fits (ir_ID row) ->
  let c := MkCall ctx now (ReqBeat row ttl) in
  served_alike next used c (runs (file_serve me next c) w) (serve c m).
Proof.
  intros Ha Hf c. unfold file_serve, serve. cbn [call_request call_ctx call_now c].
  destruct ctx as [err|]; [by apply served_same|]. unfold MemoryStore.Beat, Beat. rewrite checkFileID_fits by done.
  destruct (CheckID (ir_ID row)) as [err|] eqn:Hid; [by apply served_same|].
  pose proof (ag_row _ _ _ _ Ha _ Hf) as Hrow. pose proof (ag_valid _ _ _ _ Ha) as Hvalid.
  assert (Hput : forall mi, agrees (S next) used
    (w <| w_instances := <[file_name (ir_ID row) := Some (row_of mi)]> (w_instances w) |>)
    (m <| ms_instances := <[ir_ID row := mi]> (ms_instances m) |>)).
  { intros mi. apply agrees_rows; [done| |].
    - intros id' Hf'. destruct (decide (ir_ID row = id')) as [<-|Hne]; [by rewrite !lookup_insert_eq|].
      rewrite !lookup_insert_ne by (done || (intros E; by apply (inj file_name) in E)). by apply (ag_row _ _ _ _ Ha).
    - intros id' mi'. intros [[<- _]|[_ Hm]]%lookup_insert_Some; [done|]. by eapply Hvalid. }
  destruct (ttl <=? 0)%Z.
  - cbn [runs exec]. rewrite Hrow. destruct (ms_instances m !! ir_ID row) as [mi|] eqn:Em; cbn [fmap option_fmap option_map done refuse runs].
    + split; [done|]. apply agrees_rows; [done| |].
      * intros id' Hf'. destruct (decide (ir_ID row = id')) as [<-|Hne]; [by rewrite !lookup_delete_eq|].
        rewrite !lookup_delete_ne by (done || (intros E; by apply (inj file_name) in E)). by apply (ag_row _ _ _ _ Ha).
      * intros id' mi' [_ Hm]%lookup_delete_Some. by eapply Hvalid.
    + rewrite delete_id by done. replace (m <| ms_instances := ms_instances m |>) with m by (by destruct m). by apply served_same.
  - unfold readInstance. cbn [runs exec pbind]. rewrite Hrow.
    destruct (ms_instances m !! ir_ID row) as [mi|] eqn:Em; cbn [fmap option_fmap option_map compose done refuse runs pbind fi_Expires row_of].
    + destruct (now <? mi_expires mi)%Z; cbn [negb]; [|by apply served_same]. split; [done|]. apply (Hput (MkMemoryInstance row (now + ttl))).
    + split; [done|]. apply (Hput (MkMemoryInstance row (now + ttl))).
Qed.

Lemma serve_alike next used w m me c :
  agrees next used w m -> proper used c -> served_alike next used c (runs (file_serve me next c) w) (serve c m).
Proof.
  intros Ha Hp. destruct c as [ctx now [id entries h|id after entries h|id|row ttl]]; unfold proper in Hp; cbn in Hp.
  - apply serve_create; tauto.
  - apply serve_append; tauto.
  - by apply serve_delete.
  - by apply serve_beat.
Qed.

Lemma agrees_Load next used w m ctx id :
  agrees next used w m -> name_fits id -> runs (Load ctx id) w = (w, MemoryStore.Load ctx id m).
Proof.
  intros Ha Hf. unfold MemoryStore.Load. destruct ctx as [err|]; [done|].
  destruct (CheckID id) as [err|] eqn:Hid; [unfold Load, batchList; rewrite checkFileID_fits, Hid by done; done|].
  assert (Hid' : checkFileID id = None) by (by rewrite checkFileID_fits).
  destruct (ms_records m !! id) as [s|] eqn:Hs.
  - destruct (ag_some _ _ _ _ _ _ Ha Hs) as (i & bs & Ht & Hr). rewrite (runs_Load _ _ _ _ _ _ Hid' Ht Hr).
    unfold load_of, head. by destruct (loadedFrom (st_entries s)).
  - unfold Load. by rewrite runs_bind, (runs_batchList_none _ _ Hid' (ag_none _ _ _ _ _ Ha Hs)).
Qed.

Lemma agrees_Log next used w m ctx id after limit :
  agrees next used w m -> name_fits id -> runs (Log ctx id after limit) w = (w, MemoryStore.Log ctx id after limit m).
Proof.
  intros Ha Hf. destruct ctx as [err|]; [done|].
  destruct (CheckID id) as [err|] eqn:Hid.
  { unfold MemoryStore.Log, Log, batchList. by rewrite checkFileID_fits, Hid by done. }
  assert (Hid' : checkFileID id = None) by (by rewrite checkFileID_fits).
  destruct (ms_records m !! id) as [s|] eqn:Hs.
  - destruct (ag_some _ _ _ _ _ _ Ha Hs) as (i & bs & Ht & Hr). rewrite (runs_Log_record _ _ _ _ _ _ _ _ Hid' Ht Hr).
    assert (exists entries, MemoryStore.Log None id after limit m = Ok entries) as [entries He].
    { unfold MemoryStore.Log. rewrite Hid, Hs. repeat case_match; by eexists. }
    rewrite He. destruct (Log_log_of _ _ _ _ _ _ He) as (s' & Hs' & Hl). simplify_eq. rewrite Hl; [done|].
    destruct Hr as (rd & _ & n & _ & _ & Hw & _). by eapply written_fits.
  - unfold Log, MemoryStore.Log. by rewrite Hid, Hs, runs_bind, (runs_batchList_none _ _ Hid' (ag_none _ _ _ _ _ Ha Hs)).
Qed.

Lemma agrees_Instance next used w m ctx now id :
  agrees next used w m -> name_fits id -> runs (Instance_ ctx now id) w = (w, MemoryStore.Instance_ ctx now id m).
Proof.
  intros Ha Hf. unfold Instance_, MemoryStore.Instance_. destruct ctx as [err|]; [done|]. rewrite checkFileID_fits by done.
  destruct (CheckID id) as [err|] eqn:Hid.
  { destruct (ms_instances m !! id) as [mi|] eqn:Em; [|done]. apply (ag_valid _ _ _ _ Ha) in Em. congruence. }
  unfold readInstance. cbn [runs exec pbind]. rewrite (ag_row _ _ _ _ Ha _ Hf).
  by destruct (ms_instances m !! id) as [mi|].
Qed.

(** ** Sequences of calls *)

(** The calls one after the other, each to a handle of its own choice. *)
Fixpoint file_answers (t : nat) (calls : list (nat * MemoryStore.call)) (w : world) : world * list (option error) :=
  match calls with
  | [] => (w, [])
  | (me, c) :: rest =>
    let (w, answer) := runs (file_serve me t c) w in
    let (w, answers) := file_answers (S t) rest w in
    (w, answer :: answers)
  end.

Fixpoint memory_answers (calls : list (nat * MemoryStore.call)) (m : MemoryStore) : MemoryStore * list (option error) :=
  match calls with
  | [] => (m, [])
  | (_, c) :: rest =>
    let (m, answer) := serve c m in
    let (m, answers) := memory_answers rest m in
    (m, answer :: answers)
  end.

Fixpoint all_proper (used : gset string) (calls : list (nat * MemoryStore.call)) : Prop :=
  match calls with
  | [] => True
  | (_, c) :: rest => proper used c /\ all_proper (used_after used c) rest
  end.

Lemma answers_alike calls next used w m :
  agrees next used w m -> all_proper used calls ->
  (file_answers next calls w).2 = (memory_answers calls m).2 /\
  exists next' used', agrees next' used' (file_answers next calls w).1 (memory_answers calls m).1.
Proof.
  revert next used w m. induction calls as [|[me c] calls IH]; intros next used w m Ha Hp; [split; [done|by eexists _, _]|].
  destruct Hp as [Hc Hp]. destruct (serve_alike _ _ _ _ me c Ha Hc) as [E Ha']. cbn [file_answers memory_answers].
  destruct (runs (file_serve me next c) w) as [w1 a1], (serve c m) as [m1 b1]. cbn in E, Ha'. subst b1.
  destruct (IH _ _ _ _ Ha' Hp) as [E' Hend].
  destruct (file_answers (S next) calls w1) as [w2 a2], (memory_answers calls m1) as [m2 b2]. cbn in *. by subst b2.
Qed.

(** C12: Whatever sequence of calls is made on whichever handles of one directory, the file
    store answers each as the store in memory does, the heartbeats included, and after it a
    Load, a Log and a question for an Instance read the same; stale caches of other handles
    never show. The calls name IDs that fit a file name, positions below the wrap-around and a
    new epoch for each new Record. *)
Theorem file_store_answers_as_memory calls :
  all_proper ∅ calls ->
  let '(w, answers) := file_answers 0 calls world_empty in
  let '(m, expected) := memory_answers calls NewMemoryStore in
  answers = expected /\
  forall ctx id, name_fits id ->
    runs (Load ctx id) w = (w, MemoryStore.Load ctx id m) /\
    (forall after limit, runs (Log ctx id after limit) w = (w, MemoryStore.Log ctx id after limit m)) /\
    (forall now, runs (Instance_ ctx now id) w = (w, MemoryStore.Instance_ ctx now id m)).
Proof.
  intros Hp. destruct (answers_alike calls 0 ∅ world_empty NewMemoryStore agrees_empty Hp) as [E (next & used & Ha)].
  destruct (file_answers 0 calls world_empty) as [w answers], (memory_answers calls NewMemoryStore) as [m expected].
  split; [exact E|]. intros ctx id Hf. split_and!.
  - by eapply agrees_Load.
  - intros. by eapply agrees_Log.
  - intros. by eapply agrees_Instance.
Qed.
End equivalence.

(** ** Witness *)

Definition sample_epoch_name (e : string) : string := String "x" e.

#[export] Instance sample_epoch_names : EpochNames sample_epoch_name.
Proof. split; [by intros a b [=]|done]. Qed.

(** Handle 1 appends, and handle 0 then appends at the position it remembers. *)
Definition sample_file_calls : list (nat * MemoryStore.call) :=
  [ (0%nat, MkCall None 10 (ReqCreate "s1" [sample_checkpoint 1; sample_entry 2] (sample_header "s1" "e1" 5)));
    (1%nat, MkCall None 12 (ReqAppend "s1" 2 [sample_checkpoint 3] (sample_header "s1" "e1" 6)));
    (0%nat, MkCall None 12 (ReqAppend "s1" 2 [sample_entry 3] (sample_header "s1" "e1" 7)));
    (1%nat, MkCall None 13 (ReqBeat (MkInstanceRow "pod-a" false "") 3)) ].

Lemma file_store_answers_as_memory_witness :
  (file_answers sample_epoch_name 0 sample_file_calls world_empty).2 = [None; None; Some ErrConflict; None] /\
  (runs (Load None "s1") (file_answers sample_epoch_name 0 sample_file_calls world_empty).1).2 =
    Ok (MkLoaded [sample_checkpoint 3] [sample_entry 2] 3 (sample_header "s1" "e1" 6)).
Proof.
  assert (Hp : all_proper ∅ sample_file_calls).
  { cbn. unfold proper, name_fits, fits. cbn. repeat split; try (vm_compute; congruence); apply Nat.leb_le; vm_compute; reflexivity. }
  pose proof (file_store_answers_as_memory sample_epoch_name sample_file_calls Hp) as Hs.
  destruct (file_answers sample_epoch_name 0 sample_file_calls world_empty) as [w answers].
  destruct (memory_answers sample_file_calls NewMemoryStore) as [m expected] eqn:Em.
  destruct Hs as [-> Hread]. destruct (Hread None "s1") as (Hl & _); [apply Nat.leb_le; vm_compute; reflexivity|]. cbn [fst snd]. rewrite Hl. split.
  - apply (f_equal snd) in Em. vm_compute in Em. symmetry. exact Em.
  - apply (f_equal (fun r => MemoryStore.Load None "s1" (fst r))) in Em. vm_compute in Em. symmetry. exact Em.
Defined.
