(* ===== verification/FileCrash.v ===== *)
(** * Many processes, crashes and power cuts

    Any number of calls on the handles of any number of processes, interleaved between any two
    system calls; a call may fail, a process may die between two calls, and a power
    cut takes from the disk whatever was not synced.  Each call is shown to keep what the
    others rely on, as a triple of its program. *)

From S2P Require Import Prelude GoStrings Errors Types Events Entry Store MemoryStore FileName FileSystem FileStore FileLog FileEquiv.
Local Open Scope string_scope.
Local Open Scope list_scope.

(** ** The calls *)

Section crash.
Context (epoch_name : string -> string) `{!EpochNames epoch_name}.

(** All the calls there will ever be: call [t] is made on handle [handle t]. *)
Context (calls : nat -> MemoryStore.call) (handle : nat -> nat).

(** Call [i] creates a Record of [id] with epoch [e]. *)
Definition creates (i : nat) (id e : string) : Prop :=
  exists entries h, call_request (calls i) = ReqCreate id entries h /\ rh_Epoch h = e.

(** What a call asks is in range, and no two calls create Records of one epoch. *)
Definition in_range (t : nat) : Prop :=
  match call_request (calls t) with
  | ReqCreate id entries h => fits (length entries)
  | ReqAppend id after entries h => (after + N.of_nat (length entries) < two64)%N
  | _ => True
  end.

Record good_calls : Prop := {
  gc_range t : in_range t;
  gc_epochs i j id id' e : creates i id e -> creates j id' e -> i = j;
}.

(** ** The states *)

Record fsys := MkFsys {
  fs_world : world;
  fs_started : gset nat;
  fs_running : gmap nat (prog (option error));
  fs_answers : gmap nat (option error);
}.

Definition fsys_start : fsys := MkFsys world_empty ∅ ∅ ∅.

(** What a power cut leaves of an epoch directory: the links that were synced and perhaps
    some of the later ones, in order, and a file whose content was not synced may be torn. *)
Definition cut_file (f f' : N * file) : Prop :=
  f'.1 = f.1 /\ (f'.2 = f.2 \/ fl_synced f.2 = false).

Definition cut_epoch (ed ed' : epochDir) : Prop :=
  exists k, (ed_synced ed <= k)%nat /\ Forall2 cut_file (take k (ed_links ed)) (ed_links ed') /\
    ed_synced ed' = length (ed_links ed').

Record cut_dir (rd rd' : recordDir) : Prop := {
  cd_epochs ep ed' : rd_epochs rd' !! ep = Some ed' -> exists ed, rd_epochs rd !! ep = Some ed /\ cut_epoch ed ed';
  cd_durable ep : ep ∈ rd_durable rd -> is_Some (rd_epochs rd !! ep) -> is_Some (rd_epochs rd' !! ep);
  cd_kept : rd_durable rd' = rd_durable rd;
}.

Record power_cut (w w' : world) : Prop := {
  pc_top : w_top w' = w_top w \/ w_top w' ∈ w_past w;
  pc_past : w_past w' = [];
  pc_none i : w_dirs w !! i = None -> w_dirs w' !! i = None;
  pc_some i rd : w_dirs w !! i = Some rd -> exists rd', w_dirs w' !! i = Some rd' /\ cut_dir rd rd';
  pc_published : w_published w' = w_published w;
  pc_deleted : w_deleted w' = w_deleted w;
  pc_memory : w_heads w' = ∅;
}.

(** The errors a call may fail with: any but those that say a file is there, or is not, and, where
    the file system syncs directories, any but the [os.ErrInvalid] of one that does not.  Without
    [dirs_sync] it may not. *)
Definition may_fail (dirs_sync : bool) {B} (c : FileSystem.call B) (e : osError) : bool :=
  match e with
  | OsOther _ => can_fail c
  | OsInvalid => can_fail c && negb (dirs_sync && match c with SyncFd _ => true | _ => false end)
  | OsNotExist | OsExist => false
  end.

Inductive fstep (dirs_sync : bool) : fsys -> fsys -> Prop :=
| fstep_start t w started running answers :
    t ∉ started ->
    fstep dirs_sync (MkFsys w started running answers)
      (MkFsys w ({[t]} ∪ started) (<[t := file_serve epoch_name (handle t) t (calls t)]> running) answers)
| fstep_call t {B} (c : FileSystem.call B) k w w' r started running answers :
    running !! t = Some (Do c k) -> exec c w = (w', r) ->
    fstep dirs_sync (MkFsys w started running answers) (MkFsys w' started (<[t := k r]> running) answers)
| fstep_fail t {B} (c : FileSystem.call B) k e w started running answers :
    running !! t = Some (Do c k) -> may_fail dirs_sync c e = true ->
    fstep dirs_sync (MkFsys w started running answers) (MkFsys w started (<[t := k (Err e)]> running) answers)
| fstep_answer t a w started running answers :
    running !! t = Some (Ret a) ->
    fstep dirs_sync (MkFsys w started running answers) (MkFsys w started (delete t running) (<[t := a]> answers))
| fstep_die t w started running answers :
    fstep dirs_sync (MkFsys w started running answers) (MkFsys w started (delete t running) answers)
| fstep_power w w' started running answers :
    power_cut w w' ->
    fstep dirs_sync (MkFsys w started running answers) (MkFsys w' started ∅ answers).

Definition freach (dirs_sync : bool) : fsys -> Prop := rtc (fstep dirs_sync) fsys_start.

(** ** What holds of the disk at every moment *)

(** The directory [i] holds the batches [bs], the first [n] of them synced. *)
Definition rec (w : world) (i : nat) (e : string) (bs : list fileBatch) (s : stored) (n : nat) : Prop :=
  exists rd, w_dirs w !! i = Some rd /\ rd_epochs rd = {[epoch_name e := MkEpochDir (link_of <$> bs) n]} /\
    epoch_name e ∈ rd_durable rd /\ written e bs s /\ (0 < n <= length bs)%nat.

(** The states that the store's directory may be in after a power cut. *)
Definition tops (w : world) : list (gmap string nat) := w_top w :: w_past w.

Definition visible (w : world) (i : nat) : Prop := exists top n, top ∈ tops w /\ top !! n = Some i.

Record disk_ok (w : world) : Prop := {
  do_home top n i : top ∈ tops w -> top !! n = Some i -> i ∈ w_published w /\ exists id e, creates i id e /\ n = file_name id;
  do_rec i : i ∈ w_published w ->
    w_dirs w !! i = None /\ ~ visible w i \/ exists id e bs s n, creates i id e /\ rec w i e bs s n;
  do_heads me id h : w_heads w !! (me, id) = Some h ->
    exists i e, i ∈ w_published w /\ creates i id e /\ fh_dir h = epochDir_ epoch_name id e /\
      forall bs s n, rec w i e bs s n -> cached_in bs h;
}.

(** How the disk changes between power cuts. *)
Record evolves (w w' : world) : Prop := {
  ev_published : w_published w ⊆ w_published w';
  ev_deleted : w_deleted w ⊆ w_deleted w';
  ev_rec i e bs' s' n' : i ∈ w_published w -> rec w' i e bs' s' n' ->
    exists bs s n bs2, rec w i e bs s n /\ bs' = bs ++ bs2 /\ (n <= n')%nat;
  ev_gone i : i ∈ w_published w -> ~ visible w i -> ~ visible w' i;
  ev_left i : i ∈ w_published w -> (forall n, w_top w !! n <> Some i) -> forall n, w_top w' !! n <> Some i;
  ev_top n i : w_top w !! n = Some i -> i ∈ w_deleted w' \/ w_top w' !! n = Some i;
  ev_settled n i : (forall top, top ∈ tops w -> top !! n = Some i) ->
    i ∈ w_deleted w' \/ forall top, top ∈ tops w' -> top !! n = Some i;
}.

(** What is call [t]'s alone: its temporary file, and its directory until it is published. *)
Definition own (t : nat) (w w' : world) : Prop :=
  w_temps w' !! t = w_temps w !! t /\
  (t ∉ w_published w -> w_dirs w' !! t = w_dirs w !! t /\ t ∉ w_published w').

Definition relies (t : nat) (w w' : world) : Prop := evolves w w' /\ own t w w'.
Definition guarantees (t : nat) (w w' : world) : Prop := evolves w w' /\ forall t', t' <> t -> own t' w w'.

(** ** Triples *)

Fixpoint safe {A} (t : nat) (Q : A -> world -> Prop) (p : prog A) (w : world) : Prop :=
  forall w', disk_ok w' -> relies t w w' ->
  match p with
  | Ret a => Q a w'
  | Do c k =>
    (let (w2, r) := exec c w' in disk_ok w2 /\ guarantees t w' w2 /\ safe t Q (k r) w2) /\
    (forall e, may_fail true c e = true -> safe t Q (k (Err e)) w')
  end.

Definition triple {A} (t : nat) (P : world -> Prop) (p : prog A) (Q : A -> world -> Prop) : Prop :=
  forall w, disk_ok w -> P w -> safe t Q p w.

Definition stable (t : nat) (P : world -> Prop) : Prop :=
  forall w w', disk_ok w -> disk_ok w' -> relies t w w' -> P w -> P w'.

Lemma evolves_refl w : evolves w w.
Proof.
  split; try done; try (intros; by right). intros i e bs s n _ Hr. exists bs, s, n, []. by rewrite app_nil_r.
Qed.

Lemma evolves_trans w1 w2 w3 : evolves w1 w2 -> evolves w2 w3 -> evolves w1 w3.
Proof.
  intros H1 H2. split.
  - etrans; [apply H1|apply H2].
  - etrans; [apply H1|apply H2].
  - intros i e bs s n Hi Hr. destruct (ev_rec _ _ H2 i e bs s n) as (bs2 & s2 & n2 & k2 & Hr2 & -> & Hn2); [by apply (ev_published _ _ H1)|done|].
    destruct (ev_rec _ _ H1 i e _ _ _ Hi Hr2) as (bs1 & s1 & n1 & k1 & Hr1 & -> & Hn1).
    exists bs1, s1, n1, (k1 ++ k2). rewrite app_assoc. split_and!; [done|done|lia].
  - intros i Hi Hv. apply (ev_gone _ _ H2); [by apply (ev_published _ _ H1)|]. by apply (ev_gone _ _ H1).
  - intros i Hi Hv. apply (ev_left _ _ H2); [by apply (ev_published _ _ H1)|]. by apply (ev_left _ _ H1).
  - intros n i Ht. destruct (ev_top _ _ H1 n i Ht) as [?|Ht']; [left; by apply (ev_deleted _ _ H2)|by apply (ev_top _ _ H2)].
  - intros n i Ht. destruct (ev_settled _ _ H1 n i Ht) as [?|Ht']; [left; by apply (ev_deleted _ _ H2)|by apply (ev_settled _ _ H2)].
Qed.

Lemma own_trans t w1 w2 w3 : own t w1 w2 -> own t w2 w3 -> own t w1 w3.
Proof.
  intros [E1 H1] [E2 H2]. split; [congruence|]. intros Ht. destruct (H1 Ht) as [Ed Ht2]. destruct (H2 Ht2) as [Ed2 Ht3].
  split; [congruence|done].
Qed.

Lemma relies_refl t w : relies t w w.
Proof. split; [apply evolves_refl|by split]. Qed.

Lemma relies_trans t w1 w2 w3 : relies t w1 w2 -> relies t w2 w3 -> relies t w1 w3.
Proof. intros [? ?] [? ?]. split; [by eapply evolves_trans|by eapply own_trans]. Qed.

Lemma guarantees_refl t w : guarantees t w w.
Proof. split; [apply evolves_refl|by split]. Qed.

Lemma safe_mono {A} t (Q : A -> world -> Prop) p w w' : relies t w w' -> safe t Q p w -> safe t Q p w'.
Proof. intros Hr Hs. destruct p; intros w2 Hok Hr2; apply Hs; [done|by eapply relies_trans|done|by eapply relies_trans]. Qed.

Lemma safe_now {A} t (Q : A -> world -> Prop) p w :
  (forall w', disk_ok w' -> relies t w w' -> safe t Q p w') -> safe t Q p w.
Proof. intros Hs. destruct p; intros w' Hok Hr; apply (Hs w' Hok Hr w' Hok (relies_refl t w')). Qed.

Lemma triple_bind {A B} t P (p : prog A) M (k : A -> prog B) Q :
  triple t P p M -> (forall a, triple t (M a) (k a) Q) -> triple t P (pbind p k) Q.
Proof.
  intros Hp Hk w Hok HP. specialize (Hp w Hok HP). clear HP Hok. revert w Hp. induction p as [a|C c f IH]; intros w Hp; cbn [pbind].
  - apply safe_now. intros w' Hok Hr. apply Hk; [done|]. by apply Hp.
  - intros w' Hok Hr. destruct (Hp w' Hok Hr) as [Hs Hf]. split.
    + destruct (exec c w') as [w2 r]. destruct Hs as (? & ? & ?). split_and!; [done|done|by apply IH].
    + intros e Hcan. by apply IH, Hf.
Qed.

Lemma triple_ret {A} t P (a : A) Q : stable t P -> (forall w, disk_ok w -> P w -> Q a w) -> triple t P (Ret a) Q.
Proof. intros Hst HQ w Hok HP w' Hok' Hr. apply HQ; [done|]. exact (Hst w w' Hok Hok' Hr HP). Qed.

Lemma triple_do {A B} t P (R : result osError B -> world -> Prop) (c : FileSystem.call B) (k : result osError B -> prog A) Q :
  stable t P ->
  (forall w, disk_ok w -> P w -> let (w2, r) := exec c w in disk_ok w2 /\ guarantees t w w2 /\ R r w2) ->
  (forall e w, may_fail true c e = true -> disk_ok w -> P w -> R (Err e) w) ->
  (forall r, triple t (R r) (k r) Q) -> triple t P (Do c k) Q.
Proof.
  intros Hst Hexec Hfail Hk w Hok HP w' Hok' Hr. assert (HP' : P w') by exact (Hst w w' Hok Hok' Hr HP). split.
  - specialize (Hexec w' Hok' HP'). destruct (exec c w') as [w2 r]. destruct Hexec as (Hok2 & Hg & HR).
    split_and!; [done|done|]. by apply Hk.
  - intros e Hcan. apply Hk; [done|]. by apply Hfail.
Qed.

(** A call that only reads, whatever it answers. *)
Lemma triple_read {A B} t P (c : FileSystem.call B) (k : result osError B -> prog A) Q :
  stable t P -> (forall w, (exec c w).1 = w) -> (forall r, triple t P (k r) Q) -> triple t P (Do c k) Q.
Proof.
  intros Hst Hread Hk. apply (triple_do t P (fun _ => P)); [done| |done|done].
  intros w Hok HP. specialize (Hread w). destruct (exec c w) as [w2 r]. cbn in Hread. subst w2.
  split_and!; [done|apply guarantees_refl|done].
Qed.

Lemma triple_conseq {A} t P P' (p : prog A) Q : (forall w, disk_ok w -> P w -> P' w) -> triple t P' p Q -> triple t P p Q.
Proof. intros HP Hp w Hok H. apply Hp; auto. Qed.

Lemma triple_post {A} t P (p : prog A) (Q Q' : A -> world -> Prop) :
  (forall a w, Q a w -> Q' a w) -> triple t P p Q -> triple t P p Q'.
Proof.
  intros HQ Hp w Hok HP. specialize (Hp w Hok HP). clear Hok HP. revert w Hp. induction p as [a|C c f IH]; intros w Hp w' Hok Hr.
  - by apply HQ, Hp.
  - destruct (Hp w' Hok Hr) as [Hs Hf]. split; [|intros e Hc; by apply IH, Hf].
    destruct (exec c w') as [w2 r]. destruct Hs as (? & ? & ?). split_and!; [done|done|by apply IH].
Qed.

(** ** What the calls change *)

Lemma creates_fun i id e id' e' : creates i id e -> creates i id' e' -> id = id' /\ e = e'.
Proof. intros (? & ? & H1 & <-) (? & ? & H2 & <-). rewrite H1 in H2. by injection H2 as -> _ ->. Qed.

Lemma rec_same w w' i e bs s n : w_dirs w' !! i = w_dirs w !! i -> rec w i e bs s n -> rec w' i e bs s n.
Proof. intros E (rd & Hrd & H). exists rd. by rewrite E. Qed.

Lemma rec_fun w i e bs s n e' bs' s' n' : rec w i e bs s n -> rec w i e' bs' s' n' -> e = e' /\ bs = bs' /\ n = n'.
Proof.
  intros Hr Hr'. pose proof Hr as (rd & Hrd & He & Hd & Hw & Hn). pose proof Hr' as (rd' & Hrd' & He' & Hd' & Hw' & Hn').
  assert (e = e' /\ bs = bs') as [-> ->].
  { eapply (record_at_fun epoch_name w i); [exists rd; split; [done|]; exists n|exists rd'; split; [done|]; exists n']; done. }
  rewrite Hrd in Hrd'. injection Hrd' as <-. rewrite He in He'. apply (f_equal (fun m => m !! epoch_name e')) in He'.
  rewrite !lookup_singleton_eq in He'. by injection He' as ->.
Qed.

(** The state of the store's directory is the same in both worlds. *)
Record same_tops (w w' : world) : Prop := {
  st_top : w_top w' = w_top w;
  st_past : w_past w' = w_past w;
  st_pub : w_published w' = w_published w;
  st_del : w_deleted w' = w_deleted w;
}.

Lemma same_tops_eq w w' : same_tops w w' -> tops w' = tops w.
Proof. intros []. unfold tops. congruence. Qed.

Lemma same_visible w w' i : same_tops w w' -> visible w' i <-> visible w i.
Proof. intros Hs. unfold visible. by rewrite (same_tops_eq _ _ Hs). Qed.

Lemma evolves_same w w' :
  same_tops w w' ->
  (forall i e bs' s' n', i ∈ w_published w -> rec w' i e bs' s' n' ->
    exists bs s n bs2, rec w i e bs s n /\ bs' = bs ++ bs2 /\ (n <= n')%nat) ->
  evolves w w'.
Proof.
  intros Hs Hrec. split; rewrite ?(same_tops_eq _ _ Hs), ?(st_pub _ _ Hs), ?(st_del _ _ Hs), ?(st_top _ _ Hs); try done.
  - intros i _ Hv. by rewrite same_visible.
  - intros n i. by right.
  - intros n i. by right.
Qed.

Definition head_good (w : world) (id : string) (h : fileHead) : Prop :=
  exists i e, i ∈ w_published w /\ creates i id e /\ fh_dir h = epochDir_ epoch_name id e /\
    forall bs s n, rec w i e bs s n -> cached_in bs h.

Lemma head_good_evolves w w' id h : evolves w w' -> head_good w id h -> head_good w' id h.
Proof.
  intros Hev (i & e & Hi & Hc & Hd & Hall). exists i, e. split_and!; [by apply (ev_published _ _ Hev)|done|done|].
  intros bs s n Hr. destruct (ev_rec _ _ Hev _ _ _ _ _ Hi Hr) as (bs1 & s1 & n1 & bs2 & Hr1 & -> & _).
  destruct (Hall _ _ _ Hr1) as (b & Hb & ?). exists b. split; [|done]. apply elem_of_app. by left.
Qed.

Lemma disk_ok_same w w' :
  same_tops w w' ->
  (forall i, i ∈ w_published w -> w_dirs w !! i = None -> w_dirs w' !! i = None) ->
  (forall i e bs s n, i ∈ w_published w -> rec w i e bs s n -> exists bs' s' n', rec w' i e bs' s' n') ->
  evolves w w' ->
  (forall me id h, w_heads w' !! (me, id) = Some h -> w_heads w !! (me, id) = Some h \/ head_good w' id h) ->
  disk_ok w -> disk_ok w'.
Proof.
  intros Hs Hnone Hrec Hev Hheads [Hh Hr Hc]. split.
  - rewrite (same_tops_eq _ _ Hs), (st_pub _ _ Hs). exact Hh.
  - intros i. rewrite (st_pub _ _ Hs), (same_visible _ _ _ Hs). intros Hi. destruct (Hr i Hi) as [[Hd Hv]|(id & e & bs & s & n & Hcr & Hre)].
    + left. auto.
    + right. destruct (Hrec _ _ _ _ _ Hi Hre) as (bs' & s' & n' & ?). by exists id, e, bs', s', n'.
  - intros me id h Hh'. destruct (Hheads _ _ _ Hh') as [Hold|?]; [|done].
    apply (head_good_evolves w); [done|]. by apply (Hc me).
Qed.

(** A change that leaves the published directories alone. *)
Lemma change_frame t w w' :
  same_tops w w' -> (forall i, i ∈ w_published w -> w_dirs w' !! i = w_dirs w !! i) ->
  (forall i, i <> t -> w_temps w' !! i = w_temps w !! i /\ w_dirs w' !! i = w_dirs w !! i) ->
  (forall me id h, w_heads w' !! (me, id) = Some h -> w_heads w !! (me, id) = Some h \/ head_good w' id h) ->
  disk_ok w -> disk_ok w' /\ guarantees t w w'.
Proof.
  intros Hs Hd Ho Hh Hok.
  assert (Hev : evolves w w').
  { apply evolves_same; [done|]. intros i e bs s n Hi Hr. exists bs, s, n, []. rewrite app_nil_r.
    split_and!; [|done|done]. eapply rec_same; [|done]. by rewrite Hd. }
  split.
  - apply (disk_ok_same w); [done| | |done|done|done].
    + intros i Hi. by rewrite Hd.
    + intros i e bs s n Hi Hr. exists bs, s, n. eapply rec_same; [|done]. by rewrite Hd.
  - split; [done|]. intros t' Hne. destruct (Ho t' Hne) as [? ?]. split; [done|]. by rewrite (st_pub _ _ Hs).
Qed.

Lemma change_temps t w temps :
  (forall i, i <> t -> temps !! i = w_temps w !! i) -> disk_ok w ->
  disk_ok (w <| w_temps := temps |>) /\ guarantees t w (w <| w_temps := temps |>).
Proof. intros Ht Hok. apply change_frame; [done|done|intros i Hi; split; [by apply Ht|done]|by left|done]. Qed.

(** *** A call's own directory and temporary file *)

Definition mine (t : nat) (rd : option recordDir) (w : world) : Prop := t ∉ w_published w /\ w_dirs w !! t = rd.

Lemma stable_mine t rd : stable t (mine t rd).
Proof. intros w w' _ _ [_ [_ Ho]] [Hp Hd]. destruct (Ho Hp) as [E Hp']. split; [done|congruence]. Qed.

Lemma stable_temp t f : stable t (fun w => w_temps w !! t = f).
Proof. intros w w' _ _ [_ [E _]] H. congruence. Qed.

Lemma stable_and t P Q : stable t P -> stable t Q -> stable t (fun w => P w /\ Q w).
Proof. intros HP HQ w w' Hok Hok' Hr [? ?]. split; [by eapply (HP w)|by eapply (HQ w)]. Qed.

Lemma stable_ex {A} t (P : A -> world -> Prop) : (forall a, stable t (P a)) -> stable t (fun w => exists a, P a w).
Proof. intros HP w w' Hok Hok' Hr [a Ha]. exists a. by eapply (HP a w). Qed.

Lemma stable_pure t (P : Prop) : stable t (fun _ => P).
Proof. by intros w w'. Qed.

Lemma change_mine t w rd :
  t ∉ w_published w -> disk_ok w ->
  let w' := w <| w_dirs := partial_alter (fun _ => rd) t (w_dirs w) |> in
  disk_ok w' /\ guarantees t w w' /\ mine t rd w'.
Proof.
  intros Hp Hok w'. enough (disk_ok w' /\ guarantees t w w') as [? ?] by (split; [done|split; [done|split; [done|apply lookup_partial_alter_eq]]]).
  apply change_frame; [done| | |by left|done].
  - intros i Hi. apply lookup_partial_alter_ne. by intros ->.
  - intros i Hi. split; [done|]. by apply lookup_partial_alter_ne.
Qed.

(** ** Triples of the parts *)

Lemma triple_syncDir t d (P : world -> Prop) (F : dirFd -> Prop) (M : option error -> world -> Prop) :
  stable t P -> (forall a, stable t (M a)) ->
  (forall w fd, disk_ok w -> P w -> exec_open d w = Ok fd -> F fd) ->
  (forall w fd, F fd -> disk_ok w -> P w ->
     disk_ok (exec_sync fd w) /\ guarantees t w (exec_sync fd w) /\ M None (exec_sync fd w)) ->
  (forall err w, disk_ok w -> P w -> M (Some err) w) ->
  triple t P (syncDir d) M.
Proof.
  intros HP HM Hopen Hsync Herr. unfold syncDir.
  apply (triple_do t P (fun r w => P w /\ match r with Ok fd => F fd | Err _ => True end)); [done| |done|].
  - intros w Hok Hw. cbn. split_and!; [done|apply guarantees_refl|done|]. destruct (exec_open d w) eqn:E; [|done]. by apply (Hopen w).
  - intros [fd|e]; [|apply triple_ret; [apply stable_and; [done|apply stable_pure]|]; intros w Hok [? _]; by apply Herr].
    apply (triple_do t _ (fun r w => match r with Ok _ => M None w | Err (OsOther _) => P w | Err _ => False end)).
    + apply stable_and; [done|apply stable_pure].
    + intros w Hok [Hw HF]. by apply Hsync.
    + intros [] w Hf Hok [Hw _]; by try discriminate Hf.
    + intros [[]|[]]; try (apply triple_ret; [apply stable_pure|by intros w _ []]).
      * apply triple_ret; [apply HM|done].
      * apply triple_ret; [done|]. intros w Hok Hw. by apply Herr.
Qed.

(** A predicate that says nothing of the temporary files. *)
Definition no_temps (P : world -> Prop) : Prop := forall w temps, P w -> P (w <| w_temps := temps |>).

Lemma triple_temps {A} t (P R : world -> Prop) (c : FileSystem.call unit) (k : result osError unit -> prog A) Q :
  stable t P -> (forall w, exists temps, exec c w = done (w <| w_temps := temps |>) tt /\
    (forall i, i <> t -> temps !! i = w_temps w !! i) /\ (P w -> R (w <| w_temps := temps |>))) ->
  triple t R (k (Ok tt)) Q ->
  (forall e, triple t P (k (Err e)) Q) -> triple t P (Do c k) Q.
Proof.
  intros HP Hexec Hok Herr.
  apply (triple_do t P (fun r w => match r with Ok _ => R w | Err OsInvalid | Err (OsOther _) => P w | Err _ => False end)); [done| |by intros []|].
  - intros w Hw HPw. destruct (Hexec w) as (temps & -> & Ho & HR). cbn.
    destruct (change_temps t w temps Ho Hw) as [? ?]. split_and!; [done|done|]. by apply HR.
  - intros [[]|[]]; try done; intros w _ [].
Qed.

Definition with_file (t : nat) (f : option file) (P : world -> Prop) (w : world) : Prop := P w /\ w_temps w !! t = f.

Lemma stable_with_file t f P : stable t P -> stable t (with_file t f P).
Proof. intros HP. apply stable_and; [done|apply stable_temp]. Qed.

(** [writeBatch], whatever holds of its directory meanwhile; the link and the sync are left to
    show. *)
Lemma triple_writeBatch t dir b (P : world -> Prop) (M : option error -> world -> Prop) :
  stable t P -> no_temps P -> (forall a, stable t (M a)) -> (forall a, no_temps (M a)) ->
  (forall err w, disk_ok w -> P w -> M (Some err) w) ->
  triple t (with_file t (Some (MkFile (Some b) true)) P)
    (call! r := LinkTemp t dir (first_of (fb_Entries b)) in
     match r with
     | Err OsExist => Ret (Some ErrConflict)
     | Err OsNotExist => Ret (Some ErrNotFound)
     | Err e => Ret (Some (os_error e))
     | Ok _ => syncDir (OpenEpoch dir)
     end) M ->
  triple t P (writeBatch t dir b) M.
Proof.
  intros HP HPt HM HMt Herr Hlink. unfold writeBatch.
  assert (Hgive : forall f err, triple t (with_file t f P) (Ret (Some err)) M).
  { intros f err. apply triple_ret; [by apply stable_with_file|]. intros w Hok [? _]. by apply Herr. }
  apply (triple_do t P (fun r w => match r with Ok _ => with_file t (Some (MkFile None false)) P w | Err _ => P w end)); [done| |done|].
  - intros w Hok Hw. cbn. destruct (epoch_at w dir); cbn; [|split_and!; [done|apply guarantees_refl|done]].
    destruct (change_temps t w (<[t := MkFile None false]> (w_temps w))) as [? ?]; [intros i Hi; by apply lookup_insert_ne|done|].
    split; [done|]. split; [done|]. split; [by apply HPt|apply lookup_insert_eq].
  - intros [[]|e].
    2:{ destruct e; (apply triple_ret; [done|]; intros w Hok Hw; by apply Herr). }
    apply (triple_bind t _ _ M).
    2:{ intros a. apply (triple_do t _ (fun _ => M a)); [done| |done|].
        - intros w Hok Hw. cbn. destruct (change_temps t w (delete t (w_temps w))) as [? ?]; [intros i Hi; by apply lookup_delete_ne|done|].
          split_and!; [done|done|by apply HMt].
        - intros r. by apply triple_ret. }
    unfold write_temp.
    assert (Hclose : forall f err, triple t (with_file t f P) (call! _ := CloseTemp t in Ret (Some err)) M).
    { intros f err. apply triple_read; [by apply stable_with_file|done|]. intros r. apply Hgive. }
    apply (triple_temps t _ (with_file t (Some (MkFile (Some b) false)) P) _ _ _); [by apply stable_with_file| | |intros; apply Hclose].
    { intros w. eexists. split; [reflexivity|]. split; [intros i Hi; by apply lookup_alter_ne|].
      intros [Hw Ht]. split; [by apply HPt|]. cbn. by rewrite lookup_alter_eq, Ht. }
    apply (triple_temps t _ (with_file t (Some (MkFile (Some b) true)) P) _ _ _); [by apply stable_with_file| | |intros; apply Hclose].
    { intros w. eexists. split; [reflexivity|]. split; [intros i Hi; by apply lookup_alter_ne|].
      intros [Hw Ht]. split; [by apply HPt|]. cbn. by rewrite lookup_alter_eq, Ht. }
    apply triple_read; [by apply stable_with_file|done|]. intros [[]|e]; [done|apply Hgive].
Qed.

(** ** Creating a Record *)

Definition made (w : world) (i : nat) (e : string) (b : fileBatch) : Prop :=
  forall bs s n, rec w i e bs s n -> exists k, (k < n)%nat /\ bs !! k = Some b.

(** In every state of the store's directory [name] leads to [i]. *)
Definition settled (w : world) (name : string) (i : nat) : Prop :=
  i ∈ w_deleted w \/ forall top, top ∈ tops w -> top !! name = Some i.

Lemma made_evolves w w' i e b : i ∈ w_published w -> evolves w w' -> made w i e b -> made w' i e b.
Proof.
  intros Hi Hev Hm bs s n Hr. destruct (ev_rec _ _ Hev _ _ _ _ _ Hi Hr) as (bs1 & s1 & n1 & bs2 & Hr1 & -> & Hle).
  destruct (Hm _ _ _ Hr1) as (k & Hk & Hb). exists k. split; [lia|]. by apply lookup_app_l_Some.
Qed.

Lemma settled_evolves w w' name i : evolves w w' -> settled w name i -> settled w' name i.
Proof.
  intros Hev [Hd|Ht]; [left; by apply (ev_deleted _ _ Hev)|]. exact (ev_settled _ _ Hev name i Ht).
Qed.

Lemma rec_occupied w name i id e bs s n : w_top w !! name = Some i -> creates i id e -> rec w i e bs s n -> occupied w name = true.
Proof.
  intros Ht _ (rd & Hrd & He & _). unfold occupied. rewrite Ht. cbn. rewrite Hrd, bool_decide_false; [done|].
  rewrite He. apply insert_non_empty.
Qed.

Lemma change_synced_top t w : disk_ok w -> disk_ok (w <| w_past := [] |>) /\ guarantees t w (w <| w_past := [] |>).
Proof.
  intros Hok. set (w' := w <| w_past := [] |>).
  assert (Hvis : forall i, visible w' i -> visible w i).
  { intros i (top & n & Hin & Hn). exists top, n. split; [|done]. cbn in Hin. apply list_elem_of_singleton in Hin as ->. left. }
  assert (Hev : evolves w w').
  { split; try done.
    - intros i e bs s n Hi Hr. exists bs, s, n, []. by rewrite app_nil_r.
    - intros i _ Hv Hv'. by apply Hv, Hvis.
    - intros n i. by right.
    - intros n i Ht. right. intros top Hin. cbn in Hin. apply list_elem_of_singleton in Hin as ->. apply Ht. left. }
  split; [|by split]. destruct Hok as [Hh Hr Hc]. split.
  - intros top n i Hin. apply Hh. cbn in Hin. apply list_elem_of_singleton in Hin as ->. left.
  - intros i Hi. destruct (Hr i Hi) as [[Hd Hv]|?]; [left|by right]. split; [done|]. intros Hv'. by apply Hv, Hvis.
  - exact Hc.
Qed.

Lemma change_heads t w heads :
  (forall me id h, heads !! (me, id) = Some h -> w_heads w !! (me, id) = Some h \/ head_good w id h) -> disk_ok w ->
  disk_ok (w <| w_heads := heads |>) /\ guarantees t w (w <| w_heads := heads |>).
Proof. intros Hh Hok. by apply change_frame. Qed.

Lemma triple_SetHead {A} t me id h (P : world -> Prop) (a : A) Q :
  stable t P -> (forall w, disk_ok w -> P w -> head_good w id h) -> (forall w heads, P w -> P (w <| w_heads := heads |>)) ->
  (forall w, disk_ok w -> P w -> Q a w) -> triple t P (call! _ := SetHead me id h in Ret a) Q.
Proof.
  intros HP Hh HPh HQ. apply (triple_do t _ (fun _ => P)); [done| |done|].
  - intros w Hok Hw. cbn. destruct (change_heads t w (<[(me, id) := h]> (w_heads w))) as [? ?]; [|done|].
    + intros me' id' h' [[[= <- <-] <-]|[_ ?]]%lookup_insert_Some; [right; by apply Hh|by left].
    + split_and!; [done|done|by apply HPh].
  - intros r. by apply triple_ret.
Qed.

(** The state after a building was renamed to the name of its ID. *)
Definition renamed (t : nat) (name : string) (w : world) : world :=
  (rename_top (<[name := t]> (w_top w)) w) <| w_published := {[t]} ∪ w_published w |>.

Lemma tops_renamed t name w top : top ∈ tops (renamed t name w) -> top = <[name := t]> (w_top w) \/ top ∈ tops w.
Proof. unfold tops. cbn. set_solver. Qed.

Lemma change_renamed t w id e bs s n :
  creates t id e -> t ∉ w_published w -> rec w t e bs s n -> occupied w (file_name id) = false -> disk_ok w ->
  disk_ok (renamed t (file_name id) w) /\ guarantees t w (renamed t (file_name id) w).
Proof.
  intros Hc Hp Hrec Hocc Hok. set (name := file_name id) in *. set (w' := renamed t name w).
  assert (Hfree : forall i, w_top w !! name <> Some i).
  { intros i Hi. destruct (do_home _ Hok (w_top w) name i) as [Hpi (id' & e' & Hci & _)]; [left|done|].
    destruct (do_rec _ Hok i Hpi) as [[_ Hv]|(id2 & e2 & bs2 & s2 & n2 & Hc2 & Hr2)].
    - apply Hv. exists (w_top w), name. split; [left|done].
    - by rewrite (rec_occupied _ _ _ _ _ _ _ _ Hi Hc2 Hr2) in Hocc. }
  assert (Hvis : forall i, visible w' i -> i = t \/ visible w i).
  { intros i (top & n' & Hin & Hn). apply tops_renamed in Hin as [->|Hin]; [|right; by exists top, n'].
    apply lookup_insert_Some in Hn as [[_ <-]|[_ Hn]]; [by left|right]. exists (w_top w), n'. split; [left|done]. }
  assert (Hev : evolves w w').
  { split; try done.
    - cbn. set_solver.
    - intros i e' bs' s' n' Hi Hr. exists bs', s', n', []. by rewrite app_nil_r.
    - intros i Hi Hv Hv'. apply Hvis in Hv' as [->|?]; done.
    - intros i Hi Hl n'. cbn. intros [[_ <-]|[_ Hn]]%lookup_insert_Some; [done|by apply (Hl n')].
    - intros n' i Hn. right. cbn. rewrite lookup_insert_ne; [done|]. intros <-. by apply (Hfree i).
    - intros n' i Hn. right. intros top [->|Hin]%tops_renamed; [|by apply Hn].
      rewrite lookup_insert_ne; [apply Hn; left|]. intros <-. apply (Hfree i), Hn. left. }
  split; [|split; [done|]].
  - destruct Hok as [Hh Hr Hheads]. split.
    + intros top n' i [->|Hin]%tops_renamed Hn.
      * apply lookup_insert_Some in Hn as [[<- <-]|[_ Hn]]; [split; [cbn; set_solver|by exists id, e]|].
        destruct (Hh (w_top w) n' i) as [? ?]; [left|done|]. split; [cbn; set_solver|done].
      * destruct (Hh top n' i) as [? ?]; [done|done|]. split; [cbn; set_solver|done].
    + intros i. cbn. rewrite elem_of_union, elem_of_singleton. intros [->|Hi]; [right; by exists id, e, bs, s, n|].
      destruct (Hr i Hi) as [[Hd Hv]|(id' & e' & bs' & s' & n' & Hc' & Hr')]; [left|right; by exists id', e', bs', s', n'].
      split; [done|]. intros [->|?]%Hvis; done.
    + intros me id' h Hh'. apply (head_good_evolves w); [done|]. by apply (Hheads me).
  - intros t' Hne. split; [done|]. cbn. intros Ht'. split; [done|]. set_solver.
Qed.

(** What holds once call [t] answers that it created the Record. *)
Definition created (t : nat) (name e : string) (b : fileBatch) (w : world) : Prop :=
  t ∈ w_published w /\ made w t e b /\ settled w name t.

Lemma created_evolves t name e b w w' : evolves w w' -> created t name e b w -> created t name e b w'.
Proof.
  intros Hev (Hp & Hm & Hs). split; [by apply (ev_published _ _ Hev)|]. split; [by eapply made_evolves|by eapply settled_evolves].
Qed.

Lemma stable_created t t' name e b : stable t (created t' name e b).
Proof. intros w w' _ _ [Hev _]. by apply created_evolves. Qed.

Definition building (ep : string) (links : list (N * file)) (n : nat) (dur : gset string) : option recordDir :=
  Some (MkRecordDir {[ep := MkEpochDir links n]} dur).

Lemma building_epoch w t ep links n dur :
  w_dirs w !! t = building ep links n dur -> epoch_in w t ep = Some (MkEpochDir links n).
Proof. intros Hd. unfold epoch_in. rewrite Hd. cbn. apply lookup_singleton_eq. Qed.

Definition unpublished (t : nat) (w : world) : Prop := exists rd, mine t rd w.

Lemma stable_unpublished t : stable t (unpublished t).
Proof. apply stable_ex, stable_mine. Qed.

(** A step on the directory that call [t] builds. *)
Lemma change_building t w rd ep ed ed' :
  mine t (Some rd) w -> rd_epochs rd !! ep = Some ed -> disk_ok w ->
  let w' := set_epoch t ep ed' w in
  disk_ok w' /\ guarantees t w w' /\ mine t (Some (rd <| rd_epochs := <[ep := ed']> (rd_epochs rd) |>)) w'.
Proof. intros [Hp Hd] He Hok. cbn zeta. rewrite (set_epoch_insert _ _ _ _ _ Hd). by apply change_mine. Qed.

Lemma triple_build_batch t ep b :
  triple t (mine t (building ep [] 0 ∅)) (writeBatch t (InBuilding t ep) b)
    (fun a => match a with None => mine t (building ep [link_of b] 1 ∅) | Some _ => unpublished t end).
Proof.
  assert (Hgive : forall rd err, triple t (mine t rd) (Ret (Some err))
    (fun a : option error => match a with None => mine t (building ep [link_of b] 1 ∅) | Some _ => unpublished t end)).
  { intros rd err. apply triple_ret; [apply stable_mine|]. intros w _ Hw. by exists rd. }
  assert (Hst : forall rd, stable t (mine t rd)) by (intros; apply stable_mine).
  apply triple_writeBatch; [apply stable_mine|by intros w temps| | |by intros err w _ Hw; eexists|].
  { intros [err|]; [apply stable_unpublished|apply stable_mine]. }
  { intros [err|] w temps; [|done]. intros [rd Hrd]. by exists rd. }
  apply (triple_do t _ (fun r w => match r with Ok _ => mine t (building ep [link_of b] 0 ∅) w | Err _ => mine t (building ep [] 0 ∅) w end)).
  { by apply stable_with_file. }
  { intros w Hok [Hm Ht]. pose proof Hm as [Hp Hd]. cbn. unfold exec_link. rewrite Ht. unfold dir_at. rewrite bool_decide_false by done.
    cbn [ref_epoch]. rewrite (building_epoch _ _ _ _ _ _ Hd). cbn [linked ed_links done app].
    destruct (change_building t w _ ep (MkEpochDir [] 0) (MkEpochDir [link_of b] 0) Hm) as (? & ? & Hm'); [apply lookup_singleton_eq|done|].
    split; [done|]. split; [done|]. cbn in Hm'. unfold upd in Hm'. cbn in Hm'. by rewrite insert_singleton_eq in Hm'. }
  { intros err w _ _ [Hm _]. exact Hm. }
  intros [[]|[]]; try apply Hgive.
  apply (triple_syncDir t _ _ (fun fd => fd = FdEpoch t ep)); [done| | | |by intros err w _ Hw; eexists].
  { intros [err|]; [apply stable_unpublished|done]. }
  { intros w fd _ [Hp Hd]. cbn. rewrite bool_decide_false by done. rewrite (building_epoch _ _ _ _ _ _ Hd). by intros [= <-]. }
  intros w fd -> Hok Hm. pose proof Hm as [Hp Hd]. cbn [exec_sync]. rewrite (building_epoch _ _ _ _ _ _ Hd).
  destruct (change_building t w _ ep (MkEpochDir [link_of b] 0) (MkEpochDir [link_of b] 1) Hm) as (? & ? & Hm'); [apply lookup_singleton_eq|done|].
  split; [done|]. split; [done|]. cbn in Hm'. unfold upd in Hm'. cbn in Hm'. by rewrite insert_singleton_eq in Hm'.
Qed.

Section create.
Context (Hcalls : good_calls) (t : nat) (id : string) (entries : list Entry) (h : RecordHeader).
Hypothesis Hcall : call_request (calls t) = ReqCreate id entries h.
Hypothesis Hbatch : CheckBatch 0 entries h = None.

Let e := rh_Epoch h.
Let b := MkFileBatch entries h.

Lemma creates_t : creates t id e.
Proof. by exists entries, h. Qed.

Lemma rec_built w : mine t (building (epoch_name e) [link_of b] 1 {[epoch_name e]}) w -> rec w t e [b] (MkStored entries h) 1.
Proof.
  intros [_ Hd]. eexists. split; [exact Hd|]. split_and!; [done|cbn; set_solver| |lia|cbn; lia].
  constructor; [done|done|]. pose proof (gc_range Hcalls t) as Hr. unfold in_range in Hr. by rewrite Hcall in Hr.
Qed.

(** What the part of [publishRecord] leaves: the Record, or a directory to remove. *)
Definition build_post (a : option error) (w : world) : Prop :=
  match a with None => created t (file_name id) e b w | Some _ => unpublished t w \/ t ∈ w_published w end.

Lemma stable_published i : stable t (fun w => i ∈ w_published w).
Proof. intros w w' _ _ [Hev _] Hp. by apply (ev_published _ _ Hev). Qed.

Lemma stable_or P Q : stable t P -> stable t Q -> stable t (fun w => P w \/ Q w).
Proof. intros HP HQ w w' Hok Hok' Hr [?|?]; [left; by eapply (HP w)|right; by eapply (HQ w)]. Qed.

Lemma stable_build_post a : stable t (build_post a).
Proof. destruct a; [apply stable_or; [apply stable_unpublished|apply stable_published]|apply stable_created]. Qed.

(** Published, and not yet known to last. *)
Definition published_now (w : world) : Prop :=
  t ∈ w_published w /\ made w t e b /\ (t ∈ w_deleted w \/ w_top w !! file_name id = Some t).

Lemma stable_published_now : stable t published_now.
Proof.
  intros w w' _ _ [Hev _] (Hp & Hm & Ht). split; [by apply (ev_published _ _ Hev)|]. split; [by eapply made_evolves|].
  destruct Ht as [Hd|Ht]; [left; by apply (ev_deleted _ _ Hev)|]. exact (ev_top _ _ Hev _ _ Ht).
Qed.

Lemma triple_settle : triple t published_now (syncDir OpenTop) build_post.
Proof.
  apply (triple_syncDir t _ _ (fun fd => fd = FdTop)); [apply stable_published_now|apply stable_build_post| | |].
  - intros w fd _ _. cbn. by intros [= <-].
  - intros w fd -> Hok (Hp & Hm & Ht). cbn. destruct (change_synced_top t w Hok) as [? ?]. do 2 (split; [done|]). split; [done|]. split; [done|].
    destruct Ht as [?|Ht]; [by left|right]. intros top Hin. cbn in Hin. by apply list_elem_of_singleton in Hin as ->.
  - intros err w _ (Hp & _). by right.
Qed.

Lemma triple_build : triple t (mine t (Some (MkRecordDir ∅ ∅))) (build_record epoch_name t id entries h) build_post.
Proof.
  unfold build_record. fold e b.
  assert (Hgive : forall rd err, triple t (mine t rd) (Ret (Some err)) build_post).
  { intros rd err. apply triple_ret; [apply stable_mine|]. intros w _ Hw. left. by exists rd. }
  apply (triple_do t _ (fun r w => match r with Ok _ => mine t (building (epoch_name e) [] 0 ∅) w | Err _ => mine t (Some (MkRecordDir ∅ ∅)) w end));
    [apply stable_mine| |done|].
  { intros w Hok Hm. pose proof Hm as [Hp Hd]. cbn. rewrite bool_decide_false by done. cbn. rewrite Hd. cbn. rewrite lookup_empty. cbn.
    rewrite (set_epoch_insert _ _ _ _ _ Hd). by apply change_mine. }
  intros [[]|err]; [|apply Hgive].
  eapply triple_bind; [apply triple_build_batch|]. intros [err|].
  { apply triple_ret; [apply stable_unpublished|]. intros w _ Hw. by left. }
  apply (triple_bind t _ _ (fun a => match a with
    | None => mine t (building (epoch_name e) [link_of b] 1 {[epoch_name e]}) | Some _ => unpublished t end)).
  { apply (triple_syncDir t _ _ (fun fd => fd = FdRecord t)); [apply stable_mine| | | |by intros err w _ Hw; eexists].
    - intros [err|]; [apply stable_unpublished|apply stable_mine].
    - intros w fd _ [Hp Hd]. cbn. rewrite bool_decide_false, Hd by done. by intros [= <-].
    - intros w fd -> Hok [Hp Hd]. cbn.
      destruct (change_mine t w (building (epoch_name e) [link_of b] 1 {[epoch_name e]}) Hp Hok) as (? & ? & ?).
      replace (alter _ t (w_dirs w)) with (partial_alter (fun _ => building (epoch_name e) [link_of b] 1 {[epoch_name e]}) t (w_dirs w)); [done|].
      apply map_eq. intros j. destruct (decide (t = j)) as [<-|Hne]; [|by rewrite lookup_partial_alter_ne, lookup_alter_ne].
      rewrite lookup_partial_alter_eq, lookup_alter_eq, Hd. cbn. unfold building, upd. cbn. by rewrite dom_singleton_L. }
  intros [err|].
  { apply triple_ret; [apply stable_unpublished|]. intros w _ Hw. by left. }
  apply (triple_do t _ (fun r w => match r with Ok _ => published_now w | Err _ => unpublished t w end)); [apply stable_mine| | |].
  - intros w Hok Hm. pose proof Hm as [Hp Hd]. pose proof (rec_built w Hm) as Hrec. cbn.
    rewrite !bool_decide_false by (done || (rewrite Hd; done)). cbn. destruct (occupied w (file_name id)) eqn:Hocc; cbn.
    { split; [done|]. split; [apply guarantees_refl|]. by eexists. }
    destruct (change_renamed t w id e [b] _ 1 creates_t Hp Hrec Hocc Hok) as [Hok' Hg]. split; [done|]. split; [done|].
    split; [cbn; set_solver|]. split; [|right; cbn; apply lookup_insert_eq].
    intros bs s n Hr. assert (Hr' : rec w t e bs s n) by exact Hr. destruct (rec_fun _ _ _ _ _ _ _ _ _ _ Hrec Hr') as (_ & <- & <-).
    exists 0%nat. split; [lia|done].
  - intros err w _ _ Hm. by eexists.
  - intros [[]|[]]; [apply triple_settle|..]; (apply triple_ret; [apply stable_unpublished|]; intros w _ Hw; by left).
Qed.

Definition create_post (a : option error) (w : world) : Prop :=
  match a with None => created t (file_name id) e b w | Some _ => True end.

Lemma stable_create_post a : stable t (create_post a).
Proof. destruct a; [apply stable_pure|apply stable_created]. Qed.

Lemma triple_publish : triple t (mine t None) (publishRecord epoch_name t id entries h) create_post.
Proof.
  unfold publishRecord.
  apply (triple_do t _ (fun r w => match r with Ok _ => mine t (Some (MkRecordDir ∅ ∅)) w | Err _ => True end)); [apply stable_mine| |done|].
  { intros w Hok [Hp Hd]. cbn. rewrite Hd. by apply change_mine. }
  intros [[]|err]; [|apply triple_ret; [apply stable_pure|done]].
  eapply triple_bind; [apply triple_build|]. intros a.
  apply (triple_do t _ (fun _ => create_post a)); [apply stable_build_post| | |].
  - intros w Hok Hw. cbn. destruct (bool_decide_reflect (t ∈ w_published w)) as [Hp|Hp]; cbn.
    + split; [done|]. split; [apply guarantees_refl|]. by destruct a.
    + destruct (change_mine t w None Hp Hok) as (? & ? & ?). split; [done|]. split; [done|].
      destruct a; [done|]. by destruct Hw.
  - intros err w _ _ Hw. by destruct a.
  - intros r. apply triple_ret; [apply stable_create_post|done].
Qed.

Lemma triple_currentDir t' (P : world -> Prop) i : stable t' P -> triple t' P (currentDir i) (fun _ => P).
Proof.
  intros HP. unfold currentDir. apply triple_read; [done| |].
  - intros w. cbn. by destruct (_ ≫= _).
  - intros [names|[]]; by apply triple_ret.
Qed.

Lemma triple_Create ctx me : triple t (mine t None) (Create epoch_name ctx me t id entries h) create_post.
Proof.
  assert (Hgive : forall P err, stable t P -> triple t P (Ret (Some err)) create_post) by (intros; by apply triple_ret).
  assert (Hm := stable_mine t None). unfold Create. destruct ctx; [by apply Hgive|]. destruct (checkFileID id); [by apply Hgive|].
  rewrite Hbatch. eapply triple_bind; [by apply triple_currentDir|]. intros [dir|err]; [by apply Hgive|].
  destruct (negb _); [by apply Hgive|]. eapply triple_bind; [apply triple_publish|]. intros [err'|]; [apply Hgive, stable_pure|].
  apply triple_SetHead; [apply stable_created| |done|done]. intros w _ (Hp & Hmade & _).
  exists t, e. split_and!; [done|apply creates_t|done|]. intros bs s n Hr. destruct (Hmade _ _ _ Hr) as (k & _ & Hb).
  exists b. split_and!; [|done|done]. by eapply list_elem_of_lookup_2.
Qed.
End create.

(** ** Appending *)

Section append.
Context (Hcalls : good_calls) (t : nat) (id : string) (after : N) (entries : list Entry) (h : RecordHeader).
Hypothesis Hcall : call_request (calls t) = ReqAppend id after entries h.
Hypothesis Hbatch : CheckBatch after entries h = None.

Let e := rh_Epoch h.
Let b := MkFileBatch entries h.
Let dir := InRecord (file_name id) (epoch_name e).

(** Something holds of the directory of the Record of epoch [e], whatever it holds by now. *)
Definition of_record (F : list fileBatch -> nat -> Prop) (w : world) : Prop :=
  exists i, i ∈ w_published w /\ creates i id e /\ forall bs s n, rec w i e bs s n -> F bs n.

Definition growing (F : list fileBatch -> nat -> Prop) : Prop :=
  forall bs bs2 n n', F bs n -> (n <= n')%nat -> F (bs ++ bs2) n'.

Lemma of_record_evolves F w w' : growing F -> evolves w w' -> of_record F w -> of_record F w'.
Proof.
  intros HF Hev (i & Hi & Hc & Hall). exists i. split; [by apply (ev_published _ _ Hev)|]. split; [done|].
  intros bs s n Hr. destruct (ev_rec _ _ Hev _ _ _ _ _ Hi Hr) as (bs1 & s1 & n1 & bs2 & Hr1 & -> & Hle). eapply HF; [by eapply Hall|done].
Qed.

Lemma stable_of_record F : growing F -> stable t (of_record F).
Proof. intros HF w w' _ _ [Hev _]. by apply of_record_evolves. Qed.

Definition head_fact (x : fileHead) : world -> Prop := of_record (fun bs _ => cached_in bs x).

Lemma growing_cached x : growing (fun bs _ => cached_in bs x).
Proof. intros bs bs2 n n' (c & Hc & ?) _. exists c. split; [apply elem_of_app; by left|done]. Qed.

(** What the path of the call leads to. *)
Lemma dir_record w i ed :
  disk_ok w -> dir_at w dir = Some i -> epoch_in w i (epoch_name e) = Some ed ->
  i ∈ w_published w /\ creates i id e /\ exists bs s n, rec w i e bs s n /\ ed = MkEpochDir (link_of <$> bs) n.
Proof.
  intros Hok Hd He. cbn in Hd. destruct (do_home _ Hok (w_top w) (file_name id) i) as [Hp (id2 & e2 & Hc2 & Hn)]; [left|exact Hd|].
  apply (inj file_name) in Hn as <-. destruct (do_rec _ Hok i Hp) as [[Hnone _]|(id3 & e3 & bs & s & n & Hc3 & Hr)].
  { unfold epoch_in in He. by rewrite Hnone in He. }
  destruct (creates_fun _ _ _ _ _ Hc2 Hc3) as [<- <-]. pose proof Hr as (rd & Hrd & Hre & _). unfold epoch_in in He. rewrite Hrd in He. cbn in He.
  rewrite Hre in He. apply lookup_singleton_Some in He as [He <-]. apply (inj epoch_name) in He as ->.
  split; [done|]. split; [done|]. by exists bs, s, n.
Qed.

Lemma dir_of w ed :
  disk_ok w -> epoch_at w dir = Some ed -> exists i bs s n, dir_at w dir = Some i /\ i ∈ w_published w /\ creates i id e /\
    rec w i e bs s n /\ ed = MkEpochDir (link_of <$> bs) n.
Proof.
  intros Hok He. unfold epoch_at in He. destruct (dir_at w dir) as [j|] eqn:Ed; [|done]. cbn in He.
  destruct (dir_record w j ed Hok Ed He) as (? & ? & bs & s & n & ? & ?). by exists j, bs, s, n.
Qed.

Lemma of_record_fun F G w :
  of_record F w -> of_record G w -> of_record (fun bs n => F bs n /\ G bs n) w.
Proof.
  intros (i & Hi & Hc & HF) (j & _ & Hc' & HG). rewrite <-(gc_epochs Hcalls i j _ _ _ Hc Hc') in HG.
  exists i. split; [done|]. split; [done|]. intros bs s n Hr. split; [by eapply HF|by eapply HG].
Qed.

(** A fact of the Record, at what the path of the call leads to. *)
Lemma of_record_at F w ed :
  disk_ok w -> of_record F w -> epoch_at w dir = Some ed ->
  exists i bs s n, dir_at w dir = Some i /\ i ∈ w_published w /\ creates i id e /\ rec w i e bs s n /\
    ed = MkEpochDir (link_of <$> bs) n /\ F bs n.
Proof.
  intros Hok (i & _ & Hc & HF) He. destruct (dir_of w ed Hok He) as (j & bs & s & n & Hd & Hj & Hc' & Hr & ->).
  rewrite (gc_epochs Hcalls i j _ _ _ Hc Hc') in HF. exists j, bs, s, n. split_and!; try done. by eapply HF.
Qed.

Definition found_post (r : outcome fileHead) (w : world) : Prop :=
  match r with Ok x => head_fact x w | Err _ => True end.

Lemma stable_found_post r : stable t (found_post r).
Proof. destruct r; [apply stable_of_record, growing_cached|apply stable_pure]. Qed.

(** The batches [bs0] come first. *)
Definition starts_with (bs0 : list fileBatch) : world -> Prop := of_record (fun bs _ => exists more, bs = bs0 ++ more).

Lemma stable_starts bs0 : stable t (starts_with bs0).
Proof. apply stable_of_record. intros bs bs2 n n' [more ->] _. exists (more ++ bs2). by rewrite app_assoc. Qed.

Definition firsts_post (r : outcome (list N)) (w : world) : Prop :=
  match r with
  | Ok firsts => exists bs0 b0, firsts = first_of ∘ fb_Entries <$> bs0 /\ last bs0 = Some b0 /\ numbered_from 0 bs0 /\ starts_with bs0 w
  | Err _ => True
  end.

Lemma stable_pure_and (P : Prop) (Q : world -> Prop) : (P -> stable t Q) -> stable t (fun w => P /\ Q w).
Proof. intros HQ w w' Hok Hok' Hr [HP Hw]. split; [done|]. exact (HQ HP w w' Hok Hok' Hr Hw). Qed.

Lemma stable_firsts_post r : stable t (firsts_post r).
Proof.
  destruct r as [firsts|]; [|apply stable_pure]. apply stable_ex. intros bs0. apply stable_ex. intros b0.
  do 3 (apply stable_pure_and; intros _). apply stable_starts.
Qed.

Lemma triple_batchFirsts (P : world -> Prop) : stable t P -> triple t P (batchFirsts dir) firsts_post.
Proof.
  intros HP. unfold batchFirsts.
  apply (triple_do t _ (fun r w => match r with
    | Ok names => exists bs0 b0, names = (link_of <$> bs0).*1 /\ last bs0 = Some b0 /\ numbered_from 0 bs0 /\ starts_with bs0 w
    | Err _ => True end)); [done| |done|].
  - intros w Hok _. cbn [exec]. destruct (epoch_at w dir) as [ed|] eqn:Ee; cbn [done refuse]; (split; [done|]; split; [apply guarantees_refl|]); [|done].
    destruct (dir_of w ed Hok Ee) as (i & bs & s & n & _ & Hi & Hc & Hr & ->). pose proof Hr as (_ & _ & _ & _ & Hw & _).
    destruct (written_last _ _ _ Hw) as (b0 & Hb0 & _). exists bs, b0. split; [done|]. split; [done|].
    split; [by eapply written_numbered|]. exists i. split; [done|]. split; [done|]. intros bs' s' n' Hr'.
    destruct (rec_fun _ _ _ _ _ _ _ _ _ _ Hr Hr') as (_ & <- & _). exists []. by rewrite app_nil_r.
  - intros [names|[]]; try (apply triple_ret; [apply stable_pure|done]).
    apply triple_ret.
    + apply stable_ex. intros bs0. apply stable_ex. intros b0. do 3 (apply stable_pure_and; intros _). apply stable_starts.
    + intros w _ (bs0 & b0 & -> & Hl & Hn & Hs). exists bs0, b0. split; [by apply (sort_firsts 0)|]. done.
Qed.

Lemma triple_from_dir me :
  triple t (fun _ => True)
    (let! firsts := batchFirsts dir in
     match firsts with
     | Err err => Ret (Err err)
     | Ok firsts =>
       match last firsts with
       | None => Ret (Err ErrNotFound)
       | Some first =>
         let! batch := readBatch dir first in
         match batch with
         | Err err => Ret (Err err)
         | Ok batch =>
           let found := MkFileHead (last_of (fb_Entries batch)) first dir in
           call! _ := SetHead me id found in Ret (Ok found)
         end
       end
     end) found_post.
Proof.
  assert (Hgive : forall P err, stable t P -> triple t P (Ret (Err err)) found_post) by (intros; by apply triple_ret).
  eapply triple_bind; [apply triple_batchFirsts, stable_pure|]. intros [firsts|err]; [|apply Hgive, stable_pure].
  destruct (last firsts) as [first|] eqn:El; [|apply Hgive, (stable_firsts_post (Ok firsts))].
  apply (triple_bind t _ _ (fun r w => match r with
    | Ok batch => first_of (fb_Entries batch) = first /\ of_record (fun bs _ => batch ∈ bs) w | Err _ => True end)).
  - unfold readBatch. apply (triple_do t _ (fun r w => match r with
      | Ok (Some batch) => first_of (fb_Entries batch) = first /\ of_record (fun bs _ => batch ∈ bs) w | _ => True end));
      [apply (stable_firsts_post (Ok firsts))| |done|].
    + intros w Hok (bs0 & b0 & -> & Hl & Hn & Hs). cbn [exec]. rewrite fmap_last, Hl in El. injection El as <-.
      destruct (epoch_at w dir) as [ed|] eqn:Ee; cbn [mbind option_bind refuse]; [|split; [done|]; split; [apply guarantees_refl|done]].
      destruct (of_record_at _ _ _ Hok Hs Ee) as (i & bs & s & n & _ & Hi & Hc & Hr & -> & more & ->).
      assert (Hb0 : b0 ∈ bs0) by (by apply last_Some_elem_of). pose proof Hr as (_ & _ & _ & _ & Hw & _).
      cbn [ed_links]. rewrite (linked_batch 0) by (by eapply written_numbered || (apply elem_of_app; by left)).
      cbn [done fl_batch]. split; [done|]. split; [apply guarantees_refl|]. split; [done|].
      destruct Hs as (i' & Hi' & Hc' & HF). exists i'. split; [done|]. split; [done|]. intros bs' s' n' Hr'.
      destruct (HF _ _ _ Hr') as [more' ->]. apply elem_of_app. by left.
    + assert (Hst : forall batch, stable t (fun w => first_of (fb_Entries batch) = first /\ of_record (fun bs _ => batch ∈ bs) w)).
      { intros batch. apply stable_pure_and. intros _. apply stable_of_record. intros bs bs2 n n' Hin _. apply elem_of_app. by left. }
      intros [[batch|]|[]]; (apply triple_ret; [apply Hst || apply stable_pure|done]).
  - intros [batch|err]; [|apply Hgive, stable_pure].
    assert (Hst : stable t (fun w => first_of (fb_Entries batch) = first /\ of_record (fun bs _ => batch ∈ bs) w)).
    { apply stable_pure_and. intros _. apply stable_of_record. intros bs bs2 n n' Hin _. apply elem_of_app. by left. }
    set (found := MkFileHead _ _ _).
    assert (Hin : forall w, first_of (fb_Entries batch) = first /\ of_record (fun bs _ => batch ∈ bs) w -> head_fact found w).
    { intros w [Hf (i & Hi & Hc & HF)]. exists i. split; [done|]. split; [done|]. intros bs s n Hr. exists batch.
      split; [by eapply HF|]. done. }
    apply triple_SetHead; [done| |done|].
    + intros w _ Hw. destruct (Hin w Hw) as (i & Hi & Hc & HF). exists i, e. split_and!; done.
    + intros w _ Hw. by apply Hin.
Qed.

Lemma triple_head me want : triple t (fun _ => True) (head_ me id dir want) found_post.
Proof.
  unfold head_. pose proof (triple_from_dir me) as Hfrom. cbv zeta. set (from_dir := let! firsts := batchFirsts dir in _) in *. clearbody from_dir.
  assert (Hfrom' : forall P, triple t P from_dir found_post) by (intros P; eapply triple_conseq; [|exact Hfrom]; done).
  apply (triple_do t _ (fun r w => match r with Ok (Some x) => head_good w id x | _ => True end)); [apply stable_pure| |done|].
  - intros w Hok _. cbn. split; [done|]. split; [apply guarantees_refl|]. destruct (w_heads w !! (me, id)) eqn:Eh; [|done].
    by apply (do_heads _ Hok me).
  - intros [[x|]|err]; try apply Hfrom'.
    destruct (bool_decide_reflect (fh_dir x = dir)) as [Ed|]; [|apply Hfrom']. destruct (N.eqb (fh_head x) want); [|apply Hfrom']. cbn [andb].
    assert (Hst : stable t (fun w => head_good w id x)) by (intros w w' _ _ [Hev _]; by apply head_good_evolves).
    apply triple_read; [done| |].
    + intros w. cbn. by destruct (_ ≫= _).
    + intros [[]|err]; [|apply Hfrom']. apply triple_ret; [done|]. intros w _ (i & e' & Hi & Hc & Hd & HF).
      rewrite Ed in Hd. injection Hd as He%(inj epoch_name). rewrite <-He in *. by exists i.
Qed.

(** A step on the published directory [i]: batches are added, or synced. *)
Lemma change_epoch w i id' bs s n more s' n' :
  creates i id' e -> i ∈ w_published w -> rec w i e bs s n -> written e (bs ++ more) s' -> (n <= n' <= length (bs ++ more))%nat -> disk_ok w ->
  let w' := set_epoch i (epoch_name e) (MkEpochDir (link_of <$> bs ++ more) n') w in
  disk_ok w' /\ guarantees t w w' /\ rec w' i e (bs ++ more) s' n'.
Proof.
  intros Hc Hi Hr Hw Hn Hok w'. pose proof Hr as (rd & Hrd & He & Hdur & _ & Hn0).
  assert (Ew : w' = w <| w_dirs := <[i := rd <| rd_epochs := {[epoch_name e := MkEpochDir (link_of <$> bs ++ more) n']} |>]> (w_dirs w) |>).
  { subst w'. rewrite (set_epoch_insert _ _ _ _ _ Hrd). by rewrite He, insert_singleton_eq. }
  assert (Hnew : rec w' i e (bs ++ more) s' n').
  { rewrite Ew. eexists. split; [apply lookup_insert_eq|]. split_and!; [done|done|done|lia|lia]. }
  assert (Hother : forall j, j <> i -> w_dirs w' !! j = w_dirs w !! j) by (intros j Hj; rewrite Ew; by apply lookup_insert_ne).
  assert (Hs : same_tops w w') by (by rewrite Ew).
  assert (Hev : evolves w w').
  { apply evolves_same; [done|]. intros j e' bs' s2 n2 _ Hr'. destruct (decide (j = i)) as [->|Hj].
    - destruct (rec_fun _ _ _ _ _ _ _ _ _ _ Hnew Hr') as (<- & <- & <-). exists bs, s, n, more. split_and!; [done|done|lia].
    - exists bs', s2, n2, []. rewrite app_nil_r. split_and!; [eapply rec_same; [|exact Hr']; symmetry; by apply Hother|done|done]. }
  split; [|split; [split; [done|]|done]].
  - apply (disk_ok_same w); [done| | |done| |done].
    + intros j _ Hd. destruct (decide (j = i)) as [->|Hj]; [congruence|by rewrite Hother].
    + intros j e' bs' s2 n2 _ Hr'. destruct (decide (j = i)) as [->|Hj].
      * destruct (rec_fun _ _ _ _ _ _ _ _ _ _ Hr Hr') as (<- & _). by exists (bs ++ more), s', n'.
      * exists bs', s2, n2. eapply rec_same; [|exact Hr']. by apply Hother.
    + intros me id2 x Hx. left. rewrite Ew in Hx. exact Hx.
  - intros t' _. split; [by rewrite Ew|]. intros Hp. rewrite (st_pub _ _ Hs). split; [|done]. apply Hother. by intros ->.
Qed.

Definition append_post (a : option error) : world -> Prop :=
  match a with None => of_record (fun bs n => exists k, (k < n)%nat /\ bs !! k = Some b) | Some _ => fun _ => True end.

Lemma stable_append_post a : stable t (append_post a).
Proof.
  destruct a; [apply stable_pure|]. apply stable_of_record. intros bs bs2 n n' (k & Hk & Hb) Hle.
  exists k. split; [lia|]. by apply lookup_app_l_Some.
Qed.

(** Position [after] is the end of a batch. *)
Definition boundary : world -> Prop := of_record (fun bs _ => exists c, c ∈ bs /\ last_of (fb_Entries c) = after).

Lemma stable_boundary : stable t boundary.
Proof. apply stable_of_record. intros bs bs2 n n' (c & Hc & ?) _. exists c. split; [apply elem_of_app; by left|done]. Qed.

Definition linked_now : world -> Prop := of_record (fun bs _ => b ∈ bs).

Lemma stable_linked_now : stable t linked_now.
Proof. apply stable_of_record. intros bs bs2 n n' Hin _. apply elem_of_app. by left. Qed.

Lemma of_record_eq F w w' :
  w_published w' = w_published w -> w_dirs w' = w_dirs w -> of_record F w -> of_record F w'.
Proof.
  intros E1 E2 (i & Hi & Hc & HF). exists i. rewrite E1. split; [done|]. split; [done|]. intros bs s n Hr.
  eapply HF. eapply rec_same; [|exact Hr]. by rewrite E2.
Qed.

Lemma append_in_range : (after + N.of_nat (length entries) < two64)%N.
Proof. pose proof (gc_range Hcalls t) as Hr. unfold in_range in Hr. by rewrite Hcall in Hr. Qed.

(** The link, where the path leads: its batch comes after the last one. *)
Lemma change_linked w i bs s n :
  disk_ok w -> i ∈ w_published w -> creates i id e -> rec w i e bs s n ->
  (exists c, c ∈ bs /\ last_of (fb_Entries c) = after) ->
  linked (first_of entries) (link_of <$> bs) = None ->
  let w' := set_epoch i (epoch_name e) (MkEpochDir (link_of <$> bs ++ [b]) n) w in
  disk_ok w' /\ guarantees t w w' /\ linked_now w'.
Proof.
  intros Hok Hi Hc Hr (c & Hin & Hlast) Hl. pose proof Hr as (_ & _ & _ & _ & Hw & Hn). pose proof (written_numbered _ _ _ Hw) as Hnum.
  pose proof append_in_range as Hrange. rewrite (first_of_batch _ _ _ Hbatch Hrange) in Hl.
  assert (Ha : after = N.of_nat (length (st_entries s))).
  { destruct (last_of_next epoch_name 0 bs c Hnum Hin) as [E|(c' & Hin' & E)]; [rewrite (written_log _ _ _ Hw); cbn in E; congruence|].
    rewrite Hlast in E. rewrite <-E, (linked_batch 0) in Hl by done. discriminate Hl. }
  assert (Hw' : written e (bs ++ [b]) (extended s entries h)).
  { constructor; [done|done|by rewrite <-Ha|unfold fits; lia]. }
  destruct (change_epoch w i id bs s n [b] _ n Hc Hi Hr Hw') as (Hok' & Hg & Hrec); [rewrite length_app; lia|done|].
  split; [done|]. split; [done|]. exists i. split; [done|]. split; [done|]. intros bs' s' n' Hr'.
  destruct (rec_fun _ _ _ _ _ _ _ _ _ _ Hrec Hr') as (_ & <- & _). apply elem_of_app. right. by apply list_elem_of_singleton.
Qed.

Lemma triple_append_batch : triple t boundary (writeBatch t dir b) append_post.
Proof.
  assert (Hgive : forall P err, stable t P -> triple t P (Ret (Some err)) append_post) by (intros; by apply triple_ret).
  apply triple_writeBatch; [apply stable_boundary| |apply stable_append_post| |done|].
  { intros w temps. by apply of_record_eq. }
  { intros [err|] w temps; [done|]. by apply of_record_eq. }
  assert (Hst : stable t (with_file t (Some (MkFile (Some b) true)) boundary)) by apply stable_with_file, stable_boundary.
  apply (triple_do t _ (fun r w => match r with Ok _ => linked_now w | Err _ => True end)); [done| |done|].
  - intros w Hok [Hbound Ht]. cbn [exec]. unfold exec_link. rewrite Ht. destruct (dir_at w dir) as [j|] eqn:Ed; [|split; [done|]; split; [apply guarantees_refl|done]].
    destruct (epoch_in w j (ref_epoch dir)) as [ed|] eqn:Ee; [|split; [done|]; split; [apply guarantees_refl|done]].
    assert (He : epoch_at w dir = Some ed) by (unfold epoch_at; rewrite Ed; exact Ee).
    destruct (of_record_at _ _ _ Hok Hbound He) as (i & bs & s & n & Hd & Hi & Hc & Hr & -> & HF).
    rewrite Ed in Hd. injection Hd as <-. cbn [ed_links].
    destruct (linked (first_of (fb_Entries b)) (link_of <$> bs)) eqn:El; [split; [done|]; split; [apply guarantees_refl|done]|].
    replace ((MkEpochDir (link_of <$> bs) n) <| ed_links := (link_of <$> bs) ++ [link_of b] |>) with (MkEpochDir (link_of <$> bs ++ [b]) n) by (unfold upd; cbn; by rewrite fmap_app).
    by apply (change_linked w j bs s n).
  - intros [[]|[]]; try (apply Hgive, stable_pure).
    apply (triple_syncDir t _ _ (fun fd => exists i, fd = FdEpoch i (epoch_name e) /\ creates i id e)); [apply stable_linked_now|apply stable_append_post| | |done].
    + intros w fd Hok Hw. cbn [exec_open]. destruct (dir_at w dir) as [j|] eqn:Ed; [|done].
      destruct (epoch_in w j (ref_epoch dir)) as [ed|] eqn:Ee; [|done]. intros [= <-]. exists j. split; [done|].
      by destruct (dir_record w j ed Hok Ed Ee) as (_ & ? & _).
    + intros w fd (j & -> & Hcj) Hok (i & Hi & Hc & HF). rewrite (gc_epochs Hcalls i j _ _ _ Hc Hcj) in *. cbn [exec_sync].
      destruct (do_rec _ Hok j Hi) as [[Hnone _]|(id2 & e2 & bs & s & n & Hc2 & Hr)].
      { unfold epoch_in. rewrite Hnone. cbn. split; [done|]. split; [apply guarantees_refl|]. exists j. split; [done|]. split; [done|].
        intros bs s n (rd & Hrd & _). congruence. }
      destruct (creates_fun _ _ _ _ _ Hcj Hc2) as [<- <-]. pose proof Hr as (rd & Hrd & Hre & _ & Hw & Hn).
      assert (epoch_in w j (epoch_name e) = Some (MkEpochDir (link_of <$> bs) n)) as -> by (unfold epoch_in; rewrite Hrd; cbn; rewrite Hre; apply lookup_singleton_eq).
      destruct (change_epoch w j id bs s n [] s (length bs) Hcj Hi Hr) as (Hok' & Hg & Hrec); [by rewrite app_nil_r|rewrite app_nil_r; lia|done|].
      rewrite app_nil_r in *. unfold upd. cbn [ed_links]. rewrite length_fmap. split; [done|]. split; [done|]. exists j. split; [done|]. split; [done|].
      intros bs' s' n' Hr'. destruct (rec_fun _ _ _ _ _ _ _ _ _ _ Hrec Hr') as (_ & <- & <-).
      apply (HF bs s n), list_elem_of_lookup in Hr as [k Hk]. exists k. split; [by eapply lookup_lt_Some|done].
Qed.

Lemma triple_Append ctx me : triple t (fun _ => True) (Append epoch_name ctx me t id after entries h) append_post.
Proof.
  assert (Hgive : forall P err, stable t P -> triple t P (Ret (Some err)) append_post) by (intros; by apply triple_ret).
  unfold Append. destruct ctx; [apply Hgive, stable_pure|]. destruct (checkFileID id); [apply Hgive, stable_pure|].
  rewrite Hbatch. unfold epochDir_. fold e b dir. eapply triple_bind; [apply triple_head|]. intros [x|err]; [|apply Hgive, stable_pure].
  destruct (N.eqb_spec (fh_head x) after) as [Ex|]; cbn [negb]; [|apply Hgive, (stable_found_post (Ok x))].
  apply (triple_bind t _ _ append_post).
  - eapply triple_conseq; [|apply triple_append_batch]. intros w _ (i & Hi & Hc & HF). exists i. split; [done|]. split; [done|].
    intros bs s n Hr. destruct (HF _ _ _ Hr) as (c & Hin & _ & Hl). exists c. split; [done|congruence].
  - intros [err|]; [apply Hgive, stable_pure|]. apply triple_SetHead; [apply (stable_append_post None)| | |done].
    + intros w _ (i & Hi & Hc & HF). exists i, e. split_and!; [done|done|done|]. intros bs s n Hr.
      destruct (HF _ _ _ Hr) as (k & _ & Hk). exists b. split; [by eapply list_elem_of_lookup_2|done].
    + intros w heads. by apply of_record_eq.
Qed.
End append.
End crash.
