(* ===== verification/FileSafety.v ===== *)
(** * What the file store promises

    Deleting and the heartbeats, the invariant of the whole system of processes, and what of it
    survives a power cut. *)

From S2P Require Import Prelude GoStrings Errors Types Events Entry Store MemoryStore FileName FileSystem FileStore FileLog FileEquiv FileCrash.
Local Open Scope string_scope.
Local Open Scope list_scope.

Section safety.
Context (epoch_name : string -> string) `{!EpochNames epoch_name}.
Context (calls : nat -> MemoryStore.call) (handle : nat -> nat).

Abbreviation creates := (creates calls).
Abbreviation rec := (rec epoch_name).
Abbreviation disk_ok := (disk_ok epoch_name calls).
Abbreviation evolves := (evolves epoch_name).
Abbreviation guarantees := (guarantees epoch_name).
Abbreviation triple := (triple epoch_name calls).
Abbreviation stable := (stable epoch_name calls).

(** ** Deleting *)

(** A Record of [id] is gone: no state of the store's directory leads to it. *)
Definition gone (id : string) (w : world) : Prop :=
  exists i e, i ∈ w_published w /\ creates i id e /\ i ∈ w_deleted w /\ ~ visible w i.

Lemma gone_evolves id w w' : evolves w w' -> gone id w -> gone id w'.
Proof.
  intros Hev (i & e & Hi & Hc & Hd & Hv). exists i, e. split; [by apply (ev_published _ _ _ Hev)|]. split; [done|].
  split; [by apply (ev_deleted _ _ _ Hev)|by apply (ev_gone _ _ _ Hev)].
Qed.

Lemma stable_gone t id : stable t (gone id).
Proof. intros w w' _ _ [Hev _]. by apply gone_evolves. Qed.

(** The tomb of a Record, renamed away. *)
Definition tombed (id : string) (i : nat) (w : world) : Prop :=
  i ∈ w_published w /\ (exists e, creates i id e) /\ i ∈ w_deleted w /\ forall n, w_top w !! n <> Some i.

Lemma stable_tombed t id i : stable t (tombed id i).
Proof.
  intros w w' _ _ [Hev _] (Hi & Hc & Hd & Hn). split; [by apply (ev_published _ _ _ Hev)|]. split; [done|].
  split; [by apply (ev_deleted _ _ _ Hev)|]. by apply (ev_left _ _ _ Hev).
Qed.

Lemma change_tombed t w id i :
  disk_ok w -> w_top w !! file_name id = Some i ->
  let w' := (rename_top (delete (file_name id) (w_top w)) w) <| w_deleted := {[i]} ∪ w_deleted w |> in
  disk_ok w' /\ guarantees t w w' /\ tombed id i w'.
Proof.
  intros Hok Ht w'. set (name := file_name id) in *.
  destruct (do_home _ _ _ Hok (w_top w) name i) as [Hp (id2 & e & Hc & Hn)]; [left|done|]. apply (inj file_name) in Hn as <-.
  assert (Htops : forall top, top ∈ tops w' -> top = delete name (w_top w) \/ top ∈ tops w) by (intros top; unfold tops; cbn; set_solver).
  assert (Hvis : forall j, visible w' j -> visible w j).
  { intros j (top & n & Hin & Hj). apply Htops in Hin as [->|Hin]; [|by exists top, n].
    apply lookup_delete_Some in Hj as [_ Hj]. exists (w_top w), n. split; [left|done]. }
  assert (Hev : evolves w w').
  { split; try done.
    - cbn. set_solver.
    - intros j e' bs s n Hj Hr. exists bs, s, n, []. by rewrite app_nil_r.
    - intros j _ Hv Hv'. by apply Hv, Hvis.
    - intros j _ Hl n. cbn. intros [_ Hj]%lookup_delete_Some. by apply (Hl n).
    - intros n j Hj. cbn. destruct (decide (n = name)) as [->|Hne]; [left; rewrite Ht in Hj; injection Hj as <-; set_solver|right].
      by rewrite lookup_delete_ne.
    - intros n j Hall. destruct (decide (n = name)) as [->|Hne].
      + left. specialize (Hall (w_top w) ltac:(left)). rewrite Ht in Hall. injection Hall as <-. cbn. set_solver.
      + right. intros top [->|Hin]%Htops; [|by apply Hall]. rewrite lookup_delete_ne by done. apply Hall. left. }
  split; [|split].
  - destruct Hok as [Hh Hr Hheads]. split.
    + intros top n j [->|Hin]%Htops Hj; [|by eapply Hh]. apply lookup_delete_Some in Hj as [_ Hj]. eapply Hh; [left|exact Hj].
    + intros j Hj. destruct (Hr j Hj) as [[Hd Hv]|?]; [left|by right]. split; [done|]. intros Hv'. by apply Hv, Hvis.
    + exact Hheads.
  - split; [done|]. by split.
  - split; [done|]. split; [by exists e|]. split; [cbn; set_solver|]. intros n. cbn. intros [Hne Hj]%lookup_delete_Some.
    destruct (do_home _ _ _ Hok (w_top w) n i) as [_ (id3 & e3 & Hc3 & ->)]; [left|done|].
    destruct (creates_fun _ _ _ _ _ _ Hc Hc3) as [<- _]. by apply Hne.
Qed.

(** The files of a Record that is gone are removed. *)
Lemma change_removed t w i :
  disk_ok w -> i ∈ w_published w -> ~ visible w i ->
  let w' := w <| w_dirs := delete i (w_dirs w) |> in disk_ok w' /\ guarantees t w w'.
Proof.
  intros Hok Hi Hv w'.
  assert (Hrec : forall j e bs s n, rec w' j e bs s n -> rec w j e bs s n).
  { intros j e bs s n (rd & Hrd & H). exists rd. split; [|done]. by apply (lookup_delete_Some (w_dirs w) i j). }
  assert (Hev : evolves w w').
  { apply evolves_same; [done|]. intros j e bs s n _ Hr. exists bs, s, n, []. rewrite app_nil_r. split_and!; [by apply Hrec|done|done]. }
  split; [|split; [done|]].
  - destruct Hok as [Hh Hr Hheads]. split; [exact Hh| |].
    + intros j Hj. destruct (decide (j = i)) as [->|Hne]; [left; split; [apply lookup_delete_eq|done]|].
      destruct (Hr j Hj) as [[Hd ?]|(id & e & bs & s & n & Hc & (rd & Hrd & H))]; [left|right].
      * split; [|done]. cbn. by rewrite lookup_delete_ne.
      * exists id, e, bs, s, n. split; [done|]. exists rd. cbn. by rewrite lookup_delete_ne.
    + intros me id h Hh'. apply (head_good_evolves epoch_name calls w); [done|]. by apply (Hheads me).
  - intros t' _. split; [done|]. intros Ht'. split; [|done]. cbn. apply lookup_delete_ne. by intros ->.
Qed.

Definition delete_post (id : string) (a : option error) : world -> Prop :=
  match a with None => gone id | Some _ => fun _ => True end.

Lemma stable_delete_post t id a : stable t (delete_post id a).
Proof. destruct a; [apply stable_pure|apply stable_gone]. Qed.

Lemma triple_forget t me id a : triple t (delete_post id a) (forget me id a) (delete_post id).
Proof.
  unfold forget. apply (triple_do epoch_name calls t _ (fun _ => delete_post id a)); [apply stable_delete_post| |done|].
  - intros w Hok Hw. cbn. destruct (change_heads epoch_name calls t w (delete (me, id) (w_heads w))) as [? ?]; [|done|].
    + intros me' id' h [_ ?]%lookup_delete_Some. by left.
    + split; [done|]. split; [done|]. by destruct a.
  - intros r. apply triple_ret; [apply stable_delete_post|done].
Qed.

Lemma triple_Delete t ctx me id : triple t (fun _ => True) (Delete ctx me id) (delete_post id).
Proof.
  assert (Hgive : forall P err, stable t P -> triple t P (Ret (Some err)) (delete_post id)) by (intros; by apply triple_ret).
  assert (Hforget : forall P err, triple t P (forget me id (Some err)) (delete_post id)).
  { intros P err. eapply triple_conseq; [|apply triple_forget]. done. }
  unfold Delete. destruct ctx; [apply Hgive, stable_pure|]. destruct (checkFileID id); [apply Hgive, stable_pure|].
  apply (triple_do epoch_name calls t _ (fun r w => match r with Ok i => tombed id i w | Err _ => True end)); [apply stable_pure| |done|].
  { intros w Hok _. cbn [exec]. destruct (w_top w !! file_name id) as [i|] eqn:Ht; [|split; [done|]; split; [apply guarantees_refl|done]].
    by apply change_tombed. }
  intros [i|[]]; [|apply Hforget|apply Hgive, stable_pure..].
  apply (triple_bind epoch_name calls t _ _ (fun a w => tombed id i w /\ (a = None -> ~ visible w i))).
  - assert (Hst : forall a : option error, stable t (fun w => tombed id i w /\ (a = None -> ~ visible w i))).
    { intros a w w' Hok Hok' Hr [Ht Hv]. split; [by eapply (stable_tombed t id i w)|]. intros Ha. destruct Hr as [Hev _].
      apply (ev_gone _ _ _ Hev); [apply Ht|by apply Hv]. }
    apply (triple_syncDir epoch_name calls t _ _ (fun fd => fd = FdTop)); [apply stable_tombed|exact Hst| | |done].
    + intros w fd _ _. cbn. by intros [= <-].
    + intros w fd -> Hok Ht. cbn. destruct (change_synced_top epoch_name calls t w Hok) as [? ?]. split; [done|]. split; [done|]. split; [exact Ht|].
      intros _ (top & n & Hin & Hn). cbn in Hin. apply list_elem_of_singleton in Hin as ->. destruct Ht as (_ & _ & _ & Hnot). by apply (Hnot n).
  - intros [err|]; [eapply triple_conseq; [|apply (Hforget (fun _ => True))]; done|].
    assert (Hgone : forall w, tombed id i w /\ (@None error = None -> ~ visible w i) -> gone id w).
    { intros w [(Hi & (e & Hc) & Hd & _) Hv]. exists i, e. auto. }
    apply (triple_do epoch_name calls t _ (fun _ => gone id)).
    + intros w w' Hok Hok' Hr [Ht Hv]. split; [by eapply (stable_tombed t id i w)|]. intros Ha. destruct Hr as [Hev _].
      apply (ev_gone _ _ _ Hev); [apply Ht|by apply Hv].
    + intros w Hok Hw. cbn. pose proof Hw as [(Hi & _) Hv].
      destruct (change_removed t w i Hok Hi (Hv eq_refl)) as [? ?]. split; [done|]. split; [done|]. by apply Hgone.
    + intros err w _ _ Hw. by apply Hgone.
    + intros [[]|err].
      * apply (triple_forget t me id None).
      * eapply triple_conseq; [|apply (Hforget (fun _ => True))]; done.
Qed.

(** ** Heartbeats *)

Lemma change_instances t w rows :
  disk_ok w -> disk_ok (w <| w_instances := rows |>) /\ guarantees t w (w <| w_instances := rows |>).
Proof. intros Hok. apply change_frame; [done|done|done|by left|done]. Qed.

(** A call that may change a heartbeat row. *)
Lemma triple_rows {A B} t (c : FileSystem.call B) (k : result osError B -> prog A) Q :
  (forall w, exists rows r, exec c w = (w <| w_instances := rows |>, r)) ->
  (forall r, triple t (fun _ => True) (k r) Q) -> triple t (fun _ => True) (Do c k) Q.
Proof.
  intros Hc Hk. apply (triple_do epoch_name calls t _ (fun _ _ => True)); [apply stable_pure| |done|done].
  intros w Hok _. destruct (Hc w) as (rows & r & ->). destruct (change_instances t w rows Hok). auto.
Qed.

Lemma triple_Beat t ctx now row ttl : triple t (fun _ => True) (Beat ctx now row ttl) (fun _ _ => True).
Proof.
  assert (Hgive : forall a, triple t (fun _ => True) (Ret a) (fun (_ : option error) _ => True)).
  { intros a. apply triple_ret; [apply stable_pure|done]. }
  assert (Hsame : forall w : world, w = w <| w_instances := w_instances w |>) by (by intros []).
  assert (Hwrite : forall name r, triple t (fun _ => True) (writeInstance name r) (fun _ _ => True)).
  { intros name r. apply triple_rows; [intros w; exists (w_instances w); eexists; by rewrite <-Hsame|].
    intros [[]|err]; [|apply Hgive]. apply triple_rows; [intros w; by eexists _, _|]. intros []; apply Hgive. }
  unfold Beat. destruct ctx; [apply Hgive|]. destruct (checkFileID (ir_ID row)); [apply Hgive|]. destruct (ttl <=? 0)%Z.
  - apply triple_rows.
    + intros w. cbn. destruct (w_instances w !! file_name (ir_ID row)); [by eexists _, _|]. exists (w_instances w). eexists. by rewrite <-Hsame.
    + intros [[]|[]]; apply Hgive.
  - unfold readInstance. cbn [pbind]. apply triple_rows.
    + intros w. cbn. exists (w_instances w). rewrite <-Hsame. destruct (w_instances w !! file_name (ir_ID row)); by eexists.
    + intros [[current|]|err]; [|apply Hwrite..]. cbn [pbind]. destruct (negb _); [apply Hgive|apply Hwrite].
Qed.

(** ** A call, from its start *)

(** What a call promises once it answered: the batch of a Create or an Append is synced, and
    a deleted Record is gone for good. *)
Definition promise (t : nat) (a : option error) (w : world) : Prop :=
  match a, call_request (calls t) with
  | None, ReqCreate id entries h =>
    CheckBatch 0 entries h = None /\ created epoch_name t (file_name id) (rh_Epoch h) (MkFileBatch entries h) w
  | None, ReqAppend id after entries h =>
    CheckBatch after entries h = None /\ append_post epoch_name calls id entries h None w
  | None, ReqDelete id => gone id w
  | _, _ => True
  end.

Lemma triple_serve (Hcalls : good_calls calls) t :
  triple t (mine t None) (file_serve epoch_name (handle t) t (calls t)) (promise t).
Proof.
  unfold file_serve, promise. destruct (call_request (calls t)) as [id entries h|id after entries h|id|row ttl] eqn:Hc.
  - destruct (CheckBatch 0 entries h) as [err|] eqn:Hb.
    + unfold Create. rewrite Hb. destruct (call_ctx (calls t)); [|destruct (checkFileID id)]; (apply triple_ret; [apply stable_mine|done]).
    + eapply triple_post; [|apply (triple_Create epoch_name calls handle Hcalls t id entries h Hc Hb)]. by intros [].
  - destruct (CheckBatch after entries h) as [err|] eqn:Hb.
    + unfold Append. rewrite Hb. destruct (call_ctx (calls t)); [|destruct (checkFileID id)]; (apply triple_ret; [apply stable_mine|done]).
    + eapply triple_conseq; [|eapply triple_post; [|apply (triple_Append epoch_name calls Hcalls t id after entries h Hc Hb)]]; [done|].
      by intros [].
  - eapply triple_conseq; [|eapply triple_post; [|apply triple_Delete]]; [done|]. by intros [].
  - eapply triple_conseq; [|eapply triple_post; [|apply triple_Beat]]; [done|]. by intros [].
Qed.

(** ** The invariant of the system *)

Lemma promise_evolves t a w w' : evolves w w' -> promise t a w -> promise t a w'.
Proof.
  intros Hev. unfold promise. destruct a; [done|]. destruct (call_request (calls t)) as [id entries h|id after entries h|id|]; [| | |done].
  - intros [? Hc]. split; [done|]. by eapply created_evolves.
  - intros [? Ha]. split; [done|]. revert Ha. apply of_record_evolves; [|done].
    intros bs bs2 n n' (k & Hk & Hb) Hle. exists k. split; [lia|]. by apply lookup_app_l_Some.
  - by apply gone_evolves.
Qed.

(** The first batches of a log are a log. *)
Lemma written_take e bs s k : written e bs s -> (0 < k)%nat -> exists s', written e (take k bs) s'.
Proof.
  induction 1 as [entries h Hh Hb Hf|bs s entries h Hw IH Hh Hb Hf]; intros Hk.
  - eexists. rewrite take_ge by (cbn; lia). by constructor.
  - destruct (decide (k <= length bs)%nat) as [Hle|Hgt].
    + rewrite take_app_le by done. by apply IH.
    + eexists. rewrite take_ge by (rewrite length_app; cbn; lia). by constructor.
Qed.

#[export] Instance link_of_inj : Inj (=) (=) link_of.
Proof. intros b b' E. unfold link_of in E. by injection E. Qed.

Lemma cut_links k bs links : Forall2 cut_file (take k (link_of <$> bs)) links -> links = link_of <$> take k bs.
Proof.
  rewrite <-fmap_take. generalize (take k bs). intros cs. revert links.
  induction cs as [|b cs IH]; intros links Hf; inversion Hf as [|x y l l' [Hn Hor] Hrest]; subst; [done|].
  rewrite fmap_cons. f_equal; [|by apply IH]. destruct y as [n f]. cbn in *. subst n. by destruct Hor as [->|].
Qed.

Lemma cut_record w w' i id e bs s n :
  power_cut w w' -> creates i id e -> rec w i e bs s n ->
  exists s' k, (n <= k)%nat /\ rec w' i e (take k bs) s' (length (take k bs)).
Proof.
  intros Hp Hc (rd & Hrd & He & Hdur & Hw & Hn). destruct (pc_some _ _ Hp i rd Hrd) as (rd' & Hrd' & [Hep Hkept Hsame]).
  assert (Hone : rd_epochs rd !! epoch_name e = Some (MkEpochDir (link_of <$> bs) n)) by (rewrite He; apply lookup_singleton_eq).
  destruct (Hkept (epoch_name e) Hdur) as [ed' Hed']; [by eexists|].
  destruct (Hep _ _ Hed') as (ed & Hed & k & Hk & Hl & Hs). rewrite Hone in Hed. injection Hed as <-. cbn in Hk, Hl.
  apply cut_links in Hl. assert (Hlen : length (ed_links ed') = length (take k bs)) by (by rewrite Hl, length_fmap).
  destruct (written_take e bs s k Hw) as [s' Hw']; [lia|]. exists s', k. split; [done|]. exists rd'. split; [done|].
  split_and!; [|by rewrite Hsame|done| |done].
  - apply map_eq. intros ep. destruct (decide (ep = epoch_name e)) as [->|Hne].
    + rewrite Hed', lookup_singleton_eq. destruct ed' as [l m]. cbn in *. congruence.
    + rewrite lookup_singleton_ne by done. destruct (rd_epochs rd' !! ep) as [ed2|] eqn:E2; [|done].
      destruct (Hep _ _ E2) as (ed & Hed & _). rewrite He, lookup_singleton_ne in Hed; done.
  - rewrite length_take. lia.
Qed.

Lemma cut_back w w' i e bs' s' n' :
  disk_ok w -> power_cut w w' -> i ∈ w_published w -> rec w' i e bs' s' n' ->
  exists bs s n k, rec w i e bs s n /\ bs' = take k bs /\ (n <= k)%nat /\ n' = length bs'.
Proof.
  intros Hok Hp Hi Hr'. destruct (do_rec _ _ _ Hok i Hi) as [[Hnone _]|(id & e0 & bs & s & n & Hc & Hr)].
  { destruct Hr' as (rd & Hrd & _). by rewrite (pc_none _ _ Hp i Hnone) in Hrd. }
  destruct (cut_record _ _ _ _ _ _ _ _ Hp Hc Hr) as (s2 & k & Hk & Hr2).
  destruct (rec_fun _ _ _ _ _ _ _ _ _ _ _ Hr' Hr2) as (-> & -> & ->). by exists bs, s, n, k.
Qed.

Lemma cut_tops w w' top : power_cut w w' -> top ∈ tops w' -> top ∈ tops w.
Proof.
  intros Hp. unfold tops. rewrite (pc_past _ _ Hp). intros ->%list_elem_of_singleton.
  destruct (pc_top _ _ Hp) as [->|Hin]; [left|by right].
Qed.

Lemma cut_visible w w' i : power_cut w w' -> visible w' i -> visible w i.
Proof. intros Hp (top & n & Hin & Hn). exists top, n. split; [by eapply cut_tops|done]. Qed.

Lemma cut_ok w w' : disk_ok w -> power_cut w w' -> disk_ok w'.
Proof.
  intros Hok Hp. split.
  - intros top n i Hin. rewrite (pc_published _ _ Hp). apply (do_home _ _ _ Hok). by eapply cut_tops.
  - intros i. rewrite (pc_published _ _ Hp). intros Hi.
    destruct (do_rec _ _ _ Hok i Hi) as [[Hnone Hv]|(id & e & bs & s & n & Hc & Hr)]; [left|right].
    + split; [by apply (pc_none _ _ Hp)|]. intros Hv'. by eapply Hv, cut_visible.
    + destruct (cut_record _ _ _ _ _ _ _ _ Hp Hc Hr) as (s2 & k & _ & Hr2). by eexists _, _, _, _, _.
  - intros me id h. by rewrite (pc_memory _ _ Hp), lookup_empty.
Qed.

Lemma promise_cut t a w w' : disk_ok w -> power_cut w w' -> promise t a w -> promise t a w'.
Proof.
  intros Hok Hp. assert (Hmade : forall i e b, i ∈ w_published w ->
    (forall bs s n, rec w i e bs s n -> exists k, (k < n)%nat /\ bs !! k = Some b) ->
    (forall bs s n, rec w' i e bs s n -> exists k, (k < n)%nat /\ bs !! k = Some b)).
  { intros i e b Hi Hm bs' s' n' Hr'. destruct (cut_back _ _ _ _ _ _ _ Hok Hp Hi Hr') as (bs & s & n & k & Hr & -> & Hk & ->).
    destruct (Hm _ _ _ Hr) as (j & Hj & Hb). exists j. split; [|by rewrite lookup_take_lt by lia].
    rewrite length_take. apply lookup_lt_Some in Hb. lia. }
  unfold promise. destruct a; [done|]. destruct (call_request (calls t)) as [id entries h|id after entries h|id|]; [| | |done].
  - intros [Hb (Hi & Hm & Hs)]. split; [done|]. split; [by rewrite (pc_published _ _ Hp)|]. split; [exact (Hmade _ _ _ Hi Hm)|].
    destruct Hs as [Hd|Hall]; [left; by rewrite (pc_deleted _ _ Hp)|right]. intros top Hin. apply Hall. by eapply cut_tops.
  - intros [Hb (i & Hi & Hc & Hm)]. split; [done|]. exists i. rewrite (pc_published _ _ Hp). split; [done|]. split; [done|]. exact (Hmade _ _ _ Hi Hm).
  - intros (i & e & Hi & Hc & Hd & Hv). exists i, e. rewrite (pc_published _ _ Hp), (pc_deleted _ _ Hp). split_and!; [done|done|done|].
    intros Hv'. by eapply Hv, cut_visible.
Qed.

Record sys_ok (σ : fsys) : Prop := {
  so_disk : disk_ok (fs_world σ);
  so_fresh t : t ∉ fs_started σ -> mine t None (fs_world σ);
  so_safe t p : fs_running σ !! t = Some p -> t ∈ fs_started σ /\ safe epoch_name calls t (promise t) p (fs_world σ);
  so_kept t a : fs_answers σ !! t = Some a -> promise t a (fs_world σ);
}.

Lemma sys_start : sys_ok fsys_start.
Proof.
  split; try done. split; try done.
  intros top n i Hin%list_elem_of_singleton. by subst top.
Qed.

(** A step of one call, seen by the others. *)
Lemma sys_moved w w' t p started running answers :
  sys_ok (MkFsys w started running answers) -> is_Some (running !! t) ->
  disk_ok w' -> guarantees t w w' -> safe epoch_name calls t (promise t) p w' ->
  sys_ok (MkFsys w' started (<[t := p]> running) answers).
Proof.
  intros [Hd Hf Hs Hk] [q Hq] Hok [Hev Hown] Hp. cbn in *. split; cbn.
  - done.
  - intros t' Ht'. assert (Hne : t' <> t) by (intros ->; by destruct (Hs _ _ Hq)).
    destruct (Hf t' Ht') as [Hpub Hdir]. destruct (Hown t' Hne) as [_ Ho]. destruct (Ho Hpub) as [E Hpub']. split; [done|congruence].
  - intros t' p'. intros [[<- <-]|[Hne Hp']]%lookup_insert_Some; [split; [by destruct (Hs _ _ Hq)|done]|].
    destruct (Hs _ _ Hp') as [? Hsafe]. split; [done|]. eapply safe_mono; [|done]. split; [done|]. apply Hown. by apply not_eq_sym.
  - intros t' a Ha. eapply promise_evolves; [done|]. by apply Hk.
Qed.

Lemma sys_step (Hcalls : good_calls calls) σ σ' : fstep epoch_name calls handle true σ σ' -> sys_ok σ -> sys_ok σ'.
Proof.
  intros Hstep Hσ. destruct Hstep as [t w started running answers Ht|t B c k w w' r started running answers Hr Hx
    |t B c k e w started running answers Hr Hcan|t a w started running answers Hr|t w started running answers|w w' started running answers Hp].
  - destruct Hσ as [Hd Hf Hs Hk]. cbn in *. split; cbn; [done| | |done].
    + intros t' Ht'. apply Hf. set_solver.
    + intros t' p [[<- <-]|[Hne Hp]]%lookup_insert_Some.
      * split; [set_solver|]. apply triple_serve; [done|done|by apply Hf].
      * destruct (Hs _ _ Hp). split; [set_solver|done].
  - pose proof (so_safe _ Hσ t _ Hr) as [_ Hsafe]. pose proof (so_disk _ Hσ) as Hok. cbn in *.
    destruct (Hsafe w Hok (relies_refl _ _ _)) as [Hgo _]. rewrite Hx in Hgo. destruct Hgo as (Hok' & Hg & Hsafe').
    eapply sys_moved; [done|by eexists|done|done|done].
  - pose proof (so_safe _ Hσ t _ Hr) as [_ Hsafe]. pose proof (so_disk _ Hσ) as Hok. cbn in *.
    destruct (Hsafe w Hok (relies_refl _ _ _)) as [_ Hfail].
    eapply sys_moved; [done|by eexists|done|apply guarantees_refl|by apply Hfail].
  - pose proof (so_safe _ Hσ t _ Hr) as [_ Hsafe]. destruct Hσ as [Hd Hf Hs Hk]. cbn in *. split; cbn; [done|done| |].
    + intros t' p [_ Hp]%lookup_delete_Some. by apply Hs.
    + intros t' a' [[<- <-]|[_ Ha]]%lookup_insert_Some; [|by apply Hk]. exact (Hsafe w Hd (relies_refl _ _ _)).
  - destruct Hσ as [Hd Hf Hs Hk]. cbn in *. split; cbn; [done|done| |done]. intros t' p [_ Hp]%lookup_delete_Some. by apply Hs.
  - destruct Hσ as [Hd Hf Hs Hk]. cbn in *. split; cbn.
    + by eapply cut_ok.
    + intros t Ht. destruct (Hf t Ht) as [Hpub Hdir]. split; [by rewrite (pc_published _ _ Hp)|by apply (pc_none _ _ Hp)].
    + intros t p. by rewrite lookup_empty.
    + intros t a Ha. eapply promise_cut; [done|done|]. by apply Hk.
Qed.

Lemma sys_reach (Hcalls : good_calls calls) σ : freach epoch_name calls handle true σ -> sys_ok σ.
Proof.
  unfold freach. generalize sys_start. generalize fsys_start. intros σ0 H0 Hr. induction Hr as [|σ1 σ2 σ3 Hstep _ IH]; [done|].
  apply IH. by eapply sys_step.
Qed.

(** ** What is read *)

Lemma rec_record_at w i e bs s n : rec w i e bs s n -> record_at epoch_name w i e bs s.
Proof. intros (rd & Hrd & H). exists rd. split; [done|]. by exists n. Qed.

Lemma visible_rec w id i : disk_ok w -> w_top w !! file_name id = Some i ->
  i ∈ w_published w /\ exists e bs s n, creates i id e /\ rec w i e bs s n.
Proof.
  intros Hok Ht. destruct (do_home _ _ _ Hok (w_top w) (file_name id) i) as [Hi (id' & e & Hc & Hn)]; [left|done|]. split; [done|].
  apply (inj file_name) in Hn as <-. destruct (do_rec _ _ _ Hok i Hi) as [[_ Hv]|(id2 & e2 & bs & s & n & Hc2 & Hr)].
  - exfalso. apply Hv. exists (w_top w), (file_name id). split; [left|done].
  - destruct (creates_fun _ _ _ _ _ _ Hc Hc2) as [<- <-]. by exists e, bs, s, n.
Qed.

(** A batch of a log is at its position. *)
Lemma batch_at p bs k c :
  numbered_from p bs -> bs !! k = Some c -> exists before after,
    entries_in bs = before ++ fb_Entries c ++ after /\ first_of (fb_Entries c) = N.of_nat (p + length before + 1).
Proof.
  intros Hn Hk. apply list_elem_of_split_length in Hk as (l1 & l2 & -> & _). exists (entries_in l1), (entries_in l2).
  rewrite entries_in_app. split; [done|]. apply numbered_app in Hn as [_ Hn]. by rewrite (first_of_numbered _ _ _ Hn).
Qed.

(** C11: On a file system that syncs directories: whatever calls many processes make at once on one
    directory, and whenever a system call fails, a process dies or the power is cut, each Record
    that is there can be read: its log is whole, numbered from 1 without a gap and starts with a
    Checkpoint, and a Load of it succeeds.  A system call may fail with any error but one that
    says falsely that a file is there or is not; a sync of a directory does not fail with
    [os.ErrInvalid], which [syncDir] takes for a file system that has none.  The calls name
    positions below the wrap-around, and no two creations name one epoch ([good_calls]). *)
Theorem file_records_always_whole (Hcalls : good_calls calls) σ id i :
  freach epoch_name calls handle true σ -> checkFileID id = None ->
  w_top (fs_world σ) !! file_name id = Some i ->
  exists s, wf_stored s /\ runs (Load None id) (fs_world σ) = (fs_world σ, Ok (load_of s)).
Proof.
  intros Hr Hid Ht. pose proof (so_disk _ (sys_reach Hcalls σ Hr)) as Hok.
  destruct (visible_rec _ _ _ Hok Ht) as (_ & e & bs & s & n & _ & Hrec). pose proof Hrec as (_ & _ & _ & _ & Hw & _).
  exists s. split; [by eapply written_wf|]. eapply (runs_Load epoch_name); [done|done|by eapply rec_record_at].
Qed.

(** C10: On a file system that syncs directories an acknowledged write is never lost: once the call
    that created a Record and an Append to it have both answered without an error, then after any
    crash, failure or power cut the Record is there and its log holds the batch of the Append at
    its position, unless the Record was deleted.  What may fail, and which calls are made, is as
    for C11: where a sync of a directory answers [os.ErrInvalid], [syncDir] goes on, and an
    acknowledged write can be lost ([invalid_sync_loses_a_write]). *)
Theorem file_acked_writes_survive (Hcalls : good_calls calls) σ c t id first h0 after entries h :
  freach epoch_name calls handle true σ -> checkFileID id = None ->
  call_request (calls c) = ReqCreate id first h0 -> fs_answers σ !! c = Some None ->
  call_request (calls t) = ReqAppend id after entries h -> fs_answers σ !! t = Some None ->
  rh_Epoch h = rh_Epoch h0 ->
  c ∈ w_deleted (fs_world σ) \/
  exists s, wf_stored s /\ runs (Load None id) (fs_world σ) = (fs_world σ, Ok (load_of s)) /\
    first `prefix_of` st_entries s /\ take (length entries) (drop (N.to_nat after) (st_entries s)) = entries.
Proof.
  intros Hr Hid Hcc Hca Htc Hta He. pose proof (sys_reach Hcalls σ Hr) as Hσ. pose proof (so_disk _ Hσ) as Hok.
  pose proof (so_kept _ Hσ c _ Hca) as Hpc. pose proof (so_kept _ Hσ t _ Hta) as Hpt. unfold promise in Hpc, Hpt. rewrite Hcc in Hpc. rewrite Htc in Hpt.
  destruct Hpc as [Hb0 (Hi & Hm & [Hd|Hs])]; [by left|right]. destruct Hpt as [Hb (i & _ & Hci & Ha)].
  assert (Hcr : creates c id (rh_Epoch h0)) by (by exists first, h0).
  rewrite He in Hci, Ha. rewrite (gc_epochs _ Hcalls i c _ _ _ Hci Hcr) in *.
  destruct (visible_rec _ id c Hok) as (_ & e & bs & s & n & Hc & Hrec); [apply Hs; left|].
  destruct (creates_fun _ _ _ _ _ _ Hcr Hc) as [_ <-]. pose proof Hrec as (_ & _ & _ & _ & Hw & _).
  pose proof (written_numbered _ _ _ Hw) as Hn. exists s.
  split; [|split; [|split]].
  - by eapply written_wf.
  - eapply (runs_Load epoch_name); [done|apply Hs; left|by eapply rec_record_at].
  - rewrite (written_log _ _ _ Hw). destruct (Hm _ _ _ Hrec) as (k & _ & Hk). destruct (batch_at 0 bs k _ Hn Hk) as (before & rest & -> & Hf).
    pose proof (gc_range _ Hcalls c) as Hfit. unfold in_range in Hfit. rewrite Hcc in Hfit.
    cbn [fb_Entries] in *. rewrite (first_of_batch _ _ _ Hb0) in Hf by (unfold fits in Hfit; lia).
    destruct before; [by eexists|cbn in Hf; lia].
  - rewrite (written_log _ _ _ Hw). destruct (Ha _ _ _ Hrec) as (k & _ & Hk). destruct (batch_at 0 bs k _ Hn Hk) as (before & rest & -> & Hf).
    pose proof (gc_range _ Hcalls t) as Hfit. unfold in_range in Hfit. rewrite Htc in Hfit.
    cbn [fb_Entries] in *. rewrite (first_of_batch _ _ _ Hb Hfit) in Hf.
    assert (N.to_nat after = length before) as -> by lia. by rewrite drop_app_length, take_app_length.
Qed.

(** C13: On a file system that syncs directories a deleted Record stays deleted: once a Delete
    answered without an error, no later crash or power cut brings a Record that it renamed away
    back under its ID.  What may fail, and which calls are made, is as for C11. *)
Theorem file_deleted_for_good (Hcalls : good_calls calls) σ t id :
  freach epoch_name calls handle true σ -> call_request (calls t) = ReqDelete id -> fs_answers σ !! t = Some None ->
  exists i e, creates i id e /\ i ∈ w_deleted (fs_world σ) /\ w_top (fs_world σ) !! file_name id <> Some i /\
    forall w', power_cut (fs_world σ) w' -> w_top w' !! file_name id <> Some i.
Proof.
  intros Hr Htc Hta. pose proof (so_kept _ (sys_reach Hcalls σ Hr) t _ Hta) as Hp. unfold promise in Hp. rewrite Htc in Hp.
  destruct Hp as (i & e & Hi & Hc & Hd & Hv). exists i, e. split_and!; [done|done| |].
  - intros Ht. apply Hv. exists (w_top (fs_world σ)), (file_name id). split; [left|done].
  - intros w' Hcut Ht. apply Hv. eapply cut_visible; [done|]. exists (w_top w'), (file_name id). split; [left|done].
Qed.
End safety.

(** ** Schedules

    Executable runs of the system: which call makes its next system call. *)

Section schedules.
Context (epoch_name : string -> string) (calls : nat -> MemoryStore.call) (handle : nat -> nat) (dirs_sync : bool).

Definition start_call (t : nat) (σ : fsys) : fsys :=
  if decide (t ∈ fs_started σ) then σ
  else MkFsys (fs_world σ) ({[t]} ∪ fs_started σ) (<[t := file_serve epoch_name (handle t) t (calls t)]> (fs_running σ)) (fs_answers σ).

Definition next_call (t : nat) (σ : fsys) : fsys :=
  match fs_running σ !! t with
  | Some (Do c k) =>
    let (w, r) := exec c (fs_world σ) in MkFsys w (fs_started σ) (<[t := k r]> (fs_running σ)) (fs_answers σ)
  | Some (Ret a) => MkFsys (fs_world σ) (fs_started σ) (delete t (fs_running σ)) (<[t := a]> (fs_answers σ))
  | None => σ
  end.

(** The next system call of [t] fails with [e]. *)
Definition fail_call (t : nat) (e : osError) (σ : fsys) : fsys :=
  match fs_running σ !! t with
  | Some (Do c k) =>
    if may_fail dirs_sync c e then MkFsys (fs_world σ) (fs_started σ) (<[t := k (Err e)]> (fs_running σ)) (fs_answers σ) else σ
  | _ => σ
  end.

(** The power goes, and the store's directory is as in [top]; all files are kept. *)
Definition cut_world (top : gmap string nat) (w : world) : world :=
  MkWorld top [] (w_dirs w) (w_published w) (w_deleted w) ∅ ∅ (w_instances w).

Definition cut_power (top : gmap string nat) (σ : fsys) : fsys :=
  MkFsys (cut_world top (fs_world σ)) (fs_started σ) ∅ (fs_answers σ).

Definition all_synced (w : world) : Prop :=
  map_Forall (fun _ rd => map_Forall (fun _ ed => ed_synced ed = length (ed_links ed)) (rd_epochs rd)) (w_dirs w).

Lemma start_call_reach t σ : freach epoch_name calls handle dirs_sync σ -> freach epoch_name calls handle dirs_sync (start_call t σ).
Proof.
  intros Hr. unfold start_call. destruct (decide _); [done|]. eapply rtc_r; [done|]. destruct σ. by constructor.
Qed.

Lemma next_call_reach t σ : freach epoch_name calls handle dirs_sync σ -> freach epoch_name calls handle dirs_sync (next_call t σ).
Proof.
  intros Hr. unfold next_call. destruct (fs_running σ !! t) as [[a|B c k]|] eqn:E; [| |done]; (eapply rtc_r; [done|]); destruct σ as [w st ru an]; cbn in *.
  - by constructor.
  - destruct (exec c w) as [w' r] eqn:Ex. by eapply fstep_call.
Qed.

Lemma fail_call_reach t e σ :
  freach epoch_name calls handle dirs_sync σ -> freach epoch_name calls handle dirs_sync (fail_call t e σ).
Proof.
  intros Hr. unfold fail_call. destruct (fs_running σ !! t) as [[a|B c k]|] eqn:E; [done| |done].
  destruct (may_fail dirs_sync c e) eqn:Ef; [|done]. eapply rtc_r; [done|]. destruct σ. by eapply fstep_fail.
Qed.

Lemma repeat_reach t n σ : freach epoch_name calls handle dirs_sync σ -> freach epoch_name calls handle dirs_sync (Nat.iter n (next_call t) σ).
Proof. induction n; [done|]. intros Hr. by apply next_call_reach, IHn. Qed.

Lemma cut_world_power top w : top = w_top w \/ top ∈ w_past w -> all_synced w -> power_cut w (cut_world top w).
Proof.
  intros Ht Hs. split; try done. intros i rd Hrd. exists rd. split; [done|]. split; [|done|done].
  intros ep ed Hed. exists ed. split; [done|]. exists (length (ed_links ed)). pose proof (Hs i rd Hrd ep ed Hed) as E. cbn in E.
  split; [lia|]. split; [|done]. rewrite take_ge by done. apply Forall2_same_length_lookup_2; [done|].
  intros j x y Hx Hy. simplify_eq. split; [done|by left].
Qed.

Lemma cut_power_reach top σ :
  freach epoch_name calls handle dirs_sync σ -> top = w_top (fs_world σ) \/ top ∈ w_past (fs_world σ) -> all_synced (fs_world σ) ->
  freach epoch_name calls handle dirs_sync (cut_power top σ).
Proof. intros Hr Ht Hs. eapply rtc_r; [done|]. destruct σ. constructor. by apply cut_world_power. Qed.
End schedules.

(** ** Witnesses *)

Definition sample_crash_calls (t : nat) : MemoryStore.call :=
  match t with
  | 0%nat => MkCall None 10 (ReqCreate "s1" [sample_checkpoint 1; sample_entry 2] (sample_header "s1" "e1" 5))
  | 1%nat => MkCall None 12 (ReqAppend "s1" 2 [sample_checkpoint 3] (sample_header "s1" "e1" 6))
  | _ => MkCall None 13 (ReqDelete "s1")
  end.

Lemma sample_good : good_calls sample_crash_calls.
Proof.
  split.
  - intros [|[|t]]; vm_compute; done.
  - intros i j id id' e (es & h & Hi & _) (es' & h' & Hj & _).
    destruct i as [|[|i]]; try discriminate Hi. destruct j as [|[|j]]; try discriminate Hj. done.
Qed.

Abbreviation sample_reach := (freach sample_epoch_name sample_crash_calls (fun t => t) true).
Abbreviation sample_start_call := (start_call sample_epoch_name sample_crash_calls (fun t => t)).

(** Call 0 whole, call 1 whole, and a power cut. *)
Definition sample_written : fsys :=
  Nat.iter 40 (next_call 1) (sample_start_call 1 (Nat.iter 40 (next_call 0) (sample_start_call 0 fsys_start))).
Definition sample_cut : fsys := cut_power (w_top (fs_world sample_written)) sample_written.

(** Then the Record is deleted, and the power goes again. *)
Definition sample_removed : fsys := Nat.iter 40 (next_call 2) (sample_start_call 2 sample_cut).

Lemma sample_cut_reach : sample_reach sample_cut.
Proof.
  apply cut_power_reach; [|by left|].
  - apply repeat_reach, start_call_reach, repeat_reach, start_call_reach. apply rtc_refl.
  - refine (bool_decide_unpack (map_Forall _ _) _). vm_compute. exact I.
Qed.

Lemma file_records_always_whole_witness :
  exists s, wf_stored s /\ runs (Load None "s1") (fs_world sample_cut) = (fs_world sample_cut, Ok (load_of s)).
Proof.
  apply (file_records_always_whole sample_epoch_name sample_crash_calls (fun t => t) sample_good sample_cut "s1" 0).
  - exact sample_cut_reach.
  - vm_compute. reflexivity.
  - vm_compute. reflexivity.
Defined.

Lemma file_acked_writes_survive_witness :
  exists s, wf_stored s /\ take 1 (drop 2 (st_entries s)) = [sample_checkpoint 3].
Proof.
  destruct (file_acked_writes_survive sample_epoch_name sample_crash_calls (fun t => t) sample_good sample_cut 0 1 "s1"
    [sample_checkpoint 1; sample_entry 2] (sample_header "s1" "e1" 5) 2 [sample_checkpoint 3] (sample_header "s1" "e1" 6))
    as [Hd|(s & Hw & _ & _ & Ht)].
  - exact sample_cut_reach.
  - vm_compute. reflexivity.
  - reflexivity.
  - vm_compute. reflexivity.
  - reflexivity.
  - vm_compute. reflexivity.
  - reflexivity.
  - exfalso. apply (bool_decide_unpack (0%nat ∉ w_deleted (fs_world sample_cut)) ltac:(vm_compute; exact I) Hd).
  - exists s. split; [exact Hw|exact Ht].
Defined.

Lemma file_deleted_for_good_witness :
  exists i, w_top (fs_world sample_removed) !! file_name "s1" <> Some i /\ i ∈ w_deleted (fs_world sample_removed).
Proof.
  destruct (file_deleted_for_good sample_epoch_name sample_crash_calls (fun t => t) sample_good sample_removed 2 "s1")
    as (i & e & _ & Hd & Ht & _).
  - apply repeat_reach, start_call_reach, sample_cut_reach.
  - reflexivity.
  - vm_compute. reflexivity.
  - exists i. split; assumption.
Defined.

(** An Append made between the rename of a Create and its sync of the store's directory is
    acknowledged, and a power cut then loses it with the whole Record, that nobody deleted:
    [Append] syncs the epoch directory and none above it. *)
Definition sample_half_created : fsys := Nat.iter 14 (next_call 0) (sample_start_call 0 fsys_start).
Definition sample_early : fsys := Nat.iter 40 (next_call 1) (sample_start_call 1 sample_half_created).

Example append_lost_with_unsynced_create :
  let σ := cut_power ∅ sample_early in
  sample_reach σ /\ fs_answers σ !! 1%nat = Some None /\ w_deleted (fs_world σ) = ∅ /\
  (runs (Load None "s1") (fs_world sample_early)).2 = Ok (MkLoaded [sample_checkpoint 3] [sample_entry 2] 3 (sample_header "s1" "e1" 6)) /\
  (runs (Load None "s1") (fs_world σ)).2 = Err ErrNotFound.
Proof.
  split; [|split; [|split; [|split]]]; [|vm_compute; reflexivity..].
  apply cut_power_reach.
  - apply repeat_reach, start_call_reach, repeat_reach, start_call_reach. apply rtc_refl.
  - right. refine (bool_decide_unpack _ _). vm_compute. exact I.
  - refine (bool_decide_unpack (map_Forall _ _) _). vm_compute. exact I.
Qed.

(** A file system that does not sync directories: the sync that ends a Create answers
    [os.ErrInvalid], the Create is acknowledged, and a power cut loses the Record. *)
Definition sample_unsynced : fsys := Nat.iter 20 (next_call 0) (fail_call false 0 OsInvalid (next_call 0 sample_half_created)).

Example invalid_sync_loses_a_write :
  let σ := cut_power ∅ sample_unsynced in
  freach sample_epoch_name sample_crash_calls (fun t => t) false σ /\
  fs_answers σ !! 0%nat = Some None /\ w_deleted (fs_world σ) = ∅ /\
  is_ok (runs (Load None "s1") (fs_world sample_unsynced)).2 = true /\
  (runs (Load None "s1") (fs_world σ)).2 = Err ErrNotFound.
Proof.
  split; [|split; [|split; [|split]]]; [|vm_compute; reflexivity..].
  apply cut_power_reach.
  - apply repeat_reach, fail_call_reach, next_call_reach, repeat_reach, start_call_reach. apply rtc_refl.
  - right. refine (bool_decide_unpack _ _). vm_compute. exact I.
  - refine (bool_decide_unpack (map_Forall _ _) _). vm_compute. exact I.
Qed.
