(* ===== verification/Schema.v ===== *)
(** * The schema of a Tool and the arguments of a call

    [gotato/toolschema.go]: what is checked of a Tool's Spec when it enters a Session, and
    of the arguments of a call before the Tool runs.  A JSON text is what [encoding/json]
    decodes it to: an object holds one pair for each of its names, in the order a [range]
    over the map visits them, and a number is [m * 2^e]. *)

From S2P Require Import Prelude GoStrings Errors Types Request.
Local Open Scope string_scope.
Local Open Scope list_scope.

(** ** JSON values *)

Inductive json : Type :=
| JNull
| JBool (b : bool)
| JNumber (m e : Z)
| JString (s : string)
| JArray (items : list json)
| JObject (fields : list (string * json)).

(** [json.Unmarshal] into an [any]; [None] is a text that is not JSON. *)
Class JsonText := json_decode : bytes -> option json.

Fixpoint field (name : string) (fields : list (string * json)) : option json :=
  match fields with
  | [] => None
  | (key, value) :: rest => if String.eqb key name then Some value else field name rest
  end.

(** A member of a schema, read with a type assertion. *)
Definition as_string (value : option json) : option string :=
  match value with Some (JString s) => Some s | _ => None end.
Definition as_array (value : option json) : option (list json) :=
  match value with Some (JArray items) => Some items | _ => None end.
Definition as_object (value : option json) : option (list (string * json)) :=
  match value with Some (JObject fields) => Some fields | _ => None end.
Definition as_bool (value : option json) : option bool :=
  match value with Some (JBool b) => Some b | _ => None end.

(** ** Checking a value *)

(** [number == math.Trunc(number)]. *)
Definition is_whole (m e : Z) : bool := (0 <=? e)%Z || Z.eqb (m mod 2 ^ (- e)) 0.

(** [==] of two numbers. *)
Definition number_eqb (m e m' e' : Z) : bool :=
  if (e <=? e')%Z then Z.eqb m (m' * 2 ^ (e' - e)) else Z.eqb (m * 2 ^ (e - e')) m'.

Definition schemaTypeMatches (typ : string) (value : json) : bool :=
  if String.eqb typ "object" then match value with JObject _ => true | _ => false end
  else if String.eqb typ "array" then match value with JArray _ => true | _ => false end
  else if String.eqb typ "string" then match value with JString _ => true | _ => false end
  else if String.eqb typ "boolean" then match value with JBool _ => true | _ => false end
  else if String.eqb typ "number" then match value with JNumber _ _ => true | _ => false end
  else if String.eqb typ "integer" then match value with JNumber m e => is_whole m e | _ => false end
  else if String.eqb typ "null" then match value with JNull => true | _ => false end
  else true.

(** One candidate of [enumAllows]: an array or an object equals nothing. *)
Definition enum_is (candidate value : json) : bool :=
  match candidate, value with
  | JString a, JString b => String.eqb a b
  | JNumber m e, JNumber m' e' => number_eqb m e m' e'
  | JBool a, JBool b => Bool.eqb a b
  | JNull, JNull => true
  | _, _ => false
  end.

Definition enumAllows (allowed : list json) (value : json) : bool :=
  existsb (fun candidate => enum_is candidate value) allowed.

(** What is wrong with the value at a path, each the [fmt.Errorf] of its line. *)
Inductive schemaError : Type :=
| MustBe (path typ : string)
| MustBeOneOf (path : string) (allowed : list json)
| MustBeObject (path : string)
| IsRequired (path name : string)
| NotAllowed (path name : string).

Definition check_type (typ : option string) (value : json) (path : string) : option schemaError :=
  match typ with
  | Some typ => if schemaTypeMatches typ value then None else Some (MustBe path typ)
  | None => None
  end.

Definition check_enum (allowed : option (list json)) (value : json) (path : string) : option schemaError :=
  match allowed with
  | Some ((_ :: _) as allowed) => if enumAllows allowed value then None else Some (MustBeOneOf path allowed)
  | _ => None
  end.

Fixpoint first_missing (required : list json) (object : list (string * json)) (path : string) : option schemaError :=
  match required with
  | [] => None
  | JString name :: rest =>
    match field name object with
    | Some _ => first_missing rest object path
    | None => Some (IsRequired path name)
    end
  | _ :: rest => first_missing rest object path
  end.

Definition check_required (required : option (list json)) (value : json) (path : string) : option schemaError :=
  match required with
  | None => None
  | Some required =>
    match value with
    | JObject object => first_missing required object path
    | _ => Some (MustBeObject path)
    end
  end.

Fixpoint first_undeclared (object properties : list (string * json)) (path : string) : option schemaError :=
  match object with
  | [] => None
  | (name, _) :: rest =>
    match field name properties with
    | Some _ => first_undeclared rest properties path
    | None => Some (NotAllowed path name)
    end
  end.

Definition check_additional (additional : option bool) (object properties : list (string * json)) (path : string)
    : option schemaError :=
  match additional with
  | Some false => first_undeclared object properties path
  | _ => None
  end.

(** The first check that fails. *)
Definition or_else {A} (first : option A) (second : option A) : option A :=
  match first with Some a => Some a | None => second end.

Definition dotted (path name : string) : string := (path ++ "." ++ name)%string.

(** [validateSchemaValue]. *)
Fixpoint validateSchemaValue (schema : json) (value : json) (path : string) : option schemaError :=
  match schema with
  | JObject members =>
    or_else (check_type (as_string (field "type" members)) value path)
    (or_else (check_enum (as_array (field "enum" members)) value path)
    (or_else (check_required (as_array (field "required" members)) value path)
     match value with
     | JObject object =>
       or_else
         ((fix find_properties (members : list (string * json)) : option schemaError :=
             match members with
             | [] => None
             | (key, inner) :: rest =>
               if String.eqb key "properties" then
                 match inner with
                 | JObject properties =>
                   (fix each (properties : list (string * json)) : option schemaError :=
                      match properties with
                      | [] => None
                      | (name, child) :: rest =>
                        match field name object, child with
                        | Some raw, JObject _ => or_else (validateSchemaValue child raw (dotted path name)) (each rest)
                        | _, _ => each rest
                        end
                      end) properties
                 | _ => None
                 end
               else find_properties rest
             end) members)
         (check_additional (as_bool (field "additionalProperties" members)) object
            (default [] (as_object (field "properties" members))) path)
     | _ => None
     end))
  | _ => None
  end.

(** Why arguments are refused: a schema or arguments that do not parse, or a value. *)
Inductive argumentError : Type :=
| InvalidInputSchema
| InvalidArguments
| BadValue (e : schemaError).

Section checks.
Context `{JsonText}.

(** A schema decodes into a [map[string]any]: [null] is the empty map. *)
Definition schema_object (schema : bytes) : option json :=
  match json_decode schema with
  | Some (JObject fields) => Some (JObject fields)
  | Some JNull => Some (JObject [])
  | _ => None
  end.

Definition validateToolSchema (schema arguments : bytes) : option argumentError :=
  match schema with
  | [] => None
  | _ =>
    match schema_object schema with
    | None => Some InvalidInputSchema
    | Some root =>
      match json_decode arguments with
      | None => Some InvalidArguments
      | Some value => BadValue <$> validateSchemaValue root value "arguments"
      end
    end
  end.

End checks.

(** ** What a schema asks for

    The supported subset as JSON Schema states it, keyword by
    keyword, with [enum], which the code checks too. *)

(** A number has a value, whatever it is written as. *)
Definition number_is (m e z : Z) : Prop := exists k, (0 <= k)%Z /\ (0 <= e + k)%Z /\ (m * 2 ^ (e + k) = z * 2 ^ k)%Z.
Definition same_number (m e m' e' : Z) : Prop :=
  exists k, (0 <= e + k)%Z /\ (0 <= e' + k)%Z /\ (m * 2 ^ (e + k) = m' * 2 ^ (e' + k))%Z.

(** What is of each type; a name that is no type asks for nothing. *)
Inductive of_type : string -> json -> Prop :=
| of_object fields : of_type "object" (JObject fields)
| of_array items : of_type "array" (JArray items)
| of_string s : of_type "string" (JString s)
| of_boolean b : of_type "boolean" (JBool b)
| of_number m e : of_type "number" (JNumber m e)
| of_integer m e z : number_is m e z -> of_type "integer" (JNumber m e)
| of_null : of_type "null" JNull
| of_no_type typ value : typ ∉ ["object"; "array"; "string"; "boolean"; "number"; "integer"; "null"] -> of_type typ value.

(** The values of an [enum] that a value can be; an array or an object is none. *)
Inductive same_value : json -> json -> Prop :=
| same_string s : same_value (JString s) (JString s)
| same_numbers m e m' e' : same_number m e m' e' -> same_value (JNumber m e) (JNumber m' e')
| same_bool b : same_value (JBool b) (JBool b)
| same_null : same_value JNull JNull.

Definition required_present (required : list json) (value : json) : Prop :=
  exists object, value = JObject object /\ forall name, JString name ∈ required -> is_Some (field name object).

Inductive conforms : json -> json -> Prop :=
| Conforms members value :
  (forall typ, as_string (field "type" members) = Some typ -> of_type typ value) ->
  (forall allowed, as_array (field "enum" members) = Some allowed -> allowed <> [] ->
    exists candidate, candidate ∈ allowed /\ same_value candidate value) ->
  (forall required, as_array (field "required" members) = Some required -> required_present required value) ->
  (forall object properties name child raw,
    value = JObject object -> field "properties" members = Some (JObject properties) ->
    (name, child) ∈ properties -> field name object = Some raw ->
    (exists inner, child = JObject inner) -> conforms child raw) ->
  (forall object,
    value = JObject object -> field "additionalProperties" members = Some (JBool false) ->
    forall name raw, (name, raw) ∈ object ->
    is_Some (field name (default [] (as_object (field "properties" members))))) ->
  conforms (JObject members) value.

(** ** The check decides it *)

Lemma or_else_none {A} (a b : option A) : or_else a b = None <-> a = None /\ b = None.
Proof. destruct a; naive_solver. Qed.

Lemma as_bool_some value b : as_bool value = Some b <-> value = Some (JBool b).
Proof. destruct value as [[]|]; naive_solver. Qed.

Lemma is_whole_spec m e : is_whole m e = true <-> exists z, number_is m e z.
Proof.
  unfold is_whole, number_is. rewrite orb_true_iff, Z.leb_le, Z.eqb_eq. split.
  - intros He. destruct (Z.le_gt_cases 0 e) as [H0|H0].
    + exists (m * 2 ^ e)%Z, 0%Z. rewrite Z.add_0_r. lia.
    + destruct He as [He|He]; [lia|]. exists (m / 2 ^ (- e))%Z, (- e)%Z. rewrite Z.add_opp_diag_r. split_and!; [lia|lia|].
      rewrite Z.pow_0_r. pose proof (Z.div_mod m (2 ^ (- e))) as Hd. pose proof (Z.pow_pos_nonneg 2 (- e)). lia.
  - intros (z & k & Hk & Hek & E). destruct (Z.le_gt_cases 0 e) as [H0|H0]; [by left|right].
    assert (m = z * 2 ^ (- e))%Z as ->.
    { replace k with ((e + k) + (- e))%Z in E at 2 by lia. rewrite (Z.pow_add_r 2 (e + k) (- e)) in E by lia.
      apply (Z.mul_reg_r _ _ (2 ^ (e + k))); [pose proof (Z.pow_pos_nonneg 2 (e + k)); lia|]. rewrite E. ring. }
    apply Z.mod_mul. pose proof (Z.pow_pos_nonneg 2 (- e)). lia.
Qed.

Lemma number_eqb_spec m e m' e' : number_eqb m e m' e' = true <-> same_number m e m' e'.
Proof.
  assert (forall a x b y k, (x <= y)%Z -> (0 <= x + k)%Z -> a * 2 ^ (x + k) = b * 2 ^ (y + k) <-> a = b * 2 ^ (y - x))%Z as Hone.
  { intros a x b y k Hle Hk. replace (y + k)%Z with ((y - x) + (x + k))%Z by lia. rewrite (Z.pow_add_r 2 (y - x) (x + k)), Z.mul_assoc by lia.
    apply Z.mul_cancel_r. pose proof (Z.pow_pos_nonneg 2 (x + k)). lia. }
  unfold number_eqb, same_number. destruct (Z.leb_spec e e') as [Hle|Hlt]; rewrite Z.eqb_eq.
  - split; [intros E; exists (- e)%Z; split_and!; [lia|lia|]; by apply Hone; [lia|lia|]|].
    intros (k & Hk & _ & E). by apply (Hone _ _ _ _ k).
  - split; [intros E; exists (- e')%Z; split_and!; [lia|lia|]; symmetry; apply Hone; [lia|lia|done]|].
    intros (k & _ & Hk & E). symmetry. apply (Hone _ _ _ _ k); [lia|done|done].
Qed.

Lemma schemaTypeMatches_spec typ value : schemaTypeMatches typ value = true <-> of_type typ value.
Proof.
  unfold schemaTypeMatches. split.
  - repeat match goal with |- context [String.eqb typ ?name] => destruct (String.eqb_spec typ name) as [->|] end;
      [destruct value; try done; by constructor..| | |].
    + destruct value; try done. intros [z Hz]%is_whole_spec. by econstructor.
    + destruct value; try done. constructor.
    + intros _. constructor. rewrite !elem_of_cons, elem_of_nil. tauto.
  - destruct 1 as [| | | | |m e z Hz| |typ value Hn]; try done; cbn; [apply is_whole_spec; eauto|].
    rewrite !not_elem_of_cons in Hn. destruct_and?.
    repeat match goal with Hne : typ <> ?name |- _ => rewrite (proj2 (String.eqb_neq _ _) Hne); clear Hne end. done.
Qed.

Lemma enum_is_spec candidate value : enum_is candidate value = true <-> same_value candidate value.
Proof.
  split.
  - destruct candidate, value; try done; cbn; [by constructor|intros ->%Bool.eqb_prop|intros ?%number_eqb_spec|intros ->%String.eqb_eq]; by constructor.
  - destruct 1 as [s|m e m' e' Hs|b|]; cbn; [apply String.eqb_refl|by apply number_eqb_spec|by destruct b|done].
Qed.

Lemma check_type_none typ value path :
  check_type typ value path = None <-> forall t, typ = Some t -> of_type t value.
Proof.
  destruct typ as [t|]; cbn [check_type]; [|done]. setoid_rewrite <- schemaTypeMatches_spec.
  destruct (schemaTypeMatches t value) eqn:E; split; [by intros _ ? [= <-]|done|done|].
  intros Ht. specialize (Ht t eq_refl). congruence.
Qed.

Lemma check_enum_none allowed value path :
  check_enum allowed value path = None <->
  forall a, allowed = Some a -> a <> [] -> exists c, c ∈ a /\ same_value c value.
Proof.
  setoid_rewrite <- enum_is_spec.
  destruct allowed as [[|c rest]|]; cbn [check_enum]; [split; [intros _ a [= <-] Hn; by destruct Hn|done]| |split; [intros _ a [=]|done]].
  destruct (enumAllows (c :: rest) value) eqn:E.
  - apply existsb_exists in E as (d & Hd & Ed). rewrite <- list_elem_of_In in Hd.
    split; [intros _ a [= <-] _; by exists d|done].
  - split; [done|]. intros Ha. destruct (Ha _ eq_refl) as (d & Hd & Ed); [done|].
    exfalso. apply Bool.not_true_iff_false in E. apply E, existsb_exists. exists d. by rewrite <- list_elem_of_In.
Qed.

Lemma first_missing_none required object path :
  first_missing required object path = None <-> forall name, JString name ∈ required -> is_Some (field name object).
Proof.
  induction required as [|r rest IH]; cbn [first_missing]; [split; [intros _ name Hn; inversion Hn|done]|].
  destruct r; try (rewrite IH; setoid_rewrite elem_of_cons; naive_solver).
  destruct (field s object) eqn:E; [rewrite IH|]; setoid_rewrite elem_of_cons; [|split; [done|intros Hn]].
  - split; [intros Hr name [[= ->]|?]; [by rewrite E|by apply Hr]|naive_solver].
  - destruct (Hn s) as [? Hs]; [by left|congruence].
Qed.

Lemma check_required_none required value path :
  check_required required value path = None <-> forall r, required = Some r -> required_present r value.
Proof.
  destruct required as [r|]; cbn [check_required]; [|by split].
  destruct value; try (split; [done|intros Hr; destruct (Hr r eq_refl) as (? & ? & ?); done]).
  rewrite first_missing_none. split; [intros Hr r' [= <-]; by eexists|].
  intros Hr. by destruct (Hr r eq_refl) as (? & [= <-] & ?).
Qed.

Lemma first_undeclared_none object properties path :
  first_undeclared object properties path = None <->
  forall name raw, (name, raw) ∈ object -> is_Some (field name properties).
Proof.
  induction object as [|[n v] rest IH]; cbn [first_undeclared]; [split; [intros _ ?? Hn; inversion Hn|done]|].
  destruct (field n properties) eqn:E.
  - rewrite IH. setoid_rewrite elem_of_cons. split; [intros Hr name raw [[= -> ->]|?]; [by rewrite E|eauto]|naive_solver].
  - split; [done|]. intros Hn. destruct (Hn n v) as [? Hs]; [by left|congruence].
Qed.

Lemma check_additional_none additional object properties path :
  check_additional additional object properties path = None <->
  (additional = Some false -> forall name raw, (name, raw) ∈ object -> is_Some (field name properties)).
Proof. destruct additional as [[]|]; cbn [check_additional]; rewrite ?first_undeclared_none; split; intros Ha; try done; by apply Ha. Qed.

(** The loop over the declared members, on its own. *)
Fixpoint each_property (object : list (string * json)) (path : string) (properties : list (string * json)) : option schemaError :=
  match properties with
  | [] => None
  | (name, child) :: rest =>
    match field name object, child with
    | Some raw, JObject _ => or_else (validateSchemaValue child raw (dotted path name)) (each_property object path rest)
    | _, _ => each_property object path rest
    end
  end.

Lemma validateSchemaValue_object members value path :
  validateSchemaValue (JObject members) value path =
    or_else (check_type (as_string (field "type" members)) value path)
    (or_else (check_enum (as_array (field "enum" members)) value path)
    (or_else (check_required (as_array (field "required" members)) value path)
     match value with
     | JObject object =>
       or_else (each_property object path (default [] (as_object (field "properties" members))))
         (check_additional (as_bool (field "additionalProperties" members)) object
            (default [] (as_object (field "properties" members))) path)
     | _ => None
     end)).
Proof.
  cbn [validateSchemaValue]. do 3 f_equal. destruct value as [| | | | |object]; try done. f_equal.
  generalize members. intros ms. induction ms as [|[key inner] rest IH]; [done|].
  cbn [field]. destruct (String.eqb key "properties"); [|exact IH].
  destruct inner as [| | | | |properties]; try done. change (default [] (as_object (Some (JObject properties)))) with properties.
  induction properties as [|[name child] ps IHp]; [done|]. cbn [each_property].
  destruct (field name object); [|exact IHp]. destruct child; try exact IHp. by rewrite IHp.
Qed.

Lemma each_property_none object path properties :
  each_property object path properties = None <->
  forall name child raw, (name, child) ∈ properties -> field name object = Some raw ->
    (exists inner, child = JObject inner) -> validateSchemaValue child raw (dotted path name) = None.
Proof.
  induction properties as [|[n c] rest IH]; [split; [intros _ ??? Hn; inversion Hn|done]|].
  cbn [each_property]. destruct (field n object) as [raw|] eqn:E.
  - destruct c; try (rewrite IH; setoid_rewrite elem_of_cons; naive_solver).
    rewrite or_else_none, IH. setoid_rewrite elem_of_cons. naive_solver.
  - rewrite IH. setoid_rewrite elem_of_cons. naive_solver.
Qed.

(** Induction over the objects of a schema and the properties they declare. *)
Lemma schema_ind (P : json -> Prop) :
  (forall members,
    (forall properties name child, field "properties" members = Some (JObject properties) ->
       (name, child) ∈ properties -> P child) -> P (JObject members)) ->
  (forall schema, (forall members, schema <> JObject members) -> P schema) ->
  forall schema, P schema.
Proof.
  intros Hobject Hother. fix rec 1. intros schema. destruct schema as [| | | | |members]; try (apply Hother; discriminate).
  apply Hobject. induction members as [|[key inner] rest IH]; [discriminate|]. cbn [field].
  destruct (String.eqb key "properties"); [|exact IH].
  destruct inner as [| | | | |properties]; try discriminate.
  assert (Forall (fun property => P property.2) properties) as Hps.
  { clear -rec. induction properties as [|[n c] more IHp]; constructor; [apply rec|exact IHp]. }
  intros ps name child [= <-] Hin. exact (proj1 (list.Forall_forall _ _) Hps (name, child) Hin).
Qed.

Lemma conforms_object members value :
  conforms (JObject members) value <->
  (forall typ, as_string (field "type" members) = Some typ -> of_type typ value) /\
  (forall allowed, as_array (field "enum" members) = Some allowed -> allowed <> [] ->
    exists candidate, candidate ∈ allowed /\ same_value candidate value) /\
  (forall required, as_array (field "required" members) = Some required -> required_present required value) /\
  (forall object properties name child raw,
    value = JObject object -> field "properties" members = Some (JObject properties) ->
    (name, child) ∈ properties -> field name object = Some raw ->
    (exists inner, child = JObject inner) -> conforms child raw) /\
  (forall object,
    value = JObject object -> field "additionalProperties" members = Some (JBool false) ->
    forall name raw, (name, raw) ∈ object ->
    is_Some (field name (default [] (as_object (field "properties" members))))).
Proof. split; [inversion 1; subst; repeat (split; [done|]); done|intros (? & ? & ? & ? & ?); by constructor]. Qed.

Lemma checks_value schema : (exists members, schema = JObject members) ->
  forall value path, validateSchemaValue schema value path = None <-> conforms schema value.
Proof.
  induction schema as [members IH|schema Hn] using schema_ind; [|intros [? ->]; by destruct (Hn x)].
  intros _ value path. rewrite validateSchemaValue_object, conforms_object, !or_else_none,
    check_type_none, check_enum_none, check_required_none.
  do 3 (apply and_iff_compat_l). destruct value as [| | | | |object]; try (split; [intros _; split; discriminate|done]).
  rewrite or_else_none, each_property_none, check_additional_none. apply Morphisms_Prop.and_iff_morphism.
  - split.
    + intros He o ps name child raw [= <-] Hps Hin Hraw [inner ->].
      apply (IH ps name (JObject inner) Hps Hin ltac:(by eexists) raw (dotted path name)).
      apply (He name _ raw); [by rewrite Hps|done|by eexists].
    + intros Hc name child raw Hin Hraw Hinner.
      destruct (field "properties" members) as [[| | | | |ps]|] eqn:Hps; try by inversion Hin.
      apply (IH ps name child eq_refl Hin Hinner). by eapply Hc.
  - rewrite as_bool_some. split; [by intros Ha o [= <-]|by intros Ha; apply Ha].
Qed.

Section checked.
Context `{JsonText}.

(** C38: The check of a Tool call's arguments is exact: it passes arguments when they parse and
    their value is what the Tool's schema asks for, at every
    depth, by the keywords [type], [properties], [required] and [additionalProperties], and by [enum], which
    the comment of [validateToolSchema] says is not enforced; it refuses every other arguments, and a schema
    that is not an object refuses all.  A Tool without a schema takes any arguments, also what is no JSON. *)
Theorem arguments_checked_exactly schema arguments :
  validateToolSchema schema arguments = None <->
  schema = [] \/
  exists root value, schema_object schema = Some root /\ json_decode arguments = Some value /\ conforms root value.
Proof.
  unfold validateToolSchema. destruct schema as [|c rest]; [by split; [left|]|].
  destruct (schema_object (c :: rest)) as [root|] eqn:Er; [|naive_solver].
  destruct (json_decode arguments) as [value|] eqn:Ev; [|naive_solver].
  rewrite fmap_None, checks_value.
  - split; [intros Hc; right; by exists root, value|]. by intros [|(? & ? & [= <-] & [= <-] & ?)].
  - unfold schema_object in Er. destruct (json_decode (c :: rest)) as [[]|]; try discriminate; injection Er as <-; by eexists.
Qed.

End checked.

(** A call to a Tool that asks for a path among two, and takes nothing else. *)
Definition sample_schema : json :=
  JObject [("type", JString "object");
           ("properties", JObject [("path", JObject [("type", JString "string"); ("enum", JArray [JString "a"; JString "b"])])]);
           ("required", JArray [JString "path"]); ("additionalProperties", JBool false)].

Definition sample_decode : JsonText := fun text =>
  if bool_decide (text = bytes_of "schema") then Some sample_schema
  else if bool_decide (text = bytes_of "a") then Some (JObject [("path", JString "a")])
  else if bool_decide (text = bytes_of "c") then Some (JObject [("path", JString "c")])
  else None.

Example sample_refused :
  @validateToolSchema sample_decode (bytes_of "schema") (bytes_of "c") =
  Some (BadValue (MustBeOneOf "arguments.path" [JString "a"; JString "b"])).
Proof. reflexivity. Qed.

(** Half of two is a whole number, and half of one is none. *)
Example sample_integers : schemaTypeMatches "integer" (JNumber 2 (-1)) = true /\ schemaTypeMatches "integer" (JNumber 1 (-1)) = false.
Proof. by vm_compute. Qed.

Lemma arguments_checked_exactly_witness :
  bytes_of "schema" = [] \/
  exists root value, @schema_object sample_decode (bytes_of "schema") = Some root /\
    json_decode (JsonText := sample_decode) (bytes_of "a") = Some value /\ conforms root value.
Proof.
  apply (@arguments_checked_exactly sample_decode (bytes_of "schema") (bytes_of "a")). reflexivity.
Defined.
