(* ===== verification/ToolRegistry.v ===== *)
(** * The Tools of a Session

    [gotato/toolregistry.go], with what it uses of [gotato/tool.go], [gotato/toolset.go],
    [gotato/toolschema.go] and [gotato/toolsearch.go]: which Tools a Session holds, which of
    them the Model is shown, and what a name the Model calls resolves to.  Every method runs
    under the registry's lock, so each is one step.  A Tool is a handle; what its [Spec]
    answers is read once, as it enters ([intake]).  A [*toolSetState] is its place in the
    list of ToolSets, which [newToolRegistry] fixes. *)

From stdpp Require Import pretty.
From S2P Require Import Prelude GoStrings Text Errors Types Request Schema.
Local Open Scope string_scope.
Local Open Scope list_scope.

#[export] Instance eta_ToolSpec : Eta ToolSpec := fun r =>
  MkToolSpec (ts_ID r) (ts_Name r) (ts_Description r) (ts_InputSchema r) (ts_OutputSchema r)
    (ts_Sequential r) (ts_Metadata r) (ts_Effect r).

(** ** Effects *)

Abbreviation ToolEffect := string (only parsing).
Definition ToolEffectUnspecified : ToolEffect := "".
Definition ToolEffectRead : ToolEffect := "read".
Definition ToolEffectWriteLocal : ToolEffect := "write_local".
Definition ToolEffectWriteExternal : ToolEffect := "write_external".
Definition ToolEffectDestructive : ToolEffect := "destructive".

Definition rank (e : ToolEffect) : nat :=
  if String.eqb e ToolEffectRead then 1
  else if String.eqb e ToolEffectWriteLocal then 2
  else if String.eqb e ToolEffectWriteExternal then 3
  else 4.

Definition Within (e ceiling : ToolEffect) : bool := (rank e <=? rank ceiling)%nat.

Definition Valid (e : ToolEffect) : bool :=
  String.eqb e ToolEffectUnspecified || String.eqb e ToolEffectRead || String.eqb e ToolEffectWriteLocal
  || String.eqb e ToolEffectWriteExternal || String.eqb e ToolEffectDestructive.

(** ** Data *)

Definition SearchToolName : string := "search_tools".

(** A host's Tool, or the Tool that searches the catalog. *)
Inductive Tool : Type :=
| HostTool (handle : nat)
| searchTool.
#[export] Instance Tool_eq_dec : EqDecision Tool.
Proof. solve_decision. Defined.

Record toolEntry := MkEntry { te_tool : Tool; te_spec : ToolSpec }.

(** The [ToolSet] itself is asked by its place. *)
Record ToolSetSpec := MkSetSpec { tss_Name : string; tss_Description : string }.
#[export] Instance eta_ToolSetSpec : Eta ToolSetSpec := fun r => MkSetSpec (tss_Name r) (tss_Description r).

Inductive installMode : Type := modeListed | modeFolded | modeActive.
#[export] Instance installMode_eq_dec : EqDecision installMode.
Proof. solve_decision. Defined.

Record toolSetState := MkSetState {
  tst_spec : ToolSetSpec;
  tst_mode : installMode;
  tst_resolved : list toolEntry;
  tst_failure : option error;
}.
#[export] Instance eta_toolSetState : Eta toolSetState := fun r =>
  MkSetState (tst_spec r) (tst_mode r) (tst_resolved r) (tst_failure r).

Record catalogTool := MkCatalogTool { ct_id : string; ct_tool : Tool; ct_spec : ToolSpec; ct_set : nat }.

(** [tr_filter] says a filter is installed; what it answered is [tr_kept]. *)
Record toolRegistry := MkRegistry {
  tr_rootTools : list toolEntry;
  tr_sourceTools : list toolEntry;
  tr_sets : list toolSetState;
  tr_catalog : list catalogTool;
  tr_byQualified : gmap string toolEntry;
  tr_specs : list ToolSpec;
  tr_loaded : list string;
  tr_parked : list string;
  tr_fresh : bool;
  tr_filter : bool;
  tr_kept : gmap string bool;
  tr_maxEffect : ToolEffect;
  tr_description : string;
}.
#[export] Instance eta_toolRegistry : Eta toolRegistry := fun r =>
  MkRegistry (tr_rootTools r) (tr_sourceTools r) (tr_sets r) (tr_catalog r) (tr_byQualified r) (tr_specs r)
    (tr_loaded r) (tr_parked r) (tr_fresh r) (tr_filter r) (tr_kept r) (tr_maxEffect r) (tr_description r).

(** ** Names *)

(** [qualify]. *)
Definition qualify (namespace local : string) : string :=
  if String.eqb namespace "" then local else (namespace ++ "." ++ local)%string.

Fixpoint before_dot (id : string) : string :=
  match id with
  | "" => ""
  | String c rest => if Ascii.eqb c "."%char then "" else String c (before_dot rest)
  end.

Fixpoint has_dot (id : string) : bool :=
  match id with
  | "" => false
  | String c rest => Ascii.eqb c "."%char || has_dot rest
  end.

(** [strings.HasPrefix(name, set+".")]. *)
Definition under (set name : string) : bool := String.prefix (set ++ ".") name.

Definition setNamed (r : toolRegistry) (name : string) : option toolSetState :=
  snd <$> list_find (fun state => tss_Name (tst_spec state) = name) (tr_sets r).

Definition trimmed (s : string) : string := string_of (trim_space (bytes_of s)).

(** ** Taking Tools in *)

Section intake.
Context `{JsonText}.

Definition bad_spec (message : text error) : error := RuntimeErr (runtimeError CodeInvalidArgument "ToolSpec" message None).

(** [validateToolSpec]; what the JSON decoder says of a schema stays in the cause. *)
Definition validateToolSpec (spec : ToolSpec) : option error :=
  if String.eqb (trimmed (ts_ID spec)) "" then Some (bad_spec (plain_text "Tool ID is empty"))
  else if negb (Valid (ts_Effect spec)) then Some (bad_spec (Text "unknown Effect %s" [FStr (ts_Effect spec)]))
  else
    match ts_InputSchema spec with
    | [] => None
    | schema =>
      match json_decode schema with
      | Some (JObject _) => None
      | Some JNull => Some (bad_spec (plain_text "InputSchema must be an object"))
      | _ => Some (bad_spec (plain_text "invalid InputSchema"))
      end
    end.

(** A Tool as its source gives it: its handle, and the Spec it answers, unless its [Spec]
    panics or the Tool is nil. *)
Definition supplied := (nat * option ToolSpec)%type.

Definition spec_panic : error := ForeignErr (MkForeign "Tool.Spec panic" (Some "Tool.Spec panic") None None None).

(** [intake]. *)
Fixpoint intake_from (what : string) (tools : list supplied) (taken : gset string)
    (check : ToolSpec -> option error) (entries : list toolEntry) : outcome (list toolEntry) :=
  match tools with
  | [] => Ok entries
  | (_, None) :: _ => Err (RuntimeErr (runtimeError CodeInvalidArgument what (plain_text "Tool.Spec panic") (Some spec_panic)))
  | (tool, Some spec) :: rest =>
    match validateToolSpec spec with
    | Some err => Err err
    | None =>
      match check spec with
      | Some err => Err err
      | None =>
        if decide (ts_ID spec ∈ taken) then
          Err (RuntimeErr (runtimeError CodeInvalidArgument what
            (Text "%s has a duplicate Tool ID: %s" [FStr what; FStr (ts_ID spec)]) None))
        else intake_from what rest ({[ts_ID spec]} ∪ taken) check (entries ++ [MkEntry (HostTool tool) spec])
      end
    end
  end.

Definition intake (what : string) (tools : list supplied) (held : list toolEntry) (check : ToolSpec -> option error)
    : outcome (list toolEntry) :=
  intake_from what tools (list_to_set (ts_ID ∘ te_spec <$> held)) check [].

Definition no_check (spec : ToolSpec) : option error := None.

Definition bad_name (message : text error) : error := RuntimeErr (runtimeError CodeInvalidArgument "Tool" message None).

(** [rootName]: for the ID, then for the Name. *)
Definition refused_name (r : toolRegistry) (name : string) : option error :=
  if String.eqb name SearchToolName then Some (bad_name (Text "Tool name %s is reserved" [FStr SearchToolName]))
  else
    match list_find (fun state => under (tss_Name (tst_spec state)) name = true) (tr_sets r) with
    | Some (_, state) =>
      Some (bad_name (Text "Tool name %s is in the namespace of ToolSet %s" [FStr name; FStr (tss_Name (tst_spec state))]))
    | None => None
    end.

Definition rootName (r : toolRegistry) (spec : ToolSpec) : option error :=
  match refused_name r (ts_ID spec) with
  | Some err => Some err
  | None => refused_name r (ts_Name spec)
  end.

(** [collectSources], once every ToolSource has answered: [supplied] in the order of the
    sources, or the first failure.  [ctx] is what the caller's context reports. *)
Definition collectSources (ctx : option error) (answers : list (outcome (list supplied))) (r : toolRegistry)
    : outcome (list toolEntry) :=
  match list_find (fun a => is_ok a = false) answers with
  | Some (_, Err err) =>
    match contextFailure ctx "ToolSource" with
    | Some failure => Err (RuntimeErr failure)
    | None =>
      Err (RuntimeErr (runtimeError CodeToolResolutionFailure "ToolSource"
        (plain_text (PublicText err "ToolSource failed")) (Some err)))
    end
  | _ =>
    intake "ToolSource" (answers ≫= fun a => match a with Ok tools => tools | Err _ => [] end)
      (tr_rootTools r) (rootName r)
  end.

(** [resolveToolSet], of what the ToolSet answered. *)
Definition resolveToolSet (state : toolSetState) (answer : outcome (list supplied)) : outcome (list toolEntry) :=
  match answer with
  | Err err =>
    Err (RuntimeErr (runtimeError CodeToolResolutionFailure "ToolSet"
      (plain_text (PublicText err ("cannot resolve ToolSet " ++ tss_Name (tst_spec state))%string)) (Some err)))
  | Ok tools => intake ("ToolSet " ++ tss_Name (tst_spec state))%string tools [] no_check
  end.

(** [resolveAll], once every ToolSet has answered, each by its place: one result for each, in install order,
    and none for the first Run, which uses what [NewSession] resolved. *)
Definition resolveAll (ctx : option error) (answers : nat -> outcome (list supplied)) (r : toolRegistry)
    : toolRegistry * outcome (option (list (outcome (list toolEntry)))) :=
  if tr_fresh r then (r <| tr_fresh := false |>, Ok None)
  else
    match ctx with
    | Some err =>
      (r, Err (RuntimeErr (runtimeError (codeForContext err) "ToolSet"
            (plain_text "context ended while resolving ToolSets") (Some err))))
    | None => (r, Ok (Some (imap (fun i state => resolveToolSet state (answers i)) (tr_sets r))))
    end.

End intake.

(** ** The catalog *)

Definition shown_name (spec : ToolSpec) : string := if String.eqb (ts_Name spec) "" then ts_ID spec else ts_Name spec.

(** The Spec the Model sees: the qualified ID, and a Name that is never empty. *)
Definition visible_spec (qualified : string) (spec : ToolSpec) : ToolSpec :=
  spec <| ts_ID := qualified |> <| ts_Name := shown_name spec |>.

Definition catalog_le (a b : catalogTool) : Prop := String.le (ct_id a) (ct_id b).
#[export] Instance catalog_le_dec a b : Decision (catalog_le a b) := _.

Definition catalog_of_set (i : nat) (state : toolSetState) : list catalogTool :=
  (fun entry =>
     let id := qualify (tss_Name (tst_spec state)) (ts_ID (te_spec entry)) in
     MkCatalogTool id (te_tool entry) (visible_spec id (te_spec entry)) i) <$> tst_resolved state.

Definition catalog_of (sets : list toolSetState) : list catalogTool :=
  merge_sort catalog_le (mjoin (imap catalog_of_set sets)).

Definition settle_set (state : toolSetState) (result : outcome (list toolEntry)) : toolSetState :=
  match result with
  | Ok tools => state <| tst_resolved := tools |> <| tst_failure := None |>
  | Err err => state <| tst_resolved := [] |> <| tst_failure := Some err |>
  end.

(** [install]. *)
Definition install (results : list (outcome (list toolEntry))) (r : toolRegistry) : toolRegistry :=
  let sets := zip_with settle_set (tr_sets r) results in
  r <| tr_sets := sets |> <| tr_catalog := catalog_of sets |>.

(** [r.byCatalog[id]]: two catalog Tools never share an ID. *)
Definition byCatalog (r : toolRegistry) (id : string) : option catalogTool :=
  snd <$> list_find (fun entry => ct_id entry = id) (tr_catalog r).

Definition set_of (r : toolRegistry) (entry : catalogTool) : option toolSetState := tr_sets r !! ct_set entry.

Definition active (r : toolRegistry) (entry : catalogTool) : bool :=
  match set_of r entry with Some state => bool_decide (tst_mode state = modeActive) | None => false end.

(** [catalogIDs]. *)
Definition result_ids (state : toolSetState) (result : outcome (list toolEntry)) : list string :=
  match result with
  | Ok tools => qualify (tss_Name (tst_spec state)) ∘ ts_ID ∘ te_spec <$> tools
  | Err _ => []
  end.

Definition catalogIDs (results : option (list (outcome (list toolEntry)))) (r : toolRegistry) : list string :=
  match results with
  | None => ct_id <$> tr_catalog r
  | Some results => mjoin (zip_with result_ids (tr_sets r) results)
  end.

(** [screen]: [answers] is what the filter says of an ID, and [panicked] what it panics with. *)
Definition screen (answers : string -> bool) (panicked : option error) (ids : list string) (r : toolRegistry)
    : outcome (gmap string bool) :=
  if negb (tr_filter r) then Ok ∅
  else
    match panicked with
    | Some err =>
      Err (RuntimeErr (runtimeError CodeExtensionFailure "WithToolFilter"
        (plain_text (PublicText err "WithToolFilter failed")) (Some err)))
    | None => Ok (foldl (fun kept id => <[id := answers id]> kept) ∅ ids)
    end.

Definition refused (r : toolRegistry) (id : string) : bool := tr_filter r && negb (default false (tr_kept r !! id)).

Definition hidden (r : toolRegistry) (spec : ToolSpec) : bool :=
  negb (String.eqb (tr_maxEffect r) ToolEffectUnspecified) && negb (Within (ts_Effect spec) (tr_maxEffect r)).

Definition indexable (r : toolRegistry) (entry : catalogTool) : bool :=
  negb (hidden r (ct_spec entry)) && negb (refused r (ct_id entry)).

(** [staticTools]. *)
Definition staticTools (r : toolRegistry) : list toolEntry := tr_rootTools r ++ tr_sourceTools r.

(** ** What search_tools says of the catalog *)

Definition nat_text (n : nat) : string := pretty (N.of_nat n).

Definition catalog_ids_of (r : toolRegistry) (i : nat) : list string :=
  ct_id <$> filter (fun entry => ct_set entry = i /\ indexable r entry = true) (tr_catalog r).

(** [%q] of a ToolSet's name is a parameter: it quotes and escapes. *)
Definition catalog_line (quoted : string -> string) (r : toolRegistry) (i : nat) (state : toolSetState) : string :=
  let ids := catalog_ids_of r i in
  let unavailable := bool_decide (is_Some (tst_failure state)) in
  if bool_decide (tst_mode state = modeActive) || (bool_decide (ids = []) && negb unavailable) then ""
  else
    let description := trimmed (tss_Description (tst_spec state)) in
    (nl ++ tss_Name (tst_spec state) ++ (if String.eqb description "" then "" else " — " ++ description)
     ++ (if unavailable then " (unavailable now; no tools)" ++ nl
         else if bool_decide (tst_mode state = modeFolded)
              then " (" ++ nat_text (length ids) ++ " tools; pass toolset=" ++ quoted (tss_Name (tst_spec state)) ++ " to list them)" ++ nl
              else nl ++ "  " ++ join ", " ids ++ nl))%string.

Definition catalogText (quoted : string -> string) (r : toolRegistry) : string :=
  ("Load tools before you call them. Pass names to load tools exactly, queries to search, or toolset to list a folded ToolSet." ++ nl
   ++ join "" (imap (catalog_line quoted r) (tr_sets r)))%string.

(** ** What the Model sees *)

Section registry.
Context (quoted : string -> string).

(** [searchTool.Spec]; a double quote of the schema's JSON is written as a single one. *)
Definition json_quotes (s : string) : bytes := (fun c => if Ascii.eqb c "'"%char then quote else c) <$> bytes_of s.

Definition search_schema : bytes := json_quotes
  ("{'additionalProperties':false,'properties':{'names':{'description':'Qualified tool names to load exactly.','items':{'type':'string'},'type':'array'},"
   ++ "'queries':{'description':'Searches that load the best matching tools.','items':{'type':'string'},'type':'array'},"
   ++ "'toolset':{'description':'A ToolSet whose tools to list without loading any.','type':'string'}},'type':'object'}")%string.

Definition search_spec (description : string) : ToolSpec :=
  MkToolSpec SearchToolName SearchToolName description search_schema [] true ∅ ToolEffectRead.

Definition register (qualified : string) (tool : Tool) (spec : ToolSpec) (acc : gmap string toolEntry * list ToolSpec)
    : gmap string toolEntry * list ToolSpec :=
  let visible := visible_spec qualified spec in
  (<[qualified := MkEntry tool visible]> acc.1, acc.2 ++ [visible]).

Definition register_static (r : toolRegistry) (acc : gmap string toolEntry * list ToolSpec) (entry : toolEntry) :=
  if hidden r (te_spec entry) then acc else register (ts_ID (te_spec entry)) (te_tool entry) (te_spec entry) acc.

(** Whether a catalog Tool is offered: always when its ToolSet is installed active, and
    otherwise once it is loaded. *)
Definition offered (r : toolRegistry) (entry : catalogTool) : bool :=
  if active r entry then negb (hidden r (ct_spec entry) || refused r (ct_id entry))
  else indexable r entry && bool_decide (ct_id entry ∈ tr_loaded r).

Definition register_catalog (r : toolRegistry) (acc : gmap string toolEntry * list ToolSpec) (entry : catalogTool) :=
  if offered r entry then register (ct_id entry) (ct_tool entry) (ct_spec entry) acc else acc.

Definition hasCatalog (r : toolRegistry) : bool :=
  existsb (fun state => negb (bool_decide (tst_mode state = modeActive))) (tr_sets r).

(** A bare name reaches a static Tool when no Tool has taken it. *)
Definition alias (entry : toolEntry) (names : gmap string toolEntry) (name : string) : gmap string toolEntry :=
  if String.eqb name "" then names
  else match names !! name with Some _ => names | None => <[name := entry]> names end.

Definition add_aliases (r : toolRegistry) (names : gmap string toolEntry) (entry : toolEntry) : gmap string toolEntry :=
  if hidden r (te_spec entry) then names
  else alias entry (alias entry names (ts_ID (te_spec entry))) (ts_Name (te_spec entry)).

(** [rebuild]. *)
Definition rebuild (r : toolRegistry) : toolRegistry :=
  let acc := foldl (register_static r) (∅, []) (staticTools r) in
  let acc := foldl (register_catalog r) acc (tr_catalog r) in
  let description := if hasCatalog r then catalogText quoted r else tr_description r in
  let acc := if hasCatalog r then register SearchToolName searchTool (search_spec description) acc else acc in
  r <| tr_description := description |>
    <| tr_byQualified := foldl (add_aliases r) acc.1 (staticTools r) |>
    <| tr_specs := merge_sort tool_le acc.2 |>.

(** [lookup] and [visibleSpecs]. *)
Definition lookup_tool (r : toolRegistry) (id : string) : option toolEntry := tr_byQualified r !! id.
Definition visibleSpecs (r : toolRegistry) : list ToolSpec := tr_specs r.

(** ** Loading *)

Inductive loadStatus : Type := loadOK | loadAlready | loadUnavailable | loadNotFound.
#[local] Instance loadStatus_eq_dec : EqDecision loadStatus.
Proof. solve_decision. Defined.

(** [unavailableSet]. *)
Definition unavailableSet (r : toolRegistry) (id : string) : string :=
  if has_dot id then
    match setNamed r (before_dot id) with
    | Some state => match tst_failure state with Some _ => before_dot id | None => "" end
    | None => ""
    end
  else "".

(** [loadable]. *)
Definition loadable (r : toolRegistry) (id : string) : loadStatus :=
  match tr_byQualified r !! id with
  | Some _ => loadAlready
  | None =>
    match byCatalog r id with
    | None => if String.eqb (unavailableSet r id) "" then loadNotFound else loadUnavailable
    | Some entry =>
      if negb (indexable r entry) then loadNotFound
      else if active r entry || bool_decide (id ∈ tr_loaded r) then loadAlready
      else loadOK
    end
  end.

(** [load]. *)
Definition load (id : string) (r : toolRegistry) : toolRegistry * bool :=
  match loadable r id with
  | loadOK => (rebuild (r <| tr_loaded := tr_loaded r ++ [id] |>), true)
  | _ => (r, false)
  end.

(** [known]: in order, each once. *)
Definition knows (r : toolRegistry) (id : string) : bool :=
  match byCatalog r id with Some entry => negb (active r entry) | None => false end.

Definition known (r : toolRegistry) (ids : list string) : list string :=
  foldl (fun out id => if knows r id && negb (bool_decide (id ∈ out)) then out ++ [id] else out) [] ids.

(** [syncLoaded]. *)
Definition syncLoaded (ids : list string) (r : toolRegistry) : toolRegistry :=
  let next := known r ids in
  if bool_decide (next = tr_loaded r) then r else rebuild (r <| tr_loaded := next |>).

(** ** The start of a Run *)

Record setReport := MkReport { rp_unavailable : list string; rp_gone : list string }.

Definition add_once (id : string) (ids : list string) : list string := if decide (id ∈ ids) then ids else ids ++ [id].

(** One loaded ID against what its ToolSet answered. *)
Definition settle_loaded (r : toolRegistry) (acc : list string * list string) (id : string) : list string * list string :=
  match setNamed r (before_dot id) with
  | None => acc
  | Some state =>
    if bool_decide (tst_mode state = modeActive) then acc
    else
      match tst_failure state, byCatalog r id with
      | Some _, _ => (add_once id acc.1, acc.2)
      | None, None => (acc.1, add_once id acc.2)
      | None, Some _ => acc
      end
  end.

(** [apply]. *)
Definition apply_sets (results : option (list (outcome (list toolEntry)))) (kept : gmap string bool)
    (recorded : option (list string)) (r : toolRegistry) : toolRegistry * setReport :=
  let r := r <| tr_kept := kept |> in
  let r := match results with Some results => install results r | None => r end in
  let ids := match recorded with Some ids => ids | None => tr_loaded r ++ tr_parked r end in
  let (parked, gone) := foldl (settle_loaded r) ([], []) ids in
  let unavailable :=
    (fun state => tss_Name (tst_spec state)) <$> filter (fun state => is_Some (tst_failure state)) (tr_sets r) in
  (rebuild (r <| tr_loaded := known r ids |> <| tr_parked := parked |>), MkReport unavailable gone).

(** [refreshSources]. *)
Definition refreshSources (entries : list toolEntry) (kept : gmap string bool) (r : toolRegistry) : toolRegistry :=
  rebuild (r <| tr_sourceTools := entries |> <| tr_kept := kept |>).

(** ** Reading the catalog *)

(** [candidates]. *)
Definition candidate (r : toolRegistry) (entry : catalogTool) : Prop :=
  active r entry = false /\ indexable r entry = true /\ ct_id entry ∉ tr_loaded r.
#[local] Instance candidate_dec r entry : Decision (candidate r entry) := _.

Definition candidates (r : toolRegistry) : list ToolSpec := ct_spec <$> filter (candidate r) (tr_catalog r).

(** [catalogView]: the loaded IDs and the specs still to load. *)
Definition catalogView (r : toolRegistry) : list string * list ToolSpec :=
  (merge_sort String.le
     (ct_id <$> filter (fun entry => active r entry = false /\ indexable r entry = true /\ ct_id entry ∈ tr_loaded r) (tr_catalog r)),
   merge_sort tool_le (candidates r)).

(** [cappedEffect]. *)
Definition cappedEffect (r : toolRegistry) (id : string) : option ToolEffect :=
  match list_find (fun entry => ts_ID (te_spec entry) = id /\ hidden r (te_spec entry) = true) (staticTools r) with
  | Some (_, entry) => Some (ts_Effect (te_spec entry))
  | None =>
    match byCatalog r id with
    | Some entry => if hidden r (ct_spec entry) then Some (ts_Effect (ct_spec entry)) else None
    | None => None
    end
  end.

(** [setTools]. *)
Definition setTools (r : toolRegistry) (name : string) : option (list (ToolSpec * bool) * bool) :=
  match list_find (fun state => tss_Name (tst_spec state) = name /\ tst_mode state <> modeActive) (tr_sets r) with
  | Some (i, state) =>
    Some ((fun entry => (ct_spec entry, bool_decide (ct_id entry ∈ tr_loaded r)))
            <$> filter (fun entry => ct_set entry = i /\ indexable r entry = true) (tr_catalog r),
          bool_decide (is_Some (tst_failure state)))
  | None => None
  end.

(** [toolSetStatus]. *)
Record ToolSetTool := MkSetTool { stl_Spec : ToolSpec; stl_Loaded : bool }.
Record ToolSetStatus := MkSetStatus {
  sst_Name : string; sst_Description : string; sst_Unavailable : bool; sst_Tools : list ToolSetTool }.

Definition set_tool_le (a b : ToolSetTool) : Prop := tool_le (stl_Spec a) (stl_Spec b).
#[local] Instance set_tool_le_dec a b : Decision (set_tool_le a b) := _.

Definition set_status (r : toolRegistry) (i : nat) (state : toolSetState) : ToolSetStatus :=
  MkSetStatus (tss_Name (tst_spec state)) (tss_Description (tst_spec state)) (bool_decide (is_Some (tst_failure state)))
    (merge_sort set_tool_le
      ((fun entry => MkSetTool (ct_spec entry)
          (bool_decide (tst_mode state = modeActive) || bool_decide (ct_id entry ∈ tr_loaded r)))
       <$> filter (fun entry => ct_set entry = i /\ hidden r (ct_spec entry) = false) (tr_catalog r))).

Definition toolSetStatus (r : toolRegistry) : list ToolSetStatus := imap (set_status r) (tr_sets r).

(** ** search_tools *)

(** [rank], of what the searcher ranked; [searched] is a function of the query and the
    candidates, an error when it failed or panicked. *)
Definition rank_query (searched : string -> list ToolSpec -> outcome (list string)) (query : string) (exclude : list string)
    (r : toolRegistry) : outcome (list string) :=
  let pool := filter (fun spec => ts_ID spec ∉ exclude) (candidates r) in
  if bool_decide (pool = []) || String.eqb (trimmed query) "" then Ok []
  else
    match searched query pool with
    | Err err =>
      Err (RuntimeErr (runtimeError CodeExtensionFailure SearchToolName
        (plain_text (PublicText err "ToolSearcher failed")) (Some err)))
    | Ok ranked => Ok (foldl (fun out id => if decide (id ∈ (ts_ID <$> pool)) then add_once id out else out) [] ranked)
    end.

Definition firstLine (text : string) : string :=
  let text := trimmed text in
  match list_find (fun c => c = newline) (bytes_of text) with
  | Some (i, _) => trimmed (string_of (take i (bytes_of text)))
  | None => text
  end.

(** [describeSet]. *)
Definition tool_line (tool : ToolSpec * bool) : string :=
  let first := firstLine (ts_Description tool.1) in
  (nl ++ ts_ID tool.1 ++ (if String.eqb first "" then "" else " — " ++ first) ++ (if tool.2 then " (loaded)" else ""))%string.

Definition describeSet (name : string) (r : toolRegistry) : string :=
  match setTools r name with
  | None => ("Not found: toolset " ++ name ++ ".")%string
  | Some (_, true) => (name ++ " is unavailable now; try again in a later Run.")%string
  | Some (tools, false) => (name ++ " has " ++ nat_text (length tools) ++ " tools:" ++ join "" (tool_line <$> tools))%string
  end.

(** The arguments of a search, once decoded. *)
Record searchInput := MkSearchInput { si_Names : list string; si_Queries : list string; si_Toolset : string }.

Record searchFound := MkFound {
  sf_loaded : list string; sf_already : list string; sf_unavailable : list string; sf_notFound : list string; sf_found : list string;
  sf_noMatch : list string }.
#[local] Instance eta_searchFound : Eta searchFound := fun r =>
  MkFound (sf_loaded r) (sf_already r) (sf_unavailable r) (sf_notFound r) (sf_found r) (sf_noMatch r).

Definition searchLoadCount : nat := 3.
Definition searchListCount : nat := 5.

Definition look_up_name (r : toolRegistry) (f : searchFound) (name : string) : searchFound :=
  let name := trimmed name in
  match loadable r name with
  | loadOK => f <| sf_loaded := add_once name (sf_loaded f) |>
  | loadAlready => f <| sf_already := add_once name (sf_already f) |>
  | loadUnavailable => f <| sf_unavailable := add_once name (sf_unavailable f) |>
  | loadNotFound => f <| sf_notFound := add_once name (sf_notFound f) |>
  end.

Definition take_ranked (f : searchFound) (i : nat) (id : string) : searchFound :=
  if (i <? searchLoadCount)%nat then f <| sf_loaded := add_once id (sf_loaded f) |>
  else if (i <? searchLoadCount + searchListCount)%nat then f <| sf_found := add_once id (sf_found f) |>
  else f.

Fixpoint take_all (f : searchFound) (i : nat) (ranked : list string) : searchFound :=
  match ranked with [] => f | id :: rest => take_all (take_ranked f i id) (S i) rest end.

Fixpoint run_queries (searched : string -> list ToolSpec -> outcome (list string)) (r : toolRegistry) (queries : list string)
    (f : searchFound) : outcome searchFound :=
  match queries with
  | [] => Ok f
  | query :: rest =>
    match rank_query searched query (sf_loaded f) r with
    | Err err => Err err
    | Ok [] => run_queries searched r rest (f <| sf_noMatch := sf_noMatch f ++ [query] |>)
    | Ok ranked => run_queries searched r rest (take_all f 0 ranked)
    end
  end.

Definition sentence (before : string) (sep : string) (ids : list string) : list string :=
  if bool_decide (ids = []) then [] else [(before ++ join sep ids ++ ".")%string].

(** [searchTool.Execute]: [input] is what its arguments decode to. *)
Definition search_Execute (searched : string -> list ToolSpec -> outcome (list string)) (input : outcome searchInput)
    (r : toolRegistry) : outcome ToolResult :=
  match input with
  | Err err =>
    Err (RuntimeErr (runtimeError CodeToolArgumentFailure SearchToolName (plain_text "cannot decode search arguments") (Some err)))
  | Ok input =>
    if bool_decide (si_Names input = []) && bool_decide (si_Queries input = []) && String.eqb (trimmed (si_Toolset input)) "" then
      Err (RuntimeErr (runtimeError CodeToolArgumentFailure SearchToolName (plain_text "pass names, queries or toolset") None))
    else
      match run_queries searched r (si_Queries input) (foldl (look_up_name r) (MkFound [] [] [] [] [] []) (si_Names input)) with
      | Err err => Err err
      | Ok f =>
        let found := filter (fun id => id ∉ sf_loaded f) (sf_found f) in
        let parts :=
          sentence "Loaded: " ", " (sf_loaded f) ++ sentence "Already available: " ", " (sf_already f)
          ++ sentence "Unavailable now, its ToolSet is unavailable; try again in a later Run: " ", " (sf_unavailable f)
          ++ sentence "Found but not loaded, so do not call them yet; call search_tools with these names first: " ", " found
          ++ sentence "Not found: " ", " (sf_notFound f) ++ sentence "No tool matches: " "; " (sf_noMatch f)
          ++ (if String.eqb (trimmed (si_Toolset input)) "" then [] else [describeSet (trimmed (si_Toolset input)) r]) in
        Ok (MkToolResult "" ToolResultStatusOK [part_of ContentKindText (join " " parts)] ∅ "" "" false None (sf_loaded f))
      end
  end.

(** ** A Session's registry *)

Section construction.
Context `{JsonText}.

(** What an installed ToolSet's [Spec] answers, or what it panics with. *)
Definition set_name (spec : outcome ToolSetSpec) : outcome ToolSetSpec :=
  match spec with
  | Err err =>
    Err (RuntimeErr (runtimeError CodeExtensionFailure "ToolSet" (plain_text (PublicText err "ToolSet.Spec failed")) (Some err)))
  | Ok spec => Ok (spec <| tss_Name := trimmed (tss_Name spec) |>)
  end.

Definition bad_set (message : text error) : error := RuntimeErr (runtimeError CodeInvalidArgument "ToolSet" message None).

Fixpoint name_sets (entries : list (outcome ToolSetSpec * installMode)) (sets : list toolSetState) : outcome (list toolSetState) :=
  match entries with
  | [] => Ok sets
  | (spec, mode) :: rest =>
    match set_name spec with
    | Err err => Err err
    | Ok spec =>
      if String.eqb (tss_Name spec) "" then Err (bad_set (plain_text "ToolSet name is empty"))
      else if has_dot (tss_Name spec) then Err (bad_set (Text "ToolSet name cannot contain a dot: %s" [FStr (tss_Name spec)]))
      else if decide (tss_Name spec ∈ ((fun state => tss_Name (tst_spec state)) <$> sets)) then
        Err (bad_set (Text "duplicate ToolSet name: %s" [FStr (tss_Name spec)]))
      else name_sets rest (sets ++ [MkSetState spec mode [] None])
    end
  end.

Definition registry_empty (filtered : bool) (maxEffect : ToolEffect) : toolRegistry :=
  MkRegistry [] [] [] [] ∅ [] [] [] false filtered ∅ maxEffect "".

(** [newToolRegistry]: [tools] are the Tools of WithTools, [sources] and [resolved] what the
    ToolSources and the ToolSets answer, and [recorded] what the Transcript lists as loaded. *)
Definition newToolRegistry (ctx : option error) (filtered : bool) (maxEffect : ToolEffect)
    (toolSets : list (outcome ToolSetSpec * installMode)) (tools : list supplied)
    (sources : list (outcome (list supplied))) (resolved : nat -> outcome (list supplied)) (answers : string -> bool) (panicked : option error)
    (recorded : option (outcome (list string))) : outcome toolRegistry :=
  let? sets := name_sets toolSets [] in
  let r := (registry_empty filtered maxEffect) <| tr_sets := sets |> in
  let? root := intake "WithTools" tools [] (rootName r) in
  let r := r <| tr_rootTools := root |> in
  let? supplied := collectSources ctx sources r in
  let r := r <| tr_sourceTools := supplied |> in
  let? results := (resolveAll ctx resolved r).2 in
  let? kept := screen answers panicked (catalogIDs results r) r in
  let r := r <| tr_kept := kept |> in
  let r := (match results with Some results => install results r | None => r end) <| tr_fresh := true |> in
  let? ids := (match recorded with None => Ok [] | Some ids => ids end : outcome (list string)) in
  Ok (rebuild (r <| tr_loaded := known r ids |>)).

End construction.

End registry.
