(* ===== verification/ToolVisibility.v ===== *)
(** * The Tools the Model is shown are the Tools it can call

    The invariant of a Session's registry through every operation of [ToolRegistry], and
    what it gives: what is shown resolves, what resolves is allowed, and a load adds one Tool. *)

From S2P Require Import Prelude GoStrings Errors Types Request Schema ToolRegistry.
Local Open Scope string_scope.
Local Open Scope list_scope.

(** ** Names *)

Lemma has_dot_app s t : has_dot (s ++ t)%string = has_dot s || has_dot t.
Proof. induction s as [|c s IH]; [done|]. simpl. by rewrite IH, orb_assoc. Qed.

Lemma before_dot_app s t : has_dot s = false -> before_dot (s ++ "." ++ t)%string = s.
Proof.
  induction s as [|c s IH]; [done|]. simpl. destruct (Ascii.eqb c "."); [done|]. simpl. intros Hs. by rewrite IH.
Qed.

Lemma app_string_inj s t u : (s ++ t)%string = (s ++ u)%string -> t = u.
Proof. induction s as [|c s IH]; [done|]. simpl. intros [= ?]. by apply IH. Qed.

Lemma prefix_app s t : String.prefix s (s ++ t) = true.
Proof. induction s as [|c s IH]; [by destruct t|]. simpl. destruct (ascii_dec c c); done. Qed.

Lemma qualify_named set id : set <> "" -> qualify set id = (set ++ "." ++ id)%string.
Proof. intros Hs. unfold qualify. destruct (String.eqb_spec set ""); done. Qed.

Lemma app_string_assoc s t u : (s ++ (t ++ u))%string = ((s ++ t) ++ u)%string.
Proof. induction s as [|c s IH]; [done|]. exact (f_equal (String c) IH). Qed.

Lemma under_qualify set id : set <> "" -> under set (qualify set id) = true.
Proof. intros Hs. rewrite qualify_named by done. unfold under. rewrite app_string_assoc. apply prefix_app. Qed.

Lemma qualify_inj set set' id id' :
  set <> "" -> set' <> "" -> has_dot set = false -> has_dot set' = false ->
  qualify set id = qualify set' id' -> set = set' /\ id = id'.
Proof.
  intros Hs Hs' Hd Hd'. rewrite !qualify_named by done. intros E.
  assert (set = set') as -> by (apply (f_equal before_dot) in E; by rewrite !before_dot_app in E).
  split; [done|]. by do 2 apply app_string_inj in E.
Qed.

Lemma qualify_dotted set id : set <> "" -> has_dot (qualify set id) = true.
Proof. intros Hs. rewrite qualify_named by done. rewrite has_dot_app. apply orb_true_r. Qed.

(** ** Taking Tools in *)

Abbreviation tool_ids entries := (ts_ID ∘ te_spec <$> entries) (only parsing).

Section intake.
Context `{JsonText}.

Lemma intake_from_ok what tools taken check entries out :
  intake_from what tools taken check entries = Ok out ->
  exists more, out = entries ++ more /\ NoDup (tool_ids more) /\ Forall (fun e => ts_ID (te_spec e) ∉ taken) more /\
    Forall (fun e => check (te_spec e) = None /\ validateToolSpec (te_spec e) = None) more.
Proof.
  revert taken entries. induction tools as [|[tool [spec|]] tools IH]; intros taken entries; cbn [intake_from]; [|..|done].
  - intros [= <-]. exists []. rewrite app_nil_r. by repeat constructor.
  - destruct (validateToolSpec spec) eqn:Ev; [done|]. destruct (check spec) eqn:Ec; [done|].
    destruct (decide (ts_ID spec ∈ taken)) as [|Hn]; [done|]. intros Ho.
    apply IH in Ho as (more & -> & Hd & Hm & Hc). exists (MkEntry (HostTool tool) spec :: more).
    split; [by rewrite <- app_assoc|]. split; [|split; constructor; try done].
    + cbn. constructor; [|done]. intros Hin. apply list_elem_of_fmap in Hin as (e & He & Hin).
      rewrite list.Forall_forall in Hm. specialize (Hm e Hin). set_solver.
    + eapply list.Forall_impl; [apply Hm|]. set_solver.
Qed.

Lemma intake_ok what tools held check out :
  intake what tools held check = Ok out ->
  NoDup (tool_ids out) /\ Forall (fun e => ts_ID (te_spec e) ∉ tool_ids held) out /\
  Forall (fun e => check (te_spec e) = None /\ validateToolSpec (te_spec e) = None) out.
Proof.
  intros Ho. apply intake_from_ok in Ho as (more & -> & Hd & Hm & Hc). split; [done|]. split; [|done].
  eapply list.Forall_impl; [apply Hm|]. intros e He Hin. apply He. by apply (elem_of_list_to_set (C := gset string)).
Qed.

Lemma resolveToolSet_ok state answer out : resolveToolSet state answer = Ok out -> NoDup (tool_ids out).
Proof. destruct answer; [|done]. intros Ho. by apply intake_ok in Ho as (? & _). Qed.

End intake.

(** ** The invariant *)

Definition set_names (r : toolRegistry) : list string := (fun state => tss_Name (tst_spec state)) <$> tr_sets r.

(** A name a root Tool may take. *)
Definition free (sets : list string) (name : string) : Prop := name <> SearchToolName /\ Forall (fun set => under set name = false) sets.

Lemma refused_name_none r name : refused_name r name = None <-> free (set_names r) name.
Proof.
  unfold refused_name, free, set_names. rewrite list.Forall_fmap. destruct (String.eqb_spec name SearchToolName) as [->|Hn]; [naive_solver|].
  destruct (list_find _ (tr_sets r)) as [[i state]|] eqn:E.
  - apply list_find_Some in E as (Hi & Hu & _). split; [done|]. intros [_ Hf].
    rewrite list.Forall_forall in Hf. apply list_elem_of_lookup_2, Hf in Hi. cbn in Hi. congruence.
  - apply list_find_None in E. split; [|done]. intros _. split; [done|]. eapply list.Forall_impl; [apply E|].
    intros st. cbn. destruct (under _ name); naive_solver.
Qed.

Definition free_entry (sets : list string) (e : toolEntry) : Prop := free sets (ts_ID (te_spec e)) /\ free sets (ts_Name (te_spec e)).

Lemma rootName_none r spec : rootName r spec = None <-> free (set_names r) (ts_ID spec) /\ free (set_names r) (ts_Name spec).
Proof. unfold rootName. rewrite <- !refused_name_none. destruct (refused_name r (ts_ID spec)); naive_solver. Qed.

Section registry.
Context (quoted : string -> string).
Abbreviation rebuild := (rebuild quoted).

Record parts_ok (r : toolRegistry) : Prop := {
  ok_names : NoDup (set_names r);
  ok_named : Forall (fun name => name <> "" /\ has_dot name = false) (set_names r);
  ok_static : NoDup (tool_ids (staticTools r));
  ok_free : Forall (free_entry (set_names r)) (staticTools r);
  ok_resolved : Forall (fun state => NoDup (tool_ids (tst_resolved state))) (tr_sets r);
  ok_catalog : tr_catalog r = catalog_of (tr_sets r);
}.

Record registry_ok (r : toolRegistry) : Prop := {
  ok_parts :> parts_ok r;
  ok_view : rebuild r = r;
}.

(** ** What a rebuild registers *)

Definition registered_static (r : toolRegistry) : list (string * toolEntry) :=
  (fun e => (ts_ID (te_spec e), MkEntry (te_tool e) (visible_spec (ts_ID (te_spec e)) (te_spec e))))
    <$> filter (fun e => hidden r (te_spec e) = false) (staticTools r).

Definition registered_catalog (r : toolRegistry) : list (string * toolEntry) :=
  (fun e => (ct_id e, MkEntry (ct_tool e) (visible_spec (ct_id e) (ct_spec e)))) <$> filter (fun e => offered r e = true) (tr_catalog r).

Definition registered_search (r : toolRegistry) : list (string * toolEntry) :=
  if hasCatalog r
  then [(SearchToolName, MkEntry searchTool (visible_spec SearchToolName (search_spec (catalogText quoted r))))] else [].

Definition registered (r : toolRegistry) : list (string * toolEntry) :=
  registered_static r ++ registered_catalog r ++ registered_search r.

Definition put_names (m : gmap string toolEntry) (l : list (string * toolEntry)) : gmap string toolEntry :=
  foldl (fun m p => <[p.1 := p.2]> m) m l.

Lemma foldl_register_static r acc l :
  foldl (register_static r) acc l =
  (put_names acc.1 ((fun e => (ts_ID (te_spec e), MkEntry (te_tool e) (visible_spec (ts_ID (te_spec e)) (te_spec e))))
      <$> filter (fun e => hidden r (te_spec e) = false) l),
   acc.2 ++ (te_spec ∘ snd <$> ((fun e => (ts_ID (te_spec e), MkEntry (te_tool e) (visible_spec (ts_ID (te_spec e)) (te_spec e))))
      <$> filter (fun e => hidden r (te_spec e) = false) l))).
Proof.
  revert acc. induction l as [|e l IH]; intros [m specs]; [by cbn; rewrite app_nil_r|]. cbn [foldl]. rewrite IH.
  unfold register_static. rewrite filter_cons. destruct (hidden r (te_spec e)) eqn:E; cbn; [done|].
  by rewrite <- app_assoc.
Qed.

Lemma foldl_register_catalog r acc l :
  foldl (register_catalog r) acc l =
  (put_names acc.1 ((fun e => (ct_id e, MkEntry (ct_tool e) (visible_spec (ct_id e) (ct_spec e)))) <$> filter (fun e => offered r e = true) l),
   acc.2 ++ (te_spec ∘ snd <$> ((fun e => (ct_id e, MkEntry (ct_tool e) (visible_spec (ct_id e) (ct_spec e))))
      <$> filter (fun e => offered r e = true) l))).
Proof.
  revert acc. induction l as [|e l IH]; intros [m specs]; [by cbn; rewrite app_nil_r|]. cbn [foldl]. rewrite IH.
  unfold register_catalog. rewrite filter_cons. destruct (offered r e) eqn:E; cbn; [|done].
  by rewrite <- app_assoc.
Qed.

Lemma put_names_app m l k : put_names m (l ++ k) = put_names (put_names m l) k.
Proof. apply foldl_app. Qed.

Lemma rebuild_eq r :
  rebuild r = r <| tr_description := if hasCatalog r then catalogText quoted r else tr_description r |>
    <| tr_byQualified := foldl (add_aliases r) (put_names ∅ (registered r)) (staticTools r) |>
    <| tr_specs := merge_sort tool_le (te_spec ∘ snd <$> registered r) |>.
Proof.
  unfold ToolRegistry.rebuild, registered, registered_search. rewrite foldl_register_static, foldl_register_catalog. cbn [fst snd].
  fold (registered_static r) (registered_catalog r). rewrite !put_names_app, !fmap_app.
  destruct (hasCatalog r); unfold register; cbn [fst snd put_names foldl]; rewrite ?app_nil_r, ?app_assoc; done.
Qed.

Lemma put_names_lookup m l name e :
  NoDup l.*1 -> put_names m l !! name = Some e <-> (name, e) ∈ l \/ (name ∉ l.*1 /\ m !! name = Some e).
Proof.
  revert m. induction l as [|[n x] l IH]; intros m Hn; cbn [put_names foldl fst snd].
  - split; [intros; right; split; [apply not_elem_of_nil|done]|intros [Hi|[_ ?]]; [inversion Hi|done]].
  - cbn in Hn. apply list.NoDup_cons in Hn as [Hx Hn]. fold (put_names (<[n:=x]> m) l). rewrite IH by done.
    rewrite elem_of_cons. cbn. rewrite elem_of_cons. destruct (decide (n = name)) as [<-|Hne].
    + rewrite lookup_insert_eq. split.
      * intros [Hin|[_ [= <-]]]; [|by left; left]. exfalso. apply Hx, list_elem_of_fmap. by exists (n, e).
      * intros [[[= <-]|Hin]|[Hno _]]; [by right|by left|]. exfalso. apply Hno. by left.
    + rewrite lookup_insert_ne by done. naive_solver.
Qed.

(** ** The aliases *)

Lemma alias_keeps e names name n x : names !! n = Some x -> alias e names name !! n = Some x.
Proof.
  intros Hx. unfold alias. destruct (String.eqb name ""); [done|]. destruct (names !! name) eqn:E; [done|].
  rewrite lookup_insert_ne; [done|]. intros ->. congruence.
Qed.

Lemma alias_new e names name n x : alias e names name !! n = Some x -> names !! n = Some x \/ (n = name /\ x = e).
Proof.
  unfold alias. destruct (String.eqb name ""); [by left|]. destruct (names !! name) eqn:E; [by left|].
  rewrite lookup_insert. destruct (decide (name = n)) as [->|]; [|by left]. intros [= ->]. by right.
Qed.

Lemma aliases_keep r names l n x : names !! n = Some x -> foldl (add_aliases r) names l !! n = Some x.
Proof.
  revert names. induction l as [|e l IH]; intros names Hx; [done|]. cbn [foldl]. apply IH. unfold add_aliases.
  destruct (hidden r (te_spec e)); [done|]. by do 2 apply alias_keeps.
Qed.

Lemma aliases_new r names l n x :
  foldl (add_aliases r) names l !! n = Some x ->
  names !! n = Some x \/ (x ∈ l /\ hidden r (te_spec x) = false /\ (n = ts_ID (te_spec x) \/ n = ts_Name (te_spec x))).
Proof.
  revert names. induction l as [|e l IH]; intros names; [by left|]. cbn [foldl]. intros Hx. apply IH in Hx as [Hx|(? & ? & ?)].
  - unfold add_aliases in Hx. destruct (hidden r (te_spec e)) eqn:Eh; [by left|].
    apply alias_new in Hx as [Hx|[-> ->]]; [apply alias_new in Hx as [Hx|[-> ->]]; [by left|]|];
      right; (split; [by left|]); auto.
  - right. split; [by right|done].
Qed.

(** ** Names are taken once *)

Lemma mjoin_imap_elem {A B} (f : nat -> A -> list B) l x :
  x ∈ mjoin (imap f l) <-> exists i a, l !! i = Some a /\ x ∈ f i a.
Proof.
  rewrite list_elem_of_join. setoid_rewrite list_elem_of_lookup. setoid_rewrite list_lookup_imap_Some. split.
  - intros (k & (j & Hj) & (i & a & Ha & ->)). exists i, a. split; [done|]. by exists j.
  - intros (i & a & Ha & j & Hj). exists (f i a). split; [by exists j|]. by exists i, a.
Qed.

Lemma fmap_mjoin {A B} (g : A -> B) (ls : list (list A)) : g <$> mjoin ls = mjoin (fmap g <$> ls).
Proof. induction ls as [|l ls IH]; [done|]. change (g <$> (l ++ mjoin ls) = (g <$> l) ++ mjoin (fmap g <$> ls)). by rewrite fmap_app, IH. Qed.

Lemma mjoin_imap_NoDup {A B} (f : nat -> A -> list B) l :
  (forall i a, l !! i = Some a -> NoDup (f i a)) ->
  (forall i j a b x, l !! i = Some a -> l !! j = Some b -> x ∈ f i a -> x ∈ f j b -> i = j) ->
  NoDup (mjoin (imap f l)).
Proof.
  revert f. induction l as [|a l IH]; intros f Hf Hd; [constructor|]. rewrite imap_cons. cbn [mjoin list_join].
  apply list.NoDup_app. split; [by apply (Hf 0)|]. split.
  - intros x Hx Hin. apply mjoin_imap_elem in Hin as (i & b & Hb & Hin). by specialize (Hd 0 (S i) a b x eq_refl Hb Hx Hin).
  - apply IH; [intros i b Hb; by apply (Hf (S i))|]. intros i j b c x Hb Hc Hx Hy. specialize (Hd (S i) (S j) b c x Hb Hc Hx Hy). lia.
Qed.

Lemma catalog_elem r entry : tr_catalog r = catalog_of (tr_sets r) -> entry ∈ tr_catalog r ->
  exists state e, tr_sets r !! ct_set entry = Some state /\ e ∈ tst_resolved state /\
    ct_id entry = qualify (tss_Name (tst_spec state)) (ts_ID (te_spec e)).
Proof.
  intros -> Hin. unfold catalog_of in Hin. rewrite merge_sort_Permutation in Hin. apply mjoin_imap_elem in Hin as (i & state & Hi & Hin).
  apply list_elem_of_fmap in Hin as (e & -> & He). by exists state, e.
Qed.

Lemma named_set r i state : registry_ok r -> tr_sets r !! i = Some state ->
  tss_Name (tst_spec state) <> "" /\ has_dot (tss_Name (tst_spec state)) = false.
Proof.
  intros Hok Hi. pose proof (ok_named _ Hok) as Hn. unfold set_names in Hn. rewrite list.Forall_fmap, list.Forall_lookup in Hn.
  exact (Hn i state Hi).
Qed.

Lemma catalog_ids_unique r : registry_ok r -> NoDup (ct_id <$> tr_catalog r).
Proof.
  intros Hok. rewrite (ok_catalog _ Hok). unfold catalog_of. rewrite merge_sort_Permutation.
  assert (ct_id <$> mjoin (imap catalog_of_set (tr_sets r)) =
    mjoin (imap (fun i state => qualify (tss_Name (tst_spec state)) ∘ ts_ID ∘ te_spec <$> tst_resolved state) (tr_sets r))) as ->.
  { rewrite fmap_mjoin, fmap_imap. f_equal. apply imap_ext. intros i state _. unfold compose, catalog_of_set.
    by rewrite <- list_fmap_compose. }
  apply mjoin_imap_NoDup.
  - intros i state Hi. destruct (named_set r i state Hok Hi) as [Hn Hd].
    change (qualify (tss_Name (tst_spec state)) ∘ ts_ID ∘ te_spec) with (qualify (tss_Name (tst_spec state)) ∘ (ts_ID ∘ te_spec)).
    rewrite list_fmap_compose. apply NoDup_fmap_2_strong.
    + intros x y _ _ E. by destruct (qualify_inj _ _ _ _ Hn Hn Hd Hd E).
    + pose proof (ok_resolved _ Hok) as Hr. rewrite list.Forall_lookup in Hr. exact (Hr i state Hi).
  - intros i j a b x Ha Hb Hx Hy. apply list_elem_of_fmap in Hx as (ex & -> & _). apply list_elem_of_fmap in Hy as (ey & E & _).
    destruct (named_set r i a Hok Ha) as [Hna Hda]. destruct (named_set r j b Hok Hb) as [Hnb Hdb].
    destruct (qualify_inj _ _ _ _ Hna Hnb Hda Hdb E) as [Es _].
    apply (NoDup_lookup (set_names r) i j (tss_Name (tst_spec a)) (ok_names _ Hok)); unfold set_names; rewrite list_lookup_fmap.
    + by rewrite Ha.
    + by rewrite Hb, Es.
Qed.

Lemma catalog_under r entry name state : registry_ok r -> tr_sets r !! ct_set entry = Some state ->
  ct_id entry = qualify (tss_Name (tst_spec state)) name -> under (tss_Name (tst_spec state)) (ct_id entry) = true.
Proof. intros Hok Hs ->. apply under_qualify. by eapply named_set. Qed.

(** No root Tool takes a name in the namespace of a ToolSet. *)
Lemma free_not_under r name set : free (set_names r) name -> set ∈ set_names r -> under set name = false.
Proof. intros [_ Hf] Hin. rewrite list.Forall_forall in Hf. by apply Hf. Qed.

Lemma in_set_names r i state : tr_sets r !! i = Some state -> tss_Name (tst_spec state) ∈ set_names r.
Proof. intros Hi. apply list_elem_of_fmap. exists state. split; [done|]. by eapply list_elem_of_lookup_2. Qed.

Lemma catalog_not_free r entry : registry_ok r -> entry ∈ tr_catalog r -> ~ free (set_names r) (ct_id entry).
Proof.
  intros Hok Hin Hf. destruct (catalog_elem r entry (ok_catalog _ Hok) Hin) as (state & e & Hs & _ & Hid).
  pose proof (catalog_under r entry _ state Hok Hs Hid) as Hu.
  rewrite (free_not_under r _ _ Hf (in_set_names r _ _ Hs)) in Hu. done.
Qed.

Lemma registered_ids r : (registered r).*1 =
  (ts_ID ∘ te_spec <$> filter (fun e => hidden r (te_spec e) = false) (staticTools r)) ++
  (ct_id <$> filter (fun e => offered r e = true) (tr_catalog r)) ++ (if hasCatalog r then [SearchToolName] else []).
Proof.
  unfold registered. rewrite !fmap_app. f_equal; [|f_equal].
  - unfold registered_static. by rewrite <- list_fmap_compose.
  - unfold registered_catalog. by rewrite <- list_fmap_compose.
  - unfold registered_search. by destruct (hasCatalog r).
Qed.

Lemma search_not_dotted : has_dot SearchToolName = false.
Proof. done. Qed.

Lemma registered_unique r : registry_ok r -> NoDup (registered r).*1.
Proof.
  intros Hok. rewrite registered_ids. pose proof (ok_free _ Hok) as Hfree. rewrite list.Forall_forall in Hfree.
  apply list.NoDup_app. split_and!; [|intros name Hin Hin2|apply list.NoDup_app; split_and!].
  - eapply sublist_NoDup; [apply (ok_static _ Hok)|]. apply fmap_sublist, sublist_filter.
  - apply list_elem_of_fmap in Hin as (e & -> & He). apply list_elem_of_filter in He as [_ He].
    destruct (Hfree e He) as [Hf _]. apply elem_of_app in Hin2 as [Hin2|Hin2].
    + apply list_elem_of_fmap in Hin2 as (entry & E & Hin2). apply list_elem_of_filter in Hin2 as [_ Hin2].
      apply (catalog_not_free r entry Hok Hin2). rewrite <- E. exact Hf.
    + destruct (hasCatalog r); [|inversion Hin2]. apply list_elem_of_singleton in Hin2. by destruct Hf.
  - eapply sublist_NoDup; [by apply catalog_ids_unique|]. apply fmap_sublist, sublist_filter.
  - intros name Hin Hin2. apply list_elem_of_fmap in Hin as (entry & -> & Hin). apply list_elem_of_filter in Hin as [_ Hin].
    destruct (hasCatalog r); [|inversion Hin2]. apply list_elem_of_singleton in Hin2.
    destruct (catalog_elem r entry (ok_catalog _ Hok) Hin) as (state & e & Hs & _ & Hid).
    pose proof (qualify_dotted (tss_Name (tst_spec state)) (ts_ID (te_spec e)) ltac:(by eapply named_set)) as Hd.
    rewrite <- Hid, Hin2 in Hd. done.
  - destruct (hasCatalog r); repeat constructor. set_solver.
Qed.

(** ** What a name resolves to *)

Lemma ok_specs r : registry_ok r -> tr_specs r = merge_sort tool_le (te_spec ∘ snd <$> registered r).
Proof. intros Hok. pose proof (ok_view _ Hok) as Hv. rewrite rebuild_eq in Hv. by apply (f_equal tr_specs) in Hv. Qed.

Lemma ok_byQualified r : registry_ok r ->
  tr_byQualified r = foldl (add_aliases r) (put_names ∅ (registered r)) (staticTools r).
Proof.
  intros Hok. pose proof (ok_view _ Hok) as Hv. rewrite rebuild_eq in Hv. apply (f_equal tr_byQualified) in Hv. symmetry. exact Hv.
Qed.

Lemma ok_lookup r name : registry_ok r ->
  lookup_tool r name = foldl (add_aliases r) (put_names ∅ (registered r)) (staticTools r) !! name.
Proof. intros Hok. unfold lookup_tool. by rewrite (ok_byQualified r Hok) at 1. Qed.

Lemma registered_resolves r name e : registry_ok r -> (name, e) ∈ registered r -> lookup_tool r name = Some e.
Proof.
  intros Hok Hin. rewrite ok_lookup by done. apply aliases_keep, put_names_lookup; [by apply registered_unique|by left].
Qed.

Lemma resolves_cases r name e : registry_ok r -> lookup_tool r name = Some e ->
  (name, e) ∈ registered r \/
  (e ∈ staticTools r /\ hidden r (te_spec e) = false /\ (name = ts_ID (te_spec e) \/ name = ts_Name (te_spec e))).
Proof.
  intros Hok Hl. rewrite ok_lookup in Hl by done. apply aliases_new in Hl as [Hl|Hl]; [left|by right].
  apply put_names_lookup in Hl as [Hl|[_ Hl]]; [done|done|by apply registered_unique].
Qed.

Lemma hidden_visible r q spec : hidden r (visible_spec q spec) = hidden r spec.
Proof. done. Qed.

Lemma search_never_hidden r description : hidden r (search_spec description) = false.
Proof.
  unfold hidden. assert (Within (ts_Effect (search_spec description)) (tr_maxEffect r) = true) as ->; [|apply andb_false_r].
  unfold Within, rank, search_spec. simpl. repeat case_match; done.
Qed.

Lemma offered_allowed r entry : offered r entry = true ->
  hidden r (ct_spec entry) = false /\ refused r (ct_id entry) = false /\ (active r entry = true \/ ct_id entry ∈ tr_loaded r).
Proof.
  unfold offered, indexable. destruct (active r entry), (hidden r (ct_spec entry)), (refused r (ct_id entry)); cbn; try done.
  - intros _. auto.
  - intros H. apply bool_decide_eq_true in H. auto.
Qed.

(** The Spec of what is registered names it. *)
Lemma registered_named r name e : (name, e) ∈ registered r -> ts_ID (te_spec e) = name.
Proof.
  unfold registered. rewrite !elem_of_app. intros [Hin|[Hin|Hin]].
  - apply list_elem_of_fmap in Hin as (x & [= -> ->] & _). done.
  - apply list_elem_of_fmap in Hin as (x & [= -> ->] & _). done.
  - unfold registered_search in Hin. destruct (hasCatalog r); [|inversion Hin].
    apply list_elem_of_singleton in Hin as [= -> ->]. done.
Qed.

(** ** Every operation keeps it *)

Lemma rebuild_idem r : rebuild (rebuild r) = rebuild r.
Proof.
  rewrite (rebuild_eq (rebuild r)). change (hasCatalog (rebuild r)) with (hasCatalog r).
  change (registered (rebuild r)) with (registered r). change (catalogText quoted (rebuild r)) with (catalogText quoted r).
  change (add_aliases (rebuild r)) with (add_aliases r). change (staticTools (rebuild r)) with (staticTools r).
  rewrite (rebuild_eq r). cbn [tr_description]. by destruct (hasCatalog r).
Qed.

Lemma rebuild_ok r : parts_ok r -> registry_ok (rebuild r).
Proof. intros [? ? ? ? ? ?]. split; [by split|]. apply rebuild_idem. Qed.

Lemma load_ok id r : registry_ok r -> registry_ok (load quoted id r).1.
Proof.
  intros Hok. unfold load. destruct (loadable r id); try done. apply rebuild_ok. destruct Hok as [[] _]. by split.
Qed.

Lemma sync_ok ids r : registry_ok r -> registry_ok (syncLoaded quoted ids r).
Proof.
  intros Hok. unfold syncLoaded. case_bool_decide; [done|]. apply rebuild_ok. destruct Hok as [[] _]. by split.
Qed.

Section intake.
Context `{JsonText}.

Lemma find_all_ok {A} (answers : list (outcome A)) : list_find (fun a => is_ok a = false) answers <> None ->
  exists i err, list_find (fun a => is_ok a = false) answers = Some (i, Err err).
Proof.
  destruct (list_find _ answers) as [[i a]|] eqn:E; [|done]. intros _. apply list_find_Some in E as (_ & Ha & _).
  destruct a; [done|]. by eexists _, _.
Qed.

Lemma collectSources_ok ctx answers r entries : collectSources ctx answers r = Ok entries ->
  NoDup (tool_ids entries) /\ Forall (fun e => ts_ID (te_spec e) ∉ tool_ids (tr_rootTools r)) entries /\
  Forall (free_entry (set_names r)) entries.
Proof.
  unfold collectSources. intros Hc.
  assert (exists tools, intake "ToolSource" tools (tr_rootTools r) (rootName r) = Ok entries) as (tools & Ho).
  { destruct (list_find _ answers) as [[i [a|err]]|]; [by eexists| |by eexists].
    destruct (contextFailure ctx "ToolSource"); discriminate. }
  apply intake_ok in Ho as (Hd & Hh & Hf). split_and!; [done|done|].
  eapply list.Forall_impl; [apply Hf|]. intros e [He _]. by apply rootName_none.
Qed.

Lemma static_ok root entries : NoDup (tool_ids root) -> NoDup (tool_ids entries) ->
  Forall (fun e => ts_ID (te_spec e) ∉ tool_ids root) entries -> NoDup (tool_ids (root ++ entries)).
Proof.
  intros Hr He Hd. rewrite fmap_app. apply list.NoDup_app. split_and!; [done| |done]. intros id Hin Hin2.
  apply list_elem_of_fmap in Hin2 as (e & -> & Hin2). rewrite list.Forall_forall in Hd. by apply (Hd e).
Qed.

Lemma refresh_ok ctx answers entries kept r : registry_ok r -> collectSources ctx answers r = Ok entries ->
  registry_ok (refreshSources quoted entries kept r).
Proof.
  intros Hok Hc. apply collectSources_ok in Hc as (Hd & Hh & Hf). apply rebuild_ok. destruct Hok as [[] _]. split; try done.
  - apply static_ok; [|done|done]. unfold staticTools in ok_static0. rewrite fmap_app in ok_static0.
    by apply list.NoDup_app in ok_static0 as [? _].
  - unfold staticTools in *. apply list.Forall_app in ok_free0 as [? _]. by apply list.Forall_app.
Qed.

Lemma resolveAll_ok ctx answers r results : (resolveAll ctx answers r).2 = Ok (Some results) ->
  length results = length (tr_sets r) /\ Forall (fun result => forall tools, result = Ok tools -> NoDup (tool_ids tools)) results.
Proof.
  unfold resolveAll. destruct (tr_fresh r); [done|]. destruct ctx; [done|]. intros [= <-]. split; [apply length_imap|].
  apply list.Forall_lookup. intros i result. rewrite list_lookup_imap. intros [state [_ ->]]%fmap_Some tools Ho.
  by apply resolveToolSet_ok in Ho.
Qed.

Lemma install_ok results r : parts_ok r -> length results = length (tr_sets r) ->
  Forall (fun result => forall tools, result = Ok tools -> NoDup (tool_ids tools)) results -> parts_ok (install results r).
Proof.
  intros Hok Hl Hr.
  assert (Hn : set_names (install results r) = set_names r).
  { unfold set_names, install. cbn. apply list_eq. intros i. rewrite !list_lookup_fmap, lookup_zip_with.
    destruct (tr_sets r !! i) as [state|] eqn:Es; [|done].
    destruct (lookup_lt_is_Some_2 results i) as [result Hresult]; [apply lookup_lt_Some in Es; lia|].
    rewrite Hresult. by destruct result. }
  destruct Hok. split; rewrite ?Hn; try done. cbn. apply list.Forall_lookup. intros i x Hx. rewrite lookup_zip_with in Hx.
  destruct (tr_sets r !! i) as [state|] eqn:Es; [|done]. destruct (results !! i) as [result|] eqn:Er; [|done]. injection Hx as <-.
  rewrite list.Forall_lookup in Hr. specialize (Hr i result Er). destruct result as [tools|err]; cbn; [by apply Hr|constructor].
Qed.

Lemma apply_ok ctx answers results kept recorded r : registry_ok r -> (resolveAll ctx answers r).2 = Ok results ->
  registry_ok (apply_sets quoted results kept recorded (resolveAll ctx answers r).1).1.
Proof.
  intros Hok Hr.
  assert (Hp : parts_ok (match results with Some results => install results ((resolveAll ctx answers r).1 <| tr_kept := kept |>)
                         | None => (resolveAll ctx answers r).1 <| tr_kept := kept |> end)).
  { assert (Hp : parts_ok ((resolveAll ctx answers r).1 <| tr_kept := kept |>)).
    { destruct Hok as [[] _]. unfold resolveAll. destruct (tr_fresh r); [by split|]. by destruct ctx; split. }
    destruct results as [results|]; [|done]. destruct (resolveAll_ok ctx answers r results Hr) as [Hl Hf].
    apply install_ok; [done| |done]. rewrite Hl. unfold resolveAll. destruct (tr_fresh r); [done|]. by destruct ctx. }
  unfold apply_sets. destruct (foldl _ _ _) as [parked gone]. apply rebuild_ok. destruct Hp. by split.
Qed.

(** The operations of a Session's registry, each one step under its lock. *)
Inductive registry_step (r : toolRegistry) : toolRegistry -> Prop :=
| StepApply ctx answers results kept recorded :
  (resolveAll ctx answers r).2 = Ok results ->
  registry_step r (apply_sets quoted results kept recorded (resolveAll ctx answers r).1).1
| StepRefresh ctx answers entries kept :
  collectSources ctx answers r = Ok entries -> registry_step r (refreshSources quoted entries kept r)
| StepSync ids : registry_step r (syncLoaded quoted ids r)
| StepLoad id : registry_step r (load quoted id r).1.

Inductive registry_of : toolRegistry -> Prop :=
| NewRegistry ctx filtered maxEffect toolSets tools sources resolved answers panicked recorded r :
  newToolRegistry quoted ctx filtered maxEffect toolSets tools sources resolved answers panicked recorded = Ok r ->
  registry_of r
| NextRegistry r r' : registry_of r -> registry_step r r' -> registry_of r'.

Lemma name_sets_ok entries sets out :
  NoDup ((fun state => tss_Name (tst_spec state)) <$> sets) ->
  Forall (fun state => tss_Name (tst_spec state) <> "" /\ has_dot (tss_Name (tst_spec state)) = false /\ tst_resolved state = []) sets ->
  name_sets entries sets = Ok out ->
  NoDup ((fun state => tss_Name (tst_spec state)) <$> out) /\
  Forall (fun state => tss_Name (tst_spec state) <> "" /\ has_dot (tss_Name (tst_spec state)) = false /\ tst_resolved state = []) out.
Proof.
  revert sets. induction entries as [|[spec mode] entries IH]; intros sets Hn Hf; cbn [name_sets]; [by intros [= <-]|].
  destruct (set_name spec) as [spec'|]; [|done]. destruct (String.eqb_spec (tss_Name spec') ""); [done|].
  destruct (has_dot (tss_Name spec')) eqn:Ed; [done|]. destruct (decide _) as [|Hin]; [done|]. intros Ho.
  apply IH in Ho; [done| |].
  - rewrite fmap_app. apply list.NoDup_app. split_and!; [done| |repeat constructor; set_solver].
    intros name Hname Hname2. apply list_elem_of_singleton in Hname2 as ->. done.
  - apply list.Forall_app. split; [done|]. by repeat constructor.
Qed.

Lemma new_ok ctx filtered maxEffect toolSets tools sources resolved answers panicked recorded r :
  newToolRegistry quoted ctx filtered maxEffect toolSets tools sources resolved answers panicked recorded = Ok r -> registry_ok r.
Proof.
  unfold newToolRegistry. destruct (name_sets toolSets []) as [sets|] eqn:Esets; [|done]. cbn [rbind].
  apply name_sets_ok in Esets as [Hn Hf]; [|constructor|constructor].
  set (r1 := (registry_empty filtered maxEffect) <| tr_sets := sets |>).
  destruct (intake "WithTools" tools [] (rootName r1)) as [root|] eqn:Eroot; [|done]. cbn [rbind].
  set (r2 := r1 <| tr_rootTools := root |>).
  destruct (collectSources ctx sources r2) as [supplied|] eqn:Esupplied; [|done]. cbn [rbind].
  set (r3 := r2 <| tr_sourceTools := supplied |>).
  destruct (resolveAll ctx resolved r3).2 as [results|] eqn:Eresults; [|done]. cbn [rbind].
  destruct (screen _ _ _ _) as [kept|]; [|done]. cbn [rbind]. destruct (match recorded with None => _ | Some ids => ids end); [|done].
  cbn [rbind]. intros [= <-]. apply rebuild_ok.
  assert (Hp : parts_ok (r3 <| tr_kept := kept |> <| tr_catalog := catalog_of sets |>)).
  { apply intake_ok in Eroot as (Hd & _ & Hc). apply collectSources_ok in Esupplied as (Hd2 & Hh & Hc2). split; cbn.
    - done.
    - apply list.Forall_fmap. eapply list.Forall_impl; [apply Hf|]. naive_solver.
    - by apply static_ok.
    - apply list.Forall_app. split; [|done]. eapply list.Forall_impl; [apply Hc|]. intros e [He _]. by apply rootName_none in He.
    - eapply list.Forall_impl; [apply Hf|]. intros st (_ & _ & ->). constructor.
    - done. }
  destruct results as [results|]; [|by unfold resolveAll in Eresults; destruct ctx].
  destruct (resolveAll_ok _ _ _ _ Eresults) as [Hl Hr].
  destruct (install_ok results _ Hp Hl Hr). by split.
Qed.

Lemma registry_of_ok r : registry_of r -> registry_ok r.
Proof.
  induction 1 as [????????????|r r' _ IH Hs]; [by eapply new_ok|]. destruct Hs.
  - by apply apply_ok.
  - by eapply refresh_ok.
  - by apply sync_ok.
  - by apply load_ok.
Qed.

End intake.

(** ** A load *)

Lemma prefix_split p s : String.prefix p s = true -> exists t, s = (p ++ t)%string.
Proof.
  revert s. induction p as [|c p IH]; intros s; [by exists s|]. destruct s as [|d s]; [done|]. simpl.
  destruct (ascii_dec c d) as [<-|]; [|done]. intros Hp. destruct (IH s Hp) as [t ->]. by exists t.
Qed.

Lemma under_dotted set name : under set name = true -> has_dot name = true.
Proof. intros [t ->]%prefix_split. rewrite !has_dot_app. cbn. by rewrite orb_true_r. Qed.

Definition registered_tool (entry : catalogTool) : string * toolEntry :=
  (ct_id entry, MkEntry (ct_tool entry) (visible_spec (ct_id entry) (ct_spec entry))).

Lemma loadable_ok r id : loadable r id = loadOK ->
  exists entry, entry ∈ tr_catalog r /\ ct_id entry = id /\ lookup_tool r id = None /\
    active r entry = false /\ indexable r entry = true /\ id ∉ tr_loaded r.
Proof.
  unfold loadable, lookup_tool. destruct (tr_byQualified r !! id) eqn:Eq; [done|]. unfold byCatalog.
  destruct (list_find _ (tr_catalog r)) as [[i entry]|] eqn:Ef; cbn [fmap option_fmap option_map snd]; [|by destruct (String.eqb _ _)].
  apply list_find_Some in Ef as (Hi & Hid & _). destruct (indexable r entry) eqn:Ei; [|done]. cbn [negb].
  destruct (active r entry) eqn:Ea; [done|]. cbn [orb]. case_bool_decide; [done|]. intros _.
  exists entry. split_and!; try done. by eapply list_elem_of_lookup_2.
Qed.

Lemma registered_load r id entry :
  registry_ok r -> entry ∈ tr_catalog r -> ct_id entry = id -> active r entry = false -> indexable r entry = true -> id ∉ tr_loaded r ->
  registered (r <| tr_loaded := tr_loaded r ++ [id] |>) ≡ₚ registered_tool entry :: registered r.
Proof.
  intros Hok Hin <- Ha Hx Hl. set (r' := r <| tr_loaded := tr_loaded r ++ [ct_id entry] |>).
  assert (Hnew : offered r' entry = true).
  { unfold offered. change (active r' entry) with (active r entry). rewrite Ha. change (indexable r' entry) with (indexable r entry).
    rewrite Hx. apply bool_decide_eq_true. cbn. set_solver. }
  assert (Hold : offered r entry = false) by (unfold offered; rewrite Ha, Hx; by apply bool_decide_eq_false).
  assert (Hsame : forall other, ct_id other <> ct_id entry -> offered r' other = offered r other).
  { intros other Hne. unfold offered. change (active r' other) with (active r other). change (indexable r' other) with (indexable r other).
    assert (bool_decide (ct_id other ∈ tr_loaded r') = bool_decide (ct_id other ∈ tr_loaded r)) as ->; [|done].
    apply bool_decide_ext. cbn. set_solver. }
  assert (Hcat : registered_catalog r' ≡ₚ registered_tool entry :: registered_catalog r).
  { unfold registered_catalog. change (tr_catalog r') with (tr_catalog r). pose proof (catalog_ids_unique r Hok) as Hu. revert Hu Hin.
    generalize (tr_catalog r). intros l Hu Hin. apply list_elem_of_split in Hin as (l1 & l2 & ->).
    rewrite fmap_app in Hu. cbn in Hu. apply list.NoDup_app in Hu as (_ & Hd & Hu). apply list.NoDup_cons in Hu as [Hu _].
    assert (forall k : list catalogTool, ct_id entry ∉ (ct_id <$> k) -> filter (fun e => offered r' e = true) k = filter (fun e => offered r e = true) k) as Hk.
    { intros k Hk. induction k as [|o k IH]; [done|]. cbn in Hk. apply not_elem_of_cons in Hk as [Hne Hk].
      by rewrite !filter_cons, Hsame, IH. }
    rewrite !list.filter_app, !filter_cons, Hnew, Hold. cbn [decide]. rewrite !Hk; [|done|intros Hi; apply (Hd _ Hi); by left].
    destruct (decide (true = true)); [|done]. destruct (decide (false = true)); [done|]. rewrite !fmap_app. cbn. by rewrite Permutation_middle. }
  unfold registered. change (registered_static r') with (registered_static r). change (registered_search r') with (registered_search r).
  rewrite Hcat. cbn [app]. symmetry. apply Permutation_middle.
Qed.

Lemma aliases_insert r m l n x :
  Forall (fun e => ts_ID (te_spec e) <> n /\ ts_Name (te_spec e) <> n) l ->
  foldl (add_aliases r) (<[n := x]> m) l = <[n := x]> (foldl (add_aliases r) m l).
Proof.
  intros Hf. revert m. induction Hf as [|e l [Hid Hname] _ IH]; intros m; [done|]. cbn [foldl]. rewrite <- IH. f_equal.
  unfold add_aliases. destruct (hidden r (te_spec e)); [done|].
  assert (Ha : forall m name, name <> n -> alias e (<[n := x]> m) name = <[n := x]> (alias e m name)).
  { intros m' name Hne. unfold alias. destruct (String.eqb name ""); [done|]. rewrite lookup_insert_ne by done.
    destruct (m' !! name); [done|]. by rewrite insert_insert_ne. }
  by rewrite !Ha.
Qed.

Lemma put_names_permute l k : l ≡ₚ k -> NoDup l.*1 -> put_names ∅ l = put_names ∅ k.
Proof.
  intros Hp Hn. assert (NoDup k.*1) by by rewrite <- Hp. apply map_eq. intros n. apply option_eq. intros e.
  rewrite !put_names_lookup by done. by rewrite Hp.
Qed.

Lemma put_names_cons n e l : NoDup (n :: l.*1) -> put_names ∅ ((n, e) :: l) = <[n := e]> (put_names ∅ l).
Proof.
  intros Hn. apply list.NoDup_cons in Hn as [Hx Hn]. apply map_eq. intros m. apply option_eq. intros x.
  rewrite put_names_lookup by (by apply list.NoDup_cons). rewrite elem_of_cons. destruct (decide (n = m)) as [<-|Hne].
  - rewrite lookup_insert_eq. split; [|intros [= <-]; left; by left]. intros [[[= <-]|Hin]|[_ H]]; [done| |done].
    exfalso. apply Hx, list_elem_of_fmap. by exists (n, x).
  - rewrite lookup_insert_ne, put_names_lookup by done. rewrite lookup_empty. cbn. rewrite elem_of_cons. naive_solver.
Qed.

(** ** What a search may load *)

Lemma catalog_spec r entry : tr_catalog r = catalog_of (tr_sets r) -> entry ∈ tr_catalog r -> ts_ID (ct_spec entry) = ct_id entry.
Proof.
  intros -> Hin. unfold catalog_of in Hin. rewrite merge_sort_Permutation in Hin. apply mjoin_imap_elem in Hin as (i & state & Hi & Hin).
  by apply list_elem_of_fmap in Hin as (e & -> & He).
Qed.

Lemma catalog_same r entry entry' : registry_ok r -> entry ∈ tr_catalog r -> entry' ∈ tr_catalog r ->
  ct_id entry = ct_id entry' -> entry = entry'.
Proof.
  intros Hok Hin Hin' E. apply list_elem_of_lookup in Hin as [i Hi]. apply list_elem_of_lookup in Hin' as [j Hj].
  assert (i = j) as ->; [|congruence].
  apply (NoDup_lookup (ct_id <$> tr_catalog r) i j (ct_id entry) (catalog_ids_unique r Hok)); rewrite list_lookup_fmap.
  - by rewrite Hi.
  - by rewrite Hj, E.
Qed.

Lemma byCatalog_found r entry : registry_ok r -> entry ∈ tr_catalog r -> byCatalog r (ct_id entry) = Some entry.
Proof.
  intros Hok Hin. unfold byCatalog. destruct (list_find _ (tr_catalog r)) as [[i x]|] eqn:E.
  - apply list_find_Some in E as (Hi & Hid & _). cbn. f_equal. apply (catalog_same r); [done|by eapply list_elem_of_lookup_2|done|done].
  - apply list_find_None in E. rewrite list.Forall_forall in E. by destruct (E entry Hin).
Qed.

Lemma not_offered_unseen r entry : registry_ok r -> entry ∈ tr_catalog r -> offered r entry = false ->
  lookup_tool r (ct_id entry) = None.
Proof.
  intros Hok Hin Ho. destruct (lookup_tool r (ct_id entry)) as [e|] eqn:E; [|done]. exfalso.
  pose proof (ok_free _ Hok) as Hfree. rewrite list.Forall_forall in Hfree. pose proof (catalog_not_free r entry Hok Hin) as Hnf.
  destruct (resolves_cases r _ e Hok E) as [Hreg|(Hs & _ & Hname)].
  - unfold registered in Hreg. rewrite !elem_of_app in Hreg. destruct Hreg as [Hreg|[Hreg|Hreg]].
    + apply list_elem_of_fmap in Hreg as (x & [= Hx _] & Hxin). apply list_elem_of_filter in Hxin as [_ Hxin].
      apply Hnf. rewrite Hx. by apply Hfree.
    + apply list_elem_of_fmap in Hreg as (x & [= Hx _] & Hxin). apply list_elem_of_filter in Hxin as [Hxo Hxin].
      by rewrite <- (catalog_same r entry x Hok Hin Hxin Hx), Ho in Hxo.
    + unfold registered_search in Hreg. destruct (hasCatalog r); [|inversion Hreg]. apply list_elem_of_singleton in Hreg as [= Hx _].
      destruct (catalog_elem r entry (ok_catalog _ Hok) Hin) as (state & e' & Hst & _ & Hid).
      pose proof (qualify_dotted (tss_Name (tst_spec state)) (ts_ID (te_spec e')) ltac:(by eapply named_set)) as Hd.
      rewrite <- Hid, Hx in Hd. done.
  - destruct (Hfree e Hs) as [Hf1 Hf2]. apply Hnf. by destruct Hname as [->| ->].
Qed.

Lemma candidate_loadable r spec : registry_ok r -> spec ∈ candidates r -> loadable r (ts_ID spec) = loadOK.
Proof.
  intros Hok Hin. apply list_elem_of_fmap in Hin as (entry & -> & Hin). apply list_elem_of_filter in Hin as ((Ha & Hx & Hl) & Hin).
  rewrite (catalog_spec r entry (ok_catalog _ Hok) Hin).
  assert (offered r entry = false) as Ho by (unfold offered; rewrite Ha, Hx; by apply bool_decide_eq_false).
  pose proof (not_offered_unseen r entry Hok Hin Ho) as Hn. unfold lookup_tool in Hn.
  unfold loadable. rewrite Hn, (byCatalog_found r entry Hok Hin), Hx. cbn [negb]. rewrite Ha. cbn [orb]. by rewrite bool_decide_eq_false_2.
Qed.

Definition may_load (r : toolRegistry) (ids : list string) : Prop := NoDup ids /\ Forall (fun id => loadable r id = loadOK) ids.

Lemma add_once_may r id ids : may_load r ids -> loadable r id = loadOK -> may_load r (add_once id ids).
Proof.
  intros [Hn Hf] Hid. unfold add_once. destruct (decide (id ∈ ids)); [done|]. split.
  - apply list.NoDup_app. split_and!; [done|set_solver|repeat constructor; set_solver].
  - apply list.Forall_app. split; [done|]. by repeat constructor.
Qed.

Lemma names_may r f names : may_load r (sf_loaded f) -> may_load r (sf_loaded (foldl (look_up_name r) f names)).
Proof.
  revert f. induction names as [|name names IH]; intros f Hf; [done|]. cbn [foldl]. apply IH. unfold look_up_name.
  destruct (loadable r (trimmed name)) eqn:E; try done. by apply add_once_may.
Qed.

Lemma ranked_may r searched query exclude ranked : registry_ok r -> rank_query searched query exclude r = Ok ranked ->
  Forall (fun id => loadable r id = loadOK) ranked.
Proof.
  intros Hok. unfold rank_query. destruct (_ || _); [intros [= <-]; constructor|]. destruct (searched _ _) as [ids|]; [|done]. intros [= <-].
  set (pool := filter _ _). assert (Hp : forall id, id ∈ (ts_ID <$> pool) -> loadable r id = loadOK).
  { intros id Hin. apply list_elem_of_fmap in Hin as (spec & -> & Hin). apply list_elem_of_filter in Hin as [_ Hin]. by apply candidate_loadable. }
  assert (Hacc : forall acc, Forall (fun id => loadable r id = loadOK) acc ->
    Forall (fun id => loadable r id = loadOK) (foldl (fun out id => if decide (id ∈ (ts_ID <$> pool)) then add_once id out else out) acc ids)); [|apply Hacc; constructor].
  induction ids as [|id ids IH]; intros acc Ha; [done|]. cbn [foldl]. apply IH. destruct (decide _) as [Hid|]; [|done].
  unfold add_once. destruct (decide (id ∈ acc)); [done|]. apply list.Forall_app. split; [done|]. repeat constructor. by apply Hp.
Qed.

Lemma take_all_may r f i ranked : may_load r (sf_loaded f) -> Forall (fun id => loadable r id = loadOK) ranked ->
  may_load r (sf_loaded (take_all f i ranked)).
Proof.
  intros Hf Hr. revert f i Hf. induction Hr as [|id ranked Hid _ IH]; intros f i Hf; [done|]. cbn [take_all]. apply IH.
  unfold take_ranked. destruct (i <? searchLoadCount)%nat; [by apply add_once_may|]. by destruct (i <? _)%nat.
Qed.

Lemma queries_may r searched queries f out : registry_ok r -> may_load r (sf_loaded f) ->
  run_queries searched r queries f = Ok out -> may_load r (sf_loaded out).
Proof.
  intros Hok. revert f. induction queries as [|query queries IH]; intros f Hf; cbn [run_queries]; [by intros [= <-]|].
  destruct (rank_query searched query (sf_loaded f) r) as [[|id ranked]|] eqn:Er; [| |done].
  - by apply IH.
  - apply IH. apply take_all_may; [done|]. by eapply ranked_may.
Qed.

Section theorems.
Context `{JsonText}.

(** C37: What the Model is shown it can call: in every state of a Session's registry the Specs
    shown have one ID each, and each resolves, by that ID, to a Tool under that very Spec,
    which the Session's Effect cap allows. *)
Theorem shown_tools_resolve r (Hr : registry_of r) :
  NoDup (ts_ID <$> visibleSpecs r) /\
  forall spec, spec ∈ visibleSpecs r ->
    hidden r spec = false /\ exists tool, lookup_tool r (ts_ID spec) = Some (MkEntry tool spec).
Proof.
  apply registry_of_ok in Hr. unfold visibleSpecs. rewrite (ok_specs r Hr).
  assert (ts_ID <$> (te_spec ∘ snd <$> registered r) = (registered r).*1) as E.
  { rewrite <- list_fmap_compose. apply list_fmap_ext. intros i [name e] Hi. cbn.
    by apply list_elem_of_lookup_2, registered_named in Hi. }
  split; [rewrite merge_sort_Permutation, E; by apply registered_unique|].
  intros spec. rewrite merge_sort_Permutation. intros ([name e] & -> & Hin)%list_elem_of_fmap. cbn.
  pose proof (registered_named _ _ _ Hin) as Hn. pose proof (registered_resolves r name e Hr Hin) as Hl. rewrite Hn. split.
  - unfold registered in Hin. rewrite !elem_of_app in Hin. destruct Hin as [Hin|[Hin|Hin]].
    + apply list_elem_of_fmap in Hin as (x & [= -> ->] & Hx). by apply list_elem_of_filter in Hx as [Hx _].
    + apply list_elem_of_fmap in Hin as (x & [= -> ->] & Hx). apply list_elem_of_filter in Hx as [Hx _].
      by apply offered_allowed in Hx as [? _].
    + unfold registered_search in Hin. destruct (hasCatalog r); [|inversion Hin].
      apply list_elem_of_singleton in Hin as [= -> ->]. apply (search_never_hidden r (catalogText quoted r)).
  - exists (te_tool e). rewrite Hl. by destruct e.
Qed.

(** A name the Model calls runs no Tool it may not: whatever name it is, the Tool it
    resolves to is within the Effect cap; and a name in the namespace of a ToolSet resolves to
    that ToolSet's Tool alone, never to a root Tool that took its name, and only when the
    filter keeps it and it is loaded or its ToolSet is installed active. *)
Theorem called_tool_is_allowed r name e (Hr : registry_of r) (He : lookup_tool r name = Some e) :
  hidden r (te_spec e) = false /\
  forall set, set ∈ set_names r -> under set name = true ->
    exists entry, entry ∈ tr_catalog r /\ ct_id entry = name /\ te_tool e = ct_tool entry /\
      refused r name = false /\ (active r entry = true \/ name ∈ tr_loaded r).
Proof.
  apply registry_of_ok in Hr. pose proof (ok_free _ Hr) as Hfree. rewrite list.Forall_forall in Hfree.
  assert (Hstatic : forall x, x ∈ staticTools r -> name = ts_ID (te_spec x) \/ name = ts_Name (te_spec x) ->
            forall set, set ∈ set_names r -> under set name = false).
  { intros x Hx Hname set Hset. destruct (Hfree x Hx) as [Hf1 Hf2]. destruct Hname as [->| ->]; by apply (free_not_under r). }
  destruct (resolves_cases r name e Hr He) as [Hin|(Hin & Hh & Hname)].
  - unfold registered in Hin. rewrite !elem_of_app in Hin. destruct Hin as [Hin|[Hin|Hin]].
    + apply list_elem_of_fmap in Hin as (x & [= -> ->] & Hx). apply list_elem_of_filter in Hx as [Hh Hx]. split; [done|].
      intros set Hset Hu. by rewrite (Hstatic x Hx (or_introl eq_refl) set Hset) in Hu.
    + apply list_elem_of_fmap in Hin as (x & [= -> ->] & Hx). apply list_elem_of_filter in Hx as [Ho Hx].
      apply offered_allowed in Ho as (Hh & Hk & Hl). split; [done|]. intros _ _ _. by exists x.
    + unfold registered_search in Hin. destruct (hasCatalog r); [|inversion Hin].
      apply list_elem_of_singleton in Hin as [= -> ->]. split; [apply (search_never_hidden r (catalogText quoted r))|].
      intros set _ Hu%under_dotted. done.
  - split; [done|]. intros set Hset Hu. by rewrite (Hstatic e Hin Hname set Hset) in Hu.
Qed.

(** A load adds one Tool and changes nothing else the Model sees: the Specs shown are
    those shown before and the loaded Tool's, every other name resolves as before, the text of
    search_tools is the same, and the Tool counts as loaded. *)
Theorem load_adds_one_tool r id (Hr : registry_of r) (Hl : loadable r id = loadOK) :
  exists r' entry, load quoted id r = (r', true) /\ entry ∈ tr_catalog r /\ ct_id entry = id /\
    visibleSpecs r' ≡ₚ visible_spec id (ct_spec entry) :: visibleSpecs r /\
    lookup_tool r' id = Some (MkEntry (ct_tool entry) (visible_spec id (ct_spec entry))) /\
    (forall name, name <> id -> lookup_tool r' name = lookup_tool r name) /\
    tr_description r' = tr_description r /\ loadable r' id = loadAlready.
Proof.
  apply registry_of_ok in Hr. destruct (loadable_ok r id Hl) as (entry & Hin & <- & Hnone & Ha & Hx & Hn).
  pose proof (registered_load r _ entry Hr Hin eq_refl Ha Hx Hn) as Hreg.
  exists (load quoted (ct_id entry) r).1, entry. pose proof (load_ok (ct_id entry) r Hr) as Hr'. revert Hr'.
  unfold load. rewrite Hl. cbn [fst]. set (r' := rebuild _). intros Hr'.
  change (registered (r <| tr_loaded := tr_loaded r ++ [ct_id entry] |>)) with (registered r') in Hreg.
  assert (Hlook : tr_byQualified r' = <[ct_id entry := (registered_tool entry).2]> (tr_byQualified r)).
  { rewrite (ok_byQualified r' Hr'), (ok_byQualified r Hr).
    change (add_aliases r') with (add_aliases r). change (staticTools r') with (staticTools r).
    rewrite (put_names_permute _ _ Hreg) by (by apply registered_unique).
    unfold registered_tool at 1. rewrite put_names_cons.
    - apply aliases_insert. eapply list.Forall_impl; [apply (ok_free _ Hr)|]. cbn. intros e [Hf1 Hf2].
      pose proof (catalog_not_free r entry Hr Hin) as Hnf. split; intros E; apply Hnf; by rewrite <- E.
    - pose proof (registered_unique r' Hr') as Hu. by rewrite Hreg in Hu. }
  split_and!; try done.
  - unfold visibleSpecs. rewrite (ok_specs r' Hr'), (ok_specs r Hr), !merge_sort_Permutation, Hreg. done.
  - unfold lookup_tool. by rewrite Hlook, lookup_insert_eq.
  - intros name Hne. unfold lookup_tool. by rewrite Hlook, lookup_insert_ne.
  - pose proof (ok_view _ Hr) as Hv. rewrite rebuild_eq in Hv. apply (f_equal tr_description) in Hv. cbn in Hv.
    change (tr_description r') with (if hasCatalog r then catalogText quoted r else tr_description r). done.
  - unfold loadable. by rewrite Hlook, lookup_insert_eq.
Qed.

(** A search loads only what the Session may: whatever its arguments and whatever the
    searcher ranks, each Tool its result lists as loaded is one the Session can load now, and
    each is listed once. *)
Theorem search_loads_what_it_may searched input r result (Hr : registry_of r)
    (He : search_Execute searched input r = Ok result) :
  NoDup (tr_LoadedTools result) /\ Forall (fun id => loadable r id = loadOK) (tr_LoadedTools result).
Proof.
  apply registry_of_ok in Hr. unfold search_Execute in He. destruct input as [input|]; [|done].
  destruct (_ && _); [done|]. destruct (run_queries _ _ _ _) as [f|] eqn:Eq; [|done]. injection He as <-. cbn.
  apply (queries_may r searched _ _ f Hr) in Eq; [exact Eq|]. apply names_may. split; constructor.
Qed.

End theorems.

End registry.

(** ** A Session with one ToolSet and a cap *)

Definition sample_spec (id : string) (effect : ToolEffect) : ToolSpec := MkToolSpec id "" "" [] [] false ∅ effect.

#[local] Instance no_json : JsonText := fun _ => None.

Definition sample_new : outcome toolRegistry :=
  newToolRegistry (fun name => name) None false ToolEffectWriteLocal [(Ok (MkSetSpec "files" "Files"), modeListed)]
    [(0%nat, Some (sample_spec "say" ToolEffectRead))] []
    (fun _ => Ok [(1%nat, Some (sample_spec "read" ToolEffectRead)); (2%nat, Some (sample_spec "wipe" ToolEffectDestructive))])
    (fun _ => true) None None.

Definition sample_registry : toolRegistry :=
  match sample_new with Ok r => r | Err _ => registry_empty false ToolEffectUnspecified end.

Lemma sample_registry_of : registry_of (fun name => name) sample_registry.
Proof.
  assert (sample_new = Ok sample_registry) as Hnew by (unfold sample_registry; by vm_compute).
  unfold sample_new in Hnew. exact (NewRegistry _ _ _ _ _ _ _ _ _ _ _ _ Hnew).
Qed.

Definition sample_loaded : toolRegistry := (load (fun name => name) "files.read" sample_registry).1.

Example sample_shown : ts_ID <$> visibleSpecs sample_loaded = ["files.read"; "say"; "search_tools"].
Proof. vm_compute. reflexivity. Qed.

Example sample_capped : loadable sample_registry "files.wipe" = loadNotFound.
Proof. vm_compute. reflexivity. Qed.

Lemma sample_loaded_of : registry_of (fun name => name) sample_loaded.
Proof. eapply NextRegistry; [apply sample_registry_of|apply StepLoad]. Qed.

Lemma shown_tools_resolve_witness :
  ts_ID <$> visibleSpecs sample_loaded = ["files.read"; "say"; "search_tools"] /\ NoDup (ts_ID <$> visibleSpecs sample_loaded).
Proof.
  split; [vm_compute; reflexivity|]. exact (proj1 (shown_tools_resolve (fun name => name) sample_loaded sample_loaded_of)).
Defined.

Lemma called_tool_is_allowed_witness : exists e, lookup_tool sample_loaded "files.read" = Some e /\ hidden sample_loaded (te_spec e) = false.
Proof.
  eexists. split; [vm_compute; reflexivity|].
  refine (proj1 (called_tool_is_allowed (fun name => name) sample_loaded "files.read" _ sample_loaded_of _)). vm_compute. reflexivity.
Defined.

Lemma load_adds_one_tool_witness : exists r', load (fun name => name) "files.read" sample_registry = (r', true) /\ loadable r' "files.read" = loadAlready.
Proof.
  destruct (load_adds_one_tool (fun name => name) sample_registry "files.read" sample_registry_of) as (r' & entry & Hl & _ & _ & _ & _ & _ & _ & Ha);
    [vm_compute; reflexivity|]. by exists r'.
Defined.

Lemma search_loads_what_it_may_witness :
  exists result, search_Execute (fun _ pool => Ok (ts_ID <$> pool)) (Ok (MkSearchInput [] ["read a file"] "")) sample_registry = Ok result /\
    tr_LoadedTools result = ["files.read"] /\ NoDup (tr_LoadedTools result).
Proof.
  eexists. split; [vm_compute; reflexivity|]. split; [reflexivity|].
  refine (proj1 (search_loads_what_it_may (fun name => name) (fun _ pool => Ok (ts_ID <$> pool)) (Ok (MkSearchInput [] ["read a file"] "")) sample_registry _ sample_registry_of _)).
  vm_compute. reflexivity.
Defined.
