(* ===== verification/Reply.v ===== *)
(** * One reply of a Model

    The pure part of [gotato/reply.go], with [gotato/coalesce.go], [gotato/cutoff.go] and the
    Model's events of [gotato/model.go]: what one event of a stream does to the reply being
    read, and what becomes of the reply when its stream completes or breaks.  The calls that
    surround it, which store and send, are those of the Run loop. *)

From S2P Require Import Prelude GoStrings Errors Types.
Local Open Scope string_scope.
Local Open Scope list_scope.

(** ** Data *)

Abbreviation ModelEventKind := string (only parsing).
Definition ModelEventKindTextDelta : ModelEventKind := "text_delta".
Definition ModelEventKindReasoningDelta : ModelEventKind := "reasoning_delta".
Definition ModelEventKindReasoningDone : ModelEventKind := "reasoning_done".
Definition ModelEventKindToolCall : ModelEventKind := "tool_call".
Definition ModelEventKindUsage : ModelEventKind := "usage".
Definition ModelEventKindDone : ModelEventKind := "done".

Record ModelEvent := MkModelEvent {
  me_Kind : ModelEventKind;
  me_Text : string;
  me_ReasoningArtifact : bytes;
  me_ToolCall : option ToolCall;
  me_Usage : Usage;
  me_StopReason : StopReason;
  me_Model : string;
}.

(** [assistantReader]: the reply so far, and the text that is not stored as a part yet. *)
Record assistantReader := MkReader {
  ar_assistant : Message;
  ar_usage : Usage;
  ar_complete : bool;
  ar_size : N;
  ar_partText : string;
  ar_partReasoning : string;
}.
#[export] Instance eta_assistantReader : Eta assistantReader := fun r =>
  MkReader (ar_assistant r) (ar_usage r) (ar_complete r) (ar_size r) (ar_partText r) (ar_partReasoning r).

(** What an event asks to be sent at once, after which the part may be stored. *)
Inductive delta : Type := TextDelta (text : string) | ReasoningDelta (text : string).

(** ** Counting *)

Fixpoint replyBytes (parts : list ContentPart) : N * N :=
  match parts with
  | [] => (0, 0)%N
  | part :: rest =>
    let (text, reasoning) := replyBytes rest in
    if String.eqb (cp_Kind part) ContentKindText then (u64_add text (N.of_nat (slen (cp_Text part))), reasoning)
    else if String.eqb (cp_Kind part) ContentKindReasoning then (text, u64_add reasoning (N.of_nat (slen (cp_Text part))))
    else (text, reasoning)
  end.

Definition limitMessageBytes : string := "MaxMessageBytes".

Definition too_large (operation : string) (message : text error) : RuntimeError :=
  (runtimeError CodeLimitExceeded operation message None) <| Details := {["limit" := DStr limitMessageBytes]} |>.

(** [grow]. *)
Definition grow (limit : N) (n : nat) (r : assistantReader) : result RuntimeError assistantReader :=
  let size := u64_add (ar_size r) (N.of_nat n) in
  if (limit <? size)%N then Err (too_large "ModelStream" (plain_text "maximum Message bytes exceeded"))
  else Ok (r <| ar_size := size |>).

(** ** Parts *)

Definition mergeable (part : ContentPart) : bool :=
  (String.eqb (cp_Kind part) ContentKindText || String.eqb (cp_Kind part) ContentKindReasoning)
  && bool_decide (cp_Data part = []) && String.eqb (cp_MIMEType part) "" && bool_decide (cp_Metadata part = ∅).

(** The loop of [coalesceDeltas]: [block] is the Part that still receives deltas, the last of
    those written so far, and its text is the builder's. *)
Fixpoint coalesce_from (block : option ContentPart) (parts : list ContentPart) : list ContentPart :=
  match parts with
  | [] => match block with Some b => [b] | None => [] end
  | part :: rest =>
    match block with
    | Some b =>
      if mergeable part && String.eqb (cp_Kind part) (cp_Kind b) then
        let b := b <| cp_Text := (cp_Text b ++ cp_Text part)%string |> <| cp_Signature := cp_Signature part |> in
        if bool_decide (cp_Signature b = []) then coalesce_from (Some b) rest else b :: coalesce_from None rest
      else
        b :: (if mergeable part then
                if bool_decide (cp_Signature part = []) then coalesce_from (Some part) rest else part :: coalesce_from None rest
              else part :: coalesce_from None rest)
    | None =>
      if mergeable part then
        if bool_decide (cp_Signature part = []) then coalesce_from (Some part) rest else part :: coalesce_from None rest
      else part :: coalesce_from None rest
    end
  end.

(** [coalesceDeltas]. *)
Definition coalesceDeltas (parts : list ContentPart) : list ContentPart :=
  if (length parts <? 2)%nat then parts else coalesce_from None parts.

(** [cutOffReply]. *)
Definition cutOffReply (partial : Message) : Message :=
  let parts :=
    filter (fun part => cp_Kind part = ContentKindText /\ cp_Text part <> "") (m_Parts partial) in
  match parts with
  | [] => message_zero
  | _ =>
    message_zero <| m_ID := m_ID partial |> <| m_RunID := m_RunID partial |> <| m_Role := RoleAssistant |>
      <| m_Parts := coalesceDeltas parts |> <| m_StopReason := StopReasonCutOff |> <| m_Model := m_Model partial |>
  end.

(** The place of the last Part of reasoning. *)
Fixpoint last_reasoning (parts : list ContentPart) : option nat :=
  match parts with
  | [] => None
  | part :: rest =>
    match last_reasoning rest with
    | Some i => Some (S i)
    | None => if String.eqb (cp_Kind part) ContentKindReasoning then Some 0%nat else None
    end
  end.

Definition sign (artifact : bytes) (part : ContentPart) : ContentPart := part <| cp_Signature := artifact |>.

(** [signReasoning]. *)
Definition signReasoning (parts : list ContentPart) (artifact : bytes) : list ContentPart :=
  let alone := parts ++ [sign artifact (part_of ContentKindReasoning "")] in
  match last_reasoning parts with
  | None => alone
  | Some i =>
    match parts !! i with
    | Some part => if bool_decide (cp_Signature part = []) then <[i := sign artifact part]> parts else alone
    | None => alone
    end
  end.

(** ** Tool calls *)

Definition protocol_failure (message : string) : RuntimeError := runtimeError CodeModelProtocolFailure "ModelStream" (plain_text message) None.

(** [appendToolCall]. *)
Definition appendToolCall (calls : list ToolCall) (call : option ToolCall) : result RuntimeError (list ToolCall) :=
  match call with
  | None => Err (protocol_failure "invalid Tool Call")
  | Some call =>
    if String.eqb (tc_ID call) "" || String.eqb (tc_ToolID call) "" then Err (protocol_failure "invalid Tool Call")
    else if decide (tc_ID call ∈ (tc_ID <$> calls)) then Err (protocol_failure "duplicate Tool Call ID")
    else Ok (calls ++ [call])
  end.

Definition call_bytes (call : ToolCall) : nat :=
  slen (tc_ID call) + slen (tc_ToolID call) + length (tc_Arguments call) + length (tc_Signature call).

(** ** One event *)

Definition add_part (part : ContentPart) (r : assistantReader) : assistantReader :=
  r <| ar_assistant := (ar_assistant r) <| m_Parts := m_Parts (ar_assistant r) ++ [part] |> |>.

Definition has_usage (u : Usage) : bool :=
  negb (N.eqb (us_TotalTokens u) 0) || negb (N.eqb (us_InputTokens u) 0) || negb (N.eqb (us_OutputTokens u) 0).

(** [apply], but for what it sends and stores: an event that is refused changes nothing but
    the name of the model that answers. *)
Definition apply_event (limit : N) (event : ModelEvent) (r : assistantReader)
    : assistantReader * result RuntimeError (option delta) :=
  let r := if String.eqb (me_Model event) "" then r
           else r <| ar_assistant := (ar_assistant r) <| m_Model := me_Model event |> |> in
  if String.eqb (me_Kind event) ModelEventKindTextDelta then
    if String.eqb (me_Text event) "" then (r, Ok None)
    else
      match grow limit (slen (me_Text event)) r with
      | Err err => (r, Err err)
      | Ok r =>
        let r := add_part (part_of ContentKindText (me_Text event)) r in
        (r <| ar_partText := (ar_partText r ++ me_Text event)%string |>, Ok (Some (TextDelta (me_Text event))))
      end
  else if String.eqb (me_Kind event) ModelEventKindReasoningDelta then
    if String.eqb (me_Text event) "" then (r, Ok None)
    else
      match grow limit (slen (me_Text event)) r with
      | Err err => (r, Err err)
      | Ok r =>
        let r := add_part (part_of ContentKindReasoning (me_Text event)) r in
        (r <| ar_partReasoning := (ar_partReasoning r ++ me_Text event)%string |>, Ok (Some (ReasoningDelta (me_Text event))))
      end
  else if String.eqb (me_Kind event) ModelEventKindReasoningDone then
    match grow limit (length (me_ReasoningArtifact event)) r with
    | Err err => (r, Err err)
    | Ok r =>
      (r <| ar_assistant := (ar_assistant r) <| m_Parts := signReasoning (m_Parts (ar_assistant r)) (me_ReasoningArtifact event) |> |>, Ok None)
    end
  else if String.eqb (me_Kind event) ModelEventKindToolCall then
    match (match me_ToolCall event with Some call => grow limit (call_bytes call) r | None => Ok r end) with
    | Err err => (r, Err err)
    | Ok r =>
      match appendToolCall (m_ToolCalls (ar_assistant r)) (me_ToolCall event) with
      | Err err => (r, Err err)
      | Ok calls => (r <| ar_assistant := (ar_assistant r) <| m_ToolCalls := calls |> |>, Ok None)
      end
    end
  else if String.eqb (me_Kind event) ModelEventKindUsage then (r <| ar_usage := me_Usage event |>, Ok None)
  else if String.eqb (me_Kind event) ModelEventKindDone then
    let r := r <| ar_complete := true |> in
    let reason := if String.eqb (me_StopReason event) "" then StopReasonEndTurn else me_StopReason event in
    let r := r <| ar_assistant := (ar_assistant r) <| m_StopReason := reason |> |> in
    (if has_usage (me_Usage event) then r <| ar_usage := me_Usage event |> else r, Ok None)
  else (r, Err (protocol_failure "unknown Model event")).

(** The reply of a stream that completed, and of one that broke ([broken]). *)
Definition whole_reply (r : assistantReader) : Message :=
  (ar_assistant r) <| m_Parts := coalesceDeltas (m_Parts (ar_assistant r)) |> <| m_Usage := ar_usage r |>.

Definition broken_reply (r : assistantReader) : Message := (cutOffReply (ar_assistant r)) <| m_Usage := ar_usage r |>.

(** A new reply, and the one that [retried] starts. *)
Definition start_reply (id : MessageID) (run : RunID) (model : string) : assistantReader :=
  MkReader (message_zero <| m_ID := id |> <| m_RunID := run |> <| m_Role := RoleAssistant |> <| m_Model := model |>)
    usage_zero false 0 "" "".

Fixpoint apply_events (limit : N) (events : list ModelEvent) (r : assistantReader) : assistantReader :=
  match events with
  | [] => r
  | event :: rest => let (r, answer) := apply_event limit event r in if is_ok answer then apply_events limit rest r else r
  end.

(** ** Blocks *)

(** The text of the Parts of a kind, in order. *)
Fixpoint text_of (kind : ContentKind) (parts : list ContentPart) : string :=
  match parts with
  | [] => ""
  | part :: rest => ((if String.eqb (cp_Kind part) kind then cp_Text part else "") ++ text_of kind rest)%string
  end.

Lemma app_assoc_string (a b c : string) : (a ++ b ++ c)%string = ((a ++ b) ++ c)%string.
Proof. induction a as [|x a IH]; [done|]. exact (f_equal (String x) IH). Qed.

Lemma app_empty_r (a : string) : (a ++ "")%string = a.
Proof. induction a as [|x a IH]; [done|]. exact (f_equal (String x) IH). Qed.

Lemma coalesce_text kind block parts :
  text_of kind (coalesce_from block parts) =
  (match block with Some b => if String.eqb (cp_Kind b) kind then cp_Text b else "" | None => "" end ++ text_of kind parts)%string.
Proof.
  revert block. induction parts as [|part rest IH]; intros block.
  - destruct block as [b|]; [|done]. cbn. by rewrite !app_empty_r.
  - cbn [coalesce_from]. destruct block as [b|].
    + destruct (mergeable part && String.eqb (cp_Kind part) (cp_Kind b)) eqn:E.
      * apply andb_prop in E as [_ Ek]. apply String.eqb_eq in Ek. cbv zeta. case_bool_decide; cbn [text_of]; rewrite IH; cbn;
          rewrite Ek; destruct (String.eqb (cp_Kind b) kind); rewrite ?app_assoc_string, ?app_empty_r; done.
      * cbn [text_of]. destruct (mergeable part); [case_bool_decide|]; cbn [text_of]; rewrite IH; done.
    + destruct (mergeable part); [case_bool_decide|]; cbn [text_of]; rewrite IH; done.
Qed.

(** Two Parts that the code would have written as one. *)
Definition joinable (a b : ContentPart) : bool :=
  mergeable a && mergeable b && String.eqb (cp_Kind b) (cp_Kind a) && bool_decide (cp_Signature a = []).

Fixpoint separated (parts : list ContentPart) : bool :=
  match parts with
  | a :: (b :: _) as rest => negb (joinable a b) && separated rest
  | _ => true
  end.

Lemma separated_cons a l : separated (a :: l) = match l with [] => true | b :: _ => negb (joinable a b) end && separated l.
Proof. by destruct l. Qed.

Lemma signed_not_joinable a b : cp_Signature a <> [] -> joinable a b = false.
Proof. intros Hs. unfold joinable. rewrite (bool_decide_eq_false_2 (cp_Signature a = [])) by done. apply andb_false_r. Qed.

(** What [coalesce_from] starts with, and that no two neighbours of it can be joined. *)
Lemma coalesce_separated block parts :
  match block with Some b => mergeable b = true /\ cp_Signature b = [] | None => True end ->
  separated (coalesce_from block parts) = true /\
  match block with
  | Some b => exists c rest, coalesce_from block parts = c :: rest /\ cp_Kind c = cp_Kind b /\ mergeable c = true
  | None => match coalesce_from None parts, parts with
            | c :: _, part :: _ => cp_Kind c = cp_Kind part /\ mergeable c = mergeable part
            | [], [] => True
            | _, _ => False
            end
  end.
Proof.
  revert block. induction parts as [|part rest IH]; intros block Hb.
  - destruct block as [b|]; [|done]. split; [done|]. exists b, []. by destruct Hb.
  - assert (Hstart : separated (coalesce_from None (part :: rest)) = true /\
        match coalesce_from None (part :: rest) with c :: _ => cp_Kind c = cp_Kind part /\ mergeable c = mergeable part | [] => False end).
    { cbn [coalesce_from]. destruct (mergeable part) eqn:Em; [case_bool_decide as Hs|].
      - destruct (IH (Some part) (conj Em Hs)) as (Hsep & c & l & Hc & Hk & Hm). by rewrite Hc in Hsep |- *.
      - destruct (IH None I) as [Hsep _]. rewrite separated_cons, Hsep, andb_true_r. split; [|done].
        destruct (coalesce_from None rest); [done|]. by rewrite signed_not_joinable.
      - destruct (IH None I) as [Hsep _]. rewrite separated_cons, Hsep, andb_true_r. split; [|done].
        destruct (coalesce_from None rest); [done|]. unfold joinable. by rewrite Em. }
    destruct block as [b|]; [|destruct Hstart as [Hs Hc]; split; [exact Hs|]; by destruct (coalesce_from None (part :: rest))].
    destruct Hb as [Hm Hs]. cbn [coalesce_from]. destruct (mergeable part && String.eqb (cp_Kind part) (cp_Kind b)) eqn:E.
    + apply andb_prop in E as [Emp Ek]. apply String.eqb_eq in Ek. cbv zeta. set (b' := _ : ContentPart).
      assert (mergeable b' = true) as Hm' by exact Hm. case_bool_decide as Hs'.
      * destruct (IH (Some b') (conj Hm' Hs')) as (Hsep & c & l & Hc & Hk & Hmc). split; [done|]. by exists c, l.
      * destruct (IH None I) as [Hsep _]. split; [|by exists b', (coalesce_from None rest)].
        rewrite separated_cons, Hsep, andb_true_r. destruct (coalesce_from None rest); [done|]. by rewrite signed_not_joinable.
    + change (if mergeable part then if bool_decide (cp_Signature part = []) then coalesce_from (Some part) rest
                else part :: coalesce_from None rest else part :: coalesce_from None rest) with (coalesce_from None (part :: rest)).
      destruct Hstart as [Hsep Hc]. split; [|by exists b, (coalesce_from None (part :: rest))].
      rewrite separated_cons, Hsep, andb_true_r. destruct (coalesce_from None (part :: rest)) as [|c l]; [done|].
      destruct Hc as [Hk Hmc]. unfold joinable. rewrite Hm, Hmc, Hk. cbn [andb].
      by rewrite E.
Qed.

Lemma coalesce_done parts : separated parts = true -> coalesce_from None parts = parts.
Proof.
  assert (Hblock : forall parts, separated parts = true ->
    coalesce_from None parts = parts /\
    forall b, mergeable b = true -> cp_Signature b = [] -> separated (b :: parts) = true -> coalesce_from (Some b) parts = b :: parts);
    [|by intros Hs; apply Hblock].
  clear parts. intros parts. induction parts as [|part rest IH]; intros Hs; [done|].
  rewrite separated_cons in Hs. apply andb_prop in Hs as [Hhead Hs]. destruct (IH Hs) as [Hnone Hsome].
  assert (Hstart : coalesce_from None (part :: rest) = part :: rest).
  { cbn [coalesce_from]. rewrite Hnone. destruct (mergeable part) eqn:Em; [|done]. case_bool_decide as Hsig; [|done].
    apply Hsome; [done|done|]. by rewrite separated_cons, Hhead, Hs. }
  split; [exact Hstart|]. intros b Hm Hsig Hb. rewrite separated_cons in Hb. apply andb_prop in Hb as [Hb _].
  cbn [coalesce_from]. destruct (mergeable part && String.eqb (cp_Kind part) (cp_Kind b)) eqn:E.
  - apply andb_prop in E as [Em Ek]. unfold joinable in Hb. rewrite Hm, Em, Ek, (bool_decide_eq_true_2 (cp_Signature b = [])) in Hb by done. done.
  - f_equal. exact Hstart.
Qed.

Lemma coalesceDeltas_text kind parts : text_of kind (coalesceDeltas parts) = text_of kind parts.
Proof. unfold coalesceDeltas. destruct (_ <? 2)%nat; [done|]. apply (coalesce_text kind None parts). Qed.

(** What a reply is stored as says what the stream said: coalescing the Parts keeps the
    text and the reasoning, in order; it leaves no two neighbours that could still be one; and
    doing it again changes nothing. *)
Theorem coalesce_keeps_the_reply parts :
  (forall kind, text_of kind (coalesceDeltas parts) = text_of kind parts) /\
  separated (coalesceDeltas parts) = true /\
  coalesceDeltas (coalesceDeltas parts) = coalesceDeltas parts.
Proof.
  split; [intros kind; apply coalesceDeltas_text|]. unfold coalesceDeltas at 1 3 4. destruct (length parts <? 2)%nat eqn:E.
  - split; [|unfold coalesceDeltas; by rewrite E].
    destruct parts as [|a [|b rest]]; [done|done|]. cbn in E. discriminate.
  - destruct (coalesce_separated None parts I) as [Hs _]. split; [done|].
    unfold coalesceDeltas. destruct (length (coalesce_from None parts) <? 2)%nat; [done|]. by apply coalesce_done.
Qed.

(** ** Size *)

Definition part_bytes (part : ContentPart) : nat := slen (cp_Text part) + length (cp_Signature part).

(** The bytes the reader counts of a reply. *)
Definition content_size (m : Message) : nat := sum_list (part_bytes <$> m_Parts m) + sum_list (call_bytes <$> m_ToolCalls m).

Definition event_bytes (event : ModelEvent) : nat :=
  slen (me_Text event) + length (me_ReasoningArtifact event) + match me_ToolCall event with Some call => call_bytes call | None => 0 end.

(** Half of what a counter holds: no text in memory is longer. *)
Definition two63 : N := (2 ^ 63)%N.

Lemma last_reasoning_found parts i : last_reasoning parts = Some i -> is_Some (parts !! i).
Proof.
  revert i. induction parts as [|part rest IH]; intros i; [done|]. cbn [last_reasoning].
  destruct (last_reasoning rest) as [j|]; [intros [= <-]; by apply IH|]. destruct (String.eqb _ _); [|done]. intros [= <-]. by exists part.
Qed.

Lemma sum_insert parts i part part' n : parts !! i = Some part -> part_bytes part' = part_bytes part + n ->
  sum_list (part_bytes <$> <[i := part']> parts) = sum_list (part_bytes <$> parts) + n.
Proof.
  revert i. induction parts as [|p rest IH]; intros i Hi Hn; [done|]. destruct i as [|i].
  - injection Hi as ->. cbn. lia.
  - change (part_bytes p + sum_list (part_bytes <$> <[i := part']> rest) = part_bytes p + sum_list (part_bytes <$> rest) + n).
    rewrite (IH i Hi Hn). lia.
Qed.

Lemma sign_size parts artifact :
  sum_list (part_bytes <$> signReasoning parts artifact) = sum_list (part_bytes <$> parts) + length artifact.
Proof.
  assert (Halone : sum_list (part_bytes <$> parts ++ [sign artifact (part_of ContentKindReasoning "")]) =
            sum_list (part_bytes <$> parts) + length artifact).
  { rewrite fmap_app, sum_list_with_app. cbn. lia. }
  unfold signReasoning. destruct (last_reasoning parts) as [i|] eqn:E; [|done].
  destruct (last_reasoning_found parts i E) as [part Hpart]. rewrite Hpart. case_bool_decide as Hs; [|done].
  apply (sum_insert parts i part); [done|].
  change (slen (cp_Text part) + length artifact = slen (cp_Text part) + length (cp_Signature part) + length artifact).
  rewrite Hs. cbn [length]. lia.
Qed.

(** What holds of a reply while it is read. *)
Record reader_ok (limit : N) (r : assistantReader) : Prop := {
  ro_size : (N.of_nat (content_size (ar_assistant r)) <= ar_size r)%N;
  ro_limit : (ar_size r <= limit)%N;
  ro_calls : NoDup (tc_ID <$> m_ToolCalls (ar_assistant r));
  ro_named : Forall (fun call => tc_ID call <> "" /\ tc_ToolID call <> "") (m_ToolCalls (ar_assistant r));
}.

Lemma grow_ok limit n r r' : (limit < two63)%N -> (N.of_nat n < two63)%N -> (ar_size r <= limit)%N ->
  grow limit n r = Ok r' ->
  ar_assistant r' = ar_assistant r /\ ar_size r' = (ar_size r + N.of_nat n)%N /\ (ar_size r' <= limit)%N.
Proof.
  intros Hl Hn Hs. unfold grow, u64_add. rewrite u64_small by (unfold two63, two64 in *; lia).
  destruct (N.ltb_spec limit (ar_size r + N.of_nat n)); [done|]. intros [= <-]. by split.
Qed.

Lemma appendToolCall_ok calls call calls' : appendToolCall calls call = Ok calls' ->
  exists added, call = Some added /\ calls' = calls ++ [added] /\ tc_ID added <> "" /\ tc_ToolID added <> "" /\ tc_ID added ∉ (tc_ID <$> calls).
Proof.
  unfold appendToolCall. destruct call as [call|]; [|done]. destruct (String.eqb_spec (tc_ID call) ""); [done|].
  destruct (String.eqb_spec (tc_ToolID call) ""); [done|]. cbn [orb]. destruct (decide _); [done|]. intros [= <-]. by exists call.
Qed.

Lemma apply_event_ok limit event r : (limit < two63)%N -> (N.of_nat (event_bytes event) < two63)%N -> reader_ok limit r ->
  reader_ok limit (apply_event limit event r).1.
Proof.
  intros Hl He Hr. unfold apply_event.
  set (r1 := if String.eqb (me_Model event) "" then r else _).
  assert (Hr1 : reader_ok limit r1) by (unfold r1; destruct (String.eqb _ _); [done|]; by destruct Hr).
  clearbody r1. clear Hr r. unfold event_bytes in He.
  assert (Hdelta : forall kind, me_Text event <> "" ->
    forall r', grow limit (slen (me_Text event)) r1 = Ok r' -> reader_ok limit (add_part (part_of kind (me_Text event)) r')).
  { intros kind _ r' Hg. apply grow_ok in Hg as (Ha & Hsize & Hlim); [|done|lia|apply Hr1]. destruct Hr1 as [H1 H2 H3 H4].
    split; cbn; rewrite ?Ha; try done. unfold content_size in *. cbn. rewrite fmap_app, sum_list_with_app. cbn.
    rewrite Hsize. unfold slen. lia. }
  destruct (String.eqb (me_Kind event) ModelEventKindTextDelta).
  { destruct (String.eqb_spec (me_Text event) ""); [done|]. destruct (grow _ _ r1) as [r'|] eqn:Eg; [|done].
    by destruct (Hdelta ContentKindText ltac:(done) r' eq_refl). }
  destruct (String.eqb (me_Kind event) ModelEventKindReasoningDelta).
  { destruct (String.eqb_spec (me_Text event) ""); [done|]. destruct (grow _ _ r1) as [r'|] eqn:Eg; [|done].
    by destruct (Hdelta ContentKindReasoning ltac:(done) r' eq_refl). }
  clear Hdelta. destruct (String.eqb (me_Kind event) ModelEventKindReasoningDone).
  { destruct (grow _ _ r1) as [r'|] eqn:Eg; [|done]. apply grow_ok in Eg as (Ha & Hsize & Hlim); [|done|lia|apply Hr1].
    destruct Hr1 as [H1 H2 H3 H4]. split; cbn; rewrite ?Ha; try done. unfold content_size in *. cbn. rewrite sign_size.
    rewrite Hsize. lia. }
  destruct (String.eqb (me_Kind event) ModelEventKindToolCall).
  { destruct (me_ToolCall event) as [call|]; [|by destruct (appendToolCall _ None) eqn:E; [apply appendToolCall_ok in E as (? & ? & _)|]].
    destruct (grow _ _ r1) as [r'|] eqn:Eg; [|done]. apply grow_ok in Eg as (Ha & Hsize & Hlim); [|done|lia|apply Hr1].
    destruct (appendToolCall _ _) as [calls|] eqn:E.
    - apply appendToolCall_ok in E as (added & [= <-] & -> & Hid & Htool & Hnew). rewrite Ha in *. destruct Hr1 as [H1 H2 H3 H4].
      split; cbn; try done.
      + unfold content_size in *. cbn. rewrite fmap_app, sum_list_with_app, Hsize. cbn. lia.
      + rewrite fmap_app. apply list.NoDup_app. split_and!; [done| |repeat constructor; set_solver]. set_solver.
      + apply list.Forall_app. split; [done|]. by repeat constructor.
    - destruct Hr1 as [H1 H2 H3 H4]. split; cbn [fst]; rewrite ?Ha, ?Hsize; try done; lia. }
  destruct (String.eqb (me_Kind event) ModelEventKindUsage); [by destruct Hr1|].
  destruct (String.eqb (me_Kind event) ModelEventKindDone); [|done].
  destruct (has_usage (me_Usage event)); by destruct Hr1.
Qed.

Lemma apply_events_ok limit events r : (limit < two63)%N -> Forall (fun event => (N.of_nat (event_bytes event) < two63)%N) events ->
  reader_ok limit r -> reader_ok limit (apply_events limit events r).
Proof.
  intros Hl He. revert r. induction He as [|event rest He _ IH]; intros r Hr; [done|]. cbn [apply_events].
  pose proof (apply_event_ok limit event r Hl He Hr) as Hr'. destruct (apply_event limit event r) as [r' answer]. cbn [fst] in Hr'.
  destruct (is_ok answer); [by apply IH|done].
Qed.

(** A reply never outgrows the limit of a Message: whatever events a Model streams, the
    content kept of its reply is at most MaxMessageBytes long, and its Tool calls have an ID
    and a Tool each, and no ID twice. *)
Theorem reply_within_limit limit events id run model (Hl : (limit < two63)%N)
    (He : Forall (fun event => (N.of_nat (event_bytes event) < two63)%N) events) :
  let reply := ar_assistant (apply_events limit events (start_reply id run model)) in
  (N.of_nat (content_size reply) <= limit)%N /\ NoDup (tc_ID <$> m_ToolCalls reply) /\
  Forall (fun call => tc_ID call <> "" /\ tc_ToolID call <> "") (m_ToolCalls reply).
Proof.
  assert (Hr : reader_ok limit (start_reply id run model)) by (split; cbn; [done|lia|constructor|constructor]).
  destruct (apply_events_ok limit events _ Hl He Hr) as [H1 H2 H3 H4]. cbv zeta. split_and!; [lia|done|done].
Qed.

(** ** What is kept of a reply that broke *)

Lemma coalesce_all P block parts : (forall a b, P a -> cp_Kind b = cp_Kind a -> P b) ->
  Forall P parts -> match block with Some b => P b | None => True end -> Forall P (coalesce_from block parts).
Proof.
  intros HP Hf. revert block. induction Hf as [|part rest Hp _ IH]; intros block Hb.
  - destruct block; repeat constructor. done.
  - assert (Forall P (coalesce_from None (part :: rest))) as Hnone.
    { cbn [coalesce_from]. destruct (mergeable part); [case_bool_decide|]; [by apply IH| |]; constructor; auto. }
    destruct block as [b|]; [|exact Hnone]. cbn [coalesce_from]. destruct (_ && _); [|by constructor].
    cbv zeta. case_bool_decide; [apply IH|constructor; [|by apply IH]]; by eapply HP.
Qed.

Lemma text_of_filter parts :
  text_of ContentKindText (filter (fun part => cp_Kind part = ContentKindText /\ cp_Text part <> "") parts) = text_of ContentKindText parts.
Proof.
  induction parts as [|part rest IH]; [done|]. rewrite filter_cons. destruct (decide _) as [[Hk Ht]|Hn]; cbn [text_of].
  - by rewrite IH.
  - rewrite IH. destruct (String.eqb_spec (cp_Kind part) ContentKindText) as [Hk|]; [|done].
    destruct (decide (cp_Text part = "")) as [->|]; [done|]. by destruct Hn.
Qed.

(** What is kept of a reply whose stream broke is its text, all of it and nothing else: no
    Tool call, which nobody would answer, and no reasoning; and no Message at all when no
    text had arrived. *)
Theorem cut_off_reply_keeps_text partial :
  text_of ContentKindText (m_Parts (cutOffReply partial)) = text_of ContentKindText (m_Parts partial) /\
  m_ToolCalls (cutOffReply partial) = [] /\
  Forall (fun part => cp_Kind part = ContentKindText) (m_Parts (cutOffReply partial)) /\
  (text_of ContentKindText (m_Parts partial) = "" <-> cutOffReply partial = message_zero).
Proof.
  rewrite <- (text_of_filter (m_Parts partial)). unfold cutOffReply.
  set (kept := filter _ (m_Parts partial)).
  assert (Hkept : Forall (fun part => cp_Kind part = ContentKindText /\ cp_Text part <> "") kept).
  { apply list.Forall_forall. intros part Hin. by apply list_elem_of_filter in Hin as [? _]. }
  assert (Htext : kept <> [] -> text_of ContentKindText kept <> "").
  { destruct Hkept as [|part rest [Hk Ht] _]; [done|]. intros _. cbn [text_of]. rewrite Hk. cbn.
    by destruct (cp_Text part). }
  assert (Hkind : Forall (fun part => cp_Kind part = ContentKindText) kept) by (eapply list.Forall_impl; [apply Hkept|]; naive_solver).
  clearbody kept. destruct kept as [|part rest]; [by repeat constructor|].
  split_and!; [apply coalesceDeltas_text|done| |].
  - cbn [m_Parts]. unfold coalesceDeltas. destruct (_ <? 2)%nat; [done|]. apply (coalesce_all _ None); [congruence|done|done].
  - split; [intros E; by destruct Htext|]. intros E. by apply (f_equal m_StopReason) in E.
Qed.

(** A Model that thinks, says a word and calls a Tool twice under one ID. *)
Definition sample_event (kind : ModelEventKind) (text : string) (call : option ToolCall) : ModelEvent :=
  MkModelEvent kind text [] call usage_zero "" "".

Definition sample_call : ToolCall := MkToolCall "c1" "say" [] [].

Definition sample_events : list ModelEvent :=
  [sample_event ModelEventKindReasoningDelta "so" None; sample_event ModelEventKindTextDelta "hello" None;
   sample_event ModelEventKindToolCall "" (Some sample_call); sample_event ModelEventKindToolCall "" (Some sample_call);
   sample_event ModelEventKindTextDelta "never read" None].

Lemma reply_within_limit_witness :
  text_of ContentKindText (m_Parts (ar_assistant (apply_events 100 sample_events (start_reply "m" "r" "")))) = "hello" /\
  (N.of_nat (content_size (ar_assistant (apply_events 100 sample_events (start_reply "m" "r" "")))) <= 100)%N.
Proof.
  split; [reflexivity|]. refine (proj1 (reply_within_limit 100 sample_events "m" "r" "" _ _)); [reflexivity|repeat constructor].
Defined.
