(* ===== verification/Session.v ===== *)
(** * A Session's goroutine

    What one Run does to the world around it, as a program: [gotato/eventwrite.go] (staging and
    flushing), [gotato/history.go], [gotato/limits.go], [gotato/extensions.go],
    [gotato/toolrefresh.go] and [gotato/spill.go].  What only the Session's goroutine writes
    is its [local] state; what it asks of the host, of the Model, of the clock, of the parts it
    shares with other goroutines (the queue, the journal, the Run's lock) is an [op], which
    the world answers.  A host's panic is the error that [callHost] makes of it, so an [op]
    that calls the host answers an [outcome]. *)

From S2P Require Import Prelude GoStrings Text Ref Errors Types Events Request Schema ToolRegistry Reply ControlQueue.
Local Open Scope string_scope.
Local Open Scope list_scope.

(** ** Limits *)

Record CoreLimits := MkLimits {
  lm_MaxMessages : N;
  lm_MaxMessageBytes : N;
  lm_MaxTranscriptBytes : N;
  lm_MaxSteerMessages : N;
  lm_MaxFollowUpMessages : N;
  lm_MaxNotices : N;
  lm_MaxTruncatedContinuations : N;
  lm_MaxParallelTools : N;
  lm_ModelCallDeadline : duration;
  lm_ToolCallDeadline : duration;
  lm_SpillPreviewBytes : N;
}.

Definition defaultLimits : CoreLimits :=
  MkLimits 10000 (4 * 2 ^ 20) (32 * 2 ^ 20) 8 4 16 0 1 (120 * second) (120 * second) 8000.

Definition orDefault (v def : N) : N := if N.eqb v 0 then def else v.
Definition orDefaultZ (v def : Z) : Z := if Z.eqb v 0 then def else v.

Definition withDefaults (l : CoreLimits) : CoreLimits :=
  let d := defaultLimits in
  MkLimits (orDefault (lm_MaxMessages l) (lm_MaxMessages d)) (orDefault (lm_MaxMessageBytes l) (lm_MaxMessageBytes d))
    (orDefault (lm_MaxTranscriptBytes l) (lm_MaxTranscriptBytes d)) (orDefault (lm_MaxSteerMessages l) (lm_MaxSteerMessages d))
    (orDefault (lm_MaxFollowUpMessages l) (lm_MaxFollowUpMessages d)) (orDefault (lm_MaxNotices l) (lm_MaxNotices d))
    (lm_MaxTruncatedContinuations l) (orDefault (lm_MaxParallelTools l) (lm_MaxParallelTools d))
    (orDefaultZ (lm_ModelCallDeadline l) (lm_ModelCallDeadline d)) (orDefaultZ (lm_ToolCallDeadline l) (lm_ToolCallDeadline d))
    (orDefault (lm_SpillPreviewBytes l) (lm_SpillPreviewBytes d)).

Definition TruncatedContinuationText : string :=
  "Your last reply was cut off at the output limit before you acted. Continue from where you stopped: keep any reasoning short and take the next step with a tool call, or give your final answer.".

(** [uint32(n)] of an [int]. *)
Definition u32 (n : nat) : N := (N.of_nat n mod 2 ^ 32)%N.

Definition u32_add (a b : N) : N := ((a + b) mod 2 ^ 32)%N.

Definition limitExceeded (limit value : N) : bool := (limit <? value)%N.

(** ** What a Run asks the world *)

(** What a Transcript declares, as far as a Run asks; [cs_Loaded] says it lists the loaded Tools. *)
Record Capabilities := MkCapabilities { ca_Durable : bool; ca_Spill : bool; ca_Loaded : bool }.

Record ToolUse := MkToolUse {
  tu_SessionID : SessionID;
  tu_RunID : RunID;
  tu_Turn : TurnNumber;
  tu_CallID : ToolCallID;
  tu_Tool : string;
  tu_Arguments : bytes;
  tu_SourceIndex : nat;
  tu_Effect : ToolEffect;
}.

Record PreToolDecision := MkDecision { pd_Block : bool; pd_Reason : string; pd_Result : option ToolResult }.
Definition decision_zero : PreToolDecision := MkDecision false "" None.

Record StopDecision := MkStop { sd_Stop : bool; sd_Reason : string }.

Record ContextSnapshot := MkSnapshot {
  cx_SessionID : SessionID;
  cx_RunID : RunID;
  cx_Turn : TurnNumber;
  cx_SystemInstructions : string;
  cx_Messages : list Message;
}.
#[export] Instance eta_ContextSnapshot : Eta ContextSnapshot := fun r =>
  MkSnapshot (cx_SessionID r) (cx_RunID r) (cx_Turn r) (cx_SystemInstructions r) (cx_Messages r).

Record TurnSnapshot := MkTurnSnapshot {
  sn_RunID : RunID;
  sn_Turn : TurnNumber;
  sn_Assistant : Message;
  sn_ToolResults : list ToolResult;
  sn_StopReason : StopReason;
}.

(** What a TurnPreparer is given; the Transcript and Flush are the world's to use. *)
Record Pending := MkPending {
  pp_RunID : RunID;
  pp_Turn : TurnNumber;
  pp_RunStart : nat;
  pp_Request : ModelRequest;
  pp_Refusal : option RuntimeError;
}.

Record ModelRetry := MkRetry { rt_Attempt : Z; rt_WaitMS : float64; rt_Error : string }.

(** One answer of [Recv], after the retries the Model reported meanwhile. *)
Definition received := (list ModelRetry * outcome ModelEvent)%type.

(** What a worker knows of the Tool call it ran ([runTool]): what the Tool answered, or an
    error or a panic, and whether the call was past its own deadline with the Run still going. *)
Inductive executed : Type :=
| Answered (result : ToolResult)
| FailedCall (err : error) (deadline : bool)
| PanickedCall (public : string) (cause : error) (deadline : bool).

(** What the Session's goroutine waits for while Tools run: reports of progress, and then a
    result, or the end of the Run's context with the results that were waiting. *)
Inductive toolSignal : Type :=
| Finished (index : nat) (outcome : executed)
| RunDone (waiting : list (nat * executed)).

Record toolPlan := MkPlan {
  pl_index : nat;
  pl_call : ToolCall;
  pl_tool : option Tool;
  pl_use : option ToolUse;
  pl_sequential : bool;
  pl_blocked : bool;
  pl_result : ToolResult;
}.
#[export] Instance eta_toolPlan : Eta toolPlan := fun r =>
  MkPlan (pl_index r) (pl_call r) (pl_tool r) (pl_use r) (pl_sequential r) (pl_blocked r) (pl_result r).

(** Which context a write is made under: the Run's, or one detached from its cancellation. *)
Inductive writeCtx : Type := RunCtx | FinalCtx.

(** One thing a Run asks or does; an extension is named by its place in its chain. *)
Inductive op : Type -> Type :=
| Now : op gotime
| Elapsed : op float64
| NextID (kind : string) : op string
| CtxErr : op (option error)
| ModelCtxErr : op (option error)
| OnRunStart (id : RunID) : op (outcome unit)
| BeginRun (id : RunID) : op unit
| SetTurn (turn : TurnNumber) : op unit
| BeginEnd (status : RunStatus) : op bool
| WaitAborts : op unit
| EndRun : op unit
| OpenCall : op unit
| CloseCall : op unit
| TakeMessages (settling : bool) : op (list control)
| TakeNotices : op (list control)
| PutBack (l : lease) : op unit
| DrainMessages : op (list control)
| Interrupting : op bool
| WriteEvents (ctx : writeCtx) (events : list Event) : op (outcome (list Event))
| Publish (event : Event) : op unit
| LastNumber : op N
| TrLen : op (outcome nat)
| TrMessages : op (outcome (list Message))
| TrAppend (message : Message) : op (outcome unit)
| TrCapabilities : op (outcome Capabilities)
| TrLoadedTools : op (outcome (list string))
| Build (snapshot : ContextSnapshot) : op (outcome ModelContext)
| Transform (i : nat) (snapshot : ContextSnapshot) : op (outcome (list Message))
| Convert (i : nat) (messages : list Message) : op (outcome (list Message))
| Before (i : nat) (use : ToolUse) : op (outcome PreToolDecision)
| After (i : nat) (result : ToolResult) : op (outcome ToolResult)
| Stop (i : nat) (snapshot : TurnSnapshot) : op (outcome StopDecision)
| PrepareFlushes (i : nat) (pending : Pending) : op nat
| Prepare (i : nat) (pending : Pending) (flushed : list (option RuntimeError)) : op (outcome bool)
| Advisory (stage : string) (i : nat) : op bool
| ResolveSets : op (nat -> outcome (list supplied))
| AskSources : op (list (outcome (list supplied)))
| AskFilter (ids : list string) : op ((string -> bool) * option error)
| OpenStream (request : ModelRequest) : op (list ModelRetry * outcome (option (list received)))
| CloseStream : op unit
| PartDue (size : nat) : op bool
| Launch (plans : list toolPlan) : op unit
| Wait (pending : list nat) : op (list (nat * string) * toolSignal).

(** ** Programs *)

Inductive prog (A : Type) : Type :=
| Ret (a : A)
| Do {X : Type} (o : op X) (k : X -> prog A).
Arguments Ret {A} a.
Arguments Do {A X} o k.

Fixpoint pbind {A B} (p : prog A) (k : A -> prog B) : prog B :=
  match p with
  | Ret a => k a
  | Do o f => Do o (fun x => pbind (f x) k)
  end.

(** [openBatch]: the calls of the last committed reply; those from [ob_next] on are open. *)
Record openBatch := MkBatch {
  ob_turn : TurnNumber;
  ob_calls : list ToolCall;
  ob_next : nat;
  ob_outcomes : gmap nat ToolResult;
}.
#[export] Instance eta_openBatch : Eta openBatch := fun r => MkBatch (ob_turn r) (ob_calls r) (ob_next r) (ob_outcomes r).
Definition batch_zero : openBatch := MkBatch 0 [] 0 ∅.

(** The state only the Session's goroutine changes: what is staged, the size of the history,
    the Tools, and [runState]. *)
Record local := MkLocal {
  lo_staged : list Event;
  lo_size : N;
  lo_registry : toolRegistry;
  lo_run : RunID;
  lo_turn : TurnNumber;
  lo_usage : Usage;
  lo_toolCalls : N;
  lo_turns : N;
  lo_truncated : N;
  lo_textBytes : N;
  lo_reasoningBytes : N;
  lo_batch : openBatch;
}.
#[export] Instance eta_local : Eta local := fun r =>
  MkLocal (lo_staged r) (lo_size r) (lo_registry r) (lo_run r) (lo_turn r) (lo_usage r) (lo_toolCalls r) (lo_turns r)
    (lo_truncated r) (lo_textBytes r) (lo_reasoningBytes r) (lo_batch r).

Definition M (A : Type) : Type := local -> prog (A * local).

Definition ret {A} (a : A) : M A := fun s => Ret (a, s).
Definition bind {A B} (m : M A) (k : A -> M B) : M B := fun s => pbind (m s) (fun p => k p.1 p.2).
Definition ask {X} (o : op X) : M X := fun s => Do o (fun x => Ret (x, s)).
Definition get {A} (f : local -> A) : M A := fun s => Ret (f s, s).
Definition modify (f : local -> local) : M unit := fun s => Ret (tt, f s).

(** A step that may fail: the error ends what is done, as an early return does. *)
Definition attempt (A : Type) : Type := M (result RuntimeError A).
Definition succeed {A} (a : A) : attempt A := ret (Ok a).
Definition fail_with {A} (err : RuntimeError) : attempt A := ret (Err err).
Definition try_bind {A B} (m : attempt A) (k : A -> attempt B) : attempt B :=
  bind m (fun r => match r with Ok a => k a | Err err => fail_with err end).

Declare Scope run_scope.
Delimit Scope run_scope with run.
#[global] Open Scope run_scope.
Notation "'do!' x := m 'in' k" := (bind m (fun x => k))
  (at level 200, x name, m at level 99, k at level 200, only parsing) : run_scope.
Notation "'try!' x := m 'in' k" := (try_bind m (fun x => k))
  (at level 200, x name, m at level 99, k at level 200, only parsing) : run_scope.
Notation "m ';;' k" := (bind m (fun _ => k)) (at level 100, k at level 200, right associativity, only parsing) : run_scope.

(** [for] over a list, until a step fails. *)
Fixpoint each {A} (l : list A) (f : A -> attempt unit) : attempt unit :=
  match l with
  | [] => succeed tt
  | a :: rest => try! _ := f a in each rest f
  end.

(** ** What a Session is given *)

(** The [sessionDef], with what the host set; the chains of extensions by their lengths. *)
Record sessionDef := MkDef {
  df_id : SessionID;
  df_instruction : string;
  df_limits : CoreLimits;
  df_spillPage : nat;
  df_cacheKey : string;
  df_requestID : string;
  df_onRunStart : bool;
  df_sources : bool;
  df_transformers : nat;
  df_converters : nat;
  df_pre : nat;
  df_post : nat;
  df_stoppers : nat;
  df_preparers : nat;
}.

(** Texts the runtime writes with the standard library's verbs, the size of the JSON encoding of
    a Message ([None] when it has none), the names a search asked for, and whether a text is JSON. *)
Class Texts := {
  error_text : error -> string;
  quoted : string -> string;
  schema_text : argumentError -> string;
  duration_text : duration -> string;
  human_bytes : nat -> string;
  search_names : bytes -> list string;
  json_valid : bytes -> bool;
  json_size : Message -> option N;
}.

Section session.
Context `{Encoding, Texts, JsonText} (def : sessionDef).

(** ** Events *)

Definition header (turn : TurnNumber) : M Header :=
  do! now := ask Now in do! run := get lo_run in ret (NewHeader now (df_id def) run turn).

(** [runHeader]. *)
Definition runHeader : M Header := do! turn := get lo_turn in header turn.

Definition stage (events : list Event) : M unit := modify (fun s => s <| lo_staged := lo_staged s ++ events |>).

(** [writeEvents], with [journalError] of what the journal answers. *)
Definition writeEvents (ctx : writeCtx) (events : list Event) : attempt (list Event) :=
  do! answer := ask (WriteEvents ctx events) in
  ret match answer with Ok written => Ok written | Err err => Err (journalError err) end.

(** [flush]: what is staged is taken before it is written. *)
Definition take_staged : M (list Event) :=
  do! events := get lo_staged in modify (fun s => s <| lo_staged := [] |>) ;; ret events.

Definition flush (ctx : writeCtx) : attempt unit :=
  do! events := take_staged in
  match events with
  | [] => succeed tt
  | _ => try! _ := writeEvents ctx events in succeed tt
  end.

(** [flushNumbered]: the number of the last Event of the kind. *)
Definition last_number (kind : EventKind) (written : list Event) : N :=
  foldl (fun number event => if String.eqb (Kind event) kind then h_Number (Head event) else number) 0%N written.

Definition flushNumbered (ctx : writeCtx) (kind : EventKind) : attempt N :=
  do! events := take_staged in
  match events with
  | [] => succeed 0%N
  | _ => try! written := writeEvents ctx events in succeed (last_number kind written)
  end.

(** [deltaHeader]. *)
Definition deltaHeader (turn : TurnNumber) : M Header :=
  do! h := header turn in do! number := ask LastNumber in ret (h <| h_Number := number |>).

(** [contextFailure] of the Run's context. *)
Definition checkContext (operation : string) : attempt unit :=
  do! err := ask CtxErr in
  match contextFailure err operation with Some failure => fail_with failure | None => succeed tt end.

(** ** The history *)

(** [transcriptCall] of what the Transcript answered. *)
Definition transcript_failure (err : error) : RuntimeError :=
  runtimeError CodeInternalInvariant "Transcript" (plain_text (PublicText err "Transcript failed")) (Some err).

Definition transcript {A} (o : op (outcome A)) : attempt A :=
  do! answer := ask o in ret match answer with Ok a => Ok a | Err err => Err (transcript_failure err) end.

Definition named_id (kind : string) (id : string) : M string := if String.eqb id "" then ask (NextID kind) else ret id.

(** [sessionHistory.commit]; [enforce] is false for the closing results alone. *)
Definition commit (message : Message) (enforce : bool) : attempt unit :=
  do! id := named_id "message" (m_ID message) in
  let message := message <| m_ID := id |> in
  match json_size message with
  | None => fail_with (runtimeError CodeInternalInvariant "commitMessage" (plain_text "cannot encode Message") None)
  | Some bytes =>
    try! length := transcript TrLen in
    let limits := df_limits def in
    if enforce && limitExceeded (lm_MaxMessages limits) (u32 (length + 1)) then
      fail_with (runtimeError CodeLimitExceeded "commitMessage" (plain_text "maximum Messages exceeded") None)
    else if enforce && limitExceeded (lm_MaxMessageBytes limits) bytes then
      fail_with (too_large "commitMessage" (plain_text "maximum Message bytes exceeded"))
    else
      do! size := get lo_size in
      let candidate := u64_add (u64_add size bytes) (if (0 <? length)%nat then 1 else 0) in
      if enforce && limitExceeded (lm_MaxTranscriptBytes limits) (u64_add candidate 2) then
        fail_with (runtimeError CodeLimitExceeded "commitMessage" (plain_text "maximum transcript bytes exceeded") None)
      else
        do! answer := ask (TrAppend message) in
        match answer with
        | Err err =>
          fail_with (runtimeError CodeInternalInvariant "commitMessage"
            (plain_text (PublicText err "cannot append to transcript")) (Some err))
        | Ok _ => modify (fun s => s <| lo_size := candidate |>) ;; succeed tt
        end
  end.

Definition commitMessage (message : Message) : attempt unit := commit message true.

(** [isMessageTooLarge]. *)
Definition isMessageTooLarge (err : RuntimeError) : bool :=
  String.eqb (Code err) CodeLimitExceeded
  && match Details err !! "limit" with Some (DStr limit) => String.eqb limit limitMessageBytes | _ => false end.

Definition N_text (n : N) : string := pretty.pretty n.

(** [oversizedResult]. *)
Definition oversizedResult (result : ToolResult) (size limit : N) : ToolResult :=
  let text := ("tool result too large: " ++ N_text size ++ " bytes, limit " ++ N_text limit ++ " bytes; the Tool ran, its output was not kept")%string in
  MkToolResult (tr_CallID result) ToolResultStatusFailed [part_of ContentKindText text] ∅ text "" (tr_Executed result) None [].

(** [commitToolResult]. *)
Definition commitToolResult (message : Message) (result : ToolResult) : attempt (Message * ToolResult) :=
  do! first := commit message true in
  match first with
  | Ok _ => succeed (message, result)
  | Err err =>
    if isMessageTooLarge err then
      let result := oversizedResult result (default 0%N (json_size message)) (lm_MaxMessageBytes (df_limits def)) in
      let message := message <| m_Parts := tr_Content result |> <| m_ToolResult := Some result |> in
      try! _ := commit message true in succeed (message, result)
    else fail_with err
  end.

(** The size of a JSON array of Messages, without its brackets. *)
Fixpoint array_size (messages : list Message) : option N :=
  match messages with
  | [] => Some 0%N
  | [message] => json_size message
  | message :: rest =>
    match json_size message, array_size rest with
    | Some size, Some sizes => Some (size + 1 + sizes)%N
    | _, _ => None
    end
  end.

(** [measure]. *)
Definition measure : attempt unit :=
  try! messages := transcript TrMessages in
  match array_size messages with
  | None => fail_with (runtimeError CodeInternalInvariant "Run" (plain_text "cannot encode transcript") None)
  | Some size => modify (fun s => s <| lo_size := u64 size |>) ;; succeed tt
  end.

(** ** Extensions *)

(** [guard] of what the host answered. *)
Definition guarded (stage : string) (err : error) : RuntimeError :=
  runtimeError CodeExtensionFailure stage (plain_text (PublicText err "extension failed")) (Some err).

(** [advisory]: an extension whose failure is recorded, and the Run goes on. *)
Definition advisory (what : string) (i : nat) (failure : RuntimeError) : M bool :=
  do! yes := ask (Advisory what i) in
  if yes then
    do! h := runHeader in
    stage [EExtensionFailed (MkExtensionFailed h (Operation failure) (Code failure))] ;; ret true
  else ret false.

(** One extension of a chain: its answer, [None] when an advisory one failed, or the failure. *)
Definition consult {A} (what : string) (i : nat) (o : op (outcome A)) : attempt (option A) :=
  do! answer := ask o in
  match answer with
  | Ok a => succeed (Some a)
  | Err err =>
    let failure := guarded what err in
    do! yes := advisory what i failure in
    if yes then succeed None else fail_with failure
  end.

(** [transformContext]: the transformers, then the converters. *)
Fixpoint transform_from (n i : nat) (snapshot : ContextSnapshot) (messages : list Message) : attempt (list Message) :=
  match n with
  | 0 => succeed messages
  | S n =>
    try! produced := consult "ContextTransformer" i (Transform i (snapshot <| cx_Messages := messages |>)) in
    transform_from n (S i) snapshot (default messages produced)
  end.

Fixpoint convert_from (n i : nat) (messages : list Message) : attempt (list Message) :=
  match n with
  | 0 => succeed messages
  | S n =>
    try! produced := consult "MessageConverter" i (Convert i messages) in
    convert_from n (S i) (default messages produced)
  end.

Definition transformContext (snapshot : ContextSnapshot) : attempt (list Message) :=
  try! messages := transform_from (df_transformers def) 0 snapshot (cx_Messages snapshot) in
  convert_from (df_converters def) 0 messages.

(** [beforeTool]: until one blocks. *)
Fixpoint before_from (n i : nat) (use : ToolUse) : attempt PreToolDecision :=
  match n with
  | 0 => succeed decision_zero
  | S n =>
    try! decision := consult "PreToolUse" i (Before i use) in
    match decision with
    | Some decision => if pd_Block decision then succeed decision else before_from n (S i) use
    | None => before_from n (S i) use
    end
  end.

Definition beforeTool (use : ToolUse) : attempt PreToolDecision := before_from (df_pre def) 0 use.

(** [ownResult]. *)
Definition ownResult (produced owned : ToolResult) : ToolResult :=
  produced <| tr_CallID := tr_CallID owned |> <| tr_Executed := tr_Executed owned |> <| tr_Code := tr_Code owned |>
    <| tr_Spilled := tr_Spilled owned |> <| tr_LoadedTools := tr_LoadedTools owned |>.

(** [afterTool]: in reverse installation order. *)
Fixpoint after_from (n : nat) (owned result : ToolResult) : attempt ToolResult :=
  match n with
  | 0 => succeed result
  | S n =>
    try! produced := consult "PostToolUse" n (After n result) in
    after_from n owned (match produced with Some produced => ownResult produced owned | None => result end)
  end.

Definition afterTool (result : ToolResult) : attempt ToolResult := after_from (df_post def) result result.

(** [stopTurn]: until one stops. *)
Fixpoint stop_from (n i : nat) (snapshot : TurnSnapshot) : attempt StopDecision :=
  match n with
  | 0 => succeed (MkStop false "")
  | S n =>
    try! decision := consult "TurnStopper" i (Stop i snapshot) in
    match decision with
    | Some decision => if sd_Stop decision then succeed decision else stop_from n (S i) snapshot
    | None => stop_from n (S i) snapshot
    end
  end.

(** The [Flush] a TurnPreparer calls, as often as it does. *)
Fixpoint flushes (n : nat) : M (list (option RuntimeError)) :=
  match n with
  | 0 => ret []
  | S n =>
    do! r := flush RunCtx in
    do! rest := flushes n in
    ret ((match r with Ok _ => None | Err err => Some err end) :: rest)
  end.

(** [extensionSet.prepareTurn]: a failure of the host's that wraps a RuntimeError keeps it. *)
Fixpoint prepare_from (n i : nat) (pending : Pending) (changed : bool) : attempt bool :=
  match n with
  | 0 => succeed changed
  | S n =>
    do! count := ask (PrepareFlushes i pending) in
    do! flushed := flushes count in
    do! answer := ask (Prepare i pending flushed) in
    match answer with
    | Ok now => prepare_from n (S i) pending (changed || now)
    | Err err =>
      let failure := guarded "TurnPreparer" err in
      do! yes := advisory "TurnPreparer" i failure in
      if yes then prepare_from n (S i) pending changed
      else
        match as_runtime err with
        | Some own => fail_with own
        | None => try! _ := checkContext "TurnPreparer" in fail_with failure
        end
    end
  end.

Definition prepareTurn (pending : Pending) : attempt bool := prepare_from (df_preparers def) 0 pending false.

(** ** The Tools *)

Definition asRuntime (err : error) : RuntimeError := default (runtimeError "" "" (plain_text "") None) (asRuntimeError (Some err)).

(** What the Transcript lists as loaded, when it lists it. *)
Definition recordedTools : attempt (option (list string)) :=
  try! caps := transcript TrCapabilities in
  if ca_Loaded caps then try! ids := transcript TrLoadedTools in succeed (Some ids) else succeed None.

(** [syncLoadedTools]. *)
Definition syncLoadedTools : attempt unit :=
  try! recorded := recordedTools in
  match recorded with
  | None => succeed tt
  | Some ids => modify (fun s => s <| lo_registry := syncLoaded quoted ids (lo_registry s) |>) ;; succeed tt
  end.

Definition of_outcome {A} (m : outcome A) : attempt A := ret match m with Ok a => Ok a | Err err => Err (asRuntime err) end.

(** The filter is asked of every ID, when there is one. *)
Definition screen_all (results : option (list (outcome (list toolEntry)))) : M (outcome (gmap string bool)) :=
  do! r := get lo_registry in
  let ids := catalogIDs results r in
  if tr_filter r then
    do! answer := ask (AskFilter ids) in
    ret (screen answer.1 answer.2 ids r)
  else ret (screen (fun _ => true) None ids r).

Definition ToolUnloadedWhyGone : ToolUnloadedWhy := "gone".

Definition unavailable_event (h : Header) (name : string) : Event :=
  EExtensionFailed (MkExtensionFailed h ("toolset:" ++ name)%string CodeToolResolutionFailure).
Definition gone_event (h : Header) (id : string) : Event := EToolUnloaded (MkToolUnloaded h id ToolUnloadedWhyGone).

(** [refreshToolSets]. *)
Definition refreshToolSets (h : Header) : attempt unit :=
  do! r := get lo_registry in
  match tr_sets r with
  | [] => succeed tt
  | _ =>
    do! fresh := get (fun s => tr_fresh (lo_registry s)) in
    do! answers := (if fresh then ret (fun _ => Ok []) else ask ResolveSets) in
    do! ctx := (if fresh then ret None else ask CtxErr) in
    let (r, results) := resolveAll ctx answers r in
    modify (fun s => s <| lo_registry := r |>) ;;
    try! results := of_outcome results in
    do! kept := screen_all results in
    try! kept := of_outcome kept in
    try! recorded := recordedTools in
    do! r := get lo_registry in
    let (r, report) := apply_sets quoted results kept recorded r in
    modify (fun s => s <| lo_registry := r |>) ;;
    stage (unavailable_event h <$> rp_unavailable report) ;;
    stage (gone_event h <$> rp_gone report) ;;
    succeed tt
  end.

(** [refreshTools]: a failure of the sources, and one of the filter, apart. *)
Definition refreshTools : M (option error * option error) :=
  if negb (df_sources def) then ret (None, None)
  else
    do! answers := ask AskSources in
    do! ctx := ask CtxErr in
    do! r := get lo_registry in
    match collectSources ctx answers r with
    | Err err => ret (Some err, None)
    | Ok entries =>
      do! kept := screen_all None in
      match kept with
      | Err err => ret (None, Some err)
      | Ok kept =>
        modify (fun s => s <| lo_registry := refreshSources quoted entries kept (lo_registry s) |>) ;; ret (None, None)
      end
    end.

(** [refreshToolsInRun]. *)
Definition refreshToolsInRun : attempt unit :=
  do! failed := refreshTools in
  match failed with
  | (_, Some filterErr) => fail_with (asRuntime filterErr)
  | (None, None) => succeed tt
  | (Some sourceErr, None) =>
    try! _ := checkContext "ToolSource" in
    do! h := runHeader in
    stage [EExtensionFailed (MkExtensionFailed h "toolsource" (Code (asRuntime sourceErr)))] ;; succeed tt
  end.

(** ** Large results *)

(** [cutRunes], [spillBody] and [spillPreview]. *)
Definition cutRunes (s : bytes) (n : nat) : bytes := if (length s <=? n)%nat then s else take (back_to_start s n) s.

Definition spillBody (content : list ContentPart) : string :=
  join nl (cp_Text <$> filter (fun part => cp_Kind part = ContentKindText) content).

Definition text_size (content : list ContentPart) : nat :=
  sum_list ((fun part => slen (cp_Text part)) <$> filter (fun part => cp_Kind part = ContentKindText) content).

(** What stays of a spilled body: its start, and how to read the rest. *)
Definition spillPreview (call : ToolCallID) (body : string) (page preview : nat) : string :=
  let pages := length (Paginate (SplitLines (bytes_of body) (Z.of_nat page)) (Z.of_nat page)) in
  let start := cutRunes (bytes_of body) preview in
  let start := match last start with Some c => if Ascii.eqb c newline then start else start ++ [newline] | None => [newline] end in
  (string_of start ++ "[Result cut: " ++ human_bytes (slen body) ++ ", " ++ nat_text pages ++ " pages. Read it page by page with "
   ++ Ref.ReadResult ++ "(ref=" ++ quoted (Ref.String (Ref.Result call)) ++ ", page=1); the preview is only the start of page 1.]")%string.

(** [keepsSpilled]. *)
Definition keepsSpilled : attempt bool := try! caps := transcript TrCapabilities in succeed (ca_Spill caps).

Definition is_spilled (call : ToolCallID) (event : Event) : bool :=
  match event with EToolResultSpilled spilled => String.eqb (tsp_CallID spilled) call | _ => false end.

(** The number of the body's own Entry, of what the Journal wrote. *)
Definition spilled_seq (call : ToolCallID) (written : list Event) : N :=
  foldl (fun seq event => if is_spilled call event then h_Number (Head event) else seq) 0%N written.

Definition spilled_result (result : ToolResult) (body : string) (seq : N) : ToolResult :=
  let page := df_spillPage def in
  let preview := Nat.min (N.to_nat (lm_SpillPreviewBytes (df_limits def))) page in
  let rest := filter (fun part => cp_Kind part <> ContentKindText) (tr_Content result) in
  result <| tr_Content := part_of ContentKindText (spillPreview (tr_CallID result) body page preview) :: rest |>
    <| tr_Spilled := Some (MkSpilled seq (Z.of_nat (slen body)) (MkRecordRef "" "")) |>.

(** [spill]. *)
Definition spill (ctx : writeCtx) (turn : TurnNumber) (toolID : string) (result : ToolResult) : attempt ToolResult :=
  if (df_spillPage def <? 1)%nat then succeed result
  else
    try! keeps := keepsSpilled in
    if negb keeps then succeed result
    else if (text_size (tr_Content result) <=? df_spillPage def)%nat then succeed result
    else
      let body := spillBody (tr_Content result) in
      try! _ := flush ctx in
      do! h := header turn in
      try! written := writeEvents ctx
        [EToolResultSpilled (MkToolResultSpilled h (tr_CallID result) toolID (Z.of_nat (slen body)) body)] in
      let seq := spilled_seq (tr_CallID result) written in
      if N.eqb seq 0 then
        fail_with (runtimeError CodeStoreFailure "spill" (plain_text "the Journal did not return the spilled result it wrote") None)
      else succeed (spilled_result result body seq).

(** [isDurable]. *)
Definition isDurable : attempt bool := try! caps := transcript TrCapabilities in succeed (ca_Durable caps).

End session.
