(* ===== verification/ToolBatch.v ===== *)
(** * A batch of Tool calls

    [gotato/toolbatch.go]: the calls of one reply are checked in source order, run in groups,
    and their results committed in source order.  The workers of a group are the world's: a
    [Wait] answers what they report, in the order it arrives. *)

From S2P Require Import Prelude GoStrings Text Ref Errors Types Events Request Schema ToolRegistry Reply ControlQueue Session.
Local Open Scope string_scope.
Local Open Scope list_scope.

(** ** Groups *)

(** [groupPlans], on the plans that are not blocked, from [current] on. *)
Definition flush_group (current : list nat) (groups : list (list nat)) : list (list nat) :=
  match current with [] => groups | _ => groups ++ [current] end.

Fixpoint group_from (plans : list toolPlan) (i workers : nat) (groups : list (list nat)) (current : list nat)
    : list (list nat) :=
  match plans with
  | [] => flush_group current groups
  | plan :: rest =>
    if pl_blocked plan then group_from rest (S i) workers groups current
    else if pl_sequential plan || Nat.eqb workers 1 then
      group_from rest (S i) workers (flush_group current groups ++ [[i]]) []
    else
      let current := current ++ [i] in
      if Nat.eqb (length current) workers then group_from rest (S i) workers (flush_group current groups) []
      else group_from rest (S i) workers groups current
  end.

Definition groupPlans (plans : list toolPlan) (workers : nat) : list (list nat) := group_from plans 0 workers [] [].

(** ** Progress *)

Definition maxToolProgressBytes : N := (2 ^ 20)%N.
Definition maxToolProgressUpdates : N := 1000.

(** [newToolProgress]: which of a Tool's reports are sent on. *)
Fixpoint progress_from (bytes updates : N) (reports : list string) : list string :=
  match reports with
  | [] => []
  | text :: rest =>
    if (maxToolProgressUpdates <=? updates)%N || (maxToolProgressBytes <? u64_add bytes (N.of_nat (slen text)))%N
    then progress_from bytes updates rest
    else text :: progress_from (u64_add bytes (N.of_nat (slen text))) (updates + 1)%N rest
  end.

Definition newToolProgress (reports : list string) : list string := progress_from 0 0 reports.

Definition call_zero : ToolCall := MkToolCall "" "" [] [].
Definition result_zero : ToolResult := MkToolResult "" "" [] ∅ "" "" false None [].

Definition call_of (plans : list toolPlan) (index : nat) : ToolCall := default call_zero (pl_call <$> plans !! index).

Section batch.
Context `{Encoding, Texts, JsonText} (def : sessionDef).

(** [parallelWorkers]. *)
Definition parallelWorkers : nat :=
  if (lm_MaxParallelTools (df_limits def) <=? 1)%N then 1 else N.to_nat (lm_MaxParallelTools (df_limits def)).

(** ** Preflight *)

(** [rejectedPlan]. *)
Definition rejectedPlan (index : nat) (call : ToolCall) (code : ErrorCode) (message : string) (loaded : list string) : toolPlan :=
  MkPlan index call None None false true
    (MkToolResult (tc_ID call) ToolResultStatusFailed [part_of ContentKindText message] ∅ message code false None loaded).

(** [visibleToolIDs] and [unresolvedToolText]. *)
Definition visibleToolIDs (r : toolRegistry) : string :=
  match merge_sort String.le (ts_ID <$> visibleSpecs r) with [] => "(none)" | ids => join ", " ids end.

Definition unresolvedToolText (r : toolRegistry) (id : string) : string :=
  let set := unavailableSet r id in
  if negb (String.eqb set "") then
    (CodeToolResolutionFailure ++ ": tool " ++ quoted id ++ " is in ToolSet " ++ quoted set
     ++ ", which is unavailable now; try again in a later Run")%string
  else
    match cappedEffect r id with
    | Some effect =>
      let effect := if String.eqb effect ToolEffectUnspecified then "unspecified, which counts as destructive" else effect in
      (CodeToolResolutionFailure ++ ": tool " ++ quoted id ++ " is not allowed in this Session (its effect is " ++ effect
       ++ "; the Session's maximum is " ++ tr_maxEffect r ++ "); available tools: " ++ visibleToolIDs r)%string
    | None =>
      (CodeToolResolutionFailure ++ ": unknown tool " ++ quoted id ++ "; available tools: " ++ visibleToolIDs r)%string
    end.

(** A call whose Tool the registry does not resolve. *)
Definition unresolved_plan (r : toolRegistry) (index : nat) (call : ToolCall) : toolPlan :=
  match loadable r (tc_ToolID call) with
  | loadOK | loadAlready =>
    rejectedPlan index call CodeToolNotLoaded
      (tc_ToolID call ++ " was not loaded, so this call did not run. It is loaded now; call it again.")%string [tc_ToolID call]
  | _ => rejectedPlan index call CodeToolResolutionFailure (unresolvedToolText r (tc_ToolID call)) []
  end.

(** Why the arguments of a call are refused, if they are. *)
Definition refused_arguments (spec : ToolSpec) (call : ToolCall) : option string :=
  if negb (json_valid (tc_Arguments call)) then
    Some (CodeToolArgumentFailure ++ ": arguments for " ++ tc_ToolID call ++ " are not valid JSON")%string
  else
    match validateToolSchema (ts_InputSchema spec) (tc_Arguments call) with
    | Some err => Some (CodeToolArgumentFailure ++ ": " ++ tc_ToolID call ++ ": " ++ schema_text err)%string
    | None => None
    end.

Definition tool_use (run : RunID) (turn : TurnNumber) (index : nat) (call : ToolCall) (spec : ToolSpec) : ToolUse :=
  MkToolUse (df_id def) run turn (tc_ID call) (tc_ToolID call) (tc_Arguments call) index (ts_Effect spec).

(** The result of a call an extension blocked. *)
Definition blocked_result (call : ToolCall) (decision : PreToolDecision) : ToolResult :=
  match pd_Result decision with
  | None => result_zero <| tr_CallID := tc_ID call |> <| tr_Status := ToolResultStatusBlocked |> <| tr_SafeError := pd_Reason decision |>
  | Some result =>
    let replacement := (ownResult result (result_zero <| tr_CallID := tc_ID call |>)) <| tr_Status := ToolResultStatusBlocked |> in
    if String.eqb (tr_SafeError replacement) "" then replacement <| tr_SafeError := pd_Reason decision |> else replacement
  end.

Definition admit_plan (index : nat) (call : ToolCall) (entry : toolEntry) (use : ToolUse) (decision : PreToolDecision) : toolPlan :=
  MkPlan index call (Some (te_tool entry)) (Some use) (ts_Sequential (te_spec entry)) (pd_Block decision)
    (if pd_Block decision then blocked_result call decision else result_zero).

Definition plan_call (turn : TurnNumber) (index : nat) (call : ToolCall) : attempt toolPlan :=
  modify (fun s => s <| lo_toolCalls := u32_add (lo_toolCalls s) 1 |>) ;;
  do! r := get lo_registry in
  match lookup_tool r (tc_ToolID call) with
  | None => succeed (unresolved_plan r index call)
  | Some entry =>
    match refused_arguments (te_spec entry) call with
    | Some message => succeed (rejectedPlan index call CodeToolArgumentFailure message [])
    | None =>
      do! run := get lo_run in
      let use := tool_use run turn index call (te_spec entry) in
      try! decision := beforeTool def use in
      succeed (admit_plan index call entry use decision)
    end
  end.

(** [preflightTools]. *)
Fixpoint preflight_from (turn : TurnNumber) (index : nat) (calls : list ToolCall) : attempt (list toolPlan) :=
  match calls with
  | [] => succeed []
  | call :: rest =>
    try! plan := plan_call turn index call in
    try! plans := preflight_from turn (S index) rest in
    succeed (plan :: plans)
  end.

Definition preflightTools (turn : TurnNumber) (calls : list ToolCall) : attempt (list toolPlan) := preflight_from turn 0 calls.

(** ** One call *)

(** [safeError], [toolErrorCode] and [toolErrorText]. *)
Definition safeError (err : option error) : string := match err with Some err => error_text err | None => "" end.

Definition toolErrorCode (err : error) : ErrorCode :=
  match as_runtime err with
  | Some re => if String.eqb (Code re) "" then CodeToolExecutionFailure else Code re
  | None => CodeToolExecutionFailure
  end.

Definition toolErrorText (err : error) : string :=
  PublicText err
    match as_runtime err with
    | Some re => error_text (RuntimeErr re)
    | None => (CodeToolExecutionFailure ++ ": tool failed")%string
    end.

(** [executeToolSafely]: a panic is a failure of the call. *)
Definition executeToolSafely (o : executed) : result (error * bool) ToolResult :=
  match o with
  | Answered result => Ok result
  | FailedCall err deadline => Err (err, deadline)
  | PanickedCall public cause deadline =>
    Err (RuntimeErr (runtimeError CodeToolExecutionFailure "Tool" (plain_text public) (Some cause)), deadline)
  end.

(** The result [runTool] reports. *)
Definition runTool (plan : toolPlan) (o : executed) : ToolResult :=
  let failed text code := MkToolResult (tc_ID (pl_call plan)) ToolResultStatusFailed [] ∅ text code true None [] in
  match executeToolSafely o with
  | Err (_, true) =>
    failed (CodeDeadlineExceeded ++ ": the tool did not finish within ToolCallDeadline ("
            ++ duration_text (lm_ToolCallDeadline (df_limits def)) ++ "); its outcome is unknown")%string CodeDeadlineExceeded
  | Err (err, false) => failed (toolErrorText err) (toolErrorCode err)
  | Ok produced =>
    let loaded := match pl_tool plan with Some searchTool => tr_LoadedTools produced | _ => [] end in
    let result := ownResult produced (result_zero <| tr_CallID := tc_ID (pl_call plan) |> <| tr_Executed := true |> <| tr_LoadedTools := loaded |>) in
    if String.eqb (tr_Status result) "" then result <| tr_Status := ToolResultStatusOK |> else result
  end.

(** [canceledOutcome], of what the Run's context reports. *)
Definition canceledOutcome (ctx : option error) (result : ToolResult) : ToolResult :=
  match ctx with
  | None => result
  | Some _ =>
    let result := result <| tr_Status := ToolResultStatusCanceled |> in
    if String.eqb (tr_SafeError result) "" then result <| tr_SafeError := safeError ctx |> else result
  end.

(** ** One group *)

(** [settle]: an outcome, and its ToolEnded. *)
Definition settle_call (turn : TurnNumber) (plans : list toolPlan) (index : nat) (result : ToolResult)
    (outcomes : gmap nat ToolResult) : M (gmap nat ToolResult) :=
  let call := call_of plans index in
  do! h := header def turn in
  do! elapsed := ask Elapsed in
  stage [EToolEnded (MkToolEnded h (tc_ID call) (tc_ToolID call) (tr_Status result) (tr_Code result) (tr_Executed result) elapsed)] ;;
  ret (<[index := result]> outcomes).

(** [cancelRest]. *)
Fixpoint cancelRest (started : bool) (turn : TurnNumber) (plans : list toolPlan) (group : list nat)
    (outcomes : gmap nat ToolResult) : M (gmap nat ToolResult) :=
  match group with
  | [] => ret outcomes
  | index :: rest =>
    match outcomes !! index with
    | Some _ => cancelRest started turn plans rest outcomes
    | None =>
      do! err := ask CtxErr in
      do! outcomes := settle_call turn plans index
        (MkToolResult (tc_ID (call_of plans index)) ToolResultStatusCanceled [] ∅ (safeError err) "" started None []) outcomes in
      cancelRest started turn plans rest outcomes
    end
  end.

(** One result that arrived. *)
Definition settle_signal (turn : TurnNumber) (plans : list toolPlan) (index : nat) (o : executed)
    (outcomes : gmap nat ToolResult) : M (gmap nat ToolResult) :=
  do! err := ask CtxErr in
  let result := match plans !! index with Some plan => runTool plan o | None => result_zero end in
  settle_call turn plans index (canceledOutcome err result) outcomes.

(** [drain]. *)
Fixpoint drain_signals (turn : TurnNumber) (plans : list toolPlan) (waiting : list (nat * executed))
    (outcomes : gmap nat ToolResult) : M (gmap nat ToolResult) :=
  match waiting with
  | [] => ret outcomes
  | (index, o) :: rest =>
    do! outcomes := settle_signal turn plans index o outcomes in drain_signals turn plans rest outcomes
  end.

(** The reports of progress [handle] sends. *)
Fixpoint report_progress (turn : TurnNumber) (plans : list toolPlan) (updates : list (nat * string)) : M unit :=
  match updates with
  | [] => ret tt
  | (index, text) :: rest =>
    do! h := deltaHeader def turn in
    ask (Publish (EToolProgress (MkToolProgress h (tc_ID (call_of plans index)) text))) ;;
    report_progress turn plans rest
  end.

Definition pending_of (group : list nat) (outcomes : gmap nat ToolResult) : list nat :=
  filter (fun index => outcomes !! index = None) group.

(** [collect]: each result that arrives settles one more call, so the calls of the group are
    fuel enough. *)
Fixpoint collect (fuel : nat) (turn : TurnNumber) (plans : list toolPlan) (group : list nat)
    (outcomes : gmap nat ToolResult) : M (gmap nat ToolResult) :=
  match fuel, pending_of group outcomes with
  | 0, _ | _, [] => ret outcomes
  | S fuel, pending =>
    do! answer := ask (Wait pending) in
    report_progress turn plans answer.1 ;;
    match answer.2 with
    | Finished index o =>
      do! outcomes := settle_signal turn plans index o outcomes in collect fuel turn plans group outcomes
    | RunDone waiting =>
      do! outcomes := drain_signals turn plans waiting outcomes in cancelRest true turn plans group outcomes
    end
  end.

(** [executeToolGroup]. *)
Definition executeToolGroup (turn : TurnNumber) (plans : list toolPlan) (group : list nat) : M (gmap nat ToolResult) :=
  do! err := ask CtxErr in
  match err with
  | Some _ => cancelRest false turn plans group ∅
  | None =>
    ask (Launch (omap (fun index => plans !! index) group)) ;;
    collect (length group) turn plans group ∅
  end.

(** ** Committing *)

Definition ToolLoadedWhyNames : ToolLoadedWhy := "names".
Definition ToolLoadedWhyQuery : ToolLoadedWhy := "query".
Definition ToolLoadedWhyCall : ToolLoadedWhy := "call".

(** [loadWhy]. *)
Definition loadWhy (call : ToolCall) (id : string) : ToolLoadedWhy :=
  if negb (String.eqb (tc_ToolID call) SearchToolName) then ToolLoadedWhyCall
  else if existsb (fun name => String.eqb (trimmed name) id) (search_names (tc_Arguments call)) then ToolLoadedWhyNames
  else ToolLoadedWhyQuery.

Definition result_message (id : MessageID) (run : RunID) (result : ToolResult) : Message :=
  message_zero <| m_ID := id |> <| m_RunID := run |> <| m_Role := RoleToolResult |> <| m_Parts := tr_Content result |>
    <| m_ToolResult := Some result |>.

Definition new_result_message (result : ToolResult) : M Message :=
  do! id := ask (NextID "message") in do! run := get lo_run in ret (result_message id run result).

(** [commitResultMessage]. *)
Definition commitResultMessage (result : ToolResult) : attempt (Message * ToolResult) :=
  do! message := new_result_message result in commitToolResult def message result.

(** The Tools a committed result loads. *)
Fixpoint load_listed (turn : TurnNumber) (call : ToolCall) (ids : list string) : M unit :=
  match ids with
  | [] => ret tt
  | id :: rest =>
    do! r := get lo_registry in
    let (r, loadedNow) := ToolRegistry.load quoted id r in
    modify (fun s => s <| lo_registry := r |>) ;;
    (if loadedNow then do! h := header def turn in stage [EToolLoaded (MkToolLoaded h id (loadWhy call id))] else ret tt) ;;
    load_listed turn call rest
  end.

(** [stageResult]. *)
Definition stageResult (turn : TurnNumber) (call : ToolCall) (message : Message) (result : ToolResult) : M unit :=
  do! h := header def turn in
  stage [EToolResultCommitted (MkToolResultCommitted h message (tc_ID call) (tr_Status result))] ;;
  load_listed turn call (tr_LoadedTools result).

(** The place in the batch after the last committed result. *)
Definition set_next (n : nat) : M unit := modify (fun s => s <| lo_batch := (lo_batch s) <| ob_next := n |> |>).

(** [commitResult]. *)
Definition commitResult (turn : TurnNumber) (index : nat) (call : ToolCall) (outcome : ToolResult) : attempt ToolResult :=
  try! result := afterTool def outcome in
  try! result := spill def FinalCtx turn (tc_ToolID call) result in
  try! committed := commitResultMessage result in
  set_next (S index) ;;
  stageResult turn call committed.1 committed.2 ;;
  try! _ := flush FinalCtx in succeed committed.2.

(** [commitUpTo], over the plans from the first that is not committed on. *)
Definition outcome_of (call : ToolCall) (result : ToolResult) : ToolOutcome :=
  MkToolOutcome (tc_ToolID call) (tc_ID call) (tr_Status result) (tr_Executed result).

Fixpoint commitUpTo (turn : TurnNumber) (index : nat) (plans : list toolPlan) : attempt (list (ToolOutcome * ToolResult)) :=
  match plans with
  | [] => succeed []
  | plan :: rest =>
    do! outcomes := get (fun s => ob_outcomes (lo_batch s)) in
    try! result := commitResult turn index (pl_call plan) (default result_zero (outcomes !! index)) in
    try! others := commitUpTo turn (S index) rest in
    succeed ((outcome_of (pl_call plan) result, result) :: others)
  end.

(** ** The batch *)

Definition note_outcomes (completed : gmap nat ToolResult) : M unit :=
  modify (fun s => s <| lo_batch := (lo_batch s) <| ob_outcomes := completed ∪ ob_outcomes (lo_batch s) |> |>).

(** The calls settled at preflight end without having started. *)
Fixpoint settle_blocked (turn : TurnNumber) (index : nat) (plans : list toolPlan) : M unit :=
  match plans with
  | [] => ret tt
  | plan :: rest =>
    (if pl_blocked plan then
       note_outcomes {[index := pl_result plan]} ;;
       do! h := header def turn in
       stage [EToolEnded (MkToolEnded h (tc_ID (pl_call plan)) (tc_ToolID (pl_call plan)) (tr_Status (pl_result plan))
                (tr_Code (pl_result plan)) (tr_Executed (pl_result plan)) 0%Z)]
     else ret tt) ;;
    settle_blocked turn (S index) rest
  end.

Fixpoint stage_started (turn : TurnNumber) (assistant : MessageID) (plans : list toolPlan) (group : list nat) : M unit :=
  match group with
  | [] => ret tt
  | index :: rest =>
    do! h := header def turn in
    stage [EToolStarted (MkToolStarted h assistant (tc_ID (call_of plans index)) (tc_ToolID (call_of plans index)))] ;;
    stage_started turn assistant plans rest
  end.

(** The groups in order; [committed] results are committed before the first of them. *)
Fixpoint run_groups (turn : TurnNumber) (assistant : MessageID) (plans : list toolPlan) (committed : nat) (groups : list (list nat))
    : attempt (list (ToolOutcome * ToolResult)) :=
  match groups with
  | [] => commitUpTo turn committed (drop committed plans)
  | group :: rest =>
    stage_started turn assistant plans group ;;
    try! _ := flush RunCtx in
    do! completed := executeToolGroup turn plans group in
    note_outcomes completed ;;
    let upto := S (default 0 (last group)) in
    try! settled := commitUpTo turn committed (drop committed (take upto plans)) in
    try! others := run_groups turn assistant plans (Nat.max committed upto) rest in
    succeed (settled ++ others)
  end.

(** [runToolBatch]. *)
Definition runToolBatch (turn : TurnNumber) (assistant : Message) : attempt (list ToolOutcome * list ToolResult) :=
  try! plans := preflightTools turn (m_ToolCalls assistant) in
  modify (fun s => s <| lo_batch := (lo_batch s) <| ob_outcomes := ∅ |> |>) ;;
  settle_blocked turn 0 plans ;;
  try! settled := run_groups turn (m_ID assistant) plans 0 (groupPlans plans parallelWorkers) in
  modify (fun s => s <| lo_batch := batch_zero |>) ;;
  succeed (settled.*1, settled.*2).

(** ** Closing open calls *)

(** [closeOpenCalls], from the call at [index] on; the first Message refused ends it. *)
Fixpoint close_calls (turn : TurnNumber) (status : ToolResultStatus) (text : string) (outcomes : gmap nat ToolResult)
    (index : nat) (calls : list ToolCall) : M unit :=
  match calls with
  | [] => ret tt
  | call :: rest =>
    let executed := match outcomes !! index with Some outcome => tr_Executed outcome | None => false end in
    let result := MkToolResult (tc_ID call) status [part_of ContentKindText text] ∅ text "" executed None [] in
    do! message := new_result_message result in
    do! committed := commit def message false in
    match committed with
    | Err _ => ret tt
    | Ok _ =>
      do! h := header def turn in
      stage [EToolResultCommitted (MkToolResultCommitted h message (tc_ID call) status)] ;;
      close_calls turn status text outcomes (S index) rest
    end
  end.

Definition closing_status (status : RunStatus) : ToolResultStatus :=
  if String.eqb status RunStatusCanceled || String.eqb status RunStatusDeadlineExceeded then ToolResultStatusCanceled
  else ToolResultStatusFailed.

Definition closeOpenCalls (cause : RuntimeError) (status : RunStatus) : M unit :=
  do! batch := get lo_batch in
  close_calls (ob_turn batch) (closing_status status)
    (Code cause ++ ": the Run ended before this call's result was committed")%string (ob_outcomes batch)
    (ob_next batch) (drop (ob_next batch) (ob_calls batch)) ;;
  modify (fun s => s <| lo_batch := batch_zero |>).

End batch.

(** The places of the plans that run. *)
Fixpoint unblocked_from (i : nat) (plans : list toolPlan) : list nat :=
  match plans with
  | [] => []
  | plan :: rest => if pl_blocked plan then unblocked_from (S i) rest else i :: unblocked_from (S i) rest
  end.

Lemma flush_group_join current groups : mjoin (flush_group current groups) = mjoin groups ++ current.
Proof. destruct current as [|i current]; cbn; [by rewrite app_nil_r|]. rewrite join_app. cbn. by rewrite app_nil_r. Qed.

Lemma group_from_join plans i workers groups current :
  mjoin (group_from plans i workers groups current) = mjoin groups ++ current ++ unblocked_from i plans.
Proof.
  revert i groups current. induction plans as [|plan plans IH]; intros i groups current; cbn [group_from unblocked_from].
  { by rewrite flush_group_join, app_nil_r. }
  destruct (pl_blocked plan); [apply IH|].
  destruct (pl_sequential plan || Nat.eqb workers 1).
  - by rewrite IH, join_app, flush_group_join, <- !app_assoc.
  - cbv zeta. destruct (Nat.eqb _ workers); rewrite IH, ?flush_group_join, <- !app_assoc; done.
Qed.

(** A group that may run at once, of the plans at [i] and after. *)
Definition group_fits (plans : list toolPlan) (workers : nat) (group : list nat) : Prop :=
  (1 <= length group <= workers)%nat /\
  (length group = 1%nat \/ Forall (fun i => exists plan, plans !! i = Some plan /\ pl_sequential plan = false) group).

Definition current_fits (plans : list toolPlan) (workers : nat) (current : list nat) : Prop :=
  (length current < workers)%nat /\ Forall (fun i => exists plan, plans !! i = Some plan /\ pl_sequential plan = false) current.

Lemma flush_group_fits plans workers current groups :
  Forall (group_fits plans workers) groups -> current_fits plans workers current ->
  Forall (group_fits plans workers) (flush_group current groups).
Proof.
  intros Hg [Hl Hs]. destruct current as [|i current]; [done|]. apply list.Forall_app. split; [done|].
  constructor; [|constructor]. split; [cbn in *; lia|by right].
Qed.

Lemma group_from_fits all workers plans i groups current :
  (1 <= workers)%nat -> drop i all = plans ->
  Forall (group_fits all workers) groups -> current_fits all workers current ->
  Forall (group_fits all workers) (group_from plans i workers groups current).
Proof.
  intros Hw. revert i groups current. induction plans as [|plan plans IH]; intros i groups current Hd Hg Hc; cbn [group_from].
  { by apply flush_group_fits. }
  assert (Hi : all !! i = Some plan) by (rewrite <- (Nat.add_0_r i), <- lookup_drop, Hd; done).
  assert (Hd' : drop (S i) all = plans) by (rewrite (drop_S all plan i Hi) in Hd; by injection Hd).
  assert (Hnil : current_fits all workers []) by (split; [cbn; lia|constructor]).
  destruct (pl_blocked plan); [by apply IH|]. destruct (pl_sequential plan) eqn:Es; cbn [orb].
  - apply IH; [done| |done]. apply list.Forall_app. split; [by apply flush_group_fits|].
    constructor; [|constructor]. split; [cbn; lia|by left].
  - destruct (Nat.eqb_spec workers 1).
    + apply IH; [done| |done]. apply list.Forall_app. split; [by apply flush_group_fits|].
      constructor; [|constructor]. split; [cbn; lia|by left].
    + cbv zeta. destruct Hc as [Hl Hs].
      assert (Hs' : Forall (fun i => exists plan, all !! i = Some plan /\ pl_sequential plan = false) (current ++ [i])).
      { apply list.Forall_app. split; [done|]. repeat constructor. by exists plan. }
      destruct (Nat.eqb_spec (length (current ++ [i])) workers) as [E|E]; rewrite length_app in E; cbn in E.
      * apply IH; [done| |done]. destruct (current ++ [i]) eqn:Ec; [done|]. apply list.Forall_app. split; [done|].
        constructor; [|constructor]. split; [|right; done]. rewrite <- Ec, length_app. cbn. lia.
      * apply IH; [done|done|]. split; [rewrite length_app; cbn; lia|done].
Qed.

Lemma unblocked_at plans i j :
  j ∈ unblocked_from i plans <-> exists k plan, j = (i + k)%nat /\ plans !! k = Some plan /\ pl_blocked plan = false.
Proof.
  revert i. induction plans as [|plan plans IH]; intros i; cbn [unblocked_from].
  { split; [by intros ?%elem_of_nil|by intros (? & ? & _ & ? & _)]. }
  assert (Hrest : j ∈ unblocked_from (S i) plans <-> exists k p, j = (i + S k)%nat /\ plans !! k = Some p /\ pl_blocked p = false).
  { rewrite IH. split; intros (k & p & -> & Hk); exists k, p; (split; [lia|done]). }
  destruct (pl_blocked plan) eqn:Eb.
  - rewrite Hrest. split.
    + intros (k & p & -> & Hk). exists (S k), p. by split.
    + intros ([|k] & p & -> & Hk & Hp); [cbn in Hk; congruence|]. by exists k, p.
  - rewrite elem_of_cons, Hrest. split.
    + intros [->|(k & p & -> & Hk)]; [exists 0%nat, plan; by rewrite Nat.add_0_r|]. exists (S k), p. by split.
    + intros ([|k] & p & -> & Hk & Hp); [left; lia|]. right. by exists k, p.
Qed.

Lemma unblocked_sorted plans i : StronglySorted lt (unblocked_from i plans).
Proof.
  revert i. induction plans as [|plan plans IH]; intros i; cbn [unblocked_from]; [constructor|].
  destruct (pl_blocked plan); [apply IH|]. constructor; [apply IH|]. apply list.Forall_forall.
  intros j Hj. apply unblocked_at in Hj as (k & p & -> & _). lia.
Qed.

Lemma groups_join plans workers : mjoin (groupPlans plans workers) = unblocked_from 0 plans.
Proof. unfold groupPlans. by rewrite group_from_join. Qed.

Lemma groups_fit plans workers : (1 <= workers)%nat -> Forall (group_fits plans workers) (groupPlans plans workers).
Proof. intros Hw. apply group_from_fits; [done|done|constructor|]. split; [cbn; lia|constructor]. Qed.

(** The groups of a batch hold every call that is not settled at preflight, once and in
    source order; each has at most as many calls as there are workers, and a sequential Tool
    runs in a group of its own. *)
Theorem groups_in_order plans workers :
  (1 <= workers)%nat ->
  mjoin (groupPlans plans workers) = unblocked_from 0 plans /\
  StronglySorted lt (mjoin (groupPlans plans workers)) /\
  Forall (group_fits plans workers) (groupPlans plans workers).
Proof. intros Hw. rewrite groups_join. split; [done|]. split; [apply unblocked_sorted|by apply groups_fit]. Qed.

Definition sample_plan (sequential blocked : bool) : toolPlan := MkPlan 0 call_zero None None sequential blocked result_zero.

Lemma groups_in_order_witness :
  (1 <= 2)%nat /\
  groupPlans [sample_plan false false; sample_plan false true; sample_plan false false; sample_plan false false; sample_plan true false] 2
    = [[0; 2]; [3]; [4]]%nat /\
  Forall (group_fits [sample_plan false false; sample_plan true false] 2) (groupPlans [sample_plan false false; sample_plan true false] 2).
Proof.
  split; [lia|]. split; [reflexivity|]. apply (groups_in_order [sample_plan false false; sample_plan true false] 2). lia.
Defined.

(** ** Progress *)

Definition reported (reports : list string) : N := foldr (fun text n => N.of_nat (slen text) + n)%N 0%N reports.

Lemma progress_bounds bytes updates reports :
  (updates <= maxToolProgressUpdates)%N -> (bytes <= maxToolProgressBytes)%N ->
  Forall (fun text => (N.of_nat (slen text) < 2 ^ 62)%N) reports ->
  (updates + N.of_nat (length (progress_from bytes updates reports)) <= maxToolProgressUpdates)%N /\
  (bytes + reported (progress_from bytes updates reports) <= maxToolProgressBytes)%N.
Proof.
  intros Hu Hb Hr. revert bytes updates Hu Hb. induction Hr as [|text reports Ht Hr IH]; intros bytes updates Hu Hb; cbn [progress_from].
  { cbn. lia. }
  destruct (_ || _) eqn:E; [by apply IH|]. apply orb_false_elim in E as [E1 E2].
  apply N.leb_gt in E1. apply N.ltb_ge in E2.
  assert (Ha : u64_add bytes (N.of_nat (slen text)) = (bytes + N.of_nat (slen text))%N).
  { unfold u64_add. apply N.mod_small. unfold two64, maxToolProgressBytes in *. change (2 ^ 62)%N with 4611686018427387904%N in Ht.
    change (2 ^ 20)%N with 1048576%N in *. change (2 ^ 64)%N with 18446744073709551616%N. lia. }
  rewrite Ha in *. destruct (IH (bytes + N.of_nat (slen text))%N (updates + 1)%N) as [I1 I2]; [lia|lia|].
  cbn [length reported foldr]. fold (reported (progress_from (bytes + N.of_nat (slen text)) (updates + 1) reports)). lia.
Qed.
