(* ===== verification/RunLoop.v ===== *)
(** * The Loop of a Run

    [gotato/loop.go], with what surrounds the pure part of [gotato/reply.go] and the
    commits of [gotato/notice.go]: one Run from its first Event to its last, as a program
    over the operations of Session.v.  A Turn that goes on is [None]; the Loop itself has
    fuel, one unit for each Turn. *)

From S2P Require Import Prelude GoStrings Text Ref Errors Types Events Request Schema ToolRegistry Reply ControlQueue Session ToolBatch.
Local Open Scope string_scope.
Local Open Scope list_scope.

(** ** Results *)

Record RunMetrics := MkMetrics {
  rm_ElapsedMS : float64;
  rm_Turns : N;
  rm_ToolCalls : N;
  rm_TextBytes : N;
  rm_ReasoningBytes : N;
}.

Record RunResult := MkRunResult {
  rr_RunID : RunID;
  rr_Status : RunStatus;
  rr_FinalMessage : option Message;
  rr_Usage : Usage;
  rr_Metrics : RunMetrics;
  rr_Error : option RuntimeError;
}.
#[export] Instance eta_RunResult : Eta RunResult := fun r =>
  MkRunResult (rr_RunID r) (rr_Status r) (rr_FinalMessage r) (rr_Usage r) (rr_Metrics r) (rr_Error r).

(** [turnRun]: one Turn as it goes. *)
Record turnRun := MkTurnRun {
  tn_turn : TurnNumber;
  tn_assistant : Message;
  tn_usage : Usage;
  tn_text : N;
  tn_reasoning : N;
}.
#[export] Instance eta_turnRun : Eta turnRun := fun r =>
  MkTurnRun (tn_turn r) (tn_assistant r) (tn_usage r) (tn_text r) (tn_reasoning r).

(** [turnBuild]: the request of a Turn with what it was built from. *)
Record turnBuild := MkBuild {
  tb_snapshot : ContextSnapshot;
  tb_built : ModelContext;
  tb_request : ModelRequest;
  tb_prefix : string;
}.

Definition NoticeContinue : string := "continue".

(** [NewNotice]. *)
Definition NewNotice (source : NoticeSource) (kind text : string) : Message :=
  message_zero <| m_Role := RoleNotice |> <| m_Parts := [part_of ContentKindText text] |>
    <| m_Notice := Some (MkNotice kind source 0) |>.

Definition replyPartBytes : nat := N.to_nat 4096.

Section run.
Context `{Encoding, Texts, JsonText} (def : sessionDef).

Definition metrics : M RunMetrics :=
  do! elapsed := ask Elapsed in
  do! m := get (fun s => MkMetrics elapsed (lo_turns s) (lo_toolCalls s) (lo_textBytes s) (lo_reasoningBytes s)) in ret m.

(** ** Reading a reply *)

Definition limit_of : N := lm_MaxMessageBytes (df_limits def).

Definition resetPart (r : assistantReader) : assistantReader := r <| ar_partText := "" |> <| ar_partReasoning := "" |>.

(** [writePart]: the reply goes on with its part emptied, or breaks. *)
Definition part_event (h : Header) (r : assistantReader) : Event :=
  EReplyPartKept (MkReplyPartKept h (m_ID (ar_assistant r)) (ar_partText r) (ar_partReasoning r)).

Definition writePart (turn : TurnNumber) (r : assistantReader) : M (assistantReader * option RuntimeError) :=
  do! durable := isDurable in
  match durable with
  | Err err => ret (r, Some err)
  | Ok false => ret (r, None)
  | Ok true =>
    let size := (slen (ar_partText r) + slen (ar_partReasoning r))%nat in
    if Nat.eqb size 0 then ret (r, None)
    else
      do! due := (if (size <? replyPartBytes)%nat then ask (PartDue size) else ret true) in
      if negb due then ret (r, None)
      else
        do! h := header def turn in
        stage [part_event h r] ;;
        do! written := flush RunCtx in
        ret (resetPart r, match written with Ok _ => None | Err err => Some err end)
  end.

Definition delta_event (h : Header) (id : MessageID) (d : delta) : Event :=
  match d with
  | TextDelta text => ETextDelta (MkTextDelta h id text)
  | ReasoningDelta text => EReasoningDelta (MkReasoningDelta h id text)
  end.

(** [apply], with what it sends and stores. *)
Definition apply_model_event (turn : TurnNumber) (event : ModelEvent) (r : assistantReader) : M (assistantReader * option RuntimeError) :=
  let (r, answer) := Reply.apply_event limit_of event r in
  match answer with
  | Err err => ret (r, Some err)
  | Ok None => ret (r, None)
  | Ok (Some d) =>
    do! h := deltaHeader def turn in
    ask (Publish (delta_event h (m_ID (ar_assistant r)) d)) ;;
    writePart turn r
  end.

Definition has_output (message : Message) : bool :=
  negb (bool_decide (m_Parts message = []) && bool_decide (m_ToolCalls message = [])).

Definition retry_event (h : Header) (retry : ModelRetry) : Event :=
  EModelRetried (MkModelRetried h (rt_Attempt retry) (rt_WaitMS retry) (rt_Error retry)).

Definition cut_off_event (h : Header) (message : Message) (cause : ErrorCode) : Event :=
  EReplyCutOff (MkReplyCutOff h message cause).

(** A cut-off reply is kept as far as the history takes it. *)
Definition keep_partial (turn : TurnNumber) (partial : Message) : M unit :=
  if String.eqb (m_ID partial) "" then ret tt
  else
    do! committed := commitMessage def partial in
    match committed with
    | Ok _ => do! h := header def turn in stage [cut_off_event h partial CodeModelFailure]
    | Err _ => ret tt
    end.

(** [retried]. *)
Definition retried (turn : TurnNumber) (retry : ModelRetry) (r : assistantReader) : M assistantReader :=
  do! h := header def turn in
  if negb (has_output (ar_assistant r)) then
    do! _ := writeEvents RunCtx [retry_event h retry] in ret r
  else
    stage [retry_event h retry] ;;
    keep_partial turn (cutOffReply (ar_assistant r)) ;;
    do! id := ask (NextID "message") in
    do! run := get lo_run in
    let r := start_reply id run (m_Model (ar_assistant r)) in
    do! h := header def turn in
    stage [EReplyStarted (MkReplyStarted h id)] ;;
    do! _ := flush RunCtx in ret r.

Fixpoint retried_all (turn : TurnNumber) (retries : list ModelRetry) (r : assistantReader) : M assistantReader :=
  match retries with
  | [] => ret r
  | retry :: rest => do! r := retried turn retry r in retried_all turn rest r
  end.

(** What [readAssistant] returns. *)
Definition reply := (Message * Usage * option RuntimeError)%type.

Definition broken (err : RuntimeError) (r : assistantReader) : reply := (broken_reply r, ar_usage r, Some err).

Definition classify (err : error) : M RuntimeError :=
  do! run := ask CtxErr in
  do! model := ask ModelCtxErr in
  ret (classifyModelError (Some err) run model (lm_ModelCallDeadline (df_limits def))).

Definition stream_ended (err : error) : RuntimeError :=
  runtimeError CodeModelProtocolFailure "ModelStream" (plain_text "stream ended without completion") (Some err).

(** [read]; a stream that answers no more answers [io.EOF]. *)
Fixpoint read_stream (turn : TurnNumber) (stream : list received) (r : assistantReader) : M reply :=
  match stream with
  | [] => ret (broken (stream_ended IoEOF) r)
  | (retries, answer) :: rest =>
    do! r := retried_all turn retries r in
    match answer with
    | Err err =>
      if errors_Is err IoEOF then ret (broken (stream_ended err) r)
      else do! failure := classify err in ret (broken failure r)
    | Ok event =>
      do! applied := apply_model_event turn event r in
      match applied.2 with
      | Some err => ret (broken err applied.1)
      | None =>
        if ar_complete applied.1 then ret (whole_reply applied.1, ar_usage applied.1, None)
        else read_stream turn rest applied.1
      end
    end
  end.

Definition nil_stream : RuntimeError :=
  runtimeError CodeModelFailure "Model.Stream" (plain_text "Model returned a nil stream") None.

(** [readAssistant]. *)
Definition readAssistant (turn : TurnNumber) (id : MessageID) (request : ModelRequest) : M reply :=
  ask OpenCall ;;
  do! run := get lo_run in
  do! opened := ask (OpenStream request) in
  do! r := retried_all turn opened.1 (start_reply id run "") in
  do! answer :=
    (match opened.2 with
     | Err err => do! failure := classify err in ret (message_zero, usage_zero, Some failure)
     | Ok None => ret (message_zero, usage_zero, Some nil_stream)
     | Ok (Some stream) => do! answer := read_stream turn stream r in ask CloseStream ;; ret answer
     end) in
  ask CloseCall ;; ret answer.

(** ** The request *)

Definition or_instructions (snapshot : ContextSnapshot) (built : ModelContext) : ModelContext :=
  if String.eqb (mc_SystemInstructions built) "" then
    MkContext (cx_SystemInstructions snapshot) (mc_System built) (mc_Messages built) (mc_Metadata built)
  else built.

(** [buildContext]. *)
Definition buildContext (snapshot : ContextSnapshot) : attempt ModelContext :=
  do! answer := ask (Build snapshot) in
  ret match answer with
      | Ok built => Ok (or_instructions snapshot built)
      | Err err => Err (guarded "ContextBuilder" err)
      end.

Definition with_messages (messages : list Message) (built : ModelContext) : ModelContext :=
  MkContext (mc_SystemInstructions built) (mc_System built) messages (mc_Metadata built).

(** [assembleTurn]. *)
Definition request_of (built : ModelContext) (r : toolRegistry) : ModelRequest :=
  let request := (AssembleRequest built (visibleSpecs r)).1 in
  let (loaded, unloaded) := catalogView r in
  request <| mr_LoadedTools := loaded |> <| mr_UnloadedTools := unloaded |>.

Definition assembleTurn (snapshot : ContextSnapshot) : attempt turnBuild :=
  try! built := buildContext snapshot in
  try! messages := transformContext def (snapshot <| cx_SystemInstructions := mc_SystemInstructions built |> <| cx_Messages := mc_Messages built |>) in
  let built := with_messages messages built in
  do! r := get lo_registry in
  let request := request_of built r in
  succeed (MkBuild snapshot built (request <| mr_CacheKey := df_cacheKey def |>) (prefixHash request)).

(** The [build] of [callModel]. *)
Definition build_turn (turn : TurnNumber) : attempt turnBuild :=
  try! messages := transcript TrMessages in
  do! run := get lo_run in
  assembleTurn (MkSnapshot (df_id def) run turn (df_instruction def) messages).

Definition count_of {A} (l : list A) : Z := Z.of_nat (length l).

Definition contextBuilt (h : Header) (b : turnBuild) : Event :=
  let request := tb_request b in
  let estimate := EstimateContext (tb_built b) request in
  EContextBuilt (MkContextBuilt h (default "" (mc_Metadata (tb_built b) !! "strategy")) (count_of (mr_Messages request))
    (count_of (cx_Messages (tb_snapshot b))) (count_of (mc_Messages (tb_built b))) (tb_prefix b)
    (Z.max (count_of (mr_Messages request) - 1) 0) (Z.of_nat (slen (mr_SystemInstructions request))) (count_of (mr_Tools request))
    (ce_System estimate) (ce_ToolDefs estimate) (ce_Segments estimate) (ce_History estimate) (ce_ToolResults estimate)
    (mc_Metadata (tb_built b))).

(** After a TurnPreparer rewrote the Transcript. *)
Definition rebuild_turn (turn : TurnNumber) : attempt turnBuild :=
  try! _ := measure in
  try! _ := syncLoadedTools in
  try! _ := refreshToolsInRun def in
  build_turn turn.

(** One iteration of [callModel]'s loop; no reply means that the refusal stands. *)
Definition model_call (turn : TurnNumber) (runStart : nat) (current : turnBuild) (refused : option RuntimeError)
    : attempt (turnBuild * option reply) :=
  do! run := get lo_run in
  try! changed := prepareTurn def (MkPending run turn runStart (tb_request current) refused) in
  match refused, changed with
  | Some _, false => succeed (current, None)
  | _, _ =>
    try! current := (if changed then rebuild_turn turn else succeed current) in
    do! h := header def turn in
    do! id := ask (NextID "message") in
    do! h2 := header def turn in
    stage [contextBuilt h current; EReplyStarted (MkReplyStarted h2 id)] ;;
    try! _ := flush RunCtx in
    do! answer := readAssistant turn id (tb_request current) in
    modify (fun s => s <| lo_usage := addUsage (lo_usage s) answer.1.2 |>) ;;
    succeed (current, Some answer)
  end.

(** A refusal before any output, which a shorter request can mend. *)
Definition mendable (answer : reply) : bool :=
  match answer.2 with
  | Some err => String.eqb (Code err) CodeContextOverflow && negb (has_output answer.1.1)
  | None => false
  end.

(** [callModel]. *)
Definition callModel (turn : TurnNumber) (runStart : nat) : attempt reply :=
  try! current := build_turn turn in
  try! first := model_call turn runStart current None in
  let answer := default (message_zero, usage_zero, None) first.2 in
  if mendable answer then
    try! second := model_call turn runStart first.1 answer.2 in
    succeed (default (message_zero, usage_zero, answer.2) second.2)
  else succeed answer.

(** ** Messages from the queue *)

(** [commitContinuation] and [commitNotice], but for the lease, which the caller settles:
    a Message that cannot be committed is dropped when it waited in the queue. *)
Definition dropped_event (h : Header) (id : MessageID) (source : MessageSource) (why : string) : Event :=
  EMessageDropped (MkMessageDropped h id source why).

Definition dropUncommitted (turn : TurnNumber) (id : MessageID) (source : MessageSource) (taken : bool) : M unit :=
  if taken then do! h := header def turn in stage [dropped_event h id source "commit_failed"] else ret tt.

Definition commitContinuation (turn : TurnNumber) (message : Message) (source : MessageSource) : attempt unit :=
  do! id := named_id "message" (m_ID message) in
  do! run := get lo_run in
  let message := message <| m_ID := id |> <| m_RunID := run |> in
  do! committed := commitMessage def message in
  match committed with
  | Err err => dropUncommitted turn id source true ;; fail_with err
  | Ok _ =>
    do! h := header def turn in
    stage [EMessageCommitted (MkMessageCommitted h message source)] ;;
    flush RunCtx
  end.

Definition caused_by (number : N) (message : Message) : Message :=
  match m_Notice message with
  | Some info => if N.eqb number 0 then message else message <| m_Notice := Some (MkNotice (ni_Kind info) (ni_Source info) number) |>
  | None => message
  end.

Definition commitNotice (turn : TurnNumber) (message : Message) (number causedBy : N) (taken : bool) : attempt unit :=
  do! id := named_id "message" (m_ID message) in
  do! run := get lo_run in
  let message := caused_by causedBy (message <| m_ID := id |> <| m_RunID := run |>) in
  do! committed := commitMessage def message in
  match committed with
  | Err err => dropUncommitted turn id MessageSourceNotice taken ;; fail_with err
  | Ok _ =>
    do! h := header def turn in
    stage [ENoticeCommitted (MkNoticeCommitted h message number)] ;;
    flush RunCtx
  end.

Definition is_notice (item : control) : bool := String.eqb (ct_source item) MessageSourceNotice.

Definition commit_item (turn : TurnNumber) (item : control) : attempt unit :=
  if is_notice item then commitNotice turn (ct_message item) (ct_number item) 0 true
  else commitContinuation turn (ct_message item) (ct_source item).

(** The items of a lease, in order; each is settled once its commit was tried. *)
Fixpoint commit_items (turn : TurnNumber) (items : list control) (taken : lease) (injected : bool)
    : M (lease * result RuntimeError bool) :=
  match items with
  | [] => ret (taken, Ok injected)
  | item :: rest =>
    do! committed := commit_item turn item in
    let taken := ControlQueue.settle taken in
    match committed with
    | Err err => ret (taken, Err err)
    | Ok _ => commit_items turn rest taken (injected || negb (is_notice item))
    end
  end.

(** What is not settled goes back to the queue, whatever stopped the commits. *)
Definition commit_taken (turn : TurnNumber) (items : list control) : attempt bool :=
  do! answer := commit_items turn items (MkLease items 0) false in
  ask (PutBack answer.1) ;; ret answer.2.

(** [consumeControl] and [commitQueuedNotices]. *)
Definition consumeControl (turn : TurnNumber) (settling : bool) : attempt bool :=
  do! items := ask (TakeMessages settling) in commit_taken turn items.

Definition commitQueuedNotices (turn : TurnNumber) : attempt unit :=
  do! items := ask TakeNotices in try! _ := commit_taken turn items in succeed tt.

(** [boundary]. *)
Definition boundary (turn : TurnNumber) (settling : bool) : attempt bool :=
  try! _ := checkContext "continuation" in consumeControl turn settling.

(** ** The end of a Run *)

(** [discardControl]. *)
Fixpoint drop_items (turn : TurnNumber) (items : list control) : M unit :=
  match items with
  | [] => ret tt
  | item :: rest =>
    do! h := header def turn in
    stage [dropped_event h (m_ID (ct_message item)) (ct_source item) "run_ended"] ;; drop_items turn rest
  end.

Definition discardControl (turn : TurnNumber) : M unit := do! items := ask DrainMessages in drop_items turn items.

Definition ended_event (h : Header) (result : RunResult) (m : RunMetrics) (stopped : option string) : Event :=
  ERunEnded (MkRunEnded h (rr_Status result) (match rr_Error result with Some err => Code err | None => "" end)
    (bool_decide (is_Some stopped)) (default "" stopped) (rm_Turns m) (rm_ToolCalls m) (rr_Usage result) (rm_ElapsedMS m)
    (rm_TextBytes m) (rm_ReasoningBytes m)).

(** [end]; [stopped] is the reason of a TurnStopper that ended the Run. *)
Definition end_run (turn : TurnNumber) (result : RunResult) (stopped : option string) : attempt unit :=
  do! keeps := ask (BeginEnd (rr_Status result)) in
  (if keeps then ret tt else discardControl turn) ;;
  ask WaitAborts ;;
  do! m := metrics in
  do! h := header def turn in
  stage [ended_event h result m stopped] ;;
  flush FinalCtx.

Definition failed_status (err : RuntimeError) : RunStatus :=
  if String.eqb (Code err) CodeDeadlineExceeded then RunStatusDeadlineExceeded
  else if (match Cause err with Some cause => errors_Is cause ContextCanceled | None => false end)
          || String.eqb (Code err) CodeCanceled then RunStatusCanceled
  else RunStatusFailed.

(** [fail]: the Run ends with the error, whatever becomes of its last write. *)
Definition ended := (RunResult * option RuntimeError)%type.

Definition fail (err : RuntimeError) : M ended :=
  do! m := metrics in
  do! run := get lo_run in
  do! usage := get lo_usage in
  let result := MkRunResult run (failed_status err) None usage m (Some err) in
  do! turn := get lo_turn in
  closeOpenCalls def err (failed_status err) ;;
  do! _ := end_run turn result None in
  ret (result, Some err).

(** [settle]: a Run whose last write failed has failed, whatever its reply was. *)
Definition settle_run (turn : TurnNumber) (assistant : Message) (stopped : option string) : M ended :=
  do! m := metrics in
  do! run := get lo_run in
  do! usage := get lo_usage in
  let result := MkRunResult run RunStatusCompleted (Some assistant) usage m None in
  do! written := end_run turn result stopped in
  match written with
  | Ok _ => ret (result, None)
  | Err err => ret (result <| rr_Status := RunStatusFailed |> <| rr_Error := Some err |>, Some err)
  end.

(** ** One Turn *)

(** A Turn that goes on answers [None]. *)
Definition turn_step := M (option ended).
Definition go_on : turn_step := ret None.
Definition failTurn (err : RuntimeError) : turn_step := do! result := fail err in ret (Some result).
Definition settleTurn (turn : TurnNumber) (assistant : Message) (stopped : option string) : turn_step :=
  do! result := settle_run turn assistant stopped in ret (Some result).

(** A step of a Turn whose failure ends the Run. *)
Definition or_fail {A} (m : attempt A) (k : A -> turn_step) : turn_step :=
  do! answer := m in match answer with Ok a => k a | Err err => failTurn err end.

Definition turnEnded (h : Header) (elapsed : float64) (t : turnRun) (stop : StopReason) (calls : nat) (outcomes : list ToolOutcome) : Event :=
  ETurnEnded (MkTurnEnded h stop (tn_usage t) elapsed (tn_text t) (tn_reasoning t) (Z.of_nat calls) outcomes).

Definition stage_turn_ended (t : turnRun) (stop : StopReason) (calls : nat) (outcomes : list ToolOutcome) : M unit :=
  do! h := header def (tn_turn t) in
  do! elapsed := ask Elapsed in
  stage [turnEnded h elapsed t stop calls outcomes].

(** [runState.stopTurn]. *)
Definition stopTurn (turn : TurnNumber) (assistant : Message) (results : list ToolResult) (reason : StopReason) : attempt StopDecision :=
  do! run := get lo_run in
  stop_from def (df_stoppers def) 0 (MkTurnSnapshot run turn assistant results reason).

(** An Interrupt cut the call short, and the Run goes on. *)
Definition interrupted (err : RuntimeError) : M bool :=
  if String.eqb (Code err) CodeCanceled then
    do! ctx := ask CtxErr in
    match ctx with Some _ => ret false | None => ask Interrupting end
  else ret false.

(** The cut-off reply is committed, when there is one and the history takes it. *)
Definition commit_cut_off (t : turnRun) (cause : ErrorCode) : M bool :=
  if String.eqb (m_StopReason (tn_assistant t)) StopReasonCutOff then
    do! committed := commitMessage def (tn_assistant t) in
    match committed with
    | Ok _ => do! h := header def (tn_turn t) in stage [cut_off_event h (tn_assistant t) cause] ;; ret true
    | Err _ => ret false
    end
  else ret false.

(** [afterModelError]. *)
Definition afterModelError (t : turnRun) (err : RuntimeError) : turn_step :=
  do! cut := interrupted err in
  if cut then
    do! _ := commit_cut_off t (Code err) in
    stage_turn_ended t StopReasonCutOff 0 [] ;;
    or_fail (consumeControl (tn_turn t) false) (fun _ => go_on)
  else
    do! kept := commit_cut_off t (Code err) in
    (if kept then do! _ := flush RunCtx in ret tt else ret tt) ;;
    failTurn err.

(** [endAnswerTurn]. *)
Definition truncated (assistant : Message) : M bool :=
  do! count := get lo_truncated in
  ret (String.eqb (m_StopReason assistant) StopReasonMaxTokens && (count <? lm_MaxTruncatedContinuations (df_limits def))%N).

Definition endAnswerTurn (t : turnRun) (replyNumber : N) : turn_step :=
  let turn := tn_turn t in let assistant := tn_assistant t in
  stage_turn_ended t (m_StopReason assistant) 0 [] ;;
  or_fail (stopTurn turn assistant [] (m_StopReason assistant)) (fun decision =>
  if sd_Stop decision then settleTurn turn assistant (Some (sd_Reason decision))
  else
    or_fail (boundary turn true) (fun injected =>
    if injected then go_on
    else
      do! cut := truncated assistant in
      if cut then
        modify (fun s => s <| lo_truncated := u32_add (lo_truncated s) 1 |>) ;;
        or_fail (commitNotice turn (NewNotice NoticeSourceGotato NoticeContinue TruncatedContinuationText) 0 replyNumber false)
          (fun _ => go_on)
      else settleTurn turn assistant None)).

(** [endToolTurn]. *)
Definition endToolTurn (t : turnRun) : turn_step :=
  let turn := tn_turn t in let assistant := tn_assistant t in
  or_fail (runToolBatch def turn assistant) (fun settled =>
  stage_turn_ended t StopReasonToolCalls (length (m_ToolCalls assistant)) settled.1 ;;
  or_fail (stopTurn turn assistant settled.2 StopReasonToolCalls) (fun decision =>
  if sd_Stop decision then settleTurn turn assistant (Some (sd_Reason decision))
  else or_fail (boundary turn false) (fun _ => go_on))).

(** A reply that asks for Tools stopped for them, unless the output limit cut it off. *)
Definition stopped_for_tools (assistant : Message) : Message :=
  if bool_decide (m_ToolCalls assistant <> []) && negb (String.eqb (m_StopReason assistant) StopReasonMaxTokens)
  then assistant <| m_StopReason := StopReasonToolCalls |> else assistant.

(** The reply is committed, and its Tool calls are open. *)
Definition open_batch (turn : TurnNumber) (assistant : Message) : M unit :=
  match m_ToolCalls assistant with
  | [] => ret tt
  | calls => modify (fun s => s <| lo_batch := MkBatch turn calls 0 ∅ |>)
  end.

Definition reply_ended (h : Header) (assistant : Message) : Event :=
  EReplyEnded (MkReplyEnded h assistant (m_Model assistant) (m_StopReason assistant) (count_of (m_ToolCalls assistant))).

Definition commit_reply (turn : TurnNumber) (assistant : Message) : attempt N :=
  try! _ := commitMessage def assistant in
  open_batch turn assistant ;;
  do! h := header def turn in
  stage [reply_ended h assistant] ;;
  flushNumbered RunCtx EventKindReplyEnded.

(** What a reply says counts, whether it is whole or not. *)
Definition start_turn (turn : TurnNumber) : M unit :=
  modify (fun s => s <| lo_turns := u32_add (lo_turns s) 1 |> <| lo_turn := turn |>) ;;
  ask (SetTurn turn) ;;
  do! h := header def turn in
  stage [ETurnStarted (MkTurnStarted h)].

Definition count_reply (text reasoning : N) : M unit :=
  modify (fun s => s <| lo_textBytes := u64_add (lo_textBytes s) text |> <| lo_reasoningBytes := u64_add (lo_reasoningBytes s) reasoning |>).

Definition end_turn (t : turnRun) : turn_step :=
  let t := t <| tn_assistant := stopped_for_tools (tn_assistant t) |> in
  or_fail (commit_reply (tn_turn t) (tn_assistant t)) (fun replyNumber =>
  match m_ToolCalls (tn_assistant t) with
  | [] => endAnswerTurn t replyNumber
  | _ => endToolTurn t
  end).

(** [runTurn]. *)
Definition runTurn (turn : TurnNumber) (runStart : nat) : turn_step :=
  or_fail (checkContext "turn") (fun _ =>
  start_turn turn ;;
  or_fail (refreshToolsInRun def) (fun _ =>
  or_fail (commitQueuedNotices turn) (fun _ =>
  or_fail (callModel turn runStart) (fun answer =>
  let (text, reasoning) := replyBytes (m_Parts answer.1.1) in
  count_reply text reasoning ;;
  let t := MkTurnRun turn answer.1.1 answer.1.2 text reasoning in
  match answer.2 with
  | Some err => afterModelError t err
  | None => end_turn t
  end)))).

(** ** The Run *)

Fixpoint run_turns (fuel : nat) (turn : TurnNumber) (runStart : nat) : M (option ended) :=
  match fuel with
  | 0 => ret None
  | S fuel =>
    do! answer := runTurn turn runStart in
    match answer with
    | Some result => ret (Some result)
    | None => run_turns fuel (u32_add turn 1) runStart
    end
  end.

(** [beginRun]: what is left of an earlier Run is gone. *)
Definition onRunStart (id : RunID) : attempt unit :=
  if df_onRunStart def then
    do! answer := ask (OnRunStart id) in
    match answer with
    | Ok _ => succeed tt
    | Err err => fail_with (runtimeError CodeExtensionFailure "WithRunStart" (plain_text (PublicText err "withRunStart failed")) (Some err))
    end
  else succeed tt.

Definition beginRun : attempt unit :=
  do! id := ask (NextID "run") in
  modify (fun s => MkLocal (lo_staged s) (lo_size s) (lo_registry s) id 0 usage_zero 0 0 0 0 0 batch_zero) ;;
  ask (BeginRun id) ;;
  onRunStart id.

(** [commitPrompt]. *)
Definition commitPrompt (prompt : Message) : attempt unit :=
  do! id := named_id "message" (m_ID prompt) in
  do! run := get lo_run in
  let prompt := prompt <| m_ID := id |> <| m_RunID := run |> in
  try! _ := commitMessage def prompt in
  do! h := header def 0 in
  stage [EMessageCommitted (MkMessageCommitted h prompt MessageSourcePrompt)] ;;
  flush RunCtx.

(** What comes before the first Turn: how many Messages the Transcript holds. *)
Definition prepare_run (started : result RuntimeError unit) (prompt : option Message) : attempt nat :=
  try! _ := ret started in
  do! h := header def 0 in
  try! _ := refreshToolSets h in
  try! runStart := transcript TrLen in
  try! _ := measure in
  try! _ := (match prompt with Some prompt => commitPrompt prompt | None => succeed tt end) in
  succeed runStart.

(** [executeRun]. *)
Definition executeRun (fuel : nat) (prompt : option Message) : M (option ended) :=
  do! started := beginRun in
  do! h := header def 0 in
  stage [ERunStarted (MkRunStarted h (df_requestID def))] ;;
  do! result := or_fail (prepare_run started prompt) (fun runStart => run_turns fuel 1 runStart) in
  ask EndRun ;; ret result.

End run.
