(* ===== verification/RunSpec.v ===== *)
(** * What a Run's program does

    A run of a program of Session.v is the list of what it asked and what the world
    answered.  A [spec] says which moves a program makes, of a small set, with what it
    returns and leaves: it is proved once for each program of the Loop, and an invariant of
    the moves then holds of all of them. *)

From S2P Require Import Prelude GoStrings Text Ref Errors Types Events Request Schema ToolRegistry Reply ControlQueue Session ToolBatch RunLoop.
Local Open Scope string_scope.
Local Open Scope list_scope.

(** ** Runs *)

Inductive act : Type :=
| Act {X : Type} (o : op X) (x : X).

Fixpoint runs {A} (p : prog A) (tr : list act) (a : A) : Prop :=
  match p with
  | Ret b => tr = [] /\ a = b
  | Do o k => exists x rest, tr = Act o x :: rest /\ runs (k x) rest a
  end.

Lemma runs_pbind {A B} (p : prog A) (k : A -> prog B) tr b :
  runs (pbind p k) tr b <-> exists tr1 a tr2, tr = tr1 ++ tr2 /\ runs p tr1 a /\ runs (k a) tr2 b.
Proof.
  revert tr. induction p as [a|X o f IH]; intros tr; cbn [pbind runs].
  - split; [intros Hk; by exists [], a, tr|]. by intros (? & ? & ? & -> & [-> ->] & Hk).
  - split.
    + intros (x & rest & -> & Hr). apply IH in Hr as (tr1 & a & tr2 & -> & H1 & H2).
      exists (Act o x :: tr1), a, tr2. split; [done|]. split; [by exists x, tr1|done].
    + intros (? & a & tr2 & -> & (x & tr1 & -> & H1) & H2). exists x, (tr1 ++ tr2).
      split; [done|]. apply IH. by exists tr1, a, tr2.
Qed.

(** The Events handed to the Journal, in order. *)
Definition handed_by (a : act) : list Event :=
  match a with Act o _ => match o with WriteEvents _ events => events | _ => [] end end.

Definition handed (tr : list act) : list Event := tr ≫= handed_by.

Lemma handed_app tr tr' : handed (tr ++ tr') = handed tr ++ handed tr'.
Proof. apply bind_app. Qed.

(** Something was written, or there is no need for it. *)
Definition wrote (late : bool) (tr : list act) : Prop := late = true -> handed tr <> [].

Lemma wrote_app late tr tr' : wrote late tr -> wrote late (tr ++ tr').
Proof. intros Hw Hl. rewrite handed_app. specialize (Hw Hl). by destruct (handed tr). Qed.

(** ** Moves *)

(** How far a program may go: [Calm] asks and writes, [Chat] also calls the Model and commits
    what opens no Tool call, [Busy] does all that a Turn does. *)
Inductive reach : Type := Calm | Chat | Busy.
#[export] Instance reach_eq_dec : EqDecision reach.
Proof. solve_decision. Defined.

Inductive op_kind : Type := PlainOp | ModelOp | ToolOp | WriteOp | AppendOp.

Definition kind_of {X} (o : op X) : op_kind :=
  match o with
  | WriteEvents _ _ => WriteOp
  | TrAppend _ => AppendOp
  | Build _ | Prepare _ _ _ | OpenStream _ => ModelOp
  | Launch _ => ToolOp
  | _ => PlainOp
  end.

Definition asks (c : reach) (k : op_kind) : bool :=
  match k, c with
  | PlainOp, _ | ModelOp, (Chat | Busy) | ToolOp, Busy => true
  | _, _ => false
  end.

(** A Message that neither asks for Tools nor answers a call. *)
Definition free (m : Message) : bool :=
  negb (String.eqb (m_Role m) RoleToolResult)
  && (negb (String.eqb (m_Role m) RoleAssistant) || bool_decide (m_ToolCalls m = [])).

Definition appends (c : reach) (m : Message) : bool :=
  match c with Calm => false | Chat => free m | Busy => true end.

(** An Event that is not the first or the last of a Run. *)
Definition plain_event (e : Event) : bool :=
  match e with ERunStarted _ | ERunEnded _ => false | _ => true end.

(** The part of the state that only the Loop itself changes. *)
Record same_core (s s' : local) : Prop := {
  sm_staged : lo_staged s' = lo_staged s;
  sm_run : lo_run s' = lo_run s;
  sm_turn : lo_turn s' = lo_turn s;
  sm_truncated : lo_truncated s' = lo_truncated s;
  sm_batch : lo_batch s' = lo_batch s;
}.

Abbreviation conf := (local * list act)%type (only parsing).

Inductive move (c : reach) : conf -> conf -> Prop :=
| mv_ask {X} (o : op X) x s tr : asks c (kind_of o) = true -> move c (s, tr) (s, tr ++ [Act o x])
| mv_stage es s tr :
  Forall (fun e => plain_event e = true) es -> move c (s, tr) (s <| lo_staged := lo_staged s ++ es |>, tr)
| mv_write ctx answer s tr :
  lo_staged s <> [] ->
  move c (s, tr) (s <| lo_staged := [] |>, tr ++ [Act (WriteEvents ctx (lo_staged s)) answer])
| mv_direct ctx es answer s tr :
  handed tr <> [] -> Forall (fun e => plain_event e = true) es ->
  move c (s, tr) (s, tr ++ [Act (WriteEvents ctx es) answer])
| mv_append m answer s tr : appends c m = true -> move c (s, tr) (s, tr ++ [Act (TrAppend m) answer])
| mv_set s s' tr : same_core s s' -> move c (s, tr) (s', tr)
| mv_batch s s' tr :
  c = Busy -> same_core s (s' <| lo_batch := lo_batch s |>) -> move c (s, tr) (s', tr).

(** What changes with [c]. *)
Lemma asks_mono c k : asks Calm k = true -> asks c k = true.
Proof. by destruct c, k. Qed.

Lemma move_calm c x y : move Calm x y -> move c x y.
Proof.
  intros []; [apply mv_ask; by apply asks_mono|by constructor..|done|by constructor|done].
Qed.

Lemma move_chat x y : move Chat x y -> move Busy x y.
Proof.
  intros []; [apply mv_ask; by destruct (kind_of o)|by constructor..|done].
Qed.

(** ** Specifications *)

Abbreviation assertion := (local -> list act -> Prop) (only parsing).

Section spec.
(** What is assumed of the world's answers. *)
Context (W : act -> Prop).

Definition spec (c : reach) {A} (P : assertion) (m : M A) (Q : A -> assertion) : Prop :=
  forall s tr tr' a s', P s tr -> Forall W tr' -> runs (m s) tr' (a, s') ->
  rtc (move c) (s, tr) (s', tr ++ tr') /\ Q a s' (tr ++ tr').

(** A program that makes the moves of [c]; a [late] one is not the first to write. *)
Definition does (c : reach) (late : bool) {A} (m : M A) : Prop := spec c (fun _ => wrote late) m (fun _ _ _ => True).

Lemma spec_ret c {A} (P : assertion) (a : A) (Q : A -> assertion) : (forall s tr, P s tr -> Q a s tr) -> spec c P (ret a) Q.
Proof. intros HQ s tr tr' b s' HP HW [-> [= -> ->]]. rewrite app_nil_r. split; [apply rtc_refl|auto]. Qed.

Lemma spec_bind c {A B} P (m : M A) (k : A -> M B) R Q :
  spec c P m R -> (forall a, spec c (R a) (k a) Q) -> spec c P (bind m k) Q.
Proof.
  intros Hm Hk s tr tr' b s' HP HW Hr. apply runs_pbind in Hr as (tr1 & [a s1] & tr2 & -> & H1 & H2).
  apply list.Forall_app in HW as [HW1 HW2].
  destruct (Hm s tr tr1 a s1 HP HW1 H1) as [Hs1 HR]. destruct (Hk a s1 (tr ++ tr1) tr2 b s' HR HW2 H2) as [Hs2 HQ].
  rewrite app_assoc. split; [by etrans|done].
Qed.

Lemma spec_weaken c {A} (P P' : assertion) (m : M A) (Q Q' : A -> assertion) :
  spec c P m Q -> (forall s tr, P' s tr -> P s tr) -> (forall a s tr, Q a s tr -> Q' a s tr) -> spec c P' m Q'.
Proof. intros Hm HP HQ s tr tr' a s' Hs HW Hr. destruct (Hm s tr tr' a s') as [? ?]; auto. Qed.

Lemma spec_reach c c' {A} P (m : M A) Q :
  (forall x y, move c x y -> move c' x y) -> spec c P m Q -> spec c' P m Q.
Proof.
  intros Hc Hm s tr tr' a s' HP HW Hr. destruct (Hm s tr tr' a s' HP HW Hr) as [Hs HQ]. split; [|done].
  clear -Hc Hs. induction Hs; [apply rtc_refl|]. eapply rtc_l; [by apply Hc|done].
Qed.

Lemma spec_calm c {A} P (m : M A) Q : spec Calm P m Q -> spec c P m Q.
Proof. apply spec_reach, move_calm. Qed.

Lemma spec_chat {A} P (m : M A) Q : spec Chat P m Q -> spec Busy P m Q.
Proof. apply spec_reach, move_chat. Qed.

(** What holds of a trace that only grows is kept. *)
Lemma spec_late c late {A} P (m : M A) Q :
  spec c P m Q -> spec c (fun s tr => P s tr /\ wrote late tr) m (fun a s tr => Q a s tr /\ wrote late tr).
Proof.
  intros Hm s tr tr' a s' [HP Hl] HW Hr. destruct (Hm s tr tr' a s' HP HW Hr) as [Hs HQ].
  split; [done|]. split; [done|by apply wrote_app].
Qed.

Lemma does_spec c late {A} (P : assertion) (m : M A) (Q : A -> assertion) :
  (forall s tr, P s tr -> wrote late tr) ->
  (forall s tr tr' a s', P s tr -> Forall W tr' -> runs (m s) tr' (a, s') -> Q a s' (tr ++ tr')) ->
  does c late m -> spec c P m Q.
Proof. intros HP HQ Hm s tr tr' a s' Hs HW Hr. destruct (Hm s tr tr' a s') as [? _]; eauto. Qed.

Lemma does_ret c late {A} (a : A) : does c late (ret a).
Proof. by apply spec_ret. Qed.

Lemma does_bind c late {A B} (m : M A) (k : A -> M B) : does c late m -> (forall a, does c late (k a)) -> does c late (bind m k).
Proof.
  intros Hm Hk. eapply spec_bind; [eapply spec_weaken; [apply (spec_late _ late), Hm|done|intros a s tr HR; exact HR]|].
  intros a. eapply spec_weaken; [apply Hk|by intros s tr [_ ?]|done].
Qed.

Lemma does_ask c late {X} (o : op X) : asks c (kind_of o) = true -> does c late (ask o).
Proof.
  intros Ho s tr tr' x s' HP HW (y & rest & -> & [-> [= -> ->]]). split; [|done].
  apply rtc_once. by apply mv_ask.
Qed.

(** What is asked is used, as far as it is assumed of the world. *)
Lemma does_ask_bind c late {X A} (o : op X) (k : X -> M A) :
  asks c (kind_of o) = true -> (forall x, W (Act o x) -> does c late (k x)) -> does c late (bind (ask o) k).
Proof.
  intros Ho Hk s tr tr' a s' Hl HW (x & rest & -> & Hr). inversion HW as [|? ? Hx HW']; subst.
  destruct (Hk x Hx s (tr ++ [Act o x]) rest a s') as [Hs _]; [by apply wrote_app|done|done|].
  split; [|done]. rewrite <- app_assoc in Hs. eapply rtc_l; [by apply mv_ask|done].
Qed.

Lemma does_append c late m : appends c m = true -> does c late (ask (TrAppend m)).
Proof.
  intros Hm s tr tr' x s' HP HW (y & rest & -> & [-> [= -> ->]]). split; [|done].
  apply rtc_once. by apply mv_append.
Qed.

Lemma does_direct c ctx es :
  Forall (fun e => plain_event e = true) es -> does c true (writeEvents ctx es).
Proof.
  intros He s tr tr' x s' HP HW (y & rest & -> & [-> [= -> ->]]). split; [|done].
  apply rtc_once. apply mv_direct; [by apply HP|done].
Qed.

Lemma does_get c late {A} (f : local -> A) : does c late (get f).
Proof. intros s tr tr' b s' HP HW [-> [= -> ->]]. rewrite app_nil_r. split; [apply rtc_refl|done]. Qed.

Lemma does_modify c late f : (forall s, same_core s (f s)) -> does c late (modify f).
Proof.
  intros Hf s tr tr' b s' HP HW [-> [= -> ->]]. rewrite app_nil_r. split; [|done].
  apply rtc_once, mv_set, Hf.
Qed.

Lemma does_batch late f : (forall s, same_core s ((f s) <| lo_batch := lo_batch s |>)) -> does Busy late (modify f).
Proof.
  intros Hf s tr tr' b s' HP HW [-> [= -> ->]]. rewrite app_nil_r. split; [|done].
  apply rtc_once, mv_batch; [done|apply Hf].
Qed.

Lemma does_stage c late es : Forall (fun e => plain_event e = true) es -> does c late (stage es).
Proof.
  intros He s tr tr' b s' HP HW [-> [= -> ->]]. rewrite app_nil_r. split; [|done].
  by apply rtc_once, mv_stage.
Qed.

Lemma does_try c late {A B} (m : attempt A) (k : A -> attempt B) :
  does c late m -> (forall a, does c late (k a)) -> does c late (try_bind m k).
Proof. intros Hm Hk. apply does_bind; [done|]. intros [a|err]; [apply Hk|apply does_ret]. Qed.

Lemma does_calm c late {A} (m : M A) : does Calm late m -> does c late m.
Proof. apply spec_calm. Qed.
Lemma does_chat late {A} (m : M A) : does Chat late m -> does Busy late m.
Proof. apply spec_chat. Qed.
Lemma does_late c {A} (m : M A) : does c false m -> does c true m.
Proof. intros Hm. eapply spec_weaken; [apply Hm|by intros ??? [=]|done]. Qed.

(** *** Flushing *)

Lemma flush_runs ctx s tr' (a : result RuntimeError unit) s' :
  runs (flush ctx s) tr' (a, s') ->
  s' = s <| lo_staged := [] |> /\
  match lo_staged s with
  | [] => tr' = [] /\ a = Ok tt
  | _ => exists answer, tr' = [Act (WriteEvents ctx (lo_staged s)) answer]
         /\ a = match answer with Ok _ => Ok tt | Err err => Err (journalError err) end
  end.
Proof.
  intros Hr. apply runs_pbind in Hr as (tr1 & [events s1] & tr2 & -> & H1 & H2).
  cbn in H1. destruct H1 as [-> [= -> ->]]. destruct (lo_staged s) as [|e es] eqn:Es.
  - by destruct H2 as [-> [= -> ->]].
  - destruct H2 as (answer & rest & -> & Hr). destruct answer as [w|err]; cbn in Hr; destruct Hr as [-> [= -> ->]];
      (split; [done|]; eexists; split; [done|]; done).
Qed.

Lemma flushNumbered_runs ctx kind s tr' (a : result RuntimeError N) s' :
  runs (flushNumbered ctx kind s) tr' (a, s') ->
  s' = s <| lo_staged := [] |> /\
  match lo_staged s with
  | [] => tr' = [] /\ a = Ok 0%N
  | _ => exists answer, tr' = [Act (WriteEvents ctx (lo_staged s)) answer]
         /\ a = match answer with Ok written => Ok (last_number kind written) | Err err => Err (journalError err) end
  end.
Proof.
  intros Hr. apply runs_pbind in Hr as (tr1 & [events s1] & tr2 & -> & H1 & H2).
  cbn in H1. destruct H1 as [-> [= -> ->]]. destruct (lo_staged s) as [|e es] eqn:Es.
  - by destruct H2 as [-> [= -> ->]].
  - destruct H2 as (answer & rest & -> & Hr). destruct answer as [w|err]; cbn in Hr; destruct Hr as [-> [= -> ->]];
      (split; [done|]; eexists; split; [done|]; done).
Qed.

(** What the writing of what is staged does, of either kind. *)
Lemma staged_written c ctx s s' tr tr' {A} (a : A) (of_answer : outcome (list Event) -> A) (nothing : A) :
  s' = s <| lo_staged := [] |> ->
  match lo_staged s with
  | [] => tr' = [] /\ a = nothing
  | _ => exists answer, tr' = [Act (WriteEvents ctx (lo_staged s)) answer] /\ a = of_answer answer
  end ->
  rtc (move c) (s, tr) (s', tr ++ tr').
Proof.
  intros -> Hw. destruct (lo_staged s) eqn:Es.
  - destruct Hw as [-> _]. rewrite app_nil_r. apply rtc_once, mv_set. split; [|done..]. by rewrite Es.
  - destruct Hw as (answer & -> & _). rewrite <- Es. apply rtc_once, mv_write. by rewrite Es.
Qed.

Lemma does_flush c late ctx : does c late (flush ctx).
Proof.
  intros s tr tr' a s' _ HW Hr. split; [|done]. apply flush_runs in Hr as [Hs Hw].
  by eapply (staged_written c ctx s s' tr tr' a (fun answer => match answer with Ok _ => Ok tt | Err err => Err (journalError err) end)).
Qed.

Lemma does_flushNumbered c late ctx kind : does c late (flushNumbered ctx kind).
Proof.
  intros s tr tr' a s' _ HW Hr. split; [|done]. apply flushNumbered_runs in Hr as [Hs Hw].
  by eapply (staged_written c ctx s s' tr tr' a
    (fun answer => match answer with Ok written => Ok (last_number kind written) | Err err => Err (journalError err) end)).
Qed.

(** After what was staged is written, a program is late. *)
Lemma spec_then_late c {A} ctx es (k : unit -> attempt A) (Q : result RuntimeError A -> assertion) :
  es <> [] -> Forall (fun e => plain_event e = true) es ->
  (forall err s tr, Q (Err err) s tr) ->
  (spec c (fun _ => wrote true) (k tt) Q) ->
  spec c (fun _ _ => True) (bind (stage es) (fun _ => try_bind (flush ctx) k)) Q.
Proof.
  intros Hn He HQ Hk. eapply spec_bind with (R := fun _ s _ => lo_staged s <> []).
  { intros s tr tr' b s' HP HW [-> [= -> ->]]. rewrite app_nil_r. split; [by apply rtc_once, mv_stage|].
    cbn. by destruct (lo_staged s), es. }
  intros _. eapply spec_bind with (R := fun a _ tr => is_ok a = true -> wrote true tr).
  - intros s tr tr' a s' HP HW Hr. split; [by apply (does_flush c false ctx s tr tr' a s')|].
    apply flush_runs in Hr as [_ Hw]. destruct (lo_staged s) eqn:Es; [done|]. destruct Hw as (answer & -> & _).
    intros _ _. rewrite handed_app. cbn. by destruct (handed tr).
  - intros [[]|err]; [eapply spec_weaken; [exact Hk|by intros s tr Hw; apply Hw|done]|].
    apply spec_ret. intros s tr _. apply HQ.
Qed.

(** *** Assertions *)

Definition triple {A} (P : assertion) (m : M A) (Q : A -> assertion) : Prop :=
  forall s tr tr' a s', P s tr -> Forall W tr' -> runs (m s) tr' (a, s') -> Q a s' (tr ++ tr').

(** An assertion that the moves of [c] keep. *)
Definition kept (c : reach) (I : assertion) : Prop :=
  forall s tr s' tr', move c (s, tr) (s', tr') -> I s tr -> I s' tr'.

Lemma kept_rtc c (I : assertion) s tr s' tr' : kept c I -> rtc (move c) (s, tr) (s', tr') -> I s tr -> I s' tr'.
Proof.
  intros HI Hs. remember (s, tr) as x eqn:Ex. remember (s', tr') as y eqn:Ey. revert s tr Ex.
  induction Hs as [x|x [s1 tr1] y Hm Hs IH]; intros s tr ->; [by simplify_eq|].
  intros Hi. eapply IH; [done|done|]. by eapply HI.
Qed.

Lemma triple_done {A} (P : assertion) (a : A) (Q : A -> assertion) : (forall s tr, P s tr -> Q a s tr) -> triple P (ret a) Q.
Proof. intros HQ s tr tr' b s' HP HW [-> [= -> ->]]. rewrite app_nil_r. auto. Qed.

Lemma triple_seq {A B} P (m : M A) (k : A -> M B) R Q :
  triple P m R -> (forall a, triple (R a) (k a) Q) -> triple P (bind m k) Q.
Proof.
  intros Hm Hk s tr tr' b s' HP HW Hr. apply runs_pbind in Hr as (tr1 & [a s1] & tr2 & -> & H1 & H2).
  apply list.Forall_app in HW as [HW1 HW2]. rewrite app_assoc. eapply Hk; [eapply Hm; [exact HP|exact HW1|exact H1]|exact HW2|exact H2].
Qed.

Lemma triple_weaken {A} (P P' : assertion) (m : M A) (Q Q' : A -> assertion) :
  triple P m Q -> (forall s tr, P' s tr -> P s tr) -> (forall a s tr, Q a s tr -> Q' a s tr) -> triple P' m Q'.
Proof. intros Hm HP HQ s tr tr' a s' Hs HW Hr. eapply HQ, Hm; eauto. Qed.

Lemma triple_pre {A} (P P' : assertion) (m : M A) (Q : A -> assertion) :
  triple P m Q -> (forall s tr, P' s tr -> P s tr) -> triple P' m Q.
Proof. intros Hm HP. by eapply triple_weaken. Qed.

Lemma triple_and {A} (P1 P2 : assertion) (m : M A) (Q1 Q2 : A -> assertion) :
  triple P1 m Q1 -> triple P2 m Q2 -> triple (fun s tr => P1 s tr /\ P2 s tr) m (fun a s tr => Q1 a s tr /\ Q2 a s tr).
Proof. intros Hm1 Hm2 s tr tr' a s' [HP1 HP2] HW Hr. split; [by eapply Hm1|by eapply Hm2]. Qed.

Lemma triple_spec c (I : assertion) {A} P (m : M A) Q :
  spec c P m Q -> kept c I -> triple (fun s tr => P s tr /\ I s tr) m (fun a s tr => Q a s tr /\ I s tr).
Proof.
  intros Hm HI s tr tr' a s' [HP Hi] HW Hr. destruct (Hm s tr tr' a s' HP HW Hr) as [Hs HQ].
  split; [done|]. by eapply kept_rtc.
Qed.

Lemma triple_does c late (I : assertion) {A} (m : M A) :
  does c late m -> kept c I -> (forall s tr, I s tr -> wrote late tr) -> triple I m (fun _ => I).
Proof.
  intros Hm HI Hl s tr tr' a s' Hi HW Hr. destruct (Hm s tr tr' a s' (Hl s tr Hi) HW Hr) as [Hs _]. by eapply kept_rtc.
Qed.

Lemma triple_early c (I : assertion) {A} (m : M A) : does c false m -> kept c I -> triple I m (fun _ => I).
Proof. intros Hm HI. by eapply triple_does. Qed.

Lemma triple_pure {A} (phi : Prop) (P : assertion) (m : M A) (Q : A -> assertion) :
  (phi -> triple P m Q) -> triple (fun s tr => phi /\ P s tr) m Q.
Proof. intros Hm s tr tr' a s' [Hphi HP]. by apply Hm. Qed.

(** A step that may fail: the error is what the rest answers. *)
Lemma triple_try {A B} P (m : attempt A) (k : A -> attempt B) R (Q : result RuntimeError B -> assertion) :
  triple P m R -> (forall err s tr, R (Err err) s tr -> Q (Err err) s tr) -> (forall a, triple (R (Ok a)) (k a) Q) ->
  triple P (try_bind m k) Q.
Proof. intros Hm HQ Hk. eapply triple_seq; [exact Hm|]. intros [a|err]; [apply Hk|]. apply triple_done. apply HQ. Qed.

Lemma triple_get {A} P (f : local -> A) : triple P (get f) (fun a s tr => P s tr /\ a = f s).
Proof. intros s tr tr' b s' HP HW [-> [= -> ->]]. by rewrite app_nil_r. Qed.

Lemma triple_modify (P : assertion) f (Q : unit -> assertion) :
  (forall s tr, P s tr -> Q tt (f s) tr) -> triple P (modify f) Q.
Proof. intros HQ s tr tr' [] s' HP HW [-> [= ->]]. rewrite app_nil_r. auto. Qed.

Lemma triple_ask {X} (P : assertion) (o : op X) (Q : X -> assertion) :
  (forall x s tr, P s tr -> W (Act o x) -> Q x s (tr ++ [Act o x])) -> triple P (ask o) Q.
Proof. intros HQ s tr tr' x s' HP HW (y & rest & -> & [-> [= -> ->]]). apply HQ; [done|by inversion HW]. Qed.

End spec.
