(* ===== verification/RunMoves.v ===== *)
(** * The moves of each program of the Loop

    For every program of Session.v, ToolBatch.v and RunLoop.v, how far it goes: one lemma
    each, proved by walking the program.  Reading a reply writes an Event of its own, which
    it may since nothing is staged then; those programs have a precondition. *)

From S2P Require Import Prelude GoStrings Text Ref Errors Types Events Request Schema ToolRegistry Reply ControlQueue Session ToolBatch RunLoop RunSpec.
Local Open Scope string_scope.
Local Open Scope list_scope.

Create HintDb moves.

Ltac move_one :=
  match goal with
  | |- forall _, _ => intro
  | |- does _ _ _ (try_bind _ _) => apply does_try
  | |- does _ _ _ (bind _ _) => apply does_bind
  | |- does _ _ _ (ret _) => apply does_ret
  | |- does _ _ _ (succeed _) => apply does_ret
  | |- does _ _ _ (fail_with _) => apply does_ret
  | |- does _ _ _ (get _) => apply does_get
  | |- does _ _ _ (ask _) => apply does_ask; reflexivity
  | |- does _ _ _ (stage _) => apply does_stage; solve [repeat constructor]
  | |- does _ _ _ (modify _) => first [apply does_modify; solve [done] | apply does_batch; solve [done]]
  | |- does _ _ _ (flush _) => apply does_flush
  | |- does _ _ _ (flushNumbered _ _) => apply does_flushNumbered
  | |- does _ _ true (writeEvents _ _) => apply does_direct; solve [repeat constructor]
  | |- does _ _ _ (match ?x with _ => _ end) => destruct x
  | |- does _ _ _ _ => solve [eauto with moves | apply does_calm; eauto with moves | apply does_chat; eauto with moves | apply does_late; eauto with moves]
  end.
Ltac walk := repeat move_one.

Section moves.
Context `{Encoding, Texts, JsonText} (def : sessionDef) (W : act -> Prop).

(** ** Events, the history, the extensions *)

Lemma header_does c late turn : does W c late (header def turn).
Proof. unfold header. walk. Qed.
Hint Resolve header_does : moves.

Lemma runHeader_does c late : does W c late (runHeader def).
Proof. unfold runHeader. walk. Qed.
Hint Resolve runHeader_does : moves.

Lemma deltaHeader_does c late turn : does W c late (deltaHeader def turn).
Proof. unfold deltaHeader. walk. Qed.
Hint Resolve deltaHeader_does : moves.

Lemma checkContext_does c late operation : does W c late (checkContext operation).
Proof. unfold checkContext. walk. Qed.
Hint Resolve checkContext_does : moves.

Lemma transcript_does {A} c late (o : op (outcome A)) : asks c (kind_of o) = true -> does W c late (transcript o).
Proof. intros Ho. unfold transcript. apply does_bind; [by apply does_ask|]. walk. Qed.

Lemma named_id_does c late kind id : does W c late (named_id kind id).
Proof. unfold named_id. walk. Qed.
Hint Resolve named_id_does : moves.

Lemma commit_does c late message enforce :
  (forall id, appends c (message <| m_ID := id |>) = true) -> does W c late (commit def message enforce).
Proof.
  intros Hm. unfold commit. apply does_bind; [walk|]. intros id. cbv zeta.
  destruct (json_size _); [|walk]. apply does_try; [by apply transcript_does|]. intros len.
  repeat match goal with |- does _ _ _ (if ?b then _ else _) => destruct b; [walk|] end.
  apply does_bind; [walk|]. intros size. cbv zeta.
  match goal with |- does _ _ _ (if ?b then _ else _) => destruct b; [walk|] end.
  apply does_bind; [apply does_append, Hm|]. walk.
Qed.

Lemma commitToolResult_does late message result :
  does W Busy late (commitToolResult def message result).
Proof.
  unfold commitToolResult. apply does_bind; [by apply commit_does|]. intros [u|err]; [walk|].
  destruct (isMessageTooLarge err); [|walk]. apply does_try; [by apply commit_does|walk].
Qed.
Hint Resolve commitToolResult_does : moves.

Lemma measure_does c late : does W c late measure.
Proof. unfold measure. apply does_try; [by apply transcript_does|]. walk. Qed.
Hint Resolve measure_does : moves.

Lemma advisory_does c late what i failure : does W c late (advisory def what i failure).
Proof. unfold advisory. walk. Qed.
Hint Resolve advisory_does : moves.

Lemma consult_does {A} c late what i (o : op (outcome A)) : asks c (kind_of o) = true -> does W c late (consult def what i o).
Proof. intros Ho. unfold consult. apply does_bind; [by apply does_ask|]. walk. Qed.

Lemma transform_from_does c late n i snapshot messages : does W c late (transform_from def n i snapshot messages).
Proof.
  revert i messages. induction n as [|n IH]; intros i messages; cbn [transform_from]; [walk|].
  apply does_try; [by apply consult_does|]. intros a. apply IH.
Qed.

Lemma convert_from_does c late n i messages : does W c late (convert_from def n i messages).
Proof.
  revert i messages. induction n as [|n IH]; intros i messages; cbn [convert_from]; [walk|].
  apply does_try; [by apply consult_does|]. intros a. apply IH.
Qed.

Lemma transformContext_does c late snapshot : does W c late (transformContext def snapshot).
Proof. unfold transformContext. apply does_try; [apply transform_from_does|]. intros a. apply convert_from_does. Qed.
Hint Resolve transformContext_does : moves.

Lemma before_from_does c late n i use : does W c late (before_from def n i use).
Proof.
  revert i. induction n as [|n IH]; intros i; cbn [before_from]; [walk|].
  apply does_try; [by apply consult_does|]. walk.
Qed.

Lemma beforeTool_does c late use : does W c late (beforeTool def use).
Proof. apply before_from_does. Qed.
Hint Resolve beforeTool_does : moves.

Lemma after_from_does c late n owned result : does W c late (after_from def n owned result).
Proof.
  revert result. induction n as [|n IH]; intros result; cbn [after_from]; [walk|].
  apply does_try; [by apply consult_does|]. intros a. apply IH.
Qed.

Lemma afterTool_does c late result : does W c late (afterTool def result).
Proof. apply after_from_does. Qed.
Hint Resolve afterTool_does : moves.

Lemma stop_from_does c late n i snapshot : does W c late (stop_from def n i snapshot).
Proof.
  revert i. induction n as [|n IH]; intros i; cbn [stop_from]; [walk|].
  apply does_try; [by apply consult_does|]. walk.
Qed.

Lemma stopTurn_does c late turn assistant results reason : does W c late (stopTurn def turn assistant results reason).
Proof. unfold stopTurn. apply does_bind; [walk|]. intros run. apply stop_from_does. Qed.
Hint Resolve stopTurn_does : moves.

Lemma flushes_does c late n : does W c late (flushes n).
Proof. induction n as [|n IH]; cbn [flushes]; walk. Qed.
Hint Resolve flushes_does : moves.

Lemma prepare_from_does late n i pending changed : does W Chat late (prepare_from def n i pending changed).
Proof. revert i changed. induction n as [|n IH]; intros i changed; cbn [prepare_from]; walk. Qed.

Lemma prepareTurn_does late pending : does W Chat late (prepareTurn def pending).
Proof. apply prepare_from_does. Qed.
Hint Resolve prepareTurn_does : moves.

(** ** The Tools *)

Lemma recordedTools_does c late : does W c late recordedTools.
Proof.
  unfold recordedTools. apply does_try; [by apply transcript_does|]. intros caps.
  destruct (ca_Loaded caps); [|walk]. apply does_try; [by apply transcript_does|]. walk.
Qed.
Hint Resolve recordedTools_does : moves.

Lemma syncLoadedTools_does c late : does W c late syncLoadedTools.
Proof. unfold syncLoadedTools. walk. Qed.
Hint Resolve syncLoadedTools_does : moves.

Lemma screen_all_does c late results : does W c late (screen_all results).
Proof. unfold screen_all. walk. Qed.
Hint Resolve screen_all_does : moves.

Lemma of_outcome_does {A} c late (m : outcome A) : does W c late (of_outcome m).
Proof. unfold of_outcome. walk. Qed.
Hint Resolve of_outcome_does : moves.

Lemma plain_events {A} (f : A -> Event) l :
  (forall a, plain_event (f a) = true) -> Forall (fun e => plain_event e = true) (f <$> l).
Proof. intros Hf. by apply Forall_fmap, list.Forall_true. Qed.

Lemma refreshToolSets_does c late h : does W c late (refreshToolSets h).
Proof.
  unfold refreshToolSets. apply does_bind; [walk|]. intros r. destruct (tr_sets r); [walk|].
  apply does_bind; [walk|]. intros fresh. apply does_bind; [walk|]. intros answers.
  apply does_bind; [walk|]. intros ctx. destruct (resolveAll ctx answers r) as [r' results].
  apply does_bind; [walk|]. intros _. apply does_try; [walk|]. intros out. apply does_bind; [walk|]. intros kept.
  apply does_try; [walk|]. intros kept'. apply does_try; [walk|]. intros recorded. apply does_bind; [walk|]. intros r2.
  destruct (apply_sets _ _ _ _ r2) as [r3 report]. apply does_bind; [walk|]. intros _.
  repeat (apply does_bind; [apply does_stage, plain_events; done|]; intros _). walk.
Qed.
Hint Resolve refreshToolSets_does : moves.

Lemma refreshTools_does c late : does W c late (refreshTools def).
Proof. unfold refreshTools. walk. Qed.
Hint Resolve refreshTools_does : moves.

Lemma refreshToolsInRun_does c late : does W c late (refreshToolsInRun def).
Proof. unfold refreshToolsInRun. walk. Qed.
Hint Resolve refreshToolsInRun_does : moves.

(** ** Large results and the batch *)

Lemma spill_does c ctx turn tool result : does W c true (spill def ctx turn tool result).
Proof.
  unfold spill, keepsSpilled. destruct (df_spillPage def <? 1)%nat; [walk|].
  apply does_try; [apply does_try; [by apply transcript_does|walk]|]. walk.
Qed.
Hint Resolve spill_does : moves.

Lemma isDurable_does c late : does W c late isDurable.
Proof. unfold isDurable. apply does_try; [by apply transcript_does|walk]. Qed.
Hint Resolve isDurable_does : moves.

Lemma plan_call_does c late turn index call : does W c late (plan_call def turn index call).
Proof. unfold plan_call. walk. Qed.
Hint Resolve plan_call_does : moves.

Lemma preflight_from_does c late turn index calls : does W c late (preflight_from def turn index calls).
Proof. revert index. induction calls as [|call calls IH]; intros index; cbn [preflight_from]; walk. Qed.

Lemma preflightTools_does c late turn calls : does W c late (preflightTools def turn calls).
Proof. apply preflight_from_does. Qed.
Hint Resolve preflightTools_does : moves.

Lemma settle_call_does c late turn plans index result outcomes : does W c late (settle_call def turn plans index result outcomes).
Proof. unfold settle_call. walk. Qed.
Hint Resolve settle_call_does : moves.

Lemma cancelRest_does c late started turn plans group outcomes : does W c late (cancelRest def started turn plans group outcomes).
Proof. revert outcomes. induction group as [|i group IH]; intros outcomes; cbn [cancelRest]; walk. Qed.
Hint Resolve cancelRest_does : moves.

Lemma settle_signal_does c late turn plans index o outcomes : does W c late (settle_signal def turn plans index o outcomes).
Proof. unfold settle_signal. walk. Qed.
Hint Resolve settle_signal_does : moves.

Lemma drain_signals_does c late turn plans waiting outcomes : does W c late (drain_signals def turn plans waiting outcomes).
Proof. revert outcomes. induction waiting as [|[i o] waiting IH]; intros outcomes; cbn [drain_signals]; walk. Qed.
Hint Resolve drain_signals_does : moves.

Lemma report_progress_does c late turn plans updates : does W c late (report_progress def turn plans updates).
Proof. induction updates as [|[i text] updates IH]; cbn [report_progress]; walk. Qed.
Hint Resolve report_progress_does : moves.

Lemma collect_does c late fuel turn plans group outcomes : does W c late (collect def fuel turn plans group outcomes).
Proof. revert outcomes. induction fuel as [|fuel IH]; intros outcomes; cbn [collect]; walk. Qed.
Hint Resolve collect_does : moves.

Lemma executeToolGroup_does late turn plans group : does W Busy late (executeToolGroup def turn plans group).
Proof. unfold executeToolGroup. walk. Qed.
Hint Resolve executeToolGroup_does : moves.

Lemma new_result_message_does c late result : does W c late (new_result_message result).
Proof. unfold new_result_message. walk. Qed.
Hint Resolve new_result_message_does : moves.

Lemma load_listed_does c late turn call ids : does W c late (load_listed def turn call ids).
Proof.
  induction ids as [|id ids IH]; cbn [load_listed]; [walk|]. apply does_bind; [walk|]. intros r.
  destruct (ToolRegistry.load quoted id r) as [r' now]. walk.
Qed.
Hint Resolve load_listed_does : moves.

Lemma stageResult_does c late turn call message result : does W c late (stageResult def turn call message result).
Proof. unfold stageResult. walk. Qed.
Hint Resolve stageResult_does : moves.

Lemma set_next_does late n : does W Busy late (set_next n).
Proof. unfold set_next. walk. Qed.
Hint Resolve set_next_does : moves.

Lemma commitResult_does turn index call outcome : does W Busy true (commitResult def turn index call outcome).
Proof. unfold commitResult, commitResultMessage. walk. Qed.
Hint Resolve commitResult_does : moves.

Lemma commitUpTo_does turn index plans : does W Busy true (commitUpTo def turn index plans).
Proof. revert index. induction plans as [|plan plans IH]; intros index; cbn [commitUpTo]; walk. Qed.
Hint Resolve commitUpTo_does : moves.

Lemma note_outcomes_does late completed : does W Busy late (note_outcomes completed).
Proof. unfold note_outcomes. walk. Qed.
Hint Resolve note_outcomes_does : moves.

Lemma settle_blocked_does late turn index plans : does W Busy late (settle_blocked def turn index plans).
Proof. revert index. induction plans as [|plan plans IH]; intros index; cbn [settle_blocked]; walk. Qed.
Hint Resolve settle_blocked_does : moves.

Lemma stage_started_does c late turn id plans group : does W c late (stage_started def turn id plans group).
Proof. induction group as [|i group IH]; cbn [stage_started]; walk. Qed.
Hint Resolve stage_started_does : moves.

Lemma run_groups_does turn id plans committed groups : does W Busy true (run_groups def turn id plans committed groups).
Proof. revert committed. induction groups as [|group groups IH]; intros committed; cbn [run_groups]; cbv zeta; walk. Qed.
Hint Resolve run_groups_does : moves.

Lemma runToolBatch_does turn assistant : does W Busy true (runToolBatch def turn assistant).
Proof. unfold runToolBatch. walk. Qed.
Hint Resolve runToolBatch_does : moves.

Lemma close_calls_does late turn status text outcomes index calls :
  does W Busy late (close_calls def turn status text outcomes index calls).
Proof.
  revert index. induction calls as [|call calls IH]; intros index; cbn [close_calls]; cbv zeta; [walk|].
  apply does_bind; [walk|]. intros message. apply does_bind; [by apply commit_does|]. walk.
Qed.
Hint Resolve close_calls_does : moves.

Lemma closeOpenCalls_does late err status : does W Busy late (closeOpenCalls def err status).
Proof. unfold closeOpenCalls. walk. Qed.
Hint Resolve closeOpenCalls_does : moves.

(** ** Replies *)

Lemma commitMessage_does late message : free message = true -> does W Chat late (commitMessage def message).
Proof. intros Hf. apply commit_does. intros id. exact Hf. Qed.

Lemma cutOffReply_free message : free (cutOffReply message) = true.
Proof. unfold cutOffReply. by destruct (filter _ _). Qed.

Lemma writePart_does c late turn r : does W c late (writePart def turn r).
Proof. unfold writePart. walk. Qed.
Hint Resolve writePart_does : moves.

Lemma delta_event_plain h id d : plain_event (delta_event h id d) = true.
Proof. by destruct d. Qed.

Lemma apply_model_event_does c late turn event r : does W c late (apply_model_event def turn event r).
Proof. unfold apply_model_event. destruct (Reply.apply_event _ _ _) as [r' [[d|]|err]]; walk. Qed.
Hint Resolve apply_model_event_does : moves.

Lemma keep_partial_does late turn message : free message = true -> does W Chat late (keep_partial def turn message).
Proof.
  intros Hf. unfold keep_partial. destruct (String.eqb _ _); [walk|]. apply does_bind; [by apply commitMessage_does|]. walk.
Qed.

Lemma retried_does turn retry r : does W Chat true (retried def turn retry r).
Proof.
  unfold retried. apply does_bind; [walk|]. intros h. destruct (negb _); [walk|].
  apply does_bind; [walk|]. intros _. apply does_bind; [apply keep_partial_does, cutOffReply_free|]. walk.
Qed.
Hint Resolve retried_does : moves.

Lemma retried_all_does turn retries r : does W Chat true (retried_all def turn retries r).
Proof. revert r. induction retries as [|retry retries IH]; intros r; cbn [retried_all]; walk. Qed.
Hint Resolve retried_all_does : moves.

Lemma classify_does c late err : does W c late (classify def err).
Proof. unfold classify. walk. Qed.
Hint Resolve classify_does : moves.

Lemma read_stream_does turn stream r : does W Chat true (read_stream def turn stream r).
Proof. revert r. induction stream as [|[retries answer] stream IH]; intros r; cbn [read_stream]; walk. Qed.
Hint Resolve read_stream_does : moves.

Lemma readAssistant_does turn id request : does W Chat true (readAssistant def turn id request).
Proof. unfold readAssistant. walk. Qed.
Hint Resolve readAssistant_does : moves.

(** ** The request *)

Lemma assembleTurn_does late snapshot : does W Chat late (assembleTurn def snapshot).
Proof. unfold assembleTurn, buildContext. walk. Qed.
Hint Resolve assembleTurn_does : moves.

Lemma build_turn_does late turn : does W Chat late (build_turn def turn).
Proof. unfold build_turn. apply does_try; [by apply transcript_does|]. walk. Qed.
Hint Resolve build_turn_does : moves.

Lemma rebuild_turn_does late turn : does W Chat late (rebuild_turn def turn).
Proof. unfold rebuild_turn. walk. Qed.
Hint Resolve rebuild_turn_does : moves.

(** [model_call] has written once the Model was called, which it was unless a refusal stands. *)
Definition called {A} (refused : option RuntimeError) (a : result RuntimeError (turnBuild * option A)) (s : local) (tr : list act) : Prop :=
  match a with Ok (_, Some _) => wrote true tr | Ok (_, None) => refused <> None | Err _ => True end.

Lemma spec_of_does c {A} (m : M A) : does W c false m -> spec W c (fun _ _ => True) m (fun _ _ _ => True).
Proof. intros Hm. by eapply spec_weaken. Qed.

Lemma spec_run_bind c {A B} (m : M A) (k : A -> M B) Q :
  does W c false m -> (forall a, spec W c (fun _ _ => True) (k a) Q) -> spec W c (fun _ _ => True) (bind m k) Q.
Proof. intros Hm Hk. eapply spec_bind; [by apply spec_of_does|]. intros a. apply Hk. Qed.

Lemma spec_run_try c {A B} (m : attempt A) (k : A -> attempt B) (Q : result RuntimeError B -> assertion) :
  does W c false m -> (forall err s tr, Q (Err err) s tr) -> (forall a, spec W c (fun _ _ => True) (k a) Q) ->
  spec W c (fun _ _ => True) (try_bind m k) Q.
Proof. intros Hm HQ Hk. apply spec_run_bind; [done|]. intros [a|err]; [apply Hk|]. apply spec_ret. intros s tr _. apply HQ. Qed.

Lemma model_call_spec turn runStart current refused :
  spec W Chat (fun _ _ => True) (model_call def turn runStart current refused) (called refused).
Proof.
  unfold model_call. apply spec_run_bind; [walk|]. intros run. apply spec_run_try; [walk|done|]. intros changed.
  assert (Hcall : spec W Chat (fun _ _ => True)
    (try! current := (if changed then rebuild_turn def turn else succeed current) in
     do! h := header def turn in do! id := ask (NextID "message") in do! h2 := header def turn in
     stage [contextBuilt h current; EReplyStarted (MkReplyStarted h2 id)] ;;
     try! _ := flush RunCtx in
     do! answer := readAssistant def turn id (tb_request current) in
     modify (fun s => s <| lo_usage := addUsage (lo_usage s) answer.1.2 |>) ;; succeed (current, Some answer)) (called refused)).
  { apply spec_run_try; [destruct changed; walk|done|]. intros now. do 3 (apply spec_run_bind; [walk|]; intros ?).
    apply spec_then_late; [done|by repeat constructor|done|].
    eapply spec_bind with (R := fun _ _ => wrote true).
    { eapply spec_weaken; [apply (spec_late W Chat true), (readAssistant_does turn)|by intros; split|by intros ??? [_ ?]]. }
    intros answer. eapply spec_bind with (R := fun _ _ => wrote true).
    { eapply spec_weaken; [apply (spec_late W Chat true), (does_modify W Chat true); done|by intros; split|by intros ??? [_ ?]]. }
    intros _. by apply spec_ret. }
  destruct refused as [err|]; [destruct changed; [exact Hcall|by apply spec_ret]|destruct changed; exact Hcall].
Qed.

Lemma callModel_spec turn runStart :
  spec W Chat (fun _ _ => True) (callModel def turn runStart) (fun a _ tr => is_ok a = true -> wrote true tr).
Proof.
  unfold callModel. apply spec_run_try; [walk|done|]. intros current.
  eapply spec_bind; [apply model_call_spec|]. intros [[now [answer|]]|err]; [|by apply spec_ret; intros s tr []|by apply spec_ret].
  cbv zeta. cbn [fst snd from_option id]. change (default _ (Some answer)) with answer.
  destruct (mendable answer); [|apply spec_ret; intros s tr Hw _; exact Hw].
  eapply spec_bind with (R := fun _ _ => wrote true).
  { eapply spec_weaken; [apply (spec_late W Chat true), model_call_spec|by intros s tr Hw; split|by intros ??? [_ ?]]. }
  intros [second|err]; apply spec_ret; intros s tr Hw _; exact Hw.
Qed.

End moves.

(** ** What programs return *)

Definition returns (W : act -> Prop) {A} (m : M A) (Q : A -> Prop) : Prop :=
  forall s tr a s', Forall W tr -> runs (m s) tr (a, s') -> Q a.

Section returns.
Context (W : act -> Prop).

Lemma returns_ret {A} (a : A) (Q : A -> Prop) : Q a -> returns W (ret a) Q.
Proof. intros HQ s tr b s' _ [_ [= -> _]]. exact HQ. Qed.

Lemma returns_bind {A B} (m : M A) (k : A -> M B) R Q :
  returns W m R -> (forall a, R a -> returns W (k a) Q) -> returns W (bind m k) Q.
Proof.
  intros Hm Hk s tr b s' HW Hr. apply runs_pbind in Hr as (tr1 & [a s1] & tr2 & -> & H1 & H2).
  apply list.Forall_app in HW as [HW1 HW2]. eapply Hk; [eapply Hm, H1; exact HW1|exact HW2|exact H2].
Qed.

Lemma returns_any {A B} (m : M A) (k : A -> M B) Q : (forall a, returns W (k a) Q) -> returns W (bind m k) Q.
Proof. intros Hk. eapply returns_bind with (R := fun _ => True); [done|]. intros a _. apply Hk. Qed.

Lemma returns_ask {X} (o : op X) : returns W (ask o) (fun x => W (Act o x)).
Proof. intros s tr x s' HW (y & rest & -> & [-> [= -> ->]]). by inversion HW. Qed.

(** A step that may fail, for a fact of what it returns when it does not. *)
Lemma returns_try {A B} (m : attempt A) (k : A -> attempt B) R (Q : result RuntimeError B -> Prop) :
  returns W m (fun r => match r with Ok a => R a | Err _ => True end) -> (forall err, Q (Err err)) ->
  (forall a, R a -> returns W (k a) Q) -> returns W (try_bind m k) Q.
Proof.
  intros Hm HQ Hk. eapply returns_bind; [exact Hm|]. intros [a|err] HR; [by apply Hk|by apply returns_ret].
Qed.

Lemma returns_try_any {A B} (m : attempt A) (k : A -> attempt B) (Q : result RuntimeError B -> Prop) :
  (forall err, Q (Err err)) -> (forall a, returns W (k a) Q) -> returns W (try_bind m k) Q.
Proof.
  intros HQ Hk. eapply returns_try with (R := fun _ => True); [by intros s tr [] s'|done|]. intros a _. apply Hk.
Qed.

Lemma returns_weaken {A} (m : M A) (Q Q' : A -> Prop) : returns W m Q -> (forall a, Q a -> Q' a) -> returns W m Q'.
Proof. intros Hm HQ s tr a s' HW Hr. eapply HQ, Hm; [exact HW|exact Hr]. Qed.

Lemma returns_true {A} (m : M A) : returns W m (fun _ => True).
Proof. done. Qed.

Lemma returns_and {A} (m : M A) Q Q' : returns W m Q -> returns W m Q' -> returns W m (fun a => Q a /\ Q' a).
Proof. intros H1 H2 s tr a s' HW Hr. eauto. Qed.

End returns.

Create HintDb gives.
#[export] Hint Resolve returns_true : gives.

(** Walks a program for what it returns. *)
Ltac give_one :=
  match goal with
  | |- forall _, _ => intro
  | |- returns _ (ret _) _ => apply returns_ret
  | |- returns _ (succeed _) _ => apply returns_ret
  | |- returns _ (fail_with _) _ => apply returns_ret
  | |- returns _ (try_bind _ _) _ => apply returns_try_any
  | |- returns _ (bind _ _) _ => apply returns_any
  | |- returns _ (match ?x with _ => _ end) _ => destruct x
  end.
Ltac give := repeat give_one.

Section values.
Context `{Encoding, Texts, JsonText} (def : sessionDef) (W : act -> Prop).

(** *** Replies *)

(** A reply that failed asks for no Tool, and none answers a call. *)
Definition reply_fine (answer : reply) : Prop :=
  (m_Role answer.1.1 = RoleAssistant \/ free answer.1.1 = true /\ m_ToolCalls answer.1.1 = []) /\ (is_Some answer.2 -> free answer.1.1 = true).

Lemma apply_event_role limit event r :
  m_Role (ar_assistant (Reply.apply_event limit event r).1) = m_Role (ar_assistant r).
Proof.
  unfold Reply.apply_event, grow. destruct (String.eqb (me_Model event) "");
    repeat match goal with |- context [if ?b then _ else _] => destruct b end; cbn;
    repeat (case_match; cbn); simplify_eq; cbn; try done.
  all: repeat match goal with H : context [if ?b then _ else _] |- _ => destruct b end; simplify_eq; done.
Qed.

Definition role_kept (r : assistantReader) (answer : assistantReader * option RuntimeError) : Prop :=
  m_Role (ar_assistant answer.1) = m_Role (ar_assistant r).

Lemma writePart_role turn r : returns W (writePart def turn r) (role_kept r).
Proof. unfold writePart. give; done. Qed.

Lemma apply_model_event_role turn event r : returns W (apply_model_event def turn event r) (role_kept r).
Proof.
  unfold apply_model_event. pose proof (apply_event_role (limit_of def) event r) as Hr.
  destruct (Reply.apply_event _ _ _) as [r' [[d|]|err]]; cbn in Hr; [|by apply returns_ret..].
  give. eapply returns_weaken; [apply writePart_role|]. unfold role_kept. intros b ->. exact Hr.
Qed.

Lemma retried_role turn retry r :
  m_Role (ar_assistant r) = RoleAssistant -> returns W (retried def turn retry r) (fun r' => m_Role (ar_assistant r') = RoleAssistant).
Proof. intros Hr. unfold retried. give; done. Qed.

Lemma retried_all_role turn retries r :
  m_Role (ar_assistant r) = RoleAssistant ->
  returns W (retried_all def turn retries r) (fun r' => m_Role (ar_assistant r') = RoleAssistant).
Proof.
  revert r. induction retries as [|retry retries IH]; intros r Hr; cbn [retried_all]; [by apply returns_ret|].
  eapply returns_bind; [by apply retried_role|]. intros r' Hr'. by apply IH.
Qed.

Lemma cutOffReply_calls message : m_ToolCalls (cutOffReply message) = [].
Proof. unfold cutOffReply. by destruct (filter _ _). Qed.

Lemma broken_fine err r : reply_fine (broken err r).
Proof.
  split; [right; split; [exact (cutOffReply_free _)|exact (cutOffReply_calls _)]|]. intros _. exact (cutOffReply_free (ar_assistant r)).
Qed.

Lemma read_stream_fine turn stream r :
  m_Role (ar_assistant r) = RoleAssistant -> returns W (read_stream def turn stream r) reply_fine.
Proof.
  revert r. induction stream as [|[retries answer] stream IH]; intros r Hr; cbn [read_stream].
  { apply returns_ret, broken_fine. }
  eapply returns_bind; [by apply retried_all_role|]. intros r1 Hr1. destruct answer as [event|err].
  - eapply returns_bind; [apply apply_model_event_role|]. unfold role_kept. intros [r2 [err|]] Hr2; cbn [fst snd] in *.
    + apply returns_ret, broken_fine.
    + destruct (ar_complete r2); [|apply IH; congruence].
      apply returns_ret. split; [|by intros []]. left. cbn. by rewrite Hr2, Hr1.
  - destruct (errors_Is err IoEOF); give; apply broken_fine.
Qed.

Lemma readAssistant_fine turn id request : returns W (readAssistant def turn id request) reply_fine.
Proof.
  unfold readAssistant. apply returns_any. intros _. apply returns_any. intros run. apply returns_any. intros opened.
  eapply returns_bind; [by apply retried_all_role|]. intros r Hr. eapply returns_bind with (R := reply_fine); [|give; done].
  destruct opened.2 as [[stream|]|err]; [|give; (split; [by right|done])..].
  eapply returns_bind; [by apply read_stream_fine|]. intros answer Ha. by give.
Qed.

Lemma model_call_fine turn runStart current refused :
  returns W (model_call def turn runStart current refused)
    (fun a => match a with Ok (_, Some answer) => reply_fine answer | _ => True end).
Proof.
  unfold model_call. apply returns_any. intros run. apply returns_try_any; [done|]. intros changed.
  assert (Hcall : returns W
    (try! current := (if changed then rebuild_turn def turn else succeed current) in
     do! h := header def turn in do! id := ask (NextID "message") in do! h2 := header def turn in
     stage [contextBuilt h current; EReplyStarted (MkReplyStarted h2 id)] ;;
     try! _ := flush RunCtx in
     do! answer := readAssistant def turn id (tb_request current) in
     modify (fun s => s <| lo_usage := addUsage (lo_usage s) answer.1.2 |>) ;; succeed (current, Some answer))
    (fun a => match a with Ok (_, Some answer) => reply_fine answer | _ => True end)).
  { apply returns_try_any; [done|]. intros now. do 3 (apply returns_any; intros ?). apply returns_any. intros _.
    apply returns_try_any; [done|]. intros _. eapply returns_bind; [apply readAssistant_fine|]. intros answer Ha. by give. }
  destruct refused as [err|]; [destruct changed; [exact Hcall|by apply returns_ret]|destruct changed; exact Hcall].
Qed.

Lemma callModel_fine turn runStart :
  returns W (callModel def turn runStart) (fun a => match a with Ok answer => reply_fine answer | Err _ => True end).
Proof.
  assert (Hzero : forall err, reply_fine (message_zero, usage_zero, err)) by (intros err; split; [by right|done]).
  unfold callModel. apply returns_try_any; [done|]. intros current.
  eapply returns_try; [apply model_call_fine|done|]. intros [now first] Hf. cbv zeta. cbn [fst snd].
  assert (Ha : reply_fine (default (message_zero, usage_zero, None) first)) by (destruct first; [exact Hf|apply Hzero]).
  destruct (mendable _); [|by apply returns_ret].
  eapply returns_try; [apply model_call_fine|done|]. intros [now2 [second|]] H2; apply returns_ret; [exact H2|apply Hzero].
Qed.

End values.
