(* ===== verification/RunCalls.v ===== *)
(** * Tool calls and their results

    What a Run appends to the Transcript is read by an automaton: a reply opens its Tool
    calls, results answer them in order, and the Model is asked only when none is open.
    Here the batch of a reply is shown to keep to it: [closeOpenCalls] and [runToolBatch]. *)

From S2P Require Import Prelude GoStrings Text Ref Errors Types Events Request Schema ToolRegistry Reply ControlQueue Session ToolBatch RunLoop RunSpec RunMoves.
Local Open Scope string_scope.
Local Open Scope list_scope.

(** ** The automaton *)

Definition answers_call (id : ToolCallID) (m : Message) : bool :=
  String.eqb (m_Role m) RoleToolResult
  && match m_ToolResult m with Some result => String.eqb (tr_CallID result) id | None => false end.

(** A Message that is appended while [open] are the calls without a result. *)
Definition message_step (open : list ToolCallID) (m : Message) : option (list ToolCallID) :=
  match open with
  | [] =>
    if String.eqb (m_Role m) RoleToolResult then None
    else if String.eqb (m_Role m) RoleAssistant then Some (tc_ID <$> m_ToolCalls m)
    else Some []
  | id :: rest => if answers_call id m then Some rest else None
  end.

Definition call_step (open : list ToolCallID) (a : act) : option (list ToolCallID) :=
  match a with Act o x =>
    match o in op X return X -> option (list ToolCallID) with
    | TrAppend m => fun x => match x with Ok _ => message_step open m | Err _ => Some open end
    | Build _ | Prepare _ _ _ | OpenStream _ => fun _ => match open with [] => Some [] | _ => None end
    | _ => fun _ => Some open
    end x
  end.

Definition calls_run (open : list ToolCallID) (tr : list act) : option (list ToolCallID) :=
  foldl (fun open a => open ≫= fun open => call_step open a) (Some open) tr.

(** What a fair world answers: what waits in the queue is a message of a user or a notice, and
    a worker answers for a call that it was given, once. *)
Definition fair (a : act) : Prop :=
  match a with Act o x =>
    match o in op X return X -> Prop with
    | TakeMessages _ | TakeNotices => fun items => Forall (fun item => free (ct_message item) = true) items
    | Wait pending => fun answer =>
        match answer.2 with
        | Finished index _ => index ∈ pending
        | RunDone waiting => Forall (fun p => p.1 ∈ pending) waiting
        end
    | _ => fun _ => True
    end x
  end.

(** ** Its steps *)

Definition opens (ids : list ToolCallID) (tr : list act) : Prop := calls_run [] tr = Some ids.

Lemma calls_run_snoc open tr a : calls_run open (tr ++ [a]) = calls_run open tr ≫= fun ids => call_step ids a.
Proof. unfold calls_run. by rewrite foldl_app. Qed.

Lemma opens_step ids ids' tr a : opens ids tr -> call_step ids a = Some ids' -> opens ids' (tr ++ [a]).
Proof. unfold opens. intros Ho Hs. by rewrite calls_run_snoc, Ho. Qed.

Lemma plain_step {X} (o : op X) x ids : kind_of o = PlainOp \/ kind_of o = ToolOp \/ kind_of o = WriteOp -> call_step ids (Act o x) = Some ids.
Proof. destruct o; cbn; naive_solver. Qed.

Lemma free_step m : free m = true -> message_step [] m = Some [].
Proof.
  unfold free, message_step. destruct (String.eqb (m_Role m) RoleToolResult); [done|].
  destruct (String.eqb (m_Role m) RoleAssistant); [|done]. cbn. intros Hc. apply bool_decide_eq_true in Hc. by rewrite Hc.
Qed.

(** The batch of a reply, with the calls that are open. *)
Definition at_batch (b : openBatch) (ids : list ToolCallID) (s : local) (tr : list act) : Prop :=
  lo_batch s = b /\ opens ids tr.

Lemma kept_calm b ids : kept Calm (at_batch b ids).
Proof.
  intros s tr s' tr' Hm [Hb Ho]. inversion Hm; subst; try done.
  - split; [done|]. eapply opens_step; [done|]. apply plain_step. destruct (kind_of o); naive_solver.
  - split; [done|]. by eapply opens_step.
  - split; [done|]. by eapply opens_step.
  - match goal with H : same_core _ _ |- _ => destruct H end. split; [congruence|done].
Qed.

Lemma kept_chat b : kept Chat (at_batch b []).
Proof.
  intros s tr s' tr' Hm [Hb Ho]. inversion Hm; subst; try done.
  - split; [done|]. eapply opens_step; [done|]. destruct o; cbn in *; try done; by destruct (kind_of _).
  - split; [done|]. by eapply opens_step.
  - split; [done|]. by eapply opens_step.
  - split; [done|]. eapply opens_step; [done|]. cbn. destruct answer; [|done]. by apply free_step.
  - match goal with H : same_core _ _ |- _ => destruct H end. split; [congruence|done].
Qed.

Definition open_of (b : openBatch) : list ToolCallID := tc_ID <$> drop (ob_next b) (ob_calls b).

(** The open calls are those of the batch. *)
Definition calls_ok (s : local) (tr : list act) : Prop := opens (open_of (lo_batch s)) tr.

Lemma at_batch_ok b s tr : at_batch b (open_of b) s tr -> calls_ok s tr.
Proof. intros [Hb Ho]. unfold calls_ok. by rewrite Hb. Qed.

(** ** Committing a result *)

Section calls.
Context `{Encoding, Texts, JsonText} (def : sessionDef) (W : act -> Prop).

Definition plain_act (a : act) : Prop := match a with Act o _ => kind_of o = PlainOp end.

Lemma calls_run_plain asked ids tr : Forall plain_act asked -> opens ids tr -> opens ids (tr ++ asked).
Proof.
  intros Ha Ho. induction asked as [|a asked IH] using rev_ind; [by rewrite app_nil_r|].
  apply list.Forall_app in Ha as [Ha Hl]. rewrite app_assoc. eapply opens_step; [by apply IH|].
  inversion Hl as [|? ? Hp]; subst. destruct a. apply plain_step. by left.
Qed.

(** A commit asks, and then appends at most once. *)
Lemma commit_runs message enforce s tr (r : result RuntimeError unit) s' :
  runs (commit def message enforce s) tr (r, s') ->
  exists id asked, Forall plain_act asked /\
    ((r = Ok tt /\ tr = asked ++ [Act (TrAppend (message <| m_ID := id |>)) (Ok tt)] /\ exists n, s' = s <| lo_size := n |>)
     \/ (exists err, r = Err err) /\ s' = s /\ (tr = asked \/ exists e, tr = asked ++ [Act (TrAppend (message <| m_ID := id |>)) (Err e)])).
Proof.
  unfold commit. intros Hr. apply runs_pbind in Hr as (tr1 & [id s1] & tr2 & -> & Hr1 & Hr2).
  assert (Forall plain_act tr1 /\ s1 = s) as [Hp1 ->].
  { unfold named_id in Hr1. destruct (String.eqb _ _); [destruct Hr1 as (x & rest & -> & -> & [= -> ->])|destruct Hr1 as [-> [= -> ->]]];
      (split; [by repeat constructor|done]). }
  exists id. cbv zeta in Hr2. cbn [fst snd] in Hr2. destruct (json_size _) as [n|]; [|destruct Hr2 as [-> [= -> ->]]; exists tr1; rewrite app_nil_r; eauto 10].
  apply runs_pbind in Hr2 as (tr3 & [len s1] & tr4 & -> & Hr3 & Hr4).
  assert (Forall plain_act tr3 /\ s1 = s) as [Hp3 ->].
  { apply runs_pbind in Hr3 as (? & [? ?] & ? & -> & (x & rest & -> & -> & [= -> ->]) & Hx). cbn in Hx. destruct Hx as [-> [= -> ->]].
    split; [by repeat constructor|done]. }
  assert (Hp : Forall plain_act (tr1 ++ tr3)) by (by apply list.Forall_app).
  destruct len as [len|err]; cbn in Hr4; [|destruct Hr4 as [-> [= -> ->]]; exists (tr1 ++ tr3); rewrite app_nil_r; eauto 10].
  repeat match type of Hr4 with runs ((if ?b then _ else _) _) _ _ => destruct b;
    [destruct Hr4 as [-> [= -> ->]]; exists (tr1 ++ tr3); rewrite app_nil_r; by eauto 10|] end.
  apply runs_pbind in Hr4 as (tr5 & [size s1] & tr6 & -> & [-> [= -> ->]] & Hr6). cbv zeta in Hr6. cbn [fst snd] in Hr6.
  match type of Hr6 with runs ((if ?b then _ else _) _) _ _ => destruct b;
    [destruct Hr6 as [-> [= -> ->]]; exists (tr1 ++ tr3); rewrite app_nil_r; by eauto 10|] end.
  apply runs_pbind in Hr6 as (tr7 & [answer s1] & tr8 & -> & (x & rest & -> & -> & [= -> ->]) & Hr8). cbn [fst snd] in Hr8.
  exists (tr1 ++ tr3). split; [done|]. destruct x as [[]|e].
  - apply runs_pbind in Hr8 as (? & [? ?] & ? & -> & [-> [= _ ->]] & [-> [= -> ->]]). left. split; [done|].
    split; [cbn; by rewrite !app_assoc|]. by eexists.
  - destruct Hr8 as [-> [= -> ->]]. right. split; [by eexists|]. split; [done|]. right. exists e. cbn. by rewrite !app_assoc.
Qed.

(** A result answers the first open call, or is refused and leaves it open. *)
Lemma commit_result_triple message enforce id ids b :
  answers_call id message = true ->
  triple W (at_batch b (id :: ids)) (commit def message enforce)
    (fun r => at_batch b (if is_ok r then ids else id :: ids)).
Proof.
  intros Ha s tr tr' r s' [Hb Ho] HW Hr. apply commit_runs in Hr as (mid & asked & Hp & [(-> & -> & n & ->)|((err & ->) & -> & Htr)]).
  - split; [done|]. rewrite app_assoc. eapply opens_step; [by apply calls_run_plain|]. cbn.
    change (answers_call id (message <| m_ID := mid |>)) with (answers_call id message). by rewrite Ha.
  - split; [done|]. destruct Htr as [->|[e ->]]; [by apply calls_run_plain|].
    rewrite app_assoc. eapply opens_step; [by apply calls_run_plain|done].
Qed.

Lemma result_message_answers id run result call : tr_CallID result = call -> answers_call call (result_message id run result) = true.
Proof. intros <-. unfold answers_call. cbn. apply String.eqb_refl. Qed.

Lemma new_result_message_answers result call :
  tr_CallID result = call -> returns W (new_result_message result) (fun m => answers_call call m = true).
Proof. intros Hc. unfold new_result_message. give. by apply result_message_answers. Qed.

(** Facts of what is returned, with an assertion. *)
Lemma triple_returns {A} P (m : M A) (Q : A -> assertion) (R : A -> Prop) :
  triple W P m Q -> returns W m R -> triple W P m (fun a s tr => R a /\ Q a s tr).
Proof. intros Hm HR s tr tr' a s' HP HW Hr. split; [by eapply HR|by eapply Hm]. Qed.

Lemma triple_calm b ids {A} (m : M A) : does W Calm false m -> triple W (at_batch b ids) m (fun _ => at_batch b ids).
Proof. intros Hm. eapply triple_early; [exact Hm|apply kept_calm]. Qed.

Lemma triple_calm_late b ids {A} (m : M A) :
  does W Calm true m -> triple W (fun s tr => at_batch b ids s tr /\ wrote true tr) m (fun _ s tr => at_batch b ids s tr /\ wrote true tr).
Proof.
  intros Hm. eapply triple_weaken; [eapply (triple_spec W Calm (at_batch b ids)); [apply (spec_late W Calm true), Hm|apply kept_calm]| |].
  - intros s tr [Ha Hw]. split; [by split|done].
  - intros a s tr [[_ Hw] Ha]. by split.
Qed.

(** What is [late] stays so. *)
Lemma triple_late {A} P (m : M A) (Q : A -> assertion) :
  triple W P m Q -> triple W (fun s tr => P s tr /\ wrote true tr) m (fun a s tr => Q a s tr /\ wrote true tr).
Proof. intros Hm s tr tr' a s' [HP Hw] HW Hr. split; [by eapply Hm|by apply wrote_app]. Qed.

Lemma oversizedResult_call result size limit : tr_CallID (oversizedResult result size limit) = tr_CallID result.
Proof. done. Qed.

Lemma commitToolResult_triple message result id ids b :
  answers_call id message = true -> tr_CallID result = id ->
  triple W (at_batch b (id :: ids)) (commitToolResult def message result)
    (fun r => at_batch b (if is_ok r then ids else id :: ids)).
Proof.
  intros Ha Hc. unfold commitToolResult. eapply triple_seq; [by apply commit_result_triple|].
  intros [[]|err]; cbn [is_ok]; [by apply triple_done|]. destruct (isMessageTooLarge err); [|by apply triple_done].
  cbv zeta. eapply triple_try; [apply commit_result_triple| |]; cbn [is_ok].
  - unfold answers_call in *. cbn in *. apply andb_prop in Ha as [-> _]. rewrite Hc. apply String.eqb_refl.
  - done.
  - intros []. by apply triple_done.
Qed.

Lemma after_from_call n owned result :
  tr_CallID owned = tr_CallID result ->
  returns W (after_from def n owned result) (fun r => match r with Ok out => tr_CallID out = tr_CallID result | Err _ => True end).
Proof.
  intros Ho. revert result Ho. induction n as [|n IH]; intros result Ho; cbn [after_from]; [by apply returns_ret|].
  apply returns_try_any; [done|]. intros [produced|].
  - eapply returns_weaken; [apply IH; done|]. intros [out|]; [|done]. cbn. congruence.
  - by apply IH.
Qed.

Lemma afterTool_call result :
  returns W (afterTool def result) (fun r => match r with Ok out => tr_CallID out = tr_CallID result | Err _ => True end).
Proof. by apply after_from_call. Qed.

Lemma spill_call ctx turn tool result :
  returns W (spill def ctx turn tool result) (fun r => match r with Ok out => tr_CallID out = tr_CallID result | Err _ => True end).
Proof. unfold spill. give; done. Qed.

(** ** Committing the results of a batch *)

(** [i] results of the batch are committed. *)
Definition ready (t : TurnNumber) (calls : list ToolCall) (outs : gmap nat ToolResult) (i : nat) (s : local) (tr : list act) : Prop :=
  at_batch (MkBatch t calls i outs) (tc_ID <$> drop i calls) s tr /\ wrote true tr.

(** Whatever failed, the open calls are those of the batch. *)
Definition stopped (s : local) (tr : list act) : Prop := calls_ok s tr /\ wrote true tr.

Lemma ready_stopped t calls outs i s tr : ready t calls outs i s tr -> stopped s tr.
Proof. intros [Hb Hw]. split; [by apply at_batch_ok in Hb|done]. Qed.

Lemma calm_ready t calls outs i {A} (m : M A) : does W Calm true m -> triple W (ready t calls outs i) m (fun _ => ready t calls outs i).
Proof. apply triple_calm_late. Qed.

(** A step that does not change the batch, of which something else is known. *)
Lemma calm_try_ready t calls outs i {A B} (m : attempt A) (k : A -> attempt B) (R : A -> Prop) (Q : result RuntimeError B -> assertion) :
  does W Calm true m -> returns W m (fun r => match r with Ok a => R a | Err _ => True end) ->
  (forall err s tr, stopped s tr -> Q (Err err) s tr) ->
  (forall a, R a -> triple W (ready t calls outs i) (k a) Q) -> triple W (ready t calls outs i) (try_bind m k) Q.
Proof.
  intros Hm HR HQ Hk. eapply triple_try; [eapply triple_returns; [by apply calm_ready|exact HR]| |].
  - intros err s tr [_ Hr]. apply HQ. by eapply ready_stopped.
  - intros a s tr tr' b s' [Ha Hr]. by eapply Hk.
Qed.

Lemma commitResult_triple t turn calls outs i call outcome :
  calls !! i = Some call -> tr_CallID outcome = tc_ID call ->
  triple W (ready t calls outs i) (commitResult def turn i call outcome)
    (fun r => if is_ok r then ready t calls outs (S i) else stopped).
Proof.
  intros Hi Hc. unfold commitResult.
  eapply calm_try_ready; [walk; apply afterTool_does|apply afterTool_call|done|]. cbn. intros r1 Hr1.
  eapply calm_try_ready; [apply spill_does|apply spill_call|done|]. cbn. intros r2 Hr2.
  eapply triple_try with (R := fun r s tr =>
    at_batch (MkBatch t calls i outs) (tc_ID <$> drop (if is_ok r then S i else i) calls) s tr /\ wrote true tr).
  - unfold ready, commitResultMessage. apply triple_late. rewrite (drop_S calls call i Hi). cbn [fmap list_fmap].
    eapply triple_seq with (R := fun m s tr => answers_call (tc_ID call) m = true /\ at_batch (MkBatch t calls i outs) (tc_ID call :: (tc_ID <$> drop (S i) calls)) s tr).
    + eapply triple_returns; [apply triple_calm, new_result_message_does|]. apply new_result_message_answers. congruence.
    + intros m s tr tr' r s' [Ha Hb] HW Hr.
      pose proof (commitToolResult_triple m r2 (tc_ID call) (tc_ID <$> drop (S i) calls) (MkBatch t calls i outs) Ha ltac:(congruence)
        s tr tr' r s' Hb HW Hr) as Hq. destruct r; [done|]. cbn in *. by rewrite (drop_S calls call i Hi).
  - intros err s tr Hr. cbn in *. by apply ready_stopped in Hr.
  - intros [message result]. cbn [is_ok fst snd].
    eapply triple_seq with (R := fun _ => ready t calls outs (S i)).
    { apply triple_modify. intros s tr [[Hb Ho] Hw]. split; [|done]. split; [cbn; by rewrite Hb|done]. }
    intros _. eapply triple_seq; [apply calm_ready, stageResult_does|]. intros [].
    eapply triple_try; [apply calm_ready, does_flush| |].
    + intros err s tr Hr. by apply ready_stopped in Hr.
    + intros []. by apply triple_done.
Qed.

(** The outcomes of a batch belong to its calls. *)
Definition owned (calls : list ToolCall) (outs : gmap nat ToolResult) : Prop :=
  forall i r, outs !! i = Some r -> exists call, calls !! i = Some call /\ tr_CallID r = tc_ID call.

Lemma owned_at calls outs i call r : owned calls outs -> calls !! i = Some call -> outs !! i = Some r -> tr_CallID r = tc_ID call.
Proof. intros Ho Hi Hr. destruct (Ho i r Hr) as (call' & Hi' & ->). congruence. Qed.

Lemma commitUpTo_triple t turn calls outs i plans :
  owned calls outs ->
  (forall j plan, plans !! j = Some plan -> calls !! (i + j)%nat = Some (pl_call plan) /\ is_Some (outs !! (i + j)%nat)) ->
  triple W (ready t calls outs i) (commitUpTo def turn i plans)
    (fun r => if is_ok r then ready t calls outs (i + length plans) else stopped).
Proof.
  intros Ho. revert i. induction plans as [|plan plans IH]; intros i Hp; cbn [commitUpTo length].
  { apply triple_done. intros s tr Hr. cbn. by rewrite Nat.add_0_r. }
  destruct (Hp 0%nat plan eq_refl) as [Hi [r Hr]]. rewrite Nat.add_0_r in Hi, Hr.
  eapply triple_seq with (R := fun o s tr => o = outs /\ ready t calls outs i s tr).
  { eapply triple_weaken; [apply triple_get|done|]. intros o s tr [Hs ->]. split; [by destruct Hs as [[-> _] _]|done]. }
  intros o. apply triple_pure. intros ->. rewrite Hr. cbn [default from_option id].
  eapply triple_try; [apply commitResult_triple; [exact Hi|by eapply owned_at]|done|]. intros result. cbn [is_ok].
  eapply triple_try; [apply IH|done|].
  - intros j p Hj. specialize (Hp (S j) p Hj). by rewrite Nat.add_succ_r in Hp.
  - intros others. apply triple_done. intros s tr Hq. cbn [is_ok] in *. by rewrite Nat.add_succ_r.
Qed.

(** ** Running a group *)

Context (HW : forall a, W a -> fair a).

(** The calls of the plans. *)
Definition plans_of (calls : list ToolCall) (plans : list toolPlan) : Prop := pl_call <$> plans = calls.

Lemma plans_of_at calls plans i plan : plans_of calls plans -> plans !! i = Some plan -> calls !! i = Some (pl_call plan).
Proof. intros <- Hi. by rewrite list_lookup_fmap, Hi. Qed.

Lemma call_of_at calls plans i plan : plans_of calls plans -> plans !! i = Some plan -> call_of plans i = pl_call plan.
Proof. intros _ Hi. unfold call_of. by rewrite Hi. Qed.

Definition covers (group : list nat) (outs : gmap nat ToolResult) : Prop := Forall (fun i => is_Some (outs !! i)) group.

(** What settling outcomes gives: more of them, each of its call. *)
Definition settles (calls : list ToolCall) (outs outs' : gmap nat ToolResult) : Prop :=
  owned calls outs' /\ forall i, is_Some (outs !! i) -> is_Some (outs' !! i).

Lemma settle_call_returns turn plans index result outs :
  returns W (settle_call def turn plans index result outs) (fun outs' => outs' = <[index := result]> outs).
Proof. unfold settle_call. by give. Qed.

Lemma owned_insert calls plans index plan result outs :
  plans_of calls plans -> plans !! index = Some plan -> tr_CallID result = tc_ID (pl_call plan) ->
  owned calls outs -> owned calls (<[index := result]> outs).
Proof.
  intros Hp Hi Hr Ho j r Hj. destruct (decide (index = j)) as [->|Hn].
  - rewrite lookup_insert_eq in Hj. simplify_eq. exists (pl_call plan). split; [by eapply plans_of_at|done].
  - rewrite lookup_insert_ne in Hj by done. by apply Ho.
Qed.

Lemma insert_some (outs : gmap nat ToolResult) index result i :
  is_Some (outs !! i) -> is_Some (<[index := result]> outs !! i).
Proof. intros Hi. destruct (decide (index = i)) as [->|]; [by rewrite lookup_insert_eq|by rewrite lookup_insert_ne]. Qed.

Lemma runTool_call plan o : tr_CallID (runTool def plan o) = tc_ID (pl_call plan).
Proof.
  unfold runTool. destruct (executeToolSafely o) as [produced|[err []]]; [|done..].
  cbv zeta. by destruct (String.eqb _ _).
Qed.

Lemma canceledOutcome_call ctx result : tr_CallID (canceledOutcome ctx result) = tr_CallID result.
Proof. unfold canceledOutcome. destruct ctx; [|done]. cbv zeta. by destruct (String.eqb _ _). Qed.

Lemma settle_signal_returns turn calls plans index plan o outs :
  plans_of calls plans -> plans !! index = Some plan -> owned calls outs ->
  returns W (settle_signal def turn plans index o outs) (fun outs' => settles calls outs outs' /\ is_Some (outs' !! index)).
Proof.
  intros Hp Hi Ho. unfold settle_signal. apply returns_any. intros err. rewrite Hi. cbv zeta.
  eapply returns_weaken; [apply settle_call_returns|]. intros outs' ->. split; [split|by rewrite lookup_insert_eq].
  - eapply owned_insert; [done|done| |done]. by rewrite canceledOutcome_call, runTool_call.
  - intros i. apply insert_some.
Qed.

Lemma cancelRest_returns started turn calls plans group outs :
  plans_of calls plans -> Forall (fun i => is_Some (plans !! i)) group -> owned calls outs ->
  returns W (cancelRest def started turn plans group outs) (fun outs' => settles calls outs outs' /\ covers group outs').
Proof.
  intros Hp. revert outs. induction group as [|index group IH]; intros outs Hg Ho; cbn [cancelRest].
  { apply returns_ret. split; [by split|constructor]. }
  inversion Hg as [|? ? [plan Hi] Hg']; subst. destruct (outs !! index) eqn:E.
  - eapply returns_weaken; [by apply IH|]. intros outs' [[Ho' Hs] Hc]. split; [done|]. constructor; [apply Hs; by rewrite E|done].
  - apply returns_any. intros err. eapply returns_bind; [apply settle_call_returns|]. intros outs1 ->.
    eapply returns_weaken; [apply IH; [done|]|].
    + eapply owned_insert; [done|done| |done]. cbn. by erewrite call_of_at.
    + intros outs' [[Ho' Hs] Hc]. split; [split; [done|intros i Hsome; by apply Hs, insert_some]|].
      constructor; [|done]. apply Hs. by rewrite lookup_insert_eq.
Qed.

Lemma drain_signals_returns turn calls plans waiting outs :
  plans_of calls plans -> Forall (fun p => is_Some (plans !! p.1)) waiting -> owned calls outs ->
  returns W (drain_signals def turn plans waiting outs) (settles calls outs).
Proof.
  intros Hp. revert outs. induction waiting as [|[index o] waiting IH]; intros outs Hg Ho; cbn [drain_signals].
  { apply returns_ret. by split. }
  inversion Hg as [|? ? [plan Hi] Hg']; subst. eapply returns_bind; [by eapply settle_signal_returns|].
  intros outs1 [[Ho1 Hs1] _]. eapply returns_weaken; [by apply IH|]. intros outs' [Ho' Hs']. split; [done|]. intros i Hi'. by apply Hs', Hs1.
Qed.

Lemma pending_in group outs i : i ∈ pending_of group outs -> i ∈ group.
Proof. unfold pending_of. by intros [_ ?]%list_elem_of_filter. Qed.

Lemma pending_nil group outs : pending_of group outs = [] -> covers group outs.
Proof.
  intros Hn. apply list.Forall_forall. intros i Hi. destruct (outs !! i) eqn:E; [done|].
  assert (Hin : i ∈ pending_of group outs) by (unfold pending_of; by apply list_elem_of_filter).
  rewrite Hn in Hin. by apply elem_of_nil in Hin.
Qed.

(** A settled call is not waited for again. *)
Lemma pending_shrinks group outs outs' i :
  i ∈ pending_of group outs -> is_Some (outs' !! i) -> (forall j, is_Some (outs !! j) -> is_Some (outs' !! j)) ->
  (length (pending_of group outs') < length (pending_of group outs))%nat.
Proof.
  unfold pending_of. intros Hi Hs Hk. induction group as [|j group IH]; [by apply elem_of_nil in Hi|].
  assert (Hle : (length (filter (fun j => outs' !! j = None) group) <= length (filter (fun j => outs !! j = None) group))%nat).
  { clear Hi IH. induction group as [|k group IH]; [done|]. rewrite !filter_cons.
    destruct (decide (outs' !! k = None)) as [E|E]; destruct (decide (outs !! k = None)) as [E'|E']; cbn; try lia.
    exfalso. apply E', eq_None_not_Some. intros Hk'%Hk. rewrite E in Hk'. by destruct Hk'. }
  rewrite !filter_cons in *. destruct (decide (outs !! j = None)) as [E|E].
  - apply elem_of_cons in Hi as [->|Hi].
    + destruct (decide (outs' !! j = None)) as [E'|E']; [rewrite E' in Hs; by destruct Hs|cbn; lia].
    + destruct (decide (outs' !! j = None)); cbn; specialize (IH Hi); lia.
  - destruct (decide (outs' !! j = None)) as [E'|E']; [|by apply IH].
    exfalso. apply E, eq_None_not_Some. intros Hk'%Hk. rewrite E' in Hk'. by destruct Hk'.
Qed.

Lemma collect_returns fuel turn calls plans group outs :
  plans_of calls plans -> Forall (fun i => is_Some (plans !! i)) group -> owned calls outs ->
  (length (pending_of group outs) <= fuel)%nat ->
  returns W (collect def fuel turn plans group outs) (fun outs' => settles calls outs outs' /\ covers group outs').
Proof.
  intros Hp Hg. revert outs. induction fuel as [|fuel IH]; intros outs Ho Hf; cbn [collect].
  { apply returns_ret. split; [by split|]. apply pending_nil. destruct (pending_of group outs); [done|cbn in Hf; lia]. }
  destruct (pending_of group outs) as [|i rest] eqn:Ep; [apply returns_ret; split; [by split|by apply pending_nil]|].
  rewrite <- Ep in *. eapply returns_bind; [apply returns_ask|]. intros [updates answer] Hw. apply HW in Hw. cbn in Hw.
  apply returns_any. intros _. cbn [snd]. rewrite list.Forall_forall in Hg. destruct answer as [index o|waiting].
  - destruct (Hg index (pending_in group outs index Hw)) as [plan Hi].
    eapply returns_bind; [by eapply settle_signal_returns|]. intros outs1 [[Ho1 Hs1] Hi1].
    eapply returns_weaken; [apply IH; [done|]|].
    + pose proof (pending_shrinks group outs outs1 index Hw Hi1 Hs1). lia.
    + intros outs' [[Ho' Hs'] Hc]. split; [split; [done|intros j Hj; by apply Hs', Hs1]|done].
  - eapply returns_bind; [apply drain_signals_returns; [done| |done]|].
    + apply list.Forall_forall. intros p Hp'. rewrite list.Forall_forall in Hw. eapply Hg, pending_in, Hw, Hp'.
    + intros outs1 [Ho1 Hs1]. eapply returns_weaken; [apply cancelRest_returns; [done|by apply list.Forall_forall|done]|].
      intros outs' [[Ho' Hs'] Hc]. split; [split; [done|intros j Hj; by apply Hs', Hs1]|done].
Qed.

Lemma executeToolGroup_returns turn calls plans group :
  plans_of calls plans -> Forall (fun i => is_Some (plans !! i)) group ->
  returns W (executeToolGroup def turn plans group) (fun outs => owned calls outs /\ covers group outs).
Proof.
  intros Hp Hg. assert (Hn : owned calls ∅) by (intros i r Hr; by rewrite lookup_empty in Hr).
  unfold executeToolGroup. apply returns_any. intros [err|].
  - eapply returns_weaken; [by apply cancelRest_returns|]. by intros outs [[? _] ?].
  - apply returns_any. intros _. eapply returns_weaken; [apply collect_returns; [done|done|done|apply length_filter]|].
    by intros outs [[? _] ?].
Qed.

(** ** The batch *)

Definition blocked_own (plans : list toolPlan) : Prop :=
  Forall (fun plan => pl_blocked plan = true -> tr_CallID (pl_result plan) = tc_ID (pl_call plan)) plans.

Lemma plan_call_returns turn index call :
  returns W (plan_call def turn index call)
    (fun r => match r with
              | Ok plan => pl_call plan = call /\ (pl_blocked plan = true -> tr_CallID (pl_result plan) = tc_ID (pl_call plan))
              | Err _ => True
              end).
Proof.
  unfold plan_call. apply returns_any. intros _. apply returns_any. intros r. destruct (lookup_tool r _) as [entry|].
  - destruct (refused_arguments _ _); [by apply returns_ret|]. apply returns_any. intros run. cbv zeta.
    apply returns_try_any; [done|]. intros decision. apply returns_ret. split; [done|]. cbn. intros ->.
    unfold blocked_result. destruct (pd_Result decision); [|done]. cbv zeta. by destruct (String.eqb _ _).
  - apply returns_ret. unfold unresolved_plan. by destruct (loadable r _).
Qed.

Lemma preflight_returns turn index calls :
  returns W (preflight_from def turn index calls)
    (fun r => match r with Ok plans => plans_of calls plans /\ blocked_own plans | Err _ => True end).
Proof.
  revert index. induction calls as [|call calls IH]; intros index; cbn [preflight_from].
  { apply returns_ret. split; [done|constructor]. }
  eapply returns_try; [apply plan_call_returns|done|]. intros plan [Hc Hb].
  eapply returns_try; [apply IH|done|]. intros plans [Hp Hbs]. apply returns_ret. split; [|by constructor].
  unfold plans_of in *. cbn. by rewrite Hc, Hp.
Qed.

Lemma note_outcomes_triple t calls outs i completed :
  triple W (ready t calls outs i) (note_outcomes completed) (fun _ => ready t calls (completed ∪ outs) i).
Proof. apply triple_modify. intros s tr [[Hb Ho] Hw]. split; [|done]. split; [cbn; by rewrite Hb|done]. Qed.

Lemma owned_union calls completed outs : owned calls completed -> owned calls outs -> owned calls (completed ∪ outs).
Proof.
  intros H1' H2' i r Hi. apply lookup_union_Some_raw in Hi as [Hi|[_ Hi]]; [by apply H1'|by apply H2'].
Qed.

Lemma some_union_l (completed outs : gmap nat ToolResult) i : is_Some (completed !! i) -> is_Some ((completed ∪ outs) !! i).
Proof. intros [r Hr]. exists r. by apply lookup_union_Some_l. Qed.

Lemma some_union_r (completed outs : gmap nat ToolResult) i : is_Some (outs !! i) -> is_Some ((completed ∪ outs) !! i).
Proof. intros [r Hr]. rewrite lookup_union. destruct (completed !! i); rewrite Hr; by eexists. Qed.

(** Ready, with outcomes of which [R] is known. *)
Definition ready_with (t : TurnNumber) (calls : list ToolCall) (R : gmap nat ToolResult -> Prop) (i : nat) (s : local) (tr : list act) : Prop :=
  exists outs, owned calls outs /\ R outs /\ ready t calls outs i s tr.

Lemma triple_exists {A B} (P : B -> assertion) (m : M A) (Q : A -> assertion) :
  (forall b, triple W (P b) m Q) -> triple W (fun s tr => exists b, P b s tr) m Q.
Proof. intros Hm s tr tr' a s' [b Hb]. by apply (Hm b). Qed.

Lemma with_ready t calls R i {A} (m : M A) (Q : A -> assertion) :
  (forall outs, owned calls outs -> R outs -> triple W (ready t calls outs i) m Q) -> triple W (ready_with t calls R i) m Q.
Proof. intros Hm. apply triple_exists. intros outs s tr tr' a s' (Ho & HR & Hr). by apply (Hm outs). Qed.

Lemma settle_blocked_triple t turn calls plans index suffix :
  plans_of calls plans -> blocked_own plans -> drop index plans = suffix ->
  triple W (ready_with t calls (fun outs => forall j plan, (j < index)%nat -> plans !! j = Some plan -> pl_blocked plan = true -> is_Some (outs !! j)) 0)
    (settle_blocked def turn index suffix)
    (fun _ => ready_with t calls (fun outs => forall j plan, plans !! j = Some plan -> pl_blocked plan = true -> is_Some (outs !! j)) 0).
Proof.
  intros Hp Hb. revert index. induction suffix as [|plan suffix IH]; intros index Hd; cbn [settle_blocked].
  { apply triple_done. intros s tr (outs & Ho & Hc & Hr). exists outs. split; [done|]. split; [|done].
    intros j plan Hj. apply Hc; [|done]. apply lookup_lt_Some in Hj. assert (length plans <= index)%nat; [|lia].
    apply Nat.sub_0_le. by rewrite <- length_drop, Hd. }
  assert (Hi : plans !! index = Some plan) by (rewrite <- (Nat.add_0_r index), <- lookup_drop, Hd; done).
  assert (Hd' : drop (S index) plans = suffix) by (rewrite (drop_S plans plan index Hi) in Hd; by injection Hd).
  eapply triple_seq; [|intros u; apply (IH (S index) Hd')]. apply with_ready. intros outs Ho Hc.
  assert (Hnext : forall outs', owned calls outs' -> (forall j, is_Some (outs !! j) -> is_Some (outs' !! j)) ->
    (pl_blocked plan = true -> is_Some (outs' !! index)) ->
    forall s tr, ready t calls outs' 0 s tr ->
    ready_with t calls (fun outs => forall j plan, (j < S index)%nat -> plans !! j = Some plan -> pl_blocked plan = true -> is_Some (outs !! j)) 0 s tr).
  { intros outs' Ho' Hk Hx s tr Hr. exists outs'. split; [done|]. split; [|done]. intros j p Hj Hpj Hbj.
    destruct (decide (j = index)) as [->|]; [apply Hx; congruence|]. apply Hk, (Hc j p); [lia|done|done]. }
  destruct (pl_blocked plan) eqn:Eb.
  - eapply triple_seq; [apply note_outcomes_triple|]. intros [].
    eapply triple_weaken; [apply calm_ready; walk; apply header_does|done|]. intros u. apply Hnext.
    + apply owned_union; [|done]. intros i r Hr. apply lookup_singleton_Some in Hr as [<- <-].
      exists (pl_call plan). split; [by eapply plans_of_at|]. unfold blocked_own in Hb. rewrite list.Forall_lookup in Hb. by eapply Hb.
    + intros j. apply some_union_r.
    + intros _. apply some_union_l. by rewrite lookup_singleton_eq.
  - apply triple_done. apply Hnext; [done|done|done].
Qed.

(** What is covered once the groups to come have run. *)
Definition covered_but (plans : list toolPlan) (groups : list (list nat)) (outs : gmap nat ToolResult) : Prop :=
  forall i plan, plans !! i = Some plan -> is_Some (outs !! i) \/ i ∈ mjoin groups.

Lemma executeToolGroup_triple t turn calls plans group outs i :
  triple W (ready t calls outs i) (executeToolGroup def turn plans group) (fun _ => ready t calls outs i).
Proof.
  unfold executeToolGroup. eapply triple_seq; [apply calm_ready; walk|]. intros [err|]; cbn beta.
  - apply calm_ready, cancelRest_does.
  - eapply triple_seq with (R := fun _ => ready t calls outs i); [|intros ?; apply calm_ready, collect_does].
    apply triple_ask. intros x s tr [[Hb Ho] Hw] _. split; [|by apply wrote_app]. split; [done|]. by eapply opens_step.
Qed.

Lemma commit_range t turn calls plans outs from upto :
  plans_of calls plans -> owned calls outs -> (upto <= length plans)%nat ->
  (forall i, (from <= i < upto)%nat -> is_Some (outs !! i)) ->
  triple W (ready t calls outs from) (commitUpTo def turn from (drop from (take upto plans)))
    (fun r => if is_ok r then ready t calls outs (Nat.max from upto) else stopped).
Proof.
  intros Hp Ho Hu Hc. eapply triple_weaken; [apply commitUpTo_triple; [done|]|done|].
  - intros j plan Hj. rewrite lookup_drop in Hj. apply lookup_take_Some in Hj as [Hj Hlt].
    split; [by eapply plans_of_at|]. apply Hc. lia.
  - intros r s tr. cbn beta. destruct (is_ok r); [|done]. intros Hr. rewrite length_drop, length_take in Hr.
    replace (Nat.max from upto) with (from + (Nat.min upto (length plans) - from))%nat by lia. done.
Qed.

Lemma run_groups_triple t turn id calls plans committed groups :
  plans_of calls plans -> (committed <= length plans)%nat ->
  Forall (fun i => (i < length plans)%nat) (mjoin groups) -> StronglySorted lt (mjoin groups) -> Forall (fun g => g <> []) groups ->
  triple W (ready_with t calls (covered_but plans groups) committed) (run_groups def turn id plans committed groups)
    (fun r => if is_ok r then ready_with t calls (fun _ => True) (length plans) else stopped).
Proof.
  intros Hp. revert committed. induction groups as [|group groups IH]; intros committed Hc Hl Hs Hn; cbn [run_groups].
  - apply with_ready. intros outs Ho Hcov.
    rewrite <- (take_ge plans (length plans)) at 1 by lia.
    eapply triple_weaken; [apply commit_range; [done|done|lia|]|done|].
    + intros i Hi. destruct (lookup_lt_is_Some_2 plans i) as [plan Hplan]; [lia|].
      destruct (Hcov i plan Hplan) as [?|Hin]; [done|by apply elem_of_nil in Hin].
    + intros r s tr. cbn beta. destruct (is_ok r); [|done]. intros Hr. rewrite Nat.max_r in Hr by lia. by exists outs.
  - cbn in Hl, Hs. apply list.Forall_app in Hl as [Hlg Hlr]. inversion Hn as [|? ? Hne Hn']; subst.
    apply StronglySorted_app in Hs as (Hbetween & Hsg & Hsr).
    destruct (last group) as [l|] eqn:El; [|by apply last_None in El].
    assert (Hlin : l ∈ group) by (by apply last_Some_elem_of).
    assert (Hll : (l < length plans)%nat) by (rewrite list.Forall_forall in Hlg; by apply Hlg).
    apply with_ready. intros outs Ho Hcov. eapply triple_seq; [apply calm_ready, stage_started_does|]. intros [].
    eapply triple_try; [apply calm_ready, does_flush|intros err s tr Hr; exact (ready_stopped _ _ _ _ _ _ Hr)|]. intros [].
    eapply triple_seq; [eapply triple_returns; [apply executeToolGroup_triple|apply (executeToolGroup_returns turn calls plans group Hp)]|].
    { apply list.Forall_forall. intros i Hi. apply lookup_lt_is_Some. rewrite list.Forall_forall in Hlg. by apply Hlg. }
    intros completed. apply triple_pure. intros [Hoc Hcg].
    eapply triple_seq; [apply note_outcomes_triple|]. intros []. cbv zeta. change (default 0%nat (Some l)) with l.
    eapply triple_try; [apply commit_range; [done|by apply owned_union|lia|]|done|].
    + intros i Hi. destruct (lookup_lt_is_Some_2 plans i) as [plan Hplan]; [lia|].
      destruct (Hcov i plan Hplan) as [?|Hin]; [by apply some_union_r|]. cbn in Hin. apply elem_of_app in Hin as [Hin|Hin].
      * apply some_union_l. unfold covers in Hcg. rewrite list.Forall_forall in Hcg. by apply Hcg.
      * pose proof (Hbetween l i Hlin Hin). lia.
    + intros settled. cbn [is_ok].
      eapply triple_try; [eapply triple_pre; [apply (IH (Nat.max committed (S l))); [lia|done|done|done]|]|done|].
      * intros s tr Hr. exists (completed ∪ outs). split; [by apply owned_union|]. split; [|done].
        intros i plan Hplan. destruct (Hcov i plan Hplan) as [?|Hin]; [left; by apply some_union_r|].
        cbn in Hin. apply elem_of_app in Hin as [Hin|Hin]; [left|by right].
        apply some_union_l. unfold covers in Hcg. rewrite list.Forall_forall in Hcg. by apply Hcg.
      * intros others. by apply triple_done.
Qed.

Lemma parallelWorkers_pos : (1 <= parallelWorkers def)%nat.
Proof. unfold parallelWorkers. destruct (N.leb_spec (lm_MaxParallelTools (df_limits def)) 1); lia. Qed.

Lemma groups_facts plans :
  let groups := groupPlans plans (parallelWorkers def) in
  Forall (fun i => (i < length plans)%nat) (mjoin groups) /\ StronglySorted lt (mjoin groups) /\ Forall (fun g => g <> []) groups
  /\ forall i plan, plans !! i = Some plan -> pl_blocked plan = false -> i ∈ mjoin groups.
Proof.
  cbv zeta. unfold groupPlans at 1 2 4. rewrite group_from_join. cbn [app mjoin list_join]. split; [|split; [apply unblocked_sorted|split]].
  - apply list.Forall_forall. intros i (k & plan & -> & Hk & _)%unblocked_at. by apply lookup_lt_Some in Hk.
  - eapply list.Forall_impl; [apply (group_from_fits plans (parallelWorkers def) plans 0 [] []); [apply parallelWorkers_pos|done|constructor|]|].
    + split; [pose proof parallelWorkers_pos; cbn; lia|constructor].
    + intros g [Hg _] ->. cbn in Hg. lia.
  - intros i plan Hi Hb. apply unblocked_at. by exists i, plan.
Qed.

(** No call is open and nothing is known of a batch. *)
Definition idle (s : local) (tr : list act) : Prop := at_batch batch_zero [] s tr /\ wrote true tr.

Lemma runToolBatch_triple t turn assistant :
  triple W (ready t (m_ToolCalls assistant) ∅ 0) (runToolBatch def turn assistant) (fun r => if is_ok r then idle else stopped).
Proof.
  unfold runToolBatch. set (calls := m_ToolCalls assistant).
  eapply calm_try_ready; [apply preflightTools_does|apply preflight_returns|done|]. intros plans [Hp Hb]. cbn beta.
  eapply triple_seq with (R := fun _ => ready t calls ∅ 0).
  { apply triple_modify. intros s tr [[Hs Ho] Hw]. split; [|done]. split; [cbn; by rewrite Hs|done]. }
  intros []. destruct (groups_facts plans) as (Hl & Hs & Hn & Hu).
  eapply triple_seq; [eapply triple_pre; [apply (settle_blocked_triple t turn calls plans 0 plans Hp Hb eq_refl)|]|].
  { intros s tr Hr. exists ∅. split; [by intros i r Hi; rewrite lookup_empty in Hi|]. split; [lia|done]. }
  intros []. eapply triple_try; [eapply triple_pre; [apply (run_groups_triple t turn (m_ID assistant) calls plans 0 _ Hp); [lia|done|done|done]|]|done|].
  - intros s tr (outs & Ho & Hc & Hr). exists outs. split; [done|]. split; [|done]. intros i plan Hi.
    destruct (pl_blocked plan) eqn:Eb; [left; by eapply Hc|right; by eapply Hu].
  - intros settled. cbn [is_ok]. eapply triple_seq with (R := fun _ => idle); [|intros []; by apply triple_done].
    apply triple_modify. intros s tr (outs & _ & _ & [[Hs' Ho] Hw]). split; [|done]. split; [done|].
    rewrite drop_ge in Ho; [done|]. rewrite <- Hp. by rewrite length_fmap.
Qed.

(** ** Closing the open calls *)

(** A Transcript that fails or refuses a Message. *)
Definition refusal (a : act) : Prop :=
  match a with Act o x =>
    match o in op X return X -> Prop with
    | TrLen => fun x => is_ok x = false
    | TrAppend _ => fun x => is_ok x = false
    | _ => fun _ => False
    end x
  end.

Context (Hjson : forall m, json_size m <> None).

Lemma closing_commit_refused message s tr err s' :
  runs (commit def message false s) tr (Err err, s') -> Exists refusal tr.
Proof.
  unfold commit. intros Hr. apply runs_pbind in Hr as (tr1 & [id s1] & tr2 & -> & _ & Hr2). apply Exists_app. right.
  cbv zeta in Hr2. cbn [fst snd] in Hr2. destruct (json_size _) as [n|] eqn:En; [|by apply Hjson in En].
  apply runs_pbind in Hr2 as (tr3 & [len s2] & tr4 & -> & Hr3 & Hr4).
  apply runs_pbind in Hr3 as (? & [? ?] & ? & -> & (x & rest & -> & -> & [= -> ->]) & Hx). destruct Hx as [-> Hx]. cbn in Hx.
  destruct x as [len'|e]; injection Hx as -> ->; [|left; done]. cbn in Hr4. right.
  destruct Hr4 as (answer & rest & -> & Hr6). destruct answer as [[]|e]; [|by left].
  cbn in Hr6. by destruct Hr6 as [_ [=]].
Qed.

Lemma close_calls_triple turn status text outs index calls b :
  triple W (at_batch b (tc_ID <$> calls)) (close_calls def turn status text outs index calls)
    (fun _ s tr => exists ids, at_batch b ids s tr /\ (ids = [] \/ Exists refusal tr)).
Proof.
  revert index. induction calls as [|call calls IH]; intros index; cbn [close_calls].
  { apply triple_done. intros s tr Hs. exists []. split; [done|by left]. }
  cbv zeta. eapply triple_seq; [eapply triple_returns; [apply triple_calm, new_result_message_does|by apply new_result_message_answers]|].
  intros message. apply triple_pure. intros Ha. cbn in Ha.
  eapply triple_seq with (R := fun r s tr => at_batch b (if is_ok r then tc_ID <$> calls else tc_ID call :: (tc_ID <$> calls)) s tr /\ (is_ok r = false -> Exists refusal tr)).
  { intros s tr tr' r s' Hs Hw Hr. split; [by apply (commit_result_triple message false (tc_ID call) (tc_ID <$> calls) b Ha s tr tr' r s')|].
    destruct r; [done|]. intros _. apply Exists_app. right. by eapply closing_commit_refused. }
  intros [u|err]; cbn [is_ok].
  - eapply triple_pre; [|intros s tr [Hs _]; exact Hs].
    eapply triple_seq; [apply triple_calm, header_does|]. intros h.
    eapply triple_seq; [apply triple_calm; walk|]. intros []. apply IH.
  - apply triple_done. intros s tr [Hs Hx]. exists (tc_ID <$> call :: calls). split; [done|]. right. by apply Hx.
Qed.

(** After [closeOpenCalls] no call is open, unless the Transcript failed. *)
Definition closed (s : local) (tr : list act) : Prop :=
  lo_batch s = batch_zero /\ exists ids, opens ids tr /\ (ids = [] \/ Exists refusal tr).

Lemma closeOpenCalls_triple err status : triple W calls_ok (closeOpenCalls def err status) (fun _ => closed).
Proof.
  unfold closeOpenCalls. eapply triple_seq; [apply triple_get|]. intros batch. cbn beta.
  eapply triple_pre with (P := at_batch batch (open_of batch)); [|intros s tr [Ho ->]; by split].
  eapply triple_seq; [apply close_calls_triple|]. intros []. apply triple_modify.
  intros s tr (ids & [Hb Ho] & Hx). split; [done|]. by exists ids.
Qed.

End calls.
