(* ===== verification/RunSample.v ===== *)
(** * A world to run the Loop in

    A world that answers every operation from a state of its own makes a run of any program;
    the one here answers as a Model, a Tool and a Transcript would. *)

From S2P Require Import Prelude GoStrings Text Ref Errors Types Events Request Schema ToolRegistry Reply ControlQueue Session ToolBatch RunLoop RunSpec RunCalls.
Local Open Scope string_scope.
Local Open Scope list_scope.

Section play.
Context {St : Type} (answer : St -> forall X, op X -> X * St).

Fixpoint play {A} (p : prog A) (w : St) : list act * A :=
  match p with
  | Ret a => ([], a)
  | Do o k =>
    let (x, w) := answer w _ o in
    let (tr, a) := play (k x) w in (Act o x :: tr, a)
  end.

Lemma play_runs {A} (p : prog A) w : runs p (play p w).1 (play p w).2.
Proof.
  revert w. induction p as [a|X o k IH]; intros w; cbn; [done|]. destruct (answer w X o) as [x w'].
  specialize (IH x w'). destruct (play (k x) w') as [tr a]. by exists x, tr.
Qed.

Lemma play_all (Q : act -> Prop) {A} (p : prog A) w :
  (forall w X (o : op X), Q (Act o (answer w X o).1)) -> Forall Q (play p w).1.
Proof.
  intros HQ. revert w. induction p as [a|X o k IH]; intros w; cbn; [constructor|]. pose proof (HQ w X o) as Hq.
  destruct (answer w X o) as [x w']. specialize (IH x w'). destruct (play (k x) w') as [tr a]. by constructor.
Qed.
End play.

#[local] Instance sample_encoding : Encoding := {|
  json_compact := Some; json_message m := bytes_of (m_ID m); json_tool t := bytes_of (ts_ID t);
  json_string := bytes_of; sha256_hex b := "0123456789abcdef0123" |}.

#[local] Instance sample_texts : Texts := {|
  error_text _ := "error"; quoted s := s; schema_text _ := "schema"; duration_text _ := "2m0s"; human_bytes _ := "1 KiB";
  search_names _ := []; json_valid _ := true; json_size m := Some (N.of_nat (slen (m_ID m) + 20)) |}.

#[local] Instance sample_json : JsonText := fun _ => Some (JObject []).

(** The Model streams the replies it is given, one for each call. *)
Definition stream_of (events : list ModelEvent) : list ModelRetry * outcome (option (list received)) :=
  ([], Ok (Some ((fun event => ([], Ok event)) <$> events))).

Definition sample_answer (w : list (list ModelEvent)) (X : Type) (o : op X) : X * list (list ModelEvent) :=
  match o in op X return X * list (list ModelEvent) with
  | Now => (1%Z, w)
  | Elapsed => (0%Z, w)
  | NextID kind => (kind, w)
  | CtxErr => (None, w)
  | ModelCtxErr => (None, w)
  | OnRunStart _ => (Ok tt, w)
  | BeginRun _ => (tt, w)
  | SetTurn _ => (tt, w)
  | BeginEnd _ => (false, w)
  | WaitAborts => (tt, w)
  | EndRun => (tt, w)
  | OpenCall => (tt, w)
  | CloseCall => (tt, w)
  | TakeMessages _ => ([], w)
  | TakeNotices => ([], w)
  | PutBack _ => (tt, w)
  | DrainMessages => ([], w)
  | Interrupting => (false, w)
  | WriteEvents _ events => (Ok events, w)
  | Publish _ => (tt, w)
  | LastNumber => (1%N, w)
  | TrLen => (Ok 0%nat, w)
  | TrMessages => (Ok [], w)
  | TrAppend _ => (Ok tt, w)
  | TrCapabilities => (Ok (MkCapabilities true false false), w)
  | TrLoadedTools => (Ok [], w)
  | Build snapshot => (Ok (MkContext "" [] (cx_Messages snapshot) ∅), w)
  | Transform _ snapshot => (Ok (cx_Messages snapshot), w)
  | Convert _ messages => (Ok messages, w)
  | Before _ _ => (Ok decision_zero, w)
  | After _ result => (Ok result, w)
  | Stop _ _ => (Ok (MkStop false ""), w)
  | PrepareFlushes _ _ => (0%nat, w)
  | Prepare _ _ _ => (Ok false, w)
  | Advisory _ _ => (false, w)
  | ResolveSets => ((fun _ => Ok []), w)
  | AskSources => ([], w)
  | AskFilter _ => (((fun _ => true), None), w)
  | OpenStream _ => (stream_of (hd [] w), tl w)
  | CloseStream => (tt, w)
  | PartDue _ => (true, w)
  | Launch _ => (tt, w)
  | Wait pending => (([], match pending with [] => RunDone [] | index :: _ => Finished index (Answered result_zero) end), w)
  end.

Lemma sample_fair w X (o : op X) : fair (Act o (sample_answer w X o).1).
Proof. destruct o; cbn; try done. destruct pending; cbn; [constructor|by left]. Qed.

Definition text_event (text : string) : ModelEvent := MkModelEvent ModelEventKindTextDelta text [] None usage_zero "" "".
Definition call_event (id tool : string) : ModelEvent :=
  MkModelEvent ModelEventKindToolCall "" [] (Some (MkToolCall id tool [] [])) usage_zero "" "".
Definition done_event (stop : StopReason) : ModelEvent := MkModelEvent ModelEventKindDone "" [] None usage_zero stop "".

Definition sample_def : sessionDef :=
  MkDef "session" "be brief" (withDefaults (MkLimits 0 0 0 0 0 0 1 2 0 0 0)) 0 "" "" true true 1 1 1 1 1 1.

Definition echo_spec : ToolSpec := MkToolSpec "echo" "echo" "" [] [] false ∅ "".
Definition sample_registry : toolRegistry :=
  rebuild quoted ((registry_empty false "") <| tr_rootTools := [MkEntry (HostTool 0) echo_spec] |>).

Definition sample_local : local := MkLocal [] 0 sample_registry "" 0 usage_zero 0 0 0 0 0 batch_zero.

(** A reply that asks for three Tools, one of them unknown, and then an answer. *)
Definition sample_replies : list (list ModelEvent) :=
  [[text_event "let me see"; call_event "1" "echo"; call_event "2" "nope"; call_event "3" "echo"; done_event ""];
   [text_event "done"; done_event ""]].

Definition sample_prompt : Message := message_zero <| m_Role := RoleUser |> <| m_Parts := [part_of ContentKindText "go"] |>.

Definition sample_run : list act * (option ended * local) :=
  play sample_answer (executeRun sample_def 3 (Some sample_prompt) sample_local) sample_replies.

Example sample_run_ends :
  (rr_Status ∘ fst <$> sample_run.2.1) = Some RunStatusCompleted
  /\ Kind <$> handed sample_run.1 =
     ["run_started"; "message_committed"; "turn_started"; "context_built"; "reply_started"; "reply_part_kept"; "reply_ended";
      "tool_ended"; "tool_started"; "tool_started"; "tool_ended"; "tool_ended"; "tool_result_committed"; "tool_result_committed";
      "tool_result_committed"; "turn_ended"; "turn_started"; "context_built"; "reply_started"; "reply_part_kept"; "reply_ended"; "turn_ended"; "run_ended"]%string.
Proof. by vm_compute. Qed.

Lemma sample_run_fair : Forall fair sample_run.1.
Proof. unfold sample_run. apply (play_all sample_answer fair). intros w X o. apply sample_fair. Qed.

Lemma sample_run_runs : runs (executeRun sample_def 3 (Some sample_prompt) sample_local) sample_run.1 sample_run.2.
Proof. unfold sample_run. apply play_runs. Qed.

Lemma sample_run_answers :
  exists result s', runs (executeRun sample_def 3 (Some sample_prompt) sample_local) sample_run.1 (Some result, s').
Proof.
  pose proof sample_run_runs as Hr. pose proof (proj1 sample_run_ends) as He.
  destruct sample_run as [tr [r s']]. cbn [fst snd] in *. destruct r as [result|]; [|done]. by exists result, s'.
Qed.
