(* ===== verification/RunSafety.v ===== *)
(** * What every Run keeps

    The Loop of RunLoop.v, from its first Event to its last: the Events it hands to the
    Journal, and the Tool calls it leaves in the Transcript. *)

From S2P Require Import Prelude GoStrings Text Ref Errors Types Events Request Schema ToolRegistry Reply ControlQueue Session ToolBatch RunLoop RunSpec RunMoves RunCalls RunSample.
Local Open Scope string_scope.
Local Open Scope list_scope.

(** ** Assertions *)

(** The Events of the Run so far, handed over or staged. *)
Definition begun (s : local) (tr : list act) : Prop :=
  exists started middle, handed tr ++ lo_staged s = ERunStarted started :: middle /\ Forall (fun e => plain_event e = true) middle.

Lemma kept_begun c : kept c begun.
Proof.
  intros s tr s' tr' Hm (started & middle & He & Hp). inversion Hm; subst.
  - exists started, middle. split; [|done]. rewrite handed_app, <- He. destruct o; cbn in *; rewrite ?app_nil_r; done.
  - exists started, (middle ++ es). split; [cbn; by rewrite app_assoc, He|by apply list.Forall_app].
  - exists started, middle. split; [|done]. rewrite handed_app. cbn. by rewrite !app_nil_r.
  - destruct (handed tr) as [|e rest] eqn:Et; [done|]. injection He as -> <-. apply list.Forall_app in Hp as [Hp1 Hp2].
    exists started, (rest ++ es ++ lo_staged s'). split; [|by repeat (apply list.Forall_app; split)].
    rewrite handed_app, Et. cbn. by rewrite app_nil_r, <- app_assoc.
  - exists started, middle. split; [|done]. rewrite handed_app. cbn. by rewrite app_nil_r.
  - exists started, middle. split; [|done]. match goal with H : same_core _ _ |- _ => destruct H as [-> _ _ _ _] end. done.
  - exists started, middle. split; [|done]. match goal with H : same_core _ _ |- _ => destruct H as [Hs _ _ _ _] end. cbn in Hs. by rewrite Hs.
Qed.

(** A Run in a Turn, with the calls of the batch open; and one between its batches. *)
Definition running (s : local) (tr : list act) : Prop := begun s tr /\ calls_ok s tr.
Definition between (s : local) (tr : list act) : Prop := begun s tr /\ at_batch batch_zero [] s tr.

Lemma between_running s tr : between s tr -> running s tr.
Proof. intros [Hb Ha]. split; [done|]. by apply (at_batch_ok batch_zero). Qed.

Lemma kept_between : kept Chat between.
Proof. intros s tr s' tr' Hm [Hb Ha]. split; [by eapply kept_begun|by eapply kept_chat]. Qed.

Lemma kept_begun_at b ids : kept Calm (fun s tr => begun s tr /\ at_batch b ids s tr).
Proof. intros s tr s' tr' Hm [Hb Ha]. split; [by eapply kept_begun|by eapply kept_calm]. Qed.

Lemma kept_wrote c : kept c (fun _ => wrote true).
Proof. intros s tr s' tr' Hm Hw. inversion Hm; subst; try done; by apply wrote_app. Qed.

(** A Run that has ended with [r]: its last write hands over its RunEnded, and the Run is
    completed only when that write was taken. *)
Record finished (r : ended) (tr : list act) : Prop := {
  fin_events : exists started middle last,
    handed tr = ERunStarted started :: middle ++ [ERunEnded last] /\ Forall (fun e => plain_event e = true) middle;
  fin_write : exists before after events last answer,
    tr = before ++ Act (WriteEvents FinalCtx (events ++ [ERunEnded last])) answer :: after /\ handed after = [] /\
    (rr_Status r.1 = RunStatusCompleted -> is_ok answer = true) /\
    (is_ok answer = true -> re_Status last = rr_Status r.1);
  fin_error : r.2 = rr_Error r.1 /\ (r.2 = None <-> rr_Status r.1 = RunStatusCompleted);
  fin_calls : exists ids, opens ids tr /\ (ids = [] \/ Exists refusal tr);
}.

Section safety.
Context `{Encoding, Texts, JsonText} (def : sessionDef) (W : act -> Prop).
Context (HW : forall a, W a -> fair a) (Hjson : forall m, json_size m <> None).

(** ** Messages from the queue *)

Lemma dropUncommitted_does c late turn id source taken : does W c late (dropUncommitted def turn id source taken).
Proof. unfold dropUncommitted. walk; apply header_does. Qed.

Lemma commitContinuation_does late turn message source :
  free message = true -> does W Chat late (commitContinuation def turn message source).
Proof.
  intros Hf. unfold commitContinuation. apply does_bind; [apply named_id_does|]. intros id. apply does_bind; [walk|]. intros run.
  cbv zeta. apply does_bind; [apply commitMessage_does; exact Hf|]. intros [u|err].
  - apply does_bind; [apply header_does|]. walk.
  - apply does_bind; [apply dropUncommitted_does|]. walk.
Qed.

Lemma caused_by_free number message : free (caused_by number message) = free message.
Proof. unfold caused_by. destruct (m_Notice message); [|done]. by destruct (N.eqb number 0). Qed.

Lemma commitNotice_does late turn message number causedBy taken :
  free message = true -> does W Chat late (commitNotice def turn message number causedBy taken).
Proof.
  intros Hf. unfold commitNotice. apply does_bind; [apply named_id_does|]. intros id. apply does_bind; [walk|]. intros run.
  cbv zeta. apply does_bind; [apply commitMessage_does; by rewrite caused_by_free|]. intros [u|err].
  - apply does_bind; [apply header_does|]. walk.
  - apply does_bind; [apply dropUncommitted_does|]. walk.
Qed.

Lemma commit_items_does late turn items taken injected :
  Forall (fun item => free (ct_message item) = true) items -> does W Chat late (commit_items def turn items taken injected).
Proof.
  intros Hf. revert taken injected. induction Hf as [|item items Hi Hf IH]; intros taken injected; cbn [commit_items]; [walk|].
  apply does_bind; [unfold commit_item; destruct (is_notice item); [by apply commitNotice_does|by apply commitContinuation_does]|].
  intros [u|err]; [apply IH|walk].
Qed.

Lemma commit_taken_does late turn items :
  Forall (fun item => free (ct_message item) = true) items -> does W Chat late (commit_taken def turn items).
Proof. intros Hf. unfold commit_taken. apply does_bind; [by apply commit_items_does|]. walk. Qed.

Lemma consumeControl_does late turn settling : does W Chat late (consumeControl def turn settling).
Proof. apply does_ask_bind; [done|]. intros items Hi. apply commit_taken_does. by apply HW in Hi. Qed.

Lemma commitQueuedNotices_does late turn : does W Chat late (commitQueuedNotices def turn).
Proof.
  apply does_ask_bind; [done|]. intros items Hi. apply does_try; [apply commit_taken_does; by apply HW in Hi|]. walk.
Qed.

Lemma boundary_does late turn settling : does W Chat late (boundary def turn settling).
Proof. unfold boundary. apply does_try; [apply checkContext_does|]. intros []. apply consumeControl_does. Qed.

Lemma stage_turn_ended_does c late t stop calls outcomes : does W c late (stage_turn_ended def t stop calls outcomes).
Proof. unfold stage_turn_ended. apply does_bind; [apply header_does|]. walk. Qed.

Lemma metrics_does c late : does W c late metrics.
Proof. unfold metrics. walk. Qed.

Lemma drop_items_does c late turn items : does W c late (drop_items def turn items).
Proof. induction items as [|item items IH]; cbn [drop_items]; [walk|]. apply does_bind; [apply header_does|]. walk. Qed.

(** ** The end of a Run *)

(** Between batches, or with the open calls of one that failed. *)
Definition begun_at (b : openBatch) (ids : list ToolCallID) (s : local) (tr : list act) : Prop := begun s tr /\ at_batch b ids s tr.

Lemma calm_begun b ids {A} (m : M A) : does W Calm false m -> triple W (begun_at b ids) m (fun _ => begun_at b ids).
Proof. intros Hm. eapply triple_early; [exact Hm|apply kept_begun_at]. Qed.

(** The last write: what it hands over, and whether it was taken. *)
Definition ends_with (ids : list ToolCallID) (status : RunStatus) (ok : bool) (tr : list act) : Prop :=
  opens ids tr /\
  exists started middle before events last answer,
    tr = before ++ [Act (WriteEvents FinalCtx (events ++ [ERunEnded last])) answer] /\
    handed tr = ERunStarted started :: middle ++ [ERunEnded last] /\ Forall (fun e => plain_event e = true) middle /\
    is_ok answer = ok /\ re_Status last = status.

Lemma end_run_triple b ids turn result stopped :
  triple W (begun_at b ids) (end_run def turn result stopped) (fun r _ tr => ends_with ids (rr_Status result) (is_ok r) tr).
Proof.
  unfold end_run. eapply triple_seq; [apply calm_begun; walk|]. intros keeps.
  eapply triple_seq; [apply calm_begun; destruct keeps; [walk|]; unfold discardControl; apply does_bind; [walk|]; intros ?; apply drop_items_does|].
  intros []. eapply triple_seq; [apply calm_begun; walk|]. intros [].
  eapply triple_seq; [apply calm_begun, metrics_does|]. intros m. eapply triple_seq; [apply calm_begun, header_does|]. intros h.
  intros s tr tr' r s' [(started & middle & He & Hp) [Hb Ho]] _ Hr.
  apply runs_pbind in Hr as (tr1 & [u s1] & tr2 & -> & [-> [= -> ->]] & Hr). cbn [fst snd app] in Hr.
  apply flush_runs in Hr as [_ Hw]. cbn in Hw. destruct (lo_staged s ++ _) as [|e es] eqn:Es; [by destruct (lo_staged s)|].
  destruct Hw as (answer & -> & ->). rewrite <- Es. split.
  - eapply opens_step; [done|done].
  - unfold ended_event. eexists started, middle, tr, (lo_staged s), _, answer. split; [done|]. split.
    + rewrite handed_app. cbn. rewrite app_nil_r, app_assoc, He. done.
    + split; [done|]. split; [by destruct answer|done].
Qed.

Lemma fail_triple err : triple W running (fail def err) (fun r _ tr => finished r tr).
Proof.
  assert (Hkeep : kept Calm running).
  { intros s tr s' tr' Hm [Hb Hc]. split; [by eapply kept_begun|].
    destruct (kept_calm (lo_batch s) (open_of (lo_batch s)) s tr s' tr' Hm) as [Hb' Ho]; [by split|]. unfold calls_ok. by rewrite Hb'. }
  unfold fail. eapply triple_seq; [eapply triple_early; [apply metrics_does|exact Hkeep]|]. intros m.
  do 2 (eapply triple_seq; [eapply triple_early; [walk|exact Hkeep]|]; intros ?). cbv zeta.
  eapply triple_seq; [eapply triple_early; [walk|exact Hkeep]|]. intros turn.
  eapply triple_seq; [apply (triple_and W begun calls_ok); [eapply triple_early; [apply closeOpenCalls_does|apply kept_begun]|by apply closeOpenCalls_triple]|].
  intros []. eapply triple_pre with (P := fun s tr => exists ids, (ids = [] \/ Exists refusal tr) /\ begun_at batch_zero ids s tr).
  2: { intros s tr [Hb (Hz & ids & Ho & Hx)]. by exists ids. }
  apply triple_exists. intros ids s tr tr' r s' [Hx Hs] Hw Hr.
  apply runs_pbind in Hr as (tr1 & [written s1] & tr2 & -> & Hr1 & [-> [= -> ->]]). rewrite app_nil_r in *.
  destruct (end_run_triple batch_zero ids turn _ None s tr tr1 written s1 Hs Hw Hr1) as [Ho (st & mid & before & es & last & answer & Htr & Hh & Hp & Hok & Hst)].
  cbn in Hst. split; cbn [fst snd].
  - by exists st, mid, last.
  - exists before, [], es, last, answer. split; [done|]. split; [done|]. split; [|done].
    unfold failed_status. repeat match goal with |- context [if ?b then _ else _] => destruct b end; done.
  - split; [done|]. split; [done|]. unfold failed_status. repeat match goal with |- context [if ?b then _ else _] => destruct b end; done.
  - exists ids. split; [done|]. destruct Hx as [->|Hx]; [by left|right]. apply Exists_app. by left.
Qed.

Lemma settle_run_triple turn assistant stopped : triple W between (settle_run def turn assistant stopped) (fun r _ tr => finished r tr).
Proof.
  unfold settle_run. eapply triple_seq; [apply calm_begun, metrics_does|]. intros m.
  do 2 (eapply triple_seq; [apply calm_begun; walk|]; intros ?). cbv zeta.
  intros s tr tr' r s' Hs Hw Hr. apply runs_pbind in Hr as (tr1 & [written s1] & tr2 & -> & Hr1 & Hr2).
  apply list.Forall_app in Hw as [Hw1 Hw2].
  destruct (end_run_triple batch_zero [] turn _ stopped s tr tr1 written s1 Hs Hw1 Hr1) as [Ho (st & mid & before & es & last & answer & Htr & Hh & Hp & Hok & Hst)].
  cbn in Hst. destruct written as [u|err]; cbn in Hr2; destruct Hr2 as [-> [= -> ->]]; rewrite app_nil_r; split; cbn [fst snd];
    try (by exists st, mid, last); try (by exists []; split; [|left]); try done.
  - exists before, [], es, last, answer. by repeat split.
  - exists before, [], es, last, answer. split; [done|]. split; [done|]. cbn in Hok. rewrite Hok. by split.
Qed.

(** ** One Turn *)

(** What a Turn leaves: a Run that goes on, or one that has ended. *)
Definition turn_post (r : option ended) (s : local) (tr : list act) : Prop :=
  match r with None => between s tr | Some result => finished result tr end.

Lemma or_fail_triple {A} P (m : attempt A) (k : A -> turn_step) R :
  triple W P m R -> (forall err s tr, R (Err err) s tr -> running s tr) -> (forall a, triple W (R (Ok a)) (k a) turn_post) ->
  triple W P (or_fail def m k) turn_post.
Proof.
  intros Hm HE Hk. unfold or_fail. eapply triple_seq; [exact Hm|]. intros [a|err]; [apply Hk|].
  eapply triple_pre; [|apply HE]. unfold failTurn. eapply triple_seq; [apply fail_triple|]. intros result. by apply triple_done.
Qed.

(** A step between batches, of which something else is known. *)
Lemma chat_or_fail {A} (m : attempt A) (k : A -> turn_step) :
  does W Chat false m -> (forall a, triple W between (k a) turn_post) -> triple W between (or_fail def m k) turn_post.
Proof.
  intros Hm Hk. eapply or_fail_triple; [eapply triple_early; [exact Hm|apply kept_between]|intros err; apply between_running|exact Hk].
Qed.

Lemma chat_bind {A B} (m : M A) (k : A -> M B) Q :
  does W Chat false m -> (forall a, triple W between (k a) Q) -> triple W between (bind m k) Q.
Proof. intros Hm Hk. eapply triple_seq; [eapply triple_early; [exact Hm|apply kept_between]|exact Hk]. Qed.

Lemma settleTurn_triple turn assistant stopped : triple W between (settleTurn def turn assistant stopped) turn_post.
Proof. unfold settleTurn. eapply triple_seq; [apply settle_run_triple|]. intros result. by apply triple_done. Qed.

Lemma go_on_triple : triple W between go_on turn_post.
Proof. by apply triple_done. Qed.

(** A reply of the Model, whole. *)
Definition whole (m : Message) : Prop := m_Role m = RoleAssistant \/ free m = true /\ m_ToolCalls m = [].

Lemma whole_step m : whole m -> message_step [] m = Some (tc_ID <$> m_ToolCalls m).
Proof. intros [Hr|[Hf Hc]]; [unfold message_step; by rewrite Hr|rewrite Hc; by apply free_step]. Qed.

Lemma stopped_for_tools_whole m : whole m -> whole (stopped_for_tools m).
Proof. unfold stopped_for_tools. by destruct (_ && _). Qed.

Lemma open_batch_does late turn assistant : does W Busy late (open_batch turn assistant).
Proof. unfold open_batch. walk. Qed.

Lemma commit_reply_does turn assistant : does W Busy false (commit_reply def turn assistant).
Proof.
  unfold commit_reply. apply does_try; [by apply commit_does|]. intros []. apply does_bind; [apply open_batch_does|]. intros [].
  apply does_bind; [apply header_does|]. walk.
Qed.

(** The batch that a reply opens. *)
Definition batch_of (turn : TurnNumber) (assistant : Message) : openBatch :=
  match m_ToolCalls assistant with [] => batch_zero | calls => MkBatch turn calls 0 ∅ end.

Lemma commit_reply_calls turn assistant :
  whole assistant ->
  triple W (at_batch batch_zero []) (commit_reply def turn assistant)
    (fun r => if is_ok r then at_batch (batch_of turn assistant) (tc_ID <$> m_ToolCalls assistant) else calls_ok).
Proof.
  intros Hm. unfold commit_reply.
  eapply triple_try with (R := fun r => at_batch batch_zero (if is_ok r then tc_ID <$> m_ToolCalls assistant else [])).
  - intros s tr tr' r s' [Hb Ho] _ Hr. apply commit_runs in Hr as (mid & asked & Hp & [(-> & -> & n & ->)|((err & ->) & -> & Htr)]).
    + split; [done|]. rewrite app_assoc. eapply opens_step; [by apply calls_run_plain|]. exact (whole_step assistant Hm).
    + split; [done|]. destruct Htr as [->|[e ->]]; [by apply calls_run_plain|].
      rewrite app_assoc. eapply opens_step; [by apply calls_run_plain|done].
  - intros err s tr Hr. by apply (at_batch_ok batch_zero) in Hr.
  - intros []. cbn [is_ok]. eapply triple_seq with (R := fun _ => at_batch (batch_of turn assistant) (tc_ID <$> m_ToolCalls assistant)).
    { unfold open_batch, batch_of. destruct (m_ToolCalls assistant) eqn:Ec; [by apply triple_done|].
      apply triple_modify. intros s tr [_ Ho]. by split. }
    intros []. eapply triple_seq; [apply triple_calm, header_does|]. intros h.
    eapply triple_seq; [apply triple_calm, does_stage; by repeat constructor|]. intros [].
    eapply triple_weaken; [apply triple_calm, does_flushNumbered|done|]. intros [n|err] s tr Hs; [done|]. cbn [is_ok].
    apply (at_batch_ok (batch_of turn assistant)). destruct Hs as [Hb Ho]. split; [done|]. unfold batch_of, open_of.
    by destruct (m_ToolCalls assistant).
Qed.

Lemma endToolTurn_triple t :
  triple W (fun s tr => begun s tr /\ ready (tn_turn t) (m_ToolCalls (tn_assistant t)) ∅ 0 s tr) (endToolTurn def t) turn_post.
Proof.
  unfold endToolTurn. cbv zeta. eapply or_fail_triple with (R := fun r s tr => begun s tr /\ (if is_ok r then idle s tr else stopped s tr)).
  - intros s tr tr' r s' [Hb [Ha Hw]] HW' Hr. split.
    + eapply (triple_does W Busy true (fun s tr => begun s tr /\ wrote true tr)); [apply runToolBatch_does| | |by split|done|exact Hr].
      * intros s1 tr1 s2 tr2 Hm [Hb1 Hw1]. split; [by eapply kept_begun|by eapply kept_wrote].
      * by intros ?? [_ ?].
    + pose proof (runToolBatch_triple def W HW (tn_turn t) (tn_turn t) (tn_assistant t) s tr tr' r s') as Hq.
      destruct r; by apply Hq.
  - intros err s tr [Hb [Hc _]]. by split.
  - intros settled. cbn [is_ok]. eapply triple_pre with (P := between); [|intros s tr [Hb [Ha _]]; by split].
    apply chat_bind; [apply stage_turn_ended_does|]. intros [].
    apply chat_or_fail; [apply stopTurn_does|]. intros decision. destruct (sd_Stop decision); [apply settleTurn_triple|].
    apply chat_or_fail; [apply boundary_does|]. intros _. apply go_on_triple.
Qed.

Lemma endAnswerTurn_triple t number : triple W between (endAnswerTurn def t number) turn_post.
Proof.
  unfold endAnswerTurn. cbv zeta. apply chat_bind; [apply stage_turn_ended_does|]. intros [].
  apply chat_or_fail; [apply stopTurn_does|]. intros decision. destruct (sd_Stop decision); [apply settleTurn_triple|].
  apply chat_or_fail; [apply boundary_does|]. intros injected. destruct injected; [apply go_on_triple|].
  apply chat_bind; [unfold truncated; walk|]. intros cut. destruct cut; [|apply settleTurn_triple].
  eapply triple_seq with (R := fun _ => between).
  { apply triple_modify. intros s tr [(started & middle & He & Hp) [Hb Ho]]. split; [by exists started, middle|by split]. }
  intros []. apply chat_or_fail; [by apply commitNotice_does|]. intros _. apply go_on_triple.
Qed.

Lemma end_turn_triple t :
  whole (tn_assistant t) -> triple W (fun s tr => between s tr /\ wrote true tr) (end_turn def t) turn_post.
Proof.
  intros Hm. unfold end_turn. cbv zeta. set (t' := t <| tn_assistant := _ |>).
  assert (Hm' : whole (tn_assistant t')) by by apply stopped_for_tools_whole.
  eapply or_fail_triple with (R := fun r s tr => (begun s tr /\ wrote true tr)
    /\ (if is_ok r then at_batch (batch_of (tn_turn t') (tn_assistant t')) (tc_ID <$> m_ToolCalls (tn_assistant t')) s tr else calls_ok s tr)).
  - intros s tr tr' r s' [[Hb Ha] Hw] HW' Hr. split.
    + split; [|by apply wrote_app]. eapply (triple_early W Busy begun); [apply commit_reply_does|apply kept_begun|done|exact HW'|exact Hr].
    + pose proof (commit_reply_calls (tn_turn t') (tn_assistant t') Hm' s tr tr' r s' Ha HW' Hr) as Hq. by destruct r.
  - intros err s tr [[Hb _] Hc]. by split.
  - intros number. cbn [is_ok]. destruct (m_ToolCalls (tn_assistant t')) as [|c cs] eqn:Ec.
    + eapply triple_pre; [apply endAnswerTurn_triple|]. intros s tr [[Hb _] Ha]. unfold batch_of in Ha. rewrite Ec in Ha. by split.
    + eapply triple_pre; [apply endToolTurn_triple|]. intros s tr [[Hb Hw] Ha]. unfold batch_of in Ha. rewrite Ec in Ha.
      split; [done|]. rewrite Ec. by split.
Qed.

Lemma commit_cut_off_does late t cause : free (tn_assistant t) = true -> does W Chat late (commit_cut_off def t cause).
Proof.
  intros Hf. unfold commit_cut_off. destruct (String.eqb _ _); [|walk].
  apply does_bind; [by apply commitMessage_does|]. intros [u|err]; [|walk]. apply does_bind; [apply header_does|]. walk.
Qed.

Lemma afterModelError_triple t err : free (tn_assistant t) = true -> triple W between (afterModelError def t err) turn_post.
Proof.
  intros Hf. unfold afterModelError. apply chat_bind; [unfold interrupted; walk|]. intros cut. destruct cut.
  - apply chat_bind; [by apply commit_cut_off_does|]. intros _. apply chat_bind; [apply stage_turn_ended_does|]. intros [].
    apply chat_or_fail; [apply consumeControl_does|]. intros _. apply go_on_triple.
  - apply chat_bind; [by apply commit_cut_off_does|]. intros kept. apply chat_bind; [destruct kept; walk|]. intros [].
    unfold failTurn. eapply triple_seq; [eapply triple_pre; [apply fail_triple|apply between_running]|]. intros result. by apply triple_done.
Qed.

Lemma runTurn_triple turn runStart : triple W between (runTurn def turn runStart) turn_post.
Proof.
  unfold runTurn. apply chat_or_fail; [apply checkContext_does|]. intros [].
  eapply triple_seq with (R := fun _ => between).
  { unfold start_turn. eapply triple_seq with (R := fun _ => between).
    - apply triple_modify. intros s tr [(started & middle & He & Hp) [Hb Ho]]. split; [by exists started, middle|by split].
    - intros []. eapply triple_early; [|apply kept_between]. apply does_bind; [walk|]. intros []. apply does_bind; [apply header_does|]. walk. }
  intros []. apply chat_or_fail; [apply refreshToolsInRun_does|]. intros [].
  apply chat_or_fail; [apply commitQueuedNotices_does|]. intros [].
  eapply or_fail_triple with (R := fun r s tr => (match r with Ok answer => reply_fine answer | Err _ => True end) /\ (is_ok r = true -> wrote true tr) /\ between s tr).
  - intros s tr tr' r s' Hb HW' Hr. split; [by eapply callModel_fine|].
    exact (triple_spec W Chat between _ _ _ (callModel_spec def W turn runStart) kept_between s tr tr' r s' (conj I Hb) HW' Hr).
  - intros err s tr (_ & _ & Hb). by apply between_running.
  - intros answer. cbn [is_ok]. apply triple_pure. intros [Hwhole Hfree]. destruct (replyBytes _) as [text reasoning].
    eapply triple_pre with (P := fun s tr => between s tr /\ wrote true tr); [|intros s tr [Hw Hb]; split; [done|by apply Hw]].
    eapply triple_seq with (R := fun _ s tr => between s tr /\ wrote true tr).
    { apply triple_modify. intros s tr [[(started & middle & He & Hp) [Hb Ho]] Hw]. split; [|done]. split; [by exists started, middle|by split]. }
    intros []. cbv zeta. destruct answer.2 as [err|] eqn:Ee.
    + eapply triple_pre; [apply afterModelError_triple; cbn; apply Hfree; by eexists|by intros s tr [Hb _]].
    + by apply end_turn_triple.
Qed.

(** ** The Run *)

Lemma run_turns_triple fuel turn runStart : triple W between (run_turns def fuel turn runStart) turn_post.
Proof.
  revert turn. induction fuel as [|fuel IH]; intros turn; cbn [run_turns]; [apply go_on_triple|].
  eapply triple_seq; [apply runTurn_triple|]. intros [result|]; [by apply triple_done|apply IH].
Qed.

Lemma prepare_run_does started prompt :
  (forall m, prompt = Some m -> free m = true) -> does W Chat false (prepare_run def started prompt).
Proof.
  intros Hf. unfold prepare_run. apply does_try; [walk|]. intros []. apply does_bind; [apply header_does|]. intros h.
  apply does_try; [apply refreshToolSets_does|]. intros []. apply does_try; [by apply transcript_does|]. intros len.
  apply does_try; [apply measure_does|]. intros []. apply does_try; [|walk]. destruct prompt as [m|]; [|walk].
  unfold commitPrompt. apply does_bind; [apply named_id_does|]. intros id. apply does_bind; [walk|]. intros run. cbv zeta.
  apply does_try; [apply commitMessage_does; exact (Hf m eq_refl)|]. intros []. apply does_bind; [apply header_does|]. walk.
Qed.

(** Nothing is written, staged or appended yet. *)
Definition fresh (s : local) (tr : list act) : Prop := lo_staged s = [] /\ handed tr = [] /\ opens [] tr.

Lemma fresh_ask {X} (o : op X) (R : X -> assertion) :
  kind_of o = PlainOp -> (forall x s tr, fresh s tr -> R x s tr) -> triple W fresh (ask o) R.
Proof.
  intros Ho HR. apply triple_ask. intros x s tr (Hs & Hh & Hop) _. apply HR. split; [done|].
  split; [rewrite handed_app, Hh; by destruct o|]. eapply opens_step; [done|]. apply plain_step. by left.
Qed.

Definition set_up (s : local) (tr : list act) : Prop := fresh s tr /\ lo_batch s = batch_zero.

Lemma set_up_ask {X} (o : op X) : kind_of o = PlainOp -> triple W set_up (ask o) (fun _ => set_up).
Proof.
  intros Ho. intros s tr tr' x s' [Hf Hb] HW' Hr. split; [by eapply (fresh_ask o (fun _ => fresh)); eauto|].
  by destruct Hr as (y & rest & -> & [-> [= -> ->]]).
Qed.

Lemma onRunStart_triple id : triple W set_up (onRunStart def id) (fun _ => set_up).
Proof.
  unfold onRunStart. destruct (df_onRunStart def); [|by apply triple_done].
  eapply triple_seq; [by apply set_up_ask|]. intros [u|err]; by apply triple_done.
Qed.

Lemma beginRun_triple : triple W fresh (beginRun def) (fun _ => set_up).
Proof.
  unfold beginRun. eapply triple_seq; [apply (fresh_ask _ (fun _ => fresh)); done|]. intros id.
  eapply triple_seq with (R := fun _ => set_up); [by apply triple_modify|]. intros [].
  eapply triple_seq; [by apply set_up_ask|]. intros []. apply onRunStart_triple.
Qed.

(** Unregistering the Run changes nothing of this. *)
Lemma finished_end r tr : finished r tr -> finished r (tr ++ [Act EndRun tt]).
Proof.
  intros [(st & mid & last & Hh & Hp) (before & after & es & l & answer & -> & Ha & Hok) He (ids & Ho & Hx)]. split.
  - exists st, mid, last. by rewrite handed_app, app_nil_r.
  - exists before, (after ++ [Act EndRun tt]), es, l, answer. rewrite <- app_assoc. split; [done|]. by rewrite handed_app, app_nil_r.
  - done.
  - exists ids. split; [by eapply opens_step|]. destruct Hx as [->|Hx]; [by left|right]. apply Exists_app. by left.
Qed.

(** A Run that came to an end, or that has used its fuel between two Turns. *)
Definition run_post (r : option ended) (tr : list act) : Prop :=
  match r with None => opens [] tr | Some result => finished result tr end.

Lemma executeRun_triple fuel prompt :
  (forall m, prompt = Some m -> free m = true) -> triple W fresh (executeRun def fuel prompt) (fun r _ tr => run_post r tr).
Proof.
  intros Hf. unfold executeRun. eapply triple_seq; [apply beginRun_triple|]. intros started.
  eapply triple_seq with (R := fun _ => set_up).
  { unfold header. eapply triple_seq; [by apply set_up_ask|]. intros now. eapply triple_seq with (R := fun _ => set_up).
    - eapply triple_weaken; [apply triple_get|done|by intros ??? [? _]].
    - intros run. by apply triple_done. }
  intros h. eapply triple_seq with (R := fun _ => between).
  { apply triple_modify. intros s tr [(Hs & Hh & Ho) Hb]. split; [|by split]. eexists _, []. split; [|constructor].
    cbn. by rewrite Hh, Hs. }
  intros []. eapply triple_seq with (R := fun r s tr => run_post r tr).
  { eapply triple_weaken; [apply chat_or_fail; [by apply prepare_run_does|intros runStart; apply run_turns_triple]|done|].
    intros [r|] s tr Hr; [done|]. by destruct Hr as [_ [_ Ho]]. }
  intros result. eapply triple_seq with (R := fun _ s tr => run_post result tr); [|intros []; by apply triple_done].
  apply triple_ask. intros [] s tr Hr _. destruct result; [by apply finished_end|by eapply opens_step].
Qed.

End safety.

Lemma user_free m : m_Role m = RoleUser -> free m = true.
Proof. intros Hr. unfold free. by rewrite Hr. Qed.

Lemma executeRun_post `{Encoding, Texts, JsonText} def fuel prompt s tr r s' :
  (forall m, json_size m <> None) -> (forall m, prompt = Some m -> m_Role m = RoleUser) -> lo_staged s = [] ->
  Forall fair tr -> runs (executeRun def fuel prompt s) tr (r, s') -> run_post r tr.
Proof.
  intros Hj Hp Hs Hw Hr.
  apply (executeRun_triple def fair (fun a Ha => Ha) Hj fuel prompt (fun m Hm => user_free m (Hp m Hm)) s [] tr r s'); [|done|done].
  by split.
Qed.

(** C7: Whatever the Model, the Tools, the extensions and the Transcript answer, a Run hands its
    Events to the Journal between one RunStarted, the first, and one RunEnded, the last, in
    the write that ends the Run; the RunEnded says how the Run ended, and the Run is Completed
    only when that write was taken. *)
Theorem run_events_bracketed `{Encoding, Texts, JsonText} def fuel prompt s tr result s' :
  (forall m, json_size m <> None) -> (forall m, prompt = Some m -> m_Role m = RoleUser) -> lo_staged s = [] ->
  Forall fair tr -> runs (executeRun def fuel prompt s) tr (Some result, s') ->
  exists started middle last,
    handed tr = ERunStarted started :: middle ++ [ERunEnded last] /\ Forall (fun e => plain_event e = true) middle /\
    exists before after events answer,
      tr = before ++ Act (WriteEvents FinalCtx (events ++ [ERunEnded last])) answer :: after /\ handed after = [] /\
      (rr_Status result.1 = RunStatusCompleted -> is_ok answer = true) /\
      (is_ok answer = true -> re_Status last = rr_Status result.1) /\
      (result.2 = None <-> rr_Status result.1 = RunStatusCompleted).
Proof.
  intros Hj Hp Hs Hw Hr. destruct (executeRun_post def fuel prompt s tr (Some result) s' Hj Hp Hs Hw Hr)
    as [(st & mid & last & Hh & Hm) (before & after & es & l & answer & Htr & Ha & Hok & Hst) [_ Herr] _].
  exists st, mid, last. split; [done|]. split; [done|]. exists before, after, es, answer.
  assert (l = last) as ->.
  { rewrite Htr, handed_app in Hh. cbn in Hh. fold (handed after) in Hh. rewrite Ha, app_nil_r, app_assoc in Hh.
    change (ERunStarted st :: mid ++ [ERunEnded last]) with ((ERunStarted st :: mid) ++ [ERunEnded last]) in Hh.
    apply app_inj_tail in Hh as [_ [=]]. done. }
  done.
Qed.

(** C6: In the Messages a Run appends to the Transcript, a reply that asks for Tools is followed
    by one result for each of its calls, in their order and with nothing between, and the
    Model is asked, and its request built or prepared, only when no call is open; this holds
    however the Run ends, unless the Transcript itself failed or refused a Message. *)
Theorem run_answers_every_call `{Encoding, Texts, JsonText} def fuel prompt s tr r s' :
  (forall m, json_size m <> None) -> (forall m, prompt = Some m -> m_Role m = RoleUser) -> lo_staged s = [] ->
  Forall fair tr -> runs (executeRun def fuel prompt s) tr (r, s') ->
  exists open, calls_run [] tr = Some open /\ (open = [] \/ Exists refusal tr).
Proof.
  intros Hj Hp Hs Hw Hr. pose proof (executeRun_post def fuel prompt s tr r s' Hj Hp Hs Hw Hr) as Hq.
  destruct r as [result|]; [destruct Hq as [_ _ _ Hc]; exact Hc|]. exists []. split; [exact Hq|by left].
Qed.

#[local] Existing Instances sample_encoding sample_texts sample_json.

(** The sample run: a prompt, a reply with three calls, their results, an answer. *)
Lemma run_events_bracketed_witness :
  exists result s', runs (executeRun sample_def 3 (Some sample_prompt) sample_local) sample_run.1 (Some result, s') /\
  exists started middle last,
    handed sample_run.1 = ERunStarted started :: middle ++ [ERunEnded last] /\ Forall (fun e => plain_event e = true) middle /\
    exists before after events answer,
      sample_run.1 = before ++ Act (WriteEvents FinalCtx (events ++ [ERunEnded last])) answer :: after /\ handed after = [] /\
      (rr_Status result.1 = RunStatusCompleted -> is_ok answer = true) /\
      (is_ok answer = true -> re_Status last = rr_Status result.1) /\
      (result.2 = None <-> rr_Status result.1 = RunStatusCompleted).
Proof.
  destruct sample_run_answers as (result & s' & Hr). exists result, s'. split; [exact Hr|].
  apply (run_events_bracketed sample_def 3 (Some sample_prompt) sample_local sample_run.1 result s');
    [intros ?; discriminate|by intros m [= <-]|reflexivity|apply sample_run_fair|exact Hr].
Defined.

Lemma run_answers_every_call_witness :
  runs (executeRun sample_def 3 (Some sample_prompt) sample_local) sample_run.1 sample_run.2 /\
  exists open, calls_run [] sample_run.1 = Some open /\ (open = [] \/ Exists refusal sample_run.1).
Proof.
  split; [apply sample_run_runs|].
  apply (run_answers_every_call sample_def 3 (Some sample_prompt) sample_local sample_run.1 sample_run.2.1 sample_run.2.2);
    [intros ?; discriminate|by intros m [= <-]|reflexivity|apply sample_run_fair|].
  rewrite <- surjective_pairing. apply sample_run_runs.
Defined.
