(* ===== verification/RunProgress.v ===== *)
(** * Why a Run goes on

    A Turn that does not end its Run has a reason: Tools were called, a message was
    waiting, the call was interrupted, or the reply was cut at its output limit and may be
    continued, which is counted.  A Run in which the reasons end, ends. *)

From S2P Require Import Prelude GoStrings Text Ref Errors Types Events Request Schema ToolRegistry Reply ControlQueue Session ToolBatch RunLoop RunSpec RunMoves RunCalls RunSample RunSafety.
Local Open Scope string_scope.
Local Open Scope list_scope.

(** What makes a Run go on: a reply with Tool calls was committed, messages were taken, or an
    Interrupt was waiting. *)
Definition reason (a : act) : bool :=
  match a with Act o x =>
    match o in op X return X -> bool with
    | TrAppend m => fun answer => is_ok answer && negb (bool_decide (m_ToolCalls m = []))
    | TakeMessages _ => fun items => negb (bool_decide (items = []))
    | Interrupting => fun answer => answer
    | _ => fun _ => false
    end x
  end.

Fixpoint reasons (tr : list act) : nat :=
  match tr with [] => 0 | a :: rest => (if reason a then 1 else 0) + reasons rest end.

Lemma reasons_app tr tr' : reasons (tr ++ tr') = (reasons tr + reasons tr')%nat.
Proof. induction tr as [|a tr IH]; cbn; [done|]. rewrite IH. lia. Qed.

Section progress.
Context `{Encoding, Texts, JsonText} (def : sessionDef) (W : act -> Prop).
Context (HW : forall a, W a -> fair a).

Definition most : N := lm_MaxTruncatedContinuations (df_limits def).
Context (Hmost : (most < 2 ^ 32)%N).

(** [n] Turns went on, each for a reason or as a continuation that was counted. *)
Definition spent (n : nat) (s : local) (tr : list act) : Prop :=
  (n <= reasons tr + N.to_nat (lo_truncated s))%nat /\ (lo_truncated s <= most)%N.

Lemma spent_same n s s' tr : lo_truncated s' = lo_truncated s -> spent n s tr -> spent n s' tr.
Proof. unfold spent. by intros ->. Qed.

Lemma spent_more n s tr tr' : spent n s tr -> spent n s (tr ++ tr').
Proof. unfold spent. rewrite reasons_app. lia. Qed.

Lemma spent_reason n s tr a : reason a = true -> spent n s tr -> spent (S n) s (tr ++ [a]).
Proof. intros Ha. unfold spent. rewrite reasons_app. cbn. rewrite Ha. lia. Qed.

Lemma kept_spent c n : kept c (spent n).
Proof.
  intros s tr s' tr' Hm Hs. inversion Hm; subst.
  - by apply spent_more.
  - by eapply spent_same.
  - apply spent_more. by eapply spent_same.
  - by apply spent_more.
  - by apply spent_more.
  - match goal with Hc : same_core _ _ |- _ => destruct Hc as [_ _ _ Ht _] end. by eapply spent_same.
  - match goal with Hc : same_core _ _ |- _ => destruct Hc as [_ _ _ Ht _] end. by eapply spent_same.
Qed.

(** *** Steps of a Turn *)

(** A Turn that goes on has spent one more. *)
Definition goes_on (n : nat) (r : option ended) (s : local) (tr : list act) : Prop := r = None -> spent n s tr.

Lemma failTurn_goes n P err : triple W P (failTurn def err) (goes_on n).
Proof.
  intros s tr tr' r s' _ _ Hr. apply runs_pbind in Hr as (tr1 & [e s1] & tr2 & -> & _ & [-> [= -> ->]]). by intros [=].
Qed.

Lemma settleTurn_goes n P turn assistant stopped : triple W P (settleTurn def turn assistant stopped) (goes_on n).
Proof.
  intros s tr tr' r s' _ _ Hr. apply runs_pbind in Hr as (tr1 & [e s1] & tr2 & -> & _ & [-> [= -> ->]]). by intros [=].
Qed.

Lemma or_fail_goes n {A} P (m : attempt A) (k : A -> turn_step) R :
  triple W P m R -> (forall a, triple W (R (Ok a)) (k a) (goes_on n)) -> triple W P (or_fail def m k) (goes_on n).
Proof. intros Hm Hk. eapply triple_seq; [exact Hm|]. intros [a|err]; [apply Hk|apply failTurn_goes]. Qed.

(** A step that is no reason. *)
Lemma early_fail c n k {A} (m : attempt A) (f : A -> turn_step) :
  does W c false m -> (forall a, triple W (spent n) (f a) (goes_on k)) -> triple W (spent n) (or_fail def m f) (goes_on k).
Proof. intros Hm Hk. eapply or_fail_goes; [eapply triple_early; [exact Hm|apply kept_spent]|]. exact Hk. Qed.

Lemma early_bind c n {A B} (m : M A) (f : A -> M B) Q :
  does W c false m -> (forall a, triple W (spent n) (f a) Q) -> triple W (spent n) (bind m f) Q.
Proof. intros Hm Hk. eapply triple_seq; [eapply triple_early; [exact Hm|apply kept_spent]|exact Hk]. Qed.

Lemma modify_spent n f : (forall s, lo_truncated (f s) = lo_truncated s) -> triple W (spent n) (modify f) (fun _ => spent n).
Proof. intros Hf. apply triple_modify. intros s tr Hs. eapply spent_same; [apply Hf|exact Hs]. Qed.

Lemma go_on_goes n : triple W (spent n) go_on (goes_on n).
Proof. apply triple_done. by intros s tr Hs _. Qed.

(** Messages that were taken are a reason. *)
Lemma consumeControl_goes n turn settling :
  triple W (spent n) (consumeControl def turn settling) (fun r s tr => spent n s tr /\ (r = Ok true -> spent (S n) s tr)).
Proof.
  intros s tr tr' r s' Hs Hw (items & rest & -> & Hr). inversion Hw as [|? ? Hi Hw']; subst.
  assert (Hd : does W Chat false (commit_taken def turn items)) by (apply commit_taken_does; by apply HW in Hi).
  split.
  - rewrite cons_middle, app_assoc. eapply (triple_early W Chat (spent n) _ Hd (kept_spent Chat n)); [|done|exact Hr]. by apply spent_more.
  - intros ->. destruct items as [|item items].
    + destruct Hr as (x & rest' & -> & [-> [=]]).
    + rewrite cons_middle, app_assoc. eapply (triple_early W Chat (spent (S n)) _ Hd (kept_spent Chat (S n))); [|done|exact Hr]. by apply spent_reason.
Qed.

Lemma boundary_goes n turn settling :
  triple W (spent n) (boundary def turn settling) (fun r s tr => spent n s tr /\ (r = Ok true -> spent (S n) s tr)).
Proof.
  unfold boundary. eapply triple_try; [eapply triple_early; [apply (checkContext_does W Chat)|apply kept_spent]| |].
  - by intros err s tr Hs.
  - intros []. apply consumeControl_goes.
Qed.

(** A reply with Tool calls is one, once it is committed. *)
Lemma commit_reply_goes n turn assistant :
  triple W (spent n) (commit_reply def turn assistant)
    (fun r s tr => spent n s tr /\ (is_ok r = true -> m_ToolCalls assistant <> [] -> spent (S n) s tr)).
Proof.
  unfold commit_reply. eapply triple_try with
    (R := fun r s tr => spent n s tr /\ (is_ok r = true -> m_ToolCalls assistant <> [] -> spent (S n) s tr)).
  - intros s tr tr' r s' Hs _ Hr. apply commit_runs in Hr as (id & asked & _ & [(-> & -> & k & ->)|((err & ->) & -> & _)]).
    + assert (Hs' : spent n (s <| lo_size := k |>) tr) by (by eapply spent_same). split; [by apply spent_more|].
      intros _ Hc. rewrite app_assoc. apply spent_reason; [|by apply spent_more]. cbn. by rewrite bool_decide_false.
    + split; [by apply spent_more|by intros [=]].
  - by intros err s tr [Hs _].
  - intros []. cbn [is_ok].
    assert (Hd : does W Busy false (open_batch turn assistant ;; do! h := header def turn in stage [reply_ended h assistant] ;; flushNumbered RunCtx EventKindReplyEnded)).
    { apply does_bind; [apply open_batch_does|]. intros []. apply does_bind; [apply header_does|]. walk. }
    intros s tr tr' r s' [Hs Hc] Hw Hr. split; [by eapply (triple_early W Busy (spent n) _ Hd (kept_spent Busy n))|].
    intros _ Hcalls. eapply (triple_early W Busy (spent (S n)) _ Hd (kept_spent Busy (S n))); [|done|exact Hr]. by apply Hc.
Qed.

(** An Interrupt is one. *)
Lemma interrupted_goes n err :
  triple W (spent n) (interrupted err) (fun cut s tr => spent n s tr /\ (cut = true -> spent (S n) s tr)).
Proof.
  unfold interrupted. destruct (String.eqb _ _); [|by apply triple_done].
  eapply triple_seq; [apply triple_ask with (Q := fun _ => spent n); intros x s tr Hs _; by apply spent_more|].
  intros [e|]; [by apply triple_done|]. apply triple_ask. intros cut s tr Hs _. split; [by apply spent_more|].
  intros ->. by apply spent_reason.
Qed.

(** A continuation is counted, and never past its limit. *)
Lemma truncated_goes n assistant {A} (k : M A) (other : M A) Q :
  triple W (spent (S n)) k Q -> triple W (spent n) other Q ->
  triple W (spent n) (do! cut := truncated def assistant in
    if cut then modify (fun s => s <| lo_truncated := u32_add (lo_truncated s) 1 |>) ;; k else other) Q.
Proof.
  intros Hk Ho. unfold truncated. eapply triple_seq with (R := fun cut s tr => spent n s tr /\ (cut = true -> (lo_truncated s < most)%N)).
  - intros s tr tr' cut s' Hs _ Hr. destruct Hr as [-> [= -> ->]]. rewrite app_nil_r. split; [done|].
    intros [_ Hc]%andb_true_iff. by apply N.ltb_lt in Hc.
  - intros [|]; [|eapply triple_pre; [exact Ho|by intros s tr [? _]]].
    eapply triple_seq with (R := fun _ => spent (S n)); [|by intros []].
    apply triple_modify. intros s tr [[Hn Hl] Hc]. specialize (Hc eq_refl). unfold spent. cbn.
    unfold u32_add, u32. rewrite N.mod_small; [|lia]. lia.
Qed.

(** *** One Turn *)

Lemma boundary_on n turn settling (k : bool -> turn_step) :
  triple W (spent (S n)) (k true) (goes_on (S n)) -> triple W (spent n) (k false) (goes_on (S n)) ->
  triple W (spent n) (or_fail def (boundary def turn settling) k) (goes_on (S n)).
Proof.
  intros Ht Hf. eapply or_fail_goes; [apply boundary_goes|]. intros [|].
  - eapply triple_pre; [exact Ht|]. intros s tr [_ Hs]. by apply Hs.
  - eapply triple_pre; [exact Hf|]. by intros s tr [Hs _].
Qed.

Lemma endAnswerTurn_goes n t number : triple W (spent n) (endAnswerTurn def t number) (goes_on (S n)).
Proof.
  unfold endAnswerTurn. cbv zeta. apply (early_bind Chat); [apply stage_turn_ended_does|]. intros [].
  apply (early_fail Chat); [apply stopTurn_does|]. intros decision. destruct (sd_Stop decision); [apply settleTurn_goes|].
  apply boundary_on; [apply go_on_goes|]. apply truncated_goes; [|apply settleTurn_goes].
  apply (early_fail Chat); [by apply commitNotice_does|]. intros _. apply go_on_goes.
Qed.

Lemma endToolTurn_goes n t :
  triple W (fun s tr => spent n s tr /\ wrote true tr) (endToolTurn def t) (goes_on n).
Proof.
  unfold endToolTurn. cbv zeta. eapply or_fail_goes with (R := fun _ => spent n).
  - eapply triple_weaken; [eapply (triple_does W Busy true (fun s tr => spent n s tr /\ wrote true tr)); [apply runToolBatch_does| |]|done|].
    + intros s tr s' tr' Hm [Hs Hl]. split; [by eapply kept_spent|by eapply kept_wrote].
    + by intros ?? [_ ?].
    + by intros ??? [? _].
  - intros settled. apply (early_bind Chat); [apply stage_turn_ended_does|]. intros [].
    apply (early_fail Chat); [apply stopTurn_does|]. intros decision. destruct (sd_Stop decision); [apply settleTurn_goes|].
    apply (early_fail Chat); [by apply boundary_does|]. intros _. apply go_on_goes.
Qed.

Lemma end_turn_goes n t : triple W (fun s tr => spent n s tr /\ wrote true tr) (end_turn def t) (goes_on (S n)).
Proof.
  unfold end_turn. cbv zeta. set (t' := t <| tn_assistant := _ |>).
  eapply or_fail_goes with (R := fun r s tr => (spent n s tr /\ (is_ok r = true -> m_ToolCalls (tn_assistant t') <> [] -> spent (S n) s tr)) /\ wrote true tr).
  - intros s tr tr' r s' [Hs Hl] Hw Hr. split; [by eapply commit_reply_goes|by apply wrote_app].
  - intros number. cbn [is_ok]. destruct (m_ToolCalls (tn_assistant t')) as [|c cs].
    + eapply triple_pre; [apply endAnswerTurn_goes|]. by intros s tr [[Hs _] _].
    + eapply triple_pre; [apply endToolTurn_goes|]. intros s tr [[_ Hs] Hl]. by split; [apply Hs|].
Qed.

Lemma afterModelError_goes n t err :
  free (tn_assistant t) = true -> triple W (spent n) (afterModelError def t err) (goes_on (S n)).
Proof.
  intros Hf. unfold afterModelError. eapply triple_seq; [apply interrupted_goes|]. intros [|].
  - eapply triple_pre with (P := spent (S n)); [|intros s tr [_ Hs]; by apply Hs].
    apply (early_bind Chat); [by apply commit_cut_off_does|]. intros _.
    apply (early_bind Chat); [apply stage_turn_ended_does|]. intros [].
    apply (early_fail Chat); [by apply consumeControl_does|]. intros _. apply go_on_goes.
  - eapply triple_pre with (P := spent n); [|by intros s tr [Hs _]].
    apply (early_bind Chat); [by apply commit_cut_off_does|]. intros kept.
    apply (early_bind Chat); [destruct kept; walk|]. intros []. apply failTurn_goes.
Qed.

Lemma start_turn_spent n turn : triple W (spent n) (start_turn def turn) (fun _ => spent n).
Proof.
  unfold start_turn. eapply triple_seq; [by apply modify_spent|]. intros []. eapply triple_early; [|apply (kept_spent Chat)].
  apply does_bind; [walk|]. intros []. apply does_bind; [apply header_does|]. walk.
Qed.

Lemma runTurn_goes n turn runStart : triple W (spent n) (runTurn def turn runStart) (goes_on (S n)).
Proof.
  unfold runTurn. apply (early_fail Chat); [apply checkContext_does|]. intros [].
  eapply triple_seq; [apply start_turn_spent|]. intros [].
  apply (early_fail Chat); [apply refreshToolsInRun_does|]. intros [].
  apply (early_fail Chat); [by apply commitQueuedNotices_does|]. intros [].
  eapply or_fail_goes with (R := fun r s tr => (match r with Ok answer => reply_fine answer | Err _ => True end) /\ (is_ok r = true -> wrote true tr) /\ spent n s tr).
  - intros s tr tr' r s' Hs Hw Hr. split; [by eapply callModel_fine|].
    exact (triple_spec W Chat (spent n) _ _ _ (callModel_spec def W turn runStart) (kept_spent Chat n) s tr tr' r s' (conj I Hs) Hw Hr).
  - intros answer. cbn [is_ok]. apply triple_pure. intros [_ Hfree]. destruct (replyBytes _) as [text reasoning].
    eapply triple_seq with (R := fun _ s tr => spent n s tr /\ wrote true tr).
    { apply triple_modify. intros s tr [Hl Hs]. split; [|by apply Hl]. by eapply spent_same. }
    intros []. cbv zeta. destruct answer.2 as [err|] eqn:Ee; [|apply end_turn_goes].
    eapply triple_pre; [apply afterModelError_goes; cbn; apply Hfree; by eexists|by intros s tr [Hs _]].
Qed.

Lemma run_turns_goes fuel n turn runStart : triple W (spent n) (run_turns def fuel turn runStart) (goes_on (fuel + n)).
Proof.
  revert n turn. induction fuel as [|fuel IH]; intros n turn; cbn [run_turns]; [apply go_on_goes|].
  eapply triple_seq; [apply runTurn_goes|]. intros [result|].
  - apply triple_done. by intros s tr _ [=].
  - eapply triple_weaken; [apply (IH (S n))|intros s tr Hs; by apply Hs|].
    intros r s tr Hg. by rewrite Nat.add_succ_r in Hg.
Qed.

(** *** The Run *)

Lemma beginRun_spent : triple W (fun _ _ => True) (beginRun def) (fun _ => spent 0).
Proof.
  unfold beginRun. eapply triple_seq with (R := fun _ _ _ => True); [by apply triple_ask|]. intros id.
  eapply triple_seq with (R := fun _ => spent 0); [apply triple_modify; intros s tr _; split; cbn; lia|]. intros [].
  eapply triple_early; [|apply (kept_spent Chat)]. apply does_bind; [walk|]. intros [].
  unfold onRunStart. destruct (df_onRunStart def); walk.
Qed.

Lemma executeRun_goes fuel prompt :
  (forall m, prompt = Some m -> free m = true) ->
  triple W (fun _ _ => True) (executeRun def fuel prompt) (goes_on fuel).
Proof.
  intros Hf. unfold executeRun. eapply triple_seq; [apply beginRun_spent|]. intros started.
  apply (early_bind Chat); [apply header_does|]. intros h.
  eapply triple_seq; [by apply modify_spent|]. intros [].
  eapply triple_seq with (R := goes_on fuel).
  - apply (early_fail Chat); [by apply prepare_run_does|]. intros runStart.
    rewrite <- (Nat.add_0_r fuel) at 2. apply run_turns_goes.
  - intros result. eapply triple_seq with (R := fun _ => goes_on fuel result); [|by intros []; apply triple_done].
    apply triple_ask. intros [] s tr Hg _ Hr. apply spent_more. by apply Hg.
Qed.

End progress.

(** C9: A Run ends: with fuel for one Turn more than the Turns that had a reason to go on (a
    committed reply with Tool calls, messages taken from the queue, an Interrupt) and the
    continuations of cut replies that the limits allow, the Loop comes to its end, whatever
    the Model, the Tools, the extensions and the Transcript answer. *)
Theorem run_settles `{Encoding, Texts, JsonText} def fuel prompt s tr r s' :
  (forall m, prompt = Some m -> m_Role m = RoleUser) ->
  (lm_MaxTruncatedContinuations (df_limits def) < 2 ^ 32)%N ->
  Forall fair tr -> runs (executeRun def fuel prompt s) tr (r, s') ->
  (reasons tr + N.to_nat (lm_MaxTruncatedContinuations (df_limits def)) < fuel)%nat ->
  is_Some r.
Proof.
  intros Hp Hm Hw Hr Hfuel. destruct r as [result|]; [by eexists|]. exfalso.
  destruct (executeRun_goes def fair (fun a Ha => Ha) Hm fuel prompt (fun m Hq => user_free m (Hp m Hq)) s [] tr None s' I Hw Hr eq_refl)
    as [Hn Ht]. cbn [app] in Hn. unfold most in Ht. lia.
Qed.

#[local] Existing Instances sample_encoding sample_texts sample_json.

(** The sample run has one reason, and its limits allow no continuation. *)
Lemma run_settles_witness :
  runs (executeRun sample_def 3 (Some sample_prompt) sample_local) sample_run.1 sample_run.2 /\
  (reasons sample_run.1 + N.to_nat (lm_MaxTruncatedContinuations (df_limits sample_def)) < 3)%nat /\ is_Some sample_run.2.1.
Proof.
  split; [apply sample_run_runs|].
  assert (Hr : (reasons sample_run.1 + N.to_nat (lm_MaxTruncatedContinuations (df_limits sample_def)) < 3)%nat)
    by (apply Nat.ltb_lt; vm_compute; reflexivity).
  split; [exact Hr|].
  apply (run_settles sample_def 3 (Some sample_prompt) sample_local sample_run.1 sample_run.2.1 sample_run.2.2);
    [by intros m [= <-]|by vm_compute|apply sample_run_fair| |exact Hr].
  rewrite <- surjective_pairing. apply sample_run_runs.
Defined.
