(* ===== verification/RunTools.v ===== *)
(** * When a Tool runs

    The Tools that a batch starts: each call was resolved, checked and let through, its
    ToolStarted is stored, and the Run was not canceled when its group began. *)

From S2P Require Import Prelude GoStrings Text Ref Errors Types Events Request Schema ToolRegistry Reply ControlQueue Session ToolBatch RunLoop RunSpec RunMoves RunCalls RunSample.
Local Open Scope string_scope.
Local Open Scope list_scope.

(** ** The launches of a run *)

Definition launched_by (a : act) : list (list toolPlan) :=
  match a with Act o _ => match o with Launch plans => [plans] | _ => [] end end.

Definition launched (tr : list act) : list (list toolPlan) := tr ≫= launched_by.

Lemma launched_app tr tr' : launched (tr ++ tr') = launched tr ++ launched tr'.
Proof. apply bind_app. Qed.

(** A program that starts no Tool. *)
Definition quiet {A} (m : M A) : Prop := forall s tr a s', runs (m s) tr (a, s') -> launched tr = [].

Lemma quiet_bind {A B} (m : M A) (k : A -> M B) : quiet m -> (forall a, quiet (k a)) -> quiet (bind m k).
Proof.
  intros Hm Hk s tr b s' Hr. apply runs_pbind in Hr as (tr1 & [a s1] & tr2 & -> & H1 & H2).
  rewrite launched_app, (Hm _ _ _ _ H1). exact (Hk _ _ _ _ _ H2).
Qed.

Lemma quiet_ret {A} (a : A) : quiet (ret a).
Proof. by intros s tr b s' [-> _]. Qed.

Lemma quiet_get {A} (f : local -> A) : quiet (get f).
Proof. by intros s tr b s' [-> _]. Qed.

Lemma quiet_modify f : quiet (modify f).
Proof. by intros s tr b s' [-> _]. Qed.

Lemma quiet_ask {X} (o : op X) : kind_of o <> ToolOp -> quiet (ask o).
Proof. intros Ho s tr x s' (y & rest & -> & -> & _). by destruct o. Qed.

Lemma quiet_try {A B} (m : attempt A) (k : A -> attempt B) : quiet m -> (forall a, quiet (k a)) -> quiet (try_bind m k).
Proof. intros Hm Hk. apply quiet_bind; [exact Hm|]. intros [a|err]; [apply Hk|apply quiet_ret]. Qed.

(** A calm program starts none; it may be one that writes late, since what came before it is
    of no matter. *)
Lemma move_quiet x y : move Calm x y -> launched x.2 = [] -> launched y.2 = [].
Proof.
  intros [] Hx; cbn [snd] in *; rewrite ?launched_app, ?Hx; try done. by destruct o.
Qed.

Lemma quiet_calm {A} (m : M A) : does (fun _ => True) Calm true m -> quiet m.
Proof.
  intros Hm s tr a s' Hr.
  set (before := [Act (WriteEvents RunCtx [EToolStarted (MkToolStarted (NewHeader 0 "" "" 0) "" "" "")]) (Ok [])]).
  destruct (Hm s before tr a s') as [Hs _]; [by intros _|by apply list.Forall_true|done|].
  assert (Hl : launched (before ++ tr) = []); [|by rewrite launched_app in Hl].
  remember (s, before) as x eqn:Ex. assert (Hx : launched x.2 = []) by by rewrite Ex. clear Ex.
  remember (s', before ++ tr) as y eqn:Ey. change (before ++ tr) with (s', before ++ tr).2. rewrite <- Ey. clear -Hs Hx.
  induction Hs as [x|x y z Hm Hs IH]; [done|]. apply IH. by eapply move_quiet.
Qed.

Ltac still :=
  repeat match goal with
  | |- forall _, _ => intro
  | |- quiet (try_bind _ _) => apply quiet_try
  | |- quiet (bind _ _) => apply quiet_bind
  | |- quiet (ret _) => apply quiet_ret
  | |- quiet (succeed _) => apply quiet_ret
  | |- quiet (fail_with _) => apply quiet_ret
  | |- quiet (get _) => apply quiet_get
  | |- quiet (modify _) => apply quiet_modify
  | |- quiet (stage _) => apply quiet_modify
  | |- quiet (ask _) => apply quiet_ask; discriminate
  | |- quiet (flush _) => apply quiet_calm, does_flush
  | |- quiet (match ?x with _ => _ end) => destruct x
  | |- quiet _ => solve [auto with still]
  end.
Create HintDb still.

Section tools.
Context `{Encoding, Texts, JsonText} (def : sessionDef).

(** *** The programs of a batch that start none *)

Lemma transcript_quiet {X} (o : op (outcome X)) : kind_of o <> ToolOp -> quiet (transcript o).
Proof. intros Ho. unfold transcript. apply quiet_bind; [by apply quiet_ask|]. still. Qed.

Lemma commit_quiet message enforce : quiet (commit def message enforce).
Proof.
  unfold commit. apply quiet_bind; [unfold named_id; still|]. intros id. cbv zeta.
  destruct (json_size _); [|still]. apply quiet_bind; [by apply transcript_quiet|]. still; by apply transcript_quiet.
Qed.
Hint Resolve commit_quiet : still.

Lemma preflight_quiet turn calls : quiet (preflightTools def turn calls).
Proof. apply quiet_calm, preflightTools_does. Qed.
Lemma header_quiet turn : quiet (header def turn).
Proof. apply quiet_calm, header_does. Qed.
Lemma afterTool_quiet result : quiet (afterTool def result).
Proof. apply quiet_calm, afterTool_does. Qed.
Lemma spill_quiet ctx turn tool result : quiet (spill def ctx turn tool result).
Proof. apply quiet_calm, spill_does. Qed.
Lemma stageResult_quiet turn call message result : quiet (stageResult def turn call message result).
Proof. apply quiet_calm, stageResult_does. Qed.
Lemma new_result_message_quiet result : quiet (new_result_message result).
Proof. apply quiet_calm, new_result_message_does. Qed.
Lemma collect_quiet fuel turn plans group outcomes : quiet (collect def fuel turn plans group outcomes).
Proof. apply quiet_calm, collect_does. Qed.
Lemma cancelRest_quiet started turn plans group outcomes : quiet (cancelRest def started turn plans group outcomes).
Proof. apply quiet_calm, cancelRest_does. Qed.
Lemma note_outcomes_quiet completed : quiet (note_outcomes completed).
Proof. apply quiet_modify. Qed.
Hint Resolve header_quiet afterTool_quiet spill_quiet stageResult_quiet new_result_message_quiet collect_quiet cancelRest_quiet note_outcomes_quiet : still.

Lemma settle_blocked_quiet turn index plans : quiet (settle_blocked def turn index plans).
Proof. revert index. induction plans as [|plan plans IH]; intros index; cbn [settle_blocked]; still. Qed.

Lemma stage_started_quiet turn id plans group : quiet (stage_started def turn id plans group).
Proof. apply quiet_calm, stage_started_does. Qed.

Lemma commitToolResult_quiet message result : quiet (commitToolResult def message result).
Proof. unfold commitToolResult. still. Qed.
Hint Resolve commitToolResult_quiet : still.

Lemma commitResult_quiet turn index call outcome : quiet (commitResult def turn index call outcome).
Proof. unfold commitResult, commitResultMessage, set_next. still. Qed.
Hint Resolve commitResult_quiet : still.

Lemma commitUpTo_quiet turn index plans : quiet (commitUpTo def turn index plans).
Proof. revert index. induction plans as [|plan plans IH]; intros index; cbn [commitUpTo]; still. Qed.

(** *** The launches of a batch *)

(** Each of the calls has its ToolStarted among these Events. *)
Definition started_in (events : list Event) (plans : list toolPlan) : Prop :=
  Forall (fun plan => exists e, EToolStarted e ∈ events /\ to_CallID e = tc_ID (pl_call plan)) plans.

(** What comes right before a launch: the write of the ToolStarted of each call was taken, and
    then the Run was found not canceled. *)
Definition cleared (before : list act) (plans : list toolPlan) : Prop :=
  exists earlier events written,
    before = earlier ++ [Act (WriteEvents RunCtx events) (Ok written); Act CtxErr None] /\ started_in events plans.

Fixpoint well_from (before tr : list act) : Prop :=
  match tr with
  | [] => True
  | a :: rest => Forall (cleared before) (launched_by a) /\ well_from (before ++ [a]) rest
  end.

Lemma well_app before tr tr' : well_from before (tr ++ tr') <-> well_from before tr /\ well_from (before ++ tr) tr'.
Proof.
  revert before. induction tr as [|a tr IH]; intros before; cbn [app well_from].
  - rewrite app_nil_r. tauto.
  - rewrite IH, <- app_assoc. tauto.
Qed.

Lemma quiet_well before tr : launched tr = [] -> well_from before tr.
Proof.
  revert before. induction tr as [|a tr IH]; intros before Hl; cbn [well_from]; [done|].
  apply (app_nil (launched_by a)) in Hl as [-> Hl]. by split; [|apply IH].
Qed.

Lemma well_split before before' plans x after :
  well_from before (before' ++ Act (Launch plans) x :: after) -> cleared (before ++ before') plans.
Proof. intros [_ [Hc _]]%well_app. by inversion Hc. Qed.

(** What is launched for a group. *)
Definition launch_of (plans : list toolPlan) (group : list nat) : list toolPlan := omap (fun index => plans !! index) group.

(** *** Steps *)

Lemma header_runs turn s tr h s' : runs (header def turn s) tr (h, s') -> s' = s.
Proof. by intros (now & rest & -> & [-> [= -> ->]]). Qed.

Lemma flush_written ctx s tr s' :
  lo_staged s <> [] -> runs (flush ctx s) tr (Ok tt, s') -> exists written, tr = [Act (WriteEvents ctx (lo_staged s)) (Ok written)].
Proof.
  intros Hs [_ Hw]%flush_runs. destruct (lo_staged s); [done|]. destruct Hw as ([written|err] & -> & Ha); [by eexists|done].
Qed.

Lemma stage_started_staged turn id plans group s tr u s' :
  runs (stage_started def turn id plans group s) tr (u, s') ->
  exists events, lo_staged s' = lo_staged s ++ events /\ (group <> [] -> events <> []) /\
    Forall (fun index => exists e, EToolStarted e ∈ events /\ to_CallID e = tc_ID (call_of plans index)) group.
Proof.
  revert s tr. induction group as [|index group IH]; intros s tr Hr; cbn [stage_started] in Hr.
  { destruct Hr as [-> [= -> ->]]. exists []. by rewrite app_nil_r. }
  apply runs_pbind in Hr as (tr1 & [h s1] & tr2 & -> & ->%header_runs & Hr).
  apply runs_pbind in Hr as (tr3 & [v s2] & tr4 & -> & [_ [= -> ->]] & Hr). cbn [fst snd] in Hr.
  apply IH in Hr as (events & He & _ & Hf). cbn in He.
  rewrite <- app_assoc in He. cbn [app] in He. eexists. split; [exact He|]. split; [done|]. constructor.
  - eexists. split; [by apply elem_of_cons; left|done].
  - eapply list.Forall_impl; [exact Hf|]. intros i (e & Hin & Hid). exists e. split; [by apply elem_of_cons; right|done].
Qed.

Lemma executeToolGroup_launches turn plans group s tr a s' :
  runs (executeToolGroup def turn plans group s) tr (a, s') ->
  launched tr = [] \/ exists rest, tr = [Act CtxErr None] ++ Act (Launch (launch_of plans group)) tt :: rest /\ launched rest = [].
Proof.
  intros (err & rest & -> & Hr). destruct err as [err|].
  - left. apply cancelRest_quiet in Hr. exact Hr.
  - destruct Hr as ([] & rest' & -> & Hr). right. exists rest'. split; [done|]. by apply collect_quiet in Hr.
Qed.

Lemma started_group plans group events :
  Forall (fun index => exists e, EToolStarted e ∈ events /\ to_CallID e = tc_ID (call_of plans index)) group ->
  started_in events (launch_of plans group).
Proof.
  induction 1 as [|index group (e & Hin & Hid) Hg IH]; cbn; [constructor|]. destruct (plans !! index) as [plan|] eqn:Ep; [|exact IH].
  constructor; [|exact IH]. exists e. split; [done|]. rewrite Hid. unfold call_of. by rewrite Ep.
Qed.

(** The groups of a batch: each is launched at most once, in order, and cleared. *)
Lemma run_groups_launches turn id plans committed groups before s tr r s' :
  Forall (fun group => group <> []) groups ->
  runs (run_groups def turn id plans committed groups s) tr (r, s') ->
  well_from before tr /\
  exists begun, begun `sublist_of` groups /\ launched tr = launch_of plans <$> begun.
Proof.
  revert committed before s tr r s'. induction groups as [|group groups IH]; intros committed before s tr r s' Hg Hr; cbn [run_groups] in Hr.
  { apply commitUpTo_quiet in Hr. split; [by apply quiet_well|]. exists []. by rewrite Hr. }
  inversion Hg as [|? ? Hne Hg']; subst.
  apply runs_pbind in Hr as (t1 & [u s1] & tr2 & -> & G1 & Hr).
  pose proof (stage_started_quiet _ _ _ _ _ _ _ _ G1) as Q1.
  apply stage_started_staged in G1 as (events & He & Hev & Hst). cbn [fst snd] in Hr.
  apply runs_pbind in Hr as (t2 & [[[]|err] s2] & tr3 & -> & H2 & Hr); cbn [fst snd] in Hr.
  2: { destruct Hr as [-> [= -> ->]]. assert (Q2 : launched (t1 ++ t2 ++ []) = []).
       { rewrite !launched_app, Q1. by rewrite (quiet_calm _ (does_flush _ _ _ _) _ _ _ _ H2). }
       split; [by apply quiet_well|]. exists []. split; [apply sublist_nil_l|exact Q2]. }
  apply flush_written in H2 as [written ->]; [|rewrite He; destruct (lo_staged s); [by apply Hev|done]].
  apply runs_pbind in Hr as (t3 & [completed s3] & tr4 & -> & H3 & Hr). cbn [fst snd] in Hr.
  assert (Hrest : forall before, well_from before tr4 /\
    exists begun, begun `sublist_of` groups /\ launched tr4 = launch_of plans <$> begun).
  { clear before. intros before. apply runs_pbind in Hr as (t5 & [v s4] & tr6 & -> & Q5%note_outcomes_quiet & Hr). cbn [fst snd] in Hr.
    apply runs_pbind in Hr as (t7 & [[settled|err] s5] & tr8 & -> & Q7%commitUpTo_quiet & Hr); cbn [fst snd] in Hr.
    - apply runs_pbind in Hr as (t9 & [others s6] & tr10 & -> & H9 & Hr). cbn [fst snd] in Hr.
      assert (tr10 = []) as -> by (destruct others; by destruct Hr).
      destruct (IH _ ((before ++ t5) ++ t7) _ _ _ _ Hg' H9) as [Hw (begun & Hs & Hl)]. rewrite app_nil_r. split.
      + rewrite !well_app. split; [by apply quiet_well|]. split; [by apply quiet_well|exact Hw].
      + exists begun. split; [done|]. by rewrite !launched_app, Q5, Q7.
    - destruct Hr as [-> _]. rewrite app_nil_r. assert (launched (t5 ++ t7) = []) as Q by by rewrite launched_app, Q5, Q7.
      split; [by apply quiet_well|]. exists []. split; [apply sublist_nil_l|exact Q]. }
  apply executeToolGroup_launches in H3 as [Q3|(rest & -> & Q3)].
  - split.
    + rewrite !well_app. split; [by apply quiet_well|]. split; [done|]. split; [by apply quiet_well|apply Hrest].
    + destruct (Hrest []) as [_ (begun & Hs & Hl)]. exists begun. split; [by apply sublist_cons|].
      by rewrite !launched_app, Q1, Q3, Hl.
  - split.
    + rewrite !well_app. split; [by apply quiet_well|]. split; [done|]. cbn [well_from app launched_by]. split; [|apply Hrest].
      split; [done|]. split; [|by apply quiet_well]. constructor; [|done].
      exists (before ++ t1), (lo_staged s1), written. split; [by rewrite <- !app_assoc|].
      apply started_group. rewrite He. eapply list.Forall_impl; [exact Hst|]. intros i (e & Hin & Hid). exists e. split; [|done].
      apply elem_of_app. by right.
    + destruct (Hrest []) as [_ (begun & Hs & Hl)]. exists (group :: begun). split; [by apply sublist_skip|].
      rewrite !launched_app, Q1. cbn. fold (launched rest). rewrite Q3, Hl. done.
Qed.

(** *** Preflight *)

(** A program that leaves the Tools as they are. *)
Definition steady {A} (m : M A) : Prop := forall s tr a s', runs (m s) tr (a, s') -> lo_registry s' = lo_registry s.

Lemma steady_bind {A B} (m : M A) (k : A -> M B) : steady m -> (forall a, steady (k a)) -> steady (bind m k).
Proof.
  intros Hm Hk s tr b s' Hr. apply runs_pbind in Hr as (tr1 & [a s1] & tr2 & -> & G1 & G2).
  apply Hm in G1 as <-. by apply Hk in G2.
Qed.

Lemma steady_ret {A} (a : A) : steady (ret a).
Proof. by intros s tr b s' [_ [= _ ->]]. Qed.

Lemma steady_stage es : steady (stage es).
Proof. by intros s tr b s' [_ [= _ ->]]. Qed.

Lemma steady_ask {X} (o : op X) : steady (ask o).
Proof. by intros s tr x s' (y & rest & _ & _ & [= _ ->]). Qed.

Lemma advisory_steady what i failure : steady (advisory def what i failure).
Proof.
  unfold advisory. apply steady_bind; [apply steady_ask|]. intros [|]; [|apply steady_ret].
  apply steady_bind; [|intros h; apply steady_bind; [apply steady_stage|intros []; apply steady_ret]].
  intros s tr h s' Hr. apply runs_pbind in Hr as (t1 & [turn s1] & t2 & -> & [_ [= -> ->]] & Hr). by apply header_runs in Hr as ->.
Qed.

Lemma consult_steady {A} what i (o : op (outcome A)) : steady (consult def what i o).
Proof.
  unfold consult. apply steady_bind; [apply steady_ask|]. intros [a|err]; [apply steady_ret|]. cbv zeta.
  apply steady_bind; [apply advisory_steady|]. intros [|]; apply steady_ret.
Qed.

Lemma before_from_steady n i use : steady (before_from def n i use).
Proof.
  revert i. induction n as [|n IH]; intros i; cbn [before_from]; [apply steady_ret|].
  apply steady_bind; [apply consult_steady|]. intros [[decision|]|err]; [|apply IH|apply steady_ret].
  destruct (pd_Block decision); [apply steady_ret|apply IH].
Qed.

(** A call that is let through: the Tool of its plan is what its name resolves to, and its
    arguments are those the schema asks for. *)
Definition admitted (r : toolRegistry) (calls : list ToolCall) (plan : toolPlan) : Prop :=
  pl_blocked plan = false /\ calls !! pl_index plan = Some (pl_call plan) /\
  exists entry, lookup_tool r (tc_ToolID (pl_call plan)) = Some entry /\ pl_tool plan = Some (te_tool entry) /\
    refused_arguments (te_spec entry) (pl_call plan) = None.

(** What preflight makes of the call at [index]. *)
Definition planned (r : toolRegistry) (index : nat) (call : ToolCall) (plan : toolPlan) : Prop :=
  pl_index plan = index /\ pl_call plan = call /\
  (pl_blocked plan = false ->
   exists entry, lookup_tool r (tc_ToolID call) = Some entry /\ pl_tool plan = Some (te_tool entry) /\
     refused_arguments (te_spec entry) call = None).

Lemma plan_call_planned turn index call s tr r s' :
  runs (plan_call def turn index call s) tr (r, s') ->
  lo_registry s' = lo_registry s /\ match r with Ok plan => planned (lo_registry s) index call plan | Err _ => True end.
Proof.
  intros Hr. apply runs_pbind in Hr as (t1 & [[] s1] & t2 & -> & [-> [= ->]] & Hr). cbn [fst snd] in Hr.
  apply runs_pbind in Hr as (t3 & [reg s2] & t4 & -> & [-> [= -> ->]] & Hr). cbn [fst snd] in Hr.
  set (s0 := s <| lo_toolCalls := _ |>) in *. change (lo_registry s0) with (lo_registry s) in *.
  assert (Hdone : forall plan, pl_index plan = index -> pl_call plan = call -> pl_blocked plan = true ->
    runs (succeed plan s0) t4 (r, s') ->
    lo_registry s' = lo_registry s /\ match r with Ok plan => planned (lo_registry s) index call plan | Err _ => True end).
  { intros plan Hi Hc Hb [_ [= -> ->]]. split; [done|]. split; [done|]. split; [done|]. by rewrite Hb. }
  destruct (lookup_tool (lo_registry s) (tc_ToolID call)) as [entry|] eqn:El.
  2: { eapply Hdone, Hr; unfold unresolved_plan; by destruct (loadable _ _). }
  destruct (refused_arguments (te_spec entry) call) as [why|] eqn:Ea; [by eapply Hdone, Hr|].
  apply runs_pbind in Hr as (t5 & [run s3] & t6 & -> & [-> [= -> ->]] & Hr). cbn [fst snd] in Hr.
  apply runs_pbind in Hr as (t7 & [decision s4] & t8 & -> & Hs%before_from_steady & Hr). cbn [fst snd] in Hr.
  destruct decision as [decision|err]; destruct Hr as [_ [= -> ->]]; (split; [exact Hs|]); [|done].
  split; [done|]. split; [done|]. intros _. by exists entry.
Qed.

Lemma preflight_planned turn index calls s tr plans s' :
  runs (preflight_from def turn index calls s) tr (Ok plans, s') ->
  forall i plan, plans !! i = Some plan -> exists call, calls !! i = Some call /\ planned (lo_registry s) (index + i) call plan.
Proof.
  revert index s tr plans. induction calls as [|call calls IH]; intros index s tr plans Hr i plan Hi; cbn [preflight_from] in Hr.
  { destruct Hr as [_ [= -> ->]]. by rewrite lookup_nil in Hi. }
  apply runs_pbind in Hr as (t1 & [[first|err] s1] & t2 & -> & G1 & Hr); [|by destruct Hr as [_ [=]]]. cbn [fst snd] in Hr.
  apply plan_call_planned in G1 as [Hreg Hp].
  apply runs_pbind in Hr as (t3 & [[rest|err] s2] & t4 & -> & G2 & Hr); [|by destruct Hr as [_ [=]]]. cbn [fst snd] in Hr.
  destruct Hr as [_ [= -> ->]]. destruct i as [|i]; cbn [lookup list_lookup] in Hi |- *.
  - simplify_eq. exists call. by rewrite Nat.add_0_r.
  - destruct (IH _ _ _ _ G2 i plan Hi) as (c & Hc & Hq). exists c. split; [done|]. by rewrite Nat.add_succ_r, <- Hreg.
Qed.

End tools.

(** ** The batch *)

Lemma launch_indices plans groups :
  (forall i plan, plans !! i = Some plan -> pl_index plan = i) ->
  Forall (fun i => is_Some (plans !! i)) (mjoin groups) ->
  pl_index <$> mjoin (launch_of plans <$> groups) = mjoin groups.
Proof.
  intros Hi. induction groups as [|group groups IH]; intros Hf; [done|].
  change (mjoin (group :: groups)) with (group ++ mjoin groups) in *. apply list.Forall_app in Hf as [Hg Hf].
  change (mjoin (launch_of plans <$> group :: groups)) with (launch_of plans group ++ mjoin (launch_of plans <$> groups)).
  rewrite fmap_app, (IH Hf). f_equal. clear -Hg Hi. induction Hg as [|i group [plan Hp] Hg IH]; [done|].
  unfold launch_of in *. cbn. rewrite Hp. cbn. by rewrite IH, (Hi _ _ Hp).
Qed.

Lemma launch_length plans group : (length (launch_of plans group) <= length group)%nat.
Proof. unfold launch_of. induction group as [|i group IH]; cbn; [done|]. destruct (plans !! i); cbn; lia. Qed.

Lemma mjoin_sublist {A} (l k : list (list A)) : l `sublist_of` k -> mjoin l `sublist_of` mjoin k.
Proof.
  induction 1 as [|x l k Hs IH|x l k Hs IH]; cbn; [done| |].
  - by apply sublist_app.
  - by apply sublist_inserts_l.
Qed.

Lemma sorted_sublist (l k : list nat) : l `sublist_of` k -> StronglySorted lt k -> StronglySorted lt l.
Proof.
  induction 1 as [|x l k Hs IH|x l k Hs IH]; intros Hk; [done| |]; inversion Hk as [|? ? Hk' Hf]; subst; [|by apply IH].
  constructor; [by apply IH|]. apply list.Forall_forall. intros y Hy. eapply list.Forall_forall; [exact Hf|].
  by eapply elem_of_submseteq, sublist_submseteq.
Qed.

Lemma fits_nonempty plans workers groups : Forall (group_fits plans workers) groups -> Forall (fun group => group <> []) groups.
Proof. intros Hf. eapply list.Forall_impl; [exact Hf|]. intros g [Hg _] ->. cbn in Hg. lia. Qed.


#[local] Existing Instances sample_encoding sample_texts sample_json.

(** A reply with three calls, one of a Tool that is not known. *)
Definition sample_assistant : Message :=
  message_zero <| m_Role := RoleAssistant |> <| m_ToolCalls := [MkToolCall "1" "echo" [] []; MkToolCall "2" "nope" [] []; MkToolCall "3" "echo" [] []] |>.

Definition sample_batch : list act * (result RuntimeError (list ToolOutcome * list ToolResult) * local) :=
  play sample_answer (runToolBatch sample_def 1 sample_assistant sample_local) [].

Lemma sample_batch_runs : runs (runToolBatch sample_def 1 sample_assistant sample_local) sample_batch.1 sample_batch.2.
Proof. unfold sample_batch. apply play_runs. Qed.

