(* ===== verification/FunctionNames.v ===== *)
(** * The names of Tools on the wire

    [model/names.go]: every Tool ID a request uses gets a name that providers accept, and the
    map from the names back to the IDs, by which a decoder reads a call. *)

From S2P Require Import Prelude GoStrings Errors Types Request.
Local Open Scope string_scope.
Local Open Scope list_scope.

Definition maxFunctionName : nat := 64.

(** [a-zA-Z0-9_-]. *)
Definition name_char (c : ascii) : bool :=
  byte_in 97 122 c || byte_in 65 90 c || byte_in 48 57 c || (byte c =? 95)%N || (byte c =? 45)%N.

(** [sanitizeFunctionName]. *)
Definition sanitizeFunctionName (id : bytes) : bytes := (fun c => if name_char c then c else "_"%char) <$> id.

(** [plainFunctionName]. *)
Definition plainFunctionName (s : bytes) : bool :=
  negb (bool_decide (s = [])) && (length s <=? maxFunctionName)%nat && bool_decide (sanitizeFunctionName s = s).

Section names.
Context `{Encoding}.

(** [shortHash]. *)
Definition shortHash (id : bytes) (n : nat) : bytes := take n (bytes_of (sha256_hex id)).

(** [hashedFunctionName]. *)
Definition hashedFunctionName (id : bytes) : bytes :=
  let prefix := take (maxFunctionName - 17) (sanitizeFunctionName id) in
  let prefix := if bool_decide (prefix = []) then bytes_of "tool" else prefix in
  prefix ++ "_"%char :: shortHash id 16.

(** [providerFunctionName]. *)
Definition providerFunctionName (id : bytes) : bytes :=
  let name := sanitizeFunctionName id in
  if bool_decide (name = []) then hashedFunctionName id
  else if (maxFunctionName <? length name)%nat then take (maxFunctionName - 9) name ++ "_"%char :: shortHash id 8
  else name.

(** [nameMap]: from a provider's name to a Tool ID. *)
Abbreviation functionMap := (gmap bytes bytes) (only parsing).

Definition taken_by_other (names : gmap bytes bytes) (name id : bytes) : bool :=
  match names !! name with Some previous => negb (bool_decide (previous = id)) | None => false end.

(** [assignFunctionName]; the map keeps its other names. *)
Definition assignFunctionName (names : gmap bytes bytes) (id : bytes) : result (bytes * bytes) (gmap bytes bytes * bytes) :=
  let name := providerFunctionName id in
  if taken_by_other names name id then
    let name := hashedFunctionName id in
    if taken_by_other names name id then Err (default [] (names !! name), id)
    else Ok (<[name := id]> names, name)
  else Ok (<[name := id]> names, name).

(** The IDs a request uses: its Tools, those not loaded, and the calls of its history. *)
Definition request_ids (request : ModelRequest) : list bytes :=
  ((fun spec => bytes_of (ts_ID spec)) <$> mr_Tools request) ++
  ((fun spec => bytes_of (ts_ID spec)) <$> mr_UnloadedTools request) ++
  (mr_Messages request ≫= fun message => (fun call => bytes_of (tc_ToolID call)) <$> m_ToolCalls message).

Definition plain_names (ids : list bytes) : gmap bytes bytes :=
  foldl (fun names id => if plainFunctionName id then <[id := id]> names else names) ∅ ids.

Fixpoint assign_all (names : gmap bytes bytes) (ids : list bytes) : result (bytes * bytes) (gmap bytes bytes) :=
  match ids with
  | [] => Ok names
  | id :: rest =>
    match assignFunctionName names id with
    | Err why => Err why
    | Ok (names, _) => assign_all names rest
    end
  end.

(** [functionNames]; an error names the two IDs that collide. *)
Definition functionNames (request : ModelRequest) : result (bytes * bytes) (gmap bytes bytes) :=
  assign_all (plain_names (request_ids request)) (request_ids request).

(** How a decoder reads a name ([nameMap]). *)
Definition tool_of_name (names : gmap bytes bytes) (name : bytes) : bytes := default name (names !! name).

End names.

(** What the code relies on of a SHA-256 in hex: at least 16 characters that a name may hold. *)
Class HexHash `{Encoding} := {
  hash_length b : (16 <= slen (sha256_hex b))%nat;
  hash_chars b : Forall (fun c => name_char c = true) (bytes_of (sha256_hex b));
}.

(** ** A name is one that providers accept *)

Lemma sanitize_length id : length (sanitizeFunctionName id) = length id.
Proof. apply length_fmap. Qed.

Lemma sanitize_chars id : Forall (fun c => name_char c = true) (sanitizeFunctionName id).
Proof.
  induction id as [|c id IH]; cbn; [constructor|]. constructor; [|exact IH]. by destruct (name_char c) eqn:E.
Qed.

Lemma sanitize_id s : Forall (fun c => name_char c = true) s -> sanitizeFunctionName s = s.
Proof. induction 1 as [|c s Hc Hs IH]; [done|]. unfold sanitizeFunctionName in *. cbn. by rewrite Hc, IH. Qed.

Lemma plain_spec s :
  plainFunctionName s = true <-> s <> [] /\ (length s <= maxFunctionName)%nat /\ Forall (fun c => name_char c = true) s.
Proof.
  unfold plainFunctionName. rewrite !andb_true_iff, negb_true_iff, bool_decide_eq_false, Nat.leb_le, bool_decide_eq_true. split.
  - intros [[Hn Hl] Hs]. split; [done|]. split; [done|]. rewrite <- Hs. apply sanitize_chars.
  - intros (Hn & Hl & Hc). split; [done|]. by apply sanitize_id.
Qed.

Section laws.
Context `{HexHash}.

Lemma shortHash_length id n : (n <= 16)%nat -> length (shortHash id n) = n.
Proof. intros Hn. unfold shortHash. rewrite length_take, length_bytes_of. pose proof (hash_length id). lia. Qed.

Lemma shortHash_chars id n : Forall (fun c => name_char c = true) (shortHash id n).
Proof. apply Forall_take, hash_chars. Qed.

Lemma hashed_plain id : plainFunctionName (hashedFunctionName id) = true.
Proof.
  apply plain_spec. unfold hashedFunctionName. cbv zeta. set (prefix := take _ _). split; [by destruct (if bool_decide (prefix = []) then bytes_of "tool" else prefix)|].
  assert (Hp : (length prefix <= maxFunctionName - 17)%nat) by (unfold prefix; rewrite length_take; lia).
  split.
  - rewrite length_app. cbn [length]. rewrite shortHash_length; [|lia]. unfold maxFunctionName in *.
    destruct (bool_decide (prefix = [])); [cbn; lia|lia].
  - apply list.Forall_app. split; [|constructor; [done|apply shortHash_chars]].
    destruct (bool_decide (prefix = [])); [by repeat constructor|]. apply Forall_take, sanitize_chars.
Qed.

Lemma provider_plain id : plainFunctionName (providerFunctionName id) = true.
Proof.
  unfold providerFunctionName. cbv zeta. destruct (bool_decide_reflect (sanitizeFunctionName id = [])) as [E|E]; [apply hashed_plain|].
  apply plain_spec. destruct (Nat.ltb_spec maxFunctionName (length (sanitizeFunctionName id))) as [Hl|Hl].
  - split; [by destruct (take _ _)|]. split.
    + rewrite length_app, length_take. cbn [length]. rewrite shortHash_length; [|lia]. unfold maxFunctionName in *. lia.
    + apply list.Forall_app. split; [apply Forall_take, sanitize_chars|]. constructor; [done|apply shortHash_chars].
  - split; [done|]. split; [done|apply sanitize_chars].
Qed.

(** A name that providers accept goes out as it is. *)
Lemma provider_own id : plainFunctionName id = true -> providerFunctionName id = id.
Proof.
  intros (Hn & Hl & Hc)%plain_spec. unfold providerFunctionName. rewrite (sanitize_id id Hc). cbv zeta.
  rewrite bool_decide_false by done. destruct (Nat.ltb_spec maxFunctionName (length id)); [lia|done].
Qed.
End laws.

(** ** The map *)

(** Every name is one that providers accept, and a plain ID in the map is its own name's. *)
Definition names_ok (names : gmap bytes bytes) : Prop :=
  forall name id, names !! name = Some id -> plainFunctionName name = true.

Definition named (names : gmap bytes bytes) (id : bytes) : Prop := exists name, names !! name = Some id.

Lemma taken_by_other_spec names name id : taken_by_other names name id = false <-> forall other, names !! name = Some other -> other = id.
Proof.
  unfold taken_by_other. destruct (names !! name) as [previous|] eqn:E.
  - rewrite negb_false_iff, bool_decide_eq_true. split; [by intros -> other [= ->]|]. intros Ho. by apply Ho.
  - split; [|done]. by intros _ other [=].
Qed.

(** A name in the map is never given to another ID. *)
Lemma assign_extends `{HexHash} names id names' name :
  assignFunctionName names id = Ok (names', name) ->
  names' = <[name := id]> names /\ (forall other, names !! name = Some other -> other = id) /\ plainFunctionName name = true.
Proof.
  unfold assignFunctionName. cbv zeta. destruct (taken_by_other names (providerFunctionName id) id) eqn:E.
  - destruct (taken_by_other names (hashedFunctionName id) id) eqn:E2; [done|]. intros [= <- <-].
    split; [done|]. split; [by apply taken_by_other_spec|apply hashed_plain].
  - intros [= <- <-]. split; [done|]. split; [by apply taken_by_other_spec|apply provider_plain].
Qed.

Lemma assign_all_keeps `{HexHash} ids names names' :
  assign_all names ids = Ok names' -> names_ok names ->
  names ⊆ names' /\ names_ok names' /\ Forall (named names') ids.
Proof.
  revert names. induction ids as [|id ids IH]; intros names Ha Hok; cbn in Ha; [injection Ha as <-; done|].
  destruct (assignFunctionName names id) as [[names1 name]|] eqn:E; [|done].
  apply assign_extends in E as (-> & Hsame & Hplain).
  assert (Hok1 : names_ok (<[name := id]> names)).
  { intros n i Hi. apply lookup_insert_Some in Hi as [[<- <-]|[_ Hi]]; [done|by eapply Hok]. }
  destruct (IH _ Ha Hok1) as (Hsub & Hok' & Hall). split; [|split; [done|]].
  - etrans; [|exact Hsub]. destruct (names !! name) as [other|] eqn:En; [|by apply insert_subseteq].
    rewrite (Hsame other eq_refl) in En. by rewrite insert_id.
  - constructor; [|done]. exists name. eapply lookup_weaken; [|exact Hsub]. apply lookup_insert_eq.
Qed.

(** A name that was given is found again in every later map. *)
Lemma assign_again `{Encoding} names id names1 name names' :
  assignFunctionName names id = Ok (names1, name) -> names1 ⊆ names' -> assignFunctionName names' id = Ok (names', name).
Proof.
  unfold assignFunctionName. cbv zeta. intros Ha Hsub.
  assert (Hkept : forall n, names' !! n = Some id -> taken_by_other names' n id = false /\ <[n := id]> names' = names').
  { intros n Hn. split; [|by rewrite insert_id]. apply taken_by_other_spec. intros other. rewrite Hn. congruence. }
  destruct (taken_by_other names (providerFunctionName id) id) eqn:E.
  - destruct (taken_by_other names (hashedFunctionName id) id) eqn:E2; [done|]. injection Ha as <- <-.
    assert (Ht : taken_by_other names' (providerFunctionName id) id = true).
    { unfold taken_by_other in E |- *. destruct (names !! providerFunctionName id) as [previous|] eqn:Ep; [|done].
      rewrite (lookup_weaken (<[hashedFunctionName id := id]> names) names' (providerFunctionName id) previous); [exact E| |exact Hsub].
      rewrite lookup_insert_ne; [exact Ep|]. intros Heq. rewrite <- Heq in Ep. unfold taken_by_other in E2. rewrite Ep in E2. congruence. }
    rewrite Ht. destruct (Hkept (hashedFunctionName id)) as [-> ->]; [|done].
    eapply lookup_weaken; [|exact Hsub]. apply lookup_insert_eq.
  - injection Ha as <- <-. destruct (Hkept (providerFunctionName id)) as [-> ->]; [|done].
    eapply lookup_weaken; [|exact Hsub]. apply lookup_insert_eq.
Qed.

(** A plain ID that has its own name keeps it. *)
Lemma assign_plain `{HexHash} names id names' name :
  assignFunctionName names id = Ok (names', name) -> plainFunctionName id = true -> names !! id = Some id -> name = id.
Proof.
  intros Ha Hp Hl. unfold assignFunctionName in Ha. rewrite (provider_own id Hp) in Ha. cbv zeta in Ha.
  assert (taken_by_other names id id = false) as Ht; [|by rewrite Ht in Ha; injection Ha].
  apply taken_by_other_spec. intros other. rewrite Hl. congruence.
Qed.

Lemma assign_all_again `{HexHash} ids names names' :
  assign_all names ids = Ok names' -> names_ok names ->
  Forall (fun id => exists name, assignFunctionName names' id = Ok (names', name)) ids.
Proof.
  revert names. induction ids as [|id ids IH]; intros names Ha Hok; cbn in Ha; [constructor|].
  destruct (assignFunctionName names id) as [[names1 name]|] eqn:E; [|done].
  pose proof (assign_extends _ _ _ _ E) as (Heq & Hsame & Hplain).
  assert (Hok1 : names_ok names1).
  { subst names1. intros n i Hi. apply lookup_insert_Some in Hi as [[<- <-]|[_ Hi]]; [done|by eapply Hok]. }
  destruct (assign_all_keeps _ _ _ Ha Hok1) as (Hsub & _ & _).
  constructor; [exists name; by eapply assign_again|]. by eapply IH.
Qed.

Lemma plain_names_spec ids name id : plain_names ids !! name = Some id <-> name = id /\ id ∈ ids /\ plainFunctionName id = true.
Proof.
  unfold plain_names. assert (Hg : forall acc : gmap bytes bytes, foldl (fun (names : gmap bytes bytes) id => if plainFunctionName id then <[id := id]> names else names) acc ids !! name = Some id
    <-> (name = id /\ id ∈ ids /\ plainFunctionName id = true) \/ (acc !! name = Some id /\ ~ (name ∈ ids /\ plainFunctionName name = true))).
  { induction ids as [|i ids IH]; intros acc; cbn [foldl].
    - split; [intros Hl; right; split; [done|by intros [?%elem_of_nil _]]|]. by intros [(_ & ?%elem_of_nil & _)|[Hl _]].
    - rewrite IH. rewrite !elem_of_cons. destruct (plainFunctionName i) eqn:Ei.
      + destruct (decide (name = i)) as [->|Hne].
        * rewrite lookup_insert_eq. split.
          -- intros [(-> & Hin & Hp)|[[= ->] _]]; left; tauto.
          -- intros [(<- & _ & _)|[_ Hn]]; [|tauto]. destruct (decide (i ∈ ids)); [left; tauto|right; tauto].
        * rewrite lookup_insert_ne by done. split.
          -- intros [?|[? Hn]]; [left; tauto|right]. split; [done|]. intros [[?|?] ?]; tauto.
          -- intros [(-> & [?|?] & ?)|[? Hn]]; [done|left; tauto|right]. split; [done|]. tauto.
      + split.
        * intros [?|[? Hn]]; [left; tauto|right]. split; [done|]. intros [[->|?] ?]; [congruence|tauto].
        * intros [(-> & [->|?] & ?)|[? Hn]]; [congruence|left; tauto|right]. split; [done|]. tauto. }
  rewrite Hg, lookup_empty. split; [intros [?|[[=] _]]; done|tauto].
Qed.

(** When every Tool a request uses can be named, each has a name that providers accept, and
    a decoder reads that name back as the Tool, so two Tools never share one; an ID that is
    itself such a name goes out unchanged, whatever other IDs there are and in whatever order. *)
Theorem function_names_roundtrip `{HexHash} request names :
  functionNames request = Ok names ->
  Forall (fun id => exists name, assignFunctionName names id = Ok (names, name) /\ plainFunctionName name = true /\
    tool_of_name names name = id /\ (plainFunctionName id = true -> name = id)) (request_ids request).
Proof.
  unfold functionNames. intros Ha.
  assert (Hok : names_ok (plain_names (request_ids request))) by (intros name id (-> & _ & Hp)%plain_names_spec; exact Hp).
  pose proof (assign_all_again _ _ _ Ha Hok) as Hagain. pose proof (assign_all_keeps _ _ _ Ha Hok) as (Hsub & _ & _).
  apply list.Forall_forall. intros id Hid. eapply list.Forall_forall in Hagain as [name Hn]; [|exact Hid].
  exists name. split; [exact Hn|]. pose proof (assign_extends _ _ _ _ Hn) as (Hins & _ & Hp). split; [done|].
  assert (Hl : names !! name = Some id) by (rewrite Hins; apply lookup_insert_eq). split; [unfold tool_of_name; by rewrite Hl|].
  intros Hpl. eapply assign_plain; [exact Hn|done|]. eapply lookup_weaken; [|exact Hsub]. by apply plain_names_spec.
Qed.

(** A hash of twenty characters, all the same. *)
#[local] Instance sample_hash : Encoding := {|
  json_compact := Some; json_message m := []; json_tool t := []; json_string s := bytes_of s;
  sha256_hex b := "0123456789abcdef0123" |}.
#[local] Instance sample_hex : HexHash.
Proof. split; [intros b; cbn; lia|]. intros b. by repeat constructor. Qed.

(** [a_b] and [a.b] sanitize to one name, and [a_b] keeps it. *)
Definition sample_names_request : ModelRequest :=
  MkRequest "" [] [MkToolSpec "a.b" "" "" [] [] false ∅ ""; MkToolSpec "a_b" "" "" [] [] false ∅ ""] [] [] [] "".

Definition sample_names_map : gmap bytes bytes := match functionNames sample_names_request with Ok names => names | Err _ => ∅ end.

Lemma sample_names_ok : functionNames sample_names_request = Ok sample_names_map.
Proof. vm_compute. reflexivity. Qed.

Lemma function_names_roundtrip_witness :
  sample_names_map !! bytes_of "a_b" = Some (bytes_of "a_b") /\
  sample_names_map !! bytes_of "a_b_0123456789abcdef" = Some (bytes_of "a.b") /\
  Forall (fun id => exists name, assignFunctionName sample_names_map id = Ok (sample_names_map, name) /\ plainFunctionName name = true /\
    tool_of_name sample_names_map name = id /\ (plainFunctionName id = true -> name = id)) (request_ids sample_names_request).
Proof.
  split; [vm_compute; reflexivity|]. split; [vm_compute; reflexivity|].
  exact (function_names_roundtrip sample_names_request sample_names_map sample_names_ok).
Defined.
