(* ===== verification/Sse.v ===== *)
(** * Server-Sent Events

    [model/sse.go]: one event of a streaming reply, read line by line within bounds on a line and
    on an event.  A response body is the bytes it still holds and the error it ends with; what
    [ctx.Err()] answers before each line is an argument. *)

From S2P Require Import Prelude GoStrings Errors.
Local Open Scope string_scope.
Local Open Scope list_scope.

Definition maxSSELineBytes : N := (2 ^ 20)%N.
Definition maxSSEEventBytes : N := (4 * 2 ^ 20)%N.

Record SSEEvent := MkSSE { se_Name : bytes; se_Data : bytes; se_End : bool }.

Record body := MkBody { bd_bytes : bytes; bd_end : error }.

Definition errorf (s : string) : error := ForeignErr (MkForeign s None None None None).
Definition line_too_long : error := errorf "model: SSE line exceeds 1048576 bytes".
Definition event_too_long : error := errorf "model: SSE event exceeds 4194304 bytes".

Definition nl : ascii := "010"%char.
Definition cr : ascii := "013"%char.

(** [readBoundedLine]: the line, the error that ended it, and what is left. *)
Fixpoint readBoundedLine (buf b : bytes) (last : error) : bytes * option error * bytes :=
  match b with
  | [] => (buf, Some last, [])
  | c :: rest =>
    if ascii_dec c nl then (buf, None, rest)
    else
      let buf := buf ++ [c] in
      if (maxSSELineBytes <? N.of_nat (length buf))%N then ([], Some line_too_long, rest)
      else readBoundedLine buf rest last
  end.

(** [strings.TrimSuffix] of a carriage return. *)
Definition trim_cr (line : bytes) : bytes :=
  match last line with Some c => if ascii_dec c cr then removelast line else line | None => line end.

Fixpoint join_lines (lines : list bytes) : bytes :=
  match lines with [] => [] | [line] => line | line :: rest => line ++ nl :: join_lines rest end.

(** What has been read of an event. *)
Record partial := MkPartial { pt_lines : list bytes; pt_name : bytes; pt_total : N }.
Definition partial_none : partial := MkPartial [] [] 0.

Definition data_field : bytes := bytes_of "data:".
Definition event_field : bytes := bytes_of "event:".

(** One line of an event: a field of it, or a line that is dropped. *)
Definition take_line (line : bytes) (p : partial) : outcome partial :=
  match cut_prefix line data_field with
  | Some after =>
    let payload := trim_space after in
    let total := (pt_total p + N.of_nat (length payload))%N in
    if (maxSSEEventBytes <? total)%N then Err event_too_long
    else Ok (MkPartial (pt_lines p ++ [payload]) (pt_name p) total)
  | None =>
    match cut_prefix line event_field with
    | Some after => Ok (MkPartial (pt_lines p) (trim_space after) (pt_total p))
    | None => Ok p
    end
  end.

(** [readSSEEvent]; an iteration that goes on has read a whole line, so the bytes of the body, and
    one more, are fuel enough. *)
Fixpoint read_event (fuel : nat) (ctx : nat -> option error) (i : nat) (p : partial) (b : bytes) (last : error)
    : option (outcome SSEEvent * bytes) :=
  match fuel with
  | 0 => None
  | S fuel =>
    match ctx i with
    | Some err => Some (Err err, b)
    | None =>
      let '(raw, err, rest) := readBoundedLine [] b last in
      let line := trim_cr raw in
      match take_line line p with
      | Err e => Some (Err e, rest)
      | Ok p =>
        match err with
        | Some e => Some (Err e, rest)
        | None =>
          if bool_decide (line = []) then
            if bool_decide (pt_lines p = []) then read_event fuel ctx (S i) (MkPartial [] [] (pt_total p)) rest last
            else Some (Ok (MkSSE (pt_name p) (join_lines (pt_lines p)) false), rest)
          else read_event fuel ctx (S i) p rest last
        end
      end
    end
  end.

Definition readSSEEvent (ctx : nat -> option error) (b : body) : outcome SSEEvent * body :=
  match read_event (S (length (bd_bytes b))) ctx 0 partial_none (bd_bytes b) (bd_end b) with
  | Some (answer, rest) => (answer, MkBody rest (bd_end b))
  | None => (Err (bd_end b), b)
  end.

(** ** Reading always ends *)

Lemma read_line_shorter buf b last line rest :
  readBoundedLine buf b last = (line, None, rest) -> (length rest < length b)%nat.
Proof.
  revert buf. induction b as [|c b IH]; intros buf Hr; cbn in Hr; [done|].
  destruct (ascii_dec c nl); [injection Hr as _ <-; cbn; lia|].
  destruct (maxSSELineBytes <? _)%N; [done|]. apply IH in Hr. cbn. lia.
Qed.

Lemma read_line_rest buf b last line err rest : readBoundedLine buf b last = (line, err, rest) -> (length rest <= length b)%nat.
Proof.
  revert buf. induction b as [|c b IH]; intros buf Hr; cbn in Hr; [injection Hr as _ _ <-; done|].
  destruct (ascii_dec c nl); [injection Hr as _ _ <-; cbn; lia|].
  destruct (maxSSELineBytes <? _)%N; [injection Hr as _ _ <-; cbn; lia|]. apply IH in Hr. cbn. lia.
Qed.

Lemma read_event_total fuel ctx i p b last : (length b < fuel)%nat -> is_Some (read_event fuel ctx i p b last).
Proof.
  revert i p b. induction fuel as [|fuel IH]; intros i p b Hf; [lia|]. cbn [read_event]. destruct (ctx i); [by eexists|].
  destruct (readBoundedLine [] b last) as [[raw err] rest] eqn:El. destruct (take_line (trim_cr raw) p) as [p'|]; [|by eexists].
  destruct err as [e|]; [by eexists|]. apply read_line_shorter in El.
  destruct (bool_decide (trim_cr raw = [])); [destruct (bool_decide (pt_lines p' = []))|]; [|by eexists|]; apply IH; lia.
Qed.

(** More fuel changes nothing. *)
Lemma read_event_fuel fuel fuel' ctx i p b last r :
  read_event fuel ctx i p b last = Some r -> (fuel <= fuel')%nat -> read_event fuel' ctx i p b last = Some r.
Proof.
  revert fuel' i p b. induction fuel as [|fuel IH]; intros fuel' i p b Hr Hf; [done|]. destruct fuel' as [|fuel']; [lia|].
  cbn [read_event] in *. destruct (ctx i); [done|].
  destruct (readBoundedLine [] b last) as [[raw err] rest]. destruct (take_line (trim_cr raw) p) as [p'|]; [|done].
  destruct err as [e|]; [done|].
  destruct (bool_decide (trim_cr raw = [])); [destruct (bool_decide (pt_lines p' = []))|]; [|done|]; apply IH; (done || lia).
Qed.

Lemma readSSEEvent_fuel fuel ctx b r :
  read_event fuel ctx 0 partial_none (bd_bytes b) (bd_end b) = Some r ->
  readSSEEvent ctx b = (r.1, MkBody r.2 (bd_end b)).
Proof.
  intros Hr. unfold readSSEEvent. destruct (read_event_total (S (length (bd_bytes b))) ctx 0 partial_none (bd_bytes b) (bd_end b)) as [r' Hr']; [lia|].
  rewrite Hr'. assert (r' = r) as ->; [|by destruct r].
  pose proof (read_event_fuel _ (Nat.max fuel (S (length (bd_bytes b)))) _ _ _ _ _ _ Hr) as H1.
  pose proof (read_event_fuel _ (Nat.max fuel (S (length (bd_bytes b)))) _ _ _ _ _ _ Hr') as H2.
  specialize (H1 ltac:(lia)). specialize (H2 ltac:(lia)). congruence.
Qed.

(** ** What is written is read back *)

(** A line as a provider writes it: no line break, and no white space around it. *)
Definition clean_line (s : bytes) : Prop := (nl ∉ s) /\ (cr ∉ s) /\ trim_space s = s.

Definition sse_line (eol field : bytes) (s : bytes) : bytes := field ++ " "%char :: s ++ eol.

(** An event of several data lines, after its name when it has one, with either line end. *)
Definition write_event (eol : bytes) (name : bytes) (lines : list bytes) : bytes :=
  (if bool_decide (name = []) then [] else sse_line eol event_field name) ++ mjoin (map (sse_line eol data_field) lines) ++ eol.

Definition line_end (eol : bytes) : Prop := eol = [nl] \/ eol = [cr; nl].

Lemma read_line_app buf s rest last :
  nl ∉ s -> (N.of_nat (length (buf ++ s)) <= maxSSELineBytes)%N -> readBoundedLine buf (s ++ nl :: rest) last = (buf ++ s, None, rest).
Proof.
  revert buf. induction s as [|c s IH]; intros buf Hn Hl; cbn.
  - by rewrite app_nil_r.
  - apply not_elem_of_cons in Hn as [Hc Hn]. destruct (ascii_dec c nl); [congruence|].
    rewrite !length_app in *. cbn [length] in *. destruct (N.ltb_spec maxSSELineBytes (N.of_nat (length buf + 1))); [lia|].
    rewrite IH; [by rewrite <- app_assoc|done|]. rewrite !length_app. cbn [length]. lia.
Qed.

Lemma trim_cr_snoc s : trim_cr (s ++ [cr]) = s.
Proof. unfold trim_cr. rewrite last_snoc. destruct (ascii_dec cr cr); [|done]. apply removelast_last. Qed.

Lemma trim_cr_other s c : c <> cr -> trim_cr (s ++ [c]) = s ++ [c].
Proof. intros Hc. unfold trim_cr. rewrite last_snoc. by destruct (ascii_dec c cr). Qed.

Lemma trim_space_pad s : trim_space (" "%char :: s) = trim_space s.
Proof. reflexivity. Qed.

(** One whole line is read as such, with either line end. *)
Lemma read_whole_line eol s rest last :
  line_end eol -> nl ∉ s -> cr ∉ s -> (N.of_nat (length s) < maxSSELineBytes)%N ->
  exists raw, readBoundedLine [] (s ++ eol ++ rest) last = (raw, None, rest) /\ trim_cr raw = s.
Proof.
  intros He Hn Hc Hl. destruct He as [->| ->].
  - exists s. split; [apply (read_line_app []); [done|cbn; lia]|]. destruct s as [|c s _] using rev_ind; [done|].
    apply trim_cr_other. intros ->. apply Hc, elem_of_app. right. by apply list_elem_of_singleton.
  - exists (s ++ [cr]). split; [|apply trim_cr_snoc].
    change (s ++ [cr; nl] ++ rest) with (s ++ [cr] ++ nl :: rest). rewrite app_assoc. apply (read_line_app []).
    + rewrite elem_of_app, list_elem_of_singleton. by intros [?|?].
    + cbn. rewrite length_app. cbn [length]. lia.
Qed.

(** A line that is no blank one adds to what has been read. *)
Lemma read_event_line fuel ctx i p p' eol s rest last :
  line_end eol -> nl ∉ s -> cr ∉ s -> s <> [] -> (N.of_nat (length s) < maxSSELineBytes)%N -> ctx i = None ->
  take_line s p = Ok p' ->
  read_event (S fuel) ctx i p (s ++ eol ++ rest) last = read_event fuel ctx (S i) p' rest last.
Proof.
  intros He Hn Hc Hs Hl Hctx Ht. destruct (read_whole_line eol s rest last He Hn Hc Hl) as (raw & Hr & Hraw).
  cbn [read_event]. rewrite Hctx, Hr, Hraw, Ht. by rewrite bool_decide_false.
Qed.

(** A blank line ends an event that has data. *)
Lemma read_event_end fuel ctx i p eol rest last :
  line_end eol -> ctx i = None -> pt_lines p <> [] ->
  read_event (S fuel) ctx i p (eol ++ rest) last = Some (Ok (MkSSE (pt_name p) (join_lines (pt_lines p)) false), rest).
Proof.
  intros He Hctx Hp. destruct (read_whole_line eol [] rest last He) as (raw & Hr & Hraw);
    [apply not_elem_of_nil..|done|]. cbn [app] in Hr. cbn [read_event]. rewrite Hctx, Hr, Hraw.
  change (take_line [] p) with (Ok (E := error) p). cbv beta iota. by rewrite bool_decide_true, bool_decide_false.
Qed.

Lemma not_in_app (c : ascii) (l k : bytes) : c ∉ l -> c ∉ k -> c ∉ l ++ k.
Proof. intros Hl Hk [?|?]%elem_of_app; done. Qed.

Lemma take_data s p :
  (pt_total p + N.of_nat (length s) <= maxSSEEventBytes)%N -> trim_space s = s ->
  take_line (data_field ++ " "%char :: s) p = Ok (MkPartial (pt_lines p ++ [s]) (pt_name p) (pt_total p + N.of_nat (length s))).
Proof.
  intros Hl Hs. unfold take_line. rewrite cut_prefix_app, trim_space_pad, Hs.
  destruct (N.ltb_spec maxSSEEventBytes (pt_total p + N.of_nat (length s))); [lia|done].
Qed.

Lemma take_event s p :
  trim_space s = s -> take_line (event_field ++ " "%char :: s) p = Ok (MkPartial (pt_lines p) s (pt_total p)).
Proof.
  intros Hs. unfold take_line. assert (cut_prefix (event_field ++ " "%char :: s) data_field = None) as -> by done.
  by rewrite cut_prefix_app, trim_space_pad, Hs.
Qed.

(** The lines of an event are small enough to be read. *)
Definition sizes_ok (name : bytes) (lines : list bytes) : Prop :=
  (N.of_nat (length name) + 7 < maxSSELineBytes)%N /\ Forall (fun s => (N.of_nat (length s) + 6 < maxSSELineBytes)%N) lines /\
  (N.of_nat (sum_list (length <$> lines)) <= maxSSEEventBytes)%N.

Lemma line_apart field s eol rest : sse_line eol field s ++ rest = (field ++ " "%char :: s) ++ eol ++ rest.
Proof. unfold sse_line. rewrite <- !app_assoc. cbn [app]. by rewrite <- app_assoc. Qed.

Lemma read_data_lines ctx eol lines k i p rest last :
  line_end eol -> (forall i, ctx i = None) -> Forall clean_line lines ->
  Forall (fun s => (N.of_nat (length s) + 6 < maxSSELineBytes)%N) lines ->
  (pt_total p + N.of_nat (sum_list (length <$> lines)) <= maxSSEEventBytes)%N ->
  pt_lines p ++ lines <> [] ->
  read_event (S (length lines + k)) ctx i p (mjoin (map (sse_line eol data_field) lines) ++ eol ++ rest) last =
  Some (Ok (MkSSE (pt_name p) (join_lines (pt_lines p ++ lines)) false), rest).
Proof.
  intros He Hctx Hc. revert i p. induction Hc as [|s lines (Hn & Hr & Hs) Hc IH]; intros i p Hl Ht Hne.
  - cbn [length Nat.add map]. change (mjoin []) with (@nil ascii). rewrite app_nil_l. rewrite app_nil_r in *. by apply read_event_end.
  - cbn [length Nat.add map].
    change (mjoin (sse_line eol data_field s :: map (sse_line eol data_field) lines))
      with (sse_line eol data_field s ++ mjoin (map (sse_line eol data_field) lines)).
    inversion Hl as [|? ? Hl1 Hl2]; subst. change (sum_list (length <$> s :: lines)) with (length s + sum_list (length <$> lines))%nat in Ht. rewrite <- app_assoc, line_apart.
    erewrite read_event_line; [|done|..|apply take_data; [lia|done]].
    + rewrite IH; [|done| |by destruct (pt_lines p)].
      * cbn [pt_name pt_lines]. by rewrite <- app_assoc.
      * cbn [pt_total]. lia.
    + apply not_in_app; [by apply (bool_decide_unpack _)|]. by apply not_elem_of_cons.
    + apply not_in_app; [by apply (bool_decide_unpack _)|]. by apply not_elem_of_cons.
    + done.
    + rewrite length_app. cbn [length]. change (length data_field) with 5%nat. lia.
    + apply Hctx.
Qed.

(** Data lines that are empty are not counted: an event of any number of them is read, and its
    data grows with them, whatever the limit of an event is. *)
Lemma empty_lines_uncounted n :
  exists event rest, readSSEEvent (fun _ => None) (MkBody (mjoin (replicate (S n) (sse_line [nl] data_field [])) ++ [nl]) IoEOF) = (Ok event, rest) /\
    length (se_Data event) = n.
Proof.
  assert (Hlines : mjoin (replicate (S n) (sse_line [nl] data_field [])) = mjoin (map (sse_line [nl] data_field) (replicate (S n) []))).
  { f_equal. generalize (S n). intros m. induction m as [|m IH]; [done|]. cbn [replicate map]. by rewrite IH. }
  assert (Hempty : forall m, sum_list (length <$> replicate m (@nil ascii)) = 0%nat) by (induction m as [|m IH]; [done|]; cbn; exact IH).
  assert (Hjoin : forall m, length (join_lines (replicate (S m) [])) = m).
  { induction m as [|m IH]; [done|]. change (length (nl :: join_lines (replicate (S m) [])) = S m). cbn [length]. by rewrite IH. }
  assert (Hclean : Forall clean_line (replicate (S n) [])).
  { apply list.Forall_forall. intros s Hs. apply elem_of_replicate in Hs as [-> _]. by split; [apply not_elem_of_nil|split; [apply not_elem_of_nil|]]. }
  assert (Hshort : Forall (fun s : bytes => (N.of_nat (length s) + 6 < maxSSELineBytes)%N) (replicate (S n) [])).
  { apply list.Forall_forall. intros s Hs. by apply elem_of_replicate in Hs as [-> _]. }
  assert (Hcount : (pt_total partial_none + N.of_nat (sum_list (length <$> replicate (S n) (@nil ascii))) <= maxSSEEventBytes)%N).
  { rewrite Hempty. vm_compute. done. }
  pose proof (read_data_lines (fun _ => None) [nl] (replicate (S n) []) 0 0 partial_none [] IoEOF
    (or_introl eq_refl) (fun _ => eq_refl) Hclean Hshort Hcount ltac:(done)) as Hr.
  rewrite app_nil_r in Hr. rewrite Hlines. exists (MkSSE [] (join_lines (replicate (S n) [])) false), (MkBody [] IoEOF).
  split; [|apply Hjoin]. exact (readSSEEvent_fuel _ _ (MkBody _ IoEOF) _ Hr).
Qed.

(** An event written as the format says, with or without a name, on as many data lines as
    there are, with either line end, is read back whole, its lines joined by line breaks, and
    what follows it is left unread. *)
Theorem sse_event_roundtrip ctx eol name lines rest last :
  line_end eol -> (forall i, ctx i = None) -> clean_line name -> Forall clean_line lines -> lines <> [] ->
  sizes_ok name lines ->
  readSSEEvent ctx (MkBody (write_event eol name lines ++ rest) last) = (Ok (MkSSE name (join_lines lines) false), MkBody rest last).
Proof.
  intros He Hctx (Hn & Hr & Hs) Hc Hne (Hl1 & Hl2 & Hl3).
  assert (Hdata : forall i p, pt_lines p = [] -> pt_total p = 0%N ->
    read_event (S (length lines + 0)) ctx i p (mjoin (map (sse_line eol data_field) lines) ++ eol ++ rest) last =
    Some (Ok (MkSSE (pt_name p) (join_lines lines) false), rest)).
  { intros i p Hp Ht. rewrite read_data_lines; [by rewrite Hp|done..|rewrite Ht; lia|by rewrite Hp]. }
  assert (exists fuel, read_event fuel ctx 0 partial_none (write_event eol name lines ++ rest) last = Some (Ok (MkSSE name (join_lines lines) false), rest)) as [fuel Hf].
  { unfold write_event. rewrite <- !app_assoc. destruct (bool_decide_reflect (name = [])) as [->|Hname].
    - eexists. by apply (Hdata 0 partial_none).
    - exists (S (S (length lines + 0))). rewrite line_apart.
      erewrite read_event_line; [|done|..|apply take_event; done].
      + by apply Hdata.
      + apply not_in_app; [by apply (bool_decide_unpack _)|]. by apply not_elem_of_cons.
      + apply not_in_app; [by apply (bool_decide_unpack _)|]. by apply not_elem_of_cons.
      + done.
      + rewrite length_app. cbn [length]. change (length event_field) with 6%nat. lia.
      + apply Hctx. }
  by rewrite (readSSEEvent_fuel fuel _ (MkBody _ last) _ Hf).
Qed.

Lemma sse_event_roundtrip_witness :
  write_event [nl] (bytes_of "delta") [bytes_of "{1}"; bytes_of "{2}"] = bytes_of "event: delta
data: {1}
data: {2}

" /\
  readSSEEvent (fun _ => None) (MkBody (write_event [nl] (bytes_of "delta") [bytes_of "{1}"; bytes_of "{2}"] ++ bytes_of "data: next") IoEOF) =
  (Ok (MkSSE (bytes_of "delta") (bytes_of "{1}
{2}") false), MkBody (bytes_of "data: next") IoEOF).
Proof.
  split; [vm_compute; reflexivity|].
  apply (sse_event_roundtrip (fun _ => None) [nl] (bytes_of "delta") [bytes_of "{1}"; bytes_of "{2}"] (bytes_of "data: next") IoEOF).
  - by left.
  - done.
  - split; [|split]; [by apply (bool_decide_unpack _)..|vm_compute; reflexivity].
  - repeat constructor; try (by apply (bool_decide_unpack _)); vm_compute; reflexivity.
  - done.
  - split; [by vm_compute|]. split; [by repeat constructor|]. by vm_compute.
Defined.
