(* ===== verification/Classify.v ===== *)
(** * What a failed model call means

    [model/classify.go] and [model/errors.go]: a Failure is what one attempt ran into, and a
    Verdict says whether to send the request again, or to compact.  The tables of
    [strings.ToLower], and what the errors of [net] and [crypto/x509] are, are parameters. *)

From stdpp Require Import pretty.
From S2P Require Import Prelude GoStrings Text Errors Types.
Local Open Scope string_scope.
Local Open Scope list_scope.

(** ** Data *)

(** What [errors.As] finds in a transport error. *)
Inductive netFailure : Type :=
| UnknownAuthority | CertificateInvalid | HostnameError | CertificateVerification | InvalidAddr | UnknownNetwork
| DNSError (notFound : bool).

(** [net_failures] are the failures of the chain of a transport error, and [cut_off] whether it is
    one of [io.ErrUnexpectedEOF], [ECONNRESET], [EPIPE] or a [net.Error]. *)
Class NetErrors := {
  to_lower : bytes -> bytes;
  net_failures : error -> list netFailure;
  cut_off : error -> bool;
}.

Record Failure := MkFailure {
  fl_Status : Z;
  fl_Message : string;
  fl_Code : string;
  fl_Type : string;
  fl_Err : option error;
}.

Record Verdict := MkVerdict { vd_Retryable : bool; vd_Overflow : bool; vd_Limit : Z }.

(** [Error] as an [error]: what the core asks of it. *)
Definition error_message (status : Z) (message : string) : string :=
  if Z.eqb status 0 then ("model: " ++ message)%string else ("model: HTTP " ++ pretty status ++ ": " ++ message)%string.

Definition newError (failure : Failure) (verdict : Verdict) : error :=
  let text := error_message (fl_Status failure) (fl_Message failure) in
  ForeignErr (MkForeign text (Some text) (Some (vd_Retryable verdict)) (Some (vd_Overflow verdict)) (fl_Err failure)).

(** [ContextLimit]. *)
Definition ContextLimit (verdict : Verdict) : Z := if vd_Overflow verdict then vd_Limit verdict else 0%Z.

(** ** The tables *)

Definition overflowPhrases : list string :=
  [ "prompt is too long"; "exceed context limit"; "maximum context length"; "context_length_exceeded";
    "exceeds the context window"; "input is too long"; "model_context_window_exceeded" ].

Definition quotaPhrases : list string :=
  [ "usage limit"; "freeusagelimiterror"; "gousagelimiterror"; "insufficient_quota"; "out of budget"; "quota exceeded";
    "available balance" ].

Definition transientStreamKinds : list string :=
  [ "overloaded_error"; "api_error"; "rate_limit_error"; "server_error"; "rate_limit_exceeded"; "service_unavailable_error" ].

(** ** The limit a refusal names *)

Definition digit (c : ascii) : bool := byte_in 48 57 c.
Definition comma : ascii := ","%char.
Definition digit_or_comma (c : ascii) : bool := digit c || bool_decide (c = comma).

Fixpoint span (f : ascii -> bool) (s : bytes) : bytes * bytes :=
  match s with
  | c :: rest => if f c then let (taken, rest) := span f rest in (c :: taken, rest) else ([], s)
  | [] => ([], [])
  end.

(** [\d[\d,]*], and what follows. *)
Definition number_at (s : bytes) : option (bytes * bytes) :=
  match s with
  | c :: rest => if digit c then Some (span digit_or_comma s) else None
  | [] => None
  end.

(** The four patterns, at one place of the text; each answers its first group. *)
Definition after_literal (literal : string) (s : bytes) : option bytes :=
  match cut_prefix s (bytes_of literal) with
  | Some rest => fst <$> number_at rest
  | None => None
  end.

Definition between_marks (s : bytes) : option bytes :=
  match cut_prefix s (bytes_of "> ") with
  | Some rest =>
    match number_at rest with
    | Some (number, rest) => if has_prefix rest (bytes_of " maximum") then Some number else None
    | None => None
    end
  | None => None
  end.

Definition after_sum (s : bytes) : option bytes :=
  match cut_prefix s (bytes_of "+ ") with
  | Some rest =>
    match span digit_or_comma rest with
    | ([], _) => None
    | (_, rest) => after_literal " > " rest
    end
  | None => None
  end.

Definition limitPatterns : list (bytes -> option bytes) :=
  [ after_literal "maximum context length is "; between_marks; after_sum; after_literal "context window of " ].

(** The leftmost match. *)
Fixpoint find_match (pattern : bytes -> option bytes) (s : bytes) : option bytes :=
  match pattern s with
  | Some number => Some number
  | None => match s with [] => None | _ :: rest => find_match pattern rest end
  end.

(** [strconv.Atoi] of digits. *)
Definition digits_value (s : bytes) : Z := foldl (fun n c => n * 10 + (Z.of_N (byte c) - 48))%Z 0%Z s.
Definition max_int : Z := (2 ^ 63 - 1)%Z.

Definition atoi (s : bytes) : option Z := let n := digits_value s in if (n <=? max_int)%Z then Some n else None.

Definition limit_named (number : bytes) : option Z :=
  match atoi (filter (fun c => c <> comma) number) with
  | Some limit => if (0 <? limit)%Z then Some limit else None
  | None => None
  end.

Section classify.
Context `{NetErrors}.

Fixpoint first_limit (patterns : list (bytes -> option bytes)) (lower : bytes) : Z :=
  match patterns with
  | [] => 0%Z
  | pattern :: rest =>
    match find_match pattern lower ≫= limit_named with
    | Some limit => limit
    | None => first_limit rest lower
    end
  end.

(** [limitIn]. *)
Definition limitIn (message : string) : Z := first_limit limitPatterns (to_lower (bytes_of message)).

Definition holds (lower : bytes) (phrase : string) : bool := contains lower (bytes_of phrase).

(** [namesOverflow]. *)
Definition namesOverflow (texts : list string) : bool :=
  existsb (fun text => existsb (holds (to_lower (bytes_of text))) overflowPhrases) texts.

(** [terminalQuotaLimit]. *)
Definition terminalQuotaLimit (message : string) : bool := existsb (holds (to_lower (bytes_of message))) quotaPhrases.

Definition retried_statuses : list Z := [429; 500; 502; 503; 504; 529]%Z.

(** [retryableStatus]. *)
Definition retryableStatus (status : Z) (message : string) : bool :=
  if Z.eqb status 429 && terminalQuotaLimit message then false
  else
    let lower := to_lower (bytes_of message) in
    existsb (Z.eqb status) retried_statuses || holds lower "rate limit" || holds lower "overloaded" || holds lower "service unavailable".

(** [transientStream]. *)
Definition transientStream (kinds : list string) : bool :=
  existsb (fun kind => existsb (fun k => bool_decide (to_lower (trim_space (bytes_of kind)) = bytes_of k)) transientStreamKinds) kinds.

Definition is_dns (f : netFailure) : bool := match f with DNSError _ => true | _ => false end.

(** [transientTransport]. *)
Definition transientTransport (err : error) : bool :=
  let found := net_failures err in
  if existsb (fun f => negb (is_dns f)) found then false
  else match found with DNSError notFound :: _ => negb notFound | _ => true end.

(** [DefaultClassifier]. *)
Definition DefaultClassifier (f : Failure) : Verdict :=
  let texts := [fl_Message f; fl_Code f; fl_Type f] in
  let (retryable, overflow) :=
    (if negb (Z.eqb (fl_Status f) 0) then
       (retryableStatus (fl_Status f) (fl_Message f),
        (Z.eqb (fl_Status f) 400 || Z.eqb (fl_Status f) 413) && namesOverflow texts)
     else
       match fl_Err f with
       | Some err =>
         if String.eqb (fl_Code f) "" && String.eqb (fl_Type f) "" then (transientTransport err, false)
         else (transientStream [fl_Code f; fl_Type f] || retryableStatus 0 (fl_Message f), namesOverflow texts)
       | None => (transientStream [fl_Code f; fl_Type f] || retryableStatus 0 (fl_Message f), namesOverflow texts)
       end) in
  if overflow then MkVerdict false true (limitIn (fl_Message f)) else MkVerdict retryable false 0.

(** [interrupted], of a read error. *)
Definition interrupted (err : error) : bool := errors_Is err IoEOF || cut_off err.

End classify.

(** ** What a Verdict says *)

Section verdict.
Context `{NetErrors}.

Lemma limit_named_range number limit : limit_named number = Some limit -> (0 < limit <= max_int)%Z.
Proof.
  unfold limit_named, atoi. cbv zeta. set (n := digits_value _). destruct (Z.leb_spec n max_int); [|done].
  destruct (Z.ltb_spec 0 n); [|done]. intros [= <-]. lia.
Qed.

Lemma first_limit_range patterns lower : (0 <= first_limit patterns lower <= max_int)%Z.
Proof.
  induction patterns as [|pattern patterns IH]; cbn [first_limit]; [unfold max_int; lia|].
  destruct (find_match pattern lower ≫= limit_named) as [limit|] eqn:E; [|exact IH].
  apply bind_Some in E as (number & _ & Hl). apply limit_named_range in Hl. lia.
Qed.

(** The default Classifier never asks to send a request again that was too long, or that a
    spent quota refused; it names a limit only with an overflow, and one that fits an [int]; and it
    sees an overflow only in a 400, in a 413, or in an error told without a status. *)
Theorem default_verdict_sound f :
  let v := DefaultClassifier f in
  (vd_Overflow v = true -> vd_Retryable v = false /\ (fl_Status f = 0 \/ fl_Status f = 400 \/ fl_Status f = 413)%Z) /\
  (fl_Status f = 429%Z -> terminalQuotaLimit (fl_Message f) = true -> vd_Retryable v = false) /\
  (vd_Limit v <> 0%Z -> vd_Overflow v = true) /\ (0 <= vd_Limit v <= max_int)%Z.
Proof.
  cbv zeta. unfold DefaultClassifier. cbv zeta.
  destruct (Z.eqb_spec (fl_Status f) 0) as [E0|E0]; cbn [negb].
  - assert (Hq : fl_Status f = 429%Z -> False) by lia.
    assert (forall (retryable overflow : bool),
      let v := if overflow then MkVerdict false true (limitIn (fl_Message f)) else MkVerdict retryable false 0 in
      (vd_Overflow v = true -> vd_Retryable v = false /\ (fl_Status f = 0 \/ fl_Status f = 400 \/ fl_Status f = 413)%Z) /\
      (fl_Status f = 429%Z -> terminalQuotaLimit (fl_Message f) = true -> vd_Retryable v = false) /\
      (vd_Limit v <> 0%Z -> vd_Overflow v = true) /\ (0 <= vd_Limit v <= max_int)%Z) as Hv.
    { intros retryable [|]; cbn [vd_Overflow vd_Retryable vd_Limit]; (split; [by auto|]); (split; [by intros ?%Hq|]); (split; [done|]); [apply first_limit_range|unfold max_int; lia]. }
    destruct (fl_Err f); [destruct (String.eqb (fl_Code f) "" && String.eqb (fl_Type f) "")|]; [apply (Hv _ false)|apply Hv..].
  - destruct ((_ || _) && _) eqn:Eo; cbn [vd_Overflow vd_Retryable vd_Limit].
    + apply andb_true_iff in Eo as [Es _]. apply orb_true_iff in Es. rewrite !Z.eqb_eq in Es.
      split; [by auto|]. split; [done|]. split; [done|apply first_limit_range].
    + split; [done|]. split; [|split; [done|unfold max_int; lia]]. intros -> Hq. unfold retryableStatus. by rewrite Hq.
Qed.

End verdict.

(** ASCII letters in lower case: a stand-in for the tables. *)
Definition ascii_lower (c : ascii) : ascii := if byte_in 65 90 c then ascii_of_N (byte c + 32) else c.
#[export] Instance sample_net : NetErrors := {| to_lower := map ascii_lower; net_failures _ := []; cut_off _ := false |}.

Example overflow_named :
  DefaultClassifier (MkFailure 400 "Prompt is too long: 210000 tokens > 200,000 maximum" "" "invalid_request_error" None) =
  MkVerdict false true 200000.
Proof. vm_compute. reflexivity. Qed.

Example quota_refused : vd_Retryable (DefaultClassifier (MkFailure 429 "Quota exceeded" "" "" None)) = false
  /\ vd_Retryable (DefaultClassifier (MkFailure 429 "slow down" "" "" None)) = true.
Proof. vm_compute. done. Qed.
