(* ===== verification/ModelClient.v ===== *)
(** * Sending a request and reading its reply

    [model/http.go] and [model/retry.go]: the one retry loop of every wire API.  What
    the transport answers, the random part of a wait, and what a context answers are arguments. *)

From S2P Require Import Prelude GoStrings Text Errors Types Reply Classify Sse.
From stdpp Require Import pretty.
Local Open Scope string_scope.
Local Open Scope list_scope.

(** ** Settings *)

Record Retry := MkRetrying { re_Max : Z; re_Backoff : duration; re_MaxWait : duration }.

Definition DefaultRetry : Retry := MkRetrying 2 (200 * 1000000)%Z (60 * second)%Z.

(** [checked]: [None] for a Retry that cannot work. *)
Definition checked (r : Retry) : option Retry :=
  if (re_Max r <? 0)%Z || (re_Backoff r <? 0)%Z || (re_MaxWait r <? 0)%Z then None
  else if Z.eqb (re_Max r) 0 then Some (MkRetrying 0 0 0)
  else Some (MkRetrying (re_Max r)
         (if Z.eqb (re_Backoff r) 0 then re_Backoff DefaultRetry else re_Backoff r)
         (if Z.eqb (re_MaxWait r) 0 then re_MaxWait DefaultRetry else re_MaxWait r)).

Record Client := MkClient { cl_retry : Retry; cl_classify : Failure -> Verdict; cl_badRequest : option error }.

(** [fail]. *)
Definition client_fail (c : Client) (f : Failure) : error := newError f (cl_classify c f).

(** [gotato.ModelRetry], as it is reported. *)
Record report := MkReport { rp_Attempt : Z; rp_Wait : duration; rp_Error : string }.

(** ** Waits *)

Definition i64 (z : Z) : Z := ((z + 2 ^ 63) mod 2 ^ 64 - 2 ^ 63)%Z.

(** [withJitter]; [random] is what the random numbers give, of which the remainder counts. *)
Definition withJitter (delay : duration) (random : Z) : duration :=
  if (delay <=? 0)%Z then delay
  else
    let span := Z.quot delay 4 in
    if (span <=? 0)%Z then delay else i64 (delay + random mod (span + 1)).

(** The backoff before an attempt, which grows with it. *)
Definition backoff (c : Client) (attempt : Z) : duration := i64 (re_Backoff (cl_retry c) * (attempt + 1)).

(** [time.ParseDuration], and [http.ParseTime] with what [time.Until] makes of it. *)
Class HttpText := { parse_duration : string -> option duration; until_date : string -> option duration }.

Record response := MkResponse { rs_Status : Z; rs_RetryAfterMs : string; rs_RetryAfter : string; rs_Body : body }.

(** [json.Unmarshal] of an error body, whose code is raw, and of a string. *)
Class ErrorBodies := { error_fields : bytes -> option (string * bytes * string); json_text : bytes -> option string }.

Definition trimmed_text (s : string) : string := string_of (trim_space (bytes_of s)).

Section client.
Context `{NetErrors, HttpText, ErrorBodies} (c : Client).

(** [retryAfterDuration]; -1 when the provider names no wait. *)
Definition retryAfterDuration (after_ms after : string) : duration :=
  let seconds :=
    (let value := trimmed_text after in
     if String.eqb value "" then (-1)%Z
     else
       let date := match until_date value with Some delay => Z.max delay 0 | None => (-1)%Z end in
       match parse_duration (value ++ "s") with
       | Some d => if (0 <=? d)%Z then d else date
       | None => date
       end) in
  let value := trimmed_text after_ms in
  if String.eqb value "" then seconds
  else match parse_duration (value ++ "ms") with
       | Some d => if (0 <=? d)%Z then d else seconds
       | None => seconds
       end.

(** [retryWait]. *)
Definition retryWait (after_ms after : string) (attempt random : Z) : duration :=
  let delay := withJitter (backoff c attempt) random in
  let named := retryAfterDuration after_ms after in
  Z.min (if (0 <=? named)%Z then named else delay) (re_MaxWait (cl_retry c)).

(** ** Refusals *)

(** [startsWithJSONObject]: within 256 bytes. *)
Fixpoint starts_object (n : nat) (b : bytes) : bool :=
  match n, b with
  | S n, ch :: rest =>
    if bool_decide (ch ∈ [" "%char; "009"%char; cr; nl]) then starts_object n rest else bool_decide (ch = "{"%char)
  | _, _ => false
  end.

Definition startsWithJSONObject (r : response) : bool := starts_object 256 (bd_bytes (rs_Body r)).

(** [errorCode]. *)
Definition errorCode (raw : bytes) : string :=
  match json_text raw with
  | Some text => text
  | None => if bool_decide (raw = bytes_of "null") then "" else string_of raw
  end.

(** [io.LimitReader]'s bound. *)
Definition errorBodyBytes : nat := N.to_nat (64 * 2 ^ 10).
#[global] Opaque errorBodyBytes.

(** [readErrorBody]: message, code and type. *)
Definition readErrorBody (b : body) : string * string * string :=
  let data := take errorBodyBytes (bd_bytes b) in
  if bool_decide (data = []) then ("empty response", "", "")
  else
    let '(message, code, kind) :=
      match error_fields data with Some (message, code, kind) => (message, errorCode code, kind) | None => ("", "", "") end in
    let message :=
      if String.eqb message "" then let text := trim_space data in string_of (take (Text.Cut text 512) text) else message in
    (message, code, kind).

Definition refusal (status : Z) (b : body) : Failure :=
  let '(message, code, kind) := readErrorBody b in MkFailure status message code kind None.

Definition transportMessage : string := "the request could not be sent".

(** ** One request, and its retries *)

(** What the world answers to one attempt: the answer of the transport, what the context says when
    there is none, the random number of the wait, and whether the wait was cut short. *)
Record try_ := MkTry { ty_Do : outcome response; ty_ctx : option error; ty_random : Z; ty_wait : option error }.

(** What an attempt comes to: a response, an error, or a failure with the wait that a retry of it
    would take and what it would report. *)
Inductive attempt_result : Type :=
| Opened (r : response)
| Ended (e : error)
| Refused (f : Failure) (wait : duration) (why : string).

Definition attempt_of (attempt : Z) (t : try_) : attempt_result :=
  match ty_Do t with
  | Err err =>
    match ty_ctx t with
    | Some e => Ended e
    | None => Refused (MkFailure 0 transportMessage "" "" (Some err)) (retryWait "" "" attempt (ty_random t)) "the request could not be sent"
    end
  | Ok r =>
    let wait := retryWait (rs_RetryAfterMs r) (rs_RetryAfter r) attempt (ty_random t) in
    if (200 <=? rs_Status r)%Z && (rs_Status r <? 300)%Z then
      if startsWithJSONObject r then Refused (refusal 0 (rs_Body r)) wait "the provider answered with an error" else Opened r
    else Refused (refusal (rs_Status r) (rs_Body r)) wait ("the provider answered " ++ pretty (rs_Status r))
  end.

(** [send], from [attempt] on; [None] when the world has answered all it will. *)
Fixpoint send (attempt : Z) (tries : list try_) : option (outcome response * list report) :=
  match cl_badRequest c with
  | Some err => Some (Err err, [])
  | None =>
    match tries with
    | [] => None
    | t :: rest =>
      match attempt_of attempt t with
      | Opened r => Some (Ok r, [])
      | Ended e => Some (Err e, [])
      | Refused f wait why =>
        let verdict := cl_classify c f in
        if vd_Retryable verdict && (attempt <? re_Max (cl_retry c))%Z then
          let told := MkReport (attempt + 1) wait why in
          match ty_wait t with
          | Some e => Some (Err e, [told])
          | None => prod_map id (cons told) <$> send (attempt + 1) rest
          end
        else Some (Err (newError f verdict), [])
      end
    end
  end.

End client.

(** ** Bounds of the retries *)

Section bounds.
Context `{NetErrors, HttpText, ErrorBodies} (c : Client).

Lemma send_ends attempt tries :
  (0 <= attempt)%Z -> (Z.to_nat (re_Max (cl_retry c) - attempt) < length tries)%nat -> is_Some (send c attempt tries).
Proof.
  revert attempt. induction tries as [|t tries IH]; intros attempt Ha Hl; cbn [send length] in *.
  { destruct (cl_badRequest c); [by eexists|lia]. }
  destruct (cl_badRequest c); [by eexists|]. destruct (attempt_of c attempt t); [by eexists..|].
  destruct (vd_Retryable _); cbn [andb]; [|by eexists]. destruct (Z.ltb_spec attempt (re_Max (cl_retry c))); [|by eexists].
  destruct (ty_wait t); [by eexists|]. destruct (IH (attempt + 1)%Z) as [r Hr]; [lia|lia|]. rewrite Hr. by eexists.
Qed.

Lemma wait_bounded after_ms after attempt random : (retryWait c after_ms after attempt random <= re_MaxWait (cl_retry c))%Z.
Proof. unfold retryWait. lia. Qed.

Lemma attempt_wait_bounded attempt t :
  match attempt_of c attempt t with Refused _ wait _ => (wait <= re_MaxWait (cl_retry c))%Z | _ => True end.
Proof.
  unfold attempt_of. destruct (ty_Do t) as [r|err].
  - cbv zeta. destruct ((200 <=? rs_Status r)%Z && (rs_Status r <? 300)%Z); [destruct (startsWithJSONObject r)|]; [|exact I|]; apply wait_bounded.
  - destruct (ty_ctx t); [exact I|]. apply wait_bounded.
Qed.

(** Every retry is reported, with the number of the attempt that failed and a bounded wait. *)
Definition reported (from : Z) (reports : list report) : Prop :=
  rp_Attempt <$> reports = (fun i => from + Z.of_nat i)%Z <$> seq 0 (length reports) /\
  Forall (fun r => (rp_Wait r <= re_MaxWait (cl_retry c))%Z /\ (rp_Attempt r <= re_Max (cl_retry c))%Z) reports.

Lemma send_reported attempt tries answer reports :
  send c attempt tries = Some (answer, reports) -> reported (attempt + 1) reports /\ (length reports <= length tries)%nat.
Proof.
  revert attempt answer reports. induction tries as [|t tries IH]; intros attempt answer reports Hs; cbn [send] in Hs;
    (destruct (cl_badRequest c); [injection Hs as _ <-; split; [by split|cbn; lia]|]); [done|].
  assert (Hnone : forall n, reported n [] /\ (@length report [] <= length (t :: tries))%nat) by (intros n; split; [by split|cbn; lia]).
  pose proof (attempt_wait_bounded attempt t) as Ea.
  destruct (attempt_of c attempt t) as [r|e|f wait why]; [by injection Hs as _ <-..|].
  destruct (vd_Retryable _); cbn [andb] in Hs; [|by injection Hs as _ <-].
  destruct (Z.ltb_spec attempt (re_Max (cl_retry c))); [|by injection Hs as _ <-].
  assert (Hone : (rp_Wait (MkReport (attempt + 1) wait why) <= re_MaxWait (cl_retry c))%Z /\ (attempt + 1 <= re_Max (cl_retry c))%Z) by (cbn; lia).
  destruct (ty_wait t).
  - injection Hs as _ <-. split; [|cbn; lia]. split; [cbn; f_equal; lia|by constructor].
  - destruct (send c (attempt + 1) tries) as [[answer' reports']|] eqn:Es; [|done]. cbn in Hs. injection Hs as _ <-.
    destruct (IH _ _ _ Es) as [[Hn Hf] Hl]. split; [|cbn; lia]. split; [|by constructor].
    cbn [fmap list_fmap length seq]. f_equal; [cbn; lia|]. rewrite Hn, <- (fmap_S_seq 0), <- list_fmap_compose.
    apply list_fmap_ext. intros i x _. cbn. lia.
Qed.

(** A request is sent at most once more than its retries allow and the call always comes to an
    end; every retry is reported before its wait, with its number, and no wait is longer than
    the settings allow, whatever the provider asks for and however the backoff wraps. *)
Theorem send_bounded tries :
  (0 <= re_Max (cl_retry c))%Z -> (Z.to_nat (re_Max (cl_retry c)) < length tries)%nat ->
  exists answer reports, send c 0 tries = Some (answer, reports) /\
    (Z.of_nat (length reports) <= re_Max (cl_retry c))%Z /\ reported 1 reports /\
    send c 0 (take (S (Z.to_nat (re_Max (cl_retry c)))) tries) = Some (answer, reports).
Proof.
  intros Hm Hl. destruct (send_ends 0 (take (S (Z.to_nat (re_Max (cl_retry c)))) tries)) as [[answer reports] Hs]; [lia|rewrite length_take; lia|].
  exists answer, reports. pose proof (send_reported _ _ _ _ Hs) as [Hr _]. split; [|split; [|split; [exact Hr|exact Hs]]].
  - clear -Hs. revert Hs. generalize (S (Z.to_nat (re_Max (cl_retry c)))) as n. generalize 0%Z as attempt. revert answer reports.
    induction tries as [|t tries IH]; intros answer reports attempt n Hs; [by rewrite take_nil in Hs|].
    destruct n as [|n]; cbn [take send] in Hs |- *; destruct (cl_badRequest c); try done.
    destruct (attempt_of c attempt t); try done. destruct (_ && _); [|done]. destruct (ty_wait t); [done|].
    destruct (send c (attempt + 1) (take n tries)) as [[answer' reports']|] eqn:Es; [|done]. by rewrite (IH _ _ _ _ Es).
  - destruct Hr as [Hn Hf]. destruct reports as [|r reports _] using rev_ind; [cbn; lia|].
    apply list.Forall_app in Hf as [_ Hf]. inversion Hf as [|? ? [_ Ha] _]; subst. rewrite length_app in *. cbn [length] in *.
    rewrite fmap_app, Nat.add_1_r, seq_S, fmap_app in Hn. apply app_inj_tail in Hn as [_ Hn]. cbn in Hn. lia.
Qed.

End bounds.

(** ** Samples *)

#[local] Instance refusing_http : HttpText := {| parse_duration _ := None; until_date _ := None |}.
#[local] Instance refusing_bodies : ErrorBodies := {| error_fields _ := None; json_text _ := None |}.

Definition default_client : Client := MkClient DefaultRetry DefaultClassifier None.
Definition overloaded : response := MkResponse 503 "" "" (MkBody (bytes_of "overloaded") IoEOF).

(** A provider that is overloaded all the time. *)
Lemma send_bounded_witness :
  exists answer reports, send default_client 0 (replicate 9 (MkTry (Ok overloaded) None 0 None)) = Some (answer, reports) /\
    length reports = 2%nat /\ reported default_client 1 reports.
Proof.
  destruct (send_bounded default_client (replicate 9 (MkTry (Ok overloaded) None 0 None))) as (answer & reports & Hs & _ & Hr & _).
  - by vm_compute.
  - by vm_compute; lia.
  - exists answer, reports. split; [exact Hs|]. split; [|exact Hr].
    assert (Hlen : (fun r => length r.2) <$> send default_client 0 (replicate 9 (MkTry (Ok overloaded) None 0 None)) = Some 2%nat) by (vm_compute; reflexivity).
    rewrite Hs in Hlen. by injection Hlen.
Defined.
