(* ===== verification/ModelStream.v ===== *)
(** * The stream of one reply

    [model/stream.go] and [model/restart.go]: the one stream loop of every wire API, over any
    Decoder.  A stream that is cut is opened again; what reached the caller before is void only when
    a Session was told, so nobody reads a reply twice. *)

From S2P Require Import Prelude GoStrings Text Errors Types Reply Classify Sse ModelClient.
Local Open Scope string_scope.
Local Open Scope list_scope.

(** [protocolFailure]. *)
Definition protocolFailure (t : text error) : error :=
  RuntimeErr (MkRuntimeError CodeModelProtocolFailure "ModelStream" t false false ∅ None None).

(** ** The events of a reply *)

Definition text_delta (text : string) : ModelEvent := MkModelEvent ModelEventKindTextDelta text [] None usage_zero "" "".
Definition reasoning_delta (text : string) : ModelEvent := MkModelEvent ModelEventKindReasoningDelta text [] None usage_zero "" "".
Definition reasoning_done (artifact : bytes) : ModelEvent := MkModelEvent ModelEventKindReasoningDone "" artifact None usage_zero "" "".
Definition usage_event (usage : Usage) : ModelEvent := MkModelEvent ModelEventKindUsage "" [] None usage "" "".
Definition call_event (call : ToolCall) : ModelEvent := MkModelEvent ModelEventKindToolCall "" [] (Some call) usage_zero "" "".
Definition done_event (stop : StopReason) (usage : Usage) (model : string) : ModelEvent :=
  MkModelEvent ModelEventKindDone "" [] None usage stop model.

Definition is_done (event : ModelEvent) : bool := String.eqb (me_Kind event) ModelEventKindDone.
Abbreviation no_done := (Forall (fun event => is_done event = false)).

(** ** Decoders *)

(** The error of a Decoder: a Failure, which the Classifier reads, or any other. *)
Inductive decodeError : Type :=
| DFailure (f : Failure)
| DError (e : error).

(** [Decoder]: a new one, and what it makes of an event: events, whether the reply is complete,
    and an error. *)
Record Decoder (D : Type) := MkDecoder {
  newDecoder : D;
  Decode : SSEEvent -> D -> D * (list ModelEvent * bool * option decodeError);
}.
Arguments newDecoder {D} _.
Arguments Decode {D} _ _ _.

Definition end_event : SSEEvent := MkSSE [] [] true.

(** What a Decoder has made of a reply so far. *)
Record decoded (D : Type) := MkDecoded {
  de_decoder : D;
  de_events : list ModelEvent;
  de_done : bool;
  de_error : option decodeError;
}.
Arguments MkDecoded {D}.
Arguments de_decoder {D} d.
Arguments de_events {D} d.
Arguments de_done {D} d.
Arguments de_error {D} d.

Definition decode_one {D} (dec : Decoder D) (d : decoded D) (event : SSEEvent) : decoded D :=
  let '(decoder, (events, done, err)) := Decode dec event (de_decoder d) in
  MkDecoded decoder (de_events d ++ events) (de_done d || done) (match err with Some e => Some e | None => de_error d end).

(** A reply read by one Decoder. *)
Definition decode_reply {D} (dec : Decoder D) (events : list SSEEvent) : decoded D :=
  foldl (decode_one dec) (MkDecoded (newDecoder dec) [] false None) events.

(** Before the last event the Decoder had neither finished nor failed. *)
Definition unsettled_before {D} (dec : Decoder D) (events : list SSEEvent) : Prop :=
  forall n, (n < length events)%nat ->
    de_done (decode_reply dec (take n events)) = false /\ de_error (decode_reply dec (take n events)) = None.

Lemma unsettled_snoc {D} (dec : Decoder D) events event :
  unsettled_before dec events -> de_done (decode_reply dec events) = false -> de_error (decode_reply dec events) = None ->
  unsettled_before dec (events ++ [event]).
Proof.
  intros Hu Hd He n Hn. rewrite length_app in Hn. cbn in Hn. destruct (decide (n < length events)) as [Hlt|Hge].
  - rewrite take_app_le by lia. by apply Hu.
  - rewrite take_app_length' by lia. done.
Qed.

(** What a wire API promises the core: while it reads a reply it announces no end; a Done ends the
    reply, and comes last; a reply that fails has none; and it never fails with [io.EOF]. *)
Class LawfulDecoder {D} (dec : Decoder D) := {
  reading : D -> Prop;
  reading_new : reading (newDecoder dec);
  reading_decode event d d' events done err :
    reading d -> Decode dec event d = (d', (events, done, err)) ->
    match err, done with
    | Some _, _ => no_done events
    | None, false => no_done events /\ reading d'
    | None, true => exists before e, events = before ++ [e] /\ no_done before /\ is_done e = true
    end;
  decode_not_eof event d : (Decode dec event d).2.2 <> Some (DError IoEOF);
}.

(** A reply as far as it was read. *)
Definition lawful_reply {D} (r : decoded D) : Prop :=
  match de_error r, de_done r with
  | None, true => exists before e, de_events r = before ++ [e] /\ no_done before /\ is_done e = true
  | _, _ => no_done (de_events r)
  end.

Lemma lawful_reading {D} (dec : Decoder D) `{!LawfulDecoder dec} events :
  unsettled_before dec events ->
  lawful_reply (decode_reply dec events) /\
  (de_done (decode_reply dec events) = false -> de_error (decode_reply dec events) = None -> reading (de_decoder (decode_reply dec events))).
Proof.
  induction events as [|event events IH] using rev_ind; intros Hu.
  { split; [by apply Forall_nil|intros _ _; apply reading_new]. }
  assert (Hbefore : unsettled_before dec events).
  { intros n Hn. destruct (Hu n) as [Hd He]; [rewrite length_app; cbn; lia|]. by rewrite take_app_le in Hd, He by lia. }
  destruct (Hu (length events)) as [Hd He]; [rewrite length_app; cbn; lia|]. rewrite take_app_length in Hd, He.
  destruct (IH Hbefore) as [Hl Hr]. specialize (Hr Hd He). unfold decode_reply in *. rewrite foldl_app. cbn [foldl].
  set (r := foldl _ _ events) in *. unfold lawful_reply in *. rewrite Hd, He in Hl. unfold decode_one.
  destruct (Decode dec event (de_decoder r)) as [decoder [[new done] err]] eqn:Ed.
  pose proof (reading_decode event _ _ _ _ _ Hr Ed) as Hlaw. cbn. rewrite Hd, He. cbn.
  destruct err as [e|]; [|destruct done].
  - split; [by apply list.Forall_app|done].
  - destruct Hlaw as (before & e & -> & Hn & Hdone). split; [|done]. exists (de_events r ++ before), e. rewrite app_assoc.
    split; [done|]. split; [by apply list.Forall_app|done].
  - destruct Hlaw as [Hn Hr']. split; [by apply list.Forall_app|done].
Qed.

Section stream.
Context `{NetErrors, HttpText, ErrorBodies} (c : Client) {D : Type} (dec : Decoder D).

(** Whether [gotato.ReportModelRetry] finds a Session in the context. *)
Context (listening : bool).

(** ** Restarts *)

Definition streamInterruptedMessage : string := "stream interrupted".

(** What the world answers when a stream was cut: the context, the random number of the wait, the
    wait, and the attempts of the request that is sent again. *)
Record cut := MkCut { cu_ctx : option error; cu_random : Z; cu_wait : option error; cu_tries : list try_ }.

(** The read error loses its chain. *)
Definition interruption (cause_text : string) : Failure :=
  MkFailure 0 streamInterruptedMessage "" "" (Some (ForeignErr (MkForeign cause_text None None None None))).

(** [recover]: how many restarts there were, what was reported, and the response or the error. *)
Definition recover (error_text : error -> string) (cause : error) (restarts : Z) (delivered : bool) (w : cut)
    : option (Z * list report * outcome response) :=
  match cu_ctx w with
  | Some err => Some (restarts, [], Err err)
  | None =>
    if negb (interrupted cause) then Some (restarts, [], Err cause)
    else
      let failure := interruption (error_text cause) in
      let verdict := cl_classify c failure in
      if negb (vd_Retryable verdict) || (re_Max (cl_retry c) <=? restarts)%Z then Some (restarts, [], Err (newError failure verdict))
      else
        let delay := Z.min (withJitter (backoff c restarts) (cu_random w)) (re_MaxWait (cl_retry c)) in
        let told := if listening then [MkReport (restarts + 1) delay "the stream was cut off"] else [] in
        if delivered && negb listening then Some (restarts, told, Err (newError failure verdict))
        else
          match cu_wait w with
          | Some err => Some ((restarts + 1)%Z, told, Err err)
          | None =>
            '(answer, reports) ← send c 0 (cu_tries w);
            Some ((restarts + 1)%Z, told ++ (if listening then reports else []), answer)
          end
  end.

(** ** The loop *)

Record stream := MkStream {
  st_decoder : D;
  st_restarts : Z;
  st_delivered : bool;
  st_body : body;
  st_queue : list ModelEvent;
  st_done : bool;
  st_err : option error;
}.

(** [newStream]. *)
Definition newStream (b : body) : stream := MkStream (newDecoder dec) 0 false b [] false None.

Definition stream_error (e : decodeError) : error := match e with DFailure f => client_fail c f | DError err => err end.

(** [decode]. *)
Definition decode (event : SSEEvent) (s : stream) : stream :=
  let '(decoder, (events, done, err)) := Decode dec event (st_decoder s) in
  MkStream decoder (st_restarts s) (st_delivered s) (st_body s) (st_queue s ++ events) (st_done s || done)
    (match err with Some e => Some (stream_error e) | None => st_err s end).

Definition with_body (b : body) (s : stream) : stream :=
  MkStream (st_decoder s) (st_restarts s) (st_delivered s) b (st_queue s) (st_done s) (st_err s).

(** [decodeEnd] has settled the stream. *)
Definition settled (s : stream) : bool := st_done s || bool_decide (is_Some (st_err s)).

(** [reopen]. *)
Definition reopen (restarts : Z) (r : response) (s : stream) : stream :=
  MkStream (newDecoder dec) restarts (st_delivered s) (rs_Body r) [] false None.

Definition with_restarts (n : Z) (s : stream) : stream :=
  MkStream (st_decoder s) n (st_delivered s) (st_body s) (st_queue s) (st_done s) (st_err s).

(** One turn of [Recv]'s loop, with nothing in the queue: the stream goes on, or [Recv] returns an
    error. *)
Definition recv_step (error_text : error -> string) (ctx : nat -> option error) (cuts : list cut) (s : stream)
    : option (result error unit * stream * list report * list cut) :=
  match st_err s with
  | Some err => Some (Err err, s, [], cuts)
  | None =>
    if st_done s then Some (Err IoEOF, s, [], cuts)
    else
      let (answer, rest) := readSSEEvent ctx (st_body s) in
      let s := with_body rest s in
      match answer with
      | Ok event => Some (Ok tt, decode event s, [], cuts)
      | Err err =>
        let ended := errors_Is err IoEOF in
        let s := if ended then decode end_event s else s in
        if ended && settled s then Some (Ok tt, s, [], cuts)
        else
          match cuts with
          | [] => None
          | w :: cuts =>
            match recover error_text err (st_restarts s) (st_delivered s) w with
            | None => None
            | Some (n, reports, Ok r) => Some (Ok tt, reopen n r s, reports, cuts)
            | Some (n, reports, Err e) => Some (Err e, with_restarts n s, reports, cuts)
            end
          end
      end
  end.

(** [Recv]; [ctx] says what the context answers at each event and line. *)
Fixpoint recv (fuel : nat) (error_text : error -> string) (ctx : nat -> nat -> option error) (cuts : list cut) (s : stream)
    : option (outcome ModelEvent * stream * list report * list cut) :=
  match fuel with
  | 0 => None
  | S fuel =>
    match st_queue s with
    | event :: rest =>
      Some (Ok event, MkStream (st_decoder s) (st_restarts s) true (st_body s) rest (st_done s) (st_err s), [], cuts)
    | [] =>
      match recv_step error_text (ctx fuel) cuts s with
      | None => None
      | Some (Err e, s, reports, cuts) => Some (Err e, s, reports, cuts)
      | Some (Ok _, s, reports, cuts) =>
        '(answer, s, more, cuts) ← recv fuel error_text ctx cuts s; Some (answer, s, reports ++ more, cuts)
      end
    end
  end.

(** ** A caller *)

(** A caller that reads until an error, and drops what it has when a retry is reported. *)
Fixpoint read_all (calls fuel : nat) (error_text : error -> string) (ctx : nat -> nat -> nat -> option error)
    (cuts : list cut) (seen : list ModelEvent) (s : stream) : option (list ModelEvent * option error * stream) :=
  match calls with
  | 0 => Some (seen, None, s)
  | S calls =>
    '(answer, s, reports, cuts) ← recv fuel error_text (ctx calls) cuts s;
    let seen := match reports with [] => seen | _ => [] end in
    match answer with
    | Ok event => read_all calls fuel error_text ctx cuts (seen ++ [event]) s
    | Err e => Some (seen, Some e, s)
    end
  end.

(** ** What the caller has is one reply *)

(** The stream and what the caller has of it are a reply that one Decoder read. *)
Record reads (seen : list ModelEvent) (s : stream) (events : list SSEEvent) : Prop := {
  rd_decoder : st_decoder s = de_decoder (decode_reply dec events);
  rd_events : seen ++ st_queue s = de_events (decode_reply dec events);
  rd_done : st_done s = de_done (decode_reply dec events);
  rd_error : st_err s = stream_error <$> de_error (decode_reply dec events);
  rd_before : unsettled_before dec events;
}.

(** Before anything was handed over, the caller has nothing. *)
Definition undelivered (seen : list ModelEvent) (s : stream) : Prop := listening = true \/ st_delivered s = true \/ seen = [].

Lemma reads_unsettled seen s events :
  reads seen s events -> st_done s = false -> st_err s = None ->
  de_done (decode_reply dec events) = false /\ de_error (decode_reply dec events) = None.
Proof. intros [_ _ Hn Hr _] Hd He. rewrite <- Hn. split; [done|]. rewrite He in Hr. symmetry in Hr. by apply fmap_None in Hr. Qed.

Lemma decode_reads seen s events event :
  st_done s = false -> st_err s = None -> reads seen s events -> reads seen (decode event s) (events ++ [event]).
Proof.
  intros Hsd Hse Hs. destruct (reads_unsettled _ _ _ Hs Hsd Hse) as [Hud Hue]. destruct Hs as [Hd He Hn Hr Hb]. unfold decode. rewrite Hd.
  assert (Hone : decode_reply dec (events ++ [event]) = decode_one dec (decode_reply dec events) event) by (unfold decode_reply; by rewrite foldl_app).
  destruct (Decode dec event (de_decoder (decode_reply dec events))) as [decoder [[new done] err]] eqn:Ed.
  split; [rewrite Hone; unfold decode_one; rewrite Ed; cbn..|by apply unsettled_snoc].
  - done.
  - by rewrite app_assoc, He.
  - by rewrite Hn.
  - by destruct err.
Qed.

Lemma with_body_reads seen s events b : reads seen s events -> reads seen (with_body b s) events.
Proof. by intros [? ? ? ? ?]. Qed.

Lemma new_reads s : st_decoder s = newDecoder dec -> st_queue s = [] -> st_done s = false -> st_err s = None -> reads [] s [].
Proof. intros Hd Hq Hn He. split; cbn; [done|by rewrite Hq|done|by rewrite He|]. intros n Hn'. cbn in Hn'. lia. Qed.

(** What the caller keeps after the reports of a step. *)
Definition kept {A} (seen : list A) (reports : list report) : list A := match reports with [] => seen | _ => [] end.

Lemma recover_reports error_text cause n delivered w m reports r :
  recover error_text cause n delivered w = Some (m, reports, Ok r) -> if listening then reports <> [] else delivered = false /\ reports = [].
Proof.
  unfold recover. destruct (cu_ctx w); [done|]. destruct (interrupted cause); [|done]. cbn [negb]. cbv zeta.
  destruct (negb _ || _); [done|]. destruct listening; cbn [negb andb].
  - rewrite andb_false_r. destruct (cu_wait w); [done|]. destruct (send c 0 (cu_tries w)) as [[answer more]|]; [|done].
    by intros [= _ <- _].
  - rewrite andb_true_r. destruct delivered; [done|]. destruct (cu_wait w); [done|].
    destruct (send c 0 (cu_tries w)) as [[answer more]|]; [|done]. by intros [= _ <- _].
Qed.

(** A step of the loop: the reply goes on, or a new one starts, and then the caller has nothing. *)
Lemma recv_step_reads error_text ctx cuts s seen events u s' reports cuts' :
  st_queue s = [] -> reads seen s events -> undelivered seen s ->
  recv_step error_text ctx cuts s = Some (Ok u, s', reports, cuts') ->
  undelivered (kept seen reports) s' /\ exists events', reads (kept seen reports) s' events'.
Proof.
  intros Hq Hr Hu. unfold recv_step. destruct (st_err s) eqn:Ee; [done|]. destruct (st_done s) eqn:Ed; [done|].
  destruct (readSSEEvent ctx (st_body s)) as [[event|err] rest].
  - intros [= <- <- <- <-]. cbn [kept]. split.
    + unfold undelivered, decode in *. by destruct (Decode _ _ _) as [? [[? ?] ?]].
    + eexists. apply decode_reads; [done..|]. by apply with_body_reads.
  - set (s1 := if errors_Is err IoEOF then decode end_event (with_body rest s) else with_body rest s).
    assert (H1s : st_delivered s1 = st_delivered s).
    { unfold s1, decode. destruct (errors_Is err IoEOF); [|done]. by destruct (Decode _ _ _) as [? [[? ?] ?]]. }
    assert (Hr1 : exists events', reads seen s1 events').
    { unfold s1. destruct (errors_Is err IoEOF); eexists; [apply decode_reads; [done..|]|]; by apply with_body_reads. }
    destruct (errors_Is err IoEOF && settled s1).
    + intros [= <- <- <- <-]. split; [|exact Hr1]. unfold undelivered in *. by rewrite H1s.
    + destruct cuts as [|w cuts]; [done|]. destruct (recover _ _ _ _ _) as [[[n more] [r|e]]|] eqn:Erec; [|done..].
      intros [= <- <- <- <-]. apply recover_reports in Erec. rewrite H1s in Erec. unfold undelivered in *. cbn [st_delivered reopen].
      rewrite H1s. assert (Hk : kept seen more = []).
      { destruct listening; [by destruct more|]. destruct Erec as [Hd ->]. cbn. destruct Hu as [?|[?|?]]; congruence. }
      rewrite Hk. split; [by right; right|]. exists []. by apply new_reads.
Qed.

Lemma kept_app {A} (seen : list A) r1 r2 : kept (kept seen r1) r2 = kept seen (r1 ++ r2).
Proof. by destruct r1, r2. Qed.

(** What a context answers: that it was canceled, or that its deadline passed. *)
Definition ctx_error (e : error) : Prop := e = ContextCanceled \/ e = ContextDeadlineExceeded.
Definition honest_try (t : try_) : Prop :=
  (forall e, ty_ctx t = Some e -> ctx_error e) /\ (forall e, ty_wait t = Some e -> ctx_error e).
Definition honest_cut (w : cut) : Prop :=
  (forall e, cu_ctx w = Some e -> ctx_error e) /\ (forall e, cu_wait w = Some e -> ctx_error e).

Lemma ctx_error_eof e : ctx_error e -> errors_Is e IoEOF = false.
Proof. by intros [->| ->]. Qed.

Lemma ctx_error_not_eof e : ctx_error e -> e <> IoEOF.
Proof. by intros [->| ->]. Qed.

(** A request that can be made fails with no bare [io.EOF]. *)
Lemma send_error attempt tries e reports :
  cl_badRequest c <> Some IoEOF -> Forall honest_try tries -> send c attempt tries = Some (Err e, reports) -> e <> IoEOF.
Proof.
  intros Hbad Ht. revert attempt reports. induction Ht as [|t tries [Hctx Hw] Ht IH]; intros attempt reports Hs; cbn [send] in Hs;
    (destruct (cl_badRequest c); [injection Hs as -> _; congruence|]); [done|].
  assert (Ha : forall e', attempt_of c attempt t = Ended e' -> e' <> IoEOF).
  { unfold attempt_of. destruct (ty_Do t) as [r|err].
    - cbv zeta. destruct ((200 <=? rs_Status r)%Z && (rs_Status r <? 300)%Z); [destruct (startsWithJSONObject r)|]; discriminate.
    - destruct (ty_ctx t) as [e0|]; [|discriminate]. intros e' [= <-]. by apply ctx_error_not_eof, Hctx. }
  destruct (attempt_of c attempt t) as [r|e'|f wait why]; [done|injection Hs as <- _; by apply Ha|].
  destruct (vd_Retryable _ && _); [|by injection Hs as <- _]. destruct (ty_wait t) as [e0|]; [injection Hs as <- _; by apply ctx_error_not_eof, Hw|].
  destruct (send c (attempt + 1) tries) as [[answer' reports']|] eqn:Es; [|done]. cbn in Hs. injection Hs as -> _. by eapply IH.
Qed.

(** A stream that is not read again says that it is over only when the request that would have read it again says so. *)
Lemma recover_error error_text cause n delivered w m reports e :
  honest_cut w -> recover error_text cause n delivered w = Some (m, reports, Err e) -> errors_Is e IoEOF = true ->
  exists more, send c 0 (cu_tries w) = Some (Err e, more).
Proof.
  intros (Hctx & Hw). unfold recover. destruct (cu_ctx w) as [e0|]; [intros [= _ _ <-]; by rewrite ctx_error_eof by by apply Hctx|].
  destruct (interrupted cause) eqn:Ei; cbn [negb].
  2: { intros [= _ _ <-]. unfold interrupted in Ei. apply orb_false_iff in Ei as [-> _]. done. }
  cbv zeta. destruct (negb _ || _); [by intros [= _ _ <-]|]. destruct (delivered && negb listening); [by intros [= _ _ <-]|].
  destruct (cu_wait w) as [e0|]; [intros [= _ _ <-]; by rewrite ctx_error_eof by by apply Hw|].
  destruct (send c 0 (cu_tries w)) as [[answer more]|] eqn:Es; [|done]. intros [= _ _ ->] _. by exists more.
Qed.

(** When [Recv] fails, what the caller has is the start of a reply.  When it says that the stream is over, as
    [errors.Is] asks, that is a whole reply, or the Decoder or a request that would have read the
    stream again said it; an error other than [io.EOF] comes of no whole reply. *)
Definition ends_well (cuts : list cut) (seen : list ModelEvent) (e : error) : Prop :=
  exists events, unsettled_before dec events /\ seen `prefix_of` de_events (decode_reply dec events) /\
    (errors_Is e IoEOF = true ->
      (e = IoEOF /\ seen = de_events (decode_reply dec events) /\ de_done (decode_reply dec events) = true /\
        de_error (decode_reply dec events) = None) \/
      (exists d, de_error (decode_reply dec events) = Some d /\ e = stream_error d /\ seen = de_events (decode_reply dec events)) \/
      (exists w more, w ∈ cuts /\ send c 0 (cu_tries w) = Some (Err e, more))) /\
    (e <> IoEOF -> de_done (decode_reply dec events) = false \/ is_Some (de_error (decode_reply dec events))).

Lemma recv_step_ends error_text ctx cuts s seen events e s' reports cuts' :
  st_queue s = [] -> reads seen s events -> Forall honest_cut cuts ->
  recv_step error_text ctx cuts s = Some (Err e, s', reports, cuts') -> ends_well cuts (kept seen reports) e.
Proof.
  intros Hq Hr Hc. pose proof Hr as [_ He Hd Herr Hb]. rewrite Hq, app_nil_r in He. unfold recv_step.
  destruct (st_err s) as [err|] eqn:Ee.
  { intros [= <- _ <- _]. symmetry in Herr. apply fmap_Some in Herr as (d & Hde & Heq). exists events. cbn. rewrite He.
    split; [done|]. split; [done|]. split; [|by right]. intros _. right. left. by exists d. }
  destruct (st_done s) eqn:Ed.
  { intros [= <- _ <- _]. exists events. cbn. rewrite He, <- Hd. split; [done|]. split; [done|]. split; [|done]. intros _. left.
    split; [done|]. split; [done|]. split; [done|]. symmetry in Herr. by apply fmap_None in Herr. }
  destruct (readSSEEvent ctx (st_body s)) as [[event|err] rest]; [done|].
  set (s1 := if errors_Is err IoEOF then decode end_event (with_body rest s) else with_body rest s).
  assert (Hr1 : exists events', reads seen s1 events').
  { unfold s1. destruct (errors_Is err IoEOF); eexists; [apply decode_reads; [done..|]|]; by apply with_body_reads. }
  destruct (errors_Is err IoEOF && settled s1) eqn:Eend; [done|]. destruct cuts as [|w cuts]; [done|].
  assert (Hopen : st_done s1 = false).
  { unfold s1 in *. destruct (errors_Is err IoEOF); [|done]. cbn [andb] in Eend. by apply orb_false_iff in Eend as [? _]. }
  destruct (recover _ _ _ _ _) as [[[n more] [r|e']]|] eqn:Erec; [done| |done]. intros [= -> _ <- _].
  inversion Hc as [|? ? Hw _]; subst. pose proof (recover_error _ _ _ _ _ _ _ _ Hw Erec) as Hsend.
  assert (errors_Is e IoEOF = true -> exists w' more', w' ∈ w :: cuts /\ send c 0 (cu_tries w') = Some (Err e, more')) as Hs.
  { intros Hover. destruct (Hsend Hover) as [more' Hm]. exists w, more'. split; [by left|done]. }
  destruct more; cbn.
  - destruct Hr1 as [events' [_ He1 Hde _ Hb1]]. exists events'. split; [done|]. split; [by exists (st_queue s1)|]. split; [by auto|].
    intros _. left. by rewrite <- Hde.
  - exists []. split; [intros k Hk; cbn in Hk; lia|]. split; [apply prefix_nil|]. split; [by auto|by left].
Qed.

Lemma cuts_after error_text ctx cuts s r : recv_step error_text ctx cuts s = Some r -> r.2 `suffix_of` cuts.
Proof.
  unfold recv_step. intros Hr. destruct (st_err s); [by injection Hr as <-|]. destruct (st_done s); [by injection Hr as <-|].
  destruct (readSSEEvent ctx (st_body s)) as [[event|err] rest]; [by injection Hr as <-|].
  destruct (errors_Is err IoEOF && _); [by injection Hr as <-|]. destruct cuts as [|w cuts]; [done|].
  destruct (recover _ _ _ _ _) as [[[n more] [x|e]]|]; [by injection Hr as <-; apply suffix_cons_r..|done].
Qed.

Lemma honest_suffix cuts' cuts : cuts' `suffix_of` cuts -> Forall honest_cut cuts -> Forall honest_cut cuts'.
Proof. intros [k ->]. by intros [_ ?]%list.Forall_app. Qed.

Lemma ends_well_suffix cuts' cuts seen e : cuts' `suffix_of` cuts -> ends_well cuts' seen e -> ends_well cuts seen e.
Proof.
  intros [k ->] (events & Hu & Hp & Ho & He). exists events. split_and!; [done..| |done]. intros Hover.
  destruct (Ho Hover) as [Hov|[Hov|(w & more & Hw & Hs)]]; [by left|by right; left|]. right; right. exists w, more.
  split; [|done]. apply elem_of_app. by right.
Qed.

Lemma recv_reads fuel error_text ctx cuts s seen events answer s' reports cuts' :
  reads seen s events -> undelivered seen s -> Forall honest_cut cuts ->
  recv fuel error_text ctx cuts s = Some (answer, s', reports, cuts') ->
  cuts' `suffix_of` cuts /\
  match answer with
  | Ok event => undelivered (kept seen reports ++ [event]) s' /\ exists events', reads (kept seen reports ++ [event]) s' events'
  | Err e => ends_well cuts (kept seen reports) e
  end.
Proof.
  revert cuts s seen events reports. induction fuel as [|fuel IH]; intros cuts s seen events reports Hr Hu Hc; cbn [recv]; [done|].
  destruct (st_queue s) as [|event rest] eqn:Eq.
  - destruct (recv_step error_text (ctx fuel) cuts s) as [[[[[u|e] s1] more] cuts1]|] eqn:Es; [| |done];
      pose proof (cuts_after _ _ _ _ _ Es) as Hc1; cbn in Hc1.
    + destruct (recv_step_reads _ _ _ _ _ _ _ _ _ _ Eq Hr Hu Es) as [Hu1 [events1 Hr1]].
      destruct (recv fuel error_text ctx cuts1 s1) as [[[[a s2] more2] cuts2]|] eqn:Er; [|done]. cbn. intros [= <- <- <- <-].
      rewrite <- kept_app. destruct (IH _ _ _ _ _ Hr1 Hu1 (honest_suffix _ _ Hc1 Hc) Er) as [Hc2 Ha].
      split; [by etrans|]. destruct a; [done|]. by eapply ends_well_suffix.
    + intros [= <- <- <- <-]. split; [done|]. eapply recv_step_ends; [exact Eq|exact Hr|exact Hc|exact Es].
  - intros [= <- <- <- <-]. split; [done|]. cbn [kept]. split; [by right; left|]. exists events. destruct Hr as [Hd He Hn Herr Hb].
    split; cbn; [done| |done..]. rewrite <- app_assoc. cbn. by rewrite <- Eq.
Qed.

Lemma read_all_reads calls fuel error_text ctx cuts seen s events seen' e s' :
  reads seen s events -> undelivered seen s -> Forall honest_cut cuts ->
  read_all calls fuel error_text ctx cuts seen s = Some (seen', Some e, s') -> ends_well cuts seen' e.
Proof.
  revert cuts seen s events. induction calls as [|calls IH]; intros cuts seen s events Hr Hu Hc; cbn [read_all]; [done|].
  destruct (recv fuel error_text (ctx calls) cuts s) as [[[[answer s1] reports] cuts1]|] eqn:Er; [|done]. cbn.
  destruct (recv_reads _ _ _ _ _ _ _ _ _ _ _ Hr Hu Hc Er) as [Hc1 Ha]. change (match reports with [] => seen | _ => [] end) with (kept seen reports).
  destruct answer as [event|err].
  - destruct Ha as [Hu1 [events1 Hr1]]. intros Hrest. eapply ends_well_suffix; [exact Hc1|].
    eapply IH; [exact Hr1|exact Hu1|by eapply honest_suffix|exact Hrest].
  - by intros [= <- <- _].
Qed.

(** A Decoder whose errors are never [io.EOF] fails with none. *)
Lemma stream_error_eof d events : (forall event d, (Decode dec event d).2.2 <> Some (DError IoEOF)) ->
  de_error (decode_reply dec events) = Some d -> stream_error d <> IoEOF.
Proof.
  intros Hdec. unfold decode_reply. induction events as [|event events IH] using rev_ind; [done|]. rewrite foldl_app. cbn [foldl].
  set (before := foldl _ _ events) in *. unfold decode_one. pose proof (Hdec event (de_decoder before)) as Hd.
  destruct (Decode dec event (de_decoder before)) as [decoder [[new done] err]]. cbn in Hd |- *.
  destruct err as [e|]; [|exact IH]. intros [= <-]. destruct e as [f|e]; cbn; [done|congruence].
Qed.

End stream.

Arguments stream D : clear implicits.

(** ** Every [Recv] returns *)

Section returning.
Context `{NetErrors, HttpText, ErrorBodies} (c : Client) {D : Type} (dec : Decoder D) (listening : bool).

Definition body_cost (b : body) : nat := S (S (length (bd_bytes b))).
Definition try_cost (t : try_) : nat := match ty_Do t with Ok r => body_cost (rs_Body r) | Err _ => 0 end.
Definition cut_cost (w : cut) : nat := sum_list (try_cost <$> cu_tries w).
Definition cuts_cost (cuts : list cut) : nat := sum_list (cut_cost <$> cuts).

(** How many turns of its loop [Recv] may take before the stream is cut. *)
Definition stream_cost (s : stream D) : nat :=
  if settled s || negb (bool_decide (st_queue s = [])) then 1 else body_cost (st_body s).

(** The world has an answer for every restart that the retries allow, and for every attempt of it. *)
Definition enough_cuts (restarts : Z) (cuts : list cut) : Prop :=
  (Z.to_nat (re_Max (cl_retry c) - restarts) < length cuts)%nat /\
  Forall (fun w => (Z.to_nat (re_Max (cl_retry c)) < length (cu_tries w))%nat) cuts.

Lemma send_opened attempt tries r reports :
  send c attempt tries = Some (Ok r, reports) -> exists t, t ∈ tries /\ ty_Do t = Ok r.
Proof.
  revert attempt reports. induction tries as [|t tries IH]; intros attempt reports Hs; cbn [send] in Hs;
    (destruct (cl_badRequest c); [done|]); [done|].
  assert (Ho : forall r', attempt_of c attempt t = Opened r' -> ty_Do t = Ok r').
  { unfold attempt_of. destruct (ty_Do t) as [r'|err]; [|destruct (ty_ctx t); discriminate].
    cbv zeta. destruct ((200 <=? rs_Status r')%Z && (rs_Status r' <? 300)%Z); [destruct (startsWithJSONObject r'); [discriminate|]|discriminate].
    by intros r'' [= ->]. }
  destruct (attempt_of c attempt t) as [r'|e'|f wait why]; [injection Hs as -> _; exists t; split; [by left|by apply Ho]|done|].
  destruct (vd_Retryable _ && _); [|done]. destruct (ty_wait t); [done|].
  destruct (send c (attempt + 1) tries) as [[answer' reports']|] eqn:Es; [|done]. cbn in Hs. injection Hs as -> _.
  destruct (IH _ _ Es) as (t' & Ht & Hd). exists t'. split; [by right|done].
Qed.

Lemma elem_sum (x : nat) l : x ∈ l -> (x <= sum_list l)%nat.
Proof. induction 1; cbn; lia. Qed.

Lemma event_shorter ctx b event rest : readSSEEvent ctx b = (Ok event, rest) -> (length (bd_bytes rest) < length (bd_bytes b))%nat.
Proof.
  assert (Hg : forall fuel i p bytes last e r, read_event fuel ctx i p bytes last = Some (Ok e, r) -> (length r < length bytes)%nat).
  { induction fuel as [|fuel IH]; intros i p bytes last e r Hr; [done|]. cbn [read_event] in Hr. destruct (ctx i); [done|].
    destruct (readBoundedLine [] bytes last) as [[raw err] rest'] eqn:El. destruct (take_line (trim_cr raw) p) as [p'|]; [|done].
    destruct err; [done|]. apply read_line_shorter in El.
    destruct (bool_decide (trim_cr raw = [])); [destruct (bool_decide (pt_lines p' = []))|].
    - apply IH in Hr. lia.
    - by injection Hr as <- <-.
    - apply IH in Hr. lia. }
  unfold readSSEEvent. destruct (read_event _ _ _ _ _ _) as [[answer r]|] eqn:E; [|done]. intros [= -> <-]. cbn. by eapply Hg.
Qed.

Lemma recover_ends error_text cause restarts delivered w cuts :
  enough_cuts restarts (w :: cuts) -> (0 <= re_Max (cl_retry c))%Z ->
  exists n reports answer, recover c listening error_text cause restarts delivered w = Some (n, reports, answer) /\
    (forall r, answer = Ok r -> enough_cuts n cuts /\ (body_cost (rs_Body r) <= cut_cost w)%nat).
Proof.
  intros [Hl Ht] Hm. inversion Ht as [|? ? Hw Ht']; subst. unfold recover. destruct (cu_ctx w); [by eexists _, _, _|].
  destruct (interrupted cause); cbn [negb]; [|by eexists _, _, _]. cbv zeta.
  destruct (vd_Retryable _); cbn [negb orb]; [|by eexists _, _, _].
  destruct (Z.leb_spec (re_Max (cl_retry c)) restarts); [by eexists _, _, _|].
  destruct (delivered && negb listening); [by eexists _, _, _|]. destruct (cu_wait w); [by eexists _, _, _|].
  destruct (send_ends c 0 (cu_tries w)) as [[answer more] Hs]; [lia|by rewrite Z.sub_0_r|]. rewrite Hs. cbn. eexists _, _, _.
  split; [done|]. intros r ->. apply send_opened in Hs as (t & Hin & Hd). split.
  - split; [cbn in Hl; lia|done].
  - etrans; [|apply elem_sum, (list_elem_of_fmap_2 try_cost), Hin]. unfold try_cost. by rewrite Hd.
Qed.

Lemma settled_decode event s : settled s = true -> settled (decode c dec event s) = true.
Proof.
  unfold settled, decode. destruct (Decode dec event (st_decoder s)) as [d [[new done] err]]. cbn. rewrite !orb_true_iff.
  intros [->|Hb]; [by left; left|right]. apply bool_decide_eq_true in Hb. apply bool_decide_eq_true. destruct err; [by eexists|done].
Qed.

(** A turn of the loop that goes on has cost something. *)
Lemma recv_step_costs error_text ctx cuts s :
  st_queue s = [] -> enough_cuts (st_restarts s) cuts -> (0 <= re_Max (cl_retry c))%Z ->
  exists answer s' reports cuts', recv_step c dec listening error_text ctx cuts s = Some (answer, s', reports, cuts') /\
    (is_ok answer = true -> enough_cuts (st_restarts s') cuts' /\ (stream_cost s' + cuts_cost cuts' < stream_cost s + cuts_cost cuts)%nat).
Proof.
  intros Hq Hc Hm. unfold recv_step. destruct (st_err s) eqn:Ee; [by eexists _, _, _, _|]. destruct (st_done s) eqn:Ed; [by eexists _, _, _, _|].
  assert (Hcost : stream_cost s = body_cost (st_body s)) by (unfold stream_cost, settled; by rewrite Hq, Ee, Ed).
  assert (Hany : forall s' : stream D, (stream_cost s' <= body_cost (st_body s'))%nat).
  { intros s'. unfold stream_cost, body_cost. destruct (settled s' || _); lia. }
  assert (Hdec : forall event s', st_restarts (decode c dec event s') = st_restarts s' /\ st_body (decode c dec event s') = st_body s').
  { intros event s'. unfold decode. by destruct (Decode dec event (st_decoder s')) as [d [[new done] err]]. }
  destruct (readSSEEvent ctx (st_body s)) as [[event|err] rest] eqn:Er.
  - eexists _, _, _, _. split; [done|]. intros _. destruct (Hdec event (with_body rest s)) as [Hres Hb]. rewrite Hres. split; [done|].
    apply event_shorter in Er. pose proof (Hany (decode c dec event (with_body rest s))) as Hle. rewrite Hb in Hle.
    rewrite Hcost. unfold body_cost in *. cbn [st_body with_body] in Hle. lia.
  - set (s1 := if errors_Is err IoEOF then decode c dec end_event (with_body rest s) else with_body rest s).
    assert (Hs1 : st_restarts s1 = st_restarts s).
    { unfold s1. destruct (errors_Is err IoEOF); [by rewrite (proj1 (Hdec _ _))|done]. }
    destruct (errors_Is err IoEOF && settled s1) eqn:Eend.
    + eexists _, _, _, _. split; [done|]. intros _. rewrite Hs1. split; [done|]. apply andb_true_iff in Eend as [_ Hset].
      unfold stream_cost at 1. rewrite Hset. cbn [orb]. rewrite Hcost. unfold body_cost. lia.
    + destruct cuts as [|w cuts]; [by destruct Hc as [? _]; cbn in *; lia|]. rewrite <- Hs1 in Hc.
      destruct (recover_ends error_text err (st_restarts s1) (st_delivered s1) w cuts Hc Hm) as (n & reports & answer & Hrec & Hopen).
      rewrite Hrec. destruct answer as [r|e]; [|by eexists _, _, _, _]. eexists _, _, _, _. split; [done|]. intros _.
      destruct (Hopen r eq_refl) as [Hc' Hb]. split; [done|]. change (cuts_cost (w :: cuts)) with (cut_cost w + cuts_cost cuts)%nat.
      pose proof (Hany (reopen dec n r s1)) as Hle. cbn [st_body reopen] in Hle. rewrite Hcost. unfold body_cost at 1. lia.
Qed.

Lemma recv_ends fuel error_text ctx cuts s :
  enough_cuts (st_restarts s) cuts -> (0 <= re_Max (cl_retry c))%Z -> (stream_cost s + cuts_cost cuts < fuel)%nat ->
  is_Some (recv c dec listening fuel error_text ctx cuts s).
Proof.
  revert cuts s. induction fuel as [|fuel IH]; intros cuts s Hc Hm Hf; [lia|]. cbn [recv]. destruct (st_queue s) eqn:Eq; [|by eexists].
  destruct (recv_step_costs error_text (ctx fuel) cuts s Eq Hc Hm) as (answer & s' & reports & cuts' & -> & Hok).
  destruct answer as [u|e]; [|by eexists]. destruct (Hok eq_refl) as [Hc' Hlt]. destruct (IH cuts' s') as [[[[a s2] more] cuts2] ->]; [done|done|lia|].
  by eexists.
Qed.

End returning.

(** ** A decoder that reads nothing into what it is sent *)

Definition echo_event (data : bytes) : ModelEvent := text_delta (string_of data).

(** Every event is text, and the word done ends the reply. *)
Definition echo_decoder : Decoder unit :=
  MkDecoder unit tt (fun event _ =>
    if se_End event then (tt, ([], false, None))
    else if bool_decide (se_Data event = bytes_of "done") then (tt, ([done_event "" usage_zero ""], true, None)) else (tt, ([echo_event (se_Data event)], false, None))).

#[export] Instance echo_lawful : LawfulDecoder echo_decoder.
Proof.
  refine {| reading _ := True |}; [done| |].
  - intros event d d' events done err _. cbn. destruct (se_End event); [intros [= <- <- <- <-]; by split|].
    destruct (bool_decide _); intros [= <- <- <- <-]; [by exists [], (done_event "" usage_zero "")|]. by repeat constructor.
  - intros event d. cbn. destruct (se_End event); [done|]. by destruct (bool_decide _).
Defined.


(** ** Samples *)

#[local] Instance sample_http : HttpText := {| parse_duration _ := None; until_date _ := None |}.
#[local] Instance sample_bodies : ErrorBodies := {| error_fields _ := None; json_text _ := None |}.

Definition sample_client : Client := MkClient DefaultRetry DefaultClassifier None.
Definition sample_response (text : string) : response := MkResponse 200 "" "" (MkBody (bytes_of text) IoEOF).
Definition sample_cut (tries : list try_) : cut := MkCut None 0 None tries.
Definition sample_ctx : nat -> nat -> nat -> option error := fun _ _ _ => None.

Definition cut_text : string := "data: a

data: b".
Definition whole_text : string := "data: a

data: b

data: done

".

Definition sample_cuts : list cut :=
  [sample_cut [MkTry (Ok (sample_response whole_text)) None 0 None; MkTry (Ok (sample_response "")) None 0 None; MkTry (Ok (sample_response "")) None 0 None];
   sample_cut (replicate 3 (MkTry (Ok (sample_response "")) None 0 None)); sample_cut (replicate 3 (MkTry (Ok (sample_response "")) None 0 None))].

Definition sample_events : list ModelEvent := [echo_event (bytes_of "a"); echo_event (bytes_of "b"); done_event "" usage_zero ""].

Lemma sample_honest : Forall honest_cut sample_cuts.
Proof. by repeat constructor. Qed.

Lemma sample_tries : Forall (fun w => Forall honest_try (cu_tries w)) sample_cuts.
Proof. by repeat constructor. Qed.


(** A caller of the stream of any wire API that keeps the promises of an API is told that the
    reply is over exactly when it has a whole reply: then the last event it has, and no other, is
    the Done; when it is told anything else, it has no Done, also when the stream was cut and read
    again. *)
Theorem stream_over_means_done `{NetErrors, HttpText, ErrorBodies} c {D} (dec : Decoder D) `{!LawfulDecoder dec} listening b cuts calls fuel error_text ctx seen e s :
  cl_badRequest c <> Some IoEOF -> Forall honest_cut cuts -> Forall (fun w => Forall honest_try (cu_tries w)) cuts ->
  read_all c dec listening calls fuel error_text ctx cuts [] (newStream dec b) = Some (seen, Some e, s) ->
  (e = IoEOF -> exists before last, seen = before ++ [last] /\ no_done before /\ is_done last = true) /\
  (e <> IoEOF -> no_done seen).
Proof.
  intros Hbad Hc Ht Hr. assert (Hends : ends_well c dec cuts seen e).
  { eapply (read_all_reads c dec listening); [|by right; right|exact Hc|exact Hr]. by apply new_reads. }
  destruct Hends as (events & Hu & Hp & Hover & Helse). destruct (lawful_reading dec events Hu) as [Hl _]. unfold lawful_reply in Hl. split.
  - intros ->. destruct (Hover eq_refl) as [(_ & -> & Hd & Hn)|[(d & Hd & He & _)|(w & more & Hw & Hs)]]; [by rewrite Hd, Hn in Hl| |].
    + by destruct (stream_error_eof c dec d events decode_not_eof Hd).
    + rewrite list.Forall_forall in Ht. by destruct (send_error c _ _ _ _ Hbad (Ht w Hw) Hs).
  - intros He. assert (Hall : no_done (de_events (decode_reply dec events))).
    { destruct (Helse He) as [Hd|[err Herr]]; [rewrite Hd in Hl; by destruct (de_error _)|by rewrite Herr in Hl]. }
    destruct Hp as [rest Hp]. rewrite Hp in Hall. by apply list.Forall_app in Hall as [Hall _].
Qed.

(** The same stream, and one whose response is cut at every restart. *)
Lemma stream_over_means_done_witness :
  (exists before last, sample_events = before ++ [last] /\ no_done before /\ is_done last = true) /\
  (exists e s, read_all sample_client echo_decoder false 5 200 (fun _ => ""%string) sample_ctx sample_cuts [] (newStream echo_decoder (MkBody (bytes_of cut_text) IoEOF))
     = Some ([echo_event (bytes_of "a")], Some e, s) /\ no_done [echo_event (bytes_of "a")]).
Proof.
  split.
  - eapply (stream_over_means_done sample_client echo_decoder true (MkBody (bytes_of cut_text) IoEOF) sample_cuts 5 200 (fun _ => ""%string) sample_ctx);
      [done|exact sample_honest|exact sample_tries|vm_compute; reflexivity|done].
  - eexists _, _. split; [vm_compute; reflexivity|].
    eapply (stream_over_means_done sample_client echo_decoder false (MkBody (bytes_of cut_text) IoEOF) sample_cuts 5 200 (fun _ => ""%string) sample_ctx);
      [done|exact sample_honest|exact sample_tries|vm_compute; reflexivity|done].
Defined.

(** The error of a request that a server closed, as the transport wraps it. *)
Definition closed_by_server : error := ForeignErr (MkForeign "Post: EOF" None None None (Some IoEOF)).

(** A restart whose request cannot be sent fails with an error that may be retried, and that
    [errors.Is] calls the end of the stream: the core takes it for a reply that ended without
    completion. *)
Example refused_restart_reads_as_end :
  exists s e,
    read_all sample_client echo_decoder true 1 200 (fun _ => ""%string) sample_ctx
      [sample_cut (replicate 3 (MkTry (Err closed_by_server) None 0 None))] [] (newStream echo_decoder (MkBody [] IoEOF)) = Some ([], Some e, s) /\
    errors_Is e IoEOF = true /\ e <> IoEOF.
Proof. eexists _, _. split; [vm_compute; reflexivity|]. split; [vm_compute; reflexivity|done]. Qed.
