(* ===== verification/Deferred.v ===== *)
(** * Deferred Tools

    [model/deferred.go]: how the Tools of a request are laid out for an API that takes Tools that
    are loaded later.  The list it sends does not change when a Tool is loaded, so a prompt cache
    that covers it survives. *)

From S2P Require Import Prelude GoStrings Errors Types ToolRegistry Request.
Local Open Scope string_scope.
Local Open Scope list_scope.

Definition has_suffix (s p : bytes) : bool := has_prefix (rev s) (rev p).

(** [isSearchToolID]. *)
Definition isSearchToolID (id : string) : bool :=
  String.eqb id SearchToolName || has_suffix (bytes_of id) (bytes_of ("." ++ SearchToolName)).

Record layoutTool := MkLayoutTool { ly_spec : ToolSpec; ly_deferred : bool }.

Record deferredLayout := MkLayout {
  dl_tools : list layoutTool;
  dl_deferred : gset string;
  dl_searchCalls : gset string;
}.

(** The Tools that a history shows the load of. *)
Definition referenced_ids (messages : list Message) : list string :=
  messages ≫= fun m => match m_ToolResult m with Some r => tr_LoadedTools r | None => [] end.

Definition search_calls (messages : list Message) : list string :=
  messages ≫= fun m => tc_ID <$> filter (fun call => isSearchToolID (tc_ToolID call)) (m_ToolCalls m).

Definition layout_id (tool : layoutTool) : string := ts_ID (ly_spec tool).

(** [sort.SliceStable] by ID. *)
Definition id_le (a b : layoutTool) : Prop := String.le (layout_id a) (layout_id b).
#[export] Instance id_le_dec : RelDecision id_le.
Proof. intros a b. unfold id_le. apply _. Defined.
Definition by_id (tools : list layoutTool) : list layoutTool := merge_sort id_le tools.

(** The two groups of a request, as they are found. *)
Definition is_deferred (request : ModelRequest) (spec : ToolSpec) : Prop :=
  ts_ID spec ∈ mr_LoadedTools request /\ ts_ID spec ∈ referenced_ids (mr_Messages request).
#[export] Instance is_deferred_dec request spec : Decision (is_deferred request spec).
Proof. unfold is_deferred. apply _. Defined.

Definition plain_group (request : ModelRequest) : list layoutTool :=
  (fun spec => MkLayoutTool spec false) <$> filter (fun spec => ~ is_deferred request spec) (mr_Tools request).
Definition deferred_group (request : ModelRequest) : list layoutTool :=
  (fun spec => MkLayoutTool spec true) <$> (filter (is_deferred request) (mr_Tools request) ++ mr_UnloadedTools request).

(** [newDeferredLayout]. *)
Definition newDeferredLayout (request : ModelRequest) (native : bool) : option deferredLayout :=
  if negb native || (bool_decide (mr_LoadedTools request = []) && bool_decide (mr_UnloadedTools request = [])) then None
  else
    Some (MkLayout (by_id (plain_group request) ++ by_id (deferred_group request))
      (list_to_set (layout_id <$> deferred_group request)) (list_to_set (search_calls (mr_Messages request)))).

(** [references]. *)
Definition references (layout : option deferredLayout) (result : option ToolResult) : list string :=
  match layout, result with
  | Some l, Some r => filter (fun id => id ∈ dl_deferred l) (tr_LoadedTools r)
  | _, _ => []
  end.

(** [orderedTools]. *)
Definition orderedTools (layout : option deferredLayout) (request : ModelRequest) : list layoutTool :=
  match layout with Some l => dl_tools l | None => (fun spec => MkLayoutTool spec false) <$> mr_Tools request end.

(** ** Loading Tools *)

(** The Tools of a request, loaded or not, have different IDs. *)
Definition distinct_tools (request : ModelRequest) : Prop := NoDup (ts_ID <$> mr_Tools request ++ mr_UnloadedTools request).

(** The request after one that loaded [specs]: they are among the Tools and the loaded, the
    history goes on and shows the load, and shows no other that it had lost. *)
Record loads (specs : list ToolSpec) (request request' : ModelRequest) : Prop := {
  lo_tools : mr_Tools request' ≡ₚ specs ++ mr_Tools request;
  lo_unloaded : mr_UnloadedTools request ≡ₚ specs ++ mr_UnloadedTools request';
  lo_loaded id : id ∈ mr_LoadedTools request' <-> id ∈ mr_LoadedTools request \/ id ∈ ts_ID <$> specs;
  lo_history : referenced_ids (mr_Messages request) ⊆ referenced_ids (mr_Messages request');
  lo_shown : ts_ID <$> specs ⊆ referenced_ids (mr_Messages request');
  lo_no_other id : id ∈ mr_LoadedTools request -> id ∈ referenced_ids (mr_Messages request') -> id ∈ referenced_ids (mr_Messages request);
}.

Lemma by_id_perm tools : by_id tools ≡ₚ tools.
Proof. apply merge_sort_Permutation. Qed.

Lemma by_id_sorted tools : StronglySorted id_le (by_id tools).
Proof.
  apply StronglySorted_merge_sort.
  - intros a b c. unfold id_le. apply String.le_po.
  - intros a b. unfold id_le. apply String.le_total.
Qed.

(** Two groups of the same Tools are sent in the same order. *)
Lemma by_id_unique tools tools' : NoDup (layout_id <$> tools) -> tools ≡ₚ tools' -> by_id tools = by_id tools'.
Proof.
  intros Hn Hp. apply (StronglySorted_unique_strong id_le).
  - intros x y. rewrite !by_id_perm, <- Hp. intros Hx Hy Hxy Hyx. assert (He : layout_id x = layout_id y) by (by apply (anti_symm String.le)).
    apply list_elem_of_lookup_1 in Hx as [n Hx]. apply list_elem_of_lookup_1 in Hy as [m Hy].
    assert (n = m) as ->; [|congruence]. eapply (NoDup_lookup _ _ _ (layout_id x) Hn); rewrite list_lookup_fmap; [by rewrite Hx|by rewrite Hy, He].
  - apply by_id_sorted.
  - apply by_id_sorted.
  - by rewrite !by_id_perm.
Qed.

Lemma filter_same {A} (P Q : A -> Prop) `{!forall x, Decision (P x), !forall x, Decision (Q x)} (l : list A) :
  (forall x, x ∈ l -> P x <-> Q x) -> filter P l = filter Q l.
Proof.
  induction l as [|x l IH]; intros Hpq; [done|]. assert (Hx := Hpq x ltac:(by left)). rewrite !filter_cons, IH by (intros y Hy; apply Hpq; by right).
  destruct (decide (P x)), (decide (Q x)); tauto || done.
Qed.

Section loading.
Context (specs : list ToolSpec) (request request' : ModelRequest) (Hl : loads specs request request') (Hn : distinct_tools request).

Lemma loaded_deferred spec : spec ∈ specs -> is_deferred request' spec.
Proof.
  intros Hs. assert (Hid : ts_ID spec ∈ ts_ID <$> specs) by (by apply list_elem_of_fmap_2). split.
  - apply (lo_loaded _ _ _ Hl). by right.
  - by apply (lo_shown _ _ _ Hl).
Qed.

Lemma others_unmoved spec : spec ∈ mr_Tools request -> is_deferred request' spec <-> is_deferred request spec.
Proof.
  intros Hs. unfold is_deferred. rewrite (lo_loaded _ _ _ Hl). split.
  - intros [[Hi|Hi] Hr]; [split; [done|by apply (lo_no_other _ _ _ Hl)]|]. exfalso. unfold distinct_tools in Hn. rewrite fmap_app in Hn.
    apply list.NoDup_app in Hn as (_ & Hd & _). apply (Hd (ts_ID spec)); [by apply list_elem_of_fmap_2|].
    rewrite (lo_unloaded _ _ _ Hl), fmap_app. apply elem_of_app. by left.
  - intros [Hi Hr]. split; [by left|by apply (lo_history _ _ _ Hl)].
Qed.


Lemma plain_unmoved : plain_group request' ≡ₚ plain_group request.
Proof.
  unfold plain_group. apply Permutation_map. rewrite (lo_tools _ _ _ Hl), list.filter_app.
  assert (filter (fun spec => ~ is_deferred request' spec) specs = []) as ->.
  { apply filter_none, list.Forall_forall. intros spec Hs Hnot. by apply Hnot, loaded_deferred. }
  cbn. rewrite (filter_same _ (fun spec => ~ is_deferred request spec)); [done|]. intros spec Hs. by rewrite (others_unmoved spec Hs).
Qed.

Lemma deferred_unmoved : deferred_group request' ≡ₚ deferred_group request.
Proof.
  unfold deferred_group. apply Permutation_map. rewrite (lo_tools _ _ _ Hl), (lo_unloaded _ _ _ Hl), list.filter_app.
  rewrite (filter_all (is_deferred request') specs) by (apply list.Forall_forall; intros spec; apply loaded_deferred).
  rewrite (filter_same (is_deferred request') (is_deferred request)) by (intros spec; apply others_unmoved).
  rewrite <- app_assoc, (app_assoc specs), (Permutation_app_comm specs). by rewrite <- app_assoc.
Qed.

Lemma groups_distinct : NoDup (layout_id <$> plain_group request) /\ NoDup (layout_id <$> deferred_group request).
Proof.
  unfold distinct_tools in Hn. unfold plain_group, deferred_group. rewrite <- !list_fmap_compose.
  rewrite fmap_app in Hn. apply list.NoDup_app in Hn as (Ht & Hd & Hu). split.
  - eapply sublist_NoDup; [exact Ht|]. apply fmap_sublist, sublist_filter.
  - rewrite fmap_app. apply list.NoDup_app. split; [eapply sublist_NoDup; [exact Ht|apply fmap_sublist, sublist_filter]|]. split; [|done].
    intros id (spec & -> & Hs)%list_elem_of_fmap. apply list_elem_of_filter in Hs as [_ Hs]. by apply Hd, list_elem_of_fmap_2.
Qed.

End loading.

Lemma deferred_layout_some request l :
  newDeferredLayout request true = Some l ->
  (mr_LoadedTools request <> [] \/ mr_UnloadedTools request <> []) /\
  l = MkLayout (by_id (plain_group request) ++ by_id (deferred_group request))
    (list_to_set (layout_id <$> deferred_group request)) (list_to_set (search_calls (mr_Messages request))).
Proof.
  unfold newDeferredLayout. cbn [negb orb]. destruct (bool_decide_reflect (mr_LoadedTools request = [])) as [_|Hne]; cbn [andb].
  - destruct (bool_decide_reflect (mr_UnloadedTools request = [])) as [_|Hne]; [done|]. intros [= <-]. split; [by right|done].
  - intros [= <-]. split; [by left|done].
Qed.

Lemma some_tool_left specs request request' :
  loads specs request request' -> mr_LoadedTools request <> [] \/ mr_UnloadedTools request <> [] ->
  mr_LoadedTools request' <> [] \/ mr_UnloadedTools request' <> [].
Proof.
  intros Hl [Hne|Hne].
  - left. destruct (mr_LoadedTools request) as [|id ids] eqn:E; [done|]. intros H'.
    assert (Hin : id ∈ mr_LoadedTools request') by (apply (lo_loaded _ _ _ Hl); left; rewrite E; by left). rewrite H' in Hin. by apply not_elem_of_nil in Hin.
  - destruct specs as [|spec specs].
    + right. intros H'. pose proof (lo_unloaded _ _ _ Hl) as Hp. rewrite H' in Hp. by apply Permutation_nil_r in Hp.
    + left. intros H'. assert (Hin : ts_ID spec ∈ mr_LoadedTools request') by (apply (lo_loaded _ _ _ Hl); right; by left).
      rewrite H' in Hin. by apply not_elem_of_nil in Hin.
Qed.

(** Loading Tools does not change the list of Tools that a request sends in the native form, in
    any byte: not what is in it, not its order, and not which of its Tools are deferred; and every
    Tool that was loaded is one that the history may refer to. *)
Theorem tool_list_kept_by_loads specs request request' l :
  loads specs request request' -> distinct_tools request -> newDeferredLayout request true = Some l ->
  exists l', newDeferredLayout request' true = Some l' /\ dl_tools l' = dl_tools l /\ dl_deferred l' = dl_deferred l /\
    (forall r, tr_LoadedTools r = ts_ID <$> specs -> references (Some l') (Some r) = ts_ID <$> specs).
Proof.
  intros Hl Hn Hlay. apply deferred_layout_some in Hlay as [Hne ->]. apply (some_tool_left specs request request' Hl) in Hne.
  destruct (groups_distinct request Hn) as [Hp Hd].
  pose proof (plain_unmoved specs request request' Hl Hn) as Hplain. pose proof (deferred_unmoved specs request request' Hl Hn) as Hdef.
  assert (Hset : list_to_set (layout_id <$> deferred_group request') =@{gset string} list_to_set (layout_id <$> deferred_group request)).
  { apply set_eq. intros id. by rewrite !elem_of_list_to_set, Hdef. }
  unfold newDeferredLayout. cbn [negb orb].
  assert (bool_decide (mr_LoadedTools request' = []) && bool_decide (mr_UnloadedTools request' = []) = false) as ->.
  { apply andb_false_iff. destruct Hne as [?|?]; [left|right]; by apply bool_decide_eq_false. }
  eexists. split; [done|]. cbn. split.
  - f_equal; symmetry; by apply by_id_unique.
  - split; [done|]. intros r ->. apply filter_all, list.Forall_forall. intros id (spec & -> & Hs)%list_elem_of_fmap.
    rewrite Hset, elem_of_list_to_set. apply list_elem_of_fmap. exists (MkLayoutTool spec true). split; [done|].
    unfold deferred_group. apply (list_elem_of_fmap_2 (fun spec => MkLayoutTool spec true)), elem_of_app. right. rewrite (lo_unloaded _ _ _ Hl). apply elem_of_app. by left.
Qed.

(** ** Samples *)

Definition deferred_tool (id : string) : ToolSpec := MkToolSpec id id "" [] [] false ∅ "read".
Definition loading_result (ids : list string) : Message :=
  message_zero <| m_Role := RoleToolResult |>
    <| m_ToolResult := Some (MkToolResult "call" ToolResultStatusOK [] ∅ "" "" true None ids) |>.

Definition before_load : ModelRequest :=
  MkRequest "" [UserMessage "hi"] [deferred_tool "search_tools"; deferred_tool "a"] [] [deferred_tool "m"; deferred_tool "k"] [] "".
Definition after_load : ModelRequest :=
  MkRequest "" [UserMessage "hi"; loading_result ["m"]] [deferred_tool "m"; deferred_tool "search_tools"; deferred_tool "a"] ["m"] [deferred_tool "k"] [] "".

(** The request after a Tool was loaded sends a, search_tools, k, m, as the one before. *)
Lemma tool_list_kept_by_loads_witness :
  exists l', newDeferredLayout after_load true = Some l' /\ layout_id <$> dl_tools l' = ["a"; "search_tools"; "k"; "m"].
Proof.
  destruct (tool_list_kept_by_loads [deferred_tool "m"] before_load after_load
    (MkLayout (by_id (plain_group before_load) ++ by_id (deferred_group before_load))
       (list_to_set (layout_id <$> deferred_group before_load)) (list_to_set (search_calls (mr_Messages before_load))))) as (l' & Hl & Ht & _).
  - split; cbn; try done.
    + intros id. rewrite !list_elem_of_singleton. split; [by right|]. by intros [?%not_elem_of_nil|?].
    + intros id Hid. by apply not_elem_of_nil in Hid.
  - apply (bool_decide_eq_true_1 (NoDup _)). vm_compute. reflexivity.
  - vm_compute. reflexivity.
  - exists l'. split; [exact Hl|]. rewrite Ht. vm_compute. reflexivity.
Defined.
