(* ===== verification/ChatDecoder.v ===== *)
(** * Reading a Chat Completions reply

    The decoder of [model/chat.go]: chunks become ModelEvents, and the Tool calls, which arrive in
    pieces, are put together.  What [encoding/json] makes of a chunk is a parameter.  A pointer to a
    call is its place in the list of calls, which only grows. *)

From S2P Require Import Prelude GoStrings Errors Types Reply Classify Sse ModelClient ModelStream.
Local Open Scope string_scope.
Local Open Scope list_scope.

(** ** Chunks *)

Record callDelta := MkCallDelta { cd_Index : option Z; cd_ID : string; cd_Name : string; cd_Arguments : string; cd_Extra : bytes }.

Record chatChoice := MkChoice { ch_Reasoning : string; ch_Content : string; ch_Calls : list callDelta; ch_Finish : option string }.

Record chatUsage := MkChatUsage {
  cu_Prompt : N; cu_Completion : N; cu_Total : N; cu_Cached : option N; cu_CacheHit : N; cu_CacheRead : N; cu_CacheCreation : N }.

Record chatChunk := MkChunk {
  ck_Model : string; ck_Error : option (string * bytes * string); ck_Choices : list chatChoice; ck_Usage : option chatUsage }.

(** What [json.Unmarshal] makes of a chunk, and [json.Valid]. *)
Class ChatJson := { chat_chunk : bytes -> result error chatChunk; valid_json : bytes -> bool }.

(** ** The decoder *)

Record chatCall := MkCall { cl_id : string; cl_name : string; cl_arguments : string; cl_extra : bytes }.
Definition call_empty : chatCall := MkCall "" "" "" [].

Record chatDecoder := MkChat {
  cx_calls : list chatCall;
  cx_byIndex : gmap Z nat;
  cx_last : option nat;
  cx_finish : StopReason;
  cx_usage : Usage;
  cx_model : string;
  cx_finished : bool;
}.

Definition newChatDecoder : chatDecoder := MkChat [] ∅ None "" usage_zero "" false.

(** Whether a call has another ID than a delta. *)
Definition another_call (id : string) (call : chatCall) : bool :=
  negb (String.eqb id "") && negb (String.eqb (cl_id call) "") && negb (String.eqb id (cl_id call)).

(** [callFor]: the place of the call a delta adds to. *)
Definition callFor (index : option Z) (id : string) (d : chatDecoder) : chatDecoder * nat :=
  let found := match index with Some i => cx_byIndex d !! i | None => cx_last d end in
  let found := place ← found; call ← cx_calls d !! place; if another_call id call then None else Some place in
  match found with
  | Some place => (MkChat (cx_calls d) (cx_byIndex d) (Some place) (cx_finish d) (cx_usage d) (cx_model d) (cx_finished d), place)
  | None =>
    let place := length (cx_calls d) in
    (MkChat (cx_calls d ++ [call_empty]) (match index with Some i => <[i := place]> (cx_byIndex d) | None => cx_byIndex d end)
       (Some place) (cx_finish d) (cx_usage d) (cx_model d) (cx_finished d), place)
  end.

Section decoder.
Context `{NetErrors, ErrorBodies, ChatJson} (nameMap : gmap bytes bytes).

(** [isJSONObject]. *)
Definition isJSONObject (data : bytes) : bool :=
  let trimmed := trim_space data in
  match trimmed with c :: _ => bool_decide (c = "{"%char) && valid_json trimmed | [] => false end.

(** What a delta adds to its call. *)
Definition grown (delta : callDelta) (call : chatCall) : chatCall :=
  MkCall (if String.eqb (cd_ID delta) "" then cl_id call else cd_ID delta) (cl_name call ++ cd_Name delta)
    (cl_arguments call ++ cd_Arguments delta) (if isJSONObject (cd_Extra delta) then cd_Extra delta else cl_extra call).

Definition with_calls (calls : list chatCall) (d : chatDecoder) : chatDecoder :=
  MkChat calls (cx_byIndex d) (cx_last d) (cx_finish d) (cx_usage d) (cx_model d) (cx_finished d).

Definition add_delta (d : chatDecoder) (delta : callDelta) : chatDecoder :=
  let (d, place) := callFor (cd_Index delta) (cd_ID delta) d in with_calls (alter (grown delta) place (cx_calls d)) d.

(** [chatStopReason]. *)
Definition chatStopReason (reason : string) : option StopReason :=
  if String.eqb reason "tool_calls" || String.eqb reason "function_call" then Some StopReasonToolCalls
  else if String.eqb reason "length" then Some StopReasonMaxTokens
  else if String.eqb reason "content_filter" then Some StopReasonError
  else if String.eqb reason "stop" || String.eqb reason "" then Some StopReasonEndTurn
  else None.

Definition usage_of (u : chatUsage) : Usage :=
  let cached := N.max (cu_CacheHit u) (cu_CacheRead u) in
  let cached := match cu_Cached u with Some n => N.max cached n | None => cached end in
  let read := N.min cached (cu_Prompt u) in
  MkUsage (cu_Prompt u) (cu_Completion u) (cu_Total u) read (N.min (cu_CacheCreation u) (cu_Prompt u - read)).

Definition with_finish (finish : StopReason) (d : chatDecoder) : chatDecoder :=
  MkChat (cx_calls d) (cx_byIndex d) (cx_last d) finish (cx_usage d) (cx_model d) (cx_finished d).

(** One choice of a chunk: what it queues, and an error. *)
Definition process_choice (choice : chatChoice) (d : chatDecoder) : chatDecoder * list ModelEvent * option decodeError :=
  let queued :=
    (if String.eqb (ch_Reasoning choice) "" then [] else [reasoning_delta (ch_Reasoning choice)]) ++
    (if String.eqb (ch_Content choice) "" then [] else [text_delta (ch_Content choice)]) in
  let d := foldl add_delta d (ch_Calls choice) in
  match ch_Finish choice with
  | Some reason =>
    if String.eqb reason "" then (d, queued, None)
    else
      match chatStopReason reason with
      | Some stop => (with_finish stop d, queued, None)
      | None =>
        (d, queued, Some (DError (protocolFailure (Text "model: Chat Completions stream ended with the unknown finish_reason %q" [FStr reason]))))
      end
  | None => (d, queued, None)
  end.

Fixpoint process_choices (choices : list chatChoice) (d : chatDecoder) : chatDecoder * list ModelEvent * option decodeError :=
  match choices with
  | [] => (d, [], None)
  | choice :: rest =>
    let '(d, queued, err) := process_choice choice d in
    match err with
    | Some e => (d, queued, Some e)
    | None => let '(d, more, err) := process_choices rest d in (d, queued ++ more, err)
    end
  end.

Definition with_head (model : string) (usage : option chatUsage) (d : chatDecoder) : chatDecoder :=
  MkChat (cx_calls d) (cx_byIndex d) (cx_last d) (cx_finish d) (match usage with Some u => usage_of u | None => cx_usage d end)
    (if String.eqb model "" then cx_model d else model) (cx_finished d).

(** [processChunk]. *)
Definition processChunk (chunk : chatChunk) (d : chatDecoder) : chatDecoder * list ModelEvent * option decodeError :=
  let d := with_head (ck_Model chunk) (ck_Usage chunk) d in
  let queued := match ck_Usage chunk with Some u => [usage_event (usage_of u)] | None => [] end in
  let '(d, more, err) := process_choices (ck_Choices chunk) d in (d, queued ++ more, err).

Definition finish_it (d : chatDecoder) : chatDecoder :=
  MkChat (cx_calls d) (cx_byIndex d) (cx_last d) (cx_finish d) (cx_usage d) (cx_model d) true.

(** The call that is handed over. *)
Definition tool_call (call : chatCall) : ToolCall :=
  let name := string_of (default (bytes_of (cl_name call)) (nameMap !! bytes_of (cl_name call))) in
  let arguments := if bool_decide (trim_space (bytes_of (cl_arguments call)) = []) then bytes_of "{}" else bytes_of (cl_arguments call) in
  MkToolCall (cl_id call) name arguments (cl_extra call).

(** [finishStream]. *)
Definition finishStream (d : chatDecoder) : chatDecoder * list ModelEvent :=
  let finish := if String.eqb (cx_finish d) "" then StopReasonEndTurn else cx_finish d in
  (finish_it (with_finish finish d),
   (call_event ∘ tool_call <$> cx_calls d) ++ [done_event finish (cx_usage d) (cx_model d)]).

Definition chunk_failure (message : string) (code : bytes) (kind : string) : Failure :=
  MkFailure 0 ("Chat Completions stream error: " ++ (if String.eqb message "" then kind else message)) (errorCode code) kind None.

Definition chat_decode (event : SSEEvent) (d : chatDecoder) : chatDecoder * list ModelEvent * option decodeError :=
  if se_End event then
    if String.eqb (cx_finish d) "" then (d, [], None) else (finishStream d, None)
  else if bool_decide (se_Data event = bytes_of "[DONE]") then (finishStream d, None)
  else if bool_decide (se_Data event = []) then (d, [], None)
  else
    match chat_chunk (se_Data event) with
    | Err err => (d, [], Some (DError (Wrapf (plain_text "model: invalid SSE chunk: %w") err)))
    | Ok chunk =>
      match ck_Error chunk with
      | Some (message, code, kind) => (finish_it d, [], Some (DFailure (chunk_failure message code kind)))
      | None =>
        let '(d, queued, err) := processChunk chunk d in
        match err with Some e => (finish_it d, queued, Some e) | None => (d, queued, None) end
      end
    end.

(** [Decode]. *)
Definition Chat_Decode (event : SSEEvent) (d : chatDecoder) : chatDecoder * (list ModelEvent * bool * option decodeError) :=
  let '(d, queued, err) := chat_decode event d in (d, (queued, cx_finished d, err)).

Definition chat : Decoder chatDecoder := MkDecoder chatDecoder newChatDecoder Chat_Decode.

(** *** What it promises *)

Lemma add_deltas_finished deltas d : cx_finished (foldl add_delta d deltas) = cx_finished d.
Proof.
  revert d. induction deltas as [|delta deltas IH]; intros d; [done|]. cbn [foldl]. rewrite IH. unfold add_delta, callFor.
  by destruct (_ ≫= _).
Qed.

Lemma process_choice_reading choice d d' queued err :
  process_choice choice d = (d', queued, err) -> cx_finished d' = cx_finished d /\ no_done queued /\ err <> Some (DError IoEOF).
Proof.
  unfold process_choice. set (q := _ ++ _). assert (Hq : no_done q).
  { unfold q. destruct (String.eqb (ch_Reasoning choice) ""), (String.eqb (ch_Content choice) ""); by repeat constructor. }
  pose proof (add_deltas_finished (ch_Calls choice) d) as Hd. destruct (ch_Finish choice) as [reason|]; [|by intros [= <- <- <-]].
  destruct (String.eqb reason ""); [by intros [= <- <- <-]|]. destruct (chatStopReason reason); by intros [= <- <- <-].
Qed.

Lemma process_choices_reading choices d d' queued err :
  process_choices choices d = (d', queued, err) -> cx_finished d' = cx_finished d /\ no_done queued /\ err <> Some (DError IoEOF).
Proof.
  revert d d' queued err. induction choices as [|choice choices IH]; intros d d' queued err; cbn [process_choices]; [by intros [= <- <- <-]|].
  destruct (process_choice choice d) as [[d1 q1] e1] eqn:E1. apply process_choice_reading in E1 as (Hf1 & Hq1 & He1).
  destruct e1 as [e|]; [by intros [= <- <- <-]|]. destruct (process_choices choices d1) as [[d2 q2] e2] eqn:E2.
  apply IH in E2 as (Hf2 & Hq2 & He2). intros [= <- <- <-]. rewrite Hf2. split; [done|]. split; [by apply list.Forall_app|done].
Qed.

Lemma processChunk_reading chunk d d' queued err :
  processChunk chunk d = (d', queued, err) -> cx_finished d' = cx_finished d /\ no_done queued /\ err <> Some (DError IoEOF).
Proof.
  unfold processChunk. destruct (process_choices _ _) as [[d1 q1] e1] eqn:E. apply process_choices_reading in E as (Hf & Hq & He).
  intros [= <- <- <-]. split; [done|]. split; [|done]. apply list.Forall_app. split; [|done]. by destruct (ck_Usage chunk); repeat constructor.
Qed.

(** The events of [finishStream]. *)
Lemma finishStream_done d : exists before last, (finishStream d).2 = before ++ [last] /\ no_done before /\ is_done last = true.
Proof.
  eexists _, _. split; [done|]. split; [|done]. apply list.Forall_forall. by intros event (call & -> & _)%list_elem_of_fmap.
Qed.

#[export] Instance chat_lawful : LawfulDecoder chat.
Proof.
  refine {| reading d := cx_finished d = false |}; [done| |].
  - intros event d d' events done err Hf. cbn. unfold Chat_Decode. destruct (chat_decode event d) as [[d1 queued] err1] eqn:Ed.
    intros [= <- <- <- <-]. unfold chat_decode in Ed. assert (Hend : forall d1 queued, finishStream d = (d1, queued) ->
      cx_finished d1 = true /\ exists before last, queued = before ++ [last] /\ no_done before /\ is_done last = true).
    { intros d2 q2 Hfin. pose proof (finishStream_done d) as Hdone. rewrite Hfin in Hdone. split; [by injection Hfin as <- _|exact Hdone]. }
    destruct (se_End event).
    { destruct (String.eqb (cx_finish d) ""); [injection Ed as <- <- <-; by rewrite Hf|].
      destruct (finishStream d) as [d2 q2] eqn:Efin. injection Ed as <- <- <-. destruct (Hend _ _ eq_refl) as [-> Hd]. exact Hd. }
    destruct (bool_decide (se_Data event = _)).
    { destruct (finishStream d) as [d2 q2] eqn:Efin. injection Ed as <- <- <-. destruct (Hend _ _ eq_refl) as [-> Hd]. exact Hd. }
    destruct (bool_decide _); [injection Ed as <- <- <-; by rewrite Hf|].
    destruct (chat_chunk (se_Data event)) as [chunk|e]; [|by injection Ed as <- <- <-].
    destruct (ck_Error chunk) as [[[message code] kind]|]; [by injection Ed as <- <- <-|].
    destruct (processChunk chunk d) as [[d2 q2] e2] eqn:Ec. apply processChunk_reading in Ec as (Hf2 & Hq2 & _).
    destruct e2; injection Ed as <- <- <-; [done|]. rewrite Hf2, Hf. by split.
  - intros event d. cbn. unfold Chat_Decode, chat_decode. destruct (se_End event); [by destruct (String.eqb _ _)|].
    destruct (bool_decide _); [done|]. destruct (bool_decide _); [done|]. destruct (chat_chunk _) as [chunk|e]; [|done].
    destruct (ck_Error chunk) as [[[message code] kind]|]; [done|]. destruct (processChunk chunk d) as [[d2 q2] e2] eqn:Ec.
    apply processChunk_reading in Ec as (_ & _ & He). destruct e2; cbn; congruence.
Qed.

End decoder.

(** ** Calls that arrive in pieces *)

Section calls.
Context `{ChatJson}.

Definition indexed (i : Z) (delta : callDelta) : bool := bool_decide (cd_Index delta = Some i).

(** The indices of the deltas, in the order they first appear. *)
Definition index_order (deltas : list callDelta) : list Z :=
  foldl (fun seen delta => match cd_Index delta with Some i => if bool_decide (i ∈ seen) then seen else seen ++ [i] | None => seen end) [] deltas.

(** What the deltas of one index make of its call. *)
Definition made (i : Z) (deltas : list callDelta) : chatCall :=
  foldl (fun call delta => if indexed i delta then grown delta call else call) call_empty deltas.

(** Every delta has an index, and the deltas of one index name one call. *)
Definition one_call_each (deltas : list callDelta) : Prop :=
  Forall (fun delta => is_Some (cd_Index delta)) deltas /\
  forall d1 d2, d1 ∈ deltas -> d2 ∈ deltas -> cd_Index d1 = cd_Index d2 -> cd_ID d1 <> "" -> cd_ID d2 <> "" -> cd_ID d1 = cd_ID d2.

Lemma alter_last {A} (f : A -> A) l x : alter f (length l) (l ++ [x]) = l ++ [f x].
Proof. induction l as [|y l IH]; [done|]. cbn. f_equal. exact IH. Qed.

Lemma order_snoc deltas delta i :
  cd_Index delta = Some i -> index_order (deltas ++ [delta]) = if bool_decide (i ∈ index_order deltas) then index_order deltas else index_order deltas ++ [i].
Proof. intros Hi. unfold index_order at 1. rewrite foldl_app. cbn. by rewrite Hi. Qed.

Lemma made_snoc i deltas delta : made i (deltas ++ [delta]) = if indexed i delta then grown delta (made i deltas) else made i deltas.
Proof. unfold made. by rewrite foldl_app. Qed.

Lemma made_id i deltas : cl_id (made i deltas) = "" \/ exists delta, delta ∈ deltas /\ cd_Index delta = Some i /\ cd_ID delta <> "" /\ cd_ID delta = cl_id (made i deltas).
Proof.
  induction deltas as [|delta deltas IH] using rev_ind; [by left|]. rewrite made_snoc. unfold indexed.
  assert (Hkeep : (exists d, d ∈ deltas /\ cd_Index d = Some i /\ cd_ID d <> "" /\ cd_ID d = cl_id (made i deltas)) ->
    exists d, d ∈ deltas ++ [delta] /\ cd_Index d = Some i /\ cd_ID d <> "" /\ cd_ID d = cl_id (made i deltas)).
  { intros (d & Hin & Hd). exists d. split; [by apply elem_of_app; left|done]. }
  destruct (bool_decide_reflect (cd_Index delta = Some i)) as [Hi|Hi]; cbn; [|destruct IH as [?|IH]; [by left|right; by apply Hkeep]].
  destruct (String.eqb_spec (cd_ID delta) "") as [He|He]; [destruct IH as [?|IH]; [by left|right; by apply Hkeep]|].
  right. exists delta. split; [apply elem_of_app; right; by apply list_elem_of_singleton|done].
Qed.

Lemma made_none i deltas : i ∉ index_order deltas -> made i deltas = call_empty.
Proof.
  induction deltas as [|delta deltas IH] using rev_ind; [done|]. rewrite made_snoc. unfold indexed.
  destruct (cd_Index delta) as [j|] eqn:Ej.
  - rewrite (order_snoc _ _ j Ej). case_bool_decide as Hj.
    + intros Hn. rewrite bool_decide_false by congruence. by apply IH.
    + rewrite not_elem_of_app, list_elem_of_singleton. intros [Hn Hne]. rewrite bool_decide_false by congruence. by apply IH.
  - rewrite bool_decide_false by done. intros Hn. apply IH. intros Hin. apply Hn. unfold index_order in *. rewrite foldl_app. cbn. by rewrite Ej.
Qed.

(** What the decoder has after the deltas. *)
Record assembled (deltas : list callDelta) (d : chatDecoder) : Prop := {
  as_calls : cx_calls d = (fun i => made i deltas) <$> index_order deltas;
  as_index i place : cx_byIndex d !! i = Some place <-> index_order deltas !! place = Some i;
  as_nodup : NoDup (index_order deltas);
}.

Lemma assembled_new d : cx_calls d = [] -> cx_byIndex d = ∅ -> assembled [] d.
Proof. intros Hc Hi. split; [done| |constructor]. intros i place. rewrite Hi, lookup_empty. cbn. rewrite lookup_nil. done. Qed.

Lemma assembled_add deltas delta d :
  one_call_each (deltas ++ [delta]) -> assembled deltas d -> assembled (deltas ++ [delta]) (add_delta d delta).
Proof.
  intros [Hidx Hone] [Hc Hi Hn]. apply list.Forall_app in Hidx as [_ Hidx]. inversion Hidx as [|? ? [i Ei] _]; subst.
  pose proof (order_snoc deltas delta i Ei) as Ho.
  assert (Hself : indexed i delta = true) by (by apply bool_decide_eq_true).
  assert (Hother : forall j, j <> i -> indexed j delta = false) by (intros j Hj; apply bool_decide_eq_false; rewrite Ei; congruence).
  unfold add_delta, callFor. rewrite Ei. destruct (cx_byIndex d !! i) as [place|] eqn:Ep.
  - apply Hi in Ep as Hp. assert (Hin : i ∈ index_order deltas) by (by eapply list_elem_of_lookup_2).
    rewrite bool_decide_true in Ho by done. cbn [mbind option_bind]. rewrite Hc, list_lookup_fmap, Hp. cbn [fmap option_fmap option_map].
    assert (another_call (cd_ID delta) (made i deltas) = false) as Hsame.
    { unfold another_call. destruct (String.eqb_spec (cd_ID delta) ""); [done|].
      destruct (made_id i deltas) as [->|(d0 & Hd0 & Hi0 & Hn0 & <-)]; [done|].
      rewrite (Hone delta d0); [by rewrite String.eqb_refl, !andb_false_r| | |by rewrite Ei, Hi0|done|done].
      - apply elem_of_app. right. by apply list_elem_of_singleton.
      - apply elem_of_app. by left. }
    cbn [mbind option_bind]. rewrite Hsame.
    split; rewrite Ho; [| |done].
    + cbn. apply list_eq. intros k. destruct (decide (k = place)) as [->|Hk].
      * rewrite list_lookup_alter_eq, !list_lookup_fmap, Hp. cbn. by rewrite made_snoc, Hself.
      * rewrite list_lookup_alter_ne by done. rewrite !list_lookup_fmap. destruct (index_order deltas !! k) as [j|] eqn:Ek; [|done].
        cbn. rewrite made_snoc, Hother; [done|]. intros ->. apply Hk. by eapply NoDup_lookup.
    + exact Hi.
  - assert (Hin : i ∉ index_order deltas). { intros [k Hk]%list_elem_of_lookup_1. apply Hi in Hk. congruence. }
    rewrite bool_decide_false in Ho by done. cbn [mbind option_bind]. rewrite Hc, length_fmap.
    split; rewrite Ho.
    + cbn. rewrite <- (length_fmap (fun i => made i deltas)), alter_last.
      rewrite fmap_app. cbn. rewrite made_snoc, Hself, (made_none i deltas Hin). f_equal.
      apply list_fmap_ext. intros k j Hk. rewrite made_snoc, Hother; [done|]. intros ->. apply Hin. by eapply list_elem_of_lookup_2.
    + cbn. intros j place. rewrite lookup_insert_Some, lookup_app_Some, Hi. split.
      * intros [[<- <-]|[Hne Hl]]; [right; split; [lia|by rewrite Nat.sub_diag]|by left].
      * intros [Hl|[Hle Hl]].
        -- right. split; [|done]. intros ->. apply Hin. by eapply list_elem_of_lookup_2.
        -- left. apply list_lookup_singleton_Some in Hl as [Hz ->]. split; [done|lia].
    + apply list.NoDup_app. split; [done|]. split; [by intros j Hj ->%list_elem_of_singleton|apply NoDup_singleton].
Qed.

Lemma assembled_all deltas d :
  one_call_each deltas -> cx_calls d = [] -> cx_byIndex d = ∅ -> assembled deltas (foldl add_delta d deltas).
Proof.
  intros Hone Hc Hi. induction deltas as [|delta deltas IH] using rev_ind; [by apply assembled_new|]. rewrite foldl_app. cbn [foldl].
  apply assembled_add; [done|]. apply IH. destruct Hone as [Hf Hone]. apply list.Forall_app in Hf as [Hf _]. split; [done|].
  intros d1 d2 H1 H2. apply Hone; apply elem_of_app; by left.
Qed.

(** Calls that come whole, each with an ID of its own, are each a call, whatever their indices. *)
Lemma whole_calls deltas d :
  Forall (fun delta => cd_ID delta <> "") deltas -> NoDup (cd_ID <$> deltas) -> cx_calls d = [] -> cx_byIndex d = ∅ -> cx_last d = None ->
  let d' := foldl add_delta d deltas in
  cx_calls d' = (fun delta => grown delta call_empty) <$> deltas /\
  (forall i place, cx_byIndex d' !! i = Some place -> (place < length deltas)%nat) /\ (forall place, cx_last d' = Some place -> (place < length deltas)%nat).
Proof.
  intros Hf Hn Hc Hi Hl. cbv zeta. induction deltas as [|delta deltas IH] using rev_ind.
  { cbn. rewrite Hc, Hi, Hl. split_and!; [done|intros i place Hp; by rewrite lookup_empty in Hp|done]. }
  apply list.Forall_app in Hf as [Hf Hd]. inversion Hd as [|? ? Hid _]; subst. rewrite fmap_app in Hn.
  apply list.NoDup_app in Hn as (Hn & Hnew & _). destruct (IH Hf Hn) as (Hcalls & Hby & Hlast). rewrite foldl_app. cbn [foldl].
  set (d' := foldl add_delta d deltas) in *. unfold add_delta, callFor.
  assert (Hother : forall place call, (place < length deltas)%nat -> cx_calls d' !! place = Some call -> another_call (cd_ID delta) call = true).
  { intros place call Hp. rewrite Hcalls, list_lookup_fmap. destruct (deltas !! place) as [other|] eqn:Eo; [|done]. cbn. intros [= <-].
    apply list_elem_of_lookup_2 in Eo. rewrite list.Forall_forall in Hf. pose proof (Hf other Eo) as Hoid. unfold another_call, grown. cbn.
    destruct (String.eqb_spec (cd_ID other) ""); [done|]. destruct (String.eqb_spec (cd_ID delta) ""); [done|].
    destruct (String.eqb_spec (cd_ID other) ""); [done|]. destruct (String.eqb_spec (cd_ID delta) (cd_ID other)) as [He|]; [|done].
    exfalso. apply (Hnew (cd_ID delta)); [|by apply list_elem_of_singleton]. rewrite He. by apply list_elem_of_fmap_2. }
  set (found := match cd_Index delta with Some i => cx_byIndex d' !! i | None => cx_last d' end).
  assert ((place ← found; call ← cx_calls d' !! place; if another_call (cd_ID delta) call then None else Some place) = None) as ->.
  { destruct found as [place|] eqn:Ef; [|done]. assert (Hp : (place < length deltas)%nat).
    { unfold found in Ef. destruct (cd_Index delta); [by eapply Hby|by eapply Hlast]. }
    cbn [mbind option_bind]. destruct (cx_calls d' !! place) as [call|] eqn:Ec; [|done]. cbn. by rewrite (Hother place call Hp Ec). }
  assert (Hlen : length (cx_calls d') = length deltas) by by rewrite Hcalls, length_fmap.
  cbn. split; [|split].
  - rewrite alter_last. by rewrite fmap_app, Hcalls.
  - intros i place. rewrite length_app, Hlen. cbn [length]. destruct (cd_Index delta) as [j|].
    + intros [[_ <-]|[_ Hp%Hby]]%lookup_insert_Some; lia.
    + intros Hp%Hby. lia.
  - intros place [= <-]. rewrite length_app, Hlen. cbn. lia.
Qed.

(** The Tool calls of a chat reply are put together from their pieces: when the provider names
    each call by an index, in whatever order the pieces of several calls are mixed, each call is
    what its own pieces make of it in their order, and the calls come in the order they first
    appeared; when it sends calls whole, each with an ID of its own, with or without indices, each
    piece is a call. *)
Theorem chat_calls_put_together deltas :
  (one_call_each deltas -> cx_calls (foldl add_delta newChatDecoder deltas) = (fun i => made i deltas) <$> index_order deltas) /\
  (Forall (fun delta => cd_ID delta <> "") deltas -> NoDup (cd_ID <$> deltas) ->
   cx_calls (foldl add_delta newChatDecoder deltas) = (fun delta => grown delta call_empty) <$> deltas).
Proof.
  split.
  - intros Hone. by destruct (assembled_all deltas newChatDecoder Hone).
  - intros Hf Hn. by destruct (whole_calls deltas newChatDecoder Hf Hn eq_refl eq_refl eq_refl).
Qed.

End calls.
