(* ===== verification/AnthropicDecoder.v ===== *)
(** * Reading an Anthropic Messages reply

    The decoder of [model/anthropic_stream.go]: content blocks, which are mixed by their index,
    become ModelEvents; a Tool call and a reasoning artifact are handed over whole when their block
    stops.  What [encoding/json] makes of an event, and of the fields of an artifact, are
    parameters. *)

From S2P Require Import Prelude GoStrings Errors Types Reply Classify Sse ModelClient ModelStream.
Local Open Scope string_scope.
Local Open Scope list_scope.

(** ** Events *)

Record anthropicUsage := MkAnthropicUsage { au_Input : N; au_Output : N; au_CacheCreation : N; au_CacheRead : N }.
Definition anthropicUsage_zero : anthropicUsage := MkAnthropicUsage 0 0 0 0.

Record contentBlock := MkContentBlock {
  cb_Type : string; cb_ID : string; cb_Name : string; cb_Text : string; cb_Thinking : string; cb_Signature : string; cb_Data : string }.

Record contentDelta := MkContentDelta {
  ct_Type : string; ct_Text : string; ct_PartialJSON : string; ct_Thinking : string; ct_Signature : string; ct_StopReason : string }.

Record anthropicEvent := MkAnthropicEvent {
  an_Type : string;
  an_Index : Z;
  an_Message : option (string * anthropicUsage);
  an_ContentBlock : option contentBlock;
  an_Delta : option contentDelta;
  an_Usage : option anthropicUsage;
  an_Error : option (string * string);
}.

(** What [json.Unmarshal] makes of an event, and [json.Marshal] of an object of strings, which
    cannot fail. *)
Class AnthropicJson := { anthropic_event : bytes -> result error anthropicEvent; marshal_strings : list (string * string) -> bytes }.

(** ** The decoder *)

Record anthropicBlockState := MkBlock {
  ab_kind : string; ab_id : string; ab_name : string; ab_input : string; ab_thinking : string; ab_signature : string; ab_data : string }.

Record anthropicDecoder := MkAnthropic {
  ax_blocks : gmap Z anthropicBlockState;
  ax_usage : anthropicUsage;
  ax_stop : StopReason;
  ax_model : string;
  ax_finished : bool;
}.

Definition newAnthropicDecoder : anthropicDecoder := MkAnthropic ∅ anthropicUsage_zero "" "" false.

Definition with_blocks (blocks : gmap Z anthropicBlockState) (d : anthropicDecoder) : anthropicDecoder :=
  MkAnthropic blocks (ax_usage d) (ax_stop d) (ax_model d) (ax_finished d).
Definition with_usage (usage : anthropicUsage) (d : anthropicDecoder) : anthropicDecoder :=
  MkAnthropic (ax_blocks d) usage (ax_stop d) (ax_model d) (ax_finished d).
Definition with_stop (stop : StopReason) (d : anthropicDecoder) : anthropicDecoder :=
  MkAnthropic (ax_blocks d) (ax_usage d) stop (ax_model d) (ax_finished d).

(** An event that is queued when it has a text. *)
Definition queued_text (make : string -> ModelEvent) (text : string) : list ModelEvent :=
  if String.eqb text "" then [] else [make text].

(** [startBlock]. *)
Definition opened_block (b : contentBlock) : anthropicBlockState :=
  MkBlock (cb_Type b) (cb_ID b) (cb_Name b) "" (if String.eqb (cb_Type b) "thinking" then cb_Thinking b else "") (cb_Signature b) (cb_Data b).

Definition startBlock (event : anthropicEvent) (d : anthropicDecoder) : anthropicDecoder * list ModelEvent :=
  match an_ContentBlock event with
  | None => (d, [])
  | Some b =>
    (with_blocks (<[an_Index event := opened_block b]> (ax_blocks d)) d,
     if String.eqb (cb_Type b) "text" then queued_text text_delta (cb_Text b)
     else if String.eqb (cb_Type b) "thinking" then queued_text reasoning_delta (cb_Thinking b) else [])
  end.

(** What a delta makes of its block. *)
Definition add_content (delta : contentDelta) (block : anthropicBlockState) : anthropicBlockState :=
  if String.eqb (ct_Type delta) "input_json_delta" then
    MkBlock (ab_kind block) (ab_id block) (ab_name block) (ab_input block ++ ct_PartialJSON delta) (ab_thinking block) (ab_signature block) (ab_data block)
  else if String.eqb (ct_Type delta) "thinking_delta" then
    MkBlock (ab_kind block) (ab_id block) (ab_name block) (ab_input block) (ab_thinking block ++ ct_Thinking delta) (ab_signature block) (ab_data block)
  else if String.eqb (ct_Type delta) "signature_delta" then
    MkBlock (ab_kind block) (ab_id block) (ab_name block) (ab_input block) (ab_thinking block) (ab_signature block ++ ct_Signature delta) (ab_data block)
  else block.

Definition delta_events (delta : contentDelta) : list ModelEvent :=
  if String.eqb (ct_Type delta) "text_delta" then queued_text text_delta (ct_Text delta)
  else if String.eqb (ct_Type delta) "thinking_delta" then queued_text reasoning_delta (ct_Thinking delta) else [].

(** [blockDelta]. *)
Definition blockDelta (event : anthropicEvent) (d : anthropicDecoder) : anthropicDecoder * list ModelEvent :=
  match ax_blocks d !! an_Index event, an_Delta event with
  | Some block, Some delta => (with_blocks (<[an_Index event := add_content delta block]> (ax_blocks d)) d, delta_events delta)
  | _, _ => (d, [])
  end.

(** [anthropicStopReason]. *)
Definition anthropicStopReason (reason : string) : option StopReason :=
  if String.eqb reason "tool_use" then Some StopReasonToolCalls
  else if String.eqb reason "max_tokens" then Some StopReasonMaxTokens
  else if String.eqb reason "refusal" then Some StopReasonError
  else if String.eqb reason "end_turn" || String.eqb reason "stop_sequence" then Some StopReasonEndTurn
  else None.

(** [mergeUsage]. *)
Definition newer (n old : N) : N := if (n =? 0)%N then old else n.
Definition mergeUsage (delta usage : anthropicUsage) : anthropicUsage :=
  MkAnthropicUsage (newer (au_Input delta) (au_Input usage)) (newer (au_Output delta) (au_Output usage))
    (newer (au_CacheCreation delta) (au_CacheCreation usage)) (newer (au_CacheRead delta) (au_CacheRead usage)).

(** [messageDelta]. *)
Definition messageDelta (event : anthropicEvent) (d : anthropicDecoder) : anthropicDecoder * option decodeError :=
  let reason := match an_Delta event with Some delta => ct_StopReason delta | None => "" end in
  if String.eqb reason "model_context_window_exceeded" then
    (d, Some (DFailure (MkFailure 0 "the context window was exceeded during the reply" reason "" None)))
  else
    let merged d := match an_Usage event with Some usage => with_usage (mergeUsage usage (ax_usage d)) d | None => d end in
    if String.eqb reason "" then (merged d, None)
    else
      match anthropicStopReason reason with
      | None => (d, Some (DError (protocolFailure (Text "model: Anthropic stream ended with the unknown stop_reason %q" [FStr reason]))))
      | Some stop => (merged (with_stop stop d), None)
      end.

(** [gotatoUsage]. *)
Definition gotatoUsage (u : anthropicUsage) : Usage :=
  let input := u64_add (u64_add (au_Input u) (au_CacheRead u)) (au_CacheCreation u) in
  MkUsage input (au_Output u) (u64_add input (au_Output u)) (au_CacheRead u) (au_CacheCreation u).

(** [stopMessage]. *)
Definition stopMessage (d : anthropicDecoder) : anthropicDecoder * list ModelEvent :=
  let usage := gotatoUsage (ax_usage d) in
  let stop := if String.eqb (ax_stop d) "" then StopReasonEndTurn else ax_stop d in
  (MkAnthropic (ax_blocks d) (ax_usage d) stop (ax_model d) true, [usage_event usage; done_event stop usage (ax_model d)]).

(** [streamError]. *)
Definition streamError (event : anthropicEvent) : Failure :=
  match an_Error event with
  | Some (kind, message) => MkFailure 0 message "" kind None
  | None => MkFailure 0 "stream error" "" "" None
  end.

Section decoder.
Context `{NetErrors, ErrorBodies, AnthropicJson} (nameMap : gmap bytes bytes).

(** [finishBlock]. *)
Definition finishBlock (block : anthropicBlockState) : list ModelEvent :=
  if String.eqb (ab_kind block) "tool_use" then
    let name := string_of (default (bytes_of (ab_name block)) (nameMap !! bytes_of (ab_name block))) in
    [call_event (MkToolCall (ab_id block) name (bytes_of (if String.eqb (ab_input block) "" then "{}" else ab_input block)) [])]
  else if String.eqb (ab_kind block) "thinking" then
    [reasoning_done (marshal_strings [("signature", ab_signature block); ("thinking", ab_thinking block); ("type", "thinking")])]
  else if String.eqb (ab_kind block) "redacted_thinking" then
    [reasoning_done (marshal_strings [("data", ab_data block); ("type", "redacted_thinking")])]
  else [].

(** [process]: the decoder, what it queues, and an error. *)
Definition process (event : anthropicEvent) (d : anthropicDecoder) : anthropicDecoder * list ModelEvent * option decodeError :=
  let kind := an_Type event in
  if String.eqb kind "message_start" then
    match an_Message event with
    | Some (model, usage) => (MkAnthropic (ax_blocks d) usage (ax_stop d) model (ax_finished d), [], None)
    | None => (d, [], None)
    end
  else if String.eqb kind "content_block_start" then (startBlock event d, None)
  else if String.eqb kind "content_block_delta" then (blockDelta event d, None)
  else if String.eqb kind "content_block_stop" then
    match ax_blocks d !! an_Index event with
    | None => (d, [], None)
    | Some block => (with_blocks (delete (an_Index event) (ax_blocks d)) d, finishBlock block, None)
    end
  else if String.eqb kind "message_delta" then let (d, err) := messageDelta event d in (d, [], err)
  else if String.eqb kind "message_stop" then (stopMessage d, None)
  else if String.eqb kind "error" then (d, [], Some (DFailure (streamError event)))
  else (d, [], None).

(** [Decode]. *)
Definition Anthropic_Decode (event : SSEEvent) (d : anthropicDecoder) : anthropicDecoder * (list ModelEvent * bool * option decodeError) :=
  if se_End event || bool_decide (se_Data event = []) then (d, ([], ax_finished d, None))
  else
    match anthropic_event (se_Data event) with
    | Err err => (d, ([], false, Some (DError (Wrapf (plain_text "model: invalid SSE event: %w") err))))
    | Ok parsed => let '(d, queued, err) := process parsed d in (d, (queued, ax_finished d, err))
    end.

Definition anthropic : Decoder anthropicDecoder := MkDecoder anthropicDecoder newAnthropicDecoder Anthropic_Decode.

(** *** What it promises *)

Lemma queued_text_no_done make text : (forall t, is_done (make t) = false) -> no_done (queued_text make text).
Proof. intros Hm. unfold queued_text. destruct (String.eqb text ""); by repeat constructor. Qed.

Lemma messageDelta_reading event d d' err :
  messageDelta event d = (d', err) -> ax_finished d' = ax_finished d /\ ax_blocks d' = ax_blocks d /\ err <> Some (DError IoEOF).
Proof.
  unfold messageDelta. cbv zeta. destruct (String.eqb _ "model_context_window_exceeded"); [by intros [= <- <-]|].
  destruct (String.eqb _ ""); [by destruct (an_Usage event); intros [= <- <-]|].
  destruct (anthropicStopReason _); [by destruct (an_Usage event); intros [= <- <-]|by intros [= <- <-]].
Qed.

Lemma startBlock_reading event d : ax_finished (startBlock event d).1 = ax_finished d /\ no_done (startBlock event d).2.
Proof.
  unfold startBlock. destruct (an_ContentBlock event) as [b|]; [|done]. split; [done|]. cbn.
  destruct (String.eqb _ "text"); [by apply queued_text_no_done|]. destruct (String.eqb _ "thinking"); [by apply queued_text_no_done|done].
Qed.

Lemma blockDelta_reading event d : ax_finished (blockDelta event d).1 = ax_finished d /\ no_done (blockDelta event d).2.
Proof.
  unfold blockDelta. destruct (_ !! _) as [b|], (an_Delta event) as [delta|]; [|done..]. split; [done|]. cbn. unfold delta_events.
  destruct (String.eqb _ "text_delta"); [by apply queued_text_no_done|]. destruct (String.eqb _ "thinking_delta"); [by apply queued_text_no_done|done].
Qed.

Lemma finishBlock_no_done block : no_done (finishBlock block).
Proof.
  unfold finishBlock. destruct (String.eqb _ "tool_use"); [by repeat constructor|]. destruct (String.eqb _ "thinking"); [by repeat constructor|].
  destruct (String.eqb _ "redacted_thinking"); by repeat constructor.
Qed.

(** Only [message_stop] ends a reply. *)
Lemma process_reading event d d' queued err :
  process event d = (d', queued, err) -> err <> Some (DError IoEOF) /\
  if String.eqb (an_Type event) "message_stop" then
    err = None /\ ax_finished d' = true /\ exists before last, queued = before ++ [last] /\ no_done before /\ is_done last = true
  else ax_finished d' = ax_finished d /\ no_done queued.
Proof.
  unfold process. cbv zeta. destruct (String.eqb_spec (an_Type event) "message_start") as [->|_].
  { destruct (an_Message event) as [[model usage]|]; by intros [= <- <- <-]. }
  destruct (String.eqb_spec (an_Type event) "content_block_start") as [->|_].
  { pose proof (startBlock_reading event d) as Hs. destruct (startBlock event d). by intros [= <- <- <-]. }
  destruct (String.eqb_spec (an_Type event) "content_block_delta") as [->|_].
  { pose proof (blockDelta_reading event d) as Hs. destruct (blockDelta event d). by intros [= <- <- <-]. }
  destruct (String.eqb_spec (an_Type event) "content_block_stop") as [->|_].
  { destruct (_ !! _) as [block|]; intros [= <- <- <-]; [|done]. split; [done|]. split; [done|]. apply finishBlock_no_done. }
  destruct (String.eqb_spec (an_Type event) "message_delta") as [->|_].
  { destruct (messageDelta event d) as [d1 e1] eqn:E. apply messageDelta_reading in E as (Hf & _ & He). by intros [= <- <- <-]. }
  destruct (String.eqb (an_Type event) "message_stop").
  { intros [= <- <- <-]. split; [done|]. split; [done|]. split; [done|]. eexists [_], _. split; [done|]. by split; [repeat constructor|]. }
  destruct (String.eqb (an_Type event) "error"); by intros [= <- <- <-].
Qed.

#[export] Instance anthropic_lawful : LawfulDecoder anthropic.
Proof.
  refine {| reading d := ax_finished d = false |}; [done| |].
  - intros event d d' events done err Hf. cbn. unfold Anthropic_Decode. destruct (se_End event || _); [by intros [= <- <- <- <-]; rewrite Hf|].
    destruct (anthropic_event (se_Data event)) as [parsed|e]; [|by intros [= <- <- <- <-]].
    destruct (process parsed d) as [[d1 q1] e1] eqn:Ep. intros [= <- <- <- <-]. apply process_reading in Ep as [_ Hp].
    destruct (String.eqb _ _).
    + destruct Hp as (-> & -> & Hd). exact Hd.
    + destruct Hp as [-> Hq]. rewrite Hf. by destruct e1.
  - intros event d. cbn. unfold Anthropic_Decode. destruct (se_End event || _); [done|].
    destruct (anthropic_event (se_Data event)) as [parsed|e]; [|done]. destruct (process parsed d) as [[d1 q1] e1] eqn:Ep.
    by apply process_reading in Ep as [He _].
Qed.

(** ** Blocks that arrive in pieces *)

Definition read_event_of (event : anthropicEvent) (d : anthropicDecoder) : anthropicDecoder := (process event d).1.1.
Definition queued_by (event : anthropicEvent) (d : anthropicDecoder) : list ModelEvent := (process event d).1.2.

(** The event opens or stops the block. *)
Definition starts_block (i : Z) (b : contentBlock) (event : anthropicEvent) : Prop :=
  an_Type event = "content_block_start" /\ an_Index event = i /\ an_ContentBlock event = Some b.
Definition stops_block (i : Z) (event : anthropicEvent) : Prop := an_Type event = "content_block_stop" /\ an_Index event = i.
Definition leaves_open (i : Z) (event : anthropicEvent) : Prop := (forall b, ~ starts_block i b event) /\ ~ stops_block i event.

(** The deltas of a block. *)
Definition deltas_of (i : Z) (events : list anthropicEvent) : list contentDelta :=
  events ≫= fun event =>
    if String.eqb (an_Type event) "content_block_delta" && bool_decide (an_Index event = i) then
      match an_Delta event with Some delta => [delta] | None => [] end
    else [].

(** What the deltas of one type say, one after the other. *)
Definition said (kind : string) (field : contentDelta -> string) (deltas : list contentDelta) : string :=
  foldl String.append "" (deltas ≫= fun delta => if String.eqb (ct_Type delta) kind then [field delta] else []).

(** A block as its pieces make it. *)
Definition whole_block (b : contentBlock) (deltas : list contentDelta) : anthropicBlockState :=
  MkBlock (cb_Type b) (cb_ID b) (cb_Name b) (said "input_json_delta" ct_PartialJSON deltas)
    ((if String.eqb (cb_Type b) "thinking" then cb_Thinking b else "") ++ said "thinking_delta" ct_Thinking deltas)
    (cb_Signature b ++ said "signature_delta" ct_Signature deltas) (cb_Data b).

Lemma said_snoc kind field deltas delta :
  said kind field (deltas ++ [delta]) = if String.eqb (ct_Type delta) kind then (said kind field deltas ++ field delta)%string else said kind field deltas.
Proof.
  unfold said. rewrite bind_app, foldl_app. cbn. rewrite app_nil_r. by destruct (String.eqb (ct_Type delta) kind).
Qed.

Lemma add_content_whole b deltas delta : add_content delta (whole_block b deltas) = whole_block b (deltas ++ [delta]).
Proof.
  unfold add_content, whole_block. rewrite !said_snoc. cbn [ab_kind ab_id ab_name ab_input ab_thinking ab_signature ab_data].
  destruct (String.eqb_spec (ct_Type delta) "input_json_delta") as [->|_]; [done|].
  destruct (String.eqb_spec (ct_Type delta) "thinking_delta") as [->|_]; [cbn; by rewrite append_assoc_string|].
  destruct (String.eqb_spec (ct_Type delta) "signature_delta") as [_|_]; [cbn; by rewrite append_assoc_string|done].
Qed.

Lemma opened_block_whole b : opened_block b = whole_block b [].
Proof. unfold opened_block, whole_block. cbn. by rewrite !append_nil_r_string. Qed.

Lemma deltas_of_snoc i events event :
  deltas_of i (events ++ [event]) = deltas_of i events ++ deltas_of i [event].
Proof. unfold deltas_of. by rewrite bind_app. Qed.

Lemma process_blocks_same event d :
  an_Type event <> "content_block_start" -> an_Type event <> "content_block_delta" -> an_Type event <> "content_block_stop" ->
  ax_blocks (read_event_of event d) = ax_blocks d.
Proof.
  intros Hs Hd He. unfold read_event_of, process. cbv zeta. apply String.eqb_neq in Hs, Hd, He. rewrite Hs, Hd, He.
  destruct (String.eqb _ "message_start"); [by destruct (an_Message event) as [[? ?]|]|].
  destruct (String.eqb _ "message_delta"); [destruct (messageDelta event d) as [d1 e1] eqn:E; by apply messageDelta_reading in E as (_ & ? & _)|].
  destruct (String.eqb _ "message_stop"); [done|]. by destruct (String.eqb _ "error").
Qed.

(** An event keeps an open block, and adds to it what it says of it. *)
Lemma process_leaves_open i b event before d :
  leaves_open i event -> ax_blocks d !! i = Some (whole_block b (deltas_of i before)) ->
  ax_blocks (read_event_of event d) !! i = Some (whole_block b (deltas_of i (before ++ [event]))).
Proof.
  intros [Hstart Hstop] Hb. rewrite deltas_of_snoc. unfold deltas_of at 2. cbn. rewrite app_nil_r.
  destruct (String.eqb_spec (an_Type event) "content_block_start") as [Es|Es].
  { rewrite Es. cbn. rewrite app_nil_r. unfold read_event_of, process. rewrite Es. cbn. unfold startBlock.
    destruct (an_ContentBlock event) as [b'|] eqn:Eb; [|done]. cbn. rewrite lookup_insert_ne; [done|]. intros Hi. by apply (Hstart b'). }
  destruct (String.eqb_spec (an_Type event) "content_block_stop") as [Ep|Ep].
  { rewrite Ep. cbn. rewrite app_nil_r. unfold read_event_of, process. rewrite Ep. cbn. destruct (_ !! an_Index event) as [block|]; [|done].
    cbn. rewrite lookup_delete_ne; [done|]. intros Hi. by apply Hstop. }
  destruct (String.eqb_spec (an_Type event) "content_block_delta") as [Ed|Ed]; cbn [andb].
  - unfold read_event_of, process. rewrite Ed. cbn. unfold blockDelta. destruct (bool_decide_reflect (an_Index event = i)) as [->|Hi].
    + rewrite Hb. destruct (an_Delta event) as [delta|]; [|by rewrite app_nil_r]. cbn. by rewrite lookup_insert_eq, add_content_whole.
    + rewrite app_nil_r. destruct (_ !! an_Index event), (an_Delta event); [|done..]. cbn. by rewrite lookup_insert_ne.
  - rewrite app_nil_r. by rewrite process_blocks_same.
Qed.

Lemma block_stays_open i b events d :
  Forall (leaves_open i) events -> ax_blocks d !! i = Some (whole_block b []) ->
  ax_blocks (foldl (fun d event => read_event_of event d) d events) !! i = Some (whole_block b (deltas_of i events)).
Proof.
  intros Hf Hb. induction events as [|event events IH] using rev_ind; [done|]. apply list.Forall_app in Hf as [Hf He].
  inversion He; subst. rewrite foldl_app. cbn [foldl]. apply process_leaves_open; [done|]. by apply IH.
Qed.

(** The reasoning that was streamed. *)
Definition streamed_reasoning (events : list ModelEvent) : string :=
  foldl String.append "" (events ≫= fun event => if String.eqb (me_Kind event) ModelEventKindReasoningDelta then [me_Text event] else []).

Lemma foldl_append_acc s l : foldl String.append s l = (s ++ foldl String.append "" l)%string.
Proof.
  revert s. induction l as [|t l IH]; intros s; [by rewrite append_nil_r_string|].
  change (foldl String.append (s ++ t) l = s ++ foldl String.append t l)%string. rewrite (IH (s ++ t)%string), (IH t). by rewrite append_assoc_string.
Qed.

Lemma streamed_app e1 e2 : streamed_reasoning (e1 ++ e2) = (streamed_reasoning e1 ++ streamed_reasoning e2)%string.
Proof. unfold streamed_reasoning. by rewrite bind_app, foldl_app, foldl_append_acc. Qed.

Lemma streamed_deltas deltas : streamed_reasoning (deltas ≫= delta_events) = said "thinking_delta" ct_Thinking deltas.
Proof.
  induction deltas as [|delta deltas IH] using rev_ind; [done|]. rewrite bind_app, streamed_app, IH, said_snoc. cbn. rewrite app_nil_r.
  unfold delta_events. destruct (String.eqb_spec (ct_Type delta) "text_delta") as [->|_].
  { cbn. unfold queued_text. destruct (String.eqb (ct_Text delta) ""); cbn; by rewrite append_nil_r_string. }
  destruct (String.eqb (ct_Type delta) "thinking_delta"); [|cbn; by rewrite append_nil_r_string].
  unfold queued_text. destruct (String.eqb_spec (ct_Thinking delta) "") as [->|_]; [done|]. done.
Qed.

(** The content blocks of an Anthropic reply are put together from their pieces, however the
    pieces of several blocks are mixed: when a block stops, what is handed over is made of the
    block as it was opened and of every delta of its index in between, in their order, so a Tool
    call has all its input, and a reasoning artifact all that was streamed of it; a second stop
    hands over nothing. *)
Theorem anthropic_blocks_put_together i b start events stop d :
  starts_block i b start -> Forall (leaves_open i) events -> stops_block i stop ->
  let before := foldl (fun d event => read_event_of event d) (read_event_of start d) events in
  let block := whole_block b (deltas_of i events) in
  queued_by stop before = finishBlock block /\
  queued_by stop (read_event_of stop before) = [] /\
  (cb_Type b = "thinking" -> ab_thinking block = streamed_reasoning (queued_by start d ++ (deltas_of i events ≫= delta_events))).
Proof.
  intros (Hst & Hsi & Hsb) Hf (Hpt & Hpi). cbv zeta. set (before := foldl _ _ events).
  assert (Hb : ax_blocks before !! i = Some (whole_block b (deltas_of i events))).
  { apply block_stays_open; [done|]. unfold read_event_of, process. rewrite Hst. cbn. unfold startBlock. rewrite Hsb, Hsi. cbn.
    by rewrite lookup_insert_eq, opened_block_whole. }
  assert (Hstop : process stop before = (with_blocks (delete i (ax_blocks before)) before, finishBlock (whole_block b (deltas_of i events)), None)).
  { unfold process. rewrite Hpt. cbn. by rewrite Hpi, Hb. }
  split; [unfold queued_by; by rewrite Hstop|]. split.
  - unfold read_event_of. rewrite Hstop. cbn [fst]. unfold queued_by, process. rewrite Hpt. cbn. by rewrite Hpi, lookup_delete_eq.
  - intros Ht. rewrite streamed_app, streamed_deltas. unfold queued_by, process. rewrite Hst. cbn. unfold startBlock. rewrite Hsb, Ht. cbn.
    f_equal. unfold queued_text. by destruct (String.eqb_spec (cb_Thinking b) "") as [->|_].
Qed.

End decoder.

(** ** Samples *)

#[local] Instance sample_anthropic : AnthropicJson := {|
  anthropic_event _ := Err IoEOF;
  marshal_strings fields := fields ≫= fun '(name, value) => bytes_of name ++ bytes_of value;
|}.

Definition sample_block : contentBlock := MkContentBlock "tool_use" "call" "echo" "" "" "" "".
Definition sample_piece (kind : string) (i : Z) (block : option contentBlock) (json : string) : anthropicEvent :=
  MkAnthropicEvent kind i None block (Some (MkContentDelta "input_json_delta" "" json "" "" "")) None None.

(** Two calls whose pieces are mixed. *)
Definition sample_pieces : list anthropicEvent :=
  [sample_piece "content_block_delta" 0 None "{a:"; sample_piece "content_block_start" 1 (Some sample_block) "";
   sample_piece "content_block_delta" 1 None "{}"; sample_piece "content_block_delta" 0 None "1}"; sample_piece "content_block_stop" 1 None ""].

Lemma anthropic_blocks_put_together_witness :
  queued_by ∅ (sample_piece "content_block_stop" 0 None "")
    (foldl (fun d event => read_event_of ∅ event d) (read_event_of ∅ (sample_piece "content_block_start" 0 (Some sample_block) "") newAnthropicDecoder) sample_pieces) =
  [call_event (MkToolCall "call" "echo" (bytes_of "{a:1}") [])].
Proof.
  destruct (anthropic_blocks_put_together ∅ 0 sample_block (sample_piece "content_block_start" 0 (Some sample_block) "") sample_pieces
    (sample_piece "content_block_stop" 0 None "") newAnthropicDecoder) as [-> _].
  - done.
  - assert (Hother : forall event, an_Index event <> 0%Z \/ an_Type event = "content_block_delta" -> leaves_open 0 event).
    { intros event [Hi|Ht]; split; [by intros b (_ & ? & _)|by intros (_ & ?)|intros b (Hk & _); congruence|intros (Hk & _); congruence]. }
    repeat constructor; apply Hother; solve [by left | by right].
  - done.
  - vm_compute. reflexivity.
Defined.
