(* ===== verification/ResponsesDecoder.v ===== *)
(** * Reading a Responses reply

    The decoder of [model/responses_stream.go]: output items, which are named by their index, become
    ModelEvents; a call is handed over once, when its item is done or the response ends.  What
    [encoding/json] makes of an event is a parameter, and so is the order in which Go ranges over
    the names of the Tools. *)

From S2P Require Import Prelude GoStrings Errors Types ToolRegistry Reply Classify Sse ModelClient ModelStream Deferred.
Local Open Scope string_scope.
Local Open Scope list_scope.

(** ** Events *)

Record responsesOutputItem := MkItem {
  oi_Type : string;
  oi_ID : string;
  oi_CallID : string;
  oi_Name : string;
  oi_Arguments : string;
  oi_EncryptedContent : string;
  oi_Summary : list (string * string);
  oi_Content : list (string * string);
}.

Record responsesUsage := MkResponsesUsage { ru_Input : N; ru_Output : N; ru_Total : N; ru_Details : option (N * N) }.

Record responsesResponse := MkResponsesResponse {
  rr_ID : string;
  rr_Status : string;
  rr_Model : string;
  rr_IncompleteDetails : option string;
  rr_Usage : option responsesUsage;
  rr_Output : list responsesOutputItem;
  rr_Error : option (string * string);
}.

Record responsesEvent := MkResponsesEvent {
  rv_Type : string;
  rv_OutputIndex : Z;
  rv_Delta : string;
  rv_Arguments : string;
  rv_Item : option responsesOutputItem;
  rv_Response : option responsesResponse;
  rv_Code : string;
  rv_Message : string;
}.

(** What [json.Unmarshal] makes of an event and of its item as it stands, and [json.Marshal] of an
    item, which cannot fail. *)
Class ResponsesJson := {
  responses_event : bytes -> result error responsesEvent;
  raw_item : bytes -> result error bytes;
  marshal_item : responsesOutputItem -> bytes;
}.

(** ** The decoder *)

Record responsesCall := MkResponsesCall {
  rc_id : string; rc_callID : string; rc_name : string; rc_arguments : string; rc_argumentsDone : bool; rc_emitted : bool }.
Definition responsesCall_zero : responsesCall := MkResponsesCall "" "" "" "" false false.

Record responsesDecoder := MkResponses {
  rx_calls : gmap Z responsesCall;
  rx_texts : gset Z;
  rx_model : string;
  rx_finished : bool;
}.

Definition newResponsesDecoder : responsesDecoder := MkResponses ∅ ∅ "" false.

Definition with_call (index : Z) (call : responsesCall) (d : responsesDecoder) : responsesDecoder :=
  MkResponses (<[index := call]> (rx_calls d)) (rx_texts d) (rx_model d) (rx_finished d).
Definition with_model (model : string) (d : responsesDecoder) : responsesDecoder :=
  MkResponses (rx_calls d) (rx_texts d) (if String.eqb model "" then rx_model d else model) (rx_finished d).
Definition with_text (index : Z) (d : responsesDecoder) : responsesDecoder :=
  MkResponses (rx_calls d) ({[index]} ∪ rx_texts d) (rx_model d) (rx_finished d).

(** The call at an index, which is a new one if there is none. *)
Definition call_at (index : Z) (d : responsesDecoder) : responsesCall := default responsesCall_zero (rx_calls d !! index).

(** [finishWithError]; a decoder that is finished reads no more. *)
Definition finishWithError (err : decodeError) (d : responsesDecoder) : responsesDecoder * list ModelEvent * option decodeError :=
  if rx_finished d then (d, [], None) else (MkResponses (rx_calls d) (rx_texts d) (rx_model d) true, [], Some err).

(** [responsesStopReason]. *)
Definition responsesStopReason (status : string) (details : option string) : option StopReason :=
  if String.eqb status "incomplete" then
    match details with
    | Some reason => if String.eqb reason "max_output_tokens" then Some StopReasonMaxTokens else Some StopReasonError
    | None => Some StopReasonError
    end
  else if String.eqb status "failed" || String.eqb status "canceled" || String.eqb status "cancelled" then Some StopReasonError
  else if String.eqb status "" || String.eqb status "completed" then Some StopReasonEndTurn
  else None.

Definition is_call_item (item : responsesOutputItem) : bool :=
  String.eqb (oi_Type item) "function_call" || String.eqb (oi_Type item) "tool_search_call".

Definition over (new old : string) : string := if String.eqb new "" then old else new.

Section decoder.
Context `{NetErrors, ErrorBodies, ResponsesJson} (nameMap : gmap bytes bytes) (ranged : list bytes).

(** [searchToolName]: the first name in the order of the range. *)
Definition searchToolName : string :=
  match List.find (fun name => match nameMap !! name with Some id => isSearchToolID (string_of id) | None => false end) ranged with
  | Some name => string_of name
  | None => SearchToolName
  end.

(** [ensureResponsesCall]. *)
Definition named_call (item : responsesOutputItem) (call : responsesCall) : responsesCall :=
  MkResponsesCall (over (oi_ID item) (rc_id call)) (over (oi_CallID item) (rc_callID call))
    (if String.eqb (oi_Type item) "tool_search_call" then searchToolName else over (oi_Name item) (rc_name call))
    (over (oi_Arguments item) (rc_arguments call)) (rc_argumentsDone call) (rc_emitted call).

Definition ensureResponsesCall (index : Z) (item : responsesOutputItem) (d : responsesDecoder) : responsesDecoder :=
  if is_call_item item then with_call index (named_call item (call_at index d)) d else d.

(** [emitResponsesCall]: the call that is handed over. *)
Definition sent_call (call : responsesCall) : ToolCall :=
  MkToolCall (rc_callID call) (string_of (default (bytes_of (rc_name call)) (nameMap !! bytes_of (rc_name call))))
    (bytes_of (if String.eqb (rc_arguments call) "" then "{}" else rc_arguments call))
    (if String.eqb (rc_id call) "" then [] else bytes_of (rc_id call)).

Definition deliverable (call : responsesCall) : bool :=
  negb (String.eqb (tc_ToolID (sent_call call)) "" || String.eqb (rc_callID call) "").

Definition emitted_call (call : responsesCall) : responsesCall :=
  MkResponsesCall (rc_id call) (rc_callID call) (rc_name call) (rc_arguments call) (rc_argumentsDone call) true.

Definition emitResponsesCall (index : Z) (d : responsesDecoder) : responsesDecoder * list ModelEvent * bool :=
  match rx_calls d !! index with
  | None => (d, [], true)
  | Some call =>
    if rc_emitted call then (d, [], true)
    else if negb (deliverable call) then (d, [], false)
    else (with_call index (emitted_call call) d, [call_event (sent_call call)], true)
  end.

Definition done_call (call : responsesCall) : responsesCall :=
  MkResponsesCall (rc_id call) (rc_callID call) (rc_name call) (rc_arguments call) true (rc_emitted call).

(** [finishResponsesItem]. *)
Definition finishResponsesItem (index : Z) (item : responsesOutputItem) (raw : bytes) (d : responsesDecoder) : responsesDecoder * list ModelEvent :=
  if String.eqb (oi_Type item) "reasoning" then
    (d, [reasoning_done (if bool_decide (raw = []) then marshal_item item else raw)])
  else if String.eqb (oi_Type item) "message" && bool_decide (index ∉ rx_texts d) then
    (d, oi_Content item ≫= fun '(kind, text) =>
          if String.eqb kind "output_text" && negb (String.eqb text "") then [text_delta text] else [])
  else if negb (is_call_item item) then (d, [])
  else
    let d := ensureResponsesCall index item d in
    let d := with_call index (done_call (call_at index d)) d in
    (emitResponsesCall index d).1.

(** The calls that a response ends with, in the order of their indices, and the index of one that
    cannot be handed over. *)
Fixpoint emit_all (stop : StopReason) (indices : list Z) (d : responsesDecoder) : responsesDecoder * list ModelEvent * option Z :=
  match indices with
  | [] => (d, [], None)
  | index :: rest =>
    if String.eqb stop StopReasonMaxTokens && negb (rc_argumentsDone (call_at index d)) then emit_all stop rest d
    else
      let '(d, queued, ok) := emitResponsesCall index d in
      if ok then let '(d, more, bad) := emit_all stop rest d in (d, queued ++ more, bad) else (d, queued, Some index)
  end.

Definition reported_usage (u : responsesUsage) : Usage :=
  let '(cached, written) := default (0%N, 0%N) (ru_Details u) in MkUsage (ru_Input u) (ru_Output u) (ru_Total u) cached written.

Definition any_emitted (d : responsesDecoder) : bool := existsb (fun '(_, call) => rc_emitted call) (map_to_list (rx_calls d)).

(** [finishResponsesResponse]. *)
Definition finishResponsesResponse (response : option responsesResponse) (d : responsesDecoder) : responsesDecoder * list ModelEvent * option decodeError :=
  match response with
  | None => finishWithError (DError (errorf "model: Responses completion has no response")) d
  | Some r =>
    match responsesStopReason (rr_Status r) (rr_IncompleteDetails r) with
    | None => finishWithError (DError (protocolFailure (Text "model: Responses response ended with the unknown status %q" [FStr (rr_Status r)]))) d
    | Some stop =>
      let d := with_model (rr_Model r) d in
      let '(d, queued, bad) := emit_all stop (merge_sort Z.le (elements (dom (rx_calls d)))) d in
      match bad with
      | Some index =>
        let '(d, _, err) :=
          finishWithError (DError (protocolFailure (Text "model: Responses function call at output index %d has no name or call_id" [FNum index]))) d in
        (d, queued, err)
      | None =>
        let usage := match rr_Usage r with Some u => reported_usage u | None => usage_zero end in
        let told := match rr_Usage r with Some u => [usage_event usage] | None => [] end in
        let stop := if any_emitted d && negb (String.eqb stop StopReasonMaxTokens) then StopReasonToolCalls else stop in
        (MkResponses (rx_calls d) (rx_texts d) (rx_model d) true, queued ++ told ++ [done_event stop usage (rx_model d)], None)
      end
    end
  end.

Definition item_raw (data : bytes) : bytes := match raw_item data with Ok raw => raw | Err _ => [] end.

(** The failures of [response.failed] and [error]. *)
Definition failed_response (event : responsesEvent) : Failure :=
  let failed := r ← rv_Response event; rr_Error r in
  let message := match failed with Some (code, message) => over message code | None => rv_Message event end in
  let code := match failed with Some (code, _) => code | None => "" end in
  MkFailure 0 ("Responses response failed: " ++ over message "Responses response failed") code "" None.

Definition failed_stream (event : responsesEvent) : Failure :=
  MkFailure 0 ("Responses stream error: " ++ over (over (rv_Message event) (rv_Code event)) "Responses stream error") (rv_Code event) "" None.

(** [processResponsesEvent]: the decoder, what it queues, and its terminal error. *)
Definition processResponsesEvent (event : responsesEvent) (raw : bytes) (d : responsesDecoder) : responsesDecoder * list ModelEvent * option decodeError :=
  let kind := rv_Type event in
  let index := rv_OutputIndex event in
  let of_type name := String.eqb kind name in
  if of_type "response.created" || of_type "response.in_progress" then
    (match rv_Response event with Some r => with_model (rr_Model r) d | None => d end, [], None)
  else if of_type "response.output_item.added" then
    (match rv_Item event with Some item => ensureResponsesCall index item d | None => d end, [], None)
  else if of_type "response.output_text.delta" || of_type "response.refusal.delta" then
    if String.eqb (rv_Delta event) "" then (d, [], None) else (with_text index d, [text_delta (rv_Delta event)], None)
  else if of_type "response.reasoning_summary_text.delta" || of_type "response.reasoning_text.delta" then
    if String.eqb (rv_Delta event) "" then (d, [], None) else (d, [reasoning_delta (rv_Delta event)], None)
  else if of_type "response.function_call_arguments.delta" then
    let call := call_at index d in
    (with_call index (MkResponsesCall (rc_id call) (rc_callID call) (rc_name call) (rc_arguments call ++ rv_Delta event) (rc_argumentsDone call) (rc_emitted call)) d, [], None)
  else if of_type "response.function_call_arguments.done" then
    let call := call_at index d in
    (with_call index (MkResponsesCall (rc_id call) (rc_callID call) (rc_name call) (rv_Arguments event) true (rc_emitted call)) d, [], None)
  else if of_type "response.output_item.done" then
    match rv_Item event with Some item => (finishResponsesItem index item (item_raw raw) d, None) | None => (d, [], None) end
  else if of_type "response.completed" || of_type "response.incomplete" then finishResponsesResponse (rv_Response event) d
  else if of_type "response.failed" then finishWithError (DFailure (failed_response event)) d
  else if of_type "error" then finishWithError (DFailure (failed_stream event)) d
  else (d, [], None).

(** [Decode]. *)
Definition Responses_Decode (event : SSEEvent) (d : responsesDecoder) : responsesDecoder * (list ModelEvent * bool * option decodeError) :=
  if se_End event || bool_decide (se_Data event = []) || bool_decide (se_Data event = bytes_of "[DONE]") then (d, ([], rx_finished d, None))
  else
    match responses_event (se_Data event) with
    | Err err => (d, ([], false, Some (DError (Wrapf (plain_text "model: invalid Responses SSE event: %w") err))))
    | Ok parsed => let '(d, queued, err) := processResponsesEvent parsed (se_Data event) d in (d, (queued, rx_finished d, err))
    end.

Definition responses : Decoder responsesDecoder := MkDecoder responsesDecoder newResponsesDecoder Responses_Decode.

(** *** The calls that were handed over *)

Definition emitted (d : responsesDecoder) : gset Z := dom (filter (fun '(_, call) => rc_emitted call = true) (rx_calls d)).
Definition calls_in (events : list ModelEvent) : list ToolCall := omap me_ToolCall events.

Lemma elem_of_emitted i d : i ∈ emitted d <-> exists call, rx_calls d !! i = Some call /\ rc_emitted call = true.
Proof.
  unfold emitted. rewrite elem_of_dom. split.
  - intros [call Hc]. apply map_lookup_filter_Some in Hc as [Hc He]. by exists call.
  - intros (call & Hc & He). exists call. by apply map_lookup_filter_Some.
Qed.

Lemma emitted_at i d : i ∈ emitted d <-> rc_emitted (call_at i d) = true.
Proof.
  rewrite elem_of_emitted. unfold call_at. destruct (rx_calls d !! i) as [call|]; cbn; [|by split; [intros (? & ? & _)|]].
  split; [by intros (? & [= <-] & ?)|]. intros He. by exists call.
Qed.

(** What a step hands over: calls that have an ID and the name of a Tool, each of them once. *)
Record step_emits (d : responsesDecoder) (queued : list ModelEvent) (d' : responsesDecoder) : Prop := {
  se_keep : emitted d ⊆ emitted d';
  se_count : size (emitted d') = (size (emitted d) + length (calls_in queued))%nat;
  se_named : Forall (fun call => tc_ID call <> "" /\ tc_ToolID call <> "") (calls_in queued);
  se_no_done : no_done queued;
  se_open : rx_finished d' = rx_finished d;
}.

Lemma step_quiet d queued d' :
  emitted d' = emitted d -> calls_in queued = [] -> no_done queued -> rx_finished d' = rx_finished d -> step_emits d queued d'.
Proof. intros He Hq Hn Hf. split; rewrite ?He, ?Hq; [done|cbn; lia|by apply Forall_nil|done..]. Qed.

Lemma step_trans d q1 d1 q2 d2 : step_emits d q1 d1 -> step_emits d1 q2 d2 -> step_emits d (q1 ++ q2) d2.
Proof.
  intros [K1 C1 N1 D1 F1] [K2 C2 N2 D2 F2]. assert (Hc : calls_in (q1 ++ q2) = calls_in q1 ++ calls_in q2) by (unfold calls_in; by rewrite omap_app).
  split; [set_solver|rewrite Hc, length_app; lia|rewrite Hc; by apply list.Forall_app|by apply list.Forall_app|congruence].
Qed.

Lemma with_call_quiet index call d : rc_emitted call = rc_emitted (call_at index d) -> emitted (with_call index call d) = emitted d.
Proof.
  intros He. apply set_eq. intros i. rewrite !emitted_at. unfold call_at at 1. cbn. destruct (decide (i = index)) as [->|Hi].
  - by rewrite lookup_insert_eq, <- He.
  - by rewrite lookup_insert_ne.
Qed.

Lemma same_calls_quiet d d' : rx_calls d' = rx_calls d -> emitted d' = emitted d.
Proof. intros Hc. unfold emitted. by rewrite Hc. Qed.

Lemma ensure_quiet index item d : step_emits d [] (ensureResponsesCall index item d).
Proof. unfold ensureResponsesCall. destruct (is_call_item item); by apply step_quiet; [try by apply with_call_quiet|..]. Qed.

Lemma emit_step index d d' queued ok : emitResponsesCall index d = (d', queued, ok) -> step_emits d queued d'.
Proof.
  unfold emitResponsesCall. destruct (rx_calls d !! index) as [call|] eqn:Ec; [|by intros [= <- <- <-]; apply step_quiet].
  destruct (rc_emitted call) eqn:Ee; [by intros [= <- <- <-]; apply step_quiet|].
  destruct (deliverable call) eqn:Ed; cbn [negb]; [|by intros [= <- <- <-]; apply step_quiet]. intros [= <- <- <-].
  assert (Hnew : emitted (with_call index (emitted_call call) d) = {[index]} ∪ emitted d).
  { apply set_eq. intros i. rewrite elem_of_union, elem_of_singleton, !emitted_at. unfold call_at at 1. cbn.
    destruct (decide (i = index)) as [->|Hi]; [by rewrite lookup_insert_eq; split; [left|]|]. rewrite lookup_insert_ne by done.
    split; [by right|by intros [?|?]]. }
  assert (Hfresh : index ∉ emitted d) by (rewrite emitted_at; unfold call_at; rewrite Ec; cbn; congruence).
  split; rewrite ?Hnew; [set_solver| | |by repeat constructor|done].
  - rewrite size_union, size_singleton by set_solver. cbn. lia.
  - repeat constructor; unfold deliverable in Ed; apply negb_true_iff, orb_false_iff in Ed as [Hn Hi]; by apply String.eqb_neq.
Qed.

Lemma finish_item_step index item raw d :
  let '(d', queued) := finishResponsesItem index item raw d in step_emits d queued d'.
Proof.
  unfold finishResponsesItem. destruct (String.eqb (oi_Type item) "reasoning"); [by apply step_quiet; repeat constructor|].
  destruct (String.eqb (oi_Type item) "message" && _).
  { assert (Hq : forall contents, let queued := contents ≫= fun '(kind, text) =>
      if String.eqb kind "output_text" && negb (String.eqb text "") then [text_delta text] else [] in calls_in queued = [] /\ no_done queued).
    { intros contents. cbv zeta. induction contents as [|[kind text] contents [IH1 IH2]]; [by split; [|constructor]|]. cbn.
      destruct (String.eqb kind "output_text" && _); [|by split]. split; [done|]. by constructor. }
    destruct (Hq (oi_Content item)). by apply step_quiet. }
  destruct (negb (is_call_item item)); [by apply step_quiet|]. set (d1 := ensureResponsesCall index item d).
  assert (Hs1 : step_emits d [] d1) by apply ensure_quiet. set (d2 := with_call index (done_call (call_at index d1)) d1).
  assert (Hs2 : step_emits d1 [] d2) by (apply step_quiet; [by apply with_call_quiet|done..]).
  destruct (emitResponsesCall index d2) as [[d3 q3] ok] eqn:E3. apply emit_step in E3. cbn [fst].
  apply (step_trans d [] d1 q3 d3 Hs1). by apply (step_trans d1 [] d2 q3 d3 Hs2).
Qed.

Lemma emit_all_step stop indices d d' queued bad : emit_all stop indices d = (d', queued, bad) -> step_emits d queued d'.
Proof.
  revert d d' queued bad. induction indices as [|index indices IH]; intros d d' queued bad; cbn [emit_all]; [by intros [= <- <- <-]; apply step_quiet|].
  destruct (String.eqb stop _ && _); [by apply IH|]. destruct (emitResponsesCall index d) as [[d1 q1] ok] eqn:E1. apply emit_step in E1.
  destruct ok; [|by intros [= <- <- <-]]. destruct (emit_all stop indices d1) as [[d2 q2] bad2] eqn:E2. intros [= <- <- <-].
  apply IH in E2. by eapply step_trans.
Qed.

(** Only the emitted flags change. *)
Lemma emit_flags index d d' queued ok i :
  emitResponsesCall index d = (d', queued, ok) ->
  (i ∈ dom (rx_calls d) -> i ∈ dom (rx_calls d')) /\ rc_argumentsDone (call_at i d') = rc_argumentsDone (call_at i d).
Proof.
  unfold emitResponsesCall. destruct (rx_calls d !! index) as [call|] eqn:Ec; [|by intros [= <- <- <-]].
  destruct (rc_emitted call); [by intros [= <- <- <-]|]. destruct (deliverable call); [|by intros [= <- <- <-]]. cbn [negb].
  intros [= <- <- <-]. split; [cbn; rewrite dom_insert; set_solver|]. unfold call_at. cbn. destruct (decide (i = index)) as [->|Hi].
  - by rewrite lookup_insert_eq, Ec.
  - by rewrite lookup_insert_ne.
Qed.

Lemma emit_emits index d d' queued : emitResponsesCall index d = (d', queued, true) -> index ∈ dom (rx_calls d) -> index ∈ emitted d'.
Proof.
  unfold emitResponsesCall. rewrite elem_of_dom. intros He [call Hc]. rewrite Hc in He. rewrite emitted_at. unfold call_at.
  destruct (rc_emitted call) eqn:Ee; [injection He as <- _; by rewrite Hc|]. destruct (negb (deliverable call)); [done|]. injection He as <- _. cbn.
  by rewrite lookup_insert_eq.
Qed.

(** At the end every call is handed over; when the output limit cut the response off, every call
    that is whole. *)
Lemma emit_all_all stop indices d d' queued :
  emit_all stop indices d = (d', queued, None) ->
  forall i, i ∈ indices -> i ∈ dom (rx_calls d) -> stop <> StopReasonMaxTokens \/ rc_argumentsDone (call_at i d) = true -> i ∈ emitted d'.
Proof.
  revert d queued. induction indices as [|index indices IH]; intros d queued; cbn [emit_all]; [by intros _ i ?%not_elem_of_nil|].
  destruct (String.eqb stop StopReasonMaxTokens && negb (rc_argumentsDone (call_at index d))) eqn:Ecut.
  - intros He i [->|Hi]%elem_of_cons Hd Hw; [|by eapply IH]. apply andb_true_iff in Ecut as [Es%String.eqb_eq Ew%negb_true_iff].
    destruct Hw; congruence.
  - destruct (emitResponsesCall index d) as [[d1 q1] ok] eqn:E1. destruct ok; [|done].
    destruct (emit_all stop indices d1) as [[d2 q2] bad2] eqn:E2. intros [= <- _ ->] i Hi Hd Hw.
    destruct (emit_flags _ _ _ _ _ i E1) as [Hdom Hargs]. apply elem_of_cons in Hi as [->|Hi].
    + apply (se_keep _ _ _ (emit_all_step _ _ _ _ _ _ E2)). by eapply emit_emits.
    + eapply IH; [exact E2|done|by apply Hdom|by rewrite Hargs].
Qed.

Lemma emit_all_dom stop indices d d' queued bad i :
  emit_all stop indices d = (d', queued, bad) ->
  dom (rx_calls d') = dom (rx_calls d) /\ rc_argumentsDone (call_at i d') = rc_argumentsDone (call_at i d).
Proof.
  revert d d' queued bad. induction indices as [|index indices IH]; intros d d' queued bad; cbn [emit_all]; [by intros [= <- <- <-]|].
  destruct (String.eqb stop _ && _); [by apply IH|]. destruct (emitResponsesCall index d) as [[d1 q1] ok] eqn:E1.
  assert (Hone : dom (rx_calls d1) = dom (rx_calls d) /\ rc_argumentsDone (call_at i d1) = rc_argumentsDone (call_at i d)).
  { split; [|by apply (emit_flags _ _ _ _ _ i E1)]. unfold emitResponsesCall in E1. destruct (rx_calls d !! index) as [call|] eqn:Ec; [|by injection E1 as <- _ _].
    destruct (rc_emitted call); [by injection E1 as <- _ _|]. destruct (negb (deliverable call)); [by injection E1 as <- _ _|].
    injection E1 as <- _ _. cbn. rewrite dom_insert_lookup_L; [done|by eexists]. }
  destruct ok; [|by intros [= <- _ _]]. destruct (emit_all stop indices d1) as [[d2 q2] bad2] eqn:E2. intros [= <- _ _].
  destruct (IH _ _ _ _ E2) as [-> ->]. exact Hone.
Qed.

(** What the end of a response leaves. *)
Record response_ended (d : responsesDecoder) (queued : list ModelEvent) : Prop := {
  re_done : exists before stop usage, queued = before ++ [done_event stop usage (rx_model d)] /\ no_done before /\
    (stop = StopReasonToolCalls <-> stop <> StopReasonMaxTokens /\ emitted d <> ∅) /\
    (forall i call, rx_calls d !! i = Some call -> stop <> StopReasonMaxTokens \/ rc_argumentsDone call = true -> rc_emitted call = true);
}.

Lemma any_emitted_spec d : any_emitted d = true <-> emitted d <> ∅.
Proof.
  unfold any_emitted. rewrite existsb_exists. split.
  - intros ((i & call) & Hin & He). intros Hempty. assert (Hi : i ∈ emitted d); [|by rewrite Hempty in Hi; apply not_elem_of_empty in Hi].
    apply elem_of_emitted. exists call. split; [|done]. apply elem_of_map_to_list. by apply list_elem_of_In.
  - intros Hne. apply set_choose_L in Hne as [i (call & Hc & He)%elem_of_emitted]. exists (i, call). split; [|done].
    apply list_elem_of_In. by apply elem_of_map_to_list.
Qed.

Lemma status_stop status details stop : responsesStopReason status details = Some stop -> stop <> StopReasonToolCalls.
Proof.
  unfold responsesStopReason. destruct (String.eqb status "incomplete").
  { destruct details as [reason|]; [destruct (String.eqb reason _)|]; by intros [= <-]. }
  destruct (_ || _ || _); [by intros [= <-]|]. destruct (_ || _); [by intros [= <-]|done].
Qed.

Lemma indices_all (d : responsesDecoder) i : i ∈ dom (rx_calls d) -> i ∈ merge_sort Z.le (elements (dom (rx_calls d))).
Proof. rewrite merge_sort_Permutation. by rewrite elem_of_elements. Qed.

Lemma step_more d q d' told e :
  step_emits d q d' -> no_done told -> calls_in told = [] -> me_ToolCall e = None -> rx_finished d' = rx_finished d ->
  size (emitted d') = (size (emitted d) + length (calls_in (q ++ told ++ [e])))%nat /\
  Forall (fun call => tc_ID call <> "" /\ tc_ToolID call <> "") (calls_in (q ++ told ++ [e])) /\ no_done (q ++ told).
Proof.
  intros [K C N D F] Hd Hq He _. unfold calls_in in *. rewrite !omap_app, Hq. cbn. rewrite He, app_nil_r.
  split; [done|]. split; [done|]. by apply list.Forall_app.
Qed.

(** The end of a response, whether it is a whole reply or not. *)
Lemma finish_response_step response d d' queued err :
  rx_finished d = false -> finishResponsesResponse response d = (d', queued, err) ->
  rx_finished d' = true /\ size (emitted d') = (size (emitted d) + length (calls_in queued))%nat /\
  Forall (fun call => tc_ID call <> "" /\ tc_ToolID call <> "") (calls_in queued) /\ err <> Some (DError IoEOF) /\
  match err with Some _ => no_done queued | None => response_ended d' queued end.
Proof.
  intros Hf. assert (Hfail : forall e d1 d2 q2 err2, rx_finished d1 = false -> finishWithError e d1 = (d2, q2, err2) ->
    rx_finished d2 = true /\ emitted d2 = emitted d1 /\ q2 = [] /\ err2 = Some e).
  { intros e d1 d2 q2 err2 Hf1. unfold finishWithError. rewrite Hf1. by intros [= <- <- <-]. }
  unfold finishResponsesResponse. destruct response as [r|].
  2: { intros Hr. destruct (Hfail _ _ _ _ _ Hf Hr) as (-> & -> & -> & ->). cbn. split_and!; [done|lia|by apply Forall_nil|done|by apply Forall_nil]. }
  destruct (responsesStopReason _ _) as [stop|] eqn:Es.
  2: { intros Hr. destruct (Hfail _ _ _ _ _ Hf Hr) as (-> & -> & -> & ->). cbn. split_and!; [done|lia|by apply Forall_nil|done|by apply Forall_nil]. }
  apply status_stop in Es. cbv zeta. set (d1 := with_model (rr_Model r) d). assert (Hem : emitted d1 = emitted d) by (by apply same_calls_quiet).
  destruct (emit_all stop (merge_sort Z.le (elements (dom (rx_calls d1)))) d1) as [[d2 q2] bad] eqn:Ea.
  pose proof (emit_all_step _ _ _ _ _ _ Ea) as Hstep. pose proof (se_open _ _ _ Hstep) as Hopen. rewrite <- Hem. destruct bad as [index|].
  - destruct (finishWithError _ d2) as [[d3 q3] err3] eqn:Ef. apply Hfail in Ef as (Hf3 & He3 & _ & ->); [|by rewrite Hopen].
    intros [= <- <- <-]. rewrite Hf3, He3. destruct Hstep. by split_and!.
  - intros [= <- <- <-]. cbn [rx_finished]. set (told := match rr_Usage r with Some u => _ | None => [] end).
    assert (Htold : no_done told /\ calls_in told = []) by (unfold told; destruct (rr_Usage r); by repeat constructor). destruct Htold as [Ht Hct].
    match goal with |- context [q2 ++ told ++ [?e]] => destruct (step_more d1 q2 d2 told e Hstep Ht Hct eq_refl Hopen) as (Hc & Hn & Hd) end.
    split; [done|]. rewrite (same_calls_quiet d2 (MkResponses _ _ _ _)) by done. split; [exact Hc|]. split; [exact Hn|]. split; [done|].
    split. eexists (q2 ++ told), _, _. rewrite app_assoc. split; [done|]. split; [done|].
    rewrite (same_calls_quiet d2 (MkResponses _ _ _ _)) by done. cbn [rx_calls]. rewrite <- any_emitted_spec.
    destruct (String.eqb_spec stop StopReasonMaxTokens) as [->|Hstop]; cbn [negb]; rewrite ?andb_false_r, ?andb_true_r.
    + split; [split; [by intros Hm|by intros [? _]]|]. intros i call Hi [?|Hw]; [done|].
      destruct (emit_all_dom _ _ _ _ _ _ i Ea) as [Hdom Hargs]. assert (Hid : i ∈ dom (rx_calls d1)) by (rewrite <- Hdom; by apply elem_of_dom_2 in Hi).
      assert (Hin : i ∈ emitted d2). { eapply emit_all_all; [exact Ea|by apply indices_all|done|right]. rewrite <- Hargs. unfold call_at. by rewrite Hi. }
      apply emitted_at in Hin. unfold call_at in Hin. by rewrite Hi in Hin.
    + assert (Hall : forall i call, rx_calls d2 !! i = Some call -> rc_emitted call = true).
      { intros i call Hi. destruct (emit_all_dom _ _ _ _ _ _ i Ea) as [Hdom _]. assert (Hid : i ∈ dom (rx_calls d1)) by (rewrite <- Hdom; by apply elem_of_dom_2 in Hi).
        assert (Hin : i ∈ emitted d2) by (eapply emit_all_all; [exact Ea|by apply indices_all|done|by left]).
        apply emitted_at in Hin. unfold call_at in Hin. by rewrite Hi in Hin. }
      destruct (any_emitted d2); (split; [|by intros i call Hi _; eapply Hall]); split; try done. by intros [_ ?].
Qed.

(** An event: it ends the reply, or it hands over some more of it. *)
Record event_read (d : responsesDecoder) (queued : list ModelEvent) (err : option decodeError) (d' : responsesDecoder) : Prop := {
  er_count : size (emitted d') = (size (emitted d) + length (calls_in queued))%nat;
  er_named : Forall (fun call => tc_ID call <> "" /\ tc_ToolID call <> "") (calls_in queued);
  er_not_eof : err <> Some (DError IoEOF);
  er_end : match err with
    | Some _ => no_done queued
    | None => if rx_finished d' then response_ended d' queued else no_done queued
    end;
}.

Lemma step_read d queued d' : rx_finished d = false -> step_emits d queued d' -> event_read d queued None d'.
Proof. intros Hf [K C N D F]. split; [done..|]. by rewrite F, Hf. Qed.

Lemma fail_read d f : rx_finished d = false -> event_read d (finishWithError (DFailure f) d).1.2 (finishWithError (DFailure f) d).2 (finishWithError (DFailure f) d).1.1.
Proof.
  intros Hf. unfold finishWithError. rewrite Hf. cbn. split; [|by apply Forall_nil|done|by apply Forall_nil].
  rewrite (same_calls_quiet d) by done. cbn. lia.
Qed.

Lemma process_read event raw d :
  rx_finished d = false ->
  let '(d', queued, err) := processResponsesEvent event raw d in event_read d queued err d'.
Proof.
  intros Hf. unfold processResponsesEvent. cbv zeta. set (kind := rv_Type event).
  destruct (String.eqb kind "response.created" || _).
  { apply step_read; [done|]. by destruct (rv_Response event); apply step_quiet. }
  destruct (String.eqb kind "response.output_item.added").
  { apply step_read; [done|]. destruct (rv_Item event); [apply ensure_quiet|by apply step_quiet]. }
  destruct (String.eqb kind "response.output_text.delta" || _).
  { destruct (String.eqb (rv_Delta event) ""); apply step_read; [done| |done|]; apply step_quiet; repeat constructor. }
  destruct (String.eqb kind "response.reasoning_summary_text.delta" || _).
  { destruct (String.eqb (rv_Delta event) ""); apply step_read; [done| |done|]; apply step_quiet; repeat constructor. }
  destruct (String.eqb kind "response.function_call_arguments.delta"); [apply step_read; [done|]; apply step_quiet; [by apply with_call_quiet|done..]|].
  destruct (String.eqb kind "response.function_call_arguments.done"); [apply step_read; [done|]; apply step_quiet; [by apply with_call_quiet|done..]|].
  destruct (String.eqb kind "response.output_item.done").
  { destruct (rv_Item event) as [item|]; [|by apply step_read, step_quiet]. pose proof (finish_item_step (rv_OutputIndex event) item (item_raw raw) d) as Hi.
    destruct (finishResponsesItem _ _ _ _) as [d1 q1]. by apply step_read. }
  destruct (String.eqb kind "response.completed" || _).
  { destruct (finishResponsesResponse (rv_Response event) d) as [[d1 q1] e1] eqn:Er. destruct (finish_response_step _ _ _ _ _ Hf Er) as (Hfin & Hc & Hn & He & Hend).
    split; [done..|]. destruct e1; [done|]. by rewrite Hfin. }
  destruct (String.eqb kind "response.failed").
  { pose proof (fail_read d (failed_response event) Hf) as Hr. by destruct (finishWithError _ d) as [[d1 q1] e1]. }
  destruct (String.eqb kind "error").
  { pose proof (fail_read d (failed_stream event) Hf) as Hr. by destruct (finishWithError _ d) as [[d1 q1] e1]. }
  by apply step_read, step_quiet.
Qed.

Lemma finishWithError_not_eof e d : e <> DError IoEOF -> (finishWithError e d).2 <> Some (DError IoEOF).
Proof. intros He. unfold finishWithError. destruct (rx_finished d); [done|]. cbn. congruence. Qed.

Lemma finish_response_not_eof response d : (finishResponsesResponse response d).2 <> Some (DError IoEOF).
Proof.
  unfold finishResponsesResponse. destruct response as [r|]; [|by apply finishWithError_not_eof].
  destruct (responsesStopReason _ _) as [stop|]; [|by apply finishWithError_not_eof]. cbv zeta. destruct (emit_all _ _ _) as [[d1 q1] [index|]]; [|done].
  match goal with |- context [finishWithError ?e d1] => pose proof (finishWithError_not_eof e d1 ltac:(done)) as Hn end.
  by destruct (finishWithError _ d1) as [[d2 q2] e2].
Qed.

Lemma process_not_eof event raw d : (processResponsesEvent event raw d).2 <> Some (DError IoEOF).
Proof.
  unfold processResponsesEvent. cbv zeta. repeat (match goal with |- context [if ?b then _ else _] => destruct b end; try done).
  - by destruct (rv_Item event).
  - apply finish_response_not_eof.
  - by apply finishWithError_not_eof.
  - by apply finishWithError_not_eof.
Qed.

#[export] Instance responses_lawful : LawfulDecoder responses.
Proof.
  refine {| reading d := rx_finished d = false |}; [done| |].
  - intros event d d' events done err Hf. cbn. unfold Responses_Decode. destruct (_ || _ || _); [by intros [= <- <- <- <-]; rewrite Hf|].
    destruct (responses_event (se_Data event)) as [parsed|e]; [|by intros [= <- <- <- <-]].
    pose proof (process_read parsed (se_Data event) d Hf) as Hp. destruct (processResponsesEvent _ _ d) as [[d1 q1] e1].
    intros [= <- <- <- <-]. destruct Hp as [_ _ _ Hend]. destruct e1; [done|]. destruct (rx_finished d1); [|done].
    destruct Hend as [(before & stop & usage & -> & Hn & _)]. by eexists _, _.
  - intros event d. cbn. unfold Responses_Decode. destruct (_ || _ || _); [done|]. destruct (responses_event _) as [parsed|e]; [|done].
    pose proof (process_not_eof parsed (se_Data event) d) as Hp. by destruct (processResponsesEvent _ _ d) as [[d1 q1] e1].
Qed.

(** ** A whole response *)

(** The events of a reply, up to its end; [queue] is what was handed over before. *)
Fixpoint responses_run (events : list (responsesEvent * bytes)) (d : responsesDecoder) (queue : list ModelEvent) : responsesDecoder * list ModelEvent * option decodeError :=
  match events with
  | [] => (d, queue, None)
  | (event, raw) :: rest =>
    if rx_finished d then (d, queue, None)
    else
      let '(d, queued, err) := processResponsesEvent event raw d in
      match err with Some e => (d, queue ++ queued, Some e) | None => responses_run rest d (queue ++ queued) end
  end.

(** What was read of a reply that goes on. *)
Record under_way (d : responsesDecoder) (queue : list ModelEvent) : Prop := {
  uw_count : size (emitted d) = length (calls_in queue);
  uw_named : Forall (fun call => tc_ID call <> "" /\ tc_ToolID call <> "") (calls_in queue);
  uw_end : if rx_finished d then response_ended d queue else no_done queue;
}.

Lemma under_way_new : under_way newResponsesDecoder [].
Proof. split; [done|by apply Forall_nil|by apply Forall_nil]. Qed.

Lemma under_way_read d queue queued d' :
  rx_finished d = false -> under_way d queue -> event_read d queued None d' -> under_way d' (queue ++ queued).
Proof.
  intros Hf [C N E] [C' N' _ E']. rewrite Hf in E. assert (Hc : calls_in (queue ++ queued) = calls_in queue ++ calls_in queued) by (unfold calls_in; by rewrite omap_app).
  split; [rewrite Hc, length_app; lia|rewrite Hc; by apply list.Forall_app|]. destruct (rx_finished d').
  - destruct E' as [(before & stop & usage & -> & Hn & Hrest)]. split. exists (queue ++ before), stop, usage. rewrite app_assoc. split; [done|].
    split; [by apply list.Forall_app|exact Hrest].
  - by apply list.Forall_app.
Qed.

Lemma responses_run_read events d queue d' queue' :
  under_way d queue -> responses_run events d queue = (d', queue', None) -> under_way d' queue'.
Proof.
  revert d queue. induction events as [|[event raw] events IH]; intros d queue Hu; cbn [responses_run]; [by intros [= <- <-]|].
  destruct (rx_finished d) eqn:Hf; [by intros [= <- <-]|]. pose proof (process_read event raw d Hf) as Hp.
  destruct (processResponsesEvent event raw d) as [[d1 q1] e1]. destruct e1; [done|]. intros Hr. eapply IH; [|exact Hr]. by apply (under_way_read d).
Qed.

(** A Responses reply hands over each of its calls once, under an ID and the name of a Tool, and
    ends with one Done, which says tool_calls exactly when there are calls and the output limit
    did not cut the reply off.  When it did, the calls that are whole are handed over all the
    same; otherwise every call is. *)
Theorem responses_calls_handed_over events d queue :
  responses_run events newResponsesDecoder [] = (d, queue, None) -> rx_finished d = true ->
  exists before stop usage, queue = before ++ [done_event stop usage (rx_model d)] /\ no_done before /\
    length (calls_in queue) = size (emitted d) /\
    Forall (fun call => tc_ID call <> "" /\ tc_ToolID call <> "") (calls_in queue) /\
    (stop = StopReasonToolCalls <-> stop <> StopReasonMaxTokens /\ calls_in queue <> []) /\
    (forall i call, rx_calls d !! i = Some call -> stop <> StopReasonMaxTokens \/ rc_argumentsDone call = true -> rc_emitted call = true).
Proof.
  intros Hr Hf. apply responses_run_read in Hr as [Hc Hn He]; [|apply under_way_new]. rewrite Hf in He.
  destruct He as [(before & stop & usage & -> & Hnd & Hstop & Hall)]. exists before, stop, usage. split_and!; [done..| |done].
  rewrite Hstop. assert (Hsame : emitted d <> ∅ <-> calls_in (before ++ [done_event stop usage (rx_model d)]) <> []); [|by rewrite Hsame].
  rewrite <- length_zero_iff_nil, <- Hc, size_empty_iff. by split; intros Hx Hy; apply Hx; [apply leibniz_equiv|rewrite Hy].
Qed.
End decoder.

(** ** Samples *)

#[local] Instance sample_responses : ResponsesJson := {| responses_event _ := Err IoEOF; raw_item _ := Err IoEOF; marshal_item _ := [] |}.

Definition sample_item (id name arguments : string) : responsesOutputItem := MkItem "function_call" ("item_" ++ id) id name arguments "" [] [].
Definition sample_responses_event (kind : string) (index : Z) (delta : string) (item : option responsesOutputItem) (status : string) : responsesEvent :=
  MkResponsesEvent kind index delta "" item (Some (MkResponsesResponse "r" status "m" (Some "max_output_tokens") None [] None)) "" "".

(** Two calls; the output limit cuts the second off. *)
Definition sample_reply : list (responsesEvent * bytes) :=
  [(sample_responses_event "response.output_item.added" 0 "" (Some (sample_item "c1" "echo" "")) "", []);
   (sample_responses_event "response.output_item.added" 1 "" (Some (sample_item "c2" "echo" "")) "", []);
   (sample_responses_event "response.function_call_arguments.delta" 0 "{}" None "", []);
   (sample_responses_event "response.output_item.done" 0 "" (Some (sample_item "c1" "echo" "{}")) "", []);
   (sample_responses_event "response.function_call_arguments.delta" 1 "{" None "", []);
   (sample_responses_event "response.incomplete" 0 "" None "incomplete", [])].

Lemma responses_calls_handed_over_witness :
  exists d queue, responses_run ∅ [] sample_reply newResponsesDecoder [] = (d, queue, None) /\ rx_finished d = true /\
    length (calls_in queue) = 1 /\ length (calls_in queue) = size (emitted d).
Proof.
  destruct (responses_run ∅ [] sample_reply newResponsesDecoder []) as [[d queue] err] eqn:E.
  assert (err = None) as -> by (vm_compute in E; by injection E).
  destruct (responses_calls_handed_over ∅ [] sample_reply d queue E) as (before & stop & usage & _ & _ & Hc & _).
  - vm_compute in E. by injection E as <- _.
  - exists d, queue. split; [done|]. split; [vm_compute in E; by injection E as <- _|]. split; [|exact Hc]. vm_compute in E. by injection E as _ <-.
Defined.
