(* ===== verification/Heartbeat.v ===== *)
(** * The Liveness row of an Instance

    [host/internal/heartbeat/heartbeat.go]: an Instance keeps its row alive in the store, asks a
    guard before every write, and takes a new name when the row expired.  A call is a program of
    critical sections, readings of the clock and calls of the store, and calls interleave.  The
    store is any that keeps the contract of Liveness. *)

From S2P Require Import Prelude GoStrings Errors Types Store MemoryStore.
Local Open Scope string_scope.
Local Open Scope list_scope.

(** ** The contract of a Liveness store

    When the row of a name expires, by the store's clock, and what a Beat makes of it. *)
Class Liveness (S : Type) := {
  lv_expires : S -> string -> option gotime;
  lv_beat : gotime -> InstanceRow -> duration -> S -> S * option error;
  lv_others now row ttl s name : name <> ir_ID row -> lv_expires (lv_beat now row ttl s).1 name = lv_expires s name;
  (** A ttl of 0 removes the row. *)
  lv_remove now row s : CheckID (ir_ID row) = None -> lv_expires (lv_beat now row 0 s).1 (ir_ID row) = None;
  (** A row that expired never comes back, and any other is renewed. *)
  lv_expired now row ttl s e : CheckID (ir_ID row) = None -> (0 < ttl)%Z ->
    lv_expires s (ir_ID row) = Some e -> (e <= now)%Z ->
    lv_beat now row ttl s = (s, Some ErrExpired);
  lv_renewed now row ttl s : CheckID (ir_ID row) = None -> (0 < ttl)%Z ->
    (forall e, lv_expires s (ir_ID row) = Some e -> (now < e)%Z) ->
    (lv_beat now row ttl s).2 = None /\ lv_expires (lv_beat now row ttl s).1 (ir_ID row) = Some (now + ttl)%Z;
}.

#[export] Program Instance memory_liveness : Liveness MemoryStore := {|
  lv_expires m name := mi_expires <$> ms_instances m !! name;
  lv_beat now row ttl m := Beat None now row ttl m;
|}.
Next Obligation.
  intros now row ttl m name Hne. unfold Beat. destruct (CheckID _) eqn:E. { done. } destruct (ttl <=? 0)%Z; [cbn; by rewrite lookup_delete_ne|].
  destruct (ms_instances m !! ir_ID row) as [current|]; [destruct (negb _); [done|]|]; cbn; by rewrite lookup_insert_ne.
Qed.
Next Obligation. intros now row m Hid. unfold Beat. rewrite Hid. cbn. by rewrite lookup_delete_eq. Qed.
Next Obligation.
  intros now row ttl m e Hid Ht He Hle. revert He. unfold Beat. rewrite Hid. destruct (Z.leb_spec ttl 0); [lia|].
  destruct (ms_instances m !! ir_ID row) as [current|]; [|done]. intros [= <-]. destruct (Z.ltb_spec now (mi_expires current)); [lia|done].
Qed.
Next Obligation.
  intros now row ttl m Hid Ht Hlive. revert Hlive. unfold Beat. rewrite Hid. destruct (Z.leb_spec ttl 0); [lia|].
  destruct (ms_instances m !! ir_ID row) as [current|].
  - intros Hlive. specialize (Hlive _ eq_refl). destruct (Z.ltb_spec now (mi_expires current)); [|lia]. cbn. by rewrite lookup_insert_eq.
  - intros _. cbn. by rewrite lookup_insert_eq.
Qed.

(** ** Errors *)

(** [lostRow], of the variable of the package that it makes. *)
Definition lostRow (name message : string) (not_run : bool) : error :=
  RuntimeErr (MkRuntimeError CodeConflict "" (plain_text message) false not_run ∅ (Some ErrConflict) (Some name)).

Definition ErrLapsed : error := lostRow "heartbeat.ErrLapsed" "service: this instance's liveness row may have expired" false.
Definition ErrLapsedNotRun : error := lostRow "heartbeat.ErrLapsedNotRun" "service: this instance's liveness row may have expired" true.
Definition ErrClosed : error := lostRow "heartbeat.ErrClosed" "service: the runner is closed" false.

(** ** The row *)

Record Config := MkConfig { cf_Address : string; cf_TTL : duration }.

Record Row := MkRow {
  hb_started : bool;
  hb_draining : bool;
  hb_closed : bool;
  hb_lastSent : gotime;
  hb_expired : bool;
  hb_instance : string;
  hb_reported : bool;
  hb_ticker : bool;
}.
#[export] Instance eta_Row : Eta Row := fun r =>
  MkRow (hb_started r) (hb_draining r) (hb_closed r) (hb_lastSent r) (hb_expired r) (hb_instance r) (hb_reported r) (hb_ticker r).

(** [New], with the name it makes. *)
Definition newRow (name : string) : Row := MkRow false false false 0 false name false false.

(** What a program asks for: a critical section of [mu], the clock, the store, a name that was
    never made before, and the ticker. *)
Inductive hop : Type -> Type :=
| Locked {A} (f : Row -> Row * A) : hop A
| Clock : hop gotime
| BeatRow (row : InstanceRow) (ttl : duration) : hop (option error)
| NewName : hop string
| StopTicker : hop unit
| OnRename : hop unit
| OnBeat : hop unit.

Inductive hprog (A : Type) : Type :=
| HRet (x : A)
| HOp {X} (o : hop X) (k : X -> hprog A).
Arguments HRet {A} x.
Arguments HOp {A X} o k.

Fixpoint hbind {A B} (p : hprog A) (k : A -> hprog B) : hprog B :=
  match p with HRet x => k x | HOp o f => HOp o (fun x => hbind (f x) k) end.
Definition hask {X} (o : hop X) : hprog X := HOp o HRet.

Declare Scope heart_scope.
Delimit Scope heart_scope with heart.
Notation "'hlet' x := p 'in' k" := (hbind p (fun x => k)) (at level 10, x binder, k at level 200) : heart_scope.
Local Open Scope heart_scope.

Definition is_expired (err : option error) : bool := match err with Some e => errors_Is e ErrExpired | None => false end.

Section heartbeat.
Context (cfg : Config).

(** [stale], at a time. *)
Definition stale (now : gotime) (r : Row) : bool := (cf_TTL cfg - Z.quot (cf_TTL cfg) 5 <? now - hb_lastSent r)%Z.

(** [Lapsed]. *)
Definition Lapsed (now : gotime) (r : Row) : bool :=
  if negb (hb_started r) || hb_closed r then false else hb_expired r || stale now r.

(** [Guard]: the row, the answer, and whether [OnLapse] is called. *)
Definition Guard (name : string) (now : gotime) (r : Row) : Row * option error * bool :=
  if negb (String.eqb name "") && negb (String.eqb name (hb_instance r)) then (r, Some ErrLapsed, false)
  else if negb (hb_expired r) && negb (stale now r) then (r, None, false)
  else
    let report := negb (hb_reported r) && negb (hb_closed r) in
    (if report then r <| hb_reported := true |> else r, Some ErrLapsed, report).

(** [reregister]. *)
Definition took_name (old name : string) (sent : gotime) (r : Row) : Row * bool :=
  if hb_closed r || negb (String.eqb (hb_instance r) old) then (r, false)
  else (r <| hb_instance := name |> <| hb_expired := false |> <| hb_reported := false |> <| hb_lastSent := sent |>, true).

Definition reregister (old : InstanceRow) : hprog (option error) :=
  hlet name := hask NewName in
  let row := MkInstanceRow name (ir_Draining old) (ir_Address old) in
  hlet sent := hask Clock in
  hlet err := hask (BeatRow row (cf_TTL cfg)) in
  match err with
  | Some e => HRet (Some e)
  | None =>
    hlet took := hask (Locked (took_name (ir_ID old) name sent)) in
    if took : bool then
      hlet _ := hask (BeatRow (MkInstanceRow (ir_ID old) false "") 0) in
      hlet _ := hask OnRename in
      HRet None
    else
      hlet _ := hask (BeatRow (MkInstanceRow name false "") 0) in
      HRet None
  end.

(** [renew]. *)
Definition renewed (sent : gotime) (err : option error) (r : Row) : Row * bool :=
  let r :=
    if is_expired err then r <| hb_expired := true |>
    else match err with
         | None => if (hb_lastSent r <? sent)%Z then r <| hb_lastSent := sent |> else r
         | Some _ => r
         end in
  (r, hb_closed r).

Definition row_of (r : Row) : InstanceRow := MkInstanceRow (hb_instance r) (hb_draining r) (cf_Address cfg).

Definition renew : hprog (option error) :=
  hlet row := hask (Locked (fun r => (r, row_of r))) in
  hlet sent := hask Clock in
  hlet err := hask (BeatRow row (cf_TTL cfg)) in
  hlet closed := hask (Locked (renewed sent err)) in
  if is_expired err && negb closed then reregister row else HRet err.

(** [Live].  The code holds the lock while it removes the row of a Row that was closed
    meanwhile; here other calls may go on. *)
Definition start_row (r : Row) : Row * option string :=
  if hb_closed r then (r, Some (hb_instance r))
  else if hb_started r then (r, None)
  else (r <| hb_started := true |> <| hb_ticker := true |>, None).

Definition Live : hprog (option error) :=
  hlet state := hask (Locked (fun r => (r, (hb_started r, hb_closed r)))) in
  let (started, closed) := state : bool * bool in
  if closed then HRet (Some ErrClosed)
  else if started then HRet None
  else
    hlet err := renew in
    match err with
    | Some e => HRet (Some e)
    | None =>
      hlet gone := hask (Locked start_row) in
      match gone with
      | Some name =>
        hlet _ := hask (BeatRow (MkInstanceRow name false "") 0) in
        HRet (Some ErrClosed)
      | None => HRet None
      end
    end.

(** [tick]. *)
Definition tick : hprog (option error) :=
  hlet _ := renew in
  hlet _ := hask OnBeat in
  HRet None.

(** [MarkDraining]. *)
Definition MarkDraining : hprog (option error) :=
  hlet started := hask (Locked (fun r => (r <| hb_draining := true |>, hb_started r))) in
  if started : bool then
    hlet err := renew in
    HRet (match err with Some e => Some (Wrapf (plain_text "service: marking the liveness row draining: %w") e) | None => None end)
  else HRet None.

(** [Close]. *)
Definition close_row (r : Row) : Row * (bool * string) :=
  (r <| hb_started := false |> <| hb_closed := true |> <| hb_expired := true |>, (hb_started r, hb_instance r)).

Definition Close : hprog (option error) :=
  hlet state := hask (Locked close_row) in
  let (started, name) := state : bool * string in
  if started then
    hlet _ := hask StopTicker in
    hlet err := hask (BeatRow (MkInstanceRow name false "") 0) in
    HRet (if is_expired err then None else err)
  else HRet None.

End heartbeat.

(** ** Calls that interleave *)

Section interleaving.
Context {S : Type} `{Liveness S} (cfg : Config).

(** How far the store's clock is ahead of the Instance's. *)
Context (offset : Z).

(** The time, the Row, the store, the names that were made, and the names the Instance had. *)
Record hworld := MkHWorld { hw_now : gotime; hw_row : Row; hw_store : S; hw_used : gset string; hw_past : gset string }.

Definition with_row (r : Row) (w : hworld) : hworld :=
  MkHWorld (hw_now w) r (hw_store w) (hw_used w)
    (if String.eqb (hb_instance r) (hb_instance (hw_row w)) then hw_past w else {[hb_instance (hw_row w)]} ∪ hw_past w).
Definition with_store (st : S) (w : hworld) : hworld := MkHWorld (hw_now w) (hw_row w) st (hw_used w) (hw_past w).
Definition with_name (name : string) (w : hworld) : hworld :=
  MkHWorld (hw_now w) (hw_row w) (hw_store w) ({[name]} ∪ hw_used w) (hw_past w).
Definition later (d : duration) (w : hworld) : hworld := MkHWorld (hw_now w + d) (hw_row w) (hw_store w) (hw_used w) (hw_past w).

(** What an operation may answer, and what it leaves; [lost] says that a call of the store may
    fail without an answer of the store, whether it was carried out or not. *)
Definition hexec (lost : bool) {X} (o : hop X) : hworld -> X -> hworld -> Prop :=
  match o in hop X return hworld -> X -> hworld -> Prop with
  | Locked f => fun w x w' => x = (f (hw_row w)).2 /\ w' = with_row (f (hw_row w)).1 w
  | Clock => fun w x w' => x = hw_now w /\ w' = w
  | BeatRow row ttl => fun w x w' =>
      let answer := lv_beat (hw_now w + offset) row ttl (hw_store w) in
      (x = answer.2 /\ w' = with_store answer.1 w) \/
      (lost = true /\ (exists e, x = Some e /\ is_expired x = false) /\ (w' = w \/ w' = with_store answer.1 w))
  | NewName => fun w x w' => (x ∉ hw_used w) /\ x <> "" /\ CheckID x = None /\ lv_expires (hw_store w) x = None /\ w' = with_name x w
  | StopTicker | OnRename | OnBeat => fun w x w' => w' = w
  end.

Definition thread : Type := bool * hprog (option error).
Record hsys := MkHSys { hs_world : hworld; hs_threads : list thread }.

Definition idle_row (threads : list thread) : Prop := Forall (fun t => t.1 = false) threads.

(** [serial]: no two calls renew the row at one time.  The ticker keeps its calls apart;
    [MarkDraining] and the first [Live] are not kept apart from others. *)
Inductive hstep (serial : bool) : hsys -> hsys -> Prop :=
| h_time d w ts : (0 <= d)%Z -> hstep serial (MkHSys w ts) (MkHSys (later d w) ts)
| h_renew call w ts :
    call ∈ [Live cfg; tick cfg; MarkDraining cfg] -> (serial = true -> idle_row ts) ->
    hstep serial (MkHSys w ts) (MkHSys w (ts ++ [(true, call)]))
| h_close w ts : hstep serial (MkHSys w ts) (MkHSys w (ts ++ [(false, Close)]))
| h_elsewhere st w ts :
    (forall n, n ∈ hw_used w -> lv_expires st n = lv_expires (hw_store w) n) -> hstep serial (MkHSys w ts) (MkHSys (with_store st w) ts)
| h_guard name w ts : hstep serial (MkHSys w ts) (MkHSys (with_row (Guard cfg name (hw_now w) (hw_row w)).1.1 w) ts)
| h_run ts1 ts2 renews X (o : hop X) k x w w' :
    hexec true o w x w' -> hstep serial (MkHSys w (ts1 ++ (renews, HOp o k) :: ts2)) (MkHSys w' (ts1 ++ (renews, k x) :: ts2))
| h_end ts1 ts2 renews x w : hstep serial (MkHSys w (ts1 ++ (renews, HRet x) :: ts2)) (MkHSys w (ts1 ++ ts2)).

(** A process that starts. *)
Definition fresh_start (w : hworld) : Prop :=
  exists name, hw_row w = newRow name /\ hw_used w = {[name]} /\ hw_past w = ∅ /\ name <> "" /\ CheckID name = None /\
    (cf_TTL cfg < hw_now w)%Z /\ lv_expires (hw_store w) name = None.

Definition hreach (serial : bool) (s : hsys) : Prop := exists w, fresh_start w /\ rtc (hstep serial) (MkHSys w []) s.

(** ** What holds between calls *)

Definition expires (w : hworld) (name : string) : option gotime := lv_expires (hw_store w) name.
Definition named (w : hworld) : string := hb_instance (hw_row w).
Definition is_closed (w : hworld) : Prop := hb_closed (hw_row w) = true.

Record hinv (w : hworld) : Prop := {
  hi_time : (cf_TTL cfg < hw_now w)%Z;
  hi_closed : is_closed w -> hb_expired (hw_row w) = true;
  hi_sent : hb_lastSent (hw_row w) = 0%Z \/ is_closed w \/
    exists e, expires w (named w) = Some e /\ (hb_lastSent (hw_row w) + cf_TTL cfg + offset <= e)%Z;
  hi_sent_past : (hb_lastSent (hw_row w) <= hw_now w)%Z;
  hi_expired : hb_expired (hw_row w) = true -> is_closed w \/ exists e, expires w (named w) = Some e /\ (e <= hw_now w + offset)%Z;
  hi_used : named w ∈ hw_used w;
  hi_past : named w ∉ hw_past w;
  hi_past_used : hw_past w ⊆ hw_used w;
  hi_id : named w <> "" /\ CheckID (named w) = None;
}.

(** What others do while a call renews the row: they may close it. *)
Record others (w w' : hworld) : Prop := {
  ot_now : (hw_now w <= hw_now w')%Z;
  ot_name : named w' = named w;
  ot_sent : hb_lastSent (hw_row w') = hb_lastSent (hw_row w);
  ot_past : hw_past w' = hw_past w;
  ot_used : hw_used w' = hw_used w;
  ot_closed : is_closed w -> is_closed w';
  ot_rows n : n ∈ hw_used w -> n <> named w -> expires w' n = expires w n;
  ot_own : is_closed w' \/ (expires w' (named w) = expires w (named w) /\ hb_expired (hw_row w') = hb_expired (hw_row w));
}.

(** What a call that renews the row does to others: a Row that is closed keeps its name. *)
Definition keeps_closed (w w' : hworld) : Prop := is_closed w -> is_closed w' /\ named w' = named w.

Lemma others_refl w : others w w.
Proof. split; try done. by right. Qed.

Lemma others_trans w1 w2 w3 : others w1 w2 -> others w2 w3 -> others w1 w3.
Proof.
  intros [A1 A2 A3 A4 A5 A6 A7 A8] [B1 B2 B3 B4 B5 B6 B7 B8]. split; try congruence; try lia; [by intros; apply B6, A6| |].
  - intros n Hu Hn. rewrite B7 by congruence. by apply A7.
  - destruct B8 as [?|[B8 B9]]; [by left|]. destruct A8 as [A8|[A8 A9]]; [left; by apply B6|]. right. rewrite A2 in B8. split; congruence.
Qed.

Lemma others_keeps_closed w w' : others w w' -> keeps_closed w w'.
Proof. intros Ho Hc. split; [by apply (ot_closed _ _ Ho)|apply (ot_name _ _ Ho)]. Qed.

Lemma keeps_closed_trans w1 w2 w3 : keeps_closed w1 w2 -> keeps_closed w2 w3 -> keeps_closed w1 w3.
Proof. intros H1 H2 Hc. destruct (H1 Hc) as [Hc' Hn]. destruct (H2 Hc') as [? ?]. split; [done|congruence]. Qed.

(** A program that keeps the invariant and gives its guarantee, whatever others do between its
    operations. *)
Fixpoint safe (relies gives : hworld -> hworld -> Prop) {A} (p : hprog A) (w : hworld) : Prop :=
  match p with
  | HRet _ => True
  | HOp o k => forall w1 x w2, relies w w1 -> hinv w1 -> hexec true o w1 x w2 -> hinv w2 /\ gives w1 w2 /\ safe relies gives (k x) w2
  end.

Lemma safe_later relies gives {A} (p : hprog A) w w' :
  (forall a b c, relies a b -> relies b c -> relies a c) -> relies w w' -> safe relies gives p w -> safe relies gives p w'.
Proof. intros Ht Hr. destruct p as [x|X o k]; [done|]. intros Hs w1 x w2 H1. apply Hs. by eapply Ht. Qed.

Lemma safe_bind relies gives {A B} (p : hprog A) (k : A -> hprog B) w :
  safe relies gives p w -> (forall x w', safe relies gives (k x) w') -> safe relies gives (hbind p k) w.
Proof.
  revert w. induction p as [x|X o f IH]; intros w Hp Hk; [apply Hk|]. intros w1 x w2 Hr Hi He. destruct (Hp w1 x w2 Hr Hi He) as (? & ? & ?).
  split; [done|]. split; [done|]. by apply IH.
Qed.
(** *** The store *)

Context (Httl : (0 < cf_TTL cfg)%Z).

Lemma lost_cases row ttl w x w' :
  hexec true (BeatRow row ttl) w x w' ->
  exists st, w' = with_store st w /\ (st = hw_store w \/ st = (lv_beat (hw_now w + offset) row ttl (hw_store w)).1) /\
    (x = (lv_beat (hw_now w + offset) row ttl (hw_store w)).2 /\ st = (lv_beat (hw_now w + offset) row ttl (hw_store w)).1 \/
     x <> None /\ is_expired x = false).
Proof.
  cbn. intros [[-> ->]|(_ & (e & -> & Hx) & [->| ->])].
  - eexists. split; [done|]. split; [by right|by left].
  - exists (hw_store w). split; [by destruct w|]. split; [by left|by right].
  - eexists. split; [done|]. split; [by right|by right].
Qed.

(** A Beat of a name: its row expired, and stays so, or it is renewed, or nothing is known to have
    happened; other rows are as they were. *)
Lemma beat_cases row w x w' :
  CheckID (ir_ID row) = None -> hexec true (BeatRow row (cf_TTL cfg)) w x w' ->
  exists st, w' = with_store st w /\ (forall n, n <> ir_ID row -> expires w' n = expires w n) /\
    ((exists e, expires w (ir_ID row) = Some e /\ (e <= hw_now w + offset)%Z /\ w' = w /\ x <> None) \/
     ((forall e, expires w (ir_ID row) = Some e -> (hw_now w + offset < e)%Z) /\ is_expired x = false /\
      ((w' = w /\ x <> None) \/ expires w' (ir_ID row) = Some (hw_now w + offset + cf_TTL cfg)%Z))).
Proof.
  intros Hid He. apply lost_cases in He as (st & -> & Hst & Hx). exists st. split; [done|]. split.
  { intros n Hn. unfold expires. cbn. destruct Hst as [->| ->]; [done|]. by apply lv_others. }
  assert (Hsame : with_store (hw_store w) w = w) by by destruct w.
  assert ((exists e, expires w (ir_ID row) = Some e /\ (e <= hw_now w + offset)%Z) \/
    (forall e, expires w (ir_ID row) = Some e -> (hw_now w + offset < e)%Z)) as [(e & Ee & Hle)|Hl].
  { destruct (expires w (ir_ID row)) as [e|]; [|by right]. destruct (Z.le_gt_cases e (hw_now w + offset)) as [?|?]; [left; by exists e|].
    right. intros e' [= <-]. lia. }
  - left. exists e. rewrite (lv_expired _ _ _ _ _ Hid Httl Ee Hle) in Hst, Hx. assert (st = hw_store w) as -> by (by destruct Hst).
    split; [done|]. split; [done|]. split; [done|]. by destruct Hx as [[-> _]|[? _]].
  - right. destruct (lv_renewed _ row (cf_TTL cfg) (hw_store w) Hid Httl Hl) as [Hans Hexp]. rewrite Hans in Hx. split; [done|].
    split; [by destruct Hx as [[-> _]|[_ ?]]|]. destruct Hst as [->| ->]; [|by right].
    destruct Hx as [[_ Hst]|[? _]]; [|left; by rewrite Hsame]. right. unfold expires. cbn. rewrite Hst. exact Hexp.
Qed.

(** The invariant after a step that leaves the Row as it is. *)
Lemma inv_store w st :
  hinv w ->
  (is_closed w \/ lv_expires st (named w) = expires w (named w) \/
   (hb_expired (hw_row w) = true -> is_closed w) /\ lv_expires st (named w) = Some (hw_now w + offset + cf_TTL cfg)%Z) ->
  hinv (with_store st w).
Proof.
  intros [A1 A2 A3 A4 A5 A6 A7 A8 A9] Hown. split; try done; cbn.
  - unfold expires, named, is_closed in *. cbn. destruct Hown as [?|[->|[_ ->]]]; [by right; left|done|]. right; right. eexists. split; [done|]. lia.
  - unfold expires, named, is_closed in *. cbn. intros Hx. destruct Hown as [?|[->|[Hc _]]]; [by left|by apply A5|left; by apply Hc].
Qed.

Lemma beat_own row w x w' :
  hinv w -> ir_ID row = named w -> hexec true (BeatRow row (cf_TTL cfg)) w x w' ->
  hinv w' /\ hw_row w' = hw_row w /\ hw_now w' = hw_now w /\
  (x = None -> exists e, expires w' (named w) = Some e /\ (hw_now w + cf_TTL cfg + offset <= e)%Z) /\
  (is_expired x = true -> exists e, expires w' (named w) = Some e /\ (e <= hw_now w + offset)%Z).
Proof.
  intros Hi Hid He. pose proof (hi_id _ Hi) as [_ Hok]. rewrite <- Hid in Hok. pose proof (hi_used _ Hi) as Hused.
  apply (beat_cases _ _ _ _ Hok) in He as (st & -> & Hothers & Hcase). rewrite Hid in *.
  destruct Hcase as [(e & Ee & Hle & Hsame & Hx)|(Hl & Hx & Hcase)].
  - rewrite Hsame. split; [done|]. split; [done|]. split; [done|]. split; [done|]. intros _. by exists e.
  - assert (Hexp : hb_expired (hw_row w) = true -> is_closed w).
    { intros Hex. destruct (hi_expired _ Hi Hex) as [?|(e & Ee & Hle)]; [done|]. specialize (Hl _ Ee). lia. }
    destruct Hcase as [[Hsame Hn]|Hnew].
    + rewrite Hsame. split; [done|]. split; [done|]. split; [done|]. split; [done|]. rewrite Hx. done.
    + split; [apply inv_store; [done|]; right; right; by split|]. split; [done|]. split; [done|]. split; [|by rewrite Hx].
      intros _. eexists. split; [exact Hnew|]. lia.
Qed.

(** A Beat of another name that was made: a renewal, or a removal. *)
Lemma beat_other row ttl w x w' :
  hinv w -> ir_ID row <> named w -> ir_ID row ∈ hw_used w -> hexec true (BeatRow row ttl) w x w' ->
  hinv w' /\ hw_row w' = hw_row w.
Proof.
  intros Hi Hne Hused He. apply lost_cases in He as (st & -> & Hst & _). split; [|done].
  assert (Hrows : forall n, n <> ir_ID row -> lv_expires st n = expires w n).
  { intros n Hn. destruct Hst as [->| ->]; [done|]. by apply lv_others. }
  apply inv_store; [done|]. right; left. apply Hrows. congruence.
Qed.

(** The removal of the row of a Row that is closed. *)
Lemma beat_closed row ttl w x w' :
  hinv w -> is_closed w -> ir_ID row = named w -> hexec true (BeatRow row ttl) w x w' -> hinv w' /\ hw_row w' = hw_row w /\ others w w'.
Proof.
  intros Hi Hc Hid He. apply lost_cases in He as (st & -> & Hst & _).
  assert (Hrows : forall n, n <> ir_ID row -> lv_expires st n = expires w n).
  { intros n Hn. destruct Hst as [->| ->]; [done|]. by apply lv_others. }
  split; [|split; [done|]].
  - apply inv_store; [done|by left].
  - split; try done. { intros n _ Hn. apply Hrows. congruence. } by left.
Qed.

(** *** Steps that leave the store *)

Lemma with_row_same r w : hb_instance r = named w -> with_row r w = MkHWorld (hw_now w) r (hw_store w) (hw_used w) (hw_past w).
Proof. intros Hn. unfold with_row. unfold named in Hn. by rewrite Hn, String.eqb_refl. Qed.

Lemma with_row_id w : with_row (hw_row w) w = w.
Proof. rewrite with_row_same by done. by destruct w. Qed.

(** A Row that says no more than the one before. *)
Lemma inv_row r w :
  hinv w -> hb_instance r = named w -> (is_closed w -> hb_closed r = true) -> (hb_closed r = true -> hb_expired r = true) ->
  hb_lastSent r = hb_lastSent (hw_row w) ->
  (hb_expired r = true -> hb_closed r = true \/ hb_expired (hw_row w) = true \/ exists e, expires w (named w) = Some e /\ (e <= hw_now w + offset)%Z) ->
  hinv (with_row r w).
Proof.
  intros [A1 A2 A3 A4 A5 A6 A7 A8 A9] Hn Hc Hce Hs He. rewrite with_row_same by done. unfold named, is_closed, expires in *.
  split; unfold named, is_closed, expires; cbn; rewrite ?Hn, ?Hs; try done.
  - destruct A3 as [?|[?|?]]; [by left|right; left; by apply Hc|by right; right].
  - intros Hx. destruct (He Hx) as [?|[Hx'|?]]; [by left| |by right]. destruct (A5 Hx') as [?|?]; [left; by apply Hc|by right].
Qed.

Lemma inv_later d w : (0 <= d)%Z -> hinv w -> hinv (later d w).
Proof.
  intros Hd [A1 A2 A3 A4 A5 A6 A7 A8 A9]. split; try done; cbn; try lia. intros Hx. destruct (A5 Hx) as [?|(e & ? & ?)]; [by left|].
  right. exists e. split; [done|lia].
Qed.

Lemma inv_name name w : hinv w -> name ∉ hw_used w -> hinv (with_name name w).
Proof. intros [A1 A2 A3 A4 A5 A6 A7 A8 A9] Hn. split; try done; cbn; [by apply elem_of_union_r|by apply (union_subseteq_r' _ _ _ A8)]. Qed.

Lemma keeps_closed_same w w' : hw_row w' = hw_row w -> keeps_closed w w'.
Proof. intros Hr Hc. unfold is_closed, named. by rewrite Hr. Qed.

(** *** A renewal *)

Abbreviation renewing := (safe others keeps_closed).

(** The name that was made for a Row whose own has expired. *)
Record made_name (name : string) (w : hworld) : Prop := {
  mn_used : name ∈ hw_used w;
  mn_new : name <> named w;
  mn_past : name ∉ hw_past w;
  mn_id : name <> "" /\ CheckID name = None;
}.

Lemma made_others name w w' : made_name name w -> others w w' -> made_name name w'.
Proof. intros [U N P I] Ho. destruct Ho as [_ O1 _ O2 O3 _ _ _]. split; congruence. Qed.

Lemma made_same name w w' : made_name name w -> hw_row w' = hw_row w -> hw_used w' = hw_used w -> hw_past w' = hw_past w -> made_name name w'.
Proof. intros [U N P I] Hr Hu Hp. split; unfold named; rewrite ?Hr, ?Hu, ?Hp; done. Qed.

(** The last step of [reregister]: a row of a name that is not the Row's goes. *)
Lemma drop_renewing {A} name (p : hprog A) w :
  (forall w', hinv w' -> others w w' -> name <> named w' /\ name ∈ hw_used w') -> (forall w', renewing p w') ->
  renewing (HOp (BeatRow (MkInstanceRow name false "") 0) (fun _ => p)) w.
Proof.
  intros Hn Hp w1 x w2 Ho Hi He. destruct (Hn w1 Hi Ho) as [Hne Hu]. destruct (beat_other (MkInstanceRow name false "") _ _ _ _ Hi Hne Hu He) as [Hi2 Hr].
  split; [done|]. split; [by apply keeps_closed_same|apply Hp].
Qed.

(** A name whose row was written at [sent] or later. *)
Record registered (name : string) (sent : gotime) (w : hworld) : Prop := {
  rg_made : made_name name w;
  rg_sent : (sent <= hw_now w)%Z;
  rg_row : exists e, expires w name = Some e /\ (sent + cf_TTL cfg + offset <= e)%Z;
}.

Lemma registered_others name sent w w' : registered name sent w -> others w w' -> registered name sent w'.
Proof.
  intros [M S1 (e & E & L)] Ho. split; [by eapply made_others|pose proof (ot_now _ _ Ho); lia|]. exists e. split; [|done].
  rewrite (ot_rows _ _ Ho); [done|apply (mn_used _ _ M)|apply (mn_new _ _ M)].
Qed.

(** The Row takes the name, unless it was closed. *)
Lemma take_name_inv name sent w :
  hinv w -> registered name sent w -> hb_closed (hw_row w) = false ->
  let w' := with_row ((hw_row w) <| hb_instance := name |> <| hb_expired := false |> <| hb_reported := false |> <| hb_lastSent := sent |>) w in
  hinv w' /\ named w' = name /\ (named w ∈ hw_used w').
Proof.
  intros [A1 A2 A3 A4 A5 A6 A7 A8 A9] [[U N P I] Hs (e & E & L)] Hc. cbv zeta. unfold with_row.
  match goal with |- context [String.eqb ?a ?b] => destruct (String.eqb_spec a b) as [Hx|_] end; [by destruct N|].
  split; [|by split]. split; unfold named, is_closed, expires in *; cbn; rewrite ?Hc; try done.
  - right; right. exists e. split; [exact E|lia].
  - rewrite elem_of_union, elem_of_singleton. by intros [?|?].
  - apply union_subseteq. split; [|done]. by apply singleton_subseteq_l.
Qed.

Lemma take_renewing old name sent w :
  registered name sent w -> ir_ID old = named w -> ir_ID old ∈ hw_used w ->
  renewing (hbind (hask (Locked (took_name (ir_ID old) name sent))) (fun took =>
    if took : bool then
      hlet _ := hask (BeatRow (MkInstanceRow (ir_ID old) false "") 0) in
      hlet _ := hask OnRename in
      HRet (@None error)
    else
      hlet _ := hask (BeatRow (MkInstanceRow name false "") 0) in
      HRet None)) w.
Proof.
  intros Hreg Hold Hused. cbn [hbind hask safe]. intros w1 took w2 Ho Hi [-> ->]. pose proof (registered_others _ _ _ _ Hreg Ho) as Hr1.
  assert (Hold1 : ir_ID old = named w1) by (by rewrite (ot_name _ _ Ho)). assert (Hused1 : ir_ID old ∈ hw_used w1) by (by rewrite (ot_used _ _ Ho)).
  unfold took_name. destruct (hb_closed (hw_row w1)) eqn:Ec; cbn [orb fst snd].
  - rewrite with_row_id. split; [done|]. split; [done|]. apply (drop_renewing name (HRet None)); [|done].
    intros w3 _ Ho3. destruct (made_others _ _ _ (rg_made _ _ _ Hr1) Ho3) as [? ? _ _]. by split.
  - unfold named in Hold1. rewrite <- Hold1, String.eqb_refl. cbn [negb fst snd]. destruct (take_name_inv name sent w1 Hi Hr1 Ec) as (Hi2 & Hn2 & Hu2).
    split; [exact Hi2|]. split; [by intros Hc; unfold is_closed in Hc; congruence|].
    apply (drop_renewing (ir_ID old) (HOp OnRename (fun _ => HRet None))).
    + intros w3 _ Ho3. rewrite (ot_name _ _ Ho3), Hn2, (ot_used _ _ Ho3). split; [|unfold named in Hu2; by rewrite <- Hold1 in Hu2].
      destruct (rg_made _ _ _ Hr1) as [_ Hne _ _]. unfold named in Hne. by rewrite <- Hold1 in Hne.
    + intros w3 w4 x w5 Ho4 Hi4 ->. split; [done|]. split; [by apply keeps_closed_same|done].
Qed.

(** The name is registered, or nothing is. *)
Lemma register_beat name row sent w err w' :
  hinv w -> made_name name w -> ir_ID row = name -> (sent <= hw_now w)%Z -> expires w name = None ->
  hexec true (BeatRow row (cf_TTL cfg)) w err w' ->
  hinv w' /\ hw_row w' = hw_row w /\ hw_used w' = hw_used w /\ (err = None -> registered name sent w').
Proof.
  intros Hi Hm <- Hs Hnone He. destruct (beat_other _ _ _ _ _ Hi (mn_new _ _ Hm) (mn_used _ _ Hm) He) as [Hi2 Hr2].
  destruct (mn_id _ _ Hm) as [_ Hid]. apply (beat_cases _ _ _ _ Hid) in He as (st & -> & _ & Hcase). split; [done|]. split; [done|]. split; [done|].
  intros ->. destruct Hcase as [(e & Ee & _)|(_ & _ & [[_ ?]|Hnew])]; [congruence|done|]. split; [by eapply made_same|done|].
  eexists. split; [exact Hnew|]. lia.
Qed.

Lemma reregister_renewing old w : ir_ID old = named w -> renewing (reregister cfg old) w.
Proof.
  intros Hold. unfold reregister, hask at 1. cbn [hbind safe]. intros w1 name w2 Ho1 Hi1 (Hfresh & Hne & Hok & Hnone & ->).
  split; [by apply inv_name|]. split; [by apply keeps_closed_same|].
  assert (Hm2 : made_name name (with_name name w1)).
  { split; [cbn; set_solver| | |done]; intros Hx; apply Hfresh; [rewrite Hx; apply (hi_used _ Hi1)|by apply (hi_past_used _ Hi1)]. }
  intros w3 sent w4 Ho3 Hi3 [-> ->]. split; [done|]. split; [by apply keeps_closed_same|]. pose proof (made_others _ _ _ Hm2 Ho3) as Hm3.
  assert (Hnone3 : expires w3 name = None) by (rewrite (ot_rows _ _ Ho3); [done|apply (mn_used _ _ Hm2)|apply (mn_new _ _ Hm2)]).
  intros w5 err w6 Ho5 Hi5 He6. pose proof (made_others _ _ _ Hm3 Ho5) as Hm5.
  assert (Hnone5 : expires w5 name = None) by (rewrite (ot_rows _ _ Ho5); [done|apply (mn_used _ _ Hm3)|apply (mn_new _ _ Hm3)]).
  assert (Hold5 : ir_ID old = named w5) by (rewrite (ot_name _ _ Ho5), (ot_name _ _ Ho3); change (named (with_name name w1)) with (named w1); by rewrite (ot_name _ _ Ho1)).
  destruct (register_beat name (MkInstanceRow name (ir_Draining old) (ir_Address old)) (hw_now w3) _ _ _ Hi5 Hm5 eq_refl (ot_now _ _ Ho5) Hnone5 He6) as (Hi6 & Hr6 & Hu6 & Hreg).
  split; [done|]. split; [by apply keeps_closed_same|]. destruct err as [e|]; [done|].
  apply (take_renewing old name (hw_now w3) w6 (Hreg eq_refl)).
  - unfold named. rewrite Hr6. exact Hold5.
  - rewrite Hu6, Hold5. apply (hi_used _ Hi5).
Qed.

(** The Row after an answer of the store. *)
Lemma renewed_inv sent err w w5 :
  hinv w5 -> others w w5 -> (sent <= hw_now w)%Z ->
  (err = None -> exists e, expires w (named w) = Some e /\ (sent + cf_TTL cfg + offset <= e)%Z) ->
  (is_expired err = true -> exists e, expires w (named w) = Some e /\ (e <= hw_now w + offset)%Z) ->
  let r := (renewed sent err (hw_row w5)).1 in hinv (with_row r w5) /\ hb_closed r = hb_closed (hw_row w5) /\ hb_instance r = named w5.
Proof.
  intros Hi Ho Hs Hok Hex. cbv zeta. unfold renewed. destruct (is_expired err) eqn:Ee; cbn [fst].
  - split; [|done]. apply inv_row; try done. cbn. intros _. destruct (Hex eq_refl) as (e & E & L).
    destruct (ot_own _ _ Ho) as [?|[Hrow _]]; [by left|]. right; right. exists e. rewrite (ot_name _ _ Ho), Hrow. split; [done|].
    pose proof (ot_now _ _ Ho). lia.
  - destruct err as [e|].
    { rewrite with_row_id. done. }
    destruct (Z.ltb_spec (hb_lastSent (hw_row w5)) sent) as [Hlt|_]; [|by rewrite with_row_id].
    split; [|done]. destruct (Hok eq_refl) as (e & E & L). pose proof (ot_now _ _ Ho) as Hn. destruct Hi as [A1 A2 A3 A4 A5 A6 A7 A8 A9].
    rewrite with_row_same by done. split; unfold named, is_closed, expires in *; cbn; try done; [|lia].
    destruct (ot_own _ _ Ho) as [?|[Hrow _]]; [by right; left|]. right; right. exists e. split; [|done].
    pose proof (ot_name _ _ Ho) as Hname. unfold named, expires in *. by rewrite Hname, Hrow.
Qed.

Lemma renew_renewing w : renewing (renew cfg) w.
Proof.
  unfold renew, hask. cbn [hbind safe]. intros w1 row w2 Ho1 Hi1 [-> ->]. cbn [fst snd]. rewrite with_row_id. split; [done|]. split; [done|].
  intros w3 sent w4 Ho3 Hi3 [-> ->]. split; [done|]. split; [by apply keeps_closed_same|].
  intros w5 err w6 Ho5 Hi5 He6. assert (Hname : ir_ID (row_of cfg (hw_row w1)) = named w5) by (cbn; by rewrite (ot_name _ _ Ho5), (ot_name _ _ Ho3)).
  destruct (beat_own _ _ _ _ Hi5 Hname He6) as (Hi6 & Hr6 & Hn6 & Hok & Hex). split; [done|]. split; [by apply keeps_closed_same|].
  intros w7 closed w8 Ho7 Hi7 [-> ->]. assert (Hsame : named w6 = named w5) by (unfold named; by rewrite Hr6).
  pose proof (ot_now _ _ Ho5) as Hnow5.
  destruct (renewed_inv (hw_now w3) err w6 w7 Hi7 Ho7) as (Hi8 & Hc8 & Hn8); [by rewrite Hn6| | |].
  - intros He. destruct (Hok He) as (e & E & L). exists e. rewrite Hsame. split; [done|]. lia.
  - intros He. destruct (Hex He) as (e & E & L). exists e. rewrite Hsame, Hn6. by split.
  - split; [done|]. split.
    { intros Hc. split; [exact (eq_trans Hc8 Hc)|exact Hn8]. }
    destruct (is_expired err && _); [|done]. apply reregister_renewing. rewrite Hname.
    change (named (with_row (renewed (hw_now w3) err (hw_row w7)).1 w7)) with (hb_instance (renewed (hw_now w3) err (hw_row w7)).1).
    by rewrite Hn8, (ot_name _ _ Ho7), Hsame.
Qed.

(** *** The calls *)

Lemma start_row_inv w : hinv w -> hinv (with_row (start_row (hw_row w)).1 w) /\ keeps_closed w (with_row (start_row (hw_row w)).1 w) /\
  match (start_row (hw_row w)).2 with Some name => is_closed w /\ name = named w | None => True end.
Proof.
  intros Hi. unfold start_row. destruct (hb_closed (hw_row w)) eqn:Ec; [cbn [fst snd]; rewrite with_row_id; by split|].
  destruct (hb_started (hw_row w)); [cbn [fst snd]; rewrite with_row_id; by split|]. cbn [fst snd]. split; [|split; [|done]].
  - apply inv_row; try done; cbn; [apply (hi_closed _ Hi)|by right; left].
  - intros Hc. unfold is_closed in *. congruence.
Qed.

Lemma Live_renewing w : renewing (Live cfg) w.
Proof.
  unfold Live. cbn [hbind hask safe]. intros w1 state w2 Ho1 Hi1 [-> ->]. cbn [fst snd]. rewrite with_row_id. split; [done|]. split; [done|].
  destruct (hb_closed (hw_row w1)); [done|]. destruct (hb_started (hw_row w1)); [done|]. apply safe_bind; [apply renew_renewing|].
  intros err w3. destruct err as [e|]; [done|]. cbn [hbind hask safe]. intros w4 gone w5 Ho4 Hi4 [-> ->].
  destruct (start_row_inv w4 Hi4) as (Hi5 & Hk5 & Hgone). split; [done|]. split; [done|]. destruct (start_row (hw_row w4)).2 as [name|]; [|done].
  destruct Hgone as [Hc ->]. destruct (Hk5 Hc) as [Hc5 Hn5]. intros w6 x w7 Ho6 Hi6 He.
  destruct (beat_closed (MkInstanceRow (named w4) false "") 0 w6 x w7) as (Hi7 & Hr7 & _); [done|by apply (ot_closed _ _ Ho6)|cbn; by rewrite (ot_name _ _ Ho6)|done|].
  split; [done|]. split; [by apply keeps_closed_same|done].
Qed.

Lemma tick_renewing w : renewing (tick cfg) w.
Proof.
  unfold tick. apply safe_bind; [apply renew_renewing|]. intros _ w1. cbn. intros w2 x w3 _ Hi ->. split; [done|]. split; [by apply keeps_closed_same|done].
Qed.

Lemma MarkDraining_renewing w : renewing (MarkDraining cfg) w.
Proof.
  unfold MarkDraining. cbn [hbind hask safe]. intros w1 started w2 _ Hi [-> ->]. cbn [fst snd]. split.
  { apply inv_row; try done; cbn; [apply (hi_closed _ Hi)|by right; left]. }
  split; [done|]. destruct (hb_started (hw_row w1)); [|done]. apply safe_bind; [apply renew_renewing|done].
Qed.

Lemma Close_closing w : safe keeps_closed others Close w.
Proof.
  unfold Close. cbn [hbind hask safe]. intros w1 state w2 _ Hi [-> ->]. cbn [fst snd close_row].
  set (w2 := with_row _ w1). assert (Hc2 : is_closed w2) by done. assert (Hn2 : named w2 = named w1) by done. split; [apply inv_row; try done; intros _; by left|]. split.
  { unfold w2. rewrite with_row_same by done. split; try done. by left. }
  destruct (hb_started (hw_row w1)); [|done]. intros w3 x w4 Hk3 Hi3 ->. destruct (Hk3 Hc2) as [Hc3 Hn3]. split; [done|]. split; [apply others_refl|].
  intros w5 err w6 Hk5 Hi5 He. destruct (Hk5 Hc3) as [Hc5 Hn5].
  destruct (beat_closed (MkInstanceRow (named w1) false "") 0 w5 err w6) as (Hi6 & _ & Ho6); [done|done|cbn; congruence|done|]. by split.
Qed.

(** *** All calls together *)

Definition thread_safe (w : hworld) (t : thread) : Prop := if t.1 then renewing t.2 w else safe keeps_closed others t.2 w.

(** The calls that renew the row. *)
Definition renewers (ts : list thread) : nat := length (List.filter fst ts).

Lemma renewers_app ts1 ts2 : renewers (ts1 ++ ts2) = (renewers ts1 + renewers ts2)%nat.
Proof. unfold renewers. by rewrite List.filter_app, length_app. Qed.

Lemma renewers_cons t ts : renewers (t :: ts) = ((if t.1 then 1 else 0) + renewers ts)%nat.
Proof. unfold renewers. cbn. by destruct t.1. Qed.

Lemma renewers_in t ts : t ∈ ts -> t.1 = true -> (1 <= renewers ts)%nat.
Proof. induction 1 as [t ts|t u ts _ IH]; intros Ht; rewrite renewers_cons; [rewrite Ht; lia|specialize (IH Ht); lia]. Qed.

Lemma renewers_idle ts : idle_row ts -> renewers ts = 0%nat.
Proof. induction 1 as [|t ts Ht _ IH]; [done|]. rewrite renewers_cons, Ht, IH. done. Qed.

Record sys_safe (s : hsys) : Prop := {
  ss_inv : hinv (hs_world s);
  ss_threads : Forall (thread_safe (hs_world s)) (hs_threads s);
  ss_serial : (renewers (hs_threads s) <= 1)%nat;
}.

Lemma later_others d w : (0 <= d)%Z -> others w (later d w).
Proof. intros Hd. split; try done; [cbn; lia|by right]. Qed.

Lemma guard_row name now r :
  let r' := (Guard cfg name now r).1.1 in
  hb_instance r' = hb_instance r /\ hb_closed r' = hb_closed r /\ hb_lastSent r' = hb_lastSent r /\ hb_expired r' = hb_expired r.
Proof.
  cbv zeta. unfold Guard. destruct (negb (String.eqb name "") && _); [done|]. destruct (negb (hb_expired r) && _); [done|].
  cbn. by destruct (negb (hb_reported r) && _).
Qed.

Lemma guard_asked name w : hinv w -> let w' := with_row (Guard cfg name (hw_now w) (hw_row w)).1.1 w in hinv w' /\ others w w'.
Proof.
  intros Hi. cbv zeta. destruct (guard_row name (hw_now w) (hw_row w)) as (Hn & Hc & Hs & He). set (r := (Guard _ _ _ _).1.1) in *. split.
  - apply inv_row; [done|done|unfold is_closed; by rewrite Hc|rewrite Hc, He; apply (hi_closed _ Hi)|done|rewrite He; by right; left].
  - rewrite with_row_same by done. split; unfold named, is_closed, expires; cbn; rewrite ?Hc; try done. by right.
Qed.

Lemma elsewhere_others st w : hinv w -> (forall n, n ∈ hw_used w -> lv_expires st n = lv_expires (hw_store w) n) ->
  hinv (with_store st w) /\ others w (with_store st w).
Proof.
  intros Hi Hst. pose proof (hi_used _ Hi) as Hu. split; [apply inv_store; [done|]; right; left; by apply Hst|].
  split; try done; [by intros n Hn _; apply Hst|]. right. split; [by apply Hst|done].
Qed.

(** What others do, a thread puts up with. *)
Lemma threads_later w w' ts : (forall t, t ∈ ts -> t.1 = true -> others w w') -> keeps_closed w w' ->
  Forall (thread_safe w) ts -> Forall (thread_safe w') ts.
Proof.
  intros Ho Hk Hs. rewrite list.Forall_forall in *. intros t Ht. specialize (Hs t Ht). specialize (Ho t Ht). unfold thread_safe in *.
  destruct t.1; [eapply safe_later; [exact others_trans|by apply Ho|done]|]. eapply safe_later; [exact keeps_closed_trans|exact Hk|done].
Qed.

Lemma threads_others w w' ts : others w w' -> Forall (thread_safe w) ts -> Forall (thread_safe w') ts.
Proof. intros Ho. apply threads_later; [done|by apply others_keeps_closed]. Qed.

Lemma run_thread_safe ts1 ts2 renews {X} (o : hop X) k x w w' :
  sys_safe (MkHSys w (ts1 ++ (renews, HOp o k) :: ts2)) -> hexec true o w x w' -> sys_safe (MkHSys w' (ts1 ++ (renews, k x) :: ts2)).
Proof.
  intros [Hi Ht Hone] He. cbn [hs_world hs_threads] in *. apply list.Forall_app in Ht as [Ht1 Ht]. inversion Ht as [|? ? Hself Ht2]; subst. clear Ht.
  assert (Hrest : forall t, t ∈ ts1 ++ ts2 -> t.1 = true -> renews = false).
  { intros t Hin Htrue. destruct renews; [|done]. rewrite renewers_app, renewers_cons in Hone. cbn [fst] in Hone.
    pose proof (renewers_in t _ Hin Htrue) as Hr. rewrite renewers_app in Hr. lia. }
  assert (hinv w' /\ keeps_closed w w' /\ (renews = false -> others w w') /\ thread_safe w' (renews, k x)) as (Hi' & Hk & Ho & Hself').
  { unfold thread_safe in *. cbn in Hself |- *. destruct renews.
    - destruct (Hself w x w' (others_refl w) Hi He) as (? & ? & ?). by split_and!.
    - destruct (Hself w x w') as (? & Ho & ?); [by intros Hc|done|done|]. split_and!; [done|by apply others_keeps_closed|done|done]. }
  split; cbn [hs_world hs_threads]; [done| |].
  - assert (Hall : Forall (thread_safe w') (ts1 ++ ts2)).
    { apply (threads_later w); [|done|by apply list.Forall_app]. intros t Hin Htrue. by apply Ho, (Hrest t Hin). }
    apply list.Forall_app in Hall as [H1 H2]. apply list.Forall_app. split; [done|by constructor].
  - rewrite renewers_app, renewers_cons in *. cbn [fst] in *. exact Hone.
Qed.

Lemma start_safe w ts t : sys_safe (MkHSys w ts) -> (forall w', thread_safe w' t) -> (t.1 = true -> idle_row ts) -> sys_safe (MkHSys w (ts ++ [t])).
Proof.
  intros [Hi Ht Hone] Hs Hidle. split; cbn [hs_world hs_threads] in *; [done|apply list.Forall_app; split; [done|by repeat constructor]|].
  rewrite renewers_app, renewers_cons. destruct t.1; [rewrite (renewers_idle ts) by (by apply Hidle)|]; cbn -[renewers]; change (renewers []) with 0%nat; lia.
Qed.

Lemma hstep_safe s s' : hstep true s s' -> sys_safe s -> sys_safe s'.
Proof.
  intros Hs. inversion Hs as [d w ts Hd|call w ts Hcall Hidle|w ts|st w ts Hst|name w ts|ts1 ts2 renews X o k x w w' He|ts1 ts2 renews x w]; subst; intros Hok.
  - destruct Hok as [Hi Ht Hone]. split; cbn [hs_world hs_threads] in *; [by apply inv_later|by eapply threads_others, Ht; apply later_others|done].
  - apply start_safe; [done| |by intros _; apply Hidle]. intros w'. unfold thread_safe. cbn.
    repeat (apply elem_of_cons in Hcall as [->|Hcall]); [apply Live_renewing|apply tick_renewing|apply MarkDraining_renewing|by apply not_elem_of_nil in Hcall].
  - apply start_safe; [done|intros w'; apply Close_closing|done].
  - destruct Hok as [Hi Ht Hone]. cbn [hs_world hs_threads] in *. destruct (elsewhere_others st w Hi Hst) as [Hi' Ho]. split; cbn [hs_world hs_threads]; [done|by eapply threads_others|done].
  - destruct Hok as [Hi Ht Hone]. cbn [hs_world hs_threads] in *. destruct (guard_asked name w Hi) as [Hi' Ho]. split; cbn [hs_world hs_threads]; [done|by eapply threads_others|done].
  - by eapply run_thread_safe.
  - destruct Hok as [Hi Ht Hone]. cbn [hs_world hs_threads] in *. apply list.Forall_app in Ht as [H1 Ht]. inversion Ht; subst. split; cbn [hs_world hs_threads]; [done|by apply list.Forall_app|].
    rewrite renewers_app, renewers_cons in *. lia.
Qed.

Lemma fresh_start_inv w : fresh_start w -> hinv w.
Proof.
  intros (name & Hr & Hu & Hp & Hne & Hid & Ht & Hs). split; unfold named, is_closed, expires; rewrite ?Hr, ?Hu, ?Hp; cbn; try done; try lia.
  all: try first [by left|by apply elem_of_singleton].
Qed.

Lemma hreach_safe s : hreach true s -> sys_safe s.
Proof.
  intros (w & Hf & Hr). remember (MkHSys w []) as s0 eqn:E. assert (Hok : sys_safe s0).
  { subst. split; cbn; [by apply fresh_start_inv|by apply Forall_nil|lia]. }
  clear E. induction Hr as [s|s s1 s2 Hstep _ IH]; [done|]. by eapply IH, hstep_safe.
Qed.


(** A name that the Instance had is never its name again. *)
Lemma past_grows s s' : hstep true s s' -> hw_past (hs_world s) ⊆ hw_past (hs_world s') /\
  (named (hs_world s') = named (hs_world s) \/ named (hs_world s) ∈ hw_past (hs_world s')).
Proof.
  assert (Hrow : forall r w, hw_past w ⊆ hw_past (with_row r w) /\ (named (with_row r w) = named w \/ named w ∈ hw_past (with_row r w))).
  { intros r w. unfold with_row, named. cbn. destruct (String.eqb_spec (hb_instance r) (hb_instance (hw_row w))) as [Hn|_]; [split; [done|by left]|].
    split; [by apply union_subseteq_r|right; by apply elem_of_union_l, elem_of_singleton]. }
  assert (Hsame : forall w w', hw_row w' = hw_row w -> hw_past w' = hw_past w -> hw_past w ⊆ hw_past w' /\ (named w' = named w \/ named w ∈ hw_past w')).
  { intros w w' Hr Hp. unfold named. rewrite Hr, Hp. split; [done|by left]. }
  intros Hs. inversion Hs as [d w ts Hd|call w ts Hcall Hidle|w ts|st w ts Hst|name w ts|ts1 ts2 renews X o k x w w' He|ts1 ts2 renews x w]; subst; cbn [hs_world];
    try (by apply Hsame); [by apply Hrow|].
  destruct o; cbn in He; [destruct He as [_ ->]; apply Hrow|destruct He as [_ ->]; by apply Hsame| | |subst; by apply Hsame..].
  - destruct He as [[_ ->]|(_ & _ & [->| ->])]; by apply Hsame.
  - destruct He as (_ & _ & _ & _ & ->). by apply Hsame.
Qed.

(** [Guard] lets the Writers of one name write. *)
Lemma guard_allows name now r :
  (Guard cfg name now r).1.2 = None -> (name = "" \/ name = hb_instance r) /\ hb_expired r = false /\
    (now - hb_lastSent r <= cf_TTL cfg - Z.quot (cf_TTL cfg) 5)%Z.
Proof.
  unfold Guard, stale. destruct (String.eqb_spec name ""), (String.eqb_spec name (hb_instance r)); cbn [negb andb fst snd]; try done;
    (destruct (hb_expired r); cbn [negb andb fst snd]; [done|]); destruct (Z.ltb_spec (cf_TTL cfg - Z.quot (cf_TTL cfg) 5) (now - hb_lastSent r)); cbn; try done; auto.
Qed.

End interleaving.

(** C19: The guard of an Instance is sound: when it lets a Writer write, the row of the Writer's name
    is in the store and stays alive for another fifth of its TTL, so no other Instance can take
    the Session over meanwhile; and once the Instance has taken another name, a Writer of the
    old one is refused for good.  This holds of renewals that go one at a time, however
    they interleave with closings and questions to the guard, whichever calls of the store are
    lost or answered late, and whatever other Instances do to their rows, over any store that
    keeps the contract and whatever its clock says. *)
Theorem guard_is_sound {S} `{Liveness S} cfg offset s s' name :
  (0 < cf_TTL cfg)%Z -> hreach cfg offset true s -> rtc (hstep cfg offset true) s s' ->
  let w := hs_world s in let w' := hs_world s' in
  ((Guard cfg name (hw_now w) (hw_row w)).1.2 = None ->
    (name = "" \/ name = named w) /\
    exists e, expires w (named w) = Some e /\ (hw_now w + offset + Z.quot (cf_TTL cfg) 5 <= e)%Z) /\
  (named w' <> named w -> (Guard cfg (named w) (hw_now w') (hw_row w')).1.2 = Some ErrLapsed).
Proof.
  intros Httl Hs Hr. cbv zeta. pose proof (hreach_safe cfg offset Httl s Hs) as [Hi _ _]. split.
  - intros Hg. apply guard_allows in Hg as (Hn & He & Hfresh). split; [done|]. destruct (hi_sent _ _ _ Hi) as [Hz|[Hc|(e & E & L)]].
    + pose proof (hi_time _ _ _ Hi). pose proof (Z.quot_pos (cf_TTL cfg) 5 ltac:(lia) ltac:(lia)). lia.
    + apply (hi_closed _ _ _ Hi) in Hc. congruence.
    + exists e. split; [done|lia].
  - intros Hne. assert (Hpast : named (hs_world s') = named (hs_world s) \/ named (hs_world s) ∈ hw_past (hs_world s')).
    { clear -Hr. induction Hr as [s|s s1 s2 Hstep Hr IH]; [by left|]. apply past_grows in Hstep as [Hsub Hn].
      assert (Hmono : hw_past (hs_world s1) ⊆ hw_past (hs_world s2)).
      { clear -Hr. induction Hr as [s|s s1 s2 Hstep _ IH]; [done|]. apply past_grows in Hstep as [Hsub _]. by etrans. }
      destruct Hn as [Hn|Hn]; [|right; by apply Hmono]. by rewrite Hn in IH. }
    destruct Hpast as [?|Hpast]; [done|]. destruct Hs as (w0 & Hf & Hs0).
    assert (Hs' : hreach cfg offset true s') by (exists w0; split; [done|by etrans]).
    pose proof (hreach_safe cfg offset Httl s' Hs') as [Hi' _ _]. unfold Guard.
    destruct (String.eqb_spec (named (hs_world s)) "") as [He|_]; [by destruct (hi_id _ _ _ Hi)|].
    destruct (String.eqb_spec (named (hs_world s)) (hb_instance (hw_row (hs_world s')))) as [He|_]; [|done]. by destruct Hne.
Qed.

(** ** A renewal alone *)

Section alone.
Context {S : Type} `{Liveness S} (cfg : Config) (offset : Z) (Httl : (0 < cf_TTL cfg)%Z).

(** A program that runs alone, in its time, while the store answers. *)
Fixpoint runs_alone {A} (p : hprog A) (w : hworld) (r : A) (w' : hworld) : Prop :=
  match p with
  | HRet x => r = x /\ w' = w
  | HOp o k => exists d x w1, (0 <= d)%Z /\ hexec offset false o (later d w) x w1 /\ runs_alone (k x) w1 r w'
  end.

Lemma answered row ttl w x w' :
  hexec (S := S) offset false (BeatRow row ttl) w x w' ->
  x = (lv_beat (hw_now w + offset) row ttl (hw_store w)).2 /\ w' = with_store (lv_beat (hw_now w + offset) row ttl (hw_store w)).1 w.
Proof. cbn. by intros [?|[? _]]. Qed.

Lemma reregister_alone old w r w' :
  CheckID (ir_ID old) = None -> ir_ID old = named w -> hb_closed (hw_row w) = false ->
  runs_alone (reregister cfg old) w r w' ->
  r = None /\ hb_expired (hw_row w') = false /\ (hw_now w <= hb_lastSent (hw_row w'))%Z /\ (hw_now w <= hw_now w')%Z.
Proof.
  intros Hok Hold Hc. unfold reregister. cbn [hbind hask runs_alone].
  intros (d1 & name & w1 & Hd1 & (Hfresh & Hne & Hid & Hnone & ->) & d2 & sent & w2 & Hd2 & (-> & ->) & d3 & err & w3 & Hd3 & Hb & Hr).
  apply answered in Hb as [-> ->]. destruct (lv_renewed (hw_now (later d3 (later d2 (with_name name (later d1 w)))) + offset)%Z
    (MkInstanceRow name (ir_Draining old) (ir_Address old)) (cf_TTL cfg) (hw_store w)) as [Hans _]; [done|done|cbn; intros e He; cbn in Hnone; congruence|].
  cbn [hw_store later with_name] in Hr. cbn [hw_store later with_name] in Hans. rewrite Hans in Hr. cbn [hbind hask runs_alone] in Hr.
  destruct Hr as (d4 & took & w4 & Hd4 & (-> & ->) & Hr). unfold took_name in Hr. cbn [hw_row later with_store with_name] in Hr.
  rewrite Hc in Hr. unfold named in Hold. rewrite <- Hold, String.eqb_refl in Hr. cbn [negb orb fst snd hbind hask runs_alone] in Hr.
  destruct Hr as (d5 & x5 & w5 & Hd5 & Hb5 & d6 & x6 & w6 & Hd6 & -> & -> & ->). apply answered in Hb5 as [_ ->]. cbn. split; [done|]. split; [done|]. lia.
Qed.

(** A Row recovers by itself: whatever happened before, an Instance that is not closed and
    renews its row alone, while the store answers, is alive again afterwards, under its name or
    under a new one, and its guard lets it write unless the renewal took too long. *)
Theorem row_recovers s r w' :
  hreach cfg offset true s -> hb_closed (hw_row (hs_world s)) = false -> runs_alone (renew cfg) (hs_world s) r w' ->
  r = None /\ hb_expired (hw_row w') = false /\
  ((hw_now w' - hw_now (hs_world s) <= cf_TTL cfg - Z.quot (cf_TTL cfg) 5)%Z -> (Guard cfg "" (hw_now w') (hw_row w')).1.2 = None).
Proof.
  intros Hs Hc Hr. pose proof (hreach_safe cfg offset Httl s Hs) as [Hi _ _]. set (w := hs_world s) in *.
  assert (r = None /\ hb_expired (hw_row w') = false /\ (hw_now w <= hb_lastSent (hw_row w'))%Z) as (-> & He & Hsent).
  { unfold renew in Hr. cbn [hbind hask runs_alone] in Hr.
    destruct Hr as (d1 & row & w1 & Hd1 & (-> & ->) & d2 & sent & w2 & Hd2 & (-> & ->) & d3 & err & w3 & Hd3 & Hb & d4 & closed & w4 & Hd4 & (-> & ->) & Hr).
    cbn [fst snd] in *. rewrite (with_row_id (later d1 w)) in *. apply answered in Hb as [-> ->]. cbn [later hw_now hw_row hw_store with_store] in *.
    destruct (hi_id _ _ _ Hi) as [_ Hid].
    set (at_ := (hw_now w + d1 + d2 + d3 + offset)%Z) in *.
    assert ((exists e, expires w (named w) = Some e /\ (e <= at_)%Z) \/ (forall e, expires w (named w) = Some e -> (at_ < e)%Z)) as [(e & Ee & Hle)|Hlive].
    { destruct (expires w (named w)) as [e|]; [|by right]. destruct (Z.le_gt_cases e at_) as [?|?]; [left; by exists e|]. right. intros e' [= <-]. lia. }
    - rewrite (lv_expired at_ (row_of cfg (hw_row w)) (cf_TTL cfg) (hw_store w) e) in Hr by done. cbn [fst snd] in Hr.
      unfold renewed in Hr. replace (is_expired (Some ErrExpired)) with true in Hr by (vm_compute; reflexivity). cbn [fst snd negb andb] in Hr.
      replace (hb_closed ((hw_row w) <| hb_expired := true |>)) with false in Hr by done. cbn [negb] in Hr.
      apply reregister_alone in Hr as (-> & He & Hsent & _); [|exact Hid|by rewrite with_row_same|by rewrite with_row_same].
      rewrite with_row_same in Hsent by done. cbn in Hsent. split; [done|]. split; [done|]. lia.
    - destruct (lv_renewed at_ (row_of cfg (hw_row w)) (cf_TTL cfg) (hw_store w) Hid Httl Hlive) as [Hans _]. rewrite Hans in Hr.
      assert (Hx : hb_expired (hw_row w) = false).
      { destruct (hb_expired (hw_row w)) eqn:Hx; [|done]. destruct (hi_expired _ _ _ Hi Hx) as [?|(e & Ee & Hle)]; [unfold is_closed in *; congruence|].
        specialize (Hlive _ Ee). unfold at_ in Hlive. lia. }
      cbn [is_expired andb runs_alone] in Hr. destruct Hr as [-> ->]. unfold renewed. cbn [is_expired].
      destruct (Z.ltb_spec (hb_lastSent (hw_row w)) (hw_now w + d1 + d2)); cbn [fst]; rewrite with_row_same by done; cbn; split_and!; try done; lia. }
  split; [done|]. split; [done|]. intros Hfast. unfold Guard, stale. cbn [String.eqb negb andb]. rewrite He.
  destruct (Z.ltb_spec (cf_TTL cfg - Z.quot (cf_TTL cfg) 5) (hw_now w' - hb_lastSent (hw_row w'))); [lia|done].
Qed.

End alone.

(** ** Played interleavings *)

Section play.
Context {S : Type} `{Liveness S} (cfg : Config) (offset : Z).

(** What an operation does while the store answers; [name] is the name that is made. *)
Definition hdo (name : string) {X} (o : hop X) (w : hworld (S := S)) : option (X * hworld) :=
  match o in hop X return option (X * hworld) with
  | Locked f => Some ((f (hw_row w)).2, with_row (f (hw_row w)).1 w)
  | Clock => Some (hw_now w, w)
  | BeatRow row ttl => let answer := lv_beat (hw_now w + offset) row ttl (hw_store w) in Some (answer.2, with_store answer.1 w)
  | NewName =>
    if bool_decide (name ∉ hw_used w) && negb (String.eqb name "") && bool_decide (CheckID name = None) && bool_decide (lv_expires (hw_store w) name = None)
    then Some (name, with_name name w) else None
  | StopTicker | OnRename | OnBeat => Some (tt, w)
  end.

Lemma hdo_exec lost name {X} (o : hop X) w x w' : hdo name o w = Some (x, w') -> hexec offset lost o w x w'.
Proof.
  destruct o; cbn; try (by intros [= <- <-]); [intros [= <- <-]; by left|].
  destruct (bool_decide_reflect (name ∉ hw_used w)), (String.eqb_spec name ""), (bool_decide_reflect (CheckID name = None)),
    (bool_decide_reflect (lv_expires (hw_store w) name = None)); cbn; try done. by intros [= <- <-].
Qed.

(** A program alone, which takes no time. *)
Fixpoint alone (name : string) {A} (p : hprog A) (w : hworld) : option (A * hworld) :=
  match p with HRet x => Some (x, w) | HOp o k => '(x, w) ← hdo name o w; alone name (k x) w end.

Lemma alone_runs name {A} (p : hprog A) w r w' : alone name p w = Some (r, w') -> runs_alone offset p w r w'.
Proof.
  revert w. induction p as [x|X o k IH]; intros w; cbn; [by intros [= <- <-]|]. destruct (hdo name o w) as [[x w1]|] eqn:Eo; [|done]. cbn. intros Ha.
  exists 0%Z, x, w1. split; [done|]. split; [|by apply IH]. assert (later 0 w = w) as -> by (destruct w; unfold later; cbn; by rewrite Z.add_0_r).
  by eapply hdo_exec.
Qed.

(** A turn: time passes, a call starts, or a thread goes on. *)
Inductive turn : Type := Pass (d : duration) | Renewal (call : nat) | Closing | Go (thread : nat) (name : string).

Definition go (serial : bool) (t : turn) (s : hsys) : option hsys :=
  let w := hs_world s in
  let ts := hs_threads s in
  match t with
  | Pass d => if (0 <=? d)%Z then Some (MkHSys (later d w) ts) else None
  | Renewal n => call ← [Live cfg; tick cfg; MarkDraining cfg] !! n;
      if serial && existsb fst ts then None else Some (MkHSys w (ts ++ [(true, call)]))
  | Closing => Some (MkHSys w (ts ++ [(false, Close)]))
  | Go n name =>
      '(renews, p) ← ts !! n;
      match p with
      | HRet _ => Some (MkHSys w (take n ts ++ drop (Datatypes.S n) ts))
      | HOp o k => '(x, w') ← hdo name o w; Some (MkHSys w' (take n ts ++ (renews, k x) :: drop (Datatypes.S n) ts))
      end
  end.

Fixpoint play (serial : bool) (turns : list turn) (s : hsys) : option hsys :=
  match turns with [] => Some s | t :: rest => s ← go serial t s; play serial rest s end.

Lemma go_step serial t s s' : go serial t s = Some s' -> hstep cfg offset serial s s'.
Proof.
  destruct s as [w ts], t as [d|n| |n name]; cbn.
  - destruct (Z.leb_spec 0 d); [|done]. intros [= <-]. by constructor.
  - destruct (_ !! n) as [call|] eqn:Ec; [|done]. cbn. destruct (serial && existsb fst ts) eqn:Es; [done|]. intros [= <-].
    constructor; [by apply (list_elem_of_lookup_2 _ n)|]. intros ->. cbn in Es. apply list.Forall_forall. intros t Ht.
    destruct t.1 eqn:E; [|done]. assert (existsb fst ts = true); [|congruence]. apply existsb_exists. exists t. by rewrite <- list_elem_of_In.
  - intros [= <-]. constructor.
  - destruct (ts !! n) as [[renews p]|] eqn:Et; [|done]. cbn. apply take_drop_middle in Et as Hts. rewrite <- Hts at 1. destruct p as [x|X o k].
    + intros [= <-]. apply h_end.
    + destruct (hdo name o w) as [[x w']|] eqn:Eo; [|done]. intros [= <-]. apply h_run. by eapply hdo_exec.
Qed.

Lemma play_steps serial turns s s' : play serial turns s = Some s' -> rtc (hstep cfg offset serial) s s'.
Proof.
  revert s. induction turns as [|t turns IH]; intros s; cbn; [by intros [= <-]|]. destruct (go serial t s) as [s1|] eqn:Eg; [|done]. cbn.
  intros Hp. eapply rtc_l; [by eapply go_step|by apply IH].
Qed.

End play.

(** ** Samples *)

Definition sample_cfg : Config := MkConfig "" 10.
Definition sample_hworld : hworld (S := MemoryStore) := MkHWorld 100 (newRow "a") NewMemoryStore {["a"]} ∅.

Lemma sample_fresh_start : fresh_start sample_cfg sample_hworld.
Proof. exists "a". split_and!; try done. Qed.

Definition played (serial : bool) (turns : list turn) : hsys := default (MkHSys sample_hworld []) (play sample_cfg 0 serial turns (MkHSys sample_hworld [])).

Lemma played_reach serial turns : is_Some (play sample_cfg 0 serial turns (MkHSys sample_hworld [])) -> hreach sample_cfg 0 serial (played serial turns).
Proof. intros [s Hs]. exists sample_hworld. split; [apply sample_fresh_start|]. unfold played. rewrite Hs. by apply (play_steps sample_cfg 0 serial turns). Qed.

(** The first write, at 100; and then, the store being out of reach for 20, a beat of the ticker. *)
Definition first_write : list turn := Renewal 0 :: replicate 7 (Go 0 "").
Definition late_beat : list turn := Pass 20 :: Renewal 1 :: replicate 12 (Go 0 "b").

Lemma guard_is_sound_witness :
  named (hs_world (played true (first_write ++ late_beat))) = "b" /\
  (exists e, expires (hs_world (played true first_write)) "a" = Some e /\ (100 + 0 + 2 <= e)%Z) /\
  (Guard sample_cfg "a" 120 (hw_row (hs_world (played true (first_write ++ late_beat))))).1.2 = Some ErrLapsed.
Proof.
  destruct (guard_is_sound sample_cfg 0 (played true first_write) (played true (first_write ++ late_beat)) "a") as [Hlive Hold].
  - by vm_compute.
  - apply played_reach. vm_compute. by eexists.
  - apply (play_steps sample_cfg 0 true late_beat). vm_compute. reflexivity.
  - split; [vm_compute; reflexivity|]. split.
    + apply Hlive. vm_compute. reflexivity.
    + apply Hold. vm_compute. discriminate.
Defined.

(** The renewal of the late beat, alone. *)
Definition late : hsys := played true (first_write ++ [Pass 20]).

Lemma row_recovers_witness :
  exists w', runs_alone 0 (renew sample_cfg) (hs_world late) None w' /\ hb_instance (hw_row w') = "b" /\
    (Guard sample_cfg "" (hw_now w') (hw_row w')).1.2 = None.
Proof.
  destruct (alone 0 "b" (renew sample_cfg) (hs_world late)) as [[r w']|] eqn:Ea; [|vm_compute in Ea; discriminate].
  assert (Hw : hb_instance (hw_row w') = "b" /\ hw_now w' = 120%Z /\ hw_now (hs_world late) = 120%Z).
  { vm_compute in Ea. injection Ea as _ <-. by vm_compute. }
  apply alone_runs in Ea. destruct Hw as (Hn & Hnow & Hthen).
  destruct (row_recovers sample_cfg 0 ltac:(by vm_compute) late r w') as (-> & _ & Hg); [by apply played_reach; vm_compute; eexists|by vm_compute|exact Ea|].
  exists w'. split; [exact Ea|]. split; [exact Hn|]. apply Hg. rewrite Hnow, Hthen. by vm_compute.
Defined.

(** ** Renewals that overlap

    [renew] does not look whether the Row still has the name it renewed.  Two renewals, of the
    ticker and of [MarkDraining], that both find the row expired: the second marks the Row
    expired again after the first gave it a new name, and nothing takes the mark back. *)
Definition overlap : list turn :=
  first_write ++ [Pass 20; Renewal 1; Renewal 2] ++ Go 1 "" :: replicate 3 (Go 0 "") ++ replicate 3 (Go 1 "") ++
  replicate 5 (Go 0 "b") ++ replicate 5 (Go 1 "c").

Example overlapped_renewals_stick :
  exists s, hreach sample_cfg 0 false s /\ hb_closed (hw_row (hs_world s)) = false /\ hb_expired (hw_row (hs_world s)) = true /\
    named (hs_world s) = "b" /\ expires (hs_world s) "b" = Some 130%Z /\ hw_now (hs_world s) = 120%Z /\
    (Guard sample_cfg "" 120 (hw_row (hs_world s))).1.2 = Some ErrLapsed /\
    (forall sent err, err = None -> hb_expired (renewed sent err (hw_row (hs_world s))).1 = true).
Proof.
  exists (played false overlap). split; [apply played_reach; vm_compute; by eexists|]. split_and!; try (vm_compute; reflexivity).
  intros sent err ->. unfold renewed. cbn [is_expired fst]. by destruct (Z.ltb _ _).
Qed.

(** And a renewal that read the old name before the first gave the Row a new one, and the clock
    after: the row of the old name, which was removed, is written again, and the guard counts
    from it, so it lets Writers write whose row has expired. *)
Definition overtaken : list turn :=
  first_write ++ [Pass 20; Renewal 1; Renewal 2; Go 1 ""; Go 1 ""] ++ replicate 12 (Go 0 "b") ++ Pass 8 :: replicate 3 (Go 0 "") ++ [Pass 3].

Example overtaken_renewal_misleads :
  exists s, hreach sample_cfg 0 false s /\ (Guard sample_cfg "" (hw_now (hs_world s)) (hw_row (hs_world s))).1.2 = None /\
    named (hs_world s) = "b" /\ expires (hs_world s) "b" = Some 130%Z /\ hw_now (hs_world s) = 131%Z.
Proof.
  exists (played false overtaken). split; [apply played_reach; vm_compute; by eexists|]. split_and!; vm_compute; reflexivity.
Qed.
