(* ===== verification/Warm.v ===== *)
(** * The cache of idle Sessions

    [host/internal/warm/warm.go]: the copies an Instance keeps of Sessions without a Run, which it
    evicts longest idle first, and the holds that keep an idle compaction away from a caller.  A
    pointer to an Entry is its number, which the cache gives in the order of the Puts. *)

From S2P Require Import Prelude.
Local Open Scope string_scope.
Local Open Scope list_scope.

(** ** The cache *)

Record warmEntry := MkWarm { we_ID : string; we_Agent : string; we_since : gotime; we_seq : nat }.

(** The copies by Session, whether the cache keeps any more, and the last number; [stopped] are the
    Entries whose timers were stopped, and [dead] those that were dropped. *)
Record Cache := MkCache {
  wc_entries : gmap string warmEntry;
  wc_closed : bool;
  wc_seq : nat;
  wc_stopped : gset nat;
  wc_dead : gset nat;
}.
#[export] Instance eta_Cache : Eta Cache := fun r => MkCache (wc_entries r) (wc_closed r) (wc_seq r) (wc_stopped r) (wc_dead r).

Definition newCache : Cache := MkCache ∅ false 0 ∅ ∅.

Definition Len (c : Cache) : nat := size (wc_entries c).
Definition Get (id : string) (c : Cache) : option warmEntry := wc_entries c !! id.
Definition Entries (c : Cache) : list warmEntry := (map_to_list (wc_entries c)).*2.

(** [Put]; the timers of a plan are not part of the cache's state. *)
Definition Put (id agent : string) (now : gotime) (c : Cache) : Cache * option warmEntry :=
  if wc_closed c then (c, None)
  else
    let entry := MkWarm id agent now (S (wc_seq c)) in
    let stopped := match wc_entries c !! id with Some old => {[we_seq old]} ∪ wc_stopped c | None => wc_stopped c end in
    (MkCache (<[id := entry]> (wc_entries c)) (wc_closed c) (S (wc_seq c)) stopped (wc_dead c), Some entry).

(** [drop]. *)
Definition drop_entry (entry : warmEntry) (c : Cache) : Cache :=
  MkCache (delete (we_ID entry) (wc_entries c)) (wc_closed c) (wc_seq c) ({[we_seq entry]} ∪ wc_stopped c) ({[we_seq entry]} ∪ wc_dead c).

Definition Take (id : string) (c : Cache) : Cache * option warmEntry :=
  match wc_entries c !! id with None => (c, None) | Some entry => (drop_entry entry c, Some entry) end.

Definition Remove (entry : warmEntry) (c : Cache) : Cache * bool :=
  match wc_entries c !! we_ID entry with
  | Some current => if Nat.eqb (we_seq current) (we_seq entry) then (drop_entry entry c, true) else (c, false)
  | None => (c, false)
  end.

Definition CloseCache (c : Cache) : Cache := c <| wc_closed := true |>.

(** [Victim]: the loop over the copies. *)
Definition longer_idle (a b : warmEntry) : bool :=
  (we_since a <? we_since b)%Z || ((we_since a =? we_since b)%Z && (we_seq a <? we_seq b)%nat).

Definition pick_victim (busy : string -> bool) (victim : option warmEntry) (entry : warmEntry) : option warmEntry :=
  if busy (we_ID entry) then victim
  else match victim with None => Some entry | Some v => if longer_idle entry v then Some entry else victim end.

Definition Victim (busy : string -> bool) (c : Cache) : option warmEntry := foldl (pick_victim busy) None (Entries c).

(** [Idle]. *)
Definition Idle (busy : string -> bool) (c : Cache) : nat := size (filter (fun p => busy p.1 = false) (wc_entries c)).

(** ** What the cache keeps *)

(** An Entry is under its Session, and its number is its own. *)
Record cache_ok (c : Cache) : Prop := {
  ck_id id entry : wc_entries c !! id = Some entry -> we_ID entry = id;
  ck_seq id entry : wc_entries c !! id = Some entry -> (we_seq entry <= wc_seq c)%nat;
  ck_one id1 id2 e1 e2 : wc_entries c !! id1 = Some e1 -> wc_entries c !! id2 = Some e2 -> we_seq e1 = we_seq e2 -> id1 = id2;
}.

Lemma newCache_ok : cache_ok newCache.
Proof. split; cbn; intros *; by rewrite lookup_empty. Qed.

Lemma Put_ok id agent now c : cache_ok c -> cache_ok (Put id agent now c).1.
Proof.
  intros [Hid Hseq Hone]. unfold Put. destruct (wc_closed c); [done|]. split; cbn.
  - intros id' entry [[<- <-]|[Hne Hl]]%lookup_insert_Some; [done|by apply Hid].
  - intros id' entry [[<- <-]|[Hne Hl]]%lookup_insert_Some; [done|]. apply Hseq in Hl. lia.
  - intros id1 id2 e1 e2 [[<- <-]|[H1 L1]]%lookup_insert_Some [[<- <-]|[H2 L2]]%lookup_insert_Some Hs; cbn in *; [done| | |by eapply Hone].
    + apply Hseq in L2. lia.
    + apply Hseq in L1. lia.
Qed.

Lemma drop_ok entry c : cache_ok c -> cache_ok (drop_entry entry c).
Proof.
  intros [Hid Hseq Hone]. split; cbn.
  - intros id' e [_ Hl]%lookup_delete_Some. by apply Hid.
  - intros id' e [_ Hl]%lookup_delete_Some. by eapply Hseq.
  - intros id1 id2 e1 e2 [_ L1]%lookup_delete_Some [_ L2]%lookup_delete_Some. by eapply Hone.
Qed.

Lemma in_entries entry c : entry ∈ Entries c <-> exists id, wc_entries c !! id = Some entry.
Proof.
  unfold Entries. rewrite list_elem_of_fmap. split.
  - intros ([id e] & -> & Hin). exists id. by apply elem_of_map_to_list.
  - intros [id Hl]. exists (id, entry). split; [done|]. by apply elem_of_map_to_list.
Qed.

(** The order of eviction is strict and total on Entries of different numbers. *)
Lemma longer_idle_trans a b c : longer_idle a b = true -> longer_idle b c = true -> longer_idle a c = true.
Proof. unfold longer_idle. rewrite !orb_true_iff, !andb_true_iff, !Z.ltb_lt, !Z.eqb_eq, !Nat.ltb_lt. lia. Qed.

Lemma longer_idle_not a b : longer_idle a b = false -> we_seq a <> we_seq b -> longer_idle b a = true.
Proof.
  unfold longer_idle. intros Hf Hne. apply orb_false_iff in Hf as [Ht Hs%andb_false_iff]. apply Z.ltb_ge in Ht.
  rewrite orb_true_iff, andb_true_iff, Z.ltb_lt, Z.eqb_eq, Nat.ltb_lt. rewrite Z.eqb_neq, Nat.ltb_ge in Hs. lia.
Qed.

(** What the loop has found among the copies it has seen. *)
Lemma pick_victim_best busy l v :
  match foldl (pick_victim busy) v l with
  | Some best => (v = Some best \/ best ∈ l /\ busy (we_ID best) = false) /\
      (forall e, e ∈ l -> busy (we_ID e) = false -> e = best \/ longer_idle e best = false) /\
      (forall v', v = Some v' -> v' = best \/ longer_idle v' best = false)
  | None => v = None /\ forall e, e ∈ l -> busy (we_ID e) = true
  end.
Proof.
  revert v. induction l as [|e l IH]; intros v; cbn [foldl].
  { destruct v; [|by split; [|intros e He%not_elem_of_nil]]. split; [by left|]. split; [by intros e He%not_elem_of_nil|]. intros v' [= <-]. by left. }
  specialize (IH (pick_victim busy v e)). destruct (foldl _ _ l) as [best|].
  - destruct IH as (Hfrom & Hall & Hv). split; [|split].
    + destruct Hfrom as [Hp|[Hin Hb]]; [|right; split; [by right|done]]. unfold pick_victim in Hp. destruct (busy (we_ID e)) eqn:Eb; [by left|].
      destruct v as [v|]; [destruct (longer_idle e v)|]; [injection Hp as <-; right; split; [by left|done]|by left|injection Hp as <-; right; split; [by left|done]].
    + intros x [->|Hx]%elem_of_cons Hb; [|by apply Hall]. unfold pick_victim in Hv. rewrite Hb in Hv.
      destruct v as [v|]; [|by apply Hv]. destruct (longer_idle e v) eqn:El; [by apply Hv|]. destruct (Hv v eq_refl) as [->|Hn]; [by right|].
      right. destruct (longer_idle e best) eqn:Ee; [|done]. exfalso. unfold longer_idle in *.
      rewrite !orb_false_iff, !andb_false_iff, !Z.ltb_ge, !Z.eqb_neq, !Nat.ltb_ge in El, Hn. rewrite orb_true_iff, andb_true_iff, Z.ltb_lt, Z.eqb_eq, Nat.ltb_lt in Ee. lia.
    + intros v' ->. unfold pick_victim in Hv. destruct (busy (we_ID e)); [by apply Hv|]. destruct (longer_idle e v') eqn:El; [|by apply Hv].
      destruct (Hv e eq_refl) as [<-|Hn].
      * right. destruct (longer_idle v' e) eqn:Ee; [|done]. pose proof (longer_idle_trans _ _ _ El Ee) as Hx. unfold longer_idle in Hx.
        rewrite Z.ltb_irrefl, Nat.ltb_irrefl, andb_false_r in Hx. done.
      * right. destruct (longer_idle v' best) eqn:Ee; [|done]. by rewrite (longer_idle_trans _ _ _ El Ee) in Hn.
  - destruct IH as [Hp Hall]. unfold pick_victim in Hp. destruct (busy (we_ID e)) eqn:Eb.
    + split; [done|]. intros x [->|Hx]%elem_of_cons; [done|by apply Hall].
    + destruct v as [v|]; [by destruct (longer_idle e v)|done].
Qed.

(** [Victim] is the copy without a Run that is idle longest. *)
Lemma Victim_longest busy c :
  cache_ok c ->
  match Victim busy c with
  | Some v => wc_entries c !! we_ID v = Some v /\ busy (we_ID v) = false /\
      forall e, e ∈ Entries c -> busy (we_ID e) = false -> e = v \/ longer_idle v e = true
  | None => forall e, e ∈ Entries c -> busy (we_ID e) = true
  end.
Proof.
  intros Hok. unfold Victim. pose proof (pick_victim_best busy (Entries c) None) as Hp. destruct (foldl _ _ _) as [v|]; [|by destruct Hp].
  destruct Hp as ([?|[Hin Hb]] & Hall & _); [done|]. apply in_entries in Hin as [id Hl]. rewrite (ck_id _ Hok _ _ Hl). split; [done|].
  split; [by rewrite <- (ck_id _ Hok _ _ Hl)|]. intros e He Hbe. destruct (Hall e He Hbe) as [?|Hn]; [by left|].
  destruct (decide (we_seq e = we_seq v)) as [Hs|Hs]; [|right; by apply longer_idle_not].
  apply in_entries in He as [id' Hl']. left. pose proof (ck_one _ Hok _ _ _ _ Hl' Hl Hs) as ->. congruence.
Qed.

Lemma Victim_none busy c : cache_ok c -> Victim busy c = None <-> Idle busy c = 0%nat.
Proof.
  intros Hok. pose proof (Victim_longest busy c Hok) as Hv. unfold Idle. rewrite map_size_empty_iff. split.
  - intros E. rewrite E in Hv. apply map_empty. intros id. apply map_lookup_filter_None. right. intros e He Hb. cbn in Hb.
    rewrite <- (ck_id _ Hok _ _ He) in Hb. rewrite Hv in Hb; [done|]. apply in_entries. by exists id.
  - intros E. destruct (Victim busy c) as [v|]; [|done]. destruct Hv as (Hl & Hb & _). exfalso.
    apply (f_equal (fun m => m !! we_ID v)) in E. rewrite lookup_empty in E. apply map_lookup_filter_None in E as [?|Hn]; [congruence|]. by eapply Hn.
Qed.

(** ** Holds and idle compactions

    The lock of an Entry: a caller that is about to use the Session cancels an idle compaction,
    waits for it, and keeps others away. *)

(** [holds], [idle] (the number of the compaction) and [dead] of an Entry. *)
Record guardState := MkGuard { gd_holds : nat; gd_idle : option nat; gd_dead : bool }.

(** [Hold], its critical section: the compaction that goes on. *)
Definition Hold (g : guardState) : guardState * option nat := (MkGuard (S (gd_holds g)) (gd_idle g) (gd_dead g), gd_idle g).
Definition unhold (g : guardState) : guardState := MkGuard (pred (gd_holds g)) (gd_idle g) (gd_dead g).

(** [BeginIdle], with the number of a new compaction, and the end of one. *)
Definition BeginIdle (run : nat) (g : guardState) : guardState * bool :=
  if (0 <? gd_holds g)%nat || gd_dead g || bool_decide (is_Some (gd_idle g)) then (g, false)
  else (MkGuard (gd_holds g) (Some run) (gd_dead g), true).
Definition end_idle (g : guardState) : guardState := MkGuard (gd_holds g) None (gd_dead g).

(** Where a caller is: it has counted itself and found a compaction to cancel, it waits for one it
    has canceled, or it holds the Entry. *)
Inductive holder : Type := Arrived (run : nat) | Waiting (run : nat) | Holding.

(** The Entry; its callers; the compactions whose context was canceled, those that go on or have
    ended without having said so, and those that said so. *)
Record entrySystem := MkEntrySystem {
  es_guard : guardState;
  es_holders : gmap nat holder;
  es_canceled : gset nat;
  es_ending : gset nat;
  es_done : gset nat;
  es_next : nat;
}.

Definition entry_start : entrySystem := MkEntrySystem (MkGuard 0 None false) ∅ ∅ ∅ ∅ 0.

(** One critical section, or one operation on a channel or context. *)
Inductive entry_step : entrySystem -> entrySystem -> Prop :=
| es_hold c g hs cs es ds n : hs !! c = None ->
    entry_step (MkEntrySystem g hs cs es ds n)
      (MkEntrySystem (Hold g).1 (<[c := match (Hold g).2 with Some run => Arrived run | None => Holding end]> hs) cs es ds n)
| es_hold_cancel c run g hs cs es ds n : hs !! c = Some (Arrived run) ->
    entry_step (MkEntrySystem g hs cs es ds n) (MkEntrySystem g (<[c := Waiting run]> hs) ({[run]} ∪ cs) es ds n)
| es_wait c run g hs cs es ds n : hs !! c = Some (Waiting run) -> run ∈ ds ->
    entry_step (MkEntrySystem g hs cs es ds n) (MkEntrySystem g (<[c := Holding]> hs) cs es ds n)
| es_give_up c run g hs cs es ds n : hs !! c = Some (Waiting run) ->
    entry_step (MkEntrySystem g hs cs es ds n) (MkEntrySystem (unhold g) (delete c hs) cs es ds n)
| es_unhold c g hs cs es ds n : hs !! c = Some Holding ->
    entry_step (MkEntrySystem g hs cs es ds n) (MkEntrySystem (unhold g) (delete c hs) cs es ds n)
| es_cancel run g hs cs es ds n : gd_idle g = Some run ->
    entry_step (MkEntrySystem g hs cs es ds n) (MkEntrySystem g hs ({[run]} ∪ cs) es ds n)
| es_begin g hs cs es ds n :
    entry_step (MkEntrySystem g hs cs es ds n) (MkEntrySystem (BeginIdle n g).1 hs cs es ds (S n))
| es_end run g hs cs es ds n : gd_idle g = Some run ->
    entry_step (MkEntrySystem g hs cs es ds n) (MkEntrySystem (end_idle g) hs cs ({[run]} ∪ es) ds n)
| es_ended run g hs cs es ds n : run ∈ es ->
    entry_step (MkEntrySystem g hs cs es ds n) (MkEntrySystem g hs ({[run]} ∪ cs) (es ∖ {[run]}) ({[run]} ∪ ds) n)
| es_drop g hs cs es ds n :
    entry_step (MkEntrySystem g hs cs es ds n) (MkEntrySystem (MkGuard (gd_holds g) (gd_idle g) true) hs cs es ds n).

Definition entry_reach (s : entrySystem) : Prop := rtc entry_step entry_start s.

Lemma entry_next s s'' s' s3 : entry_step s s' -> s' = s'' -> rtc entry_step s'' s3 -> rtc entry_step s s3.
Proof. intros Hs <- Hr. by eapply rtc_l. Qed.

Record entry_inv (s : entrySystem) : Prop := {
  ei_holds : gd_holds (es_guard s) = size (es_holders s);
  ei_arrived c run : es_holders s !! c = Some (Arrived run) -> gd_idle (es_guard s) = None \/ gd_idle (es_guard s) = Some run;
  ei_waiting c run : es_holders s !! c = Some (Waiting run) -> run ∈ es_canceled s /\ (gd_idle (es_guard s) = None \/ gd_idle (es_guard s) = Some run);
  ei_holding c : es_holders s !! c = Some Holding -> gd_idle (es_guard s) = None;
  ei_done run : run ∈ es_done s \/ run ∈ es_ending s -> gd_idle (es_guard s) <> Some run /\ (run < es_next s)%nat;
  ei_idle run : gd_idle (es_guard s) = Some run -> (run < es_next s)%nat;
}.

Ltac idle_cases := repeat match goal with
  | H : _ ∈ {[_]} ∪ _ |- _ => apply elem_of_union in H as [H%elem_of_singleton|H]
  | H : _ ∈ _ ∖ _ |- _ => apply elem_of_difference in H as [H _]
  end.

Lemma entry_step_inv s s' : entry_step s s' -> entry_inv s -> entry_inv s'.
Proof.
  intros Hs [I1 IA I2 I3 I4 I5].
  destruct Hs as [c g hs cs es ds n Hc|c run g hs cs es ds n Hc|c run g hs cs es ds n Hc Hd|c run g hs cs es ds n Hc|c g hs cs es ds n Hc|run g hs cs es ds n Hr|g hs cs es ds n|run g hs cs es ds n Hr|run g hs cs es ds n Hr|g hs cs es ds n];
    cbn [es_guard es_holders es_canceled es_ending es_done es_next] in *.
  - split; cbn; [by rewrite map_size_insert_None, I1|intros c' r|intros c' r|intros c'|done|done]; intros [[<- He]|[Hne Hl]]%lookup_insert_Some.
    + destruct (gd_idle g) as [r0|]; [|done]. injection He as ->. by right.
    + by eapply IA.
    + by destruct (gd_idle g).
    + by eapply I2.
    + by destruct (gd_idle g).
    + by eapply I3.
  - split; cbn; [rewrite map_size_insert_Some; [done|by eexists]|intros c' r|intros c' r|intros c'|done|done]; intros [[<- He]|[Hne Hl]]%lookup_insert_Some; try done.
    + by eapply IA.
    + injection He as <-. split; [set_solver|by eapply IA].
    + destruct (I2 _ _ Hl). split; [set_solver|done].
    + by eapply I3.
  - split; cbn; [rewrite map_size_insert_Some; [done|by eexists]|intros c' r|intros c' r|intros c'|done|done]; intros [[<- He]|[Hne Hl]]%lookup_insert_Some; try done.
    + by eapply IA.
    + by eapply I2.
    + destruct (I2 _ _ Hc) as [_ [?|Hi]]; [done|]. destruct (I4 run) as [Hn _]; [by left|done].
    + by eapply I3.
  - split; cbn; [by rewrite map_size_delete_Some, I1|intros c' r [_ Hl]%lookup_delete_Some; by eapply IA|intros c' r [_ Hl]%lookup_delete_Some; by eapply I2|intros c' [_ Hl]%lookup_delete_Some; by eapply I3|done|done].
  - split; cbn; [by rewrite map_size_delete_Some, I1|intros c' r [_ Hl]%lookup_delete_Some; by eapply IA|intros c' r [_ Hl]%lookup_delete_Some; by eapply I2|intros c' [_ Hl]%lookup_delete_Some; by eapply I3|done|done].
  - split; cbn; [done|done|intros c' r Hl; destruct (I2 _ _ Hl); split; [set_solver|done]|done..].
  - unfold BeginIdle. destruct ((0 <? gd_holds g)%nat || gd_dead g || bool_decide (is_Some (gd_idle g))) eqn:Eb; cbn [fst].
    + split; cbn; [done..|intros r Hr; destruct (I4 r Hr); split; [done|lia]|intros r Hr; specialize (I5 r Hr); lia].
    + apply orb_false_iff in Eb as [[Hh _]%orb_false_iff _]. apply Nat.ltb_ge in Hh. assert (Hempty : hs = ∅) by (apply map_size_empty_iff; lia). subst hs.
      split; cbn; [done|by intros c r; rewrite lookup_empty|by intros c r; rewrite lookup_empty|by intros c; rewrite lookup_empty| |intros r [= <-]; lia].
      intros r Hr. destruct (I4 r Hr) as [_ Hlt]. split; [intros [= ->]; lia|lia].
  - split; cbn; [done|intros c r Hl; by left|intros c r Hl; destruct (I2 _ _ Hl); split; [done|by left]|done| |done].
    intros r Hr'; destruct Hr'; idle_cases; subst; (split; [done|]); [apply I4; by left|by apply I5|apply I4; by right].
  - split; cbn; [done|done|intros c r Hl; destruct (I2 _ _ Hl); split; [set_solver|done]|done| |done].
    intros r Hr'; destruct Hr'; idle_cases; subst; apply I4; by (left + right).
  - by split; cbn.
Qed.

(** A caller that holds the copy of an idle Session never finds it compacting: from the moment its
    hold is granted until it lets go, no idle compaction of the Session goes on and none starts,
    however holds, cancellations, compactions and callers that give up interleave; and while a
    caller still waits, the compaction it waits for has been canceled, and no other starts. *)
Theorem held_session_never_compacts s s' c :
  entry_reach s -> entry_step s s' ->
  (es_holders s !! c = Some Holding -> gd_idle (es_guard s) = None) /\
  (forall run, es_holders s !! c = Some (Waiting run) -> run ∈ es_canceled s /\ (gd_idle (es_guard s) = None \/ gd_idle (es_guard s) = Some run)) /\
  (es_holders s !! c <> None -> forall run, gd_idle (es_guard s') = Some run -> gd_idle (es_guard s) = Some run).
Proof.
  intros Hr Hs. assert (Hi : entry_inv s).
  { unfold entry_reach in Hr. remember entry_start as s0 eqn:E. assert (H0 : entry_inv s0).
    { subst. split; cbn; [done|by intros c' r; rewrite lookup_empty|by intros c' r; rewrite lookup_empty|by intros c'; rewrite lookup_empty|set_solver|done]. }
    clear E Hs. induction Hr as [|s0 s1 s2 Hst _ IH]; [done|]. by eapply IH, entry_step_inv. }
  destruct Hi as [I1 IA I2 I3 I4 I5]. split; [by apply I3|]. split; [by apply I2|].
  intros Hc run. destruct Hs; cbn in *; try done. unfold BeginIdle. destruct (Nat.ltb_spec 0 (gd_holds g)) as [|Hz]; [done|].
  exfalso. apply Hc. assert (hs = ∅) as -> by (apply map_size_empty_iff; lia). by rewrite lookup_empty.
Qed.

(** ** Samples *)

(** A caller that comes while the Session is compacted. *)
Definition sample_idle : guardState := MkGuard 0 (Some 0%nat) false.
Definition sample_caught : guardState := MkGuard 1 (Some 0%nat) false.
Definition sample_held : guardState := MkGuard 1 None false.
Definition sample_holding : entrySystem := MkEntrySystem sample_held {[0%nat := Holding]} {[0%nat]} ∅ {[0%nat]} 1.

Lemma held_session_never_compacts_witness :
  exists s', entry_reach sample_holding /\ entry_step sample_holding s' /\
    es_holders sample_holding !! 0%nat = Some Holding /\ gd_idle (es_guard sample_holding) = None.
Proof.
  assert (Hr : entry_reach sample_holding).
  { eapply rtc_l; [apply (es_begin (MkGuard 0 None false) ∅ ∅ ∅ ∅ 0)|].
    eapply (entry_next _ (MkEntrySystem sample_caught {[0%nat := Arrived 0]} ∅ ∅ ∅ 1)); [apply (es_hold 0 sample_idle); done|by vm_compute|].
    eapply (entry_next _ (MkEntrySystem sample_caught {[0%nat := Waiting 0]} {[0%nat]} ∅ ∅ 1)); [by apply (es_hold_cancel 0 0)|by vm_compute|].
    eapply (entry_next _ (MkEntrySystem sample_held {[0%nat := Waiting 0]} {[0%nat]} {[0%nat]} ∅ 1)); [by apply (es_end 0 sample_caught)|by vm_compute|].
    eapply (entry_next _ (MkEntrySystem sample_held {[0%nat := Waiting 0]} {[0%nat]} ∅ {[0%nat]} 1)); [apply (es_ended 0); set_solver|by vm_compute|].
    eapply (entry_next _ sample_holding); [apply (es_wait 0 0); [done|set_solver]|by vm_compute|apply rtc_refl]. }
  assert (Hs : entry_step sample_holding (MkEntrySystem sample_held {[0%nat := Holding]} {[0%nat]} ∅ {[0%nat]} 2)) by apply (es_begin sample_held).
  eexists. split; [exact Hr|]. split; [exact Hs|]. split; [done|]. by apply (held_session_never_compacts _ _ 0 Hr Hs).
Defined.
