(* ===== verification/RunTable.v ===== *)
(** * The table of the Runs an Instance has admitted

    [host/internal/runs/runs.go]: which Sessions the Runs are on, how many there are, the bound on
    the Sessions in memory, and the wait of a drain.  A handle is its number.  Each exported method
    is one critical section of the table's lock, and so one definition; the goroutine of a drain
    goes through it in steps. *)

From stdpp Require Import fin_sets.
From S2P Require Import Prelude Warm.
Local Open Scope string_scope.
Local Open Scope list_scope.

(** ** Data *)

(** What the goroutine of [Drain] is at: it is about to look at the counts, it waits on the
    condition, it has seen both at zero, or it has closed the channel. *)
Inductive waiter : Type := Looking | Asleep | Passed | Reported.

(** [drained] is there from the first [Drain] on, and holds where its goroutine is. *)
Record Table := MkTable {
  rt_handles : gmap string (list nat);
  rt_inflight : Z;
  rt_locked : Z;
  rt_draining : bool;
  rt_drained : option waiter;
}.
#[export] Instance eta_Table : Eta Table := fun r => MkTable (rt_handles r) (rt_inflight r) (rt_locked r) (rt_draining r) (rt_drained r).

Definition newTable : Table := MkTable ∅ 0 0 false None.

Record Counts := MkCounts { ct_ActiveRuns : Z; ct_ActiveSessions : Z; ct_WarmSessions : Z }.

(** A bound of the memory, and the cache, which may be nil. *)
Record Memory := MkMemory { mm_MaxSessions : Z; mm_Cache : option Cache }.

Inductive runsError : Type := runs_ErrDraining | runs_ErrOverloaded.

(** ** Operations *)

Definition handles_of (id : string) (t : Table) : list nat := default [] (rt_handles t !! id).

Definition busy (t : Table) (id : string) : bool := (0 <? Z.of_nat (length (handles_of id t)))%Z.

Definition activeLocked (t : Table) : Z :=
  let n := Z.of_nat (size (rt_handles t)) in
  let fresh := Z.of_nat (length (handles_of "" t)) in
  if (1 <? fresh)%Z then n + (fresh - 1) else n.

Definition liveLocked (cache : option Cache) (t : Table) : Z :=
  activeLocked t + match cache with Some c => Z.of_nat (Idle (busy t) c) | None => 0 end.

(** How a pass of admission ends; a nil cache under a bound panics. *)
Inductive admitted (R E : Type) : Type :=
| AdmitEvict (victim : warmEntry)
| AdmitRefused (err : runsError)
| AdmitDenied (err : E)
| AdmitDone (release : option R)
| AdmitNilCache.
Arguments AdmitEvict {R E} victim.
Arguments AdmitRefused {R E} err.
Arguments AdmitDenied {R E} err.
Arguments AdmitDone {R E} release.
Arguments AdmitNilCache {R E}.

Definition register (h : nat) (id : string) (t : Table) : Table :=
  t <| rt_inflight := (rt_inflight t + 1)%Z |> <| rt_handles := <[id := handles_of id t ++ [h]]> (rt_handles t) |>.

(** Whether a Run on [id] would activate a Session. *)
Definition activates (id : string) (c : Cache) (t : Table) : bool :=
  String.eqb id "" || ((length (handles_of id t) =? 0)%nat && negb (bool_decide (is_Some (Get id c)))).

(** The bound: [None] lets the Run through. *)
Definition memory_bound {R E} (id : string) (mem : Memory) (t : Table) : option (admitted R E) :=
  if (0 <? mm_MaxSessions mem)%Z then
    match mm_Cache mem with
    | None => Some AdmitNilCache
    | Some c =>
      if activates id c t && (mm_MaxSessions mem <=? liveLocked (mm_Cache mem) t)%Z
      then Some (match Victim (busy t) c with None => AdmitRefused runs_ErrOverloaded | Some victim => AdmitEvict victim end)
      else None
    end
  else None.

Definition counts_of (mem : Memory) (t : Table) : Counts :=
  MkCounts (rt_inflight t) (activeLocked t) (match mm_Cache mem with Some c => Z.of_nat (Len c) | None => 0 end).

(** [Admit], with the decision of the Admitter, which may be nil. *)
Definition Admit {R E} (h : nat) (id : string) (mem : Memory) (decide : option (Counts -> option R + E)) (t : Table) : Table * admitted R E :=
  if rt_draining t then (t, AdmitRefused runs_ErrDraining)
  else match memory_bound id mem t with
  | Some refused => (t, refused)
  | None =>
    match decide with
    | None => (register h id t, AdmitDone None)
    | Some policy =>
      match policy (counts_of mem t) with
      | inr err => (t, AdmitDenied err)
      | inl release => (register h id t, AdmitDone release)
      end
    end
  end.

(** [Victim]: the copy to evict when there are more than [limit]. *)
Definition TrimVictim (c : Cache) (limit : Z) (t : Table) : option warmEntry :=
  if (limit <? 0)%Z then None
  else if (Z.of_nat (Len c) <=? limit)%Z then None
  else Victim (busy t) c.

(** [idle.Broadcast()]. *)
Definition broadcast (t : Table) : Table :=
  match rt_drained t with Some Asleep => t <| rt_drained := Some Looking |> | _ => t end.

Definition Done (t : Table) : Table :=
  let t := t <| rt_inflight := (rt_inflight t - 1)%Z |> in
  if (rt_inflight t =? 0)%Z then broadcast t else t.

(** [Locked], and the func it returns. *)
Definition Locked (t : Table) : Table := t <| rt_locked := (rt_locked t + 1)%Z |>.
Definition Unlocked (t : Table) : Table :=
  let t := t <| rt_locked := (rt_locked t - 1)%Z |> in
  if (rt_locked t =? 0)%Z then broadcast t else t.

Definition Of (id : string) (t : Table) : list nat := handles_of id t.
Definition All (t : Table) : list nat := concat ((map_to_list (rt_handles t)).*2).

(** The first of a list that is [h] goes. *)
Fixpoint remove_first (h : nat) (l : list nat) : list nat :=
  match l with [] => [] | candidate :: l => if Nat.eqb candidate h then l else candidate :: remove_first h l end.

Definition removeLocked (h : nat) (id : string) (t : Table) : Table :=
  match remove_first h (handles_of id t) with
  | [] => t <| rt_handles := delete id (rt_handles t) |>
  | rest => t <| rt_handles := <[id := rest]> (rt_handles t) |>
  end.

Definition Move (h : nat) (from to : string) (t : Table) : Table :=
  if String.eqb from to then t
  else let t := removeLocked h from t in t <| rt_handles := <[to := handles_of to t ++ [h]]> (rt_handles t) |>.

Definition RemoveRun (h : nat) (id : string) (t : Table) : Table := removeLocked h id t.

(** [Drain]: whether it was the first. *)
Definition Drain (t : Table) : Table * bool :=
  let t := t <| rt_draining := true |> in
  match rt_drained t with
  | Some _ => (t, false)
  | None => (t <| rt_drained := Some Looking |>, true)
  end.

(** The goroutine of a drain: the test of its loop, [idle.Wait()], which lets the lock go in the
    same step, and [close(drained)] after the lock. *)
Definition wait_step (t : Table) : Table :=
  match rt_drained t with
  | Some Looking => t <| rt_drained := Some (if (0 <? rt_inflight t)%Z || (0 <? rt_locked t)%Z then Asleep else Passed) |>
  | Some Passed => t <| rt_drained := Some Reported |>
  | _ => t
  end.

(** ** What a table counts *)

(** A Session is listed only with Runs. *)
Definition table_ok (t : Table) : Prop := forall id l, rt_handles t !! id = Some l -> l <> [].

(** The Sessions that Runs are on or that idle in the cache, those that have a name. *)
Definition kept (t : Table) (c : Cache) : gset string := (dom (rt_handles t) ∪ dom (wc_entries c)) ∖ {[""]}.

Lemma handles_of_lookup id t l : rt_handles t !! id = Some l -> handles_of id t = l.
Proof. intros E. unfold handles_of. by rewrite E. Qed.

Lemma busy_in_table t id : table_ok t -> busy t id = true <-> id ∈ dom (rt_handles t).
Proof.
  intros Hok. unfold busy. rewrite Z.ltb_lt, elem_of_dom. destruct (rt_handles t !! id) as [l|] eqn:E.
  - rewrite (handles_of_lookup _ _ _ E). specialize (Hok _ _ E). destruct l; [done|]. cbn. split; [by eexists|lia].
  - unfold handles_of. rewrite E. cbn. split; [lia|intros [? ?]; done].
Qed.

Lemma active_counts t : table_ok t -> activeLocked t = (Z.of_nat (size (dom (rt_handles t) ∖ {[""]})) + Z.of_nat (length (handles_of "" t)))%Z.
Proof.
  intros Hok. rewrite <- dom_delete_L, size_dom. unfold activeLocked. cbv zeta. destruct (rt_handles t !! "") as [l|] eqn:E.
  - rewrite (handles_of_lookup _ _ _ E). specialize (Hok _ _ E). rewrite (map_size_delete_Some _ _ (mk_is_Some _ _ E)).
    assert (0 < size (rt_handles t))%nat by (destruct (size (rt_handles t)) eqn:Es; [apply map_size_empty_inv in Es; by rewrite Es, lookup_empty in E|lia]).
    destruct (Z.ltb_spec 1 (Z.of_nat (length l))); [lia|]. destruct l as [|? [|? ?]]; cbn in *; [done|lia|lia].
  - rewrite map_size_delete_None by done. assert (handles_of "" t = []) as -> by (unfold handles_of; by rewrite E). change (Z.of_nat (length (@nil nat))) with 0%Z. change (1 <? 0)%Z with false. lia.
Qed.

Lemma idle_counts t c : table_ok t -> Idle (busy t) c = size (dom (wc_entries c) ∖ dom (rt_handles t)).
Proof.
  intros Hok. unfold Idle. rewrite <- size_dom. f_equal. apply set_eq. intros id.
  rewrite elem_of_difference, <- (busy_in_table t id Hok), !elem_of_dom. split.
  - intros [e [He Hb]%map_lookup_filter_Some]. cbn in Hb. split; [by eexists|by rewrite Hb].
  - intros [[e He] Hb]. exists e. apply map_lookup_filter_Some. split; [done|]. cbn. by destruct (busy t id).
Qed.

(** What the table counts is the Sessions in memory, and one for each Run that has none yet. *)
Lemma live_counts t c :
  table_ok t -> wc_entries c !! "" = None ->
  liveLocked (Some c) t = (Z.of_nat (size (kept t c)) + Z.of_nat (length (handles_of "" t)))%Z.
Proof.
  intros Hok Hc. unfold liveLocked. rewrite (active_counts t Hok), (idle_counts t c Hok).
  replace (kept t c) with ((dom (rt_handles t) ∖ {[""]}) ∪ (dom (wc_entries c) ∖ dom (rt_handles t))).
  - assert (Hd : dom (rt_handles t) ∖ {[""]} ## dom (wc_entries c) ∖ dom (rt_handles t)) by set_solver.
    rewrite (size_union _ _ Hd). lia.
  - apply not_elem_of_dom in Hc. apply set_eq. intros id. unfold kept. rewrite !elem_of_union, !elem_of_difference, elem_of_union, elem_of_singleton.
    destruct (decide (id = "")) as [->|Hne]; [tauto|]. destruct (decide (id ∈ dom (rt_handles t))); tauto.
Qed.

(** ** What an operation does to the lists *)

Lemma remove_first_spec h x l : NoDup l -> x ∈ remove_first h l <-> x ∈ l /\ x <> h.
Proof.
  induction l as [|y l IH]; cbn; [set_solver|]. intros [Hy Hnd]%list.NoDup_cons. destruct (Nat.eqb_spec y h) as [->|Hne]; [set_solver|].
  rewrite !elem_of_cons, IH by done. set_solver.
Qed.

Lemma remove_first_nodup h l : NoDup l -> NoDup (remove_first h l).
Proof.
  induction l as [|y l IH]; cbn; [done|]. intros [Hy Hnd]%list.NoDup_cons. destruct (Nat.eqb_spec y h) as [->|Hne]; [done|].
  apply list.NoDup_cons. split; [|by apply IH]. rewrite remove_first_spec by done. tauto.
Qed.

Lemma remove_first_length h l : h ∈ l -> S (length (remove_first h l)) = length l.
Proof.
  induction l as [|y l IH]; cbn; [by intros ?%not_elem_of_nil|]. destruct (Nat.eqb_spec y h) as [->|Hne]; [done|].
  intros [->|Hin]%elem_of_cons; [done|]. cbn. by rewrite IH.
Qed.

Lemma handles_removed h id id' t : handles_of id' (removeLocked h id t) = if String.eqb id' id then remove_first h (handles_of id t) else handles_of id' t.
Proof.
  unfold removeLocked. destruct (String.eqb_spec id' id) as [->|Hne].
  - destruct (remove_first h _) eqn:E; unfold handles_of at 1; cbn; [by rewrite lookup_delete_eq|by rewrite lookup_insert_eq].
  - destruct (remove_first h _); unfold handles_of; cbn; [by rewrite lookup_delete_ne by congruence|by rewrite lookup_insert_ne by congruence].
Qed.

Lemma handles_registered h id id' t : handles_of id' (register h id t) = if String.eqb id' id then handles_of id t ++ [h] else handles_of id' t.
Proof.
  unfold register, handles_of at 1. cbn. destruct (String.eqb_spec id' id) as [->|Hne]; [by rewrite lookup_insert_eq|by rewrite lookup_insert_ne by congruence].
Qed.

Lemma handles_moved h from to id t : from <> to ->
  handles_of id (Move h from to t) = if String.eqb id to then handles_of to t ++ [h] else if String.eqb id from then remove_first h (handles_of from t) else handles_of id t.
Proof.
  intros Hne. unfold Move. destruct (String.eqb_spec from to) as [|_]; [done|]. unfold handles_of at 1. cbn.
  destruct (String.eqb_spec id to) as [->|Hto].
  - rewrite lookup_insert_eq. cbn. rewrite handles_removed. destruct (String.eqb_spec to from); [congruence|done].
  - rewrite lookup_insert_ne by congruence. apply handles_removed.
Qed.

Lemma removed_ok h id t : table_ok t -> table_ok (removeLocked h id t).
Proof.
  intros Hok. unfold removeLocked. destruct (remove_first h _) eqn:E; intros id' rest; cbn.
  - intros [_ Hl]%lookup_delete_Some. by eapply Hok.
  - intros [[_ <-]|[_ Hl]]%lookup_insert_Some; [done|by eapply Hok].
Qed.

Lemma registered_ok h id t : table_ok t -> table_ok (register h id t).
Proof. intros Hok id' l. cbn. intros [[_ <-]|[_ Hl]]%lookup_insert_Some; [by destruct (handles_of id t)|by eapply Hok]. Qed.

Lemma moved_ok h from to t : table_ok t -> table_ok (Move h from to t).
Proof.
  intros Hok. unfold Move. destruct (String.eqb from to); [done|]. intros id' l. cbn.
  intros [[_ <-]|[_ Hl]]%lookup_insert_Some; [by destruct (handles_of _ _)|by eapply (removed_ok h from t Hok)].
Qed.

Lemma in_table t id : table_ok t -> id ∈ dom (rt_handles t) <-> handles_of id t <> [].
Proof.
  intros Hok. rewrite <- (busy_in_table t id Hok). unfold busy. rewrite Z.ltb_lt. destruct (handles_of id t); cbn; split; [lia|done|done|lia].
Qed.

(** ** The bound on the Sessions in memory *)

Lemma size_one_more (x : string) (X Y : gset string) : X ⊆ {[x]} ∪ Y -> (size X <= 1 + size Y)%nat.
Proof.
  intros Hsub. rewrite <- (size_singleton (C := gset string) x). transitivity (size ({[x]} ∪ Y)); [by apply subseteq_size|].
  rewrite size_union_alt. assert (size (Y ∖ {[x]}) <= size Y)%nat by (apply subseteq_size; set_solver). lia.
Qed.

Section bound.
Context {R E : Type}.

(** A pass of admission that lets a Run in. *)
Lemma Admit_in h id L c (policy : option (Counts -> option R + E)) t t' release :
  Admit h id (MkMemory L (Some c)) policy t = (t', AdmitDone release) ->
  t' = register h id t /\ rt_draining t = false /\ ((0 < L)%Z -> activates id c t = false \/ (liveLocked (Some c) t < L)%Z).
Proof.
  unfold Admit. destruct (rt_draining t); [done|]. destruct (memory_bound id _ t) as [refused|] eqn:Eb.
  - intros [= _ ->]. unfold memory_bound in Eb. cbn [mm_MaxSessions mm_Cache] in Eb.
    destruct (0 <? L)%Z; [|done]. destruct (activates id c t && _); [|done]. by destruct (Victim _ _).
  - intros Hd. assert (t' = register h id t) as -> by (destruct policy as [p|]; [destruct (p _)|]; congruence). split; [done|]. split; [done|].
    intros HL. unfold memory_bound in Eb. cbn [mm_MaxSessions mm_Cache] in Eb. destruct (Z.ltb_spec 0 L); [|lia].
    destruct (activates id c t); [|by left]. right. cbn in Eb. destruct (Z.leb_spec L (liveLocked (Some c) t)); [done|lia].
Qed.

Lemma register_live h id L c t :
  table_ok t -> wc_entries c !! "" = None ->
  activates id c t = false \/ (liveLocked (Some c) t < L)%Z -> (liveLocked (Some c) t <= L)%Z ->
  (liveLocked (Some c) (register h id t) <= L)%Z.
Proof.
  intros Hok Hc Hb Hl. pose proof (registered_ok h id t Hok) as Hok'. revert Hb Hl. rewrite !live_counts by done.
  rewrite handles_registered. unfold kept. change (rt_handles (register h id t)) with (<[id := handles_of id t ++ [h]]> (rt_handles t)). rewrite dom_insert_L. unfold activates, Get.
  intros Hb Hl. destruct (String.eqb_spec "" id) as [<-|Hne].
  - rewrite String.eqb_refl in Hb. rewrite length_app. cbn [length]. destruct Hb as [?|Hb]; [done|].
    replace (({[""]} ∪ dom (rt_handles t) ∪ dom (wc_entries c)) ∖ {[""]}) with ((dom (rt_handles t) ∪ dom (wc_entries c)) ∖ {[""]}) by set_solver. lia.
  - destruct (String.eqb_spec id "") as [->|_]; [done|]. cbn [orb] in Hb. destruct Hb as [Hb|Hb].
    + assert (Hin : id ∈ dom (rt_handles t) ∪ dom (wc_entries c)).
      { apply andb_false_iff in Hb as [Hb|Hb]; rewrite elem_of_union.
        - left. apply (in_table t id Hok). by destruct (handles_of id t).
        - right. apply elem_of_dom. by destruct (bool_decide_reflect (is_Some (wc_entries c !! id))). }
      replace (({[id]} ∪ dom (rt_handles t) ∪ dom (wc_entries c)) ∖ {[""]}) with ((dom (rt_handles t) ∪ dom (wc_entries c)) ∖ {[""]}) by set_solver. lia.
    + assert (size (({[id]} ∪ dom (rt_handles t) ∪ dom (wc_entries c)) ∖ {[""]}) <= 1 + size ((dom (rt_handles t) ∪ dom (wc_entries c)) ∖ {[""]}))%nat; [|lia].
      apply size_one_more with id. set_solver.
Qed.

End bound.

Lemma live_fewer t t' c c' :
  table_ok t -> table_ok t' -> wc_entries c !! "" = None -> wc_entries c' !! "" = None ->
  kept t' c' ⊆ kept t c -> (length (handles_of "" t') <= length (handles_of "" t))%nat ->
  (liveLocked (Some c') t' <= liveLocked (Some c) t)%Z.
Proof. intros. rewrite !live_counts by done. assert (size (kept t' c') <= size (kept t c))%nat by by apply subseteq_size. lia. Qed.

Lemma kept_mono t t' c c' : dom (rt_handles t') ⊆ dom (rt_handles t) ∪ dom (wc_entries c) -> dom (wc_entries c') ⊆ dom (rt_handles t) ∪ dom (wc_entries c) -> kept t' c' ⊆ kept t c.
Proof. unfold kept. intros H1 H2 id. rewrite !elem_of_difference, !elem_of_union. intros [[Hx|Hx] ?]; (split; [|done]); [apply (elem_of_union _ _ id)|apply (elem_of_union _ _ id)]; auto. Qed.

Lemma removed_dom h id t : table_ok t -> dom (rt_handles (removeLocked h id t)) ⊆ dom (rt_handles t).
Proof.
  intros Hok x. rewrite (in_table t x Hok), (in_table _ x (removed_ok h id t Hok)), handles_removed. destruct (String.eqb_spec x id) as [->|_]; [|done].
  by destruct (handles_of id t).
Qed.

Lemma removed_live h id t c : table_ok t -> wc_entries c !! "" = None -> (liveLocked (Some c) (removeLocked h id t) <= liveLocked (Some c) t)%Z.
Proof.
  intros Hok Hc. apply live_fewer; [done|by apply removed_ok|done|done| |].
  - apply kept_mono; [|apply union_subseteq_r]. etrans; [by apply removed_dom|apply union_subseteq_l].
  - rewrite handles_removed. destruct (String.eqb_spec "" id) as [<-|_]; [|done]. induction (handles_of "" t) as [|y l IH]; cbn; [done|].
    destruct (Nat.eqb y h); cbn; lia.
Qed.

(** A Run that has created its Session gives up its place for the Session's. *)
Lemma moved_live h to t c :
  table_ok t -> wc_entries c !! "" = None -> h ∈ handles_of "" t -> (liveLocked (Some c) (Move h "" to t) <= liveLocked (Some c) t)%Z.
Proof.
  intros Hok Hc Hh. destruct (decide (to = "")) as [->|Hne]; [by unfold Move|]. pose proof (moved_ok h "" to t Hok) as Hok'.
  rewrite !live_counts by done. rewrite handles_moved by congruence. destruct (String.eqb_spec "" to) as [?|_]; [congruence|].
  rewrite String.eqb_refl. apply remove_first_length in Hh.
  assert (size (kept (Move h "" to t) c) <= 1 + size (kept t c))%nat; [|lia].
  apply size_one_more with to. intros x. unfold kept.
  rewrite elem_of_union, !elem_of_difference, !elem_of_union, !elem_of_singleton, (in_table t x Hok), (in_table _ x Hok'), handles_moved by congruence.
  destruct (String.eqb_spec x to) as [->|Hx]; [tauto|]. destruct (String.eqb_spec x "") as [->|]; set_solver.
Qed.

(** ** The Runs of an Instance

    The table with its cache, the Runs that were admitted, and the callers inside [Locked].  A Run
    is registered on a Session or not any more, and it is counted until it calls [Done], once. *)

Record runRec := MkRun { rr_id : option string; rr_counted : bool }.

Record runsSystem := MkRuns {
  ru_table : Table;
  ru_cache : Cache;
  ru_runs : gmap nat runRec;
  ru_lockers : gset nat;
}.

Definition runs_start : runsSystem := MkRuns newTable newCache ∅ ∅.

Section system.
Context {R E : Type} (limit : Z).

(** One critical section, as the Runner calls it: a Run is admitted, gets the Session it created,
    leaves the table, and ends its count; a Session is kept warm by a Run that is on it, and a copy
    is dropped or taken; a caller takes and gives back a Session lock; a drain. *)
Inductive runs_step : runsSystem -> runsSystem -> Prop :=
| ru_admit h id (policy : option (Counts -> option R + E)) release t t' c rs lk :
    rs !! h = None -> Admit h id (MkMemory limit (Some c)) policy t = (t', AdmitDone release) ->
    runs_step (MkRuns t c rs lk) (MkRuns t' c (<[h := MkRun (Some id) true]> rs) lk)
| ru_retarget h id k t c rs lk :
    rs !! h = Some (MkRun (Some "") k) ->
    runs_step (MkRuns t c rs lk) (MkRuns (Move h "" id t) c (<[h := MkRun (Some id) k]> rs) lk)
| ru_unregister h id k t c rs lk :
    rs !! h = Some (MkRun (Some id) k) ->
    runs_step (MkRuns t c rs lk) (MkRuns (RemoveRun h id t) c (<[h := MkRun None k]> rs) lk)
| ru_done h id t c rs lk :
    rs !! h = Some (MkRun id true) ->
    runs_step (MkRuns t c rs lk) (MkRuns (Done t) c (<[h := MkRun id false]> rs) lk)
| ru_keep_warm h id k agent now t c rs lk :
    rs !! h = Some (MkRun (Some id) k) -> id <> "" ->
    runs_step (MkRuns t c rs lk) (MkRuns t (Put id agent now c).1 rs lk)
| ru_drop entry t c rs lk : runs_step (MkRuns t c rs lk) (MkRuns t (Warm.Remove entry c).1 rs lk)
| ru_take id t c rs lk : runs_step (MkRuns t c rs lk) (MkRuns t (Take id c).1 rs lk)
| ru_close t c rs lk : runs_step (MkRuns t c rs lk) (MkRuns t (CloseCache c) rs lk)
| ru_lock caller t c rs lk : caller ∉ lk -> runs_step (MkRuns t c rs lk) (MkRuns (Locked t) c rs ({[caller]} ∪ lk))
| ru_unlock caller t c rs lk : caller ∈ lk -> runs_step (MkRuns t c rs lk) (MkRuns (Unlocked t) c rs (lk ∖ {[caller]}))
| ru_drain t c rs lk : runs_step (MkRuns t c rs lk) (MkRuns (Drain t).1 c rs lk)
| ru_wait t c rs lk : runs_step (MkRuns t c rs lk) (MkRuns (wait_step t) c rs lk).

Definition runs_reach (s : runsSystem) : Prop := rtc runs_step runs_start s.

(** The lists are the Runs that are registered. *)
Record listed (t : Table) (rs : gmap nat runRec) : Prop := {
  li_ok : table_ok t;
  li_nodup id : NoDup (handles_of id t);
  li_in id h : h ∈ handles_of id t <-> exists k, rs !! h = Some (MkRun (Some id) k);
}.

Lemma listed_frame t t' rs : rt_handles t' = rt_handles t -> listed t rs -> listed t' rs.
Proof.
  intros Hh [Hok Hnd Hin]. assert (Hof : forall id, handles_of id t' = handles_of id t) by (intros; unfold handles_of; by rewrite Hh).
  split; [unfold table_ok; by rewrite Hh|intros id; by rewrite Hof|intros id h; by rewrite Hof].
Qed.

Lemma listed_register h id t rs : rs !! h = None -> listed t rs -> listed (register h id t) (<[h := MkRun (Some id) true]> rs).
Proof.
  intros Hn [Hok Hnd Hin]. assert (Hfresh : forall id', h ∉ handles_of id' t) by (intros id' [k Hk]%Hin; congruence).
  split; [by apply registered_ok|intros id'|intros id' h']; rewrite handles_registered; destruct (String.eqb_spec id' id) as [->|Hne].
  - apply list.NoDup_app. split; [done|]. split; [|apply NoDup_singleton]. intros x Hx ->%list_elem_of_singleton. by eapply Hfresh.
  - done.
  - rewrite elem_of_app, list_elem_of_singleton, Hin. split.
    + intros [[k Hk]| ->]; [exists k; rewrite lookup_insert_ne by congruence; done|exists true; by rewrite lookup_insert_eq].
    + intros [k [[<- _]|[_ Hk]]%lookup_insert_Some]; [by right|left; by exists k].
  - rewrite Hin. split.
    + intros [k Hk]. exists k. rewrite lookup_insert_ne by congruence. done.
    + intros [k [[_ [= -> _]]|[_ Hk]]%lookup_insert_Some]; [done|by exists k].
Qed.

Lemma listed_removed h id k t rs : rs !! h = Some (MkRun (Some id) k) -> listed t rs -> listed (removeLocked h id t) (<[h := MkRun None k]> rs).
Proof.
  intros Hh [Hok Hnd Hin]. split; [by apply removed_ok|intros id'|intros id' h']; rewrite handles_removed; destruct (String.eqb_spec id' id) as [->|Hne].
  - by apply remove_first_nodup.
  - done.
  - rewrite remove_first_spec, Hin by done. split.
    + intros [[k' Hk] Hx]. exists k'. by rewrite lookup_insert_ne.
    + intros [k' [[_ ?]|[Hx Hk]]%lookup_insert_Some]; [done|]. split; [by exists k'|done].
  - rewrite Hin. split.
    + intros [k' Hk]. exists k'. rewrite lookup_insert_ne by congruence. done.
    + intros [k' [[_ ?]|[_ Hk]]%lookup_insert_Some]; [done|by exists k'].
Qed.

Lemma listed_moved h id k t rs : rs !! h = Some (MkRun (Some "") k) -> listed t rs -> listed (Move h "" id t) (<[h := MkRun (Some id) k]> rs).
Proof.
  intros Hh Hl. destruct (decide (id = "")) as [->|Hne].
  { change (Move h "" "" t) with t. by rewrite insert_id. }
  destruct Hl as [Hok Hnd Hin]. assert (Hfresh : h ∉ handles_of id t) by (intros [k' Hk]%Hin; congruence).
  split; [by apply moved_ok|intros id'|intros id' h']; rewrite handles_moved by congruence; destruct (String.eqb_spec id' id) as [->|Hid]; [| | |].
  - apply list.NoDup_app. split; [done|]. split; [|apply NoDup_singleton]. by intros x Hx ->%list_elem_of_singleton.
  - destruct (String.eqb_spec id' ""); [by apply remove_first_nodup|done].
  - rewrite elem_of_app, list_elem_of_singleton, Hin. split.
    + intros [[k' Hk]| ->]; [exists k'; rewrite lookup_insert_ne by congruence; done|exists k; by rewrite lookup_insert_eq].
    + intros [k' [[<- _]|[_ Hk]]%lookup_insert_Some]; [by right|left; by exists k'].
  - destruct (String.eqb_spec id' "") as [->|He]; [rewrite remove_first_spec by done|]; rewrite Hin; split.
    + intros [[k' Hk] Hx]. exists k'. by rewrite lookup_insert_ne.
    + intros [k' [[_ [= ?]]|[Hx Hk]]%lookup_insert_Some]; [congruence|]. split; [by exists k'|done].
    + intros [k' Hk]. exists k'. rewrite lookup_insert_ne by congruence. done.
    + intros [k' [[_ [= ?]]|[_ Hk]]%lookup_insert_Some]; [congruence|by exists k'].
Qed.

Lemma listed_done h id k t rs : rs !! h = Some (MkRun id k) -> listed t rs -> listed t (<[h := MkRun id false]> rs).
Proof.
  intros Hh [Hok Hnd Hin]. split; [done..|]. intros id' h'. rewrite Hin. split.
  - intros [k' Hk]. destruct (decide (h' = h)) as [->|]; [exists false; rewrite lookup_insert_eq; congruence|exists k'; by rewrite lookup_insert_ne].
  - intros [k' [[<- [= -> <-]]|[_ Hk]]%lookup_insert_Some]; by eexists.
Qed.

(** *** The bound *)

Record bounded (s : runsSystem) : Prop := {
  bd_listed : listed (ru_table s) (ru_runs s);
  bd_unnamed : wc_entries (ru_cache s) !! "" = None;
  bd_limit : (0 < limit)%Z -> (liveLocked (Some (ru_cache s)) (ru_table s) <= limit)%Z;
}.

Lemma Put_entries id agent now c : wc_entries (Put id agent now c).1 = wc_entries c \/ exists entry, wc_entries (Put id agent now c).1 = <[id := entry]> (wc_entries c).
Proof. unfold Put. destruct (wc_closed c); [by left|right; by eexists]. Qed.

Lemma live_same t t' c : rt_handles t' = rt_handles t -> liveLocked (Some c) t' = liveLocked (Some c) t.
Proof. intros Hh. unfold liveLocked, activeLocked, busy, handles_of. by rewrite Hh. Qed.

Lemma live_dropped t c c' :
  table_ok t -> wc_entries c !! "" = None -> wc_entries c' ⊆ wc_entries c -> (liveLocked (Some c') t <= liveLocked (Some c) t)%Z.
Proof.
  intros Hok Hc Hsub. assert (Hd : dom (wc_entries c') ⊆ dom (wc_entries c)) by by apply subseteq_dom.
  apply live_fewer; [done|done|done|by eapply lookup_weaken_None| |done]. apply kept_mono; [apply union_subseteq_l|]. etrans; [exact Hd|apply union_subseteq_r].
Qed.

Lemma bounded_frame t t' c rs lk lk' : rt_handles t' = rt_handles t -> bounded (MkRuns t c rs lk) -> bounded (MkRuns t' c rs lk').
Proof. intros Hh [Hl Hu Hb]. split; cbn in *; [by eapply listed_frame|done|]. intros HL. rewrite (live_same t t' c Hh). by apply Hb. Qed.

Lemma bounded_dropped t c c' rs lk : wc_entries c' ⊆ wc_entries c -> bounded (MkRuns t c rs lk) -> bounded (MkRuns t c' rs lk).
Proof.
  intros Hsub [Hl Hu Hb]. split; cbn in *; [done|by eapply lookup_weaken_None|]. intros HL. specialize (Hb HL).
  pose proof (live_dropped t c c' (li_ok _ _ Hl) Hu Hsub). lia.
Qed.

Lemma bounded_keep t c rs lk h id k agent now :
  rs !! h = Some (MkRun (Some id) k) -> id <> "" -> bounded (MkRuns t c rs lk) -> bounded (MkRuns t (Put id agent now c).1 rs lk).
Proof.
  intros Hh Hne [Hl Hu Hb]. destruct (Put_entries id agent now c) as [He|[entry He]]; [apply bounded_dropped with c; [by rewrite He|by split]|].
  assert (Hu' : wc_entries (Put id agent now c).1 !! "" = None) by (rewrite He, lookup_insert_ne by congruence; done).
  split; cbn in *; [done..|]. intros HL. specialize (Hb HL). etrans; [|exact Hb].
  apply live_fewer; [apply Hl|apply Hl|done|done| |done]. apply kept_mono; [apply union_subseteq_l|]. rewrite He, dom_insert_L.
  apply union_subseteq. split; [|apply union_subseteq_r]. apply singleton_subseteq_l, elem_of_union. left. apply (in_table t id (li_ok _ _ Hl)).
  assert (Hin : h ∈ handles_of id t) by (apply Hl; by exists k). intros He0. rewrite He0 in Hin. by apply not_elem_of_nil in Hin.
Qed.

Lemma Remove_entries entry c : wc_entries (Warm.Remove entry c).1 ⊆ wc_entries c.
Proof. unfold Warm.Remove. destruct (wc_entries c !! _) as [e|]; [destruct (Nat.eqb _ _)|]; cbn; [apply delete_subseteq|done..]. Qed.

Lemma Take_entries id c : wc_entries (Take id c).1 ⊆ wc_entries c.
Proof. unfold Take. destruct (wc_entries c !! _); cbn; [apply delete_subseteq|done]. Qed.

Lemma broadcast_handles t : rt_handles (broadcast t) = rt_handles t.
Proof. unfold broadcast. destruct (rt_drained t) as [[]|]; done. Qed.

Lemma Done_handles t : rt_handles (Done t) = rt_handles t.
Proof. unfold Done. cbv zeta. destruct (_ =? 0)%Z; [by rewrite broadcast_handles|done]. Qed.

Lemma Unlocked_handles t : rt_handles (Unlocked t) = rt_handles t.
Proof. unfold Unlocked. cbv zeta. destruct (_ =? 0)%Z; [by rewrite broadcast_handles|done]. Qed.

Lemma Drain_handles t : rt_handles (Drain t).1 = rt_handles t.
Proof. unfold Drain. cbv zeta. destruct (rt_drained _); done. Qed.

Lemma wait_handles t : rt_handles (wait_step t) = rt_handles t.
Proof. unfold wait_step. destruct (rt_drained t) as [[]|]; done. Qed.

Lemma runs_step_bounded s s' : runs_step s s' -> bounded s -> bounded s'.
Proof.
  intros Hs Hb. destruct Hs as [h id policy release t t' c rs lk Hn Ha|h id k t c rs lk Hh|h id k t c rs lk Hh|h id t c rs lk Hh|h id k agent now t c rs lk Hh Hne|entry t c rs lk|id t c rs lk|t c rs lk|caller t c rs lk Hc|caller t c rs lk Hc|t c rs lk|t c rs lk].
  - apply Admit_in in Ha as (-> & _ & Hroom). destruct Hb as [Hl Hu Hb]. split; cbn in *; [by apply listed_register|done|].
    intros HL. by apply register_live; [apply Hl|done|apply Hroom|apply Hb].
  - destruct Hb as [Hl Hu Hb]. split; cbn in *; [by apply listed_moved|done|]. intros HL. etrans; [|by apply Hb].
    apply moved_live; [apply Hl|done|]. apply Hl. by exists k.
  - destruct Hb as [Hl Hu Hb]. split; cbn in *; [by eapply listed_removed|done|]. intros HL. etrans; [|by apply Hb]. apply removed_live; [apply Hl|done].
  - apply bounded_frame with (t' := Done t) (lk' := lk) in Hb; [|apply Done_handles]. destruct Hb as [Hl Hu Hb]. split; cbn in *; [by eapply listed_done|done..].
  - by eapply bounded_keep.
  - eapply bounded_dropped; [apply Remove_entries|done].
  - eapply bounded_dropped; [apply Take_entries|done].
  - by apply bounded_dropped with c.
  - by apply bounded_frame with t lk.
  - apply bounded_frame with t lk; [apply Unlocked_handles|done].
  - apply bounded_frame with t lk; [apply Drain_handles|done].
  - apply bounded_frame with t lk; [apply wait_handles|done].
Qed.

Lemma reach_bounded s : runs_reach s -> bounded s.
Proof.
  intros Hr. assert (H0 : bounded runs_start).
  { split; cbn; [|done|intros HL; change (liveLocked _ _) with 0%Z; lia]. split; cbn; [by intros id l|by intros id; constructor|].
    intros id h. split; [by intros ?%not_elem_of_nil|by intros [? ?]]. }
  unfold runs_reach in Hr. clear -Hr H0. induction Hr as [|s0 s1 s2 Hst _ IH]; [done|]. by eapply IH, runs_step_bounded.
Qed.

(** C20: The limit on the Sessions an Instance keeps is never passed by its Runs: however admissions,
    evictions, the creation of Sessions, the ends of Runs, the copies that Runs leave warm, and a
    drain interleave, what the table counts is the Sessions that Runs are on or that idle in the
    cache, each once, and one for each Run whose Session has no ID yet, and it is at most
    [MaxActiveSessions]. *)
Theorem runs_keep_the_limit s :
  runs_reach s -> (0 < limit)%Z ->
  (liveLocked (Some (ru_cache s)) (ru_table s) <= limit)%Z /\
  liveLocked (Some (ru_cache s)) (ru_table s) = (Z.of_nat (size (kept (ru_table s) (ru_cache s))) + Z.of_nat (length (handles_of "" (ru_table s))))%Z.
Proof. intros Hr HL. destruct (reach_bounded s Hr) as [Hl Hu Hb]. split; [by apply Hb|]. apply live_counts; [apply Hl|done]. Qed.

(** *** The drain *)

Definition counted (rs : gmap nat runRec) : gmap nat runRec := filter (fun p => rr_counted p.2 = true) rs.

Record draining_ok (s : runsSystem) : Prop := {
  dr_inflight : rt_inflight (ru_table s) = Z.of_nat (size (counted (ru_runs s)));
  dr_locked : rt_locked (ru_table s) = Z.of_nat (size (ru_lockers s));
  dr_refuses : rt_drained (ru_table s) <> None -> rt_draining (ru_table s) = true;
  dr_asleep : rt_drained (ru_table s) = Some Asleep -> (0 < rt_inflight (ru_table s))%Z \/ (0 < rt_locked (ru_table s))%Z;
  dr_over : rt_drained (ru_table s) = Some Passed \/ rt_drained (ru_table s) = Some Reported -> rt_inflight (ru_table s) = 0%Z;
}.

Lemma counted_insert h r rs : counted (<[h := r]> rs) = if rr_counted r then <[h := r]> (counted rs) else delete h (counted rs).
Proof.
  unfold counted. destruct (rr_counted r) eqn:Er; [by rewrite map_filter_insert_True|]. rewrite map_filter_insert_False by (cbn; congruence).
  apply map_filter_delete.
Qed.

Lemma counted_lookup h rs : counted rs !! h = match rs !! h with Some r => if rr_counted r then Some r else None | None => None end.
Proof.
  unfold counted. destruct (rs !! h) as [r|] eqn:Ew.
  - destruct (rr_counted r) eqn:Er; [by apply map_lookup_filter_Some|]. apply map_lookup_filter_None. right. intros x Hx. cbn. congruence.
  - apply map_lookup_filter_None. by left.
Qed.

(** A Run that moves is counted as before. *)
Lemma counted_same h id id' k rs : rs !! h = Some (MkRun id k) -> size (counted (<[h := MkRun id' k]> rs)) = size (counted rs).
Proof.
  intros Hh. rewrite counted_insert. pose proof (counted_lookup h rs) as Hc. rewrite Hh in Hc. cbn [rr_counted] in *. destruct k.
  - apply map_size_insert_Some. by eexists.
  - by apply map_size_delete_None.
Qed.

(** A count that comes to zero wakes the goroutine of the drain. *)
Lemma broadcast_ok t rs lk :
  rt_inflight t = Z.of_nat (size (counted rs)) -> rt_locked t = Z.of_nat (size lk) ->
  (rt_drained t <> None -> rt_draining t = true) ->
  (rt_drained t = Some Passed \/ rt_drained t = Some Reported -> rt_inflight t = 0%Z) ->
  forall c, draining_ok (MkRuns (broadcast t) c rs lk).
Proof.
  intros Hi Hk Hd Ho c. unfold broadcast. destruct (rt_drained t) as [w|] eqn:Ew.
  - assert (Hdr : rt_draining t = true) by by apply Hd. destruct w; split; cbn; rewrite ?Ew; try done; try (by intros [?|?]); by intros _; apply Ho; tauto.
  - split; cbn; rewrite ?Ew; try done; by intros [?|?].
Qed.

Lemma Done_ok h id t c rs lk : rs !! h = Some (MkRun id true) -> draining_ok (MkRuns t c rs lk) -> draining_ok (MkRuns (Done t) c (<[h := MkRun id false]> rs) lk).
Proof.
  intros Hh [Hi Hk Hd Ha Ho]. cbn in *.
  assert (Hc : is_Some (counted rs !! h)) by (rewrite counted_lookup, Hh; by eexists).
  assert (Hsz : Z.of_nat (size (counted (<[h := MkRun id false]> rs))) = (rt_inflight t - 1)%Z).
  { rewrite counted_insert. cbn. destruct Hc as [r Hc]. rewrite (map_size_delete_Some _ _ (mk_is_Some _ _ Hc)).
    assert (size (counted rs) <> 0)%nat by (intros Hz%map_size_empty_inv; by rewrite Hz, lookup_empty in Hc). lia. }
  assert (Hnz : (0 < rt_inflight t)%Z) by lia.
  unfold Done. cbv zeta. destruct (Z.eqb_spec (rt_inflight (t <| rt_inflight := (rt_inflight t - 1)%Z |>)) 0) as [Hz|Hz]; cbn in Hz.
  - apply broadcast_ok; cbn; [lia|done|done|lia].
  - split; cbn; [lia|done|done|intros _; lia|intros H; specialize (Ho H); lia].
Qed.

Lemma Unlocked_ok caller t c rs lk : caller ∈ lk -> draining_ok (MkRuns t c rs lk) -> draining_ok (MkRuns (Unlocked t) c rs (lk ∖ {[caller]})).
Proof.
  intros Hc [Hi Hk Hd Ha Ho]. cbn in *.
  assert (Hsz : Z.of_nat (size (lk ∖ {[caller]})) = (rt_locked t - 1)%Z).
  { rewrite size_difference by by apply singleton_subseteq_l. rewrite size_singleton.
    assert (size lk <> 0)%nat by (intros Hz%size_empty_inv; set_solver). lia. }
  unfold Unlocked. cbv zeta. destruct (Z.eqb_spec (rt_locked (t <| rt_locked := (rt_locked t - 1)%Z |>)) 0) as [Hz|Hz]; cbn in Hz.
  - apply broadcast_ok; cbn; [done|lia|done|done].
  - split; cbn; [done|lia|done|intros _; lia|done].
Qed.

Lemma runs_step_draining s s' : runs_step s s' -> draining_ok s -> draining_ok s'.
Proof.
  intros Hs Hd. destruct Hs as [h id policy release t t' c rs lk Hn Ha|h id k t c rs lk Hh|h id k t c rs lk Hh|h id t c rs lk Hh|h id k agent now t c rs lk Hh Hne|entry t c rs lk|id t c rs lk|t c rs lk|caller t c rs lk Hc|caller t c rs lk Hc|t c rs lk|t c rs lk].
  - apply Admit_in in Ha as (-> & Hnd & _). destruct Hd as [Hi Hk Hd Hw Ho]. cbn in *.
    assert (Hnone : rt_drained t = None) by (destruct (rt_drained t); [by rewrite Hd in Hnd|done]).
    split; cbn; [|done..|by rewrite Hnone|rewrite Hnone; by intros [?|?]]. rewrite counted_insert. cbn.
    rewrite map_size_insert_None; [lia|]. by rewrite counted_lookup, Hn.
  - destruct Hd as [Hi Hk Hd Hw Ho]. unfold Move. destruct (String.eqb _ _); split; cbn in *; rewrite ?(counted_same _ _ _ _ _ Hh); try done; unfold removeLocked; by destruct (remove_first _ _).
  - destruct Hd as [Hi Hk Hd Hw Ho]. unfold RemoveRun, removeLocked. destruct (remove_first _ _); split; cbn in *; by rewrite ?(counted_same _ _ _ _ _ Hh).
  - by apply Done_ok.
  - destruct Hd. by split.
  - destruct Hd. by split.
  - destruct Hd. by split.
  - destruct Hd. by split.
  - destruct Hd as [Hi Hk Hd Hw Ho]. split; cbn in *; [done| |done|intros _; right; lia|done]. rewrite size_union by set_solver. rewrite size_singleton. lia.
  - by apply Unlocked_ok.
  - destruct Hd as [Hi Hk Hd Hw Ho]. unfold Drain. cbv zeta. destruct (rt_drained _) eqn:Ew; cbn in Ew; split; cbn in *; try done; try (by rewrite Ew in *); by intros [?|?].
  - destruct Hd as [Hi Hk Hd Hw Ho]. unfold wait_step. cbn in *. destruct (rt_drained t) as [[]|] eqn:Ew.
    + destruct (Z.ltb_spec 0 (rt_inflight t)), (Z.ltb_spec 0 (rt_locked t)); split; cbn; try done; try (by intros _; apply Hd); try (by intros _; auto); try (by intros [?|?]). intros _. lia.
    + split; cbn; by rewrite ?Ew.
    + split; cbn; try done; [by intros _; apply Hd|]. intros _. apply Ho. by left.
    + split; cbn; by rewrite ?Ew.
    + split; cbn; by rewrite ?Ew.
Qed.

Lemma reach_draining s : runs_reach s -> draining_ok s.
Proof.
  intros Hr. assert (H0 : draining_ok runs_start) by (split; cbn; try done; by intros [?|?]).
  unfold runs_reach in Hr. clear -Hr H0. induction Hr as [|s0 s1 s2 Hst _ IH]; [done|]. by eapply IH, runs_step_draining.
Qed.

(** A drain goes on, and a channel that is closed is not made again. *)
Lemma runs_step_drain s s' :
  runs_step s s' ->
  (rt_draining (ru_table s) = true -> rt_draining (ru_table s') = true /\ dom (ru_runs s') = dom (ru_runs s)) /\
  (rt_drained (ru_table s) = Some Reported -> rt_drained (ru_table s') = Some Reported).
Proof.
  assert (Hin : forall h r r' (rs : gmap nat runRec), rs !! h = Some r -> dom (<[h := r']> rs) = dom rs).
  { intros h r r' rs Hh. rewrite dom_insert_lookup_L; [done|by eexists]. }
  intros Hs. destruct Hs as [h id policy release t t' c rs lk Hn Ha|h id k t c rs lk Hh|h id k t c rs lk Hh|h id t c rs lk Hh|h id k agent now t c rs lk Hh Hne|entry t c rs lk|id t c rs lk|t c rs lk|caller t c rs lk Hc|caller t c rs lk Hc|t c rs lk|t c rs lk]; cbn; try done.
  - apply Admit_in in Ha as (-> & Hnd & _). split; [congruence|done].
  - rewrite (Hin _ _ _ _ Hh). unfold Move. destruct (String.eqb _ _); [done|]. cbn. unfold removeLocked. by destruct (remove_first _ _).
  - rewrite (Hin _ _ _ _ Hh). unfold RemoveRun, removeLocked. by destruct (remove_first _ _).
  - rewrite (Hin _ _ _ _ Hh). unfold Done, broadcast. cbv zeta. destruct (_ =? 0)%Z; [|done]. cbn. destruct (rt_drained t) as [[]|] eqn:Ew; cbn; by rewrite ?Ew.
  - unfold Unlocked, broadcast. cbv zeta. destruct (_ =? 0)%Z; [|done]. cbn. destruct (rt_drained t) as [[]|] eqn:Ew; cbn; by rewrite ?Ew.
  - unfold Drain. cbv zeta. cbn. destruct (rt_drained t) eqn:Ew; cbn; by rewrite ?Ew.
  - unfold wait_step. destruct (rt_drained t) as [[]|] eqn:Ew; cbn; by rewrite ?Ew.
Qed.

Lemma reach_drain s s' :
  rtc runs_step s s' ->
  (rt_draining (ru_table s) = true -> dom (ru_runs s') = dom (ru_runs s)) /\
  (rt_drained (ru_table s) = Some Reported -> rt_drained (ru_table s') = Some Reported).
Proof.
  induction 1 as [|s0 s1 s2 Hst _ [IHd IHr]]; [done|]. apply runs_step_drain in Hst as [Hd Hrep]. split; [|by intros H%Hrep%IHr].
  intros [H1 H2]%Hd. rewrite <- H2. by apply IHd.
Qed.

Lemma none_counted s : draining_ok s -> rt_inflight (ru_table s) = 0%Z <-> (forall h r, ru_runs s !! h = Some r -> rr_counted r = false).
Proof.
  intros [Hi _ _ _ _]. rewrite Hi. split.
  - intros Hz h r Hh. assert (counted (ru_runs s) = ∅) as He by (apply map_size_empty_inv; lia).
    pose proof (counted_lookup h (ru_runs s)) as Hc. rewrite He, lookup_empty, Hh in Hc. by destruct (rr_counted r).
  - intros Hall. assert (counted (ru_runs s) = ∅) as ->; [|done]. apply map_empty. intros h. rewrite counted_lookup.
    destruct (ru_runs s !! h) as [r|] eqn:Hh; [by rewrite (Hall _ _ Hh)|done].
Qed.

(** C21: A drain waits for every Run and is told when it need not wait any more.  Once it has begun no
    Run is admitted; its goroutine goes past its wait only when every admitted Run has ended its
    count and no caller is inside a Session lock; once the channel is closed no Run is in flight for
    the rest of the Instance; and when the last Run and the last caller are gone the goroutine is
    not asleep, so two steps of its own close the channel (no wakeup is lost). *)
Theorem drain_waits_for_runs s :
  runs_reach s ->
  (rt_draining (ru_table s) = true -> forall s', rtc runs_step s s' -> dom (ru_runs s') = dom (ru_runs s)) /\
  (rt_drained (ru_table s) = Some Looking -> rt_drained (wait_step (ru_table s)) = Some Passed ->
   (forall h r, ru_runs s !! h = Some r -> rr_counted r = false) /\ ru_lockers s = ∅) /\
  (rt_drained (ru_table s) = Some Reported -> forall s' h r, rtc runs_step s s' -> ru_runs s' !! h = Some r -> rr_counted r = false) /\
  (rt_drained (ru_table s) <> None -> (forall h r, ru_runs s !! h = Some r -> rr_counted r = false) -> ru_lockers s = ∅ ->
   rt_drained (wait_step (wait_step (ru_table s))) = Some Reported).
Proof.
  intros Hr. pose proof (reach_draining s Hr) as Hok. split; [|split; [|split]].
  - intros Hd s' Hs. by apply (reach_drain s s' Hs).
  - intros Hl Hp. unfold wait_step in Hp. rewrite Hl in Hp. cbn in Hp. destruct (Z.ltb_spec 0 (rt_inflight (ru_table s))) as [|Hz]; [done|].
    destruct (Z.ltb_spec 0 (rt_locked (ru_table s))) as [|Hk]; [done|]. split; [apply (none_counted s Hok); destruct Hok as [Hi _ _ _ _]; lia|].
    destruct Hok as [_ Hlk _ _ _]. apply leibniz_equiv, size_empty_inv. lia.
  - intros Hrep s' h r Hs. revert h r. assert (Hok' : draining_ok s') by (apply reach_draining; unfold runs_reach in *; by etrans). apply none_counted; [done|].
    apply Hok'. right. by apply (reach_drain s s' Hs).
  - intros Hd Hall Hlk. apply (none_counted s Hok) in Hall. destruct Hok as [_ Hk _ Ha _]. rewrite Hlk in Hk. change (rt_locked (ru_table s) = 0%Z) in Hk.
    unfold wait_step. destruct (rt_drained (ru_table s)) as [[]|] eqn:Ew; cbn; rewrite ?Ew; try done.
    + rewrite Hall, Hk. done.
    + destruct (Ha eq_refl); lia.
Qed.

End system.

(** ** Samples *)

Definition first_run : Table := register 0 "" newTable.
Definition named_run : Table := Move 0 "" "s" first_run.
Definition drained_run : Table := wait_step (Drain named_run).1.
Definition ended_run : Table := Done (RemoveRun 0 "s" drained_run).

Lemma runs_next {R E} limit s s' s3 s'' : runs_step (R := R) (E := E) limit s s' -> s' = s'' -> rtc (runs_step (R := R) (E := E) limit) s'' s3 -> rtc (runs_step (R := R) (E := E) limit) s s3.
Proof. intros Hs <- Hr. by eapply rtc_l. Qed.

(** A Run that creates its Session, under a limit of one. *)
Lemma sample_created : runs_reach (R := unit) (E := unit) 1 (MkRuns named_run newCache {[0%nat := MkRun (Some "s") true]} ∅).
Proof.
  unfold runs_reach. eapply (runs_next 1 _ _ _ (MkRuns first_run newCache {[0%nat := MkRun (Some "") true]} ∅)); [by apply (ru_admit 1 0 "" None None)|by vm_compute|].
  eapply runs_next; [by apply (ru_retarget 1 0 "s" true)|by vm_compute|apply rtc_refl].
Qed.

(** A second Session is one too many: there is no copy to evict. *)
Lemma runs_keep_the_limit_witness :
  (liveLocked (Some newCache) named_run <= 1)%Z /\ activates "t" newCache named_run = true /\
  (Admit (R := unit) (E := unit) 1 "t" (MkMemory 1 (Some newCache)) None named_run).2 = AdmitRefused runs_ErrOverloaded.
Proof.
  split; [|by vm_compute]. by apply (runs_keep_the_limit (R := unit) (E := unit) 1 _ sample_created).
Defined.

(** The drain sleeps while the Run goes on, and the end of the Run wakes it. *)
Lemma drain_waits_for_runs_witness :
  rt_drained drained_run = Some Asleep /\ rt_drained ended_run = Some Looking /\ rt_drained (wait_step (wait_step ended_run)) = Some Reported.
Proof.
  split; [by vm_compute|]. split; [by vm_compute|].
  assert (Hr : runs_reach (R := unit) (E := unit) 1 (MkRuns ended_run newCache {[0%nat := MkRun None false]} ∅)).
  { unfold runs_reach. etrans; [exact sample_created|].
    eapply runs_next; [apply ru_drain|reflexivity|]. eapply runs_next; [apply ru_wait|reflexivity|].
    eapply (runs_next 1 _ _ _ (MkRuns (RemoveRun 0 "s" drained_run) newCache {[0%nat := MkRun None true]} ∅)); [by apply (ru_unregister 1 0 "s" true)|by vm_compute|].
    eapply runs_next; [by apply (ru_done 1 0 None)|by vm_compute|apply rtc_refl]. }
  apply (drain_waits_for_runs (R := unit) (E := unit) 1 _ Hr); [by vm_compute| |done].
  intros h r. cbn. by intros [<- <-]%lookup_singleton_Some.
Defined.

(** A Session that is kept warm without a Run on it (by [Runner.Compact], a notice, the switch of a
    Tool, or the repair of a release) was not admitted: the copy it leaves passes the limit, and
    nothing evicts it until a Run is admitted. *)
Example kept_without_admission :
  (liveLocked (Some newCache) named_run = 1 /\ liveLocked (Some (Put "t" "a" 0 newCache).1) named_run = 2)%Z /\
  TrimVictim (Put "t" "a" 0 newCache).1 10000 named_run = None.
Proof. by vm_compute. Qed.
