(* ===== verification/Admission.v ===== *)
(** * The admission of a Run

    [host/admission.go], with the codes and refusals of [host/codes.go] and [host/errors.go]: a Run
    that passes the drain and the bound on memory, for which warm copies make room, is decided by
    the Admitter. *)

From stdpp Require Import fin_sets.
From S2P Require Import Prelude Errors Warm RunTable.
Local Open Scope string_scope.
Local Open Scope list_scope.

(** ** The errors of the host *)

Definition CodeNotWriter : ErrorCode := "not_writer".
Definition CodeDraining : ErrorCode := "draining".
Definition CodeOverloaded : ErrorCode := "overloaded".
Definition CodeCannotResume : ErrorCode := "cannot_resume".
Definition CodeAlreadyExists : ErrorCode := "already_exists".

Definition HostErrorCodes : list ErrorCode := [CodeNotWriter; CodeDraining; CodeOverloaded; CodeCannotResume; CodeAlreadyExists].

(** [refusedAtAdmission] and [notRunError]. *)
Definition refusedAtAdmission (e : RuntimeError) : RuntimeError := e <| re_NotRun := true |> <| re_Retryable := true |>.
Definition notRunError (e : RuntimeError) : RuntimeError := e <| re_NotRun := true |>.

Definition errorOf (code : ErrorCode) (message : string) : RuntimeError :=
  let e := ErrorOf code (plain_text message) in
  if String.eqb code CodeDraining || String.eqb code CodeOverloaded || String.eqb code CodeNotWriter then refusedAtAdmission e else e.

(** A package variable. *)
Definition host_var (name : string) (e : RuntimeError) : error := RuntimeErr (e <| Sentinel := Some name |>).

Definition ErrCapacity : error := host_var "host.ErrCapacity" (refusedAtAdmission (ErrorOf CodeLimitExceeded (plain_text "host: maximum active runs reached"))).
Definition ErrOverloaded : error := host_var "host.ErrOverloaded" (errorOf CodeOverloaded "host: this instance is at its limit of active sessions").
Definition ErrDraining : error := host_var "host.ErrDraining" (errorOf CodeDraining "host: draining").

(** ** The Admitter *)

Record Admission := MkAdmission { ad_SessionID : string; ad_Agent : string; ad_Task : string }.
Record Load := MkLoad { ld_ActiveRuns : Z; ld_ActiveSessions : Z; ld_WarmSessions : Z }.

(** What a call of [Admit] does: a release, which may be nil, an error, or a panic. *)
Inductive verdict (R : Type) : Type :=
| Admits (release : option R)
| Denies (err : error)
| Panics (text : string).
Arguments Admits {R} release.
Arguments Denies {R} err.
Arguments Panics {R} text.

(** [Limits], the default. *)
Definition Limits_Admit {R} (MaxActiveRuns : Z) (_ : Admission) (load : Load) : verdict R :=
  if (0 <? MaxActiveRuns)%Z && (MaxActiveRuns <=? ld_ActiveRuns load)%Z then Denies ErrCapacity else Admits None.

Definition Limits_Validate (MaxActiveRuns : Z) : bool := negb (MaxActiveRuns <? 0)%Z.

(** [decide], the closure of [admit_run]: the error on its way out of the table. *)
Definition decide_run {R} (admitter : Admission -> Load -> verdict R) (admission : Admission) (counts : Counts) : option R + error :=
  match admitter admission (MkLoad (ct_ActiveRuns counts) (ct_ActiveSessions counts) (ct_WarmSessions counts)) with
  | Admits release => inl release
  | Denies err => inr err
  | Panics text => inr (ForeignErr (MkForeign ("host: the admitter panicked: " ++ text)%string None None None None))
  end.

Definition refusedByAdmitter (err : error) : error :=
  match as_runtime err with
  | Some typed =>
    if re_NotRun typed then err
    else RuntimeErr (typed <| re_NotRun := true |> <| Cause := Some err |> <| Sentinel := None |>)
  | None => RuntimeErr ((ErrorOf CodeLimitExceeded (Text "host: %v" [FErr err])) <| re_NotRun := true |> <| Cause := Some err |>)
  end.

(** ** The loop of [admit_run]

    What a Run finds when nothing else happens between the passes; [evicted] are the copies it drops,
    in order.  [dropEntry] waits for an idle compaction of the copy before it removes it. *)

Record admission_result (R : Type) := MkAdmissionResult {
  ar_table : Table;
  ar_cache : Cache;
  ar_evicted : list warmEntry;
  ar_answer : option R + error;
}.
Arguments MkAdmissionResult {R}.
Arguments ar_table {R} a.
Arguments ar_cache {R} a.
Arguments ar_evicted {R} a.
Arguments ar_answer {R} a.

Definition answered {R} (t : Table) (c : Cache) (a : admitted R error) : admission_result R :=
  MkAdmissionResult t c []
    (match a with
     | AdmitRefused runs_ErrDraining => inr ErrDraining
     | AdmitRefused runs_ErrOverloaded => inr ErrOverloaded
     | AdmitDenied err => inr (refusedByAdmitter err)
     | AdmitDone release => inl release
     | AdmitEvict _ | AdmitNilCache => inl None
     end).

(** [None] is a loop that has not ended. *)
Fixpoint admit_run {R} (fuel : nat) (h : nat) (id : string) (limit : Z) (policy : Counts -> option R + error) (t : Table) (c : Cache)
    : option (admission_result R) :=
  match fuel with
  | O => None
  | S fuel =>
    match Admit h id (MkMemory limit (Some c)) (Some policy) t with
    | (t, AdmitEvict victim) =>
      match admit_run fuel h id limit policy t (Warm.Remove victim c).1 with
      | Some a => Some (MkAdmissionResult (ar_table a) (ar_cache a) (victim :: ar_evicted a) (ar_answer a))
      | None => None
      end
    | (t, a) => Some (answered t c a)
    end
  end.

(** The func that ends an admission, which runs once: what it calls, and the table. *)
Definition end_admission {R} (called : bool) (release : option R) (t : Table) : bool * list R * Table :=
  if called then (true, [], t) else (true, match release with Some f => [f] | None => [] end, Done t).

(** ** A refusal says that nothing ran *)

(** A Run the Admitter refuses says that it did not run, whatever error the Admitter returned: it
    keeps the code of a typed error and is limit_exceeded otherwise, and the Admitter's own error
    stays in its chain. *)
Theorem refusal_says_not_run err :
  NotRun (Some (refusedByAdmitter err)) = true /\
  IsCode (Some (refusedByAdmitter err)) (match as_runtime err with Some typed => Code typed | None => CodeLimitExceeded end) = true /\
  forall target, errors_Is err target = true -> errors_Is (refusedByAdmitter err) target = true.
Proof.
  unfold refusedByAdmitter, NotRun, IsCode. destruct (as_runtime err) as [typed|] eqn:Et; [destruct (re_NotRun typed) eqn:En|]; cbn [mbind option_bind].
  - rewrite Et. split; [done|]. split; [apply String.eqb_refl|done].
  - cbn. split; [done|]. split; [apply String.eqb_refl|]. intros target Ht. rewrite Ht. apply orb_true_iff. right. apply orb_true_r.
  - cbn. split; [done|]. split; [done|]. intros target Ht. rewrite Ht. apply orb_true_iff. right. apply orb_true_r.
Qed.

(** ** How the loop ends *)

Section loop.
Context {R : Type} (h : nat) (id : string) (limit : Z) (policy : Counts -> option R + error).

(** The copies that have to go before the Run fits. *)
Definition evictions (t : Table) (c : Cache) : nat :=
  if (0 <? limit)%Z && activates id c t then Z.to_nat (liveLocked (Some c) t - limit + 1) else 0.

Lemma Victim_dropped t c v :
  table_ok t -> cache_ok c -> wc_entries c !! "" = None -> Victim (busy t) c = Some v ->
  (Warm.Remove v c).1 = drop_entry v c /\ cache_ok (drop_entry v c) /\ wc_entries (drop_entry v c) !! "" = None /\
  Idle (busy t) c = S (Idle (busy t) (drop_entry v c)) /\ (activates id c t = true -> activates id (drop_entry v c) t = true).
Proof.
  intros Hok Hc Hu Hv. pose proof (Victim_longest (busy t) c Hc) as Hl. rewrite Hv in Hl. destruct Hl as (Hl & Hb & _).
  split. { unfold Warm.Remove. by rewrite Hl, Nat.eqb_refl. }
  split; [by apply drop_ok|]. split. { cbn. by apply lookup_delete_None; right. }
  split.
  - rewrite !idle_counts by done. cbn. rewrite dom_delete_L.
    assert (Hin : we_ID v ∈ dom (wc_entries c) ∖ dom (rt_handles t)).
    { apply elem_of_difference. split; [apply elem_of_dom; by eexists|]. intros Hn. apply (busy_in_table t _ Hok) in Hn. congruence. }
    replace ((dom (wc_entries c) ∖ {[we_ID v]}) ∖ dom (rt_handles t)) with ((dom (wc_entries c) ∖ dom (rt_handles t)) ∖ {[we_ID v]}) by set_solver.
    rewrite (size_difference _ {[we_ID v]}) by by apply singleton_subseteq_l. rewrite size_singleton.
    assert (size (dom (wc_entries c) ∖ dom (rt_handles t)) <> 0)%nat by (intros Hz%size_empty_inv; set_solver). lia.
  - unfold activates, Get. cbn. destruct (String.eqb id ""); [done|]. cbn. destruct (length (handles_of id t) =? 0)%nat; [|done]. cbn.
    destruct (bool_decide_reflect (is_Some (wc_entries c !! id))) as [|Hn]; [done|]. intros _. rewrite bool_decide_false; [done|].
    intros [e [_ He]%lookup_delete_Some]. apply Hn. by eexists.
Qed.

(** One pass, by what the bound says. *)
Lemma Admit_pass t c :
  rt_draining t = false ->
  Admit h id (MkMemory limit (Some c)) (Some policy) t =
  if (0 <? limit)%Z && activates id c t && (limit <=? liveLocked (Some c) t)%Z
  then (t, match Victim (busy t) c with None => AdmitRefused runs_ErrOverloaded | Some v => AdmitEvict v end)
  else match policy (counts_of (MkMemory limit (Some c)) t) with inr err => (t, AdmitDenied err) | inl release => (register h id t, AdmitDone release) end.
Proof.
  intros Hd. unfold Admit, memory_bound. rewrite Hd. cbn [mm_MaxSessions mm_Cache]. destruct (0 <? limit)%Z; [|by destruct (policy _)].
  cbn [andb]. destruct (activates id c t && _)%bool; [by destruct (Victim _ _)|by destruct (policy _)].
Qed.

(** What the loop comes to. *)
Definition admission_spec (t : Table) (c : Cache) (a : admission_result R) : Prop :=
  if rt_draining t then ar_answer a = inr ErrDraining /\ ar_evicted a = [] /\ ar_table a = t /\ ar_cache a = c
  else if (0 <? limit)%Z && activates id c t && (limit <=? activeLocked t)%Z then ar_answer a = inr ErrOverloaded /\ ar_table a = t
  else
    length (ar_evicted a) = evictions t c /\ (Idle (busy t) (ar_cache a) + evictions t c = Idle (busy t) c)%nat /\
    match policy (counts_of (MkMemory limit (Some (ar_cache a))) t) with
    | inl release => ar_answer a = inl release /\ ar_table a = register h id t
    | inr err => ar_answer a = inr (refusedByAdmitter err) /\ ar_table a = t
    end.

Lemma admit_loop fuel t c :
  table_ok t -> cache_ok c -> wc_entries c !! "" = None -> (Idle (busy t) c < fuel)%nat ->
  exists a, admit_run fuel h id limit policy t c = Some a /\ admission_spec t c a /\
    Forall (fun v => wc_entries c !! we_ID v = Some v /\ busy t (we_ID v) = false) (ar_evicted a).
Proof.
  intros Hok. revert c. induction fuel as [|fuel IH]; intros c Hc Hu Hf; [lia|]. cbn [admit_run]. unfold admission_spec.
  destruct (rt_draining t) eqn:Ed. { unfold Admit. rewrite Ed. eexists. split; [done|]. by split. }
  rewrite (Admit_pass t c Ed). unfold evictions, liveLocked. destruct ((0 <? limit)%Z && activates id c t) eqn:Eb; cbn [andb].
  - destruct (Z.leb_spec limit (activeLocked t + Z.of_nat (Idle (busy t) c))) as [Hle|Hgt].
    + destruct (Victim (busy t) c) as [v|] eqn:Ev.
      * destruct (Victim_dropped t c v Hok Hc Hu Ev) as (-> & Hc' & Hu' & Hidle & Hact). apply andb_true_iff in Eb as [EL Ea].
        destruct (IH (drop_entry v c) Hc' Hu') as (a & Ha & Hs & Hall); [lia|]. rewrite Ha. eexists. split; [done|]. split.
        -- unfold admission_spec in Hs. rewrite Ed, EL, (Hact Ea) in Hs. unfold evictions in Hs. rewrite EL, (Hact Ea) in Hs. cbn [andb] in Hs.
           destruct (limit <=? activeLocked t)%Z eqn:El; [done|]. apply Z.leb_gt in El. destruct Hs as (H1 & H2 & H3). cbn [ar_evicted ar_answer ar_table ar_cache length].
           unfold liveLocked in *. split; [lia|]. split; [lia|exact H3].
        -- constructor; [|eapply list.Forall_impl; [exact Hall|]].
           ++ pose proof (Victim_longest (busy t) c Hc) as Hl. rewrite Ev in Hl. split; apply Hl.
           ++ cbn. intros w [[_ Hw]%lookup_delete_Some Hb]. done.
      * apply Victim_none in Ev; [|done]. rewrite Ev in Hle |- *. eexists. split; [done|]. destruct (Z.leb_spec limit (activeLocked t)); [done|lia].
    + destruct (Z.leb_spec limit (activeLocked t)); [lia|]. replace (Z.to_nat _) with 0%nat by lia.
      destruct (policy (counts_of _ t)) as [release|err] eqn:Ep; (eexists; split; [done|]; cbn; rewrite Ep; split; [|done]; split; [done|]; split; [lia|done]).
  - destruct (policy (counts_of _ t)) as [release|err] eqn:Ep; (eexists; split; [done|]; cbn; rewrite Ep; split; [|done]; split; [done|]; split; [lia|done]).
Qed.

End loop.

(** Admission comes to an end, with one pass for each idle copy and one more, and it does what it
    says: a drain refuses; a Run that would activate a Session is refused as overloaded exactly when
    the Sessions with Runs are at the limit by themselves; any other makes just as much room as it
    needs by dropping copies that no Run is on, and then its Admitter decides, on the counts it
    will be admitted under. *)
Theorem admission_makes_room {R} h id limit (policy : Counts -> option R + error) t c :
  table_ok t -> cache_ok c -> wc_entries c !! "" = None ->
  exists a, admit_run (S (Idle (busy t) c)) h id limit policy t c = Some a /\ admission_spec h id limit policy t c a /\
    Forall (fun v => wc_entries c !! we_ID v = Some v /\ busy t (we_ID v) = false) (ar_evicted a).
Proof. intros Hok Hc Hu. apply admit_loop; [done..|lia]. Qed.

(** ** Samples *)

Definition sample_cache : Cache := (Put "b" "a" 20 (Put "a" "a" 10 newCache).1).1.

(** Under a limit of two, with two idle copies, a new Session takes the place of the one that is
    idle longest; an Admitter that then refuses the Run does not bring it back. *)
Lemma admission_makes_room_witness :
  (exists a, admit_run (R := unit) 3 0 "" 2 (decide_run (Limits_Admit 5) (MkAdmission "" "" "")) newTable sample_cache = Some a /\
     ar_answer a = inl None /\ (we_ID <$> ar_evicted a) = ["a"]) /\
  (exists a, admit_run (R := unit) 3 0 "" 2 (decide_run (fun _ _ => Denies ErrCapacity) (MkAdmission "" "" "")) newTable sample_cache = Some a /\
     ar_answer a = inr ErrCapacity /\ (we_ID <$> ar_evicted a) = ["a"]).
Proof.
  split; [|eexists; split; [by vm_compute|by vm_compute]].
  destruct (admission_makes_room (R := unit) 0 "" 2 (decide_run (Limits_Admit 5) (MkAdmission "" "" "")) newTable sample_cache) as (a & Ha & _ & _).
  - by intros id l.
  - apply Put_ok, Put_ok, newCache_ok.
  - by vm_compute.
  - exists a. split; [by vm_compute in Ha |- *|]. vm_compute in Ha. injection Ha as <-. by vm_compute.
Defined.
