(* ===== verification/SessionLife.v ===== *)
(** * The life of a live Session

    [gotato/sessionlifecycle.go] and the half of [session.go] that hands Prompt and Continue to the goroutine of
    the Session: the token that admits one Run at a time, the commands, the status and its change
    signal, and the close.  The state is channels and atomics; a step is one operation on one of
    them.  The two loads of [Status] are one step: a close is never taken back. *)

From S2P Require Import Prelude.
Local Open Scope string_scope.
Local Open Scope list_scope.

(** ** Status *)

Inductive SessionStatus : Type := StatusCreated | StatusIdle | StatusBusy | StatusClosing | StatusClosed.
#[export] Instance SessionStatus_eq_dec : EqDecision SessionStatus.
Proof. solve_decision. Defined.

Definition encodeSessionStatus (s : SessionStatus) : Z :=
  match s with StatusCreated => 1 | StatusIdle => 2 | StatusBusy => 3 | StatusClosing => 4 | StatusClosed => 5 end.

Definition decodeSessionStatus (n : Z) : SessionStatus :=
  if (n =? 1)%Z then StatusCreated else if (n =? 2)%Z then StatusIdle else if (n =? 3)%Z then StatusBusy
  else if (n =? 4)%Z then StatusClosing else if (n =? 5)%Z then StatusClosed else StatusCreated.

Lemma decode_encode s : decodeSessionStatus (encodeSessionStatus s) = s.
Proof. by destruct s. Qed.

(** ** Data *)

(** What a Prompt or a Continue returns: the result of its Run, or an error that says why it did not run,
    or that it did not wait any more. *)
Inductive answer : Type :=
| Ran
| NotContinuable
| SessionBusy
| SessionClosing
| SessionClosed
| CanceledBeforeAdmission
| GaveUp.

(** Where a call of [submit] is: it has found the Session open, it has the token, its command is taken, or
    it has returned. *)
Inductive caller : Type := LetIn | HasToken | Waits | Returned (a : answer).

(** Where the goroutine is.  [InRun] is [executeRun]; the three states after it are those of [reply],
    which says whether it records Idle, and whether the loop ends; a pending status has been stored and
    its signal not yet given. *)
Inductive goroutine : Type :=
| Begins
| BeginsSignal
| Selects
| Serves (call : nat)
| BusySignal (call : nat)
| InRun (call : nat)
| GivesToken (call : nat) (a : answer) (idle closing : bool)
| StoresIdle (call : nat) (a : answer) (closing : bool)
| IdleSignal (call : nat) (a : answer) (closing : bool)
| Answers (call : nat) (a : answer) (closing : bool)
| Finishes
| ClosedSignal
| Ends
| Over.

(** Where the first call of [Close] is. *)
Inductive closer : Type := NotClosed | Requested | ClosingSignal | Signals | HasClosed.

(** A call of [WaitForIdle]: it has taken the signal, sleeps on it, or has returned. *)
Inductive idleWaiter : Type := Took (signal : nat) | Sleeps (signal : nat) | Woke (idle : bool).

(** The change signal is the number of the channel: the ones before it are closed.  [life_results] are
    the answers that wait in the channel of a call. *)
Record life := MkLife {
  life_admission : bool;
  life_status : Z;
  life_changed : nat;
  life_closeRequested : bool;
  life_closeSignal : bool;
  life_done : bool;
  life_goroutine : goroutine;
  life_closer : closer;
  life_callers : gmap nat caller;
  life_results : gmap nat answer;
  life_waiters : gmap nat idleWaiter;
}.
#[export] Instance eta_life : Eta life := fun r =>
  MkLife (life_admission r) (life_status r) (life_changed r) (life_closeRequested r) (life_closeSignal r) (life_done r)
    (life_goroutine r) (life_closer r) (life_callers r) (life_results r) (life_waiters r).

(** [NewSession], before its goroutine starts. *)
Definition new_life : life :=
  MkLife false (encodeSessionStatus StatusCreated) 0 false false false Begins NotClosed ∅ ∅ ∅.

(** ** Operations *)

Definition Status (s : life) : SessionStatus :=
  let status := decodeSessionStatus (life_status s) in
  if life_closeRequested s && bool_decide (status <> StatusClosed) then StatusClosing else status.

Definition admissionError (s : life) : option answer :=
  match Status s with StatusClosing => Some SessionClosing | StatusClosed => Some SessionClosed | _ => None end.

(** The two halves of [setStatus]. *)
Definition store_status (status : SessionStatus) (s : life) : life := s <| life_status := encodeSessionStatus status |>.
Definition signal_change (s : life) : life := s <| life_changed := S (life_changed s) |>.

Definition is_ready (s : life) : bool := match life_goroutine s with Begins | BeginsSignal => false | _ => true end.

Definition to (g : goroutine) (s : life) : life := s <| life_goroutine := g |>.
Definition call_at (k : nat) (c : caller) (s : life) : life := s <| life_callers := <[k := c]> (life_callers s) |>.
Definition wait_at (k : nat) (w : idleWaiter) (s : life) : life := s <| life_waiters := <[k := w]> (life_waiters s) |>.

(** What [serve] answers at once: a Continue is checked too. *)
Definition serve_error (continuable : bool) (s : life) : option answer :=
  match admissionError s with Some a => Some a | None => if continuable then None else Some NotContinuable end.

(** [submit], the goroutine ([loop], [serve], [reply], [finishClose]), [Close] and [WaitForIdle]. *)
Inductive life_step : life -> life -> Prop :=
| life_call k s : life_callers s !! k = None -> is_ready s = true ->
    life_step s (call_at k (match admissionError s with Some a => Returned a | None => LetIn end) s)
| life_canceled k s : life_callers s !! k = Some LetIn -> life_step s (call_at k (Returned CanceledBeforeAdmission) s)
| life_take_token k s : life_callers s !! k = Some LetIn ->
    life_step s (if life_admission s then call_at k (Returned SessionBusy) s else call_at k HasToken (s <| life_admission := true |>))
| life_send k s : life_callers s !! k = Some HasToken -> life_goroutine s = Selects -> life_step s (call_at k Waits (to (Serves k) s))
| life_send_canceled k s : life_callers s !! k = Some HasToken ->
    life_step s (call_at k (Returned CanceledBeforeAdmission) (s <| life_admission := false |>))
| life_send_closed k a s : life_callers s !! k = Some HasToken -> life_closeSignal s = true -> admissionError s = Some a ->
    life_step s (call_at k (Returned a) (s <| life_admission := false |>))
| life_receive k a s : life_callers s !! k = Some Waits -> life_results s !! k = Some a -> life_step s (call_at k (Returned a) s)
| life_give_up k s : life_callers s !! k = Some Waits -> life_step s (call_at k (Returned GaveUp) s)
| life_begin s : life_goroutine s = Begins -> life_step s (to BeginsSignal (store_status StatusIdle s))
| life_begin_signal s : life_goroutine s = BeginsSignal -> life_step s (to Selects (signal_change s))
| life_stop s : life_goroutine s = Selects -> life_closeSignal s = true -> life_step s (to Finishes s)
| life_serve_refused k continuable a s : life_goroutine s = Serves k -> serve_error continuable s = Some a ->
    life_step s (to (GivesToken k a false false) s)
| life_serve k s : life_goroutine s = Serves k -> serve_error true s = None -> life_step s (to (BusySignal k) (store_status StatusBusy s))
| life_busy_signal k s : life_goroutine s = BusySignal k -> life_step s (to (InRun k) (signal_change s))
| life_run_ends k s : life_goroutine s = InRun k ->
    life_step s (to (GivesToken k Ran (negb (life_closeRequested s)) (life_closeRequested s)) s)
| life_give_token k a idle closing s : life_goroutine s = GivesToken k a idle closing -> life_admission s = true ->
    life_step s (to (if idle then StoresIdle k a closing else Answers k a closing) (s <| life_admission := false |>))
| life_store_idle k a closing s : life_goroutine s = StoresIdle k a closing ->
    life_step s (to (IdleSignal k a closing) (store_status StatusIdle s))
| life_idle_signal k a closing s : life_goroutine s = IdleSignal k a closing -> life_step s (to (Answers k a closing) (signal_change s))
| life_answer k a closing s : life_goroutine s = Answers k a closing ->
    life_step s (to (if closing then Finishes else Selects) (s <| life_results := <[k := a]> (life_results s) |>))
| life_finish s : life_goroutine s = Finishes -> life_step s (to ClosedSignal (store_status StatusClosed s))
| life_closed_signal s : life_goroutine s = ClosedSignal -> life_step s (to Ends (signal_change s))
| life_over s : life_goroutine s = Ends -> life_step s (to Over (s <| life_done := true |>))
| life_close s : life_closer s = NotClosed -> is_ready s = true ->
    life_step s (s <| life_closeRequested := true |> <| life_closer := Requested |>)
| life_closing s : life_closer s = Requested -> life_step s (store_status StatusClosing s <| life_closer := ClosingSignal |>)
| life_closing_signal s : life_closer s = ClosingSignal -> life_step s (signal_change s <| life_closer := Signals |>)
| life_close_signal s : life_closer s = Signals -> life_step s (s <| life_closeSignal := true |> <| life_closer := HasClosed |>)
| life_wait k s : life_waiters s !! k = None -> is_ready s = true -> life_step s (wait_at k (Took (life_changed s)) s)
| life_look k ch s : life_waiters s !! k = Some (Took ch) ->
    life_step s (wait_at k (match Status s with StatusIdle => Woke true | StatusCreated | StatusBusy => Sleeps ch | _ => Woke false end) s)
| life_wake k ch s : life_waiters s !! k = Some (Sleeps ch) -> (ch < life_changed s)%nat -> life_step s (wait_at k (Took (life_changed s)) s).

Definition life_reach (s : life) : Prop := rtc life_step new_life s.

(** ** The token *)

Definition has_token (c : caller) : bool := match c with HasToken => true | _ => false end.
Definition holders (m : gmap nat caller) : nat := size (filter (fun p => has_token p.2 = true) m).
#[local] Arguments holders : simpl never.

(** The call the goroutine works for, until it has answered it. *)
Definition serving (g : goroutine) : option nat :=
  match g with
  | Serves k | BusySignal k | InRun k | GivesToken k _ _ _ | StoresIdle k _ _ | IdleSignal k _ _ | Answers k _ _ => Some k
  | _ => None
  end.
Definition keeps_token (g : goroutine) : nat := match g with Serves _ | BusySignal _ | InRun _ | GivesToken _ _ _ _ => 1 | _ => 0 end.

(** A signal of a stored status is still to come. *)
Definition goroutine_pending (g : goroutine) : bool := match g with BeginsSignal | BusySignal _ | IdleSignal _ _ _ | ClosedSignal => true | _ => false end.
Definition closer_pending (c : closer) : bool := match c with Requested | ClosingSignal => true | _ => false end.
Definition pending (s : life) : bool := goroutine_pending (life_goroutine s) || closer_pending (life_closer s).

(** A Session that neither idles nor closes. *)
Definition unsettled_status (s : life) : bool := match Status s with StatusCreated | StatusBusy => true | _ => false end.

Lemma holders_new k c m : m !! k = None -> holders (<[k := c]> m) = (holders m + if has_token c then 1 else 0)%nat.
Proof.
  intros Hn. unfold holders. destruct (has_token c) eqn:Ec.
  - rewrite map_filter_insert_True by done. rewrite map_size_insert_None; [lia|]. apply map_lookup_filter_None. by left.
  - rewrite map_filter_insert_False by (cbn; congruence). rewrite delete_id by done. lia.
Qed.

Lemma holders_moved k c c' m : m !! k = Some c' -> (holders (<[k := c]> m) + (if has_token c' then 1 else 0) = holders m + (if has_token c then 1 else 0))%nat.
Proof.
  intros Hy. rewrite <- (insert_delete_id m k c' Hy) at 2. rewrite <- (insert_delete_eq m k c).
  rewrite !holders_new by apply lookup_delete_eq. lia.
Qed.

Record life_inv (s : life) : Prop := {
  lf_token : (if life_admission s then 1 else 0)%nat = (holders (life_callers s) + keeps_token (life_goroutine s))%nat;
  lf_serving k : serving (life_goroutine s) = Some k -> life_results s !! k = None /\ (life_callers s !! k = Some Waits \/ life_callers s !! k = Some (Returned GaveUp));
  lf_results k a : life_results s !! k = Some a -> exists c, life_callers s !! k = Some c /\ (c = Waits \/ exists a', c = Returned a');
  lf_requested : life_closer s <> NotClosed -> life_closeRequested s = true;
  lf_signal : life_closeSignal s = true -> life_closer s = HasClosed;
  lf_signaled : life_closer s = HasClosed -> life_closeSignal s = true;
  lf_took k ch : life_waiters s !! k = Some (Took ch) -> (ch <= life_changed s)%nat;
  lf_sleeps k ch : life_waiters s !! k = Some (Sleeps ch) -> (ch < life_changed s)%nat \/ ch = life_changed s /\ (unsettled_status s = true \/ pending s = true);
}.

Lemma life_inv_start : life_inv new_life.
Proof. split; cbn; try done; intros *; rewrite ?lookup_empty; done. Qed.

Definition sleeps_ok (s : life) : Prop := forall k ch, life_waiters s !! k = Some (Sleeps ch) ->
  (ch < life_changed s)%nat \/ ch = life_changed s /\ (unsettled_status s = true \/ pending s = true).

(** A step leaves sleepers alone when the next signal wakes them, or it is one. *)
Lemma sleeps_frame s s' :
  sleeps_ok s -> life_waiters s' = life_waiters s ->
  (life_changed s' = life_changed s /\ (unsettled_status s = true \/ pending s = true -> unsettled_status s' = true \/ pending s' = true) \/ life_changed s' = S (life_changed s)) ->
  sleeps_ok s'.
Proof.
  intros Hs Hw Hc k ch Hk. rewrite Hw in Hk. destruct (Hs k ch Hk) as [Hlt|[-> Hu]].
  - left. destruct Hc as [[-> _]| ->]; lia.
  - destruct Hc as [[Hch Hi]| ->]; [right|left; lia]. split; [done|by apply Hi].
Qed.

Lemma status_frame s s' : life_status s' = life_status s -> life_closeRequested s' = life_closeRequested s -> unsettled_status s' = unsettled_status s.
Proof. intros H1 H2. unfold unsettled_status, Status. by rewrite H1, H2. Qed.

(** What a step does to the callers and the answers. *)
Definition calls_ok (s : life) : Prop :=
  (if life_admission s then 1 else 0)%nat = (holders (life_callers s) + keeps_token (life_goroutine s))%nat /\
  (forall k, serving (life_goroutine s) = Some k -> life_results s !! k = None /\ (life_callers s !! k = Some Waits \/ life_callers s !! k = Some (Returned GaveUp))) /\
  (forall k a, life_results s !! k = Some a -> exists c, life_callers s !! k = Some c /\ (c = Waits \/ exists a', c = Returned a')).

Definition close_ok (s : life) : Prop :=
  (life_closer s <> NotClosed -> life_closeRequested s = true) /\ (life_closeSignal s = true <-> life_closer s = HasClosed).

Definition took_ok (s : life) : Prop := forall k ch, life_waiters s !! k = Some (Took ch) -> (ch <= life_changed s)%nat.

Lemma life_inv_parts s : life_inv s <-> calls_ok s /\ close_ok s /\ took_ok s /\ sleeps_ok s.
Proof.
  split; [intros []; unfold calls_ok, close_ok, took_ok, sleeps_ok; by split_and!|].
  intros ((H1 & H2 & H3) & (H4 & H5 & H6) & H7 & H8). by split.
Qed.

Lemma took_frame s s' : took_ok s -> life_waiters s' = life_waiters s -> (life_changed s <= life_changed s')%nat -> took_ok s'.
Proof. intros Ht Hw Hc k ch Hk. rewrite Hw in Hk. specialize (Ht k ch Hk). lia. Qed.

(** A caller that is not answered moves. *)
Lemma caller_moves k c c' s (adm : bool) :
  calls_ok s -> life_callers s !! k = Some c -> (forall a, c <> Returned a) -> c <> Waits \/ (exists a, c' = Returned a /\ (a = GaveUp \/ exists b, life_results s !! k = Some b)) ->
  (forall a, c <> Waits -> life_results s !! k <> Some a) ->
  ((if adm then 1 else 0) + (if has_token c then 1 else 0) = (if life_admission s then 1 else 0) + (if has_token c' then 1 else 0))%nat ->
  calls_ok (call_at k c' (s <| life_admission := adm |>)).
Proof.
  intros (H1 & H2 & H3) Hk Hne Hc Hr Ht. split_and!; cbn.
  - pose proof (holders_moved k c' c _ Hk). lia.
  - intros k' Hs. destruct (H2 k' Hs) as [Hn Hw]. split; [done|]. destruct (decide (k' = k)) as [->|Hne']; [|by rewrite lookup_insert_ne].
    rewrite lookup_insert_eq. rewrite Hk in Hw. destruct Hw as [[= ->]|[= ->]]; [|by destruct (Hne GaveUp)].
    destruct Hc as [?|(a & -> & [->|[b Hb]])]; [done|by right|congruence].
  - intros k' a Ha. destruct (decide (k' = k)) as [->|Hne']; [|rewrite lookup_insert_ne by done; by eapply H3].
    rewrite lookup_insert_eq. exists c'. split; [done|]. destruct Hc as [Hc|(a' & -> & _)]; [by destruct (Hr a Hc)|right; by eexists].
Qed.

Lemma not_answered k c s : calls_ok s -> life_callers s !! k = Some c -> (forall a, c <> Returned a) -> forall a, c <> Waits -> life_results s !! k <> Some a.
Proof. intros (_ & _ & H3) Hk Hne a Hw Ha. destruct (H3 k a Ha) as (c' & Hc & [->|[a' ->]]); [congruence|]. rewrite Hk in Hc. injection Hc as ->. by destruct (Hne a'). Qed.

(** The goroutine moves and keeps what it has. *)
Lemma goroutine_moves g s st ch dn :
  calls_ok s -> keeps_token g = keeps_token (life_goroutine s) -> serving g = serving (life_goroutine s) \/ serving g = None ->
  calls_ok (to g (s <| life_status := st |> <| life_changed := ch |> <| life_done := dn |>)).
Proof. intros (H1 & H2 & H3) Hk Hs. split_and!; cbn; [by rewrite Hk| |done]. intros k. destruct Hs as [->| ->]; [apply H2|done]. Qed.

Ltac sleepers := match goal with Hw : sleeps_ok _ |- _ => eapply sleeps_frame; [exact Hw|done|left; split; [done|]] end.
Ltac signals := match goal with Hw : sleeps_ok _ |- _ => eapply sleeps_frame; [exact Hw|done|by right] end.
Ltac tooks := match goal with Ht : took_ok _ |- _ => eapply took_frame; [exact Ht|done|cbn; lia] end.

(** A pending signal stays pending while the goroutine and the closer stay pending. *)
Lemma pending_or s s' :
  (unsettled_status s = true -> unsettled_status s' = true \/ pending s' = true) -> (pending s = true -> pending s' = true) ->
  unsettled_status s = true \/ pending s = true -> unsettled_status s' = true \/ pending s' = true.
Proof. intros H1 H2 [H|H]; [by apply H1|right; by apply H2]. Qed.

Lemma life_step_inv s s' : life_step s s' -> life_inv s -> life_inv s'.
Proof.
  rewrite !life_inv_parts. intros Hs (Hc & Hl & Ht & Hw).
  destruct Hs as [k s Hn Hr|k s Hk|k s Hk|k s Hk Hg|k s Hk|k a s Hk Hsig Ha|k a s Hk Ha|k s Hk|s Hg|s Hg|s Hg Hsig|k cont a s Hg Ha|k s Hg Ha|k s Hg|k s Hg|k a idle closing s Hg Had|k a closing s Hg|k a closing s Hg|k a closing s Hg|s Hg|s Hg|s Hg|s Hcl Hr|s Hcl|s Hcl|s Hcl|k s Hn Hr|k ch s Hk|k ch s Hk Hlt].
  - split_and!; [|done|done|done]. destruct Hc as (H1 & H2 & H3). split_and!; cbn.
    + rewrite holders_new by done. destruct (admissionError s); cbn; lia.
    + intros k' Hs. destruct (H2 k' Hs) as [H4 H5]. split; [done|]. rewrite lookup_insert_ne; [done|]. intros ->. rewrite Hn in H5. by destruct H5.
    + intros k' a Ha. destruct (H3 k' a Ha) as (c & Hk & Hx). exists c. split; [|done]. rewrite lookup_insert_ne; [done|]. intros ->. congruence.
  - split_and!; [|done|done|done]. apply (caller_moves k LetIn _ s (life_admission s)); [done|done|done|by left|by eapply not_answered|cbn; lia].
  - destruct (life_admission s) eqn:Ea.
    + split_and!; [|done|done|done]. apply (caller_moves k LetIn _ s (life_admission s)); [done|done|done|by left|by eapply not_answered|cbn; lia].
    + split_and!; [|done|done|done]. apply (caller_moves k LetIn HasToken s true); [done|done|done|by left|by eapply not_answered|rewrite Ea; cbn; lia].
  - split_and!; [|done|done|].
    + pose proof (not_answered k HasToken s Hc Hk) as Hna. destruct Hc as (H1 & H2 & H3). rewrite Hg in H1. split_and!; cbn.
      * pose proof (holders_moved k Waits HasToken _ Hk) as Hh. cbn in Hh, H1. lia.
      * intros k' [= ->]. split; [|left; by rewrite lookup_insert_eq]. destruct (life_results s !! k') eqn:Er; [|done]. by destruct (Hna ltac:(done) a ltac:(done)).
      * intros k' a Ha. destruct (decide (k' = k)) as [->|Hne]; [rewrite lookup_insert_eq; exists Waits; split; [done|by left]|]. rewrite lookup_insert_ne by done. by eapply H3.
    + sleepers. apply pending_or; [by left|]. unfold pending. rewrite Hg. done.
  - split_and!; [|done|done|done]. apply (caller_moves k HasToken _ s false); [done|done|done|by left|by eapply not_answered|].
    destruct Hc as (H1 & _). pose proof (holders_moved k LetIn HasToken _ Hk) as Hh. cbn in *. destruct (life_admission s); lia.
  - split_and!; [|done|done|done]. apply (caller_moves k HasToken _ s false); [done|done|done|by left|by eapply not_answered|].
    destruct Hc as (H1 & _). pose proof (holders_moved k LetIn HasToken _ Hk) as Hh. cbn in *. destruct (life_admission s); lia.
  - split_and!; [|done|done|done]. apply (caller_moves k Waits _ s (life_admission s)); [done|done|done|right; exists a; split; [done|right; by eexists]|done|cbn; lia].
  - split_and!; [|done|done|done]. apply (caller_moves k Waits _ s (life_admission s)); [done|done|done|right; exists GaveUp; split; [done|by left]|done|cbn; lia].
  - split_and!; [|done|tooks|]; [by apply (goroutine_moves BeginsSignal s _ _ _ Hc); [rewrite Hg|right]|]. sleepers. intros _. by right.
  - split_and!; [|done|tooks|signals]. by apply (goroutine_moves Selects s _ _ _ Hc); [rewrite Hg|right].
  - split_and!; [|done|tooks|]; [by apply (goroutine_moves Finishes s _ _ _ Hc); [rewrite Hg|right]|]. sleepers. apply pending_or; [by left|]. unfold pending. by rewrite Hg.
  - split_and!; [|done|tooks|]; [by apply (goroutine_moves (GivesToken k a false false) s _ _ _ Hc); rewrite Hg; [|left]|]. sleepers. apply pending_or; [by left|]. unfold pending. by rewrite Hg.
  - split_and!; [|done|tooks|]; [by apply (goroutine_moves (BusySignal k) s _ _ _ Hc); rewrite Hg; [|left]|]. sleepers. intros _. by right.
  - split_and!; [|done|tooks|signals]. by apply (goroutine_moves (InRun k) s _ _ _ Hc); rewrite Hg; [|left].
  - split_and!; [|done|tooks|]; [by apply (goroutine_moves (GivesToken k Ran (negb (life_closeRequested s)) (life_closeRequested s)) s _ _ _ Hc); rewrite Hg; [|left]|].
    sleepers. apply pending_or; [by left|]. unfold pending. by rewrite Hg.
  - split_and!; [|done|tooks|].
    + destruct Hc as (H1 & H2 & H3). rewrite Hg in H1, H2. rewrite Had in H1. split_and!; cbn; [destruct idle; cbn in *; lia| |done].
      intros k' Hs. apply H2. destruct idle; exact Hs.
    + sleepers. apply pending_or; [by left|]. unfold pending. rewrite Hg. cbn. intros ->. apply orb_true_r.
  - split_and!; [|done|tooks|]; [by apply (goroutine_moves (IdleSignal k a closing) s _ _ _ Hc); rewrite Hg; [|left]|]. sleepers. intros _. by right.
  - split_and!; [|done|tooks|signals]. by apply (goroutine_moves (Answers k a closing) s _ _ _ Hc); rewrite Hg; [|left].
  - split_and!; [|done|tooks|].
    + destruct Hc as (H1 & H2 & H3). rewrite Hg in H1, H2. destruct (H2 k eq_refl) as [Hn Hx]. split_and!; cbn; [destruct closing; cbn in *; lia|by destruct closing|].
      intros k' b [[<- _]|[_ Hb]]%lookup_insert_Some; [|by eapply H3]. destruct Hx as [Hx|Hx]; eexists; (split; [exact Hx|]); [by left|right; by eexists].
    + sleepers. apply pending_or; [by left|]. unfold pending. rewrite Hg. cbn. intros ->. apply orb_true_r.
  - split_and!; [|done|tooks|]; [by apply (goroutine_moves ClosedSignal s _ _ _ Hc); rewrite Hg; [|left]|]. sleepers. intros _. by right.
  - split_and!; [|done|tooks|signals]. by apply (goroutine_moves Ends s _ _ _ Hc); rewrite Hg; [|left].
  - split_and!; [|done|tooks|]; [by apply (goroutine_moves Over s _ _ _ Hc); rewrite Hg; [|left]|]. sleepers. apply pending_or; [by left|]. unfold pending. by rewrite Hg.
  - split_and!; [done| |tooks|].
    + destruct Hl as [_ Hl]. rewrite Hcl in Hl. split; cbn; [done|]. split; [intros Hx%Hl; done|done].
    + sleepers. intros _. right. apply orb_true_r.
  - split_and!; [done| |tooks|].
    + destruct Hl as [Hr Hl]. rewrite Hcl in *. split; cbn; [intros _; by apply Hr|]. split; [intros Hx%Hl; done|done].
    + sleepers. intros _. right. apply orb_true_r.
  - split_and!; [done| |tooks|signals]. destruct Hl as [Hr Hl]. rewrite Hcl in *. split; cbn; [intros _; by apply Hr|]. split; [intros Hx%Hl; done|done].
  - split_and!; [done| |tooks|].
    + destruct Hl as [Hr Hl]. rewrite Hcl in *. split; cbn; [intros _; by apply Hr|done].
    + sleepers. apply pending_or; [by left|]. unfold pending. rewrite Hcl. cbn. by rewrite orb_false_r.
  - split_and!; [done|done| |].
    + intros k' ch; cbn; intros [[_ [= <-]]|[_ Hk]]%lookup_insert_Some; [cbn; lia|by eapply Ht].
    + intros k' ch; cbn; intros [[_ ?]|[_ Hk]]%lookup_insert_Some; [done|by apply (Hw k')].
  - split_and!; [done|done| |].
    + intros k' ch'; cbn; intros [[_ He]|[_ Hk']]%lookup_insert_Some; [by destruct (Status s)|by eapply Ht].
    + intros k' ch'; cbn; intros [[_ He]|[_ Hk']]%lookup_insert_Some; [|by apply (Hw k')]. specialize (Ht _ _ Hk).
      assert (ch' = ch /\ unsettled_status s = true) as [-> Hu] by (unfold unsettled_status; destruct (Status s); by simplify_eq).
      destruct (decide (ch = life_changed s)) as [->|]; [right; split; [done|by left]|left; cbn; lia].
  - split_and!; [done|done| |].
    + intros k' ch'; cbn; intros [[_ [= <-]]|[_ Hk']]%lookup_insert_Some; [cbn; lia|by eapply Ht].
    + intros k' ch'; cbn; intros [[_ ?]|[_ Hk']]%lookup_insert_Some; [done|by apply (Hw k')].
Qed.

Lemma life_reach_inv s : life_reach s -> life_inv s.
Proof. intros Hr. pose proof life_inv_start as H0. unfold life_reach in Hr. induction Hr as [|s0 s1 s2 Hst _ IH]; [done|]. by eapply IH, life_step_inv. Qed.

(** ** Properties *)

Lemma closed_refuses s : life_closeRequested s = true -> admissionError s <> None.
Proof. intros Hr. unfold admissionError, Status. rewrite Hr. cbn. destruct (bool_decide_reflect (decodeSessionStatus (life_status s) <> StatusClosed)) as [|Hn]; [done|]. destruct (decodeSessionStatus _); try done; by destruct Hn. Qed.

(** The call whose Run has begun: the goroutine is past its check of the Session. *)
Definition in_run (g : goroutine) : option nat := match g with BusySignal k | InRun k => Some k | _ => None end.

Definition turned_away (c : caller) : Prop := c = Returned SessionClosing \/ c = Returned SessionClosed.

Lemma closing_answer s a : admissionError s = Some a -> a = SessionClosing \/ a = SessionClosed.
Proof. unfold admissionError. destruct (Status s); intros [= <-]; auto. Qed.

Lemma step_requested s s' : life_step s s' -> life_closeRequested s = true -> life_closeRequested s' = true.
Proof. intros Hs Hr. destruct Hs; cbn; try done; by case_match. Qed.

Lemma step_in_run s s' k :
  life_step s s' -> life_closeRequested s = true -> in_run (life_goroutine s') = Some k -> in_run (life_goroutine s) = Some k.
Proof.
  intros Hs Hr. destruct Hs; cbn; try done; try (by case_match).
  all: intros [= <-]; try (by match goal with H : life_goroutine _ = _ |- _ => rewrite H end).
  unfold serve_error in *. destruct (admissionError s) eqn:Ea; [done|]. by destruct (closed_refuses s Hr).
Qed.

Lemma step_turned_away s s' k c :
  life_step s s' -> life_closeRequested s = true -> (forall c0, life_callers s !! k = Some c0 -> turned_away c0) ->
  life_callers s' !! k = Some c -> turned_away c.
Proof.
  intros Hs Hr Hold. destruct Hs; cbn; try (by apply Hold);
    try (case_match; try (by apply Hold)).
  all: cbn; intros [[<- <-]|[_ Hc]]%lookup_insert_Some; [|by apply Hold].
  all: try (by match goal with H : life_callers _ !! _ = Some _ |- _ => destruct (Hold _ H) end).
  - match goal with H : admissionError _ = Some _ |- _ => by destruct (closing_answer _ _ H) as [->| ->]; [left|right] end.
  - by destruct (closed_refuses s Hr).
Qed.

Lemma run_after_close s s' k :
  rtc life_step s s' -> life_closeRequested s = true -> in_run (life_goroutine s') = Some k -> in_run (life_goroutine s) = Some k.
Proof.
  induction 1 as [|s0 s1 s2 Hst _ IH]; [done|]. intros Hc Hk.
  apply (step_in_run _ _ _ Hst Hc), IH; [by apply (step_requested _ _ Hst)|done].
Qed.

Lemma turned_away_later s s' k c :
  rtc life_step s s' -> life_closeRequested s = true -> (forall c0, life_callers s !! k = Some c0 -> turned_away c0) ->
  life_callers s' !! k = Some c -> turned_away c.
Proof.
  induction 1 as [s|s0 s1 s2 Hst _ IH]; intros Hc Hold; [by apply Hold|]. apply IH; [by apply (step_requested _ _ Hst)|].
  intros c0. by apply (step_turned_away _ _ _ _ Hst Hc).
Qed.

(** C17: A Session admits one Run at a time.  The token is in its channel exactly when one call of Prompt or
    Continue has it, or the goroutine has it for the one it serves, and never for two; giving it back
    never blocks; a call that can read its answer has no token left behind it, so it may start again at
    once.  From the moment Close was called no Run begins: a Run that is in flight at any later time
    is the one whose call the goroutine had already let past its check when Close was called; every
    call that comes later is turned away; and a call that waits to hand over its command, once the
    close is signaled, can return an error and never an empty result without one. *)
Theorem session_admits_one_run s :
  life_reach s ->
  (holders (life_callers s) + keeps_token (life_goroutine s) <= 1)%nat /\
  (life_admission s = true <-> (holders (life_callers s) + keeps_token (life_goroutine s) = 1)%nat) /\
  (forall k a idle closing, life_goroutine s = GivesToken k a idle closing -> life_admission s = true) /\
  (forall k a, life_results s !! k = Some a -> serving (life_goroutine s) <> Some k /\ life_callers s !! k <> Some HasToken) /\
  (life_closeRequested s = true -> forall s', rtc life_step s s' ->
     (forall k, in_run (life_goroutine s') = Some k -> in_run (life_goroutine s) = Some k) /\
     (forall k c, life_callers s !! k = None -> life_callers s' !! k = Some c -> turned_away c)) /\
  (life_closeSignal s = true -> admissionError s <> None).
Proof.
  intros Hr%life_reach_inv. pose proof (lf_token _ Hr) as Ht. split_and!.
  - destruct (life_admission s); lia.
  - destruct (life_admission s); split; intros; (done || lia).
  - intros k a idle closing Hg. rewrite Hg in Ht. cbn in Ht. destruct (life_admission s); [done|lia].
  - intros k a Hk. split.
    + intros Hs. destruct (lf_serving _ Hr k Hs). congruence.
    + destruct (lf_results _ Hr k a Hk) as (c & -> & [->|[a' ->]]); done.
  - intros Hc s' Hs. split; [intros k; exact (run_after_close s s' k Hs Hc)|]. intros k c Hn. apply (turned_away_later s s' k c Hs Hc). congruence.
  - intros Hc. apply closed_refuses, (lf_requested _ Hr). by rewrite (lf_signal _ Hr Hc).
Qed.

(** The steps of the goroutine that end a Session, from where it is; every other step is a caller's. *)
Definition next_of (s : life) : option life :=
  match life_goroutine s with
  | Begins => Some (to BeginsSignal (store_status StatusIdle s))
  | BeginsSignal => Some (to Selects (signal_change s))
  | Selects => if life_closeSignal s then Some (to Finishes s) else None
  | Serves k => match serve_error true s with Some a => Some (to (GivesToken k a false false) s) | None => Some (to (BusySignal k) (store_status StatusBusy s)) end
  | BusySignal k => Some (to (InRun k) (signal_change s))
  | InRun k => Some (to (GivesToken k Ran (negb (life_closeRequested s)) (life_closeRequested s)) s)
  | GivesToken k a idle closing =>
    if life_admission s then Some (to (if idle then StoresIdle k a closing else Answers k a closing) (s <| life_admission := false |>)) else None
  | StoresIdle k a closing => Some (to (IdleSignal k a closing) (store_status StatusIdle s))
  | IdleSignal k a closing => Some (to (Answers k a closing) (signal_change s))
  | Answers k a closing => Some (to (if closing then Finishes else Selects) (s <| life_results := <[k := a]> (life_results s) |>))
  | Finishes => Some (to ClosedSignal (store_status StatusClosed s))
  | ClosedSignal => Some (to Ends (signal_change s))
  | Ends => Some (to Over (s <| life_done := true |>))
  | Over => None
  end.

Lemma next_of_step s s' : next_of s = Some s' -> life_step s s'.
Proof.
  unfold next_of. destruct (life_goroutine s) eqn:Hg; try done.
  - intros [= <-]. by constructor.
  - intros [= <-]. by constructor.
  - destruct (life_closeSignal s) eqn:Hc; [|done]. intros [= <-]. by constructor.
  - destruct (serve_error true s) eqn:He; intros [= <-]; [by eapply life_serve_refused|by constructor].
  - intros [= <-]. by constructor.
  - intros [= <-]. by constructor.
  - destruct (life_admission s) eqn:Ha; [|done]. intros [= <-]. by constructor.
  - intros [= <-]. by constructor.
  - intros [= <-]. by constructor.
  - intros [= <-]. by constructor.
  - intros [= <-]. by constructor.
  - intros [= <-]. by constructor.
  - intros [= <-]. by constructor.
Qed.

(** How far the goroutine is from its end, once Close has signaled. *)
Definition steps_left (g : goroutine) : nat :=
  match g with
  | Over => 0 | Ends => 1 | ClosedSignal => 2 | Finishes => 3 | Selects => 4 | Answers _ _ _ => 5 | IdleSignal _ _ _ => 6 | StoresIdle _ _ _ => 7
  | GivesToken _ _ _ _ => 8 | InRun _ => 9 | BusySignal _ => 10 | Serves _ => 11 | BeginsSignal => 5 | Begins => 6
  end.

Lemma next_of_left s :
  life_inv s -> life_closeSignal s = true -> life_goroutine s <> Over ->
  exists s', next_of s = Some s' /\ life_closeSignal s' = true /\ (steps_left (life_goroutine s') < steps_left (life_goroutine s))%nat.
Proof.
  intros Hi Hc Hne. pose proof (lf_token _ Hi) as Ht. unfold next_of. destruct (life_goroutine s) as [| | |k|k|k|k a idle closing|k a closing|k a closing|k a closing| | | |] eqn:Hg; cbn in *; try done;
    try (eexists; split; [reflexivity|]; cbn; rewrite ?Hc; split; [done|cbn; lia]).
  - rewrite Hc. eexists. split; [reflexivity|]. split; [done|cbn; lia].
  - destruct (serve_error true s); (eexists; split; [reflexivity|]; split; [done|cbn; lia]).
  - destruct (life_admission s); [|lia]. eexists. split; [reflexivity|]. split; [done|]. destruct idle; cbn; lia.
  - eexists. split; [reflexivity|]. split; [done|]. destruct closing; cbn; lia.
Qed.

Lemma over_is_done s : life_reach s -> life_goroutine s = Over -> life_done s = true.
Proof.
  intros Hr. assert (Hstep : forall s s', life_step s s' -> (life_goroutine s = Over -> life_done s = true) -> life_goroutine s' = Over -> life_done s' = true).
  { clear. intros s s' Hs Hi. destruct Hs; cbn; try done; try (by destruct (life_admission s)); try (by destruct idle); try (by destruct closing). }
  unfold life_reach in Hr. assert (H0 : life_goroutine new_life = Over -> life_done new_life = true) by done.
  induction Hr as [|s0 s1 s2 Hst _ IH]; [done|]. by eapply IH, Hstep.
Qed.

Lemma goroutine_ends n s :
  (steps_left (life_goroutine s) <= n)%nat -> life_inv s -> life_closeSignal s = true -> exists s', rtc life_step s s' /\ life_goroutine s' = Over.
Proof.
  revert s. induction n as [|n IH]; intros s Hn Hi Hc.
  - exists s. split; [apply rtc_refl|]. by destruct (life_goroutine s); cbn in Hn; try lia.
  - destruct (decide (steps_left (life_goroutine s) = 0)%nat) as [Hz|Hz]; [apply IH; [lia|done|done]|].
    destruct (next_of_left s Hi Hc) as (s1 & H1 & Hc1 & Hlt); [by intros Hg; rewrite Hg in Hz|]. apply next_of_step in H1 as Hst.
    destruct (IH s1) as (s2 & Hr & Hg); [lia|by eapply life_step_inv|done|]. exists s2. split; [by eapply rtc_l|done].
Qed.

(** The call of Close gets as far as its signal. *)
Lemma closer_signals s : life_inv s -> life_closer s <> NotClosed -> exists s', rtc life_step s s' /\ life_inv s' /\ life_closeSignal s' = true.
Proof.
  intros Hi Hne. destruct (life_closer s) eqn:Hc; [done| | | |].
  - pose proof (life_closing s Hc) as H1.
    pose proof (life_closing_signal (store_status StatusClosing s <| life_closer := ClosingSignal |>) eq_refl) as H2.
    pose proof (life_close_signal (signal_change (store_status StatusClosing s <| life_closer := ClosingSignal |>) <| life_closer := Signals |>) eq_refl) as H3.
    eexists. split; [eapply rtc_l; [exact H1|eapply rtc_l; [exact H2|apply rtc_once; exact H3]]|]. split; [|done].
    by eapply life_step_inv, life_step_inv, life_step_inv; [exact H3|exact H2|exact H1|].
  - pose proof (life_closing_signal s Hc) as H2. pose proof (life_close_signal (signal_change s <| life_closer := Signals |>) eq_refl) as H3.
    eexists. split; [eapply rtc_l; [exact H2|apply rtc_once; exact H3]|]. split; [|done]. by eapply life_step_inv, life_step_inv; [exact H3|exact H2|].
  - pose proof (life_close_signal s Hc) as H3. eexists. split; [by apply rtc_once|]. split; [by eapply life_step_inv|done].
  - exists s. split; [apply rtc_refl|]. split; [done|by apply (lf_signaled _ Hi)].
Qed.

(** C18: A Close comes to its end: from any state in which it was called it can run to the end of the
    goroutine, which closes Done; once it has signaled, the goroutine always has a step of its own
    (the end of a Run is one), and eleven such steps end it when it takes no further command.  And
    WaitForIdle misses no change: one that sleeps on the current signal does so because the Session is
    created or busy, or because a status was stored whose signal is about to wake it. *)
Theorem session_close_and_idle s :
  life_reach s ->
  (life_closer s <> NotClosed -> exists s', rtc life_step s s' /\ life_goroutine s' = Over /\ life_done s' = true) /\
  (life_closeSignal s = true -> life_goroutine s <> Over ->
   exists s', next_of s = Some s' /\ life_step s s' /\ (steps_left (life_goroutine s') < steps_left (life_goroutine s) <= 11)%nat) /\
  (forall k ch, life_waiters s !! k = Some (Sleeps ch) -> (life_changed s <= ch)%nat -> unsettled_status s = true \/ pending s = true).
Proof.
  intros Hr. pose proof (life_reach_inv s Hr) as Hi. split_and!.
  - intros Hne. destruct (closer_signals s Hi Hne) as (s1 & H1 & Hi1 & Hc1). destruct (goroutine_ends _ s1 (Nat.le_refl _) Hi1 Hc1) as (s2 & H2 & Hg).
    exists s2. split; [by etrans|]. split; [done|]. apply over_is_done; [|done]. unfold life_reach in *. etrans; [exact Hr|]. by etrans.
  - intros Hc Hne. destruct (next_of_left s Hi Hc Hne) as (s' & H1 & _ & Hlt). exists s'. split; [done|]. split; [by apply next_of_step|].
    split; [done|]. destruct (life_goroutine s); cbn; lia.
  - intros k ch Hk Hle. destruct (lf_sleeps _ Hi k ch Hk) as [Hlt|[_ ?]]; [lia|done].
Qed.

(** ** Samples *)

Definition serving_life : life := signal_change (to Selects (store_status StatusIdle new_life)).
Definition prompted : life :=
  call_at 0 Waits (to (InRun 0) (signal_change (store_status StatusBusy (serving_life <| life_admission := true |>)))).

Lemma life_last s s' s'' : life_step s s' -> s' = s'' -> rtc life_step s s''.
Proof. intros Hs <-. by apply rtc_once. Qed.

Lemma prompted_reached : life_reach prompted.
Proof.
  unfold life_reach. eapply rtc_l; [by apply life_begin|]. eapply rtc_l; [by apply life_begin_signal|]. eapply rtc_l; [by apply (life_call 0)|].
  eapply rtc_l; [by apply (life_take_token 0)|]. eapply rtc_l; [by apply (life_send 0)|]. eapply rtc_l; [by apply (life_serve 0)|].
  eapply life_last; [by apply (life_busy_signal 0)|by vm_compute].
Qed.

Definition close_called : life := prompted <| life_closeRequested := true |> <| life_closer := Requested |>.

Lemma close_called_reached : life_reach close_called.
Proof. unfold life_reach. eapply rtc_r; [exact prompted_reached|]. by apply life_close. Qed.

(** A second Prompt is refused while the first one runs, and after Close no other Run begins. *)
Lemma session_admits_one_run_witness :
  life_admission close_called = true /\ keeps_token (life_goroutine close_called) = 1%nat /\ holders (life_callers close_called) = 0%nat /\
  forall s' k, rtc life_step close_called s' -> in_run (life_goroutine s') = Some k -> k = 0%nat.
Proof.
  destruct (session_admits_one_run close_called close_called_reached) as (_ & Ht & _ & _ & Hc & _).
  split; [apply Ht; by vm_compute|]. split; [by vm_compute|]. split; [by vm_compute|].
  intros s' k Hs Hk. destruct (Hc eq_refl s' Hs) as [Hin _]. specialize (Hin k Hk). vm_compute in Hin. congruence.
Defined.

Lemma session_close_and_idle_witness : Status close_called = StatusClosing /\ exists s', rtc life_step close_called s' /\ life_goroutine s' = Over /\ life_done s' = true.
Proof.
  split; [by vm_compute|]. by apply (session_close_and_idle close_called close_called_reached).
Defined.

(** ** A Session that is closed and says that it is closing

    Close marks the request, and then stores its status.  A Run that ends in between sees the request,
    and the goroutine ends and stores that the Session is closed; Close then stores that it is closing,
    and no step changes the status any more. *)
Example closed_says_closing :
  exists s, life_reach s /\ life_goroutine s = Over /\ life_done s = true /\ life_closer s = HasClosed /\ Status s = StatusClosing /\
    forall s', life_step s s' -> Status s' = StatusClosing.
Proof.
  eexists. split; [|split; [|split; [|split; [|split]]]].
  - unfold life_reach. etrans; [exact prompted_reached|]. eapply rtc_l; [by apply life_close|]. eapply rtc_l; [by apply (life_run_ends 0)|].
    eapply rtc_l; [by eapply life_give_token|]. eapply rtc_l; [by eapply life_answer|]. eapply rtc_l; [by apply life_finish|].
    eapply rtc_l; [by apply life_closed_signal|]. eapply rtc_l; [by apply life_over|]. eapply rtc_l; [by apply life_closing|].
    eapply rtc_l; [by apply life_closing_signal|]. by apply rtc_once, life_close_signal.
  - done.
  - done.
  - done.
  - by vm_compute.
  - intros s' Hs. by inversion Hs; subst; clear Hs; try done; destruct (life_admission _).
Qed.
