(* ===== verification/ControlMessages.v ===== *)
(** * What becomes of a message for a Run

    [gotato/queue.go], with [notice.go] and the ends of a Run and of a Session ([loop.go],
    [sessionlifecycle.go]): the callers of Steer, FollowUp, Interrupt and QueueNotice, the Run that takes
    messages, and the host that hands them from one Session to the next, one critical section or
    one written Event at a time.  The queue itself is [ControlQueue]. *)

From S2P Require Import Prelude Types Events ControlQueue.
Local Open Scope string_scope.
Local Open Scope list_scope.

(** ** Data *)

(** What is reported of a message, by its ID; [HandedOver] and [TakenIn] are the silent ways out of one
    Session and into another, and [Unwritten] is the report that was lost with its write. *)
Inductive fact : Type :=
| Told (id : string)
| WasCommitted (id : string)
| WasDropped (id : string) (why : string)
| WasRejected (id : string) (why : string)
| Unwritten (id : string)
| HandedOver (id : string)
| TakenIn (id : string).

(** Where a Run is: there is none, it is registered and not yet in flight, it is going (under the lease
    it has taken), it has begun to end, or it has drops to report. *)
Inductive phase : Type :=
| NoRun
| Starting
| Going (taken : option lease)
| Ending
| Leaving (left : list control).

(** The goroutine of the Session: it serves, it reports what a close left, or it is done. *)
Inductive service : Type := Serving | Unloading (left : list control) | Unloaded.

(** A caller: its message has passed the checks, has a place, was reported queued, has to be reported
    dropped, or is answered. *)
Inductive sender : Type :=
| Checked (c : control)
| Placed (c : control)
| Reported (c : control)
| Refused (c : control) (why : string)
| Answered (c : control) (taken : bool).

(** [controlOutcome]. *)
Inductive controlOutcome : Type := sentControl | controlRunEnded | controlSessionClosed.

Record messages := MkMessages {
  mg_queue : controlQueue;
  mg_inRun : bool;
  mg_ending : bool;
  mg_keeps : bool;
  mg_closing : bool;
  mg_phase : phase;
  mg_service : service;
  mg_senders : gmap nat sender;
  mg_facts : list fact;
}.
#[export] Instance eta_messages : Eta messages := fun r =>
  MkMessages (mg_queue r) (mg_inRun r) (mg_ending r) (mg_keeps r) (mg_closing r) (mg_phase r) (mg_service r) (mg_senders r) (mg_facts r).

Definition id_of (c : control) : string := m_ID (ct_message c).

Definition is_interrupt (c : control) : bool := String.eqb (ct_source c) MessageSourceInterrupt.
Definition is_notice (c : control) : bool := String.eqb (ct_source c) MessageSourceNotice.

(** ** Critical sections *)

Definition controlGate (needsRun : bool) (s : messages) : controlOutcome :=
  if (needsRun && negb (mg_inRun s)) || (mg_inRun s && mg_ending s && negb (mg_keeps s)) then controlRunEnded else sentControl.

Definition fillControl (c : control) (needsRun : bool) (s : messages) : messages * controlOutcome :=
  match controlGate needsRun s with
  | sentControl =>
    let (q, put) := fill c (mg_queue s) in
    (s <| mg_queue := q |>, if put then sentControl else controlSessionClosed)
  | outcome => (s <| mg_queue := release (ct_kind c) (mg_queue s) |>, outcome)
  end.

(** A notice is put in its place whatever the Run does. *)
Definition fill_place (c : control) (s : messages) : messages * controlOutcome :=
  if is_notice c then
    let (q, put) := fill c (mg_queue s) in
    (s <| mg_queue := q |>, if put then sentControl else controlSessionClosed)
  else fillControl c (is_interrupt c) s.

Definition dropped_because (outcome : controlOutcome) : option string :=
  match outcome with sentControl => None | controlRunEnded => Some "run_ended" | controlSessionClosed => Some "session_closed" end.

(** The step of [requeue] for one message. *)
Definition requeued (c : control) : control :=
  let source := if is_interrupt c then MessageSourceSteer else ct_source c in
  MkControl 0 (ct_message c) source (if String.eqb source MessageSourceNotice then kindNotice else kindSteer) (ct_number c).

Definition gate_open (s : messages) : bool := match controlGate false s with sentControl => true | _ => false end.

Definition requeue_one (m : control) (s : messages) : messages * bool :=
  let queued := requeued m in
  let (q, put) := if gate_open s then add queued (mg_queue s) else (mg_queue s, false) in
  if negb put && bool_decide (ct_kind queued = kindSteer) && gate_open s then
    let (q, put) := add (queued <| ct_kind := kindFollowUp |>) q in (s <| mg_queue := q |>, put)
  else (s <| mg_queue := q |>, put).

Definition requeue (ms : list control) (s : messages) : messages * list control :=
  foldl (fun '(s, rest) m => let (s, put) := requeue_one m s in (s, if put then rest else rest ++ [m])) (s, []) ms.

(** [keepsQueued]; the statuses are completed and failed, or others. *)
Definition keepsQueued (handoff completed_or_failed : bool) : bool := handoff && completed_or_failed.

(** ** The steps *)

Definition report (f : fact) (s : messages) : messages := s <| mg_facts := mg_facts s ++ [f] |>.
(** The report of what became of a message, when its write was taken or not: the code does not look at
    the error ([_ = a.writeNow], and the flush of what is staged). *)
Definition says (wrote : bool) (id : string) (f : fact) : fact := if wrote then f else Unwritten id.
Definition at_sender (k : nat) (x : sender) (s : messages) : messages := s <| mg_senders := <[k := x]> (mg_senders s) |>.

Definition message_start (steer followUp notice : Z) : messages :=
  MkMessages (newControlQueue steer followUp notice) false false false false NoRun Serving ∅ [].

Section steps.
Context (handoff : bool).

(** The callers: a call is let in, refused for its size or for want of room, given a place, reported
    queued (or not, when that cannot be written), put in the queue or turned away, and answered.  The
    Session: it is closed; a Run is registered, is in flight, takes messages, commits or drops each,
    puts the rest back, begins to end, drops what waits unless the host is to have it, and is over;
    after the last one what is left is dropped.  The host, between Runs: it takes what waits, and
    puts messages in. *)
Inductive message_step : messages -> messages -> Prop :=
| mg_call k c s : mg_senders s !! k = None -> mg_closing s = false -> ct_kind c = kindOf (ct_source c) ->
    (is_interrupt c = true -> mg_inRun s = true) -> message_step s (at_sender k (Checked c) s)
| mg_too_large k c s : mg_senders s !! k = Some (Checked c) ->
    message_step s (report (WasRejected (id_of c) "too_large") (at_sender k (Answered c false) s))
| mg_place k c q s : mg_senders s !! k = Some (Checked c) -> reserve (ct_kind c) (mg_queue s) = (q, true) ->
    message_step s (at_sender k (Placed c) (s <| mg_queue := q |>))
| mg_no_place k c q s : mg_senders s !! k = Some (Checked c) -> reserve (ct_kind c) (mg_queue s) = (q, false) ->
    message_step s (report (WasRejected (id_of c) "queue_full") (at_sender k (Answered c false) (s <| mg_queue := q |>)))
| mg_told k c s : mg_senders s !! k = Some (Placed c) ->
    message_step s (report (Told (id_of c)) (at_sender k (Reported c) s))
| mg_not_told k c s : mg_senders s !! k = Some (Placed c) ->
    message_step s (at_sender k (Answered c false) (s <| mg_queue := release (ct_kind c) (mg_queue s) |>))
| mg_fill k c s s' outcome : mg_senders s !! k = Some (Reported c) -> fill_place c s = (s', outcome) ->
    (cq_seq (mg_queue s) + 1 < two64)%N ->
    message_step s (at_sender k (match dropped_because outcome with None => Answered c true | Some why => Refused c why end) s')
| mg_turned_away k c why wrote s : mg_senders s !! k = Some (Refused c why) ->
    message_step s (report (says wrote (id_of c) (WasDropped (id_of c) why)) (at_sender k (Answered c false) s))
| mg_close s : message_step s (s <| mg_closing := true |>)
| mg_begin s : mg_phase s = NoRun -> mg_service s = Serving ->
    message_step s (s <| mg_ending := false |> <| mg_keeps := false |> <| mg_phase := Starting |>)
| mg_go s : mg_phase s = Starting -> message_step s (s <| mg_inRun := true |> <| mg_phase := Going None |>)
| mg_take settling q l s : mg_phase s = Going None -> take_messages settling (mg_queue s) = (q, l) ->
    message_step s (s <| mg_queue := q |> <| mg_phase := Going (Some l) |>)
| mg_take_notices q l s : mg_phase s = Going None -> takeNotices (mg_queue s) = (q, l) ->
    message_step s (s <| mg_queue := q |> <| mg_phase := Going (Some l) |>)
| mg_commit l c wrote s : mg_phase s = Going (Some l) -> ls_items l !! ls_settled l = Some c ->
    message_step s (report (says wrote (id_of c) (WasCommitted (id_of c))) (s <| mg_phase := Going (Some (settle l)) |>))
| mg_drop_one l c wrote s : mg_phase s = Going (Some l) -> ls_items l !! ls_settled l = Some c ->
    message_step s (report (says wrote (id_of c) (WasDropped (id_of c) "commit_failed")) (s <| mg_phase := Going (Some (settle l)) |>))
| mg_put_back l s : mg_phase s = Going (Some l) ->
    message_step s (s <| mg_queue := (putBack l (mg_queue s)).1 |> <| mg_phase := Going None |>)
| mg_end completed_or_failed s : mg_phase s = Going None ->
    message_step s (s <| mg_ending := true |> <| mg_keeps := keepsQueued handoff completed_or_failed |> <| mg_phase := Ending |>)
| mg_keep s : mg_phase s = Ending -> mg_keeps s = true -> message_step s (s <| mg_phase := Leaving [] |>)
| mg_discard q left s : mg_phase s = Ending -> mg_keeps s = false -> drain false (mg_queue s) = (q, left) ->
    message_step s (s <| mg_queue := q |> <| mg_phase := Leaving left |>)
| mg_leave c left wrote s : mg_phase s = Leaving (c :: left) ->
    message_step s (report (says wrote (id_of c) (WasDropped (id_of c) "run_ended")) (s <| mg_phase := Leaving left |>))
| mg_over s : mg_phase s = Leaving [] -> message_step s (s <| mg_inRun := false |> <| mg_phase := NoRun |>)
| mg_unload q left s : mg_phase s = NoRun -> mg_service s = Serving -> mg_closing s = true -> seal (mg_queue s) = (q, left) ->
    message_step s (s <| mg_queue := q |> <| mg_service := Unloading left |>)
| mg_unload_one c left wrote s : mg_service s = Unloading (c :: left) ->
    message_step s (report (says wrote (id_of c) (WasDropped (id_of c) "session_closed")) (s <| mg_service := Unloading left |>))
| mg_unloaded s : mg_service s = Unloading [] -> message_step s (s <| mg_service := Unloaded |>)
| mg_hand_over q out s : mg_phase s = NoRun -> drain true (mg_queue s) = (q, out) ->
    message_step s (s <| mg_queue := q |> <| mg_facts := mg_facts s ++ (HandedOver ∘ id_of <$> out) |>)
| mg_take_in m s s' : (cq_seq (mg_queue s) + 1 < two64)%N -> requeue_one m s = (s', true) ->
    message_step s (report (TakenIn (id_of m)) s').

Definition message_reach (steer followUp notice : Z) (s : messages) : Prop := rtc message_step (message_start steer followUp notice) s.

End steps.

(** ** Counting *)

(** How often an ID was reported, or is in a list. *)
Definition tally (p : fact -> bool) (l : list fact) : nat := length (filter (fun f => p f = true) l).
Definition copies (id : string) (l : list control) : nat := length (filter (fun c => id_of c = id) l).

Definition comes_in (id : string) (f : fact) : bool := match f with Told i | TakenIn i => String.eqb i id | _ => false end.
Definition goes_out (id : string) (f : fact) : bool :=
  match f with WasCommitted i | WasDropped i _ | HandedOver i | Unwritten i => String.eqb i id | _ => false end.

(** The two ways to go out: it was reported committed or dropped, or handed to the host; or the report was lost. *)
Definition settles (id : string) (f : fact) : bool :=
  match f with WasCommitted i | WasDropped i _ | HandedOver i => String.eqb i id | _ => false end.
Definition unseen (id : string) (f : fact) : bool := match f with Unwritten i => String.eqb i id | _ => false end.

Lemma tally_app p l k : tally p (l ++ k) = (tally p l + tally p k)%nat.
Proof. unfold tally. by rewrite list.filter_app, length_app. Qed.

Lemma tally_one p f : tally p [f] = if p f then 1%nat else 0%nat.
Proof. unfold tally. rewrite filter_cons, filter_nil. by destruct (p f). Qed.

Lemma copies_app id l k : copies id (l ++ k) = (copies id l + copies id k)%nat.
Proof. unfold copies. by rewrite list.filter_app, length_app. Qed.

Lemma copies_cons id c l : copies id (c :: l) = ((if String.eqb (id_of c) id then 1 else 0) + copies id l)%nat.
Proof. unfold copies. rewrite filter_cons. destruct (decide _) as [->|Hne]; [by rewrite String.eqb_refl|]. by destruct (String.eqb_spec (id_of c) id). Qed.

Lemma copies_nil id : copies id [] = 0%nat.
Proof. done. Qed.

#[export] Instance copies_perm id : Proper ((≡ₚ) ==> (=)) (copies id).
Proof. intros l k E. unfold copies. by rewrite E. Qed.

Lemma handed_copies id l : tally (goes_out id) (HandedOver ∘ id_of <$> l) = copies id l /\ tally (comes_in id) (HandedOver ∘ id_of <$> l) = 0%nat.
Proof.
  induction l as [|c l [IH1 IH2]]; [done|]. rewrite fmap_cons, copies_cons. change (?x :: ?y) with ([x] ++ y). rewrite !tally_app, !tally_one, IH1, IH2. done.
Qed.

(** A message that a caller has reported and not yet settled. *)
Definition in_hand (id : string) (x : sender) : bool :=
  match x with Reported c | Refused c _ => String.eqb (id_of c) id | _ => false end.

Definition hands (id : string) (m : gmap nat sender) : nat := size (filter (fun p => in_hand id p.2 = true) m).

#[local] Arguments copies : simpl never.
#[local] Arguments tally : simpl never.
#[local] Arguments hands : simpl never.

Definition b2n (b : bool) : nat := if b then 1 else 0.

Lemma hands_new id k x m : m !! k = None -> hands id (<[k := x]> m) = (hands id m + b2n (in_hand id x))%nat.
Proof.
  intros Hn. unfold hands. destruct (in_hand id x) eqn:E.
  - rewrite map_filter_insert_True by done. rewrite map_size_insert_None; [cbn; lia|]. apply map_lookup_filter_None. by left.
  - rewrite map_filter_insert_False by (cbn; congruence). rewrite delete_id by done. cbn. lia.
Qed.

Lemma hands_moved id k x y m : m !! k = Some y -> (hands id (<[k := x]> m) + b2n (in_hand id y) = hands id m + b2n (in_hand id x))%nat.
Proof.
  intros Hy. rewrite <- (insert_delete_id m k y Hy) at 2. rewrite <- (insert_delete_eq m k x).
  rewrite !hands_new by apply lookup_delete_eq. lia.
Qed.

(** ** What the queue does to the copies *)

Lemma id_stamped c n : id_of (c <| ct_seq := n |>) = id_of c.
Proof. done. Qed.

Lemma stamp_copies id c q : copies id (cq_items (stamp c q)) = (copies id (cq_items q) + b2n (String.eqb (id_of c) id))%nat.
Proof.
  change (cq_items (stamp c q)) with (cq_items q ++ [c <| ct_seq := u64_add (cq_seq q) 1 |>]).
  rewrite copies_app, copies_cons, copies_nil. change (id_of (c <| ct_seq := _ |>)) with (id_of c). destruct (String.eqb _ _); cbn; lia.
Qed.

Lemma fill_copies id c q q' put : fill c q = (q', put) ->
  copies id (cq_items q') = (copies id (cq_items q) + b2n (put && String.eqb (id_of c) id))%nat /\ cq_sealed q' = cq_sealed q /\ put = negb (cq_sealed q).
Proof.
  unfold fill. cbv zeta. destruct (cq_sealed (q <| cq_held := _ |>)) eqn:Es; cbn in Es; intros [= <- <-]; rewrite Es.
  - cbn. split; [lia|done].
  - split; [|done]. rewrite stamp_copies. done.
Qed.

Lemma add_copies id c q q' put : add c q = (q', put) ->
  copies id (cq_items q') = (copies id (cq_items q) + b2n (put && String.eqb (id_of c) id))%nat /\ cq_sealed q' = cq_sealed q /\
  (cq_sealed q = true -> put = false) /\ q' = if put then stamp c q else q.
Proof.
  unfold add. destruct (cq_sealed q) eqn:Es; cbn [orb]; [intros [= <- <-]; cbn; rewrite Es; split_and!; (done || lia)|].
  destruct (full _ _); intros [= <- <-]; [cbn; rewrite Es; split_and!; (done || lia)|]. rewrite stamp_copies. by split_and!.
Qed.

Lemma split_copies id pick q : copies id (cq_items q) = (copies id (cq_items (split pick q).1) + copies id (split pick q).2)%nat.
Proof. unfold split. cbn. rewrite <- copies_app. by rewrite <- (split_perm pick q). Qed.

Lemma put_back_copies id l q : copies id (cq_items (putBack l q).1) = (copies id (cq_items q) + copies id (unsettled l))%nat.
Proof.
  unfold putBack. destruct (unsettled l) as [|c rest]; cbn -[merge_sort]; [rewrite copies_nil; lia|].
  rewrite merge_sort_Permutation. change (c :: rest ++ cq_items q) with ((c :: rest) ++ cq_items q). rewrite copies_app. lia.
Qed.

Lemma settle_copies id l c : ls_items l !! ls_settled l = Some c -> copies id (unsettled l) = (b2n (String.eqb (id_of c) id) + copies id (unsettled (settle l)))%nat.
Proof. intros Hc. unfold unsettled, settle. cbn. rewrite (drop_S _ _ _ Hc). apply copies_cons. Qed.

Lemma requeue_copies id m s s' put : requeue_one m s = (s', put) ->
  (exists q, s' = s <| mg_queue := q |> /\ cq_sealed q = cq_sealed (mg_queue s) /\ copies id (cq_items q) = (copies id (cq_items (mg_queue s)) + b2n (put && String.eqb (id_of m) id))%nat /\
    (gate_open s = false -> q = mg_queue s /\ put = false) /\ (cq_sealed (mg_queue s) = true -> put = false)).
Proof.
  unfold requeue_one. assert (Hid : forall k, id_of (requeued m <| ct_kind := k |>) = id_of m) by done.
  destruct (gate_open s) eqn:Eg.
  - destruct (add (requeued m) (mg_queue s)) as [q1 put1] eqn:E1. pose proof (add_copies id _ _ _ _ E1) as (H1 & H2 & H3 & H4). rewrite andb_true_r.
    destruct (negb put1 && _) eqn:En.
    + apply andb_true_iff in En as [En _]. apply negb_true_iff in En as ->. subst q1. destruct (add _ (mg_queue s)) as [q2 put2] eqn:E2 in |- *. intros [= <- <-].
      pose proof (add_copies id _ _ _ _ E2) as (G1 & G2 & G3 & _). eexists. split; [reflexivity|]. rewrite G1, G2. by split_and!.
    + intros [= <- <-]. eexists. split; [reflexivity|]. rewrite H1, H2. by split_and!.
  - rewrite andb_false_r. intros [= <- <-]. eexists. split; [reflexivity|]. cbn. split_and!; [done|lia|done|done].
Qed.

(** ** The invariant *)

Definition run_holds (p : phase) : list control :=
  match p with Going (Some l) => unsettled l | Leaving l => l | _ => [] end.
Definition unloads (v : service) : list control := match v with Unloading l => l | _ => [] end.

Definition in_phase (s : messages) : Prop :=
  match mg_phase s with
  | NoRun => mg_inRun s = false
  | Starting => mg_inRun s = false /\ mg_ending s = false
  | Going _ => mg_inRun s = true /\ mg_ending s = false
  | Ending => mg_inRun s = true /\ mg_ending s = true
  | Leaving _ => mg_inRun s = true /\ mg_ending s = true /\ (mg_keeps s = false -> Forall (fun c => ct_kind c = kindNotice) (cq_items (mg_queue s)))
  end.

Definition control_of (x : sender) : control := match x with Checked c | Placed c | Reported c | Refused c _ | Answered c _ => c end.

Record message_inv (s : messages) : Prop := {
  mi_account id : tally (comes_in id) (mg_facts s) =
    (tally (goes_out id) (mg_facts s) + copies id (cq_items (mg_queue s)) + copies id (run_holds (mg_phase s)) +
     copies id (unloads (mg_service s)) + hands id (mg_senders s))%nat;
  mi_phase : in_phase s;
  mi_unloaded : mg_service s <> Serving -> mg_phase s = NoRun /\ cq_items (mg_queue s) = [] /\ cq_sealed (mg_queue s) = true;
  mi_kind k x : mg_senders s !! k = Some x -> ct_kind (control_of x) = kindOf (ct_source (control_of x));
}.

Lemma sender_kind k x y (m : gmap nat sender) :
  m !! k = Some y -> control_of x = control_of y ->
  (forall k x, m !! k = Some x -> ct_kind (control_of x) = kindOf (ct_source (control_of x))) ->
  forall k' x', <[k := x]> m !! k' = Some x' -> ct_kind (control_of x') = kindOf (ct_source (control_of x')).
Proof. intros Hk Hx Hall k' x' [[_ <-]|[_ Hl]]%lookup_insert_Some; [rewrite Hx; by eapply Hall|by eapply Hall]. Qed.

(** A caller moves, and the rest of the account with it. *)
Lemma sender_inv k x y s q facts :
  message_inv s -> mg_senders s !! k = Some y -> control_of x = control_of y ->
  cq_sealed q = cq_sealed (mg_queue s) -> (cq_items q = cq_items (mg_queue s) \/
    cq_sealed q = false /\ (exists c, cq_items q = cq_items (mg_queue s) ++ [c] /\ (is_notice c = true -> ct_kind c = kindNotice) /\ (is_notice c = false -> gate_open s = true))) ->
  (forall id, (tally (comes_in id) facts + tally (goes_out id) (mg_facts s) + copies id (cq_items (mg_queue s)) + b2n (in_hand id y) =
     tally (goes_out id) facts + tally (comes_in id) (mg_facts s) + copies id (cq_items q) + b2n (in_hand id x))%nat) ->
  message_inv (s <| mg_queue := q |> <| mg_senders := <[k := x]> (mg_senders s) |> <| mg_facts := facts |>).
Proof.
  intros [Ia Ip Iu Ik] Hk Hx Hs Hq Hacc. split; cbn.
  - intros id. specialize (Hacc id). specialize (Ia id). pose proof (hands_moved id k x y _ Hk). lia.
  - unfold in_phase in *. cbn. destruct (mg_phase s); try done. destruct Ip as (Hr & He & Hall). split; [done|]. split; [done|]. intros Hkeep.
    specialize (Hall Hkeep). destruct Hq as [->|(_ & c & -> & Hn & Hg)]; [done|]. apply list.Forall_app. split; [done|]. constructor; [|done].
    destruct (is_notice c) eqn:En; [by apply Hn|]. specialize (Hg eq_refl). unfold gate_open, controlGate in Hg. rewrite Hr, He, Hkeep in Hg. done.
  - intros Hv. destruct (Iu Hv) as (H1 & H2 & H3). split; [done|]. rewrite Hs, H3. destruct Hq as [->|(Hf & _)]; [done|]. congruence.
  - by eapply sender_kind.
Qed.

Lemma notice_kind c : ct_kind c = kindOf (ct_source c) -> is_notice c = true -> ct_kind c = kindNotice.
Proof. unfold is_notice. intros -> ->%String.eqb_eq. done. Qed.

Lemma fill_items c q q' put : fill c q = (q', put) -> cq_sealed q' = cq_sealed q /\ put = negb (cq_sealed q) /\
  (cq_items q' = cq_items q \/ cq_sealed q' = false /\ cq_items q' = cq_items q ++ [stamped c q]).
Proof.
  unfold fill. cbv zeta. destruct (cq_sealed (q <| cq_held := _ |>)) eqn:Es; cbn in Es; intros [= <- <-]; rewrite Es.
  - split_and!; [done|done|by left].
  - split_and!; [done|done|right; by split].
Qed.

(** What is put in a place, by the state it leaves. *)
Lemma fill_place_spec c s s' outcome :
  ct_kind c = kindOf (ct_source c) -> fill_place c s = (s', outcome) ->
  exists q, s' = s <| mg_queue := q |> /\ cq_sealed q = cq_sealed (mg_queue s) /\
    (cq_items q = cq_items (mg_queue s) /\ dropped_because outcome <> None \/
     dropped_because outcome = None /\ cq_sealed q = false /\ exists c', cq_items q = cq_items (mg_queue s) ++ [c'] /\ id_of c' = id_of c /\
       (is_notice c' = true -> ct_kind c' = kindNotice) /\ (is_notice c' = false -> gate_open s = true)).
Proof.
  intros Hk. assert (Hput : forall q put gate, fill c (mg_queue s) = (q, put) -> (is_notice c = false -> gate_open s = true) -> gate = (if put then sentControl else controlSessionClosed) ->
    cq_sealed q = cq_sealed (mg_queue s) /\ (cq_items q = cq_items (mg_queue s) /\ dropped_because gate <> None \/
     dropped_because gate = None /\ cq_sealed q = false /\ exists c', cq_items q = cq_items (mg_queue s) ++ [c'] /\ id_of c' = id_of c /\
       (is_notice c' = true -> ct_kind c' = kindNotice) /\ (is_notice c' = false -> gate_open s = true))).
  { intros q put gate Hf Hg ->. apply fill_items in Hf as Hi. destruct Hi as (Hs & -> & [Hi|[Hu Hi]]).
    - split; [done|]. destruct (cq_sealed (mg_queue s)) eqn:Es; [by left|]. exfalso.
      unfold fill in Hf. cbv zeta in Hf. change (cq_sealed (_ <| cq_held := _ |>)) with (cq_sealed (mg_queue s)) in Hf. rewrite Es in Hf. injection Hf as <-.
      apply (f_equal length) in Hi. change (cq_items (stamp c _)) with (cq_items (mg_queue s) ++ [stamped c (mg_queue s)]) in Hi. rewrite length_app in Hi. cbn in Hi. lia.
    - split; [done|]. right. rewrite <- Hs, Hu. split_and!; [done|done|]. exists (stamped c (mg_queue s)). split_and!; [done|done|by apply notice_kind|done]. }
  unfold fill_place, fillControl. destruct (is_notice c) eqn:En.
  - destruct (fill c (mg_queue s)) as [q put] eqn:Ef. intros [= <- <-]. exists q. split; [done|]. by eapply Hput.
  - destruct (controlGate (is_interrupt c) s) eqn:Eg.
    + assert (Hg : gate_open s = true).
      { unfold gate_open, controlGate in *. cbn [andb orb]. destruct (mg_inRun s && mg_ending s && negb (mg_keeps s)); [by rewrite orb_true_r in Eg|done]. }
      destruct (fill c (mg_queue s)) as [q put] eqn:Ef. intros [= <- <-]. exists q. split; [done|]. by eapply Hput.
    + intros [= <- <-]. eexists. split; [done|]. split; [done|]. left. by split.
    + unfold controlGate in Eg. by destruct (_ || _).
Qed.

Section steps.
Context (handoff : bool).

Lemma reserve_items kind q q' put : reserve kind q = (q', put) -> cq_items q' = cq_items q /\ cq_sealed q' = cq_sealed q.
Proof. unfold reserve. destruct (full kind q); intros [= <- <-]; done. Qed.

Ltac count_up := rewrite ?tally_app, ?tally_one; cbn [says comes_in goes_out in_hand b2n]; try lia;
  repeat match goal with |- context [String.eqb ?a ?b] => destruct (String.eqb a b) end; cbn [b2n]; lia.
Ltac tallies := intros ?id; count_up.

(** The Run and the Session move, and no caller. *)
Lemma run_inv s q (inRun ending keeps closing : bool) p v facts :
  message_inv s -> let s' := MkMessages q inRun ending keeps closing p v (mg_senders s) facts in
  (forall id, (tally (comes_in id) facts + tally (goes_out id) (mg_facts s) + copies id (cq_items (mg_queue s)) + copies id (run_holds (mg_phase s)) + copies id (unloads (mg_service s)) =
     tally (goes_out id) facts + tally (comes_in id) (mg_facts s) + copies id (cq_items q) + copies id (run_holds p) + copies id (unloads v))%nat) ->
  in_phase s' -> (v <> Serving -> p = NoRun /\ cq_items q = [] /\ cq_sealed q = true) -> message_inv s'.
Proof. intros [Ia Ip Iu Ik] s' Hacc Hp Hv. split; cbn; [|done|done|done]. intros id. specialize (Ia id). specialize (Hacc id). lia. Qed.

Ltac run_moves :=
  match goal with
  | Hi : message_inv ?s |- _ =>
    let Hph := fresh "Hph" in let Hu := fresh "Hu" in
    pose proof (mi_phase _ Hi) as Hph; pose proof (mi_unloaded _ Hi) as Hu; unfold in_phase in Hph;
    destruct s; cbn -[merge_sort putBack take_messages takeNotices drain seal split requeue_one unsettled settle u64_add] in *; subst; apply run_inv with (1 := Hi);
    cbn -[merge_sort putBack take_messages takeNotices drain seal split requeue_one unsettled settle u64_add];
    [intros id; try solve [count_up]|unfold in_phase; cbn [mg_phase mg_queue mg_inRun mg_ending mg_keeps]; try done|
     try done; try (by let H := fresh in intros H; destruct (Hu H))]
  end.

Lemma message_step_inv s s' : message_step handoff s s' -> message_inv s -> message_inv s'.
Proof.
  intros Hs Hi. destruct Hs as [k c s Hn Hc Hk Hin|k c s Hk|k c q s Hk Hr|k c q s Hk Hr|k c s Hk|k c s Hk|k c s s' outcome Hk Hf Hseq|k c why wrote s Hk|s|s Hp Hv|s Hp|settling q l s Hp Ht|q l s Hp Ht|l c wrote s Hp Hc|l c wrote s Hp Hc|l s Hp|cf s Hp|s Hp Hkeep|q rest s Hp Hkeep Hd|c rest wrote s Hp|s Hp|q rest s Hp Hv Hc Hd|c rest wrote s Hv|s Hv|q out s Hp Hd|m s s' Hseq Hr].
  - destruct Hi as [Ia Ip Iu Ik]. split; cbn; [|done|done|].
    + intros id. specialize (Ia id). rewrite hands_new by done. cbn. lia.
    + intros k' x' [[_ <-]|[_ Hl]]%lookup_insert_Some; [done|by eapply Ik].
  - apply (sender_inv k (Answered c false) (Checked c) s (mg_queue s) (mg_facts s ++ [WasRejected (id_of c) "too_large"])); [done..|by left|tallies].
  - destruct (reserve_items _ _ _ _ Hr) as [H1 H2]. apply (sender_inv k (Placed c) (Checked c) s q (mg_facts s)); [done..|by left|rewrite H1; tallies].
  - destruct (reserve_items _ _ _ _ Hr) as [H1 H2]. apply (sender_inv k (Answered c false) (Checked c) s q (mg_facts s ++ [WasRejected (id_of c) "queue_full"])); [done..|by left|rewrite H1; tallies].
  - apply (sender_inv k (Reported c) (Placed c) s (mg_queue s) (mg_facts s ++ [Told (id_of c)])); [done..|by left|tallies].
  - apply (sender_inv k (Answered c false) (Placed c) s (release (ct_kind c) (mg_queue s)) (mg_facts s)); [done..|by left|change (cq_items (release (ct_kind c) (mg_queue s))) with (cq_items (mg_queue s)); tallies].
  - pose proof (mi_kind _ Hi _ _ Hk) as Hkind. cbn in Hkind. destruct (fill_place_spec c s s' outcome Hkind Hf) as (q & -> & Hseal & [[Hitems Hd]|(Hd & Hu & c' & Hitems & Hid & Hn & Hg)]).
    + destruct (dropped_because outcome) as [why|]; [|done].
      apply (sender_inv k (Refused c why) (Reported c) s q (mg_facts s)); [done..|by left|rewrite Hitems; tallies].
    + rewrite Hd. apply (sender_inv k (Answered c true) (Reported c) s q (mg_facts s)); [done..|right; split; [done|by exists c']|].
      intros id. rewrite Hitems, copies_app, copies_cons, copies_nil, Hid. cbn. destruct (String.eqb _ _); cbn; lia.
  - apply (sender_inv k (Answered c false) (Refused c why) s (mg_queue s) (mg_facts s ++ [says wrote (id_of c) (WasDropped (id_of c) why)])); [done..|by left|destruct wrote; tallies].
  - by run_moves.
  - by run_moves.
  - run_moves. by split; [|apply Hph].
  - run_moves. rewrite (split_copies id (fun c => picks settling c || (with_notices settling mg_queue0 && of_kind kindNotice c)) mg_queue0).
    unfold take_messages, take_lease in Ht. cbv zeta in Ht. destruct (split _ mg_queue0) as [q0 out]. injection Ht as <- <-.
    change (unsettled (MkLease out 0)) with out. cbn. rewrite copies_nil. lia.
  - run_moves. rewrite (split_copies id (of_kind kindNotice) mg_queue0). unfold takeNotices, take_lease in Ht.
    destruct (split _ mg_queue0) as [q0 out]. injection Ht as <- <-. change (unsettled (MkLease out 0)) with out. cbn. rewrite copies_nil. lia.
  - run_moves. rewrite tally_app, tally_app, !tally_one, (settle_copies id l c Hc). destruct wrote; cbn; destruct (String.eqb _ _); cbn; lia.
  - run_moves. rewrite tally_app, tally_app, !tally_one, (settle_copies id l c Hc). destruct wrote; cbn; destruct (String.eqb _ _); cbn; lia.
  - run_moves. rewrite put_back_copies, copies_nil. lia.
  - run_moves. by split; [apply Hph|].
  - run_moves. split_and!; [apply Hph|apply Hph|done].
  - run_moves.
    + rewrite (split_copies id (fun c => false || negb (of_kind kindNotice c)) mg_queue0). unfold drain in Hd. rewrite Hd. cbn. rewrite copies_nil. lia.
    + split_and!; [apply Hph|apply Hph|]. intros _. unfold drain, split in Hd. injection Hd as <- _. cbn. apply list.Forall_forall.
      intros c [Hc _]%list_elem_of_filter. unfold of_kind in Hc. by destruct (bool_decide_reflect (ct_kind c = kindNotice)).
  - run_moves. rewrite tally_app, tally_app, !tally_one, copies_cons. destruct wrote; cbn; destruct (String.eqb _ _); cbn; lia.
  - by run_moves.
  - run_moves.
    + pose proof (split_copies id (fun _ => true) (mg_queue0 <| cq_sealed := true |>)) as Hsp. unfold seal in Hd. rewrite Hd in Hsp. cbn in *. rewrite copies_nil in *. lia.
    + intros _. split; [done|]. unfold seal, split in Hd. injection Hd as <- _. cbn. split; [|done]. apply filter_none. by apply list.Forall_forall.
  - run_moves; [|intros _; by apply Hu]. rewrite tally_app, tally_app, !tally_one, copies_cons. destruct wrote; cbn; destruct (String.eqb _ _); cbn; lia.
  - run_moves. intros _. by apply Hu.
  - run_moves.
    + destruct (handed_copies id out) as [H1 H2]. rewrite !tally_app, H1, H2. unfold drain in Hd. rewrite (split_copies id (fun c => true || negb (of_kind kindNotice c)) mg_queue0), Hd. cbn. lia.
    + intros Hv. destruct (Hu Hv) as (_ & H2 & H3). split; [done|]. unfold drain, split in Hd. injection Hd as <- _. cbn. by rewrite H2.
  - pose proof (requeue_copies "" m s s' true Hr) as (q & -> & Hs & _ & Hg & Hc).
    assert (Hacc : forall id, copies id (cq_items q) = (copies id (cq_items (mg_queue s)) + b2n (String.eqb (id_of m) id))%nat).
    { intros id. destruct (requeue_copies id m _ _ true Hr) as (q' & Hq & _ & Hn & _). apply (f_equal mg_queue) in Hq. cbn in Hq. by subst q'. }
    run_moves.
    + rewrite !tally_app, !tally_one, Hacc. cbn. destruct (String.eqb _ _); cbn; lia.
    + destruct mg_phase0; try done. destruct Hph as (-> & -> & Hall). split_and!; [done|done|]. intros ->.
      destruct (Hg eq_refl) as [_ ?]. done.
    + intros Hv. destruct (Hu Hv) as (_ & _ & H3). by specialize (Hc H3).
Qed.

Lemma message_start_inv steer followUp notice : message_inv (message_start steer followUp notice).
Proof. split; cbn; [done|done|done|by intros k x; rewrite lookup_empty]. Qed.

Lemma message_reach_inv steer followUp notice s : message_reach handoff steer followUp notice s -> message_inv s.
Proof.
  intros Hr. pose proof (message_start_inv steer followUp notice) as H0. unfold message_reach in Hr.
  induction Hr as [|s0 s1 s2 Hst _ IH]; [done|]. by eapply IH, message_step_inv.
Qed.

Lemma goes_out_split id l : tally (goes_out id) l = (tally (settles id) l + tally (unseen id) l)%nat.
Proof.
  induction l as [|f l IH]; [done|]. change (f :: l) with ([f] ++ l). rewrite !tally_app, !tally_one, IH.
  destruct f; cbn; try lia; destruct (String.eqb _ _); lia.
Qed.

(** C16: However callers, Runs, a close and the host interleave, each time a message was reported queued
    it leaves the Session exactly once: it is reported committed, or dropped, or handed to the host, or
    the write of that report failed and the code did not look at the error ([Unwritten]), which then
    nothing reports.  Until then it waits in the queue, is held by the Run, is about to be dropped by
    the Session, or is in the hands of its caller, which was not told that it is queued.  When the
    Session is unloaded none is left but in the hands of callers, and those are turned away.  And while
    an ending Run reports what it drops no Steer, FollowUp or Interrupt slips in behind it. *)
Theorem told_messages_are_settled steer followUp notice s :
  message_reach handoff steer followUp notice s ->
  (forall id, tally (comes_in id) (mg_facts s) =
     (tally (settles id) (mg_facts s) + tally (unseen id) (mg_facts s) + copies id (cq_items (mg_queue s)) + copies id (run_holds (mg_phase s)) +
      copies id (unloads (mg_service s)) + hands id (mg_senders s))%nat) /\
  (mg_service s = Unloaded -> forall id,
     tally (comes_in id) (mg_facts s) = (tally (settles id) (mg_facts s) + tally (unseen id) (mg_facts s) + hands id (mg_senders s))%nat) /\
  (mg_service s <> Serving -> forall k c, mg_senders s !! k = Some (Reported c) -> dropped_because (fill_place c s).2 <> None) /\
  (forall left, mg_phase s = Leaving left -> mg_keeps s = false -> Forall (fun c => ct_kind c = kindNotice) (cq_items (mg_queue s))).
Proof.
  intros [Ia Ip Iu Ik]%message_reach_inv. split_and!.
  - intros id. by rewrite <- goes_out_split.
  - intros Hv id. destruct Iu as (Hp & Hi & _); [by rewrite Hv|]. rewrite Ia, Hp, Hi, Hv, goes_out_split. cbn. rewrite copies_nil. lia.
  - intros Hv k c Hk. destruct (Iu Hv) as (_ & _ & Hs). specialize (Ik _ _ Hk). cbn in Ik.
    destruct (fill_place c s) as [s' outcome] eqn:Ef. destruct (fill_place_spec c s s' outcome Ik Ef) as (q & _ & Hq & [[_ ?]|(_ & Hf & _)]); [done|congruence].
  - intros rest Hp Hkeep. unfold in_phase in Ip. rewrite Hp in Ip. by apply Ip.
Qed.

End steps.

(** ** A sample

    A Steer whose report is written while the Run begins to end. *)
Definition late_steer : control := MkControl 0 (message_zero <| m_ID := "m1" |>) MessageSourceSteer kindSteer 0.

Definition placed_steer : messages :=
  at_sender 0 (Placed late_steer) (at_sender 0 (Checked late_steer) (message_start 1 1 1) <| mg_queue := (reserve kindSteer (newControlQueue 1 1 1)).1 |>).
Definition told_steer : messages := report (Told "m1") (at_sender 0 (Reported late_steer) placed_steer).
Definition run_leaves : messages :=
  told_steer <| mg_ending := true |> <| mg_inRun := true |> <| mg_keeps := false |> <| mg_phase := Leaving [] |>.

Lemma message_last handoff s s' s'' : message_step handoff s s' -> s' = s'' -> rtc (message_step handoff) s s''.
Proof. intros Hs <-. by apply rtc_once. Qed.

Lemma run_leaves_reached : message_reach true 1 1 1 run_leaves.
Proof.
  unfold message_reach. eapply rtc_l; [by apply (mg_call true 0 late_steer)|]. eapply rtc_l; [by eapply (mg_place true 0 late_steer)|].
  eapply rtc_l; [by apply (mg_told true 0 late_steer)|]. eapply rtc_l; [by apply mg_begin|]. eapply rtc_l; [by apply mg_go|].
  eapply rtc_l; [by apply (mg_end true false)|]. by eapply message_last; [eapply mg_discard|].
Qed.

Lemma told_messages_are_settled_witness :
  tally (comes_in "m1") (mg_facts run_leaves) = 1%nat /\ hands "m1" (mg_senders run_leaves) = 1%nat /\
  dropped_because (fill_place late_steer run_leaves).2 = Some "run_ended" /\ Forall (fun c => ct_kind c = kindNotice) (cq_items (mg_queue run_leaves)).
Proof.
  split; [by vm_compute|]. split; [by vm_compute|]. split; [by vm_compute|].
  by apply (proj2 (proj2 (proj2 (told_messages_are_settled true 1 1 1 run_leaves run_leaves_reached))) []).
Defined.
