(* ===== verification/Profile.v ===== *)
(** * Profiles

    [profile/agent_profile.go], [task_spec.go], [catalog.go] and [errors.go], with [Sampling]
    of [gotato/model.go]: the definitions a service runs its Sessions from.  A Go value that a
    profile holds (a Tool, a ToolSet, a Model and so on) is a handle with what the code asks
    it: a Tool its ID, a ToolSet its name, a Model the sampling of its Config.  An interface
    value that may be nil is an [option]; a method called on a nil one panics, which ends in
    [NilDereference]. *)

From S2P Require Import Prelude GoStrings Text Errors Types Cut Compactor Session ToolRegistry.
Local Open Scope string_scope.
Local Open Scope list_scope.

(** ** Sampling *)

(** A [float64] as [encoding/json] meets it: a finite one is written, a NaN or an infinity
    is not. *)
Inductive float64 : Type :=
| Finite (m e : Z)
| NotFinite.

Record Sampling := MkSampling {
  sa_Temperature : option float64;
  sa_MaxTokens : N;
  sa_ReasoningEffort : string;
  sa_ReasoningSummary : string;
}.
#[export] Instance eta_Sampling : Eta Sampling := fun r =>
  MkSampling (sa_Temperature r) (sa_MaxTokens r) (sa_ReasoningEffort r) (sa_ReasoningSummary r).

Definition no_sampling : Sampling := MkSampling None 0 "" "".

Definition over (s defaults : Sampling) : Sampling :=
  MkSampling
    (match sa_Temperature s with None => sa_Temperature defaults | set => set end)
    (if N.eqb (sa_MaxTokens s) 0 then sa_MaxTokens defaults else sa_MaxTokens s)
    (if String.eqb (sa_ReasoningEffort s) "" then sa_ReasoningEffort defaults else sa_ReasoningEffort s)
    (if String.eqb (sa_ReasoningSummary s) "" then sa_ReasoningSummary defaults else sa_ReasoningSummary s).

(** ** Data *)

Definition minute : duration := (60 * second)%Z.
Definition DefaultRunTimeout : duration := (30 * minute)%Z.

Abbreviation ToolSetMode := string (only parsing).
Definition ToolSetListed : ToolSetMode := "listed".
Definition ToolSetFolded : ToolSetMode := "folded".
Definition ToolSetActive : ToolSetMode := "active".

(** [ToolSetMode.Valid]. *)
Definition ModeValid (m : ToolSetMode) : bool :=
  String.eqb m "" || String.eqb m ToolSetListed || String.eqb m ToolSetFolded || String.eqb m ToolSetActive.

(** A Go value nothing here asks anything of. *)
Abbreviation handle := nat (only parsing).

Record GoTool := MkGoTool { gt_handle : handle; gt_ID : string }.
#[export] Instance GoTool_eq_dec : EqDecision GoTool.
Proof. solve_decision. Defined.

Record GoToolSet := MkGoToolSet { gs_handle : handle; gs_Name : string }.
Record GoModel := MkGoModel { gm_handle : handle; gm_Sampling : Sampling }.

(** [type ToolSet struct] of the package. *)
Record InstalledSet := MkInstalled { is_Set : option GoToolSet; is_Mode : ToolSetMode }.

Record AgentProfile := MkProfile {
  ap_Name : string;
  ap_Model : option GoModel;
  ap_ModelName : string;
  ap_Instruction : string;
  ap_Tools : list (option GoTool);
  ap_ToolSets : list InstalledSet;
  ap_ToolSources : list handle;
  ap_ToolSearcher : option handle;
  ap_MaxEffect : ToolEffect;
  ap_Sampling : Sampling;
  ap_Extensions : list (option handle);
  ap_ContextBuilder : option handle;
  ap_Limits : option CoreLimits;
  ap_ReadBack : option handle;
  ap_RunTimeout : duration;
  ap_Compact : Compactor;
}.
#[export] Instance eta_AgentProfile : Eta AgentProfile := fun r =>
  MkProfile (ap_Name r) (ap_Model r) (ap_ModelName r) (ap_Instruction r) (ap_Tools r) (ap_ToolSets r)
    (ap_ToolSources r) (ap_ToolSearcher r) (ap_MaxEffect r) (ap_Sampling r) (ap_Extensions r)
    (ap_ContextBuilder r) (ap_Limits r) (ap_ReadBack r) (ap_RunTimeout r) (ap_Compact r).

(** A nil slice and an empty one are told apart in [Tools] and [ToolSets]. *)
Record TaskSpec := MkTask {
  tk_Name : string;
  tk_Profile : string;
  tk_Background : string;
  tk_Tools : option (list string);
  tk_ToolSets : option (list string);
  tk_MaxEffect : ToolEffect;
  tk_RunTimeout : duration;
  tk_Sampling : Sampling;
}.
#[export] Instance eta_TaskSpec : Eta TaskSpec := fun r =>
  MkTask (tk_Name r) (tk_Profile r) (tk_Background r) (tk_Tools r) (tk_ToolSets r) (tk_MaxEffect r)
    (tk_RunTimeout r) (tk_Sampling r).

#[export] Instance eta_CoreLimits : Eta CoreLimits := fun r =>
  MkLimits (lm_MaxMessages r) (lm_MaxMessageBytes r) (lm_MaxTranscriptBytes r) (lm_MaxSteerMessages r)
    (lm_MaxFollowUpMessages r) (lm_MaxNotices r) (lm_MaxTruncatedContinuations r) (lm_MaxParallelTools r)
    (lm_ModelCallDeadline r) (lm_ToolCallDeadline r) (lm_SpillPreviewBytes r).

#[export] Instance eta_Compactor : Eta Compactor := fun r =>
  MkCompactor (co_Policy r) (co_Trigger r) (co_Cut r) (co_Builder r) (co_Recap r) (co_Merge r).

(** The zero value of a [record.Compactor]. *)
Definition no_compactor : Compactor := MkCompactor (MkPolicy 0 0 false 0 None) None None None None None.

(** The names of a nil slice are none. *)
Definition names_of (s : option (list string)) : list string := default [] s.

(** ** Errors *)

Definition ErrNotRegistered : error := SentinelOf "profile.ErrNotRegistered" CodeInvalidArgument "profile: not registered".
Definition ErrUnknownName : error := SentinelOf "profile.ErrUnknownName" CodeInvalidArgument "profile: the Catalog has no such name".
Definition ErrWidens : error := SentinelOf "profile.ErrWidens" CodeInvalidArgument "profile: a TaskSpec may only narrow its AgentProfile".
Definition ErrNotData : error := SentinelOf "profile.ErrNotData" CodeInvalidArgument "profile: the AgentProfile holds Go values a document cannot carry".

Definition KindModel : string := "model".
Definition KindTool : string := "tool".
Definition KindToolSet : string := "toolset".

(** The bound that a TaskSpec widens, with what [Detail] says of it. *)
Inductive widening : Type :=
| WidensTools (id : string)
| WidensToolSets (name : string)
| WidensEffect (own ceiling : ToolEffect)
| WidensTimeout (own limit : duration)
| WidensTokens (own limit : N).

Definition Bound (w : widening) : string :=
  match w with
  | WidensTools _ => "tools"
  | WidensToolSets _ => "toolsets"
  | WidensEffect _ _ => "max_effect"
  | WidensTimeout _ _ => "run_timeout"
  | WidensTokens _ _ => "max_tokens"
  end.

(** What the package returns: an error of the core's vocabulary, one of its two types, one of
    these wrapped by [fmt.Errorf] with a [%w], or the panic of a nil interface. *)
Inductive profileError : Type :=
| CoreError (err : error)
| UnknownNameError (kind name : string)
| WidenError (task profile : string) (w : widening)
| InTask (task : string) (wrapped : profileError)
| NilDereference.

(** [invalid]. *)
Definition invalid (message : text error) : profileError := CoreError (RuntimeErr (ErrorOf CodeInvalidArgument message)).

(** [errors.Is], through the methods [Is] and [Unwrap] of the two types: what [invalid] makes
    has a message, so it is the value of no variable. *)
Fixpoint errorIs (err : profileError) (target : error) : bool :=
  match err with
  | CoreError e => errors_Is e target
  | UnknownNameError _ _ => same_error ErrUnknownName target
  | WidenError _ _ _ => same_error ErrWidens target
  | InTask _ w => errorIs w target
  | NilDereference => false
  end.

(** [errors.As] for a [*gotato.RuntimeError], as far as its code: that of the chain. *)
Fixpoint errorCode (err : profileError) : option ErrorCode :=
  match err with
  | CoreError e => Code <$> as_runtime e
  | UnknownNameError _ _ | WidenError _ _ _ => Some CodeInvalidArgument
  | InTask _ w => errorCode w
  | NilDereference => None
  end.

Definition notRegistered (kind name : string) : profileError :=
  CoreError (Wrapf (Text "%w: %s %q" [FStr kind; FStr name]) ErrNotRegistered).

(** ** The Catalog *)

Record Catalog := MkCatalog {
  cg_models : gmap string GoModel;
  cg_tools : gmap string GoTool;
  cg_toolSets : gmap string GoToolSet;
}.

Abbreviation made := (result profileError) (only parsing).

(** The three loops of [NewCatalog].  The first is over a map: over its pairs, in any order. *)
Fixpoint catalog_models (models : list (string * option GoModel)) (m : gmap string GoModel) : made (gmap string GoModel) :=
  match models with
  | [] => Ok m
  | (name, Some model) :: rest =>
    if String.eqb name "" then Err (invalid (Text "profile: Catalog model %q is empty or nil" [FStr name]))
    else catalog_models rest (<[name := model]> m)
  | (name, None) :: _ => Err (invalid (Text "profile: Catalog model %q is empty or nil" [FStr name]))
  end.

Fixpoint catalog_tools (tools : list (option GoTool)) (m : gmap string GoTool) : made (gmap string GoTool) :=
  match tools with
  | [] => Ok m
  | None :: _ => Err (invalid (plain_text "profile: Catalog holds a nil Tool"))
  | Some tool :: rest =>
    let id := gt_ID tool in
    if String.eqb id "" || bool_decide (is_Some (m !! id))
    then Err (invalid (Text "profile: Catalog Tool ID %q is empty or taken" [FStr id]))
    else catalog_tools rest (<[id := tool]> m)
  end.

Fixpoint catalog_sets (sets : list (option GoToolSet)) (m : gmap string GoToolSet) : made (gmap string GoToolSet) :=
  match sets with
  | [] => Ok m
  | None :: _ => Err (invalid (plain_text "profile: Catalog holds a nil ToolSet"))
  | Some set :: rest =>
    let name := gs_Name set in
    if String.eqb name "" || bool_decide (is_Some (m !! name))
    then Err (invalid (Text "profile: Catalog ToolSet name %q is empty or taken" [FStr name]))
    else catalog_sets rest (<[name := set]> m)
  end.

Definition NewCatalog (models : list (string * option GoModel)) (tools : list (option GoTool))
    (toolSets : list (option GoToolSet)) : made Catalog :=
  let? ms := catalog_models models ∅ in
  let? ts := catalog_tools tools ∅ in
  let? ss := catalog_sets toolSets ∅ in
  Ok (MkCatalog ms ts ss).

(** A nil Catalog holds nothing.  [Catalog.Model], [Catalog.Tool] and [Catalog.ToolSet]. *)
Definition Catalog_Model (c : option Catalog) (name : string) : made GoModel :=
  match c ≫= fun c => cg_models c !! name with
  | Some model => Ok model
  | None => Err (UnknownNameError KindModel name)
  end.

Definition Catalog_Tool (c : option Catalog) (name : string) : made GoTool :=
  match c ≫= fun c => cg_tools c !! name with
  | Some tool => Ok tool
  | None => Err (UnknownNameError KindTool name)
  end.

Definition Catalog_ToolSet (c : option Catalog) (name : string) : made GoToolSet :=
  match c ≫= fun c => cg_toolSets c !! name with
  | Some set => Ok set
  | None => Err (UnknownNameError KindToolSet name)
  end.

(** ** Checks of their own *)

Definition blank (s : string) : bool := String.eqb (trimmed s) "".

Fixpoint bad_set (name : string) (i : Z) (sets : list InstalledSet) : option profileError :=
  match sets with
  | [] => None
  | set :: rest =>
    match is_Set set with
    | None => Some (invalid (Text "profile: AgentProfile %q has a nil ToolSet at ToolSets[%d]" [FStr name; FNum i]))
    | Some _ =>
      if negb (ModeValid (is_Mode set))
      then Some (invalid (Text "profile: AgentProfile %q has unknown ToolSet Mode %q" [FStr name; FStr (is_Mode set)]))
      else bad_set name (i + 1) rest
    end
  end.

Fixpoint bad_extension (name : string) (i : Z) (extensions : list (option handle)) : option profileError :=
  match extensions with
  | [] => None
  | None :: _ => Some (invalid (Text "profile: AgentProfile %q has a nil Extension at Extensions[%d]" [FStr name; FNum i]))
  | Some _ :: rest => bad_extension name (i + 1) rest
  end.

(** [AgentProfile.validate]. *)
Definition validate (p : AgentProfile) : option profileError :=
  if blank (ap_Name p) then Some (invalid (plain_text "profile: AgentProfile.Name is empty"))
  else
    match ap_Model p with
    | None => Some (invalid (Text "profile: AgentProfile %q has no Model" [FStr (ap_Name p)]))
    | Some _ =>
      if negb (Valid (ap_MaxEffect p))
      then Some (invalid (Text "profile: AgentProfile %q has unknown MaxEffect %q" [FStr (ap_Name p); FStr (ap_MaxEffect p)]))
      else
        match bad_set (ap_Name p) 0 (ap_ToolSets p) with
        | Some err => Some err
        | None => bad_extension (ap_Name p) 0 (ap_Extensions p)
        end
    end.

(** [TaskSpec.validate]. *)
Definition task_validate (t : TaskSpec) : option profileError :=
  if blank (tk_Name t) then Some (invalid (plain_text "profile: TaskSpec.Name is empty"))
  else if blank (tk_Profile t) then Some (invalid (Text "profile: TaskSpec %q names no Profile" [FStr (tk_Name t)]))
  else if negb (Valid (tk_MaxEffect t))
  then Some (invalid (Text "profile: TaskSpec %q has unknown MaxEffect %q" [FStr (tk_Name t); FStr (tk_MaxEffect t)]))
  else if (tk_RunTimeout t <? 0)%Z
  then Some (invalid (Text "profile: TaskSpec %q has a negative RunTimeout" [FStr (tk_Name t)]))
  else None.

(** ** Narrowing *)

(** [have]: the IDs of the Tools, unless one of them is nil. *)
Definition tool_ids (tools : list (option GoTool)) : option (list string) :=
  mapM (fmap gt_ID) tools.

Definition set_names (sets : list InstalledSet) : option (list string) :=
  mapM (fun set => gs_Name <$> is_Set set) sets.

(** One loop of [Narrow] over the names that the TaskSpec keeps. *)
Fixpoint kept {A} (have : list string) (lookup : string -> made A) (widens : string -> profileError)
    (names : list string) : option profileError :=
  match names with
  | [] => None
  | name :: rest =>
    if bool_decide (name ∈ have) then kept have lookup widens rest
    else
      match lookup name with
      | Err err => Some err
      | Ok _ => Some (widens name)
      end
  end.

(** [AgentProfile.maxTokens]. *)
Definition maxTokens (p : AgentProfile) : option N :=
  if (0 <? sa_MaxTokens (ap_Sampling p))%N then Some (sa_MaxTokens (ap_Sampling p))
  else (fun model => sa_MaxTokens (gm_Sampling model)) <$> ap_Model p.

Definition timeout_limit (p : AgentProfile) : duration :=
  if Z.eqb (ap_RunTimeout p) 0 then DefaultRunTimeout else ap_RunTimeout p.

Definition Narrow (t : TaskSpec) (p : AgentProfile) (catalog : option Catalog) : option profileError :=
  let widens w := WidenError (tk_Name t) (ap_Name p) w in
  match tool_ids (ap_Tools p) with
  | None => Some NilDereference
  | Some have =>
  match kept have (Catalog_Tool catalog) (fun id => widens (WidensTools id)) (names_of (tk_Tools t)) with
  | Some err => Some err
  | None =>
  match set_names (ap_ToolSets p) with
  | None => Some NilDereference
  | Some have =>
  match kept have (Catalog_ToolSet catalog) (fun name => widens (WidensToolSets name)) (names_of (tk_ToolSets t)) with
  | Some err => Some err
  | None =>
    if negb (String.eqb (tk_MaxEffect t) ToolEffectUnspecified) && negb (String.eqb (ap_MaxEffect p) ToolEffectUnspecified)
       && negb (Within (tk_MaxEffect t) (ap_MaxEffect p))
    then Some (widens (WidensEffect (tk_MaxEffect t) (ap_MaxEffect p)))
    else if (0 <? tk_RunTimeout t)%Z && (0 <? timeout_limit p)%Z && (timeout_limit p <? tk_RunTimeout t)%Z
    then Some (widens (WidensTimeout (tk_RunTimeout t) (timeout_limit p)))
    else
      match maxTokens p with
      | None => Some NilDereference
      | Some limit =>
        if (0 <? sa_MaxTokens (tk_Sampling t))%N && (0 <? limit)%N && (limit <? sa_MaxTokens (tk_Sampling t))%N
        then Some (widens (WidensTokens (sa_MaxTokens (tk_Sampling t)) limit))
        else None
      end
  end end end end.

(** ** Apply *)

Definition joined (instruction background : string) : string :=
  if String.eqb background "" then instruction
  else if String.eqb instruction "" then background
  else (instruction ++ String newline (String newline background))%string.

(** [slices.DeleteFunc] of a clone; a nil Tool panics. *)
Definition keep_tools (names : list string) (tools : list (option GoTool)) : made (list (option GoTool)) :=
  match mapM id tools with
  | None => Err NilDereference
  | Some tools => Ok (Some <$> filter (fun tool => gt_ID tool ∈ names) tools)
  end.

Definition keep_sets (names : list string) (sets : list InstalledSet) : made (list InstalledSet) :=
  match set_names sets with
  | None => Err NilDereference
  | Some _ => Ok (filter (fun set => default "" (gs_Name <$> is_Set set) ∈ names) sets)
  end.

Definition sampling_over (t p : Sampling) : Sampling :=
  MkSampling
    (match sa_Temperature t with None => sa_Temperature p | set => set end)
    (if negb (N.eqb (sa_MaxTokens t) 0) then sa_MaxTokens t else sa_MaxTokens p)
    (if negb (String.eqb (sa_ReasoningEffort t) "") then sa_ReasoningEffort t else sa_ReasoningEffort p)
    (if negb (String.eqb (sa_ReasoningSummary t) "") then sa_ReasoningSummary t else sa_ReasoningSummary p).

Definition Apply (t : TaskSpec) (p : AgentProfile) : made AgentProfile :=
  let p := p <| ap_Instruction := joined (ap_Instruction p) (tk_Background t) |> in
  let? p :=
    match tk_Tools t with
    | None => Ok p
    | Some names =>
      let? tools := keep_tools names (ap_Tools p) in
      Ok (p <| ap_Tools := tools |> <| ap_ToolSources := [] |>)
    end in
  let? p :=
    match tk_ToolSets t with
    | None => Ok p
    | Some names =>
      let? sets := keep_sets names (ap_ToolSets p) in
      Ok (p <| ap_ToolSets := sets |>)
    end in
  let p := if negb (String.eqb (tk_MaxEffect t) ToolEffectUnspecified) then p <| ap_MaxEffect := tk_MaxEffect t |> else p in
  let p := if negb (Z.eqb (tk_RunTimeout t) 0) then p <| ap_RunTimeout := tk_RunTimeout t |> else p in
  Ok (p <| ap_Sampling := sampling_over (tk_Sampling t) (ap_Sampling p) |>).

(** ** What a narrower profile is *)

(** The deadline of a Run, if there is one, and the output limit that a Session sends, 0 for
    none: its own Sampling over the Model's. *)
Definition deadline (p : AgentProfile) : option duration :=
  if (timeout_limit p <? 0)%Z then None else Some (timeout_limit p).

Definition output_limit (p : AgentProfile) : N :=
  match ap_Model p with
  | Some model => sa_MaxTokens (over (ap_Sampling p) (gm_Sampling model))
  | None => sa_MaxTokens (ap_Sampling p)
  end.

Definition no_longer (d e : option duration) : Prop :=
  match d, e with
  | Some d, Some e => (d <= e)%Z
  | None, Some _ => False
  | _, None => True
  end.

Definition no_more_tokens (n m : N) : Prop := m = 0%N \/ (0 < n <= m)%N.

(** [q] can do no more than [p], and is [p] but for its bounds, its Sampling and what
    follows its instruction. *)
Record narrows (q p : AgentProfile) : Prop := {
  nw_tools : sublist (ap_Tools q) (ap_Tools p);
  nw_sets : sublist (ap_ToolSets q) (ap_ToolSets p);
  nw_sources : sublist (ap_ToolSources q) (ap_ToolSources p);
  nw_effect : (rank (ap_MaxEffect q) <= rank (ap_MaxEffect p))%nat;
  nw_deadline : no_longer (deadline q) (deadline p);
  nw_tokens : no_more_tokens (output_limit q) (output_limit p);
  nw_instruction : exists more, ap_Instruction q = (ap_Instruction p ++ more)%string;
  nw_rest :
    (ap_Name q, ap_Model q, ap_ModelName q, ap_ToolSearcher q, ap_Extensions q) =
      (ap_Name p, ap_Model p, ap_ModelName p, ap_ToolSearcher p, ap_Extensions p) /\
    (ap_ContextBuilder q, ap_Limits q, ap_ReadBack q, ap_Compact q) =
      (ap_ContextBuilder p, ap_Limits p, ap_ReadBack p, ap_Compact p);
}.

(** A bound of a TaskSpec that goes past its profile, a name that neither holds, and a
    TaskSpec that stays within every bound. *)
Definition exceeds (t : TaskSpec) (p : AgentProfile) (w : widening) : Prop :=
  match w with
  | WidensTools i => i ∈ names_of (tk_Tools t) /\ (forall tool, Some tool ∈ ap_Tools p -> gt_ID tool <> i)
  | WidensToolSets name =>
    name ∈ names_of (tk_ToolSets t) /\ (forall set s, set ∈ ap_ToolSets p -> is_Set set = Some s -> gs_Name s <> name)
  | WidensEffect own ceiling =>
    own = tk_MaxEffect t /\ ceiling = ap_MaxEffect p /\ own <> ToolEffectUnspecified /\ (rank ceiling < rank own)%nat
  | WidensTimeout own limit => own = tk_RunTimeout t /\ deadline p = Some limit /\ (limit < own)%Z
  | WidensTokens own limit => own = sa_MaxTokens (tk_Sampling t) /\ limit = output_limit p /\ (0 < limit < own)%N
  end.

Definition unknown (t : TaskSpec) (p : AgentProfile) (c : option Catalog) (kind name : string) : Prop :=
  (kind = KindTool /\ exceeds t p (WidensTools name) /\ (c ≫= fun c => cg_tools c !! name) = None) \/
  (kind = KindToolSet /\ exceeds t p (WidensToolSets name) /\ (c ≫= fun c => cg_toolSets c !! name) = None).

Definition fits (t : TaskSpec) (p : AgentProfile) : Prop := forall w, ~ exceeds t p w.

(** No Tool, ToolSet or Model of the profile is nil. *)
Definition no_nil (p : AgentProfile) : Prop :=
  None ∉ ap_Tools p /\ (forall set, set ∈ ap_ToolSets p -> is_Set set <> None) /\ ap_Model p <> None.

(** ** Lemmas *)

(** The IDs and the names of those that are not nil. *)
Definition ids_of (tools : list (option GoTool)) : list string := gt_ID <$> omap id tools.

Definition set_names_of (sets : list InstalledSet) : list string := gs_Name <$> omap is_Set sets.

#[export] Instance narrows_refl : Reflexive narrows.
Proof.
  intros p. split; try done.
  - unfold no_longer. by destruct (deadline p).
  - unfold no_more_tokens. lia.
  - exists "". by rewrite append_nil_r_string.
Qed.

#[export] Instance narrows_trans : Transitive narrows.
Proof.
  intros r q p [t1 s1 o1 e1 d1 k1 [m1 i1] [a1 b1]] [t2 s2 o2 e2 d2 k2 [m2 i2] [a2 b2]]. split; try (by etrans).
  - unfold no_longer in *. destruct (deadline r), (deadline q), (deadline p); try done. lia.
  - unfold no_more_tokens in *. lia.
  - exists (m2 ++ m1)%string. by rewrite i1, i2, append_assoc_string.
  - split; by etrans.
Qed.

Lemma tool_ids_some tools : None ∉ tools -> tool_ids tools = Some (ids_of tools).
Proof.
  induction tools as [|[tool|] tools IH]; [done| |set_solver].
  intros Hn. unfold tool_ids in *. cbn. rewrite IH by set_solver. done.
Qed.

Lemma tool_ids_none tools : None ∈ tools -> tool_ids tools = None.
Proof.
  induction tools as [|[tool|] tools IH]; unfold tool_ids in *; cbn; [set_solver| |done].
  intros Hn. rewrite IH by set_solver. done.
Qed.

Lemma set_names_some sets :
  (forall set, set ∈ sets -> is_Set set <> None) -> set_names sets = Some (set_names_of sets).
Proof.
  induction sets as [|set sets IH]; [done|]. intros Hn. unfold set_names in *. cbn.
  assert (is_Set set <> None) as Hs by (apply Hn; set_solver).
  destruct (is_Set set) as [s|]; [|done]. cbn. rewrite IH by set_solver. done.
Qed.

Lemma set_names_inv sets names :
  set_names sets = Some names -> names = set_names_of sets.
Proof.
  revert names. induction sets as [|set sets IH]; unfold set_names in *; cbn; intros names; [by intros [= <-]|].
  destruct (is_Set set) as [s|]; cbn; [|done].
  destruct (mapM _ sets) as [rest|] eqn:E; cbn; [|done]. intros [= <-]. cbn. by rewrite (IH rest).
Qed.

Lemma tool_ids_inv tools names : tool_ids tools = Some names -> names = ids_of tools.
Proof.
  intros E. destruct (decide (None ∈ tools)) as [Hin|Hn]; [by rewrite tool_ids_none in E|].
  rewrite tool_ids_some in E by done. by injection E as <-.
Qed.

Lemma elem_of_ids i tools : i ∈ ids_of tools <-> exists tool, Some tool ∈ tools /\ gt_ID tool = i.
Proof.
  unfold ids_of. rewrite list_elem_of_fmap. setoid_rewrite list_elem_of_omap. split.
  - intros (tool & -> & x & Hin & E). cbn in E. subst x. eauto.
  - intros (tool & Hin & <-). exists tool. split; [done|]. by exists (Some tool).
Qed.

Lemma elem_of_set_names name sets :
  name ∈ set_names_of sets <-> exists set s, set ∈ sets /\ is_Set set = Some s /\ gs_Name s = name.
Proof. unfold set_names_of. rewrite list_elem_of_fmap. setoid_rewrite list_elem_of_omap. naive_solver. Qed.

(** A loop of [Narrow] ends at the first name that the profile does not have. *)
Lemma kept_none {A} have (lookup : string -> made A) widens names :
  kept have lookup widens names = None <-> Forall (fun name => name ∈ have) names.
Proof.
  induction names as [|name names IH]; cbn; [done|]. rewrite list.Forall_cons.
  case_bool_decide as Hd; [tauto|]. split; [|tauto]. by destruct (lookup name).
Qed.

Lemma kept_some {A} have (lookup : string -> made A) widens names err :
  kept have lookup widens names = Some err ->
  exists name, name ∈ names /\ name ∉ have /\
    ((exists a, lookup name = Ok a /\ err = widens name) \/ lookup name = Err err).
Proof.
  induction names as [|name names IH]; cbn; [done|].
  case_bool_decide as Hd; [intros E; destruct (IH E) as (n & ? & ?); exists n; split; [by right|done]|].
  destruct (lookup name) as [a|e] eqn:El; intros [= <-]; exists name; (split; [by left|]); (split; [done|]); eauto.
Qed.

Lemma rank_unspecified : rank ToolEffectUnspecified = 4.
Proof. done. Qed.

Lemma rank_le e : rank e <= 4.
Proof. unfold rank. repeat case_match; lia. Qed.

Lemma output_limit_maxTokens p : ap_Model p <> None -> maxTokens p = Some (output_limit p).
Proof.
  unfold maxTokens, output_limit, over. destruct (ap_Model p) as [model|]; [cbn; intros _|done].
  destruct (N.ltb_spec 0 (sa_MaxTokens (ap_Sampling p))), (N.eqb_spec (sa_MaxTokens (ap_Sampling p)) 0); try done; lia.
Qed.

Lemma maxTokens_some p limit : maxTokens p = Some limit -> limit = output_limit p.
Proof.
  destruct (ap_Model p) as [model|] eqn:E.
  - rewrite output_limit_maxTokens by by rewrite E. by intros [= ->].
  - unfold maxTokens, output_limit. rewrite E. case_match; [by intros [= <-]|done].
Qed.

Lemma timeout_limit_deadline p limit :
  (0 < timeout_limit p)%Z -> deadline p = Some limit <-> timeout_limit p = limit.
Proof. unfold deadline. intros ?. destruct (Z.ltb_spec (timeout_limit p) 0); [lia|]. naive_solver. Qed.

Lemma deadline_none p : timeout_limit p <> 0%Z -> (timeout_limit p <= 0)%Z -> deadline p = None.
Proof. unfold deadline. intros ??. destruct (Z.ltb_spec (timeout_limit p) 0); [done|lia]. Qed.

Lemma timeout_limit_nonzero p : timeout_limit p <> 0%Z.
Proof. unfold timeout_limit. by destruct (Z.eqb_spec (ap_RunTimeout p) 0). Qed.

(** The IDs that a profile has, as [exceeds] says it of each name. *)
Lemma not_an_id i tools : i ∉ ids_of tools <-> (forall tool, Some tool ∈ tools -> gt_ID tool <> i).
Proof. rewrite elem_of_ids. naive_solver. Qed.

Lemma not_a_set_name name sets :
  name ∉ set_names_of sets <-> (forall set s, set ∈ sets -> is_Set set = Some s -> gs_Name s <> name).
Proof. rewrite elem_of_set_names. naive_solver. Qed.

(** What each check of [Narrow] refuses. *)
Lemma effect_check t p :
  negb (String.eqb (tk_MaxEffect t) ToolEffectUnspecified) && negb (String.eqb (ap_MaxEffect p) ToolEffectUnspecified)
    && negb (Within (tk_MaxEffect t) (ap_MaxEffect p)) = true <->
  exceeds t p (WidensEffect (tk_MaxEffect t) (ap_MaxEffect p)).
Proof.
  unfold Within. cbn. rewrite !andb_true_iff, !negb_true_iff, String.eqb_neq, String.eqb_neq, Nat.leb_gt.
  pose proof (rank_le (tk_MaxEffect t)). split; [tauto|]. intros (_ & _ & ? & Hr). repeat split; try done.
  intros Ep. rewrite Ep, rank_unspecified in Hr. lia.
Qed.

Lemma timeout_check t p :
  (0 <? tk_RunTimeout t)%Z && (0 <? timeout_limit p)%Z && (timeout_limit p <? tk_RunTimeout t)%Z = true <->
  exceeds t p (WidensTimeout (tk_RunTimeout t) (timeout_limit p)).
Proof.
  cbn. unfold deadline. pose proof (timeout_limit_nonzero p).
  rewrite !andb_true_iff, !Z.ltb_lt. destruct (Z.ltb_spec (timeout_limit p) 0); [naive_solver lia|].
  split; [intros [[??]?]; done|]. intros (_ & _ & ?). lia.
Qed.

Lemma tokens_check t p :
  (0 <? sa_MaxTokens (tk_Sampling t))%N && (0 <? output_limit p)%N && (output_limit p <? sa_MaxTokens (tk_Sampling t))%N = true <->
  exceeds t p (WidensTokens (sa_MaxTokens (tk_Sampling t)) (output_limit p)).
Proof. cbn. rewrite !andb_true_iff, !N.ltb_lt. naive_solver lia. Qed.

(** What [Narrow] answers says what of the TaskSpec made it. *)
Definition answers (t : TaskSpec) (p : AgentProfile) (c : option Catalog) (answer : option profileError) : Prop :=
  match answer with
  | None => fits t p
  | Some (WidenError task profile w) => task = tk_Name t /\ profile = ap_Name p /\ exceeds t p w
  | Some (UnknownNameError kind name) => unknown t p c kind name
  | Some NilDereference => ~ no_nil p
  | Some _ => False
  end.

Lemma tools_check t p c have err :
  tool_ids (ap_Tools p) = Some have ->
  kept have (Catalog_Tool c) (fun id => WidenError (tk_Name t) (ap_Name p) (WidensTools id)) (names_of (tk_Tools t)) = Some err ->
  answers t p c (Some err).
Proof.
  intros ->%tool_ids_inv (i & Hi & Hn & [(tool & _ & ->)|E])%kept_some; rewrite not_an_id in Hn; [by cbn|].
  unfold Catalog_Tool in E. destruct (c ≫= _) eqn:Ec; [done|]. injection E as <-. left. by cbn.
Qed.

Lemma sets_check t p c have err :
  set_names (ap_ToolSets p) = Some have ->
  kept have (Catalog_ToolSet c) (fun name => WidenError (tk_Name t) (ap_Name p) (WidensToolSets name)) (names_of (tk_ToolSets t)) = Some err ->
  answers t p c (Some err).
Proof.
  intros ->%set_names_inv (name & Hi & Hn & [(s & _ & ->)|E])%kept_some; rewrite not_a_set_name in Hn; [by cbn|].
  unfold Catalog_ToolSet in E. destruct (c ≫= _) eqn:Ec; [done|]. injection E as <-. right. by cbn.
Qed.

(** The bounds that a narrowing compares with are those of the two values. *)
Lemma fits_checked t p :
  Forall (fun i => i ∈ ids_of (ap_Tools p)) (names_of (tk_Tools t)) ->
  Forall (fun name => name ∈ set_names_of (ap_ToolSets p)) (names_of (tk_ToolSets t)) ->
  ~ exceeds t p (WidensEffect (tk_MaxEffect t) (ap_MaxEffect p)) ->
  ~ exceeds t p (WidensTimeout (tk_RunTimeout t) (timeout_limit p)) ->
  ~ exceeds t p (WidensTokens (sa_MaxTokens (tk_Sampling t)) (output_limit p)) -> fits t p.
Proof.
  rewrite !list.Forall_forall. intros Htools Hsets He Ht Hk [i|name|own ceiling|own limit|own limit].
  - intros [Hi%Htools Hn]. by rewrite <- not_an_id in Hn.
  - intros [Hi%Hsets Hn]. by rewrite <- not_a_set_name in Hn.
  - intros (-> & -> & ?). by apply He.
  - intros (-> & Hd & ?). apply Ht. cbn. assert (timeout_limit p = limit) as -> by
      (unfold deadline in Hd; case_match; [done|by injection Hd]). done.
  - intros (-> & -> & ?). by apply Hk.
Qed.

Lemma narrow_answers t p c : answers t p c (Narrow t p c).
Proof.
  unfold Narrow. destruct (tool_ids (ap_Tools p)) as [have|] eqn:Eh;
    [|intros (Hn & _); by rewrite tool_ids_some in Eh].
  destruct (kept have _ _ _) as [err|] eqn:Et; [by eapply tools_check|].
  destruct (set_names (ap_ToolSets p)) as [have'|] eqn:Es; [|intros (_ & Hn & _); by rewrite set_names_some in Es].
  destruct (kept have' _ _ _) as [err|] eqn:Ek; [by eapply sets_check|].
  match goal with |- answers _ _ _ (if ?b then _ else _) => destruct b eqn:Ee end; [by apply effect_check in Ee|].
  match goal with |- answers _ _ _ (if ?b then _ else _) => destruct b eqn:Ed end; [by apply timeout_check in Ed|].
  destruct (maxTokens p) as [limit|] eqn:Em;
    [|intros (_ & _ & Hm); by rewrite output_limit_maxTokens in Em].
  apply maxTokens_some in Em as ->.
  match goal with |- answers _ _ _ (if ?b then _ else _) => destruct b eqn:El end; [by apply tokens_check in El|].
  apply tool_ids_inv in Eh as ->. apply set_names_inv in Es as ->. apply kept_none in Et, Ek.
  apply fits_checked; [done..| | |]; [rewrite <- effect_check|rewrite <- timeout_check|rewrite <- tokens_check]; by apply not_true_iff_false.
Qed.

(** [Apply] keeps some of the Tools and ToolSets. *)
Lemma keep_tools_spec names tools : None ∉ tools ->
  keep_tools names tools = Ok (Some <$> filter (fun tool => gt_ID tool ∈ names) (omap id tools)).
Proof.
  intros Hn. unfold keep_tools. assert (mapM id tools = Some (omap id tools)) as ->; [|done].
  induction tools as [|[tool|] tools IH]; [done| |set_solver]. cbn. by rewrite IH by set_solver.
Qed.

Lemma keep_tools_sublist (names : list string) tools : None ∉ tools ->
  sublist (Some <$> filter (fun tool => gt_ID tool ∈ names) (omap id tools)) tools.
Proof.
  induction tools as [|[tool|] tools IH]; [done| |set_solver]. intros Hn.
  change (omap id (Some tool :: tools)) with (tool :: omap id tools). rewrite filter_cons.
  assert (None ∉ tools) by set_solver. case_decide; rewrite ?fmap_cons; [by apply sublist_skip, IH|by apply sublist_cons, IH].
Qed.

Lemma keep_sets_spec names sets : (forall set, set ∈ sets -> is_Set set <> None) ->
  keep_sets names sets = Ok (filter (fun set => default "" (gs_Name <$> is_Set set) ∈ names) sets).
Proof. intros Hn. unfold keep_sets. by rewrite set_names_some. Qed.

Lemma filter_sublist {A} (P : A -> Prop) `{!forall x, Decision (P x)} (l : list A) : sublist (filter P l) l.
Proof.
  induction l as [|x l IH]; [done|]. rewrite filter_cons.
  case_decide; [by apply sublist_skip|by apply sublist_cons].
Qed.

(** The profile that [Apply] gives when nothing in it is nil. *)
Definition applied (t : TaskSpec) (p : AgentProfile) : AgentProfile :=
  MkProfile (ap_Name p) (ap_Model p) (ap_ModelName p) (joined (ap_Instruction p) (tk_Background t))
    (match tk_Tools t with
     | Some names => Some <$> filter (fun tool => gt_ID tool ∈ names) (omap id (ap_Tools p))
     | None => ap_Tools p
     end)
    (match tk_ToolSets t with
     | Some names => filter (fun set => default "" (gs_Name <$> is_Set set) ∈ names) (ap_ToolSets p)
     | None => ap_ToolSets p
     end)
    (match tk_Tools t with Some _ => [] | None => ap_ToolSources p end)
    (ap_ToolSearcher p)
    (if String.eqb (tk_MaxEffect t) ToolEffectUnspecified then ap_MaxEffect p else tk_MaxEffect t)
    (sampling_over (tk_Sampling t) (ap_Sampling p)) (ap_Extensions p) (ap_ContextBuilder p) (ap_Limits p)
    (ap_ReadBack p) (if Z.eqb (tk_RunTimeout t) 0 then ap_RunTimeout p else tk_RunTimeout t) (ap_Compact p).

Lemma Apply_applied t p : None ∉ ap_Tools p -> (forall set, set ∈ ap_ToolSets p -> is_Set set <> None) ->
  Apply t p = Ok (applied t p).
Proof.
  intros Ht Hs. unfold Apply, applied.
  destruct (tk_Tools t) as [names|], (tk_ToolSets t) as [names'|]; cbn;
    rewrite ?keep_tools_spec by done; cbn; rewrite ?keep_sets_spec by done; cbn;
    by destruct (String.eqb (tk_MaxEffect t) ToolEffectUnspecified), (Z.eqb (tk_RunTimeout t) 0).
Qed.

Lemma applied_deadline t p : fits t p -> task_validate t = None -> no_longer (deadline (applied t p)) (deadline p).
Proof.
  intros Hf Hv. assert (0 <= tk_RunTimeout t)%Z as Hpos.
  { unfold task_validate in Hv. repeat case_match; try done. by apply Z.ltb_ge. }
  specialize (Hf (WidensTimeout (tk_RunTimeout t) (timeout_limit p))). rewrite <- timeout_check in Hf.
  assert (timeout_limit (applied t p) = if Z.eqb (tk_RunTimeout t) 0 then timeout_limit p else tk_RunTimeout t) as El.
  { unfold applied, timeout_limit at 1. cbn. destruct (Z.eqb_spec (tk_RunTimeout t) 0) as [|E]; [done|].
    by rewrite (proj2 (Z.eqb_neq _ _) E). }
  unfold no_longer, deadline. rewrite El. rewrite !andb_true_iff, !Z.ltb_lt in Hf.
  destruct (Z.eqb_spec (tk_RunTimeout t) 0), (Z.ltb_spec (timeout_limit p) 0), (Z.ltb_spec (tk_RunTimeout t) 0); try done; try lia.
  destruct (Z.eq_dec (timeout_limit p) 0%Z) as [E|E]; [by destruct (timeout_limit_nonzero p)|lia].
Qed.

Lemma applied_tokens t p : fits t p -> no_more_tokens (output_limit (applied t p)) (output_limit p).
Proof.
  intros Hf. specialize (Hf (WidensTokens (sa_MaxTokens (tk_Sampling t)) (output_limit p))).
  assert (output_limit p = 0%N \/ (sa_MaxTokens (tk_Sampling t) <= output_limit p)%N) as Hle
    by (cbn in Hf; destruct (N.eq_dec (output_limit p) 0%N); [by left|right]; lia).
  unfold no_more_tokens, output_limit, over, applied, sampling_over in *. cbn in *.
  destruct (N.eqb_spec (sa_MaxTokens (tk_Sampling t)) 0) as [E|E]; cbn; [lia|].
  rewrite (proj2 (N.eqb_neq _ _) E). destruct (ap_Model p); lia.
Qed.

Lemma applied_narrows t p : fits t p -> task_validate t = None -> None ∉ ap_Tools p -> narrows (applied t p) p.
Proof.
  intros Hf Hv Ht. split; [| | | |by apply applied_deadline|by apply applied_tokens| |done].
  - cbn. destruct (tk_Tools t); [by apply keep_tools_sublist|done].
  - cbn. destruct (tk_ToolSets t); [apply filter_sublist|done].
  - cbn. destruct (tk_Tools t); [apply sublist_nil_l|done].
  - cbn. destruct (String.eqb_spec (tk_MaxEffect t) ToolEffectUnspecified); [done|].
    destruct (Nat.le_gt_cases (rank (tk_MaxEffect t)) (rank (ap_MaxEffect p))); [done|].
    exfalso. by apply (Hf (WidensEffect (tk_MaxEffect t) (ap_MaxEffect p))).
  - cbn. unfold joined. destruct (String.eqb (tk_Background t) ""); [exists ""; by rewrite append_nil_r_string|].
    destruct (String.eqb_spec (ap_Instruction p) "") as [->|]; eauto.
Qed.

(** A TaskSpec that [Narrow] lets through. *)
Lemma narrow_ok t p c : Narrow t p c = None ->
  fits t p /\ None ∉ ap_Tools p /\ (forall set, set ∈ ap_ToolSets p -> is_Set set <> None).
Proof.
  intros E. pose proof (narrow_answers t p c) as Ha. rewrite E in Ha. split; [done|]. unfold Narrow in E.
  destruct (tool_ids (ap_Tools p)) as [have|] eqn:Eh; [|done]. destruct (kept have _ _ _); [done|].
  destruct (set_names (ap_ToolSets p)) as [names|] eqn:Es; [|done]. clear E Ha. split.
  - intros Hn. by rewrite tool_ids_none in Eh.
  - apply mapM_Some_1 in Es. induction Es as [|x y sets ys Hx Hs IH]; [set_solver|].
    intros set [->|Hin]%elem_of_cons; [by intros En; rewrite En in Hx|by apply IH].
Qed.

Lemma narrow_applies t p c : Narrow t p c = None -> task_validate t = None ->
  Apply t p = Ok (applied t p) /\ narrows (applied t p) p.
Proof. intros (Hf & Ht & Hs)%narrow_ok Hv. by split; [apply Apply_applied|apply applied_narrows]. Qed.

(** ** Valid profiles stay valid *)

Definition set_ok (set : InstalledSet) : Prop := is_Some (is_Set set) /\ ModeValid (is_Mode set) = true.

Lemma bad_set_ok name i sets : bad_set name i sets = None <-> Forall set_ok sets.
Proof.
  revert i. induction sets as [|set sets IH]; intros i; cbn; [done|]. rewrite list.Forall_cons, <- (IH (i + 1)%Z).
  unfold set_ok at 1. destruct (is_Set set), (ModeValid (is_Mode set)); cbn; split; try done; try naive_solver.
Qed.

Lemma validate_ok p : validate p = None <->
  blank (ap_Name p) = false /\ is_Some (ap_Model p) /\ Valid (ap_MaxEffect p) = true /\ Forall set_ok (ap_ToolSets p) /\
  bad_extension (ap_Name p) 0 (ap_Extensions p) = None.
Proof.
  unfold validate. rewrite <- (bad_set_ok (ap_Name p) 0).
  destruct (blank (ap_Name p)), (ap_Model p), (Valid (ap_MaxEffect p)), (bad_set _ _ _); cbn; naive_solver.
Qed.

Lemma applied_valid t p : validate p = None -> task_validate t = None -> validate (applied t p) = None.
Proof.
  rewrite !validate_ok. intros (Hb & Hm & He & Hs & Hx) Hv. repeat split; try done.
  - cbn. destruct (String.eqb (tk_MaxEffect t) ToolEffectUnspecified); [done|].
    unfold task_validate in Hv. destruct (Valid (tk_MaxEffect t)); [done|]. by repeat case_match.
  - cbn. destruct (tk_ToolSets t); [|done]. rewrite list.Forall_forall in Hs |- *. by intros set [_ Hin]%list_elem_of_filter; apply Hs.
Qed.

(** A nil Tool is refused by no check before [Narrow], which calls a method of it. *)
Lemma nil_tool_panics t p c : None ∈ ap_Tools p ->
  Narrow t p c = Some NilDereference /\ validate (p <| ap_Tools := [] |>) = validate p.
Proof. intros Hn. unfold Narrow. by rewrite tool_ids_none. Qed.

(** C26: [Narrow] decides whether a TaskSpec only narrows its profile, and says why not.  Of a
    valid TaskSpec and a profile without a nil, it refuses with an [ErrWidens] that names the
    two and a bound that the TaskSpec does go past, or with an [ErrUnknownName] for a Tool or
    ToolSet that neither the profile nor the Catalog has; it lets the TaskSpec through exactly
    when it goes past no bound, and then [Apply] gives a profile with no tool, ToolSet,
    source, effect, deadline or output limit past the profile's. *)
Theorem narrow_decides t p c : no_nil p -> task_validate t = None ->
  match Narrow t p c with
  | None => fits t p /\ Apply t p = Ok (applied t p) /\ narrows (applied t p) p
  | Some (WidenError task profile w as err) =>
    task = tk_Name t /\ profile = ap_Name p /\ exceeds t p w /\ errorIs err ErrWidens = true
  | Some (UnknownNameError kind name as err) => unknown t p c kind name /\ errorIs err ErrUnknownName = true
  | Some _ => False
  end.
Proof.
  intros Hn Hv. pose proof (narrow_answers t p c) as Ha. destruct (Narrow t p c) as [[]|] eqn:E; cbn in Ha; try done.
  - naive_solver.
  - split; [done|]. by eapply narrow_applies.
Qed.

Definition two_tools : AgentProfile :=
  MkProfile "coder" (Some (MkGoModel 1 no_sampling)) "" "" [Some (MkGoTool 2 "grep"); Some (MkGoTool 3 "write")] [] [] None
    ToolEffectWriteLocal no_sampling [] None None None minute no_compactor.

Definition only_grep (timeout : duration) : TaskSpec :=
  MkTask "look" "coder" "" (Some ["grep"]) None ToolEffectRead timeout no_sampling.

Example narrow_lets : Narrow (only_grep minute) two_tools None = None.
Proof. reflexivity. Qed.
Example narrow_refuses :
  Narrow (only_grep (2 * minute)) two_tools None = Some (WidenError "look" "coder" (WidensTimeout (2 * minute) minute)).
Proof. reflexivity. Qed.

Lemma narrow_decides_witness :
  no_nil two_tools /\
  match Narrow (only_grep minute) two_tools None with
  | None => fits (only_grep minute) two_tools /\ Apply (only_grep minute) two_tools = Ok (applied (only_grep minute) two_tools) /\
            narrows (applied (only_grep minute) two_tools) two_tools
  | Some (WidenError task profile w as err) =>
    task = "look" /\ profile = "coder" /\ exceeds (only_grep minute) two_tools w /\ errorIs err ErrWidens = true
  | Some (UnknownNameError kind name as err) =>
    unknown (only_grep minute) two_tools None kind name /\ errorIs err ErrUnknownName = true
  | Some _ => False
  end.
Proof.
  assert (no_nil two_tools) as Hn by (repeat split; [by intros [|[|?%elem_of_nil]%elem_of_cons]%elem_of_cons|by intros ? ?%elem_of_nil|done]).
  split; [done|]. by apply (narrow_decides (only_grep minute) two_tools None).
Defined.
