(* ===== verification/ProfileDoc.v ===== *)
(** * Documents of profiles and tasks

    [profile/agent_profile_doc.go] and [task_spec_doc.go].  A document is a JSON text; its
    value keeps the members of an object in order and a number as its literal, since
    [encoding/json] reads both.  What it does with the struct of a document is modelled here:
    which member sets which field, what is refused, what is omitted.  The text of a value,
    of a float, of a duration and of a time zone are [DocText], and that they read back is
    [DocLaws]. *)

From stdpp Require Import pretty.
From S2P Require Import Prelude GoStrings Text Errors Types Cut Compactor Session ToolRegistry Profile.
Local Open Scope string_scope.
Local Open Scope list_scope.

(** ** JSON values and texts *)

Inductive jvalue : Type :=
| VNull
| VBool (b : bool)
| VNumber (literal : string)
| VString (s : string)
| VArray (items : list jvalue)
| VObject (members : list (string * jvalue)).

(** What decoding a document fails with. *)
Inductive jsonError : Type :=
| Malformed
| UnknownField (name : string)
| CannotSet
| TrailingData.

(** [json_read] is the [Decoder]'s first value, with the text after it. *)
Class DocText := {
  json_write : jvalue -> bytes;
  json_read : bytes -> option (jvalue * bytes);
  float_literal : Z -> Z -> string;
  parse_float : string -> option (Z * Z);
  duration_string : duration -> string;
  ParseDuration : string -> outcome duration;
  location_name : Location -> string;
  LoadLocation : string -> outcome Location;
  json_failure : jsonError -> error;
}.

(** Every string of a value is UTF-8: of another, [Marshal] replaces what is not. *)
Fixpoint value_ok (v : jvalue) : bool :=
  match v with
  | VNull | VBool _ | VNumber _ => true
  | VString s => valid_string (bytes_of s)
  | VArray items => forallb value_ok items
  | VObject members => forallb (fun member => valid_string (bytes_of (fst member)) && value_ok (snd member)) members
  end.

Definition duration_ok (d : duration) : Prop := (- 2 ^ 63 <= d < 2 ^ 63)%Z.

(** A finite [float64] in its one form. *)
Definition float_ok (m e : Z) : Prop :=
  (m = 0 /\ e = 0)%Z \/ (Z.odd m = true /\ Z.abs m < 2 ^ 53 /\ -1074 <= e <= 971)%Z.

Class DocLaws `{DocText} := {
  read_written v : value_ok v = true -> json_read (json_write v) = Some (v, []);
  text_written v : json_write v <> [];
  float_read m e : float_ok m e -> parse_float (float_literal m e) = Some (m, e);
  duration_read d : duration_ok d -> ParseDuration (duration_string d) = Ok d;
  duration_written d : duration_string d <> "" /\ valid_string (bytes_of (duration_string d)) = true;
}.

(** ** Decoding a value into a field *)

Abbreviation decoder A := (A -> jvalue -> result jsonError A) (only parsing).

Definition decode_string (old : string) (v : jvalue) : result jsonError string :=
  match v with VString s => Ok s | VNull => Ok old | _ => Err CannotSet end.

Definition decode_bool (old : bool) (v : jvalue) : result jsonError bool :=
  match v with VBool b => Ok b | VNull => Ok old | _ => Err CannotSet end.

Definition digit_value (c : ascii) : option N := if byte_in 48 57 c then Some (byte c - 48)%N else None.

Fixpoint digits (acc : N) (s : string) : option N :=
  match s with
  | "" => Some acc
  | String c rest => match digit_value c with Some d => digits (10 * acc + d) rest | None => None end
  end.

(** [strconv.ParseUint] and [ParseInt] of a literal, with the bound of the field's width. *)
Definition parse_uint (bits : N) (s : string) : option N :=
  match s with
  | "" => None
  | _ => match digits 0 s with Some n => if (n <? 2 ^ bits)%N then Some n else None | None => None end
  end.

Definition parse_int (s : string) : option Z :=
  match s with
  | String "-"%char rest =>
    match parse_uint 64 rest with Some n => if (n <=? 2 ^ 63)%N then Some (- Z.of_N n)%Z else None | None => None end
  | _ => match parse_uint 63 s with Some n => Some (Z.of_N n) | None => None end
  end.

Definition decode_uint (bits : N) (old : N) (v : jvalue) : result jsonError N :=
  match v with
  | VNumber literal => match parse_uint bits literal with Some n => Ok n | None => Err CannotSet end
  | VNull => Ok old
  | _ => Err CannotSet
  end.

Definition decode_int (old : Z) (v : jvalue) : result jsonError Z :=
  match v with
  | VNumber literal => match parse_int literal with Some n => Ok n | None => Err CannotSet end
  | VNull => Ok old
  | _ => Err CannotSet
  end.

(** A pointer is set to a new zero value unless it is set already. *)
Definition decode_pointer {A} (decode : decoder A) (zero : A) (old : option A) (v : jvalue) : result jsonError (option A) :=
  match v with
  | VNull => Ok None
  | _ => let? a := decode (default zero old) v in Ok (Some a)
  end.

(** An array is read over the elements that the slice has; those it does not have are zero. *)
Fixpoint decode_items {A} (decode : decoder A) (zero : A) (old : list A) (items : list jvalue) : result jsonError (list A) :=
  match items with
  | [] => Ok []
  | v :: rest =>
    let? a := decode (default zero (head old)) v in
    let? more := decode_items decode zero (tail old) rest in
    Ok (a :: more)
  end.

(** A slice is [None] when it is nil. *)
Definition decode_slice {A} (decode : decoder A) (zero : A) (old : option (list A)) (v : jvalue) : result jsonError (option (list A)) :=
  match v with
  | VNull => Ok None
  | VArray items => let? l := decode_items decode zero (default [] old) items in Ok (Some l)
  | _ => Err CannotSet
  end.

(** The fields of a struct by their names in JSON. *)
Abbreviation fields S := (list (string * (S -> jvalue -> result jsonError S))) (only parsing).

(** [foldName]: two names are one when they differ in case.  Of the runes that are not ASCII,
    these two alone fold to a letter that is. *)
Definition fold_rune (r : N) : N :=
  if (97 <=? r)%N && (r <=? 122)%N then (r - 32)%N
  else if N.eqb r 0x17F then 83%N
  else if N.eqb r 0x212A then 75%N
  else r.

Definition fold_name (s : string) : list N := fold_rune ∘ fst <$> runes (bytes_of s).

Definition field_named {S} (fs : fields S) (name : string) : option (S -> jvalue -> result jsonError S) :=
  match list_find (fun f => f.1 = name) fs with
  | Some (_, f) => Some (snd f)
  | None => snd ∘ snd <$> list_find (fun f => fold_name f.1 = fold_name name) fs
  end.

Fixpoint decode_members {S} (fs : fields S) (old : S) (members : list (string * jvalue)) : result jsonError S :=
  match members with
  | [] => Ok old
  | (name, v) :: rest =>
    match field_named fs name with
    | None => Err (UnknownField name)
    | Some set => let? s := set old v in decode_members fs s rest
    end
  end.

Definition decode_struct {S} (fs : fields S) (old : S) (v : jvalue) : result jsonError S :=
  match v with
  | VNull => Ok old
  | VObject members => decode_members fs old members
  | _ => Err CannotSet
  end.

(** A field and how it is read. *)
Definition at_field {S F} (get : S -> F) (put : S -> F -> S) (decode : decoder F) (s : S) (v : jvalue) : result jsonError S :=
  let? f := decode (get s) v in Ok (put s f).

(** ** The text around the value *)

(** What [peek] skips. *)
Fixpoint skip_blanks (s : bytes) : bytes :=
  match s with
  | c :: rest => if existsb (N.eqb (byte c)) [32; 9; 13; 10]%N then skip_blanks rest else s
  | [] => []
  end.

(** [Decoder.More]: a byte follows that closes no array and no object. *)
Definition More (rest : bytes) : bool :=
  match skip_blanks rest with
  | [] => false
  | c :: _ => negb (N.eqb (byte c) 93 || N.eqb (byte c) 125)
  end.

Section documents.
Context `{DocText}.

Definition decodeStrict {S} (fs : fields S) (zero : S) (doc : bytes) : result jsonError S :=
  match json_read doc with
  | None => Err Malformed
  | Some (v, rest) =>
    let? s := decode_struct fs zero v in
    if More rest then Err TrailingData else Ok s
  end.

(** ** Sampling and limits *)

Definition decode_float (old : float64) (v : jvalue) : result jsonError float64 :=
  match v with
  | VNumber literal => match parse_float literal with Some (m, e) => Ok (Finite m e) | None => Err CannotSet end
  | VNull => Ok old
  | _ => Err CannotSet
  end.

Definition sampling_fields : fields Sampling :=
  [ ("temperature", at_field sa_Temperature (fun s f => s <| sa_Temperature := f |>) (decode_pointer decode_float (Finite 0 0)));
    ("max_tokens", at_field sa_MaxTokens (fun s f => s <| sa_MaxTokens := f |>) (decode_uint 32));
    ("reasoning_effort", at_field sa_ReasoningEffort (fun s f => s <| sa_ReasoningEffort := f |>) decode_string);
    ("reasoning_summary", at_field sa_ReasoningSummary (fun s f => s <| sa_ReasoningSummary := f |>) decode_string) ].

Definition write_uint (n : N) : jvalue := VNumber (pretty n).
Definition write_int (z : Z) : jvalue := VNumber (pretty z).

(** A member with [omitempty]. *)
Definition unless (empty : bool) (name : string) (v : jvalue) : list (string * jvalue) :=
  if empty then [] else [(name, v)].

(** [None] is the error of [Marshal] for a number that JSON does not have. *)
Definition write_sampling (s : Sampling) : option jvalue :=
  let rest :=
    unless (N.eqb (sa_MaxTokens s) 0) "max_tokens" (write_uint (sa_MaxTokens s))
    ++ unless (String.eqb (sa_ReasoningEffort s) "") "reasoning_effort" (VString (sa_ReasoningEffort s))
    ++ unless (String.eqb (sa_ReasoningSummary s) "") "reasoning_summary" (VString (sa_ReasoningSummary s)) in
  match sa_Temperature s with
  | Some NotFinite => None
  | Some (Finite m e) => Some (VObject (("temperature", VNumber (float_literal m e)) :: rest))
  | None => Some (VObject rest)
  end.

(** [omitzero]. *)
Definition zero_sampling (s : Sampling) : bool :=
  match sa_Temperature s with Some _ => false | None => true end
  && N.eqb (sa_MaxTokens s) 0 && String.eqb (sa_ReasoningEffort s) "" && String.eqb (sa_ReasoningSummary s) "".

Definition limits_fields : fields CoreLimits :=
  [ ("MaxMessages", at_field lm_MaxMessages (fun s f => s <| lm_MaxMessages := f |>) (decode_uint 32));
    ("MaxMessageBytes", at_field lm_MaxMessageBytes (fun s f => s <| lm_MaxMessageBytes := f |>) (decode_uint 64));
    ("MaxTranscriptBytes", at_field lm_MaxTranscriptBytes (fun s f => s <| lm_MaxTranscriptBytes := f |>) (decode_uint 64));
    ("MaxSteerMessages", at_field lm_MaxSteerMessages (fun s f => s <| lm_MaxSteerMessages := f |>) (decode_uint 32));
    ("MaxFollowUpMessages", at_field lm_MaxFollowUpMessages (fun s f => s <| lm_MaxFollowUpMessages := f |>) (decode_uint 32));
    ("MaxNotices", at_field lm_MaxNotices (fun s f => s <| lm_MaxNotices := f |>) (decode_uint 32));
    ("MaxTruncatedContinuations", at_field lm_MaxTruncatedContinuations (fun s f => s <| lm_MaxTruncatedContinuations := f |>) (decode_uint 32));
    ("MaxParallelTools", at_field lm_MaxParallelTools (fun s f => s <| lm_MaxParallelTools := f |>) (decode_uint 32));
    ("ModelCallDeadline", at_field lm_ModelCallDeadline (fun s f => s <| lm_ModelCallDeadline := f |>) decode_int);
    ("ToolCallDeadline", at_field lm_ToolCallDeadline (fun s f => s <| lm_ToolCallDeadline := f |>) decode_int);
    ("SpillPreviewBytes", at_field lm_SpillPreviewBytes (fun s f => s <| lm_SpillPreviewBytes := f |>) (decode_uint 32)) ].

Definition write_limits (l : CoreLimits) : jvalue :=
  VObject
    [ ("MaxMessages", write_uint (lm_MaxMessages l)); ("MaxMessageBytes", write_uint (lm_MaxMessageBytes l));
      ("MaxTranscriptBytes", write_uint (lm_MaxTranscriptBytes l)); ("MaxSteerMessages", write_uint (lm_MaxSteerMessages l));
      ("MaxFollowUpMessages", write_uint (lm_MaxFollowUpMessages l)); ("MaxNotices", write_uint (lm_MaxNotices l));
      ("MaxTruncatedContinuations", write_uint (lm_MaxTruncatedContinuations l));
      ("MaxParallelTools", write_uint (lm_MaxParallelTools l)); ("ModelCallDeadline", write_int (lm_ModelCallDeadline l));
      ("ToolCallDeadline", write_int (lm_ToolCallDeadline l)); ("SpillPreviewBytes", write_uint (lm_SpillPreviewBytes l)) ].

Definition no_limits : CoreLimits := MkLimits 0 0 0 0 0 0 0 0 0 0 0.

(** ** The document of an AgentProfile *)

Record ToolSetRef := MkToolSetRef { tr_Name : string; tr_Mode : ToolSetMode }.
#[local] Instance eta_ToolSetRef : Eta ToolSetRef := fun r => MkToolSetRef (tr_Name r) (tr_Mode r).

Definition ref_fields : fields ToolSetRef :=
  [ ("name", at_field tr_Name (fun s f => s <| tr_Name := f |>) decode_string);
    ("mode", at_field tr_Mode (fun s f => s <| tr_Mode := f |>) decode_string) ].

Definition write_ref (r : ToolSetRef) : jvalue :=
  VObject (("name", VString (tr_Name r)) :: unless (String.eqb (tr_Mode r) "") "mode" (VString (tr_Mode r))).

Record CompactDoc := MkCompactDoc {
  cd_CeilingTokens : Z;
  cd_SegmentBudgetTokens : Z;
  cd_DropReasoning : bool;
  cd_Location : string;
}.
#[local] Instance eta_CompactDoc : Eta CompactDoc := fun r =>
  MkCompactDoc (cd_CeilingTokens r) (cd_SegmentBudgetTokens r) (cd_DropReasoning r) (cd_Location r).

Definition compact_fields : fields CompactDoc :=
  [ ("ceiling_tokens", at_field cd_CeilingTokens (fun s f => s <| cd_CeilingTokens := f |>) decode_int);
    ("segment_budget_tokens", at_field cd_SegmentBudgetTokens (fun s f => s <| cd_SegmentBudgetTokens := f |>) decode_int);
    ("drop_reasoning", at_field cd_DropReasoning (fun s f => s <| cd_DropReasoning := f |>) decode_bool);
    ("location", at_field cd_Location (fun s f => s <| cd_Location := f |>) decode_string) ].

Definition write_compact (c : CompactDoc) : jvalue :=
  VObject
    (unless (Z.eqb (cd_CeilingTokens c) 0) "ceiling_tokens" (write_int (cd_CeilingTokens c))
     ++ unless (Z.eqb (cd_SegmentBudgetTokens c) 0) "segment_budget_tokens" (write_int (cd_SegmentBudgetTokens c))
     ++ unless (negb (cd_DropReasoning c)) "drop_reasoning" (VBool (cd_DropReasoning c))
     ++ unless (String.eqb (cd_Location c) "") "location" (VString (cd_Location c))).

Record AgentProfileDoc := MkProfileDoc {
  pd_Name : string;
  pd_Instruction : string;
  pd_Model : string;
  pd_Tools : option (list string);
  pd_ToolSets : option (list ToolSetRef);
  pd_MaxEffect : string;
  pd_Sampling : Sampling;
  pd_RunTimeout : string;
  pd_Limits : option CoreLimits;
  pd_Compact : option CompactDoc;
}.
#[local] Instance eta_AgentProfileDoc : Eta AgentProfileDoc := fun r =>
  MkProfileDoc (pd_Name r) (pd_Instruction r) (pd_Model r) (pd_Tools r) (pd_ToolSets r) (pd_MaxEffect r)
    (pd_Sampling r) (pd_RunTimeout r) (pd_Limits r) (pd_Compact r).

Definition no_profile_doc : AgentProfileDoc := MkProfileDoc "" "" "" None None "" no_sampling "" None None.

Definition profile_fields : fields AgentProfileDoc :=
  [ ("name", at_field pd_Name (fun s f => s <| pd_Name := f |>) decode_string);
    ("instruction", at_field pd_Instruction (fun s f => s <| pd_Instruction := f |>) decode_string);
    ("model", at_field pd_Model (fun s f => s <| pd_Model := f |>) decode_string);
    ("tools", at_field pd_Tools (fun s f => s <| pd_Tools := f |>) (decode_slice decode_string ""));
    ("toolsets", at_field pd_ToolSets (fun s f => s <| pd_ToolSets := f |>)
                   (decode_slice (decode_struct ref_fields) (MkToolSetRef "" "")));
    ("max_effect", at_field pd_MaxEffect (fun s f => s <| pd_MaxEffect := f |>) decode_string);
    ("sampling", at_field pd_Sampling (fun s f => s <| pd_Sampling := f |>) (decode_struct sampling_fields));
    ("run_timeout", at_field pd_RunTimeout (fun s f => s <| pd_RunTimeout := f |>) decode_string);
    ("limits", at_field pd_Limits (fun s f => s <| pd_Limits := f |>) (decode_pointer (decode_struct limits_fields) no_limits));
    ("compact", at_field pd_Compact (fun s f => s <| pd_Compact := f |>)
                  (decode_pointer (decode_struct compact_fields) (MkCompactDoc 0 0 false ""))) ].

Definition write_list {A} (write : A -> jvalue) (l : option (list A)) : jvalue :=
  match l with None => VNull | Some l => VArray (write <$> l) end.

(** The [omitempty] of a slice and of a pointer. *)
Definition empty_slice {A} (l : option (list A)) : bool := match l with Some (_ :: _) => false | _ => true end.
Definition unless_nil {A} (name : string) (write : A -> jvalue) (a : option A) : list (string * jvalue) :=
  match a with Some a => [(name, write a)] | None => [] end.

Definition write_profile_doc (d : AgentProfileDoc) : option jvalue :=
  match write_sampling (pd_Sampling d) with
  | None => None
  | Some sampling =>
    Some (VObject
      (unless (String.eqb (pd_Name d) "") "name" (VString (pd_Name d))
       ++ unless (String.eqb (pd_Instruction d) "") "instruction" (VString (pd_Instruction d))
       ++ [("model", VString (pd_Model d))]
       ++ unless (empty_slice (pd_Tools d)) "tools" (write_list VString (pd_Tools d))
       ++ unless (empty_slice (pd_ToolSets d)) "toolsets" (write_list write_ref (pd_ToolSets d))
       ++ unless (String.eqb (pd_MaxEffect d) "") "max_effect" (VString (pd_MaxEffect d))
       ++ unless (zero_sampling (pd_Sampling d)) "sampling" sampling
       ++ unless (String.eqb (pd_RunTimeout d) "") "run_timeout" (VString (pd_RunTimeout d))
       ++ unless_nil "limits" write_limits (pd_Limits d)
       ++ unless_nil "compact" write_compact (pd_Compact d)))
  end.

Definition KindAgentProfile : string := "agent_profile".
Definition KindTaskSpec : string := "task_spec".

(** The loops over the names of a document. *)
Fixpoint resolve_tools (catalog : option Catalog) (ids : list string) : made (list (option GoTool)) :=
  match ids with
  | [] => Ok []
  | i :: rest =>
    let? tool := Catalog_Tool catalog i in
    let? tools := resolve_tools catalog rest in
    Ok (Some tool :: tools)
  end.

Fixpoint resolve_sets (catalog : option Catalog) (refs : list ToolSetRef) : made (list InstalledSet) :=
  match refs with
  | [] => Ok []
  | ref :: rest =>
    let? set := Catalog_ToolSet catalog (tr_Name ref) in
    let? sets := resolve_sets catalog rest in
    Ok (MkInstalled (Some set) (tr_Mode ref) :: sets)
  end.

(** A duration of a document; what [what] names is in the error. *)
Definition read_timeout (kind name text : string) : made duration :=
  if String.eqb text "" then Ok 0%Z
  else
    match ParseDuration text with
    | Ok d => Ok d
    | Err err => Err (invalid (Text ("profile: " ++ kind ++ " %q: run_timeout: %v")%string [FStr name; FErr err]))
    end.

Definition read_compact (name : string) (c : option CompactDoc) : made Compactor :=
  match c with
  | None => Ok no_compactor
  | Some c =>
    let policy := MkPolicy (cd_CeilingTokens c) 0 (cd_DropReasoning c) (cd_SegmentBudgetTokens c) None in
    if String.eqb (cd_Location c) "" then Ok (no_compactor <| co_Policy := policy |>)
    else
      match LoadLocation (cd_Location c) with
      | Ok location => Ok (no_compactor <| co_Policy := policy <| po_Location := Some location |> |>)
      | Err err => Err (invalid (Text "profile: AgentProfile %q: compact.location: %v" [FStr name; FErr err]))
      end
  end.

Definition checked {A} (a : A) (failure : option profileError) : made A :=
  match failure with Some err => Err err | None => Ok a end.

Definition DecodeAgentProfile (name : string) (doc : bytes) (catalog : option Catalog) : made AgentProfile :=
  match decodeStrict profile_fields no_profile_doc doc with
  | Err e => Err (invalid (Text "profile: AgentProfile %q: %v" [FStr name; FErr (json_failure e)]))
  | Ok d =>
    if negb (String.eqb (pd_Name d) "") && negb (String.eqb (pd_Name d) name)
    then Err (invalid (Text "profile: AgentProfile %q: the document is named %q" [FStr name; FStr (pd_Name d)]))
    else
      let? model := Catalog_Model catalog (pd_Model d) in
      let? tools := resolve_tools catalog (default [] (pd_Tools d)) in
      let? sets := resolve_sets catalog (default [] (pd_ToolSets d)) in
      let? timeout := read_timeout "AgentProfile" name (pd_RunTimeout d) in
      let? compact := read_compact name (pd_Compact d) in
      let p := MkProfile name (Some model) (pd_Model d) (pd_Instruction d) tools sets [] None (pd_MaxEffect d)
                 (pd_Sampling d) [] None (pd_Limits d) None timeout compact in
      checked p (validate p)
  end.

(** A profile that is more than data, as [EncodeAgentProfile] looks. *)
Definition holds_values (p : AgentProfile) : bool :=
  let c := ap_Compact p in
  let parts :=
    match co_Trigger c, co_Cut c, co_Builder c, co_Recap c, co_Merge c with
    | None, None, None, None, None => negb (Z.eqb (po_WindowTokens (co_Policy c)) 0)
    | _, _, _, _, _ => true
    end in
  match ap_ToolSources p, ap_Extensions p, ap_ToolSearcher p, ap_ContextBuilder p, ap_ReadBack p with
  | [], [], None, None, None => parts
  | _, _, _, _, _ => true
  end.

Definition compact_doc (po : CompactPolicy) : option CompactDoc :=
  match po_Location po with
  | Some location =>
    Some (MkCompactDoc (po_CeilingTokens po) (po_SegmentBudgetTokens po) (po_DropReasoning po) (location_name location))
  | None =>
    if negb (Z.eqb (po_CeilingTokens po) 0) || negb (Z.eqb (po_SegmentBudgetTokens po) 0) || po_DropReasoning po
    then Some (MkCompactDoc (po_CeilingTokens po) (po_SegmentBudgetTokens po) (po_DropReasoning po) "")
    else None
  end.

Definition timeout_text (d : duration) : string := if Z.eqb d 0 then "" else duration_string d.

(** A slice that [append] filled: nil when it has nothing. *)
Definition filled {A} (l : list A) : option (list A) := match l with [] => None | _ => Some l end.

Definition ErrUnsupported : error := ForeignErr (MkForeign "json: unsupported value" None None None None).

Definition EncodeAgentProfile (p : AgentProfile) : made bytes :=
  if holds_values p then Err (CoreError (Wrapf (Text "%w: AgentProfile %q" [FStr (ap_Name p)]) ErrNotData))
  else
    match tool_ids (ap_Tools p), set_names (ap_ToolSets p) with
    | Some ids, Some names =>
      let refs := zip_with MkToolSetRef names (is_Mode <$> ap_ToolSets p) in
      let d := MkProfileDoc (ap_Name p) (ap_Instruction p) (ap_ModelName p) (filled ids) (filled refs) (ap_MaxEffect p)
                 (ap_Sampling p) (timeout_text (ap_RunTimeout p)) (ap_Limits p) (compact_doc (co_Policy (ap_Compact p))) in
      match write_profile_doc d with
      | Some v => Ok (json_write v)
      | None => Err (CoreError ErrUnsupported)
      end
    | _, _ => Err NilDereference
    end.

(** ** The document of a TaskSpec *)

Record TaskSpecDoc := MkTaskDoc {
  td_Name : string;
  td_Profile : string;
  td_Background : string;
  td_Tools : option (list string);
  td_ToolSets : option (list string);
  td_MaxEffect : string;
  td_RunTimeout : string;
  td_Sampling : Sampling;
}.
#[local] Instance eta_TaskSpecDoc : Eta TaskSpecDoc := fun r =>
  MkTaskDoc (td_Name r) (td_Profile r) (td_Background r) (td_Tools r) (td_ToolSets r) (td_MaxEffect r) (td_RunTimeout r) (td_Sampling r).

Definition no_task_doc : TaskSpecDoc := MkTaskDoc "" "" "" None None "" "" no_sampling.

Definition task_fields : fields TaskSpecDoc :=
  [ ("name", at_field td_Name (fun s f => s <| td_Name := f |>) decode_string);
    ("profile", at_field td_Profile (fun s f => s <| td_Profile := f |>) decode_string);
    ("background", at_field td_Background (fun s f => s <| td_Background := f |>) decode_string);
    ("tools", at_field td_Tools (fun s f => s <| td_Tools := f |>) (decode_slice decode_string ""));
    ("toolsets", at_field td_ToolSets (fun s f => s <| td_ToolSets := f |>) (decode_slice decode_string ""));
    ("max_effect", at_field td_MaxEffect (fun s f => s <| td_MaxEffect := f |>) decode_string);
    ("run_timeout", at_field td_RunTimeout (fun s f => s <| td_RunTimeout := f |>) decode_string);
    ("sampling", at_field td_Sampling (fun s f => s <| td_Sampling := f |>) (decode_struct sampling_fields)) ].

Definition write_task_doc (d : TaskSpecDoc) : option jvalue :=
  match write_sampling (td_Sampling d) with
  | None => None
  | Some sampling =>
    Some (VObject
      (unless (String.eqb (td_Name d) "") "name" (VString (td_Name d))
       ++ [("profile", VString (td_Profile d))]
       ++ unless (String.eqb (td_Background d) "") "background" (VString (td_Background d))
       ++ [("tools", write_list VString (td_Tools d))]
       ++ [("toolsets", write_list VString (td_ToolSets d))]
       ++ unless (String.eqb (td_MaxEffect d) "") "max_effect" (VString (td_MaxEffect d))
       ++ unless (String.eqb (td_RunTimeout d) "") "run_timeout" (VString (td_RunTimeout d))
       ++ unless (zero_sampling (td_Sampling d)) "sampling" sampling))
  end.

Definition DecodeTaskSpec (name : string) (doc : bytes) : made TaskSpec :=
  match decodeStrict task_fields no_task_doc doc with
  | Err e => Err (invalid (Text "profile: TaskSpec %q: %v" [FStr name; FErr (json_failure e)]))
  | Ok d =>
    let name := if String.eqb name "" then td_Name d else name in
    if negb (String.eqb (td_Name d) "") && negb (String.eqb (td_Name d) name)
    then Err (invalid (Text "profile: TaskSpec %q: the document is named %q" [FStr name; FStr (td_Name d)]))
    else
      let? timeout := read_timeout "TaskSpec" name (td_RunTimeout d) in
      let t := MkTask name (td_Profile d) (td_Background d) (td_Tools d) (td_ToolSets d) (td_MaxEffect d) timeout (td_Sampling d) in
      checked t (task_validate t)
  end.

Definition EncodeTaskSpec (t : TaskSpec) : made bytes :=
  let d := MkTaskDoc (tk_Name t) (tk_Profile t) (tk_Background t) (tk_Tools t) (tk_ToolSets t) (tk_MaxEffect t)
             (timeout_text (tk_RunTimeout t)) (tk_Sampling t) in
  match write_task_doc d with
  | Some v => Ok (json_write v)
  | None => Err (CoreError ErrUnsupported)
  end.
End documents.

#[export] Existing Instances eta_ToolSetRef eta_CompactDoc eta_AgentProfileDoc eta_TaskSpecDoc.

(** ** Numbers read back *)

Lemma digit_pretty n : (n < 10)%N -> digit_value (pretty_N_char n) = Some n.
Proof.
  intros Hn. assert (Forall (fun k => digit_value (pretty_N_char (N.of_nat k)) = Some (N.of_nat k)) (seq 0 10)) as Hall by by repeat constructor.
  rewrite list.Forall_forall in Hall. specialize (Hall (N.to_nat n)). rewrite N2Nat.id in Hall. apply Hall, elem_of_seq. lia.
Qed.

Lemma digits_pretty_go n s : (0 < n)%N -> digits 0 (pretty_N_go n s) = digits n s.
Proof.
  revert s. induction (N.lt_wf_0 n) as [n _ IH]; intros s Hn. rewrite pretty_N_go_step by done.
  assert (n = 10 * (n `div` 10) + n `mod` 10)%N as Hdiv by apply N.div_mod'.
  assert (n `mod` 10 < 10)%N as Hlt by by apply N.mod_lt.
  destruct (decide (0 < n `div` 10)%N) as [Hd|Hd].
  - rewrite IH by (try done; apply N.div_lt; lia). cbn. rewrite digit_pretty by done. by rewrite <- Hdiv.
  - assert (n `div` 10 = 0)%N as E by lia. rewrite E, pretty_N_go_0. cbn [digits]. rewrite digit_pretty by done.
    f_equal. rewrite E in Hdiv. lia.
Qed.

Lemma digits_pretty n : digits 0 (pretty n) = Some n.
Proof. unfold pretty, pretty_N. case_decide as E; [by subst|]. by rewrite digits_pretty_go by lia. Qed.

Lemma parse_uint_pretty bits n : (n < 2 ^ bits)%N -> parse_uint bits (pretty n) = Some n.
Proof.
  intros Hn. pose proof (digits_pretty n) as E. unfold parse_uint. destruct (pretty n) as [|c s] eqn:Ep.
  - injection E as <-. discriminate Ep.
  - by rewrite E, (proj2 (N.ltb_lt _ _) Hn).
Qed.

Lemma parse_int_pretty z : (- 2 ^ 63 <= z < 2 ^ 63)%Z -> parse_int (pretty z) = Some z.
Proof.
  assert (forall n, (n < 2 ^ 63)%N -> parse_int (pretty n) = Some (Z.of_N n)) as Hnat.
  { intros n Hn. pose proof (digits_pretty n) as E. pose proof (parse_uint_pretty 63 n Hn) as Hp. unfold parse_int.
    rewrite Hp. destruct (pretty n) as [|[[] [] [] [] [] [] [] []] s]; try done. }
  intros Hz. destruct z as [|p|p]; [done|apply (Hnat (N.pos p)); lia|].
  change (match parse_uint 64 (pretty (N.pos p)) with Some n => if (n <=? 2 ^ 63)%N then Some (- Z.of_N n)%Z else None | None => None end = Some (Z.neg p)).
  rewrite parse_uint_pretty by lia. by rewrite (proj2 (N.leb_le _ _)) by lia.
Qed.

(** ** Structs read back *)

Lemma decode_members_app {S} (fs : fields S) s a b :
  decode_members fs s (a ++ b) = rbind (decode_members fs s a) (fun s => decode_members fs s b).
Proof.
  revert s. induction a as [|[name v] a IH]; intros s; cbn; [done|].
  destruct (field_named fs name) as [set|]; [|done]. destruct (set s v); cbn; [apply IH|done].
Qed.

(** A member that is left out of a document leaves its field as it is. *)
Lemma read_unless {S F} (fs : fields S) (get : S -> F) put dec empty name v s x :
  field_named fs name = Some (at_field get put dec) ->
  (empty = true -> put s x = s) -> (empty = false -> dec (get s) v = Ok x) ->
  decode_members fs s (unless empty name v) = Ok (put s x).
Proof.
  intros Ef Hput Hdec. unfold unless. destruct empty; cbn; [by rewrite Hput|].
  rewrite Ef. unfold at_field. by rewrite Hdec.
Qed.

Lemma decode_object {S} (fs : fields S) s members : decode_struct fs s (VObject members) = decode_members fs s members.
Proof. done. Qed.

Lemma decode_members_step {S F} (fs : fields S) (get : S -> F) put dec name v rest s x :
  field_named fs name = Some (at_field get put dec) -> dec (get s) v = Ok x ->
  decode_members fs s ((name, v) :: rest) = decode_members fs (put s x) rest.
Proof. intros Ef Hdec. cbn. rewrite Ef. unfold at_field. by rewrite Hdec. Qed.

Lemma read_member {S F} (fs : fields S) (get : S -> F) put dec name v s x :
  field_named fs name = Some (at_field get put dec) -> dec (get s) v = Ok x ->
  decode_members fs s [(name, v)] = Ok (put s x).
Proof. intros Ef Hdec. by apply (read_unless fs get put dec false). Qed.

Lemma read_unless_nil {S A} (fs : fields S) (get : S -> option A) put dec zero name (write : A -> jvalue) s a :
  field_named fs name = Some (at_field get put (decode_pointer dec zero)) ->
  get s = None -> put s None = s -> (forall x, a = Some x -> dec zero (write x) = Ok x /\ write x <> VNull) ->
  decode_members fs s (unless_nil name write a) = Ok (put s a).
Proof.
  intros Ef Hget Hput Hdec. destruct a as [x|]; cbn; [|by rewrite Hput]. rewrite Ef. unfold at_field, decode_pointer.
  destruct (Hdec x eq_refl) as [Hd Hn]. rewrite Hget. cbn. rewrite Hd. by destruct (write x).
Qed.

Lemma read_items {A} (dec : decoder A) zero (write : A -> jvalue) l :
  Forall (fun x => dec zero (write x) = Ok x) l -> decode_items dec zero [] (write <$> l) = Ok l.
Proof. induction 1 as [|x l Hx _ IH]; cbn; [done|]. rewrite Hx. cbn. by rewrite IH. Qed.

Lemma read_list {A} (dec : decoder A) zero (write : A -> jvalue) l :
  Forall (fun x => dec zero (write x) = Ok x) (default [] l) -> decode_slice dec zero None (write_list write l) = Ok l.
Proof. intros Hl. destruct l as [l|]; [|done]. cbn. by rewrite read_items. Qed.

Lemma read_strings l : decode_slice decode_string "" None (write_list VString l) = Ok l.
Proof. apply read_list, list.Forall_forall. by intros. Qed.

(** One more member of a document, which sets its field to [x]. *)
Ltac read_step x :=
  first
    [ erewrite (decode_members_step _ _ _ _ _ _ _ _ x); [|reflexivity|]
    | rewrite decode_members_app; erewrite (read_unless _ _ _ _ _ _ _ _ x); [|reflexivity| |]; cbn [rbind] ].

Lemma unless_end {A} (l : list A) : l = l ++ [].
Proof. by rewrite app_nil_r. Qed.

Section round_trips.
Context `{DocLaws}.

Definition sampling_ok (s : Sampling) : Prop :=
  match sa_Temperature s with Some (Finite m e) => float_ok m e | Some NotFinite => False | None => True end /\
  (sa_MaxTokens s < 2 ^ 32)%N.

Definition limits_ok (l : CoreLimits) : Prop :=
  Forall (fun n => n < 2 ^ 32)%N
    [ lm_MaxMessages l; lm_MaxSteerMessages l; lm_MaxFollowUpMessages l; lm_MaxNotices l; lm_MaxTruncatedContinuations l;
      lm_MaxParallelTools l; lm_SpillPreviewBytes l ] /\
  Forall (fun n => n < 2 ^ 64)%N [ lm_MaxMessageBytes l; lm_MaxTranscriptBytes l ] /\
  Forall duration_ok [ lm_ModelCallDeadline l; lm_ToolCallDeadline l ].

Lemma read_uint bits old n : (n < 2 ^ bits)%N -> decode_uint bits old (write_uint n) = Ok n.
Proof. intros Hn. cbn. by rewrite parse_uint_pretty. Qed.

Lemma read_int old z : duration_ok z -> decode_int old (write_int z) = Ok z.
Proof. intros Hz. cbn. by rewrite parse_int_pretty. Qed.

Lemma read_float old m e : float_ok m e -> decode_float old (VNumber (float_literal m e)) = Ok (Finite m e).
Proof. intros Hf. unfold decode_float. by rewrite float_read. Qed.

Lemma read_sampling s v : sampling_ok s -> write_sampling s = Some v -> decode_struct sampling_fields no_sampling v = Ok s.
Proof.
  destruct s as [t n effort summary]. unfold sampling_ok, write_sampling. cbn. intros [Ht Hn] Ev.
  assert (exists first, v = VObject (first ++ unless (N.eqb n 0) "max_tokens" (write_uint n)
      ++ unless (String.eqb effort "") "reasoning_effort" (VString effort)
      ++ unless (String.eqb summary "") "reasoning_summary" (VString summary) ++ []) /\
    decode_members sampling_fields no_sampling first = Ok (no_sampling <| sa_Temperature := t |>)) as (first & -> & Ef).
  { rewrite <- unless_end. destruct t as [[m e|]|]; [|done|]; injection Ev as <-; [|by exists []].
    exists [("temperature", VNumber (float_literal m e))]. split; [done|].
    erewrite read_member; [|reflexivity|unfold decode_pointer; by rewrite read_float]. done. }
  cbn [decode_struct]. rewrite decode_members_app, Ef. cbn [rbind].
  read_step n; [|by intros ->%N.eqb_eq|by intros _; apply read_uint].
  read_step effort; [|by intros ->%String.eqb_eq|done].
  read_step summary; [|by intros ->%String.eqb_eq|done]. done.
Qed.

Lemma read_limits l : limits_ok l -> decode_struct limits_fields no_limits (write_limits l) = Ok l.
Proof.
  intros (H32 & H64 & Hd). repeat match goal with Hf : Forall _ (_ :: _) |- _ => apply list.Forall_cons in Hf as [? Hf] end.
  unfold write_limits. rewrite decode_object.
  repeat (erewrite decode_members_step; [|reflexivity|first [by apply read_uint|by apply read_int]]).
  by destruct l.
Qed.

Lemma read_ref r : decode_struct ref_fields (MkToolSetRef "" "") (write_ref r) = Ok r.
Proof.
  destruct r as [name mode]. unfold write_ref. cbn [tr_Name tr_Mode]. rewrite decode_object.
  erewrite decode_members_step; [|reflexivity|done]. rewrite (unless_end (unless _ _ _)).
  read_step mode; [done|by intros ->%String.eqb_eq|done].
Qed.

Definition compact_ok (c : CompactDoc) : Prop := duration_ok (cd_CeilingTokens c) /\ duration_ok (cd_SegmentBudgetTokens c).

Lemma read_compact_doc c : compact_ok c ->
  decode_struct compact_fields (MkCompactDoc 0 0 false "") (write_compact c) = Ok c.
Proof.
  intros [Hc Hs]. destruct c as [ceiling budget drop location]. unfold write_compact. cbn in Hc, Hs.
  cbn [cd_CeilingTokens cd_SegmentBudgetTokens cd_DropReasoning cd_Location decode_struct].
  rewrite (unless_end (unless (String.eqb location "") _ _)).
  read_step ceiling; [|by intros ->%Z.eqb_eq|by intros _; apply read_int].
  read_step budget; [|by intros ->%Z.eqb_eq|by intros _; apply read_int].
  read_step drop; [|by intros ->%negb_true_iff|done].
  read_step location; [done|by intros ->%String.eqb_eq|done].
Qed.

Definition task_doc_ok (d : TaskSpecDoc) : Prop := sampling_ok (td_Sampling d).

Lemma zero_sampling_eq s : zero_sampling s = true -> s = no_sampling.
Proof.
  destruct s as [[f|] n e u]; unfold zero_sampling; cbn; [done|].
  rewrite !andb_true_iff, N.eqb_eq, !String.eqb_eq. by intros [[-> ->] ->].
Qed.

Lemma read_task_doc d v : task_doc_ok d -> write_task_doc d = Some v -> decode_struct task_fields no_task_doc v = Ok d.
Proof.
  destruct d as [name profile background tools sets effect timeout s]. unfold task_doc_ok, write_task_doc. cbn.
  intros Hs Ev. destruct (write_sampling s) as [sv|] eqn:Es; [|done]. injection Ev as <-. cbn [decode_struct].
  rewrite (unless_end (unless (zero_sampling s) _ _)).
  read_step name; [|by intros ->%String.eqb_eq|done]. read_step profile; [|done].
  read_step background; [|by intros ->%String.eqb_eq|done].
  read_step tools; [|apply read_strings]. read_step sets; [|apply read_strings].
  read_step effect; [|by intros ->%String.eqb_eq|done]. read_step timeout; [|by intros ->%String.eqb_eq|done].
  read_step s; [done|by intros ->%zero_sampling_eq|by intros _; apply read_sampling].
Qed.

(** ** What is written is UTF-8 *)

Definition text_ok (s : string) : Prop := valid_string (bytes_of s) = true.

Definition members_ok (members : list (string * jvalue)) : Prop := value_ok (VObject members) = true.

Lemma members_ok_app a b : members_ok a -> members_ok b -> members_ok (a ++ b).
Proof. unfold members_ok. cbn. intros Ha Hb. by rewrite forallb_app, Ha, Hb. Qed.

Lemma members_ok_cons name v rest : text_ok name -> value_ok v = true -> members_ok rest -> members_ok ((name, v) :: rest).
Proof.
  intros Hn Hv Hm. change (valid_string (bytes_of name) && value_ok v && value_ok (VObject rest) = true). by rewrite Hn, Hv, Hm.
Qed.

Lemma unless_ok empty name v : text_ok name -> value_ok v = true -> members_ok (unless empty name v).
Proof. intros ??. unfold unless. destruct empty; [done|]. by apply members_ok_cons. Qed.

Lemma unless_nil_ok {A} name (write : A -> jvalue) a :
  text_ok name -> (forall x, a = Some x -> value_ok (write x) = true) -> members_ok (unless_nil name write a).
Proof. intros ? Hw. destruct a; [|done]. by apply members_ok_cons; [|apply Hw|]. Qed.

Lemma write_list_ok {A} (write : A -> jvalue) l :
  Forall (fun x => value_ok (write x) = true) (default [] l) -> value_ok (write_list write l) = true.
Proof. destruct l as [l|]; [|done]. cbn. induction 1 as [|x l Hx _ IH]; cbn; [done|]. by rewrite Hx. Qed.

Lemma no_members_ok : members_ok [].
Proof. done. Qed.

Ltac members :=
  repeat match goal with
  | |- members_ok [] => exact no_members_ok
  | |- members_ok (_ ++ _) => apply members_ok_app
  | |- members_ok (unless _ _ _) => apply unless_ok
  | |- members_ok (unless_nil _ _ _) => apply unless_nil_ok
  | |- members_ok (_ :: _) => apply members_ok_cons
  | |- text_ok (String _ _) => vm_compute; reflexivity
  | |- value_ok (VString _) = true => assumption
  | |- value_ok (VNumber _) = true => reflexivity
  | |- value_ok (VBool _) = true => reflexivity
  | |- value_ok (write_uint _) = true => reflexivity
  | |- value_ok (write_int _) = true => reflexivity
  end.

Definition sampling_text_ok (s : Sampling) : Prop := text_ok (sa_ReasoningEffort s) /\ text_ok (sa_ReasoningSummary s).

Lemma sampling_value_ok s v : sampling_text_ok s -> write_sampling s = Some v -> value_ok v = true.
Proof.
  intros [He Hs]. unfold write_sampling. destruct (sa_Temperature s) as [[m e|]|]; [|done|]; intros [= <-];
    match goal with |- value_ok (VObject ?m) = true => change (members_ok m) end; members.
Qed.

Lemma effect_text e : Valid e = true -> text_ok e.
Proof. unfold Valid. rewrite !orb_true_iff, !String.eqb_eq. by intros [[[[->| ->]| ->]| ->]| ->]. Qed.

Lemma timeout_text_ok d : text_ok (timeout_text d).
Proof. unfold timeout_text. destruct (Z.eqb d 0); [done|]. apply duration_written. Qed.

Lemma read_timeout_text kind name d : duration_ok d -> read_timeout kind name (timeout_text d) = Ok d.
Proof.
  intros Hd. unfold read_timeout, timeout_text. destruct (Z.eqb_spec d 0) as [->|]; [done|].
  rewrite (proj2 (String.eqb_neq _ _) (proj1 (duration_written d))). by rewrite duration_read.
Qed.

Lemma decodeStrict_written {S} (fs : fields S) zero v s :
  value_ok v = true -> decode_struct fs zero v = Ok s -> decodeStrict fs zero (json_write v) = Ok s.
Proof. intros Hv Hs. unfold decodeStrict. rewrite read_written by done. by rewrite Hs. Qed.

(** ** A TaskSpec reads back *)

Record task_ok (t : TaskSpec) : Prop := {
  tok_texts : Forall text_ok [tk_Name t; tk_Profile t; tk_Background t];
  tok_tools : Forall text_ok (names_of (tk_Tools t));
  tok_sets : Forall text_ok (names_of (tk_ToolSets t));
  tok_timeout : duration_ok (tk_RunTimeout t);
  tok_sampling : sampling_ok (tk_Sampling t) /\ sampling_text_ok (tk_Sampling t);
}.

Lemma strings_ok l : Forall text_ok (names_of l) -> value_ok (write_list VString l) = true.
Proof. intros Hl. by apply write_list_ok. Qed.

Lemma task_value_ok d v :
  Forall text_ok [td_Name d; td_Profile d; td_Background d; td_MaxEffect d; td_RunTimeout d] ->
  Forall text_ok (names_of (td_Tools d)) -> Forall text_ok (names_of (td_ToolSets d)) ->
  sampling_text_ok (td_Sampling d) -> write_task_doc d = Some v -> value_ok v = true.
Proof.
  intros Ht Hl Hl' Hs. repeat match goal with Hf : Forall _ (_ :: _) |- _ => apply list.Forall_cons in Hf as [? Hf] end.
  unfold write_task_doc. destruct (write_sampling _) as [sv|] eqn:Es; [|done]. intros [= <-].
  match goal with |- value_ok (VObject ?m) = true => change (members_ok m) end.
  members; [by apply strings_ok..|]. by eapply sampling_value_ok.
Qed.

Lemma task_reads_back t name doc :
  EncodeTaskSpec t = Ok doc -> task_ok t -> task_validate t = None -> name = "" \/ name = tk_Name t ->
  DecodeTaskSpec name doc = Ok t.
Proof.
  intros Ed [Ht Hl Hl' Hd [Hs Hst]] Hv Hname. unfold EncodeTaskSpec in Ed.
  destruct (write_task_doc _) as [v|] eqn:Ev; [|done]. injection Ed as <-.
  repeat match goal with Hf : Forall _ (_ :: _) |- _ => apply list.Forall_cons in Hf as [? Hf] end.
  assert (Valid (tk_MaxEffect t) = true) as He.
  { unfold task_validate in Hv. destruct (Valid (tk_MaxEffect t)); [done|]. by repeat case_match. }
  unfold DecodeTaskSpec. erewrite decodeStrict_written; [| |by eapply read_task_doc; [|exact Ev]].
  - cbn [td_Name td_Profile td_Background td_Tools td_ToolSets td_MaxEffect td_RunTimeout td_Sampling].
    replace (if String.eqb name "" then tk_Name t else name) with (tk_Name t)
      by (destruct Hname as [->| ->]; [done|by case_match]).
    rewrite String.eqb_refl, andb_false_r, read_timeout_text by done. cbn [rbind].
    destruct t as [a b c d e f g h]. cbn [tk_Name tk_Profile tk_Background tk_Tools tk_ToolSets tk_MaxEffect tk_RunTimeout tk_Sampling].
    unfold checked. by rewrite Hv.
  - eapply task_value_ok; [| | | |exact Ev]; try done. repeat apply list.Forall_cons_2; try done;
      [by apply effect_text|apply timeout_text_ok].
Qed.

(** ** An AgentProfile reads back *)

(** A document keeps the name of a time zone.  The zone that is read is the one the system has under
    that name, which for a fixed zone may be another or none, and an empty name is no zone. *)
Definition in_zone (zone : option Location) (co : Compactor) : Compactor :=
  co <| co_Policy := (co_Policy co) <| po_Location := zone |> |>.

Definition zone_read (name : string) (co : Compactor) : made Compactor :=
  match po_Location (co_Policy co) with
  | None => Ok co
  | Some zone =>
    if String.eqb (location_name zone) "" then Ok (in_zone None co)
    else
      match LoadLocation (location_name zone) with
      | Ok loaded => Ok (in_zone (Some loaded) co)
      | Err err => Err (invalid (Text "profile: AgentProfile %q: compact.location: %v" [FStr name; FErr err]))
      end
  end.

(** The Catalog holds what the profile names, and the values are those of their fields. *)
Record profile_ok (c : Catalog) (p : AgentProfile) : Prop := {
  pok_texts : Forall text_ok [ap_Name p; ap_Instruction p; ap_ModelName p];
  pok_model : cg_models c !! ap_ModelName p = ap_Model p;
  pok_tools : Forall (fun tool => exists g, tool = Some g /\ text_ok (gt_ID g) /\ cg_tools c !! gt_ID g = Some g) (ap_Tools p);
  pok_sets : Forall (fun set => exists g, is_Set set = Some g /\ text_ok (gs_Name g) /\ cg_toolSets c !! gs_Name g = Some g) (ap_ToolSets p);
  pok_timeout : duration_ok (ap_RunTimeout p);
  pok_sampling : sampling_ok (ap_Sampling p) /\ sampling_text_ok (ap_Sampling p);
  pok_limits : match ap_Limits p with Some l => limits_ok l | None => True end;
  pok_policy : duration_ok (po_CeilingTokens (co_Policy (ap_Compact p))) /\
    duration_ok (po_SegmentBudgetTokens (co_Policy (ap_Compact p)));
  pok_location : match po_Location (co_Policy (ap_Compact p)) with Some l => text_ok (location_name l) | None => True end;
}.

Definition profile_doc_ok (d : AgentProfileDoc) : Prop :=
  sampling_ok (pd_Sampling d) /\ match pd_Limits d with Some l => limits_ok l | None => True end /\
  match pd_Compact d with Some c => compact_ok c | None => True end /\
  (forall l, pd_Tools d = Some l -> l <> []) /\ (forall l, pd_ToolSets d = Some l -> l <> []).

Lemma empty_slice_nil {A} (l : option (list A)) : (forall k, l = Some k -> k <> []) -> empty_slice l = true -> l = None.
Proof. destruct l as [[|]|]; cbn; [|done|done]. intros Hl. by destruct (Hl []). Qed.

Lemma read_refs l : decode_slice (decode_struct ref_fields) (MkToolSetRef "" "") None (write_list write_ref l) = Ok l.
Proof. apply read_list, list.Forall_forall. intros r _. apply read_ref. Qed.

Lemma read_profile_doc d v : profile_doc_ok d -> write_profile_doc d = Some v ->
  decode_struct profile_fields no_profile_doc v = Ok d.
Proof.
  destruct d as [name instruction model tools sets effect s timeout limits compact]. unfold profile_doc_ok, write_profile_doc.
  cbn [pd_Name pd_Instruction pd_Model pd_Tools pd_ToolSets pd_MaxEffect pd_Sampling pd_RunTimeout pd_Limits pd_Compact].
  intros (Hs & Hl & Hc & Ht & Hts) Ev. destruct (write_sampling s) as [sv|] eqn:Es; [|done]. injection Ev as <-.
  rewrite decode_object, (unless_end (unless_nil "compact" _ _)).
  read_step name; [|by intros ->%String.eqb_eq|done]. read_step instruction; [|by intros ->%String.eqb_eq|done].
  read_step model; [|done].
  read_step tools; [|by intros ->%empty_slice_nil|by intros _; apply read_strings].
  read_step sets; [|by intros ->%empty_slice_nil|by intros _; apply read_refs].
  read_step effect; [|by intros ->%String.eqb_eq|done].
  read_step s; [|by intros ->%zero_sampling_eq|by intros _; apply read_sampling].
  read_step timeout; [|by intros ->%String.eqb_eq|done].
  rewrite decode_members_app. erewrite read_unless_nil; [|reflexivity|done|done|].
  2: { intros l ->. split; [by apply read_limits|done]. }
  cbn [rbind]. rewrite decode_members_app. erewrite read_unless_nil; [|reflexivity|done|done|].
  2: { intros c ->. split; [by apply read_compact_doc|done]. }
  done.
Qed.

Lemma profile_value_ok d v :
  Forall text_ok [pd_Name d; pd_Instruction d; pd_Model d; pd_MaxEffect d; pd_RunTimeout d] ->
  Forall text_ok (names_of (pd_Tools d)) ->
  Forall (fun r => text_ok (tr_Name r) /\ text_ok (tr_Mode r)) (default [] (pd_ToolSets d)) ->
  sampling_text_ok (pd_Sampling d) -> match pd_Compact d with Some c => text_ok (cd_Location c) | None => True end ->
  write_profile_doc d = Some v -> value_ok v = true.
Proof.
  intros Ht Hl Hr Hs Hc. repeat match goal with Hf : Forall _ (_ :: _) |- _ => apply list.Forall_cons in Hf as [? Hf] end.
  unfold write_profile_doc. destruct (write_sampling _) as [sv|] eqn:Es; [|done]. intros [= <-].
  match goal with |- value_ok (VObject ?m) = true => change (members_ok m) end.
  members; [by apply strings_ok| |by eapply sampling_value_ok| |].
  - apply write_list_ok. eapply list.Forall_impl; [exact Hr|]. intros r [Hn Hm].
    change (members_ok (("name", VString (tr_Name r)) :: unless (String.eqb (tr_Mode r) "") "mode" (VString (tr_Mode r)))).
    members.
  - intros l _. unfold write_limits. match goal with |- value_ok (VObject ?m) = true => change (members_ok m) end. members.
  - intros c E. rewrite E in Hc. unfold write_compact.
    match goal with |- value_ok (VObject ?m) = true => change (members_ok m) end. members.
Qed.

Lemma resolved_tools c tools :
  Forall (fun tool => exists g, tool = Some g /\ text_ok (gt_ID g) /\ cg_tools c !! gt_ID g = Some g) tools ->
  exists ids, tool_ids tools = Some ids /\ Forall text_ok ids /\ resolve_tools (Some c) ids = Ok tools.
Proof.
  induction 1 as [|tool tools (g & -> & Hg & Ec) _ (ids & E & Ht & Er)]; [by exists []|].
  exists (gt_ID g :: ids). unfold tool_ids in *. cbn. rewrite E. unfold Catalog_Tool. cbn. rewrite Ec. cbn. rewrite Er.
  split; [done|]. by split; [apply list.Forall_cons|].
Qed.

Lemma mode_text m : ModeValid m = true -> text_ok m.
Proof. unfold ModeValid. rewrite !orb_true_iff, !String.eqb_eq. by intros [[[->| ->]| ->]| ->]. Qed.

Lemma resolved_sets c sets : Forall set_ok sets ->
  Forall (fun set => exists g, is_Set set = Some g /\ text_ok (gs_Name g) /\ cg_toolSets c !! gs_Name g = Some g) sets ->
  exists names, set_names sets = Some names /\
    let refs := zip_with MkToolSetRef names (is_Mode <$> sets) in
    Forall (fun r => text_ok (tr_Name r) /\ text_ok (tr_Mode r)) refs /\ resolve_sets (Some c) refs = Ok sets.
Proof.
  induction sets as [|[set mode] sets IH]; intros Hok Hall; [by exists []|].
  apply list.Forall_cons in Hok as [[_ Hm%mode_text] Hok]. apply list.Forall_cons in Hall as [(g & Eg & Hg & Ec) Hall].
  cbn in Eg. subst set. destruct (IH Hok Hall) as (names & E & Ht & Er). exists (gs_Name g :: names).
  unfold set_names in *. cbn. rewrite E. unfold Catalog_ToolSet. cbn. rewrite Ec. cbn. rewrite Er.
  split; [done|]. by split; [apply list.Forall_cons|].
Qed.

Lemma default_filled {A} (l : list A) : default [] (filled l) = l.
Proof. by destruct l. Qed.

Lemma filled_nonempty {A} (l k : list A) : filled l = Some k -> k <> [].
Proof. destruct l; [done|]. by intros [= <-]. Qed.

Lemma filled_names l : names_of (filled l) = l.
Proof. apply default_filled. Qed.

(** The numbers of a Compactor without parts read back from its document. *)
Lemma compact_reads_back name co :
  co = no_compactor <| co_Policy := co_Policy co |> -> po_WindowTokens (co_Policy co) = 0%Z ->
  read_compact name (compact_doc (co_Policy co)) = zone_read name co.
Proof.
  intros -> Hw. destruct co as [[ceiling window drop budget location] t cu b r m]. cbn in *. subst window.
  unfold compact_doc, zone_read. cbn [po_Location po_CeilingTokens po_SegmentBudgetTokens po_DropReasoning co_Policy].
  destruct location as [location|].
  - unfold read_compact. cbn. destruct (String.eqb _ _); [reflexivity|]. destruct (LoadLocation _); reflexivity.
  - destruct (Z.eqb_spec ceiling 0) as [->|], (Z.eqb_spec budget 0) as [->|], drop; done.
Qed.

Lemma only_data p : holds_values p = false ->
  ap_ToolSources p = [] /\ ap_Extensions p = [] /\ ap_ToolSearcher p = None /\ ap_ContextBuilder p = None /\
  ap_ReadBack p = None /\ ap_Compact p = no_compactor <| co_Policy := co_Policy (ap_Compact p) |> /\
  po_WindowTokens (co_Policy (ap_Compact p)) = 0%Z.
Proof.
  unfold holds_values. destruct (ap_Compact p) as [po [] [] [] [] []], (ap_ToolSources p), (ap_Extensions p), (ap_ToolSearcher p),
    (ap_ContextBuilder p), (ap_ReadBack p); cbn; try done. intros Hw%negb_false_iff%Z.eqb_eq. done.
Qed.

Lemma profile_reads_back c p doc :
  EncodeAgentProfile p = Ok doc -> validate p = None -> profile_ok c p ->
  DecodeAgentProfile (ap_Name p) doc (Some c) =
    (let? compact := zone_read (ap_Name p) (ap_Compact p) in Ok (p <| ap_Compact := compact |>)).
Proof.
  intros Ed Hv Hok. unfold EncodeAgentProfile in Ed. destruct (holds_values p) eqn:Eh; [done|].
  apply only_data in Eh as (Esrc & Eext & Esea & Ebld & Erb & Eco & Ew).
  pose proof (proj1 (validate_ok p) Hv) as (_ & [model Em] & He & Hsets & _). destruct Hok as [Ht Hmod Htools Hs Hto [Hsa Hst] Hli [Hc Hb] Hloc].
  destruct (resolved_tools c _ Htools) as (ids & Eids & Hids & Rids).
  destruct (resolved_sets c _ Hsets Hs) as (names & Ens & Hrefs & Rsets). rewrite Eids, Ens in Ed.
  destruct (write_profile_doc _) as [v|] eqn:Ev; [|done]. injection Ed as <-.
  repeat match goal with Hf : Forall _ (_ :: _) |- _ => apply list.Forall_cons in Hf as [? Hf] end.
  unfold DecodeAgentProfile. erewrite decodeStrict_written; [| |eapply read_profile_doc; [|exact Ev]].
  - cbn [pd_Name pd_Instruction pd_Model pd_Tools pd_ToolSets pd_MaxEffect pd_Sampling pd_RunTimeout pd_Limits pd_Compact].
    rewrite String.eqb_refl, andb_false_r. unfold Catalog_Model. cbn [mbind option_bind]. rewrite Hmod, Em. cbn [rbind].
    rewrite !default_filled, Rids. cbn [rbind]. rewrite Rsets. cbn [rbind]. rewrite read_timeout_text by done. cbn [rbind].
    rewrite compact_reads_back by done. cbn [rbind].
    destruct (zone_read _ _) as [compact|err]; [|done]. cbn [rbind].
    replace (MkProfile _ _ _ _ _ _ _ _ _ _ _ _ _ _ _ _) with (p <| ap_Compact := compact |>).
    + unfold checked. change (validate (p <| ap_Compact := compact |>)) with (validate p). by rewrite Hv.
    + clear Eco Ew Hv Hmod Ev. destruct p. cbn in *. by subst.
  - eapply profile_value_ok; [| | | | |exact Ev]; cbn [pd_Name pd_Instruction pd_Model pd_Tools pd_ToolSets pd_MaxEffect pd_Sampling pd_RunTimeout pd_Limits pd_Compact];
      rewrite ?filled_names, ?default_filled; try done.
    + repeat apply list.Forall_cons_2; try done; [by apply effect_text|apply timeout_text_ok].
    + unfold compact_doc. destruct (po_Location _); [exact Hloc|]. by destruct (negb _ || negb _ || _).
  - split; [done|]. split; [done|]. cbn [pd_Compact pd_Tools pd_ToolSets]. split; [|split; apply filled_nonempty].
    unfold compact_doc. destruct (po_Location _); [done|]. by destruct (negb _ || negb _ || _).
Qed.
End round_trips.

(** ** What follows a document *)

(** A text that closes a bracket nobody opened is let through, whatever comes after. *)
Lemma closing_bracket_let_through `{DocText} {S} (fs : fields S) zero doc v more s :
  json_read doc = Some (v, "}"%char :: more) -> decode_struct fs zero v = Ok s -> decodeStrict fs zero doc = Ok s.
Proof. intros Er Hs. unfold decodeStrict. rewrite Er. cbn [rbind]. by rewrite Hs. Qed.

(** ** A text of values

    The laws hold of some texts: of one that writes a value as the digits of its number. *)

Fixpoint tree_of (v : jvalue) : gen_tree (bool + string + string) :=
  match v with
  | VNull => GenNode 0 []
  | VBool b => GenLeaf (inl (inl b))
  | VNumber literal => GenLeaf (inl (inr literal))
  | VString s => GenLeaf (inr s)
  | VArray items => GenNode 1 (tree_of <$> items)
  | VObject members => GenNode 2 ((fun member => GenNode 3 [GenLeaf (inr (fst member)); tree_of (snd member)]) <$> members)
  end.

Fixpoint value_of (t : gen_tree (bool + string + string)) : jvalue :=
  match t with
  | GenNode 0 _ => VNull
  | GenLeaf (inl (inl b)) => VBool b
  | GenLeaf (inl (inr literal)) => VNumber literal
  | GenLeaf (inr s) => VString s
  | GenNode 1 items => VArray (value_of <$> items)
  | GenNode _ members =>
    VObject ((fun member => match member with GenNode _ [GenLeaf (inr name); v] => (name, value_of v) | _ => ("", VNull) end) <$> members)
  end.

Fixpoint value_of_tree (v : jvalue) : value_of (tree_of v) = v.
Proof.
  destruct v as [| | | |items|members]; [exact eq_refl..|refine (f_equal VArray _)|refine (f_equal VObject _)].
  - induction items as [|v items IH]; [exact eq_refl|]. refine (f_equal2 cons _ IH). apply value_of_tree.
  - induction members as [|[name v] members IH]; [exact eq_refl|]. refine (f_equal2 cons (f_equal (pair name) _) IH).
    apply value_of_tree.
Qed.

Fixpoint digits_of (p : positive) : bytes :=
  match p with
  | xH => ["1"%char]
  | xO p => "0"%char :: digits_of p
  | xI p => "2"%char :: digits_of p
  end.

Fixpoint number_of (b : bytes) : option positive :=
  match b with
  | "1"%char :: _ => Some xH
  | "0"%char :: rest => xO <$> number_of rest
  | "2"%char :: rest => xI <$> number_of rest
  | _ => None
  end.

Lemma number_of_digits p : number_of (digits_of p) = Some p.
Proof. induction p as [p IH|p IH|]; cbn; by rewrite ?IH. Qed.

Lemma digits_of_valid p : valid_string (digits_of p) = true.
Proof.
  unfold valid_string. rewrite runes_ascii; [|induction p; by repeat constructor].
  induction p as [p IH|p IH|]; [| |done]; cbn in *; exact IH.
Qed.

Definition digits_string `{Countable A} (a : A) : string := string_of (digits_of (encode a)).
Definition string_digits `{Countable A} (s : string) : option A := number_of (bytes_of s) ≫= decode.

Lemma digits_string_read `{Countable A} (a : A) : string_digits (digits_string a) = Some a.
Proof. unfold string_digits, digits_string. rewrite bytes_of_string_of, number_of_digits. cbn. apply decode_encode. Qed.

Definition sample_location : Location := MkLocation (fun _ => "") (fun _ => "") (fun _ => "").

(** As [time.FixedZone] makes one, with a name the system has no zone for. *)
Definition fixed_zone : Location := MkLocation (fun _ => "") (fun _ => "+05:30") (fun _ => "").

#[local] Instance sample_text : DocText := {|
  json_write v := digits_of (encode (tree_of v));
  json_read b := (fun t => (value_of t, [])) <$> (number_of b ≫= decode);
  float_literal m e := digits_string (m, e);
  parse_float := string_digits;
  duration_string := digits_string;
  ParseDuration s := match string_digits s with Some d => Ok d | None => Err IoEOF end;
  location_name zone := if String.eqb (in_clock zone 0) "" then "UTC" else in_clock zone 0;
  LoadLocation name := if String.eqb name "UTC" then Ok sample_location else Err IoEOF;
  json_failure _ := IoEOF;
|}.

#[local] Instance sample_text_laws : DocLaws.
Proof.
  split.
  - intros v _. cbn. rewrite number_of_digits. cbn. rewrite decode_encode. cbn. by rewrite value_of_tree.
  - intros v. cbn. by destruct (encode (tree_of v)).
  - intros m e _. apply digits_string_read.
  - intros d _. change (match string_digits (A:=Z) (digits_string d) with Some d => Ok d | None => Err IoEOF end = Ok d :> outcome duration).
    by rewrite digits_string_read.
  - intros d. cbn. unfold digits_string. split; [by destruct (encode d)|]. rewrite bytes_of_string_of. apply digits_of_valid.
Qed.

Lemma write_sampling_ok `{DocText} s : sampling_ok s -> is_Some (write_sampling s).
Proof. unfold sampling_ok, write_sampling. destruct (sa_Temperature s) as [[m e|]|]; naive_solver. Qed.

Lemma profile_encodes `{DocLaws} c p :
  holds_values p = false -> validate p = None -> profile_ok c p -> exists doc, EncodeAgentProfile p = Ok doc.
Proof.
  intros Eh Hv [_ _ Ht Hs _ [Hsa _] _ _ _]. pose proof (proj1 (validate_ok p) Hv) as (_ & _ & _ & Hsets & _).
  destruct (resolved_tools c _ Ht) as (ids & Eids & _ & _). destruct (resolved_sets c _ Hsets Hs) as (names & Ens & _).
  unfold EncodeAgentProfile. rewrite Eh, Eids, Ens. unfold write_profile_doc. cbn [pd_Sampling].
  destruct (write_sampling_ok _ Hsa) as [v ->]. eauto.
Qed.

Lemma task_encodes `{DocLaws} t : task_ok t -> exists doc, EncodeTaskSpec t = Ok doc.
Proof.
  intros [_ _ _ _ [Hs _]]. unfold EncodeTaskSpec, write_task_doc. cbn [td_Sampling].
  destruct (write_sampling_ok _ Hs) as [v ->]. eauto.
Qed.

(** C27: A definition that is stored reads back as it was.  A valid AgentProfile that is only
    data, and whose names the Catalog resolves to what the profile holds, is written, and
    [DecodeAgentProfile] of the document under its name is the profile.  Its [Compact.Location] alone may
    differ: the document keeps the name of the time zone, and what is read is the zone that
    [time.LoadLocation] has for that name.  When it has none, as for most a [time.FixedZone] makes, the document that was
    written does not read back, and the error says so.  A valid TaskSpec is
    written, and its document reads back under its name and under none, a nil list of Tools
    (all are kept) still told apart from an empty one (none is).  The texts of both are UTF-8,
    the numbers those of their Go types and a temperature is finite ([profile_ok], [task_ok]); JSON keeps no others. *)
Theorem definitions_read_back `{DocLaws} c p t name :
  holds_values p = false -> validate p = None -> profile_ok c p ->
  task_ok t -> task_validate t = None -> name = "" \/ name = tk_Name t ->
  (exists doc, EncodeAgentProfile p = Ok doc /\
    match po_Location (co_Policy (ap_Compact p)) with
    | None => DecodeAgentProfile (ap_Name p) doc (Some c) = Ok p
    | Some zone =>
      if String.eqb (location_name zone) ""
      then DecodeAgentProfile (ap_Name p) doc (Some c) = Ok (p <| ap_Compact := in_zone None (ap_Compact p) |>)
      else
        match LoadLocation (location_name zone) with
        | Ok loaded =>
          DecodeAgentProfile (ap_Name p) doc (Some c) = Ok (p <| ap_Compact := in_zone (Some loaded) (ap_Compact p) |>) /\
          (loaded = zone -> DecodeAgentProfile (ap_Name p) doc (Some c) = Ok p)
        | Err err =>
          DecodeAgentProfile (ap_Name p) doc (Some c) =
            Err (invalid (Text "profile: AgentProfile %q: compact.location: %v" [FStr (ap_Name p); FErr err]))
        end
    end) /\
  (exists doc, EncodeTaskSpec t = Ok doc /\ DecodeTaskSpec name doc = Ok t).
Proof.
  intros Hd Hv Hp Ht Hvt Hname. split.
  - destruct (profile_encodes c p) as [doc Ed]; [done..|]. exists doc. split; [done|].
    rewrite (profile_reads_back c p doc) by done. unfold zone_read.
    destruct (po_Location _) as [zone|] eqn:Ez; [|cbn [rbind]; by destruct p]. destruct (String.eqb _ _); [done|].
    destruct (LoadLocation _) as [loaded|err]; [|done]. split; [done|]. intros ->. cbn [rbind]. do 2 f_equal.
    destruct p as [? ? ? ? ? ? ? ? ? ? ? ? ? ? ? [[? ? ? ? ?] ? ? ? ? ?]]. cbn in Ez. by subst.
  - destruct (task_encodes t) as [doc Ed]; [done|]. exists doc. split; [done|]. by apply task_reads_back.
Qed.

(** A profile with a Tool, a folded ToolSet, limits, a temperature and a time zone, and a
    TaskSpec that keeps no ToolSet of it. *)
Definition sample_tool : GoTool := MkGoTool 1 "grep".
Definition sample_set : GoToolSet := MkGoToolSet 2 "github".
Definition sample_model : GoModel := MkGoModel 3 (no_sampling <| sa_MaxTokens := 4096%N |>).

Definition sample_catalog : Catalog :=
  MkCatalog {[ "opus" := sample_model ]} {[ "grep" := sample_tool ]} {[ "github" := sample_set ]}.

Definition sample_profile : AgentProfile :=
  MkProfile "coder" (Some sample_model) "opus" "Write code." [Some sample_tool] [MkInstalled (Some sample_set) ToolSetFolded] []
    None ToolEffectWriteLocal (MkSampling (Some (Finite 1 (-1))) 2048 "high" "") [] None (Some defaultLimits) None
    (10 * minute)%Z (no_compactor <| co_Policy := MkPolicy 100000 0 true 0 (Some sample_location) |>).

Definition sample_task : TaskSpec :=
  MkTask "nightly" "coder" "Fix the oldest bug." None (Some []) ToolEffectRead minute (no_sampling <| sa_MaxTokens := 1024%N |>).

Definition zoned (zone : Location) : AgentProfile :=
  sample_profile <| ap_Compact := in_zone (Some zone) (ap_Compact sample_profile) |>.

Lemma zoned_ok zone : text_ok (location_name zone) -> profile_ok sample_catalog (zoned zone).
Proof.
  intros Hz. split; try done.
  - by repeat constructor.
  - apply list.Forall_singleton. exists sample_tool. by vm_compute.
  - apply list.Forall_singleton. exists sample_set. by vm_compute.
  - split; [split; [right; split; [done|cbn; lia]|done]|done].
  - by repeat constructor.
Qed.

Lemma sample_profile_ok : profile_ok sample_catalog sample_profile.
Proof. by apply (zoned_ok sample_location). Qed.

Lemma sample_task_ok : task_ok sample_task.
Proof. split; try done; by repeat constructor. Qed.

(** A profile with a fixed zone is written and is not read back. *)
Example fixed_zone_not_read : exists doc, EncodeAgentProfile (zoned fixed_zone) = Ok doc /\
  DecodeAgentProfile "coder" doc (Some sample_catalog) =
    Err (invalid (Text "profile: AgentProfile %q: compact.location: %v" [FStr "coder"; FErr IoEOF])).
Proof.
  assert (profile_ok sample_catalog (zoned fixed_zone)) as Hok by (by apply zoned_ok).
  destruct (profile_encodes sample_catalog (zoned fixed_zone)) as [doc Ed]; [done|by vm_compute|done|].
  exists doc. split; [done|]. exact (profile_reads_back sample_catalog (zoned fixed_zone) doc Ed eq_refl Hok).
Qed.

Lemma definitions_read_back_witness :
  (exists doc, EncodeAgentProfile sample_profile = Ok doc /\ DecodeAgentProfile "coder" doc (Some sample_catalog) = Ok sample_profile) /\
  (exists doc, EncodeTaskSpec sample_task = Ok doc /\ DecodeTaskSpec "" doc = Ok sample_task).
Proof.
  destruct (definitions_read_back sample_catalog sample_profile sample_task "") as [(doc & Ed & Hr) Ht];
    [done|vm_compute; reflexivity|apply sample_profile_ok|apply sample_task_ok|vm_compute; reflexivity|by left|].
  split; [|exact Ht]. exists doc. split; [exact Ed|]. cbn -[DecodeAgentProfile] in Hr. by apply Hr.
Defined.
