(* ===== verification/Originals.v ===== *)
(** * The originals of a Session

    [record/originals.go], [committed.go], [recordepoch.go], the reads of [spilled.go] and
    [refsOf] of [read_segment.go]: where what compaction and the spill moved out of the
    Context is read from.  A log answers each call as it stands then; [el_Load] is there for
    a log that is a [Records].  A read may put a body in the Record's cache, so it gives the
    Record back. *)

From S2P Require Import Prelude GoStrings Text Ref Errors Types Events Request Entry Record Store.
Local Open Scope string_scope.
Local Open Scope list_scope.

Record EntryLog := MkEntryLog {
  el_Load : option (string -> outcome Loaded);
  el_Log : string -> N -> Z -> outcome (list Entry);
}.

(** ** Which Record is under an ID *)

Definition SameRecord (log : EntryLog) (id epoch : string) : outcome bool :=
  if String.eqb epoch "" then Ok true
  else
    match el_Load log with
    | Some load =>
      match load id with
      | Ok loaded => Ok (String.eqb (rh_Epoch (ld_Header loaded)) epoch)
      | Err err => if errors_Is err ErrNotFound then Ok false else Err err
      end
    | None =>
      match el_Log log id 0 1 with
      | Err err => if errors_Is err ErrNotFound then Ok false else Err err
      | Ok [] => Ok false
      | Ok (entry :: _) =>
        if negb (N.eqb (en_Seq entry) 1) || negb (String.eqb (en_Kind entry) EventKindSessionCreated) then Ok false
        else
          match Entry_Event entry id with
          | Ok (ESessionCreated created) => Ok (String.eqb (cr_RecordEpoch created) epoch)
          | Ok _ => Ok false
          | Err err => Err err
          end
      end
    end.

(** ** The Messages of a range of Entries *)

(** The loop of [CommittedMessages]. *)
Fixpoint committed_loop (id : string) (to_ : N) (seen : gset MessageID) (entries : list Entry) : outcome (list Message) :=
  match entries with
  | [] => Ok []
  | entry :: rest =>
    if (to_ <? en_Seq entry)%N then Ok []
    else
      let? event := Entry_Event entry id in
      match messageOf event with
      | Some message =>
        if negb (String.eqb (m_ID message) "") && bool_decide (m_ID message ∈ seen) then committed_loop id to_ seen rest
        else
          let? messages := committed_loop id to_ ({[m_ID message]} ∪ seen) rest in
          Ok (message :: messages)
      | None => committed_loop id to_ seen rest
      end
  end.

Definition CommittedMessages (log : EntryLog) (id : string) (from to_ : N) : outcome (list Message * bool) :=
  if N.eqb from 0 || (to_ <? from)%N then Ok ([], false)
  else
    match el_Log log id (from - 1) (Z.of_N (N.min (u64_add (to_ - from) 1) 2147483647)) with
    | Err err => if errors_Is err ErrNotFound then Ok ([], false) else Err err
    | Ok entries =>
      let complete := match entries with entry :: _ => N.eqb (en_Seq entry) from | [] => false end in
      let? messages := committed_loop id to_ ∅ entries in
      Ok (messages, complete)
    end.

(** ** Spilled results *)

(** [readSpilled]: the body, or [None] when the Entry is not there. *)
Definition not_spilled (seq : N) (id : string) : error :=
  Wrapf (Text "record: entry %d of %s does not hold a tool_result_spilled Event" [FNum (Z.of_N seq); FStr id]) IoEOF.

Definition readSpilled (log : EntryLog) (id : string) (seq : N) : outcome (option string) :=
  if N.eqb seq 0 then Ok None
  else
    let? entries := el_Log log id (seq - 1) 1 in
    match entries with
    | [] => Ok None
    | entry :: _ =>
      if negb (N.eqb (en_Seq entry) seq) then Ok None
      else if negb (String.eqb (en_Kind entry) EventKindToolResultSpilled) then Err (not_spilled seq id)
      else
        let? event := Entry_Event entry id in
        match event with
        | EToolResultSpilled spilled => Ok (Some (tsp_Body spilled))
        | _ => Err (not_spilled seq id)
        end
    end.

Definition SpilledBody (log : EntryLog) (spilled : SpilledResult) (r : SessionRecord)
    : SessionRecord * outcome (option string) :=
  let from := rr_SessionID (sp_Ref spilled) in
  if negb (String.eqb from "") && negb (String.eqb from (r_id r)) then
    (r, let? same := SameRecord log from (rr_RecordEpoch (sp_Ref spilled)) in
        if same then readSpilled log from (sp_Seq spilled) else Ok None)
  else
    match sc_bodies (r_spilled r) !! sp_Seq spilled with
    | Some body => (r, Ok (Some body))
    | None =>
      match readSpilled log (r_id r) (sp_Seq spilled) with
      | Ok (Some body) =>
        (r <| r_spilled := trim (r_head r) defaultSpillCacheBytes (put (sp_Seq spilled) body (r_spilled r)) |>, Ok (Some body))
      | answer => (r, answer)
      end
    end.

(** [SpilledResults]: the calls in order, and the latest result of each. *)
Definition spilled_of (message : Message) : option (ToolCallID * SpilledResult) :=
  match m_ToolResult message with
  | Some result => (fun spilled => (tr_CallID result, spilled)) <$> tr_Spilled result
  | None => None
  end.

Definition spilled_calls (messages : list Message) : list ToolCallID :=
  fold_left (fun calls pair => if bool_decide (fst pair ∈ calls) then calls else calls ++ [fst pair]) (omap spilled_of messages) [].

Definition spilled_by_call (messages : list Message) : gmap ToolCallID SpilledResult :=
  fold_left (fun m pair => <[fst pair := snd pair]> m) (omap spilled_of messages) ∅.

(** The loop of [findSpilled], from the last Entry back. *)
Fixpoint find_spilled_loop (id : string) (call : ToolCallID) (maxSeq : N) (backward : list Entry) : outcome (option SpilledResult) :=
  match backward with
  | [] => Ok None
  | entry :: rest =>
    if negb (String.eqb (en_Kind entry) EventKindToolResultSpilled) || ((0 <? maxSeq)%N && (maxSeq <? en_Seq entry)%N)
    then find_spilled_loop id call maxSeq rest
    else
      let? event := Entry_Event entry id in
      match event with
      | EToolResultSpilled e =>
        if String.eqb (tsp_CallID e) call then Ok (Some (MkSpilled (en_Seq entry) (tsp_Bytes e) (MkRecordRef "" "")))
        else find_spilled_loop id call maxSeq rest
      | _ => find_spilled_loop id call maxSeq rest
      end
  end.

Definition findSpilled (log : EntryLog) (id : string) (call : ToolCallID) (maxSeq : N) : outcome (option SpilledResult) :=
  let? entries := el_Log log id 0 0 in
  find_spilled_loop id call maxSeq (reverse entries).

(** The inner loop of [Record.FindSpilled], over the sources of one Segment. *)
Fixpoint find_in_sources (log : EntryLog) (own : string) (call : ToolCallID) (sources : list SegmentSource)
    : outcome (option SpilledResult) :=
  match sources with
  | [] => Ok None
  | source :: rest =>
    let from := rr_SessionID (so_Ref source) in
    if String.eqb from "" || String.eqb from own then find_in_sources log own call rest
    else
      let? same := SameRecord log from (rr_RecordEpoch (so_Ref source)) in
      if negb same then find_in_sources log own call rest
      else
        match findSpilled log from call (so_ToNumber source) with
        | Ok (Some spilled) => Ok (Some (spilled <| sp_Ref := so_Ref source |>))
        | Ok None => find_in_sources log own call rest
        | Err err => if errors_Is err ErrNotFound then find_in_sources log own call rest else Err err
        end
  end.

(** The sources of a Segment, the newest first. *)
Definition sources_of (segment : Segment) : list SegmentSource :=
  match sg_Merged segment with
  | [] => [sg_Source segment]
  | merged => reverse (mg_Source <$> merged)
  end.

Definition FindSpilled (log : EntryLog) (call : ToolCallID) (r : SessionRecord) : outcome (option SpilledResult) :=
  match findSpilled log (r_id r) call 0 with
  | Ok None => find_in_sources log (r_id r) call (reverse (segmentsLocked r) ≫= sources_of)
  | answer => answer
  end.

(** ** The Segments that the Context stands for *)

Record segmentRef := MkSegmentRef { sr_number : Z; sr_from : gotime; sr_to : gotime; sr_source : SegmentSource }.

Definition segment_refs (segment : Segment) : list segmentRef :=
  match sg_Merged segment with
  | [] => [MkSegmentRef (sg_Number segment) (sg_From segment) (sg_To segment) (sg_Source segment)]
  | merged => (fun part => MkSegmentRef (mg_Number part) (mg_From part) (mg_To part) (mg_Source part)) <$> merged
  end.

Definition by_number (a b : segmentRef) : Prop := (sr_number a <= sr_number b)%Z.
#[export] Instance by_number_dec a b : Decision (by_number a b).
Proof. unfold by_number. apply _. Defined.

(** [refsOf]: the list, and the merged Segments with the numbers they stand for. *)
Definition refsOf (segments : list Segment) : list segmentRef := merge_sort by_number (segments ≫= segment_refs).

Definition merged_of (segments : list Segment) : gmap Z (list Z) :=
  fold_left (fun m segment => match sg_Merged segment with [] => m | _ => <[sg_Number segment := Numbers segment]> m end) segments ∅.

(** ** Finding an original *)

(** [ErrNoOriginal] with its hint, [ErrRemoved], and the failure of a store. *)
Inductive originalError : Type :=
| NoOriginal (hint : string)
| Removed
| StoreError (err : error).

Abbreviation found := (result originalError) (only parsing).

Definition listRefs (r : SessionRecord) : string :=
  match spilled_calls (r_messages r) with
  | [] => "; this conversation has no spilled result"
  | calls => ("; the results you can read are " ++ join ", " ((fun call => String (Result call)) <$> calls))%string
  end.

(** [committed]: the Messages of one Segment's range, whether they are all, and whether the
    Record is the one that the Segment names. *)
Definition committed (log : EntryLog) (r : SessionRecord) (at_ : segmentRef) : outcome (list Message * bool * bool) :=
  let source := sr_source at_ in
  let id := if String.eqb (rr_SessionID (so_Ref source)) "" then r_id r else rr_SessionID (so_Ref source) in
  let? same := SameRecord log id (rr_RecordEpoch (so_Ref source)) in
  if negb same then Ok ([], false, false)
  else
    let? (messages, complete) := CommittedMessages log id (so_FromNumber source) (so_ToNumber source) in
    Ok (messages, complete, true).

Definition last_match (match_ : Message -> bool) (messages : list Message) : option Message :=
  snd <$> list_find (fun m => match_ m = true) (reverse messages).

(** The loop of [find], over the Segments from the newest back; [gap] says that some Entries
    of one of them were not there. *)
Fixpoint find_loop (log : EntryLog) (r : SessionRecord) (match_ : Message -> bool) (gap : bool) (refs : list segmentRef)
    : found Message :=
  match refs with
  | [] => Err (if gap then Removed else NoOriginal (listRefs r))
  | at_ :: rest =>
    match committed log r at_ with
    | Err err => Err (StoreError err)
    | Ok (messages, complete, same) =>
      match last_match match_ messages with
      | Some message => Ok message
      | None => find_loop log r match_ (gap || negb same || negb complete) rest
      end
    end
  end.

Definition find (log : EntryLog) (r : SessionRecord) (match_ : Message -> bool) : found Message :=
  match last_match match_ (r_messages r) with
  | Some message => Ok message
  | None => find_loop log r match_ false (reverse (refsOf (segmentsLocked r)))
  end.

Definition is_message (id : MessageID) (m : Message) : bool :=
  String.eqb (m_ID m) id && match m_ToolResult m with None => true | Some _ => false end
  && (String.eqb (m_Role m) RoleUser || String.eqb (m_Role m) RoleAssistant).

Definition is_result (call : ToolCallID) (m : Message) : bool :=
  match m_ToolResult m with Some result => String.eqb (tr_CallID result) call | None => false end.

Definition body_message (call : ToolCallID) (body : string) : Message :=
  message_zero <| m_Role := RoleToolResult |>
    <| m_ToolResult := Some (MkToolResult call ToolResultStatusOK [part_of ContentKindText body] ∅ "" "" false None []) |>.

(** [recordOriginals.result]. *)
Definition original_result (log : EntryLog) (call : ToolCallID) (r : SessionRecord) : SessionRecord * found Message :=
  let search :=
    match spilled_by_call (r_messages r) !! call with
    | Some spilled => Ok (Some spilled)
    | None =>
      match segmentsLocked r with
      | [] => Ok None
      | _ =>
        match FindSpilled log call r with
        | Ok spilled => Ok spilled
        | Err err => if errors_Is err ErrNotFound then Ok None else Err err
        end
      end
    end in
  match search with
  | Err err => (r, Err (StoreError err))
  | Ok None => (r, find log r (is_result call))
  | Ok (Some spilled) =>
    let (r, answer) := SpilledBody log spilled r in
    (r, match answer with
        | Ok (Some body) => Ok (body_message call body)
        | Ok None => Err Removed
        | Err err => if errors_Is err ErrNotFound then Err Removed else Err (StoreError err)
        end)
  end.

(** [recordOriginals.Ref] and [Segment]. *)
Definition original (log : EntryLog) (ref : Ref) (r : SessionRecord) : SessionRecord * found Message :=
  if Z.eqb (ref_kind ref) KindMessage then (r, find log r (is_message (ref_id ref)))
  else if Z.eqb (ref_kind ref) KindResult then original_result log (ref_id ref) r
  else (r, Err (NoOriginal (listRefs r))).

Definition original_segment (log : EntryLog) (n : Z) (r : SessionRecord) : found (list Message * bool) :=
  match list_find (fun at_ => sr_number at_ = n) (refsOf (segmentsLocked r)) with
  | None => Err (NoOriginal "")
  | Some (_, at_) =>
    match committed log r at_ with
    | Ok (messages, complete, _) => Ok (messages, complete)
    | Err err => Err (StoreError err)
    end
  end.

(** ** What a log reads

    [L] is what is stored while an original is looked for.  A log shows the header of a Record, and its
    Entries after the position asked for, as many as the limit says: all of them, but perhaps the
    earliest, which a team may have pruned.  Entries are numbered from 1, and the first Entry of a
    Record names its epoch, as its header does. *)
Record log_reads (L : logs) (log : EntryLog) : Prop := {
  lr_load load id loaded : el_Load log = Some load -> load id = Ok loaded ->
    exists s, L !! id = Some s /\ ld_Header loaded = st_header s;
  lr_log id after limit entries : el_Log log id after limit = Ok entries ->
    exists s k, L !! id = Some s /\ (N.to_nat after <= k)%nat /\
      entries = if (0 <? limit)%Z then take (Z.to_nat limit) (drop k (st_entries s)) else drop k (st_entries s);
  lr_numbers id s i e : L !! id = Some s -> st_entries s !! i = Some e -> en_Seq e = (N.of_nat i + 1)%N;
  lr_epoch id s e event created : L !! id = Some s -> e ∈ st_entries s -> Entry_Event e id = Ok event ->
    event = ESessionCreated created -> cr_RecordEpoch created = rh_Epoch (st_header s);
}.

(** The Record that a reference names: the one under the ID, of the epoch when it has one. *)
Definition is_record (L : logs) (id epoch : string) (s : stored) : Prop :=
  L !! id = Some s /\ (epoch = "" \/ rh_Epoch (st_header s) = epoch).

Definition source_id (r : SessionRecord) (source : SegmentSource) : string :=
  if String.eqb (rr_SessionID (so_Ref source)) "" then r_id r else rr_SessionID (so_Ref source).

(** A Message that an Entry of a Segment's range committed. *)
Definition committed_in (L : logs) (r : SessionRecord) (source : SegmentSource) (m : Message) : Prop :=
  exists s e event, is_record L (source_id r source) (rr_RecordEpoch (so_Ref source)) s /\ e ∈ st_entries s /\
    (so_FromNumber source <= en_Seq e <= so_ToNumber source)%N /\ Entry_Event e (source_id r source) = Ok event /\
    messageOf event = Some m.

Inductive held (L : logs) (r : SessionRecord) (m : Message) : Prop :=
| held_in_context : m ∈ r_messages r -> held L r m
| held_in_segment at_ : at_ ∈ refsOf (segmentsLocked r) -> committed_in L r (sr_source at_) m -> held L r m.

(** The Entry that holds the body of a Tool call's result. *)
Definition spilled_entry (L : logs) (id epoch : string) (seq : N) (e : ToolResultSpilled) : Prop :=
  exists s entry, is_record L id epoch s /\ entry ∈ st_entries s /\ en_Seq entry = seq /\
    Entry_Event entry id = Ok (EToolResultSpilled e).

(** What says where the body of [call] is: a Message of the Context, or an Entry of the
    Session's own log or of the log of a source of a Segment. *)
Inductive spilled_for (L : logs) (r : SessionRecord) (call : ToolCallID) (spilled : SpilledResult) : Prop :=
| spilled_in_context : spilled_by_call (r_messages r) !! call = Some spilled -> spilled_for L r call spilled
| spilled_in_own_log e : spilled_entry L (r_id r) "" (sp_Seq spilled) e -> tsp_CallID e = call ->
    sp_Ref spilled = MkRecordRef "" "" -> spilled_for L r call spilled
| spilled_in_source segment source e : segment ∈ segmentsLocked r -> source ∈ sources_of segment ->
    spilled_entry L (rr_SessionID (so_Ref source)) (rr_RecordEpoch (so_Ref source)) (sp_Seq spilled) e -> tsp_CallID e = call ->
    sp_Ref spilled = so_Ref source -> spilled_for L r call spilled.

(** The same in the Session's own Record, where the Event may still wait for the Writer. *)
Definition own_spilled (L : logs) (r : SessionRecord) (seq : N) (e : ToolResultSpilled) : Prop :=
  spilled_entry L (r_id r) "" seq e \/ (EToolResultSpilled e ∈ r_pending r /\ h_Number (tsp_Header e) = seq).

(** The body of the Entry that [spilled] names: in the Session's own Record, or in the one it refers to. *)
Inductive body_of (L : logs) (r : SessionRecord) (spilled : SpilledResult) (body : string) : Prop :=
| body_own e : rr_SessionID (sp_Ref spilled) = "" \/ rr_SessionID (sp_Ref spilled) = r_id r ->
    own_spilled L r (sp_Seq spilled) e -> tsp_Body e = body -> body_of L r spilled body
| body_elsewhere e : rr_SessionID (sp_Ref spilled) <> "" -> rr_SessionID (sp_Ref spilled) <> r_id r ->
    spilled_entry L (rr_SessionID (sp_Ref spilled)) (rr_RecordEpoch (sp_Ref spilled)) (sp_Seq spilled) e ->
    tsp_Body e = body -> body_of L r spilled body.

(** The bodies that the Record keeps in memory are those of its own log. *)
Definition cached_bodies (L : logs) (r : SessionRecord) : Prop :=
  forall seq body, sc_bodies (r_spilled r) !! seq = Some body ->
  exists e, own_spilled L r seq e /\ tsp_Body e = body.

(** No Message that an Entry of the range committed has the ref, but perhaps one of an ID that another of
    the range has, and the log returns a Message that it holds twice once. *)
Definition none_in_range (L : logs) (r : SessionRecord) (f : Message -> bool) (source : SegmentSource) : Prop :=
  forall m, committed_in L r source m ->
  f m = false \/ exists first, committed_in L r source first /\ m_ID first = m_ID m /\ m_ID m <> "" /\ f first = false.

(** The Messages that a ref names. *)
Definition names (ref : Ref) (m : Message) : bool :=
  if Z.eqb (ref_kind ref) KindMessage then is_message (ref_id ref) m
  else if Z.eqb (ref_kind ref) KindResult then is_result (ref_id ref) m
  else false.

Section reading.
Context (L : logs) (log : EntryLog) (Hlog : log_reads L log).

(** The Entries that a call shows are a run of those of the Record, numbered in order. *)
Lemma log_window id after limit entries :
  el_Log log id after limit = Ok entries -> exists s k, L !! id = Some s /\ (N.to_nat after <= k)%nat /\
    (forall i e, entries !! i = Some e -> st_entries s !! (k + i)%nat = Some e /\ en_Seq e = (N.of_nat (k + i) + 1)%N) /\
    (forall j e, st_entries s !! j = Some e -> (k <= j)%nat -> (limit <= 0 \/ Z.of_nat j < Z.of_nat k + limit)%Z ->
      entries !! (j - k)%nat = Some e).
Proof.
  intros E. destruct (lr_log _ _ Hlog _ _ _ _ E) as (s & k & Es & Hk & ->). exists s, k. split_and!; [done..| |].
  - intros i e Hi. assert (st_entries s !! (k + i)%nat = Some e) as Hs.
    { case_match; [apply lookup_take_Some in Hi as [Hi _]|]; by rewrite lookup_drop in Hi. }
    split; [done|]. by eapply (lr_numbers _ _ Hlog).
  - intros j e Hj Hkj Hl. case_match eqn:Hlim.
    + apply Z.ltb_lt in Hlim. rewrite lookup_take_lt by lia. by rewrite lookup_drop, Nat.add_comm, Nat.sub_add.
    + by rewrite lookup_drop, Nat.add_comm, Nat.sub_add.
Qed.

Lemma log_entries id after limit entries :
  el_Log log id after limit = Ok entries -> exists s, L !! id = Some s /\
    forall e, e ∈ entries -> e ∈ st_entries s /\ (after < en_Seq e)%N.
Proof.
  intros (s & k & Es & Hk & Hin & _)%log_window. exists s. split; [done|]. intros e [i Hi]%list_elem_of_lookup.
  destruct (Hin _ _ Hi) as [Hs ->]. split; [by eapply list_elem_of_lookup_2|]. lia.
Qed.

Lemma same_record id epoch s : SameRecord log id epoch = Ok true -> L !! id = Some s -> is_record L id epoch s.
Proof.
  unfold SameRecord. intros E Es. split; [done|]. destruct (String.eqb_spec epoch ""); [by left|right].
  destruct (el_Load log) as [load|] eqn:El.
  - destruct (load id) as [loaded|err] eqn:Eo; [|by case_match]. injection E as E%String.eqb_eq.
    destruct (lr_load _ _ Hlog _ _ _ El Eo) as (s' & Es' & Eh). rewrite Es in Es'. injection Es' as <-. by rewrite <- Eh.
  - destruct (el_Log log id 0 1) as [[|entry rest]|err] eqn:Eo; [done| |by case_match].
    destruct (negb _ || negb _); [done|].
    destruct (log_entries _ _ _ _ Eo) as (s' & Es' & Hall). rewrite Es in Es'. injection Es' as <-.
    destruct (Hall entry) as [Hin _]; [by left|].
    destruct (Entry_Event entry id) as [event|] eqn:Ee; [|done]. destruct event; try done.
    injection E as E%String.eqb_eq. rewrite <- E. symmetry. by eapply (lr_epoch _ _ Hlog).
Qed.

(** The Messages that the loop gives are those of Entries of the range. *)
Lemma committed_loop_entries id to_ seen entries messages m :
  committed_loop id to_ seen entries = Ok messages -> m ∈ messages ->
  exists e event, e ∈ entries /\ (en_Seq e <= to_)%N /\ Entry_Event e id = Ok event /\ messageOf event = Some m.
Proof.
  revert seen messages. induction entries as [|entry rest IH]; intros seen messages; cbn [committed_loop]; [by intros [= <-] ?%elem_of_nil|].
  destruct (N.ltb_spec to_ (en_Seq entry)); [by intros [= <-] ?%elem_of_nil|].
  destruct (Entry_Event entry id) as [event|err] eqn:Ee; [|done]. cbn [rbind].
  assert (forall seen messages, committed_loop id to_ seen rest = Ok messages -> m ∈ messages ->
    exists e event, e ∈ entry :: rest /\ (en_Seq e <= to_)%N /\ Entry_Event e id = Ok event /\ messageOf event = Some m) as Hrest.
  { intros seen' messages' E Hin. destruct (IH seen' messages' E Hin) as (e & ev & ? & ?). exists e, ev. split; [by right|done]. }
  destruct (messageOf event) as [message|] eqn:Em; [|apply Hrest]. destruct (_ && _); [apply Hrest|].
  destruct (committed_loop id to_ _ rest) as [more|] eqn:E; [|done]. cbn. intros [= <-] [->|Hin]%elem_of_cons; [|by eapply Hrest].
  exists entry, event. split; [by left|]. done.
Qed.

Lemma CommittedMessages_entries id source epoch from to_ messages complete m r :
  so_FromNumber source = from -> so_ToNumber source = to_ -> source_id r source = id -> rr_RecordEpoch (so_Ref source) = epoch ->
  SameRecord log id epoch = Ok true -> CommittedMessages log id from to_ = Ok (messages, complete) -> m ∈ messages ->
  committed_in L r source m.
Proof.
  intros <- <- <- <- Hsame. unfold CommittedMessages. destruct (_ || _) eqn:Ez; [by intros [= <- <-] ?%elem_of_nil|].
  apply orb_false_iff in Ez as [Ez%N.eqb_neq Et%N.ltb_ge].
  destruct (el_Log log _ _ _) as [entries|err] eqn:Eo; [|by case_match; [intros [= <- <-] ?%elem_of_nil|]].
  destruct (committed_loop _ _ _ entries) as [ms|] eqn:E; [|done]. cbn. intros [= <- _] Hin.
  destruct (log_entries _ _ _ _ Eo) as (s & Es & Hall).
  destruct (committed_loop_entries _ _ _ _ _ _ E Hin) as (e & event & He & Hto & Ee & Em).
  destruct (Hall e He) as [Hst Hfrom].
  exists s, e, event. split; [by apply same_record|]. split; [done|]. split; [lia|]. done.
Qed.

Lemma committed_entries r at_ messages complete same m :
  committed log r at_ = Ok (messages, complete, same) -> m ∈ messages -> committed_in L r (sr_source at_) m.
Proof.
  unfold committed. fold (source_id r (sr_source at_)). destruct (SameRecord log _ _) as [[]|] eqn:Es; cbn [rbind negb]; [|by intros [= <- <- <-] ?%elem_of_nil|done].
  destruct (CommittedMessages _ _ _ _) as [[ms c]|] eqn:Ec; [|done]. cbn. intros [= <- <- <-]. by eapply CommittedMessages_entries.
Qed.

(** The loop passes over no Message of the range but one whose ID it has seen. *)
Lemma committed_loop_all id to_ seen entries messages base i e event m :
  committed_loop id to_ seen entries = Ok messages ->
  (forall j x, entries !! j = Some x -> en_Seq x = (N.of_nat (base + j) + 1)%N) ->
  entries !! i = Some e -> (en_Seq e <= to_)%N -> Entry_Event e id = Ok event -> messageOf event = Some m ->
  m ∈ messages \/ (m_ID m <> "" /\ (m_ID m ∈ seen \/ exists first, first ∈ messages /\ m_ID first = m_ID m)).
Proof.
  revert seen messages base i. induction entries as [|entry rest IH]; intros seen messages base i; [done|].
  cbn [committed_loop]. intros E Hnum Hi Hto Ee Em.
  assert (en_Seq entry <= to_)%N.
  { rewrite (Hnum _ _ Hi) in Hto. rewrite (Hnum 0%nat entry eq_refl). lia. }
  destruct (N.ltb_spec to_ (en_Seq entry)); [lia|].
  assert (forall j x, rest !! j = Some x -> en_Seq x = (N.of_nat (S base + j) + 1)%N) as Hnum'.
  { intros j x Hj. rewrite (Hnum (S j) x Hj). lia. }
  destruct i as [|i].
  - injection Hi as ->. rewrite Ee in E. cbn [rbind] in E. rewrite Em in E.
    destruct (String.eqb_spec (m_ID m) "") as [|Hne]; cbn [negb andb] in E.
    + destruct (committed_loop _ _ _ rest); [|done]. injection E as <-. left. by left.
    + case_bool_decide; [by auto|]. destruct (committed_loop _ _ _ rest); [|done]. injection E as <-. left. by left.
  - cbn in Hi. destruct (Entry_Event entry id) as [ev|]; [|done]. cbn [rbind] in E.
    destruct (messageOf ev) as [message|]; [|by eapply IH]. destruct (_ && _); [by eapply IH|].
    destruct (committed_loop id to_ _ rest) as [more|] eqn:Er; [|done]. injection E as <-.
    destruct (IH _ _ _ _ Er Hnum' Hi Hto Ee Em) as [Hin|(Hne & [Hs|(first & Hf & Hid)])].
    + left. by right.
    + right. split; [done|]. apply elem_of_union in Hs as [->%elem_of_singleton|Hs]; [|by left].
      right. exists message. split; [by left|done].
    + right. split; [done|]. right. exists first. split; [by right|done].
Qed.

(** A range that can be asked for in one call. *)
Definition one_call (source : SegmentSource) : Prop :=
  (so_ToNumber source < so_FromNumber source + 2147483647)%N.

Lemma committed_all r at_ messages f :
  committed log r at_ = Ok (messages, true, true) -> one_call (sr_source at_) ->
  (forall m, m ∈ messages -> f m = false) -> none_in_range L r f (sr_source at_).
Proof.
  intros Ec Hone Hf m (s & e & event & [Hs _] & He & Hr & Ee & Em).
  assert (forall first, first ∈ messages -> committed_in L r (sr_source at_) first) as Hheld.
  { intros first. by apply (committed_entries _ _ _ _ _ _ Ec). }
  unfold committed in Ec. fold (source_id r (sr_source at_)) in Ec. destruct (SameRecord log _ _) as [[]|]; cbn [rbind negb] in Ec; try done.
  unfold CommittedMessages in Ec. destruct (_ || _) eqn:Ez; [done|]. apply orb_false_iff in Ez as [Ez%N.eqb_neq Et%N.ltb_ge].
  destruct (el_Log log _ _ _) as [entries|err] eqn:Eo; [|by case_match].
  destruct (committed_loop _ _ _ entries) as [ms|] eqn:El; [|done]. cbn in Ec. injection Ec as -> Hc.
  destruct (log_window _ _ _ _ Eo) as (s' & k & Es' & Hk & Hin & Hall). rewrite Hs in Es'. injection Es' as <-.
  destruct entries as [|first rest]; [done|]. apply N.eqb_eq in Hc.
  destruct (Hin 0%nat first eq_refl) as [_ Hfirst].
  apply list_elem_of_lookup in He as [j Hj]. pose proof (lr_numbers _ _ Hlog _ _ _ _ Hs Hj) as Hnum.
  unfold one_call in Hone.
  assert ((first :: rest) !! (j - k)%nat = Some e) as Hi.
  { apply Hall; [done|lia|]. right. unfold u64_add. rewrite u64_small by (unfold two64; lia). lia. }
  destruct (committed_loop_all _ _ _ _ _ k _ _ _ _ El (fun i x H => proj2 (Hin i x H)) Hi ltac:(lia) Ee Em)
    as [Hm|(Hne & [[]%elem_of_empty|(m' & Hm' & Hid)])]; [left; by apply Hf|].
  right. exists m'. split_and!; [by apply Hheld|done|done|by apply Hf].
Qed.

Lemma last_match_some f messages m : last_match f messages = Some m -> m ∈ messages /\ f m = true.
Proof.
  unfold last_match. destruct (list_find _ _) as [[i x]|] eqn:E; [|done]. cbn. intros [= <-].
  apply list_find_Some in E as (Hi & Hf & _). split; [|done]. apply list_elem_of_lookup_2 in Hi. by rewrite elem_of_reverse in Hi.
Qed.

Lemma last_match_none f messages m : last_match f messages = None -> m ∈ messages -> f m = false.
Proof.
  unfold last_match. destruct (list_find _ _) as [|] eqn:E; [done|]. intros _ Hin.
  apply list_find_None in E. rewrite list.Forall_forall in E. specialize (E m). rewrite elem_of_reverse in E.
  apply not_true_iff_false. by apply E.
Qed.

(** What the search over the Segments comes to. *)
Lemma find_loop_spec r f gap refs :
  match find_loop log r f gap refs with
  | Ok m => f m = true /\ exists at_, at_ ∈ refs /\ committed_in L r (sr_source at_) m
  | Err (NoOriginal _) => gap = false /\ forall at_, at_ ∈ refs ->
      exists messages, committed log r at_ = Ok (messages, true, true) /\ forall m, m ∈ messages -> f m = false
  | Err Removed => gap = true \/ exists at_ messages complete same,
      at_ ∈ refs /\ committed log r at_ = Ok (messages, complete, same) /\ complete && same = false
  | Err (StoreError err) => exists at_, at_ ∈ refs /\ committed log r at_ = Err err
  end.
Proof.
  revert gap. induction refs as [|at_ refs IH]; intros gap; cbn [find_loop].
  { destruct gap; [by left|]. split; [done|]. by intros ? ?%elem_of_nil. }
  destruct (committed log r at_) as [[[messages complete] same]|err] eqn:Ec; [|by exists at_; split; [left|]].
  destruct (last_match f messages) as [m|] eqn:Em.
  { apply last_match_some in Em as [Hin Hf]. split; [done|]. exists at_. split; [by left|]. by eapply committed_entries. }
  specialize (IH (gap || negb same || negb complete)).
  destruct (find_loop log r f _ refs) as [m|[hint| |err]].
  - destruct IH as (Hf & at' & Hin & Hc). split; [done|]. exists at'. by split; [right|].
  - destruct IH as (Hg & Hall). rewrite !orb_false_iff, !negb_false_iff in Hg. destruct Hg as [[-> ->] ->]. split; [done|].
    intros at' [->|Hin]%elem_of_cons; [|by apply Hall]. exists messages. split; [done|]. intros m Hin. by eapply last_match_none.
  - destruct IH as [Hg|(at' & ms & c & sm & Hin & Ht)]; [|right; exists at', ms, c, sm; by split; [right|]].
    rewrite !orb_true_iff, !negb_true_iff in Hg. destruct Hg as [[Hg|Hg]|Hg]; [by left|right..];
      exists at_, messages, complete, same; (split; [by left|]); (split; [done|]); subst; [by apply andb_false_r|done].
  - destruct IH as (at' & Hin & E). exists at'. by split; [right|].
Qed.

(** What [find] comes to, over the Context and then the Segments. *)
Lemma find_spec r f :
  match find log r f with
  | Ok m => f m = true /\ held L r m
  | Err (NoOriginal _) => (forall m, m ∈ r_messages r -> f m = false) /\
      forall at_, at_ ∈ refsOf (segmentsLocked r) ->
      exists messages, committed log r at_ = Ok (messages, true, true) /\ forall m, m ∈ messages -> f m = false
  | Err Removed => exists at_ messages complete same,
      at_ ∈ refsOf (segmentsLocked r) /\ committed log r at_ = Ok (messages, complete, same) /\ complete && same = false
  | Err (StoreError err) => exists at_, at_ ∈ refsOf (segmentsLocked r) /\ committed log r at_ = Err err
  end.
Proof.
  unfold find. destruct (last_match f (r_messages r)) as [m|] eqn:Em.
  { apply last_match_some in Em as [Hin Hf]. split; [done|]. by apply held_in_context. }
  pose proof (find_loop_spec r f false (reverse (refsOf (segmentsLocked r)))) as Hs.
  destruct (find_loop _ _ _ _ _) as [m|[hint| |err]]; repeat setoid_rewrite elem_of_reverse in Hs.
  - destruct Hs as (Hf & at_ & Hin & Hc). split; [done|]. by eapply held_in_segment.
  - destruct Hs as [_ Hall]. split; [|done]. intros m Hin. by eapply last_match_none.
  - destruct Hs as [|Hs]; done.
  - done.
Qed.

Lemma readSpilled_entry id epoch seq body :
  SameRecord log id epoch = Ok true -> readSpilled log id seq = Ok (Some body) ->
  exists e, spilled_entry L id epoch seq e /\ tsp_Body e = body.
Proof.
  unfold readSpilled. intros Hsame. destruct (N.eqb seq 0); [done|].
  destruct (el_Log log id (seq - 1) 1) as [[|entry rest]|] eqn:Eo; cbn [rbind]; [done| |done].
  destruct (N.eqb_spec (en_Seq entry) seq) as [Eq|]; cbn [negb]; [|done]. destruct (negb _); [done|].
  destruct (Entry_Event entry id) as [event|] eqn:Ee; [|done]. cbn [rbind].
  destruct event; try done. intros [= <-]. destruct (log_entries _ _ _ _ Eo) as (s & Es & Hall).
  destruct (Hall entry) as [Hin _]; [by left|].
  eexists. split; [|done]. exists s, entry. split; [by apply same_record|]. done.
Qed.

Lemma same_record_none id : SameRecord log id "" = Ok true.
Proof. done. Qed.

Lemma trim_bodies h limit c seq body :
  sc_bodies (trim h limit c) !! seq = Some body -> sc_bodies c !! seq = Some body.
Proof.
  unfold trim. change (sc_bodies c !! seq) with (sc_bodies (c <| sc_order := [] |>) !! seq).
  generalize (c <| sc_order := [] |>). induction (sc_order c) as [|one rest IH]; intros acc; [done|]. cbn [fold_left].
  intros H%IH. unfold trim_one in H. case_match; [|done]. cbn in H. by apply lookup_delete_Some in H as [_ H].
Qed.

Lemma put_bodies seq body c seq' body' :
  sc_bodies (put seq body c) !! seq' = Some body' -> (seq' = seq /\ body' = body) \/ sc_bodies c !! seq' = Some body'.
Proof.
  unfold put. destruct (sc_bodies c !! seq); [by right|]. cbn. intros [[-> ->]|[_ H]]%lookup_insert_Some; [by left|by right].
Qed.

Lemma SpilledBody_body r spilled r' answer :
  cached_bodies L r -> SpilledBody log spilled r = (r', answer) ->
  cached_bodies L r' /\ forall body, answer = Ok (Some body) -> body_of L r spilled body.
Proof.
  unfold SpilledBody. intros Hc. destruct (String.eqb_spec (rr_SessionID (sp_Ref spilled)) "") as [E|E]; cbn [negb andb].
  2: destruct (String.eqb_spec (rr_SessionID (sp_Ref spilled)) (r_id r)) as [E'|E']; cbn [negb].
  3: { destruct (SameRecord _ _ _) as [[]|] eqn:Es; cbn [rbind]; intros [= <- <-]; split; try done. intros body Eb.
       destruct (readSpilled_entry _ _ _ _ Es Eb) as (e & He & Ebody). by eapply body_elsewhere. }
  all: destruct (sc_bodies (r_spilled r) !! sp_Seq spilled) as [cached|] eqn:Ec;
    [intros [= <- <-]; split; [done|]; intros body [= <-]; destruct (Hc _ _ Ec) as (e & He & Eb); eapply body_own; eauto|].
  all: destruct (readSpilled log (r_id r) (sp_Seq spilled)) as [[b|]|] eqn:Eb; intros [= <- <-]; try (by split);
    destruct (readSpilled_entry _ _ _ _ (same_record_none _) Eb) as (e & He & Ebody);
    (split; [|intros body [= <-]; eapply body_own; [by auto|by left|done]]);
    intros seq body [[-> ->]|H]%trim_bodies%put_bodies; [exists e; split; [by left|done]|by apply Hc].
Qed.

Lemma find_spilled_loop_entry id call maxSeq backward spilled :
  find_spilled_loop id call maxSeq backward = Ok (Some spilled) ->
  exists entry e, entry ∈ backward /\ Entry_Event entry id = Ok (EToolResultSpilled e) /\ tsp_CallID e = call /\
    sp_Seq spilled = en_Seq entry /\ sp_Ref spilled = MkRecordRef "" "".
Proof.
  induction backward as [|entry rest IH]; cbn [find_spilled_loop]; [done|].
  assert (find_spilled_loop id call maxSeq rest = Ok (Some spilled) ->
    exists entry' e, entry' ∈ entry :: rest /\ Entry_Event entry' id = Ok (EToolResultSpilled e) /\ tsp_CallID e = call /\
      sp_Seq spilled = en_Seq entry' /\ sp_Ref spilled = MkRecordRef "" "") as Hrest.
  { intros E. destruct (IH E) as (x & e & Hin & Hx). exists x, e. split; [by right|done]. }
  destruct (_ || _); [done|]. destruct (Entry_Event entry id) as [event|] eqn:Ee; [|done]. cbn [rbind].
  destruct event; try done. destruct (String.eqb_spec (tsp_CallID e) call); [|done]. intros [= <-].
  exists entry, e. split; [by left|]. done.
Qed.

Lemma findSpilled_entry id epoch call maxSeq spilled :
  SameRecord log id epoch = Ok true -> findSpilled log id call maxSeq = Ok (Some spilled) ->
  exists e, spilled_entry L id epoch (sp_Seq spilled) e /\ tsp_CallID e = call /\ sp_Ref spilled = MkRecordRef "" "".
Proof.
  unfold findSpilled. intros Hsame. destruct (el_Log log id 0 0) as [entries|] eqn:Eo; [|done]. cbn [rbind]. intros E.
  destruct (find_spilled_loop_entry _ _ _ _ _ E) as (entry & e & Hin & Ee & Hcall & Hseq & Href).
  rewrite elem_of_reverse in Hin. destruct (log_entries _ _ _ _ Eo) as (s & Es & Hall). exists e. split; [|done]. exists s, entry. split; [by apply same_record|].
  split; [by apply Hall|]. done.
Qed.

Lemma find_in_sources_entry own call sources spilled :
  find_in_sources log own call sources = Ok (Some spilled) ->
  exists source e, source ∈ sources /\
    spilled_entry L (rr_SessionID (so_Ref source)) (rr_RecordEpoch (so_Ref source)) (sp_Seq spilled) e /\ tsp_CallID e = call /\
    sp_Ref spilled = so_Ref source.
Proof.
  induction sources as [|source rest IH]; cbn [find_in_sources]; [done|].
  assert (find_in_sources log own call rest = Ok (Some spilled) -> exists source' e, source' ∈ source :: rest /\
    spilled_entry L (rr_SessionID (so_Ref source')) (rr_RecordEpoch (so_Ref source')) (sp_Seq spilled) e /\ tsp_CallID e = call /\
    sp_Ref spilled = so_Ref source') as Hrest.
  { intros E. destruct (IH E) as (x & e & Hin & Hx). exists x, e. split; [by right|done]. }
  destruct (_ || _); [done|]. destruct (SameRecord _ _ _) as [[]|] eqn:Es; cbn [rbind negb]; [|done..].
  destruct (findSpilled _ _ _ _) as [[found_|]|err] eqn:Ef; [|done|by case_match].
  intros [= <-]. destruct (findSpilled_entry _ _ _ _ _ Es Ef) as (e & He & Hcall & _).
  exists source, e. split; [by left|]. done.
Qed.

Lemma FindSpilled_for r call spilled :
  FindSpilled log call r = Ok (Some spilled) -> spilled_for L r call spilled.
Proof.
  unfold FindSpilled. destruct (findSpilled log (r_id r) call 0) as [[found_|]|] eqn:Ef; [|intros E|done].
  - intros [= ->]. destruct (findSpilled_entry _ _ _ _ _ (same_record_none _) Ef) as (e & He & Hcall & Href).
    by eapply spilled_in_own_log.
  - destruct (find_in_sources_entry _ _ _ _ E) as (source & e & Hin & He & Hcall & Href).
    apply list_elem_of_bind in Hin as (segment & Hsrc & Hseg). rewrite elem_of_reverse in Hseg.
    by eapply spilled_in_source.
Qed.
End reading.

Lemma original_result_spec L log call r r' answer :
  log_reads L log -> cached_bodies L r -> original_result log call r = (r', answer) ->
  cached_bodies L r' /\
  ((r', answer) = (r, find log r (is_result call)) \/
   (exists err, answer = Err (StoreError err)) \/
   (exists spilled, spilled_for L r call spilled /\
     match answer with
     | Ok m => exists body, body_of L r spilled body /\ m = body_message call body
     | Err e => e = Removed
     end)).
Proof.
  intros Hlog Hc. unfold original_result.
  assert (forall spilled, spilled_for L r call spilled ->
    (let (r, answer) := SpilledBody log spilled r in
     (r, match answer with
         | Ok (Some body) => Ok (body_message call body)
         | Ok None => Err Removed
         | Err err => if errors_Is err ErrNotFound then Err Removed else Err (StoreError err)
         end)) = (r', answer) -> cached_bodies L r' /\ ((exists err, answer = Err (StoreError err)) \/
    (exists spilled, spilled_for L r call spilled /\
      match answer with Ok m => exists body, body_of L r spilled body /\ m = body_message call body | Err e => e = Removed end))) as Hbody.
  { intros spilled Hs. destruct (SpilledBody log spilled r) as [r2 ans] eqn:Eb. intros [= <- <-].
    destruct (SpilledBody_body _ _ Hlog _ _ _ _ Hc Eb) as [Hc' Hb]. split; [done|]. destruct ans as [[body|]|err].
    - right. exists spilled. split; [done|]. exists body. split; [|done]. by apply Hb.
    - right. by exists spilled.
    - destruct (errors_Is err ErrNotFound); [right; by exists spilled|left; eauto]. }
  destruct (spilled_by_call (r_messages r) !! call) as [spilled|] eqn:Ec.
  { intros E. destruct (Hbody spilled) as [? ?]; [by apply spilled_in_context|done|by auto]. }
  destruct (segmentsLocked r) as [|segment segments]; [by intros [= <- <-]; split; [|left]|].
  destruct (FindSpilled log call r) as [[spilled|]|err] eqn:Ef; [|by intros [= <- <-]; split; [|left]|].
  - intros E. destruct (Hbody spilled) as [? ?]; [by eapply FindSpilled_for|done|by auto].
  - destruct (errors_Is err ErrNotFound); intros [= <- <-]; (split; [done|]); [by left|]. right. left. eauto.
Qed.

(** C23: Reading an original gives what its ref names and nothing else, from a log that shows what is stored
    in order, but perhaps not the earliest Entries, which a team may prune.  A Message that is
    read is one of the Context, or was committed by an Entry in the range of one of the
    Session's Segments, in the Record that the Segment refers to.  A reference with an epoch, as
    those to another Record have, is to the Record of that epoch: one deleted and created again under the
    same ID has another and is not read.  A reference without one is to the Session's own
    Record, whichever is stored under its ID then.  The text of a spilled result
    is the body of the Entry that the call's Message or the log names, in the Record of that
    reference; this holds of a text in the Record's cache too, given that what was in the cache was such a body, and
    reading keeps it so.  "Nothing has that ref" is answered only when no Message
    of the Context has it, and none that an Entry in the range of any of the Segments committed, whatever was pruned (for a ref of a Message or
    a result, and a range of less than 2^31 Entries, the most that one call can ask for; of Messages with
    one ID in a range, the first is the one that is looked at). *)
Theorem original_is_what_its_ref_names (L : logs) (log : EntryLog) (ref : Ref) (r r' : SessionRecord) answer :
  log_reads L log -> cached_bodies L r -> original log ref r = (r', answer) ->
  cached_bodies L r' /\
  match answer with
  | Ok m =>
      (names ref m = true /\ held L r m) \/
      (exists spilled body, ref_kind ref = KindResult /\ spilled_for L r (ref_id ref) spilled /\
        body_of L r spilled body /\ m = body_message (ref_id ref) body)
  | Err (NoOriginal _) =>
      (forall m, m ∈ r_messages r -> names ref m = false) /\
      (ref_kind ref = KindMessage \/ ref_kind ref = KindResult -> forall at_, at_ ∈ refsOf (segmentsLocked r) ->
        one_call (sr_source at_) -> none_in_range L r (names ref) (sr_source at_))
  | Err Removed =>
      (exists at_ messages complete same, at_ ∈ refsOf (segmentsLocked r) /\
        committed log r at_ = Ok (messages, complete, same) /\ complete && same = false) \/
      (exists spilled, ref_kind ref = KindResult /\ spilled_for L r (ref_id ref) spilled)
  | Err (StoreError _) => True
  end.
Proof.
  intros Hlog Hc. unfold original, names.
  destruct (Z.eqb_spec (ref_kind ref) KindMessage) as [Ek|Ek].
  { intros [= <- <-]. split; [done|]. pose proof (find_spec L log Hlog r (is_message (ref_id ref))) as Hf.
    destruct (find _ _ _) as [m|[hint| |err]]; [by left| |by left|done].
    destruct Hf as [Hctx Hseg]. split; [done|]. intros _ at_ Hin. destruct (Hseg at_ Hin) as (ms & Em & Hms). intros Hone. by apply (committed_all _ _ Hlog _ _ ms). }
  destruct (Z.eqb_spec (ref_kind ref) KindResult) as [Er|Er]; [|by intros [= <- <-]; split; [done|split; [|naive_solver]]].
  intros [Hc' H]%(original_result_spec L); [|done..]. split; [done|]. destruct H as [E|[[err ->]|(spilled & Hs & Ha)]]; [|done|].
  - injection E as -> ->. pose proof (find_spec L log Hlog r (is_result (ref_id ref))) as Hf.
    destruct (find _ _ _) as [m|[hint| |err]]; [by left| |by left|done].
    destruct Hf as [Hctx Hseg]. split; [done|]. intros _ at_ Hin. destruct (Hseg at_ Hin) as (ms & Em & Hms). intros Hone. by apply (committed_all _ _ Hlog _ _ ms).
  - destruct answer as [m|e]; [|subst e; right; by exists spilled].
    destruct Ha as (body & Hb & ->). right. by exists spilled, body.
Qed.

(** ** A store as a log *)

Definition log_of_stores (L : logs) : EntryLog :=
  MkEntryLog (Some (fun id => match L !! id with Some s => Ok (load_of s) | None => Err ErrNotFound end))
    (fun id after limit => match L !! id with Some s => Ok (log_of s after limit) | None => Err ErrNotFound end).

(** The first Entry of a Record names the epoch of its header. *)
Definition epoch_named (s : stored) : Prop :=
  forall e created, e ∈ st_entries s -> en_Data e = RawEvent (ESessionCreated created) ->
  cr_RecordEpoch created = rh_Epoch (st_header s).

Lemma created_data e id created :
  Entry_Event e id = Ok (ESessionCreated created) ->
  exists created', en_Data e = RawEvent (ESessionCreated created') /\ cr_RecordEpoch created' = cr_RecordEpoch created.
Proof.
  unfold Entry_Event, UnmarshalEvent. destruct (en_Data e) as [event|bad]; [|done]. intros [= E].
  unfold WithSession in E. destruct event; try (exfalso; cbn in E; by case_match).
  eexists. split; [done|]. cbn in E. case_match; injection E as <-; done.
Qed.

Lemma stores_read L : wf_logs L -> map_Forall (fun _ s => small s /\ epoch_named s) L -> log_reads L (log_of_stores L).
Proof.
  intros Hwf Hall. split.
  - intros load id loaded [= <-]. destruct (L !! id) as [s|]; [|done]. intros [= <-]. by exists s.
  - intros id after limit entries. cbn. destruct (L !! id) as [s|] eqn:Es; [|done]. intros [= <-]. exists s, (N.to_nat after). split; [done|]. by split.
  - intros id s i e Es Hi. destruct (Hwf _ _ Es) as [Hn _]. rewrite (Hn _ _ Hi). apply u64_small. apply lookup_lt_Some in Hi.
    destruct (Hall _ _ Es) as [Hsm _]. unfold small in Hsm. lia.
  - intros id s e event created Es He Ee ->. destruct (created_data _ _ _ Ee) as (created' & Ed & <-).
    destruct (Hall _ _ Es) as [_ Hn]. by eapply Hn.
Qed.

(** A fork whose Context starts with a Segment of its parent. *)
Definition sample_header (n : N) : Header := MkHeader 0 "" n "" 0.
Definition sample_info (id : string) : Info := MkInfo id "" 0 0 0 0 usage_zero ∅.

Definition sample_created (epoch : string) : Entry :=
  MkEntry 1 EventKindSessionCreated LayerFact 0 "a"
    (RawEvent (ESessionCreated (MkSessionCreated (sample_header 1) 0 epoch None [] ∅ [] [] [] [] 0 usage_zero 0))).

Definition sample_message : Types.Message := (UserMessage "pay batch 7") <| m_ID := "m1" |>.

Definition sample_committed : Entry :=
  MkEntry 2 EventKindMessageCommitted LayerFact 0 "a"
    (RawEvent (EMessageCommitted (MkMessageCommitted (sample_header 2) sample_message ""))).

Definition sample_logs : logs :=
  <["parent" := MkStored [sample_created "e1"; sample_committed] (MkRecordHeader "e1" (sample_info "parent"))]>
  {["child" := MkStored [sample_created "e2"] (MkRecordHeader "e2" (sample_info "child"))]}.

Definition sample_segment (epoch : string) : Segment :=
  segment_zero <| sg_Number := 1%Z |> <| sg_Source := MkSource (MkRecordRef "parent" epoch) 2 2 |>.

Definition sample_child (epoch : string) : SessionRecord :=
  record_zero <| r_id := "child" |> <| r_closed := {[1%Z := sample_segment epoch]} |> <| r_used := [1%Z] |>.

Lemma sample_reads : log_reads sample_logs (log_of_stores sample_logs).
Proof.
  apply stores_read.
  - apply map_Forall_insert_2; [|apply map_Forall_singleton];
      (split; [intros [|[|i]] e; intros [= <-]; done|]; split; [done|]; eexists _, _; split; done).
  - 
    apply map_Forall_insert_2; [|apply map_Forall_singleton]; (split; [done|]);
      intros e created He; cbn in He; rewrite ?elem_of_cons, ?elem_of_nil in He;
      repeat destruct He as [->|He]; try done; by intros [= <-].
Qed.

(** The parent's Message is read; once the parent was made again, it is not. *)
Example read_from_parent :
  snd (original (log_of_stores sample_logs) (Ref.Message "m1") (sample_child "e1")) = Ok sample_message /\
  snd (original (log_of_stores sample_logs) (Ref.Message "m1") (sample_child "e0")) = Err Removed.
Proof. by vm_compute. Qed.

Lemma original_is_what_its_ref_names_witness :
  cached_bodies sample_logs (sample_child "e1") /\
  ((names (Ref.Message "m1") sample_message = true /\ held sample_logs (sample_child "e1") sample_message) \/
  (exists spilled body, ref_kind (Ref.Message "m1") = KindResult /\ spilled_for sample_logs (sample_child "e1") "m1" spilled /\
    body_of sample_logs (sample_child "e1") spilled body /\ sample_message = body_message "m1" body)).
Proof.
  apply (original_is_what_its_ref_names sample_logs (log_of_stores sample_logs) (Ref.Message "m1") (sample_child "e1") (sample_child "e1")
    (Ok sample_message) sample_reads).
  - done.
  - by vm_compute.
Defined.
