(* ===== verification/RecordFork.v ===== *)
(** * A Record as a document, and its forks

    [record/document.go] and [Fork] of [record/record.go]: the state of a Record as a value,
    the Record made from such a value, and the Record of a new Session that starts where
    another is.  A document shares nothing with its Record; what is copied is the value here. *)

From S2P Require Import Prelude GoStrings Text Ref Errors Types Events Request Entry Record Rebuild Store Originals.
Local Open Scope string_scope.
Local Open Scope list_scope.

Definition SchemaVersion : Z := 1.

Record Document := MkDocument {
  dc_SchemaVersion : Z;
  dc_ID : string;
  dc_ParentID : string;
  dc_RecordEpoch : string;
  dc_CreatedAt : gotime;
  dc_UpdatedAt : gotime;
  dc_Messages : list Message;
  dc_Runs : list RunInfo;
  dc_Events : list Event;
  dc_Usage : Usage;
  dc_Compactions : list Compaction;
  dc_Metadata : Metadata;
  dc_LoadedTools : list string;
  dc_Segments : list Segment;
  dc_Seq : N;
}.

Definition Snapshot (r : SessionRecord) : Document :=
  MkDocument SchemaVersion (r_id r) (r_parentID r) (r_epoch r) (r_createdAt r) (r_updatedAt r) (r_messages r) (r_runs r)
    (retainedEvents r) (r_usage r) (r_compactions r) (r_metadata r) (r_loaded r) (segmentsLocked r) (r_head r).

Definition latest_end (runs : list RunInfo) : gotime :=
  fold_left (fun last run => if (last <? ri_EndedAt run)%Z then ri_EndedAt run else last) runs 0%Z.

(** [FromDocument]; [epoch] is what [newEpoch] returns. *)
Definition FromDocument (now : gotime) (epoch : string) (d : Document) : outcome SessionRecord :=
  let version := if (dc_SchemaVersion d =? 0)%Z then SchemaVersion else dc_SchemaVersion d in
  if (SchemaVersion <? version)%Z
  then Err (RuntimeErr (ErrorOf CodeNotSupported (plain_text "record: unsupported schema_version")))
  else if String.eqb (dc_ID d) ""
  then Err (RuntimeErr (ErrorOf CodeInvalidArgument (plain_text "record: document has no id")))
  else
    let r := record_zero <| r_id := dc_ID d |> <| r_epoch := epoch |> <| r_parentID := dc_ParentID d |>
      <| r_createdAt := dc_CreatedAt d |> <| r_updatedAt := dc_UpdatedAt d |> <| r_messages := dc_Messages d |>
      <| r_runs := dc_Runs d |> <| r_usage := dc_Usage d |> <| r_compactions := dc_Compactions d |>
      <| r_metadata := dc_Metadata d |> <| r_loaded := dc_LoadedTools d |> <| r_lastRunEnd := latest_end (dc_Runs d) |> in
    let r := fold_left (fun r segment =>
      r <| r_closed := <[sg_Number segment := segment]> (r_closed r) |> <| r_used := r_used r ++ [sg_Number segment] |>
        <| r_maxSegment := Z.max (r_maxSegment r) (sg_Number segment) |>) (dc_Segments d) r in
    let r := fold_left (fun r event => retain event r) (dc_Events d) r in
    Ok (if (r_createdAt r =? 0)%Z then r <| r_createdAt := now |> else r).

(** ** Fork *)

Definition forkedToolResult : string :=
  "This tool had not finished when the Session was forked. Whether it took effect is unknown.".
Definition forkedNotRunToolResult : string := "This tool call had not started when the Session was forked.".

Definition repairPrefix : string := "repair-".

(** One turn of the loop of [forkedRepairs]. *)
Definition forked_repair (message : Message) : Message :=
  match m_ToolResult message with
  | Some result =>
    if String.eqb (m_Role message) RoleToolResult && has_prefix (bytes_of (m_ID message)) (bytes_of repairPrefix)
    then repairResultWith (tr_CallID result) (tr_Executed result)
           (if tr_Executed result then forkedToolResult else forkedNotRunToolResult)
    else message
  | None => message
  end.

Definition forkedRepairs (messages : list Message) : list Message := forked_repair <$> messages.

(** One turn of the loop of [forkedSpills]. *)
Definition forked_spill (parentID parentEpoch : string) (message : Message) : Message :=
  match m_ToolResult message with
  | Some result =>
    match tr_Spilled result with
    | Some spilled =>
      if String.eqb (rr_SessionID (sp_Ref spilled)) ""
      then message <| m_ToolResult := Some (result <| tr_Spilled := Some (spilled <| sp_Ref := MkRecordRef parentID parentEpoch |>) |>) |>
      else message
    | None => message
    end
  | None => message
  end.

Definition forkedSpills (messages : list Message) (parentID parentEpoch : string) : list Message :=
  forked_spill parentID parentEpoch <$> messages.

(** [id] and [epoch] are what [New] of the child generates. *)
Definition Fork (now : gotime) (id epoch : string) (parent : SessionRecord)
    (options : list (SessionRecord -> SessionRecord)) : SessionRecord :=
  let doc := Snapshot parent in
  let child := New now id epoch options in
  let messages := forkedSpills (dc_Messages doc) (dc_ID doc) (dc_RecordEpoch doc) in
  let messages := if negb (String.eqb (r_running parent) "") then forkedRepairs messages else messages in
  let child := child <| r_parentID := dc_ID doc |> <| r_parentSeq := r_head parent |> <| r_messages := messages |>
    <| r_usage := dc_Usage doc |> <| r_compactions := dc_Compactions doc |> <| r_loaded := dc_LoadedTools doc |> in
  let child := inheritSegments (dc_ID doc) (dc_RecordEpoch doc) (dc_Segments doc) (r_maxSegment parent) (positionTimes parent) child in
  let child := if decide (r_metadata child = ∅) then child <| r_metadata := dc_Metadata doc |> else child in
  child <| r_updatedAt := now |>.

(** ** Sorting what is renumbered nowhere *)

Section renamed.
Context {A B : Type} (f : A -> B) (R : relation A) (S : relation B) `{!forall x y, Decision (R x y), !forall x y, Decision (S x y)}.
Hypothesis same_order : forall x y, S (f x) (f y) <-> R x y.

Lemma list_merge_fmap l k : list_merge S (f <$> l) (f <$> k) = f <$> list_merge R l k.
Proof.
  revert k. induction l as [|x l IHl]; intros k; [by destruct k|]. induction k as [|y k IHk]; [done|].
  cbn. destruct (decide (S (f x) (f y))) as [Hs|Hs], (decide (R x y)) as [Hr|Hr].
  - cbn. f_equal. apply (IHl (y :: k)).
  - by destruct Hr; apply same_order.
  - by destruct Hs; apply same_order.
  - cbn. f_equal. apply IHk.
Qed.

Definition stack_map (st : list (option (list A))) : list (option (list B)) := map (option_map (map f)) st.

Lemma merge_to_stack_fmap st l :
  merge_list_to_stack S (stack_map st) (f <$> l) = stack_map (merge_list_to_stack R st l).
Proof.
  revert l. induction st as [|[k|] st IH]; intros l; [done| |done]. cbn. f_equal. fold (stack_map st).
  change (map f k) with (f <$> k). rewrite list_merge_fmap. apply IH.
Qed.

Lemma merge_stack_fmap st : merge_stack S (stack_map st) = f <$> merge_stack R st.
Proof. induction st as [|[k|] st IH]; [done| |exact IH]. cbn. fold (stack_map st). rewrite IH. apply list_merge_fmap. Qed.

Lemma merge_sort_fmap l : merge_sort S (f <$> l) = f <$> merge_sort R l.
Proof.
  unfold merge_sort. change (@nil (option (list B))) with (stack_map []). generalize (@nil (option (list A))).
  induction l as [|x l IH]; intros st; cbn; [apply merge_stack_fmap|].
  change [f x] with (f <$> [x]). by rewrite merge_to_stack_fmap, IH.
Qed.
End renamed.

(** ** What a fork inherits *)

(** A Segment of a Record is kept under its number, and a reference with no Session has no
    epoch: it is the Record's own. *)
Definition own_ref (ref : RecordRef) : Prop := rr_SessionID ref = "" -> rr_RecordEpoch ref = "".

Record segments_ok (r : SessionRecord) : Prop := {
  so_numbered : Forall (fun n => sg_Number (closed_segment r n) = n) (r_used r);
  so_sources : Forall (fun at_ => own_ref (so_Ref (sr_source at_))) (refsOf (segmentsLocked r));
}.

Definition inherited (parent : SessionRecord) (at_ : segmentRef) : segmentRef :=
  MkSegmentRef (sr_number at_) (sr_from at_) (sr_to at_) (inherit_source (r_id parent) (r_epoch parent) (sr_source at_)).

Definition inherited_segment (parent : SessionRecord) (segment : Segment) : Segment :=
  segment <| sg_Source := inherit_source (r_id parent) (r_epoch parent) (sg_Source segment) |>
    <| sg_Merged := (fun merged => merged <| mg_Source := inherit_source (r_id parent) (r_epoch parent) (mg_Source merged) |>) <$> sg_Merged segment |>.

Definition add_segment (r : SessionRecord) (segment : Segment) : SessionRecord :=
  r <| r_closed := <[sg_Number segment := segment]> (r_closed r) |> <| r_used := r_used r ++ [sg_Number segment] |>.

Lemma inheritSegments_adds parent segments n positions r :
  inheritSegments (r_id parent) (r_epoch parent) segments n positions r =
  (fold_left add_segment (inherited_segment parent <$> segments) (r <| r_closed := ∅ |> <| r_used := [] |>))
    <| r_maxSegment := n |> <| r_positions := positions |>.
Proof.
  unfold inheritSegments. do 2 f_equal. generalize (r <| r_closed := ∅ |> <| r_used := [] |>).
  induction segments as [|segment segments IH]; intros r0; cbn; [done|]. apply IH.
Qed.

(** Segments added one by one are there, each under its number: two of a number are one. *)
Lemma added_segments segments r :
  (forall a b, a ∈ segments -> b ∈ segments -> sg_Number a = sg_Number b -> a = b) ->
  r_used (fold_left add_segment segments r) = r_used r ++ (sg_Number <$> segments) /\
  (forall a, a ∈ segments -> r_closed (fold_left add_segment segments r) !! sg_Number a = Some a) /\
  (forall n, (forall a, a ∈ segments -> sg_Number a <> n) -> r_closed (fold_left add_segment segments r) !! n = r_closed r !! n).
Proof.
  revert r. induction segments as [|s segments IH]; intros r Hone; cbn [fold_left].
  { rewrite app_nil_r. split; [done|]. split; [by intros ? ?%elem_of_nil|done]. }
  destruct (IH (add_segment r s)) as (Hu & Hc & Hn); [intros a b Ha Hb; by apply Hone; right|].
  split; [rewrite Hu; cbn; by rewrite <- app_assoc|]. split.
  - intros a [->|Ha]%elem_of_cons; [|by apply Hc].
    destruct (decide (Exists (fun b => sg_Number b = sg_Number s) segments)) as [He|He].
    + apply list.Exists_exists in He as (b & Hb & Eb). rewrite <- Eb, (Hc b Hb). f_equal. apply Hone; [by right|by left|done].
    + rewrite Hn; [apply lookup_insert_eq|]. intros b Hb Eb. apply He, list.Exists_exists. eauto.
  - intros n Hdiff. rewrite Hn by (intros a Ha; apply Hdiff; by right). cbn. apply lookup_insert_ne. apply Hdiff. by left.
Qed.

Lemma inherited_number parent segment : sg_Number (inherited_segment parent segment) = sg_Number segment.
Proof. done. Qed.

Lemma inherit_locked parent n positions r :
  segments_ok parent ->
  segmentsLocked (inheritSegments (r_id parent) (r_epoch parent) (segmentsLocked parent) n positions r) =
  inherited_segment parent <$> segmentsLocked parent.
Proof.
  intros [Hn _]. rewrite inheritSegments_adds. rewrite list.Forall_forall in Hn.
  destruct (added_segments (inherited_segment parent <$> segmentsLocked parent) (r <| r_closed := ∅ |> <| r_used := [] |>)) as (Hu & Hc & _).
  { intros a b (x & -> & Hx)%list_elem_of_fmap (y & -> & Hy)%list_elem_of_fmap.
    apply list_elem_of_fmap in Hx as (n1 & -> & Hx), Hy as (m & -> & Hy).
    rewrite !inherited_number, (Hn n1 Hx), (Hn m Hy). by intros ->. }
  set (x := fold_left add_segment _ _) in *. change (closed_segment x <$> r_used x = inherited_segment parent <$> segmentsLocked parent).
  rewrite Hu. change (r_used (r <| r_closed := ∅ |> <| r_used := [] |>)) with (@nil Z). rewrite app_nil_l.
  assert (forall a, a ∈ inherited_segment parent <$> segmentsLocked parent -> closed_segment x (sg_Number a) = a) as Ha
    by (intros a Ha; unfold closed_segment; by rewrite (Hc a Ha)).
  clear Hu Hc. clearbody x. induction (inherited_segment parent <$> segmentsLocked parent) as [|a l IH]; [done|].
  cbn. rewrite Ha by by left. f_equal. apply IH. intros b Hb. apply Ha. by right.
Qed.

Lemma Fork_segments now id epoch parent options :
  segments_ok parent -> segmentsLocked (Fork now id epoch parent options) = inherited_segment parent <$> segmentsLocked parent.
Proof. intros Hok. unfold Fork. case_decide; by apply inherit_locked. Qed.

Lemma inherited_refs parent segment : segment_refs (inherited_segment parent segment) = inherited parent <$> segment_refs segment.
Proof. unfold segment_refs. cbn. destruct (sg_Merged segment) as [|m ms]; [done|]. cbn. f_equal. induction ms; cbn; by f_equal. Qed.

Lemma Fork_refs now id epoch parent options :
  segments_ok parent -> refsOf (segmentsLocked (Fork now id epoch parent options)) = inherited parent <$> refsOf (segmentsLocked parent).
Proof.
  intros Hok. rewrite Fork_segments by done. unfold refsOf. rewrite <- (merge_sort_fmap (inherited parent) by_number by_number) by done.
  f_equal. induction (segmentsLocked parent) as [|s segs IH]; cbn; [done|]. by rewrite inherited_refs, IH, fmap_app.
Qed.

Lemma find_inherited parent n refs :
  list_find (fun at_ => sr_number at_ = n) (inherited parent <$> refs) =
  (fun p => (fst p, inherited parent (snd p))) <$> list_find (fun at_ => sr_number at_ = n) refs.
Proof.
  induction refs as [|at_ refs IH]; [done|]. cbn. destruct (decide (sr_number at_ = n)); [done|].
  cbn. rewrite IH. by destruct (list_find _ refs) as [[]|].
Qed.

(** The Messages of an inherited range are read where its Segment's were, while the parent is
    the Record it was. *)
Lemma inherited_committed log parent child at_ :
  r_id parent <> "" -> own_ref (so_Ref (sr_source at_)) ->
  match SameRecord log (r_id parent) (r_epoch parent) with
  | Ok true => committed log child (inherited parent at_) = committed log parent at_
  | Ok false => rr_SessionID (so_Ref (sr_source at_)) = "" -> committed log child (inherited parent at_) = Ok ([], false, false)
  | Err _ => True
  end.
Proof.
  intros Hp Hown. unfold committed, inherited, inherit_source. cbn [sr_source].
  destruct (String.eqb_spec (rr_SessionID (so_Ref (sr_source at_))) "") as [E|E].
  - cbn [so_Ref upd rr_SessionID rr_RecordEpoch so_FromNumber so_ToNumber].
    rewrite (proj2 (String.eqb_neq _ _) Hp), (Hown E).
    destruct (SameRecord log (r_id parent) (r_epoch parent)) as [[]|] eqn:Es; [done|done|done].
  - rewrite (proj2 (String.eqb_neq _ _) E). destruct (SameRecord log (r_id parent) (r_epoch parent)) as [[]|]; done.
Qed.

(** ** The Messages of a fork *)

(** A result that a repair added has no body elsewhere. *)
Definition is_repair (message : Message) : bool :=
  String.eqb (m_Role message) RoleToolResult && has_prefix (bytes_of (m_ID message)) (bytes_of repairPrefix).

Definition repairs_plain (messages : list Message) : Prop :=
  Forall (fun m => is_repair m = true -> spilled_of m = None) messages.

Lemma forked_repair_same message :
  m_Role (forked_repair message) = m_Role message /\ answer_of (forked_repair message) = answer_of message /\
  (m_Role message <> RoleToolResult -> forked_repair message = message).
Proof.
  unfold forked_repair, answer_of. destruct (m_ToolResult message) as [result|] eqn:E; [|by rewrite E].
  destruct (String.eqb_spec (m_Role message) RoleToolResult) as [Er|Er]; cbn [andb]; [|by rewrite E].
  case_match; [|by rewrite E]. split; [by rewrite Er|]. split; [done|]. by intros Hn.
Qed.

Lemma forked_spill_same parentID parentEpoch message :
  m_Role (forked_spill parentID parentEpoch message) = m_Role message /\
  answer_of (forked_spill parentID parentEpoch message) = answer_of message /\
  m_ToolCalls (forked_spill parentID parentEpoch message) = m_ToolCalls message.
Proof.
  unfold forked_spill, answer_of. destruct (m_ToolResult message) as [result|] eqn:E; [|by rewrite E].
  destruct (tr_Spilled result) as [spilled|]; [|by rewrite E]. case_match; [done|by rewrite E].
Qed.

Lemma all_answered_map f calls answered messages :
  (forall m, m_Role (f m) = m_Role m /\ answer_of (f m) = answer_of m /\ (m_Role m <> RoleToolResult -> m_ToolCalls (f m) = m_ToolCalls m)) ->
  all_answered calls answered (f <$> messages) <-> all_answered calls answered messages.
Proof.
  intros Hf. revert calls answered. induction messages as [|m messages IH]; intros calls answered; cbn; [done|].
  destruct (Hf m) as (Hr & Ha & Hc). rewrite Hr, Ha. destruct (String.eqb_spec (m_Role m) RoleToolResult); [apply IH|].
  unfold open_calls. rewrite Hr, Hc by done. by rewrite IH.
Qed.

Definition forked_messages (parent : SessionRecord) : list Message :=
  let messages := forkedSpills (r_messages parent) (r_id parent) (r_epoch parent) in
  if negb (String.eqb (r_running parent) "") then forkedRepairs messages else messages.

Lemma inherit_messages parent segments n positions r :
  r_messages (inheritSegments (r_id parent) (r_epoch parent) segments n positions r) = r_messages r.
Proof.
  rewrite inheritSegments_adds. change (r_messages r) with (r_messages (r <| r_closed := ∅ |> <| r_used := [] |>)).
  generalize (r <| r_closed := ∅ |> <| r_used := [] |>). intros r0. cbn.
  revert r0. induction (inherited_segment parent <$> segments) as [|s segs IH]; intros r0; cbn; [done|]. by rewrite IH.
Qed.

Lemma Fork_messages now id epoch parent options : r_messages (Fork now id epoch parent options) = forked_messages parent.
Proof. unfold Fork. case_decide; exact (inherit_messages parent _ _ _ _). Qed.

Definition inherit_spilled (parentID parentEpoch : string) (spilled : SpilledResult) : SpilledResult :=
  if String.eqb (rr_SessionID (sp_Ref spilled)) "" then spilled <| sp_Ref := MkRecordRef parentID parentEpoch |> else spilled.

Lemma spilled_of_forked parentID parentEpoch message :
  spilled_of (forked_spill parentID parentEpoch message) =
  (fun pair => (fst pair, inherit_spilled parentID parentEpoch (snd pair))) <$> spilled_of message.
Proof.
  unfold forked_spill, spilled_of, inherit_spilled. destruct (m_ToolResult message) as [result|] eqn:E; [|by rewrite E].
  destruct (tr_Spilled result) as [spilled|] eqn:Es; [|by rewrite E; cbn; rewrite Es].
  destruct (String.eqb (rr_SessionID (sp_Ref spilled)) "") eqn:Ei; [|rewrite E]; cbn; rewrite ?Es; cbn; by rewrite Ei.
Qed.

Lemma spilled_of_repaired message : (is_repair message = true -> spilled_of message = None) -> spilled_of (forked_repair message) = spilled_of message.
Proof.
  unfold forked_repair, is_repair. destruct (m_ToolResult message) as [result|] eqn:E; [|done].
  destruct (_ && _); [|done]. intros ->; done.
Qed.

Lemma spilled_by_call_map (f : SpilledResult -> SpilledResult) l m :
  fold_left (fun m pair => <[fst pair := snd pair]> m) ((fun pair => (fst pair, f (snd pair))) <$> l) (f <$> m) =
  f <$> (fold_left (fun m pair => <[fst pair := snd pair]> m) l m : gmap ToolCallID SpilledResult).
Proof. revert m. induction l as [|[c s] l IH]; intros m; cbn; [done|]. by rewrite <- fmap_insert, IH. Qed.

Definition forked_message (parent : SessionRecord) (message : Message) : Message :=
  let message := forked_spill (r_id parent) (r_epoch parent) message in
  if negb (String.eqb (r_running parent) "") then forked_repair message else message.

Lemma forked_messages_map parent : forked_messages parent = forked_message parent <$> r_messages parent.
Proof.
  unfold forked_messages, forked_message, forkedSpills, forkedRepairs. destruct (negb _); [|done]. by rewrite <- list_fmap_compose.
Qed.

Lemma is_repair_forked parentID parentEpoch message : is_repair (forked_spill parentID parentEpoch message) = is_repair message.
Proof. unfold forked_spill. by repeat case_match. Qed.

Lemma spilled_of_forked_message parent message : (is_repair message = true -> spilled_of message = None) ->
  spilled_of (forked_message parent message) =
  (fun pair => (fst pair, inherit_spilled (r_id parent) (r_epoch parent) (snd pair))) <$> spilled_of message.
Proof.
  intros Hm. unfold forked_message. destruct (negb _); [|apply spilled_of_forked].
  rewrite spilled_of_repaired; [apply spilled_of_forked|]. rewrite is_repair_forked, spilled_of_forked. by intros ->%Hm.
Qed.

Lemma forked_spilled_pairs parent : repairs_plain (r_messages parent) ->
  omap spilled_of (forked_messages parent) =
  (fun pair => (fst pair, inherit_spilled (r_id parent) (r_epoch parent) (snd pair))) <$> omap spilled_of (r_messages parent).
Proof.
  rewrite forked_messages_map. induction 1 as [|m messages Hm _ IH]; [done|]. cbn.
  rewrite (spilled_of_forked_message parent m Hm). by destruct (spilled_of m) as [[c s]|]; cbn; rewrite IH.
Qed.

Lemma forked_spilled parent : repairs_plain (r_messages parent) ->
  spilled_by_call (forked_messages parent) = inherit_spilled (r_id parent) (r_epoch parent) <$> spilled_by_call (r_messages parent).
Proof. intros Hp. unfold spilled_by_call. rewrite forked_spilled_pairs by done. rewrite <- spilled_by_call_map. by rewrite fmap_empty. Qed.

(** What a body that was read, or not, is as an original. *)
Definition as_original (call : ToolCallID) (answer : outcome (option string)) : found Message :=
  match answer with
  | Ok (Some body) => Ok (body_message call body)
  | Ok None => Err Removed
  | Err err => if errors_Is err ErrNotFound then Err Removed else Err (StoreError err)
  end.

(** C22: A fork reads what its parent kept, where its parent kept it, and answers for every call.
    Every Tool call of the fork's Messages has its result when those of the parent have (a
    View repairs them first).  While the parent's Record is the one that was forked, each of
    its Segments reads back in the fork as in the parent, and the body of a result that the
    parent spilled is read from the parent's log.  Once that Record is gone, or another is
    under its ID, the fork answers that they were removed, and reads nothing of the other. *)
Theorem fork_reads_its_parents_originals (now : gotime) (id epoch : string) (parent : SessionRecord)
    (options : list (SessionRecord -> SessionRecord)) (log : EntryLog) :
  let child := Fork now id epoch parent options in
  segments_ok parent -> repairs_plain (r_messages parent) -> r_id parent <> "" -> r_id child <> r_id parent ->
  (all_answered [] ∅ (r_messages parent) -> all_answered [] ∅ (r_messages child)) /\
  match SameRecord log (r_id parent) (r_epoch parent) with
  | Ok true =>
    (forall n, original_segment log n child = original_segment log n parent) /\
    (forall call spilled, spilled_by_call (r_messages parent) !! call = Some spilled -> rr_SessionID (sp_Ref spilled) = "" ->
      original log (Result call) child = (child, as_original call (readSpilled log (r_id parent) (sp_Seq spilled))))
  | Ok false =>
    (forall n i at_, list_find (fun at_ => sr_number at_ = n) (refsOf (segmentsLocked parent)) = Some (i, at_) ->
      rr_SessionID (so_Ref (sr_source at_)) = "" -> original_segment log n child = Ok ([], false)) /\
    (forall call spilled, spilled_by_call (r_messages parent) !! call = Some spilled -> rr_SessionID (sp_Ref spilled) = "" ->
      original log (Result call) child = (child, Err Removed))
  | Err _ => True
  end.
Proof.
  intros child Hok Hplain Hid Hne.
  assert (r_messages child = forked_messages parent) as Em by apply Fork_messages.
  assert (refsOf (segmentsLocked child) = inherited parent <$> refsOf (segmentsLocked parent)) as Er by by apply Fork_refs.
  split.
  { rewrite Em. unfold forked_messages, forkedSpills, forkedRepairs. intros Ha.
    assert (all_answered [] ∅ (forked_spill (r_id parent) (r_epoch parent) <$> r_messages parent)) as Hs.
    { apply all_answered_map; [|done]. intros m. destruct (forked_spill_same (r_id parent) (r_epoch parent) m) as (? & ? & ?). done. }
    destruct (negb _); [|done]. apply all_answered_map; [|done]. intros m.
    destruct (forked_repair_same m) as (Hr & Ha' & Hs'). repeat split; [done..|]. by intros ->%Hs'. }
  assert (forall call spilled, spilled_by_call (r_messages parent) !! call = Some spilled -> rr_SessionID (sp_Ref spilled) = "" ->
    original log (Result call) child = (child, as_original call (let? same := SameRecord log (r_id parent) (r_epoch parent) in
      if same then readSpilled log (r_id parent) (sp_Seq spilled) else Ok None))) as Hspill.
  { intros call spilled Ec Eo. unfold original. cbn [ref_kind Result ref_id]. change (Z.eqb KindResult KindMessage) with false.
    change (Z.eqb KindResult KindResult) with true. cbn iota. unfold original_result. rewrite Em, forked_spilled by done.
    rewrite lookup_fmap, Ec. cbn [fmap option_fmap option_map]. unfold SpilledBody, inherit_spilled. rewrite Eo. cbn [String.eqb sp_Ref upd rr_SessionID rr_RecordEpoch sp_Seq].
    rewrite (proj2 (String.eqb_neq _ _) Hid), (proj2 (String.eqb_neq (r_id parent) (r_id child))) by done. done. }
  assert (forall n, match list_find (fun at_ => sr_number at_ = n) (refsOf (segmentsLocked parent)) with
    | Some (i, at_) => match SameRecord log (r_id parent) (r_epoch parent) with
      | Ok true => original_segment log n child = original_segment log n parent
      | Ok false => rr_SessionID (so_Ref (sr_source at_)) = "" -> original_segment log n child = Ok ([], false)
      | Err _ => True end
    | None => original_segment log n child = original_segment log n parent end) as Hseg.
  { intros n. unfold original_segment. rewrite Er, find_inherited.
    destruct (list_find _ (refsOf (segmentsLocked parent))) as [[i at_]|] eqn:Ef; [|done]. cbn [fmap option_fmap option_map fst snd].
    apply list_find_Some in Ef as (Hi & _). pose proof (so_sources _ Hok) as Hsrc. rewrite list.Forall_forall in Hsrc.
    pose proof (inherited_committed log parent child at_ Hid (Hsrc _ (list_elem_of_lookup_2 _ _ _ Hi))) as Hc.
    destruct (SameRecord _ _ _) as [[]|]; [by rewrite Hc| |done]. intros Eown. by rewrite (Hc Eown). }
  destruct (SameRecord log (r_id parent) (r_epoch parent)) as [[]|]; [| |done].
  - split; [|done]. intros n. specialize (Hseg n). by case_match; [case_match|].
  - split; [|done]. intros n i at_ Ef Eown. specialize (Hseg n). rewrite Ef in Hseg. by apply Hseg.
Qed.

(** ** A parent with a Segment of its own, and a Run in flight *)

Definition sample_own_segment : Segment :=
  segment_zero <| sg_Number := 1%Z |> <| sg_Source := MkSource (MkRecordRef "" "") 2 2 |>.

(** A call that a stopped Instance left open, as a repair answered it, and then a Run. *)
Definition sample_call : ToolCall := MkToolCall "c1" "pay" [] [].

Definition sample_parent : SessionRecord :=
  record_zero <| r_id := "parent" |> <| r_epoch := "e1" |> <| r_closed := {[1%Z := sample_own_segment]} |> <| r_used := [1%Z] |>
    <| r_running := "r2" |>
    <| r_messages := [(AssistantMessage "") <| m_ToolCalls := [sample_call] |>; repairResult sample_call true; UserMessage "and now?"] |>.

Lemma sample_parent_ok : segments_ok sample_parent.
Proof. split; by repeat constructor. Qed.

Lemma fork_reads_its_parents_originals_witness :
  original_segment (log_of_stores sample_logs) 1 (Fork 0 "child" "e2" sample_parent []) =
    original_segment (log_of_stores sample_logs) 1 sample_parent.
Proof.
  exact (proj1 (proj2 (fork_reads_its_parents_originals 0 "child" "e2" sample_parent [] (log_of_stores sample_logs)
    sample_parent_ok ltac:(by repeat constructor) ltac:(done) ltac:(done))) 1%Z).
Defined.

(** What is read there is the parent's Message; and the repair of the earlier Run is worded as
    if the fork had cut the call off. *)
Example fork_of_sample :
  original_segment (log_of_stores sample_logs) 1 (Fork 0 "child" "e2" sample_parent []) = Ok ([sample_message], true).
Proof. by vm_compute. Qed.

Lemma earlier_repair_reworded :
  r_messages (Fork 0 "child" "e2" sample_parent []) !! 1%nat = Some (repairResultWith "c1" true forkedToolResult).
Proof. by vm_compute. Qed.
