(* ===== verification/ProfileRegistry.v ===== *)
(** * Where definitions come from

    [profile/registry.go] and [host/profiles.go], with the parts of [host/run.go],
    [lifecycle.go], [runopen.go], [serve.go] and [errors.go] that a TaskSpec passes through:
    the registrations, the lookups, and how the AgentProfile of a Session is found for each
    of its Runs.  A store of definitions is a handle, and [load] is what the stores answer
    when a lookup is made.  [Registry]'s mutex makes each call one step. *)

From S2P Require Import Prelude GoStrings Text Errors Types Events Entry Record Store MemoryStore Cut Compactor Session ToolRegistry Admission Simulation RecordFork Profile ProfileDoc.
Local Open Scope string_scope.
Local Open Scope list_scope.

(** ** The Registry *)

Inductive source (A Defs : Type) : Type :=
| Inline (value : A)
| FromStore (defs : Defs).
Arguments Inline {A Defs} value.
Arguments FromStore {A Defs} defs.

Record Registry (Defs : Type) := MkRegistry {
  rg_catalog : option Catalog;
  rg_agents : gmap string (source AgentProfile Defs);
  rg_tasks : gmap string (source TaskSpec Defs);
}.
Arguments MkRegistry {Defs}.
Arguments rg_catalog {Defs} r.
Arguments rg_agents {Defs} r.
Arguments rg_tasks {Defs} r.
#[export] Instance eta_Registry Defs : Eta (Registry Defs) := fun r => MkRegistry (rg_catalog r) (rg_agents r) (rg_tasks r).

Section registry.
Context `{DocText} {Defs : Type}.
Abbreviation Reg := (Registry Defs) (only parsing).

Definition NewRegistry (catalog : option Catalog) : Reg := MkRegistry catalog ∅ ∅.

Definition RegisterAgentProfileInline (p : AgentProfile) (r : Reg) : Reg * option profileError :=
  let p := p <| ap_Name := trimmed (ap_Name p) |> in
  match validate p with
  | Some err => (r, Some err)
  | None => (r <| rg_agents := <[ap_Name p := Inline p]> (rg_agents r) |>, None)
  end.

Definition RegisterTaskSpecInline (t : TaskSpec) (r : Reg) : Reg * option profileError :=
  let t := t <| tk_Name := trimmed (tk_Name t) |> in
  match task_validate t with
  | Some err => (r, Some err)
  | None => (r <| rg_tasks := <[tk_Name t := Inline t]> (rg_tasks r) |>, None)
  end.

Definition storeName (name : string) (defs : option Defs) : made (string * Defs) :=
  let name := trimmed name in
  match CheckDefinitionKey KindAgentProfile name with
  | Some err => Err (invalid (Text "profile: name %q: %v" [FStr name; FErr err]))
  | None =>
    match defs with
    | None => Err (invalid (Text "profile: %q is registered with a nil store" [FStr name]))
    | Some defs => Ok (name, defs)
    end
  end.

Definition RegisterAgentProfileWithStore (name : string) (defs : option Defs) (r : Reg) : Reg * option profileError :=
  match storeName name defs with
  | Err err => (r, Some err)
  | Ok (name, defs) => (r <| rg_agents := <[name := FromStore defs]> (rg_agents r) |>, None)
  end.

Definition RegisterTaskSpecWithStore (name : string) (defs : option Defs) (r : Reg) : Reg * option profileError :=
  match storeName name defs with
  | Err err => (r, Some err)
  | Ok (name, defs) => (r <| rg_tasks := <[name := FromStore defs]> (rg_tasks r) |>, None)
  end.

Definition loadFailed (kind name : string) (err : error) : profileError :=
  if errors_Is err ErrNotFound
  then CoreError (Wrapf (Text "%w: %s %q has no document in its store" [FStr kind; FStr name]) ErrNotRegistered)
  else CoreError (Wrapf (Text "profile: load %s %q: %w" [FStr kind; FStr name]) err).

(** [sortedNames]. *)
Definition by_bytes (a b : string) : Prop := String.leb a b = true.
#[local] Instance by_bytes_dec a b : Decision (by_bytes a b).
Proof. unfold by_bytes. apply _. Defined.

Definition sortedKeys {V} (m : gmap string V) : list string := merge_sort by_bytes (fst <$> map_to_list m).

Definition AgentProfiles (r : Reg) : list string := sortedKeys (rg_agents r).
Definition TaskSpecs (r : Reg) : list string := sortedKeys (rg_tasks r).

Section lookups.
Context (load : Defs -> string -> string -> outcome bytes).

(** [Registry.AgentProfile] and [Registry.TaskSpec]. *)
Definition lookupAgent (name : string) (r : Reg) : made AgentProfile :=
  match rg_agents r !! name with
  | None => Err (notRegistered "AgentProfile" name)
  | Some (Inline p) => Ok p
  | Some (FromStore defs) =>
    match load defs KindAgentProfile name with
    | Err err => Err (loadFailed "AgentProfile" name err)
    | Ok doc => DecodeAgentProfile name doc (rg_catalog r)
    end
  end.

Definition lookupTask (name : string) (r : Reg) : made TaskSpec :=
  match rg_tasks r !! name with
  | None => Err (notRegistered "TaskSpec" name)
  | Some (Inline t) => Ok t
  | Some (FromStore defs) =>
    match load defs KindTaskSpec name with
    | Err err => Err (loadFailed "TaskSpec" name err)
    | Ok doc => DecodeTaskSpec name doc
    end
  end.

Definition Narrowed (t : TaskSpec) (r : Reg) : made AgentProfile :=
  match task_validate t with
  | Some err => Err err
  | None =>
    match lookupAgent (tk_Profile t) r with
    | Err err => Err (InTask (tk_Name t) err)
    | Ok p =>
      match Narrow t p (rg_catalog r) with
      | Some err => Err err
      | None => Apply t p
      end
    end
  end.
End lookups.
End registry.

(** ** Errors of a host *)

(** [errors.As] for a [*RuntimeError]. *)
Fixpoint asRuntime (err : profileError) : option RuntimeError :=
  match err with
  | CoreError e => as_runtime e
  | UnknownNameError kind name =>
    Some (ErrorOf CodeInvalidArgument (Text "profile: profile: the Catalog has no %s %q" [FStr kind; FStr name]))
  | WidenError task profile w =>
    Some (ErrorOf CodeInvalidArgument (Text "profile: profile: TaskSpec %q widens AgentProfile %q: %s: %s" [FStr task; FStr profile; FStr (Bound w)]))
  | InTask _ w => asRuntime w
  | NilDereference => None
  end.

Definition ErrUnknownAgent : RuntimeError :=
  (notRunError (ErrorOf CodeInvalidArgument (plain_text "host: unknown agent"))) <| Sentinel := Some "host.ErrUnknownAgent" |>.
Definition ErrUnknownTask : RuntimeError :=
  (notRunError (ErrorOf CodeInvalidArgument (plain_text "host: unknown task"))) <| Sentinel := Some "host.ErrUnknownTask" |>.
Definition ErrReservedKey : error :=
  RuntimeErr ((notRunError (ErrorOf CodeInvalidArgument (Text "host: a metadata key under %q belongs to the Runner" [FStr "gotato."])))
    <| Sentinel := Some "host.ErrReservedKey" |>).

(** An error of a request: a [*RuntimeError] with what caused it, an error around
    [ErrReservedKey], or the panic of a nil Tool. *)
Inductive hostError : Type :=
| Refused (e : RuntimeError) (cause : option profileError)
| ReservedKey (err : error)
| HostPanic.

Abbreviation hosted := (result hostError) (only parsing).

Definition profileErrorOf (err : profileError) : hostError :=
  match err with
  | NilDereference => HostPanic
  | _ =>
    if errorIs err ErrNotRegistered then Refused ErrUnknownAgent None
    else
      match asRuntime err with
      | Some typed => Refused (typed <| re_NotRun := true |> <| Sentinel := None |>) (Some err)
      | None => Refused ((ErrorOf CodeStoreFailure (plain_text "host: %v")) <| re_NotRun := true |>) (Some err)
      end
  end.

Definition hosted_of {A} (answer : made A) : hosted A :=
  match answer with Ok a => Ok a | Err err => Err (profileErrorOf err) end.

Definition refuse {A} (message : string) : hosted A :=
  Err (Refused (notRunError (ErrorOf CodeInvalidArgument (plain_text message))) None).

(** ** The metadata of a Session *)

Definition ReservedPrefix : string := "gotato.".
Definition metaAgent : string := "gotato.agent".
Definition metaTask : string := "gotato.task_spec".
Definition metaModel : string := "gotato.model".
Definition metaCacheKey : string := "gotato.cache_key".

Definition is_reserved (key : string) : bool := has_prefix (bytes_of key) (bytes_of ReservedPrefix).

Definition refuseReserved (metadata : gmap string string) : option error :=
  (fun key => Wrapf (Text "%w: %q" [FStr (snd key)]) ErrReservedKey) <$> list_find (fun key => is_reserved key = true) (sortedKeys metadata).

(** A [range] over the map, in some order. *)
Definition set_all (now : gotime) (pairs : list (string * string)) (s : SessionRecord) : SessionRecord :=
  fold_left (fun s pair => SetMetadata now (fst pair) (snd pair) s) pairs s.

Record taskRun := MkTaskRun { tr_spec : TaskSpec; tr_snapshot : string }.

Section host.
Context `{DocText} {Defs : Type} (load : Defs -> string -> string -> outcome bytes) (defaultAgent : string).
Abbreviation Reg := (Registry Defs) (only parsing).

Definition resolveTask (name : string) (value : option TaskSpec) (agent : string) (r : Reg) : hosted (option taskRun) :=
  let encoded spec :=
    match EncodeTaskSpec spec with
    | Ok doc => Ok (Some (MkTaskRun spec (string_of doc)))
    | Err err => Err (profileErrorOf err)
    end in
  match value with
  | None =>
    if String.eqb name "" then Ok None
    else if negb (String.eqb agent "") then refuse "host: a Session of a TaskSpec runs the TaskSpec's own AgentProfile, so it takes no Agent"
    else
      match lookupTask load name r with
      | Ok spec => encoded spec
      | Err err =>
        if errorIs err ErrNotRegistered then Err (Refused ErrUnknownTask None) else Err (profileErrorOf err)
      end
  | Some spec =>
    if negb (String.eqb name "") then refuse "host: Task and TaskSpec are exclusive: a request names a registered TaskSpec or carries one"
    else if negb (String.eqb agent "") then refuse "host: a Session of a TaskSpec runs the TaskSpec's own AgentProfile, so it takes no Agent"
    else encoded spec
  end.

Definition resolveNarrowed (task : taskRun) (r : Reg) : hosted AgentProfile := hosted_of (Narrowed load (tr_spec task) r).

Definition agentNamed (name : string) (r : Reg) : hosted AgentProfile :=
  hosted_of (lookupAgent load (if String.eqb name "" then defaultAgent else name) r).

Definition agentOf (s : SessionRecord) (r : Reg) : hosted AgentProfile :=
  match r_metadata s !! metaTask with
  | Some doc =>
    match DecodeTaskSpec "" (bytes_of doc) with
    | Err err => Err (profileErrorOf err)
    | Ok spec => hosted_of (Narrowed load spec r)
    end
  | None => agentNamed (default "" (r_metadata s !! metaAgent)) r
  end.

(** [newSession]: the Record, not stored yet, and the profile it is bound to. *)
Definition newSession (now : gotime) (id epoch agent : string) (task : option taskRun) (metadata : list (string * string))
    (options : list (SessionRecord -> SessionRecord)) (r : Reg) : hosted (SessionRecord * AgentProfile) :=
  let? spec := match task with Some task => resolveNarrowed task r | None => agentNamed agent r end in
  let s := set_all now metadata (New now id epoch options) in
  let s := SetMetadata now metaAgent (ap_Name spec) s in
  let s := match task with Some task => SetMetadata now metaTask (tr_snapshot task) s | None => s end in
  Ok (s, spec).

(** A request, as far as the AgentProfile of its Run goes. *)
Record RunRequest := MkRunRequest {
  rq_SessionID : string;
  rq_Agent : string;
  rq_Task : string;
  rq_TaskSpec : option TaskSpec;
  rq_Metadata : gmap string string;
  rq_Update : gmap string string;
  rq_Prompt : string;
  rq_Continue : bool;
  rq_Timeout : duration;
}.

(** What [runWith] refuses before the Run is admitted, and the TaskSpec that it finds. *)
Definition requestTask (q : RunRequest) (r : Reg) : hosted (option taskRun) :=
  if negb (rq_Continue q) && blank (rq_Prompt q) then refuse "host: prompt is required"
  else if rq_Continue q && negb (blank (rq_Prompt q)) then refuse "host: continue takes no prompt"
  else
  match refuseReserved (rq_Metadata q), refuseReserved (rq_Update q) with
  | Some err, _ | None, Some err => Err (ReservedKey err)
  | None, None =>
  if (rq_Timeout q <? 0)%Z then refuse "host: timeout must not be negative"
  else if negb (String.eqb (rq_SessionID q) "") && (negb (String.eqb (rq_Task q) "") || bool_decide (is_Some (rq_TaskSpec q)))
  then refuse "host: a Run of a TaskSpec opens a new Session, so it takes no SessionID"
  else resolveTask (rq_Task q) (rq_TaskSpec q) (rq_Agent q) r
  end.

(** [resolveAgent]; [built] is the profile that a new Session was built from. *)
Definition resolveAgent (built : option AgentProfile) (task : option taskRun) (agent : string) (s : SessionRecord) (r : Reg)
    : hosted AgentProfile :=
  match built, task with
  | Some p, _ => Ok p
  | None, Some task => resolveNarrowed task r
  | None, None =>
    if negb (String.eqb agent "") then
      if bool_decide (is_Some (r_metadata s !! metaTask))
      then refuse "host: a Session opened for a TaskSpec keeps its AgentProfile"
      else agentNamed agent r
    else agentOf s r
  end.

Definition applyUpdate (now : gotime) (update : list (string * string)) (spec : AgentProfile) (s : SessionRecord) : SessionRecord :=
  let s := set_all now update s in
  let s := SetMetadata now metaAgent (ap_Name spec) s in
  if String.eqb (ap_ModelName spec) "" then s else SetMetadata now metaModel (ap_ModelName spec) s.

(** The tool switches of [SetToolActive], as far as the metadata. *)
Definition metaToolPrefix : string := "gotato.tool.".

Definition switchTool (now : gotime) (toolID : string) (active : bool) (s : SessionRecord) : SessionRecord :=
  SetMetadata now (metaToolPrefix ++ toolID)%string (if active then "" else "inactive") s.

(** [Runner.Fork], without the store; [key] is [sessionCacheKey] of the parent. *)
Definition forkSession (now : gotime) (id epoch key : string) (parent : SessionRecord) : SessionRecord :=
  SetMetadata now metaCacheKey key (Fork now id epoch parent []).
End host.

(** ** Definitions that a lookup answers *)

Section registered.
Context `{DocText} {Defs : Type}.
Abbreviation Reg := (Registry Defs) (only parsing).

(** One of the four registrations. *)
Inductive registration : Type :=
| InlineAgent (p : AgentProfile)
| InlineTask (t : TaskSpec)
| StoredAgent (name : string) (defs : option Defs)
| StoredTask (name : string) (defs : option Defs).

Definition register (g : registration) (r : Reg) : Reg * option profileError :=
  match g with
  | InlineAgent p => RegisterAgentProfileInline p r
  | InlineTask t => RegisterTaskSpecInline t r
  | StoredAgent name defs => RegisterAgentProfileWithStore name defs r
  | StoredTask name defs => RegisterTaskSpecWithStore name defs r
  end.

Inductive reached_registry : Reg -> Prop :=
| reached_none catalog : reached_registry (NewRegistry catalog)
| reached_more g r : reached_registry r -> reached_registry (fst (register g r)).

(** What is registered as a value is valid, and under its own name. *)
Record registry_ok (r : Reg) : Prop := {
  ro_agents : map_Forall (fun name src => match src with Inline p => ap_Name p = name /\ validate p = None | FromStore _ => True end) (rg_agents r);
  ro_tasks : map_Forall (fun name src => match src with Inline t => tk_Name t = name /\ task_validate t = None | FromStore _ => True end) (rg_tasks r);
}.

Lemma register_ok g r : registry_ok r -> registry_ok (fst (register g r)).
Proof.
  intros [Ha Ht]. destruct g as [p|t|name defs|name defs]; cbn.
  - unfold RegisterAgentProfileInline. destruct (validate _) eqn:Ev; [done|]. split; [|done]. by apply map_Forall_insert_2.
  - unfold RegisterTaskSpecInline. destruct (task_validate _) eqn:Ev; [done|]. split; [done|]. by apply map_Forall_insert_2.
  - unfold RegisterAgentProfileWithStore. destruct (storeName _ _) as [[]|]; [|done]. split; [|done]. by apply map_Forall_insert_2.
  - unfold RegisterTaskSpecWithStore. destruct (storeName _ _) as [[]|]; [|done]. split; [done|]. by apply map_Forall_insert_2.
Qed.

Lemma registry_reached_ok r : reached_registry r -> registry_ok r.
Proof. induction 1; [by split; apply map_Forall_empty|by apply register_ok]. Qed.

Lemma checked_ok {A} (a b : A) failure : checked a failure = Ok b -> a = b /\ failure = None.
Proof. destruct failure; cbn; [done|]. by intros [= <-]. Qed.

Lemma DecodeAgentProfile_valid name doc c p : DecodeAgentProfile name doc c = Ok p -> ap_Name p = name /\ validate p = None.
Proof.
  unfold DecodeAgentProfile. destruct (decodeStrict _ _ _) as [d|]; [|done]. destruct (_ && _); [done|].
  destruct (Catalog_Model _ _) as [model|]; [|done]. destruct (resolve_tools _ _) as [tools|]; [|done]. cbn [rbind].
  destruct (resolve_sets _ _) as [sets|]; [|done]. destruct (read_timeout _ _ _) as [timeout|]; [|done]. cbn [rbind].
  destruct (read_compact _ _) as [compact|]; [|done]. cbn [rbind]. by intros [<- Hv]%checked_ok.
Qed.

Lemma lookupAgent_valid (load : Defs -> string -> string -> outcome bytes) name r p : registry_ok r -> lookupAgent load name r = Ok p -> ap_Name p = name /\ validate p = None.
Proof.
  intros [Ha _]. unfold lookupAgent. destruct (rg_agents r !! name) as [[q|defs]|] eqn:E; [| |done].
  - intros [= ->]. exact (Ha _ _ E).
  - destruct (load defs KindAgentProfile name); [|done]. apply DecodeAgentProfile_valid.
Qed.

(** The one way a TaskSpec reaches a Session. *)
Lemma Narrowed_spec (load : Defs -> string -> string -> outcome bytes) t r q : Narrowed load t r = Ok q ->
  exists p, lookupAgent load (tk_Profile t) r = Ok p /\ q = applied t p /\ narrows q p /\ task_validate t = None.
Proof.
  unfold Narrowed. destruct (task_validate t) eqn:Ev; [done|]. destruct (lookupAgent load _ r) as [p|]; [|done].
  destruct (Narrow t p _) eqn:En; [done|]. destruct (narrow_applies _ _ _ En Ev) as [-> Hn]. intros [= <-]. eauto.
Qed.
End registered.

(** ** Metadata of a Session *)

Lemma emit_metadata now event r : r_metadata (emit now event r) = r_metadata r.
Proof. exact (f_equal r_metadata (emit_erase now event r)). Qed.

Lemma SetMetadata_other now key value k s : k <> key -> r_metadata (SetMetadata now key value s) !! k = r_metadata s !! k.
Proof.
  intros Hk. unfold SetMetadata. destruct (_ && _); [done|]. rewrite emit_metadata.
  destruct (String.eqb value ""); cbn; [by rewrite lookup_delete_ne|by rewrite lookup_insert_ne].
Qed.

Lemma SetMetadata_same now key value s : value <> "" -> r_metadata (SetMetadata now key value s) !! key = Some value.
Proof.
  intros Hv. unfold SetMetadata. rewrite (proj2 (String.eqb_neq _ _) Hv), orb_false_r.
  destruct (_ && _) eqn:Ec; [|rewrite emit_metadata; cbn; by rewrite lookup_insert_eq].
  apply andb_true_iff in Ec as [Ec%String.eqb_eq [x Hx]%bool_decide_eq_true]. by rewrite Hx in *; cbn in Ec; subst.
Qed.

Lemma set_all_other now pairs k s : Forall (fun pair => fst pair <> k) pairs ->
  r_metadata (set_all now pairs s) !! k = r_metadata s !! k.
Proof.
  unfold set_all. intros Hp. revert s. induction Hp as [|[key value] pairs Hk _ IH]; intros s; [done|]. cbn.
  rewrite IH. by apply SetMetadata_other.
Qed.

(** A request that [refuseReserved] lets through sets no key of the Runner's. *)
Lemma not_reserved metadata pairs k : refuseReserved metadata = None -> pairs ≡ₚ map_to_list metadata -> is_reserved k = true ->
  Forall (fun pair => fst pair <> k) pairs.
Proof.
  intros Hr Hp Hk. rewrite Hp. apply list.Forall_forall. intros [key value] Hin Ek. cbn in Ek. subst k.
  assert (key ∈ sortedKeys metadata) as Hin' by (unfold sortedKeys; rewrite merge_sort_Permutation, list_elem_of_fmap; by exists (key, value)).
  unfold refuseReserved in Hr. apply fmap_None, list_find_None in Hr. rewrite list.Forall_forall in Hr. apply (Hr key Hin'), Hk.
Qed.

Section lives.
Context `{DocLaws} (defaultAgent : string).
Abbreviation Loads Defs := (Defs -> string -> string -> outcome bytes) (only parsing).

(** What becomes of the Record of a Session that was opened, on any Instance and with what is
    registered there: a Run of it, a tool switch, a fork, and what leaves its metadata alone. *)
Inductive session_step : relation SessionRecord :=
| step_run {Defs} (load : Loads Defs) r q task spec now order s :
    rq_SessionID q <> "" ->
    requestTask load q r = Ok task ->
    resolveAgent load defaultAgent None task (rq_Agent q) s r = Ok spec ->
    order ≡ₚ map_to_list (rq_Update q) ->
    session_step s (applyUpdate now order spec s)
| step_switch now toolID active s : session_step s (switchTool now toolID active s)
| step_fork now id epoch key s : session_step s (forkSession now id epoch key s)
| step_turns s s' : r_metadata s' = r_metadata s -> session_step s s'.

Lemma applyUpdate_task now update pairs spec s :
  refuseReserved update = None -> pairs ≡ₚ map_to_list update ->
  r_metadata (applyUpdate now pairs spec s) !! metaTask = r_metadata s !! metaTask.
Proof.
  intros Hu Hp. unfold applyUpdate. pose proof (not_reserved update pairs metaTask Hu Hp eq_refl).
  destruct (String.eqb _ _); rewrite ?(SetMetadata_other _ metaModel), SetMetadata_other by done; by apply set_all_other.
Qed.

Lemma inherit_metadata parent segments n positions r :
  r_metadata (inheritSegments (r_id parent) (r_epoch parent) segments n positions r) = r_metadata r.
Proof.
  rewrite inheritSegments_adds. change (r_metadata r) with (r_metadata (r <| r_closed := ∅ |> <| r_used := [] |>)).
  generalize (r <| r_closed := ∅ |> <| r_used := [] |>). intros r0. cbn.
  revert r0. induction (inherited_segment parent <$> segments) as [|s segs IH]; intros r0; cbn; [done|]. by rewrite IH.
Qed.

Lemma Fork_metadata now id epoch parent : r_metadata (Fork now id epoch parent []) = r_metadata parent.
Proof.
  unfold Fork. case_decide as Hd; [done|]. destruct Hd. refine (eq_trans (inherit_metadata parent _ _ _ _) _).
  done.
Qed.

Lemma string_of_nil b : string_of b = "" -> b = [].
Proof. by destruct b. Qed.

Lemma snapshot_written t doc : EncodeTaskSpec t = Ok doc -> string_of doc <> "".
Proof.
  unfold EncodeTaskSpec. destruct (write_task_doc _) as [v|]; [|done]. intros [= <-] Hd.
  by apply string_of_nil, text_written in Hd.
Qed.

(** A request of an existing Session carries no TaskSpec and sets no key of the Runner's. *)
Lemma requestTask_run {Defs} (load : Loads Defs) r q task :
  rq_SessionID q <> "" -> requestTask load q r = Ok task -> task = None /\ refuseReserved (rq_Update q) = None.
Proof.
  intros Hs. unfold requestTask. destruct (_ && _); [done|]. destruct (_ && _); [done|].
  destruct (refuseReserved _); [done|]. destruct (refuseReserved _); [done|]. destruct (_ <? _)%Z; [done|].
  rewrite (proj2 (String.eqb_neq _ _) Hs). cbn [negb andb]. destruct (String.eqb_spec (rq_Task q) "") as [->|]; [|done].
  destruct (rq_TaskSpec q) as [t|]; cbn; [done|]. by intros [= <-].
Qed.

(** A request that opens a Session for a TaskSpec. *)
Lemma requestTask_new {Defs} (load : Loads Defs) r q task :
  requestTask load q r = Ok (Some task) ->
  refuseReserved (rq_Metadata q) = None /\ exists doc, EncodeTaskSpec (tr_spec task) = Ok doc /\ tr_snapshot task = string_of doc.
Proof.
  unfold requestTask. destruct (_ && _); [done|]. destruct (_ && _); [done|].
  destruct (refuseReserved _); [done|]. destruct (refuseReserved _); [done|]. destruct (_ <? _)%Z; [done|]. destruct (_ && _); [done|].
  unfold resolveTask. intros Ht. split; [done|].
  destruct (rq_TaskSpec q) as [t|], (String.eqb (rq_Task q) ""), (String.eqb (rq_Agent q) ""); cbn in Ht; try done;
    try (destruct (lookupTask load _ r) as [t|err]; [|by destruct (errorIs err _)]);
    destruct (EncodeTaskSpec t) as [doc|] eqn:E; try done; injection Ht as <-; eauto.
Qed.

Lemma step_keeps_task doc s s' : session_step s s' -> r_metadata s !! metaTask = Some doc -> r_metadata s' !! metaTask = Some doc.
Proof.
  intros Hs Hd. destruct Hs as [Defs load r q task spec now order s Hid Hq _ Hp|now toolID active s|now id epoch key s|s s' Hm].
  - apply requestTask_run in Hq as [_ Hu]; [|done]. by rewrite (applyUpdate_task now (rq_Update q)).
  - unfold switchTool. by rewrite SetMetadata_other.
  - unfold forkSession. by rewrite SetMetadata_other, Fork_metadata.
  - by rewrite Hm.
Qed.

Lemma steps_keep_task doc s s' : rtc session_step s s' -> r_metadata s !! metaTask = Some doc -> r_metadata s' !! metaTask = Some doc.
Proof. induction 1; eauto using step_keeps_task. Qed.

Lemma hosted_of_ok {A} (answer : made A) a : hosted_of answer = Ok a -> answer = Ok a.
Proof. by destruct answer; cbn; intros [= <-]. Qed.

(** The profile of a later Run is found from the TaskSpec that the Record kept. *)
Lemma resolveAgent_task {Defs} (load : Loads Defs) t doc agent s r p :
  r_metadata s !! metaTask = Some (string_of doc) -> EncodeTaskSpec t = Ok doc -> task_ok t -> task_validate t = None ->
  resolveAgent load defaultAgent None None agent s r = Ok p -> agent = "" /\ Narrowed load t r = Ok p.
Proof.
  intros Hd He Ht Hv. unfold resolveAgent, agentOf. rewrite Hd. destruct (String.eqb_spec agent "") as [->|]; cbn; [|done].
  rewrite bytes_of_string_of, (task_reads_back t "" doc) by (done || by left). by intros ->%hosted_of_ok.
Qed.

Lemma newSession_task {Defs} (load : Loads Defs) now id epoch agent task pairs options r s p :
  newSession load defaultAgent now id epoch agent (Some task) pairs options r = Ok (s, p) -> tr_snapshot task <> "" ->
  r_metadata s !! metaTask = Some (tr_snapshot task) /\ Narrowed load (tr_spec task) r = Ok p.
Proof.
  unfold newSession, resolveNarrowed. destruct (hosted_of _) as [q|] eqn:E; cbn; [|done]. apply hosted_of_ok in E.
  intros [= <- <-] Hn. by rewrite SetMetadata_same.
Qed.

(** C25: A Session opened for a TaskSpec runs as that TaskSpec narrows its AgentProfile, for as
    long as it lives.  Whatever happens to its Record, Runs with any Agent and any Update, tool
    switches and forks, on Instances where other definitions are registered, a Run of it that
    finds its AgentProfile names no Agent and gets the profile that is then registered under
    the TaskSpec's name of it, as the TaskSpec the Session was opened for narrows it: a valid
    profile with no tool, ToolSet, effect, deadline or output limit past that one's. *)
Theorem task_session_stays_narrow {Defs Defs'} (load : Loads Defs) (load' : Loads Defs') r r' q task now id epoch pairs options s p s' agent p' :
  requestTask load q r = Ok (Some task) -> task_ok (tr_spec task) ->
  newSession load defaultAgent now id epoch (rq_Agent q) (Some task) pairs options r = Ok (s, p) ->
  rtc session_step s s' -> reached_registry r' ->
  resolveAgent load' defaultAgent None None agent s' r' = Ok p' ->
  agent = "" /\
  exists base, lookupAgent load' (tk_Profile (tr_spec task)) r' = Ok base /\ ap_Name base = tk_Profile (tr_spec task) /\
    p' = applied (tr_spec task) base /\ narrows p' base /\ validate p' = None.
Proof.
  intros Hq Ht Hs Hrun Hr' Hp'. apply requestTask_new in Hq as (_ & doc & He & Esnap).
  apply newSession_task in Hs as [Hm Hn]; [|rewrite Esnap; by eapply snapshot_written].
  apply Narrowed_spec in Hn as (_ & _ & _ & _ & Hv). rewrite Esnap in Hm. apply (steps_keep_task _ _ _ Hrun) in Hm.
  apply (resolveAgent_task load' _ _ _ _ _ _ Hm He Ht Hv) in Hp' as [-> (base & Hb & -> & Hnw & _)%Narrowed_spec]. split; [done|].
  destruct (lookupAgent_valid _ _ _ _ (registry_reached_ok _ Hr') Hb) as [Hname Hvb].
  exists base. by split_and!; [..|apply applied_valid].
Qed.
End lives.

(** A Session of [sample_task], after a Run that asked for a label and a switch of a tool. *)
Section sample.
#[local] Existing Instances sample_text sample_text_laws.

Definition sample_definitions : Registry nat :=
  fst (register (InlineTask sample_task) (fst (register (InlineAgent sample_profile) (NewRegistry (Some sample_catalog))))).

Definition nothing_stored (defs : nat) (kind name : string) : outcome bytes := Err ErrNotFound.

Definition sample_open : RunRequest := MkRunRequest "" "" "nightly" None ∅ ∅ "go" false 0%Z.
Definition sample_again : RunRequest := MkRunRequest "s1" "" "" None ∅ {[ "label" := "night" ]} "again" false 0%Z.

Definition sample_taskRun : taskRun :=
  match requestTask nothing_stored sample_open sample_definitions with Ok (Some task) => task | _ => MkTaskRun sample_task "" end.

Definition sample_opened : SessionRecord :=
  match newSession nothing_stored "coder" 1%Z "s1" "e1" "" (Some sample_taskRun) [] [] sample_definitions with
  | Ok (s, _) => s
  | Err _ => record_zero
  end.

Definition sample_narrowed : AgentProfile := applied sample_task sample_profile.

Definition sample_later : SessionRecord :=
  switchTool 3%Z "grep" false (applyUpdate 2%Z [("label", "night")] sample_narrowed sample_opened).

Lemma sample_run : rtc (session_step "coder") sample_opened sample_later.
Proof.
  eapply rtc_l; [|eapply rtc_once, step_switch].
  apply (step_run "coder" nothing_stored sample_definitions sample_again None); [done|done|vm_compute; reflexivity|].
  cbn. by rewrite map_to_list_singleton.
Qed.

(** The TaskSpec keeps no ToolSet and only reads. *)
Lemma task_session_stays_narrow_witness :
  "" = "" /\
  exists base, lookupAgent nothing_stored "coder" sample_definitions = Ok base /\ ap_Name base = "coder" /\
    sample_narrowed = applied sample_task base /\ narrows sample_narrowed base /\ validate sample_narrowed = None.
Proof.
  apply (task_session_stays_narrow "coder" nothing_stored nothing_stored sample_definitions sample_definitions sample_open
           sample_taskRun 1%Z "s1" "e1" [] [] sample_opened sample_narrowed sample_later).
  - vm_compute. reflexivity.
  - apply sample_task_ok.
  - vm_compute. reflexivity.
  - apply sample_run.
  - apply reached_more, reached_more, reached_none.
  - vm_compute. reflexivity.
Defined.

Example narrowed_bounds :
  (ap_ToolSets sample_narrowed, ap_MaxEffect sample_narrowed, deadline sample_narrowed, output_limit sample_narrowed) =
  ([], ToolEffectRead, Some minute, 1024%N).
Proof. reflexivity. Qed.
End sample.
