(* ===== verification/RunHandle.v ===== *)
(** * An admitted Run and its stop

    [host/runhandle.go] and [rearm] of [followon.go]: the handle of an admitted Run, and the calls that
    stop it, interleaved with the goroutine of the Run.  A section under the lock of the handle
    is a definition.  A live Session and a context are numbers: live Session [n] is the one of the
    [n]-th Run that the handle admits, counted from 0; Run 0 has the context of its request, and
    those that follow share another. *)

From S2P Require Import Prelude Types Events ControlQueue ControlMessages.
Local Open Scope string_scope.
Local Open Scope list_scope.

(** ** The handle *)

Record runHandle := MkHandle {
  hd_sessionID : string;
  hd_runID : string;
  hd_abort : option nat;
  hd_cancel : option nat;
  hd_stopped : bool;
  hd_settled : bool;
  hd_stopNext : bool;
  hd_wait : bool;
  hd_over : bool;
  hd_drained : bool;
  hd_live : option nat;
  hd_liveChanged : option nat;
  hd_ready : nat;
  hd_readyClosed : bool;
  hd_next : list control;
}.
#[export] Instance eta_runHandle : Eta runHandle := fun r =>
  MkHandle (hd_sessionID r) (hd_runID r) (hd_abort r) (hd_cancel r) (hd_stopped r) (hd_settled r) (hd_stopNext r) (hd_wait r)
    (hd_over r) (hd_drained r) (hd_live r) (hd_liveChanged r) (hd_ready r) (hd_readyClosed r) (hd_next r).

(** The handle that [runWith] makes; [ctx] is the context of the Run, [ready] a new channel. *)
Definition newHandle (sessionID : string) (ctx : nat) (wait : bool) (ready : nat) : runHandle :=
  MkHandle sessionID "" None (Some ctx) false false false wait false false None None ready false [].

(** ** Under [mu] *)

Definition attachAbort (live : nat) (h : runHandle) : runHandle := h <| hd_abort := Some live |>.

Definition attachRunID (runID : string) (h : runHandle) : runHandle :=
  if String.eqb (hd_runID h) "" then h <| hd_runID := runID |> else h.

(** What is called once the lock is released: the Abort of a live Session, or a cancel. *)
Inductive stopCall : Type :=
| NoCall
| CallAbort (live : nat)
| CallCancel (ctx : nat).

Definition abortIfStopped (h : runHandle) : stopCall :=
  match hd_stopped h, hd_abort h with
  | true, Some live => CallAbort live
  | _, _ => NoCall
  end.

Definition stop (h : runHandle) : runHandle * stopCall :=
  if hd_settled h then (h <| hd_stopNext := true |>, NoCall)
  else
    (h <| hd_stopped := true |>,
     match hd_abort h, hd_cancel h with
     | Some live, _ => CallAbort live
     | None, Some ctx => CallCancel ctx
     | None, None => NoCall
     end).

(** The first section of [stopForDrain]; the second is [stop]. *)
Definition markDrained (h : runHandle) : runHandle := h <| hd_drained := true |>.

(** What [abortSession] looks at in one section, before it calls [stop] in another: whether this handle
    is the one to stop, of all Runs of the Session or of the one that [runID] names. *)
Definition chosen (runID : string) (h : runHandle) : bool :=
  negb (String.eqb (hd_runID h) "") && negb (hd_settled h) && (String.eqb runID "" || String.eqb (hd_runID h) runID).

Definition stoppedByDrain (h : runHandle) : bool := hd_drained h.
Definition isStopped (h : runHandle) : bool := hd_stopped h.

(** The first section of [detachLive]. *)
Definition markSettled (h : runHandle) : runHandle := h <| hd_settled := true |>.

Definition rearm (ctx : nat) (h : runHandle) : runHandle :=
  h <| hd_runID := "" |> <| hd_abort := None |> <| hd_cancel := Some ctx |>
    <| hd_stopped := hd_stopNext h |> <| hd_stopNext := false |> <| hd_settled := false |>.

(** ** Under [liveMu]

    A channel is a number; an operation answers the channels that it closes. *)

Definition closeReadyLocked (h : runHandle) : runHandle * list nat :=
  if hd_readyClosed h then (h, []) else (h <| hd_readyClosed := true |>, [hd_ready h]).

Definition signalLiveLocked (h : runHandle) : runHandle * list nat :=
  match hd_liveChanged h with
  | Some changed => (h <| hd_liveChanged := None |>, [changed])
  | None => (h, [])
  end.

Definition attachLive (live : nat) (h : runHandle) : runHandle * list nat :=
  let (h, ready) := closeReadyLocked (h <| hd_live := Some live |>) in
  let (h, changed) := signalLiveLocked h in
  (h, ready ++ changed).

Definition finish (h : runHandle) : runHandle * list nat :=
  let (h, ready) := closeReadyLocked h in
  let (h, changed) := signalLiveLocked h in
  (h, ready ++ changed).

Definition hasLive (h : runHandle) : bool := bool_decide (is_Some (hd_live h)).

(** The section of [awaitLiveChange]: the channel to wait on, when there is a live Session;
    [fresh] is the channel that is made when there is none yet. *)
Definition awaitLiveChange (fresh : nat) (h : runHandle) : runHandle * option nat :=
  match hd_live h with
  | None => (h, None)
  | Some _ =>
    match hd_liveChanged h with
    | Some changed => (h, Some changed)
    | None => (h <| hd_liveChanged := Some fresh |>, Some fresh)
    end
  end.

(** [splitNotices]. *)
Definition splitNotices (left : list control) : list control * list control :=
  (filter (fun c => is_notice c = true) left, filter (fun c => is_notice c = false) left).

(** The second section of [detachLive]: [queued] is what [takeQueued] takes of the live
    Session, [follow] what the call answers of the messages that are left, and [fresh] a new channel. *)
Definition detachLive (queued : list control) (follow : list control -> bool) (fresh : nat) (h : runHandle)
    : runHandle * list nat * list control :=
  let live := hd_live h in
  let (h, closed) := signalLiveLocked (h <| hd_live := None |>) in
  match live with
  | None => (h, closed, [])
  | Some _ =>
    let (notices, left) := splitNotices queued in
    match left with
    | [] => (h, closed, notices)
    | _ =>
      (if follow left then h <| hd_next := left |> <| hd_ready := fresh |> <| hd_readyClosed := false |> else h, closed, notices)
    end
  end.

Definition takeNext (h : runHandle) : runHandle * list control := (h <| hd_next := [] |>, hd_next h).

(** [unregisterHandle], but for the table of Runs. *)
Definition unregister (h : runHandle) : runHandle * list nat :=
  let (h, closed) := finish h in (h <| hd_over := true |>, closed).

(** ** The Run, and those that stop it *)

(** Where the goroutine of the Run is: it opens the Session and builds the live Session; the handle
    has its Abort, and the live Session too; the Run is in flight and its hook has yet to look at the handle, or to call the
    Abort; the hook is done; the Run is no longer in flight; it is marked as settled; its live
    Session is withdrawn; its leftovers are taken; the handle is given up. *)
Inductive place : Type :=
| Opening
| HasAbort
| Attached
| InHook
| HookCalls (call : stopCall)
| Flying
| Landed
| Marked
| Withdrawn
| Taken (next : list control)
| GivenUp.

Definition in_flight (p : place) : bool := match p with InHook | HookCalls _ | Flying => true | _ => false end.

Definition context_of (run : nat) : nat := match run with 0 => 0 | S _ => 1 end.

(** [st_meant] has the Runs that stops were taken for: a stop that takes the lock of the handle is taken
    for the Run that the handle is at, or for the next one when that one is settled.  [st_looks] has
    the callers of [abortSession] that chose the handle for the Run it was at, and have not called
    [stop] yet. *)
Record stopping := MkStopping {
  st_handle : runHandle;
  st_run : nat;
  st_place : place;
  st_calls : gmap nat stopCall;
  st_aborted : gset nat;
  st_canceled : gset nat;
  st_meant : gset nat;
  st_looks : gmap nat nat;
}.
#[export] Instance eta_stopping : Eta stopping := fun r =>
  MkStopping (st_handle r) (st_run r) (st_place r) (st_calls r) (st_aborted r) (st_canceled r) (st_meant r) (st_looks r).

Definition start_stopping (sessionID : string) (wait : bool) : stopping :=
  MkStopping (newHandle sessionID 0 wait 0) 0 Opening ∅ ∅ ∅ ∅ ∅.

(** A call that is made: an Abort reaches the Run in flight of its live Session, if there is one. *)
Definition made (call : stopCall) (w : stopping) : stopping :=
  match call with
  | NoCall => w
  | CallAbort live =>
    if bool_decide (live = st_run w) && in_flight (st_place w) then w <| st_aborted := {[live]} ∪ st_aborted w |> else w
  | CallCancel ctx => w <| st_canceled := {[ctx]} ∪ st_canceled w |>
  end.

(** The Run that a stop is taken for now. *)
Definition taken_for (w : stopping) : nat := if hd_settled (st_handle w) then S (st_run w) else st_run w.

(** One more stop. *)
Definition asked (k : nat) (w : stopping) : stopping :=
  w <| st_handle := (stop (st_handle w)).1 |> <| st_calls := <[k := (stop (st_handle w)).2]> (st_calls w) |>
    <| st_meant := {[taken_for w]} ∪ st_meant w |> <| st_looks := delete k (st_looks w) |>.

(** [dropReason], as far as stops go; [other] says that the Run is not saved, its Writer failed, or
    the Instance is draining. *)
Definition may_follow (other : bool) (w : stopping) : bool :=
  negb other && negb (isStopped (st_handle w)) && negb (bool_decide (context_of (st_run w) ∈ st_canceled w)).

Definition go_to (p : place) (w : stopping) : stopping := w <| st_place := p |>.

Inductive stop_step : stopping -> stopping -> Prop :=
| stop_drain w : stop_step w (w <| st_handle := markDrained (st_handle w) |>)
| stop_looks k runID w : chosen runID (st_handle w) = true ->
    stop_step w (w <| st_looks := <[k := st_run w]> (st_looks w) |>)
| stop_asked k w : st_calls w !! k = None -> stop_step w (asked k w)
| stop_called k call w : st_calls w !! k = Some call ->
    stop_step w (made call (w <| st_calls := <[k := NoCall]> (st_calls w) |>))
| run_fails w : st_place w = Opening -> stop_step w (go_to Withdrawn w)
| run_attaches w : st_place w = Opening ->
    stop_step w (go_to HasAbort (w <| st_handle := attachAbort (st_run w) (st_handle w) |>))
| run_lives w : st_place w = HasAbort ->
    stop_step w (go_to Attached (w <| st_handle := (attachLive (st_run w) (st_handle w)).1 |>))
| run_refused w : st_place w = Attached -> stop_step w (go_to Landed w)
| run_begins w : st_place w = Attached -> stop_step w (go_to InHook w)
| run_named runID w : st_place w = InHook -> stop_step w (w <| st_handle := attachRunID runID (st_handle w) |>)
| run_looks w : st_place w = InHook -> stop_step w (go_to (HookCalls (abortIfStopped (st_handle w))) w)
| run_aborts call w : st_place w = HookCalls call -> stop_step w (go_to Flying (made call w))
| run_lands w : st_place w = Flying -> stop_step w (go_to Landed w)
| run_marks w : st_place w = Landed -> stop_step w (go_to Marked (w <| st_handle := markSettled (st_handle w) |>))
| run_detaches queued other fresh w : st_place w = Marked ->
    stop_step w (go_to Withdrawn (w <| st_handle := (detachLive queued (fun _ => may_follow other w) fresh (st_handle w)).1.1 |>))
| run_takes h next w : st_place w = Withdrawn -> takeNext (st_handle w) = (h, next) ->
    stop_step w (go_to (Taken next) (w <| st_handle := h |>))
| run_rearms c next w : st_place w = Taken (c :: next) ->
    stop_step w (go_to Opening (w <| st_handle := rearm 1 (st_handle w) |> <| st_run := S (st_run w) |>))
| run_ends w : st_place w = Taken [] -> stop_step w (go_to GivenUp (w <| st_handle := (unregister (st_handle w)).1 |>)).

Definition stop_reach (sessionID : string) (wait : bool) (w : stopping) : Prop := rtc stop_step (start_stopping sessionID wait) w.

(** ** What the sections leave as it is *)

(** The part of a handle that stops read and write. *)
Definition stop_part (h : runHandle) : option nat * option nat * bool * bool * bool :=
  (hd_abort h, hd_cancel h, hd_stopped h, hd_settled h, hd_stopNext h).

Lemma closeReady_part h : stop_part (closeReadyLocked h).1 = stop_part h /\ hd_next (closeReadyLocked h).1 = hd_next h.
Proof. unfold closeReadyLocked. by destruct (hd_readyClosed h). Qed.

Lemma signalLive_part h : stop_part (signalLiveLocked h).1 = stop_part h /\ hd_next (signalLiveLocked h).1 = hd_next h.
Proof. unfold signalLiveLocked. by destruct (hd_liveChanged h). Qed.

Lemma finish_part h : stop_part (finish h).1 = stop_part h /\ hd_next (finish h).1 = hd_next h.
Proof.
  unfold finish. destruct (closeReadyLocked h) as [h1 c1] eqn:E1, (signalLiveLocked h1) as [h2 c2] eqn:E2. cbn.
  pose proof (closeReady_part h) as [P1 N1]. pose proof (signalLive_part h1) as [P2 N2]. rewrite E1 in P1, N1. rewrite E2 in P2, N2.
  cbn in *. by rewrite P2, N2.
Qed.

Lemma attachLive_part live h : stop_part (attachLive live h).1 = stop_part h /\ hd_next (attachLive live h).1 = hd_next h.
Proof. exact (finish_part (h <| hd_live := Some live |>)). Qed.

Lemma unregister_part h : stop_part (unregister h).1 = stop_part h /\ hd_next (unregister h).1 = hd_next h.
Proof.
  unfold unregister. destruct (finish h) as [h1 c1] eqn:E1. pose proof (finish_part h) as [P1 N1]. by rewrite E1 in P1, N1.
Qed.

(** The leftovers are kept for a Run that follows only when [follow] says so. *)
Lemma detachLive_part queued follow fresh h :
  stop_part (detachLive queued follow fresh h).1.1 = stop_part h /\
  (hd_next (detachLive queued follow fresh h).1.1 = hd_next h \/ exists left, follow left = true).
Proof.
  unfold detachLive. destruct (signalLiveLocked (h <| hd_live := None |>)) as [h1 c1] eqn:E1.
  pose proof (signalLive_part (h <| hd_live := None |>)) as [P1 N1]. rewrite E1 in P1, N1. cbn in P1, N1.
  destruct (hd_live h); [|by split; [|left]]. destruct (splitNotices queued) as [notices left].
  destruct left as [|c left]; [by split; [|left]|]. destruct (follow (c :: left)) eqn:Ef; [by split; [|right; eauto]|by split; [|left]].
Qed.

(** ** The invariant *)

(** The places at which the handle is not settled, and those at which it has the Abort of its Run. *)
Definition unsettled_at (p : place) : bool := match p with Marked | Withdrawn | Taken _ | GivenUp => false | _ => true end.
Definition has_abort (p : place) : bool := match p with HasAbort | Attached | InHook | HookCalls _ | Flying | Landed => true | _ => false end.

(** Calls that are still to be made, by those that stop the Run or by its hook. *)
Definition pending (w : stopping) (call : stopCall) : Prop :=
  (exists k, st_calls w !! k = Some call) \/ st_place w = HookCalls call.

Record stop_inv (w : stopping) : Prop := {
  si_settled : unsettled_at (st_place w) = true -> hd_settled (st_handle w) = false;
  si_marked : st_place w = Marked -> hd_settled (st_handle w) = true;
  si_stopped : hd_stopped (st_handle w) = true <-> st_run w ∈ st_meant w;
  si_stopNext : hd_stopNext (st_handle w) = true <-> S (st_run w) ∈ st_meant w;
  si_unsettled : hd_settled (st_handle w) = false -> hd_stopNext (st_handle w) = false;
  si_meant m : m ∈ st_meant w -> m = st_run w \/ m = S (st_run w);
  si_abort live : hd_abort (st_handle w) = Some live -> live = st_run w;
  si_attached : has_abort (st_place w) = true -> hd_abort (st_handle w) = Some (st_run w);
  si_cancel : hd_cancel (st_handle w) = Some (context_of (st_run w));
  si_aborts live : pending w (CallAbort live) -> live = st_run w /\ st_run w ∈ st_meant w;
  si_cancels ctx : pending w (CallCancel ctx) -> ctx = context_of (st_run w) /\ st_run w ∈ st_meant w;
  si_aborted live : live ∈ st_aborted w -> live = st_run w /\ st_run w ∈ st_meant w;
  si_canceled ctx : ctx ∈ st_canceled w -> ctx = context_of (st_run w) /\ st_run w ∈ st_meant w;
  si_hook ctx : st_place w <> HookCalls (CallCancel ctx);
  si_reached : st_place w = Flying \/ st_place w = HookCalls NoCall -> st_run w ∈ st_meant w ->
    st_run w ∈ st_aborted w \/ exists k, st_calls w !! k = Some (CallAbort (st_run w));
  si_left : hd_next (st_handle w) <> [] ->
    st_place w = Withdrawn /\ hd_settled (st_handle w) = true /\ st_run w ∉ st_meant w;
  si_taken c next : st_place w = Taken (c :: next) -> hd_settled (st_handle w) = true /\ st_run w ∉ st_meant w;
}.

Lemma start_stop_inv sessionID wait : stop_inv (start_stopping sessionID wait).
Proof.
  assert (forall call, ~ pending (start_stopping sessionID wait) call) as Hn.
  { intros call [[k Hk]|Hp]; [|done]. unfold start_stopping in Hk. cbn in Hk. by rewrite lookup_empty in Hk. }
  split; cbn; try done; try set_solver; try (by intros ? ?%Hn); by intros [].
Qed.

(** The goroutine moves, and what stops read of the handle stays. *)
Lemma place_inv w h p : stop_inv w -> stop_part h = stop_part (st_handle w) ->
  (unsettled_at p = true -> unsettled_at (st_place w) = true) ->
  (p = Marked -> hd_settled h = true) ->
  (has_abort p = true -> hd_abort h = Some (st_run w)) ->
  (forall call, p = HookCalls call -> call = NoCall \/ (call = CallAbort (st_run w) /\ st_run w ∈ st_meant w)) ->
  (p = Flying \/ p = HookCalls NoCall -> st_run w ∈ st_meant w -> st_run w ∈ st_aborted w \/ exists k, st_calls w !! k = Some (CallAbort (st_run w))) ->
  (hd_next h <> [] -> p = Withdrawn /\ hd_settled h = true /\ st_run w ∉ st_meant w) ->
  (forall c next, p = Taken (c :: next) -> hd_settled h = true /\ st_run w ∉ st_meant w) ->
  stop_inv (go_to p (w <| st_handle := h |>)).
Proof.
  intros [] Hh Hu Hm Ha Hc Hr Hl Ht. injection Hh as E1 E2 E3 E4 E5.
  split; cbn; rewrite ?E1, ?E2, ?E3, ?E4, ?E5; try done; try rewrite E4 in *; try rewrite E1 in *; auto.
  - intros live [[k Hk]|Hp]; [apply si_aborts0; left; by exists k|]. cbn in Hp. destruct (Hc _ Hp) as [|[[= <-] ?]]; done.
  - intros ctx [[k Hk]|Hp]; [apply si_cancels0; left; by exists k|]. cbn in Hp. destruct (Hc _ Hp) as [|[? ?]]; done.
  - intros ctx Hp. destruct (Hc _ Hp) as [|[? ?]]; done.
Qed.

(** Calls are made, and what they reach grows by those that were to be made. *)
Lemma effects_inv w calls a c p : stop_inv w ->
  p = st_place w \/ (exists call, st_place w = HookCalls call /\ p = Flying) ->
  (forall k call, calls !! k = Some call -> call = NoCall \/ pending w call) ->
  (forall x, x ∈ a -> x ∈ st_aborted w \/ pending w (CallAbort x)) ->
  (forall x, x ∈ c -> x ∈ st_canceled w \/ pending w (CallCancel x)) ->
  (p = Flying \/ p = HookCalls NoCall -> st_run w ∈ st_meant w -> st_run w ∈ a \/ exists k, calls !! k = Some (CallAbort (st_run w))) ->
  stop_inv (go_to p (w <| st_calls := calls |> <| st_aborted := a |> <| st_canceled := c |>)).
Proof.
  intros [] Hp Hcalls Ha Hc Hr.
  assert (forall call, pending (go_to p (w <| st_calls := calls |> <| st_aborted := a |> <| st_canceled := c |>)) call ->
    call = NoCall \/ pending w call) as Hpend.
  { intros call [[k Hk]|Hq]; [by apply (Hcalls k)|]. cbn in Hq. right. right. destruct Hp as [->|(? & _ & ->)]; done. }
  split; cbn; try done.
  - intros Hu. apply si_settled0. destruct Hp as [->|(? & -> & ->)]; done.
  - intros ->. destruct Hp as [Hp|(? & _ & ?)]; [by apply si_marked0|done].
  - intros Hh. apply si_attached0. destruct Hp as [->|(? & -> & ->)]; done.
  - intros live [|Hx]%Hpend; [done|by apply si_aborts0].
  - intros ctx [|Hx]%Hpend; [done|by apply si_cancels0].
  - intros live [Hx|Hx]%Ha; [by apply si_aborted0|by apply si_aborts0].
  - intros ctx [Hx|Hx]%Hc; [by apply si_canceled0|by apply si_cancels0].
  - intros ctx Hq. destruct Hp as [Hp|(? & _ & Hp)]; [rewrite Hp in Hq; by eapply si_hook0|by rewrite Hp in Hq].
  - intros Hl. destruct (si_left0 Hl) as (Hw & ? & ?). destruct Hp as [->|(? & Hq & _)]; [done|by rewrite Hw in Hq].
  - intros x next ->. destruct Hp as [Hp|(? & _ & ?)]; [by eapply si_taken0|done].
Qed.

Lemma made_eq call w : made call w = w <| st_aborted := st_aborted (made call w) |> <| st_canceled := st_canceled (made call w) |>.
Proof. destruct w, call; cbn; [done| |done]. by destruct (_ && _). Qed.

Lemma made_aborted call w x : x ∈ st_aborted (made call w) -> x ∈ st_aborted w \/ call = CallAbort x.
Proof. destruct call; cbn; [by left| |by left]. destruct (_ && _); cbn; set_solver. Qed.

Lemma made_canceled call w x : x ∈ st_canceled (made call w) -> x ∈ st_canceled w \/ call = CallCancel x.
Proof. destruct call; cbn; [by left| |set_solver]. destruct (_ && _); cbn; set_solver. Qed.

(** An Abort of the Run in flight reaches it. *)
Lemma made_reaches call w : in_flight (st_place w) = true -> st_run w ∈ st_aborted w \/ call = CallAbort (st_run w) -> st_run w ∈ st_aborted (made call w).
Proof.
  intros Hf [Ha| ->]; [destruct call; cbn; [done| |done]; destruct (_ && _); cbn; set_solver|].
  cbn. rewrite bool_decide_true by done. rewrite Hf. cbn. set_solver.
Qed.

Lemma asked_pending k w call : pending (asked k w) call -> call = (stop (st_handle w)).2 \/ pending w call.
Proof.
  intros [[j Hj]|Hp]; [|right; by right]. cbn in Hj. apply lookup_insert_Some in Hj as [[_ <-]|[_ Hj]]; [by left|right; left; by exists j].
Qed.

Lemma asked_settled_inv k w : stop_inv w -> hd_settled (st_handle w) = true -> stop_inv (asked k w).
Proof.
  intros [] Es. pose proof (asked_pending k w) as Hpend. unfold asked, taken_for, stop in *. rewrite Es in *. cbn in Hpend. cbn.
  assert (forall m, m ∈ {[S (st_run w)]} ∪ st_meant w <-> m = S (st_run w) \/ m ∈ st_meant w) as Hin by (clear; set_solver).
  split; cbn; try done; rewrite ?Es, ?Hin; try done.
  - rewrite si_stopped0. split; [by right|intros [?|?]; [lia|done]].
  - split; [by left|done].
  - intros m [->|Hm]%Hin; [by right|by apply si_meant0].
  - intros live [|Hx]%Hpend; [done|]. rewrite Hin. apply si_aborts0 in Hx as [? ?]. split; [done|by right].
  - intros ctx [|Hx]%Hpend; [done|]. rewrite Hin. apply si_cancels0 in Hx as [? ?]. split; [done|by right].
  - intros live [? ?]%si_aborted0. rewrite Hin. split; [done|by right].
  - intros ctx [? ?]%si_canceled0. rewrite Hin. split; [done|by right].
  - intros Hp _. assert (true = false) as Hf; [|done]. apply si_settled0. by destruct Hp as [-> | ->].
  - intros Hl. destruct (si_left0 Hl) as (? & _ & ?). split_and!; [done..|]. intros [?|?]; [lia|done].
  - intros c next Hp. destruct (si_taken0 _ _ Hp) as [_ ?]. split; [done|]. rewrite Hin. intros [?|?]; [lia|done].
Qed.

Lemma asked_inv k w : stop_inv w -> st_calls w !! k = None -> stop_inv (asked k w).
Proof.
  intros Hi Hk. destruct (hd_settled (st_handle w)) eqn:Es; [by apply asked_settled_inv|]. destruct Hi.
  pose proof (asked_pending k w) as Hpend. unfold asked, taken_for, stop in *. rewrite Es in *. specialize (si_unsettled0 eq_refl). cbn in Hpend. cbn.
  assert (forall m, m ∈ {[st_run w]} ∪ st_meant w <-> m = st_run w \/ m ∈ st_meant w) as Hin by (clear; set_solver).
  split; cbn; try done; rewrite ?Es, ?Hin; try done.
  - split; [by left|done].
  - rewrite si_stopNext0. split; [by right|intros [?|?]; [lia|done]].
  - intros m [->|Hm]%Hin; [by left|by apply si_meant0].
  - intros live Hx. rewrite Hin. split; [|by left]. apply Hpend in Hx as [Hx|Hx]; [|by apply si_aborts0 in Hx as [? ?]].
    destruct (hd_abort (st_handle w)) as [l|] eqn:El; [injection Hx as ->; by apply si_abort0|by rewrite si_cancel0 in Hx].
  - intros ctx Hx. rewrite Hin. split; [|by left]. apply Hpend in Hx as [Hx|Hx]; [|by apply si_cancels0 in Hx as [? ?]].
    destruct (hd_abort (st_handle w)) as [l|] eqn:El; [done|]. rewrite si_cancel0 in Hx. by injection Hx.
  - intros live [? ?]%si_aborted0. rewrite Hin. split; [done|by right].
  - intros ctx [? ?]%si_canceled0. rewrite Hin. split; [done|by right].
  - intros Hp _. right. exists k. rewrite lookup_insert_eq. rewrite si_attached0; [done|]. by destruct Hp as [-> | ->].
  - intros Hl. destruct (si_left0 Hl) as (_ & ? & _). congruence.
  - intros c next Hp. destruct (si_taken0 _ _ Hp). congruence.
Qed.

Lemma called_inv k call w : stop_inv w -> st_calls w !! k = Some call -> stop_inv (made call (w <| st_calls := <[k := NoCall]> (st_calls w) |>)).
Proof.
  intros Hi Hk. set (w1 := w <| st_calls := <[k := NoCall]> (st_calls w) |>).
  assert (forall call', pending w call' -> call' = call \/ (exists j, <[k := NoCall]> (st_calls w) !! j = Some call') \/ st_place w = HookCalls call') as Hkeep.
  { intros call' [[j Hj]|Hp]; [|by right; right]. destruct (decide (j = k)) as [->|Hj']; [left; congruence|]. right. left. exists j. by rewrite lookup_insert_ne. }
  assert (in_flight (st_place w) = true -> st_run w ∈ st_aborted w \/ call = CallAbort (st_run w) -> st_run w ∈ st_aborted (made call w1)) as Hreach by exact (made_reaches call w1).
  rewrite (made_eq call w1).
  apply (effects_inv w (<[k := NoCall]> (st_calls w)) (st_aborted (made call w1)) (st_canceled (made call w1)) (st_place w) Hi); [by left|..].
  - intros j call' [[_ <-]|[_ Hj]]%lookup_insert_Some; [by left|right; left; by exists j].
  - intros x [Hx| ->]%made_aborted; [by left|right; left; by exists k].
  - intros x [Hx| ->]%made_canceled; [by left|right; left; by exists k].
  - intros Hp Hm. assert (in_flight (st_place w) = true) as Hf by (by destruct Hp as [-> | ->]).
    destruct (si_reached _ Hi Hp Hm) as [Ha|[j Hj]]; [left; apply Hreach; auto|].
    destruct (decide (j = k)) as [->|Hne]; [left; apply Hreach; [done|right; congruence]|right; exists j; by rewrite lookup_insert_ne].
Qed.

Lemma hook_inv call w : stop_inv w -> st_place w = HookCalls call -> stop_inv (go_to Flying (made call w)).
Proof.
  intros Hi Hp. rewrite (made_eq call w).
  apply (effects_inv w (st_calls w) (st_aborted (made call w)) (st_canceled (made call w)) Flying Hi); [right; by exists call|..].
  - intros k call' Hk. right. left. by exists k.
  - intros x [Hx| ->]%made_aborted; [by left|by right; right].
  - intros x [Hx| ->]%made_canceled; [by left|by right; right].
  - intros _ Hm. assert (in_flight (st_place w) = true) as Hf by by rewrite Hp.
    destruct call as [|live|ctx].
    + destruct (si_reached _ Hi (or_intror Hp) Hm) as [Ha|Hk]; [left; by apply made_reaches; [|left]|by right].
    + left. apply made_reaches; [done|]. right. f_equal. by destruct (si_aborts _ Hi live (or_intror Hp)).
    + by destruct (si_hook _ Hi ctx).
Qed.

Lemma withdrawn_left w h p : stop_inv w -> st_place w <> Withdrawn -> hd_next h = hd_next (st_handle w) -> hd_next h <> [] ->
  p = Withdrawn /\ hd_settled h = true /\ st_run w ∉ st_meant w.
Proof. intros Hi Hw -> Hl. by destruct (si_left _ Hi Hl). Qed.

(** The next Run of a handle that was not stopped. *)
Lemma rearmed_inv c next w : stop_inv w -> st_place w = Taken (c :: next) ->
  stop_inv (go_to Opening (w <| st_handle := rearm 1 (st_handle w) |> <| st_run := S (st_run w) |>)).
Proof.
  intros [] Hp. destruct (si_taken0 _ _ Hp) as [Hs Hn].
  assert (forall call, pending w call -> call = NoCall) as Hnone.
  { intros [|live|ctx] Hc; [done|by apply si_aborts0 in Hc as [_ ?]|by apply si_cancels0 in Hc as [_ ?]]. }
  assert (forall call, pending (go_to Opening (w <| st_handle := rearm 1 (st_handle w) |> <| st_run := S (st_run w) |>)) call -> call = NoCall) as Hnone'.
  { intros call [Hk|Hq]; [apply Hnone; by left|done]. }
  split; cbn; try done.
  - split; [done|]. intros [Hm|Hm]%si_meant0; lia.
  - intros m Hm. destruct (si_meant0 m Hm) as [-> | ->]; [done|by left].
  - by intros live ?%Hnone'.
  - by intros ctx ?%Hnone'.
  - by intros live [_ ?]%si_aborted0.
  - by intros ctx [_ ?]%si_canceled0.
  - by intros [].
  - intros Hl. destruct (si_left0 Hl) as [Hw _]. by rewrite Hp in Hw.
Qed.

Lemma handle_inv w h : stop_inv w -> stop_part h = stop_part (st_handle w) -> hd_next h = hd_next (st_handle w) ->
  stop_inv (w <| st_handle := h |>).
Proof.
  intros Hi Hh Hn. replace (w <| st_handle := h |>) with (go_to (st_place w) (w <| st_handle := h |>)) by done.
  apply place_inv; try done; rewrite ?Hn; injection Hh as E1 E2 E3 E4 E5; rewrite ?E1, ?E4.
  - apply Hi.
  - apply Hi.
  - intros call Hp. destruct call as [|live|ctx]; [by left|right|by destruct (si_hook _ Hi ctx)].
    by destruct (si_aborts _ Hi live (or_intror Hp)) as [-> ?].
  - apply Hi.
  - apply Hi.
  - apply Hi.
Qed.

Lemma place_only_inv w p : stop_inv w -> (unsettled_at p = true -> unsettled_at (st_place w) = true) -> p <> Marked ->
  (has_abort p = true -> has_abort (st_place w) = true) ->
  (forall call, p = HookCalls call -> call = abortIfStopped (st_handle w) /\ has_abort (st_place w) = true) ->
  p <> Flying -> (forall next, p <> Taken next) -> hd_next (st_handle w) = [] ->
  stop_inv (go_to p w).
Proof.
  intros Hi Hu Hm Ha Hc Hf Ht Hn. replace (go_to p w) with (go_to p (w <| st_handle := st_handle w |>)) by by destruct w.
  assert (forall call, p = HookCalls call -> st_run w ∈ st_meant w -> call = CallAbort (st_run w)) as Hlook.
  { intros call Hp Hin. destruct (Hc _ Hp) as [-> Hat]. apply (si_stopped _ Hi) in Hin. unfold abortIfStopped. by rewrite Hin, (si_attached _ Hi Hat). }
  apply place_inv; try done.
  - intros Hp. by apply (si_attached _ Hi), Ha.
  - intros call Hp. destruct (Hc _ Hp) as [-> Hat]. unfold abortIfStopped. rewrite (si_attached _ Hi Hat).
    destruct (hd_stopped (st_handle w)) eqn:Es; [right; split; [done|by apply (si_stopped _ Hi)]|by left].
  - intros [Hp|Hp] Hin; [done|]. by apply Hlook in Hp.
  - by intros c next ?%Ht.
Qed.

(** Before the Run is withdrawn its handle keeps no leftovers. *)
Lemma nothing_left w : stop_inv w -> st_place w <> Withdrawn -> hd_next (st_handle w) = [].
Proof. intros Hi Hw. destruct (hd_next (st_handle w)) eqn:E; [done|]. destruct (si_left _ Hi) as [? _]; [by rewrite E|done]. Qed.

Lemma detached_inv queued other fresh w : stop_inv w -> st_place w = Marked ->
  stop_inv (go_to Withdrawn (w <| st_handle := (detachLive queued (fun _ => may_follow other w) fresh (st_handle w)).1.1 |>)).
Proof.
  intros Hi Hp. pose proof (nothing_left w Hi) as Hn. rewrite Hp in Hn. specialize (Hn ltac:(done)).
  destruct (detachLive_part queued (fun _ => may_follow other w) fresh (st_handle w)) as [Hpart Hnext].
  assert (hd_settled (st_handle w) = true) as Hs by by apply (si_marked _ Hi).
  apply place_inv; try done.
  - by intros [].
  - intros Hl. split; [done|]. split; [by injection Hpart as _ _ _ -> _|]. destruct Hnext as [Hnext|[_ Hf]]; [by rewrite Hnext, Hn in Hl|].
    intros Hin%(si_stopped _ Hi). unfold may_follow, isStopped in Hf. rewrite Hin in Hf. by destruct other.
Qed.

Lemma taken_inv h next w : stop_inv w -> st_place w = Withdrawn -> takeNext (st_handle w) = (h, next) ->
  stop_inv (go_to (Taken next) (w <| st_handle := h |>)).
Proof.
  intros Hi Hp [= <- <-]. apply place_inv; try done.
  - by intros [].
  - intros c next Hl. injection Hl as Hl. by destruct (si_left _ Hi) as (_ & ? & ?); [rewrite Hl|].
Qed.

Lemma attached_inv w : stop_inv w -> st_place w = Opening ->
  stop_inv (go_to HasAbort (w <| st_handle := attachAbort (st_run w) (st_handle w) |>)).
Proof.
  intros Hi Hp. pose proof (nothing_left w Hi) as Hn. rewrite Hp in Hn. specialize (Hn ltac:(done)). destruct Hi.
  assert (forall call, pending (go_to HasAbort (w <| st_handle := attachAbort (st_run w) (st_handle w) |>)) call -> pending w call) as Hpend.
  { intros call [Hk|Hq]; [by left|done]. }
  split; cbn; try done.
  - intros _. apply si_settled0. by rewrite Hp.
  - by intros live [= <-].
  - by intros live ?%Hpend%si_aborts0.
  - by intros ctx ?%Hpend%si_cancels0.
  - by intros [].
Qed.

Lemma marked_inv w : stop_inv w -> st_place w = Landed -> stop_inv (go_to Marked (w <| st_handle := markSettled (st_handle w) |>)).
Proof.
  intros Hi Hp. pose proof (nothing_left w Hi) as Hn. rewrite Hp in Hn. specialize (Hn ltac:(done)). destruct Hi.
  assert (forall call, pending (go_to Marked (w <| st_handle := markSettled (st_handle w) |>)) call -> pending w call) as Hpend.
  { intros call [Hk|Hq]; [by left|done]. }
  split; cbn; try done.
  - by intros live ?%Hpend%si_aborts0.
  - by intros ctx ?%Hpend%si_cancels0.
  - by intros [].
Qed.

Lemma stop_step_inv w w' : stop_step w w' -> stop_inv w -> stop_inv w'.
Proof.
  intros Hs Hi. destruct Hs as [w|k runID w Hk|k w Hk|k call w Hk|w Hp|w Hp|w Hp|w Hp|w Hp|runID w Hp|w Hp|call w Hp|w Hp|w Hp|queued other fresh w Hp|h next w Hp Ht|c next w Hp|w Hp];
    try (assert (hd_next (st_handle w) = []) as Hn by (apply nothing_left; [done|by rewrite Hp])).
  - by apply handle_inv.
  - destruct Hi. by split.
  - by apply asked_inv.
  - by apply called_inv.
  - by apply place_only_inv.
  - by apply attached_inv.
  - destruct (attachLive_part (st_run w) (st_handle w)) as [Hpart Hnext]. apply place_inv; try done; cbn.
    + by rewrite Hp.
    + intros _. injection Hpart as -> _ _ _ _. apply (si_attached _ Hi). by rewrite Hp.
    + by intros [].
    + by rewrite Hnext, Hn.
  - apply place_only_inv; try done; by rewrite Hp.
  - apply place_only_inv; try done; by rewrite Hp.
  - apply handle_inv; [done|..]; unfold attachRunID; by destruct (String.eqb _ _).
  - apply place_only_inv; try done; rewrite Hp; [done..|]. by intros call [= <-].
  - by apply hook_inv.
  - apply place_only_inv; try done; by rewrite Hp.
  - by apply marked_inv.
  - by apply detached_inv.
  - by apply taken_inv.
  - by eapply rearmed_inv.
  - destruct (unregister_part (st_handle w)) as [Hpart Hnext]. apply place_inv; try done; [by intros []|by rewrite Hnext, Hn].
Qed.

Lemma stop_reach_inv sessionID wait w : stop_reach sessionID wait w -> stop_inv w.
Proof.
  intros Hr. pose proof (start_stop_inv sessionID wait) as H0. unfold stop_reach in Hr.
  induction Hr as [|w0 w1 w2 Hs _ IH]; [done|]. by eapply IH, stop_step_inv.
Qed.

(** Who chose the handle did so for a Run that it was at. *)
Lemma looks_step w w' k n : stop_step w w' -> (st_looks w !! k = Some n -> n <= st_run w) -> st_looks w' !! k = Some n -> n <= st_run w'.
Proof.
  intros Hs Hold. destruct Hs as [| | |j call w Hj| | | | | | | |call w Hp| | | | | | ]; cbn; auto.
  - intros [[_ <-]|[_ Hk]]%lookup_insert_Some; [done|by apply Hold].
  - intros [_ Hk]%lookup_delete_Some. by apply Hold.
  - rewrite made_eq. exact Hold.
  - rewrite made_eq. exact Hold.
Qed.

Lemma looks_reach sessionID wait w k n : stop_reach sessionID wait w -> st_looks w !! k = Some n -> n <= st_run w.
Proof.
  intros Hr. assert (st_looks (start_stopping sessionID wait) !! k = Some n -> n <= st_run (start_stopping sessionID wait)) as H0 by done.
  unfold stop_reach in Hr. induction Hr as [|w0 w1 w2 Hs _ IH]; [done|]. apply IH. by apply (looks_step w0).
Qed.


(** A stop that came while the handle had no Abort yet, and then one while the Run was settled. *)
Definition stopped_early : stopping :=
  let w := start_stopping "s1" false in
  let w := asked 0 w in
  let w := go_to HasAbort (w <| st_handle := attachAbort 0 (st_handle w) |>) in
  let w := go_to Attached (w <| st_handle := (attachLive 0 (st_handle w)).1 |>) in
  let w := go_to InHook w in
  let w := go_to (HookCalls (abortIfStopped (st_handle w))) w in
  let w := go_to Flying (made (CallAbort 0) w) in
  made (CallCancel 0) (w <| st_calls := <[0 := NoCall]> (st_calls w) |>).

Lemma stopped_early_reached : stop_reach "s1" false stopped_early.
Proof.
  unfold stop_reach, stopped_early. cbv zeta.
  eapply rtc_l; [by apply (stop_asked 0)|]. eapply rtc_l; [by apply run_attaches|]. eapply rtc_l; [by apply run_lives|].
  eapply rtc_l; [by apply run_begins|]. eapply rtc_l; [by apply run_looks|]. eapply rtc_l; [by apply (run_aborts (CallAbort 0))|].
  eapply rtc_once, stop_called. vm_compute. reflexivity.
Qed.


(** A stop while the Run is settled is kept for the Run that follows, which its hook then aborts. *)
Example late_stop_is_kept :
  let h := (stop (markSettled (attachAbort 0 (newHandle "s1" 0 false 0)))).1 in
  (hd_stopped h, hd_stopNext h, hd_stopped (rearm 1 h), abortIfStopped (attachAbort 1 (rearm 1 h))) = (false, true, true, CallAbort 1).
Proof. reflexivity. Qed.

(** A call that names Run 0 chooses its handle; the Run settles, with a message left, and Run 1 follows;
    the call then stops Run 1, which nobody named. *)
Definition steer_left : control := MkControl 0 (message_zero <| m_ID := "m1" |>) MessageSourceSteer kindSteer 1.

Definition named_too_late : stopping :=
  let w := start_stopping "s1" false in
  let w := go_to HasAbort (w <| st_handle := attachAbort 0 (st_handle w) |>) in
  let w := go_to Attached (w <| st_handle := (attachLive 0 (st_handle w)).1 |>) in
  let w := go_to InHook w in
  let w := w <| st_handle := attachRunID "run-0" (st_handle w) |> in
  let w := w <| st_looks := <[7 := st_run w]> (st_looks w) |> in
  let w := go_to (HookCalls NoCall) w in
  let w := go_to Flying w in
  let w := go_to Landed w in
  let w := go_to Marked (w <| st_handle := markSettled (st_handle w) |>) in
  let w := go_to Withdrawn (w <| st_handle := (detachLive [steer_left] (fun _ => true) 3 (st_handle w)).1.1 |>) in
  let w := go_to (Taken [steer_left]) (w <| st_handle := (takeNext (st_handle w)).1 |>) in
  let w := go_to Opening (w <| st_handle := rearm 1 (st_handle w) |> <| st_run := 1 |>) in
  let w := go_to HasAbort (w <| st_handle := attachAbort 1 (st_handle w) |>) in
  let w := go_to Attached (w <| st_handle := (attachLive 1 (st_handle w)).1 |>) in
  let w := go_to InHook w in
  asked 7 w.

Definition next_run_stopped : stopping := made (CallAbort 1) (named_too_late <| st_calls := <[7 := NoCall]> (st_calls named_too_late) |>).

Example named_stop_reaches_the_next :
  stop_reach "s1" false next_run_stopped /\ st_aborted next_run_stopped = {[1]} /\ st_run next_run_stopped = 1.
Proof.
  split; [|by split].
  unfold stop_reach, next_run_stopped, named_too_late. cbv zeta.
  eapply rtc_l; [by apply run_attaches|]. eapply rtc_l; [by apply run_lives|]. eapply rtc_l; [by apply run_begins|].
  eapply rtc_l; [by apply (run_named "run-0")|]. eapply rtc_l; [by apply (stop_looks 7 "run-0")|]. eapply rtc_l; [by apply run_looks|].
  eapply rtc_l; [by apply (run_aborts NoCall)|]. eapply rtc_l; [by apply run_lands|]. eapply rtc_l; [by apply run_marks|].
  eapply rtc_l; [by apply (run_detaches [steer_left] false 3)|]. eapply rtc_l; [by eapply run_takes|].
  eapply rtc_l; [by apply (run_rearms steer_left [])|]. eapply rtc_l; [by apply run_attaches|]. eapply rtc_l; [by apply run_lives|].
  eapply rtc_l; [by apply run_begins|]. eapply rtc_l; [by apply (stop_asked 7)|]. apply rtc_once. by apply stop_called.
Qed.
