(* ===== verification/FollowOn.v ===== *)
(** * The Runs that follow one another

    [detach], [dropReason] of [host/runend.go], [startRun], [dropFollow], [dropUntakenFollow] of [serve.go],
    [followon.go], and [send] of [runhandle.go]: what becomes of a message that a Run took, when the Run ends.  The live
    Sessions are those of [ControlMessages]: each goes its own way, and the goroutine of the host
    moves what they leave from one to the next. *)

From S2P Require Import Prelude Types Events ControlQueue ControlMessages RunHandle.
Local Open Scope string_scope.
Local Open Scope list_scope.

(** ** Sessions and their host *)

Definition by_host (f : fact) : bool := match f with HandedOver _ | TakenIn _ => true | _ => false end.

(** A step of a Session in which the host takes nothing of it and gives nothing to it. *)
Definition own_step (s s' : messages) : Prop :=
  message_step true s s' /\ filter (fun f => by_host f = true) (mg_facts s') = filter (fun f => by_host f = true) (mg_facts s).

(** The caller has returned. *)
Definition returned (x : sender) : Prop := match x with Answered _ _ => True | _ => False end.

(** Where the goroutine is: it opens the Session, with the messages that a Run left; it puts what waits
    into the live Session; the live Session has the prompt; the Run is over; its live Session is
    withdrawn; its leftovers are taken; the handle is given up. *)
Inductive stage : Type :=
| ToOpen (follow : option (control * list control))
| ToRequeue (kept rest : list control)
| Running
| Settled
| Released
| ToFollow (next : list control)
| Ended.

(** [rl_first] is the prompt of a Run that follows until it is committed, [rl_kept] are the notices
    that wait in the Record, [rl_facts] is what the host reports. *)
Record relay := MkRelay {
  rl_stage : stage;
  rl_session : option messages;
  rl_first : option control;
  rl_next : list control;
  rl_kept : list control;
  rl_old : list messages;
  rl_facts : list fact;
}.
#[export] Instance eta_relay : Eta relay := fun r =>
  MkRelay (rl_stage r) (rl_session r) (rl_first r) (rl_next r) (rl_kept r) (rl_old r) (rl_facts r).

Definition first_admitted : relay := MkRelay (ToOpen None) None None [] [] [] [].

(** [dropQueued]: it looks at no error; [wrote] says which of the writes were taken. *)
Definition dropQueued (wrote : control -> bool) (ms : list control) (why : string) : list fact :=
  (fun c => says (wrote c) (id_of c) (WasDropped (id_of c) why)) <$> ms.

(** [dropFollow]: the Events of [followOn.dropped] go to the Record, or else to the Instance's stream. *)
Definition dropped_follow (follow : option (control * list control)) : list fact :=
  match follow with Some (first, rest) => dropQueued (fun _ => true) (first :: rest) "run_failed" | None => [] end.

(** [dropUntakenFollow] of a Run that did not commit its prompt. *)
Definition dropped_first (wrote : control -> bool) (first : option control) : list fact :=
  match first with Some c => dropQueued wrote [c] "run_failed" | None => [] end.

(** A notice of Gotato's own, which [detach] drops. *)
Definition of_gotato (c : control) : bool :=
  match m_Notice (ct_message c) with Some notice => String.eqb (ni_Source notice) NoticeSourceGotato | None => false end.

(** [dropReason]: whether the Run is saved, its Writer failed, the Instance is draining, and the Run
    was stopped or its context is over. *)
Definition dropReason (saved failed draining stopped : bool) : option string :=
  if negb saved then Some "run_ended"
  else if failed then Some "writer_failed"
  else if draining then Some "draining"
  else if stopped then Some "run_ended"
  else None.

(** [detach]: what the queues [out] of a settled Run become; [why] is the [dropReason]. *)
Definition detach (wrote : control -> bool) (out : list control) (why : option string) (r : relay) : relay :=
  let (notices, left) := splitNotices out in
  let r := match why with
           | None => r <| rl_next := left |>
           | Some why => r <| rl_facts := rl_facts r ++ dropQueued wrote left why |>
           end in
  r <| rl_facts := rl_facts r ++ dropQueued wrote (filter (fun c => of_gotato c = true) notices) "run_ended" |>
    <| rl_kept := rl_kept r ++ filter (fun c => of_gotato c = false) notices |>.

(** The steps.  [relay_own] and [relay_unloads] are those of the live Session and of those that are
    withdrawn: a caller reaches the live one only, and holds it while it calls ([liveMu]), so none
    calls while it is withdrawn.  A Writer that failed writes nothing more, so what [detach] drops then
    is reported nowhere ([relay_detaches]).  [relay_again] is the next admitted Run of the Session. *)
Inductive relay_step : relay -> relay -> Prop :=
| relay_fails follow r : rl_stage r = ToOpen follow ->
    relay_step r (r <| rl_stage := Released |> <| rl_facts := rl_facts r ++ dropped_follow follow |>)
| relay_builds steer followUp notice follow r : rl_stage r = ToOpen follow ->
    relay_step r (r <| rl_stage := ToRequeue (rl_kept r) (match follow with Some (_, rest) => rest | None => [] end) |>
                    <| rl_session := Some (message_start steer followUp notice) |> <| rl_kept := [] |>
                    <| rl_first := fst <$> follow |>)
| relay_requeues kept rest m kept' rest' s s' r : rl_stage r = ToRequeue kept rest -> rl_session r = Some s ->
    (kept = m :: kept' /\ rest' = rest \/ kept = [] /\ kept' = [] /\ rest = m :: rest') ->
    (cq_seq (mg_queue s) + 1 < two64)%N -> requeue_one m s = (s', true) ->
    relay_step r (r <| rl_stage := ToRequeue kept' rest' |> <| rl_session := Some (report (TakenIn (id_of m)) s') |>)
| relay_no_room wrote kept rest m kept' rest' s s' r : rl_stage r = ToRequeue kept rest -> rl_session r = Some s ->
    (kept = m :: kept' /\ rest' = rest \/ kept = [] /\ kept' = [] /\ rest = m :: rest') -> requeue_one m s = (s', false) ->
    relay_step r (r <| rl_stage := ToRequeue kept' rest' |> <| rl_session := Some s' |> <| rl_facts := rl_facts r ++ dropQueued wrote [m] "queue_full" |>)
| relay_attaches r : rl_stage r = ToRequeue [] [] -> relay_step r (r <| rl_stage := Running |>)
| relay_own s s' r : rl_session r = Some s -> own_step s s' -> mg_closing s' = mg_closing s ->
    (rl_stage r <> Running -> mg_phase s' = NoRun) ->
    relay_step r (r <| rl_session := Some s' |>)
| relay_commits c wrote r : rl_stage r = Running -> rl_first r = Some c ->
    relay_step r (r <| rl_first := None |> <| rl_facts := rl_facts r ++ [says wrote (id_of c) (WasCommitted (id_of c))] |>)
| relay_settles wrote (completed : bool) s r : rl_stage r = Running -> rl_session r = Some s -> mg_phase s = NoRun ->
    (completed = true -> rl_first r = None) ->
    relay_step r (r <| rl_stage := Settled |> <| rl_first := None |> <| rl_facts := rl_facts r ++ dropped_first wrote (rl_first r) |>)
| relay_detaches wrote saved failed draining stopped s q out r : rl_stage r = Settled -> rl_session r = Some s -> mg_phase s = NoRun ->
    (forall k x, mg_senders s !! k = Some x -> returned x) -> drain true (mg_queue s) = (q, out) ->
    (saved = true -> failed = true -> forall c, wrote c = false) ->
    relay_step r (detach wrote out (dropReason saved failed draining stopped)
      (r <| rl_stage := Released |> <| rl_session := None |>
         <| rl_old := (s <| mg_queue := q |> <| mg_facts := mg_facts s ++ (HandedOver ∘ id_of <$> out) |>) :: rl_old r |>))
| relay_takes r : rl_stage r = Released -> relay_step r (r <| rl_stage := ToFollow (rl_next r) |> <| rl_next := [] |>)
| relay_follows c rest r : rl_stage r = ToFollow (c :: rest) -> relay_step r (r <| rl_stage := ToOpen (Some (c, rest)) |>)
| relay_ends r : rl_stage r = ToFollow [] -> relay_step r (r <| rl_stage := Ended |>)
| relay_again r : rl_stage r = Ended -> relay_step r (r <| rl_stage := ToOpen None |>)
| relay_notice c r : rl_stage r = Ended -> is_notice c = true ->
    relay_step r (r <| rl_kept := rl_kept r ++ [c] |> <| rl_facts := rl_facts r ++ [Told (id_of c)] |>)
| relay_unloads older s s' newer r : rl_old r = older ++ s :: newer -> own_step s s' ->
    dom (mg_senders s') = dom (mg_senders s) -> relay_step r (r <| rl_old := older ++ s' :: newer |>).

Definition relay_reach (r : relay) : Prop := rtc relay_step first_admitted r.

(** ** Counting *)

Definition is_told (id : string) (f : fact) : bool := match f with Told i => String.eqb i id | _ => false end.
Definition is_ended (id : string) (f : fact) : bool := match f with WasCommitted i | WasDropped i _ | Unwritten i => String.eqb i id | _ => false end.
Definition is_reported (id : string) (f : fact) : bool := match f with WasCommitted i | WasDropped i _ => String.eqb i id | _ => false end.
Definition is_handed (id : string) (f : fact) : bool := match f with HandedOver i => String.eqb i id | _ => false end.
Definition is_taken (id : string) (f : fact) : bool := match f with TakenIn i => String.eqb i id | _ => false end.

(** What a Session still has of a message: in its queue, with its Run, with its end, or in the hands of
    a caller. *)
Definition waits (id : string) (s : messages) : nat :=
  copies id (cq_items (mg_queue s)) + copies id (run_holds (mg_phase s)) + copies id (unloads (mg_service s)) + hands id (mg_senders s).

Definition of_session (f : messages -> nat) (r : relay) : nat := match rl_session r with Some s => f s | None => 0 end.
Definition over_sessions (f : messages -> nat) (r : relay) : nat := sum_list_with f (rl_old r) + of_session f r.

Definition in_stage (id : string) (g : stage) : nat :=
  match g with
  | ToOpen (Some (first, rest)) => copies id (first :: rest)
  | ToRequeue kept rest => copies id kept + copies id rest
  | ToFollow next => copies id next
  | _ => 0
  end.

(** What the host has of a message. *)
Definition host_has (id : string) (r : relay) : nat :=
  in_stage id (rl_stage r) + copies id (from_option (fun c => [c]) [] (rl_first r)) + copies id (rl_next r) + copies id (rl_kept r).

(** How often a message was reported queued; how often it ended, reported committed or dropped, or with
    a report that was lost. *)
Definition told (id : string) (r : relay) : nat := over_sessions (tally (is_told id) ∘ mg_facts) r + tally (is_told id) (rl_facts r).
Definition ended (id : string) (r : relay) : nat := over_sessions (tally (is_ended id) ∘ mg_facts) r + tally (is_ended id) (rl_facts r).

Definition reported (id : string) (r : relay) : nat := over_sessions (tally (is_reported id) ∘ mg_facts) r + tally (is_reported id) (rl_facts r).
Definition unreported (id : string) (r : relay) : nat := over_sessions (tally (unseen id) ∘ mg_facts) r + tally (unseen id) (rl_facts r).

#[local] Arguments dropQueued : simpl never.
#[local] Arguments copies : simpl never.
#[local] Arguments tally : simpl never.
#[local] Arguments hands : simpl never.

(** A sum of two is the two sums, for the predicates of a fact that exclude one another. *)
Lemma tally_sum (p q t : fact -> bool) l : (forall f, b2n (p f) = (b2n (q f) + b2n (t f))%nat) -> tally p l = (tally q l + tally t l)%nat.
Proof.
  intros Hf. induction l as [|f l IH]; [done|]. change (f :: l) with ([f] ++ l). rewrite !tally_app, !tally_one, IH.
  specialize (Hf f). destruct (p f), (q f), (t f); cbn in *; lia.
Qed.

Lemma comes_in_told id l : tally (comes_in id) l = (tally (is_told id) l + tally (is_taken id) l)%nat.
Proof. apply tally_sum. intros []; cbn; try lia; destruct (String.eqb _ _); done. Qed.

Lemma goes_out_ended id l : tally (goes_out id) l = (tally (is_ended id) l + tally (is_handed id) l)%nat.
Proof. apply tally_sum. intros []; cbn; try lia; destruct (String.eqb _ _); done. Qed.

Lemma tally_nil (p : fact -> bool) : tally p [] = 0%nat.
Proof. done. Qed.

(** What the host does is seen in the facts that are its own. *)
Lemma tally_by_host (p : fact -> bool) l k : (forall f, p f = true -> by_host f = true) ->
  filter (fun f => by_host f = true) l = filter (fun f => by_host f = true) k -> tally p l = tally p k.
Proof.
  intros Hp E. assert (forall l, tally p l = tally p (filter (fun f => by_host f = true) l)) as Hf; [|by rewrite (Hf l), (Hf k), E].
  intros l0. induction l0 as [|f l0 IH]; [done|]. rewrite filter_cons. change (f :: ?l) with ([f] ++ l). case_decide as Hb.
  - by rewrite !tally_app, IH.
  - rewrite tally_app, tally_one, IH. destruct (p f) eqn:E'; [by destruct Hb; apply Hp|done].
Qed.

Lemma own_step_host id s s' : own_step s s' ->
  tally (is_handed id) (mg_facts s') = tally (is_handed id) (mg_facts s) /\ tally (is_taken id) (mg_facts s') = tally (is_taken id) (mg_facts s).
Proof. intros [_ E]. split; (eapply tally_by_host; [|exact E]); by intros []. Qed.

Lemma dropped_tally wrote id ms why : tally (is_ended id) (dropQueued wrote ms why) = copies id ms /\ tally (is_told id) (dropQueued wrote ms why) = 0%nat.
Proof.
  unfold dropQueued. induction ms as [|c ms [IH1 IH2]]; [done|]. rewrite fmap_cons, copies_cons. change (?x :: ?y) with ([x] ++ y).
  rewrite !tally_app, !tally_one, IH1, IH2. by destruct (wrote c).
Qed.

(** Of messages that no write reports, nothing is reported. *)
Lemma unwritten_tally wrote id ms why : (forall c, wrote c = false) ->
  tally (is_reported id) (dropQueued wrote ms why) = 0%nat /\ tally (unseen id) (dropQueued wrote ms why) = copies id ms.
Proof.
  intros Hw. unfold dropQueued. induction ms as [|c ms [IH1 IH2]]; [done|]. rewrite fmap_cons, copies_cons. change (?x :: ?y) with ([x] ++ y).
  rewrite !tally_app, !tally_one, IH1, IH2, Hw. done.
Qed.

Lemma handed_tally id l : tally (is_handed id) (HandedOver ∘ id_of <$> l) = copies id l /\ tally (is_taken id) (HandedOver ∘ id_of <$> l) = 0%nat.
Proof.
  induction l as [|c l [IH1 IH2]]; [done|]. rewrite fmap_cons, copies_cons. change (?x :: ?y) with ([x] ++ y).
  rewrite !tally_app, !tally_one, IH1, IH2. done.
Qed.

Lemma filter_copies id (p : control -> bool) l : (copies id (filter (fun c => p c = true) l) + copies id (filter (fun c => p c = false) l))%nat = copies id l.
Proof.
  induction l as [|c l IH]; [done|]. rewrite !filter_cons, copies_cons. destruct (p c) eqn:E.
  - rewrite decide_True, decide_False by congruence. rewrite copies_cons. lia.
  - rewrite decide_False, decide_True by congruence. rewrite copies_cons. lia.
Qed.

(** ** What a withdrawn Session has *)

(** Nothing waits in it and none is calling. *)
Record quiet (s : messages) : Prop := {
  qt_items : cq_items (mg_queue s) = [];
  qt_run : run_holds (mg_phase s) = [];
  qt_unloads : unloads (mg_service s) = [];
  qt_senders k x : mg_senders s !! k = Some x -> returned x;
}.

Lemma returned_hands id (m : gmap nat sender) : (forall k x, m !! k = Some x -> returned x) -> hands id m = 0%nat.
Proof.
  intros Hr. unfold hands. apply map_size_empty_iff, map_empty. intros k. apply map_lookup_filter_None. right. intros x Hk Hin.
  specialize (Hr k x Hk). by destruct x.
Qed.

Lemma quiet_waits id s : quiet s -> waits id s = 0%nat.
Proof. intros [Hi Hr Hu Hs]. unfold waits. by rewrite Hi, Hr, Hu, (returned_hands id _ Hs). Qed.

Lemma split_nil pick q : cq_items q = [] -> split pick q = (q, []).
Proof. intros E. unfold split. destruct q. cbn in *. by subst. Qed.

Lemma lease_nil pick q l q' : cq_items q = [] -> take_lease pick q = (q', l) -> cq_items q' = [] /\ unsettled l = [].
Proof. intros E. unfold take_lease. rewrite split_nil by done. by intros [= <- <-]. Qed.

Lemma taken_is_the_hosts m s : filter (fun f => by_host f = true) (mg_facts (report (TakenIn (id_of m)) s)) <> filter (fun f => by_host f = true) (mg_facts s).
Proof.
  change (mg_facts (report ?f s)) with (mg_facts s ++ [f]). rewrite list.filter_app. intros E. apply (f_equal length) in E. rewrite length_app, filter_cons, decide_True in E by done. cbn in E. lia.
Qed.

(** A withdrawn Session that nobody calls stays as it is, whatever it does. *)
Lemma quiet_step s s' : quiet s -> own_step s s' -> dom (mg_senders s') = dom (mg_senders s) -> quiet s'.
Proof.
  intros [Hi Hr Hu Hs] [Hst Hown] Hd.
  assert (forall k x, mg_senders s !! k = Some x -> exists c b, x = Answered c b) as Hans.
  { intros k x Hk. specialize (Hs k x Hk). destruct x; [done..|eauto]. }
  destruct Hst as [k c s Hn Hc Hk Hin|k c s Hk|k c q s Hk Hres|k c q s Hk Hres|k c s Hk|k c s Hk|k c s s' outcome Hk Hf Hseq|k c why wrote s Hk|s|s Hp Hv|s Hp|settling q l s Hp Ht|q l s Hp Ht|l c wrote s Hp Hc|l c wrote s Hp Hc|l s Hp|cf s Hp|s Hp Hkeep|q rest s Hp Hkeep Hdr|c rest wrote s Hp|s Hp|q rest s Hp Hv Hc Hdr|c rest wrote s Hv|s Hv|q out s Hp Hdr|m s s' Hseq Hreq];
    try (destruct (Hans _ _ Hk) as (? & ? & ?); done); try (by split); try rewrite Hp in Hr; try rewrite Hv in Hu; cbn in Hr, Hu; try done.
  - exfalso. apply not_elem_of_dom in Hn. apply Hn. rewrite <- Hd. apply elem_of_dom. exists (Checked c). apply lookup_insert_eq.
  - destruct (lease_nil _ _ _ _ Hi Ht) as [H1 H2]. by split.
  - destruct (lease_nil _ _ _ _ Hi Ht) as [H1 H2]. by split.
  - unfold unsettled in Hr. by rewrite (drop_S _ _ _ Hc) in Hr.
  - unfold unsettled in Hr. by rewrite (drop_S _ _ _ Hc) in Hr.
  - split; cbn; [|done|done|done]. unfold putBack. by rewrite Hr.
  - unfold drain in Hdr. rewrite split_nil in Hdr by done. injection Hdr as <- <-. split; cbn; done.
  - unfold seal in Hdr. rewrite split_nil in Hdr by done. injection Hdr as <- <-. split; cbn; rewrite ?Hp; done.
  - unfold drain in Hdr. rewrite split_nil in Hdr by done. injection Hdr as <- <-. split; cbn; rewrite ?Hp; done.
  - destruct (requeue_copies "" m s s' true Hreq) as (q & -> & _). by destruct (taken_is_the_hosts m (s <| mg_queue := q |>)).
Qed.

(** ** The invariant *)

Record relay_inv (r : relay) : Prop := {
  rv_sessions s : rl_session r = Some s -> message_inv s;
  rv_old : Forall (fun s => message_inv s /\ quiet s) (rl_old r);
  rv_host id : (over_sessions (tally (is_handed id) ∘ mg_facts) r + tally (is_told id) (rl_facts r) =
    over_sessions (tally (is_taken id) ∘ mg_facts) r + host_has id r + tally (is_ended id) (rl_facts r))%nat;
  rv_none : match rl_stage r with ToRequeue _ _ | Running | Settled => is_Some (rl_session r) | _ => rl_session r = None end;
  rv_first : match rl_stage r with ToRequeue _ _ | Running => True | _ => rl_first r = None end;
  rv_next : match rl_stage r with Released => True | _ => rl_next r = [] end;
  rv_kept : Forall (fun c => is_notice c = true) (rl_kept r);
  rv_open : match rl_session r with Some s => mg_closing s = false /\ mg_service s = Serving | None => True end;
}.

Lemma first_inv : relay_inv first_admitted.
Proof. split; cbn; done. Qed.

Lemma fill_place_queue c s s' outcome : fill_place c s = (s', outcome) -> exists q, s' = s <| mg_queue := q |>.
Proof.
  unfold fill_place, fillControl. destruct (is_notice c); [|destruct (controlGate _ s)];
    try (destruct (fill c (mg_queue s)) as [q put]); intros [= <- _]; eauto.
Qed.

(** A Session that is not closed is served. *)
Lemma serving_step s s' : message_step true s s' -> mg_service s = Serving -> mg_closing s = false -> mg_service s' = Serving.
Proof.
  intros Hs Hv Hc. destruct Hs as [| | | | | |k c s s' outcome Hk Hf| | | | | | | | | | | | | | |q rest s Hp _ Hcl _|c rest s Hu|s Hu| |m s s' Hseq Hreq]; cbn; try done; try congruence.
  - by destruct (fill_place_queue _ _ _ _ Hf) as (q & ->).
  - by destruct (requeue_copies "" m s s' true Hreq) as (q & -> & _).
Qed.

Lemma own_open s s' : own_step s s' -> mg_closing s' = mg_closing s -> mg_closing s = false /\ mg_service s = Serving ->
  mg_closing s' = false /\ mg_service s' = Serving.
Proof. intros [Hs _] Hc [Hf Hv]. split; [congruence|by eapply serving_step]. Qed.

Lemma sum_app (f : messages -> nat) a b : sum_list_with f (a ++ b) = (sum_list_with f a + sum_list_with f b)%nat.
Proof. apply sum_list_with_app. Qed.

(** The account of a step, of what it says of the Sessions and of the host. *)
Ltac account :=
  unfold over_sessions, of_session, host_has in *; cbn in *;
  rewrite ?tally_app, ?tally_one, ?tally_nil, ?sum_app, ?copies_app, ?copies_cons, ?copies_nil in *; cbn in *.

Lemma requeue_refused m s s' : requeue_one m s = (s', false) -> s' = s.
Proof.
  unfold requeue_one. destruct (gate_open s).
  - destruct (add (requeued m) (mg_queue s)) as [q put] eqn:E. pose proof (add_copies "" _ _ _ _ E) as (_ & _ & _ & Hq). rewrite andb_true_r.
    destruct (negb put && _) eqn:En.
    + apply andb_true_iff in En as [En _]. apply negb_true_iff in En as ->. subst q.
      destruct (add _ (mg_queue s)) as [q put] eqn:E2 in |- *. pose proof (add_copies "" _ _ _ _ E2) as (_ & _ & _ & Hq).
      intros [= <- ->]. rewrite Hq. by destruct s.
    + intros [= <- ->]. rewrite Hq. by destruct s.
  - rewrite andb_false_r. intros [= <-]. by destruct s.
Qed.

(** Draining a Session between Runs, while none is calling, leaves nothing in it. *)
Lemma drained_inv s q out : message_inv s -> mg_phase s = NoRun -> mg_service s = Serving ->
  (forall k x, mg_senders s !! k = Some x -> returned x) -> drain true (mg_queue s) = (q, out) ->
  message_inv (s <| mg_queue := q |> <| mg_facts := mg_facts s ++ (HandedOver ∘ id_of <$> out) |>) /\
  quiet (s <| mg_queue := q |> <| mg_facts := mg_facts s ++ (HandedOver ∘ id_of <$> out) |>).
Proof.
  intros Hi Hp Hv Hs Hd. split; [eapply message_step_inv; [by apply (mg_hand_over true)|done]|].
  split; cbn; rewrite ?Hp, ?Hv; try done. unfold drain, split in Hd. injection Hd as <- _. cbn. apply filter_none. by apply list.Forall_forall.
Qed.

Lemma detached_account wrote s q out why r : relay_inv r -> rl_stage r = Settled -> rl_session r = Some s -> mg_phase s = NoRun ->
  (forall k x, mg_senders s !! k = Some x -> returned x) -> drain true (mg_queue s) = (q, out) ->
  relay_inv (detach wrote out why
      (r <| rl_stage := Released |> <| rl_session := None |>
         <| rl_old := (s <| mg_queue := q |> <| mg_facts := mg_facts s ++ (HandedOver ∘ id_of <$> out) |>) :: rl_old r |>)).
Proof.
  intros [Hv Hold Hh Hnone Hfirst Hnext Hkept Hopen] Hg Hse Hp Hret Hdr. rewrite Hse in Hopen. destruct Hopen as [_ Hserve].
  destruct (drained_inv s q out) as [Hm Hq]; [by apply Hv|done..|]. destruct r as [g se f nx kp old fs]. cbn in *. subst. cbn in *. subst.
  unfold detach, splitNotices. set (notices := filter (fun c => is_notice c = true) out). set (left := filter (fun c => is_notice c = false) out).
  assert (Forall (fun c => is_notice c = true) notices) as Hnot.
  { apply list.Forall_forall. by intros c [? _]%list_elem_of_filter. }
  assert (forall id, copies id notices + copies id left = copies id out)%nat as Hcount.
  { intros id. apply filter_copies. }
  clearbody notices left.
  split; cbn; try done; try (by destruct why).
  - destruct why; cbn; constructor; done.
  - intros id. specialize (Hh id). specialize (Hcount id). pose proof (filter_copies id of_gotato notices) as Hgot.
    destruct (handed_tally id out) as [H1 H2]. destruct why as [why|]; account.
    + destruct (dropped_tally wrote id left why) as [-> ->]. destruct (dropped_tally wrote id (filter (fun c => of_gotato c = true) notices) "run_ended") as [-> ->].
      rewrite H1, H2. lia.
    + destruct (dropped_tally wrote id (filter (fun c => of_gotato c = true) notices) "run_ended") as [-> ->]. rewrite H1, H2. lia.
  - destruct why; cbn; apply list.Forall_app; split; try done; apply list.Forall_forall;
      intros c [_ Hc]%list_elem_of_filter; rewrite list.Forall_forall in Hnot; by apply Hnot.
Qed.

Lemma relay_step_inv r r' : relay_step r r' -> relay_inv r -> relay_inv r'.
Proof.
  intros Hs Hi. destruct Hs as [follow r Hg|st fu no follow r Hg|kept rest m kept' rest' s s' r Hg Hse Hm Hseq Hreq|wrote kept rest m kept' rest' s s' r Hg Hse Hm Hreq|r Hg|s s' r Hse Hown Hc Hp|c wrote r Hg Hf|wrote completed s r Hg Hse Hp Hcf|wrote saved failed draining stopped s q out r Hg Hse Hp Hret Hdr Hw|r Hg|c rest r Hg|r Hg|r Hg|c r Hg Hn|older s s' newer r Ho Hown Hd];
    destruct Hi as [Hv Hold Hh Hnone Hfirst Hnext Hkept Hopen]; destruct r as [g se f nx kp old fs]; cbn in *; subst; cbn in *.
  - split; cbn; try done. intros id. specialize (Hh id). account.
    destruct follow as [[c rest]|]; rewrite ?tally_nil; cbn in *; [|lia]. destruct (dropped_tally (fun _ => true) id (c :: rest) "run_failed") as [-> ->]. lia.
  - split; cbn; try done; [by intros s [= <-]; apply message_start_inv|]. intros id. specialize (Hh id). account.
    destruct follow as [[c rest]|]; cbn in *; rewrite ?copies_cons, ?copies_nil in *; lia.
  - destruct (requeue_copies "" m s s' true Hreq) as (q & -> & _).
    assert (message_inv (report (TakenIn (id_of m)) (s <| mg_queue := q |>))) as Hnew by (eapply (message_step_inv true); [by apply mg_take_in|by apply Hv]).
    split; cbn; try done; [by intros ? [= <-]|]. intros id. specialize (Hh id). account.
    destruct Hm as [(-> & ->)|(-> & -> & ->)]; rewrite ?copies_cons, ?copies_nil in *; destruct (String.eqb _ _); cbn in *; lia.
  - apply requeue_refused in Hreq as ->. split; cbn; try done. intros id. specialize (Hh id). account. destruct (dropped_tally wrote id [m] "queue_full") as [-> ->].
    rewrite copies_cons, copies_nil. destruct Hm as [(-> & ->)|(-> & -> & ->)]; rewrite ?copies_cons, ?copies_nil in *; lia.
  - by split.
  - assert (message_inv s') as Hnew by (destruct Hown as [Hst _]; eapply message_step_inv; [exact Hst|by apply Hv]).
    split; cbn; try done; try (by intros ? [= <-]); try (by destruct g); try (by apply (own_open s)).
    intros id. specialize (Hh id). destruct (own_step_host id _ _ Hown) as [H1 H2]. account. lia.
  - split; cbn; try done. intros id. specialize (Hh id). account. destruct wrote; cbn in *; destruct (String.eqb _ _); cbn in *; lia.
  - split; cbn; try done. intros id. specialize (Hh id). account. destruct f as [c|]; cbn in *; rewrite ?tally_nil, ?copies_nil in *; [|lia].
    destruct (dropped_tally wrote id [c] "run_failed") as [-> ->]. lia.
  - by apply (detached_account wrote s q out (dropReason saved failed draining stopped)).
  - split; cbn; try done. intros id. specialize (Hh id). account. lia.
  - split; cbn; try done.
  - split; cbn; try done.
  - split; cbn; try done.
  - split; cbn; try done; [|by apply list.Forall_app; split; [|constructor]].
    intros id. specialize (Hh id). account. destruct (String.eqb _ _); cbn in *; lia.
  - apply list.Forall_app in Hold as [Ho1 Ho2]. apply list.Forall_cons in Ho2 as [[Hm Hq] Ho2].
    split; cbn; try done.
    + apply list.Forall_app. split; [done|]. constructor; [|done]. split; [destruct Hown as [Hst _]; by eapply message_step_inv|by eapply quiet_step].
    + intros id. specialize (Hh id). destruct (own_step_host id _ _ Hown) as [H1 H2]. account. lia.
Qed.

Lemma relay_reach_inv r : relay_reach r -> relay_inv r.
Proof.
  intros Hr. pose proof first_inv as H0. unfold relay_reach in Hr. induction Hr as [|r0 r1 r2 Hs _ IH]; [done|]. by eapply IH, relay_step_inv.
Qed.

(** The accounts of the Sessions, summed. *)
Lemma session_account id s : message_inv s ->
  (tally (is_told id) (mg_facts s) + tally (is_taken id) (mg_facts s) = tally (is_ended id) (mg_facts s) + tally (is_handed id) (mg_facts s) + waits id s)%nat.
Proof. intros Hi. pose proof (mi_account s Hi id) as Ha. rewrite comes_in_told, goes_out_ended in Ha. unfold waits. lia. Qed.

Lemma old_account id old : Forall (fun s => message_inv s /\ quiet s) old ->
  (sum_list_with (tally (is_told id) ∘ mg_facts) old + sum_list_with (tally (is_taken id) ∘ mg_facts) old =
   sum_list_with (tally (is_ended id) ∘ mg_facts) old + sum_list_with (tally (is_handed id) ∘ mg_facts) old)%nat.
Proof.
  induction 1 as [|s old [Hi Hq] _ IH]; [done|]. cbn. pose proof (session_account id s Hi) as Ha. rewrite (quiet_waits id s Hq) in Ha. lia.
Qed.

Lemma ended_split id r : ended id r = (reported id r + unreported id r)%nat.
Proof.
  assert (forall l, tally (is_ended id) l = (tally (is_reported id) l + tally (unseen id) l)%nat) as Hl.
  { intros l. apply tally_sum. intros []; cbn; try lia; destruct (String.eqb _ _); done. }
  assert (forall l, sum_list_with (tally (is_ended id) ∘ mg_facts) l =
    (sum_list_with (tally (is_reported id) ∘ mg_facts) l + sum_list_with (tally (unseen id) ∘ mg_facts) l)%nat) as Hs.
  { intros l. induction l as [|s l IH]; [done|]. cbn. rewrite Hl, IH. lia. }
  unfold ended, reported, unreported, over_sessions, of_session. rewrite Hl, Hs. destruct (rl_session r) as [s|]; cbn; rewrite ?Hl; lia.
Qed.

(** C32: A message that was reported queued is not lost because its Run ended.  However callers,
    Runs and the goroutine of the host interleave, over any number of Runs of a Session that
    follow one another: a message, each time it was reported queued, has ended once, reported
    committed or dropped, or with a report whose write failed and which nobody sees; or it is
    still in one place, in the queue, the Run or the hands of a caller of the live Session, or
    with the host, as a leftover, as the prompt of the Run that follows or behind it, or, a notice,
    in the Record.  A live Session that was withdrawn has nothing left.  So when the handle is
    given up, and no Run follows, every message has ended so, but for notices that wait for the
    next Run.  (What a Run leaves when its Writer has failed ends without a report:
    [unwritten_tally], [writer_failed_drops_unseen].) *)
Theorem sent_messages_run_or_are_dropped r :
  relay_reach r ->
  (forall id, told id r = (reported id r + unreported id r + of_session (waits id) r + host_has id r)%nat) /\
  (forall s, s ∈ rl_old r -> quiet s) /\
  (rl_stage r = Ended -> Forall (fun c => is_notice c = true) (rl_kept r) /\
     forall id, told id r = (reported id r + unreported id r + copies id (rl_kept r))%nat).
Proof.
  intros [Hv Hold Hh Hnone Hfirst Hnext Hkept Hopen]%relay_reach_inv.
  assert (forall id, told id r = (ended id r + of_session (waits id) r + host_has id r)%nat) as Hall.
  { intros id. specialize (Hh id). pose proof (old_account id _ Hold) as Ho. unfold told, ended, over_sessions, of_session in *.
    destruct (rl_session r) as [s|]; [|lia]. pose proof (session_account id s (Hv s eq_refl)). cbn in *. lia. }
  split; [intros id; by rewrite <- ended_split|]. split.
  - intros s Hs. rewrite list.Forall_forall in Hold. by apply Hold.
  - intros Hg. rewrite Hg in Hnone, Hfirst, Hnext. split; [done|]. intros id. rewrite <- ended_split, Hall. unfold host_has, of_session.
    rewrite Hg, Hnone, Hfirst, Hnext. cbn. rewrite copies_nil. lia.
Qed.

(** ** A sample

    A Steer that a Run was given, and did not take before it ended: it is the prompt of the Run that
    follows. *)
Definition sample_steer : control := MkControl 0 (message_zero <| m_ID := "m1" |>) MessageSourceSteer kindSteer 0.

Definition checked_steer : messages := at_sender 0 (Checked sample_steer) (message_start 1 1 1).
Definition placed_steer : messages := at_sender 0 (Placed sample_steer) (checked_steer <| mg_queue := (reserve kindSteer (mg_queue checked_steer)).1 |>).
Definition told_steer : messages := report (Told "m1") (at_sender 0 (Reported sample_steer) placed_steer).
Definition steered : messages := at_sender 0 (Answered sample_steer true) (fill_place sample_steer told_steer).1.

Definition withdrawn (s : messages) : messages :=
  s <| mg_queue := (drain true (mg_queue s)).1 |> <| mg_facts := mg_facts s ++ (HandedOver ∘ id_of <$> (drain true (mg_queue s)).2) |>.

Definition leftover : control := default sample_steer (head (drain true (mg_queue steered)).2).

Definition all_over : relay := MkRelay Ended None None [] [] [withdrawn (message_start 1 1 1); withdrawn steered] [WasCommitted "m1"].

Definition running (s : messages) : relay := MkRelay Running (Some s) None [] [] [] [].

Lemma own_last s s' r : relay_reach r -> rl_stage r = Running -> rl_session r = Some s -> message_step true s s' ->
  filter (fun f => by_host f = true) (mg_facts s') = filter (fun f => by_host f = true) (mg_facts s) -> mg_closing s' = mg_closing s ->
  relay_reach (r <| rl_session := Some s' |>).
Proof. intros Hr Hg Hs Hst Hf Hc. eapply rtc_r; [exact Hr|]. apply (relay_own s s'); [done|by split|done|by rewrite Hg]. Qed.

Lemma steered_reached : relay_reach (running steered).
Proof.
  assert (relay_reach (running (message_start 1 1 1))) as H0.
  { unfold relay_reach. eapply rtc_l; [by apply (relay_builds 1 1 1 None)|]. eapply rtc_l; [by apply relay_attaches|]. apply rtc_refl. }
  apply (own_last told_steer steered (running told_steer)); try done; [|by apply (mg_fill true 0 sample_steer told_steer (fill_place sample_steer told_steer).1 sentControl)].
  apply (own_last placed_steer told_steer (running placed_steer)); try done; [|by eapply (mg_told true 0 sample_steer)].
  apply (own_last checked_steer placed_steer (running checked_steer)); try done; [|by eapply (mg_place true 0 sample_steer)].
  apply (own_last (message_start 1 1 1) checked_steer (running (message_start 1 1 1))); try done. by apply (mg_call true 0 sample_steer).
Qed.

Lemma relay_last r r' r'' : relay_step r r' -> r' = r'' -> rtc relay_step r r''.
Proof. intros Hs <-. by apply rtc_once. Qed.

Lemma all_over_reached : relay_reach all_over.
Proof.
  unfold relay_reach. etrans; [exact steered_reached|].
  eapply rtc_l; [by apply (relay_settles (fun _ => true) true steered)|].
  eapply rtc_l; [apply (relay_detaches (fun _ => true) true false false false steered (drain true (mg_queue steered)).1 (drain true (mg_queue steered)).2); try done|].
  { intros k x Hk. apply (elem_of_map_to_list (mg_senders steered) k x) in Hk. vm_compute in Hk. apply list_elem_of_singleton in Hk. by injection Hk as _ ->. }
  eapply rtc_l; [by apply relay_takes|]. eapply rtc_l; [by apply (relay_follows leftover [])|].
  eapply rtc_l; [by apply (relay_builds 1 1 1 (Some (leftover, [])))|]. eapply rtc_l; [by apply relay_attaches|].
  eapply rtc_l; [by apply (relay_commits leftover true)|]. eapply rtc_l; [by apply (relay_settles (fun _ => true) true (message_start 1 1 1))|].
  eapply rtc_l; [by apply (relay_detaches (fun _ => true) true false false false (message_start 1 1 1) (drain true (mg_queue (message_start 1 1 1))).1 [])|].
  eapply rtc_l; [by apply relay_takes|]. eapply relay_last; [by apply relay_ends|reflexivity].
Qed.

Lemma sent_messages_run_or_are_dropped_witness :
  told "m1" all_over = 1%nat /\ reported "m1" all_over = 1%nat /\ unreported "m1" all_over = 0%nat /\
  Forall (fun c => is_notice c = true) (rl_kept all_over) /\
  told "m1" all_over = (reported "m1" all_over + unreported "m1" all_over + copies "m1" (rl_kept all_over))%nat.
Proof.
  split; [by vm_compute|]. split; [by vm_compute|]. split; [by vm_compute|].
  destruct (sent_messages_run_or_are_dropped all_over all_over_reached) as (_ & _ & Hover).
  destruct (Hover eq_refl) as [Hk Ha]. by split.
Defined.

(** The Writer of a Run failed while a Steer waited: the Steer is dropped for [writer_failed], and no
    Event says so. *)
Definition unseen_drop : relay :=
  MkRelay Ended None None [] [] [withdrawn steered] [Unwritten "m1"].

Example writer_failed_drops_unseen :
  relay_reach unseen_drop /\ told "m1" unseen_drop = 1%nat /\ reported "m1" unseen_drop = 0%nat /\ unreported "m1" unseen_drop = 1%nat.
Proof.
  split; [|split; [by vm_compute|split; by vm_compute]].
  unfold relay_reach. etrans; [exact steered_reached|].
  eapply rtc_l; [by apply (relay_settles (fun _ => false) true steered)|].
  eapply rtc_l; [apply (relay_detaches (fun _ => false) true true false false steered (drain true (mg_queue steered)).1 (drain true (mg_queue steered)).2); try done|].
  { intros k x Hk. apply (elem_of_map_to_list (mg_senders steered) k x) in Hk. vm_compute in Hk. apply list_elem_of_singleton in Hk. by injection Hk as _ ->. }
  eapply rtc_l; [by apply relay_takes|]. eapply relay_last; [by apply relay_ends|reflexivity].
Qed.
