(* ===== verification/Releases.v ===== *)
(** * Claims that are given back

    [host/release.go]: the Sessions whose release failed, and the pass of the heartbeat that releases
    them, interleaved with the Runs of this Instance and with other Instances.  A Session is the
    holder of its Claim and whether it is busy, as the store has it. *)

From stdpp Require Import strings gmap.
From S2P Require Import Prelude.
Local Open Scope string_scope.
Local Open Scope list_scope.

Record holding := MkHolding { hl_instance : string; hl_busy : bool }.

(** Where [repairRelease] is: it has cleared the mark, has seen that the Claim is this Instance's, has
    the lock, has the Session open, or has an answer. *)
Inductive repair : Type :=
| Looks
| WantsLock
| Opens
| Releases
| Answers (settled : bool).

#[export] Instance repair_eq_dec : EqDecision repair.
Proof. solve_decision. Defined.

(** The goroutine of the heartbeat: it has Sessions to go through, and is at one of them. *)
Inductive pass : Type :=
| NoPass
| Passes (todo : list string)
| Repairs (id : string) (at_ : repair) (todo : list string).

(** [rs_locked] are the Sessions that this Instance holds the lock of, and [rs_held] those of them that
    a Run or another call has claimed.  [rs_created] are the Sessions that a Run created and has not
    the lock of yet, and [rs_lost] those that a call left while it created them. *)
Record releaseSet := MkReleases {
  rs_marked : gset string;
  rs_locked : gset string;
  rs_held : gset string;
  rs_created : gset string;
  rs_lost : gset string;
  rs_claims : gmap string holding;
  rs_pass : pass;
}.
#[export] Instance eta_releaseSet : Eta releaseSet := fun r =>
  MkReleases (rs_marked r) (rs_locked r) (rs_held r) (rs_created r) (rs_lost r) (rs_claims r) (rs_pass r).

Section instance.
Context (me : string).

Definition markUnreleased (id : string) (s : releaseSet) : releaseSet := s <| rs_marked := {[id]} ∪ rs_marked s |>.

(** [settle]: [failed] says that the release or the Writer failed, [lost] that another Instance holds
    the Record or that it is gone. *)
Definition settle_release (id : string) (failed lost : bool) (s : releaseSet) : releaseSet :=
  if failed && negb lost then markUnreleased id s else s.

Definition ours (id : string) (s : releaseSet) : bool :=
  match rs_claims s !! id with
  | Some h => hl_busy h && String.eqb (hl_instance h) me
  | None => false
  end.

Definition claim (id instance : string) (busy : bool) (s : releaseSet) : releaseSet :=
  s <| rs_claims := <[id := MkHolding instance busy]> (rs_claims s) |>.

Definition lock (id : string) (s : releaseSet) : releaseSet := s <| rs_locked := {[id]} ∪ rs_locked s |>.
Definition unlock (id : string) (s : releaseSet) : releaseSet := s <| rs_locked := rs_locked s ∖ {[id]} |>.

(** What the store answers [store.Open], [acquire] and [Release] in a repair: the Record is gone, or
    the call failed, or it went through; a release that failed may have been stored. *)
Inductive storeAnswer : Type := Gone | Fails (stored : bool) | Through.

(** The steps of [repairRelease]. *)
Definition look (answer : storeAnswer) (id : string) (s : releaseSet) : repair :=
  match answer with
  | Gone => Answers true
  | Fails _ => Answers false
  | Through => if ours id s then WantsLock else Answers true
  end.

Definition take_lock (id : string) (s : releaseSet) : releaseSet * repair :=
  if bool_decide (id ∈ rs_locked s) then (s, Answers false) else (lock id s, Opens).

Definition open_again (answer : storeAnswer) (id : string) (s : releaseSet) : releaseSet * repair :=
  match answer with
  | Gone => (unlock id s, Answers true)
  | Fails _ => (unlock id s, Answers false)
  | Through => (claim id me true s, Releases)
  end.

Definition give_back (answer : storeAnswer) (id : string) (s : releaseSet) : releaseSet * repair :=
  match answer with
  | Through => (unlock id (claim id me false s), Answers true)
  | Fails true => (unlock id (claim id me false s), Answers false)
  | _ => (unlock id s, Answers false)
  end.

Definition to (p : pass) (s : releaseSet) : releaseSet := s <| rs_pass := p |>.

(** [repairRelease] and [repairReleases], of a pass that nothing interleaves with; the answers of the
    store are those of [store.Open], [acquire] and [Release]. *)
Definition repairRelease (opens acquires releases : storeAnswer) (id : string) (s : releaseSet) : releaseSet * bool :=
  match look opens id s with
  | WantsLock =>
    match take_lock id s with
    | (s, Opens) =>
      match open_again acquires id s with
      | (s, Releases) => let (s, at_) := give_back releases id s in (s, bool_decide (at_ = Answers true))
      | (s, at_) => (s, bool_decide (at_ = Answers true))
      end
    | (s, _) => (s, false)
    end
  | at_ => (s, bool_decide (at_ = Answers true))
  end.

Definition repair_one (answers : string -> storeAnswer * storeAnswer * storeAnswer) (s : releaseSet) (id : string) : releaseSet :=
  let s := s <| rs_marked := rs_marked s ∖ {[id]} |> in
  let '(opens, acquires, releases) := answers id in
  let (s, done_) := repairRelease opens acquires releases id s in
  if done_ then s else markUnreleased id s.

Definition repairReleases (answers : string -> storeAnswer * storeAnswer * storeAnswer) (ids : list string) (s : releaseSet) : releaseSet :=
  fold_left (repair_one answers) ids s.

(** A caller that has the lock claims the Session; a claim that fails with [store_failure] may be
    stored, and is marked. *)
Definition claimed (id : string) (s : releaseSet) : releaseSet := claim id me true s <| rs_held := {[id]} ∪ rs_held s |>.

Definition claim_failed (id : string) (unsure stored : bool) (s : releaseSet) : releaseSet :=
  unlock id (if unsure then markUnreleased id (if stored then claim id me true s else s) else s).

(** [releaseWriter] under the lock, and the end of the call. *)
Definition releaseWriter (id : string) (failed lost stored : bool) (s : releaseSet) : releaseSet :=
  unlock id (settle_release id failed lost (if stored then claim id me false s else s)) <| rs_held := rs_held s ∖ {[id]} |>.

Definition deleted (id : string) (s : releaseSet) : releaseSet := s <| rs_claims := delete id (rs_claims s) |>.

Definition DeleteSession (id : string) (s : releaseSet) : releaseSet :=
  unlock id (deleted id s) <| rs_held := rs_held s ∖ {[id]} |>.

(** [createSession]: the Session is claimed as it is created, before the Run has its lock. *)
Definition createSession (id : string) (failed stored : bool) (s : releaseSet) : releaseSet :=
  let s := if stored then claim id me true s else s in
  if failed then s <| rs_lost := {[id]} ∪ rs_lost s |> else s <| rs_created := {[id]} ∪ rs_created s |>.

(** The created Session's Run has the lock, or is refused it and deletes the Session. *)
Definition started (id : string) (s : releaseSet) : releaseSet :=
  lock id s <| rs_held := {[id]} ∪ rs_held s |> <| rs_created := rs_created s ∖ {[id]} |>.

Definition cleanupUnstarted (id : string) (failed : bool) (s : releaseSet) : releaseSet :=
  (if failed then s <| rs_lost := {[id]} ∪ rs_lost s |> else deleted id s) <| rs_created := rs_created s ∖ {[id]} |>.

(** The pass has the lock. *)
Definition at_work (id : string) (p : pass) : Prop := exists todo, p = Repairs id Opens todo \/ p = Repairs id Releases todo.

(** The calls of an Instance, of the others, and of the heartbeat's pass.  A store that answers that a
    Record is gone, that it exists, or that a Claim was lost is right; one that fails may have
    stored what it was asked to. *)
Inductive release_step : releaseSet -> releaseSet -> Prop :=
| run_locks id s : id ∉ rs_locked s -> release_step s (lock id s)
| run_claims id s : id ∈ rs_locked s -> ~ at_work id (rs_pass s) -> release_step s (claimed id s)
| claim_fails id (unsure stored : bool) s : id ∈ rs_locked s -> id ∉ rs_held s -> ~ at_work id (rs_pass s) ->
    release_step s (claim_failed id unsure stored s)
| run_gives_back id (failed lost stored : bool) s : id ∈ rs_held s -> (failed = false -> stored = true) ->
    (lost = true -> stored = false /\ ours id s = false) -> release_step s (releaseWriter id failed lost stored s)
| session_deleted id s : id ∈ rs_held s -> release_step s (DeleteSession id s)
| run_creates id (failed stored : bool) s : rs_claims s !! id = None -> (failed = false -> stored = true) ->
    release_step s (createSession id failed stored s)
| created_starts id s : id ∈ rs_created s -> id ∉ rs_locked s -> release_step s (started id s)
| created_refused id (failed : bool) s : id ∈ rs_created s -> release_step s (cleanupUnstarted id failed s)
| other_claims id instance busy s : instance <> me -> release_step s (claim id instance busy s)
| other_deletes id s : release_step s (deleted id s)
| pass_begins ids s : rs_pass s = NoPass -> ids ≡ₚ elements (rs_marked s) -> release_step s (to (Passes ids) s)
| pass_clears id todo s : rs_pass s = Passes (id :: todo) ->
    release_step s (to (Repairs id Looks todo) (s <| rs_marked := rs_marked s ∖ {[id]} |>))
| pass_ends s : rs_pass s = Passes [] -> release_step s (to NoPass s)
| repair_looks answer id todo s : rs_pass s = Repairs id Looks todo -> (answer = Gone -> rs_claims s !! id = None) ->
    release_step s (to (Repairs id (look answer id s) todo) s)
| repair_locks id todo s s' at_ : rs_pass s = Repairs id WantsLock todo -> take_lock id s = (s', at_) ->
    release_step s (to (Repairs id at_ todo) s')
| repair_opens answer id todo s s' at_ : rs_pass s = Repairs id Opens todo -> (answer = Gone -> rs_claims s !! id = None) ->
    open_again answer id s = (s', at_) -> release_step s (to (Repairs id at_ todo) s')
| repair_gives_back answer id todo s s' at_ : rs_pass s = Repairs id Releases todo -> give_back answer id s = (s', at_) ->
    release_step s (to (Repairs id at_ todo) s')
| repair_settles id todo s : rs_pass s = Repairs id (Answers true) todo -> release_step s (to (Passes todo) s)
| repair_marks id todo s : rs_pass s = Repairs id (Answers false) todo -> release_step s (to (Passes todo) (markUnreleased id s)).

Definition no_release : releaseSet := MkReleases ∅ ∅ ∅ ∅ ∅ ∅ NoPass.
Definition release_reach (s : releaseSet) : Prop := rtc release_step no_release s.

(** ** No Session is left busy *)

(** The pass has the Session in its hands, and will mark it again unless it releases it. *)
Definition in_repair (id : string) (p : pass) : Prop :=
  match p with Repairs i at_ _ => i = id /\ at_ <> Answers true | _ => False end.

Definition looked_after (id : string) (s : releaseSet) : Prop :=
  id ∈ rs_marked s \/ id ∈ rs_held s \/ id ∈ rs_created s \/ id ∈ rs_lost s \/ in_repair id (rs_pass s).

(** What the invariant says of one Session. *)
Record one_inv (id : string) (s : releaseSet) : Prop := {
  oi_ours : ours id s = true -> looked_after id s;
  oi_work : at_work id (rs_pass s) -> id ∈ rs_locked s;
  oi_held : id ∈ rs_held s -> id ∈ rs_locked s /\ ~ at_work id (rs_pass s);
}.

Definition release_inv (s : releaseSet) : Prop := forall id, one_inv id s.

Lemma ours_claim id i instance busy s :
  ours id (claim i instance busy s) = if bool_decide (i = id) then busy && String.eqb instance me else ours id s.
Proof.
  unfold ours. cbn. case_bool_decide as Hi; [subst i; by rewrite lookup_insert_eq|by rewrite lookup_insert_ne].
Qed.

Lemma ours_claims s s' id : rs_claims s' !! id = rs_claims s !! id -> ours id s' = ours id s.
Proof. unfold ours. by intros ->. Qed.

Lemma in_set (x y : string) (X : gset string) : x ∈ {[y]} ∪ X <-> x = y \/ x ∈ X.
Proof. set_solver. Qed.

Lemma out_of_set (x y : string) (X : gset string) : x ∈ X ∖ {[y]} <-> x ∈ X /\ x <> y.
Proof. set_solver. Qed.

(** What a step leaves of a Session that it is not about. *)
Record same_of (id : string) (s s' : releaseSet) : Prop := {
  so_claims : rs_claims s' !! id = rs_claims s !! id;
  so_marked : id ∈ rs_marked s -> id ∈ rs_marked s';
  so_locked : id ∈ rs_locked s -> id ∈ rs_locked s';
  so_held : id ∈ rs_held s <-> id ∈ rs_held s';
  so_created : id ∈ rs_created s -> id ∈ rs_created s';
  so_lost : id ∈ rs_lost s -> id ∈ rs_lost s';
  so_repair : in_repair id (rs_pass s) -> in_repair id (rs_pass s');
  so_work : at_work id (rs_pass s') -> at_work id (rs_pass s);
}.

Lemma same_of_inv id s s' : same_of id s s' -> one_inv id s -> one_inv id s'.
Proof.
  intros [Hc Hm Hl Hh Hcr Hlo Hr Hw] [Ho Hwl Hhe]. split.
  - intros Hi. rewrite (ours_claims s s') in Hi by done. specialize (Ho Hi). unfold looked_after in *. tauto.
  - intros Ha. by apply Hl, Hwl, Hw.
  - intros Hx%Hh. destruct (Hhe Hx) as [? Hn]. split; [by apply Hl|]. by intros ?%Hw.
Qed.

Lemma at_work_here id i at_ todo : at_work i (Repairs id at_ todo) -> i = id /\ (at_ = Opens \/ at_ = Releases).
Proof. intros [? [[= <- -> <-]|[= <- -> <-]]]; split; auto. Qed.

Lemma work_opens id todo : at_work id (Repairs id Opens todo).
Proof. exists todo. by left. Qed.

Lemma work_releases id todo : at_work id (Repairs id Releases todo).
Proof. exists todo. by right. Qed.

Lemma no_work_passes id todo : ~ at_work id (Passes todo).
Proof. by intros [? [|]]. Qed.

Lemma no_work_none id : ~ at_work id NoPass.
Proof. by intros [? [|]]. Qed.

(** A step about one Session keeps what holds of the others. *)
Lemma one_session id s s' : release_inv s -> (forall i, i <> id -> same_of i s s') -> (one_inv id s -> one_inv id s') -> release_inv s'.
Proof. intros Hi Hs Hid i. destruct (decide (i = id)) as [->|Hne]; [by apply Hid|]. by eapply same_of_inv; [apply Hs|]. Qed.

Ltac other_session :=
  intros ? ?; split; cbn; rewrite ?in_set, ?out_of_set, ?lookup_insert_ne, ?lookup_delete_ne by done; try done; tauto.

Ltac this_session := unfold looked_after; cbn; rewrite ?in_set, ?out_of_set.

Lemma ours_deleted id s : ours id (deleted id s) = false.
Proof. unfold ours. cbn. by rewrite lookup_delete_eq. Qed.

Lemma claimed_inv id s : release_inv s -> id ∈ rs_locked s -> ~ at_work id (rs_pass s) -> release_inv (claimed id s).
Proof.
  intros Hi Hl Hn. apply (one_session id s); [done|other_session|]. intros [_ Hw _]. split; this_session; [by right; left; left|done|done].
Qed.

Lemma claim_failed_inv id (unsure stored : bool) s : release_inv s -> id ∈ rs_locked s -> id ∉ rs_held s -> ~ at_work id (rs_pass s) ->
  release_inv (claim_failed id unsure stored s).
Proof.
  intros Hi Hl Hh Hn. unfold claim_failed. destruct unsure, stored; (apply (one_session id s); [done|other_session|]); intros [Ho _ _]; split; this_session;
    tauto || (intros Hx; destruct (Ho Hx); tauto).
Qed.

Lemma releaseWriter_inv id (failed lost stored : bool) s : release_inv s -> id ∈ rs_held s -> (failed = false -> stored = true) ->
  (lost = true -> stored = false /\ ours id s = false) -> release_inv (releaseWriter id failed lost stored s).
Proof.
  intros Hi Hh Hst Hlo. destruct (oi_held _ _ (Hi id) Hh) as [Hl Hn].
  assert (stored = true -> forall s', rs_claims s' = rs_claims (claim id me false s) -> ours id s' = false) as Hgiven.
  { intros _ s' Hc. unfold ours. by rewrite Hc; cbn; rewrite lookup_insert_eq. }
  assert (release_inv (unlock id (if failed && negb lost then markUnreleased id (if stored then claim id me false s else s) else if stored then claim id me false s else s)
    <| rs_held := rs_held s ∖ {[id]} |>)) as H; [|done].
  destruct failed, lost, stored; try (by specialize (Hst eq_refl)); try (by destruct (Hlo eq_refl));
    cbn [andb negb]; (apply (one_session id s); [done|other_session|]); intros _; split; this_session; try tauto.
  - intros Hx. destruct (Hlo eq_refl) as [_ Hf]. change (ours id s = true) in Hx. congruence.
  - intros Hx. rewrite Hgiven in Hx; done.
Qed.

Lemma DeleteSession_inv id s : release_inv s -> id ∈ rs_held s -> release_inv (DeleteSession id s).
Proof.
  intros Hi Hh. destruct (oi_held _ _ (Hi id) Hh) as [Hl Hn]. apply (one_session id s); [done|other_session|]. intros _. split; this_session; try tauto.
  intros Hx. change (ours id (deleted id s) = true) in Hx. by rewrite ours_deleted in Hx.
Qed.

Lemma createSession_inv id (failed stored : bool) s : release_inv s -> rs_claims s !! id = None -> release_inv (createSession id failed stored s).
Proof.
  intros Hi Hc. unfold createSession. destruct failed, stored; (apply (one_session id s); [done|other_session|]); intros [_ Hw Hhe]; split; this_session; tauto.
Qed.

Lemma started_inv id s : release_inv s -> id ∈ rs_created s -> id ∉ rs_locked s -> release_inv (started id s).
Proof.
  intros Hi Hc Hl. apply (one_session id s); [done|other_session|]. intros [_ Hw _]. split; this_session; tauto.
Qed.

Lemma cleanupUnstarted_inv id (failed : bool) s : release_inv s -> release_inv (cleanupUnstarted id failed s).
Proof.
  intros Hi. unfold cleanupUnstarted. destruct failed; (apply (one_session id s); [done|other_session|]); intros [_ Hw Hhe]; split; this_session; try tauto.
  intros Hx. change (ours id (deleted id s) = true) in Hx. by rewrite ours_deleted in Hx.
Qed.

(** The pass goes on; it is at no other Session than before, or than the one it takes up. *)
Lemma pass_goes_on p s s' : release_inv s -> rs_pass s' = p ->
  (forall i, rs_claims s' !! i = rs_claims s !! i /\ rs_locked s' = rs_locked s /\ rs_held s' = rs_held s /\ rs_created s' = rs_created s /\ rs_lost s' = rs_lost s) ->
  (forall i, i ∈ rs_marked s \/ in_repair i (rs_pass s) -> i ∈ rs_marked s' \/ in_repair i p) -> (forall i, ~ at_work i p) -> release_inv s'.
Proof.
  intros Hi Hp Hs Hr Hn i. destruct (Hs i) as (Hc & El & Eh & Ecr & Elo), (Hi i) as [Ho Hw Hh]. split.
  - intros Hx. rewrite (ours_claims s s') in Hx by done. specialize (Ho Hx). specialize (Hr i). unfold looked_after in *. rewrite Hp, Eh, Ecr, Elo. tauto.
  - rewrite Hp. intros Hx. by apply Hn in Hx.
  - rewrite Hp, Eh, El. intros Hx. split; [by apply Hh|by apply Hn].
Qed.

(** A repair goes on, at the Session it is at. *)
Lemma repair_inv id at_ at_' todo s s' : release_inv s -> rs_pass s = Repairs id at_ todo -> rs_pass s' = rs_pass s ->
  (forall i, i <> id -> same_of i s s') -> rs_held s' = rs_held s -> (id ∈ rs_held s -> ~ (at_' = Opens \/ at_' = Releases) /\ id ∈ rs_locked s') ->
  (at_' = Answers true -> ours id s' = true -> looked_after id (to (Repairs id at_' todo) s')) ->
  (at_' = Opens \/ at_' = Releases -> id ∈ rs_locked s') -> release_inv (to (Repairs id at_' todo) s').
Proof.
  intros Hi Es Es' Hother Eh Hheld Hdone Hl. apply (one_session id s); [done| |].
  - intros i Hne. destruct (Hother i Hne) as [Hc Hm Hlk Hh Hcr Hlo Hr Hw]. split; cbn; try done; rewrite Es.
    + by intros [-> _].
    + by intros [-> _]%at_work_here.
  - intros [Ho Hw Hh]. split.
    + intros Hx. destruct (decide (at_' = Answers true)) as [E|E]; [by apply Hdone|]. unfold looked_after. cbn. tauto.
    + cbn. intros [_ Ha]%at_work_here. by apply Hl.
    + cbn. rewrite Eh. intros Hx%Hheld. split; [tauto|]. intros [_ Ha]%at_work_here. tauto.
Qed.

Lemma release_step_inv s s' : release_step s s' -> release_inv s -> release_inv s'.
Proof.
  intros Hs Hi. destruct Hs as [id s Hn|id s Hl Hn|id unsure stored s Hl Hh Hn|id failed lost stored s Hh Hst Hlo|id s Hh|id failed stored s Hc Hst|id s Hc Hn|id failed s Hc|id instance busy s Hne|id s|ids s Hp Hids|id todo s Hp|s Hp|answer id todo s Hp Hg|id todo s s' at_ Hp Ht|answer id todo s s' at_ Hp Hg Ho|answer id todo s s' at_ Hp Hg|id todo s Hp|id todo s Hp].
  - apply (one_session id s); [done|other_session|]. intros [Ho Hw Hh]. split; this_session; tauto.
  - by apply claimed_inv.
  - by apply claim_failed_inv.
  - by apply releaseWriter_inv.
  - by apply DeleteSession_inv.
  - by apply createSession_inv.
  - by apply started_inv.
  - by apply cleanupUnstarted_inv.
  - apply (one_session id s); [done|other_session|]. intros [Ho Hw Hh]. split; [|done|done].
    rewrite ours_claim, bool_decide_true by done. by rewrite (proj2 (String.eqb_neq _ _) Hne), andb_false_r.
  - apply (one_session id s); [done|other_session|]. intros [Ho Hw Hh]. split; [|done|done]. by rewrite ours_deleted.
  - apply (pass_goes_on (Passes ids) s); [done..| |exact (fun i => no_work_passes i _)]. rewrite Hp. by intros i [|[]]; left.
  - apply (pass_goes_on (Repairs id Looks todo) s); [done..| |by intros i [_ [|]]%at_work_here]. rewrite Hp. cbn. intros i [Hm|[]]. rewrite out_of_set.
    destruct (decide (i = id)) as [->|]; [by right|by left].
  - apply (pass_goes_on NoPass s); [done..| |exact no_work_none]. rewrite Hp. by intros i [|[]]; left.
  - apply (repair_inv id Looks _ todo s s); try done.
    + intros Hh. split; [|by apply (oi_held _ _ (Hi id))]. unfold look. destruct answer; [by intros [|]..|]. destruct (ours id s); by intros [|].
    + intros Ha Hx. destruct answer; cbn in Ha; [unfold ours in Hx; by rewrite Hg in Hx|done|by rewrite Hx in Ha].
    + unfold look. destruct answer; [by intros [|]..|]. destruct (ours id s); by intros [|].
  - unfold take_lock in Ht. case_bool_decide as Hin; injection Ht as <- <-; (apply (repair_inv id WantsLock _ todo s); try done; [try other_session|..]).
    + intros _. split; [by intros [|]|done].
    + intros Hh. by destruct (oi_held _ _ (Hi id) Hh).
    + intros _. cbn. rewrite in_set. by left.
  - assert (id ∈ rs_locked s) as Hl by (apply (oi_work _ _ (Hi id)); rewrite Hp; apply work_opens).
    assert (id ∉ rs_held s) as Hh by (intros Hx; apply (oi_held _ _ (Hi id)) in Hx as [_ Hn]; apply Hn; rewrite Hp; apply work_opens).
    destruct answer; injection Ho as <- <-; (apply (repair_inv id Opens _ todo s); try done; [other_session|..]); try (by intros [|]).
    intros _ Hx. unfold ours in Hx. cbn in Hx. by rewrite Hg in Hx.
  - assert (id ∉ rs_held s) as Hh by (intros Hx; apply (oi_held _ _ (Hi id)) in Hx as [_ Hn]; apply Hn; rewrite Hp; apply work_releases).
    destruct answer as [|[]|]; injection Hg as <- <-; (apply (repair_inv id Releases _ todo s); try done; [other_session|..]); try (by intros [|]).
    intros _ Hx. change (ours id (claim id me false s) = true) in Hx. rewrite ours_claim, bool_decide_true in Hx; done.
  - apply (pass_goes_on (Passes todo) s); [done..| |exact (fun i => no_work_passes i _)]. rewrite Hp. intros i [?|[_ Hx]]; [by left|done].
  - apply (pass_goes_on (Passes todo) s); [done..| |exact (fun i => no_work_passes i _)]. rewrite Hp. intros i Hx. left. cbn in *. rewrite in_set. by destruct Hx as [?|[-> _]]; [right|left].
Qed.

Lemma release_reach_inv s : release_reach s -> release_inv s.
Proof.
  intros Hr. assert (release_inv no_release) as H0.
  { intros id. split; [|by intros ?%no_work_none|done]. intros Ho. unfold ours in Ho. cbn in Ho. by rewrite lookup_empty in Ho. }
  unfold release_reach in Hr. induction Hr as [|s0 s1 s2 Hs _ IH]; [done|]. by eapply IH, release_step_inv.
Qed.

(** A repair that the store answers releases the Session, if it is this Instance's. *)
Lemma repaired_one id s : id ∉ rs_locked s ->
  let s' := repair_one (fun _ => (Through, Through, Through)) s id in
  rs_marked s' = rs_marked s ∖ {[id]} /\ (forall i, i ∈ rs_locked s' <-> i ∈ rs_locked s) /\ ours id s' = false /\
  (forall i, i <> id -> ours i s' = ours i s).
Proof.
  intros Hn. unfold repair_one, repairRelease, look, take_lock. change (ours id (s <| rs_marked := _ |>)) with (ours id s).
  destruct (ours id s) eqn:Eo.
  - change (rs_locked (s <| rs_marked := _ |>)) with (rs_locked s). rewrite bool_decide_false by done. cbn -[ours claim].
    rewrite bool_decide_true by done. split; [done|]. split; [cbn; set_solver|].
    split; [unfold ours; cbn; by rewrite lookup_insert_eq|]. intros i Hd. unfold ours. cbn. by rewrite !lookup_insert_ne.
  - rewrite bool_decide_true by done. by split_and!.
Qed.

(** A Session that the repair does not get the lock of stays marked. *)
Lemma repair_locked answers id s : id ∈ rs_locked s -> ours id s = true -> answers id = (Through, Through, Through) ->
  id ∈ rs_marked (repair_one answers s id).
Proof.
  intros Hl Ho Ha. unfold repair_one. rewrite Ha. unfold repairRelease, look, take_lock. change (ours id (s <| rs_marked := _ |>)) with (ours id s).
  rewrite Ho. change (rs_locked (s <| rs_marked := _ |>)) with (rs_locked s). rewrite bool_decide_true by done. cbn. set_solver.
Qed.

Lemma repaired_all ids s : (forall id, id ∉ rs_locked s) ->
  let s' := repairReleases (fun _ => (Through, Through, Through)) ids s in
  rs_marked s' = rs_marked s ∖ list_to_set ids /\ (forall id, ours id s' = true -> ours id s = true /\ id ∉ ids).
Proof.
  revert s. induction ids as [|id ids IH]; intros s Hl s'.
  - split; [cbn; set_solver|]. intros id Hid. split; [done|apply not_elem_of_nil].
  - destruct (repaired_one id s) as (Hm & Hl' & Hid & Hother); [done|].
    destruct (IH (repair_one (fun _ => (Through, Through, Through)) s id)) as (H1 & H2); [by intros i; rewrite Hl'|].
    change (repairReleases (fun _ => (Through, Through, Through)) ids (repair_one (fun _ => (Through, Through, Through)) s id)) with s' in H1, H2.
    split; [rewrite H1, Hm; cbn; set_solver|]. intros i Hx. destruct (H2 i Hx) as [Hi Hn]. rewrite not_elem_of_cons.
    destruct (decide (i = id)) as [->|Hne]; [congruence|]. by rewrite <- Hother.
Qed.

(** C33: A Session that this Instance failed to release is not left busy for good.  However Runs, other
    calls, the passes of the heartbeat and other Instances interleave, and whatever the store
    answers, also when a claim or a release that failed was stored: a Session that the store has as
    busy under this Instance is held by a caller that has its lock, or is marked for the next pass,
    or the pass is at it and will mark it again unless it is released, or its creation is not over,
    or was left by a call that failed while it created it.  And a pass that finds no lock taken
    releases every Session of these that it is told of, and leaves none marked, when the store answers. *)
Theorem failed_releases_are_repaired s : release_reach s ->
  (forall id, ours id s = true ->
    (id ∈ rs_held s /\ id ∈ rs_locked s) \/ id ∈ rs_marked s \/ in_repair id (rs_pass s) \/ id ∈ rs_created s \/ id ∈ rs_lost s) /\
  (rs_pass s = NoPass -> rs_locked s = ∅ -> forall ids, ids ≡ₚ elements (rs_marked s) ->
    let s' := repairReleases (fun _ => (Through, Through, Through)) ids s in
    rs_marked s' = ∅ /\ forall id, ours id s' = true -> id ∈ rs_created s \/ id ∈ rs_lost s).
Proof.
  intros Hi%release_reach_inv. split.
  - intros id Hid. destruct (oi_ours _ _ (Hi id) Hid) as [?|[Hx|[?|[?|?]]]]; auto. left. split; [done|]. by apply (oi_held _ _ (Hi id)).
  - intros Hp Hl ids Hids. assert (forall id, id ∈ ids <-> id ∈ rs_marked s) as Hin by (intros id; rewrite Hids; apply elem_of_elements).
    destruct (repaired_all ids s) as (Hm & Hall); [by rewrite Hl; set_solver|]. split; [rewrite Hm; set_solver|].
    intros id Hid. destruct (Hall id Hid) as [Ho Hn]. rewrite Hin in Hn. destruct (oi_ours _ _ (Hi id) Ho) as [?|[Hx|[?|[?|Hx]]]]; auto; [done| |].
    + apply (oi_held _ _ (Hi id)) in Hx as [Hx _]. rewrite Hl in Hx. by apply elem_of_empty in Hx.
    + by rewrite Hp in Hx.
Qed.
End instance.

(** A Run whose release failed, and was not stored. *)
Definition one_left_busy : releaseSet := releaseWriter "a" "s1" true false false (claimed "a" "s1" (lock "s1" no_release)).

Lemma one_left_busy_reached : release_reach "a" one_left_busy.
Proof.
  unfold release_reach. eapply rtc_l; [apply (run_locks "a" "s1"); set_solver|].
  eapply rtc_l; [apply (run_claims "a" "s1"); [set_solver|by apply no_work_none]|].
  eapply rtc_l; [apply (run_gives_back "a" "s1" true false false); [set_solver|done..]|]. apply rtc_refl.
Qed.

Lemma failed_releases_are_repaired_witness :
  ours "a" "s1" one_left_busy = true /\ "s1" ∈ rs_marked one_left_busy /\
  ours "a" "s1" (repairReleases "a" (fun _ => (Through, Through, Through)) ["s1"] one_left_busy) = false.
Proof.
  destruct (failed_releases_are_repaired "a" one_left_busy one_left_busy_reached) as [Ho Hp].
  split; [reflexivity|]. split.
  - destruct (Ho "s1" eq_refl) as [[? _]|[?|[?|[?|?]]]]; [set_solver|done|done|set_solver|set_solver].
  - destruct (Hp eq_refl ltac:(set_solver) ["s1"] ltac:(by vm_compute)) as [_ Hn].
    destruct (ours _ _ (repairReleases _ _ _ _)) eqn:E; [|done]. apply Hn in E as [?|?]; set_solver.
Defined.

(** The Session that [createSession] stored and had a failure for is marked by nothing: the next
    passes of the heartbeat have nothing to release, and it is busy under this Instance. *)
Lemma failed_create_stays_busy :
  let s := createSession "a" "s1" true true no_release in
  release_reach "a" s /\ ours "a" "s1" s = true /\ rs_marked s = ∅ /\ rs_locked s = ∅ /\ rs_pass s = NoPass.
Proof.
  split; [|by vm_compute]. unfold release_reach. eapply rtc_l; [|apply rtc_refl]. by apply run_creates.
Qed.
