(* ===== verification/WireRequest.v ===== *)
(** * What the requests of the wire APIs share

    [model/encode_common.go], [reasoning_replay.go], [cachekey.go] and [withAnthropicBeta] of
    [headers.go]; what a wire API reads of a [ModelConfig] and of the Transcript.  An encoder runs
    over the map of names, which [assignFunctionName] writes to, and may fail. *)

From S2P Require Import Prelude GoStrings Errors Types Request Schema FunctionNames Deferred ChatDecoder Profile ProfileDoc RunCalls.
Local Open Scope string_scope.
Local Open Scope list_scope.

(** ** What a wire API is given *)

(** [ModelFacts], but for the window, and [ModelConfig], but for the defaults of its sampling. *)
Record ModelFacts := MkFacts { mf_CacheRetention : duration; mf_RoundReasoning : bool; mf_ThinkingBinding : bool }.
Record ModelConfig := MkConfig { mo_Name : string; mo_Facts : ModelFacts }.

(** Why a request cannot be encoded; each is the [fmt.Errorf] of its line, or the error of
    [encoding/json]. *)
Inductive encodeError : Type :=
| NotSentBy (wire : string)
| NamesCollide (previous id : bytes)
| InvalidSchema (id : string)
| UnsupportedRole (role : Role)
| UnsupportedKind (kind : ContentKind)
| InvalidArtifact
| ArtifactKind (kind : string)
| NoCallID
| NotAnObject
| UnsupportedForm (form : string)
| MarshalFailed (err : error).

(** An encoder: from the map of names to the map it leaves, and what it makes. *)
Definition encoder (A : Type) : Type := gmap bytes bytes -> result encodeError (gmap bytes bytes * A).

#[export] Instance encoder_ret : MRet encoder := fun A a names => Ok (names, a).
#[export] Instance encoder_bind : MBind encoder := fun A B k m names =>
  match m names with
  | Ok (names, a) => k a names
  | Err e => Err e
  end.

Definition refuse_with {A : Type} (e : encodeError) : encoder A := fun _ => Err e.
Definition of_result {A : Type} (r : result encodeError A) : encoder A := fun names =>
  match r with Ok a => Ok (names, a) | Err e => Err e end.

(** What [encoding/base64] gives, and [json.Marshal] of the payload of an API. *)
Class WireText := { base64 : bytes -> string }.
Class Marshal (P : Type) := marshal : P -> result error bytes.

Section common.
Context `{Encoding, ChatJson}.

(** [assignFunctionName] on the map of the request. *)
Definition assign (id : string) : encoder string := fun names =>
  match assignFunctionName names (bytes_of id) with
  | Ok (names, name) => Ok (names, string_of name)
  | Err (previous, other) => Err (NamesCollide previous other)
  end.

(** [replayArguments]. *)
Definition replayArguments (arguments : bytes) : bytes := if isJSONObject arguments then arguments else bytes_of "{}".

(** [toolResultText]. *)
Definition toolResultText (message : Message) : string :=
  foldr (fun p text => if bool_decide (cp_Kind p ∈ [ContentKindText; ContentKindReasoning; ContentKindJSON]) then (cp_Text p ++ text)%string else text)
    "" (m_Parts message).

(** [toolResultOutput]. *)
Definition toolResultOutput (message : Message) : string :=
  let text := toolResultText message in
  let text := match m_ToolResult message with Some r => if String.eqb text "" then tr_SafeError r else text | None => text end in
  if String.eqb text "" then "(no tool output)" else text.

(** [toolSchema]. *)
Definition toolSchema (spec : ToolSpec) (fallback : string) : result encodeError bytes :=
  let schema := if bool_decide (ts_InputSchema spec = []) then bytes_of fallback else ts_InputSchema spec in
  if valid_json schema then Ok schema else Err (InvalidSchema (ts_ID spec)).

(** [refuseReasoningConfig]. *)
Definition refuseReasoningConfig (wire : string) (sampling : Sampling) : result encodeError unit :=
  if String.eqb (sa_ReasoningEffort sampling) "" && String.eqb (sa_ReasoningSummary sampling) "" then Ok tt else Err (NotSentBy wire).

(** [strings.ToLower]: of the runes that are not ASCII, these two alone have a lower case that is. *)
Definition lower_rune (r : N) : N :=
  if (65 <=? r)%N && (r <=? 90)%N then (r + 32)%N
  else if N.eqb r 0x130 then 0x69%N
  else if N.eqb r 0x212A then 0x6B%N
  else r.

Definition lower_name (s : bytes) : list N := lower_rune ∘ fst <$> runes s.

(** [DeferredForm.native]. *)
Definition native_form (form : string) : result encodeError bool :=
  let name := lower_name (trim_space (bytes_of form)) in
  if bool_decide (name = []) || bool_decide (name = lower_name (bytes_of "native")) then Ok true
  else if bool_decide (name = lower_name (bytes_of "list")) then Ok false
  else Err (UnsupportedForm form).

(** [functionNames]; an encoder starts with the map it makes. *)
Definition with_names {A : Type} (request : ModelRequest) (m : encoder A) : result encodeError (gmap bytes bytes * A) :=
  match functionNames request with
  | Ok names => m names
  | Err (previous, id) => Err (NamesCollide previous id)
  end.

(** ** Rounds *)

(** [roundStart]: the index of the last user Message; [None] is -1. *)
Definition roundStart (messages : list Message) : option nat :=
  foldl (fun start p => if String.eqb (m_Role p.2) RoleUser then Some p.1 else start) None (imap pair messages).

(** [keepsReasoning]. *)
Definition keepsReasoning (roundReasoning : bool) (index : nat) (start : option nat) : bool :=
  negb roundReasoning || match start with Some s => (s <? index)%nat | None => true end.

(** What an API makes of each Message of a request. *)
Definition each_message {X : Type} (convert : bool -> Message -> encoder X) (roundReasoning : bool) (start : option nat) (messages : list (nat * Message)) :
  encoder (list X) :=
  mapM (fun p => convert (keepsReasoning roundReasoning p.1 start) p.2) messages.

(** ** The cache key *)

Definition cacheKeyFieldNone : string := "none".

Definition field_name (field : string) : string := string_of (trim_space (bytes_of field)).

(** [checkCacheKeyField]; [tags] are the names of the payload's fields. *)
Definition checkCacheKeyField (field : string) (tags reserved : list string) : bool :=
  let field := field_name field in
  String.eqb field "" || String.eqb field cacheKeyFieldNone
  || negb (existsb (fun tag => bool_decide (fold_name tag = fold_name field)) (tags ++ reserved)).

(** [withCacheKeyField]. *)
Definition withCacheKeyField (body : bytes) (field key : string) : result encodeError bytes :=
  let field := field_name field in
  if String.eqb field "" || String.eqb field cacheKeyFieldNone || String.eqb key "" then Ok body
  else
    match body, last body with
    | "{"%char :: _ :: _, Some "}"%char =>
      Ok (removelast body ++ (if (2 <? length body)%nat then [","%char] else []) ++ json_string field ++ ":"%char :: json_string key ++ ["}"%char])
    | _, _ => Err NotAnObject
    end.

End common.

(** ** Encoders that find the names made *)

(** An encoder that is through with one map is through with another, makes the same of both, and
    leaves each as it was. *)
Definition agrees {A : Type} (names names' : gmap bytes bytes) (m : encoder A) : Prop :=
  forall left a, m names = Ok (left, a) -> left = names /\ m names' = Ok (names', a).

Create HintDb encoders discriminated.

Section agreement.
Context (names names' : gmap bytes bytes).

Lemma agrees_ret {A : Type} (a : A) : agrees names names' (mret a).
Proof. by intros ? ? [= <- <-]. Qed.

Lemma agrees_bind {A B : Type} (m : encoder A) (k : A -> encoder B) :
  agrees names names' m -> (forall a, agrees names names' (k a)) -> agrees names names' (m ≫= k).
Proof.
  intros Hm Hk left b. unfold mbind, encoder_bind. destruct (m names) as [[left1 a]|] eqn:E; [|done].
  destruct (Hm _ _ E) as [-> ->]. apply Hk.
Qed.

Lemma agrees_result {A : Type} (r : result encodeError A) : agrees names names' (of_result r).
Proof. intros left a. unfold of_result. destruct r; [|done]. by intros [= <- <-]. Qed.

Lemma agrees_refuse {A} e : agrees names names' (refuse_with (A:=A) e).
Proof. done. Qed.

Lemma agrees_if {A : Type} (b : bool) (m k : encoder A) : agrees names names' m -> agrees names names' k -> agrees names names' (if b then m else k).
Proof. by destruct b. Qed.

Lemma agrees_mapM {A B : Type} (f : A -> encoder B) (l : list A) : (forall x, x ∈ l -> agrees names names' (f x)) -> agrees names names' (mapM f l).
Proof.
  induction l as [|x l IH]; intros Hf; cbn; [apply agrees_ret|]. apply agrees_bind; [apply Hf; by left|]. intros y.
  apply agrees_bind; [apply IH; intros z Hz; apply Hf; by right|]. intros ys. apply agrees_ret.
Qed.
End agreement.

Lemma mapM_results {A B : Type} (f : A -> encoder B) names (l : list A) left ys :
  (forall x, x ∈ l -> agrees names names (f x)) -> mapM f l names = Ok (left, ys) ->
  left = names /\ Forall2 (fun x y => f x names = Ok (names, y)) l ys.
Proof.
  revert left ys. induction l as [|x l IH]; intros left ys Hf; cbn; [by intros [= <- <-]|].
  unfold mbind, encoder_bind. destruct (f x names) as [[left1 y]|] eqn:E; [|done]. destruct (Hf x ltac:(by left) _ _ E) as [-> _].
  destruct (mapM f l names) as [[left2 zs]|] eqn:E2; [|done]. intros [= <- <-].
  destruct (IH left2 zs) as [-> Hall]; [intros z Hz; apply Hf; by right|done|]. split; [done|]. by constructor.
Qed.

#[export] Hint Resolve agrees_ret agrees_result agrees_refuse agrees_if : encoders.

Section laws.
Context `{HexHash}.

(** The map of a request has a name for each ID that the request uses. *)
Lemma assign_in_request request names id :
  functionNames request = Ok names -> bytes_of id ∈ request_ids request -> agrees names names (assign id).
Proof.
  intros Hn Hid left name. unfold assign. pose proof (function_names_roundtrip request names Hn) as Hall.
  eapply list.Forall_forall in Hall as (n & Ha & _); [|exact Hid]. rewrite Ha. by intros [= <- <-].
Qed.

(** No two IDs are written alike, so each has the name it is written as, whatever the others. *)
Definition no_collisions (ids : list bytes) : Prop :=
  forall i j, i ∈ ids -> j ∈ ids -> providerFunctionName i = providerFunctionName j -> i = j.

Definition wire_name (id : string) : string := string_of (providerFunctionName (bytes_of id)).

Lemma assign_free names ids id :
  no_collisions ids -> id ∈ ids -> (forall n i, names !! n = Some i -> n = providerFunctionName i /\ i ∈ ids) ->
  assignFunctionName names id = Ok (<[providerFunctionName id := id]> names, providerFunctionName id).
Proof.
  intros Hc Hid Hn. unfold assignFunctionName. assert (taken_by_other names (providerFunctionName id) id = false) as ->; [|done].
  apply taken_by_other_spec. intros other Ho. destruct (Hn _ _ Ho) as [Heq Hin]. symmetry. by apply Hc.
Qed.

Lemma assign_all_free ids names rest :
  no_collisions ids -> rest ⊆ ids -> (forall n i, names !! n = Some i -> n = providerFunctionName i /\ i ∈ ids) ->
  exists names', assign_all names rest = Ok names' /\ (forall n i, names' !! n = Some i -> n = providerFunctionName i /\ i ∈ ids).
Proof.
  intros Hc. revert names. induction rest as [|id rest IH]; intros names Hr Hn; cbn; [by exists names|].
  assert (id ∈ ids) as Hid by (apply Hr; by left). rewrite (assign_free names ids id) by done. apply IH.
  - intros i Hi. apply Hr. by right.
  - intros n i [[<- <-]|[_ Hl]]%lookup_insert_Some; [done|by apply Hn].
Qed.

Lemma names_free request : no_collisions (request_ids request) ->
  exists names, functionNames request = Ok names /\
    (forall id, bytes_of id ∈ request_ids request -> exists left, assign id names = Ok (left, wire_name id)).
Proof.
  intros Hc. destruct (assign_all_free (request_ids request) (plain_names (request_ids request)) (request_ids request)) as (names & Hn & Hf); [done..| |].
  - intros n i (-> & Hi & Hp)%plain_names_spec. split; [|done]. symmetry. by apply provider_own.
  - exists names. split; [done|]. intros id Hid. unfold assign. rewrite (assign_free names (request_ids request)) by done. by eexists.
Qed.

(** Requests without such IDs agree on the names they share. *)
Lemma requests_agree request request' names names' id :
  functionNames request = Ok names -> functionNames request' = Ok names' ->
  no_collisions (request_ids request) -> no_collisions (request_ids request') ->
  bytes_of id ∈ request_ids request -> bytes_of id ∈ request_ids request' -> agrees names names' (assign id).
Proof.
  intros Hn Hn' Hc Hc' Hid Hid' left name Ha. destruct (assign_in_request request names id Hn Hid _ _ Ha) as [-> _]. split; [done|].
  destruct (names_free request Hc) as (n1 & Hn1 & H1), (names_free request' Hc') as (n2 & Hn2 & H2).
  assert (n1 = names) as -> by congruence. assert (n2 = names') as -> by congruence.
  destruct (H1 id Hid) as [l1 E1], (H2 id Hid') as [l2 E2]. destruct (assign_in_request request' names' id Hn' Hid' _ _ E2) as [-> _]. congruence.
Qed.
End laws.

(** ** Rounds go on *)

Lemma roundStart_snoc ms m : roundStart (ms ++ [m]) = if String.eqb (m_Role m) RoleUser then Some (length ms) else roundStart ms.
Proof. unfold roundStart. rewrite imap_app, foldl_app. cbn. by rewrite Nat.add_0_r. Qed.

Lemma roundStart_lt ms s : roundStart ms = Some s -> s < length ms.
Proof.
  induction ms as [|m ms IH] using rev_ind; [done|]. rewrite roundStart_snoc, length_app. cbn.
  destruct (String.eqb _ _); [intros [= <-]; lia|]. intros Hs. specialize (IH Hs). lia.
Qed.

Lemma roundStart_user ms s : roundStart ms = Some s -> exists m, ms !! s = Some m /\ m_Role m = RoleUser.
Proof.
  induction ms as [|m ms IH] using rev_ind; [done|]. rewrite roundStart_snoc. destruct (String.eqb_spec (m_Role m) RoleUser) as [E|E].
  - intros [= <-]. exists m. split; [|done]. by rewrite lookup_app_r, Nat.sub_diag.
  - intros Hs. destruct (IH Hs) as (u & Hu & Hr). exists u. split; [|done]. apply lookup_app_l_Some. exact Hu.
Qed.

Lemma roundStart_later ms more s : roundStart ms = Some s -> exists s', roundStart (ms ++ more) = Some s' /\ s <= s'.
Proof.
  intros Hs. induction more as [|m more IH] using rev_ind; [exists s; by rewrite app_nil_r|].
  rewrite app_assoc, roundStart_snoc. destruct (String.eqb _ _); [|done].
  eexists. split; [done|]. apply roundStart_lt in Hs. rewrite length_app. lia.
Qed.

(** How many Messages of a request are sent the same by every later one: all, or, when a provider
    takes the reasoning of one Round only, those up to the start of the last. *)
Definition shared (roundReasoning : bool) (ms : list Message) : nat :=
  if roundReasoning then match roundStart ms with Some s => S s | None => 0 end else length ms.

Lemma shared_le rr ms : shared rr ms <= length ms.
Proof. unfold shared. destruct rr; [|done]. destruct (roundStart ms) eqn:E; [|lia]. apply roundStart_lt in E. lia. Qed.

Lemma keeps_shared rr ms more i : i < shared rr ms ->
  keepsReasoning rr i (roundStart (ms ++ more)) = keepsReasoning rr i (roundStart ms).
Proof.
  unfold shared, keepsReasoning. destruct rr; [|done]. destruct (roundStart ms) as [s|] eqn:E; [|lia]. intros Hi.
  destruct (roundStart_later ms more s E) as (s' & -> & Hle). cbn [negb orb].
  destruct (Nat.ltb_spec s i), (Nat.ltb_spec s' i); lia || done.
Qed.

(** ** Requests of one Session, one after the other *)

(** What [mapM] makes, one by one, whatever becomes of the map. *)
Lemma mapM_each {A B : Type} (f : A -> encoder B) (l : list A) names left ys :
  mapM f l names = Ok (left, ys) -> Forall2 (fun x y => exists n n', f x n = Ok (n', y)) l ys.
Proof.
  revert names left ys. induction l as [|x l IH]; intros names left ys; cbn; [by intros [= <- <-]|].
  unfold mbind, encoder_bind. destruct (f x names) as [[n y]|] eqn:E; [|done].
  destruct (mapM f l n) as [[n' zs]|] eqn:E2; [|done]. intros [= <- <-]. constructor; [by eexists _, _|by eapply IH].
Qed.

Lemma bind_ok {A B : Type} (m : encoder A) (k : A -> encoder B) names left b :
  (m ≫= k) names = Ok (left, b) -> exists n a, m names = Ok (n, a) /\ k a n = Ok (left, b).
Proof. unfold mbind, encoder_bind. destruct (m names) as [[n a]|] eqn:E; [|done]. intros Hk. by exists n, a. Qed.

Lemma is_ok_inv {E A : Type} (m : result E A) : is_ok m = true -> exists a, m = Ok a.
Proof. destruct m as [a|]; [|done]. by exists a. Qed.

Lemma ret_ok {A : Type} (a b : A) names left : (mret a : encoder A) names = Ok (left, b) -> left = names /\ b = a.
Proof. by intros [= <- <-]. Qed.

Lemma result_ok {A : Type} (r : result encodeError A) names left a : of_result r names = Ok (left, a) -> left = names /\ r = Ok a.
Proof. unfold of_result. destruct r; [|done]. by intros [= <- <-]. Qed.

(** The next request has the Messages of the one before and more, the same system text, the same
    list of Tools, and names every ID as the one before. *)
Record continues `{Encoding} (native : bool) (request request' : ModelRequest) : Prop := {
  ct_messages : exists more, mr_Messages request' = mr_Messages request ++ more;
  ct_system : mr_SystemInstructions request' = mr_SystemInstructions request;
  ct_tools : orderedTools (newDeferredLayout request' native) request' = orderedTools (newDeferredLayout request native) request;
  ct_layout : is_Some (newDeferredLayout request' native) <-> is_Some (newDeferredLayout request native);
  ct_references r : references (newDeferredLayout request' native) r = references (newDeferredLayout request native) r;
  ct_ids id : id ∈ request_ids request -> id ∈ request_ids request';
  ct_names : no_collisions (request_ids request');
}.

Lemma request_ids_spec `{Encoding} request id :
  id ∈ request_ids request <->
  (exists spec, spec ∈ mr_Tools request ++ mr_UnloadedTools request /\ id = bytes_of (ts_ID spec)) \/
  (exists m call, m ∈ mr_Messages request /\ call ∈ m_ToolCalls m /\ id = bytes_of (tc_ToolID call)).
Proof.
  unfold request_ids. rewrite !elem_of_app, !list_elem_of_fmap, list_elem_of_bind. split.
  - intros [(s & -> & Hs)|[(s & -> & Hs)|(m & (c & -> & Hc)%list_elem_of_fmap & Hm)]].
    + left. exists s. rewrite elem_of_app. auto.
    + left. exists s. rewrite elem_of_app. auto.
    + right. by exists m, c.
  - intros [(s & [Hs|Hs]%elem_of_app & ->)|(m & c & Hm & Hc & ->)]; [left; eauto|right; left; eauto|].
    right; right. exists m. split; [|done]. by apply (list_elem_of_fmap_2 (fun call => bytes_of (tc_ToolID call))).
Qed.

(** So it is when the Tools that were loaded since are shown by the Messages. *)
Lemma loads_continue `{Encoding} specs request request' l :
  loads specs request request' -> distinct_tools request -> newDeferredLayout request true = Some l ->
  (exists more, mr_Messages request' = mr_Messages request ++ more) -> mr_SystemInstructions request' = mr_SystemInstructions request ->
  no_collisions (request_ids request') -> continues true request request'.
Proof.
  intros Hl Hd Hlay Hm Hs Hc. destruct (tool_list_kept_by_loads specs request request' l Hl Hd Hlay) as (l' & Hlay' & Ht & Hdef & _).
  split; rewrite ?Hlay, ?Hlay'; try done.
  - intros [r|]; [|done]. cbn. by rewrite Hdef.
  - intros id. rewrite !request_ids_spec. destruct Hm as [more ->]. intros [(s & Hin & ->)|(m & c & Hin & Hcc & ->)].
    + left. exists s. split; [|done]. revert Hin. rewrite !elem_of_app, (lo_tools _ _ _ Hl), (lo_unloaded _ _ _ Hl), !elem_of_app. tauto.
    + right. exists m, c. rewrite elem_of_app. auto.
Qed.

(** The marker of [withRoundBreakpoint] is on a Message that later requests send the same. *)
Lemma round_marker_shared ms start : roundStart (removelast ms) = Some start -> start < shared true ms.
Proof.
  destruct ms as [|m ms _] using rev_ind; [done|]. rewrite removelast_last. intros Hs.
  destruct (roundStart_later ms [m] start Hs) as (s & Hs' & Hle). unfold shared. rewrite Hs'. lia.
Qed.

(** Every call of the history has its result right after it: what a Run keeps ([message_step]). *)
Definition answered (messages : list Message) : Prop :=
  foldl (fun open m => open ≫= fun open => message_step open m) (Some []) messages = Some [].

Lemma step_none {S A : Type} (f : S -> A -> option S) ms : foldl (fun open m => open ≫= fun open => f open m) None ms = None.
Proof. by induction ms. Qed.

(** ** What later requests share *)

Section sharing.
Context {X : Type} (convert : bool -> Message -> encoder X).

Lemma each_agrees names names' rr start ms :
  (forall keep i m, (i, m) ∈ ms -> agrees names names' (convert keep m)) -> agrees names names' (each_message convert rr start ms).
Proof. intros Hf. apply agrees_mapM. intros [i m] Hm. by eapply Hf. Qed.

Lemma each_cons rr start p ms : each_message convert rr start (p :: ms) =
  (x ← convert (keepsReasoning rr p.1 start) p.2; xs ← each_message convert rr start ms; mret (x :: xs)).
Proof. done. Qed.

Lemma each_app names left rr start a b xs : each_message convert rr start (a ++ b) names = Ok (left, xs) ->
  exists mid ys zs, each_message convert rr start a names = Ok (mid, ys) /\ each_message convert rr start b mid = Ok (left, zs) /\ xs = ys ++ zs.
Proof.
  revert names xs. induction a as [|p a IH]; intros names xs; [intros Hb; by exists names, [], xs|].
  cbn [app]. rewrite each_cons. intros (n & x & Hx & (n' & rest & Hr & [-> ->]%ret_ok)%bind_ok)%bind_ok. destruct (IH _ _ Hr) as (mid & ys & zs & Hy & Hz & ->).
  exists mid, (x :: ys), zs. rewrite each_cons. unfold mbind, encoder_bind. by rewrite Hx, Hy.
Qed.

Lemma each_same rr start start' ms names left xs :
  (forall i m, (i, m) ∈ ms -> keepsReasoning rr i start' = keepsReasoning rr i start) ->
  each_message convert rr start ms names = Ok (left, xs) -> each_message convert rr start' ms names = Ok (left, xs).
Proof.
  revert names xs. induction ms as [|[i m] ms IH]; intros names xs Hk; [done|]. rewrite !each_cons. cbn [fst snd].
  intros (n & x & Hx & (n' & rest & Hr & [-> ->]%ret_ok)%bind_ok)%bind_ok. rewrite (Hk i m) by by left.
  unfold mbind, encoder_bind. rewrite Hx, (IH n rest); [done| |done]. intros j m' Hin. apply (Hk j m'). by right.
Qed.

Lemma imap_pair_in {A : Type} (l : list A) i x : (i, x) ∈ imap pair l -> l !! i = Some x.
Proof.
  intros (j & Hj)%list_elem_of_lookup_1. rewrite list_lookup_imap in Hj. destruct (l !! j) eqn:E; [|done]. by injection Hj as <- <-.
Qed.

(** The Messages that two requests share become the same. *)
Lemma each_shared rr ms more names names' left left' xs xs' :
  each_message convert rr (roundStart ms) (imap pair ms) names = Ok (left, xs) ->
  each_message convert rr (roundStart (ms ++ more)) (imap pair (ms ++ more)) names' = Ok (left', xs') ->
  (forall keep m, m ∈ ms -> agrees names names' (convert keep m)) -> (forall keep m, m ∈ ms ++ more -> agrees names' names' (convert keep m)) ->
  exists firsts rest rest',
    each_message convert rr (roundStart ms) (take (shared rr ms) (imap pair ms)) names = Ok (names, firsts) /\
    xs = firsts ++ rest /\ xs' = firsts ++ rest' /\ (rr = false -> rest = []).
Proof.
  intros He He' Ha Ha'. set (n := shared rr ms). pose proof (shared_le rr ms) as Hle.
  rewrite <- (take_drop n (imap pair ms)) in He. apply each_app in He as (mid & firsts & rest & Hf & Hr & ->).
  assert (forall i m, (i, m) ∈ take n (imap pair ms) -> i < n /\ m ∈ ms) as Hin.
  { intros i m Hm. apply list_elem_of_lookup_1 in Hm as (j & Hj). apply lookup_take_Some in Hj as [Hj Hlt].
    rewrite list_lookup_imap in Hj. destruct (ms !! j) eqn:E; [|done]. injection Hj as <- <-. split; [done|]. by eapply list_elem_of_lookup_2. }
  destruct (each_agrees names names' rr (roundStart ms) (take n (imap pair ms))) with (left := mid) (a := firsts) as [-> Hf']; [|done|].
  { intros keep i m Hm. apply Ha. by eapply Hin. }
  rewrite imap_app, <- (take_drop n (imap pair ms)), <- app_assoc in He'. apply each_app in He' as (mid' & ys & rest' & Hy & _ & ->).
  assert (each_message convert rr (roundStart (ms ++ more)) (take n (imap pair ms)) names' = Ok (names', firsts)) as Hz.
  { eapply each_same; [|exact Hf']. intros i m Hm. apply keeps_shared. by eapply Hin. }
  assert (ys = firsts) as -> by congruence. exists firsts, rest, rest'. split; [done|]. split; [done|]. split; [done|].
  intros ->. unfold n, shared in Hr. rewrite drop_ge in Hr by (rewrite length_imap; done). by injection Hr as _ <-.
Qed.
End sharing.

Lemma each_ext {X : Type} (convert convert' : bool -> Message -> encoder X) rr start ms :
  (forall keep i m, (i, m) ∈ ms -> convert keep m = convert' keep m) -> each_message convert rr start ms = each_message convert' rr start ms.
Proof.
  induction ms as [|[i m] ms IH]; intros He; [done|]. rewrite !each_cons, IH, (He _ i m); [done|by left|].
  intros keep j m' Hin. apply (He keep j). by right.
Qed.

Section known.
Context `{HexHash} (native : bool) (request request' : ModelRequest) (Hc : continues native request request').
Context (names names' : gmap bytes bytes) (Hn : functionNames request = Ok names) (Hn' : functionNames request' = Ok names').

Lemma fewer_collisions : no_collisions (request_ids request).
Proof. intros i j Hi Hj. apply (ct_names _ _ _ Hc); by apply (ct_ids _ _ _ Hc). Qed.

Lemma known_before id : bytes_of id ∈ request_ids request -> agrees names names' (assign id).
Proof.
  intros Hid. eapply (requests_agree request request'); try done; [apply fewer_collisions|apply (ct_names _ _ _ Hc)|by apply (ct_ids _ _ _ Hc)].
Qed.

Lemma known_after id : bytes_of id ∈ request_ids request' -> agrees names' names' (assign id).
Proof. by apply assign_in_request. Qed.
End known.

(** What a Tool result refers to is among the Tools. *)
Lemma referenced_known `{Encoding} native request r id :
  id ∈ references (newDeferredLayout request native) r -> bytes_of id ∈ request_ids request.
Proof.
  unfold newDeferredLayout. destruct (_ || _); [by intros ?%elem_of_nil|]. destruct r as [r|]; [|by intros ?%elem_of_nil]. cbn.
  intros [Hid _]%list_elem_of_filter. apply elem_of_list_to_set, list_elem_of_fmap in Hid as (t & -> & Ht). apply request_ids_spec. left.
  unfold deferred_group in Ht. apply list_elem_of_fmap in Ht as (s & -> & Hs). exists s. split; [|done]. rewrite elem_of_app in Hs |- *.
  rewrite list_elem_of_filter in Hs. tauto.
Qed.

Lemma call_known `{Encoding} request m call : m ∈ mr_Messages request -> call ∈ m_ToolCalls m -> bytes_of (tc_ToolID call) ∈ request_ids request.
Proof. intros Hm Hc. apply request_ids_spec. right. by exists m, call. Qed.

(** The Tools that are sent are those of the request, and those to load. *)
Lemma ordered_known `{Encoding} native request entry :
  entry ∈ orderedTools (newDeferredLayout request native) request -> bytes_of (ts_ID (ly_spec entry)) ∈ request_ids request.
Proof.
  intros Ht. apply request_ids_spec. left. exists (ly_spec entry). split; [|done]. revert Ht.
  unfold newDeferredLayout. destruct (_ || _); cbn.
  - intros (s & -> & Hs)%list_elem_of_fmap. apply elem_of_app. by left.
  - rewrite elem_of_app, !by_id_perm. unfold plain_group, deferred_group. rewrite !list_elem_of_fmap.
    intros [(s & -> & Hs)|(s & -> & Hs)]; cbn; [apply list_elem_of_filter in Hs as [_ Hs]; apply elem_of_app; by left|].
    rewrite elem_of_app in Hs |- *. rewrite list_elem_of_filter in Hs. tauto.
Qed.
