(* ===== verification/AnthropicRequest.v ===== *)
(** * Requests of the Anthropic Messages API

    [model/anthropic.go]: the payload that [encodeAnthropicRequest] hands to [json.Marshal], and
    [Encode] around it.  A [map[string]any] is a list of its members. *)

From S2P Require Import Prelude GoStrings Errors Types Request Schema FunctionNames Deferred ChatDecoder Profile RunCalls WireRequest.
Local Open Scope string_scope.
Local Open Scope list_scope.

(** ** Payloads *)

Inductive anyValue : Type :=
| AnyJson (value : json)
| AnyRaw (text : bytes)
| AnyBlocks (blocks : list (list (string * anyValue))).

Abbreviation anthropicBlock := (list (string * anyValue)) (only parsing).

Fixpoint get (name : string) (block : anthropicBlock) : option anyValue :=
  match block with
  | [] => None
  | (key, value) :: rest => if String.eqb key name then Some value else get name rest
  end.

(** [block[name] = value]. *)
Fixpoint put (name : string) (value : anyValue) (block : anthropicBlock) : anthropicBlock :=
  match block with
  | [] => [(name, value)]
  | (key, old) :: rest => if String.eqb key name then (name, value) :: rest else (key, old) :: put name value rest
  end.

Definition any_text (s : string) : anyValue := AnyJson (JString s).

(** [block[name].(string)], the empty string when it is none. *)
Definition get_text (name : string) (block : anthropicBlock) : string :=
  match get name block with Some (AnyJson (JString s)) => s | _ => "" end.

Record anthropicMessage := MkWireMessage { am_Role : string; am_Content : list anthropicBlock }.

Record anthropicTool := MkWireTool {
  at_Name : string;
  at_Description : string;
  at_InputSchema : bytes;
  at_CacheControl : option json;
  at_DeferLoading : bool;
}.
#[export] Instance eta_anthropicTool : Eta anthropicTool := fun t =>
  MkWireTool (at_Name t) (at_Description t) (at_InputSchema t) (at_CacheControl t) (at_DeferLoading t).

Record anthropicThinking := MkThinking { th_Type : string; th_PrefixMismatchBehavior : string }.

Record anthropicRequest := MkAnthropicRequest {
  aq_Model : string;
  aq_MaxTokens : N;
  aq_System : list anthropicBlock;
  aq_Messages : list anthropicMessage;
  aq_Tools : list anthropicTool;
  aq_Temperature : option float64;
  aq_Thinking : option anthropicThinking;
  aq_Stream : bool;
}.
#[export] Instance eta_anthropicRequest : Eta anthropicRequest := fun p =>
  MkAnthropicRequest (aq_Model p) (aq_MaxTokens p) (aq_System p) (aq_Messages p) (aq_Tools p) (aq_Temperature p) (aq_Thinking p) (aq_Stream p).

Definition defaultAnthropicMaxTokens : N := 8192%N.
Definition maxAnthropicCacheBreakpoints : nat := 4.
Definition defaultAnthropicVersion : string := "2023-06-01".
Definition anthropicBindingBeta : string := "thinking-binding-controls-2026-08-01".
Definition anthropicLongTTL : string := "1h".
Definition hour : duration := (60 * minute)%Z.

(** [blockRef]: a Message of the payload, and a block of it. *)
Abbreviation blockRef := (nat * nat)%type (only parsing).

(** ** Blocks *)

Section blocks.
Context `{Encoding, ChatJson, JsonText, WireText}.

Definition text_block (text : string) : anthropicBlock := [("type", any_text "text"); ("text", any_text text)].

Definition image_block (part : ContentPart) : anthropicBlock :=
  [("type", any_text "image");
   ("source", AnyJson (JObject [("type", JString "base64"); ("media_type", JString (cp_MIMEType part)); ("data", JString (base64 (cp_Data part)))]))].

Definition result_block (callID content : string) (failed : bool) : anthropicBlock :=
  [("type", any_text "tool_result"); ("tool_use_id", any_text callID); ("content", any_text content)]
  ++ (if failed then [("is_error", AnyJson (JBool true))] else []).

Definition use_block (id name : string) (input : bytes) : anthropicBlock :=
  [("type", any_text "tool_use"); ("id", any_text id); ("name", any_text name); ("input", AnyRaw input)].

(** The cases of [anthropicBlocks]. *)
Definition user_blocks (part : ContentPart) : list anthropicBlock :=
  if bool_decide (cp_Kind part ∈ [ContentKindText; ContentKindJSON]) then if String.eqb (cp_Text part) "" then [] else [text_block (cp_Text part)]
  else if String.eqb (cp_Kind part) ContentKindImage then if bool_decide (cp_Data part = []) then [] else [image_block part]
  else [].

Definition tool_result_block (message : Message) : anthropicBlock :=
  let (callID, failed) := match m_ToolResult message with
                          | Some r => (tr_CallID r, negb (String.eqb (tr_Status r) "") && negb (String.eqb (tr_Status r) ToolResultStatusOK))
                          | None => ("", false)
                          end in
  result_block callID (toolResultOutput message) failed.

(** A signed artifact, as the provider sent it. *)
Definition replayed (signature : bytes) : result encodeError anthropicBlock :=
  let checked (block : anthropicBlock) :=
    let kind := get_text "type" block in
    if String.eqb kind "thinking" || String.eqb kind "redacted_thinking" then Ok block else Err (ArtifactKind kind) in
  match json_decode signature with
  | Some (JObject fields) => checked ((fun f => (f.1, AnyJson f.2)) <$> fields)
  | Some JNull => checked []
  | _ => Err InvalidArtifact
  end.

Definition assistant_blocks (keepReasoning : bool) (part : ContentPart) : result encodeError (list anthropicBlock) :=
  let kind := cp_Kind part in
  if String.eqb kind ContentKindReasoning then
    if bool_decide (cp_Signature part = []) || negb keepReasoning then Ok [] else let? block := replayed (cp_Signature part) in Ok [block]
  else if String.eqb kind ContentKindText then Ok (if String.eqb (cp_Text part) "" then [] else [text_block (cp_Text part)])
  else if bool_decide (kind ∈ [ContentKindImage; ContentKindJSON]) then
    if negb (bool_decide (cp_Data part = [])) || negb (String.eqb (cp_Text part) "") then Err (UnsupportedKind kind) else Ok []
  else Ok [].

Definition call_block (call : ToolCall) : encoder anthropicBlock :=
  name ← assign (tc_ToolID call); mret (use_block (tc_ID call) name (replayArguments (tc_Arguments call))).

(** [anthropicBlocks]. *)
Definition anthropicBlocks (message : Message) (keepReasoning : bool) : encoder (string * list anthropicBlock) :=
  let role := m_Role message in
  if bool_decide (role ∈ [RoleUser; RoleNotice]) then mret ("user", m_Parts message ≫= user_blocks)
  else if String.eqb role RoleToolResult then mret ("user", [tool_result_block message])
  else if String.eqb role RoleAssistant then
    said ← mapM (fun part => of_result (assistant_blocks keepReasoning part)) (m_Parts message);
    calls ← mapM call_block (m_ToolCalls message);
    mret ("assistant", mjoin said ++ calls)
  else refuse_with (UnsupportedRole role).

Definition reference_block (id : string) : encoder anthropicBlock :=
  name ← assign id; mret [("type", any_text "tool_reference"); ("tool_name", any_text name)].

(** A Tool result shows the Tools that it loaded. *)
Definition with_references (layout : option deferredLayout) (message : Message) (blocks : list anthropicBlock) : encoder (list anthropicBlock) :=
  match references layout (m_ToolResult message), blocks with
  | id :: ids, [block] =>
    shown ← mapM reference_block (id :: ids);
    let text := default (AnyJson JNull) (get "content" block) in
    mret [put "content" (AnyBlocks ([("type", any_text "text"); ("text", text)] :: shown)) block]
  | _, _ => mret blocks
  end.

Definition message_blocks (layout : option deferredLayout) (keepReasoning : bool) (message : Message) : encoder (string * list anthropicBlock) :=
  '(role, blocks) ← anthropicBlocks message keepReasoning;
  blocks ← with_references layout message blocks;
  mret (role, blocks).

(** ** Messages and Tools *)

(** Blocks go to the last message of their role, or to a new one. *)
Definition add_blocks (role : string) (blocks : list anthropicBlock) (ms : list anthropicMessage) : list anthropicMessage :=
  match last ms with
  | Some m =>
    if String.eqb (am_Role m) role then alter (fun m => MkWireMessage (am_Role m) (am_Content m ++ blocks)) (length ms - 1) ms
    else ms ++ [MkWireMessage role blocks]
  | None => [MkWireMessage role blocks]
  end.

(** A Message's blocks, and where the last of them is. *)
Definition place (acc : list anthropicMessage * list (option blockRef)) (piece : string * list anthropicBlock) :
  list anthropicMessage * list (option blockRef) :=
  let '(ms, ends) := acc in let '(role, blocks) := piece in
  match blocks with
  | [] => (ms, ends ++ [None])
  | _ =>
    let ms := add_blocks role blocks ms in
    (ms, ends ++ [Some (length ms - 1, length (default [] (am_Content <$> last ms)) - 1)])
  end.

(** An object with the one member ["type":"object"]. *)
Definition object_schema : string :=
  let q := String quote "" in ("{" ++ q ++ "type" ++ q ++ ":" ++ q ++ "object" ++ q ++ "}")%string.

Definition wire_tool (entry : layoutTool) : encoder anthropicTool :=
  name ← assign (ts_ID (ly_spec entry));
  schema ← of_result (toolSchema (ly_spec entry) object_schema);
  mret (MkWireTool name (ts_Description (ly_spec entry)) schema None (ly_deferred entry)).

Definition encode_pieces (layout : option deferredLayout) (roundReasoning : bool) (messages : list Message) : encoder (list (string * list anthropicBlock)) :=
  each_message (message_blocks layout) roundReasoning (roundStart messages) (imap pair messages).

End blocks.

(** ** Cache markers *)

Fixpoint insert_marker (start : nat) (points : list CacheBreakpoint) : list CacheBreakpoint :=
  match points with
  | [] => [MkBreakpoint CacheAnchorAfterMessage start]
  | p :: rest =>
    if String.eqb (bp_After p) CacheAnchorAfterMessage && (start <=? bp_Index p)%nat
    then (if (start <? bp_Index p)%nat then [MkBreakpoint CacheAnchorAfterMessage start] else []) ++ p :: rest
    else p :: insert_marker start rest
  end.

(** [withRoundBreakpoint]. *)
Definition withRoundBreakpoint (points : list CacheBreakpoint) (messages : list Message) : list CacheBreakpoint :=
  if (length messages <? 2)%nat then points
  else match roundStart (removelast messages) with Some start => insert_marker start points | None => points end.

Inductive target : Type :=
| AtSystem
| AtTools
| AtBlock (ref : blockRef).
#[export] Instance target_eq_dec : EqDecision target.
Proof. solve_decision. Defined.

Definition target_of (payload : anthropicRequest) (ends : list (option blockRef)) (point : CacheBreakpoint) : option target :=
  if String.eqb (bp_After point) CacheAnchorAfterSystem then if bool_decide (aq_System payload = []) then None else Some AtSystem
  else if String.eqb (bp_After point) CacheAnchorAfterTools then match aq_Tools payload with [] => None | _ => Some AtTools end
  else if String.eqb (bp_After point) CacheAnchorAfterMessage then AtBlock <$> mjoin (ends !! bp_Index point)
  else None.

(** The targets, each where it is first met. *)
Definition add_target (seen : list target) (t : target) : list target := if bool_decide (t ∈ seen) then seen else seen ++ [t].
Definition targets_of (payload : anthropicRequest) (ends : list (option blockRef)) (points : list CacheBreakpoint) : list target :=
  foldl add_target [] (omap (target_of payload ends) points).

Definition marker (ttl : string) : json :=
  JObject (("type", JString "ephemeral") :: if String.eqb ttl "" then [] else [("ttl", JString ttl)]).

Definition mark (ttl : string) (block : anthropicBlock) : anthropicBlock := put "cache_control" (AnyJson (marker ttl)) block.

(** The last Tool that is not deferred, or the first Tool. *)
Fixpoint marked_tool (tools : list anthropicTool) (end_ : nat) : nat :=
  match end_ with
  | 0 => 0
  | S before => match tools !! end_ with Some t => if at_DeferLoading t then marked_tool tools before else end_ | None => end_ end
  end.

Definition mark_target (ttl : string) (payload : anthropicRequest) (t : target) : anthropicRequest :=
  match t with
  | AtSystem => payload <| aq_System := alter (mark ttl) (length (aq_System payload) - 1) (aq_System payload) |>
  | AtTools =>
    payload <| aq_Tools := alter (fun t => t <| at_CacheControl := Some (marker ttl) |>)
      (marked_tool (aq_Tools payload) (length (aq_Tools payload) - 1)) (aq_Tools payload) |>
  | AtBlock (m, b) =>
    payload <| aq_Messages := alter (fun w => MkWireMessage (am_Role w) (alter (mark ttl) b (am_Content w))) m (aq_Messages payload) |>
  end.

(** [applyAnthropicCacheBreakpoints]. *)
Definition applyAnthropicCacheBreakpoints (payload : anthropicRequest) (points : list CacheBreakpoint) (ends : list (option blockRef)) (ttl : string) : anthropicRequest :=
  let targets := targets_of payload ends points in
  foldl (mark_target ttl) payload (drop (length targets - maxAnthropicCacheBreakpoints) targets).

(** ** The request *)

Section request.
Context `{Encoding, ChatJson, JsonText, WireText}.

(** The payload before the markers, and where each Message ends. *)
Definition unmarked (model : ModelConfig) (sampling : Sampling) (request : ModelRequest) (native : bool) :
  encoder (anthropicRequest * list (option blockRef)) :=
  let layout := newDeferredLayout request native in
  tools ← mapM wire_tool (orderedTools layout request);
  pieces ← encode_pieces layout (mf_RoundReasoning (mo_Facts model)) (mr_Messages request);
  let (messages, ends) := foldl place ([], []) pieces in
  mret (MkAnthropicRequest (mo_Name model)
    (if N.eqb (sa_MaxTokens sampling) 0 then defaultAnthropicMaxTokens else sa_MaxTokens sampling)
    (if String.eqb (mr_SystemInstructions request) "" then [] else [text_block (mr_SystemInstructions request)])
    messages tools (sa_Temperature sampling)
    (if mf_ThinkingBinding (mo_Facts model) then Some (MkThinking "adaptive" "drop_block") else None) true, ends).

Definition ttl_of (facts : ModelFacts) : string := if (hour <=? mf_CacheRetention facts)%Z then anthropicLongTTL else "".

Definition breakpoints_of (model : ModelConfig) (request : ModelRequest) : list CacheBreakpoint :=
  if mf_RoundReasoning (mo_Facts model) then withRoundBreakpoint (mr_CacheBreakpoints request) (mr_Messages request)
  else mr_CacheBreakpoints request.

Definition anthropicPayload (model : ModelConfig) (sampling : Sampling) (request : ModelRequest) (native : bool) :
  result encodeError (gmap bytes bytes * anthropicRequest) :=
  let? _ := refuseReasoningConfig "Anthropic Messages" sampling in
  with_names request (
    '(payload, ends) ← unmarked model sampling request native;
    mret (applyAnthropicCacheBreakpoints payload (breakpoints_of model request) ends (ttl_of (mo_Facts model)))).

(** [encodeAnthropicRequest]. *)
Definition encodeAnthropicRequest `{Marshal anthropicRequest} (model : ModelConfig) (sampling : Sampling) (request : ModelRequest) (native : bool) :
  result encodeError (bytes * gmap bytes bytes) :=
  let? (names, payload) := anthropicPayload model sampling request native in
  match marshal payload with Ok body => Ok (body, names) | Err err => Err (MarshalFailed err) end.

(** [strings.Split] at commas. *)
Fixpoint split_commas (s : bytes) : list bytes :=
  match s with
  | [] => [[]]
  | c :: rest =>
    match split_commas rest with
    | first :: more => if ascii_dec c ","%char then [] :: first :: more else (c :: first) :: more
    | [] => [[c]]
    end
  end.

(** [withAnthropicBeta]. *)
Definition withAnthropicBeta (current beta : string) : string :=
  if existsb (fun name => String.eqb (string_of (trim_space name)) beta) (split_commas (bytes_of current)) then current
  else if String.eqb current "" then beta else (current ++ "," ++ beta)%string.

(** The headers that [AnthropicMessages.Encode] sets; [held] is what the call's own answer. *)
Definition AnthropicHeaders (version : string) (held : string -> string) (facts : ModelFacts) (apiKey : string) : list (string * string) :=
  let version := if String.eqb version "" then held "anthropic-version" else version in
  [("anthropic-version", if String.eqb version "" then defaultAnthropicVersion else version)]
  ++ (if mf_ThinkingBinding facts then [("anthropic-beta", withAnthropicBeta (held "anthropic-beta") anthropicBindingBeta)] else [])
  ++ (if String.eqb apiKey "" then [] else [("x-api-key", apiKey)]).

(** [AnthropicMessages.Encode]. *)
Definition AnthropicEncode `{Marshal anthropicRequest} (version form : string) (held : string -> string) (model : ModelConfig) (sampling : Sampling)
  (request : ModelRequest) (apiKey : string) : result encodeError (bytes * list (string * string) * gmap bytes bytes) :=
  let? native := native_form form in
  let? (body, names) := encodeAnthropicRequest model sampling request native in
  Ok (body, AnthropicHeaders version held (mo_Facts model) apiKey, names).
End request.

(** A list of betas that has the one that is asked for is not given it again. *)
Lemma split_commas_app a b : split_commas (a ++ ","%char :: b) = split_commas a ++ split_commas b.
Proof.
  induction a as [|c a IH]; cbn.
  - destruct (split_commas b) as [|f m] eqn:E; [destruct b as [|d b]; cbn in E; [done|]; by destruct (split_commas b); [|destruct (ascii_dec d _)]|done].
  - rewrite IH. destruct (split_commas a) as [|f m] eqn:E; [destruct a as [|d a]; cbn in E; [done|]; by destruct (split_commas a); [|destruct (ascii_dec d _)]|].
    cbn. by destruct (ascii_dec c _).
Qed.

Lemma beta_named_once current : withAnthropicBeta (withAnthropicBeta current anthropicBindingBeta) anthropicBindingBeta = withAnthropicBeta current anthropicBindingBeta.
Proof.
  unfold withAnthropicBeta at 2 3. destruct (existsb _ (split_commas (bytes_of current))) eqn:E; [unfold withAnthropicBeta; by rewrite E|].
  destruct (String.eqb_spec current "") as [->|Hne]; [vm_compute; reflexivity|].
  unfold withAnthropicBeta. rewrite bytes_of_app, bytes_of_app. cbn [bytes_of String.append app].
  assert (forall s, split_commas (bytes_of current ++ bytes_of "," ++ s) = split_commas (bytes_of current) ++ split_commas s) as Hs by (intros s; apply split_commas_app).
  rewrite Hs, existsb_app. replace (existsb _ (split_commas (bytes_of anthropicBindingBeta))) with true by (vm_compute; reflexivity). by rewrite orb_true_r.
Qed.

(** ** Blocks and their marks *)

Definition uses (blocks : list anthropicBlock) : list string :=
  get_text "id" <$> filter (fun b => get_text "type" b = "tool_use") blocks.
Definition results (blocks : list anthropicBlock) : list string :=
  get_text "tool_use_id" <$> filter (fun b => get_text "type" b = "tool_result") blocks.

(** The same block, but for its mark. *)
Definition like (b b' : anthropicBlock) : Prop := forall name, name <> "cache_control" -> get name b' = get name b.

Lemma like_refl b : like b b.
Proof. done. Qed.

Lemma like_trans a b c : like a b -> like b c -> like a c.
Proof. intros H1 H2 name Hn. by rewrite (H2 name Hn), (H1 name Hn). Qed.

Lemma like_sym a b : like a b -> like b a.
Proof. intros H1 name Hn. by rewrite (H1 name Hn). Qed.

Lemma get_put_ne name other value block : name <> other -> get name (put other value block) = get name block.
Proof.
  intros Hn. induction block as [|[key old] rest IH]; cbn.
  - destruct (String.eqb_spec other name); [congruence|done].
  - destruct (String.eqb_spec key other) as [->|Hk]; cbn.
    + destruct (String.eqb_spec other name); [congruence|done].
    + by destruct (String.eqb key name).
Qed.

Lemma get_put_eq name value block : get name (put name value block) = Some value.
Proof.
  induction block as [|[key old] rest IH]; cbn; [by rewrite String.eqb_refl|].
  destruct (String.eqb_spec key name) as [->|Hk]; cbn; [by rewrite String.eqb_refl|]. by rewrite (proj2 (String.eqb_neq key name) Hk).
Qed.

Lemma mark_like ttl block : like block (mark ttl block).
Proof. intros name Hn. by apply get_put_ne. Qed.

Lemma like_text name b b' : like b b' -> name <> "cache_control" -> get_text name b' = get_text name b.
Proof. intros Hl Hn. unfold get_text. by rewrite Hl. Qed.

Lemma like_uses bs bs' : Forall2 like bs bs' -> uses bs' = uses bs.
Proof.
  unfold uses. induction 1 as [|b b' bs bs' Hb _ IH]; [done|]. rewrite !filter_cons, (like_text "type" b b') by done.
  destruct (decide _); cbn; [rewrite (like_text "id" b b') by done|]; by rewrite IH.
Qed.

Lemma like_results bs bs' : Forall2 like bs bs' -> results bs' = results bs.
Proof.
  unfold results. induction 1 as [|b b' bs bs' Hb _ IH]; [done|]. rewrite !filter_cons, (like_text "type" b b') by done.
  destruct (decide _); cbn; [rewrite (like_text "tool_use_id" b b') by done|]; by rewrite IH.
Qed.

Lemma uses_app a b : uses (a ++ b) = uses a ++ uses b.
Proof. unfold uses. by rewrite list.filter_app, fmap_app. Qed.

Lemma results_app a b : results (a ++ b) = results a ++ results b.
Proof. unfold results. by rewrite list.filter_app, fmap_app. Qed.

Lemma uses_cons b bs : uses (b :: bs) = uses [b] ++ uses bs.
Proof. apply (uses_app [b] bs). Qed.

Lemma results_cons b bs : results (b :: bs) = results [b] ++ results bs.
Proof. apply (results_app [b] bs). Qed.

(** ** Every call is answered in the next message

    A message opens with a result for each call of the message before it, in their order, and has no
    other result. *)

Definition met_by (due : list string) (content : list anthropicBlock) : Prop :=
  exists first others, content = first ++ others /\ length first = length due /\ results first = due /\ results others = [].

Inductive owes : list anthropicMessage -> list string -> Prop :=
| owes_none : owes [] []
| owes_next ms due m : owes ms due -> met_by due (am_Content m) -> owes (ms ++ [m]) (uses (am_Content m)).

Definition like_message (m m' : anthropicMessage) : Prop := am_Role m' = am_Role m /\ Forall2 like (am_Content m) (am_Content m').

Lemma met_by_like due c c' : Forall2 like c c' -> met_by due c -> met_by due c'.
Proof.
  intros Hl (first & others & -> & Hlen & Hr & Ho). apply Forall2_app_inv_l in Hl as (first' & others' & Hf & Ho' & ->).
  exists first', others'. rewrite (like_results _ _ Hf), (like_results _ _ Ho'). split; [done|]. by rewrite <- (Forall2_length Hf).
Qed.

Lemma owes_like ms due ms' : owes ms due -> Forall2 like_message ms ms' -> owes ms' due.
Proof.
  intros Ho. revert ms'. induction Ho as [|ms due m _ IH Hm]; intros ms' Hl; [inversion Hl; constructor|].
  apply Forall2_app_inv_l in Hl as (ms1 & rest & H1 & Hr & ->). inversion Hr as [|? m' ? ? [_ Hc] Hnil]; subst. inversion Hnil; subst.
  rewrite <- (like_uses _ _ Hc). econstructor; [by apply IH|]. by eapply met_by_like.
Qed.

Lemma met_by_more due content more : met_by due content -> results more = [] -> met_by due (content ++ more).
Proof.
  intros (first & others & -> & Hl & Hr & Ho) Hm. exists first, (others ++ more). rewrite app_assoc, results_app, Ho, Hm. done.
Qed.

Lemma met_by_none content : results content = [] -> met_by [] content.
Proof. intros Hr. by exists [], content. Qed.

(** What is made of a Message of the Transcript that takes the open calls from [open] to [open']. *)
Definition piece_ok (open open' : list string) (role : string) (blocks : list anthropicBlock) : Prop :=
  (open = [] /\ role = "assistant" /\ results blocks = [] /\ uses blocks = open') \/
  (open = [] /\ open' = [] /\ role = "user" /\ uses blocks = [] /\ results blocks = []) \/
  (exists id block, open = id :: open' /\ role = "user" /\ blocks = [block] /\ results [block] = [id] /\ uses [block] = []).

(** The messages so far, and the calls of the last one, or of the one before it, that are open. *)
Inductive under_way : list anthropicMessage -> list string -> Prop :=
| way_none : under_way [] []
| way_asked ms m : owes (ms ++ [m]) (uses (am_Content m)) -> (am_Role m = "user" -> uses (am_Content m) = []) ->
    under_way (ms ++ [m]) (uses (am_Content m))
| way_answering ms m answered pending : owes ms (answered ++ pending) -> pending <> [] -> am_Role m = "user" -> uses (am_Content m) = [] ->
    results (am_Content m) = answered -> length (am_Content m) = length answered -> under_way (ms ++ [m]) pending.

Lemma add_blocks_snoc role blocks ms m :
  add_blocks role blocks (ms ++ [m]) =
  if String.eqb (am_Role m) role then ms ++ [MkWireMessage (am_Role m) (am_Content m ++ blocks)] else (ms ++ [m]) ++ [MkWireMessage role blocks].
Proof.
  unfold add_blocks. rewrite last_snoc. destruct (String.eqb _ _); [|done].
  rewrite length_app. cbn. rewrite Nat.add_sub, alter_app_r_alt, Nat.sub_diag; [done|lia].
Qed.

Lemma owes_last ms m due : owes (ms ++ [m]) due -> exists before, owes ms before /\ met_by before (am_Content m) /\ due = uses (am_Content m).
Proof.
  intros Ho. inversion Ho as [Hx|ms0 before m0 H1 H2 Heq]; [by destruct ms|]. apply app_inj_tail in Heq as [-> ->]. by exists before.
Qed.

Lemma under_way_asks ms blocks open' : under_way ms [] -> results blocks = [] -> uses blocks = open' ->
  under_way (add_blocks "assistant" blocks ms) open'.
Proof.
  intros Hw Hr <-. inversion Hw as [|ms0 m Ho Hu Heq E|ms0 m an pe Ho Hp]; subst; [|rewrite add_blocks_snoc|done].
  - apply (way_asked [] (MkWireMessage "assistant" blocks)); [|done]. apply (owes_next [] [] (MkWireMessage "assistant" blocks)); [constructor|by apply met_by_none].
  - destruct (String.eqb_spec (am_Role m) "assistant") as [Hrole|Hrole].
    + destruct (owes_last _ _ _ Ho) as (before & Hb & Hm & _).
      assert (uses blocks = uses (am_Content m ++ blocks)) as -> by (by rewrite uses_app, E).
      apply (way_asked ms0 (MkWireMessage (am_Role m) (am_Content m ++ blocks))); cbn [am_Role am_Content]; [|congruence].
      apply (owes_next ms0 before (MkWireMessage (am_Role m) (am_Content m ++ blocks))); [done|by apply met_by_more].
    + rewrite E in Ho. apply (way_asked (ms0 ++ [m]) (MkWireMessage "assistant" blocks)); [|done].
      apply (owes_next (ms0 ++ [m]) [] (MkWireMessage "assistant" blocks)); [done|by apply met_by_none].
Qed.

Lemma under_way_says ms blocks : under_way ms [] -> results blocks = [] -> uses blocks = [] -> under_way (add_blocks "user" blocks ms) [].
Proof.
  intros Hw Hr Hub. rewrite <- Hub. inversion Hw as [|ms0 m Ho Hu Heq E|ms0 m an pe Ho Hp]; subst; [|rewrite add_blocks_snoc|done].
  - apply (way_asked [] (MkWireMessage "user" blocks)); [|done]. apply (owes_next [] [] (MkWireMessage "user" blocks)); [constructor|by apply met_by_none].
  - destruct (String.eqb_spec (am_Role m) "user") as [Hrole|Hrole].
    + destruct (owes_last _ _ _ Ho) as (before & Hb & Hm & _).
      assert (uses blocks = uses (am_Content m ++ blocks)) as -> by (by rewrite uses_app, E).
      apply (way_asked ms0 (MkWireMessage (am_Role m) (am_Content m ++ blocks))); cbn [am_Role am_Content]; [|by rewrite uses_app, E, Hub].
      apply (owes_next ms0 before (MkWireMessage (am_Role m) (am_Content m ++ blocks))); [done|by apply met_by_more].
    + rewrite E in Ho. apply (way_asked (ms0 ++ [m]) (MkWireMessage "user" blocks)); [|done].
      apply (owes_next (ms0 ++ [m]) [] (MkWireMessage "user" blocks)); [done|by apply met_by_none].
Qed.

(** One more result: the calls are all answered, or some are still open. *)
Lemma way_answered ms m answered pending : owes ms (answered ++ pending) -> am_Role m = "user" -> uses (am_Content m) = [] ->
  results (am_Content m) = answered -> length (am_Content m) = length answered -> under_way (ms ++ [m]) pending.
Proof.
  intros Ho Hrole Hu Hr Hl. destruct pending as [|id pending]; [|by eapply way_answering].
  rewrite <- Hu. rewrite app_nil_r in Ho. apply way_asked; [|done]. econstructor; [done|].
  exists (am_Content m), []. by rewrite app_nil_r.
Qed.

Lemma under_way_answers ms id open block : under_way ms (id :: open) -> results [block] = [id] -> uses [block] = [] ->
  under_way (add_blocks "user" [block] ms) open.
Proof.
  intros Hw Hr Hub. inversion Hw as [|ms0 m Ho Hu Heq E|ms0 m an pe Ho Hp Hrole Hus Han Hlen]; subst; rewrite add_blocks_snoc.
  - destruct (String.eqb_spec (am_Role m) "user") as [Hrole|Hrole]; [rewrite Hu in E by done; discriminate|].
    apply (way_answered (ms0 ++ [m]) (MkWireMessage "user" [block]) [id] open); try done. cbn [app]. by rewrite <- E.
  - rewrite Hrole, String.eqb_refl.
    apply (way_answered ms0 (MkWireMessage "user" (am_Content m ++ [block])) (results (am_Content m) ++ [id]) open); cbn [am_Role am_Content]; try done.
    + by rewrite <- app_assoc.
    + by rewrite uses_app, Hus, Hub.
    + by rewrite results_app, Hr.
    + rewrite !length_app, Hlen. done.
Qed.

Lemma place_way acc open open' role blocks : piece_ok open open' role blocks -> under_way acc.1 open -> under_way (place acc (role, blocks)).1 open'.
Proof.
  destruct acc as [ms ends]. cbn. intros Hp Hw. destruct blocks as [|b bs] eqn:E.
  - destruct Hp as [(-> & _ & _ & <-)|[(-> & -> & _)|(id & block & _ & _ & Hb & _)]]; [done..|discriminate].
  - rewrite <- E in *. destruct Hp as [(-> & -> & Hr & <-)|[(-> & -> & -> & Hu & Hr)|(id & block & -> & -> & -> & Hr & Hu)]].
    + destruct blocks; [done|]. by apply under_way_asks.
    + destruct blocks; [done|]. by apply under_way_says.
    + by apply (under_way_answers ms id).
Qed.

Lemma under_way_done ms : under_way ms [] -> owes ms [].
Proof. intros Hw. remember [] as open eqn:Eo in Hw. destruct Hw as [|ms m Ho _|]; [constructor|by rewrite Eo in Ho|done]. Qed.

(** ** Roles alternate *)

(** Two messages next to each other differ in their roles, and none is empty. *)
Inductive alternate : list anthropicMessage -> Prop :=
| alternate_none : alternate []
| alternate_first m : am_Content m <> [] -> alternate [m]
| alternate_next ms m m' : alternate (ms ++ [m]) -> am_Role m <> am_Role m' -> am_Content m' <> [] -> alternate ((ms ++ [m]) ++ [m']).

Lemma alternate_grow ms m content : alternate (ms ++ [m]) -> content <> [] -> alternate (ms ++ [MkWireMessage (am_Role m) content]).
Proof.
  intros Ha Hc. inversion Ha as [Hx|m0 Hm Hx|ms0 m0 m' H1 H2 H3 Hx]; [by destruct ms| |].
  - destruct ms as [|? [|]]; [|done..]. by apply alternate_first.
  - apply app_inj_tail in Hx as [<- <-]. by apply alternate_next.
Qed.

Lemma add_blocks_alternate role blocks ms : alternate ms -> blocks <> [] -> alternate (add_blocks role blocks ms).
Proof.
  intros Ha Hb. destruct ms as [|m ms _] using rev_ind; [by apply alternate_first|]. rewrite add_blocks_snoc.
  destruct (String.eqb_spec (am_Role m) role) as [E|E]; [|by apply alternate_next].
  apply alternate_grow; [done|]. by destruct (am_Content m).
Qed.

Lemma place_alternate acc piece : alternate acc.1 -> alternate (place acc piece).1.
Proof. destruct acc as [ms ends], piece as [role [|b bs]]; cbn; [done|]. intros Ha. by apply add_blocks_alternate. Qed.

Lemma alternate_like ms ms' : alternate ms -> Forall2 like_message ms ms' -> alternate ms'.
Proof.
  intros Ha. revert ms'. induction Ha as [|m Hm|ms m m' _ IH Hr Hc]; intros ms' Hl.
  - inversion Hl. constructor.
  - inversion Hl as [|? m1 ? ? [_ Hc] Hnil]; subst. inversion Hnil; subst. apply alternate_first. intros E. rewrite E in Hc. by inversion Hc.
  - apply Forall2_app_inv_l in Hl as (l1 & l2 & H1 & H2 & ->). inversion H2 as [|? m2 ? ? [Hr2 Hc2] Hnil]; subst. inversion Hnil; subst.
    specialize (IH l1 H1). apply Forall2_app_inv_l in H1 as (l3 & l4 & H3 & H4 & ->). inversion H4 as [|? m1 ? ? [Hr1 _] Hnil1]; subst. inversion Hnil1; subst.
    apply alternate_next; [done|congruence|]. intros E. rewrite E in Hc2. by inversion Hc2.
Qed.

(** ** What each Message becomes *)

Definition flat (ms : list anthropicMessage) : list (string * anthropicBlock) := ms ≫= fun m => pair (am_Role m) <$> am_Content m.

Lemma flat_app a b : flat (a ++ b) = flat a ++ flat b.
Proof. apply bind_app. Qed.

Lemma add_blocks_flat role blocks ms : flat (add_blocks role blocks ms) = flat ms ++ (pair role <$> blocks).
Proof.
  destruct ms as [|m ms _] using rev_ind; [by cbn; rewrite app_nil_r|]. rewrite add_blocks_snoc.
  destruct (String.eqb_spec (am_Role m) role) as [E|E]; rewrite !flat_app; cbn; rewrite ?app_nil_r, ?fmap_app, ?E; [by rewrite app_assoc|done].
Qed.

Lemma place_flat acc piece : flat (place acc piece).1 = flat acc.1 ++ (pair piece.1 <$> piece.2).
Proof. destruct acc as [ms ends], piece as [role [|b bs]]; cbn [place fst snd fmap list_fmap]; [by rewrite app_nil_r|apply add_blocks_flat]. Qed.

Lemma places_flat pieces acc : flat (foldl place acc pieces).1 = flat acc.1 ++ (pieces ≫= fun p => pair p.1 <$> p.2).
Proof.
  revert acc. induction pieces as [|p pieces IH]; intros acc; cbn; [by rewrite app_nil_r|]. rewrite IH, place_flat. by rewrite app_assoc.
Qed.

Section messages.
Context `{Encoding, ChatJson, JsonText, WireText}.

Lemma text_plain text : uses [text_block text] = [] /\ results [text_block text] = [].
Proof. done. Qed.

Definition quiet (b : anthropicBlock) : Prop := get_text "type" b <> "tool_use" /\ get_text "type" b <> "tool_result".

Lemma quiet_blocks bs : Forall quiet bs -> uses bs = [] /\ results bs = [].
Proof.
  unfold uses, results. induction 1 as [|b bs [Q1 Q2] _ [IH1 IH2]]; [done|]. rewrite !filter_cons, !decide_False by done. done.
Qed.

Lemma user_blocks_quiet part : Forall quiet (user_blocks part).
Proof.
  unfold user_blocks. case_bool_decide; [destruct (String.eqb _ _); by repeat constructor|].
  destruct (String.eqb _ _); [|constructor]. case_bool_decide; [constructor|by repeat constructor].
Qed.

Lemma replayed_quiet signature block : replayed signature = Ok block -> quiet block.
Proof.
  assert (forall b, (if String.eqb (get_text "type" b) "thinking" || String.eqb (get_text "type" b) "redacted_thinking" then Ok b else Err (ArtifactKind (get_text "type" b))) = Ok block -> quiet block) as Hq.
  { intros b. unfold quiet. destruct (String.eqb_spec (get_text "type" b) "thinking") as [E|E]; cbn [orb]; [intros [= <-]; by rewrite E|].
    destruct (String.eqb_spec (get_text "type" b) "redacted_thinking") as [E2|E2]; [intros [= <-]; by rewrite E2|done]. }
  unfold replayed. destruct (json_decode signature) as [[]|]; try done; apply Hq.
Qed.

Lemma assistant_blocks_quiet keep part blocks : assistant_blocks keep part = Ok blocks -> Forall quiet blocks.
Proof.
  unfold assistant_blocks. destruct (String.eqb _ _).
  - destruct (_ || _); [intros [= <-]; constructor|]. destruct (replayed _) as [block|] eqn:E; [|done]. intros [= <-].
    constructor; [by eapply replayed_quiet|constructor].
  - destruct (String.eqb _ _); [destruct (String.eqb _ _); intros [= <-]; by repeat constructor|].
    case_bool_decide; [destruct (_ || _); [done|]|]; intros [= <-]; constructor.
Qed.

Lemma calls_used calls names left blocks : mapM call_block calls names = Ok (left, blocks) -> uses blocks = tc_ID <$> calls /\ results blocks = [].
Proof.
  intros Hm%mapM_each. induction Hm as [|call block calls blocks (n & n' & Hc) _ [IH1 IH2]]; [done|].
  apply bind_ok in Hc as (n1 & name & _ & [_ ->]%ret_ok).
  rewrite uses_cons, results_cons, IH1, IH2. done.
Qed.

Lemma said_quiet keep parts names left said :
  mapM (fun part => of_result (assistant_blocks keep part)) parts names = Ok (left, said) -> Forall quiet (mjoin said).
Proof.
  intros Hm%mapM_each. induction Hm as [|part blocks parts said (n & n' & Hc) _ IH]; [constructor|].
  apply result_ok in Hc as [_ Hc]. cbn. apply list.Forall_app. split; [by eapply assistant_blocks_quiet|done].
Qed.

(** The blocks of a Message ask and answer what the Message does. *)
Lemma anthropicBlocks_ok open open' keep m names left role blocks :
  message_step open m = Some open' -> anthropicBlocks m keep names = Ok (left, (role, blocks)) -> piece_ok open open' role blocks.
Proof.
  unfold message_step, anthropicBlocks. intros Hs Hb. destruct open as [|id open].
  - case_bool_decide as Hu.
    + apply ret_ok in Hb as [_ [= -> ->]].
      assert (String.eqb (m_Role m) RoleToolResult = false /\ String.eqb (m_Role m) RoleAssistant = false) as [E1 E2].
      { apply elem_of_cons in Hu as [Hu|Hu%list_elem_of_singleton]; by rewrite Hu. }
      rewrite E1, E2 in Hs. injection Hs as <-. right; left.
      destruct (quiet_blocks (m_Parts m ≫= user_blocks)) as [Q1 Q2]; [|done].
      induction (m_Parts m) as [|p ps IH]; [constructor|]. cbn. apply list.Forall_app. split; [apply user_blocks_quiet|done].
    + destruct (String.eqb (m_Role m) RoleToolResult); [done|]. destruct (String.eqb (m_Role m) RoleAssistant); [|done]. injection Hs as <-. left.
      apply bind_ok in Hb as (n1 & said & Hsaid & Hb). apply bind_ok in Hb as (n2 & calls & Hcalls & [_ [= -> ->]]%ret_ok).
      destruct (quiet_blocks _ (said_quiet _ _ _ _ _ Hsaid)) as [Q1 Q2], (calls_used _ _ _ _ Hcalls) as [Q3 Q4].
      rewrite uses_app, results_app, Q1, Q2, Q3, Q4. done.
  - destruct (answers_call id m) eqn:Ha; [|done]. injection Hs as <-. unfold answers_call in Ha. apply andb_true_iff in Ha as [Hr Hid].
    apply String.eqb_eq in Hr. rewrite Hr in Hb. rewrite bool_decide_false in Hb by set_solver. cbn in Hb. injection Hb as _ <- <-.
    right; right. exists id. eexists. split; [done|]. split; [done|]. split; [done|]. unfold tool_result_block.
    destruct (m_ToolResult m) as [r|]; [|done]. apply String.eqb_eq in Hid as <-. by destruct (_ && _).
Qed.

Lemma references_ok layout m blocks names left blocks' :
  with_references layout m blocks names = Ok (left, blocks') -> uses blocks' = uses blocks /\ results blocks' = results blocks /\ length blocks' = length blocks.
Proof.
  unfold with_references. destruct (references layout (m_ToolResult m)) as [|id ids]; [by intros [_ ->]%ret_ok|].
  destruct blocks as [|block [|]]; [by intros [_ ->]%ret_ok| |by intros [_ ->]%ret_ok].
  intros (n & shown & _ & [_ ->]%ret_ok)%bind_ok. unfold uses, results. rewrite !filter_cons.
  unfold get_text. rewrite !get_put_ne by done. destruct (decide _), (decide _); cbn; rewrite ?get_put_ne by done; done.
Qed.

Lemma message_blocks_ok layout open open' keep m names left role blocks :
  message_step open m = Some open' -> message_blocks layout keep m names = Ok (left, (role, blocks)) -> piece_ok open open' role blocks.
Proof.
  intros Hs (n & [r bs] & Hb & (n1 & bs' & Hr & [_ [= -> ->]]%ret_ok)%bind_ok)%bind_ok.
  apply references_ok in Hr as (Hu & Hre & Hlen). destruct (anthropicBlocks_ok _ _ _ _ _ _ _ _ Hs Hb) as [(? & ? & ? & ?)|[(? & ? & ? & ? & ?)|(id & block & ? & ? & -> & ? & ?)]].
  - left. by rewrite Hre, Hu.
  - right; left. by rewrite Hre, Hu.
  - right; right. destruct bs' as [|block' [|]]; [done| |done]. exists id, block'. rewrite Hre, Hu. done.
Qed.

Lemma pieces_way layout rr ms start pieces n n' acc open open' :
  mapM (fun p : nat * Message => message_blocks layout (keepsReasoning rr p.1 start) p.2) ms n = Ok (n', pieces) ->
  foldl (fun open m => open ≫= fun open => message_step open m) (Some open) ms.*2 = Some open' ->
  under_way acc.1 open -> under_way (foldl place acc pieces).1 open'.
Proof.
  intros Hm%mapM_each. revert acc open. induction Hm as [|[i m] [role blocks] ms pieces (n1 & n2 & Hb) _ IH]; intros acc open; cbn; [by intros [= <-]|].
  intros Hf Hw. destruct (message_step open m) as [open1|] eqn:Es; cbn in Hf.
  - eapply IH; [exact Hf|]. eapply place_way; [|exact Hw]. by eapply message_blocks_ok.
  - exfalso. clear - Hf. induction ms.*2; [done|by apply IHl].
Qed.
End messages.

(** ** Marks *)

Definition like_tool (t t' : anthropicTool) : Prop := t' <| at_CacheControl := None |> = t <| at_CacheControl := None |>.

(** The same payload, but for its marks. *)
Record like_payload (p p' : anthropicRequest) : Prop := {
  lp_system : Forall2 like (aq_System p) (aq_System p');
  lp_messages : Forall2 like_message (aq_Messages p) (aq_Messages p');
  lp_tools : Forall2 like_tool (aq_Tools p) (aq_Tools p');
  lp_rest : p' <| aq_System := [] |> <| aq_Messages := [] |> <| aq_Tools := [] |> = p <| aq_System := [] |> <| aq_Messages := [] |> <| aq_Tools := [] |>;
}.

Lemma Forall2_alter_r {A : Type} (R : A -> A -> Prop) f i l : (forall x, R x x) -> (forall x, R x (f x)) -> Forall2 R l (alter f i l).
Proof.
  intros Hr Hf. revert i. induction l as [|x l IH]; intros [|i]; cbn; constructor; auto. by apply Forall_Forall2_diag, list.Forall_forall.
Qed.

Lemma like_message_refl m : like_message m m.
Proof. split; [done|]. by apply Forall_Forall2_diag, list.Forall_forall. Qed.

Lemma like_payload_refl p : like_payload p p.
Proof. split; [..|done]; apply Forall_Forall2_diag, list.Forall_forall; intros; [apply like_refl|apply like_message_refl|done]. Qed.

Lemma like_payload_trans p q r : like_payload p q -> like_payload q r -> like_payload p r.
Proof.
  intros [S1 M1 T1 R1] [S2 M2 T2 R2]. split; [..|congruence].
  - eapply Forall2_trans; [|done..]. intros ???. apply like_trans.
  - eapply Forall2_trans; [|done..]. intros a b c [E1 C1] [E2 C2]. split; [congruence|]. eapply Forall2_trans; [|done..]. intros ???. apply like_trans.
  - eapply Forall2_trans; [|done..]. unfold like_tool. intros ???. congruence.
Qed.

Lemma mark_target_like ttl p t : like_payload p (mark_target ttl p t).
Proof.
  destruct (like_payload_refl p) as [S M T R]. destruct t as [| |[m b]]; split; cbn; try done; apply Forall2_alter_r; try done.
  - intros x. apply mark_like.
  - intros x. apply like_message_refl.
  - intros x. split; [done|]. cbn. apply Forall2_alter_r; [done|apply mark_like].
Qed.

Lemma marks_like ttl targets p : like_payload p (foldl (mark_target ttl) p targets).
Proof.
  revert p. induction targets as [|t targets IH]; intros p; [apply like_payload_refl|]. eapply like_payload_trans; [apply mark_target_like|apply IH].
Qed.

Definition marked (b : anthropicBlock) : nat := if get "cache_control" b then 1 else 0.
Definition marked_wire_tool (t : anthropicTool) : nat := if at_CacheControl t then 1 else 0.

(** The cache markers of a payload. *)
Definition marks (p : anthropicRequest) : nat :=
  sum_list_with marked (aq_System p) + sum_list_with marked_wire_tool (aq_Tools p) +
  sum_list_with (fun m => sum_list_with marked (am_Content m)) (aq_Messages p).

Lemma sum_alter {A : Type} (g : A -> nat) f i l : (forall x, g (f x) <= S (g x)) -> sum_list_with g (alter f i l) <= S (sum_list_with g l).
Proof.
  intros Hf. revert i. induction l as [|x l IH]; intros [|i]; cbn; try lia; [specialize (Hf x); lia|].
  change (list_alter f i l) with (alter f i l). specialize (IH i). lia.
Qed.

Lemma mark_target_marks ttl p t : marks (mark_target ttl p t) <= S (marks p).
Proof.
  assert (forall b, marked (mark ttl b) <= S (marked b)) as Hb by (intros b; unfold marked at 1; destruct (get _ _); lia).
  assert (forall t, marked_wire_tool (t <| at_CacheControl := Some (marker ttl) |>) <= S (marked_wire_tool t)) as Ht by (intros [? ? ? ? ?]; cbn; lia).
  destruct t as [| |[m b]]; unfold marks; cbn.
  - pose proof (sum_alter marked (mark ttl) (length (aq_System p) - 1) (aq_System p) Hb). lia.
  - pose proof (sum_alter marked_wire_tool (fun t => t <| at_CacheControl := Some (marker ttl) |>) (marked_tool (aq_Tools p) (length (aq_Tools p) - 1)) (aq_Tools p) Ht). lia.
  - pose proof (sum_alter (fun m => sum_list_with marked (am_Content m)) (fun w => MkWireMessage (am_Role w) (alter (mark ttl) b (am_Content w))) m (aq_Messages p)
      ltac:(intros x; cbn; by apply sum_alter)). lia.
Qed.

Lemma marks_grow ttl targets p : marks (foldl (mark_target ttl) p targets) <= marks p + length targets.
Proof.
  revert p. induction targets as [|t targets IH]; intros p; cbn; [lia|]. specialize (IH (mark_target ttl p t)). pose proof (mark_target_marks ttl p t). lia.
Qed.

(** A marker is on a Tool that is not deferred, when there is one. *)
Definition tools_marked_well (tools : list anthropicTool) : Prop :=
  forall t, t ∈ tools -> at_CacheControl t <> None -> at_DeferLoading t = true -> forall t', t' ∈ tools -> at_DeferLoading t' = true.

Lemma marked_tool_spec tools n k : marked_tool tools n = k -> n < length tools ->
  k <= n /\ (forall i t, k < i <= n -> tools !! i = Some t -> at_DeferLoading t = true) /\ (forall t, tools !! k = Some t -> at_DeferLoading t = true -> k = 0).
Proof.
  revert k. induction n as [|n IH]; intros k; cbn; [intros <- Hl; split; [lia|]; split; [lia|done]|].
  intros Hk Hl. destruct (tools !! S n) as [t|] eqn:E; [|by apply lookup_ge_None in E; lia].
  destruct (at_DeferLoading t) eqn:Ed.
  - destruct (IH k Hk) as (H1 & H2 & H3); [lia|]. split; [lia|]. split; [|done]. intros i t' Hi Ht.
    destruct (decide (i = S n)) as [->|]; [congruence|]. apply (H2 i); [lia|done].
  - subst k. split; [lia|]. split; [lia|]. intros t' Ht Hd. congruence.
Qed.

Lemma mark_target_tools ttl p t : tools_marked_well (aq_Tools p) -> tools_marked_well (aq_Tools (mark_target ttl p t)).
Proof.
  intros Hw. destruct t as [| |[m b]]; [done| |done]. cbn. set (k := marked_tool _ _). set (tools := aq_Tools p) in *.
  assert (Forall2 like_tool tools (alter (fun t => t <| at_CacheControl := Some (marker ttl) |>) k tools)) as Hl by by apply Forall2_alter_r.
  assert (forall t', t' ∈ alter (fun t => t <| at_CacheControl := Some (marker ttl) |>) k tools -> exists t0, t0 ∈ tools /\ at_DeferLoading t' = at_DeferLoading t0) as Hback.
  { intros t' (i & Hi)%list_elem_of_lookup_1. destruct (Forall2_lookup_r _ _ _ _ _ Hl Hi) as (t0 & H0 & Heq). exists t0. split; [by eapply list_elem_of_lookup_2|].
    change (at_DeferLoading (t' <| at_CacheControl := None |>) = at_DeferLoading (t0 <| at_CacheControl := None |>)). by rewrite Heq. }
  intros t' Hin Hm Hd t2 (t3 & H3 & ->)%Hback. apply list_elem_of_lookup_1 in Hin as (i & Hi). destruct (decide (i = k)) as [->|Hne].
  - destruct tools as [|first rest] eqn:Et; [by apply elem_of_nil in H3|]. destruct (marked_tool_spec (first :: rest) (length (first :: rest) - 1) k eq_refl) as (H1 & Hafter & Hk0); [cbn; lia|].
    rewrite list_lookup_alter_eq in Hi. destruct ((first :: rest) !! k) as [t0|] eqn:E0; [|done]. cbn in Hi. injection Hi as <-. cbn in Hd.
    assert (k = 0) as Hz by (by eapply Hk0). rewrite Hz in *. apply list_elem_of_lookup_1 in H3 as (j & Hj).
    destruct j as [|j]; [congruence|]. apply (Hafter (S j)); [|done]. apply lookup_lt_Some in Hj. lia.
  - rewrite list_lookup_alter_ne in Hi by done. apply (Hw t'); [by eapply list_elem_of_lookup_2|done..].
Qed.

Lemma marks_tools ttl targets p : tools_marked_well (aq_Tools p) -> tools_marked_well (aq_Tools (foldl (mark_target ttl) p targets)).
Proof. revert p. induction targets as [|t targets IH]; intros p Hw; [done|]. by apply IH, mark_target_tools. Qed.

(** ** The payload *)

Section payload.
Context `{HexHash, ChatJson, JsonText, WireText}.

Lemma unmarked_spec model sampling request native names left p ends :
  unmarked model sampling request native names = Ok (left, (p, ends)) ->
  exists mid tools pieces,
    mapM wire_tool (orderedTools (newDeferredLayout request native) request) names = Ok (mid, tools) /\
    encode_pieces (newDeferredLayout request native) (mf_RoundReasoning (mo_Facts model)) (mr_Messages request) mid = Ok (left, pieces) /\
    aq_Messages p = (foldl place ([], []) pieces).1 /\ aq_Tools p = tools /\
    aq_System p = (if String.eqb (mr_SystemInstructions request) "" then [] else [text_block (mr_SystemInstructions request)]).
Proof.
  intros (mid & tools & Ht & (mid2 & pieces & Hp & Hr)%bind_ok)%bind_ok. exists mid, tools, pieces. destruct (foldl place ([], []) pieces) as [ms es] eqn:E.
  apply ret_ok in Hr as [-> [= -> ->]]. done.
Qed.

Lemma payload_spec model sampling request native names payload :
  anthropicPayload model sampling request native = Ok (names, payload) ->
  exists names0 p ends, functionNames request = Ok names0 /\ unmarked model sampling request native names0 = Ok (names, (p, ends)) /\
    like_payload p payload /\ marks payload <= marks p + 4 /\ (tools_marked_well (aq_Tools p) -> tools_marked_well (aq_Tools payload)).
Proof.
  unfold anthropicPayload, with_names. destruct (refuseReasoningConfig _ _); [|done]. cbn [rbind].
  destruct (functionNames request) as [names0|[]]; [|done]. intros (mid & [p ends] & Hu & [-> ->]%ret_ok)%bind_ok.
  exists names0, p, ends. split; [done|]. split; [done|]. unfold applyAnthropicCacheBreakpoints. cbv zeta. set (targets := targets_of _ _ _).
  split; [apply marks_like|]. split; [|apply marks_tools]. etrans; [apply marks_grow|]. rewrite length_drop. unfold maxAnthropicCacheBreakpoints. lia.
Qed.

(** No artifact of the Message brings a marker of its own. *)
Definition bare (m : Message) : Prop :=
  forall part block, part ∈ m_Parts m -> replayed (cp_Signature part) = Ok block -> marked block = 0.

Lemma message_blocks_bare layout keep m names left role blocks :
  bare m -> message_blocks layout keep m names = Ok (left, (role, blocks)) -> Forall (fun b => marked b = 0) blocks.
Proof.
  intros Hb (n & [r bs] & Ha & (n1 & bs' & Hr & [_ [= -> ->]]%ret_ok)%bind_ok)%bind_ok.
  assert (Forall (fun b => marked b = 0) bs) as Hbs.
  { unfold anthropicBlocks in Ha. case_bool_decide.
    - apply ret_ok in Ha as [_ [= -> ->]]. clear Hb Hr. induction (m_Parts m) as [|p ps IH]; [constructor|]. rewrite bind_cons. apply list.Forall_app. split; [|exact IH].
      unfold user_blocks. case_bool_decide; [destruct (String.eqb _ _); by repeat constructor|].
      destruct (String.eqb _ _); [|constructor]. case_bool_decide; [constructor|by repeat constructor].
    - destruct (String.eqb _ _).
      + apply ret_ok in Ha as [_ [= -> ->]]. constructor; [|constructor]. unfold tool_result_block. destruct (m_ToolResult m) as [tr|]; [|done]. by destruct (_ && _).
      + destruct (String.eqb _ _); [|done]. apply bind_ok in Ha as (n3 & said & Hsaid & (n4 & calls & Hcalls & [_ [= -> ->]]%ret_ok)%bind_ok).
        apply list.Forall_app. split.
        * apply mapM_each in Hsaid. unfold bare in Hb. clear Hr. revert Hb. induction Hsaid as [|part blocks parts said (k & k' & Hk) _ IH]; intros Hb; [constructor|].
          cbn [mjoin list_join]. apply list.Forall_app. split; [|apply IH; intros p b Hin; apply (Hb p b); by right]. apply result_ok in Hk as [_ Hk]. unfold assistant_blocks in Hk. destruct (String.eqb _ _).
          -- destruct (_ || _); [injection Hk as <-; constructor|]. destruct (replayed _) as [block|] eqn:E; [|done]. injection Hk as <-.
             constructor; [|constructor]. apply (Hb part); [by left|done].
          -- destruct (String.eqb _ _); [destruct (String.eqb _ _); injection Hk as <-; by repeat constructor|].
             case_bool_decide; [destruct (_ || _); [done|]|]; injection Hk as <-; constructor.
        * apply mapM_each in Hcalls. clear Hr. induction Hcalls as [|call block calls' blocks (k & k' & Hk) _ IH]; [constructor|]. constructor; [|exact IH].
          by apply bind_ok in Hk as (? & ? & _ & [_ ->]%ret_ok). }
  unfold with_references in Hr. destruct (references layout (m_ToolResult m)) as [|id ids]; [by apply ret_ok in Hr as [_ ->]|].
  destruct bs as [|b [|]]; [by apply ret_ok in Hr as [_ ->]| |by apply ret_ok in Hr as [_ ->]].
  apply bind_ok in Hr as (? & shown & _ & [_ ->]%ret_ok). apply list.Forall_cons in Hbs as [Hbs _]. constructor; [|constructor]. cbv beta in *. unfold marked in *. rewrite get_put_ne; [exact Hbs|done].
Qed.

Lemma flat_marks ms : sum_list_with (fun m => sum_list_with marked (am_Content m)) ms = sum_list_with (marked ∘ snd) (flat ms).
Proof.
  induction ms as [|m ms IH]; [done|]. cbn. rewrite IH, sum_list_with_app. f_equal. induction (am_Content m) as [|b bs IHb]; [done|]. cbn. by rewrite IHb.
Qed.

Lemma sum_zero {A : Type} (g : A -> nat) l : Forall (fun x => g x = 0) l -> sum_list_with g l = 0.
Proof. induction 1 as [|x l Hx _ IH]; [done|]. cbn. by rewrite Hx, IH. Qed.

Lemma tools_unmarked entries names left tools : mapM wire_tool entries names = Ok (left, tools) -> Forall (fun t => at_CacheControl t = None) tools.
Proof.
  intros Hm%mapM_each. induction Hm as [|entry t entries tools (n & n' & He) _ IH]; constructor; [|done].
  by apply bind_ok in He as (? & ? & _ & (? & ? & _ & [_ ->]%ret_ok)%bind_ok).
Qed.

Lemma unmarked_none model sampling request native names left p ends :
  unmarked model sampling request native names = Ok (left, (p, ends)) -> (forall m, m ∈ mr_Messages request -> bare m) -> marks p = 0.
Proof.
  intros (mid & tools & pieces & Ht & Hp & Hm & Hto & Hs)%unmarked_spec Hb. unfold marks. rewrite Hm, flat_marks, places_flat, Hto, Hs. cbn [fst flat].
  rewrite (sum_zero marked_wire_tool); [|eapply (list.Forall_impl (fun t => at_CacheControl t = None)); [exact (tools_unmarked _ _ _ _ Ht)|]; intros t Hx; unfold marked_wire_tool; by rewrite Hx].
  rewrite (sum_zero (marked ∘ snd)); [by destruct (String.eqb _ _)|]. cbn. clear Hm Hto Hs Ht.
  apply mapM_each in Hp. assert (forall i m, (i, m) ∈ imap pair (mr_Messages request) -> bare m) as Hb'.
  { intros i m Hin%imap_pair_in. apply Hb. by eapply list_elem_of_lookup_2. }
  clear Hb. induction Hp as [|[i m] [role blocks] ms pieces (n & n' & Hx) _ IH]; [constructor|]. cbn. apply list.Forall_app. split.
  - apply Forall_fmap. eapply list.Forall_impl; [eapply message_blocks_bare; [|exact Hx]; apply (Hb' i); by left|]. done.
  - apply IH. intros j m' Hin. apply (Hb' j). by right.
Qed.

Lemma pieces_alternate pieces acc : alternate acc.1 -> alternate (foldl place acc pieces).1.
Proof. revert acc. induction pieces as [|p pieces IH]; intros acc Ha; [done|]. by apply IH, place_alternate. Qed.

(** The Messages of a payload, without its markers. *)
Lemma unmarked_messages model sampling request native names left p ends :
  unmarked model sampling request native names = Ok (left, (p, ends)) -> answered (mr_Messages request) ->
  owes (aq_Messages p) [] /\ alternate (aq_Messages p).
Proof.
  intros (mid & tools & pieces & Ht & Hp & Hm & _ & _)%unmarked_spec Ha. rewrite Hm. split.
  - apply under_way_done. eapply (pieces_way _ _ (imap pair (mr_Messages request)) _ pieces mid left ([], []) []); [exact Hp| |constructor].
    assert ((imap pair (mr_Messages request)).*2 = mr_Messages request) as ->; [|exact Ha].
    apply list_eq. intros i. rewrite list_lookup_fmap, list_lookup_imap. by destruct (_ !! i).
  - apply pieces_alternate. constructor.
Qed.

(** C30: A history whose calls are all answered is sent in a form that the Messages API takes.  The
    roles alternate and no message is empty; a message begins with the results of the calls of the
    message before it, one for each and in their order, and has no other result; there are at
    most four cache markers, if no replayed artifact brings its own; and none is on a deferred Tool
    while a Tool is not deferred. *)
Theorem anthropic_request_accepted model sampling request native names payload :
  anthropicPayload model sampling request native = Ok (names, payload) -> answered (mr_Messages request) ->
  alternate (aq_Messages payload) /\ owes (aq_Messages payload) [] /\
  ((forall m, m ∈ mr_Messages request -> bare m) -> marks payload <= maxAnthropicCacheBreakpoints) /\ tools_marked_well (aq_Tools payload).
Proof.
  intros (names0 & p & ends & _ & Hu & Hl & Hm & Ht)%payload_spec Ha. destruct (unmarked_messages _ _ _ _ _ _ _ _ Hu Ha) as [Ho Hal].
  destruct Hl as [_ Hms _ _]. split; [by eapply alternate_like|]. split; [by eapply owes_like|]. split.
  - intros Hb. rewrite (unmarked_none _ _ _ _ _ _ _ _ Hu Hb) in Hm. exact Hm.
  - apply Ht. apply unmarked_spec in Hu as (mid & tools & pieces & Htools & _ & _ & -> & _).
    apply tools_unmarked in Htools. intros t Hin Hmark. rewrite list.Forall_forall in Htools. by rewrite Htools in Hmark.
Qed.
End payload.

(** ** What the next request shares *)

Section prefix.
Context `{HexHash, ChatJson, JsonText, WireText}.

Lemma call_block_agrees names names' call : agrees names names' (assign (tc_ToolID call)) -> agrees names names' (call_block call).
Proof. intros Ha. apply agrees_bind; [done|]. intros name. apply agrees_ret. Qed.

Lemma message_blocks_agrees names names' layout keep m :
  (forall call, call ∈ m_ToolCalls m -> agrees names names' (assign (tc_ToolID call))) ->
  (forall id, id ∈ references layout (m_ToolResult m) -> agrees names names' (assign id)) ->
  agrees names names' (message_blocks layout keep m).
Proof.
  intros Hc Hr. apply agrees_bind.
  - unfold anthropicBlocks. repeat apply agrees_if; try apply agrees_ret; try apply agrees_refuse.
    apply agrees_bind; [apply agrees_mapM; intros; apply agrees_result|]. intros said.
    apply agrees_bind; [apply agrees_mapM; intros call Hin; by apply call_block_agrees, Hc|]. intros calls. apply agrees_ret.
  - intros [role blocks]. apply agrees_bind; [|intros; apply agrees_ret]. unfold with_references.
    destruct (references layout (m_ToolResult m)) as [|id ids]; [apply agrees_ret|]. destruct blocks as [|b [|]]; try apply agrees_ret.
    apply agrees_bind; [|intros; apply agrees_ret]. apply agrees_mapM. intros i Hin. apply agrees_bind; [by apply Hr|]. intros name. apply agrees_ret.
Qed.

Lemma wire_tool_agrees names names' entry : agrees names names' (assign (ts_ID (ly_spec entry))) -> agrees names names' (wire_tool entry).
Proof.
  intros Ha. apply agrees_bind; [done|]. intros name. apply agrees_bind; [apply agrees_result|]. intros schema. apply agrees_ret.
Qed.

Lemma message_blocks_layout layout layout' keep m : (forall r, references layout' r = references layout r) ->
  message_blocks layout' keep m = message_blocks layout keep m.
Proof. intros Hr. unfold message_blocks, with_references. by rewrite Hr. Qed.

(** The Messages and Tools of a request are encoded with the map of its names, which stays. *)
Lemma unmarked_named model sampling request native names left p ends :
  functionNames request = Ok names -> unmarked model sampling request native names = Ok (left, (p, ends)) ->
  exists tools pieces, left = names /\
    mapM wire_tool (orderedTools (newDeferredLayout request native) request) names = Ok (names, tools) /\
    encode_pieces (newDeferredLayout request native) (mf_RoundReasoning (mo_Facts model)) (mr_Messages request) names = Ok (names, pieces) /\
    aq_Messages p = (foldl place ([], []) pieces).1 /\ aq_Tools p = tools.
Proof.
  intros Hn (mid & tools & pieces & Ht & Hp & Hm & Hto & _)%unmarked_spec.
  assert (agrees names names (mapM wire_tool (orderedTools (newDeferredLayout request native) request))) as At.
  { apply agrees_mapM. intros entry He. apply wire_tool_agrees. eapply assign_in_request; [done|by eapply ordered_known]. }
  destruct (At _ _ Ht) as [-> _]. exists tools, pieces.
  assert (agrees names names (encode_pieces (newDeferredLayout request native) (mf_RoundReasoning (mo_Facts model)) (mr_Messages request))) as Ap.
  { apply each_agrees. intros keep i m Hin%imap_pair_in%list_elem_of_lookup_2. apply message_blocks_agrees.
    - intros call Hc. eapply assign_in_request; [done|by eapply call_known].
    - intros id Hid. eapply assign_in_request; [done|by eapply referenced_known]. }
  destruct (Ap _ _ Hp) as [-> _]. by split_and!.
Qed.

(** A block in its role, but for its mark. *)
Definition same_block (x y : string * anthropicBlock) : Prop := x.1 = y.1 /\ like x.2 y.2.
Definition piece_blocks (pieces : list (string * list anthropicBlock)) : list (string * anthropicBlock) := pieces ≫= fun p => pair p.1 <$> p.2.

Lemma flat_like ms ms' : Forall2 like_message ms ms' -> Forall2 same_block (flat ms) (flat ms').
Proof.
  induction 1 as [|m m' ms ms' [Hr Hc] _ IH]; [constructor|]. unfold flat in *. rewrite !bind_cons. apply Forall2_app; [|exact IH].
  rewrite Hr. clear IH. induction Hc as [|b b' bs bs' Hb _ IH]; constructor; [by split|done].
Qed.

Record anthropic_shared (layout : option deferredLayout) (roundReasoning : bool) (messages : list Message) (names : gmap bytes bytes)
  (p p' : anthropicRequest) : Prop := {
  as_tools : Forall2 like_tool (aq_Tools p) (aq_Tools p');
  as_system : Forall2 like (aq_System p) (aq_System p');
  as_messages : exists firsts rest rest',
    each_message (message_blocks layout) roundReasoning (roundStart messages) (take (shared roundReasoning messages) (imap pair messages)) names = Ok (names, firsts) /\
    Forall2 same_block (piece_blocks (firsts ++ rest)) (flat (aq_Messages p)) /\
    Forall2 same_block (piece_blocks (firsts ++ rest')) (flat (aq_Messages p')) /\
    (roundReasoning = false -> rest = []);
}.

Lemma anthropic_prefix model sampling sampling' request request' native names names' p p' :
  continues native request request' ->
  anthropicPayload model sampling request native = Ok (names, p) -> anthropicPayload model sampling' request' native = Ok (names', p') ->
  anthropic_shared (newDeferredLayout request native) (mf_RoundReasoning (mo_Facts model)) (mr_Messages request) names p p'.
Proof.
  intros Hc (n0 & u & ends & Hn & Hu & Hl & _ & _)%payload_spec (n0' & u' & ends' & Hn' & Hu' & Hl' & _ & _)%payload_spec.
  pose proof (unmarked_spec _ _ _ _ _ _ _ _ Hu) as (_ & _ & _ & _ & _ & _ & _ & Hs). pose proof (unmarked_spec _ _ _ _ _ _ _ _ Hu') as (_ & _ & _ & _ & _ & _ & _ & Hs').
  destruct (unmarked_named _ _ _ _ _ _ _ _ Hn Hu) as (tools & pieces & -> & Ht & Hp & Hm & Hto).
  destruct (unmarked_named _ _ _ _ _ _ _ _ Hn' Hu') as (tools' & pieces' & -> & Ht' & Hp' & Hm' & Hto').
  pose proof (ct_references _ _ _ Hc) as Href. destruct (ct_messages _ _ _ Hc) as [more Hmore]. split.
  - rewrite (ct_tools _ _ _ Hc) in Ht'.
    assert (agrees n0 n0' (mapM wire_tool (orderedTools (newDeferredLayout request native) request))) as At.
    { apply agrees_mapM. intros entry He. apply wire_tool_agrees. eapply known_before; [done..|]. by eapply ordered_known. }
    destruct (At _ _ Ht) as [_ Ht2]. assert (tools' = tools) as -> by congruence.
    eapply Forall2_trans; [|apply Forall2_flip, (lp_tools _ _ Hl)|rewrite Hto, <- Hto'; apply (lp_tools _ _ Hl')]. cbv beta. unfold like_tool. intros ???. congruence.
  - rewrite (ct_system _ _ _ Hc) in Hs'.
    eapply Forall2_trans; [|apply Forall2_flip, (lp_system _ _ Hl)|rewrite Hs, <- Hs'; apply (lp_system _ _ Hl')]. cbv beta. intros a b c Hab Hbc.
    eapply like_trans; [by apply like_sym|done].
  - unfold encode_pieces in Hp, Hp'. rewrite Hmore in Hp'.
    destruct (each_shared (message_blocks (newDeferredLayout request native)) (mf_RoundReasoning (mo_Facts model)) (mr_Messages request) more n0 n0' n0 n0' pieces pieces')
      as (firsts & rest & rest' & Hf & -> & -> & Hrr); [done| | | |].
    + rewrite (each_ext _ (message_blocks (newDeferredLayout request' native))); [done|].
      intros keep i m _. symmetry. by apply message_blocks_layout.
    + intros keep m Hin. apply message_blocks_agrees.
      * intros call Hcall. eapply known_before; [done..|]. by eapply call_known.
      * intros id Hid. eapply known_before; [done..|]. by eapply referenced_known.
    + intros keep m Hin. rewrite <- Hmore in Hin. apply message_blocks_agrees.
      * intros call Hcall. eapply known_after; [done|]. by eapply call_known.
      * intros id Hid. rewrite <- Href in Hid. eapply known_after; [done|]. by eapply referenced_known.
    + exists firsts, rest, rest'. split; [done|]. split; [|split; [|done]].
      * pose proof (flat_like _ _ (lp_messages _ _ Hl)) as Hf1. rewrite Hm, places_flat in Hf1. exact Hf1.
      * pose proof (flat_like _ _ (lp_messages _ _ Hl')) as Hf1. rewrite Hm', places_flat in Hf1. exact Hf1.
Qed.
End prefix.

(** ** A sample

    A call that was answered, in a request with three breakpoints. *)

#[local] Existing Instance sample_hash.
#[local] Existing Instance sample_hex.
#[local] Instance sample_json : ChatJson := {| chat_chunk := fun _ => Err IoEOF; valid_json := fun _ => true |}.
#[local] Instance sample_text : JsonText := fun _ => None.
#[local] Instance sample_base64 : WireText := {| base64 := string_of |}.

Definition sample_asks : Message :=
  (AssistantMessage "on it") <| m_ToolCalls := [MkToolCall "c1" "demo.echo" (bytes_of "{}") []; MkToolCall "c2" "demo.echo" (bytes_of "{}") []] |>.
Definition sample_result (id : string) : Message :=
  message_zero <| m_Role := RoleToolResult |> <| m_Parts := [part_of ContentKindText "done"] |>
    <| m_ToolResult := Some (MkToolResult id ToolResultStatusOK [] ∅ "" "" true None []) |>.

Definition sample_request : ModelRequest :=
  MkRequest "be brief" [UserMessage "hi"; sample_asks; sample_result "c1"; sample_result "c2"; UserMessage "thanks"] [deferred_tool "demo.echo"] [] []
    [MkBreakpoint CacheAnchorAfterSystem 0; MkBreakpoint CacheAnchorAfterTools 0; MkBreakpoint CacheAnchorAfterMessage 4] "".

Definition sample_model : ModelConfig := MkConfig "m" (MkFacts 0 true false).

Definition sample_payload : anthropicRequest :=
  match anthropicPayload sample_model no_sampling sample_request true with Ok (_, p) => p | Err _ => MkAnthropicRequest "" 0 [] [] [] None None false end.

(** The call and its result are in adjacent messages; four markers, one for the start of the Round. *)
Lemma anthropic_request_accepted_witness :
  am_Role <$> aq_Messages sample_payload = ["user"; "assistant"; "user"] /\
  (uses ∘ am_Content <$> aq_Messages sample_payload) = [[]; ["c1"; "c2"]; []] /\ (results ∘ am_Content <$> aq_Messages sample_payload) = [[]; []; ["c1"; "c2"]] /\
  marks sample_payload = 4 /\ owes (aq_Messages sample_payload) [].
Proof.
  split; [vm_compute; reflexivity|]. split; [vm_compute; reflexivity|]. split; [vm_compute; reflexivity|]. split; [vm_compute; reflexivity|].
  assert (is_ok (anthropicPayload sample_model no_sampling sample_request true) = true) as Hok by (vm_compute; reflexivity).
  apply is_ok_inv in Hok as [[names p] E].
  assert (sample_payload = p) as -> by (unfold sample_payload; by rewrite E).
  apply (anthropic_request_accepted sample_model no_sampling sample_request true names p E). vm_compute. reflexivity.
Defined.
