(* ===== verification/ChatRequest.v ===== *)
(** * Requests of the Chat Completions API

    The encoding half of [model/chat.go]: the payload that [encodeChatRequest] hands to
    [json.Marshal], and [Encode] around it. *)

From S2P Require Import Prelude GoStrings Errors Types Request Schema FunctionNames Deferred ChatDecoder Profile RunCalls WireRequest.
Local Open Scope string_scope.
Local Open Scope list_scope.

(** [chatToolCall], with its [chatFunctionCall]; its type is ["function"]. *)
Record chatToolCall := MkChatToolCall { xc_ID : string; xc_Name : string; xc_Arguments : bytes; xc_ExtraContent : option bytes }.

Record chatMessage := MkChatMessage {
  xm_Role : string;
  xm_Content : string;
  xm_ReasoningContent : string;
  xm_ToolCalls : list chatToolCall;
  xm_ToolCallID : string;
}.

(** [chatTool], with its [chatFunction]. *)
Record chatTool := MkChatTool { xt_Name : string; xt_Description : string; xt_Parameters : bytes }.

(** [chatRequest], but for [StreamOptions], which is always there and asks for the usage. *)
Record chatRequest := MkChatRequest {
  xq_Model : string;
  xq_Messages : list chatMessage;
  xq_Tools : list chatTool;
  xq_Stream : bool;
  xq_Temperature : option float64;
  xq_MaxTokens : N;
}.

(** The names of the fields of [chatRequest], and [chatReservedFields]. *)
Definition chat_tags : list string := ["model"; "messages"; "tools"; "stream"; "stream_options"; "temperature"; "max_tokens"].
Definition chatReservedFields : list string :=
  ["tool_choice"; "parallel_tool_calls"; "max_completion_tokens"; "response_format"; "stop"; "n"; "user"; "metadata"; "store"].

Section chat.
Context `{Encoding, ChatJson}.

(** The wire's role of a Message that is no Tool result. *)
Definition chat_role (m : Message) : string := if String.eqb (m_Role m) RoleNotice then RoleUser else m_Role m.

Definition chat_part_refused (part : ContentPart) : bool :=
  negb (bool_decide (cp_Kind part ∈ [ContentKindText; ContentKindReasoning]))
  && (negb (String.eqb (cp_Text part) "") || negb (bool_decide (cp_Data part = []))).

Definition convert_call (call : ToolCall) : encoder chatToolCall :=
  name ← assign (tc_ToolID call);
  mret (MkChatToolCall (tc_ID call) name (replayArguments (tc_Arguments call))
    (if isJSONObject (tc_Signature call) then Some (tc_Signature call) else None)).

(** [convertChatMessage]. *)
Definition convertChatMessage (message : Message) (keepReasoning : bool) : encoder chatMessage :=
  if String.eqb (m_Role message) RoleToolResult then
    mret (MkChatMessage "tool" (toolResultOutput message) "" [] (match m_ToolResult message with Some r => tr_CallID r | None => "" end))
  else
    let role := chat_role message in
    if negb (bool_decide (role ∈ [RoleUser; RoleAssistant])) then refuse_with (UnsupportedRole role)
    else
      match filter (fun part => chat_part_refused part = true) (m_Parts message) with
      | part :: _ => refuse_with (UnsupportedKind (cp_Kind part))
      | [] =>
        calls ← mapM convert_call (m_ToolCalls message);
        mret (MkChatMessage role (TextOf message) (if String.eqb role RoleAssistant && keepReasoning then ReasoningOf message else "") calls "")
      end.

(** A reply that was only reasoning, which is left out, is not sent. *)
Definition chat_messages (keepReasoning : bool) (message : Message) : encoder (list chatMessage) :=
  converted ← convertChatMessage message keepReasoning;
  mret (if negb keepReasoning && String.eqb (xm_Role converted) "assistant" && String.eqb (xm_Content converted) ""
           && bool_decide (length (xm_ToolCalls converted) = 0) && negb (String.eqb (ReasoningOf message) "")
        then [] else [converted]).

Definition chat_tool (spec : ToolSpec) : encoder chatTool :=
  name ← assign (ts_ID spec);
  parameters ← of_result (toolSchema spec "{}");
  mret (MkChatTool name (ts_Description spec) parameters).

Definition chat_system (request : ModelRequest) : list chatMessage :=
  if String.eqb (mr_SystemInstructions request) "" then [] else [MkChatMessage "system" (mr_SystemInstructions request) "" [] ""].

Definition chat_payload (model : ModelConfig) (sampling : Sampling) (request : ModelRequest) : encoder chatRequest :=
  messages ← each_message chat_messages (mf_RoundReasoning (mo_Facts model)) (roundStart (mr_Messages request)) (imap pair (mr_Messages request));
  tools ← mapM chat_tool (mr_Tools request);
  mret (MkChatRequest (mo_Name model) (chat_system request ++ mjoin messages) tools true (sa_Temperature sampling) (sa_MaxTokens sampling)).

Definition chatPayload (model : ModelConfig) (sampling : Sampling) (request : ModelRequest) : result encodeError (gmap bytes bytes * chatRequest) :=
  let? _ := refuseReasoningConfig "Chat Completions" sampling in
  with_names request (chat_payload model sampling request).

(** [encodeChatRequest]. *)
Definition encodeChatRequest `{Marshal chatRequest} (model : ModelConfig) (sampling : Sampling) (request : ModelRequest) :
  result encodeError (bytes * gmap bytes bytes) :=
  let? (names, payload) := chatPayload model sampling request in
  match marshal payload with Ok body => Ok (body, names) | Err err => Err (MarshalFailed err) end.

(** [ChatCompletions.Validate], and the body of [ChatCompletions.Encode]. *)
Definition ChatValidate (cacheKeyField : string) : bool := checkCacheKeyField cacheKeyField chat_tags chatReservedFields.

Definition chatCacheKeyField (field : string) : string := if String.eqb field cacheKeyFieldNone then "" else field.

Definition ChatEncode `{Marshal chatRequest} (cacheKeyField : string) (model : ModelConfig) (sampling : Sampling) (request : ModelRequest) (cacheKey : string) :
  result encodeError (bytes * gmap bytes bytes) :=
  let? (body, names) := encodeChatRequest model sampling request in
  let? body := withCacheKeyField body (chatCacheKeyField cacheKeyField) cacheKey in
  Ok (body, names).

(** ** Every call is answered *)

(** A message of the payload that comes while [open] are the calls without an answer. *)
Definition chat_step (open : list string) (m : chatMessage) : option (list string) :=
  match open with
  | [] => if String.eqb (xm_Role m) "tool" then None else if String.eqb (xm_Role m) "assistant" then Some (xc_ID <$> xm_ToolCalls m) else Some []
  | id :: rest => if String.eqb (xm_Role m) "tool" && String.eqb (xm_ToolCallID m) id then Some rest else None
  end.

Definition chat_run (open : list string) (ms : list chatMessage) : option (list string) :=
  foldl (fun open m => open ≫= fun open => chat_step open m) (Some open) ms.

Lemma chat_run_app open a b : chat_run open (a ++ b) = chat_run open a ≫= fun open => chat_run open b.
Proof. unfold chat_run. rewrite foldl_app. destruct (foldl _ (Some open) a); [done|]. cbn. apply step_none. Qed.

Lemma converted_calls calls names left converted : mapM convert_call calls names = Ok (left, converted) -> xc_ID <$> converted = tc_ID <$> calls.
Proof.
  intros Hm%mapM_each. induction Hm as [|call c calls converted (n & n' & Hc) _ IH]; [done|].
  apply bind_ok in Hc as (? & ? & _ & [_ ->]%ret_ok). cbn. by f_equal.
Qed.

Lemma converted_step open open' keep m names left c :
  message_step open m = Some open' -> convertChatMessage m keep names = Ok (left, c) -> chat_step open c = Some open'.
Proof.
  unfold message_step, convertChatMessage, chat_step. intros Hs Hc. destruct open as [|id open].
  - destruct (String.eqb_spec (m_Role m) RoleToolResult) as [|Hr]; [done|]. destruct (negb _) eqn:Er; [done|].
    apply negb_false_iff, bool_decide_eq_true in Er. destruct (filter _ _); [|done].
    apply bind_ok in Hc as (? & calls & Hcalls & [_ ->]%ret_ok). cbn [xm_Role xm_ToolCalls]. rewrite (converted_calls _ _ _ _ Hcalls).
    unfold chat_role in *. destruct (String.eqb_spec (m_Role m) RoleNotice) as [E|E]; [rewrite E in Hs; exact Hs|].
    apply elem_of_cons in Er as [Er|Er%list_elem_of_singleton]; rewrite Er in *; done.
  - destruct (answers_call id m) eqn:Ha; [|done]. injection Hs as <-. unfold answers_call in Ha. apply andb_true_iff in Ha as [Hr Hid].
    rewrite Hr in Hc. apply ret_ok in Hc as [_ ->]. cbn. destruct (m_ToolResult m); [|done]. by rewrite Hid.
Qed.

Lemma chat_messages_step open open' keep m names left cs :
  message_step open m = Some open' -> chat_messages keep m names = Ok (left, cs) -> chat_run open cs = Some open'.
Proof.
  intros Hs (n & c & Hc & [_ ->]%ret_ok)%bind_ok. pose proof (converted_step _ _ _ _ _ _ _ Hs Hc) as Hstep.
  destruct (_ && negb (String.eqb (ReasoningOf m) "")) eqn:Eskip; [|exact Hstep].
  apply andb_true_iff in Eskip as [Eskip _]. apply andb_true_iff in Eskip as [Eskip Hlen]. apply andb_true_iff in Eskip as [Eskip _].
  apply andb_true_iff in Eskip as [_ Hrole]. apply String.eqb_eq in Hrole. apply bool_decide_eq_true, nil_length_inv in Hlen.
  unfold chat_step in Hstep. rewrite Hrole, Hlen in Hstep. by destruct open.
Qed.

Lemma each_chat_step rr start ms names left css open open' :
  each_message chat_messages rr start ms names = Ok (left, css) ->
  foldl (fun open m => open ≫= fun open => message_step open m) (Some open) ms.*2 = Some open' -> chat_run open (mjoin css) = Some open'.
Proof.
  intros Hm%mapM_each. revert open. induction Hm as [|[i m] cs ms css (n & n' & Hc) _ IH]; intros open Hf; [exact Hf|].
  cbn in Hf. change (mjoin (cs :: css)) with (cs ++ mjoin css). destruct (message_step open m) as [mid|] eqn:Es; cbn in Hf; [|exfalso; clear - Hf; by induction ms.*2].
  rewrite chat_run_app, (chat_messages_step _ _ _ _ _ _ _ Es Hc). by apply IH.
Qed.

Lemma chat_answered model sampling request names payload :
  chatPayload model sampling request = Ok (names, payload) -> answered (mr_Messages request) -> chat_run [] (xq_Messages payload) = Some [].
Proof.
  unfold chatPayload, with_names. destruct (refuseReasoningConfig _ _); [|done]. cbn [rbind]. destruct (functionNames request) as [names0|[]]; [|done].
  intros (n & css & Hm & (? & tools & _ & [_ ->]%ret_ok)%bind_ok)%bind_ok Ha. cbn [xq_Messages]. rewrite chat_run_app.
  assert (chat_run [] (chat_system request) = Some []) as -> by (unfold chat_system; by destruct (String.eqb _ _)). cbn.
  eapply each_chat_step; [exact Hm|]. assert ((imap pair (mr_Messages request)).*2 = mr_Messages request) as ->; [|exact Ha].
  apply list_eq. intros i. rewrite list_lookup_fmap, list_lookup_imap. by destruct (_ !! i).
Qed.
End chat.

(** ** What the next request shares *)

Section prefix.
Context `{HexHash, ChatJson}.

Lemma chat_messages_agrees names names' keep m :
  (forall call, call ∈ m_ToolCalls m -> agrees names names' (assign (tc_ToolID call))) -> agrees names names' (chat_messages keep m).
Proof.
  intros Hc. apply agrees_bind; [|intros; apply agrees_ret]. unfold convertChatMessage. apply agrees_if; [apply agrees_ret|]. cbv zeta.
  apply agrees_if; [apply agrees_refuse|]. destruct (filter _ _); [|apply agrees_refuse].
  apply agrees_bind; [|intros; apply agrees_ret]. apply agrees_mapM. intros call Hin. apply agrees_bind; [by apply Hc|]. intros; apply agrees_ret.
Qed.

Lemma chat_named model sampling request names payload :
  chatPayload model sampling request = Ok (names, payload) ->
  exists names0 css, functionNames request = Ok names0 /\
    each_message chat_messages (mf_RoundReasoning (mo_Facts model)) (roundStart (mr_Messages request)) (imap pair (mr_Messages request)) names0 = Ok (names0, css) /\
    xq_Messages payload = chat_system request ++ mjoin css.
Proof.
  unfold chatPayload, with_names. destruct (refuseReasoningConfig _ _); [|done]. cbn [rbind]. destruct (functionNames request) as [names0|[]] eqn:Hn; [|done].
  intros (n & css & Hm & (? & tools & _ & [_ ->]%ret_ok)%bind_ok)%bind_ok. exists names0, css. split; [done|]. split; [|done].
  assert (agrees names0 names0 (each_message chat_messages (mf_RoundReasoning (mo_Facts model)) (roundStart (mr_Messages request)) (imap pair (mr_Messages request)))) as Ap.
  { apply each_agrees. intros keep i m Hin%imap_pair_in%list_elem_of_lookup_2. apply chat_messages_agrees.
    intros call Hc. eapply assign_in_request; [done|by eapply call_known]. }
  by destruct (Ap _ _ Hm) as [-> _].
Qed.

Lemma chat_prefix model sampling sampling' request request' native names names' p p' :
  continues native request request' -> chatPayload model sampling request = Ok (names, p) -> chatPayload model sampling' request' = Ok (names', p') ->
  exists names0 firsts rest rest',
    each_message chat_messages (mf_RoundReasoning (mo_Facts model)) (roundStart (mr_Messages request))
      (take (shared (mf_RoundReasoning (mo_Facts model)) (mr_Messages request)) (imap pair (mr_Messages request))) names0 = Ok (names0, firsts) /\
    xq_Messages p = chat_system request ++ mjoin firsts ++ rest /\ xq_Messages p' = chat_system request ++ mjoin firsts ++ rest' /\
    (mf_RoundReasoning (mo_Facts model) = false -> rest = []).
Proof.
  intros Hc (n0 & css & Hn & Hm & Hp)%chat_named (n0' & css' & Hn' & Hm' & Hp')%chat_named. destruct (ct_messages _ _ _ Hc) as [more Hmore]. rewrite Hmore in Hm'.
  destruct (each_shared chat_messages (mf_RoundReasoning (mo_Facts model)) (mr_Messages request) more n0 n0' n0 n0' css css') as (firsts & rest & rest' & Hf & -> & -> & Hrr);
    [done|done| | |].
  - intros keep m Hin. apply chat_messages_agrees. intros call Hcall. eapply known_before; [done..|]. by eapply call_known.
  - intros keep m Hin. rewrite <- Hmore in Hin. apply chat_messages_agrees. intros call Hcall. eapply known_after; [done|]. by eapply call_known.
  - exists n0, firsts, (mjoin rest), (mjoin rest'). split; [done|]. unfold chat_system in *. rewrite (ct_system _ _ _ Hc) in Hp'. rewrite Hp, Hp', !join_app.
    split; [done|]. split; [done|]. intros E. by rewrite Hrr.
Qed.
End prefix.
