(* ===== verification/ResponsesRequest.v ===== *)
(** * Requests of the Responses API

    The encoding half of [model/responses.go]: the payload that [encodeResponsesRequest] hands to
    [json.Marshal], and [Encode] around it; then what the requests of the three APIs are for a
    provider: each is one that its API takes, and each begins as the one before it. *)

From S2P Require Import Prelude GoStrings Errors Types Request Schema FunctionNames Deferred ChatDecoder Profile RunCalls WireRequest AnthropicRequest ChatRequest.
Local Open Scope string_scope.
Local Open Scope list_scope.

(** ** Payloads *)

Inductive contentItem : Type :=
| InputText (text : string)
| InputImage (url : string).

Record responsesTool := MkResponsesTool { rt_Name : string; rt_Description : string; rt_Parameters : bytes; rt_DeferLoading : bool }.

(** An entry of the list of Tools: a function, or the [responsesToolSearch] that stands for the
    search function. *)
Inductive toolItem : Type :=
| FunctionTool (tool : responsesTool)
| SearchTool (description : string) (parameters : bytes).

(** [responsesMessage], [responsesOutputMessage], a replayed reasoning item, [responsesFunctionCall],
    [responsesToolSearchCall], [responsesFunctionOutput], [responsesToolSearchOutput]. *)
Inductive inputItem : Type :=
| UserItem (content : list contentItem)
| OutputItem (text : string)
| ReasoningItem (artifact : bytes)
| CallItem (id callID name : string) (arguments : bytes)
| SearchItem (callID : string) (arguments : bytes)
| ResultItem (callID output : string)
| FoundItem (callID : string) (tools : list responsesTool).

Record responsesReasoning := MkResponsesReasoning { re_Effort : string; re_Summary : string }.

(** [responsesRequest], but for [Store], [Include], [ToolChoice] and [ParallelToolCalls], which are the
    same in every request. *)
Record responsesRequest := MkResponsesRequest {
  rq_Model : string;
  rq_Stream : bool;
  rq_Instructions : string;
  rq_Input : list inputItem;
  rq_Tools : list toolItem;
  rq_Reasoning : option responsesReasoning;
  rq_Temperature : option float64;
  rq_MaxOutputTokens : N;
  rq_PromptCacheTTL : option string;
}.

Definition responses_tags : list string :=
  ["model"; "store"; "stream"; "instructions"; "input"; "include"; "tool_choice"; "parallel_tool_calls"; "tools"; "reasoning"; "temperature";
   "max_output_tokens"; "prompt_cache_options"].
Definition responsesReservedFields : list string := ["max_tool_calls"; "metadata"; "text"; "truncation"; "user"].
Definition defaultResponsesCacheKeyField : string := "prompt_cache_key".
Definition responsesCacheTTL : duration := (30 * minute)%Z.

(** ** Items *)

(** [strings.Cut] at the first bar. *)
Fixpoint cut_bar (s : string) : string * option string :=
  match s with
  | EmptyString => ("", None)
  | String c rest => if Ascii.eqb c "|"%char then ("", Some rest) else let (before, after) := cut_bar rest in (String c before, after)
  end.

(** [splitResponsesCallID]. *)
Definition splitResponsesCallID (id : string) : string * string :=
  match cut_bar id with (before, Some after) => (before, after) | (_, None) => (id, "") end.

Section items.
Context `{Encoding, ChatJson, WireText}.

(** [responsesInputContent]. *)
Definition content_part (part : ContentPart) : result encodeError (list contentItem) :=
  let kind := cp_Kind part in
  if String.eqb kind ContentKindText then Ok (if String.eqb (cp_Text part) "" then [] else [InputText (cp_Text part)])
  else if String.eqb kind ContentKindImage then
    if bool_decide (cp_Data part = []) then Ok []
    else
      let mimeType := if String.eqb (cp_MIMEType part) "" then "application/octet-stream" else cp_MIMEType part in
      Ok [InputImage ("data:" ++ mimeType ++ ";base64," ++ base64 (cp_Data part))%string]
  else if bool_decide (kind ∈ [ContentKindReasoning; ContentKindJSON]) then
    if negb (String.eqb (cp_Text part) "") || negb (bool_decide (cp_Data part = [])) then Err (UnsupportedKind kind) else Ok []
  else Ok [].

Fixpoint responsesInputContent (parts : list ContentPart) : result encodeError (list contentItem) :=
  match parts with
  | [] => Ok []
  | part :: rest => let? items := content_part part in let? more := responsesInputContent rest in Ok (items ++ more)
  end.

(** [flushText]. *)
Definition flushed (text : string) : list inputItem := if String.eqb text "" then [] else [OutputItem text].

(** The Parts of a reply; [text] are the text Parts since the last item. *)
Fixpoint said_items (keepReasoning : bool) (text : string) (parts : list ContentPart) : result encodeError (list inputItem) :=
  match parts with
  | [] => Ok (flushed text)
  | part :: rest =>
    let kind := cp_Kind part in
    if String.eqb kind ContentKindReasoning then
      if bool_decide (cp_Signature part = []) || negb keepReasoning then said_items keepReasoning text rest
      else if valid_json (cp_Signature part) then
        let? items := said_items keepReasoning "" rest in Ok (flushed text ++ ReasoningItem (cp_Signature part) :: items)
      else Err InvalidArtifact
    else if String.eqb kind ContentKindText then said_items keepReasoning (text ++ cp_Text part)%string rest
    else if bool_decide (kind ∈ [ContentKindImage; ContentKindJSON]) && (negb (bool_decide (cp_Data part = [])) || negb (String.eqb (cp_Text part) ""))
    then Err (UnsupportedKind kind)
    else said_items keepReasoning text rest
  end.

Definition is_search (layout : option deferredLayout) (callID : string) : bool :=
  match layout with Some l => bool_decide (callID ∈ dl_searchCalls l) | None => false end.

Definition call_item (layout : option deferredLayout) (keepReasoning : bool) (call : ToolCall) : encoder inputItem :=
  name ← assign (tc_ToolID call);
  let arguments := replayArguments (tc_Arguments call) in
  let (callID, itemID) := splitResponsesCallID (tc_ID call) in
  mret (if is_search layout (tc_ID call) then SearchItem callID arguments
        else
          let itemID := if negb (bool_decide (tc_Signature call = [])) && negb (isJSONObject (tc_Signature call)) then string_of (tc_Signature call) else itemID in
          CallItem (if keepReasoning then itemID else "") callID name arguments).

(** [responsesAssistantItems]. *)
Definition responsesAssistantItems (layout : option deferredLayout) (message : Message) (keepReasoning : bool) : encoder (list inputItem) :=
  said ← of_result (said_items keepReasoning "" (m_Parts message));
  calls ← mapM (call_item layout keepReasoning) (m_ToolCalls message);
  mret (said ++ calls).

Definition function_tool (entry : layoutTool) (defer : bool) : encoder responsesTool :=
  name ← assign (ts_ID (ly_spec entry));
  parameters ← of_result (toolSchema (ly_spec entry) object_schema);
  mret (MkResponsesTool name (ts_Description (ly_spec entry)) parameters defer).

(** [responsesLoadedTools]; [entries] are the Tools of the layout with an ID that is referred to. *)
Definition loaded_entries (layout : option deferredLayout) (result : option ToolResult) : list layoutTool :=
  match layout with
  | Some l => references layout result ≫= fun id => filter (fun entry => ts_ID (ly_spec entry) = id) (dl_tools l)
  | None => []
  end.
Definition responsesLoadedTools (layout : option deferredLayout) (result : option ToolResult) : encoder (list responsesTool) :=
  mapM (fun entry => function_tool entry true) (loaded_entries layout result).

(** [responsesToolResultItems]. *)
Definition responsesToolResultItems (layout : option deferredLayout) (message : Message) : encoder (list inputItem) :=
  let id := match m_ToolResult message with Some r => tr_CallID r | None => "" end in
  let callID := fst (splitResponsesCallID id) in
  if String.eqb callID "" then refuse_with NoCallID
  else if is_search layout id then
    loaded ← responsesLoadedTools layout (m_ToolResult message); mret [FoundItem callID loaded]
  else mret [ResultItem callID (toolResultOutput message)].

(** [convertResponsesMessage]. *)
Definition convertResponsesMessage (layout : option deferredLayout) (keepReasoning : bool) (message : Message) : encoder (list inputItem) :=
  let role := m_Role message in
  if bool_decide (role ∈ [RoleUser; RoleNotice]) then
    content ← of_result (responsesInputContent (m_Parts message));
    mret (match content with [] => [] | _ => [UserItem content] end)
  else if String.eqb role RoleAssistant then responsesAssistantItems layout message keepReasoning
  else if String.eqb role RoleToolResult then responsesToolResultItems layout message
  else refuse_with (UnsupportedRole role).

Definition tool_item (layout : option deferredLayout) (entry : layoutTool) : encoder toolItem :=
  tool ← function_tool entry (ly_deferred entry);
  mret (if bool_decide (is_Some layout) && isSearchToolID (ts_ID (ly_spec entry)) then SearchTool (rt_Description tool) (rt_Parameters tool)
        else FunctionTool tool).

Definition reasoning_of (sampling : Sampling) : option responsesReasoning :=
  if String.eqb (sa_ReasoningEffort sampling) "" && String.eqb (sa_ReasoningSummary sampling) "" then None
  else Some (MkResponsesReasoning (sa_ReasoningEffort sampling) (if String.eqb (sa_ReasoningSummary sampling) "" then "auto" else sa_ReasoningSummary sampling)).

Definition responses_payload (model : ModelConfig) (sampling : Sampling) (request : ModelRequest) (native : bool) : encoder responsesRequest :=
  let layout := newDeferredLayout request native in
  items ← each_message (convertResponsesMessage layout) (mf_RoundReasoning (mo_Facts model)) (roundStart (mr_Messages request)) (imap pair (mr_Messages request));
  tools ← mapM (tool_item layout) (orderedTools layout request);
  mret (MkResponsesRequest (mo_Name model) true (mr_SystemInstructions request) (mjoin items) tools (reasoning_of sampling)
    (sa_Temperature sampling) (sa_MaxTokens sampling)
    (if Z.eqb (mf_CacheRetention (mo_Facts model)) responsesCacheTTL then Some "30m" else None)).

Definition responsesPayload (model : ModelConfig) (sampling : Sampling) (request : ModelRequest) (native : bool) :
  result encodeError (gmap bytes bytes * responsesRequest) :=
  with_names request (responses_payload model sampling request native).

(** [encodeResponsesRequest]. *)
Definition encodeResponsesRequest `{Marshal responsesRequest} (model : ModelConfig) (sampling : Sampling) (request : ModelRequest) (native : bool) :
  result encodeError (bytes * gmap bytes bytes) :=
  let? (names, payload) := responsesPayload model sampling request native in
  match marshal payload with Ok body => Ok (body, names) | Err err => Err (MarshalFailed err) end.

Definition responsesCacheKeyField (field : string) : string := if String.eqb field "" then defaultResponsesCacheKeyField else field.

(** [Responses.Validate], and the body of [Responses.Encode]. *)
Definition ResponsesValidate (cacheKeyField form : string) : result encodeError bool :=
  let? _ := native_form form in
  Ok (checkCacheKeyField (responsesCacheKeyField cacheKeyField) responses_tags responsesReservedFields).

Definition ResponsesEncode `{Marshal responsesRequest} (cacheKeyField form : string) (model : ModelConfig) (sampling : Sampling) (request : ModelRequest)
  (cacheKey : string) : result encodeError (bytes * gmap bytes bytes) :=
  let? native := native_form form in
  let? (body, names) := encodeResponsesRequest model sampling request native in
  let? body := withCacheKeyField body (responsesCacheKeyField cacheKeyField) cacheKey in
  Ok (body, names).

(** ** Every call has its output *)

(** A call of an item, and whether it is a search. *)
Definition item_step (open : list (bool * string)) (item : inputItem) : option (list (bool * string)) :=
  let answers found callID :=
    match open with
    | (search, id) :: rest => if eqb search found && String.eqb id callID then Some rest else None
    | [] => None
    end in
  match item with
  | CallItem _ callID _ _ => Some (open ++ [(false, callID)])
  | SearchItem callID _ => Some (open ++ [(true, callID)])
  | ResultItem callID _ => answers false callID
  | FoundItem callID _ => answers true callID
  | UserItem _ | OutputItem _ | ReasoningItem _ => match open with [] => Some [] | _ => None end
  end.

Definition item_run (open : list (bool * string)) (items : list inputItem) : option (list (bool * string)) :=
  foldl (fun open item => open ≫= fun open => item_step open item) (Some open) items.

Lemma item_run_app open a b : item_run open (a ++ b) = item_run open a ≫= fun open => item_run open b.
Proof. unfold item_run. rewrite foldl_app. destruct (foldl _ (Some open) a); [done|]. cbn. apply step_none. Qed.

Lemma item_run_cons open item items : item_run open (item :: items) = item_step open item ≫= fun open => item_run open items.
Proof. apply (item_run_app open [item] items). Qed.

(** The call that an ID of the Transcript is written as. *)
Definition sent_call (layout : option deferredLayout) (id : string) : bool * string := (is_search layout id, fst (splitResponsesCallID id)).

Lemma flushed_run text : item_run [] (flushed text) = Some [].
Proof. unfold flushed. by destruct (String.eqb _ _). Qed.

Lemma said_run keep text parts items : said_items keep text parts = Ok items -> item_run [] items = Some [].
Proof.
  revert text items. induction parts as [|part parts IH]; intros text items; cbn; [intros [= <-]; apply flushed_run|].
  destruct (String.eqb _ _).
  - destruct (_ || _); [apply IH|]. destruct (valid_json _); [|done]. destruct (said_items keep "" parts) as [more|] eqn:E; [|done]. cbn. intros [= <-].
    rewrite item_run_app, flushed_run. cbn [mbind option_bind]. rewrite item_run_cons. cbn [item_step mbind option_bind]. by eapply IH.
  - destruct (String.eqb _ _); [apply IH|]. destruct (_ && _); [done|apply IH].
Qed.

Lemma call_item_step layout keep call names left item open : call_item layout keep call names = Ok (left, item) ->
  item_step open item = Some (open ++ [sent_call layout (tc_ID call)]).
Proof.
  intros (n & name & _ & Hr)%bind_ok. cbv zeta in Hr. unfold sent_call. destruct (splitResponsesCallID (tc_ID call)) as [callID itemID].
  apply ret_ok in Hr as [_ ->]. by destruct (is_search _ _).
Qed.

Lemma calls_run_items layout keep calls names left items open : mapM (call_item layout keep) calls names = Ok (left, items) ->
  item_run open items = Some (open ++ (sent_call layout ∘ tc_ID <$> calls)).
Proof.
  intros Hm%mapM_each. revert open. induction Hm as [|call item calls items (n & n' & Hc) _ IH]; intros open; [by rewrite app_nil_r|].
  rewrite item_run_cons, (call_item_step _ _ _ _ _ _ open Hc). cbn [mbind option_bind]. rewrite IH, <- app_assoc. done.
Qed.

Lemma convert_run layout keep open open' m names left items :
  message_step open m = Some open' -> convertResponsesMessage layout keep m names = Ok (left, items) ->
  item_run (sent_call layout <$> open) items = Some (sent_call layout <$> open').
Proof.
  unfold message_step, convertResponsesMessage. intros Hs Hc. destruct open as [|id open].
  - case_bool_decide as Hu.
    + assert (String.eqb (m_Role m) RoleToolResult = false /\ String.eqb (m_Role m) RoleAssistant = false) as [E1 E2].
      { apply elem_of_cons in Hu as [Hu|Hu%list_elem_of_singleton]; by rewrite Hu. }
      rewrite E1, E2 in Hs. injection Hs as <-. apply bind_ok in Hc as (? & content & _ & [_ ->]%ret_ok). by destruct content.
    + destruct (String.eqb (m_Role m) RoleToolResult) eqn:Et; [done|]. destruct (String.eqb (m_Role m) RoleAssistant); [|done]. injection Hs as <-.
      apply bind_ok in Hc as (? & said & [_ Hsaid]%result_ok & (? & calls & Hcalls & [_ ->]%ret_ok)%bind_ok).
      rewrite item_run_app. cbn [fmap list_fmap]. rewrite (said_run _ _ _ _ Hsaid). cbn [mbind option_bind].
      rewrite (calls_run_items _ _ _ _ _ _ [] Hcalls). cbn. by rewrite <- list_fmap_compose.
  - destruct (answers_call id m) eqn:Ha; [|done]. injection Hs as <-. unfold answers_call in Ha. apply andb_true_iff in Ha as [Hr Hid].
    apply String.eqb_eq in Hr. rewrite Hr in Hc. rewrite bool_decide_false in Hc by set_solver. cbn in Hc.
    unfold responsesToolResultItems in Hc. destruct (m_ToolResult m) as [r|]; [|done]. apply String.eqb_eq in Hid as <-. cbv zeta in Hc.
    destruct (String.eqb (splitResponsesCallID (tr_CallID r)).1 ""); [done|]. unfold sent_call at 1. cbn [fmap list_fmap]. destruct (is_search layout (tr_CallID r)).
    + apply bind_ok in Hc as (? & loaded & _ & [_ ->]%ret_ok). cbn. by rewrite String.eqb_refl.
    + apply ret_ok in Hc as [_ ->]. cbn. by rewrite String.eqb_refl.
Qed.

Lemma each_convert_run layout rr start ms names left itemss open open' :
  each_message (convertResponsesMessage layout) rr start ms names = Ok (left, itemss) ->
  foldl (fun open m => open ≫= fun open => message_step open m) (Some open) ms.*2 = Some open' ->
  item_run (sent_call layout <$> open) (mjoin itemss) = Some (sent_call layout <$> open').
Proof.
  intros Hm%mapM_each. revert open. induction Hm as [|[i m] items ms itemss (n & n' & Hc) _ IH]; intros open Hf; [cbn in Hf; by injection Hf as <-|].
  cbn in Hf. change (mjoin (items :: itemss)) with (items ++ mjoin itemss). destruct (message_step open m) as [mid|] eqn:Es; cbn in Hf; [|exfalso; clear - Hf; by induction ms.*2].
  rewrite item_run_app, (convert_run _ _ _ _ _ _ _ _ Es Hc). by apply IH.
Qed.

Lemma responses_answered model sampling request native names payload :
  responsesPayload model sampling request native = Ok (names, payload) -> answered (mr_Messages request) -> item_run [] (rq_Input payload) = Some [].
Proof.
  unfold responsesPayload, with_names. destruct (functionNames request) as [names0|[]]; [|done].
  intros (n & itemss & Hm & (? & tools & _ & [_ ->]%ret_ok)%bind_ok)%bind_ok Ha. cbn [rq_Input].
  apply (each_convert_run _ _ _ _ _ _ _ [] [] Hm). assert ((imap pair (mr_Messages request)).*2 = mr_Messages request) as ->; [|exact Ha].
  apply list_eq. intros i. rewrite list_lookup_fmap, list_lookup_imap. by destruct (_ !! i).
Qed.
End items.

(** ** What the next request shares *)

Section prefix.
Context `{HexHash, ChatJson, WireText}.

Lemma function_tool_agrees names names' entry defer : agrees names names' (assign (ts_ID (ly_spec entry))) -> agrees names names' (function_tool entry defer).
Proof. intros Ha. apply agrees_bind; [done|]. intros name. apply agrees_bind; [apply agrees_result|]. intros; apply agrees_ret. Qed.

Lemma tool_item_agrees names names' layout entry : agrees names names' (assign (ts_ID (ly_spec entry))) -> agrees names names' (tool_item layout entry).
Proof. intros Ha. apply agrees_bind; [by apply function_tool_agrees|]. intros; apply agrees_ret. Qed.

Lemma convert_agrees names names' layout keep m :
  (forall call, call ∈ m_ToolCalls m -> agrees names names' (assign (tc_ToolID call))) ->
  (forall entry, entry ∈ loaded_entries layout (m_ToolResult m) -> agrees names names' (assign (ts_ID (ly_spec entry)))) ->
  agrees names names' (convertResponsesMessage layout keep m).
Proof.
  intros Hc Hl. unfold convertResponsesMessage, responsesToolResultItems. cbv zeta. repeat apply agrees_if; try apply agrees_refuse; try apply agrees_ret.
  - apply agrees_bind; [apply agrees_result|]. intros; apply agrees_ret.
  - apply agrees_bind; [apply agrees_result|]. intros said. apply agrees_bind; [|intros; apply agrees_ret].
    apply agrees_mapM. intros call Hin. apply agrees_bind; [by apply Hc|]. intros name. destruct (splitResponsesCallID _). apply agrees_ret.
  - apply agrees_bind; [|intros; apply agrees_ret]. apply agrees_mapM. intros entry Hin. by apply function_tool_agrees, Hl.
Qed.

Lemma loaded_known native request r entry :
  entry ∈ loaded_entries (newDeferredLayout request native) r -> bytes_of (ts_ID (ly_spec entry)) ∈ request_ids request.
Proof.
  intros Hin. apply (ordered_known native). unfold loaded_entries in Hin. unfold orderedTools. destruct (newDeferredLayout request native) as [l|]; [|by apply elem_of_nil in Hin].
  apply list_elem_of_bind in Hin as (id & Hf & _). by apply list_elem_of_filter in Hf as [_ ?].
Qed.

(** A history whose calls each layout takes for the same kind. *)
Definition same_searches (layout layout' : option deferredLayout) (messages : list Message) : Prop :=
  forall m, m ∈ messages ->
    (forall call, call ∈ m_ToolCalls m -> is_search layout' (tc_ID call) = is_search layout (tc_ID call)) /\
    (forall r, m_ToolResult m = Some r -> is_search layout' (tr_CallID r) = is_search layout (tr_CallID r)).

Lemma elem_of_take_in {A : Type} (x : A) n l : x ∈ take n l -> x ∈ l.
Proof. intros (i & Hi)%list_elem_of_lookup_1. apply lookup_take_Some in Hi as [Hi _]. by eapply list_elem_of_lookup_2. Qed.

Lemma mapM_ext {A B : Type} (f g : A -> encoder B) l : (forall x, x ∈ l -> f x = g x) -> mapM f l = mapM g l.
Proof.
  induction l as [|x l IH]; intros He; [done|]. cbn. rewrite (He x) by (by left). rewrite IH; [done|]. intros y Hy. apply He. by right.
Qed.

Lemma convert_layout native request request' keep m messages : continues native request request' ->
  same_searches (newDeferredLayout request native) (newDeferredLayout request' native) messages -> m ∈ messages ->
  convertResponsesMessage (newDeferredLayout request' native) keep m = convertResponsesMessage (newDeferredLayout request native) keep m.
Proof.
  intros Hc Hs Hin. destruct (Hs m Hin) as [Hcalls Hres]. unfold convertResponsesMessage, responsesAssistantItems.
  rewrite (mapM_ext (call_item (newDeferredLayout request' native) keep) (call_item (newDeferredLayout request native) keep)).
  2:{ intros call Hcall. unfold call_item. by rewrite (Hcalls call Hcall). }
  assert (responsesToolResultItems (newDeferredLayout request' native) m = responsesToolResultItems (newDeferredLayout request native) m) as ->; [|done].
  unfold responsesToolResultItems. destruct (m_ToolResult m) as [r|] eqn:Er.
  - rewrite (Hres r eq_refl). unfold responsesLoadedTools, loaded_entries. pose proof (ct_references _ _ _ Hc (Some r)) as Href.
    pose proof (ct_layout _ _ _ Hc) as Hl. pose proof (ct_tools _ _ _ Hc) as Ht. unfold orderedTools in Ht.
    destruct (newDeferredLayout request' native) as [l'|], (newDeferredLayout request native) as [l|]; try done.
    1: by rewrite Href, Ht.
    all: destruct Hl as [Ha Hb]; first [destruct (is_Some_None (Ha (mk_is_Some _ _ eq_refl)))|destruct (is_Some_None (Hb (mk_is_Some _ _ eq_refl)))].
  - done.
Qed.
Lemma responses_named model sampling request native names payload :
  responsesPayload model sampling request native = Ok (names, payload) ->
  exists names0 itemss, functionNames request = Ok names0 /\
    each_message (convertResponsesMessage (newDeferredLayout request native)) (mf_RoundReasoning (mo_Facts model)) (roundStart (mr_Messages request))
      (imap pair (mr_Messages request)) names0 = Ok (names0, itemss) /\
    mapM (tool_item (newDeferredLayout request native)) (orderedTools (newDeferredLayout request native) request) names0 = Ok (names0, rq_Tools payload) /\
    rq_Input payload = mjoin itemss /\ rq_Instructions payload = mr_SystemInstructions request.
Proof.
  unfold responsesPayload, with_names. destruct (functionNames request) as [names0|[]] eqn:Hn; [|done].
  intros (n & itemss & Hm & (n' & tools & Ht & [_ ->]%ret_ok)%bind_ok)%bind_ok. exists names0, itemss. split; [done|].
  assert (agrees names0 names0 (each_message (convertResponsesMessage (newDeferredLayout request native)) (mf_RoundReasoning (mo_Facts model))
    (roundStart (mr_Messages request)) (imap pair (mr_Messages request)))) as Ap.
  { apply each_agrees. intros keep i m Hin%imap_pair_in%list_elem_of_lookup_2. apply convert_agrees.
    - intros call Hc. eapply assign_in_request; [done|by eapply call_known].
    - intros entry He. eapply assign_in_request; [done|by eapply loaded_known]. }
  assert (agrees names0 names0 (mapM (tool_item (newDeferredLayout request native)) (orderedTools (newDeferredLayout request native) request))) as At.
  { apply agrees_mapM. intros entry He. apply tool_item_agrees. eapply assign_in_request; [done|by eapply ordered_known]. }
  destruct (Ap _ _ Hm) as [-> _]. destruct (At _ _ Ht) as [-> _]. by split_and!.
Qed.

Lemma responses_prefix model sampling sampling' request request' native names names' p p' :
  continues native request request' -> same_searches (newDeferredLayout request native) (newDeferredLayout request' native) (mr_Messages request) ->
  responsesPayload model sampling request native = Ok (names, p) -> responsesPayload model sampling' request' native = Ok (names', p') ->
  exists names0 firsts rest rest',
    each_message (convertResponsesMessage (newDeferredLayout request native)) (mf_RoundReasoning (mo_Facts model)) (roundStart (mr_Messages request))
      (take (shared (mf_RoundReasoning (mo_Facts model)) (mr_Messages request)) (imap pair (mr_Messages request))) names0 = Ok (names0, firsts) /\
    rq_Input p = mjoin firsts ++ rest /\ rq_Input p' = mjoin firsts ++ rest' /\ (mf_RoundReasoning (mo_Facts model) = false -> rest = []) /\
    rq_Tools p' = rq_Tools p /\ rq_Instructions p' = rq_Instructions p.
Proof.
  intros Hc Hs (n0 & xs & Hn & Hm & Ht & Hp & Hi)%responses_named (n0' & xs' & Hn' & Hm' & Ht' & Hp' & Hi')%responses_named.
  destruct (ct_messages _ _ _ Hc) as [more Hmore]. rewrite Hmore in Hm'. set (L := newDeferredLayout request native) in *. set (L' := newDeferredLayout request' native) in *.
  assert (forall keep m, m ∈ mr_Messages request -> convertResponsesMessage L keep m = convertResponsesMessage L' keep m) as Hsame.
  { intros keep m Hin. symmetry. by eapply convert_layout. }
  rewrite (each_ext _ (convertResponsesMessage L')) in Hm by (intros keep i m Hin%imap_pair_in%list_elem_of_lookup_2; by apply Hsame).
  destruct (each_shared (convertResponsesMessage L') (mf_RoundReasoning (mo_Facts model)) (mr_Messages request) more n0 n0' n0 n0' xs xs') as (firsts & rest & rest' & Hf & -> & -> & Hrr);
    [done|done| | |].
  - intros keep m Hin. rewrite <- Hsame by done. apply convert_agrees.
    + intros call Hcall. eapply known_before; [done..|]. by eapply call_known.
    + intros entry He. eapply known_before; [done..|]. by eapply loaded_known.
  - intros keep m Hin. rewrite <- Hmore in Hin. apply convert_agrees.
    + intros call Hcall. eapply known_after; [done|]. by eapply call_known.
    + intros entry He. eapply known_after; [done|]. by eapply loaded_known.
  - exists n0, firsts, (mjoin rest), (mjoin rest'). rewrite Hp, Hp', !join_app, Hi, Hi', (ct_system _ _ _ Hc). split; [|split; [done|split; [done|split; [by intros E; rewrite Hrr|split; [|done]]]]].
    + rewrite (each_ext _ (convertResponsesMessage L')); [done|]. intros keep i m Hin. apply Hsame.
      apply (list_elem_of_lookup_2 _ i). apply imap_pair_in. by eapply elem_of_take_in.
    + pose proof (ct_tools _ _ _ Hc) as Hto. fold L L' in Hto. rewrite Hto in Ht'.
      assert (forall entry, tool_item L' entry = tool_item L entry) as He.
      { intros entry. unfold tool_item. pose proof (ct_layout _ _ _ Hc) as Hl. fold L L' in Hl. by rewrite (bool_decide_ext _ _ Hl). }
      assert (agrees n0 n0' (mapM (tool_item L) (orderedTools L request))) as At.
      { apply agrees_mapM. intros entry Hin. apply tool_item_agrees. eapply known_before; [done..|]. by eapply ordered_known. }
      destruct (At _ _ Ht) as [_ Ht2]. rewrite (mapM_ext (tool_item L') (tool_item L)) in Ht' by done. congruence.
Qed.
End prefix.

(** ** The cache key *)

Section key.
Context `{Encoding}.

(** The key goes into an object as one more member, after those it has, which stay as they are. *)
Lemma cache_key_added body inner field key : body = "{"%char :: inner ++ ["}"%char] ->
  field_name field <> "" -> field_name field <> cacheKeyFieldNone -> key <> "" ->
  withCacheKeyField body field key =
  Ok ("{"%char :: inner ++ (match inner with [] => [] | _ => [","%char] end) ++ json_string (field_name field) ++ ":"%char :: json_string key ++ ["}"%char]).
Proof.
  intros -> Hf Hn Hk. unfold withCacheKeyField. rewrite !(proj2 (String.eqb_neq _ _)) by done. cbn [orb].
  assert (forall x y : ascii, last (x :: inner ++ [y]) = Some y) as Hl by (intros x y; rewrite app_comm_cons; apply last_snoc).
  assert (forall x y : ascii, removelast (x :: inner ++ [y]) = x :: inner) as Hr by (intros x y; rewrite app_comm_cons; apply removelast_last).
  specialize (Hl "{"%char "}"%char). specialize (Hr "{"%char "}"%char). destruct inner as [|c inner]; [done|]. cbn [app] in *. rewrite Hl, Hr.
  cbn [length]. rewrite length_app. cbn [length]. destruct (Nat.ltb_spec 2 (S (S (length inner + 1)))); [done|lia].
Qed.

(** A field that is let through is none of the request's own. *)
Lemma cache_key_field_free field tags reserved : checkCacheKeyField field tags reserved = true ->
  field_name field <> "" -> field_name field <> cacheKeyFieldNone -> field_name field ∉ tags ++ reserved.
Proof.
  unfold checkCacheKeyField. intros Hc Hf Hn Hin. rewrite !(proj2 (String.eqb_neq _ _)) in Hc by done. cbn [orb] in Hc.
  apply negb_true_iff in Hc.
  assert (existsb (fun tag => bool_decide (ProfileDoc.fold_name tag = ProfileDoc.fold_name (field_name field))) (tags ++ reserved) = true) as He; [|congruence].
  apply existsb_exists. exists (field_name field). split; [by apply list_elem_of_In|by apply bool_decide_eq_true].
Qed.
End key.

(** ** Calls and their results *)

(** C31: A history whose calls are all answered is sent with every call answered.  To the Chat
    Completions API, each message with Tool calls is followed by one message for each, in their order,
    and no other message is an answer; to the Responses API, each call is followed by an output that
    names it, of its kind, in their order and before anything else is said.  Leaving out the
    reasoning of earlier Rounds, or the replies that were reasoning only, changes nothing of it. *)
Theorem requests_answer_every_call `{Encoding, ChatJson, WireText} model sampling request native :
  answered (mr_Messages request) ->
  (forall names p, chatPayload model sampling request = Ok (names, p) -> chat_run [] (xq_Messages p) = Some []) /\
  (forall names p, responsesPayload model sampling request native = Ok (names, p) -> item_run [] (rq_Input p) = Some []).
Proof.
  intros Ha. split; intros names p Hp.
  - by eapply chat_answered.
  - by eapply responses_answered.
Qed.

(** ** The prompt cache *)

(** The next request of a Session with a catalog: Tools were loaded and Messages were added. *)
Record next_request `{Encoding} (specs : list ToolSpec) (request request' : ModelRequest) : Prop := {
  nx_loads : loads specs request request';
  nx_distinct : distinct_tools request;
  nx_catalog : is_Some (newDeferredLayout request true);
  nx_messages : exists more, mr_Messages request' = mr_Messages request ++ more;
  nx_system : mr_SystemInstructions request' = mr_SystemInstructions request;
}.

(** The calls that the Messages added make have IDs of their own. *)
Definition call_ids (m : Message) : list ToolCallID :=
  (tc_ID <$> m_ToolCalls m) ++ match m_ToolResult m with Some r => [tr_CallID r] | None => [] end.

Definition new_calls (request request' : ModelRequest) : Prop :=
  forall m call m', m ∈ drop (length (mr_Messages request)) (mr_Messages request') -> call ∈ m_ToolCalls m ->
  m' ∈ mr_Messages request -> tc_ID call ∉ call_ids m'.

Lemma search_calls_app ms more : search_calls (ms ++ more) = search_calls ms ++ search_calls more.
Proof. unfold search_calls. by rewrite bind_app. Qed.

(** So a call that was made before is of the kind it was. *)
Lemma kinds_kept `{Encoding} specs request request' l :
  loads specs request request' -> distinct_tools request -> newDeferredLayout request true = Some l ->
  (exists more, mr_Messages request' = mr_Messages request ++ more) -> new_calls request request' ->
  same_searches (newDeferredLayout request true) (newDeferredLayout request' true) (mr_Messages request).
Proof.
  intros Hl Hd Hlay [more Hm] Hnew. destruct (tool_list_kept_by_loads specs request request' l Hl Hd Hlay) as (l' & Hlay' & _).
  assert (forall m id, m ∈ mr_Messages request -> id ∈ call_ids m ->
    is_search (newDeferredLayout request' true) id = is_search (newDeferredLayout request true) id) as Hall.
  { intros m id Hin Hid. rewrite Hlay, Hlay'. unfold newDeferredLayout in Hlay, Hlay'. case_match; [done|]. case_match; [done|].
    injection Hlay as <-. injection Hlay' as <-. cbn. rewrite Hm, search_calls_app. apply bool_decide_ext.
    rewrite !elem_of_list_to_set, elem_of_app. split; [|by left]. intros [Hs|Hs]; [done|].
    unfold search_calls in Hs. apply list_elem_of_bind in Hs as (m' & Hs & Hm'). apply list_elem_of_fmap in Hs as (call & -> & Hc).
    apply list_elem_of_filter in Hc as [_ Hc]. destruct (Hnew m' call m); [|done..|done]. by rewrite Hm, drop_app_length. }
  intros m Hin. split; [intros call Hc|intros r Hr]; apply (Hall m); try done; unfold call_ids; rewrite elem_of_app.
  - left. apply list_elem_of_fmap. by exists call.
  - right. rewrite Hr. by left.
Qed.


(** ** Samples *)

#[local] Existing Instance sample_hash.
#[local] Existing Instance sample_hex.
#[local] Existing Instance sample_json.
#[local] Existing Instance sample_text.
#[local] Existing Instance sample_base64.

Lemma sample_answered : answered (mr_Messages sample_request).
Proof. vm_compute. reflexivity. Qed.

Definition sample_input : list inputItem :=
  match responsesPayload sample_model no_sampling sample_request true with Ok (_, p) => rq_Input p | Err _ => [] end.

Lemma requests_answer_every_call_witness :
  length sample_input = 7 /\ item_run [] sample_input = Some [] /\
  forall names p, chatPayload sample_model no_sampling sample_request = Ok (names, p) -> chat_run [] (xq_Messages p) = Some [].
Proof.
  destruct (requests_answer_every_call sample_model no_sampling sample_request true sample_answered) as [Hchat Hresp].
  split; [vm_compute; reflexivity|]. split; [|exact Hchat].
  assert (is_ok (responsesPayload sample_model no_sampling sample_request true) = true) as Hok by (vm_compute; reflexivity).
  apply is_ok_inv in Hok as [[names p] E]. assert (sample_input = rq_Input p) as -> by (unfold sample_input; by rewrite E). by eapply Hresp.
Defined.

(** A search that loads a Tool: the request before it, and the one after. *)
Definition search_asked : Message := (AssistantMessage "") <| m_ToolCalls := [MkToolCall "call" "search_tools" (bytes_of "{}") []] |>.

Definition next_load : ModelRequest := after_load <| mr_Messages := [UserMessage "hi"; search_asked; loading_result ["m"]] |>.

Lemma plain_no_collisions ids : Forall (fun id => plainFunctionName id = true) ids -> no_collisions ids.
Proof.
  intros Hp i j Hi Hj. rewrite list.Forall_forall in Hp. by rewrite !provider_own by (by apply Hp).
Qed.

Lemma sample_next : next_request [deferred_tool "m"] before_load next_load.
Proof.
  split.
  - split; cbn; try done.
    + intros id. rewrite !list_elem_of_singleton. split; [by right|]. by intros [?%not_elem_of_nil|?].
    + intros id Hid. by apply not_elem_of_nil in Hid.
  - apply (bool_decide_eq_true_1 (NoDup _)). vm_compute. reflexivity.
  - vm_compute. by eexists.
  - by eexists.
  - done.
Qed.

Lemma sample_distinct_names : no_collisions (request_ids next_load).
Proof. apply plain_no_collisions, (bool_decide_eq_true_1 (Forall _ _)). vm_compute. reflexivity. Qed.

Lemma sample_new_calls : new_calls before_load next_load.
Proof. intros m call m' _ _ ->%list_elem_of_singleton. cbn. apply not_elem_of_nil. Qed.

Definition tools_sent (request : ModelRequest) : list anthropicTool :=
  match anthropicPayload sample_model no_sampling request true with Ok (_, p) => aq_Tools p | Err _ => [] end.


(** Two Tools whose IDs are written alike, as [a.b] and [a/b]: when the second is loaded the two names
    change hands, so the list of Tools is another. *)
Definition twins_before : ModelRequest := MkRequest "" [UserMessage "hi"] [deferred_tool "search_tools"] [] [deferred_tool "a.b"; deferred_tool "a/b"] [] "".
Definition twins_after : ModelRequest :=
  MkRequest "" [UserMessage "hi"; search_asked; loading_result ["a/b"]] [deferred_tool "a/b"; deferred_tool "search_tools"] ["a/b"] [deferred_tool "a.b"] [] "".

Definition tool_names (request : ModelRequest) : list string := at_Name <$> tools_sent request.

Lemma names_change_hands :
  loads [deferred_tool "a/b"] twins_before twins_after /\
  tool_names twins_before = ["search_tools"; "a_b"; "a_b_0123456789abcdef"] /\ tool_names twins_after = ["search_tools"; "a_b_0123456789abcdef"; "a_b"].
Proof.
  split; [|split; vm_compute; reflexivity]. split; cbn; try done.
  - apply Permutation_swap.
  - intros id. rewrite !list_elem_of_singleton. split; [by right|]. by intros [?%not_elem_of_nil|?].
  - intros id Hid. by apply not_elem_of_nil in Hid.
Qed.
